(* ===== verification/_CoqProject ===== *)
-Q . S2P
Prelude.v
Crc32c.v
WireV1.v
WireV1Facts.v
Sha256.v
WireV2.v
WireV2Facts.v
GoStrings.v
VolumeId.v
Protocol.v
GatewayTypes.v
MemoryMetadata.v
MemoryMetadataFacts.v
ObjectStore.v
ObjectStoreFacts.v
ChunkMap.v
Discard.v
ChunkExtent.v
DataWorld.v
ReadFacts.v
WriteFacts.v
PageWrite.v
WriteRange.v
MemoryWorld.v
ChunkGC.v
ChunkGCFacts.v
Handoff.v
Metrics.v
Service.v
ServiceFacts.v
HandoffFacts.v
Placement.v
PlacementFacts.v
SbsTypes.v
MetaTypes.v
AllocationCommit.v
AllocationCommitFacts.v
WritePipeline.v
WritePipelineFacts.v
MetaPages.v
MetaPagesFacts.v
MetaRepo.v
MetaRepoFacts.v
Executor.v
ExecutorFacts.v
MetaSnapshots.v
MetaSnapshotsFacts.v
Resolver.v
LocalReplica.v
LocalReplicaFacts.v
CowFacts.v
PayloadGC.v
PayloadGCFacts.v
PayloadSweepFacts.v
DrTransfer.v
DrShipping.v
DrShippingFacts.v
DrFencing.v
Netlink.v
NetlinkFacts.v
NetlinkStatusFacts.v
LocalStore.v
LocalStoreFacts.v
StoreConfig.v
StoreOpen.v
CachedMetadata.v
CachedMetadataFacts.v
CachedWorld.v
PathPlan.v
PathPlanFacts.v
EcPlacement.v
EcPlacementFacts.v
DataPlane.v
DataPlaneFacts.v
