(* ===== verification/Prelude.v ===== *)
(** * NAMRBD: a verified model of the block-storage gateway and the replicated store

    NAMRBD serves block volumes over the network.  A client (the kernel module
    or an iSCSI target) talks the wire protocol to a gateway; the gateway keeps
    volume metadata in a repository and data either as chunk objects in an
    object store (the chunk/extent data path) or in the storage cluster SBS,
    which replicates every write and commits it in a transactional metadata
    repository.  This library models these layers and proves what each
    promises to the next.

    ** Layout

    Shared.  [Prelude]: record update, the outcome type [result] ([Ok], [Err],
    [Panic]) and the state-and-error monad [act], machine integers, byte lists,
    tactics and hints.  [GoStrings]: formatting and trimming of strings.

    Wire protocols (src/protocol).  [Crc32c], [Sha256]: the checksums the
    standard library computes.  [WireV1], [WireV1Facts]: headers, codec, bodies,
    incremental stream decoder and connection of protocol v1 (wirev1/types.go,
    codec.go, body.go, stream_decoder.go, conn.go).  [WireV2], [WireV2Facts]:
    authenticated frames and the replay window of v2 (wirev2).  [Protocol]: the
    opcode multiplexer, the status policy and the request sequencer
    (wirev1/dispatch.go, policy/status.go, session/sequencer.go).  [VolumeId]:
    volumeid/volumeid.go.

    Gateway (src/gateway).  [GatewayTypes]: the records of service/repository.go
    with their normalization and validation.  [MemoryMetadata],
    [MemoryMetadataFacts]: the metadata repository of memory_metadata.go, one
    definition per method.  [ObjectStore], [ObjectStoreFacts]: store/store.go as
    the class [ObjectStore], store/memory.go as its instance, and the object keys
    of chunk_payload.go.  [ChunkMap], [Discard], [ChunkExtent]: the data
    repository of chunk_extent_data.go, written against the classes
    [ExtentMetadata] and [ObjectStore].  [DataWorld] states what the data path
    relies on as a class of laws and defines the flat byte view of a volume;
    [ReadFacts], [WriteFacts], [PageWrite], [WriteRange] are proved against that
    interface, and [MemoryWorld] discharges it for the in-memory stores.
    [ChunkGC], [ChunkGCFacts]: chunk_gc.go and chunk_gc_bounded.go.  [Handoff],
    [HandoffFacts]: handoff.go and reconcile_gate.go.  [PathPlan], [PathPlanFacts]:
    path_plan_status.go and gateway_fleet.go.  [Metrics], [Service],
    [ServiceFacts]: metrics.go and service.go.  [CachedMetadata]: the cache of
    cached_metadata.go over the interface [MetadataRepository];
    [CachedMetadataFacts] compares it with the repository behind it, [CachedWorld]
    runs the data path of two gateways over one repository.  [DataPlane],
    [DataPlaneFacts]: the server of dataplane/server.go and session.go on the bytes of
    a connection, with the session keys of auth/token.go.

    Storage cluster (src/sbs/cluster).  [Placement], [PlacementFacts]:
    placement/policy.go.  [EcPlacement], [EcPlacementFacts]: placement/ec_policy.go
    and the profiles of metadata/ec_profile.go.  [SbsTypes], [MetaTypes]: the records of metadata/types.go
    and the requests of replication and metadata.  [AllocationCommit],
    [AllocationCommitFacts]: what allocation pages say about a chunk and the page
    states a write commits (replication/allocation_*.go).  [WritePipeline],
    [WritePipelineFacts]: target selection (coordinator.go), the write state
    machine (write_state.go), PrepareAllocationCommit (executor.go) and the payload
    phase of WriteService.Write (service.go).  [MetaPages], [MetaPagesFacts]: the
    page arithmetic of metadata/repository.go.  [MetaRepo], [MetaRepoFacts]: its
    write path: intents, the volume-scoped, page-scoped and range-local commits,
    their effects, the bootstrap of volumes without native pages, and primary
    failover.  [Executor], [ExecutorFacts]: executor.go and WriteService.Write
    against the class [IntentStore] and a record of committers, with the
    repository as instance.
    [MetaSnapshots], [MetaSnapshotsFacts]: the snapshot and clone records, captured
    and delta pages of metadata/repository.go.  [Resolver]: metadata/service.go and
    the planning methods of coordinator.go.  [LocalReplica], [LocalReplicaFacts]:
    local_writer.go, local_reader.go, read_service.go and
    payload_encryption_community.go, with the class [PayloadLaws] for the object
    stores and the in-memory cluster as instance.  [CowFacts]: the composition of
    chunk allocation and local writes on copy-on-write plans.
    [PayloadGC]: the collector of replica payloads (payload_gc.go);
    [PayloadGCFacts] proves with a small program logic that it spares live
    payloads, [PayloadSweepFacts] what it deletes.
    Disaster recovery (src/sbs/cluster/dr).  [DrTransfer]: transfer.go.
    [DrShipping], [DrShippingFacts]: shipping.go, with the class [Services] for the
    stores around it and in-memory services as instance.  [DrFencing]: fencing.go,
    with the class [Ed25519] for the signature scheme.
    Data nodes (src/sbs/local).  [LocalStore], [LocalStoreFacts]: store.go and
    store_planner.go with the community edition of payload/compress, over Pebble as
    a record of operations with the class [PebbleLaws].  [StoreConfig]:
    store_config.go.  [StoreOpen]: opening the shards of a configuration, and the
    composition of configuration, planner and store.

    Control channel (src/control/netlinktlv).  [Netlink]: tlv.go.  [NetlinkFacts],
    [NetlinkStatusFacts]: its decoders on arbitrary bytes and on what is encoded.
    ** Correspondence

    A Go function is the definition of the same name; a loop is a [Fixpoint] named
    after its function.  A pure function returns its result, a fallible one a
    [result], a method with effects an [act] on the component's state record; an
    error does not undo earlier writes unless the code runs in a transaction
    ([MetaRepo.RunInTransaction]).  Go maps are [gmap]s (their iteration order is
    an argument where it matters), structs are records with the Go field names
    behind a prefix, unsigned integers are [Z] with the wrap-around written out.
    Interfaces are classes or records of operations.  Mutexes make a method one
    atomic step; where the code gives up a lock or works without one, the model
    has a point where other clients may act ([ChunkExtent]: the argument
    [interfere]; [Executor]: the replica writer and the planner act on the same
    state).  Clocks, random sources and cancellation are arguments.

    ** What the theorems show

    Data path: the gateway is a byte array ([reads_see_writes],
    [service_reads_see_writes]), also for a client at the other end of a v1 connection
    ([wire_block_device]), concurrent page writes linearize
    ([write_linearizes]), discards read as zeroes, the collector never deletes
    reachable data and visits every volume, extent records round-trip.
    Metadata: page updates are compare-and-swaps, attachments are fenced by
    generation, the repository invariant is kept by every method.  Handoff: only
    the gateways a stage allows may attach, and a handoff stabilizes; reconciling a
    path plan chooses reachable gateways, starts and ends handoffs when it should and
    fences every change of one.  A sole gateway cannot tell that its metadata is
    cached ([cache_transparent]); with two, no write to a page succeeds where a stale
    copy of it is cached ([stale_page_defeats_retries]).  Data plane: on a v2 connection
    only requests of a current session with its tag and next sequence number reach the
    service ([v2_frames_fenced]), and no response verifies ([v2_response_tag_rejected]).  Wire:
    encoders and decoders are inverse, the delivered frames do not depend on how
    the stream is cut, corrupted headers and replayed frames are rejected, tags
    bind the authenticated fields.  Cluster: layouts have distinct nodes and
    quorums, an erasure-coded stripe survives the loss of a zone and the search for its
    targets is complete, a write commits only on a quorum of every extent, a commit is an
    atomic compare-and-swap that changes exactly the chunks written, a failover
    fences older commits, and a write that succeeded is replayed, not redone.
    Replicas read what was written, a write to a volume with snapshots leaves what
    they map unchanged, the reference counts of snapshots are exact as long as no final
    state of a clone is left again, and the payload
    collector deletes exactly the garbage it is asked about and, under the canonical id
    of a volume, nothing a volume, snapshot or clone reads.  Disaster recovery: a shipped recovery point arrives
    exactly, also when shipping is resumed, a transfer completes only when the
    target has verified it, and a signed fencing decision is accepted exactly for
    its request and within its lifetime.  Data nodes: a chunk placed on a configured
    node reads back and touches no other ([planned_chunk_reads_back]); configurations
    keep stores apart and weight updates change weights only.  Control channel:
    decoding never panics and inverts the encoding.
    Theorems of kind "error" state for which inputs the code fails; lemmas that evaluate
    one run of the code show further defects ([retried_zero_write_lost],
    [failed_commit_loses_legacy_pages], [revived_clone_uncounted]).

    ** Bounds and fuel

    Definitions are total.  Loops that are not structural take fuel that is
    computed from their input: one unit per chunk id ([compress_loop],
    [compress_page]), per extent ([Placement.layout_loop]), per decimal digit
    ([dec_loop]); running out would yield [Panic] or a truncated result, and the
    theorems on these functions state the full result.  The fuel of a key listing
    ([PayloadGC.list_loop]) is an argument; one unit per object and one more are
    enough ([list_all_keys_terminates]).  The fuel of a shipment is an argument too,
    one unit per object is enough ([shipped_standby_exact]), and so is that of a
    connection, one unit per frame and one more for its end ([wire_block_device]).  Evicting cached pages
    has one unit per listed page.  The parsers of netlink attributes have one unit per byte, which is enough ([decoders_never_panic]).  Retry loops have the
    bounds of the code (64 commit attempts in [Executor.commit_attempts]).

    ** Not modelled

    Error texts, logs, timings and statistics; JSON, HTTP and gRPC encodings; the
    etcd and TiKV clients (the repositories are modelled over their in-memory and
    Pebble counterparts); sockets, deadlines and goroutines of the data plane, and the verification of signed tokens; append-only and
    erasure-coded commits, and the maintenance services; the service in front of the
    object store of a data node; the iSCSI front end, the kernel module, command-line programs and
    generated code.  They are I/O,
    generated code, or rest on libraries whose behaviour is not part of the
    repository. *)

From Stdlib Require Import ZArith Lia.
From Stdlib Require Strings.Byte.
From stdpp Require Import base option list gmap strings.
From coqutil Require Import Byte.

(** ** Functional record update

    [r <| field := v |>] is Go's [r.Field = v] on a struct value.  A record
    opts in by declaring its eta-expansion as a [Settable] instance; the
    setter of a projection is then found by abstracting that projection out of
    the eta-expansion. *)

Class Settable (R : Type) := eta_expand : R -> R.
Class Setter {R E : Type} (proj : R -> E) := set_field : (E -> E) -> R -> R.
Arguments set_field {R E} proj {_} f r.

Ltac find_setter proj :=
  lazymatch type of proj with
  | ?R -> ?E =>
      let eta := eval hnf in (_ : Settable R) in
      lazymatch eval pattern proj in eta with
      | ?body _ => exact (fun f : E -> E => body (fun r => f (proj r)))
      end
  end.

#[export] Hint Extern 1 (Setter ?proj) => find_setter proj : typeclass_instances.

Declare Scope record_scope.
#[local] Set Warnings "-postfix-notation-not-level-1".
Notation "r '<|' proj ':=' v '|>'" := (set_field proj (fun _ => v) r)
  (at level 12, left associativity, proj at level 0, v at level 99,
   format "r  <| proj  :=  v |>") : record_scope.
Open Scope record_scope.

Arguments set_field /.

(** ** Outcomes of a Go call

    [Ok] is a [nil] error, [Err] a non-nil error, [Panic] a run-time panic
    (division by zero, slice bounds).  A state-changing method is a function
    of type [act S E A]: an error does not undo the writes before it. *)

Inductive result (E A : Type) : Type :=
| Ok (a : A)
| Err (e : E)
| Panic.
Arguments Ok {E A} a.
Arguments Err {E A} e.
Arguments Panic {E A}.

#[export] Instance result_ret {E} : MRet (result E) := fun A a => Ok a.
#[export] Instance result_bind {E} : MBind (result E) := fun A B f r =>
  match r with Ok a => f a | Err e => Err e | Panic => Panic end.

Definition is_ok {E A} (r : result E A) : bool :=
  match r with Ok _ => true | _ => false end.

Lemma bind_Ok {E A B} (m : result E A) (f : A -> result E B) b :
  m ≫= f = Ok b <-> exists a, m = Ok a /\ f a = Ok b.
Proof.
  destruct m as [a|e|]; cbn; (split; [intros H; try done; eauto|intros (a' & H1 & H2); try done]).
  by injection H1 as <-.
Qed.

(** An error wrapped or embedded in another error type. *)
Definition map_err {E E' A} (f : E -> E') (r : result E A) : result E' A :=
  match r with Ok a => Ok a | Err e => Err (f e) | Panic => Panic end.

(** [p != nil]. *)
Definition isSome {A} (o : option A) : bool := match o with Some _ => true | None => false end.

#[export] Instance Ok_inj {E A} : Inj (=) (=) (@Ok E A).
Proof. by intros ?? [= ->]. Qed.

Definition act (S E A : Type) : Type := S -> S * result E A.

Definition ret_act {S E A} (a : A) : act S E A := fun s => (s, Ok a).
Definition fail_act {S E A} (e : E) : act S E A := fun s => (s, Err e).
Definition bind_act {S E A B} (m : act S E A) (f : A -> act S E B) : act S E B :=
  fun s => match m s with
           | (s', Ok a) => f a s'
           | (s', Err e) => (s', Err e)
           | (s', Panic) => (s', Panic)
           end.

(** A pure step inside an action. *)
Definition lift_act {S E A} (r : result E A) : act S E A := fun s => (s, r).

Lemma bind_act_inv {S E A B} (m : act S E A) (f : A -> act S E B) s s' b :
  bind_act m f s = (s', Ok b) -> exists s1 a, m s = (s1, Ok a) /\ f a s1 = (s', Ok b).
Proof. unfold bind_act. destruct (m s) as [s1 [a|e|]]; [eauto|done|done]. Qed.

Declare Scope act_scope.
Notation "x <-- m ; k" := (bind_act m (fun x => k))
  (at level 100, m at next level, right associativity) : act_scope.
Notation "m ;; k" := (bind_act m (fun _ => k))
  (at level 100, right associativity) : act_scope.

(** ** Machine integers

    An unsigned [w]-bit value is a [Z] in [0, 2^w); the operators reduce
    modulo [2^w] exactly where Go's do. *)

Open Scope Z_scope.

Definition in_u (w z : Z) : Prop := 0 <= z < 2 ^ w.
Definition in_ub (w z : Z) : bool := (0 <=? z) && (z <? 2 ^ w).
Abbreviation u16 := (in_u 16).
Abbreviation u32 := (in_u 32).
Abbreviation u64 := (in_u 64).

Definition wrap32 (z : Z) : Z := z mod 2 ^ 32.
Definition wrap64 (z : Z) : Z := z mod 2 ^ 64.
Definition add64 (a b : Z) : Z := wrap64 (a + b).
Definition sub64 (a b : Z) : Z := wrap64 (a - b).
Definition mul64 (a b : Z) : Z := wrap64 (a * b).

(** Signed reading of a 32-bit pattern, as in [int32(x)]. *)
Definition int32_of (z : Z) : Z :=
  let u := wrap32 z in if u <? 2 ^ 31 then u else u - 2 ^ 32.

(** Signed 64-bit addition, as on an [int64]. *)
Definition int64_of (z : Z) : Z :=
  let u := z mod 2 ^ 64 in if u <? 2 ^ 63 then u else u - 2 ^ 64.
Definition add_i64 (a b : Z) : Z := int64_of (a + b).

Definition sub_i64 (a b : Z) : Z := int64_of (a - b).

Lemma add_i64_small a b : 0 <= a + b < 2 ^ 63 -> add_i64 a b = a + b.
Proof.
  intros H. unfold add_i64, int64_of. rewrite Z.mod_small by lia.
  destruct (Z.ltb_spec (a + b) (2 ^ 63)); lia.
Qed.

Lemma wrap64_small z : u64 z -> wrap64 z = z.
Proof. intros H. apply Z.mod_small, H. Qed.
Lemma wrap32_small z : u32 z -> wrap32 z = z.
Proof. intros H. apply Z.mod_small, H. Qed.
Lemma wrap64_range z : u64 (wrap64 z).
Proof. apply Z.mod_pos_bound. lia. Qed.
Lemma wrap32_range z : u32 (wrap32 z).
Proof. apply Z.mod_pos_bound. lia. Qed.
Lemma add64_small a b : u64 (a + b) -> add64 a b = a + b.
Proof. apply wrap64_small. Qed.
Lemma sub64_small a b : u64 (a - b) -> sub64 a b = a - b.
Proof. apply wrap64_small. Qed.
Lemma mul64_small a b : u64 (a * b) -> mul64 a b = a * b.
Proof. apply wrap64_small. Qed.

Lemma in_ub_spec w z : in_ub w z = true <-> in_u w z.
Proof. unfold in_ub, in_u. lia. Qed.

Lemma int32_of_signed z : -2 ^ 31 <= z < 2 ^ 31 -> int32_of (wrap32 z) = z.
Proof.
  intros Hz. unfold int32_of, wrap32. rewrite Z.mod_mod by lia.
  destruct (decide (0 <= z)).
  - rewrite Z.mod_small by lia. destruct (Z.ltb_spec z (2 ^ 31)); lia.
  - replace (z mod 2 ^ 32) with (z + 2 ^ 32).
    + destruct (Z.ltb_spec (z + 2 ^ 32) (2 ^ 31)); lia.
    + apply Z.mod_unique with (-1); lia.
Qed.

Create HintDb namrbd.
Create Rewrite HintDb namrbd.
#[export] Hint Resolve wrap64_range wrap32_range : namrbd.
#[export] Hint Rewrite add64_small sub64_small mul64_small wrap64_small wrap32_small
  using (unfold in_u in *; lia) : namrbd.

(** ** Byte slices *)

Abbreviation bytes := (list byte).

#[export] Instance byte_eq_dec : EqDecision byte := Strings.Byte.byte_eq_dec.

(** [len(b)] as a [Z]. *)
Definition zlen {A} (l : list A) : Z := Z.of_nat (length l).

(** [b\[i:j\]] for in-range indices. *)
Definition slice {A} (i j : Z) (l : list A) : list A :=
  take (Z.to_nat (j - i)) (drop (Z.to_nat i) l).

(** [make(\[\]byte, n)]. *)
Definition zeroes (n : Z) : bytes := replicate (Z.to_nat n) Byte.x00.

(** [b\[i:j\]] with Go's bounds check (on the length; reslicing into spare
    capacity is not modelled). *)
Definition go_slice {E A} (i j : Z) (l : list A) : result E (list A) :=
  if (0 <=? i) && (i <=? j) && (j <=? zlen l) then Ok (slice i j l) else Panic.

(** [copy(dst\[i:\], src)] where [src] fits: [dst] with [src] written at [i]. *)
Definition splice {A} (dst : list A) (i : Z) (src : list A) : list A :=
  take (Z.to_nat i) dst ++ src ++ drop (Z.to_nat i + length src) dst.

Lemma zlen_app {A} (l1 l2 : list A) : zlen (l1 ++ l2) = zlen l1 + zlen l2.
Proof. unfold zlen. rewrite length_app. lia. Qed.
Lemma zlen_nonneg {A} (l : list A) : 0 <= zlen l.
Proof. unfold zlen. lia. Qed.
Lemma zlen_nil_inv {A} (l : list A) : zlen l <= 0 -> l = [].
Proof. destruct l; [done|]. unfold zlen. cbn. lia. Qed.
Lemma zlen_zeroes n : 0 <= n -> zlen (zeroes n) = n.
Proof. intros. unfold zlen, zeroes. rewrite length_replicate. lia. Qed.
Lemma zlen_slice {A} i j (l : list A) :
  0 <= i <= j -> j <= zlen l -> zlen (slice i j l) = j - i.
Proof. unfold zlen, slice. rewrite length_take, length_drop. lia. Qed.
Lemma zlen_splice {A} (dst : list A) i src :
  0 <= i -> i + zlen src <= zlen dst -> zlen (splice dst i src) = zlen dst.
Proof.
  unfold zlen, splice. rewrite !length_app, length_take, length_drop. lia.
Qed.

#[export] Hint Resolve zlen_nonneg : namrbd.
#[export] Hint Rewrite @zlen_app : namrbd.

Lemma lookup_slice {A} (l : list A) i j k :
  0 <= i -> 0 <= k < j - i -> slice i j l !! Z.to_nat k = l !! Z.to_nat (i + k).
Proof.
  intros Hi Hk. unfold slice. rewrite lookup_take_lt by lia.
  rewrite lookup_drop. f_equal. lia.
Qed.

Lemma lookup_splice_in {A} (dst : list A) i src k :
  0 <= i -> i + zlen src <= zlen dst -> i <= k < i + zlen src ->
  splice dst i src !! Z.to_nat k = src !! Z.to_nat (k - i).
Proof.
  unfold zlen, splice. intros Hi Hfit Hk.
  rewrite lookup_app_r; rewrite length_take; [|lia].
  rewrite lookup_app_l; [f_equal|]; lia.
Qed.

Lemma lookup_splice_out {A} (dst : list A) i src k :
  0 <= i -> i + zlen src <= zlen dst -> 0 <= k -> k < i \/ i + zlen src <= k ->
  splice dst i src !! Z.to_nat k = dst !! Z.to_nat k.
Proof.
  unfold zlen, splice. intros Hi Hfit Hk0 [Hk|Hk].
  - rewrite lookup_app_l by (rewrite length_take; lia). apply lookup_take_lt. lia.
  - rewrite lookup_app_r; rewrite length_take; [|lia].
    rewrite lookup_app_r by lia. rewrite lookup_drop. f_equal. lia.
Qed.

(** Distinct keys determine their entries. *)
Lemma key_determines {A B} (f : A -> B) (l : list A) x y :
  NoDup (map f l) -> x ∈ l -> y ∈ l -> f x = f y -> x = y.
Proof.
  intros Hd [i Hi]%list_elem_of_lookup [j Hj]%list_elem_of_lookup Hf.
  rewrite NoDup_alt in Hd. enough (i = j) by congruence.
  apply (Hd i j (f x)); change (map f l) with (f <$> l); rewrite list_lookup_fmap; [by rewrite Hi|].
  by rewrite Hj, Hf.
Qed.

Lemma take_app_exact {A} (n : nat) (l k : list A) : length l = n -> take n (l ++ k) = l.
Proof. intros <-. apply take_app_length. Qed.
Lemma drop_app_exact {A} (n : nat) (l k : list A) : length l = n -> drop n (l ++ k) = k.
Proof. intros <-. apply drop_app_length. Qed.

(** ** Tactics *)

(** [lia] with division and remainder by constants eliminated first. *)
Ltac dlia := Z.to_euclidean_division_equations; lia.

(** Normalise the monadic binds of a [result] computation whose scrutinee is known. *)
Ltac simpl_bind := cbn [mbind mret result_bind result_ret].

(** A conjunction of bounds on concrete numbers, by evaluation. *)
Ltac concrete_bounds :=
  repeat split; vm_compute; first [reflexivity | intros; discriminate].

(** Split the first conditional or option/result match of the goal. *)
Ltac split_match :=
  match goal with
  | |- context [match ?x with _ => _ end] => destruct x eqn:?
  end.

(** Turn boolean comparisons of the context into arithmetic facts. *)
Ltac bools :=
  repeat match goal with
  | H : (_ && _)%bool = true |- _ => apply andb_prop in H; destruct H
  | H : (_ || _)%bool = false |- _ => apply orb_false_elim in H; destruct H
  | H : negb _ = true |- _ => apply negb_true_iff in H
  | H : negb _ = false |- _ => apply negb_false_iff in H
  | H : (_ =? _) = true |- _ => apply Z.eqb_eq in H
  | H : (_ =? _) = false |- _ => apply Z.eqb_neq in H
  | H : (_ <? _) = true |- _ => apply Z.ltb_lt in H
  | H : (_ <? _) = false |- _ => apply Z.ltb_ge in H
  | H : (_ <=? _) = true |- _ => apply Z.leb_le in H
  | H : (_ <=? _) = false |- _ => apply Z.leb_gt in H
  | H : String.eqb _ _ = true |- _ => apply String.eqb_eq in H
  | H : String.eqb _ _ = false |- _ => apply String.eqb_neq in H
  end.

(** Case analysis on the integer comparisons of the goal. *)
Ltac zcases :=
  repeat match goal with
  | |- context [?a <=? ?b] => destruct (Z.leb_spec a b)
  | |- context [?a <? ?b] => destruct (Z.ltb_spec a b)
  | |- context [?a =? ?b] => destruct (Z.eqb_spec a b)
  end; cbn [andb orb negb].
