(* ===== verification/Crc32c.v ===== *)
(** * CRC-32C, as [hash/crc32] computes it for the Castagnoli table

    The wire codecs protect a frame with [crc32.Checksum(_, crc32cTable)]
    (src/protocol/wirev1/codec.go, src/protocol/wirev2/codec.go).  The register
    is a 32-bit [Z]; the polynomial is in the reflected (least significant bit
    first) form, the register starts at all ones and is complemented at the
    end.  The theorems below are the error-detection facts the codecs rely on:
    the checksum is a 32-bit value, and two messages of the same length that
    differ in one byte have different checksums. *)

From Stdlib Require Import ZArith Lia.
From stdpp Require Import base list.
From coqutil Require Import Byte.
From S2P Require Import Prelude.
Open Scope Z_scope.

(** [crc32.Castagnoli]. *)
Definition castagnoli : Z := 0x82F63B78.

Definition crc_bit (c : Z) : Z :=
  if Z.odd c then Z.lxor (Z.shiftr c 1) castagnoli else Z.shiftr c 1.

Definition crc_byte (c : Z) (b : byte) : Z :=
  Nat.iter 8 crc_bit (Z.lxor c (byte.unsigned b)).

Definition crc_update (c : Z) (bs : bytes) : Z := fold_left crc_byte bs c.

Definition crc32c (bs : bytes) : Z :=
  Z.lxor (crc_update 0xFFFFFFFF bs) 0xFFFFFFFF.

(** The published check value of CRC-32C: the checksum of the ASCII digits 1 to 9. *)
Example crc32c_check_value :
  crc32c (map byte.of_Z [49; 50; 51; 52; 53; 54; 55; 56; 57]) = 0xE3069283.
Proof. vm_compute. reflexivity. Qed.

(** ** The register stays 32 bits wide *)

Lemma in_u_bits w z : 0 <= w -> in_u w z <-> 0 <= z /\ forall i, w <= i -> Z.testbit z i = false.
Proof.
  intros Hw. unfold in_u. split.
  - intros [H0 H1]. split; [done|]. intros i Hi.
    destruct (decide (z = 0)) as [->|Hz]; [apply Z.testbit_0_l|].
    apply Z.bits_above_log2; [done|].
    assert (Z.log2 z < w) by (apply Z.log2_lt_pow2; lia). lia.
  - intros [H0 Hb]. split; [done|].
    destruct (decide (z = 0)) as [->|Hz]; [lia|].
    apply Z.log2_lt_pow2; [lia|].
    destruct (decide (Z.log2 z < w)); [done|].
    assert (Z.testbit z (Z.log2 z) = true) by (apply Z.bit_log2; lia).
    rewrite Hb in * by lia. done.
Qed.

Lemma lxor_range w a b : 0 <= w -> in_u w a -> in_u w b -> in_u w (Z.lxor a b).
Proof.
  intros Hw [Ha Hab]%in_u_bits [Hb Hbb]%in_u_bits; try done. apply in_u_bits; [done|].
  split; [apply Z.lxor_nonneg; tauto|].
  intros i Hi. rewrite Z.lxor_spec, Hab, Hbb; done.
Qed.

Lemma byte_range b : in_u 32 (byte.unsigned b).
Proof. pose proof (byte.unsigned_range b). unfold in_u. lia. Qed.

Lemma crc_bit_range c : u32 c -> u32 (crc_bit c).
Proof.
  intros Hc. unfold crc_bit.
  assert (u32 (Z.shiftr c 1)).
  { rewrite Z.shiftr_div_pow2 by lia. unfold in_u in *. change (2 ^ 1) with 2. dlia. }
  destruct (Z.odd c); [|done].
  apply lxor_range; [lia|done|]. unfold in_u, castagnoli. lia.
Qed.

Lemma iter_range (f : Z -> Z) n c :
  (forall c, u32 c -> u32 (f c)) -> u32 c -> u32 (Nat.iter n f c).
Proof. intros Hf Hc. induction n; simpl; auto. Qed.

Lemma crc_byte_range c b : u32 c -> u32 (crc_byte c b).
Proof.
  intros. apply iter_range; [apply crc_bit_range|].
  apply lxor_range; [lia|done|apply byte_range].
Qed.

Lemma crc_update_range bs c : u32 c -> u32 (crc_update c bs).
Proof.
  unfold crc_update. revert c. induction bs; simpl; auto using crc_byte_range.
Qed.

Lemma crc32c_range bs : u32 (crc32c bs).
Proof.
  apply lxor_range; [lia| |unfold in_u; lia].
  apply crc_update_range. unfold in_u; lia.
Qed.

(** ** Injectivity of the update *)

Lemma crc_bit_top c : u32 c -> Z.testbit (crc_bit c) 31 = Z.odd c.
Proof.
  intros [Hc Hb]%in_u_bits; [|lia]. unfold crc_bit.
  assert (Z.testbit (Z.shiftr c 1) 31 = false) as Hs.
  { rewrite Z.shiftr_spec by lia. apply Hb. lia. }
  destruct (Z.odd c); [|done]. rewrite Z.lxor_spec, Hs. reflexivity.
Qed.

Lemma lxor_inj_l a b c : Z.lxor a c = Z.lxor b c -> a = b.
Proof.
  intros H. rewrite <-(Z.lxor_0_r a), <-(Z.lxor_0_r b), <-(Z.lxor_nilpotent c).
  rewrite <-!Z.lxor_assoc. by rewrite H.
Qed.

Lemma shiftr1_odd a : a = 2 * Z.shiftr a 1 + Z.b2z (Z.odd a).
Proof. rewrite <-Z.div2_spec. apply Z.div2_odd. Qed.

Lemma crc_bit_inj a b : u32 a -> u32 b -> crc_bit a = crc_bit b -> a = b.
Proof.
  intros Ha Hb Heq.
  assert (Z.odd a = Z.odd b) as Hodd by (by rewrite <-!crc_bit_top, Heq).
  assert (Z.shiftr a 1 = Z.shiftr b 1) as Hsh.
  { unfold crc_bit in Heq. rewrite Hodd in Heq.
    destruct (Z.odd b); [|done]. by apply lxor_inj_l in Heq. }
  rewrite (shiftr1_odd a), (shiftr1_odd b). by rewrite Hsh, Hodd.
Qed.

Lemma iter_crc_bit_inj n a b :
  u32 a -> u32 b -> Nat.iter n crc_bit a = Nat.iter n crc_bit b -> a = b.
Proof.
  intros Ha Hb. induction n as [|n IH]; [done|]. simpl. intros Heq.
  apply IH, crc_bit_inj; auto using iter_range, crc_bit_range.
Qed.

Lemma crc_byte_inj_state b a c : u32 a -> u32 c -> crc_byte a b = crc_byte c b -> a = c.
Proof.
  intros Ha Hc Heq. apply iter_crc_bit_inj in Heq.
  - by apply lxor_inj_l in Heq.
  - apply lxor_range; auto using byte_range; lia.
  - apply lxor_range; auto using byte_range; lia.
Qed.

Lemma crc_byte_inj_byte c x y : u32 c -> crc_byte c x = crc_byte c y -> x = y.
Proof.
  intros Hc Heq. apply byte.unsigned_inj. apply iter_crc_bit_inj in Heq.
  - rewrite !(Z.lxor_comm c) in Heq. by apply lxor_inj_l in Heq.
  - apply lxor_range; auto using byte_range; lia.
  - apply lxor_range; auto using byte_range; lia.
Qed.

Lemma crc_update_inj_state bs a c :
  u32 a -> u32 c -> crc_update a bs = crc_update c bs -> a = c.
Proof.
  unfold crc_update. revert a c. induction bs as [|b bs IH]; simpl; [done|].
  intros a c Ha Hc Heq. apply IH in Heq; auto using crc_byte_range.
  by apply crc_byte_inj_state in Heq.
Qed.

(** Two messages that differ in exactly one byte have different checksums. *)
Lemma crc32c_detects_byte pre x y post :
  x <> y -> crc32c (pre ++ x :: post) <> crc32c (pre ++ y :: post).
Proof.
  intros Hne Heq. apply lxor_inj_l in Heq. unfold crc_update in Heq.
  rewrite !fold_left_app in Heq. simpl in Heq.
  assert (u32 (fold_left crc_byte pre 0xFFFFFFFF)) as Hpre.
  { apply (crc_update_range pre). unfold in_u. lia. }
  apply (crc_update_inj_state post) in Heq; auto using crc_byte_range.
  by apply crc_byte_inj_byte in Heq.
Qed.
