(* ===== verification/WireV1.v ===== *)
(** * Wire protocol v1: frame codec, bodies, stream decoder and connection

    Models src/protocol/wirev1 (types.go, codec.go, body.go,
    stream_decoder.go, conn.go).  A frame is a list of bytes; every
    [binary.LittleEndian.PutUintN] at an ascending offset is the next piece of
    a concatenation of little-endian encodings, and every
    [binary.LittleEndian.UintN(src\[i:j\])] reads that slice.  Errors are the
    package's sentinels; the text a [fmt.Errorf] adds around a sentinel is
    dropped.  [DecodeMessage] and its response counterpart return [Ok], [Err]
    and never panic: slices are taken after the length checks. *)

From Stdlib Require Import ZArith Lia.
From stdpp Require Import base list.
From coqutil Require Import Byte Word.LittleEndianList.
From S2P Require Import Prelude Crc32c.
Open Scope Z_scope.

Module Wire1.

(** ** types.go *)

Definition Magic : Z := 0x4E4D4252.
Definition VersionV1 : Z := 1.
Definition HeaderSize : Z := 56.
Definition ResponseHdrLen : Z := 76.

Definition OpRead : Z := 0x0001.
Definition OpWrite : Z := 0x0002.
Definition OpFlush : Z := 0x0003.
Definition OpDiscard : Z := 0x0004.
Definition OpWriteZeroes : Z := 0x0005.
Definition OpHeartbeat : Z := 0x0006.
Definition OpPathProbe : Z := 0x0007.
Definition OpGetVolumeInfo : Z := 0x0008.
Definition OpBarrier : Z := 0x0009.
Definition OpReadResp : Z := 0x8001.
Definition OpWriteResp : Z := 0x8002.
Definition OpFlushResp : Z := 0x8003.
Definition OpDiscardResp : Z := 0x8004.
Definition OpWriteZeroesResp : Z := 0x8005.
Definition OpErrorResp : Z := 0x8FFF.

Definition FlagSync : Z := Z.shiftl 1 0.
Definition FlagFUA : Z := Z.shiftl 1 1.
Definition FlagChecksum : Z := Z.shiftl 1 2.
Definition FlagIdempotent : Z := Z.shiftl 1 3.
Definition FlagTracing : Z := Z.shiftl 1 4.
Definition FlagCompressed : Z := Z.shiftl 1 5.

Definition StatusOK : Z := 0.
Definition ErrBadMagic : Z := 1.
Definition ErrUnsupportedVersion : Z := 2.
Definition ErrUnauthorized : Z := 3.
Definition ErrNoSuchVolume : Z := 4.
Definition ErrGenerationMismatch : Z := 5.
Definition ErrInvalidRange : Z := 6.
Definition ErrPathDraining : Z := 7.
Definition ErrNoHealthyReplica : Z := 8.
Definition ErrQuorumFailed : Z := 9.
Definition ErrTimeout : Z := 10.
Definition ErrRetryable : Z := 11.
Definition ErrBusy : Z := 12.
Definition ErrChecksum : Z := 13.
Definition ErrInternal : Z := 14.

Record Header := mkHeader {
  hMagic : Z; hVersion : Z; hHeaderLen : Z; hOp : Z; hFlags : Z;
  hRequestID : Z; hVolumeID : Z; hGeneration : Z; hOffsetBytes : Z;
  hLengthBytes : Z; hCRC32C : Z }.

#[export] Instance Header_settable : Settable Header := fun h =>
  mkHeader (hMagic h) (hVersion h) (hHeaderLen h) (hOp h) (hFlags h)
    (hRequestID h) (hVolumeID h) (hGeneration h) (hOffsetBytes h)
    (hLengthBytes h) (hCRC32C h).

Record ResponseHeader := mkResponseHeader {
  rBase : Header; rStatusCode : Z; rBackendLatencyUS : Z;
  rGatewayLatencyUS : Z; rPathID : Z; rReserved : Z }.

#[export] Instance ResponseHeader_settable : Settable ResponseHeader := fun r =>
  mkResponseHeader (rBase r) (rStatusCode r) (rBackendLatencyUS r)
    (rGatewayLatencyUS r) (rPathID r) (rReserved r).

Record WriteTag := mkWriteTag { wtHostID : Z; wtBootIDHash : Z; wtSequenceNo : Z }.

(** ** codec.go *)

Inductive wire_error :=
| ErrShortMessage | ErrBadHeaderLen | ErrBadMagicValue | ErrBadVersionValue
| ErrLengthMismatch | ErrHeaderCRC32C | ErrPayloadCRC32C | ErrResponseHeaderLen
| ErrFrameTooLarge | ErrPayloadLength | ErrMessageTooLong | ErrEOF | ErrIO.

#[export] Instance wire_error_eq_dec : EqDecision wire_error.
Proof. solve_decision. Defined.

(** [binary.LittleEndian.UintN(b\[i:i+n\])]. *)
Definition le_get (i n : nat) (b : bytes) : Z := le_combine (take n (drop i b)).

Definition NewRequestHeader (op requestID volumeID generation offset flags : Z) : Header :=
  mkHeader Magic VersionV1 HeaderSize op flags requestID volumeID generation offset 0 0.

Definition putHeaderWithoutCRC (h : Header) : bytes :=
  le_split 4 (hMagic h) ++ le_split 2 (hVersion h) ++ le_split 2 (hHeaderLen h) ++
  le_split 4 (hOp h) ++ le_split 4 (hFlags h) ++ le_split 8 (hRequestID h) ++
  le_split 8 (hVolumeID h) ++ le_split 8 (hGeneration h) ++
  le_split 8 (hOffsetBytes h) ++ le_split 4 (hLengthBytes h) ++ le_split 4 0.

Definition parseHeader (src : bytes) : Header :=
  mkHeader (le_get 0 4 src) (le_get 4 2 src) (le_get 6 2 src) (le_get 8 4 src)
    (le_get 12 4 src) (le_get 16 8 src) (le_get 24 8 src) (le_get 32 8 src)
    (le_get 40 8 src) (le_get 48 4 src) (le_get 52 4 src).

Definition opUsesLengthAsRangeWithoutRequestPayload (op : Z) : bool :=
  (op =? OpRead) || (op =? OpDiscard) || (op =? OpWriteZeroes).

Definition has_checksum_flag (flags : Z) : bool := negb (Z.land flags FlagChecksum =? 0).

Definition EncodeMessage (h : Header) (payload : bytes) : bytes :=
  let h := h <| hMagic := Magic |> <| hVersion := VersionV1 |>
             <| hHeaderLen := HeaderSize |> <| hLengthBytes := wrap32 (zlen payload) |> in
  let msg := putHeaderWithoutCRC h in
  let crc := if has_checksum_flag (hFlags h)
             then crc32c payload else crc32c (take 52 msg) in
  take 52 msg ++ le_split 4 crc ++ payload.

(** The header checksum the decoders recompute: [tmp] is the header with its
    CRC field zeroed, of which only the first 52 bytes are summed. *)
Definition header_crc (msg : bytes) : Z :=
  let tmp := take 52 msg ++ le_split 4 0 in crc32c (take 52 tmp).

Definition DecodeMessage (msg : bytes) : result wire_error (Header * bytes) :=
  if zlen msg <? HeaderSize then Err ErrShortMessage else
  let h := parseHeader (take 56 msg) in
  if negb (hMagic h =? Magic) then Err ErrBadMagicValue else
  if negb (hVersion h =? VersionV1) then Err ErrBadVersionValue else
  if negb (hHeaderLen h =? HeaderSize) then Err ErrBadHeaderLen else
  if opUsesLengthAsRangeWithoutRequestPayload (hOp h) && (zlen msg =? HeaderSize) then
    if negb (hCRC32C h =? header_crc msg) then Err ErrHeaderCRC32C else Ok (h, [])
  else
  if negb (zlen msg =? HeaderSize + hLengthBytes h) then Err ErrLengthMismatch else
  let payload := drop 56 msg in
  if has_checksum_flag (hFlags h) then
    if negb (hCRC32C h =? crc32c payload) then Err ErrPayloadCRC32C else Ok (h, payload)
  else
    if negb (hCRC32C h =? header_crc msg) then Err ErrHeaderCRC32C else Ok (h, payload).

Definition response_tail (r : ResponseHeader) : bytes :=
  le_split 4 (wrap32 (rStatusCode r)) ++ le_split 4 (rBackendLatencyUS r) ++
  le_split 4 (rGatewayLatencyUS r) ++ le_split 4 (rPathID r) ++ le_split 4 (rReserved r).

Definition response_of (base : Header) (buf : bytes) : ResponseHeader :=
  mkResponseHeader base (int32_of (le_get 56 4 buf)) (le_get 60 4 buf) (le_get 64 4 buf)
    (le_get 68 4 buf) (le_get 72 4 buf).

Definition EncodeResponseHeader (r : ResponseHeader) : bytes :=
  let base := rBase r <| hMagic := Magic |> <| hVersion := VersionV1 |>
                <| hHeaderLen := ResponseHdrLen |> <| hLengthBytes := 0 |> in
  let hdr := putHeaderWithoutCRC base in
  take 52 hdr ++ le_split 4 (crc32c (take 52 hdr)) ++ response_tail r.

Definition EncodeResponseMessage (r : ResponseHeader) (payload : bytes) : bytes :=
  let base := rBase r <| hMagic := Magic |> <| hVersion := VersionV1 |>
                <| hHeaderLen := ResponseHdrLen |>
                <| hLengthBytes := wrap32 (zlen payload) |> in
  let hdr := putHeaderWithoutCRC base in
  let crc := if has_checksum_flag (hFlags base)
             then crc32c payload else header_crc hdr in
  take 52 hdr ++ le_split 4 crc ++ response_tail r ++ payload.

Definition DecodeResponseHeader (buf : bytes) : result wire_error ResponseHeader :=
  if zlen buf <? ResponseHdrLen then Err ErrShortMessage else
  let base := parseHeader (take 56 buf) in
  if negb (hMagic base =? Magic) then Err ErrBadMagicValue else
  if negb (hVersion base =? VersionV1) then Err ErrBadVersionValue else
  if negb (hHeaderLen base =? ResponseHdrLen) then Err ErrResponseHeaderLen else
  if negb (hCRC32C base =? header_crc buf) then Err ErrHeaderCRC32C else
  Ok (response_of base buf).

Definition DecodeResponseMessage (buf : bytes) : result wire_error (ResponseHeader * bytes) :=
  if zlen buf <? ResponseHdrLen then Err ErrShortMessage else
  let base := parseHeader (take 56 buf) in
  if negb (hMagic base =? Magic) then Err ErrBadMagicValue else
  if negb (hVersion base =? VersionV1) then Err ErrBadVersionValue else
  if negb (hHeaderLen base =? ResponseHdrLen) then Err ErrResponseHeaderLen else
  let r := response_of base buf in
  if negb (zlen buf =? ResponseHdrLen + hLengthBytes (rBase r)) then Err ErrLengthMismatch else
  let payload := drop 76 buf in
  if has_checksum_flag (hFlags (rBase r)) then
    if negb (hCRC32C (rBase r) =? crc32c payload) then Err ErrPayloadCRC32C else Ok (r, payload)
  else
    if negb (hCRC32C (rBase r) =? header_crc buf) then Err ErrHeaderCRC32C else Ok (r, payload).

(** ** body.go *)

Definition FeatureCompression : Z := Z.shiftl 1 0.
Definition FeatureIntegrity : Z := Z.shiftl 1 1.

Record Hello := mkHello {
  helloHostID : Z; helloBootIDHash : Z; helloSessionNonce : Z; helloClientCaps : Z }.

Record PathCapability := mkPathCapability {
  MaxIOSize : Z; MaxSegments : Z; SupportedOpsMask : Z; Features : Z;
  MaxInflightRequests : Z; MaxInflightBytes : Z; MaxZeroLikeIOSize : Z }.

#[export] Instance PathCapability_settable : Settable PathCapability := fun c =>
  mkPathCapability (MaxIOSize c) (MaxSegments c) (SupportedOpsMask c) (Features c)
    (MaxInflightRequests c) (MaxInflightBytes c) (MaxZeroLikeIOSize c).

Record ErrorDetail := mkErrorDetail {
  RetryAfterMS : Z; DetailCode : Z; Message : bytes }.

Definition EncodeHelloPayload (h : Hello) : bytes :=
  le_split 8 (helloHostID h) ++ le_split 8 (helloBootIDHash h) ++
  le_split 8 (helloSessionNonce h) ++ le_split 4 (helloClientCaps h).

Definition DecodeHelloPayload (payload : bytes) : result wire_error Hello :=
  if negb (zlen payload =? 28) then Err ErrPayloadLength else
  Ok (mkHello (le_get 0 8 payload) (le_get 8 8 payload) (le_get 16 8 payload)
        (le_get 24 4 payload)).

Definition EncodePathCapabilityPayload (c : PathCapability) : bytes :=
  le_split 4 (MaxIOSize c) ++ le_split 4 (MaxSegments c) ++
  le_split 8 (SupportedOpsMask c) ++ le_split 4 (Features c) ++
  le_split 4 (MaxInflightRequests c) ++ le_split 8 (MaxInflightBytes c) ++
  le_split 4 (MaxZeroLikeIOSize c).

Definition DecodePathCapabilityPayload (payload : bytes) : result wire_error PathCapability :=
  if negb (zlen payload =? 32) && negb (zlen payload =? 36) then Err ErrPayloadLength else
  let c := mkPathCapability (le_get 0 4 payload) (le_get 4 4 payload) (le_get 8 8 payload)
             (le_get 16 4 payload) (le_get 20 4 payload) (le_get 24 8 payload) 0 in
  let c := if 36 <=? zlen payload
           then c <| MaxZeroLikeIOSize := le_get 32 4 payload |> else c in
  let c := if MaxZeroLikeIOSize c =? 0
           then c <| MaxZeroLikeIOSize := MaxIOSize c |> else c in
  Ok c.

Definition EncodeWritePayload (tag : WriteTag) (data : bytes) : bytes :=
  le_split 8 (wtHostID tag) ++ le_split 8 (wtBootIDHash tag) ++
  le_split 8 (wtSequenceNo tag) ++ data.

Definition DecodeWritePayload (payload : bytes) : result wire_error (WriteTag * bytes) :=
  if zlen payload <? 24 then Err ErrPayloadLength else
  Ok (mkWriteTag (le_get 0 8 payload) (le_get 8 8 payload) (le_get 16 8 payload),
      drop 24 payload).

Definition EncodeErrorDetailPayload (e : ErrorDetail) : result wire_error bytes :=
  let msgBytes := Message e in
  if 0xFFFF <? zlen msgBytes then Err ErrMessageTooLong else
  Ok (le_split 4 (RetryAfterMS e) ++ le_split 4 (DetailCode e) ++
      le_split 2 (zlen msgBytes) ++ msgBytes).

Definition DecodeErrorDetailPayload (payload : bytes) : result wire_error ErrorDetail :=
  if zlen payload <? 10 then Err ErrPayloadLength else
  let msgLen := le_get 8 2 payload in
  if negb (zlen payload =? 10 + msgLen) then Err ErrPayloadLength else
  Ok (mkErrorDetail (le_get 0 4 payload) (le_get 4 4 payload) (drop 10 payload)).

(** ** stream_decoder.go *)

Record StreamDecoder := mkStreamDecoder { buf : bytes; maxPayloadLen : Z }.

#[export] Instance StreamDecoder_settable : Settable StreamDecoder := fun d =>
  mkStreamDecoder (buf d) (maxPayloadLen d).

Definition NewStreamDecoder (max : Z) : StreamDecoder := mkStreamDecoder [] max.

Definition Feed (d : StreamDecoder) (chunk : bytes) : StreamDecoder :=
  if zlen chunk =? 0 then d else d <| buf := buf d ++ chunk |>.

(** [Ok None] is [ok=false] with a nil error: more bytes are needed. *)
Definition Next : act StreamDecoder wire_error (option (Header * bytes)) := fun d =>
  if zlen (buf d) <? HeaderSize then (d, Ok None) else
  let probe := parseHeader (take 56 (buf d)) in
  if negb (hMagic probe =? Magic) then
    (d <| buf := drop 1 (buf d) |>, Err ErrBadMagicValue) else
  if negb (hVersion probe =? VersionV1) then
    (d <| buf := drop 1 (buf d) |>, Err ErrBadVersionValue) else
  if negb (hHeaderLen probe =? HeaderSize) then
    (d <| buf := drop 1 (buf d) |>, Err ErrBadHeaderLen) else
  if negb (opUsesLengthAsRangeWithoutRequestPayload (hOp probe)) &&
     (maxPayloadLen d <? hLengthBytes probe) then (d, Err ErrFrameTooLarge) else
  let frameLen := if opUsesLengthAsRangeWithoutRequestPayload (hOp probe)
                  then HeaderSize else HeaderSize + hLengthBytes probe in
  if zlen (buf d) <? frameLen then (d, Ok None) else
  let frame := take (Z.to_nat frameLen) (buf d) in
  let d := d <| buf := drop (Z.to_nat frameLen) (buf d) |> in
  match DecodeMessage frame with
  | Ok (h, payload) => (d, Ok (Some (h, payload)))
  | Err e => (d, Err e)
  | Panic => (d, Panic)
  end.

Definition Buffered (d : StreamDecoder) : Z := zlen (buf d).

(** ** conn.go

    The reader side of the [io.ReadWriter] is the sequence of byte chunks its
    [Read] calls return and the error that follows them; a [Read] that returns
    no bytes and no error is an empty chunk. *)

Record Conn := mkConn { dec : StreamDecoder; unread : list bytes; read_end : wire_error }.

Fixpoint read_loop (dec : StreamDecoder) (chunks : list bytes) (rend : wire_error)
  : (StreamDecoder * list bytes) * result wire_error (Header * bytes) :=
  match Next dec with
  | (dec, Err e) => ((dec, chunks), Err e)
  | (dec, Panic) => ((dec, chunks), Panic)
  | (dec, Ok (Some f)) => ((dec, chunks), Ok f)
  | (dec, Ok None) =>
      match chunks with
      | chunk :: rest => read_loop (Feed dec chunk) rest rend
      | [] =>
          if bool_decide (rend = ErrEOF) && (0 <? Buffered dec)
          then ((dec, []), Err ErrShortMessage) else ((dec, []), Err rend)
      end
  end.

Definition ReadFrame : act Conn wire_error (Header * bytes) := fun c =>
  let '((d, rest), r) := read_loop (dec c) (unread c) (read_end c) in
  (mkConn d rest (read_end c), r).

(** The writer side: each [Write] call accepts some number of bytes and may
    fail; [writes] lists what the successive calls return.  The result pairs
    the bytes put on the wire with the outcome; the loop needs one entry per
    call, and running out of entries is a call that never returns. *)
Fixpoint write_loop (wbuf out : bytes) (writes : list (nat * option wire_error))
  : option (bytes * result wire_error unit) :=
  match wbuf with
  | [] => Some (out, Ok tt)
  | _ =>
      match writes with
      | [] => None
      | (n, werr) :: rest =>
          let out := out ++ take n wbuf in
          match werr with
          | Some e => Some (out, Err e)
          | None => write_loop (drop n wbuf) out rest
          end
      end
  end.

Definition WriteFrame (limit : Z) (h : Header) (payload : bytes)
  (writes : list (nat * option wire_error)) : option (bytes * result wire_error unit) :=
  if limit <? wrap32 (zlen payload) then Some ([], Err ErrFrameTooLarge)
  else write_loop (EncodeMessage h payload) [] writes.

End Wire1.
