(* ===== verification/WireV1Facts.v ===== *)
(** * Wire protocol v1: theorems

    Round trips of the codecs in both directions, detection of single-byte
    corruption, independence of the stream decoder from the way the byte
    stream is cut into reads, and termination of the connection loops. *)

From Stdlib Require Import ZArith Lia.
From stdpp Require Import base list.
From coqutil Require Import Byte Word.LittleEndianList.
From S2P Require Import Prelude Crc32c WireV1.
Open Scope Z_scope.

Module Wire1Facts.
Import Wire1.

(** ** Well-formed headers: every field fits its width *)

Definition header_wf (h : Header) : Prop :=
  u32 (hMagic h) /\ u16 (hVersion h) /\ u16 (hHeaderLen h) /\ u32 (hOp h) /\
  u32 (hFlags h) /\ u64 (hRequestID h) /\ u64 (hVolumeID h) /\ u64 (hGeneration h) /\
  u64 (hOffsetBytes h) /\ u32 (hLengthBytes h) /\ u32 (hCRC32C h).

(** What a frame with header [h] and this payload decodes to. *)
Definition sealed_header (len : Z) (crc : Z) (h : Header) : Header :=
  h <| hMagic := Magic |> <| hVersion := VersionV1 |> <| hHeaderLen := HeaderSize |>
    <| hLengthBytes := len |> <| hCRC32C := crc |>.

Definition message_crc (h : Header) (payload : bytes) : Z :=
  if has_checksum_flag (hFlags h) then crc32c payload
  else crc32c (take 52 (putHeaderWithoutCRC (sealed_header (zlen payload) 0 h))).

Definition sealed (h : Header) (payload : bytes) : Header :=
  sealed_header (zlen payload) (message_crc h payload) h.

(** ** Layout lemmas *)

Lemma length_put h : length (putHeaderWithoutCRC h) = 56%nat.
Proof. reflexivity. Qed.

Lemma length_take52_put h : length (take 52 (putHeaderWithoutCRC h)) = 52%nat.
Proof. reflexivity. Qed.

Lemma put_crc_irrelevant h c : putHeaderWithoutCRC (h <| hCRC32C := c |>) = putHeaderWithoutCRC h.
Proof. reflexivity. Qed.

Lemma parse_put h crc rest :
  header_wf (h <| hCRC32C := crc |>) ->
  parseHeader (take 56 (take 52 (putHeaderWithoutCRC h) ++ le_split 4 crc ++ rest))
  = h <| hCRC32C := crc |>.
Proof.
  intros (?&?&?&?&?&?&?&?&?&?&?); cbn in *.
  transitivity (mkHeader
    (le_combine (le_split 4 (hMagic h))) (le_combine (le_split 2 (hVersion h)))
    (le_combine (le_split 2 (hHeaderLen h))) (le_combine (le_split 4 (hOp h)))
    (le_combine (le_split 4 (hFlags h))) (le_combine (le_split 8 (hRequestID h)))
    (le_combine (le_split 8 (hVolumeID h))) (le_combine (le_split 8 (hGeneration h)))
    (le_combine (le_split 8 (hOffsetBytes h))) (le_combine (le_split 4 (hLengthBytes h)))
    (le_combine (le_split 4 crc))); [reflexivity|].
  rewrite !le_combine_split. cbn. unfold in_u in *.
  f_equal; apply Z.mod_small; lia.
Qed.

Lemma sealed_wf h payload :
  header_wf h -> zlen payload < 2 ^ 32 -> header_wf (sealed h payload).
Proof.
  intros (?&?&?&?&?&?&?&?&?&?&?) Hlen. unfold header_wf, sealed, sealed_header; cbn.
  pose proof (zlen_nonneg payload).
  assert (u32 (message_crc h payload)) as Hcrc.
  { unfold message_crc. destruct (has_checksum_flag (hFlags h)); apply crc32c_range. }
  unfold in_u, HeaderSize, Magic, VersionV1 in *. repeat split; lia.
Qed.

Lemma encode_eq h payload :
  zlen payload < 2 ^ 32 ->
  EncodeMessage h payload
  = take 52 (putHeaderWithoutCRC (sealed h payload)) ++
    le_split 4 (hCRC32C (sealed h payload)) ++ payload.
Proof.
  intros Hlen. unfold EncodeMessage, sealed, sealed_header, message_crc.
  rewrite wrap32_small; [|pose proof (zlen_nonneg payload); unfold in_u; lia].
  reflexivity.
Qed.

Lemma zlen_encode h payload :
  zlen payload < 2 ^ 32 -> zlen (EncodeMessage h payload) = 56 + zlen payload.
Proof.
  intros Hlen. rewrite encode_eq, !zlen_app by done.
  change (zlen (take 52 (putHeaderWithoutCRC (sealed h payload)))) with 52.
  change (zlen (le_split 4 (hCRC32C (sealed h payload)))) with 4. lia.
Qed.

Lemma parse_encode h payload rest :
  header_wf h -> zlen payload < 2 ^ 32 ->
  parseHeader (take 56 (EncodeMessage h payload ++ rest)) = sealed h payload.
Proof.
  intros Hwf Hlen. rewrite encode_eq, <-!app_assoc by done.
  rewrite parse_put; [reflexivity|]. apply (sealed_wf h payload); done.
Qed.

Lemma header_crc_prefix pre post :
  length pre = 52%nat -> header_crc (pre ++ post) = crc32c pre.
Proof.
  intros Hp. unfold header_crc.
  rewrite (take_app_exact 52 pre post Hp).
  by rewrite (take_app_exact 52 pre _ Hp).
Qed.

Lemma drop56_encode h payload :
  zlen payload < 2 ^ 32 -> drop 56 (EncodeMessage h payload) = payload.
Proof.
  intros. rewrite encode_eq by done. rewrite app_assoc. by apply drop_app_exact.
Qed.

(** A frame is well-formed for the stream when its payload fits the length
    field and a range request carries neither a payload nor the checksum flag. *)
Definition frame_ok (f : Header * bytes) : Prop :=
  header_wf f.1 /\ zlen f.2 < 2 ^ 32 /\
  (opUsesLengthAsRangeWithoutRequestPayload (hOp f.1) = true ->
   f.2 = [] /\ has_checksum_flag (hFlags f.1) = false).

Lemma message_crc_header h payload :
  zlen payload < 2 ^ 32 -> has_checksum_flag (hFlags h) = false ->
  header_crc (EncodeMessage h payload) = hCRC32C (sealed h payload).
Proof.
  intros Hlen Hf. rewrite encode_eq, header_crc_prefix by done.
  unfold sealed, message_crc. cbn. rewrite Hf. reflexivity.
Qed.

Lemma decode_encode_aux h payload :
  header_wf h -> zlen payload < 2 ^ 32 ->
  (opUsesLengthAsRangeWithoutRequestPayload (hOp h) = true -> payload = [] ->
   has_checksum_flag (hFlags h) = false) ->
  DecodeMessage (EncodeMessage h payload) = Ok (sealed h payload, payload).
Proof.
  intros Hwf Hlen Hrange. unfold DecodeMessage.
  pose proof (zlen_nonneg payload).
  rewrite zlen_encode by done. unfold HeaderSize.
  destruct (Z.ltb_spec (56 + zlen payload) 56); [lia|].
  pose proof (parse_encode h payload [] Hwf Hlen) as Hp. rewrite app_nil_r in Hp. rewrite Hp.
  change (hMagic (sealed h payload) =? Magic) with true.
  change (hVersion (sealed h payload) =? VersionV1) with true.
  change (hHeaderLen (sealed h payload) =? 56) with true.
  change (hOp (sealed h payload)) with (hOp h).
  change (hFlags (sealed h payload)) with (hFlags h).
  change (hLengthBytes (sealed h payload)) with (zlen payload). cbn [negb].
  rewrite (Z.eqb_refl (56 + zlen payload)), drop56_encode by done. cbn [negb].
  destruct (opUsesLengthAsRangeWithoutRequestPayload (hOp h)) eqn:Hop; cbn [andb];
    [destruct (Z.eqb_spec (56 + zlen payload) 56) as [Hz|Hz]|].
  - assert (payload = []) as -> by (destruct payload; [done|unfold zlen in Hz; cbn in Hz; lia]).
    rewrite message_crc_header by auto. by rewrite Z.eqb_refl.
  - destruct (has_checksum_flag (hFlags h)) eqn:Hf.
    + cbn. unfold message_crc. rewrite Hf, Z.eqb_refl. reflexivity.
    + rewrite message_crc_header, Z.eqb_refl by done. reflexivity.
  - destruct (has_checksum_flag (hFlags h)) eqn:Hf.
    + cbn. unfold message_crc. rewrite Hf, Z.eqb_refl. reflexivity.
    + rewrite message_crc_header, Z.eqb_refl by done. reflexivity.
Qed.

(** ** Reading the fields back out of a raw header *)

Lemma split_get i n m : (i + n <= length m)%nat -> le_split n (le_get i n m) = take n (drop i m).
Proof.
  intros H. apply split_le_combine'. rewrite length_take, length_drop. lia.
Qed.

Lemma slices_join {A} n k i (m : list A) :
  take n (drop i m) ++ take k (drop (i + n) m) = take (n + k) (drop i m).
Proof. rewrite <-drop_drop. apply take_take_drop. Qed.

Lemma put_parse m : (56 <= length m)%nat -> take 52 (putHeaderWithoutCRC (parseHeader m)) = take 52 m.
Proof.
  intros Hm. unfold putHeaderWithoutCRC, parseHeader. cbn [hMagic hVersion hHeaderLen
    hOp hFlags hRequestID hVolumeID hGeneration hOffsetBytes hLengthBytes].
  rewrite !split_get by lia. rewrite !app_assoc. rewrite take_app_exact.
  - rewrite <-!app_assoc.
    rewrite (slices_join 8 4 40), (slices_join 8 12 32), (slices_join 8 20 24),
      (slices_join 8 28 16), (slices_join 4 36 12), (slices_join 4 40 8),
      (slices_join 2 44 6), (slices_join 2 46 4), (slices_join 4 48 0). reflexivity.
  - rewrite !length_app, !length_take, !length_drop. lia.
Qed.

Lemma le_get_range i n m w : w = 8 * Z.of_nat n -> in_u w (le_get i n m).
Proof.
  intros ->. unfold le_get, in_u.
  pose proof (le_combine_bound (take n (drop i m))) as [H0 H1]. split; [done|].
  eapply Z.lt_le_trans; [exact H1|]. apply Z.pow_le_mono_r; [lia|].
  rewrite length_take. lia.
Qed.

Lemma parse_wf m : header_wf (parseHeader m).
Proof. repeat (split; [by apply le_get_range|]). by apply le_get_range. Qed.

Lemma take52_take56 {A} (m : list A) : take 52 (take 56 m) = take 52 m.
Proof. rewrite take_take. reflexivity. Qed.

Lemma raw_frame_split m :
  (56 <= length m)%nat ->
  m = take 52 m ++ le_split 4 (hCRC32C (parseHeader (take 56 m))) ++ drop 56 m.
Proof.
  intros Hm. cbn [hCRC32C parseHeader]. rewrite split_get by (rewrite length_take; lia).
  rewrite <-(take_drop 56 m) at 1. rewrite app_assoc. f_equal.
  rewrite <-(take_drop 52 (take 56 m)) at 1. rewrite take52_take56. f_equal.
  rewrite (take_ge (drop 52 _)); [done|]. rewrite length_drop, length_take. lia.
Qed.

(** A message accepted by [DecodeMessage]: the checks it passed. *)
Lemma decode_ok_inv msg h payload :
  DecodeMessage msg = Ok (h, payload) ->
  (56 <= length msg)%nat /\ h = parseHeader (take 56 msg) /\
  hMagic h = Magic /\ hVersion h = VersionV1 /\ hHeaderLen h = HeaderSize /\
  ((opUsesLengthAsRangeWithoutRequestPayload (hOp h) = true /\ length msg = 56%nat /\
    payload = [] /\ hCRC32C h = crc32c (take 52 msg)) \/
   (zlen payload = hLengthBytes h /\ payload = drop 56 msg /\
    hCRC32C h = if has_checksum_flag (hFlags h) then crc32c payload
                else crc32c (take 52 msg))).
Proof.
  unfold DecodeMessage. intros H.
  destruct (Z.ltb_spec (zlen msg) HeaderSize) as [|Hl]; [done|]. unfold HeaderSize, zlen in Hl.
  assert (header_crc msg = crc32c (take 52 msg)) as Hc.
  { rewrite <-(take_drop 52 msg) at 1. apply header_crc_prefix. rewrite length_take. lia. }
  rewrite Hc in H. clear Hc. set (hd := parseHeader (take 56 msg)) in *.
  repeat (match goal with
          | H : (if ?b then _ else _) = Ok _ |- _ => destruct b eqn:?
          end; try discriminate H);
    injection H as <- <-; bools;
    (split; [lia|]); (split; [done|]); (split; [done|]); (split; [done|]); (split; [done|]).
  - left. repeat split; auto. unfold zlen, HeaderSize in *. lia.
  - right. unfold zlen, HeaderSize in *. rewrite length_drop.
    repeat split; [lia|]. by match goal with Hf : has_checksum_flag _ = _ |- _ => rewrite Hf end.
  - right. unfold zlen, HeaderSize in *. rewrite length_drop.
    repeat split; [lia|]. by match goal with Hf : has_checksum_flag _ = _ |- _ => rewrite Hf end.
Qed.

Lemma sealed_id h payload :
  hMagic h = Magic -> hVersion h = VersionV1 -> hHeaderLen h = HeaderSize ->
  hLengthBytes h = zlen payload ->
  hCRC32C h = (if has_checksum_flag (hFlags h) then crc32c payload
               else crc32c (take 52 (putHeaderWithoutCRC h))) ->
  sealed h payload = h.
Proof.
  destruct h. cbn. intros -> -> -> -> ->. reflexivity.
Qed.

(** The checksummed prefix of a corrupted frame. *)
Lemma crc32c_insert bs i b :
  (i < length bs)%nat -> bs !! i <> Some b -> crc32c (<[i:=b]> bs) <> crc32c bs.
Proof.
  intros Hi Hne. destruct (lookup_lt_is_Some_2 bs i Hi) as [x Hx].
  rewrite insert_take_drop by done. rewrite <-(take_drop_middle bs i x Hx) at 3.
  apply crc32c_detects_byte. congruence.
Qed.

(** ** Claims *)

(** C40: what [EncodeMessage] writes, [DecodeMessage] reads back: the payload is
    returned unchanged and the header comes back with the fields the encoder
    owns (magic, version, header length, payload length, CRC) filled in and
    every other field as it was passed.  The one excluded case is a
    payload-less range request with the checksum flag, see
    [checksummed_range_request_rejected]. *)
Theorem decode_encode h payload :
  header_wf h -> zlen payload < 2 ^ 32 ->
  ~ (opUsesLengthAsRangeWithoutRequestPayload (hOp h) = true /\ payload = [] /\
     has_checksum_flag (hFlags h) = true) ->
  DecodeMessage (EncodeMessage h payload) = Ok (sealed h payload, payload).
Proof.
  intros Hwf Hlen Hno. apply decode_encode_aux; auto.
  intros Hop Hp. destruct (has_checksum_flag (hFlags h)); tauto.
Qed.

Definition write_header : Header := NewRequestHeader OpWrite 7 101 3 4096 FlagChecksum.

Lemma decode_encode_witness :
  DecodeMessage (EncodeMessage write_header [Byte.x01; Byte.xff])
  = Ok (sealed write_header [Byte.x01; Byte.xff], [Byte.x01; Byte.xff]).
Proof.
  apply (decode_encode write_header [Byte.x01; Byte.xff]).
  - concrete_bounds.
  - concrete_bounds.
  - intros [Hop _]. discriminate Hop.
Defined.

(** The encoding is canonical: a message [DecodeMessage] accepts is, byte
    for byte, the encoding of the header and payload it returned, so two
    different byte strings never decode to the same frame.  (A header-only
    range request is canonical when its length field is zero, the only value
    the encoder writes there, and it carries no checksum flag.) *)
Theorem encode_decode msg h payload :
  DecodeMessage msg = Ok (h, payload) ->
  (opUsesLengthAsRangeWithoutRequestPayload (hOp h) = true -> payload = [] ->
   hLengthBytes h = 0 /\ has_checksum_flag (hFlags h) = false) ->
  EncodeMessage h payload = msg.
Proof.
  intros Hdec Hrange. apply decode_ok_inv in Hdec as (Hlen & Hh & Hm & Hv & Hl & Hcase).
  assert (zlen payload = hLengthBytes h /\ payload = drop 56 msg /\
          hCRC32C h = if has_checksum_flag (hFlags h) then crc32c payload
                      else crc32c (take 52 msg)) as (Hp & Hd & Hc).
  { destruct Hcase as [(Hop & H56 & -> & Hc)|?]; [|done].
    destruct (Hrange Hop eq_refl) as [-> ->]. repeat split; [|done].
    rewrite drop_ge by lia. done. }
  assert (take 52 (putHeaderWithoutCRC h) = take 52 msg) as Hput.
  { subst h. rewrite put_parse, take52_take56; [done|]. rewrite length_take. lia. }
  rewrite <-Hput in Hc. pose proof (parse_wf (take 56 msg)) as Hwf. rewrite <-Hh in Hwf.
  assert (zlen payload < 2 ^ 32) by (rewrite Hp; apply Hwf).
  rewrite encode_eq, (sealed_id h payload), Hput, Hd by done.
  rewrite Hh at 1. symmetry. by apply raw_frame_split.
Qed.

Lemma encode_decode_witness :
  EncodeMessage (sealed write_header [Byte.x01; Byte.xff]) [Byte.x01; Byte.xff]
  = EncodeMessage write_header [Byte.x01; Byte.xff].
Proof.
  apply (encode_decode (EncodeMessage write_header [Byte.x01; Byte.xff])).
  - vm_compute. reflexivity.
  - discriminate.
Defined.

(** A frame sent without the checksum flag is rejected if any one byte of
    its header is changed on the way (the flags word excepted, which selects
    what the checksum covers). *)
Theorem header_corruption_detected h payload i b :
  header_wf h -> zlen payload < 2 ^ 32 -> has_checksum_flag (hFlags h) = false ->
  (i < 56)%nat -> ~ (12 <= i < 16)%nat -> EncodeMessage h payload !! i <> Some b ->
  is_ok (DecodeMessage (<[i:=b]> (EncodeMessage h payload))) = false.
Proof.
  intros Hwf Hlen Hf Hi Hfl Hne. set (m := EncodeMessage h payload) in *.
  destruct (DecodeMessage (<[i:=b]> m)) as [[h' p']| |] eqn:Hdec; try done. exfalso.
  pose proof (parse_encode h payload [] Hwf Hlen) as Hparse. rewrite app_nil_r in Hparse.
  fold m in Hparse.
  assert (length m = 56 + length payload)%nat as Hlm.
  { pose proof (zlen_encode h payload Hlen). unfold zlen in *. fold m in H. lia. }
  assert (hCRC32C (sealed h payload) = crc32c (take 52 m)) as Hcrc.
  { rewrite <-message_crc_header by done. fold m. rewrite <-(take_drop 52 m) at 1.
    apply header_crc_prefix. rewrite length_take. lia. }
  apply decode_ok_inv in Hdec as (_ & Hh' & _ & _ & _ & Hcase).
  assert (hFlags h' = hFlags h) as Hflags.
  { change (hFlags h) with (hFlags (sealed h payload)). rewrite Hh', <-Hparse.
    unfold parseHeader, le_get. cbn [hFlags]. rewrite take_insert_lt by lia.
    destruct (decide (i < 12)%nat).
    - by rewrite drop_insert_lt by lia.
    - rewrite drop_insert_ge, take_insert_ge by lia. done. }
  assert (hCRC32C h' = crc32c (take 52 (<[i:=b]> m))) as Hc'.
  { destruct Hcase as [(_ & _ & _ & ?)|(_ & _ & Hc)]; [done|]. by rewrite Hflags, Hf in Hc. }
  assert (hCRC32C h' = le_combine (take 4 (drop 52 (<[i:=b]> (take 56 m))))) as Hr'.
  { rewrite Hh', take_insert_lt by lia. reflexivity. }
  assert (hCRC32C (sealed h payload) = le_combine (take 4 (drop 52 (take 56 m)))) as Hr.
  { by rewrite <-Hparse. }
  destruct (decide (i < 52)%nat).
  - rewrite drop_insert_lt, <-Hr, Hc', Hcrc, take_insert_lt in Hr' by lia.
    revert Hr'. apply crc32c_insert; [rewrite length_take; lia|].
    by rewrite lookup_take_lt by lia.
  - rewrite take_insert_ge in Hc' by lia. rewrite <-Hcrc, Hr, Hr' in Hc'.
    apply le_combine_inj in Hc'; [|by rewrite !length_take, !length_drop, length_insert].
    rewrite drop_insert_ge, take_insert_lt in Hc' by lia.
    apply (f_equal (lookup (i - 52)%nat)) in Hc'.
    rewrite list_lookup_insert_eq in Hc' by (rewrite length_take, length_drop, length_take; lia).
    rewrite lookup_take_lt, lookup_drop, lookup_take_lt in Hc' by lia.
    apply Hne. rewrite Hc'. f_equal. lia.
Qed.

Definition read_header : Header := NewRequestHeader OpRead 9 101 3 8192 0.

Lemma header_corruption_detected_witness :
  is_ok (DecodeMessage (<[40%nat:=Byte.x7f]> (EncodeMessage read_header []))) = false.
Proof.
  apply (header_corruption_detected read_header [] 40 Byte.x7f).
  - concrete_bounds.
  - concrete_bounds.
  - reflexivity.
  - lia.
  - lia.
  - vm_compute. discriminate.
Defined.

(** The two sides of the codec disagree on one kind of request.  A read,
    discard or write-zeroes request without payload and with the checksum flag
    is encoded with the checksum of its (empty) payload, but the decoder takes
    its range-request branch and compares the field with the header checksum:
    the frame is rejected unless the header checksum happens to be zero. *)
Theorem checksummed_range_request_rejected h :
  header_wf h -> opUsesLengthAsRangeWithoutRequestPayload (hOp h) = true ->
  has_checksum_flag (hFlags h) = true ->
  crc32c (take 52 (EncodeMessage h [])) <> 0 ->
  DecodeMessage (EncodeMessage h []) = Err ErrHeaderCRC32C.
Proof.
  intros Hwf Hop Hf Hne. unfold DecodeMessage.
  assert (zlen (A:=byte) [] < 2 ^ 32) as H0 by concrete_bounds.
  rewrite zlen_encode by done. change (56 + zlen (A:=byte) [] <? HeaderSize) with false.
  pose proof (parse_encode h [] [] Hwf H0) as Hp. rewrite app_nil_r in Hp. rewrite Hp.
  change (hOp (sealed h [])) with (hOp h). rewrite Hop.
  cbv beta iota delta [negb andb]. cbn [sealed sealed_header set_field hMagic hVersion
    hHeaderLen hCRC32C Header_settable].
  change (Magic =? Magic) with true. change (VersionV1 =? VersionV1) with true.
  change (HeaderSize =? HeaderSize) with true.
  change (56 + zlen (A:=byte) [] =? HeaderSize) with true. cbn [negb].
  assert (header_crc (EncodeMessage h []) = crc32c (take 52 (EncodeMessage h []))) as ->.
  { rewrite encode_eq by done. rewrite header_crc_prefix by done. by rewrite take_app_exact. }
  unfold message_crc. rewrite Hf. change (crc32c []) with 0.
  destruct (Z.eqb_spec 0 (crc32c (take 52 (EncodeMessage h [])))); [congruence|done].
Qed.

Definition read_checksum_header : Header := NewRequestHeader OpRead 9 101 3 8192 FlagChecksum.

Lemma checksummed_range_request_rejected_witness :
  DecodeMessage (EncodeMessage read_checksum_header []) = Err ErrHeaderCRC32C.
Proof.
  apply (checksummed_range_request_rejected read_checksum_header).
  - concrete_bounds.
  - reflexivity.
  - reflexivity.
  - vm_compute. discriminate.
Defined.

(** ** The stream decoder *)

Lemma next_short d : zlen (buf d) < 56 -> Next d = (d, Ok None).
Proof. intros H. unfold Next, HeaderSize. by destruct (Z.ltb_spec (zlen (buf d)) 56); [|lia]. Qed.

(** [Next] once the probe has passed the magic, version and header-length tests. *)
Lemma next_probed d h payload more tail :
  frame_ok (h, payload) -> zlen payload <= maxPayloadLen d ->
  buf d ++ more = EncodeMessage h payload ++ tail ->
  56 <= zlen (buf d) ->
  Next d = if zlen (buf d) <? 56 + zlen payload then (d, Ok None) else
    match DecodeMessage (take (Z.to_nat (56 + zlen payload)) (buf d)) with
    | Ok f => (d <| buf := drop (Z.to_nat (56 + zlen payload)) (buf d) |>, Ok (Some f))
    | Err e => (d <| buf := drop (Z.to_nat (56 + zlen payload)) (buf d) |>, Err e)
    | Panic => (d <| buf := drop (Z.to_nat (56 + zlen payload)) (buf d) |>, Panic)
    end.
Proof.
  intros (Hwf & Hlen & Hrange) Hmax Hpre H56. cbn [fst snd] in *. unfold Next.
  destruct (Z.ltb_spec (zlen (buf d)) HeaderSize) as [H|_]; [unfold HeaderSize in H; lia|].
  assert (parseHeader (take 56 (buf d)) = sealed h payload) as ->.
  { erewrite <-parse_encode by eauto. erewrite <-Hpre.
    rewrite take_app_le; [done|]. unfold zlen in H56. lia. }
  change (hMagic (sealed h payload) =? Magic) with true.
  change (hVersion (sealed h payload) =? VersionV1) with true.
  change (hHeaderLen (sealed h payload) =? HeaderSize) with true.
  change (hOp (sealed h payload)) with (hOp h).
  change (hLengthBytes (sealed h payload)) with (zlen payload). cbn [negb]. unfold HeaderSize.
  destruct (Z.ltb_spec (maxPayloadLen d) (zlen payload)); [lia|]. rewrite andb_false_r.
  assert ((if opUsesLengthAsRangeWithoutRequestPayload (hOp h) then 56 else 56 + zlen payload)
          = 56 + zlen payload) as ->.
  { destruct (opUsesLengthAsRangeWithoutRequestPayload (hOp h)) eqn:Hop; [|done].
    destruct Hrange as [-> _]; [done|]. reflexivity. }
  destruct (zlen (buf d) <? 56 + zlen payload); [done|].
  destruct (DecodeMessage _) as [[]| |]; reflexivity.
Qed.

Lemma frame_ok_decode f :
  frame_ok f -> DecodeMessage (EncodeMessage f.1 f.2) = Ok (sealed f.1 f.2, f.2).
Proof.
  intros (Hwf & Hlen & Hrange). apply decode_encode_aux; auto. intros Hop _. by apply Hrange.
Qed.

(** [Next] on a buffer that a frame is still arriving in: either the frame is
    complete and is delivered, or nothing changes. *)
Lemma next_frame d f more tail :
  frame_ok f -> zlen f.2 <= maxPayloadLen d -> buf d ++ more = EncodeMessage f.1 f.2 ++ tail ->
  (zlen (buf d) < 56 + zlen f.2 /\ Next d = (d, Ok None)) \/
  (exists rest, rest ++ more = tail /\
     Next d = (d <| buf := rest |>, Ok (Some (sealed f.1 f.2, f.2)))).
Proof.
  destruct f as [h payload]. cbn [fst snd]. intros Hok Hmax Hpre.
  pose proof (zlen_nonneg payload).
  destruct (Z_lt_le_dec (zlen (buf d)) 56) as [Hs|Hs].
  { left. split; [lia|]. by apply next_short. }
  rewrite (next_probed d h payload more tail) by done.
  destruct (Z.ltb_spec (zlen (buf d)) (56 + zlen payload)) as [Hl|Hl]; [by left|right].
  assert (length (EncodeMessage h payload) = Z.to_nat (56 + zlen payload)) as Hle.
  { destruct Hok as (_ & Hlen & _). pose proof (zlen_encode h payload Hlen). unfold zlen in *.
    cbn in *. lia. }
  assert (take (Z.to_nat (56 + zlen payload)) (buf d) = EncodeMessage h payload) as Htk.
  { rewrite <-(take_app_le (buf d) more) by (unfold zlen in *; lia).
    rewrite Hpre. by apply take_app_exact. }
  exists (drop (Z.to_nat (56 + zlen payload)) (buf d)). split.
  - rewrite <-drop_app_le by (unfold zlen in *; lia). rewrite Hpre. by apply drop_app_exact.
  - rewrite Htk. pose proof (frame_ok_decode (h, payload) Hok) as Hd. cbn in Hd. by rewrite Hd.
Qed.

Lemma buf_feed d chunk : buf (Feed d chunk) = buf d ++ chunk.
Proof.
  unfold Feed. destruct (Z.eqb_spec (zlen chunk) 0) as [H|H]; [|done].
  destruct chunk; [by rewrite app_nil_r|]. unfold zlen in H. cbn in H. lia.
Qed.

Lemma max_feed d chunk : maxPayloadLen (Feed d chunk) = maxPayloadLen d.
Proof. unfold Feed. by destruct (zlen chunk =? 0). Qed.

Lemma read_loop_frame chunks d f tail rend :
  frame_ok f -> zlen f.2 <= maxPayloadLen d ->
  buf d ++ concat chunks = EncodeMessage f.1 f.2 ++ tail ->
  exists d' chunks',
    read_loop d chunks rend = ((d', chunks'), Ok (sealed f.1 f.2, f.2)) /\
    buf d' ++ concat chunks' = tail /\ maxPayloadLen d' = maxPayloadLen d.
Proof.
  intros Hok. revert d. induction chunks as [|c chunks IH]; intros d Hmax Hpre;
    destruct (next_frame d f _ tail Hok Hmax Hpre) as [[Hl Hn]|(rest & Ht & Hn)];
    cbn [read_loop]; rewrite Hn.
  - exfalso. rewrite app_nil_r in Hpre. rewrite Hpre, zlen_app in Hl.
    rewrite zlen_encode in Hl by apply Hok. pose proof (zlen_nonneg tail). lia.
  - by exists (d <| buf := rest |>), [].
  - destruct (IH (Feed d c)) as (d' & ch' & Hr & Hb & Hm).
    + by rewrite max_feed.
    + rewrite buf_feed, <-app_assoc. exact Hpre.
    + exists d', ch'. rewrite max_feed in Hm. done.
  - by exists (d <| buf := rest |>), (c :: chunks).
Qed.

Lemma read_loop_eof chunks d :
  buf d = [] -> concat chunks = [] ->
  exists d', read_loop d chunks ErrEOF = ((d', []), Err ErrEOF).
Proof.
  revert d. induction chunks as [|c chunks IH]; intros d Hd Hc; cbn [read_loop];
    rewrite next_short by (rewrite Hd; concrete_bounds).
  - exists d. unfold Buffered. rewrite Hd. reflexivity.
  - cbn in Hc. apply app_eq_nil in Hc as [-> Hc]. apply (IH (Feed d [])); [|done].
    by rewrite buf_feed, Hd.
Qed.

(** Call [ReadFrame] [n] times, stopping at the first error. *)
Fixpoint read_frames (n : nat) : act Conn wire_error (list (Header * bytes)) :=
  match n with
  | O => ret_act []
  | S n => bind_act ReadFrame (fun f => bind_act (read_frames n) (fun fs => ret_act (f :: fs)))
  end.

Definition wire_of (frames : list (Header * bytes)) : bytes :=
  concat (map (fun f => EncodeMessage f.1 f.2) frames).

Lemma read_frames_spec frames c :
  Forall frame_ok frames ->
  Forall (fun f => zlen f.2 <= maxPayloadLen (dec c)) frames ->
  buf (dec c) ++ concat (unread c) = wire_of frames ->
  exists c', read_frames (length frames) c
             = (c', Ok (map (fun f => (sealed f.1 f.2, f.2)) frames)) /\
    buf (dec c') ++ concat (unread c') = [] /\ read_end c' = read_end c.
Proof.
  revert c. induction frames as [|f frames IH]; intros c Hok Hmax Hpre.
  { by exists c. }
  apply Forall_cons in Hok as [Hf Hok]. apply Forall_cons in Hmax as [Hm Hmax].
  destruct (read_loop_frame (unread c) (dec c) f (wire_of frames) (read_end c) Hf Hm Hpre)
    as (d' & ch' & Hr & Hb & Hmx).
  destruct (IH (mkConn d' ch' (read_end c))) as (c' & Hread & Hempty & Hend); [done| |done|].
  { cbn. by rewrite Hmx. }
  exists c'. split; [|done]. cbn. unfold bind_act, ReadFrame. rewrite Hr, Hread. reflexivity.
Qed.

(** The frames a connection delivers do not depend on how the byte stream
    is cut into reads.  If the chunks returned by the reader concatenate to the
    encodings of some frames, then [ReadFrame] delivers exactly those frames in
    order, whatever the chunk boundaries, and then reports end of file. *)
Theorem stream_chunking_independent frames chunks limit :
  Forall frame_ok frames -> Forall (fun f => zlen f.2 <= limit) frames ->
  concat chunks = wire_of frames ->
  exists c', read_frames (length frames) (mkConn (NewStreamDecoder limit) chunks ErrEOF)
             = (c', Ok (map (fun f => (sealed f.1 f.2, f.2)) frames)) /\
    (ReadFrame c').2 = Err ErrEOF.
Proof.
  intros Hok Hmax Hc.
  destruct (read_frames_spec frames (mkConn (NewStreamDecoder limit) chunks ErrEOF))
    as (c' & Hr & Hempty & Hend); [done|done|exact Hc|].
  exists c'. split; [exact Hr|]. apply app_eq_nil in Hempty as [Hb Hu]. cbn in Hend.
  destruct (read_loop_eof (unread c') (dec c') Hb Hu) as [d' Hl].
  unfold ReadFrame. rewrite Hend, Hl. reflexivity.
Qed.

Definition two_frames : list (Header * bytes) :=
  [(read_header, []); (write_header, [Byte.x01; Byte.x02; Byte.x03])].

Lemma stream_chunking_independent_witness :
  exists c', read_frames (length two_frames)
    (mkConn (NewStreamDecoder 4096)
       [take 3 (wire_of two_frames); take 60 (drop 3 (wire_of two_frames)); [];
        drop 63 (wire_of two_frames)] ErrEOF)
    = (c', Ok (map (fun f => (sealed f.1 f.2, f.2)) two_frames)) /\
    (ReadFrame c').2 = Err ErrEOF.
Proof.
  apply (stream_chunking_independent two_frames).
  - repeat constructor; try concrete_bounds; discriminate.
  - repeat constructor; concrete_bounds.
  - vm_compute. reflexivity.
Defined.

(** ** Responses *)

Definition response_wf (r : ResponseHeader) : Prop :=
  header_wf (rBase r) /\ -2 ^ 31 <= rStatusCode r < 2 ^ 31 /\ u32 (rBackendLatencyUS r) /\
  u32 (rGatewayLatencyUS r) /\ u32 (rPathID r) /\ u32 (rReserved r).

Definition sealed_response_base (payload : bytes) (h : Header) : Header :=
  let h := h <| hMagic := Magic |> <| hVersion := VersionV1 |>
             <| hHeaderLen := ResponseHdrLen |> <| hLengthBytes := zlen payload |> in
  h <| hCRC32C := if has_checksum_flag (hFlags h) then crc32c payload
                  else crc32c (take 52 (putHeaderWithoutCRC h)) |>.

Definition sealed_response (r : ResponseHeader) (payload : bytes) : ResponseHeader :=
  r <| rBase := sealed_response_base payload (rBase r) |>.

Lemma sealed_response_base_wf payload h :
  header_wf h -> zlen payload < 2 ^ 32 -> header_wf (sealed_response_base payload h).
Proof.
  intros (?&?&?&?&?&?&?&?&?&?&?) Hlen. pose proof (zlen_nonneg payload).
  assert (u32 (hCRC32C (sealed_response_base payload h))) as Hcrc.
  { cbn. destruct (has_checksum_flag (hFlags h)); apply crc32c_range. }
  unfold header_wf, in_u in *. cbn [sealed_response_base set_field hMagic hVersion hHeaderLen
    hOp hFlags hRequestID hVolumeID hGeneration hOffsetBytes hLengthBytes Header_settable] in *.
  unfold ResponseHdrLen, Magic, VersionV1 in *. repeat split; lia.
Qed.

Lemma encode_response_eq r payload :
  zlen payload < 2 ^ 32 ->
  EncodeResponseMessage r payload
  = take 52 (putHeaderWithoutCRC (sealed_response_base payload (rBase r))) ++
    le_split 4 (hCRC32C (sealed_response_base payload (rBase r))) ++ response_tail r ++ payload.
Proof.
  intros Hlen. unfold EncodeResponseMessage.
  rewrite wrap32_small by (pose proof (zlen_nonneg payload); unfold in_u; lia). reflexivity.
Qed.

Lemma response_of_tail base p52 c4 r payload :
  length p52 = 52%nat -> length c4 = 4%nat -> response_wf r ->
  response_of base (p52 ++ c4 ++ response_tail r ++ payload) = r <| rBase := base |>.
Proof.
  intros H52 H4 (_ & Hst & ? & ? & ? & ?).
  unfold response_of, le_get.
  assert (forall n k, n = (56 + k)%nat -> drop n (p52 ++ c4 ++ response_tail r ++ payload)
                    = drop k (response_tail r ++ payload)) as Hd.
  { intros n k ->. rewrite <-drop_drop, app_assoc. f_equal.
    apply drop_app_exact. rewrite length_app. lia. }
  rewrite (Hd 56 0)%nat, (Hd 60 4)%nat, (Hd 64 8)%nat, (Hd 68 12)%nat, (Hd 72 16)%nat by done.
  transitivity (mkResponseHeader base
    (int32_of (le_combine (le_split 4 (wrap32 (rStatusCode r)))))
    (le_combine (le_split 4 (rBackendLatencyUS r))) (le_combine (le_split 4 (rGatewayLatencyUS r)))
    (le_combine (le_split 4 (rPathID r))) (le_combine (le_split 4 (rReserved r))));
    [reflexivity|].
  rewrite !le_combine_split. cbn.
  pose proof (wrap32_range (rStatusCode r)). unfold in_u in *.
  f_equal; [|apply Z.mod_small; lia..].
  change (Z.pos (4 * 8)) with 32. rewrite Z.mod_small by done. by apply int32_of_signed.
Qed.

(** A response survives the wire: decoding an encoded response message
    returns the payload and the response header, negative status codes
    included, with only the fields the encoder owns filled in. *)
Theorem decode_encode_response r payload :
  response_wf r -> zlen payload < 2 ^ 32 ->
  DecodeResponseMessage (EncodeResponseMessage r payload) = Ok (sealed_response r payload, payload).
Proof.
  intros Hwf Hlen. unfold DecodeResponseMessage. rewrite encode_response_eq by done.
  set (base := sealed_response_base payload (rBase r)).
  set (p52 := take 52 (putHeaderWithoutCRC base)). set (c4 := le_split 4 (hCRC32C base)).
  pose proof (zlen_nonneg payload).
  assert (zlen (p52 ++ c4 ++ response_tail r ++ payload) = 76 + zlen payload) as ->.
  { rewrite !zlen_app. change (zlen p52) with 52. change (zlen c4) with 4.
    change (zlen (response_tail r)) with 20. lia. }
  unfold ResponseHdrLen. destruct (Z.ltb_spec (76 + zlen payload) 76); [lia|].
  assert (parseHeader (take 56 (p52 ++ c4 ++ response_tail r ++ payload)) = base) as ->.
  { unfold p52, c4. rewrite parse_put; [reflexivity|].
    apply sealed_response_base_wf; [apply Hwf|done]. }
  rewrite response_of_tail by done.
  change (hMagic base =? Magic) with true. change (hVersion base =? VersionV1) with true.
  change (hHeaderLen base =? 76) with true. cbn [negb rBase set_field ResponseHeader_settable].
  change (hLengthBytes base) with (zlen payload). rewrite Z.eqb_refl. cbn [negb].
  rewrite (header_crc_prefix p52) by done.
  assert (drop 76 (p52 ++ c4 ++ response_tail r ++ payload) = payload) as ->.
  { rewrite !app_assoc. by apply drop_app_exact. }
  change (hFlags base) with (hFlags (rBase r)).
  assert (hCRC32C base = if has_checksum_flag (hFlags (rBase r)) then crc32c payload
                         else crc32c p52) as -> by reflexivity.
  destruct (has_checksum_flag (hFlags (rBase r))); rewrite Z.eqb_refl; reflexivity.
Qed.

Definition error_response : ResponseHeader :=
  mkResponseHeader (NewRequestHeader OpReadResp 9 101 3 0 FlagChecksum) (-5) 12 13 2 0.

Lemma decode_encode_response_witness :
  DecodeResponseMessage (EncodeResponseMessage error_response [Byte.x0a])
  = Ok (sealed_response error_response [Byte.x0a], [Byte.x0a]).
Proof. apply (decode_encode_response error_response [Byte.x0a]); concrete_bounds. Defined.

(** ** Request and response bodies *)

Definition hello_wf (h : Hello) : Prop :=
  u64 (helloHostID h) /\ u64 (helloBootIDHash h) /\ u64 (helloSessionNonce h) /\
  u32 (helloClientCaps h).
Definition capability_wf (c : PathCapability) : Prop :=
  u32 (MaxIOSize c) /\ u32 (MaxSegments c) /\ u64 (SupportedOpsMask c) /\ u32 (Features c) /\
  u32 (MaxInflightRequests c) /\ u64 (MaxInflightBytes c) /\ u32 (MaxZeroLikeIOSize c).
Definition write_tag_wf (t : WriteTag) : Prop :=
  u64 (wtHostID t) /\ u64 (wtBootIDHash t) /\ u64 (wtSequenceNo t).
Definition error_detail_wf (e : ErrorDetail) : Prop :=
  u32 (RetryAfterMS e) /\ u32 (DetailCode e) /\ zlen (Message e) <= 0xFFFF.

(** Discharge [le_combine (le_split n z) = z] for every field at once. *)
Ltac fields_round_trip :=
  rewrite ?le_combine_split; cbn; unfold in_u in *; f_equal; apply Z.mod_small; lia.

Lemma hello_round_trip h : hello_wf h -> DecodeHelloPayload (EncodeHelloPayload h) = Ok h.
Proof.
  destruct h. intros (?&?&?&?). cbn in *. change (DecodeHelloPayload _) with
    (@Ok wire_error _ (mkHello (le_combine (le_split 8 helloHostID0))
      (le_combine (le_split 8 helloBootIDHash0)) (le_combine (le_split 8 helloSessionNonce0))
      (le_combine (le_split 4 helloClientCaps0)))).
  f_equal. fields_round_trip.
Qed.

Definition effective_capability (c : PathCapability) : PathCapability :=
  if MaxZeroLikeIOSize c =? 0 then c <| MaxZeroLikeIOSize := MaxIOSize c |> else c.

Lemma capability_round_trip c :
  capability_wf c ->
  DecodePathCapabilityPayload (EncodePathCapabilityPayload c) = Ok (effective_capability c).
Proof.
  destruct c. intros (?&?&?&?&?&?&?). cbn in *. change (DecodePathCapabilityPayload _) with
    (@Ok wire_error _ (effective_capability (mkPathCapability
      (le_combine (le_split 4 MaxIOSize0)) (le_combine (le_split 4 MaxSegments0))
      (le_combine (le_split 8 SupportedOpsMask0)) (le_combine (le_split 4 Features0))
      (le_combine (le_split 4 MaxInflightRequests0)) (le_combine (le_split 8 MaxInflightBytes0))
      (le_combine (le_split 4 MaxZeroLikeIOSize0))))).
  do 2 f_equal. fields_round_trip.
Qed.

Lemma write_payload_round_trip tag data :
  write_tag_wf tag -> DecodeWritePayload (EncodeWritePayload tag data) = Ok (tag, data).
Proof.
  destruct tag. intros (?&?&?). cbn in *. unfold DecodeWritePayload.
  assert (24 <= zlen (EncodeWritePayload (mkWriteTag wtHostID0 wtBootIDHash0 wtSequenceNo0) data)).
  { unfold EncodeWritePayload. rewrite !zlen_app. cbn [wtHostID wtBootIDHash wtSequenceNo].
    change (zlen (le_split 8 ?z)) with 8. pose proof (zlen_nonneg data).
    change (zlen (le_split 8 wtHostID0)) with 8. change (zlen (le_split 8 wtBootIDHash0)) with 8.
    change (zlen (le_split 8 wtSequenceNo0)) with 8. lia. }
  destruct (Z.ltb_spec (zlen (EncodeWritePayload (mkWriteTag wtHostID0 wtBootIDHash0 wtSequenceNo0)
    data)) 24); [lia|].
  change (Ok (_, _)) with (@Ok wire_error _ (mkWriteTag (le_combine (le_split 8 wtHostID0))
      (le_combine (le_split 8 wtBootIDHash0)) (le_combine (le_split 8 wtSequenceNo0)), data)) at 1.
  do 2 f_equal. fields_round_trip.
Qed.

Lemma error_detail_round_trip e :
  error_detail_wf e ->
  exists b, EncodeErrorDetailPayload e = Ok b /\ DecodeErrorDetailPayload b = Ok e.
Proof.
  destruct e as [ra dc msg]. intros (?&?&Hm). cbn in *. unfold EncodeErrorDetailPayload. cbn [Message].
  destruct (Z.ltb_spec 0xFFFF (zlen msg)); [lia|]. eexists. split; [reflexivity|].
  set (b := le_split 4 (RetryAfterMS (mkErrorDetail ra dc msg)) ++
            le_split 4 (DetailCode (mkErrorDetail ra dc msg)) ++ le_split 2 (zlen msg) ++ msg).
  pose proof (zlen_nonneg msg).
  assert (zlen b = 10 + zlen msg) as Hb.
  { unfold b. rewrite !zlen_app. cbn [RetryAfterMS DetailCode].
    change (zlen (le_split 4 ra)) with 4. change (zlen (le_split 4 dc)) with 4.
    change (zlen (le_split 2 (zlen msg))) with 2. lia. }
  assert (le_get 8 2 b = zlen msg) as Hl.
  { change (le_get 8 2 b) with (le_combine (le_split 2 (zlen msg))).
    rewrite le_combine_split. apply Z.mod_small. cbn. lia. }
  unfold DecodeErrorDetailPayload. rewrite Hl, Hb, Z.eqb_refl.
  destruct (Z.ltb_spec (10 + zlen msg) 10); [lia|]. cbn [negb].
  change (mkErrorDetail (le_get 0 4 b) (le_get 4 4 b) (drop 10 b)) with
    (mkErrorDetail (le_combine (le_split 4 ra)) (le_combine (le_split 4 dc)) msg).
  f_equal. fields_round_trip.
Qed.

(** Every body of the v1 protocol round-trips: hello, path capability (an
    absent zero-like limit is read back as the I/O limit), tagged write data
    and error detail. *)
Theorem bodies_round_trip h c tag data e :
  hello_wf h -> capability_wf c -> write_tag_wf tag -> error_detail_wf e ->
  DecodeHelloPayload (EncodeHelloPayload h) = Ok h /\
  DecodePathCapabilityPayload (EncodePathCapabilityPayload c) = Ok (effective_capability c) /\
  DecodeWritePayload (EncodeWritePayload tag data) = Ok (tag, data) /\
  exists b, EncodeErrorDetailPayload e = Ok b /\ DecodeErrorDetailPayload b = Ok e.
Proof.
  auto using hello_round_trip, capability_round_trip, write_payload_round_trip,
    error_detail_round_trip.
Qed.

Definition hello_1 : Hello := mkHello 1 2 3 4.
Definition capability_1 : PathCapability := mkPathCapability 4128768 32 510 0 128 8388608 0.
Definition write_tag_1 : WriteTag := mkWriteTag 11 12 13.
Definition error_detail_1 : ErrorDetail := mkErrorDetail 250 7 [Byte.x6e; Byte.x6f].

Lemma bodies_round_trip_witness :
  DecodeHelloPayload (EncodeHelloPayload hello_1) = Ok hello_1 /\
  DecodePathCapabilityPayload (EncodePathCapabilityPayload capability_1)
  = Ok (effective_capability capability_1) /\
  DecodeWritePayload (EncodeWritePayload write_tag_1 [Byte.xab]) = Ok (write_tag_1, [Byte.xab]) /\
  exists b, EncodeErrorDetailPayload error_detail_1 = Ok b /\
            DecodeErrorDetailPayload b = Ok error_detail_1.
Proof.
  apply (bodies_round_trip hello_1 capability_1 write_tag_1 [Byte.xab] error_detail_1);
    concrete_bounds.
Defined.

End Wire1Facts.
