(* ===== verification/Sha256.v ===== *)
(** * SHA-256 and HMAC-SHA-256

    [crypto/sha256] and [crypto/hmac] as the wire protocol v2 and the token
    code use them (src/protocol/wirev2/auth.go, src/gateway/auth/token.go).
    Words are 32-bit [Z] values, and the examples at the end are the published
    test vectors of FIPS 180-4 and RFC 4231. *)

From Stdlib Require Import ZArith Lia.
From stdpp Require Import base list.
From coqutil Require Import Byte Word.LittleEndianList.
From S2P Require Import Prelude.
Open Scope Z_scope.

(** The round constants and the initial state are the first 32 fractional bits
    of the cube roots and square roots of the first primes. *)
Definition small_primes (bound : nat) : list Z :=
  filter (fun p => forallb (fun d => negb (p mod d =? 0)) (seqZ 2 (p - 2)) = true)
         (seqZ 2 (Z.of_nat bound)).

(** The integer cube root of [n], one bit at a time from bit [bits - 1] down. *)
Fixpoint cube_root (bits : nat) (acc n : Z) : Z :=
  match bits with
  | O => acc
  | S bits =>
      let next := acc + 2 ^ Z.of_nat bits in
      cube_root bits (if next ^ 3 <=? n then next else acc) n
  end.

Definition sha_k : list Z := Eval vm_compute in
  map (fun p => cube_root 36 0 (p * 2 ^ 96) mod 2 ^ 32) (small_primes 310).

Definition sha_h0 : list Z := Eval vm_compute in
  map (fun p => Z.sqrt (p * 2 ^ 64) mod 2 ^ 32) (small_primes 18).

Definition rotr (n x : Z) : Z := Z.lor (Z.shiftr x n) (wrap32 (Z.shiftl x (32 - n))).
Definition xor3 (a b c : Z) : Z := Z.lxor a (Z.lxor b c).
Definition big_sigma0 (x : Z) : Z := xor3 (rotr 2 x) (rotr 13 x) (rotr 22 x).
Definition big_sigma1 (x : Z) : Z := xor3 (rotr 6 x) (rotr 11 x) (rotr 25 x).
Definition small_sigma0 (x : Z) : Z := xor3 (rotr 7 x) (rotr 18 x) (Z.shiftr x 3).
Definition small_sigma1 (x : Z) : Z := xor3 (rotr 17 x) (rotr 19 x) (Z.shiftr x 10).
Definition choose (e f g : Z) : Z := Z.lxor (Z.land e f) (Z.land (Z.lxor e 0xffffffff) g).
Definition majority (a b c : Z) : Z := xor3 (Z.land a b) (Z.land a c) (Z.land b c).

(** Big-endian 32-bit words of a byte string whose length is a multiple of four. *)
Fixpoint be_words (bs : bytes) : list Z :=
  match bs with
  | a :: b :: c :: d :: rest => le_combine [d; c; b; a] :: be_words rest
  | _ => []
  end.

Definition be_bytes (n : nat) (z : Z) : bytes := reverse (le_split n z).

(** The message schedule, newest word first: 16 words, then 48 derived ones. *)
Fixpoint schedule (n : nat) (rev_w : list Z) : list Z :=
  match n with
  | O => rev_w
  | S n =>
      let w i := nth i rev_w 0 in
      schedule n (wrap32 (small_sigma1 (w 1%nat) + w 6%nat + small_sigma0 (w 14%nat) + w 15%nat)
                  :: rev_w)
  end.

Definition sha_round (st : list Z) (kw : Z * Z) : list Z :=
  match st with
  | [a; b; c; d; e; f; g; h] =>
      let t1 := h + big_sigma1 e + choose e f g + kw.1 + kw.2 in
      let t2 := big_sigma0 a + majority a b c in
      [wrap32 (t1 + t2); a; b; c; wrap32 (d + t1); e; f; g]
  | _ => st
  end.

Definition sha_block (st : list Z) (block : bytes) : list Z :=
  let w := reverse (schedule 48 (reverse (be_words block))) in
  zip_with (fun x y => wrap32 (x + y)) st (fold_left sha_round (zip sha_k w) st).

Fixpoint sha_blocks (n : nat) (st : list Z) (bs : bytes) : list Z :=
  match n with
  | O => st
  | S n => sha_blocks n (sha_block st (take 64 bs)) (drop 64 bs)
  end.

Definition sha_pad (bs : bytes) : bytes :=
  bs ++ [Byte.x80] ++ zeroes ((55 - zlen bs) mod 64) ++ be_bytes 8 (8 * zlen bs).

Definition sha256 (bs : bytes) : bytes :=
  let padded := sha_pad bs in
  concat (map (be_bytes 4) (sha_blocks (length padded / 64) sha_h0 padded)).

(** [hmac.New(sha256.New, key)]. *)
Definition hmac_key (key : bytes) : bytes :=
  let k := if 64 <? zlen key then sha256 key else key in k ++ zeroes (64 - zlen k).

Definition hmac_sha256 (key msg : bytes) : bytes :=
  let k := hmac_key key in
  let pad x := map (fun b => byte.xor b x) k in
  sha256 (pad Byte.x5c ++ sha256 (pad Byte.x36 ++ msg)).

(** The digest of [abc] (FIPS 180-4). *)
Example sha256_abc :
  sha256 [Byte.x61; Byte.x62; Byte.x63]
  = be_bytes 32 0xba7816bf8f01cfea414140de5dae2223b00361a396177a9cb410ff61f20015ad.
Proof. vm_compute. reflexivity. Qed.

(** RFC 4231, test case 2: key [Jefe], data [what do ya want for nothing?]. *)
Example hmac_sha256_rfc4231 :
  hmac_sha256 (map byte.of_Z [0x4a; 0x65; 0x66; 0x65])
    (map byte.of_Z [0x77; 0x68; 0x61; 0x74; 0x20; 0x64; 0x6f; 0x20; 0x79; 0x61; 0x20; 0x77; 0x61;
       0x6e; 0x74; 0x20; 0x66; 0x6f; 0x72; 0x20; 0x6e; 0x6f; 0x74; 0x68; 0x69; 0x6e; 0x67; 0x3f])
  = be_bytes 32 0x5bdcc146bf60754e6a042426089575c75a003f089d2739839dec58b964ec3843.
Proof. vm_compute. reflexivity. Qed.

(** ** The digest is 32 bytes long *)

Lemma length_be_bytes n z : length (be_bytes n z) = n.
Proof. unfold be_bytes. by rewrite length_reverse, length_le_split. Qed.

Lemma length_sha_round st kw : length (sha_round st kw) = length st.
Proof.
  unfold sha_round. do 8 (destruct st as [|? st]; [reflexivity|]). by destruct st.
Qed.

Lemma length_fold_round kws st : length (fold_left sha_round kws st) = length st.
Proof. revert st. induction kws; intros st; simpl; [done|]. by rewrite IHkws, length_sha_round. Qed.

Lemma length_sha_blocks n st bs : length (sha_blocks n st bs) = length st.
Proof.
  revert st bs. induction n as [|n IH]; intros st bs; simpl; [done|].
  rewrite IH. unfold sha_block. rewrite length_zip_with, length_fold_round. lia.
Qed.

Lemma length_concat_map {A B} (f : A -> list B) n l :
  (forall x, length (f x) = n) -> length (concat (map f l)) = (n * length l)%nat.
Proof. intros Hf. induction l; simpl; rewrite ?length_app, ?Hf; lia. Qed.

Lemma length_sha256 bs : length (sha256 bs) = 32%nat.
Proof.
  unfold sha256. rewrite (length_concat_map _ 4) by apply length_be_bytes.
  by rewrite length_sha_blocks.
Qed.

Lemma length_hmac_sha256 key msg : length (hmac_sha256 key msg) = 32%nat.
Proof. apply length_sha256. Qed.
