(* ===== verification/WireV2.v ===== *)
(** * Wire protocol v2: authenticated frames

    Models src/protocol/wirev2 (types.go, codec.go, auth.go, seq.go, conn.go).
    The encoders take the header by pointer and fill in the fields they own, so
    their models return the header as the caller sees it afterwards.  The
    JSON bodies of hello.go are not modelled.  [io.ReadFull] on the connection
    is modelled on the bytes the peer has sent: it either takes the bytes it
    asks for, or reports that the stream ended before or inside them. *)

From Stdlib Require Import ZArith Lia.
From stdpp Require Import base list.
From coqutil Require Import Byte Word.LittleEndianList.
From S2P Require Import Prelude Crc32c Sha256.
Open Scope Z_scope.

Module Wire2.

(** ** types.go *)

Definition MagicV2 : Z := 0x4E4D4252.
Definition VersionV2 : Z := 2.
Definition HeaderSizeV2 : Z := 76.
Definition AuthTagSize : Z := 32.
Definition MaxAuthTagLen : Z := 32.
Definition ResponseHeaderSizeV2 : Z := HeaderSizeV2 + 20.

Definition OpHello : Z := 0x0010.
Definition OpHelloAck : Z := 0x0011.
Definition OpAuthErr : Z := 0x0012.
Definition OpRead : Z := 0x0001.
Definition OpWrite : Z := 0x0002.
Definition OpFlush : Z := 0x0003.
Definition OpDiscard : Z := 0x0004.
Definition OpWriteZeroes : Z := 0x0005.
Definition OpHeartbeat : Z := 0x0006.
Definition OpPathProbe : Z := 0x0007.
Definition OpGetVolumeInfo : Z := 0x0008.

Definition ErrTokenExpired : Z := 20.
Definition ErrBadAuthTag : Z := 21.
Definition ErrReplayDetected : Z := 22.
Definition ErrSessionClosed : Z := 23.
Definition ErrGenerationMatch : Z := 24.

Record Header := mkHeader {
  hMagic : Z; hVersion : Z; hHeaderLen : Z; hOp : Z; hFlags : Z; hRequestID : Z;
  hVolumeID : Z; hGeneration : Z; hSessionID : Z; hSeqNo : Z; hOffsetBytes : Z;
  hLengthBytes : Z; hAuthLen : Z; hReserved : Z; hCRC32C : Z }.

#[export] Instance Header_settable : Settable Header := fun h =>
  mkHeader (hMagic h) (hVersion h) (hHeaderLen h) (hOp h) (hFlags h) (hRequestID h)
    (hVolumeID h) (hGeneration h) (hSessionID h) (hSeqNo h) (hOffsetBytes h)
    (hLengthBytes h) (hAuthLen h) (hReserved h) (hCRC32C h).

Definition zero_header : Header := mkHeader 0 0 0 0 0 0 0 0 0 0 0 0 0 0 0.

Record ResponseHeader := mkResponseHeader {
  rBase : Header; rStatusCode : Z; rBackendLatencyUS : Z;
  rGatewayLatencyUS : Z; rPathID : Z; rReserved : Z }.

#[export] Instance ResponseHeader_settable : Settable ResponseHeader := fun r =>
  mkResponseHeader (rBase r) (rStatusCode r) (rBackendLatencyUS r)
    (rGatewayLatencyUS r) (rPathID r) (rReserved r).

(** ** codec.go *)

Inductive wire_error :=
| ErrShortMessage | ErrBadMagicValue | ErrBadVersion | ErrBadHeaderLen | ErrHeaderCRC32C
| ErrLengthMismatch | ErrAuthTagRequired | ErrFrameTooLarge | ErrAuthTagMismatch | ErrReplaySeq
| ErrEOF | ErrUnexpectedEOF.

#[export] Instance wire_error_eq_dec : EqDecision wire_error.
Proof. solve_decision. Defined.

Definition le_get (i n : nat) (b : bytes) : Z := le_combine (take n (drop i b)).

Definition putHeaderWithoutCRC (h : Header) : bytes :=
  le_split 4 (hMagic h) ++ le_split 2 (hVersion h) ++ le_split 2 (hHeaderLen h) ++
  le_split 4 (hOp h) ++ le_split 4 (hFlags h) ++ le_split 8 (hRequestID h) ++
  le_split 8 (hVolumeID h) ++ le_split 8 (hGeneration h) ++ le_split 8 (hSessionID h) ++
  le_split 8 (hSeqNo h) ++ le_split 8 (hOffsetBytes h) ++ le_split 4 (hLengthBytes h) ++
  le_split 2 (hAuthLen h) ++ le_split 2 (hReserved h) ++ le_split 4 0.

Definition parseHeader (src : bytes) : Header :=
  mkHeader (le_get 0 4 src) (le_get 4 2 src) (le_get 6 2 src) (le_get 8 4 src)
    (le_get 12 4 src) (le_get 16 8 src) (le_get 24 8 src) (le_get 32 8 src)
    (le_get 40 8 src) (le_get 48 8 src) (le_get 56 8 src) (le_get 64 4 src)
    (le_get 68 2 src) (le_get 70 2 src) (le_get 72 4 src).

Definition EncodeMessage (h : Header) (payload authTag : bytes)
  : Header * result wire_error bytes :=
  let needTag := negb (hOp h =? OpHello) && negb (hOp h =? OpHelloAck) in
  if needTag && negb (zlen authTag =? AuthTagSize) then (h, Err ErrAuthTagRequired) else
  let authTag := if negb needTag && (0 <? zlen authTag) then [] else authTag in
  let h := h <| hMagic := MagicV2 |> <| hVersion := VersionV2 |>
             <| hHeaderLen := HeaderSizeV2 |> <| hLengthBytes := wrap32 (zlen payload) |>
             <| hAuthLen := if needTag && (zlen authTag =? AuthTagSize)
                            then AuthTagSize else 0 |> in
  let out := take 72 (putHeaderWithoutCRC h) in
  let crc := crc32c out in
  (h, Ok (out ++ le_split 4 crc ++ payload ++ (if 0 <? hAuthLen h then authTag else []))).

Definition DecodeMessage (buf : bytes) : result wire_error (Header * bytes * bytes) :=
  if zlen buf <? HeaderSizeV2 then Err ErrShortMessage else
  let h := parseHeader (take 76 buf) in
  if negb (hMagic h =? MagicV2) then Err ErrBadMagicValue else
  if negb (hVersion h =? VersionV2) then Err ErrBadVersion else
  if negb (hHeaderLen h =? HeaderSizeV2) then Err ErrBadHeaderLen else
  let expectedLen := HeaderSizeV2 + hLengthBytes h + hAuthLen h in
  if zlen buf <? expectedLen then Err ErrShortMessage else
  if expectedLen <? zlen buf then Err ErrLengthMismatch else
  if negb (hCRC32C h =? crc32c (take 72 buf)) then Err ErrHeaderCRC32C else
  let payload := slice HeaderSizeV2 (HeaderSizeV2 + hLengthBytes h) buf in
  let tag := if 0 <? hAuthLen h
             then drop (Z.to_nat (HeaderSizeV2 + hLengthBytes h)) buf else [] in
  Ok (h, payload, tag).

Definition response_tail (r : ResponseHeader) : bytes :=
  le_split 4 (wrap32 (rStatusCode r)) ++ le_split 4 (rBackendLatencyUS r) ++
  le_split 4 (rGatewayLatencyUS r) ++ le_split 4 (rPathID r) ++ le_split 4 (rReserved r).

Definition EncodeResponseMessage (r : ResponseHeader) (payload authTag : bytes)
  : ResponseHeader * bytes :=
  let base := rBase r <| hMagic := MagicV2 |> <| hVersion := VersionV2 |>
                <| hHeaderLen := ResponseHeaderSizeV2 |>
                <| hLengthBytes := wrap32 (zlen payload) |>
                <| hAuthLen := if zlen authTag =? AuthTagSize then AuthTagSize else 0 |> in
  let r := r <| rBase := base |> in
  let out := take 72 (putHeaderWithoutCRC base) in
  let crc := crc32c out in
  (r, out ++ le_split 4 crc ++ response_tail r ++ payload ++
      (if 0 <? hAuthLen base then authTag else [])).

Definition DecodeResponseMessage (buf : bytes)
  : result wire_error (ResponseHeader * bytes * bytes) :=
  if zlen buf <? ResponseHeaderSizeV2 then Err ErrShortMessage else
  let base := parseHeader (take 76 buf) in
  if negb (hMagic base =? MagicV2) || negb (hVersion base =? VersionV2)
  then Err ErrBadMagicValue else
  if negb (hCRC32C base =? crc32c (take 72 buf)) then Err ErrHeaderCRC32C else
  let r := mkResponseHeader base (int32_of (le_get 76 4 buf)) (le_get 80 4 buf)
             (le_get 84 4 buf) (le_get 88 4 buf) (le_get 92 4 buf) in
  let expectedLen := ResponseHeaderSizeV2 + hLengthBytes base + hAuthLen base in
  if zlen buf <? expectedLen then Err ErrShortMessage else
  let payload := slice ResponseHeaderSizeV2 (ResponseHeaderSizeV2 + hLengthBytes base) buf in
  let tag := if 0 <? hAuthLen base
             then slice (ResponseHeaderSizeV2 + hLengthBytes base) expectedLen buf else [] in
  Ok (r, payload, tag).

(** ** auth.go *)

Definition AAD (h : Header) : bytes :=
  le_split 2 (hVersion h) ++ le_split 4 (hOp h) ++ le_split 8 (hRequestID h) ++
  le_split 8 (hVolumeID h) ++ le_split 8 (hGeneration h) ++ le_split 8 (hSessionID h) ++
  le_split 8 (hSeqNo h) ++ le_split 8 (hOffsetBytes h) ++ le_split 4 (hLengthBytes h).

Definition ComputeAuthTag (sessionKey : bytes) (h : Header) (payload : bytes) : bytes :=
  hmac_sha256 sessionKey (AAD h ++ payload).

Definition VerifyAuthTag (sessionKey : bytes) (h : Header) (payload tag : bytes)
  : result wire_error unit :=
  if negb (zlen tag =? AuthTagSize) then Err ErrAuthTagMismatch else
  let expected := ComputeAuthTag sessionKey h payload in
  if negb (bool_decide (tag = expected)) then Err ErrAuthTagMismatch else Ok tt.

(** ** seq.go *)

Record SeqChecker := mkSeqChecker { lastSeqNo : Z }.

Definition CheckNext (seq : Z) : act SeqChecker wire_error unit := fun s =>
  let next := add64 (lastSeqNo s) 1 in
  if negb (seq =? next) then (s, Err ErrReplaySeq) else (mkSeqChecker seq, Ok tt).

Definition Last (s : SeqChecker) : Z := lastSeqNo s.
Definition Reset (s : SeqChecker) : SeqChecker := mkSeqChecker 0.

(** ** conn.go *)

Definition MinFrameLen : Z := HeaderSizeV2.

(** [io.ReadFull(r, make(\[\]byte, n))] on the bytes the stream still holds. *)
Definition read_full (n : Z) : act bytes wire_error bytes := fun s =>
  if n <=? zlen s then (drop (Z.to_nat n) s, Ok (take (Z.to_nat n) s))
  else ([], Err (if zlen s =? 0 then ErrEOF else ErrUnexpectedEOF)).

Definition ReadFrame (maxPayloadLen : Z) : act bytes wire_error (Header * bytes * bytes) :=
  bind_act (read_full HeaderSizeV2) (fun headerBuf =>
  let h := parseHeader headerBuf in
  if negb (hMagic h =? MagicV2) || negb (hVersion h =? VersionV2)
  then fail_act ErrBadMagicValue else
  if maxPayloadLen <? hLengthBytes h then fail_act ErrFrameTooLarge else
  let tailLen := hLengthBytes h + hAuthLen h in
  bind_act (if 0 <? tailLen then read_full tailLen else ret_act []) (fun payloadAndTag =>
  let fullFrame := headerBuf ++ payloadAndTag in
  fun s => (s, DecodeMessage fullFrame))).

(** The bytes [WriteFrame] hands to the writer. *)
Definition WriteFrame (h : Header) (payload tag : bytes) : Header * result wire_error bytes :=
  EncodeMessage h payload tag.

Definition WriteResponseFrame (r : ResponseHeader) (payload tag : bytes)
  : ResponseHeader * bytes :=
  EncodeResponseMessage r payload tag.

Definition ParseVersion : act bytes wire_error (Z * bytes) :=
  bind_act (read_full 6) (fun first6 =>
  if negb (le_get 0 4 first6 =? MagicV2) then fail_act ErrBadMagicValue
  else ret_act (le_get 4 2 first6, first6)).

End Wire2.
