(* ===== verification/WireV2Facts.v ===== *)
(** * Wire protocol v2: theorems

    Frames written to a stream are read back one by one, the authenticated
    data determines every field it is meant to bind, a tagged frame verifies at
    the receiver, and the sequence checker accepts each sequence number once
    and in order. *)

From Stdlib Require Import ZArith Lia.
From stdpp Require Import base list.
From coqutil Require Import Byte Word.LittleEndianList.
From S2P Require Import Prelude Crc32c Sha256 WireV2.
Open Scope Z_scope.

Module Wire2Facts.
Import Wire2.

Definition header_wf (h : Header) : Prop :=
  u32 (hMagic h) /\ u16 (hVersion h) /\ u16 (hHeaderLen h) /\ u32 (hOp h) /\
  u32 (hFlags h) /\ u64 (hRequestID h) /\ u64 (hVolumeID h) /\ u64 (hGeneration h) /\
  u64 (hSessionID h) /\ u64 (hSeqNo h) /\ u64 (hOffsetBytes h) /\ u32 (hLengthBytes h) /\
  u16 (hAuthLen h) /\ u16 (hReserved h) /\ u32 (hCRC32C h).

(** Whether the op carries an authentication tag. *)
Definition needs_tag (h : Header) : bool := negb (hOp h =? OpHello) && negb (hOp h =? OpHelloAck).

(** The header as the encoder leaves it in the caller's hands. *)
Definition stamped (h : Header) (payload : bytes) : Header :=
  h <| hMagic := MagicV2 |> <| hVersion := VersionV2 |> <| hHeaderLen := HeaderSizeV2 |>
    <| hLengthBytes := zlen payload |> <| hAuthLen := if needs_tag h then AuthTagSize else 0 |>.

(** The header as the receiver parses it. *)
Definition received (h : Header) (payload : bytes) : Header :=
  let h := stamped h payload in
  h <| hCRC32C := crc32c (take 72 (putHeaderWithoutCRC h)) |>.

Definition frame_ok (max : Z) (h : Header) (payload tag : bytes) : Prop :=
  header_wf h /\ zlen payload <= max /\ max < 2 ^ 32 /\
  (if needs_tag h then zlen tag = AuthTagSize else tag = []).

Definition frame_bytes (h : Header) (payload tag : bytes) : bytes :=
  take 72 (putHeaderWithoutCRC (stamped h payload)) ++
  le_split 4 (hCRC32C (received h payload)) ++ payload ++ tag.

(** ** Layout lemmas *)

Lemma parse_put_v2 h crc rest :
  header_wf (h <| hCRC32C := crc |>) ->
  parseHeader (take 76 (take 72 (putHeaderWithoutCRC h) ++ le_split 4 crc ++ rest))
  = h <| hCRC32C := crc |>.
Proof.
  intros (?&?&?&?&?&?&?&?&?&?&?&?&?&?&?); cbn in *.
  transitivity (mkHeader
    (le_combine (le_split 4 (hMagic h))) (le_combine (le_split 2 (hVersion h)))
    (le_combine (le_split 2 (hHeaderLen h))) (le_combine (le_split 4 (hOp h)))
    (le_combine (le_split 4 (hFlags h))) (le_combine (le_split 8 (hRequestID h)))
    (le_combine (le_split 8 (hVolumeID h))) (le_combine (le_split 8 (hGeneration h)))
    (le_combine (le_split 8 (hSessionID h))) (le_combine (le_split 8 (hSeqNo h)))
    (le_combine (le_split 8 (hOffsetBytes h))) (le_combine (le_split 4 (hLengthBytes h)))
    (le_combine (le_split 2 (hAuthLen h))) (le_combine (le_split 2 (hReserved h)))
    (le_combine (le_split 4 crc))); [reflexivity|].
  rewrite !le_combine_split. cbn. unfold in_u in *.
  f_equal; apply Z.mod_small; lia.
Qed.

Lemma received_wf h payload :
  header_wf h -> zlen payload < 2 ^ 32 -> header_wf (received h payload).
Proof.
  intros (?&?&?&?&?&?&?&?&?&?&?&?&?&?&?) Hlen. pose proof (zlen_nonneg payload).
  pose proof (crc32c_range (take 72 (putHeaderWithoutCRC (stamped h payload)))) as Hcrc.
  assert (u16 (hAuthLen (received h payload))).
  { cbn. destruct (needs_tag h); concrete_bounds. }
  unfold header_wf, in_u, received, stamped in *. cbn [set_field Header_settable hMagic hVersion
    hHeaderLen hOp hFlags hRequestID hVolumeID hGeneration hSessionID hSeqNo hOffsetBytes
    hLengthBytes hAuthLen hReserved hCRC32C] in *.
  unfold MagicV2, VersionV2, HeaderSizeV2 in *. repeat split; lia.
Qed.

Lemma encode_frame_eq max h payload tag :
  frame_ok max h payload tag ->
  EncodeMessage h payload tag = (stamped h payload, Ok (frame_bytes h payload tag)).
Proof.
  intros (Hwf & Hlen & Hmax & Htag). unfold EncodeMessage. fold (needs_tag h).
  pose proof (zlen_nonneg payload). cbv zeta.
  rewrite wrap32_small by (unfold in_u; lia).
  set (tag' := if negb (needs_tag h) && (0 <? zlen tag) then [] else tag).
  assert (tag' = tag /\ (needs_tag h && negb (zlen tag =? AuthTagSize)) = false) as [-> ->].
  { subst tag'. destruct (needs_tag h); subst; [by rewrite Htag|done]. }
  match goal with |- context [putHeaderWithoutCRC ?h'] =>
    assert (h' = stamped h payload) as -> end.
  { unfold stamped. destruct (needs_tag h); [by rewrite Htag|done]. }
  replace (if 0 <? hAuthLen (stamped h payload) then tag else []) with tag.
  { unfold frame_bytes. change (hCRC32C (received h payload)) with
      (crc32c (take 72 (putHeaderWithoutCRC (stamped h payload)))). reflexivity. }
  cbn. destruct (needs_tag h); [done|by subst].
Qed.

Lemma tag_length h payload tag max :
  frame_ok max h payload tag -> zlen tag = hAuthLen (received h payload).
Proof. intros (_ & _ & _ & Ht). cbn. destruct (needs_tag h); [done|]. by subst. Qed.

Lemma zlen_frame h payload tag :
  zlen (frame_bytes h payload tag) = 76 + zlen payload + zlen tag.
Proof.
  unfold frame_bytes. rewrite !zlen_app.
  change (zlen (take 72 (putHeaderWithoutCRC (stamped h payload)))) with 72.
  change (zlen (le_split 4 (hCRC32C (received h payload)))) with 4. lia.
Qed.

Lemma parse_frame h payload tag rest :
  header_wf h -> zlen payload < 2 ^ 32 ->
  parseHeader (take 76 (frame_bytes h payload tag ++ rest)) = received h payload.
Proof.
  intros Hwf Hlen. unfold frame_bytes. rewrite <-!app_assoc, parse_put_v2; [reflexivity|].
  by apply (received_wf h payload).
Qed.

Lemma decode_frame max h payload tag :
  frame_ok max h payload tag ->
  DecodeMessage (frame_bytes h payload tag) = Ok (received h payload, payload, tag).
Proof.
  intros Hok. pose proof (tag_length h payload tag max Hok) as Ht.
  destruct Hok as (Hwf & Hlen & Hmax & Htag). unfold DecodeMessage.
  pose proof (zlen_nonneg payload). pose proof (zlen_nonneg tag).
  pose proof (parse_frame h payload tag [] Hwf ltac:(lia)) as Hp. rewrite app_nil_r in Hp.
  rewrite Hp, zlen_frame. unfold HeaderSizeV2.
  change (hMagic (received h payload) =? MagicV2) with true.
  change (hVersion (received h payload) =? VersionV2) with true.
  change (hHeaderLen (received h payload) =? 76) with true.
  change (hLengthBytes (received h payload)) with (zlen payload). rewrite <-Ht. cbn [negb].
  destruct (Z.ltb_spec (76 + zlen payload + zlen tag) 76); [lia|].
  rewrite Z.ltb_irrefl.
  assert (take 72 (frame_bytes h payload tag)
          = take 72 (putHeaderWithoutCRC (stamped h payload))) as ->.
  { by apply take_app_exact. }
  change (hCRC32C (received h payload)) with
    (crc32c (take 72 (putHeaderWithoutCRC (stamped h payload)))). rewrite Z.eqb_refl. cbn [negb].
  assert (drop (Z.to_nat 76) (frame_bytes h payload tag) = payload ++ tag) as Hd.
  { unfold frame_bytes. rewrite app_assoc. by apply drop_app_exact. }
  assert (slice 76 (76 + zlen payload) (frame_bytes h payload tag) = payload) as ->.
  { unfold slice. rewrite Hd. apply take_app_exact. unfold zlen. lia. }
  assert (drop (Z.to_nat (76 + zlen payload)) (frame_bytes h payload tag) = tag) as ->.
  { rewrite Z2Nat.inj_add, <-drop_drop, Hd by lia. apply drop_app_exact. unfold zlen. lia. }
  destruct (Z.ltb_spec 0 (zlen tag)) as [|Hz]; [done|].
  by rewrite (zlen_nil_inv tag Hz).
Qed.

Lemma read_full_app n l s : zlen l = n -> read_full n (l ++ s) = (s, Ok l).
Proof.
  intros <-. unfold read_full. rewrite zlen_app. pose proof (zlen_nonneg s).
  destruct (Z.leb_spec (zlen l) (zlen l + zlen s)); [|lia].
  unfold zlen. rewrite Nat2Z.id. rewrite take_app_exact, drop_app_exact by done. done.
Qed.

(** ** A stream of frames *)

Lemma read_frame_one max h payload tag rest :
  frame_ok max h payload tag ->
  ReadFrame max (frame_bytes h payload tag ++ rest)
  = (rest, Ok (received h payload, payload, tag)).
Proof.
  intros Hok. pose proof (decode_frame _ _ _ _ Hok) as Hdec.
  pose proof (tag_length h payload tag max Hok) as Ht.
  destruct Hok as (Hwf & Hlen & Hmax & Htag).
  pose proof (zlen_nonneg payload). pose proof (zlen_nonneg tag).
  set (hd := take 72 (putHeaderWithoutCRC (stamped h payload))
             ++ le_split 4 (hCRC32C (received h payload))).
  assert (frame_bytes h payload tag = hd ++ payload ++ tag) as Hf
    by (unfold frame_bytes, hd; by rewrite <-app_assoc).
  assert (parseHeader hd = received h payload) as Hp.
  { pose proof (parse_frame h payload tag [] Hwf ltac:(lia)) as Hp.
    rewrite app_nil_r, Hf in Hp. rewrite take_app_exact in Hp by reflexivity. exact Hp. }
  rewrite Hf in *. rewrite <-app_assoc. unfold ReadFrame, bind_act at 1.
  rewrite (read_full_app HeaderSizeV2 hd) by reflexivity. cbv zeta. rewrite Hp.
  change (hMagic (received h payload) =? MagicV2) with true.
  change (hVersion (received h payload) =? VersionV2) with true.
  change (hLengthBytes (received h payload)) with (zlen payload). rewrite <-Ht.
  cbn [negb orb]. destruct (Z.ltb_spec max (zlen payload)); [lia|].
  unfold bind_act. destruct (Z.ltb_spec 0 (zlen payload + zlen tag)).
  - rewrite read_full_app by by rewrite zlen_app. by rewrite Hdec.
  - assert (payload = [] /\ tag = []) as [-> ->].
    { split; apply zlen_nil_inv; lia. }
    unfold ret_act. cbn [app] in *. by rewrite Hdec.
Qed.

(** The connection after writing a list of frames one after the other. *)
Fixpoint write_frames (fs : list (Header * bytes * bytes)) : result wire_error bytes :=
  match fs with
  | [] => Ok []
  | (h, payload, tag) :: fs =>
      b ← (WriteFrame h payload tag).2; rest ← write_frames fs; Ok (b ++ rest)
  end.

(** [n] successive calls of [ReadFrame]. *)
Fixpoint read_frames (max : Z) (n : nat) : act bytes wire_error (list (Header * bytes * bytes)) :=
  match n with
  | O => ret_act []
  | S n => bind_act (ReadFrame max) (fun f =>
           bind_act (read_frames max n) (fun fs => ret_act (f :: fs)))
  end.

Definition frames_ok (max : Z) : list (Header * bytes * bytes) -> Prop :=
  Forall (fun f => frame_ok max f.1.1 f.1.2 f.2).

Lemma read_frames_written max fs stream rest :
  frames_ok max fs -> write_frames fs = Ok stream ->
  read_frames max (length fs) (stream ++ rest)
  = (rest, Ok ((fun f => (received f.1.1 f.1.2, f.1.2, f.2)) <$> fs)).
Proof.
  intros Hok. revert stream. induction Hok as [|[[h p] t] fs Hf Hok IH]; intros stream; cbn in *.
  { by intros [= <-]. }
  unfold WriteFrame. rewrite (encode_frame_eq _ _ _ _ Hf). cbn [snd].
  destruct (write_frames fs) as [rest'| |]; cbn; try done. intros <-%(inj Ok).
  unfold bind_act at 1. rewrite <-app_assoc, (read_frame_one _ _ _ _ _ Hf).
  unfold bind_act. by rewrite IH.
Qed.

Lemma write_frames_ok max fs : frames_ok max fs -> exists stream, write_frames fs = Ok stream.
Proof.
  induction 1 as [|[[h p] t] fs Hf Hok IH]; [by eexists|]. destruct IH as [stream IH].
  cbn in *. unfold WriteFrame. rewrite (encode_frame_eq _ _ _ _ Hf), IH. by eexists.
Qed.

(** ** Authenticated data *)

(** The fields that the authentication tag binds. *)
Definition bound_fields (h : Header) :=
  (hVersion h, hOp h, hRequestID h, hVolumeID h, hGeneration h, hSessionID h, hSeqNo h,
   hOffsetBytes h, hLengthBytes h).

Lemma le_split_app_inj n x y r1 r2 :
  le_split n x ++ r1 = le_split n y ++ r2 ->
  0 <= x < 2 ^ (Z.of_nat n * 8) -> 0 <= y < 2 ^ (Z.of_nat n * 8) -> x = y /\ r1 = r2.
Proof.
  intros H Hx Hy. apply app_inj_1 in H as [H ->]; [|by rewrite !length_le_split].
  split; [|done]. apply (f_equal le_combine) in H. rewrite !le_combine_split in H.
  by rewrite !Z.mod_small in H.
Qed.

Lemma AAD_app_inj h1 h2 p1 p2 :
  header_wf h1 -> header_wf h2 ->
  AAD h1 ++ p1 = AAD h2 ++ p2 -> bound_fields h1 = bound_fields h2 /\ p1 = p2.
Proof.
  intros (?&?&?&?&?&?&?&?&?&?&?&?&?&?&?) (?&?&?&?&?&?&?&?&?&?&?&?&?&?&?).
  unfold AAD. rewrite <-!app_assoc. unfold in_u, bound_fields in *.
  intros Heq. repeat (apply le_split_app_inj in Heq; [destruct Heq as [-> Heq]|assumption..]).
  by rewrite Heq.
Qed.

Lemma verify_computed key h payload tag :
  VerifyAuthTag key h payload tag = Ok tt <-> tag = ComputeAuthTag key h payload.
Proof.
  unfold VerifyAuthTag. split.
  - repeat split_match; try done. intros _. bools. by apply bool_decide_eq_true in Heqb0.
  - intros ->. unfold ComputeAuthTag at 1. unfold zlen. rewrite length_hmac_sha256. cbn.
    by rewrite bool_decide_true.
Qed.

(** ** Sequence numbers *)

(** The sequence numbers of a run that the checker accepts. *)
Fixpoint accepted (seqs : list Z) : act SeqChecker wire_error (list Z) := fun s =>
  match seqs with
  | [] => (s, Ok [])
  | q :: seqs =>
      match CheckNext q s with
      | (s', Ok _) => let '(s'', r) := accepted seqs s' in (s'', qs ← r; Ok (q :: qs))
      | (s', _) => accepted seqs s'
      end
  end.

Lemma accepted_consecutive seqs s :
  u64 (lastSeqNo s) -> lastSeqNo s + Z.of_nat (length seqs) < 2 ^ 64 ->
  exists n : nat, (n <= length seqs)%nat /\
    accepted seqs s = (mkSeqChecker (lastSeqNo s + Z.of_nat n), Ok (seqZ (lastSeqNo s + 1) (Z.of_nat n))).
Proof.
  revert s. induction seqs as [|q seqs IH]; intros [last] Hu Hb; cbn [length lastSeqNo] in *.
  { exists 0%nat. split; [lia|]. cbn. by rewrite Z.add_0_r. }
  unfold in_u in *. cbn. unfold CheckNext. cbn. autorewrite with namrbd.
  destruct (Z.eqb_spec q (last + 1)) as [->|Hne]; cbn [negb].
  - destruct (IH (mkSeqChecker (last + 1))) as (n & Hn & Heq); cbn; [unfold in_u; lia|lia|].
    exists (S n). rewrite Heq. split; [lia|]. cbn [mbind result_bind lastSeqNo].
    rewrite (seqZ_cons _ (Z.of_nat (S n))) by lia.
    replace (Z.of_nat (S n)) with (Z.of_nat n + 1) by lia. rewrite Z.add_assoc. 
    replace (Z.pred (Z.of_nat n + 1)) with (Z.of_nat n) by lia.
    replace (last + Z.of_nat n + 1) with (last + 1 + Z.of_nat n) by lia. done.
  - destruct (IH (mkSeqChecker last)) as (n & Hn & Heq); cbn; [unfold in_u; lia|lia|].
    exists n. split; [lia|]. apply Heq.
Qed.

(** ** Range requests *)

(** The header of a request as a peer sends it when the length field names a
    range of the volume and no payload follows. *)
Definition range_request (h : Header) (tag : bytes) : bytes :=
  let body := take 72 (putHeaderWithoutCRC h) in body ++ le_split 4 (crc32c body) ++ tag.

Lemma range_request_starved max h tag :
  header_wf h -> hMagic h = MagicV2 -> hVersion h = VersionV2 ->
  0 < hLengthBytes h <= max -> zlen tag = hAuthLen h -> 0 < zlen tag ->
  ReadFrame max (range_request h tag) = ([], Err ErrUnexpectedEOF).
Proof.
  intros Hwf Hm Hv Hlen Htag Hpos. unfold range_request.
  set (hd := take 72 (putHeaderWithoutCRC h)
             ++ le_split 4 (crc32c (take 72 (putHeaderWithoutCRC h)))).
  set (h' := h <| hCRC32C := crc32c (take 72 (putHeaderWithoutCRC h)) |>).
  assert (parseHeader hd = h') as Hp.
  { unfold hd, h'. rewrite <-(parse_put_v2 h _ []).
    - rewrite app_nil_r. f_equal.
    - destruct Hwf as (?&?&?&?&?&?&?&?&?&?&?&?&?&?&?).
      repeat split; cbn [set_field Header_settable hMagic hVersion hHeaderLen hOp hFlags
        hRequestID hVolumeID hGeneration hSessionID hSeqNo hOffsetBytes hLengthBytes hAuthLen
        hReserved hCRC32C]; try apply crc32c_range; unfold in_u in *; lia. }
  rewrite app_assoc. fold hd. unfold ReadFrame, bind_act at 1.
  rewrite (read_full_app HeaderSizeV2 hd) by reflexivity. cbv zeta. rewrite Hp.
  change (hMagic h') with (hMagic h). change (hVersion h') with (hVersion h).
  change (hLengthBytes h') with (hLengthBytes h). change (hAuthLen h') with (hAuthLen h).
  rewrite Hm, Hv, <-Htag, !Z.eqb_refl. cbn [negb orb].
  destruct (Z.ltb_spec max (hLengthBytes h)); [lia|].
  destruct (Z.ltb_spec 0 (hLengthBytes h + zlen tag)); [|lia].
  unfold bind_act, read_full.
  destruct (Z.leb_spec (hLengthBytes h + zlen tag) (zlen tag)); [lia|].
  destruct (Z.eqb_spec (zlen tag) 0); [lia|done].
Qed.

(** ** Claims *)

Definition sample_header : Header :=
  mkHeader 0 0 0 OpWrite 0 7 (2 ^ 40) 3 9 1 4096 0 0 0 0.
Definition sample_payload : bytes := [Byte.x01; Byte.x02; Byte.x03].
Definition sample_key : bytes := [Byte.x6b; Byte.x65; Byte.x79].
Definition sample_tag : bytes :=
  ComputeAuthTag sample_key (stamped sample_header sample_payload) sample_payload.

(** Frames written one after the other to a connection are read back one
    by one with the payload, the tag and the header fields each writer gave
    (stamped with the fields the encoder owns), and reading stops exactly at
    the first byte after them. *)
Theorem frames_round_trip (max : Z) (fs : list (Header * bytes * bytes)) (rest : bytes) :
  frames_ok max fs ->
  exists stream, write_frames fs = Ok stream /\
    read_frames max (length fs) (stream ++ rest)
    = (rest, Ok ((fun f => (received f.1.1 f.1.2, f.1.2, f.2)) <$> fs)).
Proof.
  intros Hok. destruct (write_frames_ok _ _ Hok) as [stream Hs].
  exists stream. split; [done|]. by apply read_frames_written.
Qed.

Lemma sample_ok : frame_ok 65536 sample_header sample_payload sample_tag.
Proof.
  split; [|split; [|split]]; [concrete_bounds..|].
  change (zlen sample_tag = 32). unfold zlen, sample_tag, ComputeAuthTag.
  by rewrite length_hmac_sha256.
Qed.

Definition sample_frames := [(sample_header, sample_payload, sample_tag)].

Lemma frames_round_trip_witness :
  frames_ok 65536 sample_frames /\
  exists stream, write_frames sample_frames = Ok stream /\
    read_frames 65536 (length sample_frames) (stream ++ [Byte.xff])
    = ([Byte.xff], Ok ((fun f => (received f.1.1 f.1.2, f.1.2, f.2)) <$> sample_frames)).
Proof.
  assert (frames_ok 65536 sample_frames) as H by (constructor; [exact sample_ok|constructor]).
  exact (conj H (frames_round_trip 65536 sample_frames [Byte.xff] H)).
Defined.

(** The data under the authentication tag determines every field it is
    meant to bind: two messages with the same authenticated data agree on the
    version, operation, request, volume, generation, session, sequence number,
    offset, length and payload.  A frame tagged by the sender over the header
    the encoder stamps passes verification of the header the receiver parses,
    and only that tag does. *)
Theorem authenticated_fields_bound (key : bytes) (h1 h2 : Header) (p1 p2 tag : bytes) :
  header_wf h1 -> header_wf h2 ->
  (AAD h1 ++ p1 = AAD h2 ++ p2 -> bound_fields h1 = bound_fields h2 /\ p1 = p2) /\
  (VerifyAuthTag key (received h1 p1) p1 tag = Ok tt
   <-> tag = ComputeAuthTag key (stamped h1 p1) p1).
Proof.
  intros H1 H2. split; [by apply AAD_app_inj|].
  assert (ComputeAuthTag key (stamped h1 p1) p1 = ComputeAuthTag key (received h1 p1) p1) as ->.
  { unfold ComputeAuthTag. by replace (AAD (stamped h1 p1)) with (AAD (received h1 p1)). }
  apply verify_computed.
Qed.

Lemma authenticated_fields_bound_witness :
  VerifyAuthTag sample_key (received sample_header sample_payload) sample_payload sample_tag
  = Ok tt.
Proof.
  apply (authenticated_fields_bound sample_key sample_header sample_header sample_payload []);
    [exact (proj1 sample_ok)|exact (proj1 sample_ok)|reflexivity].
Defined.

(** Whatever sequence numbers a peer sends, the ones a fresh checker
    accepts are exactly [1, 2, ..., n] in that order: nothing is accepted
    twice, skipped or reordered, and the checker's last number is [n]. *)
Theorem replay_rejected (seqs : list Z) :
  Z.of_nat (length seqs) < 2 ^ 64 ->
  exists n : nat, (n <= length seqs)%nat /\
    accepted seqs (mkSeqChecker 0) = (mkSeqChecker (Z.of_nat n), Ok (seqZ 1 (Z.of_nat n))).
Proof.
  intros Hlen. apply (accepted_consecutive seqs (mkSeqChecker 0)); cbn; [concrete_bounds|lia].
Qed.

Lemma replay_rejected_witness :
  exists n : nat, (n <= 5)%nat /\
    accepted [1; 1; 3; 2; 3] (mkSeqChecker 0)
    = (mkSeqChecker (Z.of_nat n), Ok (seqZ 1 (Z.of_nat n))).
Proof. apply (replay_rejected [1; 1; 3; 2; 3]). reflexivity. Defined.

(** The frame reader takes the length field of a range request for a
    payload length: a read, discard or write-zeroes request that carries its
    range in the header and no payload is never returned, the reader waits for
    bytes that the peer does not send and ends with an unexpected end of
    stream. *)
Theorem range_request_starves_reader (max : Z) (h : Header) (tag : bytes) :
  header_wf h -> hMagic h = MagicV2 -> hVersion h = VersionV2 ->
  0 < hLengthBytes h <= max -> zlen tag = hAuthLen h -> 0 < zlen tag ->
  ReadFrame max (range_request h tag) = ([], Err ErrUnexpectedEOF).
Proof. apply range_request_starved. Qed.

Definition sample_range_header : Header :=
  mkHeader MagicV2 VersionV2 HeaderSizeV2 OpRead 0 8 5 1 9 2 8192 4096 32 0 0.

Lemma range_request_starves_reader_witness :
  ReadFrame 65536 (range_request sample_range_header (zeroes 32)) = ([], Err ErrUnexpectedEOF).
Proof. apply range_request_starves_reader; concrete_bounds. Defined.

End Wire2Facts.
