(* ===== verification/GoStrings.v ===== *)
(** * Strings as the code formats and trims them

    Go strings are Rocq [string]s, byte by byte.  This file holds the parts of
    [strings], [strconv] and [fmt] the modelled code uses: [strings.TrimSpace]
    (the Unicode white-space runes in their UTF-8 encodings), decimal and
    hexadecimal formatting, and their inverses.  The formatting lemmas say that
    a number can be read back from its digits, which is what makes the object
    keys and attachment identifiers built from them injective. *)

From Stdlib Require Import ZArith Lia Ascii String.
From stdpp Require Import base list.
From S2P Require Import Prelude.
Open Scope Z_scope.

Abbreviation chars := (list ascii).

Definition code (c : ascii) : Z := Z.of_N (N_of_ascii c).
Definition chr (z : Z) : ascii := ascii_of_N (Z.to_N z).

Lemma code_chr z : 0 <= z < 256 -> code (chr z) = z.
Proof.
  intros Hz. unfold code, chr. rewrite N_ascii_embedding by lia. lia.
Qed.
Lemma chr_inj a b : 0 <= a < 256 -> 0 <= b < 256 -> chr a = chr b -> a = b.
Proof. intros Ha Hb H. by rewrite <-(code_chr a), <-(code_chr b), H. Qed.

(** ** strings.TrimSpace *)

Definition space1 (a : ascii) : bool :=
  let a := code a in ((9 <=? a) && (a <=? 13)) || (a =? 32).
(** U+0085 and U+00A0. *)
Definition space2 (a b : ascii) : bool :=
  let a := code a in let b := code b in (a =? 0xC2) && ((b =? 0x85) || (b =? 0xA0)).
(** U+1680, U+2000 to U+200A, U+2028, U+2029, U+202F, U+205F and U+3000. *)
Definition space3 (a b c : ascii) : bool :=
  let a := code a in let b := code b in let c := code c in
  ((a =? 0xE1) && (b =? 0x9A) && (c =? 0x80)) ||
  ((a =? 0xE2) && (b =? 0x80) && (((0x80 <=? c) && (c <=? 0x8A)) || (c =? 0xA8) || (c =? 0xA9) || (c =? 0xAF))) ||
  ((a =? 0xE2) && (b =? 0x81) && (c =? 0x9F)) ||
  ((a =? 0xE3) && (b =? 0x80) && (c =? 0x80)).

Fixpoint trim_left (l : chars) : chars :=
  match l with
  | [] => []
  | a :: l1 =>
      if space1 a then trim_left l1 else
      match l1 with
      | [] => l
      | b :: l2 =>
          if space2 a b then trim_left l2 else
          match l2 with
          | [] => l
          | c :: l3 => if space3 a b c then trim_left l3 else l
          end
      end
  end.

(** The same on the reversed string: the runes are read from their last byte. *)
Fixpoint trim_right_rev (l : chars) : chars :=
  match l with
  | [] => []
  | c :: l1 =>
      if space1 c then trim_right_rev l1 else
      match l1 with
      | [] => l
      | b :: l2 =>
          if space2 b c then trim_right_rev l2 else
          match l2 with
          | [] => l
          | a :: l3 => if space3 a b c then trim_right_rev l3 else l
          end
      end
  end.

Definition trim_right (l : chars) : chars := reverse (trim_right_rev (reverse l)).

Definition TrimSpace (s : string) : string :=
  string_of_list_ascii (trim_right (trim_left (list_ascii_of_string s))).

(** Two-step induction principle that follows the shape of the trimming loops. *)
Lemma chars_ind3 (P : chars -> Prop) :
  P [] -> (forall a, P [a]) -> (forall a b, P [a; b]) ->
  (forall a b c l, P (b :: c :: l) -> P (c :: l) -> P l -> P (a :: b :: c :: l)) ->
  forall l, P l.
Proof.
  intros H0 H1 H2 H3 l.
  enough (P l /\ (forall a, P (a :: l)) /\ (forall a b, P (a :: b :: l))) by tauto.
  induction l as [|c l (IH1 & IH2 & IH3)]; [done|]. repeat split; [done|auto|].
  intros a b. apply H3; auto.
Qed.

Lemma trim_left_3 a b c l :
  trim_left (a :: b :: c :: l) =
  if space1 a then trim_left (b :: c :: l) else if space2 a b then trim_left (c :: l) else
  if space3 a b c then trim_left l else a :: b :: c :: l.
Proof. reflexivity. Qed.

Lemma trim_right_rev_3 c b a l :
  trim_right_rev (c :: b :: a :: l) =
  if space1 c then trim_right_rev (b :: a :: l) else if space2 b c then trim_right_rev (a :: l)
  else if space3 a b c then trim_right_rev l else c :: b :: a :: l.
Proof. reflexivity. Qed.

(** Case analysis on the white-space tests of the loops. *)
Ltac trim_step :=
  first [rewrite !trim_left_3 | rewrite !trim_right_rev_3 | cbn [trim_left trim_right_rev]].
Ltac trim_cases :=
  trim_step;
  repeat match goal with
  | |- context [if ?b then _ else _] => destruct b eqn:?
  end; auto; try trim_step;
  repeat match goal with
  | H : ?b = true |- context [?b] => rewrite H
  | H : ?b = false |- context [?b] => rewrite H
  end.

Lemma trim_left_idem l : trim_left (trim_left l) = trim_left l.
Proof.
  induction l as [|a|a b|a b c l IH1 IH2 IH3] using chars_ind3; trim_cases; auto.
Qed.

Lemma trim_right_rev_idem l : trim_right_rev (trim_right_rev l) = trim_right_rev l.
Proof.
  induction l as [|a|a b|a b c l IH1 IH2 IH3] using chars_ind3; trim_cases; auto.
Qed.

Lemma trim_right_rev_suffix l : exists p, l = p ++ trim_right_rev l.
Proof.
  induction l as [|a|a b|a b c l [p1 IH1] [p2 IH2] [p3 IH3]] using chars_ind3; trim_cases;
    try (by exists []); try (by exists [a]); try (by exists [a; b]).
  - by exists (a :: p1); rewrite IH1 at 1.
  - by exists (a :: b :: p2); rewrite IH2 at 1.
  - by exists (a :: b :: c :: p3); rewrite IH3 at 1.
Qed.

(** A string that trimming on the left leaves alone still is one after its end
    has been cut. *)
Lemma trim_left_prefix l p : trim_left (l ++ p) = l ++ p -> trim_left l = l.
Proof.
  assert (forall l, (length (trim_left l) <= length l)%nat) as Hlen.
  { intros m. induction m as [|a|a b|a b c m IH1 IH2 IH3] using chars_ind3; trim_step;
      repeat match goal with
      | |- context [if ?b then _ else _] => destruct b
      end; cbn [length] in *; lia. }
  destruct l as [|a [|b [|c l]]]; intros H; cbn in *; try done.
  - destruct (space1 a); [|done].
    apply (f_equal length) in H. cbn in H. specialize (Hlen p). lia.
  - destruct (space1 a).
    { apply (f_equal length) in H. specialize (Hlen (b :: p)). cbn in *. lia. }
    destruct (space2 a b); [|done].
    apply (f_equal length) in H. cbn in *. specialize (Hlen p). lia.
  - destruct (space1 a).
    { apply (f_equal length) in H. specialize (Hlen (b :: c :: l ++ p)). cbn in *. lia. }
    destruct (space2 a b).
    { apply (f_equal length) in H. specialize (Hlen (c :: l ++ p)). cbn in *. lia. }
    destruct (space3 a b c); [|done].
    apply (f_equal length) in H. specialize (Hlen (l ++ p)). cbn in *. lia.
Qed.

Lemma TrimSpace_idem s : TrimSpace (TrimSpace s) = TrimSpace s.
Proof.
  unfold TrimSpace. rewrite list_ascii_of_string_of_list_ascii.
  set (l := trim_left (list_ascii_of_string s)). f_equal.
  assert (trim_left (trim_right l) = trim_right l) as ->.
  { unfold trim_right. destruct (trim_right_rev_suffix (reverse l)) as [p Hp].
    apply (trim_left_prefix _ (reverse p)). rewrite <-reverse_app, <-Hp, reverse_involutive.
    apply trim_left_idem. }
  unfold trim_right. by rewrite reverse_involutive, trim_right_rev_idem.
Qed.

(** ** Decimal numbers *)

(** The digit loop of [strconv.FormatUint(v, 10)] and [%d]: 20 digits hold any
    64-bit value. *)
Fixpoint dec_loop (fuel : nat) (v : Z) (acc : chars) : chars :=
  match fuel with
  | O => acc
  | S fuel => if 0 <? v then dec_loop fuel (v / 10) (chr (48 + v mod 10) :: acc) else acc
  end.

Definition dec_chars (v : Z) : chars := if v =? 0 then [chr 48] else dec_loop 20 v [].

Definition FormatUint (v : Z) : string := string_of_list_ascii (dec_chars v).

(** [%04d]: at least four digits, padded with zeros on the left. *)
Definition pad_left (n : nat) (c : ascii) (l : chars) : chars := replicate (n - length l) c ++ l.
Definition format_04d (v : Z) : string := string_of_list_ascii (pad_left 4 (chr 48) (dec_chars v)).
Definition format_06d (v : Z) : string := string_of_list_ascii (pad_left 6 (chr 48) (dec_chars v)).
Definition format_020d (v : Z) : string := string_of_list_ascii (pad_left 20 (chr 48) (dec_chars v)).

Definition dec_value (l : chars) : Z := fold_left (fun a c => 10 * a + (code c - 48)) l 0.
Definition is_dec (c : ascii) : Prop := 48 <= code c <= 57.

Lemma dec_loop_value fuel v acc :
  0 <= v < 10 ^ Z.of_nat fuel ->
  dec_value (dec_loop fuel v acc) = fold_left (fun a c => 10 * a + (code c - 48)) acc v.
Proof.
  revert v acc. induction fuel as [|fuel IH]; intros v acc Hv; cbn [dec_loop].
  - change (10 ^ Z.of_nat 0) with 1 in Hv. by replace v with 0 by lia.
  - destruct (Z.ltb_spec 0 v); [|by replace v with 0 by lia].
    rewrite Nat2Z.inj_succ, Z.pow_succ_r in Hv by lia.
    rewrite IH by (split; [dlia|apply Z.div_lt_upper_bound; lia]). cbn [fold_left].
    rewrite code_chr by dlia. f_equal. dlia.
Qed.

Lemma dec_loop_digits fuel v acc :
  0 <= v -> Forall is_dec acc -> Forall is_dec (dec_loop fuel v acc).
Proof.
  revert v acc. induction fuel as [|fuel IH]; intros v acc Hv Hacc; cbn [dec_loop]; [done|].
  destruct (0 <? v); [|done]. apply IH; [dlia|]. constructor; [|done].
  unfold is_dec. rewrite code_chr by dlia. dlia.
Qed.

Lemma dec_value_chars v : u64 v -> dec_value (dec_chars v) = v.
Proof.
  intros Hv. unfold dec_chars. destruct (Z.eqb_spec v 0) as [->|]; [done|].
  rewrite dec_loop_value; [done|]. unfold in_u in Hv. change (Z.of_nat 20) with 20. lia.
Qed.

Lemma dec_chars_digits v : 0 <= v -> Forall is_dec (dec_chars v).
Proof.
  intros Hv. unfold dec_chars. destruct (v =? 0); [|by apply dec_loop_digits].
  repeat constructor; vm_compute; intros; discriminate.
Qed.

Lemma dec_chars_nonempty v : 0 <= v -> dec_chars v <> [].
Proof.
  intros Hv. unfold dec_chars. destruct (Z.eqb_spec v 0); [done|].
  change (dec_loop 20 v []) with
    (if 0 <? v then dec_loop 19 (v / 10) [chr (48 + v mod 10)] else []).
  destruct (Z.ltb_spec 0 v); [|lia].
  assert (forall fuel w acc, acc <> [] -> dec_loop fuel w acc <> []) as Hne.
  { induction fuel as [|fuel IH]; intros w acc Ha; cbn; [done|].
    destruct (0 <? w); [by apply IH|done]. }
  by apply Hne.
Qed.

Lemma dec_value_pad n v : u64 v -> dec_value (pad_left n (chr 48) (dec_chars v)) = v.
Proof.
  intros Hv. unfold pad_left, dec_value. rewrite fold_left_app.
  assert (forall k, fold_left (fun a c => 10 * a + (code c - 48)) (replicate k (chr 48)) 0 = 0)
    as ->.
  { induction k as [|k IH]; [done|]. exact IH. }
  by apply dec_value_chars.
Qed.

Lemma string_app_assoc (a b c : string) : ((a ++ b) ++ c = a ++ (b ++ c))%string.
Proof. induction a as [|x a IH]; [done|]. apply (f_equal (String x)), IH. Qed.

Lemma chars_inj a b : string_of_list_ascii a = string_of_list_ascii b -> a = b.
Proof.
  intros H. by rewrite <-(list_ascii_of_string_of_list_ascii a),
    <-(list_ascii_of_string_of_list_ascii b), H.
Qed.

Lemma chars_app a b :
  list_ascii_of_string (a ++ b)%string = list_ascii_of_string a ++ list_ascii_of_string b.
Proof. induction a as [|c a IH]; [done|]. cbn [list_ascii_of_string app]. by rewrite <-IH. Qed.

Lemma string_chars_inj a b : list_ascii_of_string a = list_ascii_of_string b -> a = b.
Proof.
  intros H. by rewrite <-(string_of_list_ascii_of_string a),
    <-(string_of_list_ascii_of_string b), H.
Qed.

Lemma FormatUint_inj a b : u64 a -> u64 b -> FormatUint a = FormatUint b -> a = b.
Proof.
  intros Ha Hb H%chars_inj. by rewrite <-(dec_value_chars a), <-(dec_value_chars b), H.
Qed.

Lemma format_04d_inj a b : u64 a -> u64 b -> format_04d a = format_04d b -> a = b.
Proof.
  intros Ha Hb H%chars_inj. by rewrite <-(dec_value_pad 4 a), <-(dec_value_pad 4 b), H.
Qed.

Lemma format_020d_inj a b : u64 a -> u64 b -> format_020d a = format_020d b -> a = b.
Proof.
  intros Ha Hb H%chars_inj. by rewrite <-(dec_value_pad 20 a), <-(dec_value_pad 20 b), H.
Qed.

(** ** Parsing decimal numbers *)

Definition is_digit (c : ascii) : bool := (48 <=? code c) && (code c <=? 57).

(** [strconv.ParseUint(s, 10, 64)]. *)
Definition ParseUint10 (l : chars) : option Z :=
  if negb (zlen l =? 0) && forallb is_digit l && (dec_value l <? 2 ^ 64) then Some (dec_value l) else None.

(** [strconv.Atoi]. *)
Definition Atoi (l : chars) : option Z :=
  let '(negative, digits) :=
    match l with
    | c :: rest => if Ascii.eqb c "-" then (true, rest) else if Ascii.eqb c "+" then (false, rest) else (false, l)
    | [] => (false, l)
    end in
  if (zlen digits =? 0) || negb (forallb is_digit digits) then None else
  let v := if negative : bool then - dec_value digits else dec_value digits in
  if (- 2 ^ 63 <=? v) && (v <? 2 ^ 63) then Some v else None.

(** [strings.Split(s, "/")]: the components between slashes. *)
Fixpoint split_slash (l : chars) (current : chars) : list chars :=
  match l with
  | [] => [current]
  | c :: l => if Ascii.eqb c "/" then current :: split_slash l [] else split_slash l (current ++ [c])%list
  end.


(** A component without slashes is the last one. *)
Lemma split_slash_last l current : Forall (fun c => c <> "/"%char) l -> split_slash l current = [(current ++ l)%list].
Proof.
  intros Hl. revert current. induction Hl as [|c l Hc Hl IH]; intros current; cbn [split_slash].
  - by rewrite app_nil_r.
  - destruct (Ascii.eqb_spec c "/"); [done|]. by rewrite IH, <-app_assoc.
Qed.

Lemma split_slash_join l rest : forall current,
  split_slash (l ++ "/"%char :: rest) current = (split_slash l current ++ split_slash rest [])%list.
Proof.
  induction l as [|c l IH]; intros current; cbn [app split_slash]; [done|].
  destruct (Ascii.eqb c "/"); [by rewrite IH|apply IH].
Qed.
(** ** Eight hexadecimal digits *)

Definition hex_digit (d : Z) : ascii := chr (if d <? 10 then 48 + d else 87 + d).

Definition hex_value (c : ascii) : option Z :=
  let c := code c in
  if (48 <=? c) && (c <=? 57) then Some (c - 48) else
  if (97 <=? c) && (c <=? 102) then Some (c - 87) else
  if (65 <=? c) && (c <=? 70) then Some (c - 55) else None.

(** [n] lower-case digits of [v], most significant first, as [%0nx] prints a
    value of at most [n] digits. *)
Fixpoint hex_loop (n : nat) (v : Z) (acc : chars) : chars :=
  match n with
  | O => acc
  | S n => hex_loop n (v / 16) (hex_digit (v mod 16) :: acc)
  end.

(** [strconv.ParseUint(s, 16, 32)] on a string of hexadecimal digits. *)
Fixpoint parse_hex (l : chars) (acc : Z) : option Z :=
  match l with
  | [] => Some acc
  | c :: l => d ← hex_value c; parse_hex l (16 * acc + d)
  end.

Lemma hex_value_digit d : 0 <= d < 16 -> hex_value (hex_digit d) = Some d.
Proof.
  intros Hd. unfold hex_value, hex_digit.
  destruct (Z.ltb_spec d 10); rewrite code_chr by lia.
  - destruct (Z.leb_spec 48 (48 + d)), (Z.leb_spec (48 + d) 57); try lia. cbn. f_equal. lia.
  - destruct (Z.leb_spec 48 (87 + d)), (Z.leb_spec (87 + d) 57); try lia.
    destruct (Z.leb_spec 97 (87 + d)), (Z.leb_spec (87 + d) 102); try lia. cbn. f_equal. lia.
Qed.

Lemma hex_loop_value n v acc :
  0 <= v < 16 ^ Z.of_nat n -> parse_hex (hex_loop n v acc) 0 = parse_hex acc v.
Proof.
  revert v acc. induction n as [|n IH]; intros v acc Hv; cbn [hex_loop].
  - change (16 ^ Z.of_nat 0) with 1 in Hv. by replace v with 0 by lia.
  - rewrite Nat2Z.inj_succ, Z.pow_succ_r in Hv by lia.
    rewrite IH by (split; [dlia|apply Z.div_lt_upper_bound; lia]). cbn [parse_hex].
    rewrite hex_value_digit by dlia. cbn. f_equal. dlia.
Qed.

Lemma length_hex_loop n v acc : length (hex_loop n v acc) = (n + length acc)%nat.
Proof.
  revert v acc. induction n as [|n IH]; intros v acc; cbn [hex_loop]; [done|].
  rewrite IH. cbn. lia.
Qed.

Definition lower_hex (c : ascii) : Prop := exists d, 0 <= d < 16 /\ c = hex_digit d.

Lemma hex_loop_digits n v acc : Forall lower_hex acc -> Forall lower_hex (hex_loop n v acc).
Proof.
  revert v acc. induction n as [|n IH]; intros v acc Hacc; cbn [hex_loop]; [done|].
  apply IH. constructor; [|done]. eexists. split; [|done]. dlia.
Qed.

(** Code points of a lower-case hexadecimal digit. *)
Lemma lower_hex_code c : lower_hex c -> 48 <= code c <= 57 \/ 97 <= code c <= 102.
Proof.
  intros (d & Hd & ->). unfold hex_digit. destruct (Z.ltb_spec d 10); rewrite code_chr; lia.
Qed.

Lemma lower_hex_of_code c :
  48 <= code c <= 57 \/ 97 <= code c <= 102 -> exists d, hex_value c = Some d /\ 0 <= d < 16 /\ c = hex_digit d.
Proof.
  intros H. assert (c = chr (code c)) as Hc.
  { unfold chr, code. by rewrite N2Z.id, ascii_N_embedding. }
  unfold hex_value, hex_digit. destruct H as [H|H].
  - exists (code c - 48). destruct (Z.leb_spec 48 (code c)), (Z.leb_spec (code c) 57); try lia.
    destruct (Z.ltb_spec (code c - 48) 10); [|lia]. cbn. repeat split; try lia.
    rewrite Hc at 1. f_equal. lia.
  - exists (code c - 87). destruct (Z.leb_spec 48 (code c)), (Z.leb_spec (code c) 57); try lia.
    destruct (Z.leb_spec 97 (code c)), (Z.leb_spec (code c) 102); try lia.
    destruct (Z.ltb_spec (code c - 87) 10); [lia|]. cbn. repeat split; try lia.
    rewrite Hc at 1. f_equal. lia.
Qed.

Lemma hex_loop_app n v m acc :
  hex_loop n v (acc ++ m) = hex_loop n v acc ++ m.
Proof.
  revert v acc. induction n as [|n IH]; intros v acc; cbn [hex_loop]; [done|].
  by rewrite app_comm_cons, IH.
Qed.

(** Reading [n] lower-case digits and printing them again is the identity. *)
Lemma hex_loop_parse l a :
  Forall lower_hex l -> 0 <= a ->
  exists v, parse_hex l a = Some v /\ 16 ^ Z.of_nat (length l) * a <= v < 16 ^ Z.of_nat (length l) * (a + 1) /\
    hex_loop (length l) v [] = l.
Proof.
  revert a. induction l as [|c l IH] using rev_ind; intros a Hl Ha.
  { exists a. cbn. repeat split; lia. }
  apply Forall_app in Hl as [Hl Hc]. inversion_clear Hc as [|? ? (d & Hd & ->) _].
  destruct (IH a Hl Ha) as (v & Hv & Hr & Hp).
  exists (16 * v + d). rewrite length_app. cbn [length]. rewrite Nat.add_1_r.
  assert (forall l a, parse_hex (l ++ [hex_digit d]) a = v' ← parse_hex l a; Some (16 * v' + d))
    as Happ.
  { clear -Hd. induction l as [|c l IH]; intros a; cbn [app parse_hex].
    - by rewrite hex_value_digit.
    - destruct (hex_value c); [apply IH|done]. }
  rewrite Happ, Hv, Nat2Z.inj_succ, Z.pow_succ_r by lia. cbn [hex_loop].
  replace ((16 * v + d) / 16) with v by dlia. replace ((16 * v + d) mod 16) with d by dlia.
  rewrite (hex_loop_app _ v [hex_digit d] []), Hp. cbn. repeat split; lia.
Qed.
