(* ===== verification/VolumeId.v ===== *)
(** * Volume identifiers

    Models src/volumeid/volumeid.go: the canonical eight-digit lower-case
    hexadecimal form of a volume id and its two parsers. *)

From Stdlib Require Import ZArith Lia Ascii String.
From stdpp Require Import base list.
From S2P Require Import Prelude GoStrings.
Open Scope Z_scope.

Module VolumeId.

Definition Len : nat := 8.

Inductive parse_error := ErrLength | ErrDigits | ErrRange.

(** [fmt.Sprintf("%08x", uint32(volumeID))]. *)
Definition Format (volumeID : Z) : string :=
  string_of_list_ascii (hex_loop 8 (wrap32 volumeID) []).

Definition hex_char (c : ascii) : bool :=
  let r := code c in
  ((48 <=? r) && (r <=? 57)) || ((97 <=? r) && (r <=? 102)) || ((65 <=? r) && (r <=? 70)).

(** [strings.ToLower] on one ASCII character. *)
Definition to_lower (c : ascii) : ascii :=
  let r := code c in if (65 <=? r) && (r <=? 90) then chr (r + 32) else c.

(** [strconv.ParseUint(s, 16, 32)]. *)
Definition parse_uint32_hex (l : chars) : result parse_error Z :=
  match parse_hex l 0 with
  | Some v => if v <? 2 ^ 32 then Ok v else Err ErrRange
  | None => Err ErrDigits
  end.

Definition Parse (s : string) : result parse_error Z :=
  let l := list_ascii_of_string (TrimSpace s) in
  if negb (Nat.eqb (length l) Len) then Err ErrLength else
  if negb (forallb hex_char l) then Err ErrDigits else
  parse_uint32_hex (map to_lower l).

Definition not_lower_hex_char (c : ascii) : bool :=
  let r := code c in (r <? 48) || (102 <? r) || ((57 <? r) && (r <? 97)).

Definition ParseLowercase (s : string) : result parse_error Z :=
  let l := list_ascii_of_string (TrimSpace s) in
  if negb (Nat.eqb (length l) Len) then Err ErrLength else
  if existsb not_lower_hex_char l then Err ErrDigits else
  parse_uint32_hex l.

(** ** Lemmas *)

Lemma trim_graphic l :
  Forall (fun c => 32 < code c < 127) l -> trim_left l = l /\ trim_right_rev l = l.
Proof.
  intros H.
  assert (forall c, 32 < code c < 127 -> space1 c = false /\
            (forall d, space2 c d = false /\ space2 d c = false) /\
            (forall d e, space3 c d e = false /\ space3 e d c = false)) as Hs.
  { intros c Hc. unfold space1, space2, space3. repeat split; lia. }
  destruct H as [|a l Ha H]; [done|]. destruct (Hs a Ha) as (H1 & H2 & H3).
  cbn. rewrite H1. destruct l as [|b l]; [done|].
  rewrite (proj1 (H2 b)), (proj2 (H2 b)). destruct l as [|c l]; [done|].
  by rewrite (proj1 (H3 b c)), (proj2 (H3 b c)).
Qed.

Lemma TrimSpace_graphic l :
  Forall (fun c => 32 < code c < 127) l ->
  TrimSpace (string_of_list_ascii l) = string_of_list_ascii l.
Proof.
  intros H. unfold TrimSpace. rewrite list_ascii_of_string_of_list_ascii.
  rewrite (proj1 (trim_graphic l H)). unfold trim_right.
  rewrite (proj2 (trim_graphic (reverse l) ltac:(by apply Forall_reverse))).
  by rewrite reverse_involutive.
Qed.

Lemma format_digits v : Forall lower_hex (hex_loop 8 v []).
Proof. apply hex_loop_digits. constructor. Qed.

Lemma lower_graphic l : Forall lower_hex l -> Forall (fun c => 32 < code c < 127) l.
Proof. intros H. eapply Forall_impl; [exact H|]. intros c Hc%lower_hex_code. lia. Qed.

Lemma trim_format v : TrimSpace (Format v) = Format v.
Proof. apply TrimSpace_graphic, lower_graphic, format_digits. Qed.

Lemma lower_hex_tests l :
  Forall lower_hex l ->
  forallb hex_char l = true /\ map to_lower l = l /\
  existsb not_lower_hex_char l = false.
Proof.
  induction 1 as [|c l Hc H (IH1 & IH2 & IH3)]; [done|]. apply lower_hex_code in Hc.
  cbn. rewrite IH1, IH2, IH3. unfold hex_char, to_lower, not_lower_hex_char.
  assert (((65 <=? code c) && (code c <=? 90)) = false) as -> by lia.
  repeat split; lia.
Qed.

Lemma parse_formatted v : parse_uint32_hex (hex_loop 8 (wrap32 v) []) = Ok (wrap32 v).
Proof.
  unfold parse_uint32_hex. pose proof (wrap32_range v) as Hv. unfold in_u in Hv.
  rewrite hex_loop_value by (change (16 ^ Z.of_nat 8) with (2 ^ 32); done). cbn.
  destruct (Z.ltb_spec (wrap32 v) (2 ^ 32)); [done|lia].
Qed.

Lemma ParseLowercase_format v : ParseLowercase (Format v) = Ok (wrap32 v).
Proof.
  unfold ParseLowercase. rewrite trim_format. unfold Format.
  rewrite list_ascii_of_string_of_list_ascii, length_hex_loop.
  destruct (lower_hex_tests _ (format_digits (wrap32 v))) as (_ & _ & ->).
  apply parse_formatted.
Qed.

Lemma Parse_format v : Parse (Format v) = Ok (wrap32 v).
Proof.
  unfold Parse. rewrite trim_format. unfold Format.
  rewrite list_ascii_of_string_of_list_ascii, length_hex_loop.
  destruct (lower_hex_tests _ (format_digits (wrap32 v))) as (-> & -> & _).
  apply parse_formatted.
Qed.

Lemma ParseLowercase_canonical s v : ParseLowercase s = Ok v -> TrimSpace s = Format v /\ u32 v.
Proof.
  unfold ParseLowercase, Format. intros H. apply (f_equal Some) in H. revert H.
  set (l := list_ascii_of_string (TrimSpace s)).
  destruct (Nat.eqb_spec (length l) Len) as [Hlen|]; [|done]. cbn [negb].
  destruct (existsb _ l) eqn:Hex; [done|]. intros [= H].
  assert (Forall lower_hex l) as Hl.
  { clear -Hex. induction l as [|c l IH]; [constructor|]. cbn in Hex.
    apply orb_false_elim in Hex as [Hc Hex]. constructor; [|by apply IH].
    unfold not_lower_hex_char in Hc. destruct (lower_hex_of_code c) as (d & _ & Hd & ->); [lia|]. by exists d. }
  destruct (hex_loop_parse l 0 Hl ltac:(lia)) as (w & Hp & Hr & Hloop).
  unfold parse_uint32_hex in H. rewrite Hp in H.
  destruct (Z.ltb_spec w (2 ^ 32)); [|done]. injection H as [= <-].
  rewrite Hlen in *. assert (u32 w) as Hw by (unfold in_u; lia). split; [|done].
  rewrite wrap32_small by done. change 8%nat with Len. rewrite Hloop.
  subst l. by rewrite string_of_list_ascii_of_string.
Qed.

Lemma Format_inj a b : u32 a -> u32 b -> Format a = Format b -> a = b.
Proof.
  intros Ha Hb H. pose proof (Parse_format a) as Hpa. rewrite H, Parse_format in Hpa.
  apply (inj Ok) in Hpa. by rewrite !wrap32_small in Hpa.
Qed.

Lemma length_format v : length (list_ascii_of_string (Format v)) = 8%nat.
Proof. unfold Format. by rewrite list_ascii_of_string_of_list_ascii, length_hex_loop. Qed.

(** Volume identifiers round-trip through their canonical text: both
    parsers read a formatted id back (as its lower 32 bits), and the lower-case
    parser accepts nothing but canonical forms, surrounding white space
    apart. *)
Theorem volume_id_round_trip (v : Z) (s : string) :
  Parse (Format v) = Ok (wrap32 v) /\ ParseLowercase (Format v) = Ok (wrap32 v) /\
  (forall w, ParseLowercase s = Ok w <-> TrimSpace s = Format w /\ u32 w).
Proof.
  split; [apply Parse_format|]. split; [apply ParseLowercase_format|]. intros w.
  split; [apply ParseLowercase_canonical|]. intros [Ht Hw].
  pose proof (ParseLowercase_format w) as Hp. rewrite wrap32_small in Hp by done.
  unfold ParseLowercase in *. by rewrite Ht; rewrite trim_format in Hp.
Qed.

End VolumeId.
