(* ===== verification/Protocol.v ===== *)
(** * Request dispatch, retry policy and request sequencing

    Models src/protocol/wirev1/dispatch.go (the opcode multiplexer),
    src/protocol/policy/status.go (what an initiator does with a status code)
    and src/protocol/session/sequencer.go (request ids of one session). *)

From Stdlib Require Import ZArith Lia Sorted.
From stdpp Require Import base list gmap.
From S2P Require Import Prelude WireV1.
Open Scope Z_scope.

(** ** dispatch.go *)

Module Dispatch.
Import Wire1.

Record Frame := mkFrame { fHeader : Header; fPayload : bytes }.

Inductive mux_error (E : Type) :=
| NoHandler (op : Z)
| BadBody (e : wire_error)
| HandlerError (e : E).
Arguments NoHandler {E} op.
Arguments BadBody {E} e.
Arguments HandlerError {E} e.

Section Mux.
Context {S E : Type}.

(** A handler runs in the state of the server that registered it. *)
Definition FrameHandler := Frame -> act S (mux_error E) bytes.
Definition Mux := gmap Z FrameHandler.

Definition NewMux : Mux := ∅.

Definition Handle (m : Mux) (f : Frame) : act S (mux_error E) bytes :=
  match m !! hOp (fHeader f) with
  | None => fail_act (NoHandler (hOp (fHeader f)))
  | Some h => h f
  end.

Definition Register (op : Z) (h : FrameHandler) (m : Mux) : Mux := <[op := h]> m.

(** The three typed registrations decode the body before calling the handler. *)
Definition decoding {B} (decode : bytes -> result wire_error B)
    (h : Header -> B -> act S (mux_error E) bytes) : FrameHandler := fun f s =>
  match decode (fPayload f) with
  | Ok body => h (fHeader f) body s
  | Err e => (s, Err (BadBody e))
  | Panic => (s, Panic)
  end.

Definition RegisterHello (op : Z) (h : Header -> Hello -> act S (mux_error E) bytes) (m : Mux)
  : Mux := Register op (decoding DecodeHelloPayload h) m.
Definition RegisterPathCapability (op : Z)
    (h : Header -> PathCapability -> act S (mux_error E) bytes) (m : Mux) : Mux :=
  Register op (decoding DecodePathCapabilityPayload h) m.
Definition RegisterErrorDetail (op : Z)
    (h : Header -> ErrorDetail -> act S (mux_error E) bytes) (m : Mux) : Mux :=
  Register op (decoding DecodeErrorDetailPayload h) m.

End Mux.
End Dispatch.

(** ** policy/status.go *)

Module Policy.

Inductive Decision :=
| DecisionNoop | DecisionRetryAlternatePath | DecisionRefreshSession
| DecisionFatalDetach | DecisionFailToHost | DecisionBackoffAndRetry.

#[export] Instance Decision_eq_dec : EqDecision Decision.
Proof. solve_decision. Defined.

Definition ClassifyStatus (c : Z) : Decision :=
  if c =? Wire1.StatusOK then DecisionNoop else
  if (c =? Wire1.ErrRetryable) || (c =? Wire1.ErrTimeout) || (c =? Wire1.ErrPathDraining)
     || (c =? Wire1.ErrNoHealthyReplica) then DecisionRetryAlternatePath else
  if c =? Wire1.ErrGenerationMismatch then DecisionRefreshSession else
  if c =? Wire1.ErrUnauthorized then DecisionFatalDetach else
  if c =? Wire1.ErrBusy then DecisionBackoffAndRetry else
  DecisionFailToHost.

End Policy.

(** ** session/sequencer.go *)

Module Session.

Record Sequencer := mkSequencer { initialized : bool; last : Z }.

Inductive seq_error := NotMonotonic | RetryBeforeRequest | RetryMismatch.

Definition ObserveNewRequest (id : Z) : act Sequencer seq_error unit := fun s =>
  if negb (initialized s) then (mkSequencer true id, Ok tt) else
  if id <=? last s then (s, Err NotMonotonic) else
  (mkSequencer (initialized s) id, Ok tt).

Definition ObserveRetry (id : Z) : act Sequencer seq_error unit := fun s =>
  if negb (initialized s) then (s, Err RetryBeforeRequest) else
  if negb (id =? last s) then (s, Err RetryMismatch) else
  (s, Ok tt).

Inductive event := New (id : Z) | Retry (id : Z).

Definition observe (e : event) : act Sequencer seq_error unit :=
  match e with New id => ObserveNewRequest id | Retry id => ObserveRetry id end.

(** The events a session admits, in order. *)
Fixpoint admitted (es : list event) (s : Sequencer) : list event :=
  match es with
  | [] => []
  | e :: es => let '(s', r) := observe e s in
               if is_ok r then e :: admitted es s' else admitted es s'
  end.

(** The admitted events after a request with id [cur] has been seen: new
    requests carry larger and larger ids, and a retry repeats the id of the
    request just before it. *)
Fixpoint follows (cur : Z) (es : list event) : Prop :=
  match es with
  | [] => True
  | New id :: es => cur < id /\ follows id es
  | Retry id :: es => id = cur /\ follows cur es
  end.

Lemma admitted_follows es cur : follows cur (admitted es (mkSequencer true cur)).
Proof.
  revert cur. induction es as [|[id|id] es IH]; intros cur; cbn; [done| |].
  - unfold ObserveNewRequest. cbn. destruct (Z.leb_spec id cur); cbn; auto.
  - unfold ObserveRetry. cbn. destruct (Z.eqb_spec id cur) as [->|]; cbn; auto.
Qed.

(** Whatever a peer sends on a fresh session, the admitted events start
    with a new request, every later new request has a strictly larger id, and
    a retry is admitted only with the id of the latest request. *)
Theorem session_ids_monotone (es : list event) :
  match admitted es (mkSequencer false 0) with
  | [] => True
  | New id :: rest => follows id rest
  | Retry _ :: _ => False
  end.
Proof.
  induction es as [|[id|id] es IH]; cbn; [done| |exact IH]. apply admitted_follows.
Qed.

End Session.
