(* ===== verification/GatewayTypes.v ===== *)
(** * Gateway data model

    Models the record types and pure helpers of src/gateway/service/repository.go
    and the error values of src/gateway/service/service.go.  Struct fields keep
    their Go names behind a one- or two-letter prefix per record ([vID] is
    [VolumeSpec.ID]).  The string-typed enumerations of the source stay strings,
    because every one of them can carry any value a client sends.  A Go map that
    misses a key returns the zero value of its element, the [zero_...] record
    here. *)

From Stdlib Require Import ZArith Lia Ascii String.
From stdpp Require Import base list gmap strings.
From S2P Require Import Prelude GoStrings VolumeId.
Open Scope string_scope.
Open Scope Z_scope.

Module Gateway.

(** ** Constants and enumerations *)

Definition DefaultBlockSize : Z := 4096.
Definition DefaultAllocationChunkSize : Z := 64 * 1024.
Definition DefaultAllocationPageSize : Z := 4 * 1024 * 1024.

Definition VolumeAccessMode := string.
Definition VolumeLifecycleState := string.
Definition VolumeProtectedStateKind := string.
Definition GatewayConnectionState := string.
Definition GatewayProduct := string.
Definition GatewayRole := string.
Definition GatewayReadiness := string.
Definition GatewayDrainState := string.
Definition AllocationChunkKind := string.

Definition VolumeAccessModeExclusive : VolumeAccessMode := "exclusive".
Definition VolumeAccessModeShared : VolumeAccessMode := "shared".
Definition VolumeStateAvailable : VolumeLifecycleState := "available".
Definition VolumeStateInUse : VolumeLifecycleState := "in_use".
Definition VolumeStateDisabled : VolumeLifecycleState := "disabled".
Definition VolumeProtectedStateSealed : VolumeProtectedStateKind := "sealed".
Definition ProtectedWriteReasonSealedReadOnly : string := "worm_sealed_read_only".
Definition GatewayStateUnknown : GatewayConnectionState := "unknown".
Definition GatewayStateUp : GatewayConnectionState := "up".
Definition GatewayStateDegraded : GatewayConnectionState := "degraded".
Definition GatewayStateDown : GatewayConnectionState := "down".
Definition GatewayStateDetached : GatewayConnectionState := "detached".
Definition GatewayProductNAMRBD : GatewayProduct := "namrbd".
Definition GatewayRoleBlock : GatewayRole := "block".
Definition GatewayReadinessReady : GatewayReadiness := "ready".
Definition GatewayDrainActive : GatewayDrainState := "active".
Definition AllocationChunkKindData : AllocationChunkKind := "data".
Definition AllocationChunkKindZero : AllocationChunkKind := "zero".
Definition RedundancyBackendReplicated : string := "replicated".
Definition RedundancyBackendEC : string := "ec".

(** ** Records *)

Record VolumeProtectedState := mkVolumeProtectedState {
  psState : VolumeProtectedStateKind; psReasonCode : string; psSealedObjectID : string;
  psSealOperationID : string; psPolicySnapshotID : string; psLifecycleState : string;
  psSourceVolumeID : string }.

#[export] Instance VolumeProtectedState_settable : Settable VolumeProtectedState := fun x =>
  mkVolumeProtectedState (psState x) (psReasonCode x) (psSealedObjectID x) (psSealOperationID x)
  (psPolicySnapshotID x) (psLifecycleState x) (psSourceVolumeID x).

Definition zero_VolumeProtectedState : VolumeProtectedState :=
  mkVolumeProtectedState "" "" "" "" "" "" "".

Record VolumeSpec := mkVolumeSpec {
  vID : Z; vName : string; vPrefix : string; vSizeBytes : Z; vBlockSize : Z;
  vChunkSizeBytes : Z; vExtentPageBytes : Z; vAccessMode : VolumeAccessMode;
  vState : VolumeLifecycleState; vProtectedState : option VolumeProtectedState;
  vRedundancyBackend : string; vTopologyMode : string; vECProfileID : string;
  vECCodecID : string; vECDataShards : Z; vECParityShards : Z; vECStripeUnitBytes : Z;
  vECFailureDomain : string; vECMaxUnavailableFailureDomains : Z;
  vECMaxShardsPerFailureDomain : Z; vWeakPlacementAllowed : bool }.

#[export] Instance VolumeSpec_settable : Settable VolumeSpec := fun x =>
  mkVolumeSpec (vID x) (vName x) (vPrefix x) (vSizeBytes x) (vBlockSize x) (vChunkSizeBytes x)
  (vExtentPageBytes x) (vAccessMode x) (vState x) (vProtectedState x) (vRedundancyBackend x)
  (vTopologyMode x) (vECProfileID x) (vECCodecID x) (vECDataShards x) (vECParityShards x)
  (vECStripeUnitBytes x) (vECFailureDomain x) (vECMaxUnavailableFailureDomains x)
  (vECMaxShardsPerFailureDomain x) (vWeakPlacementAllowed x).

Definition zero_VolumeSpec : VolumeSpec :=
  mkVolumeSpec 0 "" "" 0 0 0 0 "" "" None "" "" "" "" 0 0 0 "" 0 0 false.

Record AttachmentRecord := mkAttachmentRecord {
  aGeneration : Z; aHostID : string; aAttachmentID : string; aDeviceID : Z;
  aOwnerGatewayID : string; aLeaseID : string; aAttachedAtUnix : Z }.

#[export] Instance AttachmentRecord_settable : Settable AttachmentRecord := fun x =>
  mkAttachmentRecord (aGeneration x) (aHostID x) (aAttachmentID x) (aDeviceID x)
  (aOwnerGatewayID x) (aLeaseID x) (aAttachedAtUnix x).

Definition zero_AttachmentRecord : AttachmentRecord :=
  mkAttachmentRecord 0 "" "" 0 "" "" 0.

Record VolumeStatusRecord := mkVolumeStatusRecord {
  sVolumeID : Z; sInUse : bool; sCurrentAttachmentID : string; sCurrentHostID : string;
  sCurrentGatewayID : string; sGatewayConnectionState : GatewayConnectionState;
  sDesiredActiveGatewaySet : list string; sObservedActiveGatewaySet : list string;
  sPathPlanRevision : Z; sAttachmentGeneration : Z; sWriterFencingEpoch : Z;
  sPathPlanNeedsAttention : bool; sPathPlanAttentionReasons : list string;
  sPathPlanRecommendedActions : list string; sPathPlanReapplyRequested : bool;
  sPathPlanReapplyReason : string; sPathPlanReapplyRequestedAtUnix : Z;
  sRuntimePathNeedsAttention : bool; sRuntimePathAttentionReasons : list string;
  sRuntimePathRecommendedActions : list string; sRuntimePathFeedbackCount : Z;
  sLastRuntimePathFeedbackUnix : Z; sRuntimePathFeedbackSourceHost : string;
  sRuntimePathReductionHoldUntilUnix : Z; sRuntimePathExpansionBackoffLevel : Z;
  sRuntimePathExpansionEligibleAtUnix : Z; sRuntimeAppliedPathPlanRevision : Z;
  sRuntimeAppliedPathReportedAtUnix : Z; sRuntimeNoPathState : string;
  sRuntimeNoPathRetryMode : string; sRuntimeNoPathRetrySeconds : Z;
  sRuntimeNoPathQueuedReqs : Z; sRuntimeNoPathRequeuedReqs : Z; sRuntimeNoPathFailedReqs : Z;
  sRuntimeNoPathRecoveredReqs : Z; sRuntimeNoPathEnterCount : Z;
  sRuntimeNoPathLastReason : string; sRuntimeNoPathLastFeedbackUnix : Z;
  sControllerReconcileRequestedAtUnix : Z; sControllerReconcileReason : string;
  sControllerReconcileScheduledAtUnix : Z; sControllerReconcileScheduledReason : string;
  sHandoffRequired : bool; sHandoffRequestedAtUnix : Z; sHandoffAckedAtUnix : Z;
  sHandoffAckedGeneration : Z; sHandoffCompletionEligibleAtUnix : Z;
  sHandoffEscalationCount : Z; sHandoffNextEscalationAtUnix : Z; sHandoffStage : string;
  sHandoffReason : string; sHandoffTargetGatewaySet : list string }.

#[export] Instance VolumeStatusRecord_settable : Settable VolumeStatusRecord := fun x =>
  mkVolumeStatusRecord (sVolumeID x) (sInUse x) (sCurrentAttachmentID x) (sCurrentHostID x)
  (sCurrentGatewayID x) (sGatewayConnectionState x) (sDesiredActiveGatewaySet x)
  (sObservedActiveGatewaySet x) (sPathPlanRevision x) (sAttachmentGeneration x)
  (sWriterFencingEpoch x) (sPathPlanNeedsAttention x) (sPathPlanAttentionReasons x)
  (sPathPlanRecommendedActions x) (sPathPlanReapplyRequested x) (sPathPlanReapplyReason x)
  (sPathPlanReapplyRequestedAtUnix x) (sRuntimePathNeedsAttention x)
  (sRuntimePathAttentionReasons x) (sRuntimePathRecommendedActions x)
  (sRuntimePathFeedbackCount x) (sLastRuntimePathFeedbackUnix x)
  (sRuntimePathFeedbackSourceHost x) (sRuntimePathReductionHoldUntilUnix x)
  (sRuntimePathExpansionBackoffLevel x) (sRuntimePathExpansionEligibleAtUnix x)
  (sRuntimeAppliedPathPlanRevision x) (sRuntimeAppliedPathReportedAtUnix x)
  (sRuntimeNoPathState x) (sRuntimeNoPathRetryMode x) (sRuntimeNoPathRetrySeconds x)
  (sRuntimeNoPathQueuedReqs x) (sRuntimeNoPathRequeuedReqs x) (sRuntimeNoPathFailedReqs x)
  (sRuntimeNoPathRecoveredReqs x) (sRuntimeNoPathEnterCount x) (sRuntimeNoPathLastReason x)
  (sRuntimeNoPathLastFeedbackUnix x) (sControllerReconcileRequestedAtUnix x)
  (sControllerReconcileReason x) (sControllerReconcileScheduledAtUnix x)
  (sControllerReconcileScheduledReason x) (sHandoffRequired x) (sHandoffRequestedAtUnix x)
  (sHandoffAckedAtUnix x) (sHandoffAckedGeneration x) (sHandoffCompletionEligibleAtUnix x)
  (sHandoffEscalationCount x) (sHandoffNextEscalationAtUnix x) (sHandoffStage x)
  (sHandoffReason x) (sHandoffTargetGatewaySet x).

Definition zero_VolumeStatusRecord : VolumeStatusRecord :=
  mkVolumeStatusRecord 0 false "" "" "" "" [] [] 0 0 0 false [] [] false "" 0 false [] [] 0 0 ""
  0 0 0 0 0 "" "" 0 0 0 0 0 0 "" 0 0 "" 0 "" false 0 0 0 0 0 0 "" "" [].

Record EndpointSpec := mkEndpointSpec {
  epAddress : string; epPort : Z; epUseTLS : bool; epServerName : string; epAuthMode : string;
  epPathID : Z; epPriority : Z }.

#[export] Instance EndpointSpec_settable : Settable EndpointSpec := fun x =>
  mkEndpointSpec (epAddress x) (epPort x) (epUseTLS x) (epServerName x) (epAuthMode x)
  (epPathID x) (epPriority x).

Definition zero_EndpointSpec : EndpointSpec :=
  mkEndpointSpec "" 0 false "" "" 0 0.

Record GatewayRecord := mkGatewayRecord {
  gSchemaVersion : Z; gGatewayID : string; gProduct : GatewayProduct; gRole : GatewayRole;
  gClusterID : string; gSBSClusterID : string; gConnectionState : GatewayConnectionState;
  gReadiness : GatewayReadiness; gDrainState : GatewayDrainState; gLastSeenUnix : Z;
  gLeaseID : string; gLeaseExpiresAtUnix : Z; gStartedAtUnix : Z; gBuildVersion : string;
  gMetadataBackend : string; gMetadataRoot : string; gSBSClusterMetadataBackend : string;
  gSBSClusterMetadataRoot : string; gFailureDomain : string; gAdvertisedAddresses : list string;
  gCapabilities : list string; gControlEndpoints : list EndpointSpec;
  gDataplaneEndpoints : list EndpointSpec; gFirstError : string; gLastError : string;
  gRegistryRevision : Z }.

#[export] Instance GatewayRecord_settable : Settable GatewayRecord := fun x =>
  mkGatewayRecord (gSchemaVersion x) (gGatewayID x) (gProduct x) (gRole x) (gClusterID x)
  (gSBSClusterID x) (gConnectionState x) (gReadiness x) (gDrainState x) (gLastSeenUnix x)
  (gLeaseID x) (gLeaseExpiresAtUnix x) (gStartedAtUnix x) (gBuildVersion x) (gMetadataBackend x)
  (gMetadataRoot x) (gSBSClusterMetadataBackend x) (gSBSClusterMetadataRoot x)
  (gFailureDomain x) (gAdvertisedAddresses x) (gCapabilities x) (gControlEndpoints x)
  (gDataplaneEndpoints x) (gFirstError x) (gLastError x) (gRegistryRevision x).

Definition zero_GatewayRecord : GatewayRecord :=
  mkGatewayRecord 0 "" "" "" "" "" "" "" "" 0 "" 0 0 "" "" "" "" "" "" [] [] [] [] "" "" 0.

Record PhysicalChunkRef := mkPhysicalChunkRef {
  rStoreID : string; rShardID : Z; rChunkID : Z }.

#[export] Instance PhysicalChunkRef_settable : Settable PhysicalChunkRef := fun x =>
  mkPhysicalChunkRef (rStoreID x) (rShardID x) (rChunkID x).

Definition zero_PhysicalChunkRef : PhysicalChunkRef :=
  mkPhysicalChunkRef "" 0 0.

Record ChunkPayloadEncryptionHeader := mkChunkPayloadEncryptionHeader {
  ehHeaderVersion : Z; ehCipherSuite : string; ehEncryptionScope : string;
  ehSecurityPolicyID : string; ehPolicyGeneration : Z; ehKeyProviderID : string;
  ehDataKeyID : string; ehKeyID : string; ehKeyVersion : Z; ehKeyGeneration : Z;
  ehObjectID : string; ehBackendType : string; ehNonceHex : string; ehNonceSource : string;
  ehAADDigest : string; ehLogicalOffset : Z; ehPlaintextLength : Z; ehCiphertextLength : Z;
  ehAuthTagBytes : Z }.

#[export] Instance ChunkPayloadEncryptionHeader_settable : Settable ChunkPayloadEncryptionHeader := fun x =>
  mkChunkPayloadEncryptionHeader (ehHeaderVersion x) (ehCipherSuite x) (ehEncryptionScope x)
  (ehSecurityPolicyID x) (ehPolicyGeneration x) (ehKeyProviderID x) (ehDataKeyID x) (ehKeyID x)
  (ehKeyVersion x) (ehKeyGeneration x) (ehObjectID x) (ehBackendType x) (ehNonceHex x)
  (ehNonceSource x) (ehAADDigest x) (ehLogicalOffset x) (ehPlaintextLength x)
  (ehCiphertextLength x) (ehAuthTagBytes x).

Definition zero_ChunkPayloadEncryptionHeader : ChunkPayloadEncryptionHeader :=
  mkChunkPayloadEncryptionHeader 0 "" "" "" 0 "" "" "" 0 0 "" "" "" "" "" 0 0 0 0.

Record AllocationChunkRecord := mkAllocationChunkRecord {
  eLogicalChunkStart : Z; eChunkCount : Z; eKind : AllocationChunkKind; eStoreID : string;
  eShardID : Z; ePhysicalChunkStart : Z;
  ePayloadEncryption : option ChunkPayloadEncryptionHeader }.

#[export] Instance AllocationChunkRecord_settable : Settable AllocationChunkRecord := fun x =>
  mkAllocationChunkRecord (eLogicalChunkStart x) (eChunkCount x) (eKind x) (eStoreID x)
  (eShardID x) (ePhysicalChunkStart x) (ePayloadEncryption x).

Definition zero_AllocationChunkRecord : AllocationChunkRecord :=
  mkAllocationChunkRecord 0 0 "" "" 0 0 None.

Record AllocationPageRecord := mkAllocationPageRecord {
  pVolumeID : Z; pPageNo : Z; pPageBytes : Z; pChunkSizeBytes : Z; pRevision : Z;
  pExtents : list AllocationChunkRecord }.

#[export] Instance AllocationPageRecord_settable : Settable AllocationPageRecord := fun x =>
  mkAllocationPageRecord (pVolumeID x) (pPageNo x) (pPageBytes x) (pChunkSizeBytes x)
  (pRevision x) (pExtents x).

Definition zero_AllocationPageRecord : AllocationPageRecord :=
  mkAllocationPageRecord 0 0 0 0 0 [].

Record AllocationChunkGarbageRecord := mkAllocationChunkGarbageRecord {
  gcVolumeID : Z; gcStoreID : string; gcShardID : Z; gcChunkID : Z; gcEnqueuedAtUnix : Z }.

#[export] Instance AllocationChunkGarbageRecord_settable : Settable AllocationChunkGarbageRecord := fun x =>
  mkAllocationChunkGarbageRecord (gcVolumeID x) (gcStoreID x) (gcShardID x) (gcChunkID x)
  (gcEnqueuedAtUnix x).

Definition zero_AllocationChunkGarbageRecord : AllocationChunkGarbageRecord :=
  mkAllocationChunkGarbageRecord 0 "" 0 0 0.

Record AttachRequest := mkAttachRequest {
  arVolumeID : Z; arHostID : string; arDeviceID : Z; arGatewayID : string }.

#[export] Instance AttachRequest_settable : Settable AttachRequest := fun x =>
  mkAttachRequest (arVolumeID x) (arHostID x) (arDeviceID x) (arGatewayID x).

Definition zero_AttachRequest : AttachRequest :=
  mkAttachRequest 0 "" 0 "".

Record DetachRequest := mkDetachRequest {
  drVolumeID : Z; drHostID : string; drAttachmentID : string }.

#[export] Instance DetachRequest_settable : Settable DetachRequest := fun x =>
  mkDetachRequest (drVolumeID x) (drHostID x) (drAttachmentID x).

Definition zero_DetachRequest : DetachRequest :=
  mkDetachRequest 0 "" "".

Record VolumeCreateRequest := mkVolumeCreateRequest {
  crName : string; crSizeBytes : Z; crBlockSize : Z; crChunkSizeBytes : Z;
  crExtentPageBytes : Z; crAccessMode : VolumeAccessMode; crState : VolumeLifecycleState }.

#[export] Instance VolumeCreateRequest_settable : Settable VolumeCreateRequest := fun x =>
  mkVolumeCreateRequest (crName x) (crSizeBytes x) (crBlockSize x) (crChunkSizeBytes x)
  (crExtentPageBytes x) (crAccessMode x) (crState x).

Definition zero_VolumeCreateRequest : VolumeCreateRequest :=
  mkVolumeCreateRequest "" 0 0 0 0 "" "".

Record VolumeUpdateRequest := mkVolumeUpdateRequest {
  urName : option string; urSizeBytes : option Z; urBlockSize : option Z;
  urChunkSizeBytes : option Z; urExtentPageBytes : option Z;
  urAccessMode : option VolumeAccessMode; urState : option VolumeLifecycleState }.

#[export] Instance VolumeUpdateRequest_settable : Settable VolumeUpdateRequest := fun x =>
  mkVolumeUpdateRequest (urName x) (urSizeBytes x) (urBlockSize x) (urChunkSizeBytes x)
  (urExtentPageBytes x) (urAccessMode x) (urState x).

Definition zero_VolumeUpdateRequest : VolumeUpdateRequest :=
  mkVolumeUpdateRequest None None None None None None None.

#[export] Instance PhysicalChunkRef_eq_dec : EqDecision PhysicalChunkRef.
Proof. solve_decision. Defined.
#[export] Program Instance PhysicalChunkRef_countable : Countable PhysicalChunkRef :=
  inj_countable' (fun r => (rStoreID r, rShardID r, rChunkID r))
    (fun t => mkPhysicalChunkRef t.1.1 t.1.2 t.2) _.
Next Obligation. by intros []. Qed.

(** ** Errors *)

Record ProtectedWriteRejection := mkProtectedWriteRejection {
  pwVolumeID : string; pwProtectedState : string; pwReasonCode : string;
  pwSealedObjectID : string; pwSealOperationID : string; pwLifecycleState : string }.

#[export] Instance ProtectedWriteRejection_eq_dec : EqDecision ProtectedWriteRejection.
Proof. solve_decision. Defined.

(** The sentinel errors, and one constructor per formatted error the modelled
    code builds without a sentinel. *)
Inductive svc_error :=
| ErrVolumeNotFound | ErrVolumeDisabled | ErrBadAlignment | ErrDiscardAlignment | ErrOutOfRange
| ErrBadDataLength | ErrHostIDRequired | ErrAttachmentIDRequired | ErrAttachConflict
| ErrDetachConflict | ErrGatewayNotFound | ErrVolumeNameRequired | ErrVolumeNameConflict
| ErrVolumeNotDetached | ErrVolumeHasObjects | ErrVolumeGeometryChange | ErrMetadataCASConflict
| ErrWriterFenced | ErrNotSupported | ErrKeyAdmissionRejected
| ErrProtectedWrite (r : ProtectedWriteRejection)
| ErrInvalidChunkSize (got want : Z)
| ErrEncryptionUnsupported
| ErrRandom
| ErrContext
| ErrCloneIDRequired
| ErrSnapshotIDRequired
| ErrSBS (code : string) (retryable : bool)
| ErrStore (msg : string).

#[export] Instance svc_error_eq_dec : EqDecision svc_error.
Proof. solve_decision. Defined.

(** ** Protected state *)

Definition NormalizeProtectedState (p : VolumeProtectedState) : VolumeProtectedState :=
  mkVolumeProtectedState (TrimSpace (psState p)) (TrimSpace (psReasonCode p))
    (TrimSpace (psSealedObjectID p)) (TrimSpace (psSealOperationID p))
    (TrimSpace (psPolicySnapshotID p)) (TrimSpace (psLifecycleState p))
    (TrimSpace (psSourceVolumeID p)).

Definition IsZero (p : VolumeProtectedState) : bool :=
  let p := NormalizeProtectedState p in
  String.eqb (psState p) "" && String.eqb (psReasonCode p) "" &&
  String.eqb (psSealedObjectID p) "" && String.eqb (psSealOperationID p) "" &&
  String.eqb (psPolicySnapshotID p) "" && String.eqb (psLifecycleState p) "" &&
  String.eqb (psSourceVolumeID p) "".

Definition WriteRejectionReason (p : VolumeProtectedState) : option string :=
  let p := NormalizeProtectedState p in
  if negb (String.eqb (psState p) VolumeProtectedStateSealed) then None else
  if String.eqb (psReasonCode p) "" then Some ProtectedWriteReasonSealedReadOnly
  else Some (psReasonCode p).

(** ** Volume helpers *)

Definition CanonicalVolumeID (volumeID : Z) : string := VolumeId.Format volumeID.

Definition BuildVolumePrefix (name : string) (volumeID : Z) : string :=
  TrimSpace name ++ "-" ++ CanonicalVolumeID volumeID.

Definition FormatAttachmentID (volumeID generation : Z) : string :=
  "att-" ++ CanonicalVolumeID volumeID ++ "-" ++ format_04d generation.

(** [if x == 0 { x = d }] and its analogue on strings. *)
Definition or_default (x d : Z) : Z := if x =? 0 then d else x.
Definition or_default_str (x d : string) : string := if String.eqb x "" then d else x.

Definition NormalizeVolumeSpec (spec : VolumeSpec) : VolumeSpec :=
  spec <| vBlockSize := or_default (vBlockSize spec) DefaultBlockSize |>
       <| vChunkSizeBytes := or_default (vChunkSizeBytes spec) DefaultAllocationChunkSize |>
       <| vExtentPageBytes := or_default (vExtentPageBytes spec) DefaultAllocationPageSize |>
       <| vAccessMode := or_default_str (vAccessMode spec) VolumeAccessModeExclusive |>
       <| vState := or_default_str (vState spec) VolumeStateAvailable |>
       <| vRedundancyBackend := or_default_str (vRedundancyBackend spec) RedundancyBackendReplicated |>
       <| vName := or_default_str (vName spec) (vPrefix spec) |>
       <| vProtectedState :=
            match vProtectedState spec with
            | None => None
            | Some p =>
                let protectedState := NormalizeProtectedState p in
                if IsZero protectedState then None else Some protectedState
            end |>.

(** A geometry field of an update request against the current value. *)
Definition geometry_change (req : option Z) (dflt current : Z) : bool :=
  match req with
  | None => false
  | Some next => negb (or_default next dflt =? current)
  end.

Definition ValidateImmutableVolumeGeometry (current : VolumeSpec) (req : VolumeUpdateRequest)
  : result svc_error unit :=
  let current := NormalizeVolumeSpec current in
  if geometry_change (urBlockSize req) DefaultBlockSize (vBlockSize current)
  then Err ErrVolumeGeometryChange else
  if geometry_change (urChunkSizeBytes req) DefaultAllocationChunkSize (vChunkSizeBytes current)
  then Err ErrVolumeGeometryChange else
  if geometry_change (urExtentPageBytes req) DefaultAllocationPageSize (vExtentPageBytes current)
  then Err ErrVolumeGeometryChange else Ok tt.

Definition NewGatewayRecord (now : Z) (gatewayID buildVersion : string)
    (controlEndpoints dataplaneEndpoints : list EndpointSpec) : GatewayRecord :=
  zero_GatewayRecord <| gSchemaVersion := 1 |> <| gGatewayID := gatewayID |>
    <| gProduct := GatewayProductNAMRBD |> <| gRole := GatewayRoleBlock |>
    <| gConnectionState := GatewayStateUp |> <| gReadiness := GatewayReadinessReady |>
    <| gDrainState := GatewayDrainActive |> <| gLastSeenUnix := now |> <| gStartedAtUnix := now |>
    <| gBuildVersion := buildVersion |>
    <| gCapabilities := ["control-plane"; "dataplane"; "volume-spec-cache"; "etcd-metadata"] |>
    <| gControlEndpoints := controlEndpoints |> <| gDataplaneEndpoints := dataplaneEndpoints |>.

(** ** Lemmas *)

Lemma NormalizeProtectedState_idem p :
  NormalizeProtectedState (NormalizeProtectedState p) = NormalizeProtectedState p.
Proof. destruct p. unfold NormalizeProtectedState. f_equal; apply TrimSpace_idem. Qed.

Lemma IsZero_normalized p : IsZero (NormalizeProtectedState p) = IsZero p.
Proof. unfold IsZero. by rewrite NormalizeProtectedState_idem. Qed.

Lemma or_default_idem x d : or_default (or_default x d) d = or_default x d.
Proof. unfold or_default. destruct (x =? 0) eqn:Hx; [by destruct (d =? 0)|by rewrite Hx]. Qed.
Lemma or_default_str_idem x d : or_default_str (or_default_str x d) d = or_default_str x d.
Proof.
  unfold or_default_str. destruct (String.eqb_spec x "") as [->|Hx].
  - by destruct (String.eqb_spec d "").
  - by rewrite (proj2 (String.eqb_neq x "") Hx).
Qed.

Lemma or_default_pos x d : 0 <= x -> 0 < d -> 0 < or_default x d.
Proof. unfold or_default. destruct (Z.eqb_spec x 0); lia. Qed.

Lemma NormalizeVolumeSpec_idem spec :
  NormalizeVolumeSpec (NormalizeVolumeSpec spec) = NormalizeVolumeSpec spec.
Proof.
  destruct spec as [id nm pfx sz bs cs pb am st prot rb tm e1 e2 e3 e4 e5 e6 e7 e8 wk].
  unfold NormalizeVolumeSpec.
  cbn [set_field VolumeSpec_settable vID vName vPrefix vSizeBytes vBlockSize vChunkSizeBytes
    vExtentPageBytes vAccessMode vState vProtectedState vRedundancyBackend vTopologyMode
    vECProfileID vECCodecID vECDataShards vECParityShards vECStripeUnitBytes vECFailureDomain
    vECMaxUnavailableFailureDomains vECMaxShardsPerFailureDomain vWeakPlacementAllowed].
  rewrite !or_default_idem, !or_default_str_idem. destruct prot as [p|]; [|done].
  rewrite IsZero_normalized. destruct (IsZero p) eqn:Hz; [done|].
  by rewrite NormalizeProtectedState_idem, IsZero_normalized, Hz.
Qed.

Lemma string_app_inj_l (a b c : string) : (a ++ b = a ++ c)%string -> b = c.
Proof.
  intros H. apply string_chars_inj. apply (f_equal list_ascii_of_string) in H.
  rewrite !chars_app in H. by apply app_inv_head in H.
Qed.

(** Attachment identifiers of one volume differ when their generations do. *)
Lemma FormatAttachmentID_inj v g1 g2 :
  u64 g1 -> u64 g2 -> FormatAttachmentID v g1 = FormatAttachmentID v g2 -> g1 = g2.
Proof.
  unfold FormatAttachmentID. intros H1 H2 H.
  do 3 apply string_app_inj_l in H. by apply format_04d_inj.
Qed.

Lemma FormatAttachmentID_nonempty v g : FormatAttachmentID v g <> "".
Proof. by unfold FormatAttachmentID. Qed.

End Gateway.
