(* ===== verification/MemoryMetadata.v ===== *)
(** * The in-memory metadata repository

    Models src/gateway/service/memory_metadata.go: the repository that keeps
    volumes, attachments, volume status, gateway records, extent pages, the
    chunk-id allocator and the chunk garbage list in Go maps under one mutex.
    Every method runs under that mutex, so a method is one atomic state
    transition.  The clock ([time.Now().Unix()]), the random source
    ([crypto/rand]) and the iteration order of a map are arguments. *)

From Stdlib Require Import ZArith Lia Ascii String.
From stdpp Require Import base list gmap strings sorting.
From S2P Require Import Prelude GoStrings VolumeId GatewayTypes.
Open Scope string_scope.
Open Scope Z_scope.

Module MemMeta.
Import Gateway.

Record Repo := mkRepo {
  volumes : gmap Z VolumeSpec;
  state : gmap Z AttachmentRecord;
  status : gmap Z VolumeStatusRecord;
  gateway : gmap string GatewayRecord;
  extentPages : gmap Z (gmap Z AllocationPageRecord);
  nextChunkID : gmap Z Z;
  chunkGC : gmap Z (gmap Z AllocationChunkGarbageRecord) }.

#[export] Instance Repo_settable : Settable Repo := fun r =>
  mkRepo (volumes r) (state r) (status r) (gateway r) (extentPages r) (nextChunkID r) (chunkGC r).

Definition op (A : Type) := act Repo svc_error A.

(** Map reads with Go's zero value for a missing key. *)
Definition attachment_of (r : Repo) (v : Z) : AttachmentRecord :=
  default zero_AttachmentRecord (state r !! v).
Definition status_of (r : Repo) (v : Z) : VolumeStatusRecord :=
  default zero_VolumeStatusRecord (status r !! v).
Definition pages_of (r : Repo) (v : Z) : gmap Z AllocationPageRecord :=
  default ∅ (extentPages r !! v).
Definition garbage_of (r : Repo) (v : Z) : gmap Z AllocationChunkGarbageRecord :=
  default ∅ (chunkGC r !! v).

(** The records every new volume starts with. *)
Definition fresh_status (volumeID : Z) : VolumeStatusRecord :=
  zero_VolumeStatusRecord <| sVolumeID := volumeID |>
    <| sGatewayConnectionState := GatewayStateUnknown |>.
Definition fresh_attachment : AttachmentRecord := zero_AttachmentRecord <| aGeneration := 1 |>.

Definition add_volume (volumeID : Z) (spec : VolumeSpec) (r : Repo) : Repo :=
  r <| volumes := <[volumeID := spec]> (volumes r) |>
    <| state := <[volumeID := fresh_attachment]> (state r) |>
    <| status := <[volumeID := fresh_status volumeID]> (status r) |>
    <| extentPages := <[volumeID := ∅]> (extentPages r) |>
    <| nextChunkID := <[volumeID := 1]> (nextChunkID r) |>
    <| chunkGC := <[volumeID := ∅]> (chunkGC r) |>.

Definition empty_repo : Repo := mkRepo ∅ ∅ ∅ ∅ ∅ ∅ ∅.

Definition NewInMemoryMetadataRepository (vs : list VolumeSpec) : Repo :=
  fold_left (fun r v => let v := NormalizeVolumeSpec v in add_volume (vID v) v r) vs empty_repo.

Definition EnsureVolume (volume : VolumeSpec) : op unit := fun r =>
  let volume := NormalizeVolumeSpec volume in
  match volumes r !! vID volume with
  | Some _ => (r <| volumes := <[vID volume := volume]> (volumes r) |>, Ok tt)
  | None => (add_volume (vID volume) volume r, Ok tt)
  end.

Definition SyncVolumeSpec (volume : VolumeSpec) : op unit := fun r =>
  let volume := NormalizeVolumeSpec volume in
  match volumes r !! vID volume with
  | None => (r, Err ErrVolumeNotFound)
  | Some _ => (r <| volumes := <[vID volume := volume]> (volumes r) |>, Ok tt)
  end.

(** [rand i] is the value of the [i]-th four bytes read from [crypto/rand], or
    [None] when the read fails. *)
Fixpoint generate_loop (n i : nat) (rand : nat -> option Z) (existing : gmap Z VolumeSpec)
  : result svc_error Z :=
  match n with
  | O => Err ErrVolumeNameConflict
  | S n =>
      match rand i with
      | None => Err ErrRandom
      | Some raw =>
          let id := wrap32 raw in
          if id =? 0 then generate_loop n (S i) rand existing else
          match existing !! id with
          | Some _ => generate_loop n (S i) rand existing
          | None => Ok id
          end
      end
  end.

Definition generateUniqueVolumeIDMemory (rand : nat -> option Z) (existing : gmap Z VolumeSpec)
  : result svc_error Z := generate_loop 64 0 rand existing.

Definition name_taken (name : string) (except : Z -> bool) (vs : gmap Z VolumeSpec) : bool :=
  existsb (fun kv => negb (except kv.1) && String.eqb (vName kv.2) name) (map_to_list vs).

Definition CreateVolume (rand : nat -> option Z) (req : VolumeCreateRequest) : op VolumeSpec :=
  fun r =>
  let name := TrimSpace (crName req) in
  if String.eqb name "" then (r, Err ErrVolumeNameRequired) else
  if name_taken name (fun _ => false) (volumes r) then (r, Err ErrVolumeNameConflict) else
  match generateUniqueVolumeIDMemory rand (volumes r) with
  | Err e => (r, Err e)
  | Panic => (r, Panic)
  | Ok volumeID =>
      let spec := NormalizeVolumeSpec (zero_VolumeSpec
        <| vID := volumeID |> <| vName := name |> <| vPrefix := BuildVolumePrefix name volumeID |>
        <| vSizeBytes := crSizeBytes req |> <| vBlockSize := crBlockSize req |>
        <| vChunkSizeBytes := crChunkSizeBytes req |>
        <| vExtentPageBytes := crExtentPageBytes req |>
        <| vAccessMode := crAccessMode req |> <| vState := crState req |>) in
      (add_volume volumeID spec r, Ok spec)
  end.

(** The checks and field updates of [UpdateVolume], in the order of the code. *)
Definition updated_spec (r : Repo) (volumeID : Z) (volume : VolumeSpec)
    (req : VolumeUpdateRequest) : result svc_error VolumeSpec :=
  let isAttached := negb (String.eqb (aAttachmentID (attachment_of r volumeID)) "") in
  _ ← ValidateImmutableVolumeGeometry volume req;
  volume ← match urName req with
           | None => Ok volume
           | Some n =>
               let nextName := TrimSpace n in
               if String.eqb nextName "" then Err ErrVolumeNameRequired else
               if isAttached then Err ErrVolumeNotDetached else
               if name_taken nextName (fun k => k =? volumeID) (volumes r)
               then Err ErrVolumeNameConflict else
               Ok (volume <| vName := nextName |>
                          <| vPrefix := BuildVolumePrefix nextName volumeID |>)
           end;
  volume ← match urSizeBytes req with
           | None => Ok volume
           | Some n => if isAttached then Err ErrVolumeNotDetached
                       else Ok (volume <| vSizeBytes := n |>)
           end;
  _ ← (if isAttached && (isSome (urBlockSize req) || isSome (urChunkSizeBytes req)
                         || isSome (urExtentPageBytes req))
       then Err ErrVolumeNotDetached else Ok tt);
  volume ← match urAccessMode req with
           | None => Ok volume
           | Some m => if isAttached then Err ErrVolumeNotDetached
                       else Ok (volume <| vAccessMode := m |>)
           end;
  let volume := match urState req with
                | None => volume
                | Some st => volume <| vState := st |>
                end in
  Ok (NormalizeVolumeSpec volume).

Definition UpdateVolume (volumeID : Z) (req : VolumeUpdateRequest) : op VolumeSpec := fun r =>
  match volumes r !! volumeID with
  | None => (r, Err ErrVolumeNotFound)
  | Some volume =>
      match updated_spec r volumeID volume req with
      | Ok volume => (r <| volumes := <[volumeID := volume]> (volumes r) |>, Ok volume)
      | Err e => (r, Err e)
      | Panic => (r, Panic)
      end
  end.

Definition DeleteVolume (volumeID : Z) : op unit := fun r =>
  match volumes r !! volumeID with
  | None => (r, Err ErrVolumeNotFound)
  | Some volume =>
      if negb (String.eqb (aAttachmentID (attachment_of r volumeID)) "")
      then (r, Err ErrVolumeNotDetached) else
      if negb (String.eqb (vState volume) VolumeStateAvailable) &&
         negb (String.eqb (vState volume) VolumeStateDisabled)
      then (r, Err ErrVolumeNotDetached) else
      if negb (Nat.eqb (size (pages_of r volumeID)) 0) then (r, Err ErrVolumeHasObjects) else
      if negb (Nat.eqb (size (garbage_of r volumeID)) 0) then (r, Err ErrVolumeHasObjects) else
      (r <| volumes := delete volumeID (volumes r) |>
         <| state := delete volumeID (state r) |>
         <| status := delete volumeID (status r) |>
         <| extentPages := delete volumeID (extentPages r) |>
         <| nextChunkID := delete volumeID (nextChunkID r) |>
         <| chunkGC := delete volumeID (chunkGC r) |>, Ok tt)
  end.

(** The guard every per-volume method starts with. *)
Definition with_volume {A} (volumeID : Z) (body : VolumeSpec -> op A) : op A := fun r =>
  match volumes r !! volumeID with
  | None => (r, Err ErrVolumeNotFound)
  | Some volume => body volume r
  end.

Definition GetVolume (volumeID : Z) : op VolumeSpec :=
  with_volume volumeID (fun volume r => (r, Ok volume)).

Definition GetVolumeStatus (volumeID : Z) : op VolumeStatusRecord :=
  with_volume volumeID (fun _ r => (r, Ok (status_of r volumeID))).

Definition PutVolumeStatus (st : VolumeStatusRecord) : op unit :=
  with_volume (sVolumeID st) (fun _ r =>
    (r <| status := <[sVolumeID st := st]> (status r) |>, Ok tt)).

Definition ListVolumes (order : list VolumeSpec -> list VolumeSpec) : op (list VolumeSpec) :=
  fun r => (r, Ok (order (map_to_list (volumes r)).*2)).

Definition SetVolumeState (volumeID : Z) (st : VolumeLifecycleState) : op VolumeSpec :=
  with_volume volumeID (fun volume r =>
    let volume := volume <| vState := st |> in
    (r <| volumes := <[volumeID := volume]> (volumes r) |>, Ok volume)).

Definition GetAttachment (volumeID : Z) : op AttachmentRecord :=
  with_volume volumeID (fun _ r => (r, Ok (attachment_of r volumeID))).

Definition GetGeneration (volumeID : Z) : op Z :=
  with_volume volumeID (fun _ r =>
    let gen := aGeneration (attachment_of r volumeID) in (r, Ok (or_default gen 1))).

(** The status and lifecycle writes shared by the two ways of detaching. *)
Definition mark_detached (volumeID : Z) (volume : VolumeSpec) (st : AttachmentRecord) (r : Repo)
  : Repo :=
  let vs := status_of r volumeID
              <| sInUse := false |> <| sCurrentAttachmentID := "" |> <| sCurrentHostID := "" |>
              <| sCurrentGatewayID := "" |> <| sGatewayConnectionState := GatewayStateDetached |>
              <| sAttachmentGeneration := aGeneration st |> in
  r <| state := <[volumeID := st]> (state r) |>
    <| status := <[volumeID := vs]> (status r) |>
    <| volumes := <[volumeID := volume <| vState := VolumeStateAvailable |>]> (volumes r) |>.

Definition UnsafeClearAttachment (volumeID : Z) : op AttachmentRecord :=
  with_volume volumeID (fun volume r =>
    let st := attachment_of r volumeID in
    let gen := or_default (aGeneration st) 1 in
    let gen := if negb (String.eqb (aAttachmentID st) "") then add64 gen 1 else gen in
    let st := mkAttachmentRecord gen "" "" 0 "" "" 0 in
    (mark_detached volumeID volume st r, Ok st)).

Definition UnsafeSetGeneration (volumeID generation : Z) : op Z :=
  with_volume volumeID (fun _ r =>
    let generation := or_default generation 1 in
    let st := attachment_of r volumeID <| aGeneration := generation |> in
    (r <| state := <[volumeID := st]> (state r) |>, Ok generation)).

Definition Attach (now : Z) (req : AttachRequest) : op AttachmentRecord :=
  with_volume (arVolumeID req) (fun volume r =>
    if String.eqb (vState volume) VolumeStateDisabled then (r, Err ErrVolumeDisabled) else
    let st := attachment_of r (arVolumeID req) in
    if negb (String.eqb (aHostID st) "") &&
       (negb (String.eqb (aHostID st) (arHostID req)) || negb (aDeviceID st =? arDeviceID req))
    then (r, Err ErrAttachConflict) else
    let st :=
      if String.eqb (aAttachmentID st) ""
      then st <| aAttachmentID := FormatAttachmentID (arVolumeID req) (aGeneration st) |>
      else if negb (String.eqb (arGatewayID req) "") && negb (String.eqb (aOwnerGatewayID st) "")
              && negb (String.eqb (aOwnerGatewayID st) (arGatewayID req))
      then let gen := add64 (aGeneration st) 1 in
           st <| aGeneration := gen |>
              <| aAttachmentID := FormatAttachmentID (arVolumeID req) gen |>
              <| aLeaseID := "" |> <| aAttachedAtUnix := 0 |>
      else st in
    let st := st <| aHostID := arHostID req |> <| aDeviceID := arDeviceID req |>
                 <| aOwnerGatewayID := arGatewayID req |> <| aAttachedAtUnix := now |> in
    let vs := status_of r (arVolumeID req) in
    let vs := vs <| sInUse := true |> <| sCurrentAttachmentID := aAttachmentID st |>
                 <| sCurrentHostID := arHostID req |> <| sCurrentGatewayID := arGatewayID req |>
                 <| sAttachmentGeneration := aGeneration st |>
                 <| sGatewayConnectionState := if negb (String.eqb (arGatewayID req) "")
                                               then GatewayStateUp
                                               else sGatewayConnectionState vs |> in
    (r <| state := <[arVolumeID req := st]> (state r) |>
       <| status := <[arVolumeID req := vs]> (status r) |>
       <| volumes := <[arVolumeID req := volume <| vState := VolumeStateInUse |>]> (volumes r) |>,
     Ok st)).

Definition Detach (req : DetachRequest) : op AttachmentRecord :=
  with_volume (drVolumeID req) (fun volume r =>
    let st := attachment_of r (drVolumeID req) in
    if negb (String.eqb (aHostID st) "") &&
       (negb (String.eqb (aHostID st) (drHostID req))
        || negb (String.eqb (aAttachmentID st) (drAttachmentID req)))
    then (r, Err ErrDetachConflict) else
    if String.eqb (aHostID st) (drHostID req) &&
       String.eqb (aAttachmentID st) (drAttachmentID req)
    then let st := st <| aHostID := "" |> <| aAttachmentID := "" |> <| aDeviceID := 0 |>
                      <| aOwnerGatewayID := "" |> <| aLeaseID := "" |>
                      <| aGeneration := add64 (aGeneration st) 1 |> in
         (mark_detached (drVolumeID req) volume st r, Ok st)
    else (r, Ok st)).

Definition GetGateway (gatewayID : string) : op GatewayRecord := fun r =>
  match gateway r !! gatewayID with
  | None => (r, Err ErrGatewayNotFound)
  | Some rec => (r, Ok rec)
  end.

(** [sort.Slice] with keys that are distinct: any sorting algorithm gives this
    list. *)
Definition gateway_le (a b : GatewayRecord) : Prop :=
  String.le (gGatewayID a) (gGatewayID b).
#[export] Instance gateway_le_dec a b : Decision (gateway_le a b).
Proof. unfold gateway_le. apply _. Defined.

Definition ListGateways : op (list GatewayRecord) := fun r =>
  (r, Ok (merge_sort gateway_le (map_to_list (gateway r)).*2)).

Definition PutGateway (rec : GatewayRecord) : op unit := fun r =>
  (r <| gateway := <[gGatewayID rec := rec]> (gateway r) |>, Ok tt).

(** The page [GetExtentPage] invents for a page that was never written. *)
Definition empty_page (volume : VolumeSpec) (volumeID pageNo : Z) : AllocationPageRecord :=
  mkAllocationPageRecord volumeID pageNo (vExtentPageBytes volume) (vChunkSizeBytes volume) 0 [].

Definition GetExtentPage (volumeID pageNo : Z) : op AllocationPageRecord :=
  with_volume volumeID (fun volume r =>
    (r, Ok (default (empty_page volume volumeID pageNo) (pages_of r volumeID !! pageNo)))).

Definition page_le (a b : AllocationPageRecord) : Prop := pPageNo a <= pPageNo b.
#[export] Instance page_le_dec a b : Decision (page_le a b).
Proof. unfold page_le. apply _. Defined.

Definition ListExtentPages (volumeID : Z) : op (list AllocationPageRecord) :=
  with_volume volumeID (fun _ r =>
    (r, Ok (merge_sort page_le (map_to_list (pages_of r volumeID)).*2))).

Definition PutExtentPage (rec : AllocationPageRecord) (expectedRevision : Z)
  : op AllocationPageRecord :=
  with_volume (pVolumeID rec) (fun volume r =>
    let rec := rec <| pPageBytes := or_default (pPageBytes rec) (vExtentPageBytes volume) |>
                   <| pChunkSizeBytes := or_default (pChunkSizeBytes rec) (vChunkSizeBytes volume) |> in
    let pages := pages_of r (pVolumeID rec) in
    let r := r <| extentPages := <[pVolumeID rec := pages]> (extentPages r) |> in
    let currentRevision := match pages !! pPageNo rec with
                           | Some current => pRevision current
                           | None => 0
                           end in
    if negb (currentRevision =? expectedRevision) then (r, Err ErrMetadataCASConflict) else
    let rec := rec <| pRevision := add_i64 currentRevision 1 |> in
    (r <| extentPages := <[pVolumeID rec := <[pPageNo rec := rec]> pages]> (extentPages r) |>,
     Ok rec)).

Definition AllocateChunkIDs (volumeID count : Z) : op Z :=
  with_volume volumeID (fun _ r =>
    if count =? 0 then (r, Ok 0) else
    let next := or_default (default 0 (nextChunkID r !! volumeID)) 1 in
    (r <| nextChunkID := <[volumeID := add64 next count]> (nextChunkID r) |>, Ok next)).

Definition PutChunkGarbage (now : Z) (rec : AllocationChunkGarbageRecord) : op unit :=
  with_volume (gcVolumeID rec) (fun _ r =>
    let rec := rec <| gcEnqueuedAtUnix := or_default (gcEnqueuedAtUnix rec) now |> in
    (r <| chunkGC := <[gcVolumeID rec := <[gcChunkID rec := rec]> (garbage_of r (gcVolumeID rec))]>
                     (chunkGC r) |>, Ok tt)).

Definition garbage_le (a b : AllocationChunkGarbageRecord) : Prop :=
  gcEnqueuedAtUnix a < gcEnqueuedAtUnix b \/
  (gcEnqueuedAtUnix a = gcEnqueuedAtUnix b /\ gcChunkID a <= gcChunkID b).
#[export] Instance garbage_le_dec a b : Decision (garbage_le a b).
Proof. unfold garbage_le. apply _. Defined.

Definition ListChunkGarbage (volumeID limit : Z) : op (list AllocationChunkGarbageRecord) :=
  with_volume volumeID (fun _ r =>
    let records := merge_sort garbage_le (map_to_list (garbage_of r volumeID)).*2 in
    let records := if (0 <? limit) && (limit <? zlen records)
                   then take (Z.to_nat limit) records else records in
    (r, Ok records)).

Definition DeleteChunkGarbage (volumeID chunkID : Z) : op unit :=
  with_volume volumeID (fun _ r =>
    (match chunkGC r !! volumeID with
     | None => r
     | Some m => r <| chunkGC := <[volumeID := delete chunkID m]> (chunkGC r) |>
     end, Ok tt)).

End MemMeta.
