(* ===== verification/MemoryMetadataFacts.v ===== *)
(** * The in-memory metadata repository: theorems

    Every public method is one of the [call]s below.  The first group shows
    that the maps of the repository stay consistent under any sequence of
    calls; the second that attachment generations fence old attachments; the
    third that extent pages are updated by compare-and-swap and that chunk ids
    are handed out once. *)

From Stdlib Require Import ZArith Lia Ascii String.
From stdpp Require Import base list gmap strings sorting.
From S2P Require Import Prelude GoStrings VolumeId GatewayTypes MemoryMetadata.
Open Scope string_scope.
Open Scope Z_scope.

Module MemMetaFacts.
Import Gateway MemMeta.

(** ** Calls *)

Inductive call :=
| CEnsureVolume (v : VolumeSpec) | CSyncVolumeSpec (v : VolumeSpec)
| CCreateVolume (rand : nat -> option Z) (req : VolumeCreateRequest)
| CUpdateVolume (id : Z) (req : VolumeUpdateRequest) | CDeleteVolume (id : Z)
| CPutVolumeStatus (st : VolumeStatusRecord) | CSetVolumeState (id : Z) (st : string)
| CUnsafeClearAttachment (id : Z) | CUnsafeSetGeneration (id g : Z)
| CAttach (now : Z) (req : AttachRequest) | CDetach (req : DetachRequest)
| CPutGateway (rec : GatewayRecord)
| CPutExtentPage (rec : AllocationPageRecord) (rev : Z) | CAllocateChunkIDs (id n : Z)
| CPutChunkGarbage (now : Z) (rec : AllocationChunkGarbageRecord)
| CDeleteChunkGarbage (id c : Z).

Definition exec (c : call) (r : Repo) : Repo :=
  match c with
  | CEnsureVolume v => (EnsureVolume v r).1
  | CSyncVolumeSpec v => (SyncVolumeSpec v r).1
  | CCreateVolume rand req => (CreateVolume rand req r).1
  | CUpdateVolume id req => (UpdateVolume id req r).1
  | CDeleteVolume id => (DeleteVolume id r).1
  | CPutVolumeStatus st => (PutVolumeStatus st r).1
  | CSetVolumeState id st => (SetVolumeState id st r).1
  | CUnsafeClearAttachment id => (UnsafeClearAttachment id r).1
  | CUnsafeSetGeneration id g => (UnsafeSetGeneration id g r).1
  | CAttach now req => (Attach now req r).1
  | CDetach req => (Detach req r).1
  | CPutGateway rec => (PutGateway rec r).1
  | CPutExtentPage rec rev => (PutExtentPage rec rev r).1
  | CAllocateChunkIDs id n => (AllocateChunkIDs id n r).1
  | CPutChunkGarbage now rec => (PutChunkGarbage now rec r).1
  | CDeleteChunkGarbage id c => (DeleteChunkGarbage id c r).1
  end.

Definition exec_all (cs : list call) (r : Repo) : Repo := fold_left (fun r c => exec c r) cs r.

(** ** Consistency of the maps *)

Record consistent (r : Repo) : Prop := {
  dom_state : dom (state r) = dom (volumes r);
  dom_status : dom (status r) = dom (volumes r);
  dom_pages : dom (extentPages r) = dom (volumes r);
  dom_next : dom (nextChunkID r) = dom (volumes r);
  dom_gc : dom (chunkGC r) = dom (volumes r);
  vol_key : forall v spec, volumes r !! v = Some spec -> vID spec = v;
  page_key : forall v p rec, pages_of r v !! p = Some rec -> pVolumeID rec = v /\ pPageNo rec = p;
  gc_key : forall v c rec, garbage_of r v !! c = Some rec -> gcVolumeID rec = v /\ gcChunkID rec = c }.

(** A map update at a key that is already there keeps the domain. *)
Lemma dom_insert_in {A B} (m : gmap Z A) (d : gmap Z B) k x :
  dom m = dom d -> is_Some (d !! k) -> dom (<[k := x]> m) = dom d.
Proof.
  rewrite <-elem_of_dom. intros H Hk. rewrite dom_insert_L, H.
  by apply subseteq_union_1_L, singleton_subseteq_l.
Qed.

Lemma dom_insert_both {A B} (m : gmap Z A) (d : gmap Z B) k x y :
  dom m = dom d -> dom (<[k := x]> m) = dom (<[k := y]> d).
Proof. intros H. by rewrite !dom_insert_L, H. Qed.

Lemma dom_delete_both {A B} (m : gmap Z A) (d : gmap Z B) k :
  dom m = dom d -> dom (delete k m) = dom (delete k d).
Proof. intros H. by rewrite !dom_delete_L, H. Qed.

(** Replacing the spec, attachment and status of an existing volume. *)
Lemma consistent_replace r v spec spec' st vs :
  consistent r -> volumes r !! v = Some spec -> vID spec' = v ->
  consistent (r <| volumes := <[v := spec']> (volumes r) |>
                <| state := <[v := st]> (state r) |> <| status := <[v := vs]> (status r) |>).
Proof.
  intros [] Hv Hid.
  assert (dom (<[v := spec']> (volumes r)) = dom (volumes r)) as Hd
    by (apply dom_insert_in; [done|by eexists]).
  split; cbn; rewrite ?Hd; try (apply dom_insert_in; [done|by eexists]); try done.
  intros v' s'. rewrite lookup_insert_Some. intros [[<- <-]|[_ H]]; eauto.
Qed.

Lemma consistent_volume r v spec spec' :
  consistent r -> volumes r !! v = Some spec -> vID spec' = v ->
  consistent (r <| volumes := <[v := spec']> (volumes r) |>).
Proof.
  intros [] Hv Hid.
  assert (dom (<[v := spec']> (volumes r)) = dom (volumes r)) as Hd
    by (apply dom_insert_in; [done|by eexists]).
  split; cbn; rewrite ?Hd; try done.
  intros v' s'. rewrite lookup_insert_Some. intros [[<- <-]|[_ H]]; eauto.
Qed.

Lemma consistent_add r v spec : consistent r -> vID spec = v -> consistent (add_volume v spec r).
Proof.
  intros [] Hid. split; cbn; try (by apply dom_insert_both).
  - intros v' s'. rewrite lookup_insert_Some. intros [[<- <-]|[_ H]]; eauto.
  - intros v' p rec. unfold pages_of. cbn. destruct (decide (v' = v)) as [->|Hne].
    + rewrite lookup_insert_eq. done.
    + rewrite lookup_insert_ne by done. apply page_key0.
  - intros v' c rec. unfold garbage_of. cbn. destruct (decide (v' = v)) as [->|Hne].
    + rewrite lookup_insert_eq. done.
    + rewrite lookup_insert_ne by done. apply gc_key0.
Qed.

Lemma normalized_id spec : vID (NormalizeVolumeSpec spec) = vID spec.
Proof. reflexivity. Qed.

(** Solve the goals where a call leaves the repository alone. *)
Ltac unchanged := cbn; assumption.

(** An update keeps the identity and the geometry of the volume, and an attached
    volume keeps its name, prefix, size and access mode as well. *)
Lemma updated_spec_ok r id volume req volume' :
  updated_spec r id volume req = Ok volume' ->
  vID volume' = vID volume /\
  vBlockSize volume' = or_default (vBlockSize volume) DefaultBlockSize /\
  vChunkSizeBytes volume' = or_default (vChunkSizeBytes volume) DefaultAllocationChunkSize /\
  vExtentPageBytes volume' = or_default (vExtentPageBytes volume) DefaultAllocationPageSize /\
  (aAttachmentID (attachment_of r id) <> "" ->
   vSizeBytes volume' = vSizeBytes volume /\ vPrefix volume' = vPrefix volume).
Proof.
  unfold updated_spec. cbv zeta. intros H.
  apply bind_Ok in H as (_ & _ & H). apply bind_Ok in H as (v1 & H1 & H).
  apply bind_Ok in H as (v2 & H2 & H). apply bind_Ok in H as (_ & _ & H).
  apply bind_Ok in H as (v3 & H3 & H). apply (inj Ok) in H as <-.
  assert (v1 = volume \/ aAttachmentID (attachment_of r id) = "" /\
    exists n, v1 = volume <| vName := n |> <| vPrefix := BuildVolumePrefix n id |>) as Hv1.
  { destruct (urName req) as [n|]; [right|left; congruence]. revert H1.
    destruct (String.eqb (TrimSpace n) ""); [done|].
    destruct (String.eqb_spec (aAttachmentID (attachment_of r id)) ""); [|done].
    cbn [negb]. destruct (name_taken _ _ _); [done|]. intros <-%(inj Ok). eauto. }
  assert (v2 = v1 \/ aAttachmentID (attachment_of r id) = "" /\ exists n, v2 = v1 <| vSizeBytes := n |>)
    as Hv2.
  { destruct (urSizeBytes req) as [n|]; [right|left; congruence]. revert H2.
    destruct (String.eqb_spec (aAttachmentID (attachment_of r id)) ""); [|done].
    intros <-%(inj Ok). eauto. }
  assert (exists m, v3 = v2 <| vAccessMode := m |>) as [m ->].
  { destruct (urAccessMode req) as [m|].
    - destruct (negb _); [done|]. apply (inj Ok) in H3 as <-. eauto.
    - apply (inj Ok) in H3 as <-. exists (vAccessMode v2). by destruct v2. }
  destruct (urState req), Hv1 as [->|(? & ? & ->)], Hv2 as [->|(? & ? & ->)]; cbn;
    repeat split; done.
Qed.

Lemma consistent_update id req r : consistent r -> consistent (exec (CUpdateVolume id req) r).
Proof.
  intros Hr. cbn. unfold UpdateVolume. destruct (volumes r !! id) as [spec|] eqn:Hv; [|unchanged].
  destruct (updated_spec r id spec req) as [spec'| |] eqn:Hu; [|unchanged..].
  cbn. apply (consistent_volume _ _ spec); [done..|].
  apply updated_spec_ok in Hu as [-> _]. by apply (vol_key r Hr).
Qed.

Lemma consistent_delete id r : consistent r -> consistent (exec (CDeleteVolume id) r).
Proof.
  intros Hr. cbn. unfold DeleteVolume. destruct (volumes r !! id) as [spec|] eqn:Hv; [|unchanged].
  repeat (match goal with |- context [if ?b then _ else _] => destruct b end; [unchanged|]).
  destruct Hr. split; cbn; try (by apply dom_delete_both).
  - intros v s. rewrite lookup_delete_Some. intros [_ H]. eauto.
  - intros v p rec. unfold pages_of. cbn. destruct (decide (v = id)) as [->|Hne].
    + by rewrite lookup_delete_eq.
    + rewrite lookup_delete_ne by done. apply page_key0.
  - intros v c rec. unfold garbage_of. cbn. destruct (decide (v = id)) as [->|Hne].
    + by rewrite lookup_delete_eq.
    + rewrite lookup_delete_ne by done. apply gc_key0.
Qed.

(** Writing one volume's page map. *)
Lemma consistent_pages r v pages :
  consistent r -> is_Some (volumes r !! v) ->
  (forall p rec, pages !! p = Some rec -> pVolumeID rec = v /\ pPageNo rec = p) ->
  consistent (r <| extentPages := <[v := pages]> (extentPages r) |>).
Proof.
  intros [] Hv Hp. split; cbn; try done; [by apply dom_insert_in|].
  intros v' p rec. unfold pages_of. cbn. destruct (decide (v' = v)) as [->|Hne].
  - rewrite lookup_insert_eq. apply Hp.
  - rewrite lookup_insert_ne by done. apply page_key0.
Qed.

Lemma consistent_garbage r v m :
  consistent r -> is_Some (volumes r !! v) ->
  (forall c rec, m !! c = Some rec -> gcVolumeID rec = v /\ gcChunkID rec = c) ->
  consistent (r <| chunkGC := <[v := m]> (chunkGC r) |>).
Proof.
  intros [] Hv Hp. split; cbn; try done; [by apply dom_insert_in|].
  intros v' c rec. unfold garbage_of. cbn. destruct (decide (v' = v)) as [->|Hne].
  - rewrite lookup_insert_eq. apply Hp.
  - rewrite lookup_insert_ne by done. apply gc_key0.
Qed.

Lemma generated_id n i rand m id : generate_loop n i rand m = Ok id -> id <> 0 /\ m !! id = None.
Proof.
  revert i. induction n as [|n IH]; intros i; cbn [generate_loop]; [done|].
  destruct (rand i) as [raw|]; [|done]. destruct (Z.eqb_spec (wrap32 raw) 0); [apply IH|].
  destruct (m !! wrap32 raw) eqn:Hm; [apply IH|]. by intros <-%(inj Ok).
Qed.

Lemma unique_id_new rand m id :
  generateUniqueVolumeIDMemory rand m = Ok id -> id <> 0 /\ m !! id = None.
Proof. unfold generateUniqueVolumeIDMemory. apply generated_id. Qed.

Lemma consistent_exec c r : consistent r -> consistent (exec c r).
Proof.
  intros Hr. assert (forall v spec, volumes r !! v = Some spec -> vID spec = v) as Hkey
    by apply Hr.
  destruct c; try (by apply consistent_update); try (by apply consistent_delete); cbn.
  - unfold EnsureVolume. cbv zeta. destruct (volumes r !! _) as [spec|] eqn:Hv; cbn [fst].
    + by apply (consistent_volume _ _ spec).
    + by apply consistent_add.
  - unfold SyncVolumeSpec. cbv zeta. destruct (volumes r !! _) as [spec|] eqn:Hv; cbn [fst]; [|done].
    by apply (consistent_volume _ _ spec).
  - unfold CreateVolume. cbv zeta.
    repeat (match goal with |- context [if ?b then _ else _] => destruct b end; [unchanged|]).
    destruct (generateUniqueVolumeIDMemory _ _) eqn:Hg; [|unchanged..]. by apply consistent_add.
  - unfold PutVolumeStatus, with_volume. destruct (volumes r !! _) as [spec|] eqn:Hv; [|done].
    destruct Hr. split; cbn; try done. apply dom_insert_in; [done|by eexists].
  - unfold SetVolumeState, with_volume. destruct (volumes r !! _) as [spec|] eqn:Hv; [|done].
    apply (consistent_volume _ _ spec); [done..|]. cbn. by apply Hkey.
  - unfold UnsafeClearAttachment, with_volume, mark_detached.
    destruct (volumes r !! _) as [spec|] eqn:Hv; [|done].
    apply (consistent_replace _ _ spec); [done..|]. cbn. by apply Hkey.
  - unfold UnsafeSetGeneration, with_volume. destruct (volumes r !! _) as [spec|] eqn:Hv; [|done].
    destruct Hr. split; cbn; try done. apply dom_insert_in; [done|by eexists].
  - unfold Attach, with_volume. destruct (volumes r !! _) as [spec|] eqn:Hv; [|done].
    cbv zeta. destruct (String.eqb (vState spec) _); [unchanged|].
    match goal with |- context [if ?b then (r, Err _) else _] => destruct b end; [unchanged|].
    apply (consistent_replace _ _ spec); [done..|]. cbn. by apply Hkey.
  - unfold Detach, with_volume. destruct (volumes r !! _) as [spec|] eqn:Hv; [|done]. cbv zeta.
    match goal with |- context [if ?b then (r, Err _) else _] => destruct b end; [unchanged|].
    match goal with |- context [if ?b then _ else _] => destruct b end; [|unchanged].
    apply (consistent_replace _ _ spec); [done..|]. cbn. by apply Hkey.
  - destruct Hr. by split.
  - unfold PutExtentPage, with_volume. destruct (volumes r !! _) as [spec|] eqn:Hv; [|done].
    cbv zeta. change (pVolumeID (rec <| pPageBytes := _ |> <| pChunkSizeBytes := _ |>))
      with (pVolumeID rec).
    assert (consistent (r <| extentPages := <[pVolumeID rec := pages_of r (pVolumeID rec)]>
                                              (extentPages r) |>)) as Hr'.
    { apply consistent_pages; [done|by eexists|]. apply (page_key r Hr). }
    match goal with |- context [if ?b then (_, Err _) else _] => destruct b end; [exact Hr'|].
    cbn [fst]. apply consistent_pages; [done|by eexists|].
    intros p rec'. rewrite lookup_insert_Some. intros [[<- <-]|[_ H]]; [done|].
    by apply (page_key r Hr).
  - unfold AllocateChunkIDs, with_volume. destruct (volumes r !! _) as [spec|] eqn:Hv; [|done].
    destruct (_ =? 0); [done|]. destruct Hr. split; cbn; try done.
    apply dom_insert_in; [done|by eexists].
  - unfold PutChunkGarbage, with_volume. destruct (volumes r !! _) as [spec|] eqn:Hv; [|done].
    apply consistent_garbage; [done|by eexists|]. intros k rec'.
    rewrite lookup_insert_Some. intros [[<- <-]|[_ H]]; [done|]. by apply (gc_key r Hr).
  - unfold DeleteChunkGarbage, with_volume. destruct (volumes r !! _) as [spec|] eqn:Hv; [|done].
    destruct (chunkGC r !! id) as [m|] eqn:Hm; [|done].
    apply consistent_garbage; [done|by eexists|]. intros k rec'.
    rewrite lookup_delete_Some. intros [_ H]. apply (gc_key r Hr). unfold garbage_of.
    by rewrite Hm.
Qed.

Lemma consistent_new vs : consistent (NewInMemoryMetadataRepository vs).
Proof.
  unfold NewInMemoryMetadataRepository. assert (consistent empty_repo) as H.
  { split; cbn; try done. }
  revert H. generalize empty_repo. induction vs as [|v vs IH]; intros r Hr; cbn; [done|].
  apply IH. by apply consistent_add.
Qed.

Lemma consistent_exec_all cs r : consistent r -> consistent (exec_all cs r).
Proof.
  revert r. induction cs as [|c cs IH]; intros r Hr; [done|]. cbn. by apply IH, consistent_exec.
Qed.

(** ** Attachments *)

(** The calls that do not rewrite the generation of [v] by hand and do not
    delete the volume. *)
Definition ordinary (v : Z) (c : call) : Prop :=
  match c with
  | CDeleteVolume id => id <> v
  | CUnsafeSetGeneration id _ => id <> v
  | _ => True
  end.

(** An attached volume carries the identifier of its current generation. *)
Definition attachment_ok (r : Repo) (v : Z) : Prop :=
  is_Some (volumes r !! v) /\
  (aAttachmentID (attachment_of r v) = "" \/
   aAttachmentID (attachment_of r v) = FormatAttachmentID v (aGeneration (attachment_of r v))).

(** What one call may do to the attachment of a volume: keep it, or move to the
    next generation; a held attachment is given up only with its generation. *)
Definition attachment_step (a a' : AttachmentRecord) : Prop :=
  aGeneration a <= aGeneration a' <= aGeneration a + 1 /\
  (aAttachmentID a <> "" ->
   aAttachmentID a' = aAttachmentID a /\ aGeneration a' = aGeneration a \/
   aGeneration a < aGeneration a').

Lemma attachment_step_refl a : attachment_step a a.
Proof. split; [lia|]. by left. Qed.

(** A call that leaves attachments alone and keeps the volume. *)
Lemma attachment_frame r r' v :
  state r' = state r -> (is_Some (volumes r !! v) -> is_Some (volumes r' !! v)) ->
  attachment_ok r v ->
  attachment_ok r' v /\ attachment_step (attachment_of r v) (attachment_of r' v).
Proof.
  intros Hs Hv [H1 H2]. unfold attachment_ok, attachment_of in *. rewrite Hs.
  split; [by split; auto|]. apply attachment_step_refl.
Qed.

Lemma is_Some_insert {A} (m : gmap Z A) k x v : is_Some (m !! v) -> is_Some (<[k := x]> m !! v).
Proof. intros H. apply lookup_insert_is_Some'. by right. Qed.

(** A call that writes the attachment of [id] and keeps every volume. *)
Lemma attachment_write r r' v id st :
  state r' = <[id := st]> (state r) -> (is_Some (volumes r !! v) -> is_Some (volumes r' !! v)) ->
  (v = id -> (aAttachmentID st = "" \/ aAttachmentID st = FormatAttachmentID v (aGeneration st)) /\
             attachment_step (attachment_of r v) st) ->
  attachment_ok r v ->
  attachment_ok r' v /\ attachment_step (attachment_of r v) (attachment_of r' v).
Proof.
  intros Hs Hv Hst [H1 H2]. unfold attachment_ok.
  destruct (decide (v = id)) as [->|Hne].
  - assert (attachment_of r' id = st) as -> by (unfold attachment_of; by rewrite Hs, lookup_insert_eq).
    destruct (Hst eq_refl). repeat split; auto; apply H0.
  - assert (attachment_of r' v = attachment_of r v) as ->
      by (unfold attachment_of; by rewrite Hs, lookup_insert_ne).
    split; [by split; auto|]. apply attachment_step_refl.
Qed.

Definition attachment_ok_step (r r' : Repo) (v : Z) : Prop :=
  attachment_ok r' v /\ attachment_step (attachment_of r v) (attachment_of r' v).

Lemma attachment_same r v : attachment_ok r v -> attachment_ok_step r r v.
Proof. split; [done|apply attachment_step_refl]. Qed.

Ltac att_simpl :=
  cbn [set_field AttachmentRecord_settable aGeneration aHostID aAttachmentID aDeviceID
       aOwnerGatewayID aLeaseID aAttachedAtUnix fst].

Section OneCall.
Context (r : Repo) (v : Z) (Hok : attachment_ok r v).
Context (Hgen : 1 <= aGeneration (attachment_of r v) < 2 ^ 64 - 1).

Lemma attachment_clear id : attachment_ok_step r (UnsafeClearAttachment id r).1 v.
Proof.
  unfold UnsafeClearAttachment, with_volume.
  destruct (volumes r !! id); [|by apply attachment_same].
  eapply attachment_write; [reflexivity|apply is_Some_insert| |done]. intros <-. split; [by left|].
  unfold attachment_step. att_simpl. unfold or_default.
  destruct (Z.eqb_spec (aGeneration (attachment_of r v)) 0); [lia|].
  destruct (String.eqb_spec (aAttachmentID (attachment_of r v)) ""); cbn [negb].
  - split; [lia|done].
  - rewrite add64_small by (unfold in_u; lia). split; [lia|]. right. lia.
Qed.

Lemma attachment_attach now req : attachment_ok_step r (Attach now req r).1 v.
Proof.
  unfold Attach, with_volume. destruct (volumes r !! _); [|by apply attachment_same]. cbv zeta.
  destruct (String.eqb (vState _) _); [by apply attachment_same|].
  match goal with |- context [if ?b then (r, Err _) else _] => destruct b end;
    [by apply attachment_same|].
  eapply attachment_write; [reflexivity|apply is_Some_insert| |done]. intros <-.
  destruct Hok as [_ Hid]. unfold attachment_step.
  destruct (String.eqb_spec (aAttachmentID (attachment_of r v)) "") as [->|Hne]; att_simpl.
  { split; [by right|]. split; [lia|done]. }
  destruct Hid as [|Hid]; [done|].
  match goal with |- context [if ?b then _ else _] => destruct b end; att_simpl.
  - rewrite add64_small by (unfold in_u; lia). split; [by right|]. split; [lia|]. right. lia.
  - split; [by right|]. split; [lia|]. by left.
Qed.

Lemma attachment_detach req : attachment_ok_step r (Detach req r).1 v.
Proof.
  unfold Detach, with_volume. destruct (volumes r !! _); [|by apply attachment_same]. cbv zeta.
  match goal with |- context [if ?b then (r, Err _) else _] => destruct b end;
    [by apply attachment_same|].
  match goal with |- context [if ?b then _ else _] => destruct b end; [|by apply attachment_same].
  eapply attachment_write; [reflexivity|apply is_Some_insert| |done]. intros <-. split; [by left|].
  unfold attachment_step. att_simpl. rewrite add64_small by (unfold in_u; lia). split; [lia|].
  right. lia.
Qed.

Lemma attachment_ensure spec : attachment_ok_step r (EnsureVolume spec r).1 v.
Proof.
  unfold EnsureVolume. cbv zeta. rewrite normalized_id.
  destruct (volumes r !! vID spec) eqn:Hv; cbn [fst].
  - apply attachment_frame; [reflexivity|apply is_Some_insert|done].
  - apply (attachment_write _ _ _ (vID spec) fresh_attachment);
      [reflexivity|apply is_Some_insert| |done].
    intros ->. destruct Hok as [[? H] _]. congruence.
Qed.

Lemma attachment_create rand req : attachment_ok_step r (CreateVolume rand req r).1 v.
Proof.
  unfold CreateVolume. cbv zeta.
  repeat (match goal with |- context [if ?b then (r, _) else _] => destruct b end;
          [by apply attachment_same|]).
  destruct (generateUniqueVolumeIDMemory _ _) as [id| |] eqn:Hg; [|by apply attachment_same..].
  apply unique_id_new in Hg as [_ Hnew].
  apply (attachment_write _ _ _ id fresh_attachment); [reflexivity|apply is_Some_insert| |done].
  intros ->. destruct Hok as [[? H] _]. congruence.
Qed.

Lemma attachment_delete id : id <> v -> attachment_ok_step r (DeleteVolume id r).1 v.
Proof.
  intros Hne. unfold DeleteVolume. destruct (volumes r !! id); [|by apply attachment_same].
  repeat (match goal with |- context [if ?b then _ else _] => destruct b end;
          [by apply attachment_same|]).
  destruct Hok as [H1 H2]. unfold attachment_ok_step, attachment_ok, attachment_of.
  cbn [fst set_field Repo_settable volumes state]. rewrite !lookup_delete_ne by done.
  split; [by split|]. apply attachment_step_refl.
Qed.

(** The calls that never write an attachment. *)
Lemma attachment_exec c : ordinary v c -> attachment_ok_step r (exec c r) v.
Proof.
  intros Hc. destruct c; cbn [exec];
    auto using attachment_clear, attachment_attach, attachment_detach, attachment_ensure,
      attachment_create, attachment_delete.
  - unfold SyncVolumeSpec. cbv zeta. destruct (volumes r !! vID _); [|by apply attachment_same].
    apply attachment_frame; [reflexivity|apply is_Some_insert|done].
  - unfold UpdateVolume. destruct (volumes r !! id); [|by apply attachment_same].
    destruct (updated_spec _ _ _ _); [|by apply attachment_same..].
    apply attachment_frame; [reflexivity|apply is_Some_insert|done].
  - unfold PutVolumeStatus, with_volume. destruct (volumes r !! _); [|by apply attachment_same].
    by apply attachment_frame.
  - unfold SetVolumeState, with_volume. destruct (volumes r !! _); [|by apply attachment_same].
    apply attachment_frame; [reflexivity|apply is_Some_insert|done].
  - unfold UnsafeSetGeneration, with_volume. destruct (volumes r !! _); [|by apply attachment_same].
    eapply attachment_write; [reflexivity|done|by intros ->|done].
  - by apply attachment_frame.
  - unfold PutExtentPage, with_volume. destruct (volumes r !! _); [|by apply attachment_same].
    cbv zeta. match goal with |- context [if ?b then (_, Err _) else _] => destruct b end;
      by apply attachment_frame.
  - unfold AllocateChunkIDs, with_volume. destruct (volumes r !! _); [|by apply attachment_same].
    destruct (n =? 0); [by apply attachment_same|]. by apply attachment_frame.
  - unfold PutChunkGarbage, with_volume. destruct (volumes r !! _); [|by apply attachment_same].
    by apply attachment_frame.
  - unfold DeleteChunkGarbage, with_volume. destruct (volumes r !! _); [|by apply attachment_same].
    destruct (chunkGC r !! id); by apply attachment_frame.
Qed.

End OneCall.

(** Along a run of ordinary calls the generation never decreases, and an
    identifier that is not current once its generation was reached again is
    gone for good. *)
Lemma attachment_run cs r v :
  Forall (ordinary v) cs -> attachment_ok r v -> 1 <= aGeneration (attachment_of r v) ->
  aGeneration (attachment_of r v) + Z.of_nat (length cs) < 2 ^ 64 ->
  attachment_ok (exec_all cs r) v /\
  aGeneration (attachment_of r v) <= aGeneration (attachment_of (exec_all cs r) v)
    <= aGeneration (attachment_of r v) + Z.of_nat (length cs) /\
  (aAttachmentID (attachment_of r v) <> "" ->
   aAttachmentID (attachment_of (exec_all cs r) v) = aAttachmentID (attachment_of r v) /\
   aGeneration (attachment_of (exec_all cs r) v) = aGeneration (attachment_of r v) \/
   aGeneration (attachment_of r v) < aGeneration (attachment_of (exec_all cs r) v)).
Proof.
  intros Hcs. revert r. induction Hcs as [|c cs Hc Hcs IH]; intros r Hok H1 Hb.
  { cbn. split; [done|]. split; [lia|]. by left. }
  cbn [length] in *.
  destruct (attachment_exec r v Hok ltac:(lia) c Hc) as [Hok' [Hg Hkeep]].
  destruct (IH (exec c r) Hok' ltac:(lia) ltac:(lia)) as (Hok'' & Hg' & Hkeep').
  cbn [exec_all fold_left]. fold (exec_all cs (exec c r)). split; [done|]. split; [lia|].
  intros Hne. destruct (Hkeep Hne) as [[Hid Hgen]|Hgen]; [|right; lia].
  rewrite Hid in Hkeep'. destruct (Hkeep' Hne) as [[? ?]|?]; [left; split; [done|lia]|right; lia].
Qed.

Lemma exec_all_app cs ds r : exec_all (cs ++ ds) r = exec_all ds (exec_all cs r).
Proof. apply fold_left_app. Qed.

(** ** Extent pages and chunk ids *)

Definition current_revision (r : Repo) (v p : Z) : Z :=
  match pages_of r v !! p with Some rec => pRevision rec | None => 0 end.

(** The record as [PutExtentPage] stores it. *)
Definition stored_page (volume : VolumeSpec) (rec : AllocationPageRecord) (rev : Z)
  : AllocationPageRecord :=
  rec <| pPageBytes := or_default (pPageBytes rec) (vExtentPageBytes volume) |>
      <| pChunkSizeBytes := or_default (pChunkSizeBytes rec) (vChunkSizeBytes volume) |>
      <| pRevision := rev |>.

Lemma put_page_spec r rec rev volume :
  volumes r !! pVolumeID rec = Some volume ->
  let '(r', res) := PutExtentPage rec rev r in
  volumes r' = volumes r /\ nextChunkID r' = nextChunkID r /\ chunkGC r' = chunkGC r /\
  if current_revision r (pVolumeID rec) (pPageNo rec) =? rev
  then res = Ok (stored_page volume rec (add_i64 rev 1)) /\
       forall v p, pages_of r' v !! p =
         if decide (v = pVolumeID rec /\ p = pPageNo rec)
         then Some (stored_page volume rec (add_i64 rev 1)) else pages_of r v !! p
  else res = Err ErrMetadataCASConflict /\ forall v, pages_of r' v = pages_of r v.
Proof.
  intros Hv. unfold PutExtentPage, with_volume. rewrite Hv. cbv zeta.
  unfold current_revision.
  cbn [set_field AllocationPageRecord_settable pVolumeID pPageNo pPageBytes pChunkSizeBytes
       pRevision pExtents].
  set (cur := match pages_of r (pVolumeID rec) !! pPageNo rec with
              | Some current => pRevision current | None => 0 end).
  destruct (Z.eqb_spec cur rev) as [<-|Hne]; cbn [negb];
    (split; [done|]); (split; [done|]); (split; [done|]); (split; [done|]).
  - intros v p. unfold pages_of at 1. cbn [set_field Repo_settable extentPages].
    destruct (decide (v = pVolumeID rec)) as [->|Hvne].
    + rewrite lookup_insert_eq. cbn [default from_option id].
      destruct (decide (p = pPageNo rec)) as [->|Hp].
      * rewrite lookup_insert_eq. by rewrite decide_True.
      * rewrite lookup_insert_ne by done. rewrite decide_False by tauto. done.
    + rewrite decide_False by tauto. rewrite !lookup_insert_ne by done. done.
  - intros v. unfold pages_of at 1. cbn [set_field Repo_settable extentPages].
    destruct (decide (v = pVolumeID rec)) as [->|Hvne];
      [by rewrite lookup_insert_eq|by rewrite lookup_insert_ne].
Qed.

Definition next_of (r : Repo) (v : Z) : Z := or_default (default 0 (nextChunkID r !! v)) 1.

Lemma next_insert m v' n v :
  or_default (default 0 (<[v' := n]> m !! v)) 1 =
  if decide (v = v') then or_default n 1 else or_default (default 0 ((m : gmap Z Z) !! v)) 1.
Proof.
  destruct (decide (v = v')) as [->|Hne];
    [by rewrite lookup_insert_eq|by rewrite lookup_insert_ne].
Qed.

(** How one call moves the allocator of a volume that stays in place. *)
Lemma next_exec c r v :
  ordinary v c -> is_Some (volumes r !! v) -> 1 <= next_of r v ->
  next_of r v + 2 ^ 32 <= 2 ^ 64 -> (forall id n, c = CAllocateChunkIDs id n -> u32 n) ->
  is_Some (volumes (exec c r) !! v) /\ next_of r v <= next_of (exec c r) v <= next_of r v + 2 ^ 32.
Proof.
  intros Hc Hv H1 Hb Hn.
  assert (forall r', nextChunkID r' = nextChunkID r ->
    (is_Some (volumes r !! v) -> is_Some (volumes r' !! v)) ->
    is_Some (volumes r' !! v) /\ next_of r v <= next_of r' v <= next_of r v + 2 ^ 32) as Hsame.
  { intros r' Hr' Hv'. unfold next_of. rewrite Hr'. split; [auto|lia]. }
  assert (forall r' id spec, volumes r !! id = None ->
    r' = add_volume id spec r ->
    is_Some (volumes r' !! v) /\ next_of r v <= next_of r' v <= next_of r v + 2 ^ 32) as Hnew.
  { intros r' id spec Hid ->. assert (v <> id) as Hne by (intros ->; destruct Hv; congruence).
    unfold next_of. cbn [add_volume set_field Repo_settable volumes nextChunkID].
    rewrite next_insert, decide_False by done. split; [by apply is_Some_insert|lia]. }
  assert (forall k spec, is_Some (volumes r !! v) -> is_Some (<[k := spec]> (volumes r) !! v))
    as Hins by (intros; by apply is_Some_insert).
  destruct c; cbn [exec].
  - unfold EnsureVolume. cbv zeta. rewrite normalized_id.
    destruct (volumes r !! vID _) eqn:Hid; [|by eapply Hnew].
    apply Hsame; [reflexivity|apply Hins].
  - unfold SyncVolumeSpec. cbv zeta. rewrite normalized_id.
    destruct (volumes r !! vID _); apply Hsame; try done; apply Hins.
  - unfold CreateVolume. cbv zeta.
    repeat (match goal with |- context [if ?b then (r, _) else _] => destruct b end;
            [by apply Hsame|]).
    destruct (generateUniqueVolumeIDMemory _ _) as [id| |] eqn:Hg; [|by apply Hsame..].
    apply unique_id_new in Hg as [_ Hg]. by eapply Hnew.
  - unfold UpdateVolume. destruct (volumes r !! id); [|by apply Hsame].
    destruct (updated_spec _ _ _ _); apply Hsame; try done; apply Hins.
  - unfold DeleteVolume. destruct (volumes r !! id); [|by apply Hsame].
    repeat (match goal with |- context [if ?b then _ else _] => destruct b end;
            [by apply Hsame|]).
    unfold next_of. cbn [fst set_field Repo_settable volumes nextChunkID].
    cbn in Hc. rewrite !lookup_delete_ne by done. split; [done|lia].
  - unfold PutVolumeStatus, with_volume. destruct (volumes r !! sVolumeID st); by apply Hsame.
  - unfold SetVolumeState, with_volume. destruct (volumes r !! id); apply Hsame; try done; apply Hins.
  - unfold UnsafeClearAttachment, with_volume. destruct (volumes r !! id); apply Hsame; try done;
      apply Hins.
  - unfold UnsafeSetGeneration, with_volume. destruct (volumes r !! id); by apply Hsame.
  - unfold Attach, with_volume. destruct (volumes r !! arVolumeID req); [|by apply Hsame].
    cbv zeta. destruct (String.eqb (vState _) _); [by apply Hsame|].
    match goal with |- context [if ?b then (r, Err _) else _] => destruct b end;
      apply Hsame; try done; apply Hins.
  - unfold Detach, with_volume. destruct (volumes r !! drVolumeID req); [|by apply Hsame].
    cbv zeta. match goal with |- context [if ?b then (r, Err _) else _] => destruct b end;
      [by apply Hsame|].
    match goal with |- context [if ?b then _ else _] => destruct b end;
      apply Hsame; try done; apply Hins.
  - by apply Hsame.
  - unfold PutExtentPage, with_volume. destruct (volumes r !! pVolumeID rec); [|by apply Hsame].
    cbv zeta. match goal with |- context [if ?b then (_, Err _) else _] => destruct b end;
      by apply Hsame.
  - unfold AllocateChunkIDs, with_volume. destruct (volumes r !! id); [|by apply Hsame].
    destruct (Z.eqb_spec n 0); [by apply Hsame|]. specialize (Hn id n eq_refl). unfold in_u in Hn.
    change (is_Some (volumes r !! v) /\ next_of r v <=
      or_default (default 0 (<[id := add64 (next_of r id) n]> (nextChunkID r) !! v)) 1
      <= next_of r v + 2 ^ 32).
    rewrite next_insert. split; [done|]. fold (next_of r v).
    destruct (decide (v = id)) as [<-|]; [|lia]. rewrite add64_small by (unfold in_u; lia).
    unfold or_default. destruct (Z.eqb_spec (next_of r v + n) 0); lia.
  - unfold PutChunkGarbage, with_volume. destruct (volumes r !! gcVolumeID rec); by apply Hsame.
  - unfold DeleteChunkGarbage, with_volume. destruct (volumes r !! id); [|by apply Hsame].
    destruct (chunkGC r !! id); by apply Hsame.
Qed.

Definition small_allocations (c : call) : Prop :=
  match c with CAllocateChunkIDs _ n => u32 n | _ => True end.

Lemma next_run cs r v :
  Forall (ordinary v) cs -> Forall small_allocations cs -> is_Some (volumes r !! v) ->
  1 <= next_of r v -> next_of r v + 2 ^ 32 * (Z.of_nat (length cs) + 1) <= 2 ^ 64 ->
  is_Some (volumes (exec_all cs r) !! v) /\
  next_of r v <= next_of (exec_all cs r) v <= next_of r v + 2 ^ 32 * Z.of_nat (length cs).
Proof.
  intros Hcs. revert r. induction Hcs as [|c cs Hc Hcs IH]; intros r Hs Hv H1 Hb.
  { cbn. split; [done|lia]. }
  inversion_clear Hs as [|? ? Hsc Hss]. cbn [length] in *.
  destruct (next_exec c r v Hc Hv H1 ltac:(lia)) as [Hv' Hn]; [by intros id n ->|].
  destruct (IH (exec c r) Hss Hv' ltac:(lia) ltac:(lia)) as [Hv'' Hn'].
  cbn [exec_all fold_left]. fold (exec_all cs (exec c r)). split; [done|lia].
Qed.

Lemma allocate_spec r v n volume :
  volumes r !! v = Some volume -> n <> 0 -> u32 n -> next_of r v + 2 ^ 32 <= 2 ^ 64 -> 1 <= next_of r v ->
  exists r', AllocateChunkIDs v n r = (r', Ok (next_of r v)) /\ volumes r' = volumes r /\
    next_of r' v = next_of r v + n.
Proof.
  intros Hv Hn Hu Hb H1. unfold AllocateChunkIDs, with_volume. rewrite Hv.
  destruct (Z.eqb_spec n 0); [done|]. eexists. split; [reflexivity|]. split; [done|].
  change (or_default (default 0 (<[v := add64 (next_of r v) n]> (nextChunkID r) !! v)) 1
          = next_of r v + n).
  unfold in_u in Hu. rewrite next_insert, decide_True, add64_small by (done || unfold in_u; lia).
  unfold or_default. destruct (Z.eqb_spec (next_of r v + n) 0); lia.
Qed.

(** ** Claims *)

(** C34: whatever methods are called in whatever order, the maps of the
    repository stay consistent: a volume has an attachment, a status, a page
    map, an allocator and a garbage list exactly when it exists, and every
    volume, page and garbage record is stored under its own identity. *)
Theorem repository_consistent (vs : list VolumeSpec) (cs : list call) :
  consistent (exec_all cs (NewInMemoryMetadataRepository vs)).
Proof. apply consistent_exec_all, consistent_new. Qed.

(** Generations fence attachments.  Take any state in which volume [v] is
    attached under [id].  Once any run of calls (deleting the volume and
    rewriting its generation by hand excluded) has made another identifier, or
    none, current, no later run ever makes [id] current again: a writer that
    lost its attachment cannot get it back by waiting. *)
Theorem stale_attachment_never_revived (r : Repo) (v : Z) (cs ds : list call) :
  attachment_ok r v -> Forall (ordinary v) (cs ++ ds) ->
  1 <= aGeneration (attachment_of r v) ->
  aGeneration (attachment_of r v) + Z.of_nat (length (cs ++ ds)) < 2 ^ 64 ->
  aAttachmentID (attachment_of r v) <> "" ->
  aAttachmentID (attachment_of (exec_all cs r) v) <> aAttachmentID (attachment_of r v) ->
  aAttachmentID (attachment_of (exec_all ds (exec_all cs r)) v) <> aAttachmentID (attachment_of r v).
Proof.
  intros Hok Hall H1 Hb Hid Hlost. rewrite length_app in Hb.
  apply Forall_app in Hall as [Hcs Hds].
  destruct (attachment_run cs r v Hcs Hok H1 ltac:(lia)) as (Hok1 & Hg1 & Hk1).
  destruct (Hk1 Hid) as [[? _]|Hlt]; [done|].
  destruct (attachment_run ds _ v Hds Hok1 ltac:(lia) ltac:(lia)) as (Hok2 & Hg2 & _).
  destruct Hok as [_ [Hnone | ->]]; [done|]. destruct Hok2 as [_ [-> | ->]].
  - symmetry. apply FormatAttachmentID_nonempty.
  - intros Heq. apply FormatAttachmentID_inj in Heq; unfold in_u; lia.
Qed.

Definition demo_volume : VolumeSpec :=
  zero_VolumeSpec <| vID := 7 |> <| vPrefix := "vol-00000007" |> <| vSizeBytes := 2 ^ 20 |>.
Definition demo_attach (host gw : string) : AttachRequest := mkAttachRequest 7 host 1 gw.
Definition demo_repo : Repo :=
  exec_all [CAttach 100 (demo_attach "host-a" "gw-1")]
           (NewInMemoryMetadataRepository [demo_volume]).

Lemma demo_ok : attachment_ok demo_repo 7.
Proof.
  split; [exists (default zero_VolumeSpec (volumes demo_repo !! 7))|right];
    vm_compute; reflexivity.
Qed.

Lemma stale_attachment_never_revived_witness :
  aAttachmentID (attachment_of
    (exec_all [CAttach 300 (demo_attach "host-a" "gw-1")]
       (exec_all [CAttach 200 (demo_attach "host-a" "gw-2")] demo_repo)) 7)
  <> aAttachmentID (attachment_of demo_repo 7).
Proof.
  apply stale_attachment_never_revived; try (vm_compute; intros; discriminate).
  - exact demo_ok.
  - repeat constructor.
  - vm_compute. reflexivity.
Defined.

(** Extent pages are updated by compare-and-swap.  [PutExtentPage] succeeds
    exactly when the caller's expected revision is the current one; it then
    stores the caller's page under the next revision and touches no other page.
    Otherwise it reports the conflict and no page changes, so of two writers
    that read the same revision the second one fails. *)
Theorem extent_page_cas (r : Repo) (rec rec' : AllocationPageRecord) (rev : Z) (volume : VolumeSpec) :
  volumes r !! pVolumeID rec = Some volume ->
  pVolumeID rec' = pVolumeID rec -> pPageNo rec' = pPageNo rec -> 0 <= rev < 2 ^ 63 - 1 ->
  let '(r', res) := PutExtentPage rec rev r in
  if current_revision r (pVolumeID rec) (pPageNo rec) =? rev
  then res = Ok (stored_page volume rec (rev + 1)) /\
       (forall v p, pages_of r' v !! p =
          if decide (v = pVolumeID rec /\ p = pPageNo rec)
          then Some (stored_page volume rec (rev + 1)) else pages_of r v !! p) /\
       (PutExtentPage rec' rev r').2 = Err ErrMetadataCASConflict
  else res = Err ErrMetadataCASConflict /\ forall v, pages_of r' v = pages_of r v.
Proof.
  intros Hv Hv' Hp' Hrev. pose proof (put_page_spec r rec rev volume Hv) as Hspec.
  destruct (PutExtentPage rec rev r) as [r' res]. destruct Hspec as (Hvols & _ & _ & Hspec).
  destruct (_ =? rev); [|done]. rewrite add_i64_small in Hspec by lia.
  destruct Hspec as [Hres Hpages]. split; [done|]. split; [done|].
  pose proof (put_page_spec r' rec' rev volume) as Hspec'. rewrite Hvols, Hv' in Hspec'.
  specialize (Hspec' Hv). destruct (PutExtentPage rec' rev r') as [r'' res'].
  destruct Hspec' as (_ & _ & _ & Hspec').
  unfold current_revision in Hspec'. rewrite Hpages, Hp', decide_True in Hspec' by done.
  cbn [stored_page set_field AllocationPageRecord_settable pRevision] in Hspec'.
  destruct (Z.eqb_spec (rev + 1) rev); [lia|]. apply Hspec'.
Qed.

Definition demo_page : AllocationPageRecord := mkAllocationPageRecord 7 0 0 0 0 [].

Lemma extent_page_cas_witness :
  let '(r', _) := PutExtentPage demo_page 0 demo_repo in
  (PutExtentPage demo_page 0 r').2 = Err ErrMetadataCASConflict.
Proof.
  assert (volumes demo_repo !! 7 =
          Some (NormalizeVolumeSpec demo_volume <| vState := VolumeStateInUse |>)) as Hv
    by (vm_compute; reflexivity).
  pose proof (extent_page_cas demo_repo demo_page demo_page 0 _ Hv eq_refl eq_refl ltac:(lia)) as H.
  destruct (PutExtentPage demo_page 0 demo_repo) as [r' res].
  apply H.
Defined.

(** Chunk ids are handed out once.  Two successful allocations for a volume,
    with any calls in between that do not delete it, return disjoint ranges,
    the later one above the earlier one. *)
Theorem chunk_ids_disjoint (r r1 r2 : Repo) (v n m a b : Z) (cs : list call) :
  consistent r -> 1 <= next_of r v -> u32 n -> u32 m -> n <> 0 -> m <> 0 ->
  Forall (ordinary v) cs -> Forall small_allocations cs ->
  next_of r v + 2 ^ 32 * (Z.of_nat (length cs) + 3) <= 2 ^ 64 ->
  AllocateChunkIDs v n r = (r1, Ok a) ->
  AllocateChunkIDs v m (exec_all cs r1) = (r2, Ok b) ->
  1 <= a /\ a + n <= b.
Proof.
  intros Hr H1 Hn Hm Hn0 Hm0 Hcs Hsm Hb HA HB.
  destruct (volumes r !! v) as [vol|] eqn:Hv.
  2:{ unfold AllocateChunkIDs, with_volume in HA. by rewrite Hv in HA. }
  destruct (allocate_spec r v n vol Hv Hn0 Hn ltac:(lia) H1) as (r1' & HA' & Hvols & Hnext).
  rewrite HA in HA'. injection HA' as <- ->.
  destruct (next_run cs r1 v Hcs Hsm) as [[vol' Hv'] Hrun];
    [rewrite Hvols, Hv; by eexists|unfold in_u in *; lia..|].
  destruct (allocate_spec (exec_all cs r1) v m vol' Hv' Hm0 Hm) as (? & HB' & _);
    [unfold in_u in *; lia..|].
  rewrite HB in HB'. injection HB' as _ ->. lia.
Qed.

Lemma chunk_ids_disjoint_witness :
  exists a b, (AllocateChunkIDs 7 3 demo_repo).2 = Ok a /\
    (AllocateChunkIDs 7 2 (AllocateChunkIDs 7 3 demo_repo).1).2 = Ok b /\ 1 <= a /\ a + 3 <= b.
Proof.
  exists 1, 4. split; [by vm_compute|]. split; [by vm_compute|].
  refine (chunk_ids_disjoint demo_repo (AllocateChunkIDs 7 3 demo_repo).1
    (AllocateChunkIDs 7 2 (AllocateChunkIDs 7 3 demo_repo).1).1 7 3 2 1 4 []
    _ _ _ _ _ _ _ _ _ _ _).
  - exact (consistent_exec_all _ _ (consistent_new _)).
  - vm_compute. intros. discriminate.
  - concrete_bounds.
  - concrete_bounds.
  - discriminate.
  - discriminate.
  - constructor.
  - constructor.
  - vm_compute. intros. discriminate.
  - vm_compute. reflexivity.
  - vm_compute. reflexivity.
Defined.

End MemMetaFacts.
