(* ===== verification/ObjectStore.v ===== *)
(** * Object keys and the in-memory object store

    Models src/gateway/store/store.go (the store interface and its key
    formats), src/gateway/store/memory.go (the map-backed store) and the key
    function of src/gateway/service/chunk_payload.go. *)

From Stdlib Require Import ZArith Lia Ascii String Sorting.Sorted.
From stdpp Require Import base list gmap strings sorting.
From S2P Require Import Prelude GoStrings VolumeId GatewayTypes.
Open Scope string_scope.
Open Scope Z_scope.

Module Store.
Import Gateway.

(** ** store.go *)

Definition BlockSize : Z := 4096.

Record Volume := mkVolume { ID : Z; Prefix : string; SizeBytes : Z }.

(** The digit loop of [lowerHex8]: low digit first, filling from the right. *)
Fixpoint lower_hex_loop (n : nat) (v : Z) (acc : chars) : chars :=
  match n with
  | O => acc
  | S n => lower_hex_loop n (Z.shiftr v 4) (hex_digit (Z.land v 0xF) :: acc)
  end.
Definition lowerHex8 (v : Z) : string := string_of_list_ascii (lower_hex_loop 8 v []).

Definition formatUint (v : Z) : string :=
  if v =? 0 then "0" else string_of_list_ascii (dec_loop 20 v []).

Definition BuildBlockKey (prefix : string) (blockNo : Z) : string :=
  prefix ++ ";" ++ lowerHex8 blockNo.

Definition BuildChunkKey (prefix : string) (chunkID : Z) : string :=
  prefix ++ ":chk:" ++ formatUint chunkID.

(** [store.ObjectStore]: the operations the gateway needs of a store that lives
    in the world [S].  A returned [None] is [found == false]. *)
Class ObjectStore (S : Type) := {
  store_get : string -> act S svc_error (option bytes);
  store_put : string -> bytes -> act S svc_error unit;
  store_delete : string -> act S svc_error unit }.

(** ** memory.go *)

Record MemoryStore := mkMemoryStore { data : gmap string bytes }.

Definition NewMemoryStore : MemoryStore := mkMemoryStore ∅.

Definition Get (key : string) : act MemoryStore svc_error (option bytes) :=
  fun m => (m, Ok (data m !! key)).
Definition Set_ (key : string) (value : bytes) : act MemoryStore svc_error unit :=
  fun m => (mkMemoryStore (<[key := value]> (data m)), Ok tt).
Definition Put (key : string) (value : bytes) : act MemoryStore svc_error unit := Set_ key value.
Definition Delete (key : string) : act MemoryStore svc_error unit :=
  fun m => (mkMemoryStore (delete key (data m)), Ok tt).

#[export] Instance memory_store : ObjectStore MemoryStore :=
  { store_get := Get; store_put := Put; store_delete := Delete }.

Definition string_lt (a b : string) : bool := String.ltb a b.
(** [sort.Strings] of the keys that have the prefix. *)
Definition matching_keys (prefix : string) (m : MemoryStore) : list string :=
  merge_sort String.le (filter (fun k => String.prefix prefix k = true) (map_to_list (data m)).*1).

(** The index of the first key above the cursor; [0] on an empty list, the
    length when no key is above it. *)
Fixpoint cursor_index (cursor : string) (keys : list string) : nat :=
  match keys with
  | [] => 0
  | k :: keys => if string_lt cursor k then 0 else S (cursor_index cursor keys)
  end.

Definition List (prefix cursor : string) (limit : Z) (m : MemoryStore) : list string * string :=
  let keys := matching_keys prefix m in
  let start := if String.eqb cursor "" then O else cursor_index cursor keys in
  if (limit <=? 0) || (zlen keys <=? Z.of_nat start + limit) then (drop start keys, "") else
  (take (Z.to_nat limit) (drop start keys),
   default "" (keys !! Nat.pred (start + Z.to_nat limit))).

(** ** chunk_payload.go: the key of a physical chunk *)

Definition buildPhysicalChunkKey (prefix : string) (ref : PhysicalChunkRef) : string :=
  if String.eqb (rStoreID ref) "" && (rShardID ref =? 0)
  then BuildChunkKey prefix (rChunkID ref)
  else prefix ++ ":store:" ++ rStoreID ref ++ ":shard:" ++ FormatUint (rShardID ref) ++
       ":chk:" ++ FormatUint (rChunkID ref).

End Store.
