(* ===== verification/ObjectStoreFacts.v ===== *)
(** * Object keys and the in-memory object store: theorems

    Distinct chunks of distinct volumes never share an object key, and paging
    through the store visits every key once. *)

From Stdlib Require Import ZArith Lia Ascii String Sorting.Sorted.
From stdpp Require Import base list gmap strings sorting.
From S2P Require Import Prelude GoStrings VolumeId GatewayTypes ObjectStore.
Open Scope string_scope.
Open Scope Z_scope.

Module StoreFacts.
Import Gateway Store.

(** ** Keys *)

Abbreviation lc := list_ascii_of_string.
Abbreviation colon := (":"%char).

Lemma split_last {A} (x : A) (l1 l2 d1 d2 : list A) :
  (l1 ++ x :: d1 = l2 ++ x :: d2)%list -> x ∉ d1 -> x ∉ d2 -> l1 = l2 /\ d1 = d2.
Proof.
  revert l2. induction l1 as [|a l1 IH]; intros [|b l2] H H1 H2; cbn in *.
  - by injection H.
  - injection H as -> Hd. rewrite Hd, not_elem_of_app, not_elem_of_cons in H1. tauto.
  - injection H as -> Hd. rewrite <-Hd, not_elem_of_app, not_elem_of_cons in H2. tauto.
  - injection H as -> H. by destruct (IH l2 H H1 H2) as [-> ->].
Qed.

Lemma colon_not_digit d : Forall is_dec d -> colon ∉ d.
Proof.
  intros H Hin. rewrite Forall_forall in H. specialize (H _ Hin).
  unfold is_dec in H. change (code colon) with 58 in H. lia.
Qed.

Lemma lc_FormatUint v : lc (FormatUint v) = dec_chars v.
Proof. unfold FormatUint. apply list_ascii_of_string_of_list_ascii. Qed.

Lemma formatUint_eq v : formatUint v = FormatUint v.
Proof. unfold formatUint, FormatUint, dec_chars. by destruct (v =? 0). Qed.

(** Everything of a key before its [":chk:"]. *)
Definition key_head (prefix : string) (ref : PhysicalChunkRef) : chars :=
  if String.eqb (rStoreID ref) "" && (rShardID ref =? 0) then lc prefix
  else (lc prefix ++ lc ":store" ++ colon :: lc (rStoreID ref) ++ lc ":shard" ++
        colon :: dec_chars (rShardID ref))%list.

Lemma key_shape prefix ref :
  lc (buildPhysicalChunkKey prefix ref) =
  ((key_head prefix ref ++ lc ":chk") ++ colon :: dec_chars (rChunkID ref))%list.
Proof.
  unfold buildPhysicalChunkKey, key_head, BuildChunkKey. rewrite formatUint_eq.
  destruct (_ && _); rewrite !chars_app, !lc_FormatUint, <-!app_assoc; cbn;
    rewrite <-?app_assoc; done.
Qed.

Definition ref_ok (ref : PhysicalChunkRef) : Prop := u32 (rShardID ref) /\ u64 (rChunkID ref).

Lemma u32_u64 z : u32 z -> u64 z.
Proof. unfold in_u. lia. Qed.

Lemma key_parts p1 p2 r1 r2 :
  ref_ok r1 -> ref_ok r2 -> buildPhysicalChunkKey p1 r1 = buildPhysicalChunkKey p2 r2 ->
  rChunkID r1 = rChunkID r2 /\ key_head p1 r1 = key_head p2 r2.
Proof.
  intros [_ H1] [_ H2] H. apply (f_equal lc) in H. rewrite !key_shape in H.
  apply split_last in H as [Hh Hd];
    [|apply colon_not_digit, dec_chars_digits; unfold in_u in *; lia..].
  split; [|by apply app_inv_tail in Hh].
  by rewrite <-(dec_value_chars _ H1), <-(dec_value_chars _ H2), Hd.
Qed.

Lemma head_cases prefix ref :
  (rStoreID ref = "" /\ rShardID ref = 0 /\ key_head prefix ref = lc prefix) \/
  key_head prefix ref = ((lc prefix ++ lc ":store" ++ colon :: lc (rStoreID ref) ++ lc ":shard") ++
                          colon :: dec_chars (rShardID ref))%list.
Proof.
  unfold key_head. destruct (String.eqb_spec (rStoreID ref) ""), (Z.eqb_spec (rShardID ref) 0);
    cbn [andb]; [by left|right..]; rewrite <-!app_assoc; cbn; by rewrite <-?app_assoc.
Qed.

Lemma shard_parts x1 x2 s1 s2 :
  u32 s1 -> u32 s2 ->
  (x1 ++ colon :: dec_chars s1 = x2 ++ colon :: dec_chars s2)%list -> s1 = s2 /\ x1 = x2.
Proof.
  intros H1 H2 H. apply split_last in H as [Hx Hs];
    [|apply colon_not_digit, dec_chars_digits; unfold in_u in *; lia..].
  split; [|done]. rewrite <-(dec_value_chars s1), <-(dec_value_chars s2), Hs; auto using u32_u64.
Qed.

(** Within one volume the key determines the chunk. *)
Lemma chunk_key_inj prefix r1 r2 :
  ref_ok r1 -> ref_ok r2 -> buildPhysicalChunkKey prefix r1 = buildPhysicalChunkKey prefix r2 ->
  r1 = r2.
Proof.
  intros H1 H2 H. apply key_parts in H as [Hc Hh]; [|done..].
  destruct r1 as [s1 d1 c1], r2 as [s2 d2 c2], H1 as [H1 _], H2 as [H2 _]. cbn in *. subst c2.
  destruct (head_cases prefix (mkPhysicalChunkRef s1 d1 c1)) as [(? & ? & E1)|E1],
    (head_cases prefix (mkPhysicalChunkRef s2 d2 c1)) as [(? & ? & E2)|E2]; cbn in *;
    rewrite E1, E2 in Hh.
  - by subst.
  - apply (f_equal length) in Hh. rewrite !length_app in Hh. cbn in Hh. lia.
  - apply (f_equal length) in Hh. rewrite !length_app in Hh. cbn in Hh. lia.
  - apply shard_parts in Hh as [-> Hx]; [|done..]. apply app_inv_head in Hx. cbn in Hx.
    injection Hx as Hx. apply app_inv_tail, string_chars_inj in Hx. by subst.
Qed.

(** The prefixes the gateway builds: a name, a dash and the volume id. *)
Definition volume_prefix (prefix : string) (v : Z) : Prop :=
  exists name, prefix = name ++ "-" ++ CanonicalVolumeID v.

(** A volume prefix never ends like the shard part of a key. *)
Lemma prefix_not_shard prefix v x s :
  volume_prefix prefix v -> u32 s -> lc prefix <> (x ++ colon :: dec_chars s)%list.
Proof.
  intros [name ->] Hs H. unfold CanonicalVolumeID in H. rewrite !chars_app in H.
  pose proof (VolumeId.length_format v) as Hlen. set (h := lc (VolumeId.Format v)) in *.
  assert (Forall lower_hex h) as Hhex.
  { unfold h, VolumeId.Format. rewrite list_ascii_of_string_of_list_ascii.
    apply VolumeId.format_digits. }
  clearbody h.
  assert (Forall is_dec (dec_chars s)) as Hdec by (apply dec_chars_digits; unfold in_u in Hs; lia).
  apply (f_equal reverse) in H. rewrite !reverse_app, !reverse_cons in H.
  change (lc "-") with ["-"%char] in H. rewrite reverse_singleton, <-!app_assoc in H. cbn [app] in H.
  apply Forall_reverse in Hhex, Hdec. rewrite <-length_reverse in Hlen.
  revert H Hhex Hdec Hlen. generalize (reverse h) (reverse (dec_chars s)) (reverse (lc name))
    (reverse x). clear. intros h d n x. revert d. generalize 8%nat as k.
  induction h as [|c h IH]; intros k d H Hhex Hdec Hlen.
  - destruct d as [|e d]; cbn [app] in H; [done|]. injection H as <- _.
    inversion_clear Hdec as [|? ? He _]. unfold is_dec in He. change (code "-") with 45 in He. lia.
  - inversion_clear Hhex as [|? ? Hc Hh]. destruct d as [|e d]; cbn [app] in H.
    + injection H as -> _. apply lower_hex_code in Hc. change (code colon) with 58 in Hc. lia.
    + injection H as _ H. inversion_clear Hdec. destruct k; [done|]. injection Hlen as Hlen. eauto.
Qed.

Lemma prefix_id p1 p2 v1 v2 :
  volume_prefix p1 v1 -> volume_prefix p2 v2 -> u32 v1 -> u32 v2 -> p1 = p2 -> v1 = v2.
Proof.
  intros [n1 ->] [n2 ->] H1 H2 H. apply (f_equal lc) in H.
  unfold CanonicalVolumeID in H. rewrite !chars_app in H. rewrite !app_assoc in H.
  apply app_inj_2 in H as [_ H]; [|by rewrite !VolumeId.length_format].
  by apply string_chars_inj, VolumeId.Format_inj in H.
Qed.

(** Object keys never collide.  For volumes whose key prefix ends, as the
    gateway builds it, in a dash and the canonical volume id, and for store
    names without a colon, the key of a physical chunk determines the volume
    and the chunk: distinct chunks live in distinct objects, also across
    volumes. *)
Theorem chunk_keys_never_collide (p1 p2 : string) (v1 v2 : Z) (r1 r2 : PhysicalChunkRef) :
  volume_prefix p1 v1 -> volume_prefix p2 v2 -> u32 v1 -> u32 v2 -> ref_ok r1 -> ref_ok r2 ->
  colon ∉ lc (rStoreID r1) -> colon ∉ lc (rStoreID r2) ->
  buildPhysicalChunkKey p1 r1 = buildPhysicalChunkKey p2 r2 -> v1 = v2 /\ p1 = p2 /\ r1 = r2.
Proof.
  intros Hp1 Hp2 Hv1 Hv2 H1 H2 Hc1 Hc2 H.
  assert (p1 = p2) as ->.
  { apply key_parts in H as [_ Hh]; [|done..]. destruct H1 as [H1 _], H2 as [H2 _].
    destruct (head_cases p1 r1) as [(_ & _ & E1)|E1], (head_cases p2 r2) as [(_ & _ & E2)|E2];
      rewrite E1, E2 in Hh.
    - by apply string_chars_inj.
    - by apply (prefix_not_shard p1 v1) in Hh.
    - symmetry in Hh. by apply (prefix_not_shard p2 v2) in Hh.
    - apply shard_parts in Hh as [_ Hx]; [|done..]. rewrite !app_comm_cons, !app_assoc in Hx.
      apply app_inv_tail in Hx. apply split_last in Hx as [Hx _]; [|done..]. by apply app_inv_tail, string_chars_inj in Hx. }
  split; [by apply (prefix_id p2 p2)|]. split; [done|]. by apply (chunk_key_inj p2).
Qed.

Definition demo_ref (store : string) (shard chunk : Z) : PhysicalChunkRef :=
  mkPhysicalChunkRef store shard chunk.

Lemma chunk_keys_never_collide_witness :
  buildPhysicalChunkKey "db-0000002a" (demo_ref "ssd" 3 9) <>
  buildPhysicalChunkKey "db-0000002a" (demo_ref "" 0 9).
Proof.
  intros H.
  assert (volume_prefix "db-0000002a" 42) as Hp by (exists "db"; vm_compute; reflexivity).
  destruct (chunk_keys_never_collide "db-0000002a" "db-0000002a" 42 42
    (demo_ref "ssd" 3 9) (demo_ref "" 0 9)) as (_ & _ & Hr); try done; try concrete_bounds.
Defined.

(** ** Listing *)

Lemma ltb_leb a b : string_lt a b = negb (String.leb b a).
Proof.
  unfold string_lt, String.ltb, String.leb. rewrite String.compare_antisym.
  by destruct (String.compare b a).
Qed.

Lemma matching_keys_sorted prefix m : StronglySorted String.le (matching_keys prefix m).
Proof. apply StronglySorted_merge_sort; apply _. Qed.

Lemma matching_keys_spec prefix m k :
  k ∈ matching_keys prefix m <-> String.prefix prefix k = true /\ is_Some (data m !! k).
Proof.
  unfold matching_keys. rewrite (merge_sort_Permutation String.le), list_elem_of_filter.
  rewrite list_elem_of_fmap. split; intros [Hp H]; (split; [done|]).
  - destruct H as ([k' v] & -> & H%elem_of_map_to_list). by eexists.
  - destruct H as [v H]. exists (k, v). split; [done|]. by apply elem_of_map_to_list.
Qed.

Lemma matching_keys_nodup prefix m : NoDup (matching_keys prefix m).
Proof.
  unfold matching_keys. rewrite (merge_sort_Permutation String.le). apply NoDup_filter.
  apply NoDup_fst_map_to_list.
Qed.

(** In a sorted list without duplicates the cursor search lands just after the
    cursor. *)
Lemma cursor_index_after ks1 c ks2 :
  StronglySorted String.le (ks1 ++ c :: ks2)%list -> NoDup (ks1 ++ c :: ks2)%list ->
  cursor_index c (ks1 ++ c :: ks2)%list = S (length ks1).
Proof.
  induction ks1 as [|k ks1 IH]; cbn; intros Hs Hnd.
  - rewrite ltb_leb. assert (String.leb c c = true) as -> by (by destruct (String.leb_total c c)).
    cbn. f_equal. inversion_clear Hs as [|? ? _ Hall]. apply NoDup_cons in Hnd as [Hc _].
    destruct ks2 as [|k ks2]; [done|]. cbn. rewrite ltb_leb.
    destruct (String.leb k c) eqn:Hle; [|done]. exfalso. apply Hc.
    inversion_clear Hall as [|? ? Hck _]. apply Is_true_true in Hck.
    rewrite (String.leb_antisym _ _ Hck Hle). left.
  - inversion_clear Hs as [|? ? Hs' Hall]. apply NoDup_cons in Hnd as [Hk Hnd].
    rewrite ltb_leb. assert (String.leb k c = true) as ->.
    { rewrite Forall_forall in Hall. apply Is_true_true, (Hall c). set_solver. }
    cbn. f_equal. by apply IH.
Qed.

(** Follow [nextCursor] until it is empty. *)
Fixpoint list_pages (fuel : nat) (prefix cursor : string) (limit : Z) (m : MemoryStore)
  : option (list string) :=
  match fuel with
  | O => None
  | S fuel =>
      let '(keys, next) := List prefix cursor limit m in
      if String.eqb next "" then Some keys else
      rest ← list_pages fuel prefix next limit m; Some (keys ++ rest)%list
  end.

Lemma list_pages_suffix fuel prefix limit m ks1 ks2 cursor :
  0 < limit -> "" ∉ matching_keys prefix m ->
  matching_keys prefix m = (ks1 ++ ks2)%list ->
  (cursor = "" /\ ks1 = [] \/ exists ks0, ks1 = (ks0 ++ [cursor])%list) ->
  (length ks2 < fuel)%nat ->
  list_pages fuel prefix cursor limit m = Some ks2.
Proof.
  intros Hlim Hne. revert ks1 ks2 cursor.
  induction fuel as [|fuel IH]; intros ks1 ks2 cursor Heq Hcur Hfuel; [lia|]. cbn.
  assert ((if String.eqb cursor "" then O else cursor_index cursor (matching_keys prefix m))
          = length ks1) as Hstart.
  { destruct Hcur as [[-> ->]|[ks0 ->]]; [done|].
    pose proof (matching_keys_sorted prefix m) as Hs. pose proof (matching_keys_nodup prefix m) as Hd.
    rewrite Heq, <-app_assoc in *. cbn in *.
    destruct (String.eqb_spec cursor "") as [->|]; [set_solver|].
    rewrite cursor_index_after by done. rewrite length_app. cbn. lia. }
  unfold List. rewrite Hstart, Heq, drop_app_length.
  unfold zlen. rewrite length_app.
  destruct (Z.leb_spec limit 0); [lia|]. cbn [orb].
  destruct (Z.leb_spec (Z.of_nat (length ks1 + length ks2)) (Z.of_nat (length ks1) + limit));
    [done|].
  set (n := Z.to_nat limit). assert (0 < n < length ks2)%nat as Hn by lia.
  destruct (lookup_lt_is_Some_2 ks2 (Nat.pred n)) as [c Hc]; [lia|].
  assert ((ks1 ++ ks2)%list !! Nat.pred (length ks1 + n) = Some c) as ->.
  { rewrite lookup_app_r by lia. rewrite <-Hc. f_equal. lia. }
  cbn [default from_option id]. assert (take n ks2 = (take (Nat.pred n) ks2 ++ [c])%list) as Htake.
  { replace n with (S (Nat.pred n)) at 1 by lia. by apply take_S_r. }
  destruct (String.eqb_spec c "") as [->|].
  { exfalso. apply Hne. rewrite Heq. apply elem_of_app. right. by eapply list_elem_of_lookup_2. }
  erewrite (IH (ks1 ++ take n ks2)%list (drop n ks2)); cbn.
  - by rewrite take_drop.
  - by rewrite <-app_assoc, take_drop.
  - right. exists (ks1 ++ take (Nat.pred n) ks2)%list. by rewrite Htake, app_assoc.
  - rewrite length_drop. lia.
Qed.

(** Paging through the store is complete.  Following the cursor from the
    start, with any positive page size, ends after at most one page per key and
    returns every key that has the prefix exactly once, in order, and nothing
    else. *)
Theorem listing_complete (prefix : string) (limit : Z) (m : MemoryStore) :
  0 < limit -> data m !! "" = None ->
  exists keys, list_pages (S (length (matching_keys prefix m))) prefix "" limit m = Some keys /\
    StronglySorted String.le keys /\ NoDup keys /\
    forall k, k ∈ keys <-> String.prefix prefix k = true /\ is_Some (data m !! k).
Proof.
  intros Hlim Hempty. exists (matching_keys prefix m). split.
  - apply (list_pages_suffix _ _ _ _ []); [done| |done|by left|lia].
    rewrite matching_keys_spec, Hempty. by intros [_ [? ?]].
  - auto using matching_keys_sorted, matching_keys_nodup, matching_keys_spec.
Qed.

Definition demo_store : MemoryStore :=
  mkMemoryStore (list_to_map [("a:chk:1", []); ("a:chk:2", []); ("b:chk:1", []); ("a:chk:3", [])]).

Lemma listing_complete_witness :
  exists keys, list_pages (S (length (matching_keys "a:" demo_store))) "a:" "" 2 demo_store = Some keys /\
    StronglySorted String.le keys /\ NoDup keys /\
    forall k, k ∈ keys <-> String.prefix "a:" k = true /\ is_Some (data demo_store !! k).
Proof. apply listing_complete; [lia|vm_compute; reflexivity]. Defined.

End StoreFacts.
