(* ===== verification/ChunkMap.v ===== *)
(** * Extent records and per-chunk mappings

    Models the pure part of src/gateway/service/chunk_extent_data.go: looking a
    logical chunk up in the extent records of a page, expanding a page into one
    mapping per chunk, and compressing the mappings back into extent records.
    The theorems show that the two directions agree: a compressed page answers
    every lookup, and expands to, exactly the mappings it was built from. *)

From Stdlib Require Import ZArith Lia Ascii String.
From stdpp Require Import base list gmap strings.
From S2P Require Import Prelude GoStrings GatewayTypes.
Open Scope string_scope.
Open Scope Z_scope.

Module ChunkMap.
Import Gateway.

Record allocationChunkMapping := mkMapping {
  mRef : PhysicalChunkRef;
  mPayloadEncryption : option ChunkPayloadEncryptionHeader }.

Definition zero_mapping : allocationChunkMapping := mkMapping zero_PhysicalChunkRef None.

Definition chunkRef (r : AllocationChunkRecord) (logicalChunk : Z) : PhysicalChunkRef :=
  if logicalChunk <? eLogicalChunkStart r then zero_PhysicalChunkRef else
  let offset := sub64 logicalChunk (eLogicalChunkStart r) in
  if (eChunkCount r <=? offset) || (ePhysicalChunkStart r =? 0) then zero_PhysicalChunkRef else
  mkPhysicalChunkRef (eStoreID r) (eShardID r) (add64 (ePhysicalChunkStart r) offset).

Fixpoint findAllocationChunk (extents : list AllocationChunkRecord) (logicalChunk : Z)
  : option AllocationChunkRecord :=
  match extents with
  | [] => None
  | extent :: extents =>
      let start := eLogicalChunkStart extent in
      let end_ := add64 start (eChunkCount extent) in
      if (start <=? logicalChunk) && (logicalChunk <? end_) then Some extent
      else findAllocationChunk extents logicalChunk
  end.

(** The inner loop of [buildAllocationChunkMappings]: chunk [i] of the extent,
    with [n] chunks to go. *)
Fixpoint fill_extent (n : nat) (i : Z) (extent : AllocationChunkRecord)
    (pageStartChunk pageChunkCount : Z) (mappings : list allocationChunkMapping)
  : list allocationChunkMapping :=
  match n with
  | O => mappings
  | S n =>
      let logicalChunk := add64 (eLogicalChunkStart extent) i in
      if logicalChunk <? pageStartChunk
      then fill_extent n (i + 1) extent pageStartChunk pageChunkCount mappings else
      let pageIndex := sub64 logicalChunk pageStartChunk in
      if pageChunkCount <=? pageIndex then mappings else
      fill_extent n (i + 1) extent pageStartChunk pageChunkCount
        (<[Z.to_nat pageIndex := mkMapping (chunkRef extent logicalChunk)
                                           (ePayloadEncryption extent)]> mappings)
  end.

Definition buildAllocationChunkMappings (page : AllocationPageRecord)
    (pageStartChunk pageChunkCount : Z) : list allocationChunkMapping :=
  fold_left (fun ms extent =>
      if negb (String.eqb (eKind extent) AllocationChunkKindData) then ms
      else fill_extent (Z.to_nat (eChunkCount extent)) 0 extent pageStartChunk pageChunkCount ms)
    (pExtents page) (replicate (Z.to_nat pageChunkCount) zero_mapping).

Definition kindForChunkMapping (m : allocationChunkMapping) : AllocationChunkKind :=
  if rChunkID (mRef m) =? 0 then AllocationChunkKindZero else AllocationChunkKindData.

Definition samePhysicalLocation (a b : allocationChunkMapping) : bool :=
  String.eqb (rStoreID (mRef a)) (rStoreID (mRef b)) && (rShardID (mRef a) =? rShardID (mRef b)).

(** The [flush] closure: the extent of the run that starts at index
    [currentStart] with mapping [currentRef] and ends before [end_]. *)
Definition flush (pageStartChunk : Z) (currentStart end_ : Z) (currentKind : AllocationChunkKind)
    (currentRef : allocationChunkMapping) : AllocationChunkRecord :=
  let extent := zero_AllocationChunkRecord
    <| eLogicalChunkStart := add64 pageStartChunk currentStart |>
    <| eChunkCount := wrap32 (end_ - currentStart) |> <| eKind := currentKind |> in
  if String.eqb currentKind AllocationChunkKindData
  then extent <| eStoreID := rStoreID (mRef currentRef) |>
              <| eShardID := rShardID (mRef currentRef) |>
              <| ePhysicalChunkStart := rChunkID (mRef currentRef) |>
              <| ePayloadEncryption := mPayloadEncryption currentRef |>
  else extent.

Fixpoint compress_loop (pageStartChunk i : Z) (rest : list allocationChunkMapping)
    (currentStart : Z) (currentKind : AllocationChunkKind) (currentRef : allocationChunkMapping)
  : list AllocationChunkRecord :=
  match rest with
  | [] => [flush pageStartChunk currentStart i currentKind currentRef]
  | m :: rest =>
      let nextKind := kindForChunkMapping m in
      let contiguous :=
        String.eqb currentKind AllocationChunkKindData &&
        String.eqb nextKind AllocationChunkKindData && samePhysicalLocation currentRef m &&
        negb (isSome (mPayloadEncryption currentRef)) && negb (isSome (mPayloadEncryption m)) &&
        (rChunkID (mRef m) =? add64 (rChunkID (mRef currentRef)) (i - currentStart)) in
      if String.eqb nextKind currentKind &&
         (String.eqb currentKind AllocationChunkKindZero || contiguous)
      then compress_loop pageStartChunk (i + 1) rest currentStart currentKind currentRef
      else flush pageStartChunk currentStart i currentKind currentRef
           :: compress_loop pageStartChunk (i + 1) rest i nextKind m
  end.

Definition compressAllocationChunkMappings (pageStartChunk : Z)
    (mappings : list allocationChunkMapping) : list AllocationChunkRecord :=
  match mappings with
  | [] => []
  | m :: rest => compress_loop pageStartChunk 1 rest 0 (kindForChunkMapping m) m
  end.

(** ** What an extent says about a chunk *)

(** A mapping without a chunk id means zeroes, whatever else it carries. *)
Definition norm (m : allocationChunkMapping) : allocationChunkMapping :=
  if rChunkID (mRef m) =? 0 then zero_mapping else m.

Definition extent_mapping (e : AllocationChunkRecord) (lc : Z) : allocationChunkMapping :=
  if String.eqb (eKind e) AllocationChunkKindData
  then mkMapping (chunkRef e lc) (ePayloadEncryption e) else zero_mapping.

Definition mapping_ok (m : allocationChunkMapping) : Prop := u64 (rChunkID (mRef m)).

(** [extents] tile the chunks from [s] on with the mappings [ms]. *)
Inductive covers : Z -> list AllocationChunkRecord -> list allocationChunkMapping -> Prop :=
| covers_nil s : covers s [] []
| covers_cons s e es run ms :
    eLogicalChunkStart e = s -> eChunkCount e = zlen run -> run <> [] ->
    (forall j m, run !! j = Some m ->
       extent_mapping e (s + Z.of_nat j) = norm m /\ eKind e = kindForChunkMapping m) ->
    covers (s + zlen run) es ms -> covers s (e :: es) (run ++ ms)%list.

(** ** Compression *)

(** A run of mappings that one extent can describe. *)
Definition run_ok (kind : AllocationChunkKind) (first : allocationChunkMapping)
    (run : list allocationChunkMapping) : Prop :=
  run !! 0%nat = Some first /\ kind = kindForChunkMapping first /\
  forall j m, run !! j = Some m ->
    kindForChunkMapping m = kind /\ mapping_ok m /\
    (kind = AllocationChunkKindData ->
     samePhysicalLocation first m = true /\ mPayloadEncryption m = mPayloadEncryption first /\
     rChunkID (mRef m) = add64 (rChunkID (mRef first)) (Z.of_nat j)).

Lemma kind_cases m :
  kindForChunkMapping m = AllocationChunkKindZero /\ rChunkID (mRef m) = 0 \/
  kindForChunkMapping m = AllocationChunkKindData /\ rChunkID (mRef m) <> 0.
Proof. unfold kindForChunkMapping. destruct (Z.eqb_spec (rChunkID (mRef m)) 0); auto. Qed.

Lemma flush_run start cs run kind first :
  0 <= start -> 0 <= cs -> start + cs + zlen run <= 2 ^ 64 -> zlen run < 2 ^ 32 ->
  run_ok kind first run ->
  let e := flush start cs (cs + zlen run) kind first in
  eLogicalChunkStart e = start + cs /\ eChunkCount e = zlen run /\
  forall j m, run !! j = Some m ->
    extent_mapping e (start + cs + Z.of_nat j) = norm m /\ eKind e = kindForChunkMapping m.
Proof.
  intros H0 H1 Hb Hlen (Hfirst & Hkind & Hrun) e.
  assert (0 < zlen run) as Hpos.
  { apply lookup_lt_Some in Hfirst. unfold zlen. lia. }
  assert (eLogicalChunkStart e = start + cs /\ eChunkCount e = zlen run) as [Hs Hc].
  { unfold e, flush. destruct (String.eqb kind AllocationChunkKindData);
      cbn [set_field AllocationChunkRecord_settable eLogicalChunkStart eChunkCount];
      rewrite add64_small, wrap32_small by (unfold in_u; lia); lia. }
  split; [done|]. split; [done|]. intros j m Hj. destruct (Hrun j m Hj) as (Hk & Hok & Hdata).
  split; [|rewrite Hk; unfold e, flush; by destruct (String.eqb kind AllocationChunkKindData)].
  assert (Z.of_nat j < zlen run) as Hjb by (apply lookup_lt_Some in Hj; unfold zlen; lia).
  unfold extent_mapping, norm. destruct (kind_cases m) as [[Hm Hid]|[Hm Hid]]; rewrite Hk in Hm.
  - rewrite Hid. cbn. unfold e, flush. by rewrite Hm.
  - rewrite (proj2 (Z.eqb_neq _ _) Hid). destruct (Hdata Hm) as (Hloc & Henc & Hcid).
    assert (eKind e = AllocationChunkKindData /\ eStoreID e = rStoreID (mRef first) /\
            eShardID e = rShardID (mRef first) /\
            ePhysicalChunkStart e = rChunkID (mRef first) /\
            ePayloadEncryption e = mPayloadEncryption first) as (-> & Hst & Hsh & Hph & Hen).
    { unfold e, flush. rewrite Hm. done. }
    cbn [String.eqb]. change (String.eqb AllocationChunkKindData AllocationChunkKindData) with true.
    unfold samePhysicalLocation in Hloc. bools.
    unfold chunkRef. rewrite Hs, Hc, Hst, Hsh, Hph, Hen.
    destruct (Z.ltb_spec (start + cs + Z.of_nat j) (start + cs)); [lia|].
    rewrite sub64_small by (unfold in_u; lia).
    replace (start + cs + Z.of_nat j - (start + cs)) with (Z.of_nat j) by lia.
    destruct (Z.leb_spec (zlen run) (Z.of_nat j)); [lia|]. cbn [orb].
    destruct (kind_cases first) as [[Hf _]|[_ Hf]]; [by rewrite Hf, Hm in Hkind|].
    rewrite (proj2 (Z.eqb_neq _ _) Hf), <-Hcid, H, H2, <-Henc. by destruct m as [[] ?].
Qed.

Lemma run_ok_single m : mapping_ok m -> run_ok (kindForChunkMapping m) m [m].
Proof.
  intros Hm. split; [done|]. split; [done|]. intros [|j] m' Hj; [|done].
  injection Hj as <-. split; [done|]. split; [done|]. intros _.
  unfold samePhysicalLocation. rewrite String.eqb_refl, Z.eqb_refl. split; [done|]. split; [done|].
  change (Z.of_nat 0) with 0. rewrite add64_small; rewrite Z.add_0_r; [done|exact Hm].
Qed.

(** One more chunk joins the run. *)
Lemma run_ok_snoc kind first run m :
  mapping_ok m -> run_ok kind first run -> kindForChunkMapping m = kind ->
  (kind = AllocationChunkKindData ->
   samePhysicalLocation first m = true /\ mPayloadEncryption first = None /\
   mPayloadEncryption m = None /\ rChunkID (mRef m) = add64 (rChunkID (mRef first)) (zlen run)) ->
  run_ok kind first (run ++ [m])%list.
Proof.
  intros Hm (Hf & Hk & Hr) Hkm Hd. split; [by apply lookup_app_l_Some|]. split; [done|].
  intros j m' Hj. apply lookup_app_Some in Hj as [Hj|[Hge Hj]]; [by apply Hr|].
  destruct (j - length run)%nat as [|k] eqn:Hjk; [|done]. injection Hj as <-.
  split; [done|]. split; [done|]. intros Hdata. destruct (Hd Hdata) as (Hloc & He1 & He2 & Hc).
  split; [done|]. split; [congruence|]. rewrite Hc. f_equal. unfold zlen. lia.
Qed.

Lemma compress_loop_covers start rest : forall run cs kind first,
  0 <= start -> 0 <= cs -> start + cs + zlen run + zlen rest <= 2 ^ 64 ->
  zlen run + zlen rest < 2 ^ 32 -> Forall mapping_ok rest -> run_ok kind first run ->
  covers (start + cs) (compress_loop start (cs + zlen run) rest cs kind first) (run ++ rest)%list.
Proof.
  induction rest as [|m rest IH]; intros run cs kind first H0 H1 Hb Hlen Hall Hrun;
    cbn [compress_loop].
  - change (zlen (A:=allocationChunkMapping) []) with 0 in *.
    destruct (flush_run start cs run kind first) as (Hs & Hc & He); [lia..|done|].
    apply (covers_cons _ _ _ run []); auto; [|constructor].
    destruct Hrun as [Hf _]. by intros ->.
  - inversion_clear Hall as [|? ? Hm Hrest].
    change (m :: rest) with ([m] ++ rest)%list in *. rewrite zlen_app in *.
    change (zlen [m]) with 1 in *. pose proof (zlen_nonneg rest). pose proof (zlen_nonneg run).
    match goal with |- context [if ?b then _ else _] => destruct b eqn:Hjoin end.
    + rewrite app_assoc. replace (cs + zlen run + 1) with (cs + zlen (run ++ [m])%list)
        by (rewrite zlen_app; change (zlen [m]) with 1; lia).
      apply IH; [lia|lia|rewrite zlen_app; change (zlen [m]) with 1; lia..|done|].
      apply andb_prop in Hjoin as [Hkm Hjoin]. apply String.eqb_eq in Hkm.
      apply run_ok_snoc; [done..|]. intros ->.
      apply orb_prop in Hjoin as [Hz|Hcont]; [done|].
      apply andb_prop in Hcont as [Hcont Hid]. apply andb_prop in Hcont as [Hcont Hem].
      apply andb_prop in Hcont as [Hcont Hef]. apply andb_prop in Hcont as [_ Hloc].
      destruct (mPayloadEncryption first), (mPayloadEncryption m); try done.
      apply Z.eqb_eq in Hid. rewrite Hid. do 3 (split; [done|]). f_equal. lia.
    + destruct (flush_run start cs run kind first) as (Hs & Hc & He); [lia..|done|].
      apply covers_cons; [done|done|destruct Hrun as [Hf _]; by intros ->|done|].
      replace (start + cs + zlen run) with (start + (cs + zlen run)) by lia.
      apply (IH [m] (cs + zlen run)); change (zlen [m]) with 1; auto using run_ok_single; lia.
Qed.

Lemma compress_covers start ms :
  0 <= start -> start + zlen ms <= 2 ^ 64 -> zlen ms < 2 ^ 32 -> Forall mapping_ok ms ->
  covers start (compressAllocationChunkMappings start ms) ms.
Proof.
  intros H0 Hb Hlen Hall. destruct Hall as [|m rest Hm Hrest]; [constructor|].
  change (m :: rest) with ([m] ++ rest)%list in *. rewrite zlen_app in *.
  change (zlen [m]) with 1 in *.
  replace start with (start + 0) at 1 by lia.
  apply (compress_loop_covers start rest [m] 0);
    change (zlen [m]) with 1; auto using run_ok_single; lia.
Qed.

(** ** Lookup *)

Lemma covers_find s es ms lc :
  covers s es ms -> 0 <= s -> s + zlen ms < 2 ^ 64 ->
  match findAllocationChunk es lc with
  | Some e => s <= lc < s + zlen ms /\
              exists m, ms !! Z.to_nat (lc - s) = Some m /\ extent_mapping e lc = norm m /\
                        eKind e = kindForChunkMapping m
  | None => ~ (s <= lc < s + zlen ms)
  end.
Proof.
  induction 1 as [s|s e es run ms Hs Hc Hne He Hcov IH]; intros H0 Hb; cbn [findAllocationChunk].
  { unfold zlen. cbn. lia. }
  rewrite zlen_app in *. pose proof (zlen_nonneg ms). pose proof (zlen_nonneg run).
  rewrite Hs, Hc, add64_small by (unfold in_u; lia).
  destruct (Z.leb_spec s lc), (Z.ltb_spec lc (s + zlen run)); cbn [andb].
  - split; [lia|]. unfold zlen in *.
    destruct (lookup_lt_is_Some_2 run (Z.to_nat (lc - s))) as [m Hm]; [lia|].
    exists m. split; [by apply lookup_app_l_Some|]. destruct (He _ m Hm) as [Hmap Hkind].
    split; [|done]. rewrite <-Hmap. f_equal. lia.
  - specialize (IH ltac:(lia) ltac:(lia)). destruct (findAllocationChunk es lc); [|lia].
    destruct IH as [Hr (m & Hm & Hmap)]. split; [lia|]. exists m. split; [|done].
    unfold zlen in *. rewrite lookup_app_r by lia. rewrite <-Hm. f_equal. lia.
  - specialize (IH ltac:(lia) ltac:(lia)). destruct (findAllocationChunk es lc); lia.
  - specialize (IH ltac:(lia) ltac:(lia)). destruct (findAllocationChunk es lc); lia.
Qed.

(** ** Expansion *)

Definition list_get (l : list allocationChunkMapping) (k : Z) : allocationChunkMapping :=
  default zero_mapping (l !! Z.to_nat k).

Lemma length_fill n i e p c ms : length (fill_extent n i e p c ms) = length ms.
Proof.
  revert i ms. induction n as [|n IH]; intros i ms; cbn [fill_extent]; [done|].
  destruct (_ <? p); [apply IH|]. destruct (c <=? _); [done|]. by rewrite IH, length_insert.
Qed.

(** The inner loop writes the chunks of the extent that lie in the page and
    leaves the others alone. *)
Lemma fill_extent_get n : forall i e p c ms k,
  0 <= p -> 0 <= i -> 0 <= eLogicalChunkStart e -> c = zlen ms -> p + c < 2 ^ 64 ->
  eLogicalChunkStart e + i + Z.of_nat n < 2 ^ 64 -> 0 <= k < c ->
  list_get (fill_extent n i e p c ms) k =
  if (eLogicalChunkStart e + i <=? p + k) && (p + k <? eLogicalChunkStart e + i + Z.of_nat n)
  then mkMapping (chunkRef e (p + k)) (ePayloadEncryption e) else list_get ms k.
Proof.
  induction n as [|n IH]; intros i e p c ms k Hp Hi He Hc Hpc Hb Hk; cbn [fill_extent].
  { change (Z.of_nat 0) with 0 in *.
    destruct (Z.leb_spec (eLogicalChunkStart e + i) (p + k)),
      (Z.ltb_spec (p + k) (eLogicalChunkStart e + i + 0)); cbn; done || lia. }
  rewrite add64_small by (unfold in_u; lia).
  destruct (Z.ltb_spec (eLogicalChunkStart e + i) p) as [Hlt|Hge].
  - rewrite IH by lia. zcases; done || lia.
  - rewrite sub64_small by (unfold in_u; lia).
    destruct (Z.leb_spec c (eLogicalChunkStart e + i - p)).
    + destruct (Z.leb_spec (eLogicalChunkStart e + i) (p + k)); cbn; done || lia.
    + rewrite IH by (try lia; unfold zlen in *; rewrite length_insert; lia).
      set (idx := eLogicalChunkStart e + i - p).
      assert (list_get (<[Z.to_nat idx := mkMapping (chunkRef e (eLogicalChunkStart e + i))
                 (ePayloadEncryption e)]> ms) k =
              if k =? idx then mkMapping (chunkRef e (p + k)) (ePayloadEncryption e)
              else list_get ms k) as ->.
      { unfold list_get. unfold zlen in *. destruct (Z.eqb_spec k idx) as [->|].
        - rewrite list_lookup_insert_eq by lia. cbn. do 2 f_equal. lia.
        - rewrite list_lookup_insert_ne by lia. done. }
      destruct (Z.eqb_spec k idx);
        destruct (Z.leb_spec (eLogicalChunkStart e + (i + 1)) (p + k)),
          (Z.ltb_spec (p + k) (eLogicalChunkStart e + (i + 1) + Z.of_nat n)),
          (Z.leb_spec (eLogicalChunkStart e + i) (p + k)),
          (Z.ltb_spec (p + k) (eLogicalChunkStart e + i + Z.of_nat (S n))); cbn; done || lia.
Qed.

Definition fill_all (p c : Z) (es : list AllocationChunkRecord) (ms : list allocationChunkMapping) :=
  fold_left (fun ms extent =>
      if negb (String.eqb (eKind extent) AllocationChunkKindData) then ms
      else fill_extent (Z.to_nat (eChunkCount extent)) 0 extent p c ms) es ms.

Lemma length_fill_all p c es ms : length (fill_all p c es ms) = length ms.
Proof.
  unfold fill_all. revert ms. induction es as [|e es IH]; intros ms; cbn [fold_left]; [done|].
  rewrite IH. destruct (negb _); [done|]. apply length_fill.
Qed.

Lemma fill_all_get s es ms : covers s es ms -> forall p c acc k,
  0 <= p -> 0 <= s -> c = zlen acc -> p + c < 2 ^ 64 -> s + zlen ms < 2 ^ 64 -> 0 <= k < c ->
  (forall j, s <= p + j -> 0 <= j < c -> list_get acc j = zero_mapping) ->
  list_get (fill_all p c es acc) k =
  if (s <=? p + k) && (p + k <? s + zlen ms)
  then norm (list_get ms (p + k - s)) else list_get acc k.
Proof.
  induction 1 as [s|s e es run ms Hs Hc Hne He Hcov IH];
    intros p c acc k Hp H0 Hca Hpc Hb Hk Hzero.
  { cbn. change (zlen (A:=allocationChunkMapping) []) with 0.
    destruct (Z.leb_spec s (p + k)), (Z.ltb_spec (p + k) (s + 0)); cbn; done || lia. }
  rewrite zlen_app in *. pose proof (zlen_nonneg ms). pose proof (zlen_nonneg run).
  unfold fill_all in *. cbn [fold_left].
  set (acc' := if negb (String.eqb (eKind e) AllocationChunkKindData) then acc
               else fill_extent (Z.to_nat (eChunkCount e)) 0 e p c acc).
  assert (forall j, 0 <= j < c -> list_get acc' j =
            if (s <=? p + j) && (p + j <? s + zlen run)
            then norm (list_get run (p + j - s)) else list_get acc j) as Hacc'.
  { intros j Hj. unfold zlen in *.
    assert (s <= p + j < s + Z.of_nat (length run) ->
            norm (list_get run (p + j - s)) = extent_mapping e (p + j)) as Hrun.
    { intros Hin. destruct (lookup_lt_is_Some_2 run (Z.to_nat (p + j - s))) as [m Hm]; [lia|].
      unfold list_get. rewrite Hm. cbn. rewrite <-(proj1 (He _ m Hm)). f_equal. lia. }
    unfold acc'. destruct (String.eqb (eKind e) AllocationChunkKindData) eqn:Hkind; cbn [negb].
    - rewrite fill_extent_get, Hc, Hs, Z2Nat.id, Z.add_0_r by (unfold zlen; lia).
      destruct (Z.leb_spec s (p + j)), (Z.ltb_spec (p + j) (s + Z.of_nat (length run)));
        cbn [andb]; try done.
      rewrite Hrun by lia. unfold extent_mapping. by rewrite Hkind.
    - destruct (Z.leb_spec s (p + j)), (Z.ltb_spec (p + j) (s + Z.of_nat (length run)));
        cbn [andb]; try done.
      rewrite Hrun by lia. unfold extent_mapping. rewrite Hkind. by apply Hzero. }
  rewrite (IH p c acc' k); [|lia|lia| |lia|lia|lia|].
  - rewrite Hacc' by lia. unfold list_get, zlen in *.
    destruct (Z.leb_spec s (p + k)), (Z.ltb_spec (p + k) (s + (Z.of_nat (length run) + Z.of_nat (length ms)))),
      (Z.leb_spec (s + Z.of_nat (length run)) (p + k)),
      (Z.ltb_spec (p + k) (s + Z.of_nat (length run) + Z.of_nat (length ms))),
      (Z.ltb_spec (p + k) (s + Z.of_nat (length run))); cbn [andb]; try lia; try done.
    + rewrite lookup_app_r by lia. do 3 f_equal. lia.
    + rewrite lookup_app_l by lia. done.
  - unfold acc', zlen in *. destruct (negb _); [done|]. by rewrite length_fill.
  - intros j Hj Hjc. rewrite Hacc' by lia.
    destruct (Z.leb_spec s (p + j)), (Z.ltb_spec (p + j) (s + zlen run)); cbn [andb]; try lia.
    apply Hzero; lia.
Qed.

Lemma length_build page p c :
  0 <= c -> zlen (buildAllocationChunkMappings page p c) = c.
Proof.
  intros Hc. unfold buildAllocationChunkMappings, zlen. fold (fill_all p c).
  change (fold_left _ _ _) with (fill_all p c (pExtents page)
    (replicate (Z.to_nat c) zero_mapping)).
  rewrite length_fill_all, length_replicate. lia.
Qed.

Lemma build_get page p c ms k :
  covers p (pExtents page) ms -> 0 <= p -> p + c < 2 ^ 64 -> p + zlen ms < 2 ^ 64 -> 0 <= k < c ->
  list_get (buildAllocationChunkMappings page p c) k = norm (list_get ms k).
Proof.
  intros Hcov Hp Hpc Hb Hk.
  assert (forall j, list_get (replicate (Z.to_nat c) zero_mapping) j = zero_mapping) as Hrep.
  { intros j. unfold list_get. destruct (_ !! _) as [m|] eqn:Hm; [|done].
    by apply lookup_replicate in Hm as [-> _]. }
  change (buildAllocationChunkMappings page p c) with
    (fill_all p c (pExtents page) (replicate (Z.to_nat c) zero_mapping)).
  rewrite (fill_all_get p _ ms); auto; [|unfold zlen; rewrite length_replicate; lia].
  replace (p + k - p) with k by lia. rewrite Hrep.
  destruct (Z.leb_spec p (p + k)), (Z.ltb_spec (p + k) (p + zlen ms)); cbn [andb]; try lia; [done|].
  unfold list_get. rewrite lookup_ge_None_2 by (unfold zlen in *; lia). done.
Qed.

(** ** Claims *)

(** Compressing mappings into extent records loses nothing.  Expanding the
    compressed page gives every mapping back (a mapping without chunk id as
    the zero mapping), and looking a logical chunk up in the records gives the
    same answer as the mapping at its index, and nothing outside the page. *)
Theorem compress_round_trip (page : AllocationPageRecord) (start : Z) (ms : list allocationChunkMapping) :
  0 <= start -> start + zlen ms < 2 ^ 64 -> zlen ms < 2 ^ 32 -> Forall mapping_ok ms ->
  pExtents page = compressAllocationChunkMappings start ms ->
  buildAllocationChunkMappings page start (zlen ms) = norm <$> ms /\
  forall lc, match findAllocationChunk (pExtents page) lc with
             | Some e => exists m, start <= lc /\ ms !! Z.to_nat (lc - start) = Some m /\
                                   extent_mapping e lc = norm m
             | None => ~ (start <= lc < start + zlen ms)
             end.
Proof.
  intros H0 Hb Hlen Hok Hpage.
  pose proof (compress_covers start ms H0 ltac:(lia) Hlen Hok) as Hcov. rewrite <-Hpage in Hcov.
  split.
  - apply list_eq_same_length with (length ms); [by rewrite length_fmap| |].
    { pose proof (length_build page start (zlen ms) (zlen_nonneg ms)). unfold zlen in *. lia. }
    intros i x y Hi Hx Hy.
    pose proof (build_get page start (zlen ms) ms (Z.of_nat i) Hcov H0 ltac:(lia) ltac:(lia)
      ltac:(unfold zlen; lia)) as Hg.
    unfold list_get in Hg. rewrite Nat2Z.id, Hx in Hg. rewrite list_lookup_fmap in Hy.
    destruct (ms !! i); [|done]. cbn in Hg, Hy. congruence.
  - intros lc. pose proof (covers_find start _ ms lc Hcov H0 ltac:(lia)) as Hf.
    destruct (findAllocationChunk _ lc); [|done]. destruct Hf as [? (m & ? & ? & ?)]. eauto with lia.
Qed.

Definition demo_mappings : list allocationChunkMapping :=
  [mkMapping (mkPhysicalChunkRef "" 0 5) None; mkMapping (mkPhysicalChunkRef "" 0 6) None;
   zero_mapping; mkMapping (mkPhysicalChunkRef "ssd" 1 9) None].

Lemma compress_round_trip_witness :
  length (compressAllocationChunkMappings 64 demo_mappings) = 3%nat /\
  buildAllocationChunkMappings
    (mkAllocationPageRecord 1 1 0 0 0 (compressAllocationChunkMappings 64 demo_mappings)) 64 4
  = norm <$> demo_mappings.
Proof.
  split; [reflexivity|].
  assert (Forall mapping_ok demo_mappings) as Hok by (repeat constructor; vm_compute; intros; discriminate).
  destruct (compress_round_trip
    (mkAllocationPageRecord 1 1 0 0 0 (compressAllocationChunkMappings 64 demo_mappings))
    64 demo_mappings ltac:(lia) ltac:(by vm_compute) ltac:(by vm_compute) Hok eq_refl) as [H _].
  exact H.
Defined.

End ChunkMap.
