(* ===== verification/Discard.v ===== *)
(** * Discard policy

    Models src/gateway/service/discard_observation.go: the reclaim geometry of a
    volume and the observations the gateway records for discard and zero
    requests. *)

From Stdlib Require Import ZArith Lia Ascii String.
From stdpp Require Import base list gmap strings.
From S2P Require Import Prelude GatewayTypes.
Open Scope string_scope.
Open Scope Z_scope.

Module Discard.
Import Gateway.

Definition IOOperationDiscard : string := "discard".
Definition IOOperationZero : string := "zero".
Definition DiscardPolicyTrueReclaim : string := "true_reclaim".
Definition DiscardPolicyPartialReject : string := "partial_reject".
Definition DiscardPolicyZeroFallback : string := "zero_fallback".
Definition DiscardPolicyZero : string := "zero".
Definition DiscardFallbackTrueReclaimNotImplemented : string := "true_reclaim_not_implemented".
Definition DiscardFallbackNotAlignedToReclaim : string := "not_aligned_to_reclaim_geometry".

Record DiscardObservation := mkDiscardObservation {
  doOperation : string; doBackendType : string; doReclaimGeometryBytes : Z;
  doRequestOffsetBytes : Z; doRequestLengthBytes : Z; doAlignedToReclaimGeometry : bool;
  doPolicy : string; doFallbackReason : string; doDiscardBytes : Z; doLogicalZeroBytes : Z }.

#[export] Instance DiscardObservation_settable : Settable DiscardObservation := fun x =>
  mkDiscardObservation (doOperation x) (doBackendType x) (doReclaimGeometryBytes x)
    (doRequestOffsetBytes x) (doRequestLengthBytes x) (doAlignedToReclaimGeometry x)
    (doPolicy x) (doFallbackReason x) (doDiscardBytes x) (doLogicalZeroBytes x).

Definition reclaimGeometryBytes (volume : VolumeSpec) : Z :=
  let volume := NormalizeVolumeSpec volume in
  if String.eqb (vRedundancyBackend volume) RedundancyBackendEC then
    if (0 <? vECDataShards volume) && (0 <? vECStripeUnitBytes volume)
    then mul64 (vECDataShards volume) (vECStripeUnitBytes volume)
    else vExtentPageBytes volume
  else vChunkSizeBytes volume.

Definition reclaimAligned (volume : VolumeSpec) (offsetBytes lengthBytes : Z) : bool :=
  let geometry := reclaimGeometryBytes volume in
  (0 <? geometry) && (offsetBytes mod geometry =? 0) && (lengthBytes mod geometry =? 0).

Definition DiscardRangeAligned (volume : VolumeSpec) (offsetBytes lengthBytes : Z) : bool :=
  reclaimAligned volume offsetBytes lengthBytes.

Definition NewDiscardAlignmentError : svc_error := ErrDiscardAlignment.

Definition newDiscardObservation (volume : VolumeSpec) (operation : string)
    (offsetBytes lengthBytes : Z) (policy fallbackReason : string) : DiscardObservation :=
  let volume := NormalizeVolumeSpec volume in
  let geometry := reclaimGeometryBytes volume in
  let aligned := (0 <? geometry) && (offsetBytes mod geometry =? 0)
                 && (lengthBytes mod geometry =? 0) in
  let obs := mkDiscardObservation operation (vRedundancyBackend volume) geometry offsetBytes
               lengthBytes aligned policy fallbackReason 0 0 in
  if String.eqb operation IOOperationDiscard then
    let obs := obs <| doDiscardBytes := lengthBytes |> in
    if String.eqb policy DiscardPolicyZeroFallback || String.eqb policy DiscardPolicyTrueReclaim
    then obs <| doLogicalZeroBytes := lengthBytes |> else obs
  else if String.eqb operation IOOperationZero
  then obs <| doLogicalZeroBytes := lengthBytes |>
  else obs.

Definition NewZeroObservation (volume : VolumeSpec) (offsetBytes lengthBytes : Z) :=
  newDiscardObservation volume IOOperationZero offsetBytes lengthBytes DiscardPolicyZero "".

Definition NewDiscardZeroFallbackObservation (volume : VolumeSpec) (offsetBytes lengthBytes : Z) :=
  let obs := newDiscardObservation volume IOOperationDiscard offsetBytes lengthBytes
               DiscardPolicyZeroFallback DiscardFallbackTrueReclaimNotImplemented in
  if negb (doAlignedToReclaimGeometry obs)
  then obs <| doFallbackReason := DiscardFallbackNotAlignedToReclaim |> else obs.

Definition NewDiscardTrueReclaimObservation (volume : VolumeSpec) (offsetBytes lengthBytes : Z) :=
  newDiscardObservation volume IOOperationDiscard offsetBytes lengthBytes
    DiscardPolicyTrueReclaim "".

Definition NewDiscardPartialRejectObservation (volume : VolumeSpec) (offsetBytes lengthBytes : Z) :=
  newDiscardObservation volume IOOperationDiscard offsetBytes lengthBytes
    DiscardPolicyPartialReject DiscardFallbackNotAlignedToReclaim.

Definition NewDiscardAlignmentZeroFallbackObservation (volume : VolumeSpec)
    (offsetBytes lengthBytes : Z) :=
  newDiscardObservation volume IOOperationDiscard offsetBytes lengthBytes
    DiscardPolicyZeroFallback DiscardFallbackNotAlignedToReclaim.

End Discard.
