(* ===== verification/ChunkExtent.v ===== *)
(** * The chunk/extent data repository

    Models src/gateway/service/chunk_payload.go and the stateful part of
    src/gateway/service/chunk_extent_data.go: reading and writing byte ranges of
    a volume through extent pages (in the metadata repository) and chunk
    payloads (in the object store).

    The world [S] holds both stores; the two interfaces the Go code is written
    against are the classes [ExtentMetadata] (the four methods of
    [MetadataRepository] the data path calls) and [ObjectStore].  The type
    assertion [r.chunks.(chunkPayloadEncryptionHeaderStore)] fails for the only
    payload store the constructors install, so encrypted extents are read as
    the unsupported-encryption error and new chunks carry no header.

    [writePage] gives up its page lock between reading the page and committing
    it, and other gateways never share that lock.  The model therefore calls
    [interfere attempt point] at three points of every attempt: after the first
    unlock, before the page is read again, and between that read and the
    compare-and-swap.  With [fun _ _ s => s] the code runs alone.  The map
    iteration order of [recordGarbage] is the argument [order].  Elapsed times
    in [DataWriteStats] are not modelled, the counters are. *)

From Stdlib Require Import ZArith Lia Ascii String.
From stdpp Require Import base list gmap strings.
From S2P Require Import Prelude GatewayTypes ObjectStore ChunkMap Discard.
Open Scope string_scope.
Open Scope Z_scope.

Module ChunkExtent.
Import Gateway Store ChunkMap Discard.

Class ExtentMetadata (S : Type) := {
  GetExtentPage : Z -> Z -> act S svc_error AllocationPageRecord;
  PutExtentPage : AllocationPageRecord -> Z -> act S svc_error AllocationPageRecord;
  AllocateChunkIDs : Z -> Z -> act S svc_error Z;
  PutChunkGarbage : AllocationChunkGarbageRecord -> act S svc_error unit }.

(** ** chunk_payload.go *)

Section Payload.
Context {S : Type} `{ObjectStore S}.

Definition chunk_size_of (volume : VolumeSpec) : Z :=
  if vChunkSizeBytes volume <=? 0 then DefaultAllocationChunkSize else vChunkSizeBytes volume.

Definition ReadChunkRef (volume : VolumeSpec) (ref : PhysicalChunkRef) : act S svc_error bytes :=
  let chunkSize := chunk_size_of volume in
  bind_act (store_get (buildPhysicalChunkKey (vPrefix volume) ref)) (fun value =>
  match value with
  | None => ret_act (zeroes chunkSize)
  | Some value => if negb (zlen value =? chunkSize)
                  then fail_act (ErrInvalidChunkSize (zlen value) chunkSize)
                  else ret_act value
  end).

Definition ReadChunk (volume : VolumeSpec) (chunkID : Z) : act S svc_error bytes :=
  ReadChunkRef volume (mkPhysicalChunkRef "" 0 chunkID).

Definition WriteChunkRef (volume : VolumeSpec) (ref : PhysicalChunkRef) (data : bytes)
  : act S svc_error unit :=
  let chunkSize := chunk_size_of volume in
  if negb (zlen data =? chunkSize) then fail_act (ErrInvalidChunkSize (zlen data) chunkSize) else
  store_put (buildPhysicalChunkKey (vPrefix volume) ref) data.

Definition WriteChunk (volume : VolumeSpec) (chunkID : Z) (data : bytes) : act S svc_error unit :=
  WriteChunkRef volume (mkPhysicalChunkRef "" 0 chunkID) data.

Definition DeleteChunkRef (volume : VolumeSpec) (ref : PhysicalChunkRef) : act S svc_error unit :=
  store_delete (buildPhysicalChunkKey (vPrefix volume) ref).

End Payload.

(** ** Page geometry *)

Definition chunkExtentWriteRetryLimit : nat := 8.
Definition chunkExtentWritePageLockStripes : Z := 128.

(** The index of the lock [writePageLock] picks. *)
Definition writePageLock (volumeID pageNo : Z) : Z :=
  let x := volumeID in
  let x := Z.lxor x (add64 (add64 (add64 pageNo 0x9e3779b97f4a7c15) (wrap64 (Z.shiftl x 6)))
                           (Z.shiftr x 2)) in
  let x := Z.lxor x (Z.shiftr x 33) in
  let x := mul64 x 0xff51afd7ed558ccd in
  let x := Z.lxor x (Z.shiftr x 33) in
  x mod chunkExtentWritePageLockStripes.

Definition logicalChunkCountInPage (volume : VolumeSpec) (pageNo : Z) : Z :=
  let chunkSize := vChunkSizeBytes volume in
  let chunksPerPage := vExtentPageBytes volume / chunkSize in
  let totalChunks := sub64 (add64 (vSizeBytes volume) chunkSize) 1 / chunkSize in
  let pageStartChunk := mul64 pageNo chunksPerPage in
  if totalChunks <=? pageStartChunk then 0 else
  let remaining := sub64 totalChunks pageStartChunk in
  if chunksPerPage <? remaining then chunksPerPage else remaining.

Definition isAllZero (data : bytes) : bool := forallb (fun b => Byte.eqb b Byte.x00) data.

Record DataWriteStats := mkDataWriteStats {
  Pages : Z; Attempts : Z; ChunksRead : Z; ChunksWritten : Z; FullChunkOverwrites : Z;
  ChunkGarbageRecordsPut : Z }.

#[export] Instance DataWriteStats_settable : Settable DataWriteStats := fun x =>
  mkDataWriteStats (Pages x) (Attempts x) (ChunksRead x) (ChunksWritten x)
    (FullChunkOverwrites x) (ChunkGarbageRecordsPut x).

Definition zero_stats : DataWriteStats := mkDataWriteStats 0 0 0 0 0 0.

Section Repository.
Context {S : Type} `{ObjectStore S, ExtentMetadata S}.
Context (planner : option (VolumeSpec -> Z -> Z -> result svc_error PhysicalChunkRef)).
Context (order : list PhysicalChunkRef -> list PhysicalChunkRef).
Context (interfere : nat -> nat -> S -> S).

(** ** Reading *)

Definition readLogicalChunk (volume : VolumeSpec) (page : AllocationPageRecord) (logicalChunk : Z)
  : act S svc_error bytes :=
  match findAllocationChunk (pExtents page) logicalChunk with
  | None => ret_act (zeroes (chunk_size_of volume))
  | Some extent =>
      if String.eqb (eKind extent) AllocationChunkKindZero
      then ret_act (zeroes (chunk_size_of volume)) else
      let ref := chunkRef extent logicalChunk in
      if isSome (ePayloadEncryption extent) then fail_act ErrEncryptionUnsupported else
      ReadChunkRef volume ref
  end.

(** The loop of [ReadAt] over [n] logical chunks from [logicalChunk] on, with
    the pages fetched so far. *)
Fixpoint read_loop (n : nat) (volume : VolumeSpec) (offsetBytes lengthBytes logicalChunk : Z)
    (pageCache : gmap Z AllocationPageRecord) (out : bytes) : act S svc_error bytes :=
  match n with
  | O => ret_act out
  | Datatypes.S n =>
      let chunkSize := vChunkSizeBytes volume in
      let chunksPerPage := vExtentPageBytes volume / chunkSize in
      if chunksPerPage =? 0 then lift_act Panic else
      let pageNo := logicalChunk / chunksPerPage in
      bind_act (match pageCache !! pageNo with
                | Some page => ret_act page
                | None => GetExtentPage (vID volume) pageNo
                end) (fun page =>
      bind_act (readLogicalChunk volume page logicalChunk) (fun chunkData =>
      let chunkStartOffset := mul64 logicalChunk chunkSize in
      let copyStart := Z.max offsetBytes chunkStartOffset in
      let copyEnd := Z.min (add64 offsetBytes lengthBytes) (add64 chunkStartOffset chunkSize) in
      let outStart := sub64 copyStart offsetBytes in
      let chunkOffset := sub64 copyStart chunkStartOffset in
      let n' := sub64 copyEnd copyStart in
      bind_act (lift_act (go_slice outStart (add64 outStart n') out)) (fun _ =>
      bind_act (lift_act (go_slice chunkOffset (add64 chunkOffset n') chunkData)) (fun src =>
      read_loop n volume offsetBytes lengthBytes (add64 logicalChunk 1)
        (<[pageNo := page]> pageCache) (splice out outStart src)))))
  end.

Definition ReadAt (volume : VolumeSpec) (offsetBytes lengthBytes : Z) : act S svc_error bytes :=
  let volume := NormalizeVolumeSpec volume in
  if lengthBytes =? 0 then ret_act [] else
  let chunkSize := vChunkSizeBytes volume in
  let startChunk := offsetBytes / chunkSize in
  let endChunk := sub64 (add64 offsetBytes lengthBytes) 1 / chunkSize in
  read_loop (Z.to_nat (endChunk - startChunk + 1)) volume offsetBytes lengthBytes startChunk
    ∅ (zeroes lengthBytes).

(** ** Writing *)

(** Methods that count run in the world together with the caller's statistics. *)
Definition counted := (S * DataWriteStats)%type.
Definition lift {A} (m : act S svc_error A) : act counted svc_error A := fun w =>
  let '(s, r) := m w.1 in ((s, w.2), r).
Definition count (f : DataWriteStats -> DataWriteStats) : act counted svc_error unit :=
  fun w => ((w.1, f w.2), Ok tt).
Definition others (attempt point : nat) : act counted svc_error unit :=
  fun w => ((interfere attempt point w.1, w.2), Ok tt).

Definition readChunkByMapping (volume : VolumeSpec) (mapping : allocationChunkMapping)
  : act S svc_error bytes :=
  if rChunkID (mRef mapping) =? 0 then ret_act (zeroes (vChunkSizeBytes volume)) else
  if isSome (mPayloadEncryption mapping) then fail_act ErrEncryptionUnsupported else
  ReadChunkRef volume (mRef mapping).

Definition choosePhysicalChunkRef (volume : VolumeSpec) (logicalChunk physicalChunkID : Z)
  : result svc_error PhysicalChunkRef :=
  if physicalChunkID =? 0 then Ok zero_PhysicalChunkRef else
  match planner with
  | None => Ok (mkPhysicalChunkRef "" 0 physicalChunkID)
  | Some plan =>
      ref ← plan volume logicalChunk physicalChunkID;
      Ok (if rChunkID ref =? 0 then ref <| rChunkID := physicalChunkID |> else ref)
  end.

Definition garbage_record (volume : VolumeSpec) (ref : PhysicalChunkRef)
  : AllocationChunkGarbageRecord :=
  mkAllocationChunkGarbageRecord (vID volume) (rStoreID ref) (rShardID ref) (rChunkID ref) 0.

Fixpoint record_garbage_loop (volume : VolumeSpec) (refs : list PhysicalChunkRef)
  : act counted svc_error unit :=
  match refs with
  | [] => ret_act tt
  | ref :: refs =>
      bind_act (lift (PutChunkGarbage (garbage_record volume ref))) (fun _ =>
      bind_act (count (fun st => st <| ChunkGarbageRecordsPut := ChunkGarbageRecordsPut st + 1 |>))
        (fun _ => record_garbage_loop volume refs))
  end.

Definition recordGarbage (volume : VolumeSpec) (refs : gset PhysicalChunkRef)
  : act counted svc_error unit := record_garbage_loop volume (order (elements refs)).

(** What the scan of the page under the first lock collects. *)
Record scan := mkScan {
  nextMappings : list allocationChunkMapping;
  staleChunkRefs : gset PhysicalChunkRef;
  pending : list (Z * bytes);
  fullChunkMergeable : bool }.

#[export] Instance scan_settable : Settable scan := fun x =>
  mkScan (nextMappings x) (staleChunkRefs x) (pending x) (fullChunkMergeable x).

Section Page.
Context (volume : VolumeSpec) (offsetBytes lengthBytes pageStartChunk : Z) (data : bytes).
Context (currentMappings : list allocationChunkMapping).

(** The scan over [n] page indices from [pageIndex] on. *)
Fixpoint scan_loop (n : nat) (pageIndex : Z) (sc : scan) : act counted svc_error scan :=
  match n with
  | O => ret_act sc
  | Datatypes.S n =>
      let chunkSize := vChunkSizeBytes volume in
      let logicalChunk := add64 pageStartChunk pageIndex in
      let chunkStartOffset := mul64 logicalChunk chunkSize in
      let copyStart := Z.max offsetBytes chunkStartOffset in
      let copyEnd := Z.min (add64 offsetBytes lengthBytes) (add64 chunkStartOffset chunkSize) in
      if copyEnd <=? copyStart then scan_loop n (pageIndex + 1) sc else
      let srcStart := sub64 copyStart offsetBytes in
      let copyLength := sub64 copyEnd copyStart in
      bind_act (lift_act (go_slice srcStart (add64 srcStart copyLength) data)) (fun src =>
      bind_act (lift_act (match currentMappings !! Z.to_nat pageIndex with
                          | Some m => Ok m | None => Panic end)) (fun current =>
      let fullOverwrite := (copyStart =? chunkStartOffset)
                           && (copyEnd =? add64 chunkStartOffset chunkSize) in
      bind_act
        (if fullOverwrite then
           bind_act (count (fun st => st <| FullChunkOverwrites := FullChunkOverwrites st + 1 |>))
             (fun _ => ret_act src)
         else
           bind_act (count (fun st => st <| ChunksRead := ChunksRead st + 1 |>)) (fun _ =>
           bind_act (lift (readChunkByMapping volume current)) (fun chunkData =>
           let chunkOffset := sub64 copyStart chunkStartOffset in
           bind_act (lift_act (go_slice chunkOffset (add64 chunkOffset copyLength) chunkData))
             (fun _ => ret_act (splice chunkData chunkOffset src)))))
        (fun chunkData =>
      let sc := sc <| fullChunkMergeable := fullChunkMergeable sc && fullOverwrite |> in
      if isAllZero chunkData then
        scan_loop n (pageIndex + 1)
          (sc <| fullChunkMergeable := false |>
              <| staleChunkRefs := if negb (rChunkID (mRef current) =? 0)
                                   then {[mRef current]} ∪ staleChunkRefs sc
                                   else staleChunkRefs sc |>
              <| nextMappings := <[Z.to_nat pageIndex := zero_mapping]> (nextMappings sc) |>)
      else scan_loop n (pageIndex + 1)
             (sc <| pending := (pending sc ++ [(pageIndex, chunkData)])%list |>))))
  end.

(** Writing the pending chunks: [i] is the position in the allocated range,
    [written] the page index and reference of every chunk written so far,
    [news] the set of their references. *)
Fixpoint write_pending (startChunkID : Z) (i : Z) (todo : list (Z * bytes)) (sc : scan)
    (written : list (Z * PhysicalChunkRef)) (news : gset PhysicalChunkRef)
  : act counted svc_error (scan * list (Z * PhysicalChunkRef) * gset PhysicalChunkRef) :=
  match todo with
  | [] => ret_act (sc, written, news)
  | (pageIndex, payload) :: todo =>
      let chunkID := add64 startChunkID i in
      match choosePhysicalChunkRef volume (add64 pageStartChunk pageIndex) chunkID with
      | Panic => lift_act Panic
      | Err e => bind_act (recordGarbage volume news) (fun _ => fail_act e)
      | Ok ref => fun w =>
          match lift (WriteChunkRef volume ref payload) w with
          | (w, Panic) => (w, Panic)
          | (w, Err e) => bind_act (recordGarbage volume news) (fun _ => fail_act e) w
          | (w, Ok _) =>
              bind_act (count (fun st => st <| ChunksWritten := ChunksWritten st + 1 |>)) (fun _ =>
              bind_act (lift_act (match currentMappings !! Z.to_nat pageIndex with
                                  | Some m => Ok m | None => Panic end)) (fun current =>
              let stale := if negb (rChunkID (mRef current) =? 0)
                              && negb (bool_decide (mRef current = ref))
                           then {[mRef current]} ∪ staleChunkRefs sc else staleChunkRefs sc in
              write_pending startChunkID (i + 1) todo
                (sc <| staleChunkRefs := stale |>
                    <| nextMappings := <[Z.to_nat pageIndex := mkMapping ref None]>
                                         (nextMappings sc) |>)
                (written ++ [(pageIndex, ref)])%list ({[ref]} ∪ news))) w
          end
      end
  end.

(** Merging the written chunks into a page that changed meanwhile. *)
Fixpoint merge_written (next : list allocationChunkMapping) (written : list (Z * PhysicalChunkRef))
    (latest : list allocationChunkMapping) (stale : gset PhysicalChunkRef)
  : list allocationChunkMapping * gset PhysicalChunkRef :=
  match written with
  | [] => (latest, stale)
  | (pageIndex, ref) :: written =>
      let currentRef := mRef (list_get latest pageIndex) in
      merge_written next written
        (<[Z.to_nat pageIndex := list_get next pageIndex]> latest)
        (if negb (rChunkID currentRef =? 0) && negb (bool_decide (currentRef = ref))
         then {[currentRef]} ∪ stale else stale)
  end.

End Page.

Inductive attempt_result := Committed | Retry.

(** One pass of the retry loop of [writePage]. *)
Definition write_attempt (attempt : nat) (volume : VolumeSpec)
    (pageNo offsetBytes lengthBytes pageStartChunk pageChunkCount startIndex endIndex : Z)
    (data : bytes) : act counted svc_error attempt_result :=
  bind_act (count (fun st => st <| Attempts := Attempts st + 1 |>)) (fun _ =>
  bind_act (lift (GetExtentPage (vID volume) pageNo)) (fun page =>
  let currentMappings := buildAllocationChunkMappings page pageStartChunk pageChunkCount in
  bind_act (scan_loop volume offsetBytes lengthBytes pageStartChunk data currentMappings
              (Z.to_nat (endIndex - startIndex + 1)) startIndex
              (mkScan currentMappings ∅ [] true)) (fun sc =>
  bind_act (others attempt 0) (fun _ =>
  bind_act (if 0 <? zlen (pending sc) then
              bind_act (lift (AllocateChunkIDs (vID volume) (wrap32 (zlen (pending sc)))))
                (fun startChunkID =>
                 write_pending volume pageStartChunk currentMappings startChunkID 0 (pending sc)
                   sc [] ∅)
            else ret_act (sc, [], ∅)) (fun '(sc, written, newChunkRefs) =>
  bind_act (others attempt 1) (fun _ =>
  bind_act (lift (GetExtentPage (vID volume) pageNo)) (fun commitPage =>
  if negb (pRevision commitPage =? pRevision page) &&
     (negb (fullChunkMergeable sc) || (zlen (pending sc) =? 0))
  then bind_act (recordGarbage volume newChunkRefs) (fun _ => ret_act Retry)
  else
  let '(commitMappings, commitRevision, commitStaleChunkRefs) :=
    if negb (pRevision commitPage =? pRevision page) then
      let latest := buildAllocationChunkMappings commitPage pageStartChunk pageChunkCount in
      let '(merged, stale) := merge_written (nextMappings sc) written latest ∅ in
      (merged, pRevision commitPage, stale)
    else (nextMappings sc, pRevision page, staleChunkRefs sc) in
  let updatedPage := mkAllocationPageRecord (vID volume) pageNo (vExtentPageBytes volume)
    (vChunkSizeBytes volume) 0 (compressAllocationChunkMappings pageStartChunk commitMappings) in
  bind_act (others attempt 2) (fun _ => fun w =>
  match lift (PutExtentPage updatedPage commitRevision) w with
  | (w, Panic) => (w, Panic)
  | (w, Err e) =>
      if bool_decide (e = ErrMetadataCASConflict)
      then bind_act (recordGarbage volume newChunkRefs) (fun _ => ret_act Retry) w
      else (w, Err e)
  | (w, Ok _) =>
      bind_act (recordGarbage volume commitStaleChunkRefs) (fun _ => ret_act Committed) w
  end)))))))).

(** The retry loop: [n] attempts are left of [chunkExtentWriteRetryLimit]. *)
Fixpoint attempts (n attempt : nat) (body : nat -> act counted svc_error attempt_result)
  : act counted svc_error unit :=
  match n with
  | O => fail_act ErrMetadataCASConflict
  | Datatypes.S n =>
      bind_act (body attempt) (fun res =>
      match res with
      | Committed => ret_act tt
      | Retry => attempts n (Datatypes.S attempt) body
      end)
  end.

Definition writePage (volume : VolumeSpec) (pageNo offsetBytes lengthBytes : Z) (data : bytes)
  : act counted svc_error unit :=
  let chunkSize := vChunkSizeBytes volume in
  let chunksPerPage := vExtentPageBytes volume / chunkSize in
  let pageStartChunk := mul64 pageNo chunksPerPage in
  let pageChunkCount := logicalChunkCountInPage volume pageNo in
  if pageChunkCount =? 0 then ret_act tt else
  let pageStartOffset := mul64 pageStartChunk chunkSize in
  let pageEndOffset := add64 pageStartOffset (mul64 pageChunkCount chunkSize) in
  let writeStart := Z.max offsetBytes pageStartOffset in
  let writeEnd := Z.min (add64 offsetBytes lengthBytes) pageEndOffset in
  if writeEnd <=? writeStart then ret_act tt else
  let startIndex := sub64 writeStart pageStartOffset / chunkSize in
  let endIndex := sub64 (sub64 writeEnd pageStartOffset) 1 / chunkSize in
  attempts chunkExtentWriteRetryLimit 0 (fun attempt =>
    write_attempt attempt volume pageNo offsetBytes lengthBytes pageStartChunk pageChunkCount
      startIndex endIndex data).

Fixpoint write_pages (n : nat) (volume : VolumeSpec) (pageNo offsetBytes lengthBytes : Z)
    (data : bytes) : act counted svc_error unit :=
  match n with
  | O => ret_act tt
  | Datatypes.S n =>
      bind_act (count (fun st => st <| Pages := Pages st + 1 |>)) (fun _ =>
      bind_act (writePage volume pageNo offsetBytes lengthBytes data) (fun _ =>
      write_pages n volume (add64 pageNo 1) offsetBytes lengthBytes data))
  end.

Definition WriteAtWithStats (volume : VolumeSpec) (offsetBytes lengthBytes : Z) (data : bytes)
    (s : S) : S * DataWriteStats * result svc_error unit :=
  let volume := NormalizeVolumeSpec volume in
  if lengthBytes =? 0 then (s, zero_stats, Ok tt) else
  let chunkSize := vChunkSizeBytes volume in
  let chunksPerPage := vExtentPageBytes volume / chunkSize in
  let startChunk := offsetBytes / chunkSize in
  let endChunk := sub64 (add64 offsetBytes lengthBytes) 1 / chunkSize in
  if chunksPerPage =? 0 then (s, zero_stats, Panic) else
  let startPage := startChunk / chunksPerPage in
  let endPage := endChunk / chunksPerPage in
  write_pages (Z.to_nat (endPage - startPage + 1)) volume startPage offsetBytes lengthBytes data
    (s, zero_stats).

Definition WriteAt (volume : VolumeSpec) (offsetBytes lengthBytes : Z) (data : bytes)
  : act S svc_error unit := fun s =>
  let '(s, _, r) := WriteAtWithStats volume offsetBytes lengthBytes data s in (s, r).

Definition FlushVolume (volume : VolumeSpec) : act S svc_error unit := ret_act tt.

Definition ZeroAt (volume : VolumeSpec) (offsetBytes lengthBytes : Z) : act S svc_error unit :=
  WriteAt volume offsetBytes lengthBytes (zeroes lengthBytes).

Definition DiscardAt (volume : VolumeSpec) (offsetBytes lengthBytes : Z) : act S svc_error unit :=
  if negb (DiscardRangeAligned volume offsetBytes lengthBytes)
  then fail_act NewDiscardAlignmentError
  else WriteAt volume offsetBytes lengthBytes (zeroes lengthBytes).

Definition DiscardObservationFor (volume : VolumeSpec) (offsetBytes lengthBytes : Z)
  : DiscardObservation :=
  let volume := NormalizeVolumeSpec volume in
  if negb (reclaimAligned volume offsetBytes lengthBytes)
  then NewDiscardAlignmentZeroFallbackObservation volume offsetBytes lengthBytes
  else if String.eqb (vRedundancyBackend volume) RedundancyBackendReplicated
  then NewDiscardTrueReclaimObservation volume offsetBytes lengthBytes
  else NewDiscardZeroFallbackObservation volume offsetBytes lengthBytes.

(** ** Physical chunks *)

Definition ReadPhysicalChunkAt (volume : VolumeSpec)
    (physicalChunkID chunkOffsetBytes lengthBytes : Z) : act S svc_error bytes :=
  let volume := NormalizeVolumeSpec volume in
  let chunkSize := vChunkSizeBytes volume in
  if (physicalChunkID =? 0) || (chunkSize <=? chunkOffsetBytes)
     || (chunkSize <? add64 chunkOffsetBytes lengthBytes) then fail_act ErrOutOfRange else
  if lengthBytes =? 0 then fail_act ErrBadAlignment else
  bind_act (ReadChunk volume physicalChunkID) (fun chunk =>
  lift_act (go_slice chunkOffsetBytes (add64 chunkOffsetBytes lengthBytes) chunk)).

Definition WritePhysicalChunkAtWithStats (volume : VolumeSpec)
    (physicalChunkID chunkOffsetBytes lengthBytes : Z) (data : bytes)
  : act counted svc_error unit :=
  let volume := NormalizeVolumeSpec volume in
  let chunkSize := vChunkSizeBytes volume in
  if (physicalChunkID =? 0) || (chunkSize <=? chunkOffsetBytes)
     || (chunkSize <? add64 chunkOffsetBytes lengthBytes) then fail_act ErrOutOfRange else
  if lengthBytes =? 0 then fail_act ErrBadAlignment else
  if negb (zlen data =? lengthBytes) then fail_act ErrBadDataLength else
  let fullChunkOverwrite := (chunkOffsetBytes =? 0) && (lengthBytes =? chunkSize) in
  bind_act (if fullChunkOverwrite then ret_act data else
            bind_act (count (fun st => st <| ChunksRead := ChunksRead st + 1 |>)) (fun _ =>
            bind_act (lift (ReadChunk volume physicalChunkID)) (fun chunk =>
            bind_act (lift_act (go_slice chunkOffsetBytes (add64 chunkOffsetBytes lengthBytes)
                                  chunk))
              (fun _ => ret_act (splice chunk chunkOffsetBytes data))))) (fun chunk =>
  bind_act (lift (WriteChunk volume physicalChunkID chunk)) (fun _ =>
  count (fun st =>
    let st := st <| ChunksWritten := ChunksWritten st + 1 |> in
    if fullChunkOverwrite then st <| FullChunkOverwrites := FullChunkOverwrites st + 1 |>
    else st))).

End Repository.
End ChunkExtent.
