(* ===== verification/DataWorld.v ===== *)
(** * What the data path may rely on, and the flat view of a volume

    [DataLaws] is the contract between the chunk/extent data repository and the
    two stores it is built on: what a caller observes of the metadata
    repository (pages with their revisions, the chunk-id allocator) and of the
    object store, and how each method changes it.  On top of it this file
    defines the abstract view of a volume, one byte per offset ([byte_at]), the
    invariant that keeps the view meaningful, and the effect of the elementary
    steps of the write path on both. *)

From Stdlib Require Import ZArith Lia Ascii String.
From stdpp Require Import base list gmap strings.
From coqutil Require Import Byte.
From S2P Require Import Prelude GatewayTypes ObjectStore ObjectStoreFacts ChunkMap ChunkExtent.
Open Scope string_scope.
Open Scope Z_scope.

Module DataWorld.
Import Gateway Store StoreFacts ChunkMap ChunkExtent.

(** ** The contract *)

(** The observable state: the page records (none when the volume does not
    exist), the objects, and the next chunk id of a volume. *)
Class DataView (S : Type) := {
  page_at : S -> Z -> Z -> option AllocationPageRecord;
  object_at : S -> string -> option bytes;
  next_id : S -> Z -> Z }.

(** [s'] looks like [s] except where the lemmas below say otherwise. *)
Definition same_pages {S} `{DataView S} (s s' : S) : Prop :=
  forall v p, page_at s' v p = page_at s v p.
Definition same_objects {S} `{DataView S} (s s' : S) : Prop :=
  forall k, object_at s' k = object_at s k.
Definition same_next {S} `{DataView S} (s s' : S) : Prop := forall v, next_id s' v = next_id s v.

Class DataLaws (S : Type) `{ObjectStore S, ExtentMetadata S, DataView S} := {
  store_get_law s k : store_get k s = (s, Ok (object_at s k));
  store_put_law s k b : exists s', store_put k b s = (s', Ok tt) /\
    same_pages s s' /\ same_next s s' /\ object_at s' k = Some b /\
    (forall k', k' <> k -> object_at s' k' = object_at s k');
  get_page_law s v p :
    GetExtentPage v p s = (s, match page_at s v p with
                              | Some pg => Ok pg | None => Err ErrVolumeNotFound end);
  put_page_law s rec rev cur : page_at s (pVolumeID rec) (pPageNo rec) = Some cur ->
    exists s' res, PutExtentPage rec rev s = (s', res) /\ same_objects s s' /\ same_next s s' /\
    if pRevision cur =? rev
    then exists pg, res = Ok pg /\ page_at s' (pVolumeID rec) (pPageNo rec) = Some pg /\
         pExtents pg = pExtents rec /\ pRevision pg = add_i64 rev 1 /\
         (forall v p, ~ (v = pVolumeID rec /\ p = pPageNo rec) -> page_at s' v p = page_at s v p)
    else res = Err ErrMetadataCASConflict /\ same_pages s s';
  alloc_law s v n : is_Some (page_at s v 0) -> 0 < n < 2 ^ 32 -> 1 <= next_id s v ->
    next_id s v + n < 2 ^ 64 ->
    exists s', AllocateChunkIDs v n s = (s', Ok (next_id s v)) /\ same_pages s s' /\
    same_objects s s' /\ next_id s' v = next_id s v + n /\
    (forall v', v' <> v -> next_id s' v' = next_id s v');
  garbage_law s rec : is_Some (page_at s (gcVolumeID rec) 0) ->
    exists s', PutChunkGarbage rec s = (s', Ok tt) /\ same_pages s s' /\ same_objects s s' /\
    same_next s s' }.

(** ** Geometry *)

Section View.
Context {S : Type} `{DataLaws S}.
Context (vol : VolumeSpec).

Definition cs : Z := vChunkSizeBytes vol.
Definition cpp : Z := vExtentPageBytes vol / vChunkSizeBytes vol.

(** A normalized volume of less than 8 EiB whose pages hold at least one chunk. *)
Record geometry : Prop := {
  geo_norm : NormalizeVolumeSpec vol = vol;
  geo_cs : 0 < cs < 2 ^ 32;
  geo_page : 0 <= vExtentPageBytes vol < 2 ^ 32;
  geo_cpp : 0 < cpp;
  geo_size : 0 <= vSizeBytes vol < 2 ^ 63 }.

(** Page numbers and chunk numbers in the range the view covers. *)
Definition page_in (p : Z) : Prop := 0 <= p /\ p * cpp < 2 ^ 63.
Definition chunk_in (lc : Z) : Prop := 0 <= lc < 2 ^ 63.

Lemma cpp_bound : geometry -> cpp < 2 ^ 32.
Proof.
  intros [? ? ? ? ?]. unfold cpp, cs in *. apply Z.div_lt_upper_bound; [lia|].
  assert (2 ^ 32 <= vChunkSizeBytes vol * 2 ^ 32) by lia. lia.
Qed.

Lemma chunk_page lc : geometry -> chunk_in lc -> page_in (lc / cpp).
Proof.
  intros [? ? ? ? ?] Hlc. unfold page_in, chunk_in in *. split; [apply Z.div_pos; lia|].
  pose proof (Z.mul_div_le lc cpp ltac:(lia)). lia.
Qed.

(** ** The view *)

Definition the_page (s : S) (p : Z) : AllocationPageRecord :=
  default zero_AllocationPageRecord (page_at s (vID vol) p).
Definition revision (s : S) (p : Z) : Z := pRevision (the_page s p).

(** What the extents of a page say about a logical chunk. *)
Definition page_mapping (pg : AllocationPageRecord) (lc : Z) : allocationChunkMapping :=
  match findAllocationChunk (pExtents pg) lc with
  | Some e => extent_mapping e lc
  | None => zero_mapping
  end.

Definition mapping_at (s : S) (lc : Z) : allocationChunkMapping :=
  page_mapping (the_page s (lc / cpp)) lc.

Definition chunk_key (ref : PhysicalChunkRef) : string := buildPhysicalChunkKey (vPrefix vol) ref.

(** The payload a mapping stands for. *)
Definition content (s : S) (m : allocationChunkMapping) : bytes :=
  if rChunkID (mRef m) =? 0 then zeroes cs
  else default (zeroes cs) (object_at s (chunk_key (mRef m))).

Definition chunk_at (s : S) (lc : Z) : bytes := content s (mapping_at s lc).

(** The volume as a flat array: the byte at offset [o]. *)
Definition byte_at (s : S) (o : Z) : byte :=
  default Byte.x00 (chunk_at s (o / cs) !! Z.to_nat (o mod cs)).

(** ** The invariant *)

Definition mapping_valid (s : S) (m : allocationChunkMapping) : Prop :=
  rChunkID (mRef m) = 0 \/
  mPayloadEncryption m = None /\ ref_ok (mRef m) /\ 1 <= rChunkID (mRef m) < next_id s (vID vol) /\
  exists b, object_at s (chunk_key (mRef m)) = Some b /\ zlen b = cs.

Definition page_valid (s : S) (p : Z) (pg : AllocationPageRecord) : Prop :=
  exists ms, covers (p * cpp) (pExtents pg) ms /\ zlen ms <= cpp /\ Forall (mapping_valid s) ms.

Record Inv (s : S) : Prop := {
  inv_exists : is_Some (page_at s (vID vol) 0);
  inv_pages : forall p, page_in p ->
    exists pg, page_at s (vID vol) p = Some pg /\ page_valid s p pg;
  inv_next : 1 <= next_id s (vID vol) < 2 ^ 64;
  inv_fresh : forall ref, ref_ok ref -> next_id s (vID vol) <= rChunkID ref ->
    object_at s (chunk_key ref) = None }.

Lemma the_page_eq (s : S) p pg : page_at s (vID vol) p = Some pg -> the_page s p = pg.
Proof. intros Hp. unfold the_page. by rewrite Hp. Qed.

Lemma mapping_valid_ok (s : S) m : next_id s (vID vol) < 2 ^ 64 -> mapping_valid s m -> mapping_ok m.
Proof. unfold mapping_valid, mapping_ok, in_u. lia. Qed.

Lemma norm_valid (s : S) m : mapping_valid s m -> mapping_valid s (norm m).
Proof. unfold norm. destruct (Z.eqb_spec (rChunkID (mRef m)) 0); [|done]. by left. Qed.

(** The mappings behind the extents of a page. *)
Lemma page_mapping_get (s : S) p pg ms lc :
  geometry -> page_in p -> chunk_in lc -> p = lc / cpp ->
  covers (p * cpp) (pExtents pg) ms -> zlen ms <= cpp ->
  page_mapping pg lc = norm (list_get ms (lc - p * cpp)).
Proof.
  intros Hg Hp Hlc -> Hcov Hlen. pose proof (cpp_bound Hg) as Hcpp. destruct Hg.
  unfold page_in, chunk_in in *. pose proof (zlen_nonneg ms).
  pose proof (Z.mul_div_le lc cpp ltac:(lia)) as Hle.
  pose proof (covers_find _ _ _ lc Hcov ltac:(lia) ltac:(lia)) as Hf.
  unfold page_mapping. destruct (findAllocationChunk (pExtents pg) lc) as [e|].
  - destruct Hf as [_ (m & Hm & -> & _)]. unfold list_get. by rewrite Hm.
  - unfold list_get. rewrite lookup_ge_None_2; [done|]. unfold zlen in *. lia.
Qed.

Lemma mapping_at_valid (s : S) lc :
  geometry -> Inv s -> chunk_in lc -> mapping_valid s (mapping_at s lc).
Proof.
  intros Hg Hs Hlc. pose proof (chunk_page lc Hg Hlc) as Hp.
  destruct (inv_pages s Hs _ Hp) as (pg & Hpg & ms & Hcov & Hlen & Hall).
  unfold mapping_at. rewrite (the_page_eq _ _ _ Hpg).
  rewrite (page_mapping_get s _ _ ms lc Hg Hp Hlc eq_refl Hcov Hlen). apply norm_valid.
  unfold list_get. destruct (ms !! _) as [m|] eqn:Hm; cbn; [|by left].
  by eapply Forall_lookup_1.
Qed.

Lemma content_length (s : S) m : geometry -> mapping_valid s m -> zlen (content s m) = cs.
Proof.
  intros [? ? ? ? ?] Hm. unfold content. destruct (Z.eqb_spec (rChunkID (mRef m)) 0) as [|Hne].
  { apply zlen_zeroes. lia. }
  destruct Hm as [|(_ & _ & _ & b & -> & Hb)]; done.
Qed.

Lemma chunk_at_length (s : S) lc : geometry -> Inv s -> chunk_in lc -> zlen (chunk_at s lc) = cs.
Proof. intros. apply content_length; [done|]. by apply mapping_at_valid. Qed.

(** ** Reading a chunk *)

Lemma chunk_size_eq : geometry -> chunk_size_of vol = cs.
Proof. intros [? ? ? ? ?]. unfold chunk_size_of. unfold cs in *. zcases; lia. Qed.

Lemma read_ref_content (s : S) m :
  geometry -> mapping_valid s m -> rChunkID (mRef m) <> 0 ->
  ReadChunkRef vol (mRef m) s = (s, Ok (content s m)).
Proof.
  intros Hg Hm Hne. pose proof (content_length s m Hg Hm) as Hlen. revert Hlen.
  unfold ReadChunkRef, bind_act, content. rewrite store_get_law, chunk_size_eq by done.
  rewrite (proj2 (Z.eqb_neq _ _) Hne). unfold chunk_key.
  destruct (object_at s _) as [b|]; cbn; [|done]. intros ->. by rewrite Z.eqb_refl.
Qed.

Lemma read_logical_chunk (s : S) lc :
  geometry -> Inv s -> chunk_in lc ->
  readLogicalChunk vol (the_page s (lc / cpp)) lc s = (s, Ok (chunk_at s lc)).
Proof.
  intros Hg Hs Hlc. pose proof (mapping_at_valid s lc Hg Hs Hlc) as Hv.
  pose proof (chunk_page lc Hg Hlc) as Hp. pose proof (cpp_bound Hg) as Hcpp.
  destruct (inv_pages s Hs _ Hp) as (pg & Hpg & ms & Hcov & Hlen & Hall).
  unfold readLogicalChunk, chunk_at. unfold mapping_at, page_mapping in *.
  rewrite (the_page_eq _ _ _ Hpg) in *.
  assert (0 <= lc / cpp * cpp /\ lc / cpp * cpp + zlen ms < 2 ^ 64) as [Hps Hb].
  { destruct Hg. unfold page_in, chunk_in in *. nia. }
  pose proof (covers_find _ _ _ lc Hcov Hps Hb) as Hf.
  destruct (findAllocationChunk _ lc) as [e|]; [|by rewrite chunk_size_eq].
  destruct Hf as (_ & m & _ & Hmap & Hkind). rewrite Hmap in *. rewrite Hkind.
  unfold kindForChunkMapping, norm, content in *. rewrite chunk_size_eq by done.
  destruct (Z.eqb_spec (rChunkID (mRef m)) 0) as [_|Hne]; [done|].
  change (String.eqb AllocationChunkKindData AllocationChunkKindZero) with false.
  unfold extent_mapping in Hmap. rewrite Hkind in Hmap.
  change (String.eqb AllocationChunkKindData AllocationChunkKindData) with true in Hmap.
  cbn [negb] in Hmap. rewrite <-Hmap in *. cbn [mRef mPayloadEncryption] in *.
  destruct Hv as [Hv|Hv]; [done|]. destruct Hv as (Henc & Hrest). cbn in Henc.
  rewrite Henc. cbn [isSome].
  pose proof (read_ref_content s (mkMapping (chunkRef e lc) None) Hg ltac:(by right) Hne) as Hr.
  unfold content in Hr. cbn [mRef] in Hr. by rewrite Hr, (proj2 (Z.eqb_neq _ _) Hne).
Qed.

(** ** Steps that leave the view alone *)

Record Same (s s' : S) : Prop := {
  same_page : forall p, page_at s' (vID vol) p = page_at s (vID vol) p;
  same_chunk : forall lc, chunk_in lc -> chunk_at s' lc = chunk_at s lc;
  same_inv : Inv s -> Inv s' }.

Lemma Same_refl (s : S) : Same s s.
Proof. by split. Qed.

Lemma Same_trans (s1 s2 s3 : S) : Same s1 s2 -> Same s2 s3 -> Same s1 s3.
Proof.
  intros [P1 C1 I1] [P2 C2 I2]. split; [|intros lc Hlc|auto].
  - intros p. by rewrite P2.
  - by rewrite C2, C1.
Qed.

Lemma mapping_at_same (s s' : S) lc :
  (forall p, page_at s' (vID vol) p = page_at s (vID vol) p) -> mapping_at s' lc = mapping_at s lc.
Proof. intros Hp. unfold mapping_at, the_page. by rewrite Hp. Qed.

(** Changing only the allocator, forwards, keeps the view. *)
Lemma Same_next (s s' : S) :
  same_pages s s' -> same_objects s s' -> next_id s (vID vol) <= next_id s' (vID vol) < 2 ^ 64 ->
  Same s s'.
Proof.
  intros Hp Ho Hn. split; [auto| |].
  - intros lc _. unfold chunk_at, content. rewrite (mapping_at_same s s') by auto.
    by rewrite Ho.
  - intros [He Hpg Hx Hfr]. split; [by rewrite Hp| |lia|].
    2:{ intros ref Hr Hid. rewrite Ho. apply Hfr; [done|lia]. }
    intros p Hin. destruct (Hpg p Hin) as (pg & E & ms & Hc & Hl & Hall).
    exists pg. rewrite Hp. split; [done|]. exists ms. split; [done|]. split; [done|].
    eapply Forall_impl; [exact Hall|]. intros m [Hm|(He' & Hr & Hid & Hb)]; [by left|right].
    rewrite Ho. split; [done|]. split; [done|]. split; [lia|done].
Qed.

(** Chunk [ref] is not part of the view. *)
Definition unreferenced (s : S) (ref : PhysicalChunkRef) : Prop :=
  forall lc, chunk_in lc -> rChunkID (mRef (mapping_at s lc)) <> rChunkID ref.

Lemma fresh_unreferenced (s : S) ref :
  geometry -> Inv s -> next_id s (vID vol) <= rChunkID ref -> unreferenced s ref.
Proof.
  intros Hg Hs Hid lc Hlc. pose proof (mapping_at_valid s lc Hg Hs Hlc) as Hv.
  pose proof (inv_next s Hs). destruct Hv as [->|(_ & _ & ? & _)]; lia.
Qed.

Lemma put_step (s : S) ref b :
  geometry -> Inv s -> ref_ok ref -> zlen b = cs -> 1 <= rChunkID ref < next_id s (vID vol) ->
  unreferenced s ref ->
  exists s', WriteChunkRef vol ref b s = (s', Ok tt) /\ Inv s' /\ Same s s' /\ same_next s s' /\
    object_at s' (chunk_key ref) = Some b /\
    (forall k, k <> chunk_key ref -> object_at s' k = object_at s k).
Proof.
  intros Hg Hs Hr Hb Hid Hun. unfold WriteChunkRef. rewrite chunk_size_eq, Hb, Z.eqb_refl by done.
  cbn [negb]. fold (chunk_key ref).
  destruct (store_put_law s (chunk_key ref) b) as (s' & Hput & Hp & Hn & Hob & Hother).
  assert (Inv s') as Hs'.
  { destruct Hs as [He Hpg Hx Hfr]. split; [by rewrite Hp| |by rewrite Hn|].
    2:{ intros r' Hr' Hid'. rewrite Hn in Hid'. rewrite Hother; [by apply Hfr|].
        intros Hk. apply chunk_key_inj in Hk; [|done..]. subst r'. lia. }
    intros p Hin. destruct (Hpg p Hin) as (pg & E & ms & Hc & Hl & Hall).
    exists pg. rewrite Hp. split; [done|]. exists ms. split; [done|]. split; [done|].
    eapply Forall_impl; [exact Hall|]. intros m [Hm|(He' & Hr' & Hid' & Hlen)]; [by left|right].
    rewrite Hn. do 3 (split; [done|]).
    destruct (decide (chunk_key (mRef m) = chunk_key ref)) as [->|Hne]; [by exists b|].
    by rewrite Hother. }
  exists s'. split; [done|]. split; [done|]. split; [|done]. split; [auto| |done].
  intros lc Hlc. pose proof (mapping_at_valid s lc Hg Hs Hlc) as Hv.
  unfold chunk_at, content. rewrite (mapping_at_same s s') by auto.
  destruct (Z.eqb_spec (rChunkID (mRef (mapping_at s lc))) 0); [done|].
  destruct Hv as [|(_ & Hr' & _)]; [done|]. rewrite Hother; [done|]. intros Hk.
  apply chunk_key_inj in Hk; [|done..]. specialize (Hun lc Hlc). by rewrite Hk in Hun.
Qed.

Lemma alloc_step (s : S) n :
  Inv s -> 0 < n < 2 ^ 32 -> next_id s (vID vol) + n < 2 ^ 64 ->
  exists s', AllocateChunkIDs (vID vol) n s = (s', Ok (next_id s (vID vol))) /\ Inv s' /\
    Same s s' /\ same_objects s s' /\ next_id s' (vID vol) = next_id s (vID vol) + n.
Proof.
  intros Hs Hn Hb. destruct (alloc_law s (vID vol) n) as (s' & Ha & Hp & Ho & Hx & _);
    [apply Hs|done|apply Hs|done|].
  exists s'. assert (Same s s') as Hsame.
  { pose proof (inv_next s Hs). apply Same_next; [done..|]. rewrite Hx. lia. }
  split; [done|]. split; [by apply (same_inv s s')|]. done.
Qed.

(** ** The commit step *)

Lemma page_chunks p k : geometry -> 0 <= k < cpp -> (p * cpp + k) / cpp = p.
Proof.
  intros [? ? ? ? ?] Hk. rewrite Z.div_add_l by lia. rewrite Z.div_small by lia. lia.
Qed.

(** Storing a page whose extents tile [ms] installs the mappings [ms] in the
    page and leaves every other chunk alone. *)
Lemma commit_step (s : S) p rec rev ms :
  geometry -> Inv s -> page_in p -> pVolumeID rec = vID vol -> pPageNo rec = p ->
  covers (p * cpp) (pExtents rec) ms -> zlen ms <= cpp ->
  (revision s p = rev -> Forall (mapping_valid s) ms) ->
  exists s' res, PutExtentPage rec rev s = (s', res) /\ same_objects s s' /\ same_next s s' /\
  Inv s' /\
  if revision s p =? rev
  then is_ok res = true /\ revision s' p = add_i64 rev 1 /\
       (forall q, q <> p -> page_at s' (vID vol) q = page_at s (vID vol) q) /\
       (forall lc, chunk_in lc -> chunk_at s' lc =
          if lc / cpp =? p then content s (norm (list_get ms (lc - p * cpp))) else chunk_at s lc)
  else res = Err ErrMetadataCASConflict /\ Same s s'.
Proof.
  intros Hg Hs Hp Hv Hno Hcov Hlen Hall.
  destruct (inv_pages s Hs p Hp) as (cur & Hcur & Hvalid).
  destruct (put_page_law s rec rev cur) as (s' & res & Hput & Ho & Hn & Hres);
    [by rewrite Hv, Hno|].
  exists s', res. unfold revision. rewrite (the_page_eq _ _ _ Hcur).
  split; [done|]. split; [done|]. split; [done|].
  unfold revision in Hall. rewrite (the_page_eq _ _ _ Hcur) in Hall.
  rewrite Hv, Hno in Hres. destruct (Z.eqb_spec (pRevision cur) rev) as [Heq|_];
    [specialize (Hall Heq)|].
  2:{ destruct Hres as [-> Hpages].
      pose proof (inv_next s Hs) as Hnx.
      assert (Same s s') as Hsame by (apply Same_next; [done..|rewrite Hn; lia]).
      split; [by apply (same_inv s s')|]. done. }
  destruct Hres as (pg & -> & Hpg & Hext & Hrev & Hother).
  assert (Inv s') as Hs'.
  { split; [| |rewrite Hn; apply Hs|intros ref; rewrite Hn, Ho; apply Hs].
    - destruct (decide (0 = p)) as [<-|Hne]; [by rewrite Hpg|]. rewrite Hother by tauto. apply Hs.
    - intros q Hq. destruct (decide (q = p)) as [->|Hne].
      + exists pg. split; [done|]. exists ms. rewrite Hext. split; [done|]. split; [done|].
        eapply Forall_impl; [exact Hall|]. intros m. unfold mapping_valid. by rewrite Ho, Hn.
      + rewrite Hother by tauto. destruct (inv_pages s Hs q Hq) as (pq & Epq & ms' & Hc' & Hl' & Hall').
        exists pq. split; [done|]. exists ms'. split; [done|]. split; [done|].
        eapply Forall_impl; [exact Hall'|]. intros m. unfold mapping_valid. by rewrite Ho, Hn. }
  split; [done|]. split; [done|]. rewrite (the_page_eq _ _ _ Hpg). split; [done|].
  split; [intros q Hq; apply Hother; tauto|]. intros lc Hlc.
  unfold chunk_at, mapping_at. destruct (Z.eqb_spec (lc / cpp) p) as [Hlcp|Hne].
  - rewrite Hlcp, (the_page_eq _ _ _ Hpg).
    rewrite (page_mapping_get s' p pg ms lc Hg Hp Hlc (eq_sym Hlcp)) by (done || by rewrite Hext).
    unfold content. by rewrite Ho.
  - unfold the_page. rewrite Hother by tauto. unfold content. by rewrite Ho.
Qed.

End View.
End DataWorld.
