(* ===== verification/ReadFacts.v ===== *)
(** * Reading a range returns the bytes of the flat view *)

From Stdlib Require Import ZArith Lia Ascii String.
From stdpp Require Import base list gmap strings.
From coqutil Require Import Byte.
From S2P Require Import Prelude GatewayTypes ObjectStore ChunkMap ChunkExtent DataWorld.
Open Scope string_scope.
Open Scope Z_scope.

Module ReadFacts.
Import Gateway Store ChunkMap ChunkExtent DataWorld.

(** [out] agrees with the view on the request's bytes below offset [upto]. *)
Definition filled {S} `{DataView S} (vol : VolumeSpec) (s : S) (off len upto : Z) (out : bytes)
  : Prop :=
  zlen out = len /\
  forall i, 0 <= i < len -> off + i < upto -> out !! Z.to_nat i = Some (byte_at vol s (off + i)).

Section Read.
Context {S : Type} `{DataLaws S}.
Context (vol : VolumeSpec) (Hg : geometry vol).

Abbreviation cs := (cs vol).
Abbreviation cpp := (cpp vol).

(** The byte of a chunk at a given offset of the volume. *)
Lemma byte_in_chunk (s : S) lc o :
  Inv vol s -> chunk_in lc -> lc * cs <= o < lc * cs + cs ->
  chunk_at vol s lc !! Z.to_nat (o - lc * cs) = Some (byte_at vol s o).
Proof.
  intros Hs Hlc Ho. pose proof (chunk_at_length vol s lc Hg Hs Hlc) as Hlen.
  pose proof (geo_cs vol Hg) as Hcs. unfold byte_at.
  replace (o / cs) with lc by (apply Z.div_unique with (o - lc * cs); lia).
  replace (o mod cs) with (o - lc * cs) by (apply Z.mod_unique with lc; lia).
  destruct (lookup_lt_is_Some_2 (chunk_at vol s lc) (Z.to_nat (o - lc * cs))) as [b ->]; [|done].
  unfold zlen in Hlen. lia.
Qed.

Section Range.
Context (s : S) (Hs : Inv vol s) (off len : Z) (Hoff : 0 <= off) (Hpos : 0 < len).
Context (Hend : off + len <= 2 ^ 63).

(** One chunk of the request: where it is copied from and to. *)
Lemma chunk_window lc :
  off / cs <= lc <= (off + len - 1) / cs ->
  chunk_in lc /\ lc * cs <= off + len - 1 /\ off < lc * cs + cs /\ lc * cs + cs < 2 ^ 64.
Proof.
  intros Hlc. pose proof (geo_cs vol Hg) as Hcs. unfold chunk_in.
  pose proof (Z.mul_div_le (off + len - 1) cs ltac:(lia)).
  pose proof (Z.mul_succ_div_gt off cs ltac:(lia)).
  pose proof (Z.div_pos off cs ltac:(lia) ltac:(lia)).
  assert (lc * cs <= off + len - 1) by nia. assert (off < lc * cs + cs) by nia.
  repeat split; try lia; nia.
Qed.

Lemma filled_step lc out :
  off / cs <= lc <= (off + len - 1) / cs -> filled vol s off len (lc * cs) out ->
  let a := Z.max off (lc * cs) in let b := Z.min (off + len) (lc * cs + cs) in
  filled vol s off len (lc * cs + cs)
    (splice out (a - off) (slice (a - lc * cs) (b - lc * cs) (chunk_at vol s lc))).
Proof.
  intros Hlc [Hlen Hpre] a b. pose proof (geo_cs vol Hg) as Hcs. destruct (chunk_window lc Hlc) as (Hin & Hlo & Hhi & _).
  pose proof (chunk_at_length vol s lc Hg Hs Hin) as Hclen.
  assert (a < b /\ off <= a /\ lc * cs <= a /\ b <= off + len /\ b <= lc * cs + cs) as Hab by lia.
  assert (zlen (slice (a - lc * cs) (b - lc * cs) (chunk_at vol s lc)) = b - a) as Hsl.
  { rewrite zlen_slice by lia. lia. }
  split; [rewrite zlen_splice; rewrite ?Hsl; lia|].
  intros i Hi Hup. destruct (decide (a - off <= i < b - off)) as [Hw|Hw].
  - rewrite lookup_splice_in by (rewrite ?Hsl; lia). rewrite lookup_slice by lia.
    rewrite <-(byte_in_chunk s lc (off + i) Hs Hin) by lia. f_equal. lia.
  - rewrite lookup_splice_out by (rewrite ?Hsl; lia). apply Hpre; lia.
Qed.

Lemma read_loop_spec n : forall lc cache out,
  lc + Z.of_nat n = (off + len - 1) / cs + 1 -> off / cs <= lc ->
  (forall p pg, cache !! p = Some pg -> page_at s (vID vol) p = Some pg) ->
  filled vol s off len (lc * cs) out ->
  exists out', read_loop n vol off len lc cache out s = (s, Ok out') /\
    filled vol s off len (off + len) out'.
Proof.
  pose proof (geo_cs vol Hg) as Hcs. pose proof (geo_cpp vol Hg) as Hcpp.
  induction n as [|n IH]; intros lc cache out Hn Hlo Hcache Hout; cbn [read_loop].
  { exists out. split; [done|]. destruct Hout as [Hlen Hpre]. split; [done|].
    intros i Hi _. apply Hpre; [done|].
    pose proof (Z.mul_succ_div_gt (off + len - 1) cs ltac:(lia)). nia. }
  destruct (chunk_window lc ltac:(lia)) as (Hin & Hw1 & Hw2 & Hw3).
  pose proof (chunk_page vol lc Hg Hin) as Hpage.
  destruct (inv_pages vol s Hs _ Hpage) as (pg & Hpg & _).
  change (vExtentPageBytes vol / vChunkSizeBytes vol) with cpp.
  change (vChunkSizeBytes vol) with cs.
  destruct (Z.eqb_spec cpp 0); [lia|].
  assert ((match cache !! (lc / cpp) with
           | Some page => ret_act page
           | None => GetExtentPage (vID vol) (lc / cpp)
           end) s = (s, Ok pg)) as Hfetch.
  { destruct (cache !! (lc / cpp)) as [pg'|] eqn:Hc.
    - apply Hcache in Hc. rewrite Hpg in Hc. by injection Hc as <-.
    - by rewrite get_page_law, Hpg. }
  unfold bind_act at 1. rewrite Hfetch. unfold bind_act at 1.
  rewrite <-(the_page_eq vol s _ _ Hpg), read_logical_chunk by done.
  pose proof (chunk_at_length vol s lc Hg Hs Hin) as Hclen.
  assert (0 <= lc * cs) by (unfold chunk_in in Hin; nia).
  rewrite (mul64_small lc cs), (add64_small off len), (add64_small (lc * cs) cs)
    by (unfold in_u; lia).
  set (a := Z.max off (lc * cs)). set (b := Z.min (off + len) (lc * cs + cs)).
  assert (a < b /\ off <= a /\ lc * cs <= a /\ b <= off + len /\ b <= lc * cs + cs) as Hab by lia.
  rewrite (sub64_small a off), (sub64_small a (lc * cs)), (sub64_small b a) by (unfold in_u; lia).
  rewrite (add64_small (a - off) (b - a)), (add64_small (a - lc * cs) (b - a))
    by (unfold in_u; lia).
  replace (a - off + (b - a)) with (b - off) by lia.
  replace (a - lc * cs + (b - a)) with (b - lc * cs) by lia.
  unfold bind_act, lift_act, go_slice. destruct Hout as [Hlen Hpre].
  rewrite Hlen, Hclen.
  destruct (Z.leb_spec 0 (a - off)), (Z.leb_spec (a - off) (b - off)), (Z.leb_spec (b - off) len),
    (Z.leb_spec 0 (a - lc * cs)), (Z.leb_spec (a - lc * cs) (b - lc * cs)),
    (Z.leb_spec (b - lc * cs) cs); try lia. cbn [andb].
  rewrite (add64_small lc 1) by (unfold in_u, chunk_in in *; lia).
  apply IH; [lia|lia| |].
  - intros p pg' Hp. apply lookup_insert_Some in Hp as [[<- <-]|[_ Hp]]; [|by apply Hcache].
    by rewrite (the_page_eq vol s _ _ Hpg).
  - replace ((lc + 1) * cs) with (lc * cs + cs) by lia. apply filled_step; [lia|by split].
Qed.

Lemma ReadAt_filled :
  exists out, ReadAt vol off len s = (s, Ok out) /\ filled vol s off len (off + len) out.
Proof.
  pose proof (geo_cs vol Hg) as Hcs. unfold ReadAt. rewrite (geo_norm vol Hg).
  destruct (Z.eqb_spec len 0); [lia|]. change (vChunkSizeBytes vol) with cs.
  rewrite add64_small, sub64_small by (unfold in_u; lia).
  assert (off / cs <= (off + len - 1) / cs) by (apply Z.div_le_mono; lia).
  apply read_loop_spec; [lia|lia|done|].
  split; [apply zlen_zeroes; lia|]. intros i Hi Hlt.
  pose proof (Z.mul_div_le off cs ltac:(lia)). nia.
Qed.

End Range.
End Read.
End ReadFacts.
