(* ===== verification/WriteFacts.v ===== *)
(** * The write path: scanning a page, writing chunks, committing

    The lemmas follow the three phases of [writePage].  [overlay] is what a
    logical chunk must contain after the write; scanning computes it from the
    page as first read, writing puts it into fresh chunks, and committing
    installs the chunks with a compare-and-swap. *)

From Stdlib Require Import ZArith Lia Ascii String.
From stdpp Require Import base list gmap strings.
From coqutil Require Import Byte.
From S2P Require Import Prelude GatewayTypes ObjectStore ObjectStoreFacts ChunkMap ChunkExtent.
From S2P Require Import DataWorld ReadFacts.
Open Scope string_scope.
Open Scope Z_scope.

Module WriteFacts.
Import Gateway Store StoreFacts ChunkMap ChunkExtent DataWorld.

Lemma isAllZero_spec data : isAllZero data = true <-> data = zeroes (zlen data).
Proof.
  unfold isAllZero, zeroes, zlen. rewrite Nat2Z.id.
  induction data as [|b data IH]; cbn; [done|]. rewrite andb_true_iff, IH.
  split.
  - intros [Hb ->]. apply Byte.byte_dec_bl in Hb as ->. by rewrite length_replicate at 1.
  - intros [= -> ->]. split; [by apply Byte.byte_dec_lb|]. by rewrite length_replicate.
Qed.

Section Overlay.
Context (vol : VolumeSpec) (Hg : geometry vol).
Context (off len : Z) (data : bytes) (Hoff : 0 <= off) (Hpos : 0 < len).
Context (Hend : off + len <= 2 ^ 63) (Hdata : zlen data = len).

Abbreviation cs := (cs vol).
Abbreviation cpp := (cpp vol).

(** The part of the request that falls into chunk [lc]. *)
Definition win_start (lc : Z) : Z := Z.max off (lc * cs).
Definition win_end (lc : Z) : Z := Z.min (off + len) (lc * cs + cs).
Definition touches (lc : Z) : bool := win_start lc <? win_end lc.
Definition covers_chunk (lc : Z) : bool :=
  (win_start lc =? lc * cs) && (win_end lc =? lc * cs + cs).

(** Chunk [lc] after the write, given its content before. *)
Definition overlay (old : bytes) (lc : Z) : bytes :=
  if touches lc
  then splice old (win_start lc - lc * cs) (slice (win_start lc - off) (win_end lc - off) data)
  else old.

Lemma win_slice lc : touches lc = true ->
  zlen (slice (win_start lc - off) (win_end lc - off) data) = win_end lc - win_start lc.
Proof. unfold touches, win_start, win_end. intros Ht%Z.ltb_lt. rewrite zlen_slice; lia. Qed.

Lemma overlay_length old lc : zlen old = cs -> zlen (overlay old lc) = cs.
Proof.
  intros Ho. unfold overlay. destruct (touches lc) eqn:Ht; [|done].
  pose proof (win_slice lc Ht) as Hs. unfold touches, win_start, win_end in *.
  apply Z.ltb_lt in Ht. rewrite zlen_splice; rewrite ?Hs; lia.
Qed.

Lemma overlay_byte old lc o :
  zlen old = cs -> lc * cs <= o < lc * cs + cs ->
  overlay old lc !! Z.to_nat (o - lc * cs) =
  if (off <=? o) && (o <? off + len) then data !! Z.to_nat (o - off)
  else old !! Z.to_nat (o - lc * cs).
Proof.
  intros Ho Hin. unfold overlay. destruct (touches lc) eqn:Ht.
  - pose proof (win_slice lc Ht) as Hs. unfold touches, win_start, win_end in *.
    apply Z.ltb_lt in Ht. destruct (Z.leb_spec off o), (Z.ltb_spec o (off + len)); cbn [andb].
    + rewrite lookup_splice_in by (rewrite ?Hs; lia). rewrite lookup_slice by lia. f_equal. lia.
    + rewrite lookup_splice_out by (rewrite ?Hs; lia). done.
    + rewrite lookup_splice_out by (rewrite ?Hs; lia). done.
    + lia.
  - unfold touches, win_start, win_end in *. apply Z.ltb_ge in Ht.
    destruct (Z.leb_spec off o), (Z.ltb_spec o (off + len)); cbn [andb]; done || lia.
Qed.

(** A chunk the request covers completely does not depend on its old content. *)
Lemma overlay_full old old' lc :
  covers_chunk lc = true -> zlen old = cs -> zlen old' = cs -> overlay old lc = overlay old' lc.
Proof.
  intros Hf Ho Ho'. pose proof (geo_cs vol Hg). unfold covers_chunk in Hf. bools.
  assert (touches lc = true) as Ht by (unfold touches; apply Z.ltb_lt; lia).
  pose proof (win_slice lc Ht) as Hs. unfold overlay. rewrite Ht.
  unfold splice, zlen in *. replace (win_start lc - lc * cs) with 0 in * by lia. cbn [take].
  change (Z.to_nat 0) with 0%nat. cbn [take Nat.add app]. rewrite !drop_ge by lia. done.
Qed.

(** The page the request is applied to. *)
Context (p : Z) (Hp : page_in vol p) (n : Z) (Hn : 0 < n <= cpp).
Context (Hchunks : p * cpp + n <= 2 ^ 63) (Hlast : (p * cpp + n) * cs < 2 ^ 64).

Abbreviation base := (p * cpp).

Lemma base_nonneg : 0 <= base.
Proof. destruct Hp. pose proof (geo_cpp vol Hg). nia. Qed.

(** The chunk arithmetic of the scan does not wrap. *)
Lemma scan_arith k :
  0 <= k < n ->
  add64 base k = base + k /\ mul64 (base + k) cs = (base + k) * cs /\
  add64 ((base + k) * cs) cs = (base + k) * cs + cs /\ add64 off len = off + len.
Proof.
  intros Hk. pose proof base_nonneg. pose proof (geo_cs vol Hg). pose proof (cpp_bound vol Hg).
  destruct Hp as [_ Hpb].
  assert (0 <= (base + k) * cs /\ (base + k) * cs + cs <= (base + n) * cs) by nia.
  repeat split; [apply add64_small|apply mul64_small|apply add64_small|apply add64_small];
    unfold in_u; lia.
Qed.

(** ** Phase one: the scan *)

Section Scan.
Context {S : Type} `{DataLaws S}.
Context (s : S) (Hs : Inv vol s).

Definition wanted (k : Z) : bytes := overlay (chunk_at vol s (base + k)) (base + k).

(** The indices of the page whose chunk the write leaves non-zero. *)
Definition dirty (ks : list Z) : list Z := filter (fun j => isAllZero (wanted j) = false) ks.

Lemma chunk_in_page k : 0 <= k < n -> chunk_in (base + k).
Proof.
  intros Hk. pose proof base_nonneg. unfold chunk_in. lia.
Qed.

Lemma wanted_length k : 0 <= k < n -> zlen (wanted k) = cs.
Proof. intros Hk. apply overlay_length, chunk_at_length; auto using chunk_in_page. Qed.

Lemma read_mapping m :
  mapping_valid vol s m -> readChunkByMapping vol m s = (s, Ok (content vol s m)).
Proof.
  intros Hm. unfold readChunkByMapping.
  destruct (Z.eqb_spec (rChunkID (mRef m)) 0) as [Hz|Hne].
  { unfold content. by rewrite Hz. }
  destruct Hm as [|Hm]; [done|]. destruct Hm as (Henc & Hrest). rewrite Henc. cbn [isSome].
  apply read_ref_content; [done|by right|done].
Qed.

Context (cur : list allocationChunkMapping) (Hcurlen : zlen cur = n).
Context (Hcur : forall k, 0 <= k < n -> list_get cur k = mapping_at vol s (base + k)).

Lemma cur_lookup k : 0 <= k < n -> cur !! Z.to_nat k = Some (mapping_at vol s (base + k)).
Proof.
  intros Hk. rewrite <-Hcur by done. unfold list_get. unfold zlen in Hcurlen.
  destruct (lookup_lt_is_Some_2 cur (Z.to_nat k)) as [m ->]; [lia|done].
Qed.

(** What the scan does at one index. *)
Definition scan_one (k : Z) (sc : scan) : scan :=
  let sc := sc <| fullChunkMergeable := fullChunkMergeable sc && covers_chunk (base + k) |> in
  if isAllZero (wanted k)
  then sc <| fullChunkMergeable := false |>
          <| staleChunkRefs := if negb (rChunkID (mRef (mapping_at vol s (base + k))) =? 0)
                               then {[mRef (mapping_at vol s (base + k))]} ∪ staleChunkRefs sc
                               else staleChunkRefs sc |>
          <| nextMappings := <[Z.to_nat k := zero_mapping]> (nextMappings sc) |>
  else sc <| pending := (pending sc ++ [(k, wanted k)])%list |>.

Lemma scan_step m k sc st :
  0 <= k < n -> touches (base + k) = true ->
  exists st', scan_loop vol off len base data cur (Datatypes.S m) k sc (s, st)
            = scan_loop vol off len base data cur m (k + 1) (scan_one k sc) (s, st').
Proof.
  intros Hk Ht. pose proof (chunk_in_page k Hk) as Hin.
  pose proof (chunk_at_length vol s _ Hg Hs Hin) as Hclen.
  pose proof (win_slice (base + k) Ht) as Hsl.
  destruct (scan_arith k Hk) as (E1 & E2 & E3 & E4).
  cbn [scan_loop]. change (vChunkSizeBytes vol) with cs. rewrite E1, E2, E3, E4.
  fold (win_start (base + k)) (win_end (base + k)).
  pose proof Ht as Ht'. unfold touches in Ht'. apply Z.ltb_lt in Ht'.
  destruct (Z.leb_spec (win_end (base + k)) (win_start (base + k))); [lia|].
  set (a := win_start (base + k)) in *. set (b := win_end (base + k)) in *.
  set (lo := (base + k) * cs) in *.
  assert (off <= a /\ lo <= a /\ b <= off + len /\ b <= lo + cs /\ 0 <= lo /\ lo < 2 ^ 64) as Hab.
  { pose proof base_nonneg. pose proof (geo_cs vol Hg).
    unfold a, b, lo, win_start, win_end. nia. }
  rewrite (sub64_small a off), (sub64_small b a), (add64_small (a - off) (b - a)),
    (sub64_small a lo), (add64_small (a - lo) (b - a)) by (unfold in_u; lia).
  replace (a - off + (b - a)) with (b - off) by lia.
  replace (a - lo + (b - a)) with (b - lo) by lia.
  assert (forall i j (l : bytes), 0 <= i <= j -> j <= zlen l ->
            go_slice (E:=svc_error) i j l = Ok (slice i j l)) as Hgo.
  { intros i j l Hij Hj. unfold go_slice. zcases; done || lia. }
  unfold bind_act at 1, lift_act at 1. rewrite Hgo by lia.
  unfold bind_act at 1, lift_act at 1. rewrite cur_lookup by done.
  assert (wanted k = splice (chunk_at vol s (base + k)) (a - lo) (slice (a - off) (b - off) data))
    as Hw by (unfold wanted, overlay; by rewrite Ht).
  change ((a =? lo) && (b =? lo + cs)) with (covers_chunk (base + k)).
  destruct (covers_chunk (base + k)) eqn:Hfull.
  - assert (slice (a - off) (b - off) data = wanted k) as ->.
    { rewrite Hw. unfold covers_chunk in Hfull. fold a b lo in Hfull. bools.
      unfold splice, zlen in *. replace (a - lo) with 0 by lia. change (Z.to_nat 0) with 0%nat.
      cbn [take Nat.add app]. rewrite drop_ge by lia. by rewrite app_nil_r. }
    unfold bind_act, count, ret_act. cbn [fst snd]. unfold scan_one. rewrite Hfull.
    eexists. destruct (isAllZero (wanted k)); reflexivity.
  - unfold bind_act, count, ret_act, lift, lift_act. cbn [fst snd].
    rewrite read_mapping by (by apply mapping_at_valid). fold (chunk_at vol s (base + k)).
    rewrite Hgo by lia. rewrite <-Hw. unfold scan_one. rewrite Hfull.
    eexists. destruct (isAllZero (wanted k)); reflexivity.
Qed.

Lemma scan_loop_spec m : forall k sc st,
  0 <= k -> k + Z.of_nat m <= n ->
  (forall j, k <= j < k + Z.of_nat m -> touches (base + j) = true) ->
  exists st', scan_loop vol off len base data cur m k sc (s, st)
            = ((s, st'), Ok (fold_left (fun sc j => scan_one j sc) (seqZ k (Z.of_nat m)) sc)).
Proof.
  induction m as [|m IH]; intros k sc st Hk Hb Ht.
  { exists st. done. }
  destruct (scan_step m k sc st ltac:(lia) (Ht k ltac:(lia))) as [st1 ->].
  destruct (IH (k + 1) (scan_one k sc) st1 ltac:(lia) ltac:(lia)) as [st2 ->].
  { intros j Hj. apply Ht. lia. }
  exists st2. rewrite (seqZ_cons k (Z.of_nat (Datatypes.S m))) by lia. cbn [fold_left].
  replace (Z.pred (Z.of_nat (Datatypes.S m))) with (Z.of_nat m) by lia. done.
Qed.

(** The outcome of the scan, index by index. *)
Lemma scan_fold ks : forall sc,
  Forall (fun k => 0 <= k < n) ks ->
  let sc' := fold_left (fun sc j => scan_one j sc) ks sc in
  length (nextMappings sc') = length (nextMappings sc) /\
  pending sc' = (pending sc ++ ((fun j => (j, wanted j)) <$> dirty ks))%list /\
  (forall j, 0 <= j < zlen (nextMappings sc) -> list_get (nextMappings sc') j =
     if decide (j ∈ ks /\ isAllZero (wanted j) = true) then zero_mapping
     else list_get (nextMappings sc) j) /\
  (fullChunkMergeable sc' = true -> fullChunkMergeable sc = true /\
     Forall (fun j => covers_chunk (base + j) = true /\ isAllZero (wanted j) = false) ks).
Proof.
  induction ks as [|k ks IH]; intros sc Hks; cbn [fold_left].
  { split; [done|]. split; [by rewrite app_nil_r|]. split; [|by auto].
    intros j _. rewrite decide_False; [done|]. intros [Hj _]. by apply elem_of_nil in Hj. }
  inversion_clear Hks as [|? ? Hk Hks'].
  destruct (IH (scan_one k sc) Hks') as (Hl & Hpd & Hnx & Hm). clear IH.
  unfold dirty in *. rewrite filter_cons.
  assert (length (nextMappings (scan_one k sc)) = length (nextMappings sc)) as Hl1.
  { unfold scan_one. destruct (isAllZero (wanted k)); cbn; [apply length_insert|done]. }
  split; [congruence|]. split; [|split].
  - rewrite Hpd. unfold scan_one. destruct (isAllZero (wanted k)) eqn:Hz; cbn.
    + rewrite decide_False by done. done.
    + rewrite decide_True by done. cbn. by rewrite <-app_assoc.
  - intros j Hj. rewrite Hnx by (unfold zlen in *; lia). unfold scan_one.
    destruct (decide (j ∈ ks /\ isAllZero (wanted j) = true)) as [[Hin Hz]|Hno].
    { rewrite decide_True; [done|]. split; [by right|done]. }
    destruct (isAllZero (wanted k)) eqn:Hz; cbn.
    + destruct (decide (j = k)) as [->|Hne].
      * rewrite decide_True by (split; [by left|done]). unfold list_get, zlen in *.
        by rewrite list_lookup_insert_eq by lia.
      * rewrite decide_False.
        -- unfold list_get. rewrite list_lookup_insert_ne by lia. done.
        -- intros [Hin Hz']. apply elem_of_cons in Hin as [?|?]; tauto.
    + rewrite decide_False; [done|]. intros [Hin Hz'].
      apply elem_of_cons in Hin as [->|?]; [congruence|tauto].
  - intros Hmg. destruct (Hm Hmg) as [Hm1 Hall]. unfold scan_one in Hm1.
    destruct (isAllZero (wanted k)) eqn:Hz; cbn in Hm1; [done|].
    apply andb_prop in Hm1 as [? ?]. split; [done|]. by constructor.
Qed.

End Scan.

(** ** Phase two: writing fresh chunks *)

Section Pending.
Context {S : Type} `{DataLaws S}.
Context (planner : option (VolumeSpec -> Z -> Z -> result svc_error PhysicalChunkRef)).
Context (order : list PhysicalChunkRef -> list PhysicalChunkRef).

(** The planner places the chunk id it is given. *)
Definition plan_ok : Prop := forall lc id, 1 <= id < 2 ^ 64 ->
  exists ref, choosePhysicalChunkRef planner vol lc id = Ok ref /\ rChunkID ref = id /\ ref_ok ref.
Context (Hplan : plan_ok).

Definition chosen (lc id : Z) : PhysicalChunkRef :=
  match choosePhysicalChunkRef planner vol lc id with Ok ref => ref | _ => zero_PhysicalChunkRef end.

Lemma chosen_spec lc id : 1 <= id < 2 ^ 64 ->
  choosePhysicalChunkRef planner vol lc id = Ok (chosen lc id) /\
  rChunkID (chosen lc id) = id /\ ref_ok (chosen lc id).
Proof. intros Hid. destruct (Hplan lc id Hid) as (ref & E & Hr). unfold chosen. by rewrite E. Qed.

(** Where the pending chunks go: ids are given out from [id] on. *)
Fixpoint placed (id : Z) (todo : list (Z * bytes)) : list (Z * PhysicalChunkRef) :=
  match todo with
  | [] => []
  | (k, _) :: todo => (k, chosen (base + k) id) :: placed (id + 1) todo
  end.

Lemma placed_ids todo : forall id k ref,
  1 <= id -> id + zlen todo <= 2 ^ 64 -> (k, ref) ∈ placed id todo ->
  id <= rChunkID ref < id + zlen todo /\ ref_ok ref.
Proof.
  induction todo as [|[k' b] todo IH]; intros id k ref H1' Hb Hin; cbn [placed] in Hin.
  { by apply elem_of_nil in Hin. }
  change ((k', b) :: todo) with ([(k', b)] ++ todo)%list in *. rewrite zlen_app in *.
  change (zlen [(k', b)]) with 1 in *. pose proof (zlen_nonneg todo).
  apply elem_of_cons in Hin as [Heq|Hin].
  - injection Heq as -> ->. destruct (chosen_spec (base + k') id) as (_ & Hid & Hr); [lia|].
    rewrite Hid. split; [lia|done].
  - destruct (IH (id + 1) k ref ltac:(lia) ltac:(lia) Hin). split; [lia|done].
Qed.

Definition install (ms : list allocationChunkMapping) (ws : list (Z * PhysicalChunkRef))
  : list allocationChunkMapping :=
  fold_left (fun ms w => <[Z.to_nat w.1 := mkMapping w.2 None]> ms) ws ms.

Context (cur : list allocationChunkMapping) (Hcurlen : zlen cur = n).

Lemma write_pending_spec todo : forall start i sc written news (s1 : S) st,
  Inv vol s1 -> Forall (fun kb => 0 <= kb.1 < n /\ zlen kb.2 = cs) todo ->
  1 <= start -> 0 <= i -> start + i + zlen todo <= next_id s1 (vID vol) ->
  (forall ref, start + i <= rChunkID ref < start + i + zlen todo -> unreferenced vol s1 ref) ->
  exists s2 st' sc' news',
    write_pending planner order vol base cur start i todo sc written news (s1, st)
    = ((s2, st'), Ok (sc', (written ++ placed (start + i) todo)%list, news')) /\
    Inv vol s2 /\ Same vol s1 s2 /\ same_next s1 s2 /\
    nextMappings sc' = install (nextMappings sc) (placed (start + i) todo) /\
    pending sc' = pending sc /\ fullChunkMergeable sc' = fullChunkMergeable sc /\
    Forall2 (fun kb w => kb.1 = w.1 /\ object_at s2 (chunk_key vol w.2) = Some kb.2)
      todo (placed (start + i) todo) /\
    (forall key, (forall w, w ∈ placed (start + i) todo -> chunk_key vol w.2 <> key) ->
                 object_at s2 key = object_at s1 key).
Proof.
  induction todo as [|[k b] todo IH];
    intros start i sc written news s1 st Hs1 Hall Hst Hi Hnext Hun; cbn [write_pending placed].
  { exists s1, st, sc, news. rewrite app_nil_r. split; [done|]. split; [done|].
    split; [apply Same_refl|]. by repeat split; try constructor. }
  inversion_clear Hall as [|? ? [Hk Hblen] Hall']. cbn [fst snd] in *.
  change ((k, b) :: todo) with ([(k, b)] ++ todo)%list in *. rewrite zlen_app in *.
  change (zlen [(k, b)]) with 1 in *. pose proof (zlen_nonneg todo).
  pose proof (inv_next vol s1 Hs1) as Hnx.
  rewrite (add64_small start i) by (unfold in_u; lia).
  destruct (scan_arith k Hk) as (E1 & _). rewrite E1.
  destruct (chosen_spec (base + k) (start + i)) as (Ech & Hid & Hrok); [lia|]. rewrite Ech.
  set (ref := chosen (base + k) (start + i)) in *.
  destruct (put_step vol s1 ref b Hg Hs1 Hrok Hblen) as (s2 & Eput & Hs2 & Hsame & Hnxt & Hob & Hoth);
    [lia|apply Hun; lia|].
  unfold lift at 1. cbn [fst snd]. rewrite Eput.
  unfold bind_act at 1, count. cbn [fst snd]. unfold bind_act at 1, lift_act.
  destruct (lookup_lt_is_Some_2 cur (Z.to_nat k)) as [m Hm]; [unfold zlen in *; lia|].
  rewrite Hm.
  match goal with |- context [write_pending _ _ _ _ _ _ _ _ ?sc1 ?w1 ?n1 (s2, ?st1)] =>
    destruct (IH start (i + 1) sc1 w1 n1 s2 st1) as (s3 & st' & sc' & news' & E & Hs3 & Hsame' &
      Hnxt' & Hmaps & Hpd & Hmg & Hobs & Hothers) end; [done|done|done|lia| | |].
  { rewrite Hnxt. lia. }
  { intros ref' Hr' lc Hlc. rewrite (mapping_at_same vol s1 s2) by apply Hsame.
    apply Hun; [lia|done]. }
  rewrite Z.add_assoc in *.
  exists s3, st', sc', news'. rewrite E. split; [by rewrite <-app_assoc|].
  split; [done|]. split; [by eapply Same_trans|]. split; [intros v; by rewrite Hnxt', Hnxt|].
  split; [exact Hmaps|]. split; [exact Hpd|]. split; [exact Hmg|].
  assert (forall w, w ∈ placed (start + i + 1) todo -> chunk_key vol w.2 <> chunk_key vol ref) as Hne.
  { intros [k' r'] Hw Heq. apply placed_ids in Hw as [Hr' Hrok']; [|lia..].
    apply chunk_key_inj in Heq; [|done..]. cbn in *. subst r'. lia. }
  split.
  - constructor; [|exact Hobs]. split; [done|]. cbn. rewrite Hothers; [done|exact Hne].
  - intros key Hkey. rewrite Hothers.
    + apply Hoth. specialize (Hkey (k, ref) ltac:(by left)). cbn in Hkey. congruence.
    + intros w Hw. apply Hkey. by right.
Qed.

Lemma install_length ms ws : length (install ms ws) = length ms.
Proof.
  unfold install. revert ms. induction ws as [|w ws IH]; intros ms; cbn; [done|].
  by rewrite IH, length_insert.
Qed.

Lemma install_get ws : forall ms k,
  NoDup ws.*1 -> Forall (fun w => 0 <= w.1) ws -> 0 <= k < zlen ms ->
  (forall ref, (k, ref) ∈ ws -> list_get (install ms ws) k = mkMapping ref None) /\
  (k ∉ ws.*1 -> list_get (install ms ws) k = list_get ms k).
Proof.
  unfold install. induction ws as [|[k' r'] ws IH]; intros ms k Hnd Hpos' Hk; cbn in *.
  { split; [|done]. intros ref Hin. by apply elem_of_nil in Hin. }
  apply NoDup_cons in Hnd as [Hnin Hnd]. inversion_clear Hpos' as [|? ? Hk' Hws]. cbn in Hk'.
  destruct (IH (<[Z.to_nat k' := mkMapping r' None]> ms) k Hnd Hws) as [IH1 IH2];
    [unfold zlen in *; rewrite length_insert; lia|].
  split.
  - intros ref Hin. apply elem_of_cons in Hin as [Heq|Hin]; [|by apply IH1].
    injection Heq as -> ->. rewrite IH2 by done. unfold list_get, zlen in *.
    by rewrite list_lookup_insert_eq by lia.
  - intros Hno. apply not_elem_of_cons in Hno as [Hne Hno]. rewrite IH2 by done.
    unfold list_get. by rewrite list_lookup_insert_ne by lia.
Qed.

End Pending.
End Overlay.
End WriteFacts.
