(* ===== verification/PageWrite.v ===== *)
(** * Committing a page under interference

    The third phase of [writePage]: between reading a page and storing it,
    other writers may change the volume.  [evolves] is what a step of another
    writer may do (rely) and, by the lemmas here, exactly what every step of
    this writer does (guarantee): page revisions grow with every change of a
    page, chunk payloads are never overwritten, and the invariant is kept.  The
    file shows that an attempt either commits the request atomically on top of
    whatever the page held at that moment, or changes nothing and has seen the
    revision move. *)

From Stdlib Require Import ZArith Lia Ascii String.
From stdpp Require Import base list gmap strings.
From coqutil Require Import Byte.
From S2P Require Import Prelude GatewayTypes ObjectStore ObjectStoreFacts ChunkMap ChunkExtent.
From S2P Require Import DataWorld ReadFacts WriteFacts.
Open Scope string_scope.
Open Scope Z_scope.

Module PageWrite.
Import Gateway Store StoreFacts ChunkMap ChunkExtent DataWorld WriteFacts.

Lemma bind_act_Ok {S E A B} (m : act S E A) (f : A -> act S E B) s s' a :
  m s = (s', Ok a) -> bind_act m f s = f a s'.
Proof. intros Hm. unfold bind_act. by rewrite Hm. Qed.

(** ** Rely and guarantee *)

Section Evolve.
Context {S : Type} `{DataLaws S}.
Context (vol : VolumeSpec) (Hg : geometry vol).
Abbreviation cs := (cs vol).
Abbreviation cpp := (cpp vol).
Abbreviation revision := (revision vol).

(** [s'] was reached from [s] by steps of writers that allocated at most [b]
    chunk ids and changed each page at most [b] times. *)
Record evolves (b : Z) (s s' : S) : Prop := {
  ev_inv : Inv vol s';
  ev_next : next_id s (vID vol) <= next_id s' (vID vol) <= next_id s (vID vol) + b;
  ev_rev : forall p, page_in vol p -> revision s p <= revision s' p <= revision s p + b;
  ev_page : forall p, page_in vol p -> revision s' p = revision s p ->
    page_at s' (vID vol) p = page_at s (vID vol) p;
  ev_obj : forall k c, object_at s k = Some c -> object_at s' k = Some c }.

(** Counters are far enough from their limits for [b] more changes. *)
Definition budget (s : S) (b : Z) : Prop :=
  next_id s (vID vol) + b < 2 ^ 64 /\
  forall p, page_in vol p -> 0 <= revision s p /\ revision s p + b < 2 ^ 63.

Lemma evolves_refl (s : S) b : 0 <= b -> Inv vol s -> evolves b s s.
Proof. intros Hb Hs. split; auto; intros; lia. Qed.

Lemma evolves_nonneg (s s' : S) b : evolves b s s' -> 0 <= b.
Proof. intros Hev. pose proof (ev_next _ _ _ Hev). lia. Qed.

Lemma evolves_trans a b (s1 s2 s3 : S) : evolves a s1 s2 -> evolves b s2 s3 -> evolves (a + b) s1 s3.
Proof.
  intros [I1 N1 R1 P1 O1] [I2 N2 R2 P2 O2]. split; [done|lia| | |auto].
  - intros p Hp. specialize (R1 p Hp). specialize (R2 p Hp). lia.
  - intros p Hp Heq. specialize (R1 p Hp). specialize (R2 p Hp).
    rewrite P2, P1 by (done || lia). done.
Qed.

Lemma evolves_weaken a b (s s' : S) : a <= b -> evolves a s s' -> evolves b s s'.
Proof.
  intros Hab [I N R P O]. split; [done|lia| |done|done]. intros p Hp. specialize (R p Hp). lia.
Qed.

Lemma budget_weaken (s : S) a b : a <= b -> budget s b -> budget s a.
Proof. intros Hab [Hn Hr]. split; [lia|]. intros p Hp. specialize (Hr p Hp). lia. Qed.

Lemma budget_after (s s' : S) a b : evolves a s s' -> budget s (a + b) -> budget s' b.
Proof.
  intros Hev [Hn Hr]. pose proof (ev_next _ _ _ Hev). split; [lia|]. intros p Hp.
  specialize (Hr p Hp). pose proof (ev_rev _ _ _ Hev p Hp). lia.
Qed.

Lemma valid_evolves b (s s' : S) m : evolves b s s' -> mapping_valid vol s m -> mapping_valid vol s' m.
Proof.
  intros Hev [Hm|(He & Hr & Hid & c & Hob & Hlen)]; [by left|right].
  pose proof (ev_next _ _ _ Hev). split; [done|]. split; [done|]. split; [lia|].
  exists c. split; [by apply (ev_obj _ _ _ Hev)|done].
Qed.

(** Valid mappings keep their payload. *)
Lemma content_evolves b (s s' : S) m :
  evolves b s s' -> mapping_valid vol s m -> content vol s' m = content vol s m.
Proof.
  intros Hev Hm. unfold content. destruct (Z.eqb_spec (rChunkID (mRef m)) 0) as [|Hne]; [done|].
  destruct Hm as [|(_ & _ & _ & c & Hob & _)]; [done|].
  by rewrite Hob, (ev_obj _ _ _ Hev _ _ Hob).
Qed.

(** A page whose revision did not move still means the same. *)
Lemma page_evolves b (s s' : S) lc :
  Inv vol s -> evolves b s s' -> chunk_in lc -> revision s' (lc / cpp) = revision s (lc / cpp) ->
  mapping_at vol s' lc = mapping_at vol s lc /\ chunk_at vol s' lc = chunk_at vol s lc.
Proof.
  intros Hs Hev Hlc Hrev. pose proof (chunk_page vol lc Hg Hlc) as Hp.
  assert (mapping_at vol s' lc = mapping_at vol s lc) as Hm.
  { unfold mapping_at, the_page. by rewrite (ev_page _ _ _ Hev _ Hp Hrev). }
  split; [done|]. unfold chunk_at. rewrite Hm. eapply content_evolves; [done|].
  by apply mapping_at_valid.
Qed.

(** Steps of a writer that do not change the view. *)
Definition quiet (b : Z) (s s' : S) : Prop := Same vol s s' /\ evolves b s s'.

Lemma quiet_refl (s : S) b : 0 <= b -> Inv vol s -> quiet b s s.
Proof. intros. split; [apply Same_refl|by apply evolves_refl]. Qed.

Lemma quiet_trans a b (s1 s2 s3 : S) : quiet a s1 s2 -> quiet b s2 s3 -> quiet (a + b) s1 s3.
Proof. intros [? ?] [? ?]. split; [by eapply Same_trans|by eapply evolves_trans]. Qed.

Lemma Same_quiet b (s s' : S) :
  Inv vol s -> Same vol s s' ->
  next_id s (vID vol) <= next_id s' (vID vol) <= next_id s (vID vol) + b ->
  (forall k c, object_at s k = Some c -> object_at s' k = Some c) -> quiet b s s'.
Proof.
  intros Hs Hsame Hn Ho. split; [done|].
  assert (forall p, page_at s' (vID vol) p = page_at s (vID vol) p) as Hp by apply Hsame.
  split; [by apply (same_inv vol s s')|done| |by auto|done].
  intros p _. unfold DataWorld.revision, the_page. rewrite Hp. lia.
Qed.

Lemma unchanged_quiet (s s' : S) :
  Inv vol s -> same_pages s s' -> same_objects s s' -> same_next s s' -> quiet 0 s s'.
Proof.
  intros Hs Hp Ho Hn. pose proof (inv_next vol s Hs).
  apply Same_quiet; [done| |rewrite Hn; lia|intros k c; by rewrite Ho].
  apply Same_next; [done..|rewrite Hn; lia].
Qed.

(** Recording garbage is quiet and never fails. *)
Lemma record_loop_quiet refs : forall (s : S) st,
  Inv vol s -> exists s' st',
    record_garbage_loop vol refs (s, st) = ((s', st'), Ok tt) /\ quiet 0 s s'.
Proof.
  induction refs as [|ref refs IH]; intros s st Hs; cbn [record_garbage_loop].
  { exists s, st. split; [done|]. by apply quiet_refl. }
  destruct (garbage_law s (garbage_record vol ref)) as (s1 & E & Hp & Ho & Hn);
    [apply (inv_exists vol s Hs)|].
  assert (quiet 0 s s1) as Hq by (by apply unchanged_quiet).
  unfold bind_act at 1, lift. cbn [fst snd]. rewrite E. unfold bind_act, count. cbn [fst snd].
  match goal with |- context [record_garbage_loop vol refs (s1, ?st1)] =>
    destruct (IH s1 st1) as (s' & st' & E' & Hq') end; [apply Hq|].
  exists s', st'. split; [exact E'|]. exact (quiet_trans 0 0 _ _ _ Hq Hq').
Qed.

(** ** Runs with interference *)

Context (interfere : nat -> nat -> S -> S) (g : Z).

(** What happened between two points of this writer: its own quiet steps and
    the steps of others. *)
Inductive run : Z -> S -> S -> Prop :=
  | run_quiet b s s' : quiet b s s' -> run b s s'
  | run_others i j s : 0 <= g -> run g s (interfere i j s)
  | run_trans a b s1 s2 s3 : run a s1 s2 -> run b s2 s3 -> run (a + b) s1 s3.

Definition env_ok : Prop := forall i j s, Inv vol s -> budget s g -> evolves g s (interfere i j s).
Context (Henv : env_ok) (Hgpos : 0 <= g).

Lemma run_nonneg b (s s' : S) : run b s s' -> 0 <= b.
Proof. induction 1 as [? ? ? [_ Hev]| |]; [by eapply evolves_nonneg|done|lia]. Qed.

Lemma run_evolves b (s s' : S) : run b s s' -> Inv vol s -> budget s b -> evolves b s s'.
Proof.
  induction 1 as [b s s' [_ Hev]|i j s|a b s1 s2 s3 Hab IH1 Hbc IH2]; intros Hs Hb; [done|auto|].
  pose proof (run_nonneg _ _ _ Hbc). pose proof (run_nonneg _ _ _ Hab).
  assert (evolves a s1 s2) as H1'.
  { apply IH1; [done|]. eapply budget_weaken; [|exact Hb]. lia. }
  eapply evolves_trans; [exact H1'|]. apply IH2; [apply H1'|]. by eapply budget_after.
Qed.

Lemma run_weaken a b (s s' : S) : a <= b -> run a s s' -> Inv vol s' -> run b s s'.
Proof.
  intros Hab Hr Hs'. replace b with (a + (b - a)) by lia. eapply run_trans; [exact Hr|].
  apply run_quiet, quiet_refl; [lia|done].
Qed.

End Evolve.

(** ** One attempt *)

Section Attempt.
Context {S : Type} `{DataLaws S}.
Context (vol : VolumeSpec) (Hg : geometry vol).
Context (off len : Z) (data : bytes) (Hoff : 0 <= off) (Hpos : 0 < len).
Context (Hend : off + len <= 2 ^ 63) (Hdata : zlen data = len).
Context (planner : option (VolumeSpec -> Z -> Z -> result svc_error PhysicalChunkRef)).
Context (order : list PhysicalChunkRef -> list PhysicalChunkRef).
Context (Hplan : plan_ok vol planner).
Context (p : Z) (Hp : page_in vol p).

Abbreviation cs := (cs vol).
Abbreviation cpp := (cpp vol).
Abbreviation base := (p * cpp).
Context (n : Z) (Hn : 0 < n <= cpp).
Context (Hchunks : p * cpp + n <= 2 ^ 63) (Hlast : (p * cpp + n) * cs < 2 ^ 64).
Abbreviation overlay := (overlay vol off len data).
Abbreviation wanted := (wanted vol off len data p).
Abbreviation touches := (touches vol off len).

(** The chunk indices [i0 .. i1] of the page are the ones the request touches. *)
Context (i0 i1 : Z) (Hidx : 0 <= i0 <= i1 /\ i1 < n).
Context (Htouch : forall k, 0 <= k < n -> touches (base + k) = true <-> i0 <= k <= i1).

Definition indices : list Z := seqZ i0 (i1 - i0 + 1).

Lemma in_indices k : k ∈ indices <-> i0 <= k <= i1.
Proof. unfold indices. rewrite elem_of_seqZ. lia. Qed.

Lemma base_pos : 0 <= base.
Proof. destruct Hp. pose proof (geo_cpp vol Hg). nia. Qed.

Lemma chunk_in_base k : 0 <= k < n -> chunk_in (base + k) /\ (base + k) / cpp = p.
Proof.
  intros Hk. pose proof base_pos. split; [unfold chunk_in; lia|]. apply page_chunks; [done|lia].
Qed.

(** The mappings of the page as [buildAllocationChunkMappings] reads them. *)
Definition mappings_of (s : S) : list allocationChunkMapping :=
  buildAllocationChunkMappings (the_page vol s p) base n.

Lemma mappings_length (s : S) : zlen (mappings_of s) = n.
Proof. apply length_build. lia. Qed.

Lemma mappings_get (s : S) k :
  Inv vol s -> 0 <= k < n -> list_get (mappings_of s) k = mapping_at vol s (base + k).
Proof.
  intros Hs Hk. pose proof base_pos. pose proof (cpp_bound vol Hg).
  destruct (inv_pages vol s Hs p Hp) as (pg & Hpg & ms & Hcov & Hlen & _).
  unfold mappings_of, mapping_at. destruct (chunk_in_base k Hk) as [Hin ->].
  rewrite (the_page_eq vol s p pg Hpg). destruct Hp as [_ Hpb].
  rewrite (build_get pg base n ms k) by (done || lia).
  rewrite (page_mapping_get vol s p pg ms (base + k)); try done.
  - do 2 f_equal. lia.
  - symmetry. by apply chunk_in_base.
Qed.

(** *** Phase one *)

Record scanned (s : S) (sc : scan) : Prop := {
  sc_length : zlen (nextMappings sc) = n;
  sc_pending : pending sc = (fun j => (j, wanted s j)) <$> dirty vol off len data p s indices;
  sc_next : forall k, 0 <= k < n -> list_get (nextMappings sc) k =
    if decide (k ∈ indices /\ isAllZero (wanted s k) = true) then zero_mapping
    else mapping_at vol s (base + k);
  sc_mergeable : fullChunkMergeable sc = true ->
    Forall (fun j => covers_chunk vol off len (base + j) = true /\ isAllZero (wanted s j) = false)
      indices }.

Lemma scan_phase (s : S) st : Inv vol s ->
  exists st' sc, scan_loop vol off len base data (mappings_of s) (Z.to_nat (i1 - i0 + 1)) i0
                   (mkScan (mappings_of s) ∅ [] true) (s, st) = ((s, st'), Ok sc) /\
    scanned s sc.
Proof.
  intros Hs.
  destruct (scan_loop_spec vol Hg off len data Hoff Hpos Hend Hdata p Hp n Hn Hchunks Hlast s Hs
    (mappings_of s) (mappings_length s) (fun k => mappings_get s k Hs) (Z.to_nat (i1 - i0 + 1)) i0
    (mkScan (mappings_of s) ∅ [] true) st) as [st' E]; [lia|lia| |].
  { intros j Hj. apply Htouch; lia. }
  exists st'. eexists. split; [exact E|].
  rewrite Z2Nat.id by lia. fold indices.
  assert (Forall (fun k => 0 <= k < n) indices) as Hall.
  { apply Forall_forall. intros k Hk%in_indices. lia. }
  destruct (scan_fold vol off len data p n Hn s (mappings_of s) indices (mkScan (mappings_of s) ∅ [] true) Hall)
    as (Hl & Hpd & Hnx & Hm).
  pose proof (mappings_length s) as Hml. cbn [nextMappings] in *.
  split.
  - unfold zlen in *. by rewrite Hl.
  - exact Hpd.
  - intros k Hk. rewrite Hnx, mappings_get by (done || lia). done.
  - intros Hmg. by apply Hm.
Qed.

(** *** Phase two *)

(** A fresh chunk that holds [b]. *)
Definition stored (s : S) (b : bytes) (ref : PhysicalChunkRef) : Prop :=
  ref_ok ref /\ 1 <= rChunkID ref < next_id s (vID vol) /\
  object_at s (chunk_key vol ref) = Some b.

Lemma stored_evolves b (s s' : S) c ref : evolves vol b s s' -> stored s c ref -> stored s' c ref.
Proof.
  intros Hev (Hr & Hid & Hob). pose proof (ev_next _ _ _ _ Hev). split; [done|]. split; [lia|].
  by apply (ev_obj _ _ _ _ Hev).
Qed.

Lemma stored_mapping (s : S) c ref : zlen c = cs -> stored s c ref ->
  mapping_valid vol s (mkMapping ref None) /\ content vol s (mkMapping ref None) = c.
Proof.
  intros Hc (Hr & Hid & Hob). split.
  - right. split; [done|]. split; [done|]. split; [done|]. by exists c.
  - unfold content. cbn [mRef]. destruct (Z.eqb_spec (rChunkID ref) 0); [lia|]. by rewrite Hob.
Qed.

Lemma pending_ok (s : S) sc : Inv vol s -> scanned s sc ->
  zlen (pending sc) <= n /\ Forall (fun kb => 0 <= kb.1 < n /\ zlen kb.2 = cs) (pending sc) /\
  NoDup (pending sc).*1.
Proof.
  intros Hs Hsc. rewrite (sc_pending s sc Hsc). unfold dirty. split; [|split].
  - unfold zlen. rewrite length_fmap.
    pose proof (length_filter (fun j => isAllZero (wanted s j) = false) indices) as Hf.
    revert Hf. unfold indices at 2. rewrite length_seqZ. lia.
  - apply Forall_fmap, Forall_forall. intros k Hk. cbn.
    apply list_elem_of_filter in Hk as [_ Hk]. apply in_indices in Hk. split; [lia|].
    eapply wanted_length; eauto; lia.
  - rewrite <-list_fmap_compose. cbn. rewrite list_fmap_id.
    apply NoDup_filter, NoDup_seqZ.
Qed.

Lemma write_phase (s s1 : S) st sc :
  Inv vol s -> scanned s sc -> Inv vol s1 -> budget vol s1 cpp ->
  exists s2 st' sc' ws news,
    (if 0 <? zlen (pending sc) then
       bind_act (lift (AllocateChunkIDs (vID vol) (wrap32 (zlen (pending sc)))))
         (fun startChunkID =>
            write_pending planner order vol base (mappings_of s) startChunkID 0 (pending sc) sc [] ∅)
     else ret_act (sc, [], ∅)) (s1, st) = ((s2, st'), Ok (sc', ws, news)) /\
    quiet vol cpp s1 s2 /\ nextMappings sc' = install (nextMappings sc) ws /\
    pending sc' = pending sc /\ fullChunkMergeable sc' = fullChunkMergeable sc /\
    Forall2 (fun kb w => kb.1 = w.1 /\ stored s2 kb.2 w.2) (pending sc) ws.
Proof.
  intros Hs Hsc Hs1 [Hb _]. pose proof (cpp_bound vol Hg) as Hcpp.
  destruct (pending_ok s sc Hs Hsc) as (Hlen & Hall & _).
  destruct (Z.ltb_spec 0 (zlen (pending sc))) as [Hp0|Hp0].
  2:{ apply zlen_nil_inv in Hp0. exists s1, st, sc, [], ∅. rewrite Hp0. split; [done|].
      split; [apply quiet_refl; [lia|done]|]. by repeat split; try constructor. }
  rewrite wrap32_small by (unfold in_u; lia).
  destruct (alloc_step vol s1 (zlen (pending sc)) Hs1) as (s1' & Ea & Hs1' & Hsame & Hob & Hnx);
    [lia|lia|].
  erewrite bind_act_Ok by (unfold lift; cbn [fst snd]; rewrite Ea; reflexivity).
  assert (1 <= next_id s1 (vID vol)) as Hone by apply Hs1.
  destruct (write_pending_spec vol Hg off len data Hoff Hpos Hend p Hp n Hn Hchunks Hlast planner
    order Hplan (mappings_of s) (mappings_length s) (pending sc) (next_id s1 (vID vol)) 0 sc [] ∅
    s1' st) as (s2 & st' & sc' & news & E & Hs2 & Hsame2 & Hnx2 & Hnm & Hpd & Hmg & Hobs & Hoth);
    [done|done|done|lia|lia| |].
  { intros ref Hid lc Hlc. rewrite (mapping_at_same vol s1 s1') by apply Hsame.
    apply (fresh_unreferenced vol s1); [done|done|lia|done]. }
  rewrite E. rewrite Z.add_0_r in *. cbn [app]. set (ws := placed _ _ _ _ _) in *.
  assert (forall w, w ∈ ws -> next_id s1 (vID vol) <= rChunkID w.2
            < next_id s1 (vID vol) + zlen (pending sc) /\ ref_ok w.2) as Hids.
  { intros [k ref] Hw. cbn. eapply placed_ids; eauto; lia. }
  exists s2, st', sc', ws, news. split; [done|]. split; [|do 3 (split; [done|])].
  - apply Same_quiet; [done|by eapply Same_trans|rewrite Hnx2, Hnx; lia|].
    intros k c Hk. rewrite Hoth, Hob; [done|]. intros w Hw Hkey.
    destruct (Hids w Hw) as [Hid Hr]. rewrite <-Hkey in Hk.
    rewrite (inv_fresh vol s1 Hs1 w.2) in Hk; [done|done|lia].
  - apply Forall2_same_length_lookup in Hobs as [Hll Hobs]. apply Forall2_same_length_lookup.
    split; [done|]. intros i kb w Hkb Hw. destruct (Hobs i kb w Hkb Hw) as [Hk Hc].
    split; [done|]. destruct (Hids w) as [Hid Hr]; [by eapply list_elem_of_lookup_2|].
    split; [done|]. split; [rewrite Hnx2, Hnx; lia|done].
Qed.

(** *** Phase three *)

Lemma merge_get next ws : forall latest stale k,
  Forall (fun w => 0 <= w.1) ws -> 0 <= k < zlen latest ->
  zlen (merge_written next ws latest stale).1 = zlen latest /\
  list_get (merge_written next ws latest stale).1 k =
    if decide (k ∈ ws.*1) then list_get next k else list_get latest k.
Proof.
  induction ws as [|[k' ref] ws IH]; intros latest stale k Hws Hk; cbn [merge_written].
  { split; [done|]. rewrite decide_False; [done|]. intros Hc. by apply elem_of_nil in Hc. }
  inversion_clear Hws as [|? ? Hk' Hws']. cbn [fst] in Hk'.
  set (latest' := <[_ := _]> latest).
  assert (zlen latest' = zlen latest) as Hl by (unfold latest', zlen; by rewrite length_insert).
  match goal with |- context [merge_written next ws latest' ?st] =>
    destruct (IH latest' st k Hws') as [Hlen Hget] end; [lia|].
  rewrite Hlen, Hget. split; [done|]. cbn [fmap list_fmap fst].
  destruct (decide (k ∈ ws.*1)) as [Hin|Hin].
  { rewrite decide_True; [done|by right]. }
  unfold latest'. destruct (decide (k = k')) as [->|Hne].
  - rewrite decide_True by left. unfold list_get, zlen in *.
    by rewrite list_lookup_insert_eq by lia.
  - rewrite decide_False by (intros Hc; apply elem_of_cons in Hc as [?|?]; done).
    unfold list_get. by rewrite list_lookup_insert_ne by lia.
Qed.

Lemma forall2_keys {A B} (P : Z * A -> Z * B -> Prop) l l' :
  Forall2 (fun x y => x.1 = y.1 /\ P x y) l l' -> l'.*1 = l.*1.
Proof. induction 1 as [|x y l l' [Hk _] _ IH]; cbn; [done|]. by rewrite Hk, IH. Qed.

Section Written.
Context (s s2 : S) (Hs : Inv vol s) (sc : scan) (Hsc : scanned s sc).
Context (ws : list (Z * PhysicalChunkRef)).
Context (Hws : Forall2 (fun kb w => kb.1 = w.1 /\ stored s2 kb.2 w.2) (pending sc) ws).

Lemma written_keys : ws.*1 = (pending sc).*1.
Proof. exact (forall2_keys _ _ _ Hws). Qed.

Lemma in_pending k b : (k, b) ∈ pending sc <->
  b = wanted s k /\ k ∈ indices /\ isAllZero (wanted s k) = false.
Proof.
  rewrite (sc_pending s sc Hsc), list_elem_of_fmap. unfold dirty. split.
  - intros (j & Heq & Hj). injection Heq as -> ->. apply list_elem_of_filter in Hj. tauto.
  - intros (-> & Hk & Hz). exists k. split; [done|]. apply list_elem_of_filter. tauto.
Qed.

Lemma written_key k : k ∈ ws.*1 <-> k ∈ indices /\ isAllZero (wanted s k) = false.
Proof.
  rewrite written_keys, list_elem_of_fmap. split.
  - intros ([k' b] & -> & Hin). apply in_pending in Hin. cbn. tauto.
  - intros Hk. exists (k, wanted s k). split; [done|]. by apply in_pending.
Qed.

Lemma written_stored k ref : (k, ref) ∈ ws -> stored s2 (wanted s k) ref.
Proof.
  intros Hin. apply list_elem_of_lookup in Hin as [i Hi].
  pose proof Hws as Hw. apply Forall2_same_length_lookup in Hw as [Hl Hall].
  destruct (lookup_lt_is_Some_2 (pending sc) i) as [[k' b] Hkb].
  { rewrite Hl. by eapply lookup_lt_Some. }
  destruct (Hall i _ _ Hkb Hi) as [Hk Hst]. cbn in *. subst k'.
  apply list_elem_of_lookup_2, in_pending in Hkb as [-> _]. done.
Qed.

Lemma written_pos : Forall (fun w => 0 <= w.1) ws /\ NoDup ws.*1.
Proof.
  destruct (pending_ok s sc Hs Hsc) as (_ & _ & Hnd). rewrite written_keys. split; [|done].
  apply Forall_forall. intros [k ref] Hin. cbn.
  assert (k ∈ ws.*1) as Hk by (apply list_elem_of_fmap; by exists (k, ref)).
  apply written_key in Hk as [Hk%in_indices _]. lia.
Qed.

Lemma wanted_len k : 0 <= k < n -> zlen (wanted s k) = cs.
Proof. intros Hk. eapply wanted_length; eauto. Qed.

(** The new mappings hold the wanted chunks, in every later state. *)
Lemma next_realizes (s4 : S) b b' k :
  evolves vol b s s4 -> evolves vol b' s2 s4 -> 0 <= k < n ->
  mapping_valid vol s4 (list_get (install (nextMappings sc) ws) k) /\
  content vol s4 (list_get (install (nextMappings sc) ws) k) = wanted s k.
Proof.
  intros Hev Hev2 Hk. destruct written_pos as [Hpw Hnd]. pose proof (sc_length s sc Hsc) as Hl.
  destruct (install_get data [] ws (nextMappings sc) k Hnd Hpw ltac:(lia)) as [Hin Hout].
  destruct (decide (k ∈ ws.*1)) as [Hkw|Hkw].
  - apply list_elem_of_fmap in Hkw as ([k' ref] & -> & Hw). cbn in *. rewrite (Hin ref Hw).
    apply stored_mapping; [by apply wanted_len|]. eapply stored_evolves; [done|].
    by apply written_stored.
  - rewrite (Hout Hkw), (sc_next s sc Hsc k Hk). rewrite written_key in Hkw.
    destruct (chunk_in_base k Hk) as [Hci _].
    destruct (decide (k ∈ indices /\ _)) as [[Hki Hz]|Hno].
    + split; [by left|]. unfold content. cbn. apply isAllZero_spec in Hz.
      by rewrite Hz, wanted_len by done.
    + assert (mapping_valid vol s (mapping_at vol s (base + k))) as Hv by (by apply mapping_at_valid).
      split; [exact (valid_evolves vol b s s4 _ Hev Hv)|]. rewrite (content_evolves vol b s s4) by done.
      fold (chunk_at vol s (base + k)). unfold WriteFacts.wanted, WriteFacts.overlay.
      destruct (touches (base + k)) eqn:Ht; [|done].
      apply Htouch, in_indices in Ht; [|done]. exfalso.
      destruct (isAllZero (wanted s k)); tauto.
Qed.

End Written.

(** The effect of a committed page. *)
Record page_written (s s' : S) : Prop := {
  pw_inv : Inv vol s;
  pw_evolves : evolves vol 1 s s';
  pw_page : forall q, q <> p -> page_at s' (vID vol) q = page_at s (vID vol) q;
  pw_other : forall lc, chunk_in lc -> lc / cpp <> p -> chunk_at vol s' lc = chunk_at vol s lc;
  pw_chunk : forall k, 0 <= k < n ->
    chunk_at vol s' (base + k) = overlay (chunk_at vol s (base + k)) (base + k) }.

Lemma content_norm (s : S) m : content vol s (norm m) = content vol s m.
Proof.
  unfold norm. destruct (rChunkID (mRef m) =? 0) eqn:Hz; [|done]. unfold content. by rewrite Hz.
Qed.

Definition page_record (ms : list allocationChunkMapping) : AllocationPageRecord :=
  mkAllocationPageRecord (vID vol) p (vExtentPageBytes vol) (vChunkSizeBytes vol) 0
    (compressAllocationChunkMappings base ms).

Lemma commit_phase (s4 : S) rev ms :
  Inv vol s4 -> budget vol s4 1 -> zlen ms = n ->
  (forall k, 0 <= k < n -> mapping_valid vol s4 (list_get ms k)) ->
  (revision vol s4 p = rev -> forall k, 0 <= k < n ->
     content vol s4 (list_get ms k) = overlay (chunk_at vol s4 (base + k)) (base + k)) ->
  exists s5 res, PutExtentPage (page_record ms) rev s4 = (s5, res) /\
    if revision vol s4 p =? rev then is_ok res = true /\ page_written s4 s5
    else res = Err ErrMetadataCASConflict /\ quiet vol 0 s4 s5.
Proof.
  intros Hs4 [Hb Hbr] Hlen Hval Hcont. pose proof base_pos. pose proof (cpp_bound vol Hg).
  assert (Forall (mapping_valid vol s4) ms) as Hall.
  { apply Forall_lookup_2. intros i m Hm. specialize (Hval (Z.of_nat i)).
    unfold list_get in Hval. rewrite Nat2Z.id, Hm in Hval. apply Hval.
    apply lookup_lt_Some in Hm. unfold zlen in Hlen. lia. }
  assert (Forall mapping_ok ms) as Hok.
  { eapply Forall_impl; [exact Hall|]. intros m. apply mapping_valid_ok. lia. }
  destruct (commit_step vol s4 p (page_record ms) rev ms) as (s5 & res & E & Ho & Hnx & Hs5 & Hres);
    [done|done|done|done|done|apply compress_covers; [lia..|done]|lia|done|].
  exists s5, res. split; [done|]. destruct (Z.eqb_spec (revision vol s4 p) rev) as [Hrev|_].
  - destruct Hres as (Hok' & Hr5 & Hpages & Hch). split; [done|].
    destruct (Hbr p Hp) as [Hr0 Hr1]. rewrite add_i64_small in Hr5 by lia. split; [done| | | |].
    + split; [done|rewrite Hnx; lia| | |intros k c; by rewrite Ho].
      * intros q Hq. destruct (decide (q = p)) as [->|Hne]; [lia|].
        unfold revision, the_page. rewrite Hpages by done. lia.
      * intros q Hq Heq. destruct (decide (q = p)) as [->|Hne]; [lia|]. by apply Hpages.
    + done.
    + intros lc Hlc Hne. rewrite Hch by done. by destruct (Z.eqb_spec (lc / cpp) p).
    + intros k Hk. destruct (chunk_in_base k Hk) as [Hci Hdiv]. rewrite Hch, Hdiv, Z.eqb_refl by done.
      rewrite content_norm, <-Hcont by done. do 2 f_equal. lia.
  - destruct Hres as [-> Hsame]. split; [done|].
    apply Same_quiet; [done|done|rewrite Hnx; lia|intros k c; by rewrite Ho].
Qed.

(** *** The attempt *)

Context (interfere : nat -> nat -> S -> S) (g : Z) (Hgpos : 0 <= g).
Context (Henv : env_ok vol interfere g).
Abbreviation run := (run vol interfere g).
Abbreviation revision := (revision vol).

Lemma garbage_then {A} (x : A) refs (s : S) st : Inv vol s ->
  exists s' st', bind_act (recordGarbage order vol refs) (fun _ => ret_act x) (s, st)
                 = ((s', st'), Ok x) /\ quiet vol 0 s s'.
Proof.
  intros Hs. destruct (record_loop_quiet vol (order (elements refs)) s st Hs) as (s' & st' & E & Hq).
  exists s', st'. split; [|done]. unfold recordGarbage. by erewrite bind_act_Ok by exact E.
Qed.

(** What an attempt that began in [s] and ended in [s'] did. *)
Definition outcome (b : Z) (s s' : S) (res : attempt_result) : Prop :=
  match res with
  | Retry => run b s s' /\ revision s p < revision s' p
  | Committed => exists s4 s5, run b s s4 /\ page_written s4 s5 /\ quiet vol 0 s5 s'
  end.

Lemma outcome_before a b (s s1 s' : S) res :
  run a s s1 -> revision s p <= revision s1 p -> outcome b s1 s' res -> outcome (a + b) s s' res.
Proof.
  intros Ha Hle. destruct res; cbn.
  - intros (s4 & s5 & Hr & Hrest). exists s4, s5. split; [by eapply run_trans|done].
  - intros [Hr Hlt]. split; [by eapply run_trans|lia].
Qed.

(** The last step of an attempt: interference, then the compare-and-swap. *)
Definition commit_act (attempt : nat) (ms : list allocationChunkMapping) (rev : Z)
    (stale news : gset PhysicalChunkRef) : act (counted (S:=S)) svc_error attempt_result :=
  bind_act (others interfere attempt 2) (fun _ => fun w =>
    match lift (PutExtentPage (page_record ms) rev) w with
    | (w, Panic) => (w, Panic)
    | (w, Err e) =>
        if bool_decide (e = ErrMetadataCASConflict)
        then bind_act (recordGarbage order vol news) (fun _ => ret_act Retry) w
        else (w, Err e)
    | (w, Ok _) => bind_act (recordGarbage order vol stale) (fun _ => ret_act Committed) w
    end).

Lemma commit_tail attempt (s3 : S) st ms stale news :
  Inv vol s3 -> budget vol s3 (g + 1) -> zlen ms = n ->
  (forall s4, evolves vol g s3 s4 ->
     forall k, 0 <= k < n -> mapping_valid vol s4 (list_get ms k)) ->
  (forall s4, evolves vol g s3 s4 -> revision s4 p = revision s3 p -> forall k, 0 <= k < n ->
     content vol s4 (list_get ms k) = overlay (chunk_at vol s4 (base + k)) (base + k)) ->
  exists s' st' res,
    commit_act attempt ms (revision s3 p) stale news (s3, st) = ((s', st'), Ok res) /\ outcome g s3 s' res.
Proof.
  intros Hs3 Hb Hlen Hval Hcont. set (s4 := interfere attempt 2 s3).
  assert (evolves vol g s3 s4) as Hev.
  { apply Henv; [done|]. eapply budget_weaken; [|exact Hb]. lia. }
  assert (run g s3 s4) as Hrun by (by apply run_others).
  destruct (commit_phase s4 (revision s3 p) ms) as (s5 & res & E & Hres);
    [apply Hev|by eapply budget_after|done|by apply Hval|by apply Hcont|].
  unfold commit_act, bind_act at 1, others. cbn [fst snd]. fold s4. unfold lift. cbn [fst snd]. rewrite E.
  destruct (Z.eqb_spec (revision s4 p) (revision s3 p)) as [Hrev|Hrev].
  - destruct Hres as [Hok Hpw]. destruct res as [pg|e|]; try done.
    destruct (garbage_then Committed stale s5 st) as (s' & st' & E' & Hq); [apply Hpw|].
    exists s', st', Committed. split; [exact E'|]. by exists s4, s5.
  - destruct Hres as [-> Hq5]. rewrite bool_decide_eq_true_2 by done.
    destruct (garbage_then Retry news s5 st) as (s' & st' & E' & Hq); [apply Hq5|].
    exists s', st', Retry. split; [exact E'|].
    pose proof (quiet_trans vol 0 0 _ _ _ Hq5 Hq) as Hq'. split.
    + rewrite <-(Z.add_0_r g) at 2. eapply run_trans; [exact Hrun|]. by apply run_quiet.
    + pose proof (ev_rev vol _ _ _ Hev p Hp). destruct Hq' as [_ Hev'].
      pose proof (ev_rev vol _ _ _ Hev' p Hp). lia.
Qed.

(** The mappings an attempt commits: the scanned page with the new chunks when
    the page is unchanged, the latest page with the new chunks otherwise. *)
Lemma commit_same (s s2 s4 : S) b b' sc ws k :
  Inv vol s -> scanned s sc ->
  Forall2 (fun kb w => kb.1 = w.1 /\ stored s2 kb.2 w.2) (pending sc) ws ->
  evolves vol b s s4 -> evolves vol b' s2 s4 -> 0 <= k < n ->
  let m := list_get (install (nextMappings sc) ws) k in
  mapping_valid vol s4 m /\
  (revision s4 p = revision s p ->
   content vol s4 m = overlay (chunk_at vol s4 (base + k)) (base + k)).
Proof.
  intros Hs Hsc Hws Hev Hev2 Hk m. destruct (chunk_in_base k Hk) as [Hci Hdiv].
  destruct (next_realizes s s2 Hs sc Hsc ws Hws s4 b b' k Hev Hev2 Hk) as [Hv Hc].
  split; [done|]. intros Hrev. unfold m. rewrite Hc. unfold WriteFacts.wanted. f_equal.
  symmetry. eapply (page_evolves vol Hg b s s4); [done..|by rewrite Hdiv].
Qed.

Lemma commit_merged (s s2 s3 s4 : S) b b' b'' sc ws stale k :
  Inv vol s -> scanned s sc -> fullChunkMergeable sc = true ->
  Forall2 (fun kb w => kb.1 = w.1 /\ stored s2 kb.2 w.2) (pending sc) ws ->
  Inv vol s3 -> evolves vol b s s4 -> evolves vol b' s2 s4 -> evolves vol b'' s3 s4 -> 0 <= k < n ->
  let m := list_get (merge_written (install (nextMappings sc) ws) ws (mappings_of s3) stale).1 k in
  mapping_valid vol s4 m /\
  (revision s4 p = revision s3 p ->
   content vol s4 m = overlay (chunk_at vol s4 (base + k)) (base + k)).
Proof.
  intros Hs Hsc Hmg Hws Hs3 Hev Hev2 Hev3 Hk m. destruct (chunk_in_base k Hk) as [Hci Hdiv].
  destruct (written_pos s s2 Hs sc Hsc ws Hws) as [Hpw _].
  pose proof (mappings_length s3) as Hml.
  destruct (merge_get (install (nextMappings sc) ws) ws (mappings_of s3) stale k Hpw ltac:(lia))
    as [_ Hget].
  unfold m. rewrite Hget. clear Hget m.
  pose proof (sc_mergeable s sc Hsc Hmg) as Hall. rewrite Forall_forall in Hall.
  assert (Inv vol s4) as Hs4 by apply Hev.
  destruct (decide (k ∈ ws.*1)) as [Hkw|Hkw].
  - destruct (next_realizes s s2 Hs sc Hsc ws Hws s4 b b' k Hev Hev2 Hk) as [Hv Hc].
    split; [done|]. intros _. rewrite Hc. unfold WriteFacts.wanted.
    apply (written_key s s2 sc Hsc ws Hws) in Hkw as [Hki _].
    apply overlay_full; [done..|apply Hall, Hki|by apply chunk_at_length|by apply chunk_at_length].
  - rewrite mappings_get by done.
    assert (mapping_valid vol s3 (mapping_at vol s3 (base + k))) as Hv by (by apply mapping_at_valid).
    split; [exact (valid_evolves vol b'' s3 s4 _ Hev3 Hv)|]. intros Hrev.
    rewrite (content_evolves vol b'' s3 s4) by done. fold (chunk_at vol s3 (base + k)).
    destruct (page_evolves vol Hg b'' s3 s4 (base + k)) as [_ ->]; [done..|by rewrite Hdiv|].
    unfold WriteFacts.overlay. destruct (touches (base + k)) eqn:Ht; [|done].
    apply Htouch, in_indices in Ht; [|done]. exfalso. apply Hkw.
    apply (written_key s s2 sc Hsc ws Hws). split; [done|]. by apply Hall.
Qed.

(** From the second read of the page on. *)
Lemma third_phase attempt (s s2 s3 : S) st sc sc' ws news b b' :
  Inv vol s -> scanned s sc -> nextMappings sc' = install (nextMappings sc) ws ->
  fullChunkMergeable sc' = fullChunkMergeable sc ->
  Forall2 (fun kb w => kb.1 = w.1 /\ stored s2 kb.2 w.2) (pending sc) ws ->
  evolves vol b s s3 -> evolves vol b' s2 s3 -> budget vol s3 (g + 1) ->
  exists s' st' res,
    (if negb (revision s3 p =? revision s p) &&
        (negb (fullChunkMergeable sc') || (zlen (pending sc') =? 0))
     then bind_act (recordGarbage order vol news) (fun _ => ret_act Retry)
     else
     let '(commitMappings, commitRevision, commitStaleChunkRefs) :=
       if negb (revision s3 p =? revision s p) then
         let '(merged, stale) := merge_written (nextMappings sc') ws (mappings_of s3) ∅ in
         (merged, revision s3 p, stale)
       else (nextMappings sc', revision s p, staleChunkRefs sc') in
     commit_act attempt commitMappings commitRevision commitStaleChunkRefs news) (s3, st)
    = ((s', st'), Ok res) /\
    (outcome g s3 s' res \/
     res = Retry /\ quiet vol 0 s3 s' /\ revision s p <> revision s3 p).
Proof.
  intros Hs Hsc Hnm Hmg Hws Hev Hev2 Hb. assert (Inv vol s3) as Hs3 by apply Hev.
  pose proof (sc_length s sc Hsc) as Hl. rewrite Hmg, Hnm.
  destruct (Z.eqb_spec (revision s3 p) (revision s p)) as [Hrev|Hrev]; cbn [negb andb].
  - rewrite <-Hrev.
    destruct (commit_tail attempt s3 st (install (nextMappings sc) ws) (staleChunkRefs sc') news)
      as (s' & st' & res & E & Hres); [done|done|unfold zlen in *; by rewrite install_length| | |].
    + intros s4 Hev4 k Hk. eapply (commit_same s s2); eauto using evolves_trans.
    + rewrite Hrev. intros s4 Hev4 Hr k Hk. eapply (commit_same s s2); eauto using evolves_trans.
    + exists s', st', res. split; [exact E|by left].
  - destruct (negb (fullChunkMergeable sc) || _) eqn:Hc.
    { destruct (garbage_then Retry news s3 st Hs3) as (s' & st' & E & Hq).
      exists s', st', Retry. split; [exact E|by right]. }
    apply orb_false_elim in Hc as [Hm%negb_false_iff _].
    destruct (written_pos s s2 Hs sc Hsc ws Hws) as [Hpw _].
    pose proof (mappings_length s3) as Hml.
    destruct (merge_get (install (nextMappings sc) ws) ws (mappings_of s3) ∅ 0 Hpw ltac:(lia))
      as [Hlen _].
    destruct (merge_written _ ws (mappings_of s3) ∅) as [merged stale] eqn:Hmw.
    assert (merged = (merge_written (install (nextMappings sc) ws) ws (mappings_of s3) ∅).1)
      as Hmeq by (by rewrite Hmw).
    destruct (commit_tail attempt s3 st merged stale news)
      as (s' & st' & res & E & Hres); [done|done|cbn in Hlen; lia| | |].
    + intros s4 Hev4 k Hk. rewrite Hmeq. eapply (commit_merged s s2 s3); eauto using evolves_trans.
    + intros s4 Hev4 Hr k Hk. rewrite Hmeq. eapply (commit_merged s s2 s3); eauto using evolves_trans.
    + exists s', st', res. split; [exact E|by left].
Qed.

Lemma get_page (s : S) st : Inv vol s ->
  lift (GetExtentPage (vID vol) p) (s, st) = ((s, st), Ok (the_page vol s p)).
Proof.
  intros Hs. destruct (inv_pages vol s Hs p Hp) as (pg & Hpg & _). unfold lift. cbn [fst snd].
  by rewrite get_page_law, Hpg, (the_page_eq vol s p pg Hpg).
Qed.

Definition attempt_cost : Z := 3 * g + cpp.

Lemma attempt_spec attempt (s : S) st :
  Inv vol s -> budget vol s (attempt_cost + 1) ->
  exists s' st' res,
    write_attempt planner order interfere attempt vol p off len base n i0 i1 data (s, st)
    = ((s', st'), Ok res) /\ outcome attempt_cost s s' res.
Proof.
  intros Hs Hb. unfold attempt_cost in *. pose proof (geo_cpp vol Hg) as Hcpp.
  unfold write_attempt. erewrite bind_act_Ok by reflexivity. cbn [fst snd].
  erewrite bind_act_Ok by (by apply get_page). cbn beta zeta. fold (mappings_of s).
  match goal with |- context [bind_act _ _ (s, ?st0)] =>
    destruct (scan_phase s st0 Hs) as (st1 & sc & E1 & Hsc) end.
  erewrite bind_act_Ok by exact E1. erewrite bind_act_Ok by reflexivity. cbn [fst snd].
  set (s1 := interfere attempt 0 s).
  assert (evolves vol g s s1) as Hev1 by (apply Henv; [done|by eapply budget_weaken; [|exact Hb]; lia]).
  assert (budget vol s1 (2 * g + cpp + 1)) as Hb1.
  { eapply budget_after; [exact Hev1|]. eapply budget_weaken; [|exact Hb]. lia. }
  destruct (write_phase s s1 st1 sc Hs Hsc) as (s2 & st2 & sc' & ws & news & E2 & Hq2 & Hnm & Hpd
    & Hmg & Hws); [apply Hev1|eapply budget_weaken; [|exact Hb1]; lia|].
  erewrite bind_act_Ok by exact E2. cbn beta iota.
  erewrite bind_act_Ok by reflexivity. cbn [fst snd]. set (s3 := interfere attempt 1 s2).
  assert (budget vol s2 (2 * g + 1)) as Hb2.
  { eapply budget_after; [apply Hq2|]. eapply budget_weaken; [|exact Hb1]. lia. }
  assert (evolves vol g s2 s3) as Hev3 by (apply Henv; [apply Hq2|by eapply budget_weaken; [|exact Hb2]; lia]).
  assert (budget vol s3 (g + 1)) as Hb3.
  { eapply budget_after; [exact Hev3|]. eapply budget_weaken; [|exact Hb2]. lia. }
  assert (run (g + (cpp + g)) s s3) as Hrun3.
  { eapply run_trans; [by apply run_others|]. eapply run_trans; [by apply run_quiet|].
    by apply run_others. }
  assert (evolves vol (g + (cpp + g)) s s3) as Hevs3.
  { eapply evolves_trans; [exact Hev1|]. eapply evolves_trans; [apply Hq2|done]. }
  erewrite bind_act_Ok by (apply get_page, Hev3).
  pose proof (ev_rev vol _ _ _ Hevs3 p Hp) as Hle.
  destruct (third_phase attempt s s2 s3 st2 sc sc' ws news _ _ Hs Hsc Hnm Hmg Hws Hevs3 Hev3 Hb3)
    as (s' & st' & res & E & Hres).
  exists s', st', res. split; [exact E|].
  replace (3 * g + cpp) with (g + (cpp + g) + g) by lia.
  destruct Hres as [Hres|(-> & [Hsame Hq] & Hne)]; [eapply outcome_before; [done|lia|done]|].
  pose proof (ev_rev vol _ _ _ Hq p Hp). split; [|lia].
  eapply run_trans; [done|]. apply run_quiet. split; [done|]. by eapply evolves_weaken; [|exact Hq].
Qed.

(** *** The retry loop *)

Lemma attempts_spec m : forall attempt (s : S) st,
  Inv vol s -> budget vol s (Z.of_nat m * attempt_cost + 1) ->
  exists s' st' r,
    attempts m attempt (fun attempt => write_attempt planner order interfere attempt vol p off len
      base n i0 i1 data) (s, st) = ((s', st'), r) /\
    ((r = Ok tt /\ outcome (Z.of_nat m * attempt_cost) s s' Committed) \/
     (r = Err ErrMetadataCASConflict /\ run (Z.of_nat m * attempt_cost) s s' /\
      revision s p + Z.of_nat m <= revision s' p)).
Proof.
  assert (0 <= attempt_cost) as Hcost by (unfold attempt_cost; pose proof (geo_cpp vol Hg); lia).
  induction m as [|m IH]; intros attempt s st Hs Hb; cbn [attempts].
  { exists s, st, (Err ErrMetadataCASConflict). split; [done|]. right. split; [done|].
    split; [by apply run_quiet, quiet_refl|lia]. }
  assert (0 <= Z.of_nat m * attempt_cost) as Hm by nia.
  replace (Z.of_nat (Datatypes.S m) * attempt_cost)
    with (attempt_cost + Z.of_nat m * attempt_cost) in * by lia.
  destruct (attempt_spec attempt s st Hs) as (s1 & st1 & res & E & Hres).
  { eapply budget_weaken; [|exact Hb]. lia. }
  erewrite bind_act_Ok by exact E. destruct res; cbn in Hres.
  - exists s1, st1, (Ok tt). split; [done|]. left. split; [done|].
    destruct Hres as (s4 & s5 & Hr & Hpw & Hq). exists s4, s5. split; [|done].
    eapply run_weaken; [|exact Hr|]; [lia|]. eapply run_evolves; [done|exact Hr|done|].
    eapply budget_weaken; [|exact Hb]. lia.
  - destruct Hres as [Hr Hlt]. pose proof (run_evolves vol interfere g Henv _ _ _ Hr Hs) as Hev.
    assert (evolves vol attempt_cost s s1) as Hev1.
    { apply Hev. eapply budget_weaken; [|exact Hb]. lia. }
    destruct (IH (Datatypes.S attempt) s1 st1) as (s' & st' & r & E' & Hr').
    { apply Hev1. }
    { eapply budget_after; [exact Hev1|]. eapply budget_weaken; [|exact Hb]. lia. }
    exists s', st', r. split; [exact E'|].
    destruct Hr' as [[-> Hc]|(-> & Hr2 & Hle)].
    + left. split; [done|]. eapply outcome_before; [exact Hr|lia|exact Hc].
    + right. split; [done|]. split; [by eapply run_trans|lia].
Qed.

End Attempt.
End PageWrite.
