(* ===== verification/WriteRange.v ===== *)
(** * Writing a byte range

    From one page to a whole request: [writePage], the loop over the pages and
    [WriteAt], under interference and alone.  Alone, [WriteAt] is the update of
    a flat byte array. *)

From Stdlib Require Import ZArith Lia Ascii String.
From stdpp Require Import base list gmap strings.
From coqutil Require Import Byte.
From S2P Require Import Prelude GatewayTypes ObjectStore ObjectStoreFacts ChunkMap ChunkExtent.
From S2P Require Import DataWorld ReadFacts WriteFacts PageWrite.
Open Scope string_scope.
Open Scope Z_scope.

Module WriteRange.
Import Gateway Store StoreFacts ChunkMap ChunkExtent DataWorld WriteFacts PageWrite.

Section Range.
Context {S : Type} `{DataLaws S}.
Context (vol : VolumeSpec) (Hg : geometry vol).
Abbreviation cs := (cs vol).
Abbreviation cpp := (cpp vol).

(** Chunks of the volume, and of page [p]. *)
Definition total : Z := (vSizeBytes vol + cs - 1) / cs.
Definition count_in (p : Z) : Z := Z.min cpp (total - p * cpp).

Lemma total_bounds : 0 <= total /\ total * cs <= vSizeBytes vol + cs - 1 /\ total <= vSizeBytes vol.
Proof.
  pose proof (geo_cs vol Hg). pose proof (geo_size vol Hg). unfold total.
  pose proof (Z.mul_div_le (vSizeBytes vol + cs - 1) cs ltac:(lia)).
  assert (0 <= (vSizeBytes vol + cs - 1) / cs) by (apply Z.div_pos; lia). split; [lia|]. split; [lia|].
  apply Z.lt_succ_r, Z.div_lt_upper_bound; [lia|]. nia.
Qed.

Context (off len : Z) (data : bytes) (Hoff : 0 <= off) (Hpos : 0 < len).
Context (Hend : off + len <= vSizeBytes vol) (Hdata : zlen data = len).

Abbreviation first_page := (off / cs / cpp).
Abbreviation last_page := ((off + len - 1) / cs / cpp).

Lemma size_bound : off + len <= 2 ^ 63.
Proof. pose proof (geo_size vol Hg). lia. Qed.

Lemma last_chunk : 0 <= off / cs <= (off + len - 1) / cs /\ (off + len - 1) / cs < total.
Proof.
  pose proof (geo_cs vol Hg). split; [split; [by apply Z.div_pos; lia|apply Z.div_le_mono; lia]|].
  unfold total. replace (vSizeBytes vol + cs - 1) with (vSizeBytes vol - 1 + 1 * cs) by lia.
  rewrite Z.div_add by lia.
  assert ((off + len - 1) / cs <= (vSizeBytes vol - 1) / cs) by (apply Z.div_le_mono; lia). lia.
Qed.

Lemma pages_ordered : 0 <= first_page <= last_page.
Proof.
  pose proof last_chunk. pose proof (geo_cpp vol Hg).
  split; [apply Z.div_pos; lia|apply Z.div_le_mono; lia].
Qed.

(** Everything [writePage] computes about a page of the request. *)
Section Page.
Context (p : Z) (Hin : first_page <= p <= last_page).
Abbreviation base := (p * cpp).
Abbreviation n := (count_in p).
Abbreviation lo := (Z.max off (base * cs)).
Abbreviation hi := (Z.min (off + len) (base * cs + n * cs)).
Abbreviation i0 := ((lo - base * cs) / cs).
Abbreviation i1 := ((hi - base * cs - 1) / cs).

Lemma page_facts :
  page_in vol p /\ 0 < n <= cpp /\ base + n <= total /\ 0 <= base /\ lo < hi /\
  0 <= base * cs /\ (base + n) * cs < 2 ^ 64 /\ base + n <= 2 ^ 63.
Proof.
  pose proof (geo_cs vol Hg) as Hcs. pose proof (geo_cpp vol Hg) as Hcpp. pose proof (geo_size vol Hg).
  pose proof pages_ordered. pose proof last_chunk as [Hc Hlt]. pose proof total_bounds as (H0' & H1' & H2').
  pose proof (Z.mul_div_le ((off + len - 1) / cs) cpp ltac:(lia)) as Hle.
  pose proof (Z.mul_div_le (off + len - 1) cs ltac:(lia)) as Hle2.
  pose proof (Z.mul_succ_div_gt (off / cs) cpp ltac:(lia)) as Hgt.
  pose proof (Z.mul_succ_div_gt off cs ltac:(lia)) as Hgt2.
  assert (p * cpp <= last_page * cpp) as Hb by (apply Z.mul_le_mono_nonneg_r; lia).
  assert (first_page * cpp <= p * cpp) as Hb1 by (apply Z.mul_le_mono_nonneg_r; lia).
  assert (base * cs <= (off + len - 1) / cs * cs) as Hb2 by (apply Z.mul_le_mono_nonneg_r; lia).
  assert (0 <= base) as Hb0 by (apply Z.mul_nonneg_nonneg; lia).
  assert (0 <= base * cs) by (apply Z.mul_nonneg_nonneg; lia).
  assert (off / cs + 1 <= base + cpp) as Hb3 by lia.
  assert ((off / cs + 1) * cs <= (base + cpp) * cs) as Hb4 by (apply Z.mul_le_mono_nonneg_r; lia).
  assert ((off / cs + 1) * cs <= total * cs) as Hb5 by (apply Z.mul_le_mono_nonneg_r; lia).
  assert (0 < n <= cpp /\ base + n <= total) as [? ?] by (unfold count_in; lia).
  assert ((base + n) * cs <= total * cs) as Hb6 by (apply Z.mul_le_mono_nonneg_r; lia).
  assert (off < (base + n) * cs) as Hb7.
  { unfold count_in. destruct (Z.min_spec cpp (total - base)) as [[_ ->]|[_ ->]]; [lia|].
    replace (base + (total - base)) with total by lia. lia. }
  unfold page_in. do 7 (split; [lia|]). lia.
Qed.

Lemma index_facts : 0 <= i0 <= i1 /\ i1 < n.
Proof.
  pose proof page_facts as (_ & Hn & _ & _ & Hlt & _). pose proof (geo_cs vol Hg).
  split; [split; [apply Z.div_pos; lia|apply Z.div_le_mono; lia]|].
  apply Z.div_lt_upper_bound; lia.
Qed.

Lemma touch_facts k : 0 <= k < n ->
  touches vol off len (base + k) = true <-> i0 <= k <= i1.
Proof.
  pose proof page_facts as (_ & Hn & _ & _ & Hlt & _). pose proof (geo_cs vol Hg) as Hcs. intros Hk.
  unfold touches, win_start, win_end. rewrite Z.ltb_lt.
  assert (0 <= k * cs /\ k * cs + cs <= n * cs) as [? ?] by nia.
  replace ((base + k) * cs) with (base * cs + k * cs) by lia.
  assert (i0 <= k <-> lo - base * cs < k * cs + cs) as ->.
  { split; intros Hx.
    - pose proof (Z.mul_succ_div_gt (lo - base * cs) cs ltac:(lia)). nia.
    - apply Z.lt_succ_r, Z.div_lt_upper_bound; lia. }
  assert (k <= i1 <-> k * cs <= hi - base * cs - 1) as ->.
  { split; intros Hx.
    - pose proof (Z.mul_div_le (hi - base * cs - 1) cs ltac:(lia)). nia.
    - apply Z.div_le_lower_bound; lia. }
  lia.
Qed.

Lemma count_eq : logicalChunkCountInPage vol p = n /\ mul64 p cpp = base.
Proof.
  pose proof page_facts as (Hp & Hn & Ht & Hb & _). pose proof (geo_cs vol Hg).
  pose proof (geo_size vol Hg). pose proof total_bounds as (? & ? & ?). destruct Hp as [? ?].
  assert (mul64 p cpp = base) as Hmul by (apply mul64_small; unfold in_u; lia).
  split; [|done]. unfold logicalChunkCountInPage.
  change (vExtentPageBytes vol / vChunkSizeBytes vol) with cpp. change (vChunkSizeBytes vol) with cs.
  rewrite Hmul, add64_small, sub64_small by (unfold in_u; lia). fold total.
  destruct (Z.leb_spec total base); [lia|]. rewrite sub64_small by (unfold in_u; lia).
  unfold count_in. zcases; lia.
Qed.

End Page.

(** ** Pages under interference *)

Context (planner : option (VolumeSpec -> Z -> Z -> result svc_error PhysicalChunkRef)).
Context (order : list PhysicalChunkRef -> list PhysicalChunkRef).
Context (Hplan : plan_ok vol planner).
Context (interfere : nat -> nat -> S -> S) (g : Z) (Hgpos : 0 <= g).
Context (Henv : env_ok vol interfere g).
Abbreviation run := (run vol interfere g).
Abbreviation revision := (revision vol).

(** Page [p] of the request becomes visible in one step. *)
Definition written (p : Z) (s s' : S) : Prop := page_written vol off len data p (count_in p) s s'.

Definition page_cost : Z := 8 * (3 * g + cpp) + 1.

Lemma page_cost_pos : 0 < page_cost.
Proof. pose proof (geo_cpp vol Hg). unfold page_cost. lia. Qed.

Lemma writePage_spec p (s : S) st :
  first_page <= p <= last_page -> Inv vol s -> budget vol s page_cost ->
  exists s' st' r,
    writePage planner order interfere vol p off len data (s, st) = ((s', st'), r) /\
    ((r = Ok tt /\ exists s4 s5, run (page_cost - 1) s s4 /\ written p s4 s5 /\ quiet vol 0 s5 s') \/
     (r = Err ErrMetadataCASConflict /\ run (page_cost - 1) s s' /\
      revision s p + 8 <= revision s' p)).
Proof.
  intros Hin Hs Hb. pose proof (page_facts p Hin) as (Hp & Hn & Htot & Hb0 & Hlt & Hb1 & Hlast & H63).
  pose proof (geo_cs vol Hg). pose proof size_bound. destruct (count_eq p Hin) as [Hcount Hmul].
  pose proof (index_facts p Hin) as Hidx.
  assert (0 <= count_in p * cs) by (apply Z.mul_nonneg_nonneg; lia).
  unfold writePage. change (vExtentPageBytes vol / vChunkSizeBytes vol) with cpp.
  change (vChunkSizeBytes vol) with cs. rewrite Hcount, Hmul.
  destruct (Z.eqb_spec (count_in p) 0); [lia|].
  rewrite (mul64_small (p * cpp) cs), (mul64_small (count_in p) cs),
    (add64_small (p * cpp * cs) (count_in p * cs)), (add64_small off len) by (unfold in_u; lia).
  destruct (Z.leb_spec (Z.min (off + len) (p * cpp * cs + count_in p * cs))
              (Z.max off (p * cpp * cs))); [lia|].
  rewrite (sub64_small (Z.max off _) _), (sub64_small (Z.min _ _) (p * cpp * cs)),
    (sub64_small _ 1) by (unfold in_u; lia).
  destruct (attempts_spec vol Hg off len data Hoff Hpos ltac:(lia) Hdata planner order Hplan p Hp
    (count_in p) Hn H63 Hlast _ _ Hidx (touch_facts p Hin) interfere g Hgpos Henv
    chunkExtentWriteRetryLimit 0%nat s st Hs) as (s' & st' & r & E & Hr).
  { exact Hb. }
  change (Z.of_nat chunkExtentWriteRetryLimit) with 8 in Hr.
  exists s', st', r. split; [exact E|]. unfold page_cost, attempt_cost in *.
  rewrite Z.add_simpl_r. destruct Hr as [[-> Hr]|Hr]; [by left|by right].
Qed.

(** The pages [ps] of the request became visible one after the other, with
    steps of other writers in between. *)
Inductive pages_done : list Z -> S -> S -> Prop :=
  | pages_nil b s s' : run b s s' -> pages_done [] s s'
  | pages_cons b p ps s s1 s2 s' :
      run b s s1 -> written p s1 s2 -> pages_done ps s2 s' -> pages_done (p :: ps) s s'.

Lemma pages_before b (s s1 s' : S) ps : run b s s1 -> pages_done ps s1 s' -> pages_done ps s s'.
Proof.
  intros Hr Hd. destruct Hd; [eapply pages_nil|eapply pages_cons; [|done|done]];
    by eapply run_trans.
Qed.

Lemma write_pages_spec m : forall p (s : S) st,
  first_page <= p -> p + Z.of_nat m = last_page + 1 -> Inv vol s ->
  budget vol s (Z.of_nat m * page_cost) ->
  exists s' st' r k,
    write_pages planner order interfere m vol p off len data (s, st) = ((s', st'), r) /\
    pages_done (seqZ p k) s s' /\ evolves vol (Z.of_nat m * page_cost) s s' /\
    ((r = Ok tt /\ k = Z.of_nat m) \/
     (r = Err ErrMetadataCASConflict /\ 0 <= k < Z.of_nat m /\
      exists s1, pages_done (seqZ p k) s s1 /\ evolves vol (Z.of_nat m * page_cost) s1 s' /\
                 revision s1 (p + k) + 8 <= revision s' (p + k))).
Proof.
  pose proof page_cost_pos as Hcost.
  induction m as [|m IH]; intros p s st Hfirst Hm Hs Hb; cbn [write_pages].
  { exists s, st, (Ok tt), 0. split; [done|]. split; [|split; [by apply evolves_refl|by left]].
    eapply pages_nil, run_quiet, (quiet_refl vol s 0); [lia|done]. }
  assert (0 <= Z.of_nat m * page_cost) as Hmp by nia.
  replace (Z.of_nat (Datatypes.S m) * page_cost)
    with (page_cost + Z.of_nat m * page_cost) in * by lia.
  erewrite bind_act_Ok by reflexivity. cbn [fst snd].
  match goal with |- context [bind_act _ _ (s, ?st0)] =>
    destruct (writePage_spec p s st0) as (s1 & st1 & r & E & Hr) end; [lia|done| |].
  { eapply budget_weaken; [|exact Hb]. lia. }
  destruct Hr as [(-> & s4 & s5 & Hrun & Hw & Hq)|(-> & Hrun & Hlt)].
  - erewrite bind_act_Ok by exact E.
    assert (evolves vol (page_cost - 1) s s4) as Hev4.
    { eapply run_evolves; [done|exact Hrun|done|]. eapply budget_weaken; [|exact Hb]. lia. }
    assert (evolves vol page_cost s s1) as Hev1.
    { replace page_cost with (page_cost - 1 + (1 + 0)) by lia.
      eapply evolves_trans; [done|]. eapply evolves_trans; [apply Hw|apply Hq]. }
    pose proof (page_facts p ltac:(lia)) as (Hp & _). destruct Hp as [Hp0 Hp1].
    pose proof (geo_cpp vol Hg).
    rewrite (add64_small p 1) by (unfold in_u; nia).
    destruct (IH (p + 1) s1 st1) as (s' & st' & r & k & E' & Hd & Hev' & Hr');
      [lia|lia|apply Hev1|by eapply budget_after|].
    assert (0 <= k) as Hk by (destruct Hr' as [[_ ->]|(_ & ? & _)]; lia).
    assert (forall sx, pages_done (seqZ (p + 1) k) s1 sx -> pages_done (seqZ p (k + 1)) s sx) as Hcons.
    { intros sx Hd'. rewrite (seqZ_cons p) by lia. replace (Z.pred (k + 1)) with k by lia.
      eapply pages_cons; [exact Hrun|exact Hw|]. eapply pages_before; [|exact Hd'].
      by apply run_quiet. }
    exists s', st', r, (k + 1). split; [exact E'|]. split; [by apply Hcons|].
    split; [by eapply evolves_trans|].
    destruct Hr' as [[-> ->]|(-> & Hkm & sx & Hdx & Hevx & Hlt)]; [left; split; [done|lia]|right].
    split; [done|]. split; [lia|]. exists sx. split; [by apply Hcons|].
    replace (p + (k + 1)) with (p + 1 + k) by lia. split; [|done].
    eapply evolves_weaken; [|exact Hevx]. lia.
  - exists s1, st1, (Err ErrMetadataCASConflict), 0. unfold bind_act. rewrite E.
    assert (evolves vol (page_cost - 1) s s1) as Hev1.
    { eapply run_evolves; [done|exact Hrun|done|]. eapply budget_weaken; [|exact Hb]. lia. }
    assert (evolves vol (page_cost + Z.of_nat m * page_cost) s s1) as Hev2.
    { eapply evolves_weaken; [|exact Hev1]. lia. }
    split; [done|]. split; [by eapply pages_nil|]. split; [done|]. right. split; [done|].
    split; [lia|]. exists s. rewrite Z.add_0_r. split; [|done].
    eapply pages_nil, run_quiet, (quiet_refl vol s 0); [lia|done].
Qed.

(** The same history, byte by byte. *)
Definition in_range (o : Z) : bool := (off <=? o) && (o <? off + len).

Definition bytes_written (p : Z) (s s' : S) : Prop :=
  forall o, 0 <= o < vSizeBytes vol -> byte_at vol s' o =
    if in_range o && (o / cs / cpp =? p) then default Byte.x00 (data !! Z.to_nat (o - off))
    else byte_at vol s o.

Inductive history : list Z -> S -> S -> Prop :=
  | history_nil b s s' : run b s s' -> history [] s s'
  | history_cons b p ps s s1 s2 s' :
      run b s s1 -> bytes_written p s1 s2 -> history ps s2 s' -> history (p :: ps) s s'.

Lemma chunk_of_offset o : 0 <= o < vSizeBytes vol ->
  0 <= o / cs < total /\ chunk_in (o / cs) /\ o = o / cs * cs + o mod cs /\ 0 <= o mod cs < cs.
Proof.
  intros Ho. pose proof (geo_cs vol Hg). pose proof (geo_size vol Hg). pose proof total_bounds.
  pose proof (Z.div_mod o cs ltac:(lia)). pose proof (Z.mod_pos_bound o cs ltac:(lia)).
  assert (0 <= o / cs) by (apply Z.div_pos; lia).
  assert (o / cs < total).
  { unfold total. replace (vSizeBytes vol + cs - 1) with (vSizeBytes vol - 1 + 1 * cs) by lia.
    rewrite Z.div_add by lia.
    assert (o / cs <= (vSizeBytes vol - 1) / cs) by (apply Z.div_le_mono; lia). lia. }
  unfold chunk_in. lia.
Qed.

Lemma byte_overlay (s s' : S) o :
  Inv vol s -> 0 <= o < vSizeBytes vol ->
  chunk_at vol s' (o / cs) = overlay vol off len data (chunk_at vol s (o / cs)) (o / cs) ->
  byte_at vol s' o =
    if in_range o then default Byte.x00 (data !! Z.to_nat (o - off)) else byte_at vol s o.
Proof.
  intros Hs Ho Hc. destruct (chunk_of_offset o Ho) as (Hlc & Hci & Hdm & Hmod).
  unfold byte_at. rewrite Hc.
  pose proof (overlay_byte vol off len data Hpos Hdata (chunk_at vol s (o / cs)) (o / cs) o) as Hby.
  replace (o - o / cs * cs) with (o mod cs) in Hby by lia.
  rewrite Hby; [|by apply chunk_at_length|lia]. unfold in_range.
  by destruct ((off <=? o) && (o <? off + len)).
Qed.

Lemma written_bytes p (s s' : S) : written p s s' -> bytes_written p s s'.
Proof.
  intros Hw o Ho. destruct (chunk_of_offset o Ho) as (Hlc & Hci & Hdm & Hmod).
  pose proof (geo_cpp vol Hg) as Hcpp.
  destruct (Z.eqb_spec (o / cs / cpp) p) as [Hp|Hne].
  - rewrite andb_true_r. apply byte_overlay; [apply Hw|done|].
    pose proof (Z.div_mod (o / cs) cpp ltac:(lia)) as Hd.
    pose proof (Z.mod_pos_bound (o / cs) cpp ltac:(lia)).
    pose proof (pw_chunk _ _ _ _ _ _ _ _ Hw (o / cs mod cpp)) as Hc.
    replace (p * cpp + o / cs mod cpp) with (o / cs) in Hc by lia. apply Hc. unfold count_in. lia.
  - rewrite andb_false_r. unfold byte_at. by rewrite (pw_other _ _ _ _ _ _ _ _ Hw).
Qed.

Lemma pages_history ps (s s' : S) : pages_done ps s s' -> history ps s s'.
Proof.
  induction 1; [by eapply history_nil|]. eapply history_cons; eauto using written_bytes.
Qed.

(** The number of pages a request touches. *)
Definition page_span : Z := last_page - first_page + 1.

Lemma WriteAt_pages (s : S) :
  Inv vol s -> budget vol s (page_span * page_cost) ->
  exists s' r k,
    WriteAt planner order interfere vol off len data s = (s', r) /\
    pages_done (seqZ first_page k) s s' /\ evolves vol (page_span * page_cost) s s' /\
    ((r = Ok tt /\ k = page_span) \/
     (r = Err ErrMetadataCASConflict /\ 0 <= k < page_span /\
      exists s1, pages_done (seqZ first_page k) s s1 /\ evolves vol (page_span * page_cost) s1 s' /\
                 revision s1 (first_page + k) + 8 <= revision s' (first_page + k))).
Proof.
  intros Hs Hb. pose proof pages_ordered. pose proof (geo_cs vol Hg). pose proof (geo_cpp vol Hg).
  pose proof size_bound. unfold page_span in *.
  destruct (write_pages_spec (Z.to_nat (last_page - first_page + 1)) first_page s zero_stats)
    as (s' & st' & r & k & E & Hrest); [lia|lia|done|rewrite Z2Nat.id by lia; done|].
  rewrite Z2Nat.id in Hrest by lia. exists s', r, k. split; [|done].
  unfold WriteAt, WriteAtWithStats. rewrite (geo_norm vol Hg).
  destruct (Z.eqb_spec len 0); [lia|].
  change (vExtentPageBytes vol / vChunkSizeBytes vol) with cpp. change (vChunkSizeBytes vol) with cs.
  destruct (Z.eqb_spec cpp 0); [lia|].
  rewrite add64_small, sub64_small by (unfold in_u; lia). by rewrite E.
Qed.

End Range.

(** ** Alone *)

Section Alone.
Context {S : Type} `{DataLaws S}.
Context (vol : VolumeSpec) (Hg : geometry vol).
Abbreviation cs := (cs vol).
Abbreviation cpp := (cpp vol).
Abbreviation alone := (fun (_ _ : nat) (s : S) => s).
Context (off len : Z) (data : bytes) (Hoff : 0 <= off) (Hpos : 0 < len).
Context (Hend : off + len <= vSizeBytes vol) (Hdata : zlen data = len).

Lemma alone_ok : env_ok (S:=S) vol alone 0.
Proof. intros _ _ s Hs _. by apply evolves_refl. Qed.

Lemma alone_run b (s s' : S) : run vol alone 0 b s s' -> Same vol s s'.
Proof. induction 1 as [? ? ? []| |]; [done|apply Same_refl|by eapply Same_trans]. Qed.

Abbreviation done_alone := (pages_done vol off len data alone 0).

Lemma alone_revision ps (s s' : S) q : done_alone ps s s' -> q ∉ ps ->
  revision vol s' q = revision vol s q.
Proof.
  unfold revision, the_page.
  induction 1 as [b s s' Hr|b p ps s s1 s2 s' Hr Hw Hd IH]; intros Hq.
  - by rewrite (same_page vol _ _ (alone_run _ _ _ Hr)).
  - apply not_elem_of_cons in Hq as [Hne Hq]. rewrite IH by done.
    rewrite (pw_page _ _ _ _ _ _ _ _ Hw q Hne).
    by rewrite (same_page vol _ _ (alone_run _ _ _ Hr)).
Qed.

Lemma alone_chunks ps (s s' : S) : done_alone ps s s' -> NoDup ps ->
  forall lc, 0 <= lc < total vol -> chunk_at vol s' lc =
    if decide (lc / cpp ∈ ps) then overlay vol off len data (chunk_at vol s lc) lc
    else chunk_at vol s lc.
Proof.
  pose proof (geo_cpp vol Hg) as Hcpp. pose proof (total_bounds vol Hg) as (_ & _ & Ht).
  pose proof (geo_size vol Hg).
  induction 1 as [b s s' Hr|b p ps s s1 s2 s' Hr Hw Hd IH]; intros Hnd lc Hlc.
  - rewrite decide_False by apply not_elem_of_nil.
    apply (same_chunk vol _ _ (alone_run _ _ _ Hr)). unfold chunk_in. lia.
  - apply NoDup_cons in Hnd as [Hp Hnd]. assert (chunk_in lc) as Hci by (unfold chunk_in; lia).
    rewrite IH by done. rewrite <-(same_chunk vol _ _ (alone_run _ _ _ Hr) lc Hci).
    destruct (decide (lc / cpp = p)) as [Heq|Hne].
    + rewrite decide_False by (by rewrite Heq). rewrite decide_True by (rewrite Heq; left).
      pose proof (Z.div_mod lc cpp ltac:(lia)) as Hdm. pose proof (Z.mod_pos_bound lc cpp ltac:(lia)).
      pose proof (pw_chunk _ _ _ _ _ _ _ _ Hw (lc mod cpp)) as Hc.
      replace (p * cpp + lc mod cpp) with lc in Hc by lia. apply Hc. unfold count_in. lia.
    + rewrite (pw_other _ _ _ _ _ _ _ _ Hw) by done.
      destruct (decide (lc / cpp ∈ ps)) as [Hin|Hin].
      * rewrite decide_True; [done|by right].
      * rewrite decide_False; [done|]. intros Hc. apply elem_of_cons in Hc as [?|?]; done.
Qed.

Lemma untouched lc : 0 <= lc ->
  ~ (off / cs / cpp <= lc / cpp <= (off + len - 1) / cs / cpp) -> touches vol off len lc = false.
Proof.
  intros Hlc Hno. pose proof (geo_cs vol Hg). pose proof (geo_cpp vol Hg).
  apply not_true_is_false. intros Ht. apply Hno. clear Hno.
  unfold touches, win_start, win_end in Ht. apply Z.ltb_lt in Ht. split.
  - apply Z.div_le_mono; [lia|]. apply Z.lt_succ_r, Z.div_lt_upper_bound; lia.
  - apply Z.div_le_mono; [lia|]. apply Z.div_le_lower_bound; lia.
Qed.

Context (planner : option (VolumeSpec -> Z -> Z -> result svc_error PhysicalChunkRef)).
Context (order : list PhysicalChunkRef -> list PhysicalChunkRef).
Context (Hplan : plan_ok vol planner).

Definition alone_cost : Z := page_span vol off len * page_cost vol 0.

(** A write that runs alone succeeds and replaces exactly its range. *)
Lemma WriteAt_alone (s : S) :
  Inv vol s -> budget vol s alone_cost ->
  exists s', WriteAt planner order alone vol off len data s = (s', Ok tt) /\
    evolves vol alone_cost s s' /\
    forall o, 0 <= o < vSizeBytes vol -> byte_at vol s' o =
      if in_range off len o then default Byte.x00 (data !! Z.to_nat (o - off))
      else byte_at vol s o.
Proof.
  intros Hs Hb. pose proof (pages_ordered vol Hg off len Hoff Hpos Hend) as Hord.
  destruct (WriteAt_pages vol Hg off len data Hoff Hpos Hend Hdata planner order Hplan alone 0
    ltac:(lia) alone_ok s Hs Hb) as (s' & r & k & E & Hd & Hev & Hr).
  destruct Hr as [[-> ->]|(_ & Hk & s1 & Hd1 & _ & Hlt)].
  2:{ exfalso. assert (off / cs / cpp + k ∉ seqZ (off / cs / cpp) k) as Hq.
      { rewrite elem_of_seqZ. lia. }
      rewrite (alone_revision _ _ _ _ Hd Hq), (alone_revision _ _ _ _ Hd1 Hq) in Hlt. lia. }
  exists s'. split; [done|]. split; [done|]. intros o Ho.
  destruct (chunk_of_offset vol Hg o Ho) as (Hlc & Hci & _).
  apply byte_overlay; [done..|]. rewrite (alone_chunks _ _ _ Hd) by (done || apply NoDup_seqZ).
  destruct (decide _) as [_|Hno]; [done|]. rewrite elem_of_seqZ in Hno.
  unfold overlay. rewrite untouched; [done|lia|]. unfold page_span in Hno. lia.
Qed.

End Alone.

(** ** Other writers as the interference *)

Section Writers.
Context {S : Type} `{DataLaws S}.
Context (vol : VolumeSpec) (Hg : geometry vol).
Context (planner : option (VolumeSpec -> Z -> Z -> result svc_error PhysicalChunkRef)).
Context (order : list PhysicalChunkRef -> list PhysicalChunkRef).
Context (Hplan : plan_ok vol planner).

Record request := mkRequest { q_off : Z; q_len : Z; q_data : bytes }.

Definition valid_request (q : request) : Prop :=
  0 <= q_off q /\ 0 < q_len q /\ q_off q + q_len q <= vSizeBytes vol /\ zlen (q_data q) = q_len q.

Definition serve (s : S) (q : request) : S :=
  (WriteAt planner order (fun _ _ s => s) vol (q_off q) (q_len q) (q_data q) s).1.

Definition request_cost (q : request) : Z := alone_cost vol (q_off q) (q_len q).

Lemma request_cost_nonneg q : valid_request q -> 0 <= request_cost q.
Proof.
  intros (H0' & H1' & H2' & _). unfold request_cost, alone_cost, page_span.
  pose proof (pages_ordered vol Hg _ _ H0' H1' H2'). pose proof (page_cost_pos vol Hg 0 ltac:(lia)).
  nia.
Qed.

Definition total_cost (qs : list request) : Z := foldr (fun q c => request_cost q + c) 0 qs.

Lemma total_cost_nonneg qs : Forall valid_request qs -> 0 <= total_cost qs.
Proof.
  induction 1 as [|q qs Hq _ IH]; cbn; [lia|]. pose proof (request_cost_nonneg q Hq).
  unfold total_cost in IH. lia.
Qed.

(** Serving the requests of other writers is legitimate interference. *)
Lemma serve_evolves qs : forall (s : S), Forall valid_request qs -> Inv vol s ->
  budget vol s (total_cost qs) -> evolves vol (total_cost qs) s (fold_left serve qs s).
Proof.
  induction qs as [|q qs IH]; intros s Hqs Hs Hb; cbn [fold_left total_cost foldr] in *.
  { by apply evolves_refl. }
  inversion_clear Hqs as [|? ? Hq Hqs']. pose proof (request_cost_nonneg q Hq) as Hc.
  pose proof (total_cost_nonneg qs Hqs') as Hc'.
  fold (total_cost qs) in *. destruct Hq as (H0' & H1' & H2' & H3').
  destruct (WriteAt_alone vol Hg (q_off q) (q_len q) (q_data q) H0' H1' H2' H3' planner order Hplan s
    Hs) as (s1 & E & Hev & _).
  { eapply budget_weaken; [|exact Hb]. unfold request_cost. lia. }
  unfold serve at 2. rewrite E. cbn [fst]. eapply evolves_trans; [exact Hev|].
  apply IH; [done|apply Hev|]. by eapply budget_after.
Qed.

Lemma writers_env (reqs : nat -> nat -> list request) g :
  (forall i j, Forall valid_request (reqs i j) /\ total_cost (reqs i j) <= g) ->
  env_ok vol (fun i j s => fold_left serve (reqs i j) s) g.
Proof.
  intros Hr i j s Hs Hb. destruct (Hr i j) as [Hv Hc].
  eapply evolves_weaken; [exact Hc|]. apply serve_evolves; [done|done|].
  eapply budget_weaken; [exact Hc|done].
Qed.

End Writers.
End WriteRange.
