(* ===== verification/MemoryWorld.v ===== *)
(** * The in-memory gateway

    The world of a gateway started without external stores: the in-memory
    metadata repository, the in-memory object store and the clock.  It
    implements the interfaces the data path is written against, and keeps the
    contract [DataLaws] of DataWorld.v; the claims about reading and writing
    below are therefore theorems about the code as it runs on it. *)

From Stdlib Require Import ZArith Lia Ascii String.
From stdpp Require Import base list gmap strings.
From coqutil Require Import Byte.
From S2P Require Import Prelude GatewayTypes MemoryMetadata MemoryMetadataFacts ObjectStore.
From S2P Require Import ObjectStoreFacts ChunkMap Discard ChunkExtent DataWorld ReadFacts.
From S2P Require Import WriteFacts PageWrite WriteRange.
Open Scope string_scope.
Open Scope Z_scope.

Module MemoryWorld.
Import Gateway Store StoreFacts ChunkMap Discard ChunkExtent DataWorld ReadFacts WriteFacts
  PageWrite WriteRange.

Record World := mkWorld { repo : MemMeta.Repo; objects : MemoryStore; clock : Z }.

Definition on_repo {A} (m : act MemMeta.Repo svc_error A) : act World svc_error A := fun w =>
  let '(r, res) := m (repo w) in (mkWorld r (objects w) (clock w), res).
Definition on_objects {A} (m : act MemoryStore svc_error A) : act World svc_error A := fun w =>
  let '(o, res) := m (objects w) in (mkWorld (repo w) o (clock w), res).

#[export] Instance world_store : ObjectStore World := {
  store_get k := on_objects (Get k);
  store_put k b := on_objects (Put k b);
  store_delete k := on_objects (Delete k) }.

#[export] Instance world_metadata : ExtentMetadata World := {
  GetExtentPage v p := on_repo (MemMeta.GetExtentPage v p);
  PutExtentPage rec rev := on_repo (MemMeta.PutExtentPage rec rev);
  AllocateChunkIDs v n := on_repo (MemMeta.AllocateChunkIDs v n);
  PutChunkGarbage rec := fun w => on_repo (MemMeta.PutChunkGarbage (clock w) rec) w }.

#[export] Instance world_view : DataView World := {
  page_at w v p :=
    volume ← MemMeta.volumes (repo w) !! v;
    Some (default (MemMeta.empty_page volume v p) (MemMeta.pages_of (repo w) v !! p));
  object_at w k := data (objects w) !! k;
  next_id w v := MemMetaFacts.next_of (repo w) v }.

Lemma volume_of_page (w : World) v p : is_Some (page_at w v p) ->
  exists volume, MemMeta.volumes (repo w) !! v = Some volume.
Proof. cbn. destruct (_ !! v); [by eexists|]. by intros []. Qed.

#[export] Instance world_laws : DataLaws World.
Proof.
  split.
  - intros [] k. done.
  - intros [r [o] c] k b. eexists. split; [reflexivity|]. do 2 (split; [done|]). cbn.
    split; [apply lookup_insert_eq|]. intros k' Hk. by apply lookup_insert_ne.
  - intros [r o c] v p. cbn. unfold on_repo, MemMeta.GetExtentPage, MemMeta.with_volume. cbn.
    by destruct (_ !! v).
  - intros [r o c] rec rev cur Hcur.
    destruct (volume_of_page _ _ _ (mk_is_Some _ _ Hcur)) as [volume Hv]. cbn in Hv, Hcur.
    pose proof (MemMetaFacts.put_page_spec r rec rev volume Hv) as Hspec.
    cbn. unfold on_repo. cbn [repo objects clock].
    destruct (MemMeta.PutExtentPage rec rev r) as [r' res]. destruct Hspec as (Evol & Enext & _ & Hres).
    do 2 eexists. split; [reflexivity|]. split; [done|].
    split; [intros v; cbn; unfold MemMetaFacts.next_of; by rewrite Enext|].
    rewrite Hv in Hcur. cbn in Hcur. injection Hcur as <-.
    assert (pRevision (default (MemMeta.empty_page volume (pVolumeID rec) (pPageNo rec))
              (MemMeta.pages_of r (pVolumeID rec) !! pPageNo rec))
            = MemMetaFacts.current_revision r (pVolumeID rec) (pPageNo rec)) as ->.
    { unfold MemMetaFacts.current_revision. by destruct (_ !! pPageNo rec). }
    destruct (_ =? rev).
    + destruct Hres as [-> Hpages]. eexists. split; [done|]. cbn. rewrite Evol, Hv. cbn.
      rewrite Hpages, decide_True by done. cbn. split; [done|]. split; [done|]. split; [done|].
      intros v p Hne. destruct (_ !! v); [|done]. cbn. by rewrite Hpages, decide_False.
    + destruct Hres as [-> Hpages]. split; [done|]. intros v p. cbn. by rewrite Evol, Hpages.
  - intros [r o c] v n Hv Hn H1 Hb. destruct (volume_of_page _ _ _ Hv) as [volume Hvol].
    cbn in Hvol, H1, Hb. cbn. unfold on_repo, MemMeta.AllocateChunkIDs, MemMeta.with_volume.
    cbn [repo objects clock]. rewrite Hvol. destruct (Z.eqb_spec n 0); [lia|].
    fold (MemMetaFacts.next_of r v). eexists. split; [reflexivity|]. do 2 (split; [done|]). cbn.
    assert (add64 (MemMetaFacts.next_of r v) n = MemMetaFacts.next_of r v + n) as Hadd
      by (apply add64_small; unfold in_u; lia).
    split.
    + unfold MemMetaFacts.next_of at 1. cbn. rewrite MemMetaFacts.next_insert, decide_True, Hadd by done.
      unfold or_default. zcases; lia.
    + intros v' Hne. unfold MemMetaFacts.next_of at 1. cbn.
      by rewrite MemMetaFacts.next_insert, decide_False.
  - intros [r o c] rec Hv. destruct (volume_of_page _ _ _ Hv) as [volume Hvol]. cbn in Hvol.
    cbn. unfold on_repo, MemMeta.PutChunkGarbage, MemMeta.with_volume. cbn [repo objects clock].
    rewrite Hvol. eexists. split; [reflexivity|]. done.
Qed.

(** ** A volume that was just created *)

Lemma fresh_inv (w : World) (vol : VolumeSpec) :
  geometry vol -> is_Some (MemMeta.volumes (repo w) !! vID vol) ->
  MemMeta.pages_of (repo w) (vID vol) = ∅ -> data (objects w) = ∅ ->
  MemMetaFacts.next_of (repo w) (vID vol) = 1 ->
  Inv vol w /\ forall b, 0 <= b < 2 ^ 62 -> budget vol w b.
Proof.
  intros Hg [volume Hv] Hpages Hobj Hnext.
  assert (forall p, page_at w (vID vol) p = Some (MemMeta.empty_page volume (vID vol) p)) as Hp.
  { intros p. cbn. rewrite Hv. cbn. by rewrite Hpages, lookup_empty. }
  split.
  - split.
    + by rewrite Hp.
    + intros p _. eexists. split; [apply Hp|]. exists []. split; [constructor|].
      split; [|constructor]. pose proof (geo_cpp vol Hg). change (zlen []) with 0. lia.
    + cbn. rewrite Hnext. lia.
    + intros ref _ _. cbn. by rewrite Hobj, lookup_empty.
  - intros b Hb. split; [cbn; rewrite Hnext; lia|]. intros p _.
    unfold revision, the_page. rewrite Hp. cbn. lia.
Qed.

(** ** The volume as an array *)

Section Array.
Context {S : Type} `{DataLaws S}.
Context (vol : VolumeSpec).
Context (planner : option (VolumeSpec -> Z -> Z -> result svc_error PhysicalChunkRef)).
Context (order : list PhysicalChunkRef -> list PhysicalChunkRef).

(** The specification: a volume is a function from offsets to bytes. *)
Definition array_write (f : Z -> byte) (q : request) : Z -> byte := fun o =>
  if in_range (q_off q) (q_len q) o then default Byte.x00 (q_data q !! Z.to_nat (o - q_off q))
  else f o.

(** The implementation: the requests served one after the other. *)
Fixpoint write_all (qs : list request) : act S svc_error unit :=
  match qs with
  | [] => ret_act tt
  | q :: qs =>
      bind_act (WriteAt planner order (fun _ _ s => s) vol (q_off q) (q_len q) (q_data q))
        (fun _ => write_all qs)
  end.

Lemma write_all_array qs : geometry vol -> plan_ok vol planner -> forall (s : S),
  Forall (valid_request vol) qs -> Inv vol s -> budget vol s (total_cost vol qs) ->
  exists s', write_all qs s = (s', Ok tt) /\ Inv vol s' /\
    forall o, 0 <= o < vSizeBytes vol ->
      byte_at vol s' o = fold_left array_write qs (byte_at vol s) o.
Proof.
  intros Hg Hplan. induction qs as [|q qs IH]; intros s Hqs Hs Hb; cbn [write_all].
  { by exists s. }
  inversion_clear Hqs as [|? ? Hq Hqs'].
  assert (0 <= total_cost vol qs) as Hc by (by eapply total_cost_nonneg).
  cbn [total_cost foldr] in Hb. fold (total_cost vol qs) in Hb. pose proof Hq as (H0' & H1' & H2' & H3').
  destruct (WriteAt_alone vol Hg (q_off q) (q_len q) (q_data q) H0' H1' H2' H3' planner order Hplan s
    Hs) as (s1 & E & Hev & Hbytes).
  { eapply budget_weaken; [|exact Hb]. unfold request_cost. lia. }
  erewrite bind_act_Ok by exact E.
  destruct (IH s1 Hqs') as (s' & E' & Hs' & Hbytes'); [apply Hev|by eapply budget_after|].
  exists s'. split; [exact E'|]. split; [done|]. intros o Ho. rewrite Hbytes' by done.
  cbn [fold_left]. clear -Hbytes Ho.
  assert (forall f f' : Z -> byte, f o = f' o ->
            fold_left array_write qs f o = fold_left array_write qs f' o) as Hext.
  { induction qs as [|q' qs IH]; intros f f' Hf; cbn [fold_left]; [done|]. apply IH.
    unfold array_write. by destruct (in_range _ _ o). }
  apply Hext. unfold array_write. by apply Hbytes.
Qed.

End Array.

(** ** Claims *)

(** C1: the chunk/extent repository implements a byte array.  After any sequence
    of writes inside the volume, every one of which succeeds, a read of any
    range inside the volume returns exactly the bytes the same writes put into
    a flat array, whatever chunks, extents, page boundaries, zero chunks and
    read-modify-write cycles the requests hit; [DataLaws] is the contract of
    the two stores below, which the in-memory gateway keeps. *)
Theorem reads_see_writes {S : Type} `{DataLaws S} (vol : VolumeSpec)
    (planner : option (VolumeSpec -> Z -> Z -> result svc_error PhysicalChunkRef))
    (order : list PhysicalChunkRef -> list PhysicalChunkRef) (qs : list request)
    (s : S) (off len : Z) :
  geometry vol -> plan_ok vol planner -> Forall (valid_request vol) qs ->
  Inv vol s -> budget vol s (total_cost vol qs) ->
  0 <= off -> 0 < len -> off + len <= vSizeBytes vol ->
  exists s' out, write_all vol planner order qs s = (s', Ok tt) /\
    ReadAt vol off len s' = (s', Ok out) /\ zlen out = len /\
    forall i, 0 <= i < len ->
      out !! Z.to_nat i = Some (fold_left array_write qs (byte_at vol s) (off + i)).
Proof.
  intros Hg Hplan Hqs Hs Hb Hoff Hpos Hend. pose proof (geo_size vol Hg).
  destruct (write_all_array vol planner order qs Hg Hplan s Hqs Hs Hb) as (s' & E & Hs' & Hbytes).
  destruct (ReadAt_filled vol Hg s' Hs' off len Hoff Hpos ltac:(lia)) as (out & Er & Hlen & Hout).
  exists s', out. split; [done|]. split; [done|]. split; [done|]. intros i Hi.
  rewrite Hout by lia. by rewrite Hbytes by lia.
Qed.

(** A volume of 40 bytes in chunks of 8 and pages of 16 bytes. *)
Definition small_volume : VolumeSpec :=
  NormalizeVolumeSpec (zero_VolumeSpec <| vID := 7 |> <| vPrefix := "vol-00000007" |>
    <| vSizeBytes := 40 |> <| vChunkSizeBytes := 8 |> <| vExtentPageBytes := 16 |>).
Definition small_world : World :=
  mkWorld (MemMeta.NewInMemoryMetadataRepository [small_volume]) NewMemoryStore 1000.

Lemma small_geometry : geometry small_volume.
Proof. split; vm_compute; split; congruence || reflexivity. Qed.

Lemma small_ok : Inv small_volume small_world /\
  forall b, 0 <= b < 2 ^ 62 -> budget small_volume small_world b.
Proof.
  apply fresh_inv; [exact small_geometry|eexists; vm_compute; reflexivity|..];
    vm_compute; reflexivity.
Qed.

(** Without a planner every chunk goes into the volume's own key space. *)
Lemma default_plan_ok vol : plan_ok vol None.
Proof.
  intros lc id Hid. exists (mkPhysicalChunkRef "" 0 id). unfold choosePhysicalChunkRef.
  destruct (Z.eqb_spec id 0); [lia|]. split; [done|]. split; [done|].
  unfold ref_ok, in_u. cbn. lia.
Qed.

Definition ones (n : Z) : bytes := replicate (Z.to_nat n) Byte.x01.
Definition small_requests : list request :=
  [mkRequest 3 20 (ones 20); mkRequest 8 8 (zeroes 8); mkRequest 30 4 (ones 4)].

Lemma small_requests_valid : Forall (valid_request small_volume) small_requests.
Proof. repeat constructor; vm_compute; congruence. Qed.

Lemma reads_see_writes_witness :
  exists w' out, write_all small_volume None (fun l => l) small_requests small_world = (w', Ok tt) /\
    ReadAt small_volume 0 40 w' = (w', Ok out) /\ zlen out = 40 /\
    forall i, 0 <= i < 40 -> out !! Z.to_nat i
      = Some (fold_left array_write small_requests (byte_at small_volume small_world) (0 + i)).
Proof.
  destruct small_ok as [Hinv Hb].
  refine (reads_see_writes small_volume None (fun l => l) small_requests small_world 0 40
    small_geometry (default_plan_ok _) small_requests_valid Hinv (Hb _ _) _ _ _);
    vm_compute; repeat split; congruence.
Defined.

(** C2: writes under interference.  Let other writers act at every point where
    [writePage] does not hold its lock (any [interfere] that evolves the volume
    as writers do).  Then a write still terminates, and what happens is a
    history in which the pages of the request become visible one after the
    other, each in one atomic step on top of whatever the page held then, with
    nothing but the others' steps and invisible steps in between.  Either all
    pages are written, or the call reports the conflict after the pages before
    the contended one, and then that page changed at least eight times under
    the call's eight attempts. *)
Theorem write_linearizes {S : Type} `{DataLaws S} (vol : VolumeSpec)
    (planner : option (VolumeSpec -> Z -> Z -> result svc_error PhysicalChunkRef))
    (order : list PhysicalChunkRef -> list PhysicalChunkRef)
    (interfere : nat -> nat -> S -> S) (g : Z) (off len : Z) (data : bytes) (s : S) :
  geometry vol -> plan_ok vol planner -> 0 <= g -> env_ok vol interfere g ->
  0 <= off -> 0 < len -> off + len <= vSizeBytes vol -> zlen data = len ->
  Inv vol s -> budget vol s (page_span vol off len * page_cost vol g) ->
  let first := off / cs vol / cpp vol in
  exists s' r k,
    WriteAt planner order interfere vol off len data s = (s', r) /\ Inv vol s' /\
    history vol off len data interfere g (seqZ first k) s s' /\
    ((r = Ok tt /\ k = page_span vol off len) \/
     (r = Err ErrMetadataCASConflict /\ 0 <= k < page_span vol off len /\
      exists s1, history vol off len data interfere g (seqZ first k) s s1 /\
                 revision vol s1 (first + k) + 8 <= revision vol s' (first + k))).
Proof.
  intros Hg Hplan Hgpos Henv Hoff Hpos Hend Hdata Hs Hb first.
  destruct (WriteAt_pages vol Hg off len data Hoff Hpos Hend Hdata planner order Hplan interfere g
    Hgpos Henv s Hs Hb) as (s' & r & k & E & Hd & Hev & Hr).
  exists s', r, k. split; [done|]. split; [apply Hev|].
  split; [by apply pages_history|]. destruct Hr as [Hr|(-> & Hk & s1 & Hd1 & _ & Hlt)]; [by left|].
  right. split; [done|]. split; [done|]. exists s1. split; [by apply pages_history|done].
Qed.

(** Another gateway writes to the same page before the commit of the first attempt. *)
Definition rival (i j : nat) : list request :=
  match i, j with O, 1%nat => [mkRequest 0 3 (ones 3)] | _, _ => [] end.
Definition rival_steps (i j : nat) (w : World) : World :=
  fold_left (serve small_volume None (fun l => l)) (rival i j) w.

Lemma rival_ok : env_ok small_volume rival_steps 100.
Proof.
  apply (writers_env small_volume small_geometry None (fun l => l) (default_plan_ok _) rival).
  intros [|i] [|[|j]]; (split; [|vm_compute; congruence]); repeat constructor;
    vm_compute; congruence.
Qed.

Lemma write_linearizes_witness :
  let first := 2 / cs small_volume / cpp small_volume in
  exists w' r k,
    WriteAt None (fun l => l) rival_steps small_volume 2 20 (ones 20) small_world = (w', r) /\
    Inv small_volume w' /\
    history small_volume 2 20 (ones 20) rival_steps 100 (seqZ first k) small_world w' /\
    ((r = Ok tt /\ k = page_span small_volume 2 20) \/
     (r = Err ErrMetadataCASConflict /\ 0 <= k < page_span small_volume 2 20 /\
      exists w1, history small_volume 2 20 (ones 20) rival_steps 100 (seqZ first k) small_world w1 /\
        revision small_volume w1 (first + k) + 8 <= revision small_volume w' (first + k))).
Proof.
  destruct small_ok as [Hinv Hb].
  refine (write_linearizes small_volume None (fun l => l) rival_steps 100 2 20 (ones 20) small_world
    small_geometry (default_plan_ok _) _ rival_ok _ _ _ _ Hinv (Hb _ _));
    vm_compute; repeat split; congruence.
Defined.

(** On this run the rival wins the race for the first attempt, the second
    attempt merges with its data, and the bytes of both writers are there. *)
Example rival_run :
  let '(w', r) := WriteAt None (fun l => l) rival_steps small_volume 4 4 (ones 4) small_world in
  r = Ok tt /\ (ReadAt small_volume 0 12 w').2
    = Ok (ones 3 ++ [Byte.x00] ++ ones 4 ++ zeroes 4)%list.
Proof. vm_compute. done. Qed.

(** Discarding.  A request that is not aligned to the reclaim geometry of the
    volume is refused and changes nothing; an aligned one makes exactly its
    range read as zeroes. *)
Theorem discard_reads_zero {S : Type} `{DataLaws S} (vol : VolumeSpec)
    (planner : option (VolumeSpec -> Z -> Z -> result svc_error PhysicalChunkRef))
    (order : list PhysicalChunkRef -> list PhysicalChunkRef) (off len : Z) (s : S) :
  geometry vol -> plan_ok vol planner -> 0 <= off -> 0 < len -> off + len <= vSizeBytes vol ->
  Inv vol s -> budget vol s (alone_cost vol off len) ->
  if reclaimAligned vol off len
  then exists s', DiscardAt planner order (fun _ _ s => s) vol off len s = (s', Ok tt) /\
       Inv vol s' /\ forall o, 0 <= o < vSizeBytes vol ->
         byte_at vol s' o = if in_range off len o then Byte.x00 else byte_at vol s o
  else DiscardAt planner order (fun _ _ s => s) vol off len s = (s, Err ErrDiscardAlignment).
Proof.
  intros Hg Hplan Hoff Hpos Hend Hs Hb. unfold DiscardAt, DiscardRangeAligned.
  destruct (reclaimAligned vol off len); cbn [negb]; [|done].
  destruct (WriteAt_alone vol Hg off len (zeroes len) Hoff Hpos Hend (zlen_zeroes len ltac:(lia))
    planner order Hplan s Hs Hb) as (s' & E & Hev & Hbytes).
  exists s'. split; [exact E|]. split; [apply Hev|]. intros o Ho. rewrite Hbytes by done.
  destruct (in_range off len o) eqn:Hin; [|done]. unfold zeroes.
  destruct (replicate _ _ !! _) as [b|] eqn:Hl; [|done]. by apply lookup_replicate in Hl as [-> _].
Qed.

Lemma discard_reads_zero_witness :
  exists w', DiscardAt None (fun l => l) (fun _ _ w => w) small_volume 8 16 small_world = (w', Ok tt) /\
    Inv small_volume w' /\ forall o, 0 <= o < vSizeBytes small_volume ->
      byte_at small_volume w' o = if in_range 8 16 o then Byte.x00
                                  else byte_at small_volume small_world o.
Proof.
  destruct small_ok as [Hinv Hb].
  refine (discard_reads_zero small_volume None (fun l => l) 8 16 small_world
    small_geometry (default_plan_ok _) _ _ _ Hinv (Hb _ _)); vm_compute; repeat split; congruence.
Defined.

End MemoryWorld.
