(* ===== verification/ChunkGC.v ===== *)
(** * Garbage collection of chunks

    Models src/gateway/service/chunk_gc.go (one sweep of a volume: which garbage
    records may be deleted, and deleting them) and chunk_gc_bounded.go (the
    periodic sweeper that rotates through the volumes).

    [GcMetadata] has the methods of [MetadataRepository] the collector calls.
    [ctx.Err()] inside [SweepPass] is the argument [cancelled], asked before the
    i-th volume of a batch.  The counters of the sweeper are atomics that only
    [Snapshot] reads; they are kept at 64 bits. *)

From Stdlib Require Import ZArith Lia Ascii String.
From stdpp Require Import base list gmap strings.
From S2P Require Import Prelude GatewayTypes ObjectStore.
Open Scope string_scope.
Open Scope Z_scope.

Module ChunkGC.
Import Gateway Store.

Class GcMetadata (S : Type) := {
  GetVolume : Z -> act S svc_error VolumeSpec;
  ListVolumes : act S svc_error (list VolumeSpec);
  ListChunkGarbage : Z -> Z -> act S svc_error (list AllocationChunkGarbageRecord);
  ListExtentPages : Z -> act S svc_error (list AllocationPageRecord);
  DeleteChunkGarbage : Z -> Z -> act S svc_error unit }.

(** ** chunk_gc.go *)

Record ChunkGarbageSweepResult := mkSweepResult {
  VolumeID : Z; ScannedCount : Z; CandidateCount : Z; DeletableCount : Z; DeletedCount : Z;
  RetainedCount : Z; InspectionOnly : bool }.

#[export] Instance ChunkGarbageSweepResult_settable : Settable ChunkGarbageSweepResult := fun x =>
  mkSweepResult (VolumeID x) (ScannedCount x) (CandidateCount x) (DeletableCount x)
    (DeletedCount x) (RetainedCount x) (InspectionOnly x).

Definition candidate_ref (c : AllocationChunkGarbageRecord) : PhysicalChunkRef :=
  mkPhysicalChunkRef (gcStoreID c) (gcShardID c) (gcChunkID c).

(** The split of a reference list both filters make: references without store
    and shard stand for the chunk id in any store. *)
Definition wildcard (ref : PhysicalChunkRef) : bool :=
  String.eqb (rStoreID ref) "" && (rShardID ref =? 0).

Fixpoint split_refs (refs : list PhysicalChunkRef) (wild : gset Z) (exact : gset PhysicalChunkRef)
  : gset Z * gset PhysicalChunkRef :=
  match refs with
  | [] => (wild, exact)
  | ref :: refs =>
      if rChunkID ref =? 0 then split_refs refs wild exact else
      if wildcard ref then split_refs refs ({[rChunkID ref]} ∪ wild) exact else
      split_refs refs wild ({[ref]} ∪ exact)
  end.

Definition filterChunkGarbageCandidates (candidates : list AllocationChunkGarbageRecord)
    (refs : list PhysicalChunkRef) : list AllocationChunkGarbageRecord :=
  if zlen refs =? 0 then candidates else
  let '(wildcardChunkIDs, exact) := split_refs refs ∅ ∅ in
  filter (fun c => gcChunkID c ∈ wildcardChunkIDs \/ candidate_ref c ∈ exact) candidates.

(** Chunks [i ..] of an extent, [n] of them. *)
Fixpoint extent_refs (n : nat) (i : Z) (extent : AllocationChunkRecord) : list PhysicalChunkRef :=
  match n with
  | O => []
  | S n => mkPhysicalChunkRef (eStoreID extent) (eShardID extent)
             (add64 (ePhysicalChunkStart extent) i) :: extent_refs n (i + 1) extent
  end.

Definition page_refs (page : AllocationPageRecord) : list PhysicalChunkRef :=
  concat ((fun e => if negb (String.eqb (eKind e) AllocationChunkKindData) then []
                    else extent_refs (Z.to_nat (eChunkCount e)) 0 e) <$> pExtents page).

Section Collector.
Context {S : Type} `{ObjectStore S, GcMetadata S}.

Definition referencedChunkSet (volumeID : Z) : act S svc_error (gset PhysicalChunkRef) :=
  bind_act (ListExtentPages volumeID) (fun pages =>
  ret_act (list_to_set (concat (page_refs <$> pages)))).

(** The last loop of [classifyVolumeWithProtectedRefs]. *)
Fixpoint classify_loop (candidates : list AllocationChunkGarbageRecord) (protectedChunkIDs : gset Z)
    (referenced : gset PhysicalChunkRef) (deletable : list AllocationChunkGarbageRecord)
    (retained : Z) : list AllocationChunkGarbageRecord * Z :=
  match candidates with
  | [] => (deletable, retained)
  | c :: candidates =>
      if bool_decide (gcChunkID c ∈ protectedChunkIDs)
      then classify_loop candidates protectedChunkIDs referenced deletable (retained + 1) else
      if bool_decide (candidate_ref c ∈ referenced)
      then classify_loop candidates protectedChunkIDs referenced deletable (retained + 1) else
      classify_loop candidates protectedChunkIDs referenced (deletable ++ [c])%list retained
  end.

Definition classifyVolumeWithProtectedRefs (volumeID limit : Z)
    (candidateRefs protectedRefs : list PhysicalChunkRef)
  : act S svc_error (VolumeSpec * list AllocationChunkGarbageRecord * ChunkGarbageSweepResult) :=
  bind_act (GetVolume volumeID) (fun volume =>
  bind_act (ListChunkGarbage volumeID limit) (fun candidates =>
  let result := mkSweepResult volumeID (zlen candidates) 0 0 0 0 false in
  let candidates := filterChunkGarbageCandidates candidates candidateRefs in
  let result := result <| CandidateCount := zlen candidates |> in
  if zlen candidates =? 0 then ret_act (volume, [], result) else
  bind_act (referencedChunkSet volumeID) (fun referenced =>
  let '(protectedChunkIDs, exact) := split_refs protectedRefs ∅ ∅ in
  let referenced := exact ∪ referenced in
  let '(deletable, retained) := classify_loop candidates protectedChunkIDs referenced [] 0 in
  ret_act (volume, deletable,
           result <| RetainedCount := retained |> <| DeletableCount := zlen deletable |>)))).

Fixpoint sweep_loop (volume : VolumeSpec) (volumeID : Z)
    (deletable : list AllocationChunkGarbageRecord) (result : ChunkGarbageSweepResult)
  : act S svc_error ChunkGarbageSweepResult :=
  match deletable with
  | [] => ret_act result
  | c :: deletable =>
      bind_act (store_delete (buildPhysicalChunkKey (vPrefix volume) (candidate_ref c))) (fun _ =>
      bind_act (DeleteChunkGarbage volumeID (gcChunkID c)) (fun _ =>
      sweep_loop volume volumeID deletable
        (result <| DeletedCount := DeletedCount result + 1 |>)))
  end.

Definition SweepVolumeCandidatesWithProtectedRefs (volumeID limit : Z)
    (candidateRefs protectedRefs : list PhysicalChunkRef) : act S svc_error ChunkGarbageSweepResult :=
  bind_act (classifyVolumeWithProtectedRefs volumeID limit candidateRefs protectedRefs)
    (fun '(volume, deletable, result) => sweep_loop volume volumeID deletable result).

Definition SweepVolumeWithProtectedRefs (volumeID limit : Z) (protectedRefs : list PhysicalChunkRef)
  : act S svc_error ChunkGarbageSweepResult :=
  SweepVolumeCandidatesWithProtectedRefs volumeID limit [] protectedRefs.

Definition SweepVolume (volumeID limit : Z) : act S svc_error ChunkGarbageSweepResult :=
  SweepVolumeWithProtectedRefs volumeID limit [].

Definition InspectVolumeCandidatesWithProtectedRefs (volumeID limit : Z)
    (candidateRefs protectedRefs : list PhysicalChunkRef) : act S svc_error ChunkGarbageSweepResult :=
  bind_act (classifyVolumeWithProtectedRefs volumeID limit candidateRefs protectedRefs)
    (fun '(_, _, result) => ret_act (result <| InspectionOnly := true |>)).

Definition InspectVolumeWithProtectedRefs (volumeID limit : Z) (protectedRefs : list PhysicalChunkRef)
  : act S svc_error ChunkGarbageSweepResult :=
  InspectVolumeCandidatesWithProtectedRefs volumeID limit [] protectedRefs.

Fixpoint sweep_all_loop (volumes : list VolumeSpec) (limit : Z)
    (results : list ChunkGarbageSweepResult) : act S svc_error (list ChunkGarbageSweepResult) :=
  match volumes with
  | [] => ret_act results
  | volume :: volumes =>
      bind_act (SweepVolume (vID volume) limit) (fun result =>
      sweep_all_loop volumes limit (results ++ [result])%list)
  end.

Definition SweepAll (limit : Z) : act S svc_error (list ChunkGarbageSweepResult) :=
  bind_act ListVolumes (fun volumes => sweep_all_loop volumes limit []).

End Collector.

(** ** chunk_gc_bounded.go *)

Definition DefaultSweepVolumesPerPass : Z := 64.

Record BoundedChunkSweeper := mkSweeper {
  volumesPerPass : Z; perVolumeLimit : Z; volumes : list Z; cursor : Z;
  passes : Z; listRefresh : Z; swept : Z; volumeErrs : Z; rotations : Z }.

#[export] Instance BoundedChunkSweeper_settable : Settable BoundedChunkSweeper := fun x =>
  mkSweeper (volumesPerPass x) (perVolumeLimit x) (volumes x) (cursor x) (passes x)
    (listRefresh x) (swept x) (volumeErrs x) (rotations x).

Definition NewBoundedChunkSweeper (volumesPerPass perVolumeLimit : Z) : BoundedChunkSweeper :=
  mkSweeper (if volumesPerPass <=? 0 then DefaultSweepVolumesPerPass else volumesPerPass)
    perVolumeLimit [] 0 0 0 0 0 0.

Section Sweeper.
Context {S : Type}.
(** [volumeLister] and the injected per-volume work. *)
Context (lister : act S svc_error (list VolumeSpec)).
Context (sweepVolume : Z -> Z -> act S svc_error ChunkGarbageSweepResult).

Definition sweeping := (S * BoundedChunkSweeper)%type.

(** The end of [nextBatch]: the volumes from the cursor on. *)
Definition take_batch : act sweeping svc_error (list Z) := fun '(s, sw) =>
  let end_ := Z.min (cursor sw + volumesPerPass sw) (zlen (volumes sw)) in
  match go_slice (E:=svc_error) (cursor sw) end_ (volumes sw) with
  | Ok ids => ((s, sw <| cursor := end_ |>), Ok ids)
  | r => ((s, sw), r)
  end.

Definition nextBatch : act sweeping svc_error (list Z) := fun '(s, sw) =>
  if zlen (volumes sw) <=? cursor sw then
    match lister s with
    | (s, Err e) => ((s, sw), Err e)
    | (s, Panic) => ((s, sw), Panic)
    | (s, Ok vs) =>
        let sw := sw <| listRefresh := add_i64 (listRefresh sw) 1 |> in
        let sw := if 0 <? zlen (volumes sw)
                  then sw <| rotations := add_i64 (rotations sw) 1 |> else sw in
        let sw := sw <| volumes := vID <$> vs |> <| cursor := 0 |> in
        if zlen (volumes sw) =? 0 then ((s, sw), Ok []) else take_batch (s, sw)
    end
  else take_batch (s, sw).

(** Go returns a list and an error at once: the results collected so far come
    back also when the context is cancelled. *)
Definition pass_result := (list ChunkGarbageSweepResult * option svc_error)%type.

Fixpoint pass_loop (cancelled : nat -> bool) (i : nat) (batch : list Z)
    (results : list ChunkGarbageSweepResult) : act sweeping svc_error pass_result := fun '(s, sw) =>
  match batch with
  | [] => ((s, sw), Ok (results, None))
  | volumeID :: batch =>
      if cancelled i then ((s, sw), Ok (results, Some ErrContext)) else
      match sweepVolume volumeID (perVolumeLimit sw) s with
      | (s, Ok result) =>
          pass_loop cancelled (Datatypes.S i) batch (results ++ [result])%list
            (s, sw <| swept := add_i64 (swept sw) 1 |>)
      | (s, Err _) =>
          pass_loop cancelled (Datatypes.S i) batch results
            (s, sw <| volumeErrs := add_i64 (volumeErrs sw) 1 |>)
      | (s, Panic) => ((s, sw), Panic)
      end
  end.

Definition SweepPass (cancelled : nat -> bool) : act sweeping svc_error pass_result := fun '(s, sw) =>
  match nextBatch (s, sw <| passes := add_i64 (passes sw) 1 |>) with
  | (w, Err e) => (w, Ok ([], Some e))
  | (w, Panic) => (w, Panic)
  | (w, Ok batch) => pass_loop cancelled 0 batch [] w
  end.

End Sweeper.

Record BoundedSweepSnapshot := mkSnapshot {
  SweepPassCount : Z; SweepVolumeListCount : Z; SweptVolumeCount : Z; SweepVolumeErrorCount : Z;
  SweepRotationCount : Z; VolumesPerPass : Z }.

Definition Snapshot (sw : BoundedChunkSweeper) : BoundedSweepSnapshot :=
  mkSnapshot (passes sw) (listRefresh sw) (swept sw) (volumeErrs sw) (rotations sw)
    (volumesPerPass sw).

End ChunkGC.
