(* ===== verification/ChunkGCFacts.v ===== *)
(** * The collector never deletes live data, and reaches every volume

    A sweep on the in-memory gateway deletes exactly the scanned garbage that is
    neither referenced by an extent page nor protected; the view of the volume
    does not change.  The bounded sweeper visits every volume of a listing
    exactly once per rotation. *)

From Stdlib Require Import ZArith Lia Ascii String.
From stdpp Require Import base list gmap strings sorting.
From coqutil Require Import Byte.
From S2P Require Import Prelude GatewayTypes MemoryMetadata MemoryMetadataFacts ObjectStore.
From S2P Require Import ObjectStoreFacts ChunkMap ChunkExtent DataWorld PageWrite MemoryWorld.
From S2P Require Import WriteRange ChunkGC.
Open Scope string_scope.
Open Scope Z_scope.

Module ChunkGCFacts.
Import Gateway Store StoreFacts ChunkMap DataWorld PageWrite MemoryWorld ChunkGC.

(** The map iteration order of [ListVolumes] is fixed here; no claim depends on it. *)
#[export] Instance world_gc : GcMetadata World := {
  GetVolume v := on_repo (MemMeta.GetVolume v);
  ListVolumes := on_repo (MemMeta.ListVolumes (fun l => l));
  ListChunkGarbage v limit := on_repo (MemMeta.ListChunkGarbage v limit);
  ListExtentPages v := on_repo (MemMeta.ListExtentPages v);
  DeleteChunkGarbage v c := on_repo (MemMeta.DeleteChunkGarbage v c) }.

(** ** What the filters select *)

(** A list of references stands for chunk [r]. *)
Definition names (refs : list PhysicalChunkRef) (r : PhysicalChunkRef) : Prop :=
  exists ref, ref ∈ refs /\ rChunkID ref <> 0 /\
    if wildcard ref then rChunkID ref = rChunkID r else ref = r.

Lemma split_refs_spec refs : forall wild exact r,
  (rChunkID r ∈ (split_refs refs wild exact).1 \/ r ∈ (split_refs refs wild exact).2) <->
  (rChunkID r ∈ wild \/ r ∈ exact) \/ names refs r.
Proof.
  unfold names. induction refs as [|ref refs IH]; intros wild exact r; cbn [split_refs fst snd].
  { split; [by left|]. intros [?|(ref & Hin & _)]; [done|]. by apply elem_of_nil in Hin. }
  assert (forall Q : PhysicalChunkRef -> Prop,
    (exists x, x ∈ ref :: refs /\ Q x) <-> Q ref \/ exists x, x ∈ refs /\ Q x) as Hcons.
  { intros Q. setoid_rewrite elem_of_cons. naive_solver. }
  rewrite (Hcons (fun x => rChunkID x <> 0 /\ if wildcard x then rChunkID x = rChunkID r else x = r)).
  destruct (Z.eqb_spec (rChunkID ref) 0) as [Hz|Hz]; [|destruct (wildcard ref) eqn:Hw]; rewrite IH;
    [naive_solver|set_solver|set_solver].
Qed.

Lemma filter_spec candidates refs c :
  c ∈ filterChunkGarbageCandidates candidates refs <->
  c ∈ candidates /\ (refs = [] \/ names refs (candidate_ref c)).
Proof.
  unfold filterChunkGarbageCandidates. destruct (Z.eqb_spec (zlen refs) 0) as [Hz|Hz].
  { destruct refs; [tauto|done]. }
  pose proof (split_refs_spec refs ∅ ∅ (candidate_ref c)) as Hs. cbn [candidate_ref rChunkID] in Hs.
  destruct (split_refs refs ∅ ∅) as [wild exact]. cbn [fst snd] in Hs.
  rewrite list_elem_of_filter, Hs, !elem_of_empty. destruct refs; [done|]. naive_solver.
Qed.

(** May candidate [c] be deleted? *)
Definition collectable (protectedRefs : list PhysicalChunkRef) (referenced : gset PhysicalChunkRef)
    (c : AllocationChunkGarbageRecord) : Prop :=
  ~ names protectedRefs (candidate_ref c) /\ (candidate_ref c ∉ referenced).

Lemma classify_loop_spec candidates wild referenced : forall deletable retained,
  let out := classify_loop candidates wild referenced deletable retained in
  out.1 = (deletable ++ filter (fun c => (gcChunkID c ∉ wild) /\ (candidate_ref c ∉ referenced))
                          candidates)%list /\
  out.2 + zlen out.1 = retained + zlen deletable + zlen candidates.
Proof.
  induction candidates as [|c candidates IH]; intros deletable retained; cbn [classify_loop].
  { cbn. rewrite app_nil_r. split; [done|]. change (zlen []) with 0. lia. }
  assert (zlen (c :: candidates) = 1 + zlen candidates) as Hlen by (unfold zlen; cbn; lia).
  rewrite filter_cons. case_bool_decide as Hw; [|case_bool_decide as Hr];
    match goal with |- context [classify_loop candidates wild referenced ?d ?n] =>
      destruct (IH d n) as [E1 E2] end; rewrite E1, Hlen in *; split; try lia.
  - rewrite decide_False by tauto. done.
  - rewrite decide_False by tauto. done.
  - rewrite decide_True by tauto. by rewrite <-app_assoc.
  - rewrite !zlen_app in *. change (zlen [c]) with 1 in *. lia.
Qed.

(** ** The referenced set covers the view *)

Lemma extent_refs_spec n : forall i e j, 0 <= j < Z.of_nat n ->
  mkPhysicalChunkRef (eStoreID e) (eShardID e) (add64 (ePhysicalChunkStart e) (i + j))
    ∈ extent_refs n i e.
Proof.
  induction n as [|n IH]; intros i e j Hj; cbn [extent_refs]; [lia|].
  destruct (decide (j = 0)) as [->|Hne]; [rewrite Z.add_0_r; left|right].
  replace (i + j) with (i + 1 + (j - 1)) by lia. apply IH. lia.
Qed.

Lemma find_in es lc e : findAllocationChunk es lc = Some e -> e ∈ es.
Proof.
  induction es as [|e' es IH]; cbn [findAllocationChunk]; [done|].
  destruct (_ && _); [intros [= ->]; left|right; auto].
Qed.

Lemma page_mapping_referenced pg lc :
  rChunkID (mRef (page_mapping pg lc)) <> 0 -> mRef (page_mapping pg lc) ∈ page_refs pg.
Proof.
  unfold page_mapping. destruct (findAllocationChunk (pExtents pg) lc) as [e|] eqn:Hf; [|done].
  apply find_in in Hf. unfold extent_mapping.
  destruct (String.eqb (eKind e) AllocationChunkKindData) eqn:Hk; [|done]. cbn [mRef].
  unfold chunkRef. destruct (Z.ltb_spec lc (eLogicalChunkStart e)); [done|].
  destruct (Z.leb_spec (eChunkCount e) (sub64 lc (eLogicalChunkStart e))) as [|Hlt]; [done|].
  destruct (ePhysicalChunkStart e =? 0); [done|]. cbn [orb]. intros _.
  unfold page_refs. apply list_elem_of_In, in_concat.
  exists (extent_refs (Z.to_nat (eChunkCount e)) 0 e). split; apply list_elem_of_In.
  - apply list_elem_of_fmap. exists e. by rewrite Hk.
  - pose proof (wrap64_range (lc - eLogicalChunkStart e)) as Hr. fold (sub64 lc (eLogicalChunkStart e)) in Hr.
    unfold in_u in Hr.
    apply (extent_refs_spec _ 0 e (sub64 lc (eLogicalChunkStart e))). lia.
Qed.

(** ** Sweeping *)

(** What deleting the records [del] of volume [id] did to the world. *)
Record deleted (prefix : string) (id : Z) (del : list AllocationChunkGarbageRecord) (w w' : World)
  : Prop := {
  del_volumes : MemMeta.volumes (repo w') = MemMeta.volumes (repo w);
  del_pages : MemMeta.extentPages (repo w') = MemMeta.extentPages (repo w);
  del_next : MemMeta.nextChunkID (repo w') = MemMeta.nextChunkID (repo w);
  del_objects : forall k, data (objects w') !! k =
    if decide (k ∈ (fun c => buildPhysicalChunkKey prefix (candidate_ref c)) <$> del) then None
    else data (objects w) !! k;
  del_garbage : forall v c, MemMeta.garbage_of (repo w') v !! c =
    if decide (v = id /\ c ∈ gcChunkID <$> del) then None else MemMeta.garbage_of (repo w) v !! c }.

Lemma delete_garbage r id c volume :
  MemMeta.volumes r !! id = Some volume ->
  exists r', MemMeta.DeleteChunkGarbage id c r = (r', Ok tt) /\
    MemMeta.volumes r' = MemMeta.volumes r /\ MemMeta.extentPages r' = MemMeta.extentPages r /\
    MemMeta.nextChunkID r' = MemMeta.nextChunkID r /\
    forall v x, MemMeta.garbage_of r' v !! x =
      if decide (v = id /\ x = c) then None else MemMeta.garbage_of r v !! x.
Proof.
  intros Hv. unfold MemMeta.DeleteChunkGarbage, MemMeta.with_volume. rewrite Hv.
  eexists. split; [reflexivity|]. destruct (MemMeta.chunkGC r !! id) as [m|] eqn:Hm.
  - split; [done|]. split; [done|]. split; [done|]. intros v x.
    unfold MemMeta.garbage_of. cbn [set_field MemMeta.Repo_settable MemMeta.chunkGC].
    destruct (decide (v = id)) as [->|Hne].
    + rewrite lookup_insert_eq, Hm. cbn.
      destruct (decide (x = c)) as [->|Hx].
      * rewrite lookup_delete_eq. by rewrite decide_True.
      * rewrite lookup_delete_ne by done. rewrite decide_False by tauto. done.
    + rewrite lookup_insert_ne by done. rewrite decide_False by tauto. done.
  - split; [done|]. split; [done|]. split; [done|]. intros v x. case_decide as Hd; [|done].
    destruct Hd as [-> _]. unfold MemMeta.garbage_of. rewrite Hm. cbn. by rewrite lookup_empty.
Qed.

Lemma sweep_loop_spec volume id del : forall res (w : World) vol,
  MemMeta.volumes (repo w) !! id = Some vol ->
  exists w', sweep_loop volume id del res w =
      (w', Ok (res <| DeletedCount := DeletedCount res + zlen del |>)) /\
    deleted (vPrefix volume) id del w w'.
Proof.
  induction del as [|c del IH]; intros res w vol Hv; cbn [sweep_loop].
  { exists w. change (zlen []) with 0. rewrite Z.add_0_r. split; [by destruct res|].
    split; [done..| |].
    - intros k. case_decide as Hk; [by apply elem_of_nil in Hk|done].
    - intros v x. case_decide as Hk; [by destruct Hk as [_ Hk%elem_of_nil]|done]. }
  erewrite bind_act_Ok by reflexivity.
  destruct w as [r o t]. cbn [repo objects clock] in *.
  destruct (delete_garbage r id (gcChunkID c) vol Hv) as (r' & E & Ev & Ep & En & Eg).
  erewrite bind_act_Ok by (cbn; unfold on_repo; cbn [repo objects clock]; rewrite E; reflexivity).
  match goal with |- context [sweep_loop volume id del ?res1 ?w1] =>
    destruct (IH res1 w1 vol) as (w' & E' & [Dv Dp Dn Do Dg]) end; [cbn; by rewrite Ev|].
  cbn [repo objects data] in *.
  exists w'. rewrite E'. split.
  { f_equal. f_equal. destruct res. unfold zlen. cbn. f_equal. lia. }
  split; [rewrite Dv; exact Ev|rewrite Dp; exact Ep|rewrite Dn; exact En| |].
  - intros k. rewrite Do. cbn [fmap list_fmap].
    destruct (decide (k ∈ (fun c => buildPhysicalChunkKey (vPrefix volume) (candidate_ref c)) <$> del))
      as [Hk|Hk].
    { rewrite decide_True; [done|by right]. }
    destruct (decide (k = buildPhysicalChunkKey (vPrefix volume) (candidate_ref c))) as [->|Hne].
    + rewrite decide_True by left. apply lookup_delete_eq.
    + rewrite lookup_delete_ne by done. rewrite decide_False; [done|].
      intros Hc. apply elem_of_cons in Hc as [?|?]; done.
  - intros v x. rewrite Dg, Eg. cbn [fmap list_fmap].
    destruct (decide (v = id /\ x ∈ gcChunkID <$> del)) as [[-> Hx]|Hx].
    { rewrite decide_True; [done|]. split; [done|by right]. }
    destruct (decide (v = id /\ x = gcChunkID c)) as [[-> ->]|Hne].
    + rewrite decide_True; [done|]. split; [done|by left].
    + rewrite decide_False; [done|]. intros [-> Hc]. apply elem_of_cons in Hc as [?|?]; tauto.
Qed.

(** The records a sweep looks at, and the chunks the pages of a volume refer to. *)
Definition scanned (w : World) (id limit : Z) : list AllocationChunkGarbageRecord :=
  match (MemMeta.ListChunkGarbage id limit (repo w)).2 with Ok l => l | _ => [] end.
Definition live (w : World) (id : Z) : gset PhysicalChunkRef :=
  match (referencedChunkSet id w).2 with Ok refs => refs | _ => ∅ end.

Lemma live_page (w : World) v p pg ref :
  page_at w v p = Some pg -> ref ∈ page_refs pg -> ref ∈ live w v.
Proof.
  intros Hpg Hin. destruct (volume_of_page w v p (mk_is_Some _ _ Hpg)) as [volume Hv].
  destruct w as [r o c]. cbn in Hpg. cbn [repo] in Hv. rewrite Hv in Hpg. cbn in Hpg.
  unfold live, referencedChunkSet, bind_act. cbn.
  unfold on_repo, MemMeta.ListExtentPages, MemMeta.with_volume. cbn [repo objects clock]. rewrite Hv.
  cbn. apply elem_of_list_to_set, list_elem_of_In, in_concat. exists (page_refs pg).
  split; apply list_elem_of_In; [|done]. apply list_elem_of_fmap. exists pg. split; [done|].
  destruct (MemMeta.pages_of r v !! p) as [pg'|] eqn:Hp; cbn in Hpg; injection Hpg as <-.
  - rewrite merge_sort_Permutation. apply list_elem_of_fmap. exists (p, pg'). split; [done|].
    by apply elem_of_map_to_list.
  - cbn in Hin. by apply elem_of_nil in Hin.
Qed.

(** The records a sweep deletes. *)
Definition condemned (w : World) (id limit : Z) (candidateRefs protectedRefs : list PhysicalChunkRef)
    (c : AllocationChunkGarbageRecord) : Prop :=
  c ∈ scanned w id limit /\ (candidateRefs = [] \/ names candidateRefs (candidate_ref c)) /\
  collectable protectedRefs (live w id) c.

Lemma classify_spec (w : World) id limit candidateRefs protectedRefs volume :
  MemMeta.volumes (repo w) !! id = Some volume ->
  exists del res,
    classifyVolumeWithProtectedRefs id limit candidateRefs protectedRefs w
    = (w, Ok (volume, del, res)) /\
    (forall c, c ∈ del <-> condemned w id limit candidateRefs protectedRefs c) /\
    VolumeID res = id /\ ScannedCount res = zlen (scanned w id limit) /\
    DeletableCount res = zlen del /\ DeletedCount res = 0 /\
    RetainedCount res + zlen del = CandidateCount res.
Proof.
  intros Hv. destruct w as [r o t]. cbn [repo] in Hv. unfold classifyVolumeWithProtectedRefs.
  unfold condemned, collectable.
  erewrite bind_act_Ok by (cbn; unfold on_repo, MemMeta.GetVolume, MemMeta.with_volume;
    cbn [repo objects clock]; rewrite Hv; reflexivity).
  set (w := mkWorld r o t).
  assert (ListChunkGarbage id limit w = (w, Ok (scanned w id limit))) as Hl.
  { cbn. unfold on_repo, scanned, MemMeta.ListChunkGarbage, MemMeta.with_volume, w.
    cbn [repo objects clock]. by rewrite Hv. }
  assert (referencedChunkSet id w = (w, Ok (live w id))) as Href.
  { unfold live, referencedChunkSet, bind_act. cbn.
    unfold on_repo, MemMeta.ListExtentPages, MemMeta.with_volume, w. cbn [repo objects clock].
    by rewrite Hv. }
  erewrite bind_act_Ok by exact Hl. cbv zeta.
  pose proof (filter_spec (scanned w id limit) candidateRefs) as Hf.
  destruct (Z.eqb_spec (zlen (filterChunkGarbageCandidates (scanned w id limit) candidateRefs)) 0)
    as [Hz|Hz].
  { exists [], (mkSweepResult id (zlen (scanned w id limit)) 0 0 0 0 false). rewrite Hz.
    split; [done|]. split; [|done]. intros c. split; [by intros Hc%elem_of_nil|].
    intros (Hs & Hc & _). assert (c ∈ filterChunkGarbageCandidates (scanned w id limit) candidateRefs)
      as Hin by (by apply Hf).
    apply Z.eq_le_incl, zlen_nil_inv in Hz. rewrite Hz in Hin. by apply elem_of_nil in Hin. }
  erewrite bind_act_Ok by exact Href.
  pose proof (split_refs_spec protectedRefs ∅ ∅) as Hp.
  destruct (split_refs protectedRefs ∅ ∅) as [wild exact]. cbn [fst snd] in Hp.
  destruct (classify_loop_spec (filterChunkGarbageCandidates (scanned w id limit) candidateRefs) wild
    (exact ∪ live w id) [] 0) as [E1 E2].
  destruct (classify_loop _ wild (exact ∪ live w id) [] 0) as [del retained]. cbn [fst snd] in E1, E2.
  change (zlen []) with 0 in E2. do 2 eexists. split; [reflexivity|]. cbn.
  split; [|do 4 (split; [done|]); lia].
  intros c. rewrite E1. cbn [app]. rewrite list_elem_of_filter, Hf.
  specialize (Hp (candidate_ref c)). cbn [candidate_ref rChunkID] in Hp.
  rewrite !elem_of_empty in Hp. rewrite not_elem_of_union. tauto.
Qed.

Lemma sweep_spec (w : World) id limit candidateRefs protectedRefs volume :
  MemMeta.volumes (repo w) !! id = Some volume ->
  exists w' res del,
    SweepVolumeCandidatesWithProtectedRefs id limit candidateRefs protectedRefs w = (w', Ok res) /\
    deleted (vPrefix volume) id del w w' /\
    (forall c, c ∈ del <-> condemned w id limit candidateRefs protectedRefs c) /\
    VolumeID res = id /\ ScannedCount res = zlen (scanned w id limit) /\
    DeletableCount res = zlen del /\ DeletedCount res = zlen del /\
    RetainedCount res + DeletedCount res = CandidateCount res.
Proof.
  intros Hv. destruct (classify_spec w id limit candidateRefs protectedRefs volume Hv)
    as (del & res & E & Hdel & H1 & H2 & H3 & H4 & H5).
  destruct (sweep_loop_spec volume id del res w volume Hv) as (w' & E' & Hd).
  exists w'. eexists. exists del.
  split; [unfold SweepVolumeCandidatesWithProtectedRefs; erewrite bind_act_Ok by exact E; exact E'|].
  split; [done|]. split; [done|]. destruct res; cbn in *. rewrite H4. repeat split; try done; lia.
Qed.

(** ** Live data survives *)

Definition garbage_wf (w : World) (id : Z) : Prop :=
  forall c rec, MemMeta.garbage_of (repo w) id !! c = Some rec ->
    ref_ok (candidate_ref rec) /\ gcChunkID rec = c.

Lemma scanned_wf (w : World) id limit c :
  garbage_wf w id -> c ∈ scanned w id limit ->
  MemMeta.garbage_of (repo w) id !! gcChunkID c = Some c /\ ref_ok (candidate_ref c).
Proof.
  intros Hwf. unfold scanned, MemMeta.ListChunkGarbage, MemMeta.with_volume.
  destruct (MemMeta.volumes (repo w) !! id); [|by intros Hc%elem_of_nil]. cbn [snd].
  set (l := merge_sort _ _). intros Hc. assert (c ∈ l) as Hin.
  { destruct (_ && _); [|done]. rewrite <-(take_drop (Z.to_nat limit) l). by apply elem_of_app; left. }
  unfold l in Hin. rewrite merge_sort_Permutation in Hin.
  apply list_elem_of_fmap in Hin as ([k rec] & -> & Hin). apply elem_of_map_to_list in Hin.
  destruct (Hwf k rec Hin) as [Hr <-]. done.
Qed.

Section Survive.
Context (vol : VolumeSpec) (Hg : geometry vol) (w w' : World) (Hw : Inv vol w).
Context (del : list AllocationChunkGarbageRecord) (Hd : deleted (vPrefix vol) (vID vol) del w w').
Context (Hdel : forall c, c ∈ del -> ref_ok (candidate_ref c) /\ (candidate_ref c ∉ live w (vID vol))).

Lemma survive_page v p : page_at w' v p = page_at w v p.
Proof.
  cbn. unfold MemMeta.pages_of. by rewrite (del_volumes _ _ _ _ _ Hd), (del_pages _ _ _ _ _ Hd).
Qed.

Lemma survive_next v : next_id w' v = next_id w v.
Proof. cbn. unfold MemMetaFacts.next_of. by rewrite (del_next _ _ _ _ _ Hd). Qed.

Lemma survive_object ref : ref_ok ref -> ref ∈ live w (vID vol) ->
  object_at w' (chunk_key vol ref) = object_at w (chunk_key vol ref).
Proof.
  intros Hr Hlive. cbn. rewrite (del_objects _ _ _ _ _ Hd). case_decide as Hin; [|done].
  apply list_elem_of_fmap in Hin as (c & Hk & Hc). destruct (Hdel c Hc) as [Hc1 Hc2].
  apply chunk_key_inj in Hk; [|done..]. by subst ref.
Qed.

Lemma survive_none k : object_at w k = None -> object_at w' k = None.
Proof. cbn. intros Hk. rewrite (del_objects _ _ _ _ _ Hd). by case_decide. Qed.

(** A mapping a page stands for is live. *)
Lemma mapping_live p pg ms i m :
  page_in vol p -> page_at w (vID vol) p = Some pg -> covers (p * cpp vol) (pExtents pg) ms ->
  zlen ms <= cpp vol -> ms !! i = Some m -> rChunkID (mRef m) <> 0 -> mRef m ∈ live w (vID vol).
Proof.
  intros [Hp0 Hp1] Hpg Hcov Hlen Hm Hne. pose proof (cpp_bound vol Hg). pose proof (geo_cpp vol Hg).
  assert (0 <= p * cpp vol) by nia. assert (i < length ms)%nat by (by eapply lookup_lt_Some).
  pose proof (covers_find _ _ _ (p * cpp vol + Z.of_nat i) Hcov ltac:(lia) ltac:(lia)) as Hf.
  assert (page_mapping pg (p * cpp vol + Z.of_nat i) = m) as Hpm.
  { unfold page_mapping. destruct (findAllocationChunk _ _) as [e|].
    - destruct Hf as (_ & m' & Hm' & -> & _). replace (Z.to_nat _) with i in Hm' by lia.
      rewrite Hm in Hm'. injection Hm' as <-. unfold norm. by destruct (Z.eqb_spec (rChunkID (mRef m)) 0).
    - unfold zlen in Hf. lia. }
  eapply live_page; [exact Hpg|]. rewrite <-Hpm. apply page_mapping_referenced. by rewrite Hpm.
Qed.

Lemma survive_valid p pg ms i m :
  page_in vol p -> page_at w (vID vol) p = Some pg -> covers (p * cpp vol) (pExtents pg) ms ->
  zlen ms <= cpp vol -> ms !! i = Some m -> mapping_valid vol w m -> mapping_valid vol w' m.
Proof.
  intros Hp Hpg Hcov Hlen Hm [Hz|(He & Hr & Hid & b & Hob & Hb)]; [by left|right].
  rewrite survive_next. split; [done|]. split; [done|]. split; [done|]. exists b. split; [|done].
  rewrite survive_object; [done|done|]. eapply mapping_live; try done. lia.
Qed.

Lemma survive_inv : Inv vol w'.
Proof.
  destruct Hw as [He Hpg Hn Hf]. split.
  - by rewrite survive_page.
  - intros p Hp. destruct (Hpg p Hp) as (pg & E & ms & Hc & Hl & Hall). exists pg.
    rewrite survive_page. split; [done|]. exists ms. split; [done|]. split; [done|].
    apply Forall_lookup_2. intros i m Hm. eapply survive_valid; try done.
    by eapply Forall_lookup_1.
  - by rewrite survive_next.
  - intros ref Hr Hid. rewrite survive_next in Hid. by apply survive_none, Hf.
Qed.

Lemma survive_chunk lc : chunk_in lc -> chunk_at vol w' lc = chunk_at vol w lc.
Proof.
  intros Hlc. pose proof (mapping_at_valid vol w lc Hg Hw Hlc) as Hv.
  unfold chunk_at, content. rewrite (mapping_at_same vol w w') by (intros; apply survive_page).
  destruct (Z.eqb_spec (rChunkID (mRef (mapping_at vol w lc))) 0) as [|Hne]; [done|].
  destruct Hv as [|(_ & Hr & _)]; [done|]. rewrite survive_object; [done|done|].
  pose proof (chunk_page vol lc Hg Hlc) as Hp. destruct (inv_pages vol w Hw _ Hp) as (pg & Hpg & _).
  eapply live_page; [exact Hpg|]. unfold mapping_at in *. rewrite (the_page_eq vol w _ _ Hpg) in *.
  by apply page_mapping_referenced.
Qed.

End Survive.

(** ** The rotation *)

Section Rotation.
Context {S : Type} (lister : act S svc_error (list VolumeSpec)).
Context (sweepVolume : Z -> Z -> act S svc_error ChunkGarbageSweepResult).
Context (no_panic : forall id limit s, (sweepVolume id limit s).2 <> Panic).

(** Sweeping volumes in order, whatever each sweep reports. *)
Definition sweep_ids (limit : Z) (ids : list Z) (s : S) : S :=
  fold_left (fun s id => (sweepVolume id limit s).1) ids s.

(** The sweeper between two passes of a rotation over [ids], [done] of them swept. *)
Definition rotating (ids : list Z) (k limit : Z) (done : Z) (sw : BoundedChunkSweeper) : Prop :=
  volumes sw = ids /\ volumesPerPass sw = k /\ perVolumeLimit sw = limit /\ cursor sw = done.

Lemma pass_loop_spec batch : forall i results s sw ids k limit done,
  rotating ids k limit done sw ->
  exists sw' out, pass_loop sweepVolume (fun _ => false) i batch results (s, sw)
    = ((sweep_ids limit batch s, sw'), Ok (out, None)) /\ rotating ids k limit done sw'.
Proof.
  induction batch as [|id batch IH]; intros i results s sw ids k limit done Hr; cbn [pass_loop].
  { by exists sw, results. }
  destruct Hr as (Hv & Hk & Hl & Hc). rewrite Hl. specialize (no_panic id limit s).
  unfold sweep_ids. cbn [fold_left]. fold (sweep_ids limit batch (sweepVolume id limit s).1).
  destruct (sweepVolume id limit s) as [s1 [res|e|]]; cbn [fst snd] in *; [| |done];
    eapply IH; by repeat split.
Qed.

Fixpoint passes_run (n : nat) (w : S * BoundedChunkSweeper) : S * BoundedChunkSweeper :=
  match n with
  | O => w
  | Datatypes.S n => passes_run n (SweepPass lister sweepVolume (fun _ => false) w).1
  end.

Lemma take_batch_spec (s : S) sw ids k limit done :
  0 < k -> 0 <= done <= zlen ids -> rotating ids k limit done sw ->
  exists sw', take_batch (s, sw) = ((s, sw'), Ok (slice done (Z.min (done + k) (zlen ids)) ids)) /\
    rotating ids k limit (Z.min (done + k) (zlen ids)) sw'.
Proof.
  intros Hk Hd (Hv & Hkk & Hl & Hc). unfold take_batch. rewrite Hv, Hkk, Hc.
  unfold go_slice. destruct (Z.leb_spec 0 done); [|lia].
  destruct (Z.leb_spec done (Z.min (done + k) (zlen ids))); [|lia].
  destruct (Z.leb_spec (Z.min (done + k) (zlen ids)) (zlen ids)); [|lia].
  eexists. split; [reflexivity|]. by repeat split.
Qed.

(** A pass over a batch. *)
Lemma batch_pass s sw ids k limit done :
  0 < k -> 0 <= done <= zlen ids -> rotating ids k limit done sw ->
  exists sw',
    match take_batch (s, sw) with
    | (w, Err e) => (w, Ok ([], Some e))
    | (w, Panic) => (w, Panic)
    | (w, Ok batch) => pass_loop sweepVolume (fun _ => false) 0 batch [] w
    end.1 = (sweep_ids limit (slice done (Z.min (done + k) (zlen ids)) ids) s, sw') /\
    rotating ids k limit (Z.min (done + k) (zlen ids)) sw'.
Proof.
  intros Hk Hd Hr. destruct (take_batch_spec s sw ids k limit done Hk Hd Hr) as (sw1 & -> & Hr1).
  destruct (pass_loop_spec (slice done (Z.min (done + k) (zlen ids)) ids) 0 [] s sw1 ids k limit _ Hr1)
    as (sw' & out & -> & Hr2). by exists sw'.
Qed.

Lemma pass_spec s sw ids k limit done :
  0 < k -> 0 <= done < zlen ids -> rotating ids k limit done sw ->
  exists sw', (SweepPass lister sweepVolume (fun _ => false) (s, sw)).1
      = (sweep_ids limit (slice done (Z.min (done + k) (zlen ids)) ids) s, sw') /\
    rotating ids k limit (Z.min (done + k) (zlen ids)) sw'.
Proof.
  intros Hk Hd Hr. unfold SweepPass.
  set (sw1 := sw <| passes := add_i64 (passes sw) 1 |>).
  assert (rotating ids k limit done sw1) as Hr1 by exact Hr. clearbody sw1.
  unfold nextBatch. destruct Hr1 as (Hv & Hrest). rewrite Hv.
  destruct Hrest as (Hkk & Hl & Hc). rewrite Hc. destruct (Z.leb_spec (zlen ids) done); [lia|].
  apply batch_pass; [done|lia|by repeat split].
Qed.

Lemma slice_to_end {A} (ids : list A) i j m : 0 <= i <= j -> j <= m ->
  (slice i j ids ++ slice j m ids)%list = slice i m ids.
Proof.
  intros Hij Hm. unfold slice.
  replace (take (Z.to_nat (m - i)) (drop (Z.to_nat i) ids)) with
    (take (Z.to_nat (j - i) + Z.to_nat (m - j)) (drop (Z.to_nat i) ids)) by (f_equal; lia).
  rewrite <-take_take_drop, drop_drop. do 3 f_equal. lia.
Qed.

Lemma passes_spec n : forall s sw ids k limit done,
  0 < k -> 0 <= done <= zlen ids -> rotating ids k limit done sw ->
  (Z.of_nat n - 1) * k < zlen ids - done <= Z.of_nat n * k ->
  exists sw', passes_run n (s, sw) = (sweep_ids limit (slice done (zlen ids) ids) s, sw') /\
    rotating ids k limit (zlen ids) sw'.
Proof.
  induction n as [|n IH]; intros s sw ids k limit done Hk Hd Hr Hn; cbn [passes_run].
  { exists sw. assert (done = zlen ids) as -> by lia. split; [|done]. unfold slice.
    rewrite Z.sub_diag. done. }
  destruct (pass_spec s sw ids k limit done Hk ltac:(nia) Hr) as (sw1 & E & Hr1). rewrite E.
  destruct (IH (sweep_ids limit (slice done (Z.min (done + k) (zlen ids)) ids) s) sw1 ids k limit
    (Z.min (done + k) (zlen ids)) Hk ltac:(lia) Hr1 ltac:(nia)) as (sw2 & E2 & Hr2).
  exists sw2. split; [|done]. rewrite E2. unfold sweep_ids. rewrite <-fold_left_app.
  rewrite slice_to_end by nia. done.
Qed.

Lemma first_pass s s1 sw vs :
  0 < volumesPerPass sw -> zlen (volumes sw) <= cursor sw -> lister s = (s1, Ok vs) -> 0 < zlen vs ->
  let ids := vID <$> vs in let k := volumesPerPass sw in
  exists sw', (SweepPass lister sweepVolume (fun _ => false) (s, sw)).1
      = (sweep_ids (perVolumeLimit sw) (slice 0 (Z.min (0 + k) (zlen ids)) ids) s1, sw') /\
    rotating ids k (perVolumeLimit sw) (Z.min (0 + k) (zlen ids)) sw'.
Proof.
  intros Hk Hc Hl Hvs ids k. unfold SweepPass.
  assert (zlen ids = zlen vs) as Hlen by (unfold ids, zlen; by rewrite length_fmap).
  set (sw1 := sw <| passes := add_i64 (passes sw) 1 |>).
  assert (volumes sw1 = volumes sw /\ cursor sw1 = cursor sw /\
    volumesPerPass sw1 = k /\ perVolumeLimit sw1 = perVolumeLimit sw) as (E1 & E2 & E3 & E4) by done.
  clearbody sw1. unfold nextBatch. rewrite E1, E2.
  destruct (Z.leb_spec (zlen (volumes sw)) (cursor sw)); [|lia]. rewrite Hl. cbv zeta.
  match goal with |- context [zlen (volumes ?x) =? 0] => set (sw2 := x) end.
  assert (rotating ids k (perVolumeLimit sw) 0 sw2) as Hr.
  { unfold sw2, rotating. destruct (0 <? _); cbn; by rewrite E3, E4. }
  clearbody sw2. destruct Hr as (Hv & Hrest). rewrite Hv.
  destruct (Z.eqb_spec (zlen ids) 0); [lia|]. apply batch_pass; [done|lia|by split].
Qed.

End Rotation.

(** ** Claims *)

(** C4: a sweep never touches live data.  Sweeping a volume on the in-memory
    gateway, whatever candidates and limits it is given, succeeds, keeps the
    invariant of the data path, leaves every byte of the volume as it was, and
    keeps every object a protected reference stands for. *)
Theorem sweep_keeps_live_data (vol volume : VolumeSpec) (w : World) (limit : Z)
    (candidateRefs protectedRefs : list PhysicalChunkRef) :
  geometry vol -> Inv vol w -> MemMeta.volumes (repo w) !! vID vol = Some volume ->
  vPrefix volume = vPrefix vol -> garbage_wf w (vID vol) ->
  exists w' res,
    SweepVolumeCandidatesWithProtectedRefs (vID vol) limit candidateRefs protectedRefs w = (w', Ok res) /\
    Inv vol w' /\ (forall o, 0 <= o < 2 ^ 63 -> byte_at vol w' o = byte_at vol w o) /\
    (forall ref, ref_ok ref -> names protectedRefs ref ->
       object_at w' (chunk_key vol ref) = object_at w (chunk_key vol ref)).
Proof.
  intros Hg Hw Hv Hpre Hwf.
  destruct (sweep_spec w (vID vol) limit candidateRefs protectedRefs volume Hv)
    as (w' & res & del & E & Hd & Hdel & _). rewrite Hpre in Hd.
  assert (forall c, c ∈ del -> ref_ok (candidate_ref c) /\ (candidate_ref c ∉ live w (vID vol))) as Hc.
  { intros c (Hs & _ & _ & Hl)%Hdel. split; [by eapply scanned_wf|done]. }
  exists w', res. split; [done|]. split; [by eapply survive_inv|]. split.
  - intros o Ho. unfold byte_at. pose proof (geo_cs vol Hg). rewrite (survive_chunk vol Hg w w' Hw del Hd Hc); [done|].
    unfold chunk_in. split; [apply Z.div_pos; lia|]. apply Z.div_lt_upper_bound; nia.
  - intros ref Hr Hn. cbn. rewrite (del_objects _ _ _ _ _ Hd). case_decide as Hin; [|done].
    apply list_elem_of_fmap in Hin as (c & Hk & Hcd). destruct (Hc c Hcd) as [Hcr _].
    apply chunk_key_inj in Hk; [|done..]. apply Hdel in Hcd as (_ & _ & Hnot & _).
    by rewrite <-Hk in Hnot.
Qed.

(** Checking [garbage_wf] by computation. *)
Definition garbage_wfb (w : World) (id : Z) : bool :=
  forallb (fun '(c, rec) => in_ub 32 (gcShardID rec) && in_ub 64 (gcChunkID rec) && (gcChunkID rec =? c))
    (map_to_list (MemMeta.garbage_of (repo w) id)).

Lemma garbage_wfb_spec w id : garbage_wfb w id = true -> garbage_wf w id.
Proof.
  unfold garbage_wfb. rewrite forallb_forall. intros Hall c rec Hin.
  specialize (Hall (c, rec)). rewrite <-list_elem_of_In, elem_of_map_to_list in Hall.
  specialize (Hall Hin). cbn in Hall. rewrite !andb_true_iff, !in_ub_spec, Z.eqb_eq in Hall.
  unfold ref_ok. cbn. tauto.
Qed.

(** A volume that was written twice has garbage. *)
Definition rewritten : list WriteRange.WriteRange.request :=
  [WriteRange.WriteRange.mkRequest 0 16 (ones 16); WriteRange.WriteRange.mkRequest 0 8 (ones 8)].
Definition worn_world : World := (write_all small_volume None (fun l => l) rewritten small_world).1.

Lemma worn_ok : Inv small_volume worn_world.
Proof.
  destruct small_ok as [Hinv Hb].
  destruct (write_all_array small_volume None (fun l => l) rewritten small_geometry (default_plan_ok _)
    small_world) as (w' & E & Hw' & _); [|exact Hinv|apply Hb; vm_compute; split; congruence|].
  - repeat constructor; vm_compute; congruence.
  - unfold worn_world. rewrite E. exact Hw'.
Qed.

Lemma sweep_keeps_live_data_witness :
  exists w' res,
    SweepVolumeCandidatesWithProtectedRefs 7 0 [] [mkPhysicalChunkRef "" 0 2] worn_world
      = (w', Ok res) /\
    Inv small_volume w' /\
    (forall o, 0 <= o < 2 ^ 63 -> byte_at small_volume w' o = byte_at small_volume worn_world o) /\
    (forall ref, ref_ok ref -> names [mkPhysicalChunkRef "" 0 2] ref ->
       object_at w' (chunk_key small_volume ref) = object_at worn_world (chunk_key small_volume ref)).
Proof.
  refine (sweep_keeps_live_data small_volume small_volume worn_world 0 [] [mkPhysicalChunkRef "" 0 2]
    small_geometry worn_ok _ eq_refl _); [vm_compute; reflexivity|].
  apply garbage_wfb_spec. vm_compute. reflexivity.
Defined.

(** A sweep deletes exactly the garbage it may delete.  Of the records it
    scanned, those selected by the candidate list that no extent page refers
    to and no protected reference stands for lose their object and their
    record; every other record stays; and the reported counts add up. *)
Theorem sweep_deletes_condemned (w : World) (id limit : Z) (volume : VolumeSpec)
    (candidateRefs protectedRefs : list PhysicalChunkRef) :
  MemMeta.volumes (repo w) !! id = Some volume -> garbage_wf w id ->
  exists w' res,
    SweepVolumeCandidatesWithProtectedRefs id limit candidateRefs protectedRefs w = (w', Ok res) /\
    (forall c rec, MemMeta.garbage_of (repo w) id !! c = Some rec ->
       (condemned w id limit candidateRefs protectedRefs rec ->
          MemMeta.garbage_of (repo w') id !! c = None /\
          object_at w' (buildPhysicalChunkKey (vPrefix volume) (candidate_ref rec)) = None) /\
       (~ condemned w id limit candidateRefs protectedRefs rec ->
          MemMeta.garbage_of (repo w') id !! c = Some rec)) /\
    ScannedCount res = zlen (scanned w id limit) /\ DeletedCount res = DeletableCount res /\
    RetainedCount res + DeletedCount res = CandidateCount res.
Proof.
  intros Hv Hwf. destruct (sweep_spec w id limit candidateRefs protectedRefs volume Hv)
    as (w' & res & del & E & Hd & Hdel & _ & H2 & H3 & H4 & H5).
  exists w', res. split; [done|]. split; [|repeat split; try done; lia].
  intros c rec Hrec. destruct (Hwf c rec Hrec) as [Hr Hid]. split; intros Hc.
  - rewrite (del_garbage _ _ _ _ _ Hd). apply Hdel in Hc. split.
    + rewrite decide_True; [done|]. split; [done|]. apply list_elem_of_fmap. by exists rec.
    + cbn. rewrite (del_objects _ _ _ _ _ Hd), decide_True; [done|]. apply list_elem_of_fmap.
      by exists rec.
  - rewrite (del_garbage _ _ _ _ _ Hd), decide_False; [done|]. intros [_ Hin].
    apply list_elem_of_fmap in Hin as (rec' & -> & Hin). apply Hdel in Hin.
    destruct Hin as (Hs & Hrest). destruct (scanned_wf w id limit rec' Hwf Hs) as [Hrec' _].
    rewrite Hrec in Hrec'. injection Hrec' as ->. by apply Hc.
Qed.

Lemma sweep_deletes_condemned_witness :
  exists w' res,
    SweepVolumeCandidatesWithProtectedRefs 7 0 [] [] worn_world = (w', Ok res) /\
    (forall c rec, MemMeta.garbage_of (repo worn_world) 7 !! c = Some rec ->
       (condemned worn_world 7 0 [] [] rec -> MemMeta.garbage_of (repo w') 7 !! c = None /\
          object_at w' (buildPhysicalChunkKey (vPrefix small_volume) (candidate_ref rec)) = None) /\
       (~ condemned worn_world 7 0 [] [] rec -> MemMeta.garbage_of (repo w') 7 !! c = Some rec)) /\
    ScannedCount res = zlen (scanned worn_world 7 0) /\ DeletedCount res = DeletableCount res /\
    RetainedCount res + DeletedCount res = CandidateCount res.
Proof.
  refine (sweep_deletes_condemned worn_world 7 0 small_volume [] [] _ _); [vm_compute; reflexivity|].
  apply garbage_wfb_spec. vm_compute. reflexivity.
Defined.

(** The first chunk of the volume is the only garbage after the second write. *)
Example worn_sweep :
  (SweepVolumeCandidatesWithProtectedRefs 7 0 [] [] worn_world).2
  = Ok (mkSweepResult 7 1 1 1 1 0 false).
Proof. vm_compute. reflexivity. Qed.

(** The bounded sweeper reaches every volume.  From the start of a rotation,
    as many passes as it takes to cover the listing at [volumesPerPass] volumes
    per pass sweep every listed volume exactly once and in order, however many
    of the sweeps fail, and then the rotation starts over. *)
Theorem rotation_visits_all {S : Type} (lister : act S svc_error (list VolumeSpec))
    (sweepVolume : Z -> Z -> act S svc_error ChunkGarbageSweepResult)
    (n : nat) (s s1 : S) (sw : BoundedChunkSweeper) (vs : list VolumeSpec) :
  (forall id limit s, (sweepVolume id limit s).2 <> Panic) ->
  0 < volumesPerPass sw -> zlen (volumes sw) <= cursor sw ->
  lister s = (s1, Ok vs) -> 0 < zlen vs ->
  (Z.of_nat n - 1) * volumesPerPass sw < zlen vs <= Z.of_nat n * volumesPerPass sw ->
  let '(s', sw') := passes_run lister sweepVolume n (s, sw) in
  s' = sweep_ids sweepVolume (perVolumeLimit sw) (vID <$> vs) s1 /\
  volumes sw' = vID <$> vs /\ cursor sw' = zlen (volumes sw').
Proof.
  intros Hnp Hk Hc Hl Hvs Hn. destruct n as [|n]; [lia|]. cbn [passes_run].
  destruct (first_pass lister sweepVolume Hnp s s1 sw vs Hk Hc Hl Hvs) as (sw1 & E & Hr). rewrite E.
  set (ids := vID <$> vs) in *. set (k := volumesPerPass sw) in *.
  assert (zlen ids = zlen vs) as Hlen by (unfold ids, zlen; by rewrite length_fmap).
  destruct (passes_spec lister sweepVolume Hnp n
    (sweep_ids sweepVolume (perVolumeLimit sw) (slice 0 (Z.min (0 + k) (zlen ids)) ids) s1) sw1 ids k
    (perVolumeLimit sw) (Z.min (0 + k) (zlen ids)) Hk ltac:(lia) Hr ltac:(nia)) as (sw2 & E2 & Hr2).
  rewrite E2. destruct Hr2 as (Hv2 & _ & _ & Hc2). rewrite Hv2. split; [|done].
  unfold sweep_ids. rewrite <-fold_left_app, slice_to_end by nia.
  unfold slice. rewrite take_ge; [done|]. unfold zlen. rewrite length_drop. lia.
Qed.

(** Three volumes, two per pass, and the sweep of volume 2 fails. *)
Definition three_volumes : list VolumeSpec :=
  (fun id => zero_VolumeSpec <| vID := id |>) <$> [1; 2; 3].
Definition logging_sweep (id limit : Z) : act (list Z) svc_error ChunkGarbageSweepResult := fun log =>
  ((log ++ [id])%list,
   if id =? 2 then Err ErrVolumeNotFound else Ok (mkSweepResult id 0 0 0 0 0 false)).

Lemma rotation_visits_all_witness :
  let '(log, sw') := passes_run (fun log => (log, Ok three_volumes)) logging_sweep 2
                       ([], NewBoundedChunkSweeper 2 10) in
  log = sweep_ids logging_sweep 10 (vID <$> three_volumes) [] /\
  volumes sw' = vID <$> three_volumes /\ cursor sw' = zlen (volumes sw').
Proof.
  refine (rotation_visits_all (fun log => (log, Ok three_volumes)) logging_sweep 2 [] []
    (NewBoundedChunkSweeper 2 10) three_volumes _ _ _ eq_refl _ _).
  - intros id limit s. cbn. by destruct (id =? 2).
  - reflexivity.
  - vm_compute. congruence.
  - reflexivity.
  - vm_compute. split; congruence.
Defined.

End ChunkGCFacts.
