(* ===== verification/Handoff.v ===== *)
(** * Writer handoff and the reconcile gate

    Models src/gateway/service/handoff.go (which gateway may serve a volume
    while its writer moves, and when the move is complete) with the two helpers
    of path_plan_status.go it calls, and reconcile_gate.go (whether a
    reconcile tick has to read anything).  [time.Now().Unix()] is an argument.
    The fields of [ReconcileGate] are atomics that each method reads and writes
    once; a tick is one call of [ShouldScan]. *)

From Stdlib Require Import ZArith Lia Ascii String.
From stdpp Require Import base list gmap strings.
From S2P Require Import Prelude GatewayTypes.
Open Scope string_scope.
Open Scope Z_scope.

Module Handoff.
Import Gateway.

(** ** handoff.go *)

Definition handoffCompletionStabilizationDelay : Z := 5.

Definition containsGatewayID (values : list string) (target : string) : bool :=
  existsb (fun value => String.eqb value target) values.

Definition runtimePathPlanConverged (st : VolumeStatusRecord) : bool :=
  (0 <? sPathPlanRevision st) && (sPathPlanRevision st <=? sRuntimeAppliedPathPlanRevision st).

Definition handoffAcknowledged (st : VolumeStatusRecord) : bool :=
  if negb (sHandoffRequired st) then false else
  if String.eqb (sCurrentGatewayID st) "" ||
     negb (containsGatewayID (sHandoffTargetGatewaySet st) (sCurrentGatewayID st)) then false else
  if sAttachmentGeneration st =? 0 then false else
  (0 <? sHandoffAckedAtUnix st) && (sHandoffAckedGeneration st =? sAttachmentGeneration st).

Definition handoffStage (st : VolumeStatusRecord) : string :=
  if negb (sHandoffRequired st) then "" else
  if String.eqb (sCurrentGatewayID st) "" ||
     negb (containsGatewayID (sHandoffTargetGatewaySet st) (sCurrentGatewayID st)) ||
     (sAttachmentGeneration st =? 0) then "pending_generation_rotation" else
  if negb (handoffAcknowledged st) then "target_attached_pending_ack" else
  if (sPathPlanRevision st =? 0) || negb (runtimePathPlanConverged st)
  then "acknowledged_pending_convergence" else
  if sRuntimePathNeedsAttention st then "acknowledged_pending_runtime_attention" else
  "ready_to_complete".

Definition gatewayAllowedDuringHandoff (st : VolumeStatusRecord) (gatewayID : string) : bool :=
  if negb (sHandoffRequired st) then true else
  let stage := handoffStage st in
  if String.eqb stage "target_attached_pending_ack"
     || String.eqb stage "acknowledged_pending_convergence"
     || String.eqb stage "acknowledged_pending_runtime_attention"
     || String.eqb stage "ready_to_complete"
  then negb (String.eqb (sCurrentGatewayID st) "") && String.eqb (sCurrentGatewayID st) gatewayID
  else containsGatewayID (sHandoffTargetGatewaySet st) gatewayID.

Definition handoffCompletionSatisfied (now : Z) (st : VolumeStatusRecord) : bool :=
  if negb (sHandoffRequired st) then false else
  String.eqb (handoffStage st) "ready_to_complete" && (0 <? sHandoffCompletionEligibleAtUnix st)
  && (sHandoffCompletionEligibleAtUnix st <=? now).

Definition updateHandoffCompletionEligibility (st : VolumeStatusRecord) (nowUnix : Z)
  : VolumeStatusRecord :=
  if negb (sHandoffRequired st) then st <| sHandoffCompletionEligibleAtUnix := 0 |> else
  if String.eqb (handoffStage st) "ready_to_complete" then
    if sHandoffCompletionEligibleAtUnix st =? 0
    then st <| sHandoffCompletionEligibleAtUnix :=
                 add_i64 nowUnix handoffCompletionStabilizationDelay |>
    else st
  else st <| sHandoffCompletionEligibleAtUnix := 0 |>.

End Handoff.

(** ** reconcile_gate.go *)

Module ReconcileGate.

Record ReconcileGate := mkGate {
  dirty : bool; watching : bool; maxSkips : Z; consecutiveSkip : Z;
  scans : Z; skips : Z; resyncs : Z; changes : Z; floorWakeups : Z }.

#[export] Instance ReconcileGate_settable : Settable ReconcileGate := fun x =>
  mkGate (dirty x) (watching x) (maxSkips x) (consecutiveSkip x) (scans x) (skips x) (resyncs x)
    (changes x) (floorWakeups x).

Definition DefaultMaxConsecutiveSkips : Z := 12.

Definition NewReconcileGateWithFloor (maxSkips : Z) : ReconcileGate :=
  mkGate true false maxSkips 0 0 0 0 0 0.

Definition NewReconcileGate : ReconcileGate := NewReconcileGateWithFloor DefaultMaxConsecutiveSkips.

Definition AttachWatch (g : ReconcileGate) : ReconcileGate := g <| watching := true |>.

Definition DetachWatch (g : ReconcileGate) : ReconcileGate :=
  g <| watching := false |> <| dirty := true |> <| resyncs := add_i64 (resyncs g) 1 |>.

Definition MarkChanged (g : ReconcileGate) : ReconcileGate :=
  g <| changes := add_i64 (changes g) 1 |> <| dirty := true |>.

Definition ShouldScan (g : ReconcileGate) : ReconcileGate * bool :=
  if negb (watching g) then
    (g <| consecutiveSkip := 0 |> <| scans := add_i64 (scans g) 1 |>, true) else
  let was := dirty g in
  let g := g <| dirty := false |> in
  if was then (g <| consecutiveSkip := 0 |> <| scans := add_i64 (scans g) 1 |>, true) else
  if 0 <? maxSkips g then
    let skipped := add_i64 (consecutiveSkip g) 1 in
    let g := g <| consecutiveSkip := skipped |> in
    if maxSkips g <=? skipped then
      (g <| consecutiveSkip := 0 |> <| floorWakeups := add_i64 (floorWakeups g) 1 |>
         <| scans := add_i64 (scans g) 1 |>, true)
    else (g <| skips := add_i64 (skips g) 1 |>, false)
  else (g <| skips := add_i64 (skips g) 1 |>, false).

Record ReconcileGateSnapshot := mkSnapshot {
  ScanCount : Z; SkipCount : Z; ResyncCount : Z; ChangeCount : Z; FloorWakeups : Z;
  Watching : bool }.

Definition Snapshot (g : ReconcileGate) : ReconcileGateSnapshot :=
  mkSnapshot (scans g) (skips g) (resyncs g) (changes g) (floorWakeups g) (watching g).

End ReconcileGate.
