(* ===== verification/Metrics.v ===== *)
(** * Operation metrics

    Models src/gateway/service/metrics.go: the counters kept per operation and
    the discard observations.  The elapsed milliseconds of an operation are an
    argument of [Record_].  All counters are uint64 and wrap. *)

From Stdlib Require Import ZArith Lia Ascii String.
From stdpp Require Import base list gmap strings.
From S2P Require Import Prelude GatewayTypes Discard.
Open Scope string_scope.
Open Scope Z_scope.

Module Metrics.
Import Gateway Discard.

Record OperationMetrics := mkOperationMetrics {
  Count : Z; Errors : Z; Bytes : Z; TotalLatencyMS : Z }.

#[export] Instance OperationMetrics_settable : Settable OperationMetrics := fun x =>
  mkOperationMetrics (Count x) (Errors x) (Bytes x) (TotalLatencyMS x).

Definition zero_OperationMetrics : OperationMetrics := mkOperationMetrics 0 0 0 0.

Record RetrySummary := mkRetrySummary {
  TotalRetries : Z; OpenUnavailableRetries : Z; ReopenRetries : Z }.

Record IOIdentityMetrics := mkIOIdentityMetrics {
  DiscardBytes : Z; LogicalZeroBytes : Z; DiscardZeroFallbackBytes : Z;
  DiscardTrueReclaimBytes : Z; DiscardAlignmentFallbacks : Z; DiscardAlignedCount : Z;
  DiscardUnalignedCount : Z; ByDiscardPolicy : gmap string Z;
  LastObservation : option DiscardObservation }.

#[export] Instance IOIdentityMetrics_settable : Settable IOIdentityMetrics := fun x =>
  mkIOIdentityMetrics (DiscardBytes x) (LogicalZeroBytes x) (DiscardZeroFallbackBytes x)
    (DiscardTrueReclaimBytes x) (DiscardAlignmentFallbacks x) (DiscardAlignedCount x)
    (DiscardUnalignedCount x) (ByDiscardPolicy x) (LastObservation x).

Record MetricsCollector := mkMetricsCollector {
  byOperation : gmap string OperationMetrics; ioIdentity : option IOIdentityMetrics }.

#[export] Instance MetricsCollector_settable : Settable MetricsCollector := fun x =>
  mkMetricsCollector (byOperation x) (ioIdentity x).

Definition NewMetricsCollector : MetricsCollector := mkMetricsCollector ∅ None.

(** [MetricsCollector.Record]. *)
Definition Record_ (op : string) (bytes latencyMS : Z) (err : option svc_error)
    (c : MetricsCollector) : MetricsCollector :=
  if String.eqb op "" then c else
  let current := default zero_OperationMetrics (byOperation c !! op) in
  let current := current <| Count := add64 (Count current) 1 |>
                         <| Bytes := add64 (Bytes current) bytes |>
                         <| TotalLatencyMS := add64 (TotalLatencyMS current) latencyMS |> in
  let current := if isSome err then current <| Errors := add64 (Errors current) 1 |> else current in
  c <| byOperation := <[op := current]> (byOperation c) |>.

Definition RecordDiscardObservation (obs : DiscardObservation) (c : MetricsCollector)
  : MetricsCollector :=
  if String.eqb (doOperation obs) "" then c else
  let current := default (mkIOIdentityMetrics 0 0 0 0 0 0 0 ∅ None) (ioIdentity c) in
  let current := current <| LogicalZeroBytes :=
                              add64 (LogicalZeroBytes current) (doLogicalZeroBytes obs) |> in
  let current :=
    if negb (String.eqb (doOperation obs) IOOperationDiscard) then current else
    let current := current <| DiscardBytes := add64 (DiscardBytes current) (doDiscardBytes obs) |> in
    let current :=
      if String.eqb (doPolicy obs) "" then current else
      current <| ByDiscardPolicy := <[doPolicy obs :=
        add64 (default 0 (ByDiscardPolicy current !! doPolicy obs)) 1]> (ByDiscardPolicy current) |> in
    let current :=
      if String.eqb (doPolicy obs) DiscardPolicyZeroFallback then
        current <| DiscardZeroFallbackBytes :=
                     add64 (DiscardZeroFallbackBytes current) (doDiscardBytes obs) |>
      else if String.eqb (doPolicy obs) DiscardPolicyTrueReclaim then
        current <| DiscardTrueReclaimBytes :=
                     add64 (DiscardTrueReclaimBytes current) (doDiscardBytes obs) |>
      else current in
    if doAlignedToReclaimGeometry obs then
      current <| DiscardAlignedCount := add64 (DiscardAlignedCount current) 1 |>
    else
      let current := current <| DiscardUnalignedCount := add64 (DiscardUnalignedCount current) 1 |> in
      if String.eqb (doPolicy obs) DiscardPolicyZeroFallback then
        current <| DiscardAlignmentFallbacks := add64 (DiscardAlignmentFallbacks current) 1 |>
      else current in
  c <| ioIdentity := Some (current <| LastObservation := Some obs |>) |>.

(** [summarizeRetryMetrics] over the entries of the map in any order. *)
Fixpoint summarize_loop (retry : list (string * Z)) (summary : RetrySummary) : RetrySummary :=
  match retry with
  | [] => summary
  | (key, value) :: retry =>
      let total := add64 (TotalRetries summary) value in
      summarize_loop retry
        (if String.eqb key "open_unavailable_retry"
         then mkRetrySummary total (add64 (OpenUnavailableRetries summary) value)
                (ReopenRetries summary)
         else mkRetrySummary total (OpenUnavailableRetries summary)
                (add64 (ReopenRetries summary) value))
  end.

Definition summarizeRetryMetrics (retry : gmap string Z) : RetrySummary :=
  summarize_loop (map_to_list retry) (mkRetrySummary 0 0 0).

End Metrics.
