(* ===== verification/Service.v ===== *)
(** * The gateway service

    Models src/gateway/service/service.go: attaching and detaching volumes and
    the volume I/O calls, between the metadata repository and a data
    repository.

    [DataRepository] is the Go interface of that name; its [option] fields are
    the optional interfaces the service looks for with a type assertion
    ([FlushCapableDataRepository] and so on), [None] when the assertion fails.
    A method that defers [metrics.Record] reads the local variable [err] at its
    end, which is not always the error the method returns: a handler therefore
    yields both the result and the final value of [err].  The clock readings of
    [AttachContext] are the argument [now] (the first for [nowUnix], the second
    inside [handoffCompletionSatisfied]), the elapsed time of a call is
    [elapsed].  Log lines are left out. *)

From Stdlib Require Import ZArith Lia Ascii String.
From stdpp Require Import base list gmap strings.
From S2P Require Import Prelude GoStrings GatewayTypes Discard Handoff Metrics.
Open Scope string_scope.
Open Scope Z_scope.

Module Service.
Import Gateway Discard Handoff Metrics.

(** ** The repositories *)

(** The methods of [MetadataRepository] the service calls; [RefreshVolume] is
    the optional [FreshVolumeMetadataRepository]. *)
Class ServiceMetadata (S : Type) := {
  GetVolume : Z -> act S svc_error VolumeSpec;
  RefreshVolume : option (Z -> act S svc_error VolumeSpec);
  GetVolumeStatus : Z -> act S svc_error VolumeStatusRecord;
  PutVolumeStatus : VolumeStatusRecord -> act S svc_error unit;
  GetAttachment : Z -> act S svc_error AttachmentRecord;
  MetaAttach : AttachRequest -> act S svc_error AttachmentRecord;
  MetaDetach : DetachRequest -> act S svc_error AttachmentRecord }.

Record ReadResult := mkReadResult { rrData : option bytes; rrZeroData : bool }.

Record InitialZeroMapEvidence := mkZeroMapEvidence {
  Trusted : bool; AllZero : bool; GranuleBytes : Z; CheckedPageCount : Z; CheckedChunkCount : Z }.

Record DataRepository (S : Type) := mkDataRepository {
  ReadAt : VolumeSpec -> Z -> Z -> act S svc_error bytes;
  WriteAt : VolumeSpec -> Z -> Z -> bytes -> act S svc_error unit;
  ReadAtResult : option (VolumeSpec -> Z -> Z -> act S svc_error ReadResult);
  ReadCloneAt : option (VolumeSpec -> string -> Z -> Z -> act S svc_error bytes);
  WriteCloneAt : option (VolumeSpec -> string -> Z -> Z -> bytes -> act S svc_error unit);
  ReadSnapshotAt : option (VolumeSpec -> string -> Z -> Z -> act S svc_error bytes);
  CloseAttachment : option (Z -> AttachmentRecord -> act S svc_error unit);
  CloseLocalAttachment : option (Z -> string -> string -> act S svc_error unit);
  ReloadAttachment : option (VolumeSpec -> act S svc_error unit);
  FlushVolume : option (VolumeSpec -> act S svc_error unit);
  DiscardAt : option (VolumeSpec -> Z -> Z -> act S svc_error unit);
  DiscardObservationFor : option (VolumeSpec -> Z -> Z -> DiscardObservation);
  ZeroAt : option (VolumeSpec -> Z -> Z -> act S svc_error unit);
  ZeroMapEvidence : option (VolumeSpec -> act S svc_error InitialZeroMapEvidence) }.

Arguments ReadAt {S}. Arguments WriteAt {S}. Arguments ReadAtResult {S}.
Arguments ReadCloneAt {S}. Arguments WriteCloneAt {S}. Arguments ReadSnapshotAt {S}.
Arguments CloseAttachment {S}. Arguments CloseLocalAttachment {S}. Arguments ReloadAttachment {S}.
Arguments FlushVolume {S}. Arguments DiscardAt {S}. Arguments DiscardObservationFor {S}.
Arguments ZeroAt {S}. Arguments ZeroMapEvidence {S}.

(** The repository of a service whose store is no object store. *)
Definition unsupportedDataRepository {S} : DataRepository S := {|
  ReadAt := fun _ _ _ => fail_act ErrNotSupported;
  WriteAt := fun _ _ _ _ => fail_act ErrNotSupported;
  ReadAtResult := None; ReadCloneAt := None; WriteCloneAt := None; ReadSnapshotAt := None;
  CloseAttachment := Some (fun _ _ => ret_act tt); CloseLocalAttachment := None;
  ReloadAttachment := Some (fun _ => ret_act tt);
  FlushVolume := None; DiscardAt := None; DiscardObservationFor := None; ZeroAt := None;
  ZeroMapEvidence := None |}.

(** ** Pure helpers *)

Definition validateRange (blockSize volumeSize offsetBytes lengthBytes : Z) : option svc_error :=
  let blockSize := if blockSize =? 0 then DefaultBlockSize else blockSize in
  if lengthBytes =? 0 then Some ErrBadAlignment else
  if negb (offsetBytes mod blockSize =? 0) || negb (lengthBytes mod blockSize =? 0)
  then Some ErrBadAlignment else
  if (volumeSize <=? offsetBytes) || (volumeSize <? add64 offsetBytes lengthBytes)
  then Some ErrOutOfRange else None.

Definition protectedWriteRejectionForVolume (volume : VolumeSpec) : option ProtectedWriteRejection :=
  match vProtectedState volume with
  | None => None
  | Some p =>
      let protectedState := NormalizeProtectedState p in
      match WriteRejectionReason protectedState with
      | None => None
      | Some reasonCode =>
          Some (mkProtectedWriteRejection (CanonicalVolumeID (vID volume)) (psState protectedState)
                  reasonCode (psSealedObjectID protectedState) (psSealOperationID protectedState)
                  (psLifecycleState protectedState))
      end
  end.

Definition SBSErrorCodeUnavailable : string := "unavailable".

Definition isRetryableUnavailable (err : svc_error) : bool :=
  match err with
  | ErrSBS code retryable => String.eqb code SBSErrorCodeUnavailable && retryable
  | _ => false
  end.

Definition isDeferredDetachCloseError (err : svc_error) : bool :=
  match err with ErrContext => true | _ => isRetryableUnavailable err end.

Record VolumeState := mkVolumeState {
  vsVolumeID : Z; vsSizeBytes : Z; vsBlockSize : Z; vsChunkSizeBytes : Z; vsExtentPageBytes : Z;
  vsGeneration : Z; vsAttachedHostID : string; vsAttachmentID : string; vsAttachedDeviceID : Z }.

(** ** Handlers *)

Section Handlers.
Context {S : Type} `{ServiceMetadata S}.
Context (data : DataRepository S) (gatewayID : string) (now : nat -> Z) (elapsed : Z).

Definition state := (S * MetricsCollector)%type.

(** What a method returns, and the value its variable [err] ends with. *)
Definition returned (A : Type) := (result svc_error A * option svc_error)%type.
Definition handler (A : Type) := state -> state * returned A.

Definition on_store {A} (m : act S svc_error A) : act state svc_error A := fun w =>
  let '(s, r) := m w.1 in ((s, w.2), r).

(** [x, err := m; if err != nil { return err }; k(x)] *)
Definition try_ {A B} (m : act S svc_error A) (k : A -> handler B) : handler B := fun w =>
  match on_store m w with
  | (w, Ok a) => k a w
  | (w, Err e) => (w, (Err e, Some e))
  | (w, Panic) => (w, (Panic, None))
  end.
(** [err = e; return err] *)
Definition fail {B} (e : svc_error) : handler B := fun w => (w, (Err e, Some e)).
(** [return e], which leaves [err] alone *)
Definition stop {B} (e : svc_error) : handler B := fun w => (w, (Err e, None)).
(** [return x, nil] *)
Definition done {B} (x : B) : handler B := fun w => (w, (Ok x, None)).
(** [err = m; return err] *)
Definition last {B} (m : act S svc_error B) : handler B := try_ m done.
(** [return m], which leaves [err] alone *)
Definition tail {B} (m : act S svc_error B) : handler B := fun w =>
  let '(w, r) := on_store m w in (w, (r, None)).
(** [err = e; if err != nil { return err }] *)
Definition guard {B} (e : option svc_error) (k : handler B) : handler B :=
  match e with Some e => fail e | None => k end.
Definition measure {B} (f : MetricsCollector -> MetricsCollector) (k : handler B) : handler B :=
  fun w => k (w.1, f w.2).

(** [defer func() { s.metrics.Record(op, bytes, started, err) }()] *)
Definition recorded {A} (op : string) (bytes : Z) (h : handler A) : act state svc_error A := fun w =>
  let '(w, (r, err)) := h w in ((w.1, Record_ op bytes elapsed err w.2), r).

(** *** Volumes *)

Definition volumeInfo (volumeID : Z) : act S svc_error VolumeSpec := GetVolume volumeID.
Definition VolumeInfo (volumeID : Z) : act S svc_error VolumeSpec := volumeInfo volumeID.

Definition volumeInfoFresh (volumeID : Z) : act S svc_error VolumeSpec :=
  match RefreshVolume with
  | Some refresh => refresh volumeID
  | None => GetVolume volumeID
  end.

Definition volumeStateFromSpec (v : VolumeSpec) : act S svc_error VolumeState :=
  bind_act (GetAttachment (vID v)) (fun st =>
  ret_act (mkVolumeState (vID v) (vSizeBytes v) (vBlockSize v) (vChunkSizeBytes v)
             (vExtentPageBytes v) (aGeneration st) (aHostID st) (aAttachmentID st) (aDeviceID st))).

Definition volumeState (volumeID : Z) : act S svc_error VolumeState :=
  bind_act (GetVolume volumeID) volumeStateFromSpec.

Definition ReloadVolumeDataPath (volumeID : Z) : act S svc_error VolumeState :=
  bind_act (volumeInfoFresh volumeID) (fun v =>
  bind_act (match ReloadAttachment data with
            | Some reload => reload v
            | None => ret_act tt
            end) (fun _ => volumeStateFromSpec v)).

Definition InitialZeroMapEvidenceForState (st : VolumeState) : act S svc_error InitialZeroMapEvidence :=
  match ZeroMapEvidence data with
  | None => ret_act (mkZeroMapEvidence false false 0 0 0)
  | Some provider =>
      provider (NormalizeVolumeSpec
        (zero_VolumeSpec <| vID := vsVolumeID st |> <| vSizeBytes := vsSizeBytes st |>
           <| vBlockSize := vsBlockSize st |> <| vChunkSizeBytes := vsChunkSizeBytes st |>
           <| vExtentPageBytes := vsExtentPageBytes st |>))
  end.

(** *** Attach and detach *)

(** The status [AttachContext] writes back when it consumes a handoff. *)
Definition handoff_status (st : VolumeStatusRecord) : VolumeStatusRecord :=
  let nowUnix := now 0 in
  let st := if String.eqb (sCurrentGatewayID st) gatewayID && (0 <? sAttachmentGeneration st)
            then st <| sHandoffAckedAtUnix := nowUnix |>
                    <| sHandoffAckedGeneration := sAttachmentGeneration st |>
            else st in
  if handoffCompletionSatisfied (now 1) st then
    st <| sHandoffRequired := false |> <| sHandoffRequestedAtUnix := 0 |>
       <| sHandoffAckedAtUnix := 0 |> <| sHandoffAckedGeneration := 0 |>
       <| sHandoffCompletionEligibleAtUnix := 0 |> <| sHandoffStage := "" |>
       <| sHandoffReason := "" |> <| sHandoffTargetGatewaySet := [] |>
  else
    let st := st <| sHandoffStage := handoffStage st |> in
    let st := updateHandoffCompletionEligibility st nowUnix in
    if String.eqb (sHandoffStage st) "ready_to_complete" then
      st <| sControllerReconcileRequestedAtUnix := 0 |> <| sControllerReconcileReason := "" |>
         <| sControllerReconcileScheduledAtUnix := sHandoffCompletionEligibleAtUnix st |>
         <| sControllerReconcileScheduledReason := "handoff_completion_ready" |>
    else
      st <| sControllerReconcileRequestedAtUnix := nowUnix |>
         <| sControllerReconcileReason := "handoff_ack" |>
         <| sControllerReconcileScheduledAtUnix := 0 |>
         <| sControllerReconcileScheduledReason := "" |>.

Definition attach_handler (volumeID : Z) (hostID : string) (deviceID : Z) : handler VolumeState :=
  if String.eqb hostID "" then fail ErrHostIDRequired else
  try_ (volumeInfo volumeID) (fun v =>
  if String.eqb (vState v) VolumeStateDisabled then fail ErrVolumeDisabled else
  try_ (GetVolumeStatus volumeID) (fun st =>
  let consumesHandoff := sHandoffRequired st && gatewayAllowedDuringHandoff st gatewayID in
  if sHandoffRequired st && negb (gatewayAllowedDuringHandoff st gatewayID)
  then fail ErrWriterFenced else
  try_ (MetaAttach (mkAttachRequest volumeID hostID deviceID gatewayID)) (fun _ =>
  let finish := last (volumeState volumeID) in
  if consumesHandoff then
    try_ (GetVolumeStatus volumeID) (fun updatedStatus =>
    try_ (PutVolumeStatus (handoff_status updatedStatus)) (fun _ => finish))
  else finish))).

Definition AttachContext (volumeID : Z) (hostID : string) (deviceID : Z)
  : act state svc_error VolumeState := recorded "attach" 0 (attach_handler volumeID hostID deviceID).

(** Closing an attachment: an error that may be retried later does not stop the detach. *)
Definition deferred_close {B} (close : act S svc_error unit) (k : handler B) : handler B := fun w =>
  match on_store close w with
  | (w, Ok _) => k w
  | (w, Err e) => if negb (isDeferredDetachCloseError e) then (w, (Err e, Some e)) else k w
  | (w, Panic) => (w, (Panic, None))
  end.

Definition detach_handler (volumeID : Z) (hostID attachmentID : string) : handler VolumeState :=
  if String.eqb hostID "" then fail ErrHostIDRequired else
  if String.eqb attachmentID "" then fail ErrAttachmentIDRequired else
  try_ (volumeInfo volumeID) (fun _ =>
  try_ (GetAttachment volumeID) (fun attachment =>
  if negb (String.eqb (aHostID attachment) "") &&
     (negb (String.eqb (aHostID attachment) hostID)
      || negb (String.eqb (aAttachmentID attachment) attachmentID))
  then fail ErrDetachConflict else
  deferred_close
    (if negb (String.eqb (aHostID attachment) "") then
       match CloseAttachment data with
       | Some close => close volumeID attachment
       | None => ret_act tt
       end
     else
       match CloseLocalAttachment data with
       | Some close => close volumeID hostID attachmentID
       | None => ret_act tt
       end)
    (try_ (MetaDetach (mkDetachRequest volumeID hostID attachmentID)) (fun _ =>
     tail (volumeState volumeID))))).

Definition DetachContext (volumeID : Z) (hostID attachmentID : string)
  : act state svc_error VolumeState :=
  recorded "detach" 0 (detach_handler volumeID hostID attachmentID).

(** *** Volume I/O *)

(** [v, err := s.VolumeInfo(volumeID)] and [err = validateRange(...)]. *)
Definition checked {B} (volumeID offsetBytes lengthBytes : Z) (k : VolumeSpec -> handler B)
  : handler B :=
  try_ (VolumeInfo volumeID) (fun v =>
  guard (validateRange (vBlockSize v) (vSizeBytes v) offsetBytes lengthBytes) (k v)).

Definition read_handler (volumeID offsetBytes lengthBytes : Z) : handler ReadResult :=
  checked volumeID offsetBytes lengthBytes (fun v =>
  match ReadAtResult data with
  | Some read => last (read v offsetBytes lengthBytes)
  | None => try_ (ReadAt data v offsetBytes lengthBytes) (fun b => done (mkReadResult (Some b) false))
  end).

Definition ReadResult_ (volumeID offsetBytes lengthBytes : Z) : act state svc_error ReadResult :=
  recorded "read" lengthBytes (read_handler volumeID offsetBytes lengthBytes).

Definition Read (volumeID offsetBytes lengthBytes : Z) : act state svc_error bytes :=
  bind_act (ReadResult_ volumeID offsetBytes lengthBytes) (fun res =>
  if rrZeroData res && negb (isSome (rrData res)) then ret_act (zeroes lengthBytes)
  else ret_act (default [] (rrData res))).

Definition ReadClone (volumeID : Z) (cloneID : string) (offsetBytes lengthBytes : Z)
  : act state svc_error bytes :=
  recorded "clone_read" lengthBytes
    (if String.eqb (TrimSpace cloneID) "" then stop ErrCloneIDRequired else
     checked volumeID offsetBytes lengthBytes (fun v =>
     match ReadCloneAt data with
     | None => stop ErrNotSupported
     | Some read => last (read v (TrimSpace cloneID) offsetBytes lengthBytes)
     end)).

Definition ReadSnapshot (volumeID : Z) (snapshotID : string) (offsetBytes lengthBytes : Z)
  : act state svc_error bytes :=
  recorded "snapshot_read" lengthBytes
    (if String.eqb (TrimSpace snapshotID) "" then stop ErrSnapshotIDRequired else
     checked volumeID offsetBytes lengthBytes (fun v =>
     match ReadSnapshotAt data with
     | None => stop ErrNotSupported
     | Some read => last (read v (TrimSpace snapshotID) offsetBytes lengthBytes)
     end)).

Definition write_handler (volumeID offsetBytes lengthBytes : Z) (d : bytes) : handler unit :=
  checked volumeID offsetBytes lengthBytes (fun v =>
  if negb (zlen d =? lengthBytes) then stop ErrBadDataLength else
  match protectedWriteRejectionForVolume v with
  | Some rejection => stop (ErrProtectedWrite rejection)
  | None => last (WriteAt data v offsetBytes lengthBytes d)
  end).

Definition Write (volumeID offsetBytes lengthBytes : Z) (d : bytes) : act state svc_error unit :=
  recorded "write" lengthBytes (write_handler volumeID offsetBytes lengthBytes d).

Definition WriteClone (volumeID : Z) (cloneID : string) (offsetBytes lengthBytes : Z) (d : bytes)
  : act state svc_error unit :=
  recorded "clone_write" lengthBytes
    (if String.eqb (TrimSpace cloneID) "" then stop ErrCloneIDRequired else
     checked volumeID offsetBytes lengthBytes (fun v =>
     if negb (zlen d =? lengthBytes) then stop ErrBadDataLength else
     match WriteCloneAt data with
     | None => stop ErrNotSupported
     | Some write => last (write v (TrimSpace cloneID) offsetBytes lengthBytes d)
     end)).

Definition Flush (volumeID : Z) : act state svc_error unit :=
  recorded "flush" 0
    (try_ (VolumeInfo volumeID) (fun v =>
     match FlushVolume data with
     | Some flush => last (flush v)
     | None => done tt
     end)).

(** Writing zeroes with whatever the repository offers. *)
Definition zero_out (v : VolumeSpec) (offsetBytes lengthBytes : Z) : act S svc_error unit :=
  match ZeroAt data with
  | Some zero => zero v offsetBytes lengthBytes
  | None => WriteAt data v offsetBytes lengthBytes (zeroes lengthBytes)
  end.

(** The observation [Discard] acts on. *)
Definition discard_observation (v : VolumeSpec) (offsetBytes lengthBytes : Z) : DiscardObservation :=
  let obs := match DiscardObservationFor data with
             | Some provider => provider v offsetBytes lengthBytes
             | None => NewDiscardZeroFallbackObservation v offsetBytes lengthBytes
             end in
  if String.eqb (doPolicy obs) DiscardPolicyTrueReclaim && negb (isSome (DiscardAt data))
  then NewDiscardZeroFallbackObservation v offsetBytes lengthBytes else obs.

Definition discard_handler (volumeID offsetBytes lengthBytes : Z) : handler unit :=
  checked volumeID offsetBytes lengthBytes (fun v =>
  let obs := discard_observation v offsetBytes lengthBytes in
  measure (RecordDiscardObservation obs)
    (if String.eqb (doPolicy obs) DiscardPolicyPartialReject then fail NewDiscardAlignmentError else
     match DiscardAt data with
     | Some discard =>
         if String.eqb (doPolicy obs) DiscardPolicyTrueReclaim
         then last (discard v offsetBytes lengthBytes)
         else last (zero_out v offsetBytes lengthBytes)
     | None => last (zero_out v offsetBytes lengthBytes)
     end)).

Definition Discard (volumeID offsetBytes lengthBytes : Z) : act state svc_error unit :=
  recorded "discard" lengthBytes (discard_handler volumeID offsetBytes lengthBytes).

Definition zero_handler (volumeID offsetBytes lengthBytes : Z) : handler unit :=
  checked volumeID offsetBytes lengthBytes (fun v =>
  measure (RecordDiscardObservation (NewZeroObservation v offsetBytes lengthBytes))
    (last (zero_out v offsetBytes lengthBytes))).

Definition Zero (volumeID offsetBytes lengthBytes : Z) : act state svc_error unit :=
  recorded "zero" lengthBytes (zero_handler volumeID offsetBytes lengthBytes).

End Handlers.
End Service.
