(* ===== verification/ServiceFacts.v ===== *)
(** * The service on the in-memory gateway

    End-to-end properties of the service: what its range check admits, that
    reads through it see the writes through it, what a sealed volume protects,
    when a gateway is fenced during a handoff, and what the error counters
    count. *)

From Stdlib Require Import ZArith Lia Ascii String.
From stdpp Require Import base list gmap strings.
From coqutil Require Import Byte.
From S2P Require Import Prelude GoStrings GatewayTypes MemoryMetadata MemoryMetadataFacts.
From S2P Require Import ObjectStore ObjectStoreFacts ChunkMap Discard ChunkExtent DataWorld ReadFacts.
From S2P Require Import WriteFacts PageWrite WriteRange MemoryWorld Handoff Metrics Service.
Open Scope string_scope.
Open Scope Z_scope.

Module ServiceFacts.
Import Gateway Store DataWorld WriteFacts PageWrite MemoryWorld Handoff Metrics Service.

(** ** What the write path leaves alone *)

Section Frame.
Context {S : Type} `{ObjectStore S, ChunkExtent.ExtentMetadata S}.
Context (P : S -> Prop).

(** [m] keeps [P], whatever it returns. *)
Definition keeps {A} (m : act S svc_error A) : Prop := forall s, P s -> P (m s).1.
Definition keeps' {A} (m : act (ChunkExtent.counted (S:=S)) svc_error A) : Prop :=
  forall w, P w.1 -> P (m w).1.1.

Context (keeps_get : forall k, keeps (store_get k)) (keeps_put : forall k b, keeps (store_put k b)).
Context (keeps_page : forall v p, keeps (ChunkExtent.GetExtentPage v p)).
Context (keeps_put_page : forall r n, keeps (ChunkExtent.PutExtentPage r n)).
Context (keeps_alloc : forall v n, keeps (ChunkExtent.AllocateChunkIDs v n)).
Context (keeps_garbage : forall r, keeps (ChunkExtent.PutChunkGarbage r)).

Lemma keeps_bind {A B} (m : act S svc_error A) (f : A -> act S svc_error B) :
  keeps m -> (forall a, keeps (f a)) -> keeps (bind_act m f).
Proof.
  intros Hm Hf s Hs. unfold bind_act. specialize (Hm s Hs).
  destruct (m s) as [s1 [a|e|]]; cbn in *; [by apply Hf|done|done].
Qed.

Lemma keeps'_bind {A B} (m : act _ svc_error A) (f : A -> act _ svc_error B) :
  keeps' m -> (forall a, keeps' (f a)) -> keeps' (bind_act m f).
Proof.
  intros Hm Hf w Hw. unfold bind_act. specialize (Hm w Hw).
  destruct (m w) as [w1 [a|e|]]; cbn in *; [by apply Hf|done|done].
Qed.

Lemma keeps'_lift {A} (m : act S svc_error A) : keeps m -> keeps' (ChunkExtent.lift m).
Proof.
  intros Hm [s st] Hs. unfold ChunkExtent.lift. cbn in *. specialize (Hm s Hs).
  by destruct (m s).
Qed.

Lemma keeps_read_ref vol ref : keeps (ChunkExtent.ReadChunkRef vol ref).
Proof.
  apply keeps_bind; [done|]. intros [v|] s Hs; [|done]. by destruct (negb _).
Qed.

Lemma keeps_write_ref vol ref b : keeps (ChunkExtent.WriteChunkRef vol ref b).
Proof. unfold ChunkExtent.WriteChunkRef. destruct (negb _); [by intros s Hs|apply keeps_put]. Qed.

Lemma keeps_record order vol refs : keeps' (ChunkExtent.recordGarbage order vol refs).
Proof.
  unfold ChunkExtent.recordGarbage. induction (order (elements refs)) as [|r l IH];
    cbn [ChunkExtent.record_garbage_loop]; [by intros w Hw|].
  apply keeps'_bind; [by apply keeps'_lift|]. intros _. apply keeps'_bind; [by intros w Hw|].
  intros _. exact IH.
Qed.

Lemma keeps_scan vol off len base data cur n : forall i sc,
  keeps' (ChunkExtent.scan_loop vol off len base data cur n i sc).
Proof.
  induction n as [|n IH]; intros i sc; cbn [ChunkExtent.scan_loop]; [by intros w Hw|].
  destruct (_ <=? _); [apply IH|].
  apply keeps'_bind; [by intros w Hw|]. intros src.
  apply keeps'_bind; [by intros w Hw|]. intros current.
  apply keeps'_bind.
  - destruct (_ && _); [by intros w Hw|]. apply keeps'_bind; [by intros w Hw|]. intros _.
    apply keeps'_bind; [|intros cd; apply keeps'_bind; by intros ? w Hw || intros w Hw].
    apply keeps'_lift. unfold ChunkExtent.readChunkByMapping.
    destruct (_ =? 0); [by intros s Hs|]. destruct (isSome _); [by intros s Hs|].
    apply keeps_read_ref.
  - intros cd. destruct (ChunkExtent.isAllZero cd); apply IH.
Qed.

Lemma keeps_pending planner order vol base cur start : forall todo i sc written news,
  keeps' (ChunkExtent.write_pending planner order vol base cur start i todo sc written news).
Proof.
  induction todo as [|[k b] todo IH]; intros i sc written news; cbn [ChunkExtent.write_pending];
    [by intros w Hw|].
  destruct (ChunkExtent.choosePhysicalChunkRef _ _ _ _) as [ref|e|].
  - intros w Hw. pose proof (keeps'_lift _ (keeps_write_ref vol ref b) w Hw) as Hw1.
    destruct (ChunkExtent.lift _ w) as [w1 [u|e|]]; cbn in Hw1; [|by apply keeps'_bind; [apply keeps_record|intros _ w' Hw'|]|done].
    apply keeps'_bind; [by intros w' Hw'| |done]. intros _. apply keeps'_bind; [by intros w' Hw'|].
    intros current. apply IH.
  - by apply keeps'_bind; [apply keeps_record|intros _ w Hw].
  - by intros w Hw.
Qed.

Context (planner : option (VolumeSpec -> Z -> Z -> result svc_error PhysicalChunkRef)).
Context (order : list PhysicalChunkRef -> list PhysicalChunkRef).
Abbreviation alone := (fun (_ _ : nat) (s : S) => s).

Lemma keeps_attempt a vol p off len base n i0 i1 data :
  keeps' (ChunkExtent.write_attempt planner order alone a vol p off len base n i0 i1 data).
Proof.
  unfold ChunkExtent.write_attempt. apply keeps'_bind; [by intros w Hw|]. intros _.
  apply keeps'_bind; [by apply keeps'_lift|]. intros page.
  apply keeps'_bind; [apply keeps_scan|]. intros sc.
  apply keeps'_bind; [by intros w Hw|]. intros _.
  apply keeps'_bind.
  { destruct (0 <? _); [|by intros w Hw]. apply keeps'_bind; [by apply keeps'_lift|].
    intros start. apply keeps_pending. }
  intros [[sc' written] news]. apply keeps'_bind; [by intros w Hw|]. intros _.
  apply keeps'_bind; [by apply keeps'_lift|]. intros commitPage.
  destruct (_ && _); [by apply keeps'_bind; [apply keeps_record|intros _ w Hw]|].
  match goal with |- context [let '(a, b) := ?x in _] => destruct x as [[ms rev] stale] end.
  apply keeps'_bind; [by intros w Hw|]. intros _ w Hw.
  match goal with |- context [ChunkExtent.lift ?m w] =>
    pose proof (keeps'_lift m (keeps_put_page _ _) w Hw) as Hw1;
    destruct (ChunkExtent.lift m w) as [w1 [u|e|]] end; cbn in Hw1; [| |done].
  - by apply keeps'_bind; [apply keeps_record|intros _ w' Hw'|].
  - case_bool_decide; [by apply keeps'_bind; [apply keeps_record|intros _ w' Hw'|]|done].
Qed.

Lemma keeps_WriteAt vol off len data : keeps (ChunkExtent.WriteAt planner order alone vol off len data).
Proof.
  assert (forall n a body, (forall a, keeps' (body a)) -> keeps' (ChunkExtent.attempts n a body)) as Hat.
  { induction n as [|n IH]; intros a body Hb; cbn; [by intros w Hw|].
    apply keeps'_bind; [done|]. intros [|]; [by intros w Hw|by apply IH]. }
  assert (forall v p, keeps' (ChunkExtent.writePage planner order alone v p off len data)) as Hpg.
  { intros v p. unfold ChunkExtent.writePage. destruct (_ =? 0); [by intros w Hw|].
    destruct (_ <=? _); [by intros w Hw|]. apply Hat. intros a. apply keeps_attempt. }
  assert (forall n v p, keeps' (ChunkExtent.write_pages planner order alone n v p off len data)) as Hps.
  { induction n as [|n IH]; intros v p; cbn; [by intros w Hw|].
    apply keeps'_bind; [by intros w Hw|]. intros _. apply keeps'_bind; [done|]. intros _. apply IH. }
  intros s Hs. unfold ChunkExtent.WriteAt, ChunkExtent.WriteAtWithStats.
  destruct (_ =? 0); [done|]. destruct (_ =? 0); [done|].
  match goal with |- context [ChunkExtent.write_pages planner order alone ?n ?v ?p off len data ?w] =>
    pose proof (Hps n v p w Hs) as Hw;
    destruct (ChunkExtent.write_pages planner order alone n v p off len data w) as [[s1 st] r] end.
  exact Hw.
Qed.

End Frame.

(** ** The in-memory service *)

#[export] Instance world_service : ServiceMetadata World := {
  GetVolume v := on_repo (MemMeta.GetVolume v);
  RefreshVolume := None;
  GetVolumeStatus v := on_repo (MemMeta.GetVolumeStatus v);
  PutVolumeStatus st := on_repo (MemMeta.PutVolumeStatus st);
  GetAttachment v := on_repo (MemMeta.GetAttachment v);
  MetaAttach req := fun w => on_repo (MemMeta.Attach (clock w) req) w;
  MetaDetach req := on_repo (MemMeta.Detach req) }.

(** The optional interfaces [chunkExtentDataRepository] implements. *)
Definition chunk_extent_repository
    (planner : option (VolumeSpec -> Z -> Z -> result svc_error PhysicalChunkRef))
    (order : list PhysicalChunkRef -> list PhysicalChunkRef) : DataRepository World := {|
  ReadAt := ChunkExtent.ReadAt;
  WriteAt := ChunkExtent.WriteAt planner order (fun _ _ w => w);
  ReadAtResult := None; ReadCloneAt := None; WriteCloneAt := None; ReadSnapshotAt := None;
  CloseAttachment := Some (fun _ _ => ret_act tt); CloseLocalAttachment := None;
  ReloadAttachment := None;
  FlushVolume := Some ChunkExtent.FlushVolume;
  DiscardAt := Some (ChunkExtent.DiscardAt planner order (fun _ _ w => w));
  DiscardObservationFor := Some ChunkExtent.DiscardObservationFor;
  ZeroAt := Some (ChunkExtent.ZeroAt planner order (fun _ _ w => w));
  ZeroMapEvidence := None |}.

Lemma get_volume (w : World) v volume :
  MemMeta.volumes (repo w) !! v = Some volume -> GetVolume v w = (w, Ok volume).
Proof.
  intros Hv. destruct w. cbn. unfold on_repo, MemMeta.GetVolume, MemMeta.with_volume.
  cbn in *. by rewrite Hv.
Qed.

(** Writing leaves the volume table alone. *)
Lemma write_keeps_volumes planner order vol off len d (w : World) :
  MemMeta.volumes (repo (ChunkExtent.WriteAt planner order (fun _ _ w => w) vol off len d w).1)
  = MemMeta.volumes (repo w).
Proof.
  apply (keeps_WriteAt (fun w' => MemMeta.volumes (repo w') = MemMeta.volumes (repo w))); [..|done].
  - by intros k s Hs.
  - by intros k b s Hs.
  - intros v p [r o c] Hs. cbn in *. unfold on_repo, MemMeta.GetExtentPage, MemMeta.with_volume.
    cbn. by destruct (_ !! v).
  - intros rec n [r o c] Hs. cbn in *. unfold on_repo. cbn.
    destruct (MemMeta.volumes r !! pVolumeID rec) as [volume|] eqn:Hv.
    + pose proof (MemMetaFacts.put_page_spec r rec n volume Hv) as Hp.
      destruct (MemMeta.PutExtentPage rec n r). destruct Hp as [Hp _]. cbn. congruence.
    + unfold MemMeta.PutExtentPage, MemMeta.with_volume. by rewrite Hv.
  - intros v n [r o c] Hs. cbn in *. unfold on_repo, MemMeta.AllocateChunkIDs, MemMeta.with_volume.
    cbn. destruct (_ !! v); [|done]. by destruct (n =? 0).
  - intros rec [r o c] Hs. cbn in *. unfold on_repo, MemMeta.PutChunkGarbage, MemMeta.with_volume.
    cbn. by destruct (_ !! gcVolumeID rec).
Qed.

(** ** The range check *)

Definition block_of (blockSize : Z) : Z := if blockSize =? 0 then DefaultBlockSize else blockSize.

Lemma validate_spec blockSize volumeSize off len :
  u64 volumeSize -> u64 off -> u64 len ->
  validateRange blockSize volumeSize off len = None <->
  len <> 0 /\ off mod block_of blockSize = 0 /\ len mod block_of blockSize = 0 /\ off < volumeSize /\
  (off + len <= volumeSize \/ 2 ^ 64 <= off + len /\ off + len - 2 ^ 64 <= volumeSize).
Proof.
  unfold in_u. intros Hs Ho Hl. unfold validateRange. fold (block_of blockSize).
  destruct (Z.eqb_spec len 0) as [|Hz]; [split; [done|tauto]|].
  destruct (Z.eqb_spec (off mod block_of blockSize) 0); cbn [negb orb]; [|split; [done|tauto]].
  destruct (Z.eqb_spec (len mod block_of blockSize) 0); cbn [negb orb]; [|split; [done|tauto]].
  destruct (Z.leb_spec volumeSize off); cbn [orb]; [split; [done|lia]|].
  assert (off + len < 2 ^ 64 /\ add64 off len = off + len \/ 2 ^ 64 <= off + len /\ add64 off len = off + len - 2 ^ 64) as Ha.
  { unfold add64, wrap64. destruct (Z.ltb_spec (off + len) (2 ^ 64)).
    - left. split; [done|]. apply Z.mod_small. lia.
    - right. split; [done|]. symmetry. apply Z.mod_unique with 1; lia. }
  destruct (Z.ltb_spec volumeSize (add64 off len)); split; intros Hx; try done.
  - exfalso. destruct Hx as (_ & _ & _ & _ & Hx). clear e e0. lia.
  - do 4 (split; [done|]). clear e e0. lia.
Qed.

(** The requests of clients that cannot wrap. *)
Lemma validate_bounds blockSize volumeSize off len :
  0 <= off -> 0 <= len -> off + len < 2 ^ 64 -> u64 volumeSize ->
  validateRange blockSize volumeSize off len = None -> 0 < len /\ off + len <= volumeSize.
Proof.
  intros Ho Hl Hw Hs Hv. unfold in_u in Hs.
  apply validate_spec in Hv as (Hz & _ & _ & Hlt & Hb); unfold in_u; lia.
Qed.

(** ** Handlers step by step *)

Section Steps.
Context {S : Type} `{ServiceMetadata S}.

Lemma try_Ok {A B} (m : act S svc_error A) (k : A -> handler B) s mc s' a :
  m s = (s', Ok a) -> try_ m k (s, mc) = k a (s', mc).
Proof. intros Hm. unfold try_, on_store. cbn. by rewrite Hm. Qed.

Lemma checked_Ok {B} v off len (k : VolumeSpec -> handler B) s mc volume :
  GetVolume v s = (s, Ok volume) ->
  validateRange (vBlockSize volume) (vSizeBytes volume) off len = None ->
  checked v off len k (s, mc) = k volume (s, mc).
Proof.
  intros Hv Hr. unfold checked, VolumeInfo, volumeInfo. erewrite try_Ok by exact Hv.
  unfold guard. by rewrite Hr.
Qed.

Lemma recorded_eq {A} elapsed op bytes (h : handler (S:=S) A) s mc s' mc' r err :
  h (s, mc) = ((s', mc'), (r, err)) ->
  recorded (S:=S) elapsed op bytes h (s, mc) = ((s', Record_ op bytes elapsed err mc'), r).
Proof. intros Hh. unfold recorded. by rewrite Hh. Qed.

(** A read served by the plain [ReadAt] of the repository. *)
Lemma Read_plain (data : DataRepository S) elapsed v off len s mc volume s' b :
  GetVolume v s = (s, Ok volume) ->
  validateRange (vBlockSize volume) (vSizeBytes volume) off len = None ->
  ReadAtResult data = None -> ReadAt data volume off len s = (s', Ok b) ->
  Read data elapsed v off len (s, mc) = ((s', Record_ "read" len elapsed None mc), Ok b).
Proof.
  intros Hv Hr Hn Hb. unfold Read, ReadResult_.
  erewrite bind_act_Ok by (apply recorded_eq; unfold read_handler;
    erewrite checked_Ok by done; rewrite Hn; erewrite try_Ok by exact Hb; reflexivity).
  reflexivity.
Qed.

End Steps.

(** ** Claims *)

Lemma service_block_device (vol : VolumeSpec)
    (planner : option (VolumeSpec -> Z -> Z -> result svc_error PhysicalChunkRef))
    (order : list PhysicalChunkRef -> list PhysicalChunkRef) (elapsed off len : Z) (d : bytes)
    (w : World) (mc : MetricsCollector) :
  geometry vol -> plan_ok vol planner -> Inv vol w ->
  MemMeta.volumes (repo w) !! vID vol = Some vol ->
  budget vol w (WriteRange.alone_cost vol off len) ->
  0 <= off -> 0 <= len -> off + len < 2 ^ 64 ->
  validateRange (vBlockSize vol) (vSizeBytes vol) off len = None -> zlen d = len ->
  protectedWriteRejectionForVolume vol = None ->
  let data := chunk_extent_repository planner order in
  exists w' mc', Write data elapsed (vID vol) off len d (w, mc) = ((w', mc'), Ok tt) /\
    forall o l, 0 <= o -> 0 <= l -> o + l < 2 ^ 64 ->
      validateRange (vBlockSize vol) (vSizeBytes vol) o l = None ->
      exists mc'' out, Read data elapsed (vID vol) o l (w', mc') = ((w', mc''), Ok out) /\
        zlen out = l /\ forall i, 0 <= i < l -> out !! Z.to_nat i =
          Some (if WriteRange.in_range off len (o + i)
                then default Byte.x00 (d !! Z.to_nat (o + i - off)) else byte_at vol w (o + i)).
Proof.
  intros Hg Hplan Hw Hv Hb Hoff Hlen Hwrap Hrange Hd Hprot data.
  pose proof (geo_size vol Hg) as Hsize.
  destruct (validate_bounds (vBlockSize vol) (vSizeBytes vol) off len Hoff Hlen Hwrap ltac:(unfold in_u; lia) Hrange) as [Hpos Hend].
  destruct (WriteRange.WriteAt_alone vol Hg off len d Hoff Hpos Hend Hd planner order Hplan w Hw Hb)
    as (w' & E & Hev & Hbytes).
  pose proof (write_keeps_volumes planner order vol off len d w) as Hvols. rewrite E in Hvols.
  cbn [fst] in Hvols. exists w'. eexists. split.
  { unfold Write. erewrite recorded_eq; [reflexivity|]. unfold write_handler.
    erewrite checked_Ok by (done || by apply get_volume). rewrite Hd, Z.eqb_refl. cbn [negb].
    rewrite Hprot. unfold last. erewrite try_Ok by exact E. reflexivity. }
  intros o l Ho Hl Hol Hor.
  destruct (validate_bounds (vBlockSize vol) (vSizeBytes vol) o l Ho Hl Hol ltac:(unfold in_u; lia) Hor) as [Hlpos Hlend].
  destruct (ReadFacts.ReadAt_filled vol Hg w' (ev_inv _ _ _ _ Hev) o l Ho Hlpos ltac:(lia))
    as (out & Er & Hlenout & Hout).
  do 2 eexists. split.
  { eapply Read_plain; [apply get_volume; by rewrite Hvols|done|done|exact Er]. }
  split; [done|]. intros i Hi. rewrite Hout, Hbytes by lia. done.
Qed.

(** C3: a service on the in-memory gateway is a block device.  A write the range
    check admits, with data of the right length on an unprotected volume,
    succeeds; afterwards every admitted read succeeds and returns exactly the
    written bytes inside the written range and the old bytes outside. *)
Theorem service_reads_see_writes (vol : VolumeSpec)
    (planner : option (VolumeSpec -> Z -> Z -> result svc_error PhysicalChunkRef))
    (order : list PhysicalChunkRef -> list PhysicalChunkRef) (elapsed off len : Z) (d : bytes)
    (w : World) (mc : MetricsCollector) :
  geometry vol -> plan_ok vol planner -> Inv vol w ->
  MemMeta.volumes (repo w) !! vID vol = Some vol ->
  budget vol w (WriteRange.alone_cost vol off len) ->
  0 <= off -> 0 <= len -> off + len < 2 ^ 64 ->
  validateRange (vBlockSize vol) (vSizeBytes vol) off len = None -> zlen d = len ->
  protectedWriteRejectionForVolume vol = None ->
  let data := chunk_extent_repository planner order in
  exists w' mc', Write data elapsed (vID vol) off len d (w, mc) = ((w', mc'), Ok tt) /\
    forall o l, 0 <= o -> 0 <= l -> o + l < 2 ^ 64 ->
      validateRange (vBlockSize vol) (vSizeBytes vol) o l = None ->
      exists mc'' out, Read data elapsed (vID vol) o l (w', mc') = ((w', mc''), Ok out) /\
        zlen out = l /\ forall i, 0 <= i < l -> out !! Z.to_nat i =
          Some (if WriteRange.in_range off len (o + i)
                then default Byte.x00 (d !! Z.to_nat (o + i - off)) else byte_at vol w (o + i)).
Proof. apply service_block_device. Qed.

(** A volume of 40 bytes with blocks of 4, chunks of 8 and pages of 16 bytes. *)
Definition block_volume : VolumeSpec :=
  NormalizeVolumeSpec (zero_VolumeSpec <| vID := 7 |> <| vPrefix := "vol-00000007" |>
    <| vSizeBytes := 40 |> <| vBlockSize := 4 |> <| vChunkSizeBytes := 8 |>
    <| vExtentPageBytes := 16 |>).
Definition block_world : World :=
  mkWorld (MemMeta.NewInMemoryMetadataRepository [block_volume]) NewMemoryStore 1000.

Lemma block_geometry : geometry block_volume.
Proof. split; vm_compute; split; congruence || reflexivity. Qed.

Lemma block_ok : Inv block_volume block_world /\
  forall b, 0 <= b < 2 ^ 62 -> budget block_volume block_world b.
Proof.
  apply fresh_inv; [exact block_geometry|eexists; vm_compute; reflexivity|..];
    vm_compute; reflexivity.
Qed.

Lemma service_reads_see_writes_witness :
  let data := chunk_extent_repository None (fun l => l) in
  exists w' mc', Write data 0 7 4 12 (ones 12) (block_world, NewMetricsCollector) = ((w', mc'), Ok tt) /\
    forall o l, 0 <= o -> 0 <= l -> o + l < 2 ^ 64 -> validateRange 4 40 o l = None ->
      exists mc'' out, Read data 0 7 o l (w', mc') = ((w', mc''), Ok out) /\
        zlen out = l /\ forall i, 0 <= i < l -> out !! Z.to_nat i =
          Some (if WriteRange.in_range 4 12 (o + i)
                then default Byte.x00 (ones 12 !! Z.to_nat (o + i - 4))
                else byte_at block_volume block_world (o + i)).
Proof.
  destruct block_ok as [Hinv Hb].
  refine (service_reads_see_writes block_volume None (fun l => l) 0 4 12 (ones 12) block_world
    NewMetricsCollector block_geometry (default_plan_ok _) Hinv _ (Hb _ _) _ _ _ _ _ _);
    vm_compute; repeat split; congruence.
Defined.

(** C38: the range check.  It admits exactly the non-empty, block-aligned requests
    that start inside the volume and end inside it, where the end is computed
    in 64 bits: a request whose end wraps around 2^64 and lands inside the
    volume is admitted too.  For requests of less than 2^32 bytes, the largest
    a frame can carry, the check is exact on every volume with room below 2^64. *)
Theorem range_check_exact (blockSize volumeSize off len : Z) :
  u64 volumeSize -> u64 off -> u64 len ->
  (validateRange blockSize volumeSize off len = None <->
   len <> 0 /\ off mod block_of blockSize = 0 /\ len mod block_of blockSize = 0 /\ off < volumeSize /\
   (off + len <= volumeSize \/ 2 ^ 64 <= off + len /\ off + len - 2 ^ 64 <= volumeSize)) /\
  (len < 2 ^ 32 -> volumeSize <= 2 ^ 64 - 2 ^ 32 ->
   validateRange blockSize volumeSize off len = None -> off + len <= volumeSize) /\
  validateRange 4096 (2 ^ 20) 4096 (2 ^ 64 - 4096) = None.
Proof.
  intros Hs Ho Hl. split; [by apply validate_spec|]. split; [|vm_compute; reflexivity].
  intros Hl32 Hroom Hv. apply validate_spec in Hv as (_ & _ & _ & Hlt & Hb); [|done..].
  unfold in_u in *. lia.
Qed.

Lemma range_check_exact_witness :
  (validateRange 4096 (2 ^ 20) 8192 4096 = None <->
   4096 <> 0 /\ 8192 mod block_of 4096 = 0 /\ 4096 mod block_of 4096 = 0 /\ 8192 < 2 ^ 20 /\
   (8192 + 4096 <= 2 ^ 20 \/ 2 ^ 64 <= 8192 + 4096 /\ 8192 + 4096 - 2 ^ 64 <= 2 ^ 20)) /\
  (4096 < 2 ^ 32 -> 2 ^ 20 <= 2 ^ 64 - 2 ^ 32 ->
   validateRange 4096 (2 ^ 20) 8192 4096 = None -> 8192 + 4096 <= 2 ^ 20) /\
  validateRange 4096 (2 ^ 20) 4096 (2 ^ 64 - 4096) = None.
Proof.
  refine (range_check_exact 4096 (2 ^ 20) 8192 4096 _ _ _); vm_compute; split; congruence.
Defined.

(** A sealed volume refuses writes.  Whatever the data repository does, a
    write to a volume whose protected state rejects writes changes nothing but
    the metrics and never reports success. *)
Theorem sealed_volume_refuses_writes {S : Type} `{ServiceMetadata S} (data : DataRepository S)
    (elapsed v off len : Z) (d : bytes) (s : S) (mc : MetricsCollector) (volume : VolumeSpec)
    (rejection : ProtectedWriteRejection) :
  GetVolume v s = (s, Ok volume) -> protectedWriteRejectionForVolume volume = Some rejection ->
  exists mc' e, Write data elapsed v off len d (s, mc) = ((s, mc'), Err e).
Proof.
  intros Hv Hp. unfold Write, recorded, write_handler, checked, VolumeInfo, volumeInfo.
  erewrite try_Ok by exact Hv. unfold guard.
  destruct (validateRange _ _ off len) as [e|]; [by do 2 eexists|].
  destruct (negb _); [by do 2 eexists|]. rewrite Hp. by do 2 eexists.
Qed.

Definition sealed_volume : VolumeSpec :=
  block_volume <| vProtectedState :=
    Some (mkVolumeProtectedState VolumeProtectedStateSealed "" "seal-1" "" "" "" "") |>.
Definition sealed_world (w : World) : World :=
  (on_repo (MemMeta.SyncVolumeSpec sealed_volume) w).1.

Lemma sealed_volume_refuses_writes_witness :
  exists mc' e, Write (chunk_extent_repository None (fun l => l)) 0 7 4 12 (ones 12)
    (sealed_world block_world, NewMetricsCollector) = ((sealed_world block_world, mc'), Err e).
Proof.
  refine (sealed_volume_refuses_writes (chunk_extent_repository None (fun l => l)) 0 7 4 12 (ones 12)
    (sealed_world block_world) NewMetricsCollector sealed_volume
    (mkProtectedWriteRejection "00000007" "sealed" "worm_sealed_read_only" "seal-1" "" "") _ _);
    vm_compute; reflexivity.
Defined.

(** C39: the seal does not cover zeroing.  On a sealed volume, where every write is
    refused, a zero request the range check admits succeeds and makes exactly
    its range read as zeroes: only [Write] consults the protected state. *)
Theorem sealed_volume_can_be_zeroed (vol : VolumeSpec) (rejection : ProtectedWriteRejection)
    (planner : option (VolumeSpec -> Z -> Z -> result svc_error PhysicalChunkRef))
    (order : list PhysicalChunkRef -> list PhysicalChunkRef) (elapsed off len : Z)
    (w : World) (mc : MetricsCollector) :
  geometry vol -> plan_ok vol planner -> Inv vol w ->
  MemMeta.volumes (repo w) !! vID vol = Some vol ->
  budget vol w (WriteRange.alone_cost vol off len) ->
  0 <= off -> 0 <= len -> off + len < 2 ^ 64 ->
  validateRange (vBlockSize vol) (vSizeBytes vol) off len = None ->
  protectedWriteRejectionForVolume vol = Some rejection ->
  let data := chunk_extent_repository planner order in
  (exists mc', Write data elapsed (vID vol) off len (zeroes len) (w, mc)
     = ((w, mc'), Err (ErrProtectedWrite rejection))) /\
  exists w' mc', Zero data elapsed (vID vol) off len (w, mc) = ((w', mc'), Ok tt) /\
    forall o, 0 <= o < vSizeBytes vol -> byte_at vol w' o =
      if WriteRange.in_range off len o then Byte.x00 else byte_at vol w o.
Proof.
  intros Hg Hplan Hw Hv Hb Hoff Hlen Hwrap Hrange Hprot data.
  pose proof (geo_size vol Hg) as Hsize.
  destruct (validate_bounds (vBlockSize vol) (vSizeBytes vol) off len Hoff Hlen Hwrap
    ltac:(unfold in_u; lia) Hrange) as [Hpos Hend].
  pose proof (zlen_zeroes len ltac:(lia)) as Hd. split.
  { eexists. unfold Write. erewrite recorded_eq; [reflexivity|]. unfold write_handler.
    erewrite checked_Ok by (done || by apply get_volume). rewrite Hd, Z.eqb_refl. cbn [negb].
    by rewrite Hprot. }
  destruct (WriteRange.WriteAt_alone vol Hg off len (zeroes len) Hoff Hpos Hend Hd planner order
    Hplan w Hw Hb) as (w' & E & _ & Hbytes).
  exists w'. eexists. split.
  { unfold Zero. erewrite recorded_eq; [reflexivity|]. unfold zero_handler.
    erewrite checked_Ok by (done || by apply get_volume). unfold measure, last.
    erewrite try_Ok by exact E. reflexivity. }
  intros o Ho. rewrite Hbytes by done. destruct (WriteRange.in_range off len o) eqn:Hin; [|done].
  unfold zeroes. destruct (replicate _ _ !! _) eqn:Hl; [|done]. by apply lookup_replicate in Hl as [-> _].
Qed.

Lemma sealed_volume_can_be_zeroed_witness :
  let data := chunk_extent_repository None (fun l => l) in
  let w := sealed_world block_world in
  (exists mc', Write data 0 7 4 12 (zeroes 12) (w, NewMetricsCollector)
     = ((w, mc'), Err (ErrProtectedWrite
         (mkProtectedWriteRejection "00000007" "sealed" "worm_sealed_read_only" "seal-1" "" "")))) /\
  exists w' mc', Zero data 0 7 4 12 (w, NewMetricsCollector) = ((w', mc'), Ok tt) /\
    forall o, 0 <= o < 40 -> byte_at sealed_volume w' o =
      if WriteRange.in_range 4 12 o then Byte.x00 else byte_at sealed_volume w o.
Proof.
  assert (geometry sealed_volume) as Hgeo by (split; vm_compute; split; congruence || reflexivity).
  destruct (fresh_inv (sealed_world block_world) sealed_volume Hgeo) as [Hinv Hb];
    [eexists; vm_compute; reflexivity|vm_compute; reflexivity..|].
  refine (sealed_volume_can_be_zeroed sealed_volume
    (mkProtectedWriteRejection "00000007" "sealed" "worm_sealed_read_only" "seal-1" "" "")
    None (fun l => l) 0 4 12 (sealed_world block_world) NewMetricsCollector Hgeo
    (default_plan_ok _) Hinv _ (Hb _ _) _ _ _ _ _); vm_compute; repeat split; congruence.
Defined.

(** The error and call counters of an operation. *)
Definition error_count (op : string) (mc : MetricsCollector) : Z :=
  Errors (default zero_OperationMetrics (byOperation mc !! op)).
Definition call_count (op : string) (mc : MetricsCollector) : Z :=
  Count (default zero_OperationMetrics (byOperation mc !! op)).

Lemma record_counts op bytes elapsed err mc : op <> "" ->
  call_count op (Record_ op bytes elapsed err mc) = add64 (call_count op mc) 1 /\
  error_count op (Record_ op bytes elapsed err mc) =
    if isSome err then add64 (error_count op mc) 1 else error_count op mc.
Proof.
  intros Hop. unfold call_count, error_count, Record_. rewrite (proj2 (String.eqb_neq _ _) Hop).
  cbn. rewrite lookup_insert_eq. by destruct err.
Qed.

(** What the write counters count.  Every write counts as a call.  A write
    the range check refuses, or one the repository fails, counts as an error;
    a write refused because its data has the wrong length, or because the
    volume is sealed, returns an error and is not counted as one. *)
Theorem write_errors_counted {S : Type} `{ServiceMetadata S} (data : DataRepository S)
    (elapsed v off len : Z) (d : bytes) (s : S) (mc : MetricsCollector) (volume : VolumeSpec) :
  GetVolume v s = (s, Ok volume) ->
  exists s' mc' r, Write data elapsed v off len d (s, mc) = ((s', mc'), r) /\
    call_count "write" mc' = add64 (call_count "write" mc) 1 /\
    match validateRange (vBlockSize volume) (vSizeBytes volume) off len with
    | Some e => s' = s /\ r = Err e /\ error_count "write" mc' = add64 (error_count "write" mc) 1
    | None =>
        if negb (zlen d =? len) then
          s' = s /\ r = Err ErrBadDataLength /\ error_count "write" mc' = error_count "write" mc
        else match protectedWriteRejectionForVolume volume with
        | Some rej =>
            s' = s /\ r = Err (ErrProtectedWrite rej) /\
            error_count "write" mc' = error_count "write" mc
        | None =>
            (s', r) = WriteAt data volume off len d s /\
            error_count "write" mc' =
              match r with Err _ => add64 (error_count "write" mc) 1 | _ => error_count "write" mc end
        end
    end.
Proof.
  intros Hv. unfold Write, recorded, write_handler, checked, VolumeInfo, volumeInfo.
  erewrite try_Ok by exact Hv. unfold guard.
  pose proof (fun err => record_counts "write" len elapsed err mc ltac:(done)) as Hc.
  destruct (validateRange _ _ off len) as [e|];
    [destruct (Hc (Some e)); do 3 eexists; split; [reflexivity|done]|].
  destruct (negb (zlen d =? len)); [destruct (Hc None); do 3 eexists; split; [reflexivity|done]|].
  destruct (protectedWriteRejectionForVolume volume) as [rej|];
    [destruct (Hc None); do 3 eexists; split; [reflexivity|done]|].
  unfold last, try_, on_store. cbn [fst snd].
  destruct (WriteAt data volume off len d s) as [s' [[]|e|]]; cbn;
    [destruct (Hc None)|destruct (Hc (Some e))|destruct (Hc None)];
    do 3 eexists; (split; [reflexivity|done]).
Qed.

Lemma write_errors_counted_witness :
  exists s' mc' r, Write (chunk_extent_repository None (fun l => l)) 0 7 4 12 (ones 11)
      (block_world, NewMetricsCollector) = ((s', mc'), r) /\
    call_count "write" mc' = 1 /\
    s' = block_world /\ r = Err ErrBadDataLength /\ error_count "write" mc' = 0.
Proof.
  refine (write_errors_counted (chunk_extent_repository None (fun l => l)) 0 7 4 12 (ones 11)
    block_world NewMetricsCollector block_volume _). vm_compute. reflexivity.
Defined.

(** Renaming a volume orphans its data.  The object keys of a volume contain
    its prefix, and [UpdateVolume] derives a new prefix from a new name while
    it leaves the pages and the stored objects where they are: unless objects
    happen to exist under the new prefix, every chunk of the renamed volume
    reads as zeroes. *)
Theorem rename_orphans_data (w w' : World) (v : Z) (n : string) (vol vol' : VolumeSpec) :
  MemMeta.volumes (repo w) !! v = Some vol ->
  on_repo (MemMeta.UpdateVolume v (zero_VolumeUpdateRequest <| urName := Some n |>)) w = (w', Ok vol') ->
  (forall ref, data (objects w) !! buildPhysicalChunkKey (vPrefix vol') ref = None) ->
  vPrefix vol' = BuildVolumePrefix (TrimSpace n) v /\
  MemMeta.extentPages (repo w') = MemMeta.extentPages (repo w) /\ objects w' = objects w /\
  forall pg lc, (forall e, ChunkMap.findAllocationChunk (pExtents pg) lc = Some e ->
      ePayloadEncryption e = None) ->
    ChunkExtent.readLogicalChunk vol' pg lc w' = (w', Ok (zeroes (ChunkExtent.chunk_size_of vol'))).
Proof.
  intros Hv Hup Hnone. unfold on_repo, MemMeta.UpdateVolume in Hup. rewrite Hv in Hup.
  destruct (MemMeta.updated_spec (repo w) v vol _) as [spec|e|] eqn:Hs; [|done|done].
  injection Hup as <- ->.
  assert (vPrefix vol' = BuildVolumePrefix (TrimSpace n) v) as Hpre.
  { unfold MemMeta.updated_spec in Hs. cbn -[TrimSpace BuildVolumePrefix NormalizeVolumeSpec] in Hs.
    destruct (String.eqb (TrimSpace n) ""); [done|].
    destruct (negb (String.eqb _ "")); [done|]. destruct (MemMeta.name_taken _ _ _); [done|].
    cbn -[NormalizeVolumeSpec] in Hs. by injection Hs as <-. }
  split; [done|]. split; [done|]. split; [done|]. intros pg lc Henc.
  unfold ChunkExtent.readLogicalChunk.
  destruct (ChunkMap.findAllocationChunk (pExtents pg) lc) as [e|]; [|done].
  destruct (String.eqb (eKind e) AllocationChunkKindZero); [done|]. rewrite (Henc e eq_refl).
  cbn [isSome]. unfold ChunkExtent.ReadChunkRef, bind_act. cbn. rewrite Hnone. done.
Qed.

Definition rename_to (n : string) : World -> World * result svc_error VolumeSpec :=
  on_repo (MemMeta.UpdateVolume 7 (zero_VolumeUpdateRequest <| urName := Some n |>)).

Lemma rename_orphans_data_witness :
  let vol' := block_volume <| vName := "b" |> <| vPrefix := "b-00000007" |> in
  let w' := (rename_to "b" block_world).1 in
  vPrefix vol' = BuildVolumePrefix (TrimSpace "b") 7 /\
  MemMeta.extentPages (repo w') = MemMeta.extentPages (repo block_world) /\
  objects w' = objects block_world /\
  forall pg lc, (forall e, ChunkMap.findAllocationChunk (pExtents pg) lc = Some e ->
      ePayloadEncryption e = None) ->
    ChunkExtent.readLogicalChunk vol' pg lc w' = (w', Ok (zeroes (ChunkExtent.chunk_size_of vol'))).
Proof.
  refine (rename_orphans_data block_world (rename_to "b" block_world).1 7 "b" block_volume
    (block_volume <| vName := "b" |> <| vPrefix := "b-00000007" |>) _ _ _);
    [vm_compute; reflexivity..|].
  intros ref. apply lookup_empty.
Defined.

(** A write, a rename and a read: the data is gone. *)
Example renamed_volume_reads_zero :
  let data := chunk_extent_repository None (fun l => l) in
  let '((w, mc), _) := Write data 0 7 4 12 (ones 12) (block_world, NewMetricsCollector) in
  (Read data 0 7 4 12 (w, mc)).2 = Ok (ones 12) /\
  (Read data 0 7 4 12 ((rename_to "b" w).1, mc)).2 = Ok (zeroes 12).
Proof. vm_compute. by split. Qed.

End ServiceFacts.
