(* ===== verification/HandoffFacts.v ===== *)
(** * Handoff and reconcile gate: what they guarantee

    Properties of Handoff.v and of the attach handler of Service.v: which
    gateways a handoff admits, that it takes the stabilization delay, that no
    change is lost by the reconcile gate and that it cannot stay closed. *)

From Stdlib Require Import ZArith Lia Ascii String.
From stdpp Require Import base list gmap strings.
From S2P Require Import Prelude GatewayTypes Handoff Metrics Service MemoryMetadata MemoryWorld ServiceFacts.
Open Scope string_scope.
Open Scope Z_scope.

Module HandoffFacts.
Import Gateway Handoff Metrics Service ServiceFacts MemoryWorld.

(** ** Stages *)

(** The writer has moved: a target gateway holds the current attachment. *)
Definition target_attached (st : VolumeStatusRecord) : bool :=
  negb (String.eqb (sCurrentGatewayID st) "")
  && containsGatewayID (sHandoffTargetGatewaySet st) (sCurrentGatewayID st)
  && negb (sAttachmentGeneration st =? 0).

Lemma allowed_iff st g : sHandoffRequired st = true ->
  gatewayAllowedDuringHandoff st g =
  if target_attached st then String.eqb (sCurrentGatewayID st) g
  else containsGatewayID (sHandoffTargetGatewaySet st) g.
Proof.
  intros Hreq. unfold gatewayAllowedDuringHandoff, handoffStage, target_attached. rewrite Hreq.
  destruct (String.eqb (sCurrentGatewayID st) ""); [reflexivity|].
  destruct (containsGatewayID _ (sCurrentGatewayID st)); [|reflexivity].
  destruct (sAttachmentGeneration st =? 0); [reflexivity|]. cbn [negb orb andb].
  destruct (negb (handoffAcknowledged st)); [reflexivity|].
  destruct ((sPathPlanRevision st =? 0) || _); [reflexivity|]. destruct (sRuntimePathNeedsAttention st); reflexivity.
Qed.

Lemma contains_elem l g : containsGatewayID l g = true <-> g ∈ l.
Proof.
  unfold containsGatewayID. rewrite existsb_exists. split.
  - intros (x & Hx & ->%String.eqb_eq). by apply list_elem_of_In.
  - intros Hg. exists g. split; [by apply list_elem_of_In|]. by apply String.eqb_eq.
Qed.

(** C36: a handoff fences writers.  While a handoff is pending only its target
    gateways may attach; from the moment a target holds the attachment no other
    gateway may, so two gateways are never both admitted; and an attach by a
    gateway that is not admitted is refused with [ErrWriterFenced] before
    anything is written. *)
Theorem handoff_fences_writers {S : Type} `{ServiceMetadata S} (data : DataRepository S)
    (gatewayID host : string) (now : nat -> Z) (elapsed v dev : Z) (s : S) (mc : MetricsCollector)
    (volume : VolumeSpec) (st : VolumeStatusRecord) :
  sHandoffRequired st = true ->
  (forall g, gatewayAllowedDuringHandoff st g = true -> g ∈ sHandoffTargetGatewaySet st) /\
  (target_attached st = true -> forall g1 g2, gatewayAllowedDuringHandoff st g1 = true ->
     gatewayAllowedDuringHandoff st g2 = true -> g1 = g2) /\
  (host <> "" -> GetVolume v s = (s, Ok volume) -> vState volume <> VolumeStateDisabled ->
   GetVolumeStatus v s = (s, Ok st) -> gatewayAllowedDuringHandoff st gatewayID = false ->
   exists mc', AttachContext gatewayID now elapsed v host dev (s, mc)
     = ((s, mc'), Err ErrWriterFenced)).
Proof.
  intros Hreq. split; [|split].
  - intros g. rewrite allowed_iff by done. unfold target_attached. intros Hg.
    apply contains_elem. destruct (negb (String.eqb (sCurrentGatewayID st) "")); [|done].
    destruct (containsGatewayID _ (sCurrentGatewayID st)) eqn:Hc; [|done].
    cbn [andb] in Hg. destruct (negb _); [|done]. apply String.eqb_eq in Hg. by subst.
  - intros Ht g1 g2. rewrite !allowed_iff, Ht by done. intros ->%String.eqb_eq. by intros ->%String.eqb_eq.
  - intros Hh Hv Hs Hst Hna. eexists. unfold AttachContext. erewrite recorded_eq; [reflexivity|].
    unfold attach_handler, volumeInfo. rewrite (proj2 (String.eqb_neq _ _) Hh).
    erewrite try_Ok by exact Hv. rewrite (proj2 (String.eqb_neq _ _) Hs).
    erewrite try_Ok by exact Hst. by rewrite Hreq, Hna.
Qed.

Definition moving_status : VolumeStatusRecord :=
  zero_VolumeStatusRecord <| sVolumeID := 7 |> <| sHandoffRequired := true |>
    <| sCurrentGatewayID := "gw-old" |> <| sAttachmentGeneration := 3 |>
    <| sHandoffTargetGatewaySet := ["gw-a"; "gw-b"] |>.
Definition moving_world : World := (on_repo (MemMeta.PutVolumeStatus moving_status) block_world).1.

Lemma handoff_fences_writers_witness :
  (forall g, gatewayAllowedDuringHandoff moving_status g = true -> g ∈ ["gw-a"; "gw-b"]) /\
  (target_attached moving_status = true -> forall g1 g2,
     gatewayAllowedDuringHandoff moving_status g1 = true ->
     gatewayAllowedDuringHandoff moving_status g2 = true -> g1 = g2) /\
  (exists mc', AttachContext "gw-old" (fun _ => 100) 0 7 "host" 1 (moving_world, NewMetricsCollector)
     = ((moving_world, mc'), Err ErrWriterFenced)).
Proof.
  destruct (handoff_fences_writers (chunk_extent_repository None (fun l => l)) "gw-old" "host"
    (fun _ => 100) 0 7 1 moving_world NewMetricsCollector block_volume moving_status eq_refl)
    as (Ha & Hb & Hc).
  split; [exact Ha|]. split; [exact Hb|].
  apply Hc; vm_compute; reflexivity || congruence.
Defined.

(** ** Completing a handoff *)

(** An attach by a gateway, with its two readings of the clock. *)
Record attach_at := mkAttachAt { by_gateway : string; read1 : Z; read2 : Z }.

Definition clock_of (a : attach_at) (i : nat) : Z := match i with O => read1 a | _ => read2 a end.

(** The status record after an attach that consumes the handoff. *)
Definition attached (st : VolumeStatusRecord) (a : attach_at) : VolumeStatusRecord :=
  handoff_status (by_gateway a) (clock_of a) st.

(** The gateway [g] has the attachment, and its runtime follows the path plan. *)
Record settled (g : string) (st : VolumeStatusRecord) : Prop := {
  settled_required : sHandoffRequired st = true;
  settled_current : sCurrentGatewayID st = g /\ g <> "";
  settled_target : g ∈ sHandoffTargetGatewaySet st;
  settled_generation : 0 < sAttachmentGeneration st;
  settled_plan : 0 < sPathPlanRevision st <= sRuntimeAppliedPathPlanRevision st;
  settled_calm : sRuntimePathNeedsAttention st = false }.

(** The acknowledgement an attach writes first. *)
Definition acked (g : string) (t : Z) (st : VolumeStatusRecord) : VolumeStatusRecord :=
  if String.eqb (sCurrentGatewayID st) g && (0 <? sAttachmentGeneration st)
  then st <| sHandoffAckedAtUnix := t |> <| sHandoffAckedGeneration := sAttachmentGeneration st |>
  else st.

Lemma settled_ready g t st : settled g st -> 0 < t -> handoffStage (acked g t st) = "ready_to_complete".
Proof.
  intros [Hr [Hc Hne] Ht Hg Hp Hn] Hpos. unfold acked. rewrite Hc, String.eqb_refl.
  destruct (Z.ltb_spec 0 (sAttachmentGeneration st)); [|lia]. cbn [andb].
  unfold handoffStage, handoffAcknowledged, runtimePathPlanConverged.
  cbn -[containsGatewayID].
  rewrite Hr, Hc, (proj2 (String.eqb_neq _ _) Hne), (proj2 (contains_elem _ _) Ht), Hn.
  cbn [negb orb].
  rewrite (proj2 (Z.eqb_neq (sAttachmentGeneration st) 0)), (proj2 (Z.ltb_lt 0 t)), Z.eqb_refl,
    (proj2 (Z.eqb_neq (sPathPlanRevision st) 0)), (proj2 (Z.ltb_lt 0 (sPathPlanRevision st))),
    (proj2 (Z.leb_le (sPathPlanRevision st) _)) by lia. reflexivity.
Qed.

(** What [updateHandoffCompletionEligibility] makes of the eligibility time. *)
Lemma eligibility_cases st t : sHandoffRequired st = true ->
  let st' := updateHandoffCompletionEligibility st t in
  let e := sHandoffCompletionEligibleAtUnix st in let e' := sHandoffCompletionEligibleAtUnix st' in
  sHandoffRequired st' = true /\
  (e' = 0 \/ e' = e \/ e = 0 /\ e' = add_i64 t handoffCompletionStabilizationDelay).
Proof.
  intros Hr. cbv zeta. unfold updateHandoffCompletionEligibility. rewrite Hr. cbn [negb].
  destruct (String.eqb (handoffStage st) _); [|split; [exact Hr|left; reflexivity]].
  destruct (Z.eqb_spec (sHandoffCompletionEligibleAtUnix st) 0) as [->|]; split; try exact Hr;
    [right; right; split; reflexivity|right; left; reflexivity].
Qed.

(** A settled handoff becomes eligible at the next attach of its gateway. *)
Lemma attach_ready g st a : settled g st -> by_gateway a = g -> 0 < read1 a ->
  sHandoffCompletionEligibleAtUnix st = 0 ->
  settled g (attached st a) /\ sHandoffStage (attached st a) = "ready_to_complete" /\
  sHandoffCompletionEligibleAtUnix (attached st a)
  = add_i64 (read1 a) handoffCompletionStabilizationDelay.
Proof.
  intros Hs <- Hpos He. pose proof (settled_ready _ _ _ Hs Hpos) as Hrdy.
  unfold attached, handoff_status. cbn [clock_of].
  fold (acked (by_gateway a) (read1 a) st). revert Hrdy.
  assert (settled (by_gateway a) (acked (by_gateway a) (read1 a) st) /\
    sHandoffCompletionEligibleAtUnix (acked (by_gateway a) (read1 a) st) = 0) as [Hs1 He1].
  { unfold acked. destruct (_ && _); [|done]. split; [|done]. by destruct Hs; split. }
  generalize dependent (acked (by_gateway a) (read1 a) st). intros st1 Hs1 He1 Hrdy.
  unfold handoffCompletionSatisfied. rewrite He1, (settled_required _ _ Hs1). cbn [negb].
  rewrite Hrdy. cbn [Z.ltb Z.compare andb]. rewrite andb_false_r.
  unfold updateHandoffCompletionEligibility.
  set (st2 := st1 <| sHandoffStage := "ready_to_complete" |>).
  change (sHandoffRequired st2) with (sHandoffRequired st1).
  change (handoffStage st2) with (handoffStage st1).
  change (sHandoffCompletionEligibleAtUnix st2) with (sHandoffCompletionEligibleAtUnix st1).
  rewrite (settled_required _ _ Hs1), Hrdy, He1. cbn [negb String.eqb Ascii.eqb Bool.eqb Z.eqb].
  split; [by destruct Hs1; split|]. split; reflexivity.
Qed.

(** An eligible settled handoff completes at an attach of its gateway. *)
Lemma attach_completes g st b : settled g st -> by_gateway b = g -> 0 < read1 b ->
  0 < sHandoffCompletionEligibleAtUnix st -> sHandoffCompletionEligibleAtUnix st <= read2 b ->
  sHandoffRequired (attached st b) = false /\ sHandoffTargetGatewaySet (attached st b) = [].
Proof.
  intros Hs <- Hpos He Hle. pose proof (settled_ready _ _ _ Hs Hpos) as Hrdy.
  unfold attached, handoff_status. cbn [clock_of]. fold (acked (by_gateway b) (read1 b) st).
  assert (handoffCompletionSatisfied (read2 b) (acked (by_gateway b) (read1 b) st) = true) as ->;
    [|by split].
  unfold handoffCompletionSatisfied. rewrite Hrdy.
  assert (sHandoffRequired (acked (by_gateway b) (read1 b) st) = sHandoffRequired st /\
    sHandoffCompletionEligibleAtUnix (acked (by_gateway b) (read1 b) st)
    = sHandoffCompletionEligibleAtUnix st) as [-> ->] by (unfold acked; by destruct (_ && _)).
  rewrite (settled_required _ _ Hs). cbn [negb]. rewrite String.eqb_refl. lia.
Qed.

(** An attach either completes the handoff, which it may only do once the
    eligibility time has passed, or leaves it pending with an eligibility time
    of zero, the old one, or one that lies the delay after its first reading. *)
Lemma attached_cases st a : sHandoffRequired st = true ->
  let e := sHandoffCompletionEligibleAtUnix st in let e' := sHandoffCompletionEligibleAtUnix (attached st a) in
  sHandoffRequired (attached st a) = false /\ 0 < e <= read2 a \/
  sHandoffRequired (attached st a) = true /\ (e' = 0 \/ e' = e \/
    e = 0 /\ e' = add_i64 (read1 a) handoffCompletionStabilizationDelay).
Proof.
  intros Hr e e'. unfold attached, handoff_status in *. cbn [clock_of] in *.
  fold (acked (by_gateway a) (read1 a) st) in *.
  assert (sHandoffRequired (acked (by_gateway a) (read1 a) st) = true /\
    sHandoffCompletionEligibleAtUnix (acked (by_gateway a) (read1 a) st) = e) as [Hr1 He1].
  { unfold acked. by destruct (_ && _). }
  subst e'. generalize dependent (acked (by_gateway a) (read1 a) st). intros st1 Hr1 He1.
  destruct (handoffCompletionSatisfied (read2 a) st1) eqn:Hsat.
  { left. split; [reflexivity|]. unfold handoffCompletionSatisfied in Hsat. rewrite Hr1 in Hsat.
    cbn [negb] in Hsat. rewrite He1 in Hsat. lia. }
  right. set (st2 := st1 <| sHandoffStage := handoffStage st1 |>).
  destruct (eligibility_cases st2 (read1 a)) as [Hr3 He3]; [exact Hr1|].
  change (sHandoffCompletionEligibleAtUnix st2) with (sHandoffCompletionEligibleAtUnix st1) in He3.
  rewrite He1 in He3. clearbody st2.
  destruct (String.eqb _ "ready_to_complete"); (split; [exact Hr3|exact He3]).
Qed.

Lemma required_pending st attaches (t0 : Z) :
  0 <= t0 < 2 ^ 62 -> sHandoffRequired st = true ->
  let e := sHandoffCompletionEligibleAtUnix st in
  e = 0 \/ t0 + handoffCompletionStabilizationDelay <= e ->
  Forall (fun a => t0 <= read1 a /\ 0 <= read2 a < t0 + handoffCompletionStabilizationDelay /\
                   read1 a <= read2 a) attaches ->
  sHandoffRequired (fold_left attached attaches st) = true.
Proof.
  intros Ht. revert st. unfold handoffCompletionStabilizationDelay.
  induction attaches as [|a l IH]; intros st Hr He Hall; [done|].
  apply Forall_cons in Hall as [(Ha & Hb & Hc) Hall]. cbn [fold_left].
  destruct (attached_cases st a Hr) as [[_ Hbad]|[Hr' He']]; [lia|].
  apply IH; [done| |done]. revert He'. unfold handoffCompletionStabilizationDelay.
  rewrite add_i64_small by lia. lia.
Qed.

(** C37: a handoff takes the stabilization delay, and no longer.  While no attach
    reads a clock five or more seconds past the start, no sequence of attaches
    completes a handoff that was not yet eligible.  And once the target gateway
    has the attachment and its runtime follows the path plan, an attach makes
    the handoff eligible and the next attach at least five seconds later
    completes it and clears its fields. *)
Theorem handoff_stabilizes (st : VolumeStatusRecord) (attaches : list attach_at) (t0 : Z)
    (g : string) (a b : attach_at) :
  0 <= t0 < 2 ^ 62 -> sHandoffRequired st = true -> sHandoffCompletionEligibleAtUnix st = 0 ->
  (Forall (fun a => t0 <= read1 a /\ 0 <= read2 a < t0 + handoffCompletionStabilizationDelay /\
                   read1 a <= read2 a) attaches ->
   sHandoffRequired (fold_left attached attaches st) = true) /\
  (settled g st -> by_gateway a = g -> by_gateway b = g -> 0 < read1 a < 2 ^ 62 -> 0 < read1 b ->
   read1 a + handoffCompletionStabilizationDelay <= read2 b ->
   let st1 := attached st a in let st2 := attached st1 b in
   sHandoffRequired st1 = true /\ sHandoffStage st1 = "ready_to_complete" /\
   sHandoffRequired st2 = false /\ sHandoffTargetGatewaySet st2 = []).
Proof.
  intros Ht Hr He. split; [intros Hall; eapply required_pending; eauto|].
  intros Hs Ha Hb Hpa Hpb Hlate st1 st2.
  destruct (attach_ready g st a Hs Ha ltac:(lia) He) as (Hs1 & Hst1 & He1).
  fold st1 in Hs1, Hst1, He1. split; [apply Hs1|]. split; [done|].
  apply (attach_completes g st1 b Hs1 Hb Hpb); rewrite He1; [|].
  - rewrite add_i64_small; unfold handoffCompletionStabilizationDelay in *; lia.
  - rewrite add_i64_small; unfold handoffCompletionStabilizationDelay in *; lia.
Qed.

Definition settled_status : VolumeStatusRecord :=
  moving_status <| sCurrentGatewayID := "gw-a" |> <| sPathPlanRevision := 2 |>
    <| sRuntimeAppliedPathPlanRevision := 2 |>.

Lemma handoff_stabilizes_witness :
  let early := [mkAttachAt "gw-a" 100 100; mkAttachAt "gw-b" 101 103] in
  let st1 := attached settled_status (mkAttachAt "gw-a" 100 100) in
  let st2 := attached st1 (mkAttachAt "gw-a" 105 105) in
  sHandoffRequired (fold_left attached early settled_status) = true /\
  sHandoffRequired st1 = true /\ sHandoffStage st1 = "ready_to_complete" /\
  sHandoffRequired st2 = false /\ sHandoffTargetGatewaySet st2 = [].
Proof.
  destruct (handoff_stabilizes settled_status
    [mkAttachAt "gw-a" 100 100; mkAttachAt "gw-b" 101 103] 100 "gw-a" (mkAttachAt "gw-a" 100 100)
    (mkAttachAt "gw-a" 105 105)) as [Ha Hb]; [lia|reflexivity..|].
  split; [apply Ha; repeat constructor; vm_compute; congruence|].
  apply Hb; try reflexivity; try (vm_compute; congruence); [|vm_compute; split; congruence].
  split; try (vm_compute; repeat split; congruence). by left.
Defined.

End HandoffFacts.

(** * The reconcile gate *)

Module ReconcileGateFacts.
Import ReconcileGate.

(** What happens to a gate: the watch is attached or lost, a change is
    observed, or a tick asks whether to scan. *)
Inductive event := WatchAttached | WatchLost | Changed | Tick.

Definition step (g : ReconcileGate) (e : event) : ReconcileGate * list bool :=
  match e with
  | WatchAttached => (AttachWatch g, [])
  | WatchLost => (DetachWatch g, [])
  | Changed => (MarkChanged g, [])
  | Tick => let '(g, b) := ShouldScan g in (g, [b])
  end.

(** The gate after a sequence of events, with the answers to its ticks. *)
Fixpoint run (g : ReconcileGate) (es : list event) : ReconcileGate * list bool :=
  match es with
  | [] => (g, [])
  | e :: es => let '(g, a) := step g e in let '(g, b) := run g es in (g, (a ++ b)%list)
  end.

Lemma run_app g es es' :
  run g (es ++ es') = let '(g1, a) := run g es in let '(g2, b) := run g1 es' in (g2, (a ++ b)%list).
Proof.
  revert g. induction es as [|e es IH]; intros g; cbn.
  { by destruct (run g es'). }
  destruct (step g e) as [g1 a]. rewrite IH. destruct (run g1 es) as [g2 b].
  destruct (run g2 es') as [g3 c]. by rewrite app_assoc.
Qed.

(** Due: the next tick will scan. *)
Definition due (g : ReconcileGate) : bool := negb (watching g) || dirty g.

Lemma due_scans g : due g = true -> (ShouldScan g).2 = true.
Proof. unfold due, ShouldScan. destruct (watching g); [|done]. cbn. by intros ->. Qed.

(** The first tick after a change is observed sees it, whatever watch events
    happen in between. *)
Lemma dirty_first_tick es : forall g, dirty g = true ->
  match (run g es).2 with [] => dirty (run g es).1 = true | b :: _ => b = true end.
Proof.
  induction es as [|e es IH]; intros g Hd; [done|]. cbn [run].
  destruct e; cbn [step].
  4:{ pose proof (due_scans g) as Hs. unfold due in Hs. rewrite Hd, orb_true_r in Hs.
      destruct (ShouldScan g) as [g1 b]. destruct (run g1 es). cbn in *. by apply Hs. }
  1: specialize (IH (AttachWatch g) Hd). 2: specialize (IH (DetachWatch g) eq_refl).
  3: specialize (IH (MarkChanged g) eq_refl).
  all: destruct (run _ es); exact IH.
Qed.

(** No change is lost.  From any gate, after any events, a change that is
    observed or a watch that is lost makes the next tick scan, however the
    watch events that follow are ordered. *)
Theorem gate_never_loses_change (g : ReconcileGate) (before after : list event) (e : event) :
  e = Changed \/ e = WatchLost ->
  match (run (step (run g before).1 e).1 after).2 with [] => True | b :: _ => b = true end.
Proof.
  intros He. pose proof (dirty_first_tick after (step (run g before).1 e).1) as Ht.
  destruct (run (step (run g before).1 e).1 after).2; [done|]. apply Ht.
  by destruct He as [->| ->].
Qed.

Lemma gate_never_loses_change_witness :
  match (run (step (run NewReconcileGate [WatchAttached; Tick; Tick]).1 Changed).1
          [WatchAttached; Tick; Tick]).2 with [] => True | b :: _ => b = true end.
Proof.
  refine (gate_never_loses_change NewReconcileGate [WatchAttached; Tick; Tick]
    [WatchAttached; Tick; Tick] Changed _). by left.
Defined.

(** The number of skips since the last scan is counted. *)
Record counting (m : Z) (g : ReconcileGate) : Prop := {
  counting_max : maxSkips g = m;
  counting_range : 0 <= consecutiveSkip g < m }.

Lemma step_counting m g e : 0 < m < 2 ^ 62 -> counting m g ->
  counting m (step g e).1 /\
  match (step g e).2 with
  | [] => consecutiveSkip (step g e).1 = consecutiveSkip g
  | b :: _ => b = false -> consecutiveSkip (step g e).1 = consecutiveSkip g + 1
  end.
Proof.
  intros Hm [Hmax Hr]. destruct e; cbn [step]; try by split; [split|].
  unfold ShouldScan. destruct (watching g); [|split; [split; [done|cbn; lia]|done]].
  cbn [negb]. destruct (dirty g); [split; [split; [done|cbn; lia]|done]|].
  cbn -[add_i64]. rewrite Hmax, (add_i64_small (consecutiveSkip g) 1) by lia.
  destruct (Z.ltb_spec 0 m); [|lia].
  destruct (Z.leb_spec m (consecutiveSkip g + 1)); cbn -[add_i64];
    (split; [split; [done|cbn; lia]|done]).
Qed.

Lemma skips_bounded m es : 0 < m < 2 ^ 62 -> forall g, counting m g ->
  Forall (fun b => b = false) (run g es).2 -> consecutiveSkip g + zlen (run g es).2 < m.
Proof.
  intros Hm. induction es as [|e es IH]; intros g Hg; [intros _; unfold zlen; cbn; destruct Hg; lia|].
  cbn [run]. destruct (step_counting m g e Hm Hg) as [Hg1 Hs].
  destruct (step g e) as [g1 a] eqn:Ea. cbn [fst snd] in *. specialize (IH g1 Hg1).
  destruct (run g1 es) as [g2 b]. cbn [snd] in *. intros Hall.
  apply Forall_app in Hall as [Ha Hb]. specialize (IH Hb). unfold zlen in *.
  rewrite length_app. destruct e; cbn [step] in Ea; 
    try (assert (a = []) as -> by congruence; cbn [length] in *; lia).
  destruct (ShouldScan g) as [g' c]. injection Ea as <- <-. apply Forall_cons in Ha as [-> _].
  cbn [length] in *. specialize (Hs eq_refl). lia.
Qed.

Lemma new_gate_counting m es : 0 < m < 2 ^ 62 -> counting m (run (NewReconcileGateWithFloor m) es).1.
Proof.
  intros Hm. assert (counting m (NewReconcileGateWithFloor m)) as Hg by (split; [done|cbn; lia]).
  revert Hg. generalize (NewReconcileGateWithFloor m). induction es as [|e es IH]; intros g Hg; [done|].
  cbn [run]. destruct (step_counting m g e Hm Hg) as [Hg1 _]. destruct (step g e) as [g1 a].
  specialize (IH g1 Hg1). by destruct (run g1 es).
Qed.

(** The gate cannot stay closed.  On a gate with a floor of [m] skips, any
    [m] ticks in a row, at any point of its life and with any events in
    between, contain one that scans: a change whose notification never arrived
    is found after at most [m] ticks. *)
Theorem gate_wakes_up (m : Z) (before es : list event) :
  0 < m < 2 ^ 62 ->
  m <= zlen (run (run (NewReconcileGateWithFloor m) before).1 es).2 ->
  true ∈ (run (run (NewReconcileGateWithFloor m) before).1 es).2.
Proof.
  intros Hm Hlen. pose proof (new_gate_counting m before Hm) as Hg.
  destruct (decide (true ∈ (run (run (NewReconcileGateWithFloor m) before).1 es).2)) as [|Hno]; [done|].
  pose proof (skips_bounded m es Hm _ Hg) as Hb. destruct Hg as [_ Hr].
  assert (Forall (fun b => b = false) (run (run (NewReconcileGateWithFloor m) before).1 es).2) as Hall.
  { apply Forall_forall. intros [|] Hx; [destruct Hno; exact Hx|done]. }
  specialize (Hb Hall). lia.
Qed.

Lemma gate_wakes_up_witness :
  true ∈ (run (run (NewReconcileGateWithFloor 3) [WatchAttached; Tick]).1 [Tick; Tick; Tick]).2.
Proof. refine (gate_wakes_up 3 [WatchAttached; Tick] [Tick; Tick; Tick] _ _); vm_compute; repeat split; congruence. Defined.

End ReconcileGateFacts.
