(* ===== verification/Placement.v ===== *)
(** * Initial placement of a replicated volume

    Models src/sbs/cluster/placement/policy.go: the rf-spread-v1 policy that
    cuts a volume into extents and chooses the nodes of each replica set.

    [sort.Slice] by zone and node id has no ties between different candidates,
    so it is [merge_sort] on that order.  The loop over extents runs on fuel;
    [PlanInitialLayout] gives it one step per extent, and running out would be
    a [Panic], which the theorems exclude. *)

From Stdlib Require Import ZArith Lia Ascii String.
From stdpp Require Import base list gmap strings sorting.
From S2P Require Import Prelude GoStrings.
Open Scope string_scope.
Open Scope Z_scope.

Module Placement.

Definition DefaultExtentSizeBytes : Z := 64 * 2 ^ 20.
Definition TopologyModeLegacy : string := "legacy".
Definition TopologyModePrefer : string := "prefer".
Definition TopologyModeStrict : string := "strict".

Record CandidateNode := mkCandidate { cNodeID : string; cZone : string }.

#[export] Instance CandidateNode_eq_dec : EqDecision CandidateNode.
Proof. solve_decision. Defined.

Record ReplicaPlan := mkReplicaPlan {
  rpNodeID : string; rpReplicaID : string; rpFailureDomain : string; rpPrimary : bool }.

Record ReplicaSetPlan := mkReplicaSetPlan {
  rsPlacementRef : string; rsReplicaSetID : string; rsPrimaryReplicaID : string;
  rsReplicas : list ReplicaPlan; rsWriteQuorum : Z; rsReadQuorum : Z }.

Record ExtentPlan := mkExtentPlan {
  xExtentID : Z; xLogicalOffset : Z; xLengthBytes : Z; xChunkID : Z; xReplicaSet : ReplicaSetPlan }.

Record InitialLayout := mkInitialLayout {
  ilExtentSizeBytes : Z; ilExtents : list ExtentPlan }.

Record InitialLayoutRequest := mkLayoutRequest {
  irVolumeID : string; irSizeBytes : Z; irExtentSizeBytes : Z; irReplicationFactor : Z;
  irCandidates : list CandidateNode; irTopologyMode : string }.

Inductive plan_error :=
| VolumeIDRequired | SizeBytesRequired | ReplicationFactorRequired
| NeedCandidates (want : Z)
| InsufficientCandidates (have want : Z)
| StrictTopology (want selected : Z)
| CouldNotSelect (want : Z).

Definition normalizeTopologyMode (raw : string) : string :=
  if String.eqb raw TopologyModeStrict then TopologyModeStrict else
  if String.eqb raw TopologyModePrefer then TopologyModePrefer else TopologyModeLegacy.

Definition failureDomain (node : CandidateNode) : string :=
  if negb (String.eqb (cZone node) "") then cZone node else cNodeID node.

(** ** Choosing the replicas of one extent *)

(** [candidates[(rotation+i)%len(candidates)]] for [n] indices from [i] on. *)
Fixpoint rotate_loop (n : nat) (i : Z) (candidates : list CandidateNode) (rotation : Z)
  : result plan_error (list CandidateNode) :=
  match n with
  | O => Ok []
  | S n =>
      let index := Z.rem (add_i64 rotation i) (zlen candidates) in
      if index <? 0 then Panic else
      match candidates !! Z.to_nat index with
      | None => Panic
      | Some c => rest ← rotate_loop n (i + 1) candidates rotation; Ok (c :: rest)
      end
  end.

(** The pass that takes at most one candidate per zone. *)
Fixpoint spread_loop (rotated : list CandidateNode) (want : Z) (usedZones : gset string)
    (selected : list CandidateNode) : list CandidateNode :=
  match rotated with
  | [] => selected
  | candidate :: rotated =>
      if zlen selected =? want then selected else
      if negb (String.eqb (cZone candidate) "") then
        if decide (cZone candidate ∈ usedZones) then spread_loop rotated want usedZones selected
        else spread_loop rotated want ({[cZone candidate]} ∪ usedZones) (selected ++ [candidate])
      else spread_loop rotated want usedZones (selected ++ [candidate])
  end.

(** The pass that takes any candidate whose node is not yet selected. *)
Fixpoint fill_loop (rotated : list CandidateNode) (want : Z) (selected : list CandidateNode)
  : list CandidateNode :=
  match rotated with
  | [] => selected
  | candidate :: rotated =>
      if zlen selected =? want then selected else
      let duplicate :=
        existsb (fun existing => String.eqb (cNodeID existing) (cNodeID candidate)) selected in
      fill_loop rotated want (if negb duplicate then (selected ++ [candidate])%list else selected)
  end.

Definition selectReplicas (candidates : list CandidateNode) (want rotation : Z)
    (topologyMode : string) : result plan_error (list CandidateNode) :=
  if zlen candidates <? want then Err (InsufficientCandidates (zlen candidates) want) else
  rotated ← rotate_loop (length candidates) 0 candidates rotation;
  selected ←
    (if negb (String.eqb (normalizeTopologyMode topologyMode) TopologyModeLegacy) then
       let selected := spread_loop rotated want ∅ [] in
       if String.eqb (normalizeTopologyMode topologyMode) TopologyModeStrict
          && negb (zlen selected =? want)
       then Err (StrictTopology want (zlen selected)) else Ok selected
     else Ok []);
  let selected := fill_loop rotated want selected in
  if negb (zlen selected =? want) then Err (CouldNotSelect want) else Ok selected.

(** ** The layout *)

(** [%0nd]. *)
Definition format_0d (n : nat) (v : Z) : string :=
  string_of_list_ascii (pad_left n (chr 48) (dec_chars v)).

Definition replica_id (volumeID : string) (extentID i : Z) : string :=
  volumeID ++ "-e" ++ format_0d 6 extentID ++ "-r" ++ format_0d 2 (i + 1).

Fixpoint replica_plans (volumeID : string) (extentID i : Z) (selected : list CandidateNode)
  : list ReplicaPlan :=
  match selected with
  | [] => []
  | node :: selected =>
      mkReplicaPlan (cNodeID node) (replica_id volumeID extentID i) (failureDomain node) (i =? 0)
      :: replica_plans volumeID extentID (i + 1) selected
  end.

Definition extent_plan (volumeID : string) (extentID offset length : Z)
    (selected : list CandidateNode) : ExtentPlan :=
  let replicas := replica_plans volumeID extentID 0 selected in
  mkExtentPlan extentID offset length extentID
    (mkReplicaSetPlan ("pl-" ++ format_0d 6 extentID) ("rs-" ++ format_0d 6 extentID)
       (match replicas with [] => "" | r :: _ => rpReplicaID r end) replicas
       (wrap32 (wrap32 (zlen replicas / 2) + 1)) 1).

Fixpoint layout_loop (fuel : nat) (req : InitialLayoutRequest) (candidates : list CandidateNode)
    (extentSize offset extentID : Z) : result plan_error (list ExtentPlan) :=
  if offset <? irSizeBytes req then
    match fuel with
    | O => Panic
    | S fuel =>
        let remaining := sub64 (irSizeBytes req) offset in
        let length := if remaining <? extentSize then remaining else extentSize in
        selected ← selectReplicas candidates (irReplicationFactor req)
                     (int64_of (sub64 extentID 1)) (irTopologyMode req);
        rest ← layout_loop fuel req candidates extentSize (add64 offset length) (add64 extentID 1);
        Ok (extent_plan (irVolumeID req) extentID offset length selected :: rest)
    end
  else Ok [].

Definition candidate_le (a b : CandidateNode) : Prop :=
  if String.eqb (cZone a) (cZone b) then String.le (cNodeID a) (cNodeID b)
  else String.ltb (cZone a) (cZone b) = true.

#[export] Instance candidate_le_dec : RelDecision candidate_le.
Proof. intros a b. unfold candidate_le. destruct (String.eqb _ _); apply _. Defined.

Definition PlanInitialLayout (req : InitialLayoutRequest) : result plan_error InitialLayout :=
  if String.eqb (irVolumeID req) "" then Err VolumeIDRequired else
  if irSizeBytes req =? 0 then Err SizeBytesRequired else
  if irReplicationFactor req =? 0 then Err ReplicationFactorRequired else
  if zlen (irCandidates req) <? irReplicationFactor req
  then Err (NeedCandidates (irReplicationFactor req)) else
  let extentSize := if irExtentSizeBytes req =? 0 then DefaultExtentSizeBytes
                    else irExtentSizeBytes req in
  let candidates := merge_sort candidate_le (irCandidates req) in
  extents ← layout_loop (Z.to_nat (irSizeBytes req / extentSize + 1)) req candidates extentSize 0 1;
  Ok (mkInitialLayout extentSize extents).

End Placement.
