(* ===== verification/PlacementFacts.v ===== *)
(** * Initial placement: what a layout guarantees

    The layout tiles the volume, every extent gets the requested number of
    replicas on different nodes, spread over as many zones as the candidates
    allow, with a majority write quorum; the strict mode fails exactly when
    there are too few failure domains. *)

From Stdlib Require Import ZArith Lia Ascii String.
From stdpp Require Import base list gmap strings sorting.
From S2P Require Import Prelude GoStrings Placement.
Open Scope string_scope.
Open Scope Z_scope.

Module PlacementFacts.
Import Placement.

(** ** Rotation *)

Lemma rotate_split a b i cs rot :
  rotate_loop (a + b) i cs rot =
  (x ← rotate_loop a i cs rot; y ← rotate_loop b (i + Z.of_nat a) cs rot; Ok (x ++ y)%list).
Proof.
  revert i. induction a as [|a IH]; intros i; cbn [rotate_loop Nat.add].
  { cbn. rewrite Z.add_0_r. by destruct (rotate_loop b i cs rot). }
  destruct (_ <? 0); [done|]. destruct (cs !! _) as [c|]; [|done].
  rewrite IH. replace (i + 1 + Z.of_nat a) with (i + Z.of_nat (S a)) by lia.
  destruct (rotate_loop a (i + 1) cs rot) as [x|e|]; cbn; [|done|done].
  by destruct (rotate_loop b _ cs rot).
Qed.

Lemma rotate_run n : forall i k cs rot,
  0 <= rot -> 0 <= i -> rot + i + Z.of_nat n < 2 ^ 63 -> 0 < zlen cs ->
  (rot + i) mod zlen cs = k -> k + Z.of_nat n <= zlen cs ->
  rotate_loop n i cs rot = Ok (take n (drop (Z.to_nat k) cs)).
Proof.
  induction n as [|n IH]; intros i k cs rot Hr Hi Hb Hc Hk Hn; [done|]. cbn [rotate_loop].
  rewrite add_i64_small by lia. rewrite Z.rem_mod_nonneg by lia. rewrite Hk.
  pose proof (Z.mod_pos_bound (rot + i) (zlen cs) Hc) as Hkb. rewrite Hk in Hkb.
  destruct (Z.ltb_spec k 0); [lia|].
  destruct (lookup_lt_is_Some_2 cs (Z.to_nat k)) as [c Hck]; [unfold zlen in *; lia|].
  rewrite Hck, (drop_S _ _ _ Hck). cbn [take].
  destruct n as [|n]; [done|]. rewrite (IH (i + 1) (k + 1)); [|lia..| |lia].
  - cbn. replace (Z.to_nat (k + 1)) with (S (Z.to_nat k)) by lia. done.
  - rewrite Z.add_assoc, <-Zplus_mod_idemp_l, Hk. apply Z.mod_small. lia.
Qed.

Lemma rotate_perm cs rot : 0 <= rot -> rot + zlen cs < 2 ^ 63 -> 0 < zlen cs ->
  exists l, rotate_loop (length cs) 0 cs rot = Ok l /\ l ≡ₚ cs.
Proof.
  intros Hr Hb Hc. pose proof (Z.mod_pos_bound rot (zlen cs) Hc) as Hk.
  set (k := rot mod zlen cs) in *.
  exists (drop (Z.to_nat k) cs ++ take (Z.to_nat k) cs)%list. split.
  2:{ rewrite Permutation_app_comm. by rewrite take_drop. }
  assert (length cs = (length cs - Z.to_nat k) + Z.to_nat k)%nat as E by (unfold zlen in *; lia).
  rewrite E at 1. rewrite rotate_split. unfold zlen in Hb, Hc, Hk.
  rewrite (rotate_run _ 0 k); [|unfold zlen; lia..|by rewrite Z.add_0_r|unfold zlen; lia].
  cbn [mbind result_bind]. rewrite (rotate_run _ _ 0); [|unfold zlen; lia..| |unfold zlen; lia].
  - cbn. rewrite (take_ge (drop _ cs)); [done|]. rewrite length_drop. lia.
  - rewrite <-Zplus_mod_idemp_l. fold k.
    replace (k + (0 + Z.of_nat (length cs - Z.to_nat k))) with (zlen cs) by (unfold zlen; lia).
    apply Z_mod_same_full.
Qed.

(** ** Failure domains *)

Definition unzoned (l : list CandidateNode) : list CandidateNode := filter (fun c => cZone c = "") l.
Definition zones (l : list CandidateNode) : gset string :=
  list_to_set (filter (fun z => z <> "") (cZone <$> l)).

(** The number of failure domains: a node without a zone is its own. *)
Definition domains (l : list CandidateNode) : Z := zlen (unzoned l) + Z.of_nat (size (zones l)).

Lemma domains_submseteq l l' : l ⊆+ l' -> domains l <= domains l'.
Proof.
  intros Hs. unfold domains, zlen.
  assert (length (unzoned l) <= length (unzoned l'))%nat as H1.
  { destruct (submseteq_Permutation _ _ Hs) as [k Hk]. unfold unzoned.
    rewrite (Permutation_length (filter_Permutation (fun c => cZone c = "") _ _ Hk)).
    rewrite filter_app, length_app. lia. }
  assert (size (zones l) <= size (zones l'))%nat as H2.
  { apply subseteq_size. unfold zones. intros z. rewrite !elem_of_list_to_set, !list_elem_of_filter,
      !list_elem_of_fmap. intros (Hz & c & -> & Hc). split; [done|]. exists c. split; [done|].
    by eapply elem_of_submseteq. }
  lia.
Qed.

#[export] Instance domains_proper : Proper ((≡ₚ) ==> (=)) domains.
Proof.
  intros l l' Hp. apply Z.le_antisymm; apply domains_submseteq; [by rewrite Hp|by rewrite Hp].
Qed.

(** The candidates the spreading pass would take without a limit. *)
Fixpoint picks (l : list CandidateNode) (used : gset string) : list CandidateNode :=
  match l with
  | [] => []
  | c :: l =>
      if negb (String.eqb (cZone c) "") then
        if decide (cZone c ∈ used) then picks l used else c :: picks l ({[cZone c]} ∪ used)
      else c :: picks l used
  end.

Lemma spread_picks l want : forall used sel, zlen sel <= want ->
  spread_loop l want used sel = (sel ++ take (Z.to_nat (want - zlen sel)) (picks l used))%list.
Proof.
  induction l as [|c l IH]; intros used sel Hs; cbn [spread_loop picks].
  { by rewrite take_nil, app_nil_r. }
  destruct (Z.eqb_spec (zlen sel) want) as [->|Hne].
  { by rewrite Z.sub_diag, app_nil_r. }
  assert (forall used' l', (forall sel', zlen sel' <= want -> spread_loop l want used' sel'
      = (sel' ++ take (Z.to_nat (want - zlen sel')) l')%list) ->
    spread_loop l want used' (sel ++ [c])%list
    = (sel ++ take (Z.to_nat (want - zlen sel)) (c :: l'))%list) as Hadd.
  { intros used' l' Hl'. assert (zlen (sel ++ [c])%list = zlen sel + 1) as E
      by (unfold zlen; rewrite length_app; cbn; lia).
    rewrite Hl' by lia. rewrite E, <-app_assoc. cbn [app].
    replace (Z.to_nat (want - zlen sel)) with (S (Z.to_nat (want - (zlen sel + 1)))) by lia. done. }
  destruct (negb _); [destruct (decide _)|]; auto.
Qed.

Lemma picks_sublist l : forall used, picks l used `sublist_of` l.
Proof.
  induction l as [|c l IH]; intros used; cbn; [done|].
  destruct (negb _); [destruct (decide _)|]; eauto using sublist_cons, sublist_skip.
Qed.

(** The picks of a suffix of the candidates: as many as it adds failure domains. *)
Lemma picks_length l : forall used,
  zlen (picks l used) = zlen (unzoned l) + Z.of_nat (size (zones l ∖ used)).
Proof.
  induction l as [|c l IH]; intros used.
  { cbn. change (zones []) with (∅ : gset string). 
    assert (∅ ∖ used = (∅ : gset string)) as -> by set_solver. by rewrite size_empty. }
  unfold unzoned, zones in *. cbn [picks fmap list_fmap].
  destruct (String.eqb_spec (cZone c) "") as [Hz|Hz]; cbn [negb].
  - rewrite (filter_cons_True _ c l Hz), filter_cons_False by (rewrite Hz; by intros []).
    unfold zlen in *. cbn [length]. specialize (IH used). lia.
  - rewrite (filter_cons_False _ c l Hz), filter_cons_True by done. cbn [list_to_set].
    destruct (decide (cZone c ∈ used)) as [Hu|Hu].
    + rewrite IH. do 3 f_equal. set_solver.
    + unfold zlen in *. cbn [length]. specialize (IH ({[cZone c]} ∪ used)).
      set (Z0 := list_to_set (filter (fun z => z <> "") (cZone <$> l)) : gset string) in *.
      assert (({[cZone c]} ∪ Z0) ∖ used = {[cZone c]} ∪ Z0 ∖ ({[cZone c]} ∪ used)) as -> by
        (apply set_eq; intros z; destruct (decide (z = cZone c)); set_solver).
      rewrite size_union by set_solver. rewrite size_singleton. lia.
Qed.

Lemma domains_picks l : domains l = zlen (picks l ∅).
Proof. rewrite picks_length. unfold domains. by rewrite difference_empty_L. Qed.

(** What was picked stays picked. *)
Lemma picks_picks l : forall used used', used' ⊆ used -> picks (picks l used) used' = picks l used.
Proof.
  induction l as [|c l IH]; intros used used' Hu; cbn [picks]; [done|].
  destruct (negb (String.eqb (cZone c) "")) eqn:Hz.
  - destruct (decide (cZone c ∈ used)); [by apply IH|]. cbn [picks]. rewrite Hz.
    destruct (decide (cZone c ∈ used')); [set_solver|]. f_equal. apply IH. set_solver.
  - cbn [picks]. rewrite Hz. f_equal. by apply IH.
Qed.

Lemma picks_take l : forall n used, picks l used = l -> picks (take n l) used = take n l.
Proof.
  induction l as [|c l IH]; intros n used Hl; [by rewrite take_nil|].
  destruct n as [|n]; [done|]. cbn [take picks] in *.
  destruct (negb _); [destruct (decide _) as [Hd|Hd]|].
  - exfalso. pose proof (sublist_length _ _ (picks_sublist l used)) as Hlen.
    rewrite Hl in Hlen. cbn in Hlen. lia.
  - injection Hl as Hl. by rewrite IH.
  - injection Hl as Hl. by rewrite IH.
Qed.

(** ** The filling pass *)

(** The candidates the filling pass would add without a limit. *)
Fixpoint extras (l sel : list CandidateNode) : list CandidateNode :=
  match l with
  | [] => []
  | c :: l => if decide (cNodeID c ∈ cNodeID <$> sel) then extras l sel
              else c :: extras l (sel ++ [c])%list
  end.

Lemma duplicate_spec sel c :
  existsb (fun e => String.eqb (cNodeID e) (cNodeID c)) sel = bool_decide (cNodeID c ∈ cNodeID <$> sel).
Proof.
  apply Bool.eq_iff_eq_true. rewrite bool_decide_eq_true, existsb_exists, list_elem_of_fmap. split.
  - intros (e & He & Heq%String.eqb_eq). exists e. split; [done|]. by apply list_elem_of_In.
  - intros (e & Heq & He). exists e. split; [by apply list_elem_of_In|]. by apply String.eqb_eq.
Qed.

Lemma fill_extras l want : forall sel, zlen sel <= want ->
  fill_loop l want sel = (sel ++ take (Z.to_nat (want - zlen sel)) (extras l sel))%list.
Proof.
  induction l as [|c l IH]; intros sel Hs; cbn [fill_loop extras].
  { by rewrite take_nil, app_nil_r. }
  destruct (Z.eqb_spec (zlen sel) want) as [->|Hne].
  { by rewrite Z.sub_diag, app_nil_r. }
  rewrite duplicate_spec. case_bool_decide; case_decide; try done; cbn [negb]; [by apply IH|].
  assert (zlen (sel ++ [c])%list = zlen sel + 1) as E by (unfold zlen; rewrite length_app; cbn; lia).
  rewrite IH by lia. rewrite E, <-app_assoc. cbn [app].
  replace (Z.to_nat (want - zlen sel)) with (S (Z.to_nat (want - (zlen sel + 1)))) by lia. done.
Qed.

Lemma extras_sublist l : forall sel, extras l sel `sublist_of` l.
Proof.
  induction l as [|c l IH]; intros sel; cbn; [done|]. case_decide; eauto using sublist_cons, sublist_skip.
Qed.

Lemma extras_nodup l : forall sel,
  NoDup (cNodeID <$> sel) -> NoDup (cNodeID <$> (sel ++ extras l sel)%list).
Proof.
  induction l as [|c l IH]; intros sel Hs; cbn [extras]; [by rewrite app_nil_r|].
  case_decide; [by apply IH|]. rewrite cons_middle, app_assoc. apply IH.
  rewrite fmap_app. apply NoDup_app. split; [done|]. split; [|apply NoDup_singleton].
  cbn. intros x Hx Hc. apply list_elem_of_singleton in Hc as ->. done.
Qed.

Lemma extras_cover l : forall sel c,
  c ∈ l -> cNodeID c ∈ cNodeID <$> (sel ++ extras l sel)%list.
Proof.
  induction l as [|d l IH]; intros sel c Hc; [by apply not_elem_of_nil in Hc|]. cbn [extras].
  apply elem_of_cons in Hc as [->|Hc].
  - case_decide; rewrite fmap_app, elem_of_app; [by left|]. right. cbn. by left.
  - case_decide; [by apply IH|]. rewrite cons_middle, app_assoc. by apply IH.
Qed.

Lemma extras_length l sel : NoDup (cNodeID <$> l) -> zlen l <= zlen sel + zlen (extras l sel).
Proof.
  intros Hl. assert ((cNodeID <$> l) ⊆+ (cNodeID <$> (sel ++ extras l sel)%list)) as Hs.
  { apply NoDup_submseteq; [done|]. intros x (c & -> & Hc)%list_elem_of_fmap. by apply extras_cover. }
  apply submseteq_length in Hs. rewrite !length_fmap, length_app in Hs. unfold zlen. lia.
Qed.

(** ** The replicas of one extent *)

(** [sel] is a choice of [want] candidates on different nodes that covers as
    many failure domains as the mode demands. *)
Record selection (cs : list CandidateNode) (want : Z) (mode : string) (sel : list CandidateNode)
  : Prop := {
  selection_length : zlen sel = want;
  selection_nodes : NoDup (cNodeID <$> sel);
  selection_candidates : forall c, c ∈ sel -> c ∈ cs;
  selection_spread : normalizeTopologyMode mode <> TopologyModeLegacy ->
    domains sel = Z.min want (domains cs) }.

Lemma domains_le l : domains l <= zlen l.
Proof.
  rewrite domains_picks. unfold zlen. pose proof (sublist_length _ _ (picks_sublist l ∅)). lia.
Qed.

Lemma domains_app_l a b : domains a <= domains (a ++ b)%list.
Proof. apply domains_submseteq. apply submseteq_inserts_r. done. Qed.

(** The first pass on [l], and what the second makes of it. *)
Lemma filled_selection l cs want mode sel :
  l ≡ₚ cs -> NoDup (cNodeID <$> cs) -> 0 < want <= zlen cs -> sel `sublist_of` l ->
  zlen sel <= want ->
  (normalizeTopologyMode mode <> TopologyModeLegacy -> domains sel = Z.min want (domains cs)) ->
  selection cs want mode (fill_loop l want sel).
Proof.
  intros Hl Hcs Hw Hsub Hlen Hdom. rewrite fill_extras by done.
  set (fin := (sel ++ take (Z.to_nat (want - zlen sel)) (extras l sel))%list).
  assert (NoDup (cNodeID <$> l)) as Hnl by (by rewrite Hl).
  assert (zlen fin = want) as Hfin.
  { pose proof (extras_length l sel Hnl) as He. assert (zlen l = zlen cs) as Ecs
      by (unfold zlen; by rewrite Hl). unfold fin, zlen in *. rewrite length_app, length_take. lia. }
  assert (NoDup (cNodeID <$> fin)) as Hnd.
  { eapply sublist_NoDup; [apply (extras_nodup l sel); eapply sublist_NoDup; [exact Hnl|]|].
    - by apply fmap_sublist.
    - apply fmap_sublist. apply sublist_app; [done|]. apply sublist_take. }
  assert (forall c, c ∈ fin -> c ∈ cs) as Hin.
  { intros c. unfold fin. rewrite elem_of_app, <-Hl. intros [Hc|Hc].
    - by eapply elem_of_submseteq; [|apply sublist_submseteq].
    - apply elem_of_take in Hc as (i & Hc & _). apply list_elem_of_lookup_2 in Hc.
      eapply elem_of_submseteq; [exact Hc|apply sublist_submseteq, extras_sublist]. }
  split; [done..|]. intros Hm. specialize (Hdom Hm).
  pose proof (domains_app_l sel (take (Z.to_nat (want - zlen sel)) (extras l sel))) as H1.
  pose proof (domains_le fin) as H2.
  assert (domains fin <= domains cs) as H3.
  { apply domains_submseteq, NoDup_submseteq; [by eapply NoDup_fmap_1|done]. }
  fold fin in H1. lia.
Qed.

Lemma spread_domains l want : 0 <= want ->
  let sel := spread_loop l want ∅ [] in
  sel `sublist_of` l /\ zlen sel = Z.min want (domains l) /\ domains sel = zlen sel.
Proof.
  intros Hw sel. unfold sel. rewrite spread_picks by done. cbn [app]. change (zlen []) with 0.
  rewrite Z.sub_0_r. split; [|split].
  - etrans; [apply sublist_take|apply picks_sublist].
  - rewrite domains_picks. unfold zlen. rewrite length_take. lia.
  - rewrite domains_picks, picks_take; [done|]. by apply picks_picks.
Qed.

Lemma selectReplicas_spec cs want rot mode :
  NoDup (cNodeID <$> cs) -> 0 < want <= zlen cs -> 0 <= rot -> rot + zlen cs < 2 ^ 63 ->
  if String.eqb (normalizeTopologyMode mode) TopologyModeStrict && (domains cs <? want)
  then selectReplicas cs want rot mode = Err (StrictTopology want (domains cs))
  else exists sel, selectReplicas cs want rot mode = Ok sel /\ selection cs want mode sel.
Proof.
  intros Hnd Hw Hr Hb. unfold selectReplicas. destruct (Z.ltb_spec (zlen cs) want); [lia|].
  destruct (rotate_perm cs rot Hr Hb ltac:(lia)) as (l & -> & Hl). cbn [mbind result_bind].
  destruct (spread_domains l want ltac:(lia)) as (Hsub & Hlen & Hdom).
  rewrite (domains_proper _ _ Hl) in Hlen.
  assert (forall sel, selection cs want mode sel ->
    exists sel', (if negb (zlen sel =? want) then Err (CouldNotSelect want) else Ok sel) = Ok sel' /\
      selection cs want mode sel') as Hfinish.
  { intros sel Hs. exists sel. by rewrite (selection_length _ _ _ _ Hs), Z.eqb_refl. }
  destruct (String.eqb_spec (normalizeTopologyMode mode) TopologyModeLegacy) as [Hm|Hm]; cbn [negb].
  - rewrite Hm. change (String.eqb TopologyModeLegacy TopologyModeStrict) with false. cbn [andb].
    apply Hfinish, filled_selection; try done; [apply sublist_nil_l|unfold zlen; cbn; lia].
  - destruct (String.eqb_spec (normalizeTopologyMode mode) TopologyModeStrict) as [Hs|Hs]; cbn [andb].
    + destruct (Z.ltb_spec (domains cs) want) as [Hd|Hd].
      * rewrite Hlen. replace (Z.min want (domains cs)) with (domains cs) by lia.
        destruct (Z.eqb_spec (domains cs) want); [lia|]. done.
      * rewrite Hlen. replace (Z.min want (domains cs)) with want by lia.
        rewrite Z.eqb_refl. cbn. apply Hfinish, filled_selection; try done; lia.
    + cbn. apply Hfinish, filled_selection; try done; lia.
Qed.

(** ** Layouts *)

(** A replica set that holds [sel]: a single primary, which comes first,
    different replica ids, and a majority as write quorum. *)
Record replica_set (want : Z) (sel : list CandidateNode) (rs : ReplicaSetPlan) : Prop := {
  set_nodes : rpNodeID <$> rsReplicas rs = cNodeID <$> sel;
  set_domains : rpFailureDomain <$> rsReplicas rs = failureDomain <$> sel;
  set_primary : rpPrimary <$> rsReplicas rs = true :: replicate (Z.to_nat want - 1) false;
  set_primary_id : hd_error (rpReplicaID <$> rsReplicas rs) = Some (rsPrimaryReplicaID rs);
  set_ids : NoDup (rpReplicaID <$> rsReplicas rs);
  set_quorum : want < 2 * rsWriteQuorum rs /\ rsWriteQuorum rs <= want }.

(** The extents cover the volume from [off] to its end, without gap or overlap,
    numbered from [id] on, each on a selection of the candidates. *)
Fixpoint laid_out (req : InitialLayoutRequest) (extentSize off id : Z) (xs : list ExtentPlan) : Prop :=
  match xs with
  | [] => off = irSizeBytes req
  | x :: xs =>
      xExtentID x = id /\ xChunkID x = id /\ xLogicalOffset x = off /\
      xLengthBytes x = Z.min extentSize (irSizeBytes req - off) /\ 0 < xLengthBytes x /\
      (exists sel, selection (irCandidates req) (irReplicationFactor req) (irTopologyMode req) sel /\
         replica_set (irReplicationFactor req) sel (xReplicaSet x)) /\
      laid_out req extentSize (off + xLengthBytes x) (id + 1) xs
  end.

Lemma replica_plans_fields vol id sel : forall i,
  rpNodeID <$> replica_plans vol id i sel = cNodeID <$> sel /\
  rpFailureDomain <$> replica_plans vol id i sel = failureDomain <$> sel /\
  length (replica_plans vol id i sel) = length sel /\
  (0 < i -> rpPrimary <$> replica_plans vol id i sel = replicate (length sel) false).
Proof.
  induction sel as [|c sel IH]; intros i; [done|]. cbn [replica_plans fmap list_fmap length].
  destruct (IH (i + 1)) as (E1 & E2 & E3 & E4). split; [|split; [|split]].
  - f_equal. exact E1.
  - f_equal. exact E2.
  - f_equal. exact E3.
  - intros Hi. cbn. destruct (Z.eqb_spec i 0); [lia|]. f_equal. apply E4. lia.
Qed.

Lemma replica_id_inj vol id i j : u64 (i + 1) -> u64 (j + 1) ->
  replica_id vol id i = replica_id vol id j -> i = j.
Proof.
  intros Hi Hj. unfold replica_id. intros H. do 4 apply (inj (String.append _)) in H.
  apply chars_inj in H. apply (f_equal dec_value) in H. rewrite !dec_value_pad in H by done. lia.
Qed.

Lemma replica_ids vol id sel : forall i, 0 <= i -> i + zlen sel < 2 ^ 63 ->
  NoDup (rpReplicaID <$> replica_plans vol id i sel) /\
  (forall j, 0 <= j < i -> replica_id vol id j ∉ rpReplicaID <$> replica_plans vol id i sel).
Proof.
  induction sel as [|c sel IH]; intros i Hi Hb.
  { split; [by apply NoDup_nil|]. intros j _. apply not_elem_of_nil. }
  cbn [replica_plans fmap list_fmap rpReplicaID].
  assert (zlen (c :: sel) = zlen sel + 1) as E by (unfold zlen; cbn; lia). rewrite E in Hb.
  pose proof (zlen_nonneg sel). destruct (IH (i + 1) ltac:(lia) ltac:(lia)) as [Hnd Hno]. split.
  - apply NoDup_cons. split; [|done]. apply Hno. lia.
  - intros j Hj. rewrite elem_of_cons. intros [Heq|Hin].
    + apply replica_id_inj in Heq; unfold in_u; lia.
    + apply (Hno j); [lia|done].
Qed.

Lemma extent_plan_set cs want mode vol id off len sel :
  0 < want < 2 ^ 32 -> selection cs want mode sel ->
  replica_set want sel (xReplicaSet (extent_plan vol id off len sel)).
Proof.
  intros Hw [Hlen Hnodes Hin Hspread]. cbn [extent_plan xReplicaSet].
  destruct sel as [|c sel]; [unfold zlen in Hlen; cbn in Hlen; lia|].
  destruct (replica_plans_fields vol id (c :: sel) 0) as (E1 & E2 & E3 & _).
  destruct (replica_plans_fields vol id sel 1) as (_ & _ & _ & E4).
  destruct (replica_ids vol id (c :: sel) 0) as [E5 _]; [lia|rewrite Hlen; lia|].
  assert (zlen (replica_plans vol id 0 (c :: sel)) = want) as E6 by (unfold zlen in *; lia).
  split; cbn [rsReplicas rsWriteQuorum rsPrimaryReplicaID]; [exact E1|exact E2| |done|exact E5|].
  - specialize (E4 ltac:(lia)). cbn [replica_plans]. rewrite fmap_cons. cbn [rpPrimary Z.eqb Z.add].
    f_equal. etrans; [exact E4|]. f_equal. unfold zlen in Hlen. cbn in Hlen. lia.
  - rewrite E6. pose proof (Z.mod_pos_bound want 2 ltac:(lia)) as Hm.
    pose proof (Z.div_mod want 2 ltac:(lia)) as Hdm. unfold wrap32.
    rewrite (Z.mod_small (want / 2)) by lia. rewrite Z.mod_small by lia. lia.
Qed.

Lemma selection_perm cs cs' want mode sel : cs ≡ₚ cs' -> selection cs want mode sel ->
  selection cs' want mode sel.
Proof.
  intros Hp [Hlen Hnodes Hin Hspread]. split; [done|done| |].
  - intros c Hc. rewrite <-Hp. by apply Hin.
  - intros Hm. by rewrite <-(domains_proper _ _ Hp), Hspread.
Qed.

(** The requests the policy is meant for. *)
Record layout_request (req : InitialLayoutRequest) : Prop := {
  lr_volume : irVolumeID req <> "";
  lr_size : 0 < irSizeBytes req < 2 ^ 62;
  lr_extent : 0 <= irExtentSizeBytes req < 2 ^ 64;
  lr_factor : 0 < irReplicationFactor req < 2 ^ 32;
  lr_nodes : NoDup (cNodeID <$> irCandidates req);
  lr_candidates : irReplicationFactor req <= zlen (irCandidates req) < 2 ^ 62 }.

Section Layout.
Context (req : InitialLayoutRequest) (Hreq : layout_request req).
Context (cs : list CandidateNode) (Hcs : cs ≡ₚ irCandidates req).
Context (extentSize : Z) (Hes : 0 < extentSize < 2 ^ 64).

Lemma selects rot : 0 <= rot < 2 ^ 62 ->
  if String.eqb (normalizeTopologyMode (irTopologyMode req)) TopologyModeStrict
     && (domains (irCandidates req) <? irReplicationFactor req)
  then selectReplicas cs (irReplicationFactor req) rot (irTopologyMode req)
       = Err (StrictTopology (irReplicationFactor req) (domains (irCandidates req)))
  else exists sel, selectReplicas cs (irReplicationFactor req) rot (irTopologyMode req) = Ok sel /\
    selection (irCandidates req) (irReplicationFactor req) (irTopologyMode req) sel.
Proof.
  intros Hrot. destruct Hreq as [_ _ _ Hf Hn Hc].
  assert (zlen cs = zlen (irCandidates req)) as Ez by (unfold zlen; by rewrite Hcs).
  pose proof (selectReplicas_spec cs (irReplicationFactor req) rot (irTopologyMode req)) as Hs.
  rewrite (domains_proper _ _ Hcs), Ez in Hs.
  specialize (Hs ltac:(by rewrite Hcs) ltac:(lia) ltac:(lia) ltac:(lia)). destruct (_ && _); [done|].
  destruct Hs as (sel & -> & Hsel). exists sel. split; [done|]. by eapply selection_perm.
Qed.

Lemma layout_loop_spec fuel : forall off id,
  0 <= off <= irSizeBytes req -> 1 <= id <= off + 1 ->
  irSizeBytes req - off <= Z.of_nat fuel * extentSize ->
  String.eqb (normalizeTopologyMode (irTopologyMode req)) TopologyModeStrict
    && (domains (irCandidates req) <? irReplicationFactor req) = false ->
  exists xs, layout_loop fuel req cs extentSize off id = Ok xs /\ laid_out req extentSize off id xs.
Proof.
  pose proof (lr_size _ Hreq) as Hsz. pose proof (lr_factor _ Hreq) as Hf.
  induction fuel as [|fuel IH]; intros off id Hoff Hid Hfuel Hmode; cbn [layout_loop].
  { destruct (Z.ltb_spec off (irSizeBytes req)); [lia|]. exists []. split; [done|]. cbn. lia. }
  destruct (Z.ltb_spec off (irSizeBytes req)) as [Hlt|]; [|exists []; split; [done|cbn; lia]].
  rewrite (sub64_small (irSizeBytes req) off), (sub64_small id 1) by (unfold in_u; lia).
  assert (int64_of (id - 1) = id - 1) as ->
    by (rewrite <-(Z.add_opp_r id 1); apply (add_i64_small id (-1)); lia).
  pose proof (selects (id - 1) ltac:(lia)) as Hsel. rewrite Hmode in Hsel.
  destruct Hsel as (sel & -> & Hsel). cbn [mbind result_bind].
  set (len := if irSizeBytes req - off <? extentSize then irSizeBytes req - off else extentSize).
  assert (len = Z.min extentSize (irSizeBytes req - off)) as Elen
    by (unfold len; destruct (Z.ltb_spec (irSizeBytes req - off) extentSize); lia).
  clearbody len. rewrite (add64_small off len), (add64_small id 1) by (unfold in_u; lia).
  destruct (IH (off + len) (id + 1)) as (xs & -> & Hxs); [lia|lia|lia|done|].
  eexists. split; [reflexivity|]. cbn [laid_out extent_plan xExtentID xChunkID xLogicalOffset xLengthBytes].
  do 3 (split; [done|]). split; [done|]. split; [lia|]. split; [|done].
  exists sel. split; [done|]. exact (extent_plan_set _ _ _ (irVolumeID req) id off len sel Hf Hsel).
Qed.

End Layout.

(** C35: initial placement.  For a request with enough candidates on different
    nodes, the policy fails exactly when the strict mode is asked for and there
    are fewer failure domains than replicas.  Otherwise its extents tile the
    volume in order, every extent has exactly the requested number of replicas
    on different candidate nodes, of which the first is the only primary, the
    replica ids differ, the write quorum is a majority (so that two write
    quorums always meet), and in the modes prefer and strict the replicas cover as
    many failure domains as the candidates allow (in the legacy mode, the default,
    replicas may share one). *)
Theorem initial_layout_sound (req : InitialLayoutRequest) :
  layout_request req ->
  if String.eqb (normalizeTopologyMode (irTopologyMode req)) TopologyModeStrict
     && (domains (irCandidates req) <? irReplicationFactor req)
  then PlanInitialLayout req
       = Err (StrictTopology (irReplicationFactor req) (domains (irCandidates req)))
  else exists layout, PlanInitialLayout req = Ok layout /\ 0 < ilExtentSizeBytes layout /\
    laid_out req (ilExtentSizeBytes layout) 0 1 (ilExtents layout).
Proof.
  intros Hreq. pose proof Hreq as [Hv Hsz He Hf Hn Hc]. unfold PlanInitialLayout.
  rewrite (proj2 (String.eqb_neq _ _) Hv), (proj2 (Z.eqb_neq (irSizeBytes req) 0)),
    (proj2 (Z.eqb_neq (irReplicationFactor req) 0)),
    (proj2 (Z.ltb_ge (zlen (irCandidates req)) (irReplicationFactor req))) by lia.
  set (es := if irExtentSizeBytes req =? 0 then DefaultExtentSizeBytes else irExtentSizeBytes req).
  assert (0 < es < 2 ^ 64) as Hes.
  { unfold es, DefaultExtentSizeBytes. destruct (Z.eqb_spec (irExtentSizeBytes req) 0); lia. }
  clearbody es. set (cs := merge_sort candidate_le (irCandidates req)).
  assert (cs ≡ₚ irCandidates req) as Hcs by apply merge_sort_Permutation. clearbody cs.
  pose proof (Z.div_mod (irSizeBytes req) es ltac:(lia)) as Hdm.
  pose proof (Z.mod_pos_bound (irSizeBytes req) es ltac:(lia)) as Hmod.
  pose proof (Z.div_pos (irSizeBytes req) es ltac:(lia) ltac:(lia)) as Hdp.
  destruct (_ && _) eqn:Hmode.
  - pose proof (selects req Hreq cs Hcs 0 ltac:(lia)) as Hsel. rewrite Hmode in Hsel.
    replace (Z.to_nat (irSizeBytes req / es + 1)) with (S (Z.to_nat (irSizeBytes req / es))) by lia.
    cbn [layout_loop]. destruct (Z.ltb_spec 0 (irSizeBytes req)); [|lia].
    change (int64_of (sub64 1 1)) with 0. by rewrite Hsel.
  - destruct (layout_loop_spec req Hreq cs Hcs es Hes (Z.to_nat (irSizeBytes req / es + 1)) 0 1)
      as (xs & -> & Hxs); [lia|lia|rewrite Z2Nat.id by lia; lia|done|].
    eexists. split; [reflexivity|]. cbn. split; [lia|done].
Qed.

Definition three_nodes : InitialLayoutRequest :=
  mkLayoutRequest "v" 100 40 2
    [mkCandidate "n1" "a"; mkCandidate "n2" "a"; mkCandidate "n3" "b"] "strict".

Lemma initial_layout_sound_witness :
  exists layout, PlanInitialLayout three_nodes = Ok layout /\ 0 < ilExtentSizeBytes layout /\
    laid_out three_nodes (ilExtentSizeBytes layout) 0 1 (ilExtents layout).
Proof.
  refine (initial_layout_sound three_nodes _).
  split; [done|vm_compute; split; congruence..| |vm_compute; split; congruence].
  cbn. apply (bool_decide_unpack _). vm_compute. exact I.
Defined.

End PlacementFacts.
