(* ===== verification/SbsTypes.v ===== *)
(** * Data of the SBS replication layer

    The metadata records and request types of the replicated write path:
    src/sbs/cluster/metadata (types.go, payload_encryption.go, service.go,
    repository.go) and src/sbs/cluster/replication (coordinator.go, service.go,
    executor.go, allocation_read.go).  A field [F] of a struct is the projection
    with the prefix of the record.  String-typed enumerations stay strings.  Of
    [NodeMembershipRecord] only the two fields the planner reads are kept. *)

From Stdlib Require Import ZArith Lia Ascii String.
From stdpp Require Import base list gmap strings.
From S2P Require Import Prelude.
Open Scope string_scope.
Open Scope Z_scope.

Module Sbs.

Definition AllocationKindZero : string := "zero".
Definition AllocationKindData : string := "data".
Definition AllocationKindShared : string := "shared".
Definition ReplicaRolePrimary : string := "primary".
Definition ReplicaRoleSecondary : string := "secondary".
Definition NodeLifecycleJoining : string := "joining".
Definition NodeLifecycleActive : string := "active".
Definition NodeLifecycleDraining : string := "draining".
Definition NodeLifecycleRemoved : string := "removed".
Definition NodeHealthHealthy : string := "healthy".
Definition NodeHealthSuspect : string := "suspect".
Definition NodeHealthDown : string := "down".

Record NodeMembershipRecord := mkNode { nmLifecycleState : string; nmHealthState : string }.

Record PayloadEncryptionHeader := mkPayloadEncryptionHeader {
  phHeaderVersion : Z; phCipherSuite : string; phEncryptionScope : string;
  phSecurityPolicyID : string; phPolicyGeneration : Z; phKeyProviderID : string;
  phDataKeyID : string; phKeyID : string; phKeyVersion : Z; phKeyGeneration : Z;
  phObjectID : string; phBackendType : string; phNonceHex : string; phNonceSource : string;
  phAADDigest : string; phLogicalOffset : Z; phStripeID : string; phShardID : Z;
  phShardIDPresent : bool; phPlaintextLength : Z; phCiphertextLength : Z; phAuthTagBytes : Z;
  phAuthTagHex : string }.

#[export] Instance PayloadEncryptionHeader_settable : Settable PayloadEncryptionHeader := fun x =>
  mkPayloadEncryptionHeader (phHeaderVersion x) (phCipherSuite x) (phEncryptionScope x)
  (phSecurityPolicyID x) (phPolicyGeneration x) (phKeyProviderID x) (phDataKeyID x) (phKeyID x)
  (phKeyVersion x) (phKeyGeneration x) (phObjectID x) (phBackendType x) (phNonceHex x)
  (phNonceSource x) (phAADDigest x) (phLogicalOffset x) (phStripeID x) (phShardID x)
  (phShardIDPresent x) (phPlaintextLength x) (phCiphertextLength x) (phAuthTagBytes x)
  (phAuthTagHex x).

Definition zero_PayloadEncryptionHeader : PayloadEncryptionHeader :=
  mkPayloadEncryptionHeader 0 "" "" "" 0 "" "" "" 0 0 "" "" "" "" "" 0 "" 0 false 0 0 0 "".

Record AllocationExtentRecord := mkAllocationExtentRecord {
  aeLogicalChunkStart : Z; aeChunkCount : Z; aeKind : string; aePhysicalChunkStart : Z;
  aeBackingRef : string; aeGeneration : Z; aeChecksum : string;
  aeEncryption : option PayloadEncryptionHeader }.

#[export] Instance AllocationExtentRecord_settable : Settable AllocationExtentRecord := fun x =>
  mkAllocationExtentRecord (aeLogicalChunkStart x) (aeChunkCount x) (aeKind x)
  (aePhysicalChunkStart x) (aeBackingRef x) (aeGeneration x) (aeChecksum x) (aeEncryption x).

Definition zero_AllocationExtentRecord : AllocationExtentRecord :=
  mkAllocationExtentRecord 0 0 "" 0 "" 0 "" None.

Record AllocationPageRecord := mkAllocationPageRecord {
  apVolumeID : string; apPageNo : Z; apPageBytes : Z; apChunkSizeBytes : Z; apRevision : Z;
  apExtents : list AllocationExtentRecord }.

#[export] Instance AllocationPageRecord_settable : Settable AllocationPageRecord := fun x =>
  mkAllocationPageRecord (apVolumeID x) (apPageNo x) (apPageBytes x) (apChunkSizeBytes x)
  (apRevision x) (apExtents x).

Definition zero_AllocationPageRecord : AllocationPageRecord :=
  mkAllocationPageRecord "" 0 0 0 0 [].

Record ResolvedAllocationPage := mkResolvedAllocationPage {
  raPage : AllocationPageRecord; raRangeStartChunk : Z; raRangeEndChunk : Z;
  raCoversWholePage : bool }.

#[export] Instance ResolvedAllocationPage_settable : Settable ResolvedAllocationPage := fun x =>
  mkResolvedAllocationPage (raPage x) (raRangeStartChunk x) (raRangeEndChunk x)
  (raCoversWholePage x).

Definition zero_ResolvedAllocationPage : ResolvedAllocationPage :=
  mkResolvedAllocationPage zero_AllocationPageRecord 0 0 false.

Record AllocationPageChunkRangeRecord := mkAllocationPageChunkRangeRecord {
  crPageNo : Z; crStartChunk : Z; crEndChunk : Z }.

#[export] Instance AllocationPageChunkRangeRecord_settable : Settable AllocationPageChunkRangeRecord := fun x =>
  mkAllocationPageChunkRangeRecord (crPageNo x) (crStartChunk x) (crEndChunk x).

Definition zero_AllocationPageChunkRangeRecord : AllocationPageChunkRangeRecord :=
  mkAllocationPageChunkRangeRecord 0 0 0.

Record ExtentMappingRecord := mkExtentMappingRecord {
  emVolumeID : string; emExtentID : Z; emLogicalOffset : Z; emLengthBytes : Z; emChunkID : Z;
  emPlacementRef : string; emRevision : Z }.

#[export] Instance ExtentMappingRecord_settable : Settable ExtentMappingRecord := fun x =>
  mkExtentMappingRecord (emVolumeID x) (emExtentID x) (emLogicalOffset x) (emLengthBytes x)
  (emChunkID x) (emPlacementRef x) (emRevision x).

Definition zero_ExtentMappingRecord : ExtentMappingRecord :=
  mkExtentMappingRecord "" 0 0 0 0 "" 0.

Record ReplicaDescriptor := mkReplicaDescriptor {
  rdNodeID : string; rdReplicaID : string; rdRole : string; rdFailureDomain : string }.

#[export] Instance ReplicaDescriptor_settable : Settable ReplicaDescriptor := fun x =>
  mkReplicaDescriptor (rdNodeID x) (rdReplicaID x) (rdRole x) (rdFailureDomain x).

Definition zero_ReplicaDescriptor : ReplicaDescriptor :=
  mkReplicaDescriptor "" "" "" "".

Record ReplicaSetState := mkReplicaSetState {
  rsReplicaSetID : string; rsVolumeID : string; rsPlacementRef : string; rsEpoch : Z;
  rsReplicas : list ReplicaDescriptor; rsPrimaryReplicaID : string; rsWriteQuorum : Z;
  rsReadQuorum : Z; rsFailureDomains : list string }.

#[export] Instance ReplicaSetState_settable : Settable ReplicaSetState := fun x =>
  mkReplicaSetState (rsReplicaSetID x) (rsVolumeID x) (rsPlacementRef x) (rsEpoch x)
  (rsReplicas x) (rsPrimaryReplicaID x) (rsWriteQuorum x) (rsReadQuorum x) (rsFailureDomains x).

Definition zero_ReplicaSetState : ReplicaSetState :=
  mkReplicaSetState "" "" "" 0 [] "" 0 0 [].

Record ReplicaTarget := mkReplicaTarget {
  rtNodeID : string; rtReplicaID : string; rtRole : string; rtFailureDomain : string }.

#[export] Instance ReplicaTarget_settable : Settable ReplicaTarget := fun x =>
  mkReplicaTarget (rtNodeID x) (rtReplicaID x) (rtRole x) (rtFailureDomain x).

Definition zero_ReplicaTarget : ReplicaTarget :=
  mkReplicaTarget "" "" "" "".

Record ExtentWritePlan := mkExtentWritePlan {
  wpExtent : ExtentMappingRecord; wpPlacementRef : string; wpReplicaSetID : string;
  wpPrimary : ReplicaTarget; wpWriteTargets : list ReplicaTarget; wpRequiredAcks : Z;
  wpReplicaSetEpoch : Z; wpMetadataRevision : Z;
  wpAllocationPages : list ResolvedAllocationPage; wpChunkSizeBytes : Z; wpCopyOnWrite : bool;
  wpBaseAllocations : list ResolvedAllocationPage }.

#[export] Instance ExtentWritePlan_settable : Settable ExtentWritePlan := fun x =>
  mkExtentWritePlan (wpExtent x) (wpPlacementRef x) (wpReplicaSetID x) (wpPrimary x)
  (wpWriteTargets x) (wpRequiredAcks x) (wpReplicaSetEpoch x) (wpMetadataRevision x)
  (wpAllocationPages x) (wpChunkSizeBytes x) (wpCopyOnWrite x) (wpBaseAllocations x).

Definition zero_ExtentWritePlan : ExtentWritePlan :=
  mkExtentWritePlan zero_ExtentMappingRecord "" "" zero_ReplicaTarget [] 0 0 0 [] 0 false [].

Record WritePlan := mkWritePlan {
  wplVolumeID : string; wplExtents : list ExtentWritePlan }.

#[export] Instance WritePlan_settable : Settable WritePlan := fun x =>
  mkWritePlan (wplVolumeID x) (wplExtents x).

Definition zero_WritePlan : WritePlan :=
  mkWritePlan "" [].

Record ExtentReadPlan := mkExtentReadPlan {
  rpExtent : ExtentMappingRecord; rpPlacementRef : string; rpReplicaSetID : string;
  rpPreferred : ReplicaTarget; rpFallbacks : list ReplicaTarget; rpReplicaSetEpoch : Z;
  rpCommittedRevision : Z; rpAllocationPages : list ResolvedAllocationPage; rpChunkSizeBytes : Z }.

#[export] Instance ExtentReadPlan_settable : Settable ExtentReadPlan := fun x =>
  mkExtentReadPlan (rpExtent x) (rpPlacementRef x) (rpReplicaSetID x) (rpPreferred x)
  (rpFallbacks x) (rpReplicaSetEpoch x) (rpCommittedRevision x) (rpAllocationPages x)
  (rpChunkSizeBytes x).

Definition zero_ExtentReadPlan : ExtentReadPlan :=
  mkExtentReadPlan zero_ExtentMappingRecord "" "" zero_ReplicaTarget [] 0 0 [] 0.

Record ReadPlan := mkReadPlan {
  rplVolumeID : string; rplExtents : list ExtentReadPlan }.

#[export] Instance ReadPlan_settable : Settable ReadPlan := fun x =>
  mkReadPlan (rplVolumeID x) (rplExtents x).

Definition zero_ReadPlan : ReadPlan :=
  mkReadPlan "" [].

Record WriteRequest := mkWriteRequest {
  wrVolumeID : string; wrCloneID : string; wrRequestID : string; wrAttachmentID : string;
  wrGeneration : Z; wrIdempotencyKey : string; wrOffsetBytes : Z; wrLengthBytes : Z;
  wrData : bytes; wrPageBytes : Z; wrChunkSizeBytes : Z; wrZeroSemantic : bool;
  wrAllowZeroNoop : bool; wrUnsafeZeroNoopSkipIdempotency : bool }.

#[export] Instance WriteRequest_settable : Settable WriteRequest := fun x =>
  mkWriteRequest (wrVolumeID x) (wrCloneID x) (wrRequestID x) (wrAttachmentID x)
  (wrGeneration x) (wrIdempotencyKey x) (wrOffsetBytes x) (wrLengthBytes x) (wrData x)
  (wrPageBytes x) (wrChunkSizeBytes x) (wrZeroSemantic x) (wrAllowZeroNoop x)
  (wrUnsafeZeroNoopSkipIdempotency x).

Definition zero_WriteRequest : WriteRequest :=
  mkWriteRequest "" "" "" "" 0 "" 0 0 [] 0 0 false false false.

Record BeginWriteRequest := mkBeginWriteRequest {
  bwVolumeID : string; bwCloneID : string; bwRequestID : string; bwAttachmentID : string;
  bwGeneration : Z; bwIdempotencyKey : string; bwOffsetBytes : Z; bwLengthBytes : Z;
  bwPageBytes : Z; bwChunkSizeBytes : Z; bwZeroSemantic : bool; bwAllowZeroNoop : bool;
  bwUnsafeZeroNoopSkipIdempotency : bool }.

#[export] Instance BeginWriteRequest_settable : Settable BeginWriteRequest := fun x =>
  mkBeginWriteRequest (bwVolumeID x) (bwCloneID x) (bwRequestID x) (bwAttachmentID x)
  (bwGeneration x) (bwIdempotencyKey x) (bwOffsetBytes x) (bwLengthBytes x) (bwPageBytes x)
  (bwChunkSizeBytes x) (bwZeroSemantic x) (bwAllowZeroNoop x)
  (bwUnsafeZeroNoopSkipIdempotency x).

Definition zero_BeginWriteRequest : BeginWriteRequest :=
  mkBeginWriteRequest "" "" "" "" 0 "" 0 0 0 0 false false false.

Record ReplicaWriteRequest := mkReplicaWriteRequest {
  rwRequestID : string; rwVolumeID : string; rwAttachmentID : string; rwGeneration : Z;
  rwIdempotencyKey : string; rwOffsetBytes : Z; rwLengthBytes : Z; rwData : bytes;
  rwZeroSemantic : bool }.

#[export] Instance ReplicaWriteRequest_settable : Settable ReplicaWriteRequest := fun x =>
  mkReplicaWriteRequest (rwRequestID x) (rwVolumeID x) (rwAttachmentID x) (rwGeneration x)
  (rwIdempotencyKey x) (rwOffsetBytes x) (rwLengthBytes x) (rwData x) (rwZeroSemantic x).

Definition zero_ReplicaWriteRequest : ReplicaWriteRequest :=
  mkReplicaWriteRequest "" "" "" 0 "" 0 0 [] false.

Record ReplicaChunkEncryptionHeader := mkReplicaChunkEncryptionHeader {
  chLogicalChunk : Z; chPhysicalChunkID : Z; chHeader : option PayloadEncryptionHeader }.

#[export] Instance ReplicaChunkEncryptionHeader_settable : Settable ReplicaChunkEncryptionHeader := fun x =>
  mkReplicaChunkEncryptionHeader (chLogicalChunk x) (chPhysicalChunkID x) (chHeader x).

Definition zero_ReplicaChunkEncryptionHeader : ReplicaChunkEncryptionHeader :=
  mkReplicaChunkEncryptionHeader 0 0 None.

Record resolvedChunkRead := mkresolvedChunkRead {
  cdLogicalChunk : Z; cdPhysicalChunkID : Z; cdPayloadVolumeID : string; cdZero : bool;
  cdEncryption : option PayloadEncryptionHeader }.

#[export] Instance resolvedChunkRead_settable : Settable resolvedChunkRead := fun x =>
  mkresolvedChunkRead (cdLogicalChunk x) (cdPhysicalChunkID x) (cdPayloadVolumeID x) (cdZero x)
  (cdEncryption x).

Definition zero_resolvedChunkRead : resolvedChunkRead :=
  mkresolvedChunkRead 0 0 "" false None.

Record resolvedChunkWrite := mkresolvedChunkWrite {
  cwLogicalChunk : Z; cwPhysicalChunkID : Z; cwBasePhysicalChunkID : Z;
  cwEncryption : option PayloadEncryptionHeader;
  cwBaseEncryption : option PayloadEncryptionHeader }.

#[export] Instance resolvedChunkWrite_settable : Settable resolvedChunkWrite := fun x =>
  mkresolvedChunkWrite (cwLogicalChunk x) (cwPhysicalChunkID x) (cwBasePhysicalChunkID x)
  (cwEncryption x) (cwBaseEncryption x).

Definition zero_resolvedChunkWrite : resolvedChunkWrite :=
  mkresolvedChunkWrite 0 0 0 None None.

Record ResolvedExtentPlacement := mkResolvedPlacement {
  reExtentMapping : ExtentMappingRecord; reReplicaSet : ReplicaSetState;
  reNodes : gmap string NodeMembershipRecord }.

(** [overlapRange]: the part of a request inside an extent, or an error. *)
Definition overlapRange (extentOffset extentLength reqOffset reqLength : Z) : option (Z * Z) :=
  let extentEnd := add64 extentOffset extentLength in
  let reqEnd := add64 reqOffset reqLength in
  if (extentEnd <=? reqOffset) || (reqEnd <=? extentOffset) then None else
  let start := Z.max reqOffset extentOffset in
  let end_ := Z.min reqEnd extentEnd in
  Some (start, sub64 end_ start).

End Sbs.
