(* ===== verification/MetaTypes.v ===== *)
(** * Records of the SBS metadata repository

    The records and commit requests of src/sbs/cluster/metadata (types.go,
    repository.go) the write path stores and passes, field by field, with the
    states of idempotency records, mutation operations, snapshots and clones.
    String-typed enumerations stay strings; int64 times are integers. *)

From Stdlib Require Import ZArith Lia Ascii String.
From stdpp Require Import base list gmap strings.
From S2P Require Import Prelude SbsTypes.
Open Scope string_scope.
Open Scope Z_scope.

Module Meta.
Import Sbs.

Definition IdempotencyPending : string := "pending".
Definition IdempotencyCommitted : string := "committed".
Definition IdempotencyFailed : string := "failed".
Definition MutationOperationPending : string := "pending".
Definition MutationOperationRunning : string := "running".
Definition MutationOperationCommitted : string := "committed".
Definition MutationOperationFailed : string := "failed".
Definition MutationOperationRolledBack : string := "rolled_back".
Definition SnapshotStateCreating : string := "creating".
Definition SnapshotStateAvailable : string := "available".
Definition SnapshotStateDeleting : string := "deleting".
Definition SnapshotStateDeleted : string := "deleted".
Definition SnapshotStateFailed : string := "failed".
Definition CloneStateCreating : string := "creating".
Definition CloneStateAvailable : string := "available".
Definition CloneStateMaterializing : string := "materializing".
Definition CloneStateMaterialized : string := "materialized".
Definition CloneStateDeleting : string := "deleting".
Definition CloneStateDeleted : string := "deleted".
Definition CloneStateFailed : string := "failed".

Record VolumeState := mkVolumeState {
  vsVolumeID : string; vsEpoch : Z; vsRevision : Z; vsPlacementPolicyID : string;
  vsTopologyMode : string; vsProtectionPolicy : string; vsRedundancyBackend : string;
  vsStatus : string }.

#[export] Instance VolumeState_settable : Settable VolumeState := fun x =>
  mkVolumeState (vsVolumeID x) (vsEpoch x) (vsRevision x) (vsPlacementPolicyID x)
  (vsTopologyMode x) (vsProtectionPolicy x) (vsRedundancyBackend x) (vsStatus x).

Definition zero_VolumeState : VolumeState :=
  mkVolumeState "" 0 0 "" "" "" "" "".

Record IdempotencyRecord := mkIdempotencyRecord {
  idIdempotencyKey : string; idVolumeID : string; idAttachmentID : string; idGeneration : Z;
  idEpoch : Z; idRevision : Z; idOperation : string; idResultState : string }.

#[export] Instance IdempotencyRecord_settable : Settable IdempotencyRecord := fun x =>
  mkIdempotencyRecord (idIdempotencyKey x) (idVolumeID x) (idAttachmentID x) (idGeneration x)
  (idEpoch x) (idRevision x) (idOperation x) (idResultState x).

Definition zero_IdempotencyRecord : IdempotencyRecord :=
  mkIdempotencyRecord "" "" "" 0 0 0 "" "".

Record MutationPageWindowRecord := mkMutationPageWindowRecord {
  mwExtentID : Z; mwStartPageNo : Z; mwEndPageNo : Z; mwDataBytes : Z; mwDataChunks : Z }.

#[export] Instance MutationPageWindowRecord_settable : Settable MutationPageWindowRecord := fun x =>
  mkMutationPageWindowRecord (mwExtentID x) (mwStartPageNo x) (mwEndPageNo x) (mwDataBytes x)
  (mwDataChunks x).

Definition zero_MutationPageWindowRecord : MutationPageWindowRecord :=
  mkMutationPageWindowRecord 0 0 0 0 0.

Record MutationRetiredReplicaTarget := mkMutationRetiredReplicaTarget {
  mtNodeID : string; mtSourceReplicaIDs : list string }.

#[export] Instance MutationRetiredReplicaTarget_settable : Settable MutationRetiredReplicaTarget := fun x =>
  mkMutationRetiredReplicaTarget (mtNodeID x) (mtSourceReplicaIDs x).

Definition zero_MutationRetiredReplicaTarget : MutationRetiredReplicaTarget :=
  mkMutationRetiredReplicaTarget "" [].

Record MutationOperationRecord := mkMutationOperationRecord {
  moOperationID : string; moVolumeID : string; moKind : string; moState : string;
  moPlacementRevision : Z; moAllocationRevision : Z; moWriterFencingEpoch : Z;
  moIdempotencyKey : string; moAffectedExtentIDs : list Z; moAffectedPageNos : list Z;
  moCompletedPageNos : list Z; moRetryPageWindows : list MutationPageWindowRecord;
  moRetiredPhysicalChunkIDs : list Z; moRetiredReplicaTargetsResolved : bool;
  moRetiredReplicaTargets : list MutationRetiredReplicaTarget; moStartedAtUnix : Z;
  moLastUpdatedAtUnix : Z; moErrorMessage : string }.

#[export] Instance MutationOperationRecord_settable : Settable MutationOperationRecord := fun x =>
  mkMutationOperationRecord (moOperationID x) (moVolumeID x) (moKind x) (moState x)
  (moPlacementRevision x) (moAllocationRevision x) (moWriterFencingEpoch x) (moIdempotencyKey x)
  (moAffectedExtentIDs x) (moAffectedPageNos x) (moCompletedPageNos x) (moRetryPageWindows x)
  (moRetiredPhysicalChunkIDs x) (moRetiredReplicaTargetsResolved x) (moRetiredReplicaTargets x)
  (moStartedAtUnix x) (moLastUpdatedAtUnix x) (moErrorMessage x).

Definition zero_MutationOperationRecord : MutationOperationRecord :=
  mkMutationOperationRecord "" "" "" "" 0 0 0 "" [] [] [] [] [] false [] 0 0 "".

Record CommitWriteMetadataRequest := mkCommitWriteMetadataRequest {
  cmVolumeID : string; cmExpectedEpoch : Z; cmExpectedRevision : Z; cmIdempotencyKey : string;
  cmExpectedIdempotencyState : string; cmCommittedRevision : Z; cmAttachmentID : string;
  cmGeneration : Z; cmAllowMissingWriteIntent : bool;
  cmAllocationPages : list AllocationPageRecord; cmNormalizeExtentMappings : list Z;
  cmMutationOperationID : string; cmExpectedMutationState : string;
  cmAffectedExtentIDs : list Z; cmAffectedPageNos : list Z;
  cmAffectedPageChunkRanges : list AllocationPageChunkRangeRecord;
  cmRetiredPhysicalChunkIDs : list Z; cmMutationOperation : MutationOperationRecord }.

#[export] Instance CommitWriteMetadataRequest_settable : Settable CommitWriteMetadataRequest := fun x =>
  mkCommitWriteMetadataRequest (cmVolumeID x) (cmExpectedEpoch x) (cmExpectedRevision x)
  (cmIdempotencyKey x) (cmExpectedIdempotencyState x) (cmCommittedRevision x) (cmAttachmentID x)
  (cmGeneration x) (cmAllowMissingWriteIntent x) (cmAllocationPages x)
  (cmNormalizeExtentMappings x) (cmMutationOperationID x) (cmExpectedMutationState x)
  (cmAffectedExtentIDs x) (cmAffectedPageNos x) (cmAffectedPageChunkRanges x)
  (cmRetiredPhysicalChunkIDs x) (cmMutationOperation x).

Definition zero_CommitWriteMetadataRequest : CommitWriteMetadataRequest :=
  mkCommitWriteMetadataRequest "" 0 0 "" "" 0 "" 0 false [] [] "" "" [] [] [] []
  zero_MutationOperationRecord.

Record CommitWriteStateRequest := mkCommitWriteStateRequest {
  ctVolumeID : string; ctExpectedEpoch : Z; ctExpectedRevision : Z; ctIdempotencyKey : string;
  ctExpectedIdempotencyState : string; ctCommittedRevision : Z; ctAttachmentID : string;
  ctGeneration : Z; ctAllowMissingWriteIntent : bool }.

#[export] Instance CommitWriteStateRequest_settable : Settable CommitWriteStateRequest := fun x =>
  mkCommitWriteStateRequest (ctVolumeID x) (ctExpectedEpoch x) (ctExpectedRevision x)
  (ctIdempotencyKey x) (ctExpectedIdempotencyState x) (ctCommittedRevision x) (ctAttachmentID x)
  (ctGeneration x) (ctAllowMissingWriteIntent x).

Definition zero_CommitWriteStateRequest : CommitWriteStateRequest :=
  mkCommitWriteStateRequest "" 0 0 "" "" 0 "" 0 false.

Record ApplyCommittedWriteEffectsRequest := mkApplyCommittedWriteEffectsRequest {
  ceVolumeID : string; ceCommittedRevision : Z; ceAllocationPages : list AllocationPageRecord;
  ceNormalizeExtentMappings : list Z; ceMutationOperationID : string;
  ceExpectedMutationState : string; ceAffectedExtentIDs : list Z; ceAffectedPageNos : list Z;
  ceAffectedPageChunkRanges : list AllocationPageChunkRangeRecord;
  ceRetiredPhysicalChunkIDs : list Z; ceMutationOperation : MutationOperationRecord }.

#[export] Instance ApplyCommittedWriteEffectsRequest_settable : Settable ApplyCommittedWriteEffectsRequest := fun x =>
  mkApplyCommittedWriteEffectsRequest (ceVolumeID x) (ceCommittedRevision x)
  (ceAllocationPages x) (ceNormalizeExtentMappings x) (ceMutationOperationID x)
  (ceExpectedMutationState x) (ceAffectedExtentIDs x) (ceAffectedPageNos x)
  (ceAffectedPageChunkRanges x) (ceRetiredPhysicalChunkIDs x) (ceMutationOperation x).

Definition zero_ApplyCommittedWriteEffectsRequest : ApplyCommittedWriteEffectsRequest :=
  mkApplyCommittedWriteEffectsRequest "" 0 [] [] "" "" [] [] [] [] zero_MutationOperationRecord.

Record rangeLocalWriteStateRecord := mkrangeLocalWriteStateRecord {
  rlVolumeID : string; rlPageNo : Z; rlRevision : Z; rlIdempotencyKey : string;
  rlUpdatedAtUnix : Z }.

#[export] Instance rangeLocalWriteStateRecord_settable : Settable rangeLocalWriteStateRecord := fun x =>
  mkrangeLocalWriteStateRecord (rlVolumeID x) (rlPageNo x) (rlRevision x) (rlIdempotencyKey x)
  (rlUpdatedAtUnix x).

Definition zero_rangeLocalWriteStateRecord : rangeLocalWriteStateRecord :=
  mkrangeLocalWriteStateRecord "" 0 0 "" 0.

Record CommitPrimaryFailoverRequest := mkCommitPrimaryFailoverRequest {
  pfVolumeID : string; pfReplicaSetID : string; pfExpectedVolumeEpoch : Z;
  pfExpectedReplicaSetEpoch : Z; pfExpectedPrimaryReplicaID : string;
  pfNewPrimaryReplicaID : string }.

#[export] Instance CommitPrimaryFailoverRequest_settable : Settable CommitPrimaryFailoverRequest := fun x =>
  mkCommitPrimaryFailoverRequest (pfVolumeID x) (pfReplicaSetID x) (pfExpectedVolumeEpoch x)
  (pfExpectedReplicaSetEpoch x) (pfExpectedPrimaryReplicaID x) (pfNewPrimaryReplicaID x).

Definition zero_CommitPrimaryFailoverRequest : CommitPrimaryFailoverRequest :=
  mkCommitPrimaryFailoverRequest "" "" 0 0 "" "".

Record SnapshotRecord := mkSnapshotRecord {
  snSnapshotID : string; snSourceVolumeID : string; snSnapshotRootID : string; snState : string;
  snCreatedBy : string; snCreatedReason : string; snCreatedAtUnix : Z; snUpdatedAtUnix : Z;
  snCutVolumeRevision : Z; snAllocationChunkSizeBytes : Z; snAllocationPageSizeBytes : Z;
  snSourceSizeBytes : Z; snCloneReferenceCount : Z; snIdempotencyKey : string;
  snErrorMessage : string }.

#[export] Instance SnapshotRecord_settable : Settable SnapshotRecord := fun x =>
  mkSnapshotRecord (snSnapshotID x) (snSourceVolumeID x) (snSnapshotRootID x) (snState x)
  (snCreatedBy x) (snCreatedReason x) (snCreatedAtUnix x) (snUpdatedAtUnix x)
  (snCutVolumeRevision x) (snAllocationChunkSizeBytes x) (snAllocationPageSizeBytes x)
  (snSourceSizeBytes x) (snCloneReferenceCount x) (snIdempotencyKey x) (snErrorMessage x).

Definition zero_SnapshotRecord : SnapshotRecord :=
  mkSnapshotRecord "" "" "" "" "" "" 0 0 0 0 0 0 0 "" "".

Record SnapshotIdempotencyRecord := mkSnapshotIdempotencyRecord {
  siSourceVolumeID : string; siIdempotencyKey : string; siSnapshotID : string;
  siCreatedAtUnix : Z; siLastObservedUnix : Z }.

#[export] Instance SnapshotIdempotencyRecord_settable : Settable SnapshotIdempotencyRecord := fun x =>
  mkSnapshotIdempotencyRecord (siSourceVolumeID x) (siIdempotencyKey x) (siSnapshotID x)
  (siCreatedAtUnix x) (siLastObservedUnix x).

Definition zero_SnapshotIdempotencyRecord : SnapshotIdempotencyRecord :=
  mkSnapshotIdempotencyRecord "" "" "" 0 0.

Record CloneRecord := mkCloneRecord {
  clCloneID : string; clSourceSnapshotID : string; clSourceVolumeID : string;
  clCloneBaseRootID : string; clState : string; clCreatedBy : string; clCreatedReason : string;
  clCreatedAtUnix : Z; clUpdatedAtUnix : Z; clMaterializedVolumeID : string;
  clAllocationChunkSizeBytes : Z; clAllocationPageSizeBytes : Z; clSizeBytes : Z;
  clSourceSizeBytes : Z; clDeltaPageCount : Z; clDeltaObjectCount : Z;
  clIdempotencyKey : string; clErrorMessage : string }.

#[export] Instance CloneRecord_settable : Settable CloneRecord := fun x =>
  mkCloneRecord (clCloneID x) (clSourceSnapshotID x) (clSourceVolumeID x) (clCloneBaseRootID x)
  (clState x) (clCreatedBy x) (clCreatedReason x) (clCreatedAtUnix x) (clUpdatedAtUnix x)
  (clMaterializedVolumeID x) (clAllocationChunkSizeBytes x) (clAllocationPageSizeBytes x)
  (clSizeBytes x) (clSourceSizeBytes x) (clDeltaPageCount x) (clDeltaObjectCount x)
  (clIdempotencyKey x) (clErrorMessage x).

Definition zero_CloneRecord : CloneRecord :=
  mkCloneRecord "" "" "" "" "" "" "" 0 0 "" 0 0 0 0 0 0 "" "".

Record CloneIdempotencyRecord := mkCloneIdempotencyRecord {
  ciSourceSnapshotID : string; ciIdempotencyKey : string; ciCloneID : string;
  ciCreatedAtUnix : Z; ciLastObservedUnix : Z }.

#[export] Instance CloneIdempotencyRecord_settable : Settable CloneIdempotencyRecord := fun x =>
  mkCloneIdempotencyRecord (ciSourceSnapshotID x) (ciIdempotencyKey x) (ciCloneID x)
  (ciCreatedAtUnix x) (ciLastObservedUnix x).

Definition zero_CloneIdempotencyRecord : CloneIdempotencyRecord :=
  mkCloneIdempotencyRecord "" "" "" 0 0.

Record snapshotSourceIndexRecord := mksnapshotSourceIndexRecord {
  sxSourceVolumeID : string; sxSnapshotID : string; sxCreatedAtUnix : Z }.

#[export] Instance snapshotSourceIndexRecord_settable : Settable snapshotSourceIndexRecord := fun x =>
  mksnapshotSourceIndexRecord (sxSourceVolumeID x) (sxSnapshotID x) (sxCreatedAtUnix x).

Definition zero_snapshotSourceIndexRecord : snapshotSourceIndexRecord :=
  mksnapshotSourceIndexRecord "" "" 0.

Record cloneSourceIndexRecord := mkcloneSourceIndexRecord {
  cxSourceSnapshotID : string; cxSourceVolumeID : string; cxCloneID : string;
  cxCreatedAtUnix : Z }.

#[export] Instance cloneSourceIndexRecord_settable : Settable cloneSourceIndexRecord := fun x =>
  mkcloneSourceIndexRecord (cxSourceSnapshotID x) (cxSourceVolumeID x) (cxCloneID x)
  (cxCreatedAtUnix x).

Definition zero_cloneSourceIndexRecord : cloneSourceIndexRecord :=
  mkcloneSourceIndexRecord "" "" "" 0.

Definition StateCommitRequest (r : CommitWriteMetadataRequest) : CommitWriteStateRequest :=
  mkCommitWriteStateRequest (cmVolumeID r) (cmExpectedEpoch r) (cmExpectedRevision r)
    (cmIdempotencyKey r) (cmExpectedIdempotencyState r) (cmCommittedRevision r) (cmAttachmentID r)
    (cmGeneration r) (cmAllowMissingWriteIntent r).

Definition EffectsApplyRequest (r : CommitWriteMetadataRequest) : ApplyCommittedWriteEffectsRequest :=
  mkApplyCommittedWriteEffectsRequest (cmVolumeID r) (cmCommittedRevision r) (cmAllocationPages r)
    (cmNormalizeExtentMappings r) (cmMutationOperationID r) (cmExpectedMutationState r)
    (cmAffectedExtentIDs r) (cmAffectedPageNos r) (cmAffectedPageChunkRanges r)
    (cmRetiredPhysicalChunkIDs r) (cmMutationOperation r).

Definition MatchesCommittedMutationOperation (r : ApplyCommittedWriteEffectsRequest)
    (operation : MutationOperationRecord) : bool :=
  String.eqb (moState operation) MutationOperationCommitted
  && (moAllocationRevision operation =? ceCommittedRevision r)
  && bool_decide (moAffectedExtentIDs operation = ceAffectedExtentIDs r)
  && bool_decide (moAffectedPageNos operation = ceAffectedPageNos r)
  && bool_decide (moRetiredPhysicalChunkIDs operation = ceRetiredPhysicalChunkIDs r).

End Meta.
