(* ===== verification/AllocationCommit.v ===== *)
(** * Allocation pages of a replicated write

    Models src/sbs/cluster/replication: allocation_read.go (what the allocation
    pages of a plan say about a logical chunk), allocation_commit.go (the page
    states a write commits), allocation_plan.go (assigning chunk ids to a
    planned write), the page merge of allocation_retry.go and the zero-write
    check of executor.go.

    A [*allocationCommitPageState] is shared through the map [pageStates]; the
    pending chunks therefore carry the page number under which it is stored.
    Loops over a range of chunks run as many steps as the range has chunks.
    The chunk id allocator is the argument [allocator], [None] when it is nil. *)

From Stdlib Require Import ZArith Lia Ascii String.
From stdpp Require Import base list gmap strings sorting.
From S2P Require Import Prelude SbsTypes.
Open Scope string_scope.
Open Scope Z_scope.

Module Allocation.
Import Sbs.

Inductive alloc_error :=
| InvalidGeometry (pageNo pageBytes chunkSizeBytes : Z)
| ExtentOutOfPage (pageNo start end_ : Z)
| NoPhysicalChunk (extentID logicalChunk : Z)
| ChunkSizeMismatch (extentID plan req : Z)
| AllocatorNotConfigured
| AllocatorError.

(** [l[i] = x], with the panic of an index out of range. *)
Definition set_at {A} (l : list A) (i : Z) (x : A) : result alloc_error (list A) :=
  if (0 <=? i) && (i <? zlen l) then Ok (<[Z.to_nat i := x]> l) else Panic.

(** ** allocation_read.go *)

(** The extent record of a page that holds a logical chunk. *)
Fixpoint extent_of (extents : list AllocationExtentRecord) (logicalChunk : Z)
  : option AllocationExtentRecord :=
  match extents with
  | [] => None
  | extent :: extents =>
      let start := aeLogicalChunkStart extent in
      let end_ := add64 start (aeChunkCount extent) in
      if (logicalChunk <? start) || (end_ <=? logicalChunk) then extent_of extents logicalChunk
      else Some extent
  end.

(** The results of [logicalChunkAllocationRecord]. *)
Record chunk_state := mkChunkState {
  covered : bool; zero : bool; physicalChunkID : Z; payloadVolumeID : string;
  encryption : option PayloadEncryptionHeader }.

Fixpoint logicalChunkAllocationRecord (pages : list ResolvedAllocationPage) (logicalChunk : Z)
  : chunk_state :=
  match pages with
  | [] => mkChunkState false false 0 "" None
  | page :: pages =>
      if (logicalChunk <? raRangeStartChunk page) || (raRangeEndChunk page <=? logicalChunk)
      then logicalChunkAllocationRecord pages logicalChunk else
      match extent_of (apExtents (raPage page)) logicalChunk with
      | None => mkChunkState false false 0 "" None
      | Some extent =>
          if String.eqb (aeKind extent) AllocationKindZero
          then mkChunkState true true 0 (apVolumeID (raPage page)) None else
          if String.eqb (aeKind extent) AllocationKindData
          then mkChunkState true false
                 (add64 (aePhysicalChunkStart extent)
                    (sub64 logicalChunk (aeLogicalChunkStart extent)))
                 (apVolumeID (raPage page)) (aeEncryption extent)
          else mkChunkState true false 0 (apVolumeID (raPage page)) None
      end
  end.

Definition logicalChunkAllocationState (pages : list ResolvedAllocationPage) (logicalChunk : Z)
  : bool * bool * Z * string :=
  let c := logicalChunkAllocationRecord pages logicalChunk in
  (covered c, zero c, physicalChunkID c, payloadVolumeID c).

(** The loop of [readRangeSatisfiedByZeroAllocation]. *)
Fixpoint zero_range (n : nat) (logicalChunk : Z) (pages : list ResolvedAllocationPage) : bool :=
  match n with
  | O => true
  | S n =>
      let c := logicalChunkAllocationRecord pages logicalChunk in
      if negb (covered c) || negb (zero c) then false
      else zero_range n (add64 logicalChunk 1) pages
  end.

(** First chunk and number of chunks of a byte range. *)
Definition chunk_span (start length chunkSize : Z) : Z * nat :=
  let startChunk := start / chunkSize in
  let endChunk := sub64 (add64 start length) 1 / chunkSize in
  (startChunk, Z.to_nat (endChunk - startChunk + 1)).

Definition readRangeSatisfiedByZeroAllocation (plan : ExtentReadPlan) (offset length : Z) : bool :=
  if (rpChunkSizeBytes plan =? 0) || (zlen (rpAllocationPages plan) =? 0) then false else
  match overlapRange (emLogicalOffset (rpExtent plan)) (emLengthBytes (rpExtent plan)) offset length with
  | None => false
  | Some (readStart, readLength) =>
      if readLength =? 0 then false else
      let '(startChunk, n) := chunk_span readStart readLength (rpChunkSizeBytes plan) in
      zero_range n startChunk (rpAllocationPages plan)
  end.

Fixpoint read_mappings (n : nat) (logicalChunk : Z) (pages : list ResolvedAllocationPage)
  : option (list resolvedChunkRead) :=
  match n with
  | O => Some []
  | S n =>
      let c := logicalChunkAllocationRecord pages logicalChunk in
      if negb (covered c) then None else
      rest ← read_mappings n (add64 logicalChunk 1) pages;
      Some (mkresolvedChunkRead logicalChunk (physicalChunkID c) (payloadVolumeID c) (zero c)
              (encryption c) :: rest)
  end.

Definition resolvedReadChunkMappings (plan : ExtentReadPlan) (offset length : Z)
  : option (list resolvedChunkRead) :=
  if (rpChunkSizeBytes plan =? 0) || (zlen (rpAllocationPages plan) =? 0) then None else
  match overlapRange (emLogicalOffset (rpExtent plan)) (emLengthBytes (rpExtent plan)) offset length with
  | None => None
  | Some (readStart, readLength) =>
      if readLength =? 0 then None else
      let '(startChunk, n) := chunk_span readStart readLength (rpChunkSizeBytes plan) in
      read_mappings n startChunk (rpAllocationPages plan)
  end.

Definition resolvedReadPhysicalChunkID (plan : ExtentReadPlan) (offset length : Z) : option Z :=
  match resolvedReadChunkMappings plan offset length with
  | Some [c] => if cdZero c || (cdPhysicalChunkID c =? 0) then None else Some (cdPhysicalChunkID c)
  | _ => None
  end.

Definition shouldSkipChunkPayloadWrite (zeroSemantic : bool)
    (chunkStart chunkEnd copyStart copyEnd : Z) : bool :=
  zeroSemantic && (copyStart =? chunkStart) && (copyEnd =? chunkEnd).

Fixpoint write_mappings (n : nat) (logicalChunk : Z) (plan : ExtentWritePlan)
    (zeroSemantic : bool) (writeStart writeLength : Z) : option (list resolvedChunkWrite) :=
  match n with
  | O => Some []
  | S n =>
      let chunkSize := wpChunkSizeBytes plan in
      let chunkStart := mul64 logicalChunk chunkSize in
      let chunkEnd := add64 chunkStart chunkSize in
      let copyStart := Z.max writeStart chunkStart in
      let copyEnd := Z.min (add64 writeStart writeLength) chunkEnd in
      let c := logicalChunkAllocationRecord (wpAllocationPages plan) logicalChunk in
      if negb (covered c) then None else
      if shouldSkipChunkPayloadWrite zeroSemantic chunkStart chunkEnd copyStart copyEnd
      then write_mappings n (add64 logicalChunk 1) plan zeroSemantic writeStart writeLength else
      if zero c || (physicalChunkID c =? 0) then None else
      let base :=
        if wpCopyOnWrite plan && negb (zlen (wpBaseAllocations plan) =? 0) then
          let b := logicalChunkAllocationRecord (wpBaseAllocations plan) logicalChunk in
          if negb (zero b) then (physicalChunkID b, encryption b) else (0, None)
        else (0, None) in
      rest ← write_mappings n (add64 logicalChunk 1) plan zeroSemantic writeStart writeLength;
      Some (mkresolvedChunkWrite logicalChunk (physicalChunkID c) base.1 (encryption c) base.2 :: rest)
  end.

Definition resolvedWriteChunkMappings (plan : ExtentWritePlan) (req : ReplicaWriteRequest)
  : option (list resolvedChunkWrite) :=
  if (wpChunkSizeBytes plan =? 0) || (zlen (wpAllocationPages plan) =? 0) then None else
  match overlapRange (emLogicalOffset (wpExtent plan)) (emLengthBytes (wpExtent plan))
          (rwOffsetBytes req) (rwLengthBytes req) with
  | None => None
  | Some (writeStart, writeLength) =>
      if writeLength =? 0 then None else
      let '(startChunk, n) := chunk_span writeStart writeLength (wpChunkSizeBytes plan) in
      write_mappings n startChunk plan (rwZeroSemantic req) writeStart writeLength
  end.

Definition resolvedWritePhysicalChunkIDs (plan : ExtentWritePlan) (req : ReplicaWriteRequest)
  : option (list Z) := option_map (map cwPhysicalChunkID) (resolvedWriteChunkMappings plan req).

Definition resolvedWritePhysicalChunkID (plan : ExtentWritePlan) (req : ReplicaWriteRequest)
  : option Z :=
  if (wpChunkSizeBytes plan =? 0) || (zlen (wpAllocationPages plan) =? 0) then None else
  match overlapRange (emLogicalOffset (wpExtent plan)) (emLengthBytes (wpExtent plan))
          (rwOffsetBytes req) (rwLengthBytes req) with
  | None => None
  | Some (writeStart, writeLength) =>
      if writeLength =? 0 then None else
      let startChunk := writeStart / wpChunkSizeBytes plan in
      let endChunk := sub64 (add64 writeStart writeLength) 1 / wpChunkSizeBytes plan in
      if negb (startChunk =? endChunk) then None else
      let c := logicalChunkAllocationRecord (wpAllocationPages plan) startChunk in
      if negb (covered c) || zero c || (physicalChunkID c =? 0) then None
      else Some (physicalChunkID c)
  end.

Definition canOmitZeroSemanticPayload (plan : ExtentWritePlan) (req : ReplicaWriteRequest) : bool :=
  if negb (rwZeroSemantic req) then false else
  match resolvedWriteChunkMappings plan req with Some [] => true | _ => false end.

(** ** allocation_commit.go *)

Record allocationCommitPageState := mkPageState {
  csVolumeID : string; csPageNo : Z; csPageBytes : Z; csChunkSizeBytes : Z; csRevision : Z;
  csOriginal : list Z; csPhysical : list Z; csHeaders : list (option PayloadEncryptionHeader) }.

#[export] Instance allocationCommitPageState_settable : Settable allocationCommitPageState := fun x =>
  mkPageState (csVolumeID x) (csPageNo x) (csPageBytes x) (csChunkSizeBytes x) (csRevision x)
    (csOriginal x) (csPhysical x) (csHeaders x).

Definition page_mappings := (list Z * list (option PayloadEncryptionHeader))%type.

(** The inner loop of [expandAllocationPageChunkMappings] over one extent. *)
Fixpoint expand_extent (n : nat) (logicalChunk : Z) (extent : AllocationExtentRecord)
    (pageStartChunk : Z) (acc : page_mappings) : result alloc_error page_mappings :=
  match n with
  | O => Ok acc
  | S n =>
      let index := sub64 logicalChunk pageStartChunk in
      let data := String.eqb (aeKind extent) AllocationKindData in
      ids ← set_at acc.1 index
              (if data then add64 (aePhysicalChunkStart extent)
                              (sub64 logicalChunk (aeLogicalChunkStart extent)) else 0);
      headers ← set_at acc.2 index (if data then aeEncryption extent else None);
      expand_extent n (add64 logicalChunk 1) extent pageStartChunk (ids, headers)
  end.

Fixpoint expand_extents (extents : list AllocationExtentRecord)
    (pageNo pageStartChunk pageEndChunk : Z) (acc : page_mappings) : result alloc_error page_mappings :=
  match extents with
  | [] => Ok acc
  | extent :: extents =>
      let start := aeLogicalChunkStart extent in
      let end_ := add64 start (aeChunkCount extent) in
      if (start <? pageStartChunk) || (pageEndChunk <? end_)
      then Err (ExtentOutOfPage pageNo start end_) else
      acc ← expand_extent (Z.to_nat (end_ - start)) start extent pageStartChunk acc;
      expand_extents extents pageNo pageStartChunk pageEndChunk acc
  end.

Definition expandAllocationPageChunkMappings (page : AllocationPageRecord)
  : result alloc_error page_mappings :=
  if apChunkSizeBytes page =? 0 then Panic else
  let chunksPerPage := apPageBytes page / apChunkSizeBytes page in
  let pageStartChunk := mul64 (apPageNo page) chunksPerPage in
  let pageEndChunk := add64 pageStartChunk chunksPerPage in
  expand_extents (apExtents page) (apPageNo page) pageStartChunk pageEndChunk
    (replicate (Z.to_nat chunksPerPage) 0, replicate (Z.to_nat chunksPerPage) None).

Definition bad_geometry (page : AllocationPageRecord) : bool :=
  (apPageBytes page =? 0) || (apChunkSizeBytes page =? 0)
  || negb (apPageBytes page mod apChunkSizeBytes page =? 0).

Definition newAllocationCommitPageState (page : AllocationPageRecord)
  : result alloc_error allocationCommitPageState :=
  if bad_geometry page
  then Err (InvalidGeometry (apPageNo page) (apPageBytes page) (apChunkSizeBytes page)) else
  m ← expandAllocationPageChunkMappings page;
  Ok (mkPageState (apVolumeID page) (apPageNo page) (apPageBytes page) (apChunkSizeBytes page)
        (apRevision page) m.1 m.1 m.2).

(** The run of unmapped chunks at the head of [ids]. *)
Fixpoint zero_run (ids : list Z) : nat :=
  match ids with
  | id :: ids => if id =? 0 then S (zero_run ids) else O
  | [] => O
  end.

Definition commitPayloadEncryptionHeaderAt (headers : list (option PayloadEncryptionHeader)) (index : Z)
  : option PayloadEncryptionHeader :=
  if (index <? 0) || (zlen headers <=? index) then None
  else default None (headers !! Z.to_nat index).

(** The chunks at the head of [ids] that continue the run from [physicalStart]:
    [off] is the distance from its first chunk, [j] the index into [headers]. *)
Fixpoint data_run (ids : list Z) (headers : list (option PayloadEncryptionHeader)) (j : Z)
    (physicalStart off : Z) : nat :=
  match ids with
  | id :: ids =>
      if (id =? add64 physicalStart off) && negb (isSome (commitPayloadEncryptionHeaderAt headers j))
      then S (data_run ids headers (j + 1) physicalStart (off + 1)) else O
  | [] => O
  end.

(** The loop of [compressAllocationCommitChunkMappings] from index [i] on,
    where [ids] are the chunk ids from there. *)
Fixpoint compress_loop (fuel : nat) (pageStartChunk i : Z) (ids : list Z)
    (headers : list (option PayloadEncryptionHeader)) : list AllocationExtentRecord :=
  match fuel, ids with
  | S fuel, physicalStart :: rest =>
      let logicalStart := add64 pageStartChunk i in
      if physicalStart =? 0 then
        let k := zero_run rest in
        zero_AllocationExtentRecord <| aeLogicalChunkStart := logicalStart |>
          <| aeChunkCount := wrap32 (1 + Z.of_nat k) |> <| aeKind := AllocationKindZero |>
        :: compress_loop fuel pageStartChunk (i + 1 + Z.of_nat k) (drop k rest) headers
      else
        let header := commitPayloadEncryptionHeaderAt headers i in
        let k := if isSome header then O else data_run rest headers (i + 1) physicalStart 1 in
        zero_AllocationExtentRecord <| aeLogicalChunkStart := logicalStart |>
          <| aeChunkCount := wrap32 (1 + Z.of_nat k) |> <| aeKind := AllocationKindData |>
          <| aePhysicalChunkStart := physicalStart |> <| aeEncryption := header |>
        :: compress_loop fuel pageStartChunk (i + 1 + Z.of_nat k) (drop k rest) headers
  | _, _ => []
  end.

Definition compressAllocationCommitChunkMappings (pageStartChunk : Z) (physicalChunkIDs : list Z)
    (encryptionHeaders : list (option PayloadEncryptionHeader)) : list AllocationExtentRecord :=
  compress_loop (length physicalChunkIDs) pageStartChunk 0 physicalChunkIDs encryptionHeaders.

Definition page_start (s : allocationCommitPageState) : Z :=
  mul64 (csPageNo s) (csPageBytes s / csChunkSizeBytes s).

Definition toRecord (s : allocationCommitPageState) : AllocationPageRecord :=
  mkAllocationPageRecord (csVolumeID s) (csPageNo s) (csPageBytes s) (csChunkSizeBytes s)
    (csRevision s)
    (compressAllocationCommitChunkMappings (page_start s) (csPhysical s) (csHeaders s)).

Fixpoint retired_loop (original physical : list Z) (seen : gset Z) : list Z :=
  match original, physical with
  | o :: original, p :: physical =>
      if (o =? 0) || (o =? p) then retired_loop original physical seen else
      if bool_decide (o ∈ seen) then retired_loop original physical seen else
      o :: retired_loop original physical ({[o]} ∪ seen)
  | _, _ => []
  end.

Definition retiredPhysicalChunkIDs (s : allocationCommitPageState) : list Z :=
  if (zlen (csOriginal s) =? 0) || negb (zlen (csOriginal s) =? zlen (csPhysical s)) then []
  else retired_loop (csOriginal s) (csPhysical s) ∅.

Definition physicalChunkIDForCommittedWrite (plan : ExtentWritePlan) (logicalChunk : Z) : option Z :=
  let c := logicalChunkAllocationRecord (wpAllocationPages plan) logicalChunk in
  if (0 <? wpChunkSizeBytes plan) && (0 <? zlen (wpAllocationPages plan))
     && covered c && negb (physicalChunkID c =? 0)
  then Some (physicalChunkID c) else
  if (emChunkID (wpExtent plan) =? 0) || (wpChunkSizeBytes plan =? 0) then None else
  let extentStartChunk := emLogicalOffset (wpExtent plan) / wpChunkSizeBytes plan in
  if logicalChunk <? extentStartChunk then None
  else Some (add64 (emChunkID (wpExtent plan)) (sub64 logicalChunk extentStartChunk)).

(** The loop of [applyWrite]. *)
Fixpoint apply_loop (n : nat) (logicalChunk : Z) (plan : ExtentWritePlan) (zeroSemantic : bool)
    (writeStart writeEnd : Z) (headers : gmap Z PayloadEncryptionHeader)
    (s : allocationCommitPageState) : result alloc_error allocationCommitPageState :=
  match n with
  | O => Ok s
  | S n =>
      let chunkSize := csChunkSizeBytes s in
      let pageStartChunk := page_start s in
      let pageEndChunk := add64 pageStartChunk (zlen (csPhysical s)) in
      let next := apply_loop n (add64 logicalChunk 1) plan zeroSemantic writeStart writeEnd headers in
      if (logicalChunk <? pageStartChunk) || (pageEndChunk <=? logicalChunk) then next s else
      let chunkStart := mul64 logicalChunk chunkSize in
      let chunkEnd := add64 chunkStart chunkSize in
      let index := sub64 logicalChunk pageStartChunk in
      if zeroSemantic && (writeStart <=? chunkStart) && (chunkEnd <=? writeEnd) then
        ids ← set_at (csPhysical s) index 0;
        hs ← set_at (csHeaders s) index None;
        next (s <| csPhysical := ids |> <| csHeaders := hs |>)
      else
        match physicalChunkIDForCommittedWrite plan logicalChunk with
        | None => Err (NoPhysicalChunk (emExtentID (wpExtent plan)) logicalChunk)
        | Some id =>
            ids ← set_at (csPhysical s) index id;
            hs ← set_at (csHeaders s) index (headers !! logicalChunk);
            next (s <| csPhysical := ids |> <| csHeaders := hs |>)
        end
  end.

Definition applyWrite (s : allocationCommitPageState) (plan : ExtentWritePlan) (req : WriteRequest)
    (writeStart writeLength : Z) (headers : gmap Z PayloadEncryptionHeader)
  : result alloc_error allocationCommitPageState :=
  if writeLength =? 0 then Ok s else
  if csChunkSizeBytes s =? 0 then Panic else
  let '(startChunk, n) := chunk_span writeStart writeLength (csChunkSizeBytes s) in
  apply_loop n startChunk plan (wrZeroSemantic req) writeStart (add64 writeStart writeLength) headers s.

Definition allocationCommitAffectedPageChunkRange (page : AllocationPageRecord)
    (writeStart writeLength : Z) : result alloc_error (option AllocationPageChunkRangeRecord) :=
  if writeLength =? 0 then Ok None else
  if bad_geometry page
  then Err (InvalidGeometry (apPageNo page) (apPageBytes page) (apChunkSizeBytes page)) else
  let pageStart := mul64 (apPageNo page) (apPageBytes page) in
  let pageEnd := add64 pageStart (apPageBytes page) in
  let writeEnd := add64 writeStart writeLength in
  if (writeEnd <=? pageStart) || (pageEnd <=? writeStart) then Ok None else
  let overlapStart := Z.max writeStart pageStart in
  let overlapEnd := Z.min writeEnd pageEnd in
  let chunkSize := apChunkSizeBytes page in
  Ok (Some (mkAllocationPageChunkRangeRecord (apPageNo page)
    (sub64 overlapStart pageStart / chunkSize)
    (sub64 (add64 (sub64 overlapEnd pageStart) chunkSize) 1 / chunkSize))).

Definition range_le (a b : AllocationPageChunkRangeRecord) : Prop :=
  crPageNo a < crPageNo b \/ crPageNo a = crPageNo b /\
  (crStartChunk a < crStartChunk b \/ crStartChunk a = crStartChunk b /\ crEndChunk a <= crEndChunk b).

#[export] Instance range_le_dec : RelDecision range_le.
Proof. intros a b. unfold range_le. apply _. Defined.

(** The merging loop, with the last merged range split off. *)
Fixpoint merge_loop (ranges : list AllocationPageChunkRangeRecord)
    (cur : AllocationPageChunkRangeRecord) : list AllocationPageChunkRangeRecord :=
  match ranges with
  | [] => [cur]
  | rng :: ranges =>
      if negb (crPageNo rng =? crPageNo cur) || (crEndChunk cur <? crStartChunk rng)
      then cur :: merge_loop ranges rng
      else merge_loop ranges
             (if crEndChunk cur <? crEndChunk rng then cur <| crEndChunk := crEndChunk rng |> else cur)
  end.

Definition mergeAllocationCommitPageChunkRanges (ranges : list AllocationPageChunkRangeRecord)
  : list AllocationPageChunkRangeRecord :=
  match merge_sort range_le ranges with
  | [] => []
  | r :: rest => merge_loop rest r
  end.

(** ** allocation_retry.go *)

Fixpoint merge_pages (pages : list ResolvedAllocationPage) (current : ExtentWritePlan)
    (req : WriteRequest) (writeStart writeLength : Z) (headers : gmap Z PayloadEncryptionHeader)
  : result alloc_error (list ResolvedAllocationPage) :=
  match pages with
  | [] => Ok []
  | page :: pages =>
      state ← newAllocationCommitPageState (raPage page);
      state ← applyWrite state current req writeStart writeLength headers;
      rest ← merge_pages pages current req writeStart writeLength headers;
      Ok (page <| raPage := toRecord state |> :: rest)
  end.

Definition mergedRetryAllocationPages (current latest : ExtentWritePlan) (req : WriteRequest)
    (headers : gmap Z PayloadEncryptionHeader) : result alloc_error (list ResolvedAllocationPage) :=
  if zlen (wpAllocationPages latest) =? 0 then Ok [] else
  if (zlen (wpAllocationPages current) =? 0) || (wpChunkSizeBytes current =? 0)
  then Ok (wpAllocationPages latest) else
  match overlapRange (emLogicalOffset (wpExtent current)) (emLengthBytes (wpExtent current))
          (wrOffsetBytes req) (wrLengthBytes req) with
  | None => Ok (wpAllocationPages latest)
  | Some (writeStart, writeLength) =>
      if writeLength =? 0 then Ok (wpAllocationPages latest)
      else merge_pages (wpAllocationPages latest) current req writeStart writeLength headers
  end.

(** ** allocation_plan.go *)

Abbreviation page_states := (gmap Z allocationCommitPageState).

Fixpoint load_states (pages : list ResolvedAllocationPage) (states : page_states)
  : result alloc_error page_states :=
  match pages with
  | [] => Ok states
  | page :: pages =>
      let no := apPageNo (raPage page) in
      if isSome (states !! no) then load_states pages states else
      state ← newAllocationCommitPageState (raPage page);
      load_states pages (<[no := state]> states)
  end.

Fixpoint allocationPlanStateForLogicalChunk (states : page_states)
    (pages : list ResolvedAllocationPage) (logicalChunk : Z)
  : option (allocationCommitPageState * Z) :=
  match pages with
  | [] => None
  | page :: pages =>
      if (logicalChunk <? raRangeStartChunk page) || (raRangeEndChunk page <=? logicalChunk)
      then allocationPlanStateForLogicalChunk states pages logicalChunk else
      match states !! apPageNo (raPage page) with
      | None => None
      | Some state =>
          let pageStartChunk := page_start state in
          if (logicalChunk <? pageStartChunk)
             || (add64 pageStartChunk (zlen (csPhysical state)) <=? logicalChunk)
          then None else Some (state, pageStartChunk)
      end
  end.

(** A [pendingAllocatedChunk]: the number of its page and its logical chunk. *)
Definition pending := (Z * Z)%type.

(** The chunks of one extent that need a chunk id. *)
Fixpoint pending_loop (n : nat) (logicalChunk : Z) (extent : ExtentWritePlan) (zeroSemantic : bool)
    (writeStart writeEnd : Z) (states : page_states) : result alloc_error (list pending) :=
  match n with
  | O => Ok []
  | S n =>
      let chunkSize := wpChunkSizeBytes extent in
      let chunkStart := mul64 logicalChunk chunkSize in
      let chunkEnd := add64 chunkStart chunkSize in
      let next := pending_loop n (add64 logicalChunk 1) extent zeroSemantic writeStart writeEnd states in
      if zeroSemantic && (writeStart <=? chunkStart) && (chunkEnd <=? writeEnd) then next else
      match allocationPlanStateForLogicalChunk states (wpAllocationPages extent) logicalChunk with
      | None => next
      | Some (state, pageStartChunk) =>
          match csPhysical state !! Z.to_nat (sub64 logicalChunk pageStartChunk) with
          | None => Panic
          | Some id =>
              if negb (id =? 0) && negb (wpCopyOnWrite extent) then next else
              rest ← next; Ok ((csPageNo state, logicalChunk) :: rest)
          end
      end
  end.

Fixpoint pending_extents (extents : list ExtentWritePlan) (req : BeginWriteRequest)
    (states : page_states) : result alloc_error (page_states * list pending) :=
  match extents with
  | [] => Ok (states, [])
  | extent :: extents =>
      if (wpChunkSizeBytes extent =? 0) || (zlen (wpAllocationPages extent) =? 0)
      then pending_extents extents req states else
      match overlapRange (emLogicalOffset (wpExtent extent)) (emLengthBytes (wpExtent extent))
              (bwOffsetBytes req) (bwLengthBytes req) with
      | None => pending_extents extents req states
      | Some (writeStart, writeLength) =>
          if writeLength =? 0 then pending_extents extents req states else
          states ← load_states (wpAllocationPages extent) states;
          let '(startChunk, n) := chunk_span writeStart writeLength (wpChunkSizeBytes extent) in
          ps ← pending_loop n startChunk extent (bwZeroSemantic req) writeStart
                 (add64 writeStart writeLength) states;
          rest ← pending_extents extents req states;
          Ok (rest.1, (ps ++ rest.2)%list)
      end
  end.

(** Giving the pending chunks the ids from [id] on. *)
Fixpoint assign_ids (todo : list pending) (id : Z) (states : page_states)
  : result alloc_error page_states :=
  match todo with
  | [] => Ok states
  | (pageNo, logicalChunk) :: todo =>
      match states !! pageNo with
      | None => Panic
      | Some state =>
          ids ← set_at (csPhysical state) (sub64 logicalChunk (page_start state)) id;
          assign_ids todo (add64 id 1) (<[pageNo := state <| csPhysical := ids |>]> states)
      end
  end.

Definition rewrite_pages (states : page_states) (extent : ExtentWritePlan) : ExtentWritePlan :=
  extent <| wpAllocationPages :=
    map (fun page => match states !! apPageNo (raPage page) with
                     | Some state => page <| raPage := toRecord state |>
                     | None => page
                     end) (wpAllocationPages extent) |>.

Section Plan.
Context {W : Type} (allocator : option (string -> Z -> act W alloc_error Z)).

Definition prepareWritePlanAllocations (plan : WritePlan) (req : BeginWriteRequest)
  : act W alloc_error WritePlan :=
  bind_act (lift_act (pending_extents (wplExtents plan) req ∅)) (fun '(states, todo) =>
  if zlen todo =? 0 then ret_act plan else
  match allocator with
  | None => fail_act AllocatorNotConfigured
  | Some allocate =>
      bind_act (allocate (bwVolumeID req) (wrap32 (zlen todo))) (fun startChunkID =>
      bind_act (lift_act (assign_ids todo startChunkID states)) (fun states =>
      ret_act (plan <| wplExtents := map (rewrite_pages states) (wplExtents plan) |>)))
  end).

End Plan.

(** ** The zero-write check of executor.go *)

Definition allocationPageChunkIsZero (page : AllocationPageRecord) (logicalChunk : Z) : bool :=
  match extent_of (apExtents page) logicalChunk with
  | None => false
  | Some extent => String.eqb (aeKind extent) AllocationKindZero
  end.

Fixpoint resolvedAllocationPagesChunkIsZero (pages : list ResolvedAllocationPage) (logicalChunk : Z)
  : bool :=
  match pages with
  | [] => false
  | page :: pages =>
      if (logicalChunk <? raRangeStartChunk page) || (raRangeEndChunk page <=? logicalChunk)
      then resolvedAllocationPagesChunkIsZero pages logicalChunk
      else allocationPageChunkIsZero (raPage page) logicalChunk
  end.

Fixpoint all_zero (n : nat) (logicalChunk : Z) (pages : list ResolvedAllocationPage) : bool :=
  match n with
  | O => true
  | S n => resolvedAllocationPagesChunkIsZero pages logicalChunk
           && all_zero n (add64 logicalChunk 1) pages
  end.

(** The extents of the plan from here on; [touched] once a chunk was checked. *)
Fixpoint zero_noop_loop (extents : list ExtentWritePlan) (req : BeginWriteRequest) (touched : bool)
  : bool :=
  match extents with
  | [] => touched
  | extent :: extents =>
      if wpCopyOnWrite extent || negb (emChunkID (wpExtent extent) =? 0)
         || (wpChunkSizeBytes extent =? 0) || (zlen (wpAllocationPages extent) =? 0) then false else
      match overlapRange (emLogicalOffset (wpExtent extent)) (emLengthBytes (wpExtent extent))
              (bwOffsetBytes req) (bwLengthBytes req) with
      | None => false
      | Some (writeStart, writeLength) =>
          if writeLength =? 0 then zero_noop_loop extents req touched else
          let '(startChunk, n) := chunk_span writeStart writeLength (wpChunkSizeBytes extent) in
          if all_zero n startChunk (wpAllocationPages extent)
          then zero_noop_loop extents req (touched || negb (Nat.eqb n 0)) else false
      end
  end.

Definition writePlanIsZeroNoop (plan : WritePlan) (req : BeginWriteRequest) : bool :=
  if negb (bwAllowZeroNoop req) || negb (bwZeroSemantic req) || (bwLengthBytes req =? 0)
     || (bwChunkSizeBytes req =? 0) then false
  else zero_noop_loop (wplExtents plan) req false.

End Allocation.
