(* ===== verification/AllocationCommitFacts.v ===== *)
(** * Allocation commits: what the page records say

    The page records a write commits: compressing a page state and expanding it
    again gives the mappings back, applying a write changes exactly the written
    chunks, merging the affected ranges keeps their chunks, and what a commit
    that is retried after a conflict reports as retired. *)

From Stdlib Require Import ZArith Lia Ascii String Sorting.
From stdpp Require Import base list gmap strings sorting.
From S2P Require Import Prelude SbsTypes AllocationCommit.
Open Scope string_scope.
Open Scope Z_scope.

Module AllocationFacts.
Import Sbs Allocation.

(** ** Affected ranges *)

(** Chunk [c] of page [p] lies in one of the ranges. *)
Definition in_ranges (p c : Z) (l : list AllocationPageChunkRangeRecord) : Prop :=
  exists r, r ∈ l /\ crPageNo r = p /\ crStartChunk r <= c < crEndChunk r.

(** [a] and every later range are on different pages or have a gap between. *)
Definition apart (a b : AllocationPageChunkRangeRecord) : Prop :=
  crPageNo a < crPageNo b \/ crPageNo a = crPageNo b /\ crEndChunk a < crStartChunk b.

Lemma in_ranges_cons p c r l :
  in_ranges p c (r :: l) <-> (crPageNo r = p /\ crStartChunk r <= c < crEndChunk r) \/ in_ranges p c l.
Proof.
  unfold in_ranges. split.
  - intros (r' & [->|Hr]%elem_of_cons & Hc); [by left|right; eauto].
  - intros [Hc|(r' & Hr & Hc)]; [exists r|exists r']; rewrite elem_of_cons; auto.
Qed.

#[export] Instance range_le_total : Total range_le.
Proof. intros a b. unfold range_le. lia. Qed.
#[export] Instance range_le_trans : Transitive range_le.
Proof. intros a b c. unfold range_le. lia. Qed.

Definition proper_range (r : AllocationPageChunkRangeRecord) : Prop := crStartChunk r < crEndChunk r.

(** The loop on sorted ranges: the same chunks, and gaps between the results. *)
Lemma merge_loop_spec l : forall cur,
  StronglySorted range_le (cur :: l) -> Forall proper_range (cur :: l) ->
  exists r l', merge_loop l cur = r :: l' /\
    crPageNo r = crPageNo cur /\ crStartChunk r = crStartChunk cur /\ Forall proper_range (r :: l') /\
    (forall p c, in_ranges p c (r :: l') <-> in_ranges p c (cur :: l)) /\
    StronglySorted apart (r :: l') .
Proof.
  induction l as [|b l IH]; intros cur Hs Hne; cbn [merge_loop].
  { exists cur, []. do 4 (split; [done|]). split; [done|]. repeat constructor. }
  inversion Hs as [|? ? Hl Hall]; subst. inversion Hall as [|? ? Hb Hall']; subst.
  apply Forall_cons in Hne as [Hc Hne].
  destruct (negb (crPageNo b =? crPageNo cur) || (crEndChunk cur <? crStartChunk b)) eqn:Hsep.
  - destruct (IH b Hl Hne) as (r & l' & -> & Hp & Hst & Hr & Hin & Hsort). exists cur, (r :: l').
    do 3 (split; [done|]). split; [by constructor|]. split.
    + intros p c. rewrite (in_ranges_cons _ _ cur (r :: l')), (in_ranges_cons _ _ cur (b :: l)), Hin. done.
    + assert (apart cur r) as Ha by (unfold apart, range_le in *; rewrite Hp, Hst; lia).
      constructor; [done|]. constructor; [done|]. inversion Hsort as [|? ? _ Hrs]; subst.
      apply Forall_cons in Hr as [Hr _]. eapply Forall_impl; [exact Hrs|].
      intros x Hx. unfold apart, proper_range in *. lia.
  - set (cur' := if crEndChunk cur <? crEndChunk b then cur <| crEndChunk := crEndChunk b |> else cur).
    assert (crPageNo cur' = crPageNo cur /\ crStartChunk cur' = crStartChunk cur /\
      crEndChunk cur' = Z.max (crEndChunk cur) (crEndChunk b)) as (Ep & Est & Een).
    { unfold cur'. destruct (Z.ltb_spec (crEndChunk cur) (crEndChunk b)); cbn; lia. }
    clearbody cur'. unfold proper_range in Hc. apply Forall_cons in Hne as [Hbn Hne].
    unfold range_le in Hb. destruct (IH cur') as (r & l' & E & Hp & Hst & Hr & Hin & Hsort).
    + constructor; [by inversion Hl|]. inversion Hl as [|? ? _ Hbl]; subst.
      apply Forall_forall. intros x Hx. rewrite Forall_forall in Hall', Hbl.
      specialize (Hall' x Hx). specialize (Hbl x Hx). unfold range_le in *. lia.
    + constructor; [|done]. unfold proper_range in *. lia.
    + exists r, l'. split; [done|]. split; [lia|]. split; [lia|]. split; [done|]. split; [|done].
      intros p c. rewrite Hin, !in_ranges_cons. unfold proper_range in *.
      apply orb_false_iff in Hsep as [Hs1 Hs2]. split; intros Hx.
      * destruct Hx as [Hx|Hx]; [|tauto].
        destruct (decide (c < crEndChunk cur)); [left; lia|right; left; lia].
      * destruct Hx as [Hx|[Hx|Hx]]; [left; lia|left; lia|tauto].
Qed.

(** The affected chunk ranges of a commit.  Merging the ranges of the written
    pages keeps exactly the chunks they contain, and leaves ranges in ascending
    order with a gap between any two on the same page. *)
Theorem merged_ranges_exact (ranges : list AllocationPageChunkRangeRecord) :
  Forall proper_range ranges ->
  let merged := mergeAllocationCommitPageChunkRanges ranges in
  (forall p c, in_ranges p c merged <-> in_ranges p c ranges) /\ StronglySorted apart merged.
Proof.
  intros Hne merged. unfold merged, mergeAllocationCommitPageChunkRanges.
  pose proof (merge_sort_Permutation range_le ranges) as Hp.
  pose proof (StronglySorted_merge_sort range_le ranges) as Hs.
  assert (forall p c, in_ranges p c (merge_sort range_le ranges) <-> in_ranges p c ranges) as Hin.
  { intros p c. unfold in_ranges. by setoid_rewrite Hp. }
  destruct (merge_sort range_le ranges) as [|r l].
  { split; [done|constructor]. }
  destruct (merge_loop_spec l r Hs) as (r' & l' & -> & _ & _ & _ & Hm & Hsort); [by rewrite Hp|].
  split; [|done]. intros p c. by rewrite Hm.
Qed.

Lemma merged_ranges_exact_witness :
  let ranges := [mkAllocationPageChunkRangeRecord 1 4 8; mkAllocationPageChunkRangeRecord 0 2 3;
                 mkAllocationPageChunkRangeRecord 1 0 5; mkAllocationPageChunkRangeRecord 1 10 11] in
  let merged := mergeAllocationCommitPageChunkRanges ranges in
  (forall p c, in_ranges p c merged <-> in_ranges p c ranges) /\ StronglySorted apart merged.
Proof.
  refine (merged_ranges_exact _ _). repeat constructor.
Defined.

Example merged_ranges_demo :
  mergeAllocationCommitPageChunkRanges
    [mkAllocationPageChunkRangeRecord 1 4 8; mkAllocationPageChunkRangeRecord 0 2 3;
     mkAllocationPageChunkRangeRecord 1 0 5; mkAllocationPageChunkRangeRecord 1 10 11]
  = [mkAllocationPageChunkRangeRecord 0 2 3; mkAllocationPageChunkRangeRecord 1 0 8;
     mkAllocationPageChunkRangeRecord 1 10 11].
Proof. vm_compute. reflexivity. Qed.

(** ** Page states and page records *)

(** What an extent record says about a chunk. *)
Definition extent_id (e : AllocationExtentRecord) (lc : Z) : Z :=
  if String.eqb (aeKind e) AllocationKindData
  then add64 (aePhysicalChunkStart e) (sub64 lc (aeLogicalChunkStart e)) else 0.
Definition extent_header (e : AllocationExtentRecord) : option PayloadEncryptionHeader :=
  if String.eqb (aeKind e) AllocationKindData then aeEncryption e else None.

(** The lists [ids] and [hs] after entries from [i] on were replaced. *)
Definition updated (acc acc' : page_mappings) (P : Z -> Prop) `{!forall j, Decision (P j)}
    (f : Z -> option Z) (h : Z -> option (option PayloadEncryptionHeader)) : Prop :=
  zlen acc'.1 = zlen acc.1 /\ zlen acc'.2 = zlen acc.2 /\
  forall j, 0 <= j -> acc'.1 !! Z.to_nat j = (if decide (P j) then f j else acc.1 !! Z.to_nat j) /\
                      acc'.2 !! Z.to_nat j = (if decide (P j) then h j else acc.2 !! Z.to_nat j).

Lemma set_at_Ok {A} (l : list A) i x : 0 <= i < zlen l -> set_at l i x = Ok (<[Z.to_nat i := x]> l).
Proof. intros Hi. unfold set_at. destruct (Z.leb_spec 0 i), (Z.ltb_spec i (zlen l)); try lia. done. Qed.

Lemma zlen_insert {A} (l : list A) i x : zlen (<[i := x]> l) = zlen l.
Proof. unfold zlen. by rewrite length_insert. Qed.

Lemma lookup_set {A} (l : list A) i j x : 0 <= i < zlen l -> 0 <= j ->
  <[Z.to_nat i := x]> l !! Z.to_nat j = if decide (j = i) then Some x else l !! Z.to_nat j.
Proof.
  intros Hi Hj. destruct (decide (j = i)) as [->|Hne].
  - apply list_lookup_insert_eq. unfold zlen in Hi. lia.
  - apply list_lookup_insert_ne. lia.
Qed.

Lemma expand_extent_spec e ps n : forall lc acc,
  zlen acc.2 = zlen acc.1 -> 0 <= ps <= lc -> lc + Z.of_nat n <= ps + zlen acc.1 ->
  ps + zlen acc.1 < 2 ^ 64 ->
  exists acc', expand_extent n lc e ps acc = Ok acc' /\
    updated acc acc' (fun j => lc - ps <= j < lc - ps + Z.of_nat n)
      (fun j => Some (extent_id e (ps + j))) (fun _ => Some (extent_header e)).
Proof.
  induction n as [|n IH]; intros lc acc Hlen Hlc Hn Hb; cbn [expand_extent].
  { exists acc. split; [done|]. split; [done|]. split; [done|]. intros j Hj.
    destruct (decide _); [lia|done]. }
  rewrite (sub64_small lc ps) by (unfold in_u; lia). rewrite set_at_Ok by lia.
  cbn [mbind result_bind]. rewrite set_at_Ok by lia. cbn [mbind result_bind].
  rewrite (add64_small lc 1) by (unfold in_u; lia).
  fold (extent_id e lc). fold (extent_header e).
  set (acc1 := (<[Z.to_nat (lc - ps) := extent_id e lc]> acc.1,
                <[Z.to_nat (lc - ps) := extent_header e]> acc.2)).
  destruct (IH (lc + 1) acc1) as (acc' & E & H1 & H2 & Hj);
    [unfold acc1; cbn; by rewrite !zlen_insert|lia|unfold acc1; cbn; rewrite zlen_insert; lia..|].
  exists acc'. split; [done|]. unfold acc1 in H1, H2; cbn in H1, H2. rewrite zlen_insert in H1. rewrite zlen_insert in H2.
  split; [done|]. split; [done|]. intros j Hj0. destruct (Hj j Hj0) as [-> ->].
  unfold acc1. cbn [fst snd]. rewrite !lookup_set by lia.
  repeat (destruct (decide _)); try lia; try done. subst j. replace (ps + (lc - ps)) with lc by lia. done.
Qed.

Lemma zero_run_spec l : (zero_run l <= length l)%nat /\
  forall j, (j < zero_run l)%nat -> l !! j = Some 0.
Proof.
  induction l as [|x l [IH1 IH2]]; [split; [done|cbn; lia]|]. cbn [zero_run length].
  destruct (Z.eqb_spec x 0) as [->|]; [|split; [lia|lia]]. split; [lia|].
  intros [|j] Hj; [done|]. cbn. apply IH2. lia.
Qed.

Lemma data_run_spec hs p l : forall k off, (data_run l hs k p off <= length l)%nat /\
  forall j, (j < data_run l hs k p off)%nat -> l !! j = Some (add64 p (off + Z.of_nat j)) /\
    commitPayloadEncryptionHeaderAt hs (k + Z.of_nat j) = None.
Proof.
  induction l as [|x l IH]; intros k off; [split; [done|cbn; lia]|]. cbn [data_run length].
  destruct (IH (k + 1) (off + 1)) as [IH1 IH2].
  destruct (Z.eqb_spec x (add64 p off)) as [->|]; cbn [andb]; [|split; [lia|lia]].
  destruct (commitPayloadEncryptionHeaderAt hs k) eqn:Hh; cbn [isSome negb]; [split; [lia|lia]|].
  split; [lia|]. intros [|j] Hj.
  - cbn. by rewrite !Z.add_0_r.
  - destruct (IH2 j ltac:(lia)) as [E1 E2]. split; [etrans; [exact E1|]; do 2 f_equal; lia|].
    rewrite <-E2. f_equal. lia.
Qed.

(** The header a chunk ends up with: an unmapped chunk has none. *)
Definition kept_header (id : Z) (h : option PayloadEncryptionHeader) : option PayloadEncryptionHeader :=
  if id =? 0 then None else h.

(** One record of the compressed page: the run it stands for, and what it says. *)
Lemma run_record hs ps i p rest k e :
  0 <= ps -> 0 <= i -> ps + i + 1 + Z.of_nat k < 2 ^ 64 -> u64 p ->
  (p = 0 /\ k = zero_run rest /\
   e = zero_AllocationExtentRecord <| aeLogicalChunkStart := ps + i |>
         <| aeChunkCount := 1 + Z.of_nat k |> <| aeKind := AllocationKindZero |>) \/
  (p <> 0 /\ k = (if isSome (commitPayloadEncryptionHeaderAt hs i) then O
                 else data_run rest hs (i + 1) p 1) /\
   e = zero_AllocationExtentRecord <| aeLogicalChunkStart := ps + i |>
         <| aeChunkCount := 1 + Z.of_nat k |> <| aeKind := AllocationKindData |>
         <| aePhysicalChunkStart := p |> <| aeEncryption := commitPayloadEncryptionHeaderAt hs i |>) ->
  (k <= length rest)%nat /\
  forall j, i <= j < i + 1 + Z.of_nat k ->
    (p :: rest) !! Z.to_nat (j - i) = Some (extent_id e (ps + j)) /\
    extent_header e
    = kept_header (extent_id e (ps + j)) (commitPayloadEncryptionHeaderAt hs j).
Proof.
  intros Hps Hi Hb Hp [(-> & -> & ->)|(Hp0 & -> & ->)].
  - destruct (zero_run_spec rest) as [H1 H2]. split; [done|]. intros j Hj. cbn. split; [|done].
    destruct (Z.to_nat (j - i)) as [|m] eqn:Em; [done|]. cbn. apply H2. lia.
  - set (h := commitPayloadEncryptionHeaderAt hs i) in *. destruct (data_run_spec hs p rest (i + 1) 1) as [H1 H2].
    destruct (isSome h) eqn:Hh.
    + split; [lia|]. intros j Hj. replace j with i by lia. unfold extent_id, extent_header. cbn.
      rewrite Z.sub_diag, sub64_small, Z.sub_diag, add64_small by (unfold in_u in *; lia).
      rewrite Z.add_0_r. split; [done|]. unfold kept_header. by rewrite (proj2 (Z.eqb_neq p 0) Hp0).
    + assert (h = None) as Eh by (by destruct h). rewrite Eh. split; [done|]. intros j Hj.
      unfold extent_id, extent_header. cbn -[add64].
      rewrite sub64_small by (unfold in_u in *; lia). replace (ps + j - (ps + i)) with (j - i) by lia.
      destruct (Z.to_nat (j - i)) as [|m] eqn:Em.
      * replace j with i by lia. rewrite Z.sub_diag, add64_small, Z.add_0_r by (unfold in_u in *; lia).
        split; [done|]. fold h. rewrite Eh. unfold kept_header. by destruct (p =? 0).
      * destruct (H2 m ltac:(lia)) as [E1 E2]. split.
        -- etrans; [exact E1|]. do 2 f_equal. lia.
        -- replace j with (i + 1 + Z.of_nat m) by lia. rewrite E2. unfold kept_header. by destruct (_ =? 0).
Qed.

(** The entries from [i] on after expansion: the chunk ids [rest] with the
    headers [hs]. *)
Abbreviation expands hs i rest acc acc' :=
  (updated acc acc' (fun j => i <= j) (fun j => rest !! Z.to_nat (j - i))
     (fun j => (fun id => kept_header id (commitPayloadEncryptionHeaderAt hs j))
                 <$> rest !! Z.to_nat (j - i))).

(** A record [e] for the first [1 + k] chunks, followed by the records of the rest. *)
Lemma expand_run hs ps pageNo N i p rest k e tail acc :
  0 <= ps -> ps + N < 2 ^ 64 -> 0 <= i -> i + 1 + zlen rest = N -> (k <= length rest)%nat ->
  zlen acc.1 = N -> zlen acc.2 = N ->
  aeLogicalChunkStart e = ps + i -> aeChunkCount e = 1 + Z.of_nat k ->
  (forall j, i <= j < i + 1 + Z.of_nat k ->
    (p :: rest) !! Z.to_nat (j - i) = Some (extent_id e (ps + j)) /\
    extent_header e = kept_header (extent_id e (ps + j)) (commitPayloadEncryptionHeaderAt hs j)) ->
  (forall acc1, zlen acc1.1 = N -> zlen acc1.2 = N ->
    exists acc', expand_extents tail pageNo ps (ps + N) acc1 = Ok acc' /\
      expands hs (i + 1 + Z.of_nat k) (drop k rest) acc1 acc') ->
  exists acc', expand_extents (e :: tail) pageNo ps (ps + N) acc = Ok acc' /\
    expands hs i (p :: rest) acc acc'.
Proof.
  intros Hps HN Hi Hlen Hk H1 H2 Hst Hct Hrun IH. unfold zlen in Hlen. cbn [expand_extents].
  rewrite Hst, Hct, (add64_small (ps + i)) by (unfold in_u; lia).
  destruct (Z.ltb_spec (ps + i) ps), (Z.ltb_spec (ps + N) (ps + i + (1 + Z.of_nat k))); try lia.
  cbn [orb]. replace (Z.to_nat (ps + i + (1 + Z.of_nat k) - (ps + i))) with (S k) by lia.
  destruct (expand_extent_spec e ps (S k) (ps + i) acc) as (acc1 & -> & L1 & L2 & Hacc1); [lia..|].
  cbn [mbind result_bind]. destruct (IH acc1) as (acc' & -> & L1' & L2' & Hacc'); [lia..|].
  exists acc'. split; [done|]. split; [lia|]. split; [lia|]. intros j Hj.
  destruct (Hacc' j Hj) as [-> ->]. destruct (Hacc1 j Hj) as [-> ->].
  destruct (decide (i + 1 + Z.of_nat k <= j)) as [Hjk|Hjk].
  - destruct (decide (i <= j)); [|lia].
    replace (Z.to_nat (j - i)) with (S (k + Z.to_nat (j - (i + 1 + Z.of_nat k)))) by lia.
    rewrite lookup_drop. done.
  - destruct (decide (i <= j)) as [Hij|Hij].
    + destruct (decide _); [|lia]. destruct (Hrun j ltac:(lia)) as [-> Hh]. cbn. by rewrite Hh.
    + destruct (decide _); [lia|]. done.
Qed.

(** [records hs ps i rest es]: the extent records [es] stand for the chunks [rest]
    of a page starting at chunk [ps], from index [i] of the page on. *)
Inductive records (hs : list (option PayloadEncryptionHeader)) (ps : Z)
  : Z -> list Z -> list AllocationExtentRecord -> Prop :=
| records_nil i : records hs ps i [] []
| records_run i p rest k e es :
    (k <= length rest)%nat -> aeLogicalChunkStart e = ps + i -> aeChunkCount e = 1 + Z.of_nat k ->
    (forall j, i <= j < i + 1 + Z.of_nat k ->
      (p :: rest) !! Z.to_nat (j - i) = Some (extent_id e (ps + j)) /\
      extent_header e = kept_header (extent_id e (ps + j)) (commitPayloadEncryptionHeaderAt hs j)) ->
    (aeKind e = AllocationKindZero \/ aeKind e = AllocationKindData /\ aePhysicalChunkStart e = p /\ p <> 0) ->
    records hs ps (i + 1 + Z.of_nat k) (drop k rest) es ->
    records hs ps i (p :: rest) (e :: es).

Lemma compress_records hs ps N fuel : 0 <= ps -> ps + N < 2 ^ 64 -> N < 2 ^ 32 ->
  forall i rest, 0 <= i -> i + zlen rest = N -> (length rest <= fuel)%nat -> Forall u64 rest ->
  records hs ps i rest (compress_loop fuel ps i rest hs).
Proof.
  intros Hps HN HN32. induction fuel as [|fuel IH]; intros i rest Hi Hlen Hf Hu.
  all: destruct rest as [|p rest]; cbn [compress_loop]; [constructor|].
  { cbn in Hf. lia. }
  apply Forall_cons in Hu as [Hp Hu]. unfold zlen in Hlen. cbn in Hlen, Hf.
  rewrite (add64_small ps i) by (unfold in_u; lia).
  assert (forall k, (k <= length rest)%nat ->
    records hs ps (i + 1 + Z.of_nat k) (drop k rest)
      (compress_loop fuel ps (i + 1 + Z.of_nat k) (drop k rest) hs)) as Htail.
  { intros k Hk. apply IH; [lia| | |by apply Forall_drop]; [unfold zlen|]; rewrite length_drop; lia. }
  assert (forall k, (k <= length rest)%nat -> wrap32 (1 + Z.of_nat k) = 1 + Z.of_nat k) as Hw.
  { intros k Hk. unfold wrap32. apply Z.mod_small. lia. }
  destruct (Z.eqb_spec p 0) as [Hp0|Hp0].
  - destruct (zero_run_spec rest) as [Hk _]. rewrite Hw by done.
    apply (records_run _ _ _ _ _ (zero_run rest)); [done..| |by left|by apply Htail].
    eapply run_record; [lia|lia|lia|done|left; done].
  - match goal with |- context [wrap32 (1 + Z.of_nat ?x)] => set (k := x) end.
    assert (k <= length rest)%nat as Hk by (unfold k; destruct (isSome _); [lia|apply data_run_spec]).
    rewrite (Hw k Hk). apply (records_run _ _ _ _ _ k); [done..| |by right|by apply Htail].
    eapply run_record; [lia|lia|lia|done|right; done].
Qed.

Lemma expand_records hs ps pageNo N i rest es : records hs ps i rest es ->
  0 <= ps -> ps + N < 2 ^ 64 -> 0 <= i -> i + zlen rest = N ->
  forall acc, zlen acc.1 = N -> zlen acc.2 = N ->
  exists acc', expand_extents es pageNo ps (ps + N) acc = Ok acc' /\ expands hs i rest acc acc'.
Proof.
  intros Hr Hps HN. induction Hr as [i|i p rest k e es Hk Hst Hct Hrun Hkind Hr IH]; intros Hi Hlen acc H1 H2.
  { exists acc. split; [done|]. split; [done|]. split; [done|]. intros j Hj. unfold zlen in *.
    cbn in Hlen. destruct (decide (i <= j)); [|done]. split; apply lookup_ge_None_2; lia. }
  assert (zlen (p :: rest) = 1 + zlen rest) as Ez by (unfold zlen; cbn; lia). rewrite Ez in Hlen.
  eapply (expand_run hs ps pageNo N); [lia..|done|done|done|done|done|done|].
  intros acc1 L1 L2. apply IH; [lia| |done|done]. unfold zlen in *. rewrite length_drop. lia.
Qed.

(** The records answer a lookup of every chunk. *)
Lemma extent_of_records hs ps N i rest es : records hs ps i rest es ->
  0 <= ps -> ps + N < 2 ^ 64 -> 0 <= i -> i + zlen rest = N -> forall j, i <= j < N ->
  exists e, extent_of es (ps + j) = Some e /\
    rest !! Z.to_nat (j - i) = Some (extent_id e (ps + j)) /\
    extent_header e = kept_header (extent_id e (ps + j)) (commitPayloadEncryptionHeaderAt hs j) /\
    (aeKind e = AllocationKindZero \/ aeKind e = AllocationKindData /\ aePhysicalChunkStart e <> 0 /\
       aePhysicalChunkStart e ∈ rest /\ aeLogicalChunkStart e <= ps + j < aeLogicalChunkStart e + N).
Proof.
  intros Hr Hps HN. induction Hr as [i|i p rest k e es Hk Hst Hct Hrun Hkind Hr IH]; intros Hi Hlen j Hj.
  { unfold zlen in Hlen. cbn in Hlen. lia. }
  unfold zlen in Hlen. cbn [length] in Hlen. cbn [extent_of].
  rewrite Hst, Hct, (add64_small (ps + i)) by (unfold in_u; lia).
  destruct (Z.ltb_spec (ps + j) (ps + i)); [lia|]. cbn [orb].
  destruct (Z.leb_spec (ps + i + (1 + Z.of_nat k)) (ps + j)).
  - destruct (IH ltac:(lia) ltac:(unfold zlen; rewrite length_drop; lia) j ltac:(lia))
      as (e' & -> & E1 & E2 & E3).
    exists e'. split; [done|]. split; [|split; [done|]].
    + replace (Z.to_nat (j - i)) with (S (k + Z.to_nat (j - (i + 1 + Z.of_nat k)))) by lia.
      etrans; [|exact E1]. by rewrite lookup_drop.
    + destruct E3 as [E3|(E3 & E4 & E5 & E6)]; [by left|right]. do 2 (split; [done|]). split; [|done].
      right. eapply elem_of_submseteq; [exact E5|]. apply sublist_submseteq, sublist_drop.
  - exists e. destruct (Hrun j ltac:(lia)) as [E1 E2]. do 3 (split; [done|]).
    destruct Hkind as [Hz|(Hd & <- & Hp0)]; [by left|right]. do 2 (split; [done|]).
    split; [by left|lia].
Qed.

(** A page state as the write path builds them: a page of [cpp] chunks within
    the 64-bit chunk numbers, with an id and a header slot per chunk. *)
Definition cpp (s : allocationCommitPageState) : Z := csPageBytes s / csChunkSizeBytes s.

Record page_ok (s : allocationCommitPageState) : Prop := {
  po_page : 0 < csPageBytes s < 2 ^ 32;
  po_chunk : 0 < csChunkSizeBytes s < 2 ^ 32;
  po_geometry : csPageBytes s mod csChunkSizeBytes s = 0;
  po_no : 0 <= csPageNo s /\ csPageNo s * cpp s + cpp s < 2 ^ 64;
  po_physical : zlen (csPhysical s) = cpp s;
  po_headers : zlen (csHeaders s) = cpp s;
  po_ids : Forall u64 (csPhysical s) }.

Lemma cpp_bounds s : page_ok s -> 0 < cpp s < 2 ^ 32.
Proof.
  intros [Hp Hc Hg _ _ _ _]. unfold cpp. pose proof (Z.div_mod (csPageBytes s) (csChunkSizeBytes s)
    ltac:(lia)) as Hdm. rewrite Hg in Hdm.
  assert (csPageBytes s / csChunkSizeBytes s <= csPageBytes s) by (apply Z.div_le_upper_bound; nia).
  split; [|lia]. destruct (Z.lt_ge_cases 0 (csPageBytes s / csChunkSizeBytes s)); [done|nia].
Qed.

Lemma page_start_eq s : page_ok s -> page_start s = csPageNo s * cpp s.
Proof.
  intros Hs. pose proof (cpp_bounds s Hs). destruct (po_no s Hs). unfold page_start. fold (cpp s).
  apply mul64_small; unfold in_u in *; nia.
Qed.

Lemma page_records s : page_ok s ->
  records (csHeaders s) (csPageNo s * cpp s) 0 (csPhysical s)
    (compress_loop (length (csPhysical s)) (csPageNo s * cpp s) 0 (csPhysical s) (csHeaders s)).
Proof.
  intros Hs. pose proof (cpp_bounds s Hs) as Hcpp. destruct Hs as [Hp Hc Hg Hno Hphys Hhdr Hids].
  apply (compress_records _ _ (cpp s)); [nia|lia|lia|lia|lia|lia|done].
Qed.

(** The headers as a page record keeps them. *)
Definition kept_headers (s : allocationCommitPageState) : list (option PayloadEncryptionHeader) :=
  zip_with kept_header (csPhysical s) (csHeaders s).

Lemma header_at hs j h : hs !! Z.to_nat j = Some h -> 0 <= j ->
  commitPayloadEncryptionHeaderAt hs j = h.
Proof.
  intros Hh Hj. unfold commitPayloadEncryptionHeaderAt. rewrite Hh.
  apply lookup_lt_Some in Hh. unfold zlen. destruct (Z.ltb_spec j 0), (Z.leb_spec (Z.of_nat (length hs)) j);
    try lia. done.
Qed.

(** Page records round-trip.  Loading the page record of a page state gives
    the state back: the same chunk ids, now also the original ones, and the
    headers of the mapped chunks. *)
Theorem page_record_round_trip (s : allocationCommitPageState) :
  page_ok s ->
  newAllocationCommitPageState (toRecord s)
  = Ok (s <| csOriginal := csPhysical s |> <| csHeaders := kept_headers s |>).
Proof.
  intros Hs. pose proof (cpp_bounds s Hs) as Hcpp. pose proof (page_start_eq s Hs) as Hps.
  pose proof Hs as [Hp Hc Hg Hno Hphys Hhdr Hids].
  unfold newAllocationCommitPageState, bad_geometry, expandAllocationPageChunkMappings. cbn [toRecord apPageBytes apChunkSizeBytes apPageNo apExtents apVolumeID apRevision].
  rewrite Hg, (proj2 (Z.eqb_neq (csPageBytes s) 0)), (proj2 (Z.eqb_neq (csChunkSizeBytes s) 0)) by lia.
  cbn [orb negb Z.eqb]. fold (page_start s). fold (cpp s). rewrite Hps.
  rewrite add64_small by (unfold in_u; nia). unfold compressAllocationCommitChunkMappings.
  destruct (expand_records (csHeaders s) (csPageNo s * cpp s) (csPageNo s) (cpp s) 0 (csPhysical s) _
    (page_records s Hs) ltac:(nia) ltac:(lia) ltac:(lia) ltac:(lia)
    (replicate (Z.to_nat (cpp s)) 0, replicate (Z.to_nat (cpp s)) (@None PayloadEncryptionHeader)))
    as ([ids hs] & -> & L1 & L2 & Hacc); [unfold zlen; cbn; rewrite length_replicate; lia..|].
  cbn [mbind result_bind fst snd] in *.
  assert (ids = csPhysical s) as ->.
  { apply list_eq. intros j. destruct (Hacc (Z.of_nat j) ltac:(lia)) as [Hj _].
    rewrite Z.sub_0_r, Nat2Z.id in Hj. rewrite Hj. destruct (decide _); [done|lia]. }
  assert (hs = kept_headers s) as ->; [|by destruct s].
  apply list_eq. intros j. destruct (Hacc (Z.of_nat j) ltac:(lia)) as [_ Hj].
  rewrite Z.sub_0_r, Nat2Z.id in Hj. rewrite Hj. destruct (decide _); [|lia].
  unfold kept_headers. rewrite lookup_zip_with. destruct (csPhysical s !! j) as [id|] eqn:Hid; [|done].
  apply lookup_lt_Some in Hid. unfold zlen in *.
  destruct (lookup_lt_is_Some_2 (csHeaders s) j ltac:(lia)) as [h Hh]. cbn. rewrite Hh. cbn.
  by rewrite (header_at _ (Z.of_nat j) h) by (by rewrite ?Nat2Z.id || lia).
Qed.

Definition sample_state : allocationCommitPageState :=
  mkPageState "v" 3 (5 * 4096) 4096 9 [] [0; 0; 7; 8; 12]
    [Some zero_PayloadEncryptionHeader; None; None; None; Some zero_PayloadEncryptionHeader].

Lemma sample_page_ok : page_ok sample_state.
Proof.
  assert (cpp sample_state = 5) as E by reflexivity.
  split; rewrite ?E; cbn; try lia; try reflexivity.
  repeat (apply Forall_cons; split; [unfold in_u; lia|]). by apply Forall_nil.
Qed.

Lemma page_record_round_trip_witness :
  newAllocationCommitPageState (toRecord sample_state)
  = Ok (sample_state <| csOriginal := [0; 0; 7; 8; 12] |>
      <| csHeaders := [None; None; None; None; Some zero_PayloadEncryptionHeader] |>).
Proof. exact (page_record_round_trip sample_state sample_page_ok). Defined.

(** ** Committed pages as readers see them *)

(** The page record of a state, resolved for reading. *)
Definition resolved (s : allocationCommitPageState) : ResolvedAllocationPage :=
  mkResolvedAllocationPage (toRecord s) (page_start s) (page_start s + cpp s) true.

(** What a reader learns of a chunk with id [id] and header [h]. *)
Definition seen (s : allocationCommitPageState) (id : Z) (h : option PayloadEncryptionHeader) : chunk_state :=
  mkChunkState true (id =? 0) id (csVolumeID s) (kept_header id h).

Definition small_ids (s : allocationCommitPageState) : Prop := Forall (fun id => 0 <= id < 2 ^ 63) (csPhysical s).

Lemma resolved_reads s j : page_ok s -> small_ids s -> 0 <= j < cpp s ->
  exists id h, csPhysical s !! Z.to_nat j = Some id /\ csHeaders s !! Z.to_nat j = Some h /\
    logicalChunkAllocationRecord [resolved s] (page_start s + j) = seen s id h.
Proof.
  intros Hs Hsmall Hj. pose proof (cpp_bounds s Hs) as Hcpp. pose proof (page_start_eq s Hs) as Hps.
  destruct (po_no s Hs) as [Hn0 Hn1]. assert (0 <= page_start s) as Hps0 by nia.
  destruct (lookup_lt_is_Some_2 (csPhysical s) (Z.to_nat j)) as [id Hid];
    [pose proof (po_physical s Hs); unfold zlen in *; lia|].
  destruct (lookup_lt_is_Some_2 (csHeaders s) (Z.to_nat j)) as [h Hh];
    [pose proof (po_headers s Hs); unfold zlen in *; lia|].
  exists id, h. split; [done|]. split; [done|].
  cbn [logicalChunkAllocationRecord resolved raRangeStartChunk raRangeEndChunk raPage toRecord apExtents apVolumeID].
  destruct (Z.ltb_spec (page_start s + j) (page_start s)),
    (Z.leb_spec (page_start s + cpp s) (page_start s + j)); try lia. cbn [orb].
  unfold compressAllocationCommitChunkMappings.
  pose proof (page_records s Hs) as Hrec. rewrite <-Hps in Hrec.
  destruct (extent_of_records _ _ (cpp s) _ _ _ Hrec ltac:(lia) ltac:(lia) ltac:(lia)
    ltac:(rewrite (po_physical s Hs); lia) j Hj) as (e & -> & E1 & E2 & E3).
  rewrite Z.sub_0_r in E1. rewrite Hid in E1. injection E1 as E1.
  rewrite (header_at _ j h Hh ltac:(lia)) in E2. rewrite <-E1 in E2.
  destruct E3 as [Hk|(Hk & Hne & Hin & Hrange)].
  - unfold extent_id, extent_header in *. rewrite Hk in *. cbn in E1 |- *. subst id. done.
  - unfold extent_id, extent_header in *. rewrite Hk in *. cbn in E1, E2 |- *. rewrite <-E1.
    unfold seen. rewrite <-E2. f_equal. symmetry. apply Z.eqb_neq. rewrite E1.
    unfold small_ids in Hsmall. rewrite Forall_forall in Hsmall. specialize (Hsmall _ Hin).
    rewrite sub64_small, add64_small by (unfold in_u; lia). lia.
Qed.

Section Apply.
Context (plan : ExtentWritePlan) (zeroSemantic : bool) (writeStart writeEnd : Z).
Context (headers : gmap Z PayloadEncryptionHeader).

(** The mapping a write gives chunk [c]: none when it zeroes the whole chunk,
    the chunk of the plan otherwise. *)
Definition new_mapping (chunkSize c : Z) : option (Z * option PayloadEncryptionHeader) :=
  if zeroSemantic && (writeStart <=? mul64 c chunkSize)
     && (add64 (mul64 c chunkSize) chunkSize <=? writeEnd) then Some (0, None)
  else (fun id => (id, headers !! c)) <$> physicalChunkIDForCommittedWrite plan c.

(** [s'] differs from [s] only in the mappings of its chunks. *)
Record same_page (s s' : allocationCommitPageState) : Prop := {
  sp_volume : csVolumeID s' = csVolumeID s; sp_no : csPageNo s' = csPageNo s;
  sp_bytes : csPageBytes s' = csPageBytes s; sp_chunk : csChunkSizeBytes s' = csChunkSizeBytes s;
  sp_revision : csRevision s' = csRevision s; sp_original : csOriginal s' = csOriginal s }.

Lemma apply_step n lc s id h : page_ok s -> page_start s <= lc < page_start s + cpp s ->
  new_mapping (csChunkSizeBytes s) lc = Some (id, h) -> u64 id ->
  let s1 := s <| csPhysical := <[Z.to_nat (lc - page_start s) := id]> (csPhysical s) |>
              <| csHeaders := <[Z.to_nat (lc - page_start s) := h]> (csHeaders s) |> in
  page_ok s1 /\
  apply_loop (S n) lc plan zeroSemantic writeStart writeEnd headers s
  = apply_loop n (add64 lc 1) plan zeroSemantic writeStart writeEnd headers s1.
Proof.
  intros Hs Hlc Hm Hid s1. pose proof (cpp_bounds s Hs) as Hcpp. pose proof (page_start_eq s Hs) as Hps.
  destruct (po_no s Hs) as [Hn0 Hn1]. split.
  { destruct Hs as [Hp Hc Hg Hno Hphys Hhdr Hids]. unfold s1. split; cbn; try done.
    - by rewrite zlen_insert.
    - by rewrite zlen_insert.
    - by apply Forall_insert. }
  cbn [apply_loop]. rewrite (po_physical s Hs), add64_small by (unfold in_u; nia).
  destruct (Z.ltb_spec lc (page_start s)), (Z.leb_spec (page_start s + cpp s) lc); try lia. cbn [orb].
  rewrite sub64_small by (unfold in_u; nia).
  unfold new_mapping in Hm.
  destruct (zeroSemantic && (writeStart <=? mul64 lc (csChunkSizeBytes s))
    && (add64 (mul64 lc (csChunkSizeBytes s)) (csChunkSizeBytes s) <=? writeEnd)).
  - injection Hm as <- <-. rewrite (set_at_Ok (csPhysical s)) by (rewrite (po_physical s Hs); lia). cbn [mbind result_bind].
    by rewrite (set_at_Ok (csHeaders s)) by (rewrite (po_headers s Hs); lia).
  - destruct (physicalChunkIDForCommittedWrite plan lc) as [x|]; [|done]. injection Hm as <- <-.
    rewrite (set_at_Ok (csPhysical s)) by (rewrite (po_physical s Hs); lia). cbn [mbind result_bind].
    by rewrite (set_at_Ok (csHeaders s)) by (rewrite (po_headers s Hs); lia).
Qed.

Lemma apply_loop_spec n : forall lc s, page_ok s -> 0 <= lc -> lc + Z.of_nat n < 2 ^ 64 ->
  (forall c, lc <= c < lc + Z.of_nat n -> page_start s <= c < page_start s + cpp s ->
     exists id h, new_mapping (csChunkSizeBytes s) c = Some (id, h) /\ u64 id) ->
  exists s', apply_loop n lc plan zeroSemantic writeStart writeEnd headers s = Ok s' /\
    page_ok s' /\ same_page s s' /\
    forall j, 0 <= j < cpp s ->
      if decide (lc <= page_start s + j < lc + Z.of_nat n)
      then exists id h, new_mapping (csChunkSizeBytes s) (page_start s + j) = Some (id, h) /\
        csPhysical s' !! Z.to_nat j = Some id /\ csHeaders s' !! Z.to_nat j = Some h
      else csPhysical s' !! Z.to_nat j = csPhysical s !! Z.to_nat j /\
           csHeaders s' !! Z.to_nat j = csHeaders s !! Z.to_nat j.
Proof.
  induction n as [|n IH]; intros lc s Hs Hlc Hb Hmap.
  { exists s. split; [done|]. split; [done|]. split; [done|]. intros j Hj. by destruct (decide _); [lia|]. }
  pose proof (cpp_bounds s Hs) as Hcpp. pose proof (page_start_eq s Hs) as Hps.
  destruct (po_no s Hs) as [Hn0 Hn1]. pose proof (po_physical s Hs) as Hlp. pose proof (po_headers s Hs) as Hlh.
  destruct (decide (page_start s <= lc < page_start s + cpp s)) as [Hin|Hout].
  - destruct (Hmap lc ltac:(lia) Hin) as (id & h & Hm & Hid).
    destruct (apply_step n lc s id h Hs Hin Hm Hid) as [Hs1 ->].
    rewrite (add64_small lc 1) by (unfold in_u; lia).
    set (s1 := s <| csPhysical := _ |> <| csHeaders := _ |>) in *.
    destruct (IH (lc + 1) s1 Hs1) as (s' & E & Hok & Hsame & Hj); [lia|lia| |].
    { intros c Hc1 Hc2. apply Hmap; [lia|exact Hc2]. }
    exists s'. split; [done|]. split; [done|]. split; [destruct Hsame; split; done|].
    intros j Hj0. specialize (Hj j Hj0).
    change (page_start s1) with (page_start s) in Hj. change (csChunkSizeBytes s1) with (csChunkSizeBytes s) in Hj.
    destruct (decide (lc + 1 <= page_start s + j < lc + 1 + Z.of_nat n)) as [Hd|Hd];
      [destruct (decide _); [exact Hj|lia]|].
    destruct Hj as [-> ->]. unfold s1. cbn -[Z.to_nat]. rewrite !lookup_set by lia.
    destruct (decide (j = lc - page_start s)) as [->|Hne].
    + destruct (decide _); [|lia]. replace (page_start s + (lc - page_start s)) with lc by lia. eauto.
    + destruct (decide _); [lia|done].
  - cbn [apply_loop]. rewrite Hlp, (add64_small (page_start s)), (add64_small lc 1) by (unfold in_u; nia).
    assert ((lc <? page_start s) || (page_start s + cpp s <=? lc) = true) as -> by lia.
    destruct (IH (lc + 1) s Hs) as (s' & E & Hok & Hsame & Hj); [lia|lia| |].
    { intros c Hc1 Hc2. apply Hmap; [lia|exact Hc2]. }
    exists s'. do 3 (split; [done|]). intros j Hj0. specialize (Hj j Hj0).
    destruct (decide (lc + 1 <= page_start s + j < lc + 1 + Z.of_nat n)), (decide _); try done; lia.
Qed.

End Apply.

(** ** Retired chunks *)

Lemma retired_loop_spec o orig : forall phys seen, length orig = length phys ->
  o ∈ retired_loop orig phys seen <->
  o <> 0 /\ (o ∉ seen) /\ exists j p, orig !! j = Some o /\ phys !! j = Some p /\ p <> o.
Proof.
  induction orig as [|x orig IH]; intros [|y phys] seen Hlen; try done; cbn [retired_loop].
  { split; [intros H; by apply not_elem_of_nil in H|]. by intros (_ & _ & j & p & H & _). }
  injection Hlen as Hlen.
  assert ((exists j p, (x :: orig) !! j = Some o /\ (y :: phys) !! j = Some p /\ p <> o) <->
    x = o /\ y <> o \/ exists j p, orig !! j = Some o /\ phys !! j = Some p /\ p <> o) as Hex.
  { split.
    - intros ([|j] & p & H1 & H2 & H3); [left; cbn in *; split; congruence|right; eauto].
    - intros [[-> Hy]|(j & p & H1 & H2 & H3)]; [exists O, y; done|exists (S j), p; done]. }
  rewrite Hex. clear Hex.
  destruct (Z.eqb_spec x 0), (Z.eqb_spec x y); cbn [orb]; try (rewrite IH by done; intuition congruence).
  case_bool_decide as Hin.
  - rewrite IH by done. split; [tauto|]. intros (H1 & H2 & [[-> _]|H3]); [done|tauto].
  - rewrite elem_of_cons, IH by done. rewrite not_elem_of_union, not_elem_of_singleton.
    destruct (decide (o = x)) as [->|Hox]; [|intuition congruence]. split; [|tauto].
    intros _. split; [done|]. split; [done|]. left. split; [done|congruence].
Qed.

Lemma retired_exact s s' o : page_ok s -> page_ok s' -> cpp s' = cpp s -> csOriginal s' = csPhysical s ->
  o ∈ retiredPhysicalChunkIDs s' <->
  o <> 0 /\ exists j, csPhysical s !! j = Some o /\ csPhysical s' !! j <> Some o.
Proof.
  intros Hs Hs' Ecpp Ho. pose proof (cpp_bounds s Hs). unfold retiredPhysicalChunkIDs. rewrite Ho.
  pose proof (po_physical s Hs) as L1. pose proof (po_physical s' Hs') as L2. rewrite L2, L1, Ecpp.
  destruct (Z.eqb_spec (cpp s) 0); [lia|]. rewrite Z.eqb_refl. cbn [orb negb].
  rewrite retired_loop_spec by (unfold zlen in *; lia). split.
  - intros (H1 & _ & i & p & H2 & H3 & H4). split; [done|]. exists i. split; [done|]. congruence.
  - intros (H1 & i & H2 & H3). split; [done|]. split; [set_solver|].
    destruct (lookup_lt_is_Some_2 (csPhysical s') i) as [p Hp];
      [apply lookup_lt_Some in H2; unfold zlen in *; lia|].
    exists i, p. split; [done|]. split; [done|]. congruence.
Qed.

(** C32: a commit changes exactly what was written.  Applying a write to a page
    state succeeds when every written chunk of the page has a chunk in the plan,
    and a reader of the resulting page record then sees, for every chunk the
    write touches, the chunk of the plan (or zeroes, for a zeroed chunk), and
    for every other chunk what it saw before.  On a freshly loaded page the
    retired chunk ids are exactly those that some written chunk gave up. *)
Theorem committed_write_exact (s : allocationCommitPageState) (plan : ExtentWritePlan)
    (req : WriteRequest) (writeStart writeLength : Z) (headers : gmap Z PayloadEncryptionHeader) :
  page_ok s -> small_ids s -> 0 <= writeStart -> 0 < writeLength -> writeStart + writeLength < 2 ^ 64 ->
  let cs := csChunkSizeBytes s in
  let target := new_mapping plan (wrZeroSemantic req) writeStart (writeStart + writeLength) headers cs in
  let touched c := writeStart / cs <= c <= (writeStart + writeLength - 1) / cs in
  (forall c, touched c -> page_start s <= c < page_start s + cpp s ->
     exists id h, target c = Some (id, h) /\ 0 <= id < 2 ^ 63) ->
  exists s', applyWrite s plan req writeStart writeLength headers = Ok s' /\
    (forall c, page_start s <= c < page_start s + cpp s ->
       (touched c -> exists id h, target c = Some (id, h) /\
          logicalChunkAllocationRecord [resolved s'] c = seen s id h) /\
       (~ touched c -> logicalChunkAllocationRecord [resolved s'] c
                       = logicalChunkAllocationRecord [resolved s] c)) /\
    (csOriginal s = csPhysical s -> forall o, o ∈ retiredPhysicalChunkIDs s' <->
       o <> 0 /\ exists j, csPhysical s !! j = Some o /\ csPhysical s' !! j <> Some o).
Proof.
  intros Hs Hsmall Hws Hwl Hb cs target touched Hmap. pose proof (po_chunk s Hs) as Hcs. fold cs in Hcs.
  pose proof (cpp_bounds s Hs) as Hcpp.
  assert (writeStart / cs <= (writeStart + writeLength - 1) / cs) as Hdiv by (apply Z.div_le_mono; lia).
  pose proof (Z.div_pos writeStart cs Hws ltac:(lia)) as Hd0.
  assert ((writeStart + writeLength - 1) / cs <= writeStart + writeLength - 1) as Hd1
    by (apply Z.div_le_upper_bound; nia).
  unfold applyWrite. fold cs. rewrite (proj2 (Z.eqb_neq writeLength 0)), (proj2 (Z.eqb_neq cs 0)) by lia.
  unfold chunk_span. rewrite (add64_small writeStart) by (unfold in_u; lia).
  rewrite sub64_small by (unfold in_u; lia).
  set (n := Z.to_nat ((writeStart + writeLength - 1) / cs - writeStart / cs + 1)).
  assert (Z.of_nat n = (writeStart + writeLength - 1) / cs - writeStart / cs + 1) as En by lia.
  destruct (apply_loop_spec plan (wrZeroSemantic req) writeStart (writeStart + writeLength) headers n
    (writeStart / cs) s Hs Hd0 ltac:(lia)) as (s' & -> & Hs' & Hsame & Hj).
  { intros c Hc1 Hc2. destruct (Hmap c) as (id & h & E & Hid); [unfold touched; lia|done|].
    exists id, h. split; [exact E|unfold in_u; lia]. }
  assert (cpp s' = cpp s /\ page_start s' = page_start s) as [Ecpp Eps].
  { unfold cpp, page_start. by rewrite (sp_no _ _ Hsame), (sp_bytes _ _ Hsame), (sp_chunk _ _ Hsame). }
  assert (small_ids s') as Hsmall'.
  { unfold small_ids in *. apply Forall_lookup. intros i id Hi. rewrite Forall_lookup in Hsmall.
    pose proof (lookup_lt_Some _ _ _ Hi) as Hlt. pose proof (po_physical s' Hs') as Hlen. unfold zlen in Hlen.
    specialize (Hj (Z.of_nat i) ltac:(lia)). rewrite Nat2Z.id in Hj. destruct (decide _) as [Hd|Hd].
    - destruct Hj as (id' & h & E1 & E2 & _). rewrite Hi in E2. injection E2 as <-.
      destruct (Hmap (page_start s + Z.of_nat i)) as (id' & h' & E & Hid); [unfold touched; lia|lia|].
      unfold target in E. fold cs in E1. rewrite E1 in E. by injection E as -> ->.
    - destruct Hj as [E _]. rewrite E in Hi. by apply Hsmall in Hi. }
  exists s'. split; [done|]. split.
  - intros c Hc. set (j := c - page_start s). assert (c = page_start s + j) as Ec by lia.
    specialize (Hj j ltac:(lia)). rewrite <-Ec in Hj.
    destruct (resolved_reads s' j Hs' Hsmall' ltac:(lia)) as (id' & h' & E1 & E2 & E3).
    rewrite Eps, <-Ec in E3. rewrite E3. unfold seen. rewrite (sp_volume _ _ Hsame). split; intros Ht.
    + destruct (decide _) as [Hd|Hd]; [|unfold touched in Ht; lia].
      destruct Hj as (id & h & F1 & F2 & F3). exists id, h. split; [done|]. congruence.
    + destruct (decide _) as [Hd|Hd]; [unfold touched in Ht; lia|]. destruct Hj as [F1 F2].
      destruct (resolved_reads s j Hs Hsmall ltac:(lia)) as (id & h & G1 & G2 & G3).
      rewrite <-Ec in G3. rewrite G3. unfold seen. congruence.
  - intros Ho o. apply retired_exact; [done|done|lia|]. by rewrite (sp_original _ _ Hsame).
Qed.

(** A write to chunks 16 to 18 of the sample page (chunks 15 to 19), whose plan
    maps chunk 16 to a new chunk. *)
Definition sample_loaded : allocationCommitPageState :=
  sample_state <| csOriginal := csPhysical sample_state |>.
Definition sample_plan : ExtentWritePlan :=
  zero_ExtentWritePlan <| wpChunkSizeBytes := 4096 |>
    <| wpExtent := zero_ExtentMappingRecord <| emExtentID := 1 |> <| emLengthBytes := 2 ^ 20 |> |>
    <| wpAllocationPages := [resolved (sample_state <| csPhysical := [0; 31; 32; 33; 12] |>)] |>.

Lemma committed_write_exact_witness :
  exists s', applyWrite sample_loaded sample_plan zero_WriteRequest 65536 10000 ∅ = Ok s' /\
    logicalChunkAllocationRecord [resolved s'] 16 = seen sample_loaded 31 None /\
    logicalChunkAllocationRecord [resolved s'] 19
    = logicalChunkAllocationRecord [resolved sample_loaded] 19 /\
    7 ∈ retiredPhysicalChunkIDs s'.
Proof.
  destruct (committed_write_exact sample_loaded sample_plan zero_WriteRequest 65536 10000 ∅)
    as (s' & E & Hread & Hret).
  - destruct sample_page_ok as [H1 H2 H3 H4 H5 H6 H7]. by split.
  - repeat (apply Forall_cons; split; [lia|]). by apply Forall_nil.
  - lia.
  - lia.
  - lia.
  - cbn [csChunkSizeBytes sample_loaded]. intros c Hc _.
    assert (16 <= c <= 18) as Hc' by exact Hc.
    assert (c = 16 \/ c = 17 \/ c = 18) as [->|[->| ->]] by lia;
      do 2 eexists; (split; [vm_compute; reflexivity|lia]).
  - exists s'. split; [done|]. split; [|split].
    + destruct (Hread 16) as [Ht _]; [vm_compute; split; congruence|].
      destruct Ht as (id & h & Em & ->); [vm_compute; split; congruence|].
      vm_compute in Em. by injection Em as <- <-.
    + destruct (Hread 19) as [_ Ht]; [vm_compute; split; congruence|]. apply Ht.
      intros [_ H]. vm_compute in H. congruence.
    + apply (Hret eq_refl). split; [lia|]. exists 2%nat. split; [done|].
      vm_compute in E. injection E as <-. vm_compute. congruence.
Defined.

End AllocationFacts.
