(* ===== verification/WritePipeline.v ===== *)
(** * The replicated write pipeline

    Models src/sbs/cluster/replication: coordinator.go (which replicas a write
    or read goes to, and the plan built from resolved placements), write_state.go
    (the state machine of a write), [PrepareAllocationCommit] of executor.go, and
    the loop of [WriteService.Write] in service.go that writes the extents of a
    planned write to their replicas.

    The replica writer is an interface of the source; it is the argument
    [writer].  A [*WriteExecution] is threaded through as a value.  Error texts are
    strings where the source stores them, and constructors otherwise; log lines,
    timings and the records [Executor.MarkFailed] stores after a failure are
    left out. *)

From Stdlib Require Import ZArith Lia Ascii String.
From stdpp Require Import base list gmap strings sorting.
From S2P Require Import Prelude SbsTypes MetaTypes AllocationCommit.
Open Scope string_scope.
Open Scope Z_scope.

Module Pipeline.
Import Sbs Meta Allocation.

Inductive pipeline_error :=
| NoReplicas (replicaSetID : string)
| NoWritableReplicas (replicaSetID : string)
| NoReadableReplicas (replicaSetID : string)
| NoReadableTargets (replicaSetID : string)
| InsufficientReplicas (extentID : Z)
| ExtentIndexOutOfRange (extentIndex : Z)
| ExtentAlreadyFailed (extentIndex : Z)
| NotReadyForCommit
| NotMetadataCommitted
| WriterFailed (message : string)
| WriterReturnedNil
| QuorumNotReached (extentID : Z)
| AllocationFailed (e : alloc_error).

(** ** coordinator.go *)

Definition toTarget (replica : ReplicaDescriptor) : ReplicaTarget :=
  mkReplicaTarget (rdNodeID replica) (rdReplicaID replica) (rdRole replica) (rdFailureDomain replica).

Definition healthy (node : NodeMembershipRecord) : bool :=
  String.eqb (nmHealthState node) "" || String.eqb (nmHealthState node) NodeHealthHealthy
  || String.eqb (nmHealthState node) NodeHealthSuspect.

Definition replicaWritable (replica : ReplicaDescriptor) (nodes : gmap string NodeMembershipRecord)
  : bool :=
  match nodes !! rdNodeID replica with
  | None => true
  | Some node =>
      if negb (String.eqb (nmLifecycleState node) "")
         && negb (String.eqb (nmLifecycleState node) NodeLifecycleActive) then false
      else healthy node
  end.

Definition replicaReadable (replica : ReplicaDescriptor) (nodes : gmap string NodeMembershipRecord)
  : bool :=
  match nodes !! rdNodeID replica with
  | None => true
  | Some node =>
      if String.eqb (nmLifecycleState node) NodeLifecycleRemoved
         || String.eqb (nmLifecycleState node) NodeLifecycleJoining then false
      else healthy node
  end.

Definition writableReplicas (replicas : list ReplicaDescriptor)
    (nodes : gmap string NodeMembershipRecord) : list ReplicaDescriptor :=
  List.filter (fun r => replicaWritable r nodes) replicas.

Definition readableReplicas (replicas : list ReplicaDescriptor)
    (nodes : gmap string NodeMembershipRecord) : list ReplicaDescriptor :=
  List.filter (fun r => replicaReadable r nodes) replicas.

(** [findPrimary], [None] for its errors. *)
Definition findPrimary (primaryReplicaID : string) (replicas : list ReplicaDescriptor)
  : option ReplicaTarget :=
  if String.eqb primaryReplicaID "" then None else
  option_map toTarget
    (List.find (fun r => String.eqb (rdReplicaID r) primaryReplicaID
                         || String.eqb (rdRole r) ReplicaRolePrimary) replicas).

Definition buildWriteTargets (replicaSet : ReplicaSetState) (nodes : gmap string NodeMembershipRecord)
  : result pipeline_error (ReplicaTarget * list ReplicaTarget) :=
  if zlen (rsReplicas replicaSet) =? 0 then Err (NoReplicas (rsReplicaSetID replicaSet)) else
  match writableReplicas (rsReplicas replicaSet) nodes with
  | [] => Err (NoWritableReplicas (rsReplicaSetID replicaSet))
  | (first :: _) as candidates =>
      let primary := match findPrimary (rsPrimaryReplicaID replicaSet) candidates with
                     | Some p => p
                     | None => toTarget first
                     end in
      Ok (primary, primary :: map toTarget
            (List.filter (fun r => negb (String.eqb (rdReplicaID r) (rtReplicaID primary))) candidates))
  end.

Definition buildReadTargets (replicaSet : ReplicaSetState) (nodes : gmap string NodeMembershipRecord)
  : result pipeline_error (ReplicaTarget * list ReplicaTarget) :=
  match readableReplicas (rsReplicas replicaSet) nodes with
  | [] => Err (NoReadableReplicas (rsReplicaSetID replicaSet))
  | candidates =>
      '(primary, targets) ← buildWriteTargets
         (zero_ReplicaSetState <| rsReplicaSetID := rsReplicaSetID replicaSet |>
            <| rsPrimaryReplicaID := rsPrimaryReplicaID replicaSet |>
            <| rsWriteQuorum := rsWriteQuorum replicaSet |> <| rsReplicas := candidates |>) ∅;
      match targets with
      | [] => Err (NoReadableTargets (rsReplicaSetID replicaSet))
      | _ :: fallbacks => Ok (primary, fallbacks)
      end
  end.

Definition overlapAllocationPagesForExtent (pages : list ResolvedAllocationPage)
    (extent : ExtentMappingRecord) : list ResolvedAllocationPage :=
  if (zlen pages =? 0) || (emLengthBytes extent =? 0) then [] else
  let extentStart := emLogicalOffset extent in
  let extentEnd := add64 (emLogicalOffset extent) (emLengthBytes extent) in
  List.filter (fun page =>
    let pageStart := mul64 (raRangeStartChunk page) (apChunkSizeBytes (raPage page)) in
    let pageEnd := mul64 (raRangeEndChunk page) (apChunkSizeBytes (raPage page)) in
    negb ((pageEnd <=? extentStart) || (extentEnd <=? pageStart))) pages.

(** One extent of [PlanWriteWithStats] and [buildWritePlanFromResolved]. *)
Definition extent_write_plan (placement : ResolvedExtentPlacement)
    (allocationPages : list ResolvedAllocationPage) (chunkSizeBytes : Z) (copyOnWrite : bool)
  : result pipeline_error ExtentWritePlan :=
  let set := reReplicaSet placement in
  let extent := reExtentMapping placement in
  '(primary, targets) ← buildWriteTargets set (reNodes placement);
  if wrap32 (zlen targets) <? rsWriteQuorum set then Err (InsufficientReplicas (emExtentID extent)) else
  let pages := overlapAllocationPagesForExtent allocationPages extent in
  Ok (mkExtentWritePlan extent (emPlacementRef extent) (rsReplicaSetID set) primary targets
        (rsWriteQuorum set) (rsEpoch set) (emRevision extent) pages chunkSizeBytes copyOnWrite
        (if copyOnWrite then pages else [])).

Fixpoint write_plans (resolved : list ResolvedExtentPlacement)
    (allocationPages : list ResolvedAllocationPage) (chunkSizeBytes : Z) (copyOnWrite : bool)
  : result pipeline_error (list ExtentWritePlan) :=
  match resolved with
  | [] => Ok []
  | placement :: resolved =>
      plan ← extent_write_plan placement allocationPages chunkSizeBytes copyOnWrite;
      rest ← write_plans resolved allocationPages chunkSizeBytes copyOnWrite;
      Ok (plan :: rest)
  end.

Definition buildWritePlanFromResolved (volumeID : string) (resolved : list ResolvedExtentPlacement)
    (allocationPages : list ResolvedAllocationPage) (chunkSizeBytes : Z)
  : result pipeline_error WritePlan :=
  extents ← write_plans resolved allocationPages chunkSizeBytes false;
  Ok (mkWritePlan volumeID extents).

Fixpoint read_plans (resolved : list ResolvedExtentPlacement)
    (allocationPages : list ResolvedAllocationPage) (chunkSizeBytes : Z)
  : result pipeline_error (list ExtentReadPlan) :=
  match resolved with
  | [] => Ok []
  | placement :: resolved =>
      let set := reReplicaSet placement in
      let extent := reExtentMapping placement in
      '(primary, fallbacks) ← buildReadTargets set (reNodes placement);
      rest ← read_plans resolved allocationPages chunkSizeBytes;
      Ok (mkExtentReadPlan extent (emPlacementRef extent) (rsReplicaSetID set) primary fallbacks
            (rsEpoch set) (emRevision extent)
            (overlapAllocationPagesForExtent allocationPages extent) chunkSizeBytes :: rest)
  end.

Definition buildReadPlanFromResolved (volumeID : string) (resolved : list ResolvedExtentPlacement)
    (allocationPages : list ResolvedAllocationPage) (chunkSizeBytes : Z)
  : result pipeline_error ReadPlan :=
  extents ← read_plans resolved allocationPages chunkSizeBytes;
  Ok (mkReadPlan volumeID extents).

(** ** write_state.go *)

Inductive WritePipelineState :=
| Received | Validated | IntentPending | PayloadQuorumDone | MetadataCommitted | Acked | Failed.

#[export] Instance WritePipelineState_eq_dec : EqDecision WritePipelineState.
Proof. solve_decision. Defined.

Record ExtentWriteStatus := mkExtentStatus {
  esPlan : ExtentWritePlan; esAckedReplicaIDs : gset string;
  esChunkEncryptionHeaders : gmap Z PayloadEncryptionHeader;
  esPrimaryAcked : bool; esQuorumReached : bool; esFailed : bool; esLastError : string }.

#[export] Instance ExtentWriteStatus_settable : Settable ExtentWriteStatus := fun x =>
  mkExtentStatus (esPlan x) (esAckedReplicaIDs x) (esChunkEncryptionHeaders x) (esPrimaryAcked x)
    (esQuorumReached x) (esFailed x) (esLastError x).

Record WriteExecution := mkWriteExecution {
  weVolumeID : string; weRequestID : string; weAttachmentID : string; weGeneration : Z;
  weIdempotencyKey : string; weMetadataEpoch : Z; weMetadataRevision : Z;
  weAllowMissingWriteIntent : bool; weMutationOperation : MutationOperationRecord;
  weState : WritePipelineState;
  weExtents : list ExtentWriteStatus; weLastError : string }.

#[export] Instance WriteExecution_settable : Settable WriteExecution := fun x =>
  mkWriteExecution (weVolumeID x) (weRequestID x) (weAttachmentID x) (weGeneration x)
    (weIdempotencyKey x) (weMetadataEpoch x) (weMetadataRevision x) (weAllowMissingWriteIntent x)
    (weMutationOperation x) (weState x) (weExtents x) (weLastError x).

Definition NewWriteExecution (plan : WritePlan) (requestID attachmentID : string) (generation : Z)
    (idempotencyKey : string) (metadataEpoch metadataRevision : Z) : WriteExecution :=
  mkWriteExecution (wplVolumeID plan) requestID attachmentID generation idempotencyKey metadataEpoch
    metadataRevision false zero_MutationOperationRecord Received
    (map (fun extent => mkExtentStatus extent ∅ ∅ false false false "") (wplExtents plan)) "".

Definition MarkValidated (w : WriteExecution) : WriteExecution :=
  if bool_decide (weState w = Received) then w <| weState := Validated |> else w.

Definition MarkIntentPending (w : WriteExecution) : WriteExecution :=
  if bool_decide (weState w = Validated) || bool_decide (weState w = Received)
  then w <| weState := IntentPending |> else w.

(** A method that mutates the execution and may return an error. *)
Definition method := WriteExecution -> WriteExecution * result pipeline_error unit.

Definition out_of_range (w : WriteExecution) (extentIndex : Z) : bool :=
  (extentIndex <? 0) || (zlen (weExtents w) <=? extentIndex).

Definition set_extent (w : WriteExecution) (extentIndex : Z) (st : ExtentWriteStatus) : WriteExecution :=
  w <| weExtents := <[Z.to_nat extentIndex := st]> (weExtents w) |>.

Definition RecordChunkEncryptionHeaders (extentIndex : Z)
    (headers : list ReplicaChunkEncryptionHeader) : method := fun w =>
  if zlen headers =? 0 then (w, Ok tt) else
  if out_of_range w extentIndex then (w, Err (ExtentIndexOutOfRange extentIndex)) else
  match weExtents w !! Z.to_nat extentIndex with
  | None => (w, Panic)
  | Some st =>
      (set_extent w extentIndex
         (st <| esChunkEncryptionHeaders :=
                  fold_left (fun m h => match chHeader h with
                                        | None => m
                                        | Some header => <[chLogicalChunk h := header]> m
                                        end) headers (esChunkEncryptionHeaders st) |>), Ok tt)
  end.

Definition AllExtentsQuorumReached (w : WriteExecution) : bool :=
  negb (zlen (weExtents w) =? 0) && forallb esQuorumReached (weExtents w).

(** The status of an extent after an acknowledgement. *)
Definition ack_status (st : ExtentWriteStatus) (replicaID : string) (requirePrimaryAck : bool)
  : ExtentWriteStatus :=
  let st := st <| esAckedReplicaIDs := {[replicaID]} ∪ esAckedReplicaIDs st |> in
  let st := if String.eqb replicaID (rtReplicaID (wpPrimary (esPlan st)))
            then st <| esPrimaryAcked := true |> else st in
  if (negb requirePrimaryAck || esPrimaryAcked st)
     && (wpRequiredAcks (esPlan st) <=? wrap32 (Z.of_nat (size (esAckedReplicaIDs st))))
  then st <| esQuorumReached := true |> else st.

Definition MarkReplicaAckWithPolicy (extentIndex : Z) (replicaID : string) (requirePrimaryAck : bool)
  : method := fun w =>
  if out_of_range w extentIndex then (w, Err (ExtentIndexOutOfRange extentIndex)) else
  match weExtents w !! Z.to_nat extentIndex with
  | None => (w, Panic)
  | Some st =>
      if esFailed st then (w, Err (ExtentAlreadyFailed extentIndex)) else
      let w := set_extent w extentIndex (ack_status st replicaID requirePrimaryAck) in
      ((if AllExtentsQuorumReached w then w <| weState := PayloadQuorumDone |> else w), Ok tt)
  end.

Definition MarkReplicaAck (extentIndex : Z) (replicaID : string) : method :=
  MarkReplicaAckWithPolicy extentIndex replicaID true.

Definition MarkExtentFailed (extentIndex : Z) (err : option string) : method := fun w =>
  if out_of_range w extentIndex then (w, Err (ExtentIndexOutOfRange extentIndex)) else
  match weExtents w !! Z.to_nat extentIndex with
  | None => (w, Panic)
  | Some st =>
      let st := st <| esFailed := true |> in
      let '(st, w) := match err with
                      | None => (st, w)
                      | Some text => (st <| esLastError := text |>, w <| weLastError := text |>)
                      end in
      (set_extent w extentIndex st <| weState := Failed |>, Ok tt)
  end.

Definition CanCommitMetadata (w : WriteExecution) : bool :=
  bool_decide (weState w = PayloadQuorumDone) && AllExtentsQuorumReached w.

Definition MarkMetadataCommitted : method := fun w =>
  if negb (CanCommitMetadata w) then (w, Err NotReadyForCommit)
  else (w <| weState := MetadataCommitted |>, Ok tt).

Definition MarkAcked : method := fun w =>
  if negb (bool_decide (weState w = MetadataCommitted)) then (w, Err NotMetadataCommitted)
  else (w <| weState := Acked |>, Ok tt).

Definition MarkFailed (err : option string) (w : WriteExecution) : WriteExecution :=
  let w := match err with None => w | Some text => w <| weLastError := text |> end in
  w <| weState := Failed |>.

(** ** PrepareAllocationCommit *)

Definition uniqueSortedUint64s (values : list Z) : list Z :=
  merge_sort Z.le (remove_dups (List.filter (fun v => negb (v =? 0)) values)).

(** The pages of one extent: their states and the ranges the write affects. *)
Fixpoint commit_pages (pages : list ResolvedAllocationPage) (st : ExtentWriteStatus)
    (req : WriteRequest) (writeStart writeLength : Z) (states : gmap Z allocationCommitPageState)
    (ranges : list AllocationPageChunkRangeRecord)
  : result alloc_error (gmap Z allocationCommitPageState * list AllocationPageChunkRangeRecord) :=
  match pages with
  | [] => Ok (states, ranges)
  | page :: pages =>
      let no := apPageNo (raPage page) in
      state ← match states !! no with
              | Some state => Ok state
              | None => newAllocationCommitPageState (raPage page)
              end;
      rng ← allocationCommitAffectedPageChunkRange (raPage page) writeStart writeLength;
      let ranges := match rng with Some r => (ranges ++ [r])%list | None => ranges end in
      state ← applyWrite state (esPlan st) req writeStart writeLength (esChunkEncryptionHeaders st);
      commit_pages pages st req writeStart writeLength (<[no := state]> states) ranges
  end.

Fixpoint commit_extents (extents : list ExtentWriteStatus) (req : WriteRequest)
    (states : gmap Z allocationCommitPageState) (ranges : list AllocationPageChunkRangeRecord)
  : result alloc_error (gmap Z allocationCommitPageState * list AllocationPageChunkRangeRecord) :=
  match extents with
  | [] => Ok (states, ranges)
  | st :: extents =>
      let plan := esPlan st in
      if (wpChunkSizeBytes plan =? 0) || (zlen (wpAllocationPages plan) =? 0)
      then commit_extents extents req states ranges else
      match overlapRange (emLogicalOffset (wpExtent plan)) (emLengthBytes (wpExtent plan))
              (wrOffsetBytes req) (wrLengthBytes req) with
      | None => commit_extents extents req states ranges
      | Some (writeStart, writeLength) =>
          if writeLength =? 0 then commit_extents extents req states ranges else
          if negb (wpChunkSizeBytes plan =? wrChunkSizeBytes req)
          then Err (ChunkSizeMismatch (emExtentID (wpExtent plan)) (wpChunkSizeBytes plan)
                      (wrChunkSizeBytes req)) else
          '(states, ranges) ← commit_pages (wpAllocationPages plan) st req writeStart writeLength
                                states ranges;
          commit_extents extents req states ranges
      end
  end.

(** The pages to store, the retired chunk ids and the affected chunk ranges. *)
Definition PrepareAllocationCommit (exec : WriteExecution) (req : WriteRequest)
  : result alloc_error
      (list AllocationPageRecord * list Z * list AllocationPageChunkRangeRecord) :=
  if (wrPageBytes req =? 0) || (wrChunkSizeBytes req =? 0)
     || negb (wrPageBytes req mod wrChunkSizeBytes req =? 0) then Ok ([], [], []) else
  '(states, ranges) ← commit_extents (weExtents exec) req ∅ [];
  if Nat.eqb (size states) 0 then Ok ([], [], []) else
  let pageNos := merge_sort Z.le (map_to_list states).*1 in
  let sorted := omap (fun no => states !! no) pageNos in
  Ok (map toRecord sorted, uniqueSortedUint64s (concat (map retiredPhysicalChunkIDs sorted)),
      mergeAllocationCommitPageChunkRanges ranges).

(** ** Rebasing a write after a commit conflict *)

(** [latestByExtentID]: the last extent of the plan with the id wins. *)
Definition latest_by_extent_id (plan : WritePlan) (extentID : Z) : option ExtentWritePlan :=
  List.find (fun e => emExtentID (wpExtent e) =? extentID) (rev (wplExtents plan)).

Fixpoint rebase_extents (latestPlan : WritePlan) (req : WriteRequest) (extents : list ExtentWriteStatus)
  : result alloc_error (list ExtentWriteStatus) :=
  match extents with
  | [] => Ok []
  | st :: extents =>
      let current := esPlan st in
      st ← match latest_by_extent_id latestPlan (emExtentID (wpExtent current)) with
           | None => Ok st
           | Some latest =>
               mergedPages ← mergedRetryAllocationPages current latest req
                               (esChunkEncryptionHeaders st);
               Ok (st <| esPlan := current <| wpExtent := wpExtent latest |>
                           <| wpMetadataRevision := wpMetadataRevision latest |>
                           <| wpChunkSizeBytes := wpChunkSizeBytes latest |>
                           <| wpAllocationPages := mergedPages |> |>)
           end;
      rest ← rebase_extents latestPlan req extents;
      Ok (st :: rest)
  end.

(** [rebaseWritePlanForRetry], given the epoch and revision [GetVolumeState]
    returned and the plan the planner made. *)
Definition rebase_execution (epoch revision : Z) (latestPlan : WritePlan) (req : WriteRequest)
    (exec : WriteExecution) : result alloc_error WriteExecution :=
  if zlen (weExtents exec) =? 0 then Ok exec else
  extents ← rebase_extents latestPlan req (weExtents exec);
  Ok (exec <| weMetadataEpoch := epoch |> <| weMetadataRevision := revision |>
           <| weExtents := extents |>).

(** ** The extent loop of WriteService.Write *)

Record ReplicaWriteResult := mkReplicaWriteResult {
  wrAckedReplicaIDs : list string; wrFailureMessages : list string;
  wrChunkEncryptionHeaders : list ReplicaChunkEncryptionHeader; wrAllowNonPrimaryQuorum : bool }.

Section Write.
Context {W : Type}.
Context (writer : ExtentWritePlan -> ReplicaWriteRequest ->
                  act W pipeline_error (option ReplicaWriteResult)).

(** [writeExecutionCanOmitZeroSemanticPayload]. *)
Definition writeExecutionCanOmitZeroSemanticPayload (exec : WriteExecution) (req : WriteRequest) : bool :=
  if negb (wrZeroSemantic req) || (wrLengthBytes req =? 0) then false else
  forallb (fun st => canOmitZeroSemanticPayload (esPlan st)
             (zero_ReplicaWriteRequest <| rwOffsetBytes := wrOffsetBytes req |>
                <| rwLengthBytes := wrLengthBytes req |> <| rwZeroSemantic := true |>))
    (weExtents exec) && (0 <? zlen (weExtents exec)).

Definition replica_request (req : WriteRequest) (data : bytes) : ReplicaWriteRequest :=
  mkReplicaWriteRequest (wrRequestID req) (wrVolumeID req) (wrAttachmentID req) (wrGeneration req)
    (wrIdempotencyKey req) (wrOffsetBytes req) (wrLengthBytes req) data (wrZeroSemantic req).

(** The acknowledgements of one extent, up to the first error. *)
Fixpoint ack_all (extentIndex : Z) (replicaIDs : list string) (requirePrimaryAck : bool) : method :=
  fun w =>
  match replicaIDs with
  | [] => (w, Ok tt)
  | id :: replicaIDs =>
      match MarkReplicaAckWithPolicy extentIndex id requirePrimaryAck w with
      | (w, Ok _) => ack_all extentIndex replicaIDs requirePrimaryAck w
      | (w, r) => (w, r)
      end
  end.

(** The iteration of extent [extentIndex] once its result is known. *)
Definition settle_extent (extentIndex : Z) (plan : ExtentWritePlan) (res : ReplicaWriteResult)
  : method := fun w =>
  match RecordChunkEncryptionHeaders extentIndex (wrChunkEncryptionHeaders res) w with
  | (w, Ok _) =>
      match ack_all extentIndex (wrAckedReplicaIDs res) (negb (wrAllowNonPrimaryQuorum res)) w with
      | (w, Ok _) =>
          match weExtents w !! Z.to_nat extentIndex with
          | None => (w, Panic)
          | Some st => if negb (esQuorumReached st)
                       then (w, Err (QuorumNotReached (emExtentID (wpExtent plan)))) else (w, Ok tt)
          end
      | (w, r) => (w, r)
      end
  | (w, r) => (w, r)
  end.

(** [for extentIndex, extent := range exec.Extents]: [n] extents from
    [extentIndex] on.  An error ends the loop; the caller then marks the
    execution failed. *)
Fixpoint write_extents (n : nat) (extentIndex : Z) (req : WriteRequest) (data : bytes)
    (exec : WriteExecution) : act W pipeline_error WriteExecution := fun s =>
  match n with
  | O => (s, Ok exec)
  | S n =>
      match weExtents exec !! Z.to_nat extentIndex with
      | None => (s, Panic)
      | Some st =>
          match writer (esPlan st) (replica_request req data) s with
          | (s, Err e) => (s, Err e)
          | (s, Panic) => (s, Panic)
          | (s, Ok None) => (s, Err WriterReturnedNil)
          | (s, Ok (Some res)) =>
              match settle_extent extentIndex (esPlan st) res exec with
              | (exec, Ok _) => write_extents n (extentIndex + 1) req data exec s
              | (_, Err e) => (s, Err e)
              | (_, Panic) => (s, Panic)
              end
          end
      end
  end.

(** [replicaData]: a zero write that carries no payload sends zeroes, unless
    no replica has to store any. *)
Definition replica_data (req : WriteRequest) (exec : WriteExecution) : bytes :=
  if wrZeroSemantic req && (zlen (wrData req) =? 0)
     && negb (writeExecutionCanOmitZeroSemanticPayload exec req)
  then zeroes (wrLengthBytes req) else wrData req.

(** The payload phase of [Write]: the replica data and the loop over the extents. *)
Definition write_payload (req : WriteRequest) (exec : WriteExecution)
  : act W pipeline_error WriteExecution :=
  write_extents (length (weExtents exec)) 0 req (replica_data req exec) exec.

End Write.
End Pipeline.
