(* ===== verification/WritePipelineFacts.v ===== *)
(** * The replicated write pipeline: what an acknowledgement means

    The state machine of a write never reaches the commit without the required
    acknowledgements of every extent, the payload phase delivers them, plans
    only name writable replicas and enough of them, and what a commit retried
    after a conflict forgets. *)

From Stdlib Require Import ZArith Lia Ascii String.
From stdpp Require Import base list gmap strings sorting.
From S2P Require Import Prelude SbsTypes AllocationCommit AllocationCommitFacts WritePipeline.
Open Scope string_scope.
Open Scope Z_scope.

Module PipelineFacts.
Import Sbs Allocation Pipeline.

(** ** The state machine *)

(** The calls that change an execution. *)
Inductive call :=
| CallValidated | CallIntentPending
| CallHeaders (i : Z) (headers : list ReplicaChunkEncryptionHeader)
| CallAck (i : Z) (replicaID : string) (requirePrimaryAck : bool)
| CallExtentFailed (i : Z) (err : option string)
| CallCommitted | CallAcked | CallFailed (err : option string).

Definition exec (w : WriteExecution) (c : call) : WriteExecution :=
  match c with
  | CallValidated => MarkValidated w
  | CallIntentPending => MarkIntentPending w
  | CallHeaders i hs => (RecordChunkEncryptionHeaders i hs w).1
  | CallAck i r p => (MarkReplicaAckWithPolicy i r p w).1
  | CallExtentFailed i e => (MarkExtentFailed i e w).1
  | CallCommitted => (MarkMetadataCommitted w).1
  | CallAcked => (MarkAcked w).1
  | CallFailed e => MarkFailed e w
  end.

(** An extent counts acknowledgements that were given, and its quorum. *)
Record extent_ok (plan : ExtentWritePlan) (acks : string -> bool -> Prop) (st : ExtentWriteStatus)
  : Prop := {
  eo_plan : esPlan st = plan;
  eo_acked : forall r, r ∈ esAckedReplicaIDs st -> exists p, acks r p;
  eo_primary : esPrimaryAcked st = true -> rtReplicaID (wpPrimary plan) ∈ esAckedReplicaIDs st;
  eo_quorum : esQuorumReached st = true ->
    wpRequiredAcks plan <= Z.of_nat (size (esAckedReplicaIDs st)) /\
    ((forall r p, acks r p -> p = true) -> rtReplicaID (wpPrimary plan) ∈ esAckedReplicaIDs st) }.

Definition acks_in (calls : list call) (i : nat) (r : string) (p : bool) : Prop :=
  CallAck (Z.of_nat i) r p ∈ calls.

Definition extents_ok (plans : list ExtentWritePlan) (calls : list call) (w : WriteExecution) : Prop :=
  length (weExtents w) = length plans /\
  forall i st plan, weExtents w !! i = Some st -> plans !! i = Some plan ->
    extent_ok plan (acks_in calls i) st.

Lemma extent_ok_mono plan (acks acks' : string -> bool -> Prop) st :
  (forall r p, acks r p -> acks' r p) -> extent_ok plan acks st -> extent_ok plan acks' st.
Proof.
  intros Hm [H1 H2 H3 H4]. split; [done| |done|].
  - intros r Hr. destruct (H2 r Hr) as [p Hp]. eauto.
  - intros Hq. destruct (H4 Hq) as [H5 H6]. split; [done|]. intros Hall. apply H6. eauto.
Qed.

Lemma wrap32_le n : 0 <= n -> wrap32 n <= n.
Proof. intros Hn. unfold wrap32. apply Z.mod_le; lia. Qed.

Lemma ack_status_ok plan (acks : string -> bool -> Prop) st r p :
  extent_ok plan acks st -> acks r p -> extent_ok plan acks (ack_status st r p).
Proof.
  intros [H1 H2 H3 H4] Ha. unfold ack_status. cbv zeta.
  change (esPlan (st <| esAckedReplicaIDs := {[r]} ∪ esAckedReplicaIDs st |>)) with (esPlan st).
  rewrite H1.
  set (st1 := if String.eqb r (rtReplicaID (wpPrimary plan))
              then (st <| esAckedReplicaIDs := {[r]} ∪ esAckedReplicaIDs st |>) <| esPrimaryAcked := true |>
              else st <| esAckedReplicaIDs := {[r]} ∪ esAckedReplicaIDs st |>).
  assert (esPlan st1 = plan /\ esAckedReplicaIDs st1 = {[r]} ∪ esAckedReplicaIDs st /\
    esQuorumReached st1 = esQuorumReached st /\
    (esPrimaryAcked st1 = true -> rtReplicaID (wpPrimary plan) ∈ esAckedReplicaIDs st1)) as (E1 & E2 & E3 & E4).
  { unfold st1. destruct (String.eqb_spec r (rtReplicaID (wpPrimary plan))) as [->|Hne]; cbn;
      (split; [done|]; split; [done|]; split; [done|]); [set_solver|]. intros Hp. specialize (H3 Hp). set_solver. }
  clearbody st1.
  assert (forall r', r' ∈ esAckedReplicaIDs st1 -> exists p, acks r' p) as Hin.
  { rewrite E2. intros r' [->%elem_of_singleton|Hr']%elem_of_union; [by exists p|by apply H2]. }
  assert (esQuorumReached st = true -> wpRequiredAcks plan <= Z.of_nat (size (esAckedReplicaIDs st1)) /\
    ((forall r p, acks r p -> p = true) -> rtReplicaID (wpPrimary plan) ∈ esAckedReplicaIDs st1)) as Hold.
  { intros Hq. destruct (H4 Hq) as [H5 H6]. split.
    - assert (size (esAckedReplicaIDs st) <= size (esAckedReplicaIDs st1))%nat
        by (apply subseteq_size; rewrite E2; set_solver). lia.
    - intros Hall. specialize (H6 Hall). rewrite E2. set_solver. }
  rewrite E1. destruct (_ && _) eqn:Hq; (split; [done|done|done|]).
  - cbn. intros _. apply andb_true_iff in Hq as [Hp Hsz].
    pose proof (wrap32_le (Z.of_nat (size (esAckedReplicaIDs st1))) ltac:(lia)). split; [lia|].
    intros Hall. apply E4. specialize (Hall r p Ha). subst p. by destruct (esPrimaryAcked st1).
  - rewrite E3. exact Hold.
Qed.

(** The states after the quorum. *)
Definition past_quorum (st : WritePipelineState) : bool :=
  match st with PayloadQuorumDone | MetadataCommitted | Acked => true | _ => false end.

Record execution_ok (plans : list ExtentWritePlan) (calls : list call) (w : WriteExecution) : Prop := {
  xo_extents : extents_ok plans calls w;
  xo_state : past_quorum (weState w) = true -> AllExtentsQuorumReached w = true }.

(** Replacing one extent status. *)
Lemma set_extent_ok plans calls w i st st' :
  extents_ok plans calls w -> weExtents w !! i = Some st ->
  (forall plan, extent_ok plan (acks_in calls i) st -> extent_ok plan (acks_in calls i) st') ->
  extents_ok plans calls (set_extent w (Z.of_nat i) st').
Proof.
  intros [Hlen Hall] Hi Hst. unfold set_extent. split; cbn; [by rewrite length_insert|].
  rewrite Nat2Z.id. intros j st1 plan Hj Hp. destruct (decide (j = i)) as [->|Hne].
  - rewrite list_lookup_insert_eq in Hj by (by eapply lookup_lt_Some). injection Hj as <-.
    apply Hst. by apply (Hall i st plan).
  - rewrite list_lookup_insert_ne in Hj by done. by apply (Hall j).
Qed.

Lemma all_quorum w : AllExtentsQuorumReached w = true <->
  weExtents w <> [] /\ Forall (fun st => esQuorumReached st = true) (weExtents w).
Proof.
  unfold AllExtentsQuorumReached. rewrite andb_true_iff, forallb_forall, Forall_forall.
  setoid_rewrite list_elem_of_In. unfold zlen. destruct (weExtents w); cbn; split; intros [H1 H2]; split; done.
Qed.

Lemma set_extent_quorum w i st st' : weExtents w !! i = Some st ->
  (esQuorumReached st = true -> esQuorumReached st' = true) ->
  AllExtentsQuorumReached w = true -> AllExtentsQuorumReached (set_extent w (Z.of_nat i) st') = true.
Proof.
  intros Hi Hq. rewrite !all_quorum. unfold set_extent. cbn. rewrite Nat2Z.id. intros [Hne Hall]. split.
  - intros E. apply (f_equal length) in E. rewrite length_insert in E. by destruct (weExtents w).
  - apply Forall_insert; [done|]. apply Hq. by eapply (Forall_lookup_1 _ _ i) in Hall.
Qed.

Lemma ack_keeps_quorum st r p : esQuorumReached st = true -> esQuorumReached (ack_status st r p) = true.
Proof.
  intros Hq. unfold ack_status. destruct (String.eqb _ _); cbn; destruct (_ && _); done.
Qed.

(** In range, an index is a natural number. *)
Lemma in_range_index w i : out_of_range w i = false ->
  exists n st, i = Z.of_nat n /\ weExtents w !! n = Some st.
Proof.
  unfold out_of_range, zlen. intros [Hi Hn]%orb_false_iff.
  destruct (lookup_lt_is_Some_2 (weExtents w) (Z.to_nat i)) as [st Hst]; [lia|].
  exists (Z.to_nat i), st. split; [lia|done].
Qed.

(** A call that only changes the state, or nothing. *)
Lemma state_only plans calls w st :
  execution_ok plans calls w -> (past_quorum st = true -> AllExtentsQuorumReached w = true) ->
  execution_ok plans calls (w <| weState := st |>).
Proof. intros [H1 H2] Hst. by split. Qed.

Lemma exec_ok plans calls w c : execution_ok plans calls w -> c ∈ calls ->
  execution_ok plans calls (exec w c).
Proof.
  intros Hw Hc. pose proof Hw as [He Hs]. destruct c as [| |i hs|i r p|i e| | |e]; cbn [exec].
  - unfold MarkValidated. destruct (bool_decide _); [by apply state_only|done].
  - unfold MarkIntentPending. destruct (_ || _); [by apply state_only|done].
  - unfold RecordChunkEncryptionHeaders. destruct (_ =? 0); [done|].
    destruct (out_of_range w i) eqn:Ho; [done|]. destruct (in_range_index w i Ho) as (n & st & -> & Hn).
    rewrite Nat2Z.id, Hn. cbn. split.
    + eapply set_extent_ok; [done|done|]. intros plan [H1 H2 H3 H4]. by split.
    + intros Hq. eapply set_extent_quorum; [done|done|]. by apply Hs.
  - unfold MarkReplicaAckWithPolicy. destruct (out_of_range w i) eqn:Ho; [done|].
    destruct (in_range_index w i Ho) as (n & st & -> & Hn). rewrite Nat2Z.id, Hn.
    destruct (esFailed st); [done|]. cbn [fst].
    assert (execution_ok plans calls (set_extent w (Z.of_nat n) (ack_status st r p))) as Hack.
    { split.
      - eapply set_extent_ok; [done|done|]. intros plan Hp. by apply ack_status_ok.
      - intros Hq. eapply set_extent_quorum; [done|apply ack_keeps_quorum|]. by apply Hs. }
    destruct (AllExtentsQuorumReached (set_extent _ _ _)) eqn:Hall; [by apply state_only|done].
  - unfold MarkExtentFailed. destruct (out_of_range w i) eqn:Ho; [done|].
    destruct (in_range_index w i Ho) as (n & st & -> & Hn). rewrite Nat2Z.id, Hn.
    destruct e as [text|]; cbn [fst]; (split; [|done]).
    + apply (set_extent_ok plans calls (w <| weLastError := text |>) n st); [done|done|].
      intros plan [H1 H2 H3 H4]. by split.
    + apply (set_extent_ok plans calls w n st); [done|done|]. intros plan [H1 H2 H3 H4]. by split.
  - unfold MarkMetadataCommitted. destruct (CanCommitMetadata w) eqn:Hcan; [|done].
    apply state_only; [done|]. intros _. by apply andb_true_iff in Hcan as [_ ?].
  - unfold MarkAcked. destruct (bool_decide (weState w = MetadataCommitted)) eqn:Hm; [|done].
    apply state_only; [done|]. intros _. apply Hs. apply bool_decide_eq_true in Hm. by rewrite Hm.
  - unfold MarkFailed. destruct e; by split.
Qed.

Lemma fold_exec_ok plans calls todo w : execution_ok plans calls w -> (forall c, c ∈ todo -> c ∈ calls) ->
  execution_ok plans calls (fold_left exec todo w).
Proof.
  revert w. induction todo as [|c todo IH]; intros w Hw Hin; [done|]. cbn. apply IH.
  - apply exec_ok; [done|]. apply Hin. by left.
  - intros c' Hc'. apply Hin. by right.
Qed.

Lemma new_execution_ok plan rid aid gen key epoch rev calls :
  execution_ok (wplExtents plan) calls (NewWriteExecution plan rid aid gen key epoch rev).
Proof.
  split; [|done]. unfold NewWriteExecution. split; cbn; [by rewrite length_map|].
  intros i st p Hst Hp.
  apply (list_lookup_fmap_Some_1 _ (wplExtents plan)) in Hst as (p' & -> & Hp').
  simplify_eq. by split.
Qed.

(** C33: no commit without quorum.  Whatever calls are made on a new execution, in
    whatever order, once it is in the payload-quorum, committed or acknowledged
    state every extent of its plan was acknowledged by at least the required
    number of different replicas; if every acknowledgement demanded the
    primary, the primary is among them. *)
Theorem commit_requires_quorum (plan : WritePlan) (rid aid key : string) (gen epoch rev : Z)
    (calls : list call) (i : nat) (p : ExtentWritePlan) :
  past_quorum (weState (fold_left exec calls (NewWriteExecution plan rid aid gen key epoch rev))) = true ->
  wplExtents plan !! i = Some p ->
  exists acked : gset string, (forall r, r ∈ acked -> exists req, CallAck (Z.of_nat i) r req ∈ calls) /\
    wpRequiredAcks p <= Z.of_nat (size acked) /\
    ((forall r req, CallAck (Z.of_nat i) r req ∈ calls -> req = true) ->
     rtReplicaID (wpPrimary p) ∈ acked).
Proof.
  intros Hq Hp. pose proof (fold_exec_ok (wplExtents plan) calls calls
    (NewWriteExecution plan rid aid gen key epoch rev) (new_execution_ok _ _ _ _ _ _ _ _) (fun c H => H))
    as [[Hlen Hext] Hst].
  specialize (Hst Hq). apply all_quorum in Hst as [_ Hall].
  destruct (lookup_lt_is_Some_2 (weExtents (fold_left exec calls
    (NewWriteExecution plan rid aid gen key epoch rev))) i) as [st Hi];
    [rewrite Hlen; by eapply lookup_lt_Some|].
  destruct (Hext i st p Hi Hp) as [H1 H2 H3 H4]. eapply (Forall_lookup_1 _ _ i) in Hall; [|done].
  destruct (H4 Hall) as [H5 H6]. exists (esAckedReplicaIDs st). done.
Qed.

Definition two_replicas : ExtentWritePlan :=
  zero_ExtentWritePlan <| wpPrimary := mkReplicaTarget "n1" "r1" "primary" "a" |>
    <| wpWriteTargets := [mkReplicaTarget "n1" "r1" "primary" "a"; mkReplicaTarget "n2" "r2" "secondary" "b"] |>
    <| wpRequiredAcks := 2 |>.

Lemma commit_requires_quorum_witness :
  let calls := [CallValidated; CallIntentPending; CallAck 0 "r2" true; CallAck 0 "r1" true;
                CallCommitted; CallAcked] in
  exists acked : gset string, (forall r, r ∈ acked -> exists req, CallAck 0 r req ∈ calls) /\
    2 <= Z.of_nat (size acked) /\
    ((forall r req, CallAck 0 r req ∈ calls -> req = true) -> "r1" ∈ acked).
Proof.
  refine (commit_requires_quorum (mkWritePlan "v" [two_replicas]) "q" "a" "k" 1 1 1
    [CallValidated; CallIntentPending; CallAck 0 "r2" true; CallAck 0 "r1" true; CallCommitted; CallAcked]
    0 two_replicas _ _); vm_compute; reflexivity.
Defined.

(** ** The payload phase *)

(** Acknowledging the replicas [ids] of one extent in turn. *)
Definition ack_fold (ids : list string) (requirePrimaryAck : bool) (st : ExtentWriteStatus)
  : ExtentWriteStatus := fold_left (fun st r => ack_status st r requirePrimaryAck) ids st.

Lemma ack_status_acked st r p : esAckedReplicaIDs (ack_status st r p) = {[r]} ∪ esAckedReplicaIDs st.
Proof. unfold ack_status. destruct (String.eqb _ _); cbn; by destruct (_ && _). Qed.

Lemma ack_fold_acked ids p st :
  esAckedReplicaIDs (ack_fold ids p st) = list_to_set ids ∪ esAckedReplicaIDs st.
Proof.
  revert st. induction ids as [|r ids IH]; intros st; [set_solver|].
  change (ack_fold (r :: ids) p st) with (ack_fold ids p (ack_status st r p)).
  rewrite IH, ack_status_acked. set_solver.
Qed.

Lemma ack_fold_ok plan (acks : string -> bool -> Prop) ids p st :
  extent_ok plan acks st -> (forall r, r ∈ ids -> acks r p) -> extent_ok plan acks (ack_fold ids p st).
Proof.
  revert st. induction ids as [|r ids IH]; intros st Hst Hin; [done|]. cbn. apply IH.
  - apply ack_status_ok; [done|]. apply Hin. by left.
  - intros r' Hr'. apply Hin. by right.
Qed.

(** An execution is in the quorum state as soon as every extent is. *)
Definition quorum_noticed (w : WriteExecution) : Prop :=
  AllExtentsQuorumReached w = true -> weState w = PayloadQuorumDone.

Lemma set_extent_twice w n st st' :
  set_extent (set_extent w (Z.of_nat n) st) (Z.of_nat n) st' = set_extent w (Z.of_nat n) st'.
Proof. unfold set_extent. cbn. by rewrite Nat2Z.id, list_insert_insert_eq. Qed.

Lemma ack_all_effect n ids p w w' st :
  weExtents w !! n = Some st -> quorum_noticed w -> ack_all (Z.of_nat n) ids p w = (w', Ok tt) ->
  weExtents w' = <[n := ack_fold ids p st]> (weExtents w) /\ quorum_noticed w'.
Proof.
  revert w st. induction ids as [|r ids IH]; intros w st Hst Hq Heq; cbn in *.
  { simplify_eq. by rewrite list_insert_id. }
  unfold MarkReplicaAckWithPolicy in Heq. destruct (out_of_range w _); [done|].
  rewrite Nat2Z.id, Hst in Heq. destruct (esFailed st); [done|].
  set (w1 := set_extent w (Z.of_nat n) (ack_status st r p)) in *.
  set (w2 := if AllExtentsQuorumReached w1 then w1 <| weState := PayloadQuorumDone |> else w1) in *.
  assert (weExtents w2 = <[n := ack_status st r p]> (weExtents w)) as Hw2.
  { unfold w2, w1, set_extent. destruct (AllExtentsQuorumReached _); cbn; by rewrite Nat2Z.id. }
  assert (quorum_noticed w2) as Hq2.
  { unfold quorum_noticed, w2. destruct (AllExtentsQuorumReached w1) eqn:Ha; [done|]. by rewrite Ha. }
  apply (IH w2 (ack_status st r p)) in Heq as [Hext Hq']; [| |done].
  - by rewrite Hext, Hw2, list_insert_insert_eq.
  - rewrite Hw2. apply list_lookup_insert_eq. by eapply lookup_lt_Some.
Qed.

Lemma headers_effect n hs w w' st :
  weExtents w !! n = Some st -> RecordChunkEncryptionHeaders (Z.of_nat n) hs w = (w', Ok tt) ->
  weState w' = weState w /\ exists m,
  weExtents w' = <[n := st <| esChunkEncryptionHeaders := m |>]> (weExtents w).
Proof.
  intros Hst. unfold RecordChunkEncryptionHeaders. destruct (_ =? 0); intros Heq.
  - simplify_eq. split; [done|]. exists (esChunkEncryptionHeaders st).
    rewrite list_insert_id; [done|]. rewrite Hst. by destruct st.
  - destruct (out_of_range w _); [done|]. rewrite Nat2Z.id, Hst in Heq. simplify_eq.
    split; [done|]. eexists. unfold set_extent. cbn. by rewrite Nat2Z.id.
Qed.

(** What the writer's answer settled about an extent. *)
Record settled (plan : ExtentWritePlan) (res : ReplicaWriteResult) : Prop := {
  se_quorum : wpRequiredAcks plan <= Z.of_nat (size (list_to_set (wrAckedReplicaIDs res) : gset string));
  se_primary : wrAllowNonPrimaryQuorum res = false ->
    rtReplicaID (wpPrimary plan) ∈ wrAckedReplicaIDs res }.

Definition fresh_status (plan : ExtentWritePlan) : ExtentWriteStatus :=
  mkExtentStatus plan ∅ ∅ false false false "".

Lemma ack_fold_settled plan res m :
  let st := ack_fold (wrAckedReplicaIDs res) (negb (wrAllowNonPrimaryQuorum res))
              (fresh_status plan <| esChunkEncryptionHeaders := m |>) in
  esQuorumReached st = true -> settled plan res.
Proof.
  intros st Hq. pose (acks := fun r p => r ∈ wrAckedReplicaIDs res /\ p = negb (wrAllowNonPrimaryQuorum res)).
  assert (extent_ok plan acks st) as [_ _ _ Hok].
  { apply ack_fold_ok; [by split|done]. }
  destruct (Hok Hq) as [Hsz Hprim]. unfold st in Hsz, Hprim. rewrite ack_fold_acked in Hsz, Hprim. cbn in *.
  rewrite right_id_L in Hsz, Hprim by apply _. split; [done|]. intros Hall.
  apply (elem_of_list_to_set (C:=gset string)), Hprim. intros r p [_ ->]. by rewrite Hall.
Qed.

Lemma settle_effect n plan res w w' :
  weExtents w !! n = Some (fresh_status plan) -> quorum_noticed w ->
  settle_extent (Z.of_nat n) plan res w = (w', Ok tt) ->
  settled plan res /\ quorum_noticed w' /\
  exists st, esQuorumReached st = true /\ weExtents w' = <[n := st]> (weExtents w).
Proof.
  intros Hst Hq. unfold settle_extent.
  destruct (RecordChunkEncryptionHeaders _ _ w) as [w1 [[]|?|]] eqn:Hh; [|done|done].
  destruct (headers_effect _ _ _ _ _ Hst Hh) as [Hstate [m Hext]].
  pose proof (lookup_lt_Some _ _ _ Hst) as Hlt.
  assert (weExtents w1 !! n = Some (fresh_status plan <| esChunkEncryptionHeaders := m |>)) as Hst1
    by (rewrite Hext; by apply list_lookup_insert_eq).
  assert (quorum_noticed w1) as Hq1.
  { unfold quorum_noticed. rewrite all_quorum. intros [_ Hall].
    pose proof (Forall_lookup_1 _ _ n _ Hall Hst1) as Hno. discriminate Hno. }
  destruct (ack_all _ _ _ w1) as [w2 [[]|?|]] eqn:Ha; [|done|done].
  destruct (ack_all_effect _ _ _ _ _ _ Hst1 Hq1 Ha) as [Hext2 Hq2].
  assert (weExtents w2 !! n = Some (ack_fold (wrAckedReplicaIDs res) (negb (wrAllowNonPrimaryQuorum res))
    (fresh_status plan <| esChunkEncryptionHeaders := m |>))) as Hst2.
  { rewrite Hext2. apply list_lookup_insert_eq. rewrite Hext, length_insert. done. }
  rewrite Nat2Z.id, Hst2. cbv beta iota. destruct (esQuorumReached _) eqn:Hr; [|done]. intros Heq. injection Heq as <-.
  split; [by eapply ack_fold_settled|]. split; [exact Hq2|].
  eexists. split; [exact Hr|]. by rewrite Hext2, Hext, list_insert_insert_eq.
Qed.

Section Payload.
Context {W : Type} (writer : ExtentWritePlan -> ReplicaWriteRequest ->
                             act W pipeline_error (option ReplicaWriteResult)).

(** The writer's answer for the extent of [plan] settled it. *)
Definition written (req : WriteRequest) (data : bytes) (plan : ExtentWritePlan) : Prop :=
  exists s s' res, writer plan (replica_request req data) s = (s', Ok (Some res)) /\ settled plan res.

(** The loop from extent [k] on: the extents before it have their quorum, the
    others are untouched. *)
Lemma write_extents_settles req data (plans : list ExtentWritePlan) n k w w' s s' :
  (k + n = length plans)%nat -> length (weExtents w) = length plans -> quorum_noticed w ->
  (forall i st, weExtents w !! i = Some st -> (i < k)%nat -> esQuorumReached st = true) ->
  (forall i plan, plans !! i = Some plan -> (k <= i)%nat -> weExtents w !! i = Some (fresh_status plan)) ->
  write_extents writer n (Z.of_nat k) req data w s = (s', Ok w') ->
  quorum_noticed w' /\ length (weExtents w') = length plans /\
  Forall (fun st => esQuorumReached st = true) (weExtents w') /\
  (forall i plan, plans !! i = Some plan -> (k <= i)%nat -> written req data plan).
Proof.
  revert k w s. induction n as [|n IH]; intros k w s Hk Hlen Hq Hdone Hfresh; cbn [write_extents].
  { intros Heq. simplify_eq. split; [done|]. split; [done|]. split.
    - apply Forall_lookup. intros i st Hi. apply (Hdone i st Hi). apply lookup_lt_Some in Hi. lia.
    - intros i plan Hi Hki. apply lookup_lt_Some in Hi. lia. }
  destruct (lookup_lt_is_Some_2 plans k) as [plan Hplan]; [lia|].
  pose proof (Hfresh k plan Hplan (le_n k)) as Hst. rewrite Nat2Z.id, Hst. cbn [esPlan fresh_status].
  destruct (writer plan (replica_request req data) s) as [s1 [[res|]|?|]] eqn:Hw; [|done|done|done].
  destruct (settle_extent (Z.of_nat k) plan res w) as [w1 [[]|?|]] eqn:Hset; [|done|done].
  destruct (settle_effect _ _ _ _ _ Hst Hq Hset) as (Hsettled & Hq1 & st & Hreached & Hext).
  replace (Z.of_nat k + 1) with (Z.of_nat (S k)) by lia. intros Heq.
  apply IH in Heq as (Hq' & Hlen' & Hall & Hrest); [|lia|by rewrite Hext, length_insert|done| |].
  - split; [done|]. split; [done|]. split; [done|]. intros i plan' Hi Hki.
    destruct (decide (i = k)) as [->|Hne]; [|apply (Hrest i plan' Hi); lia].
    simplify_eq. by exists s, s1, res.
  - intros i st' Hi Hlt. rewrite Hext in Hi. destruct (decide (i = k)) as [->|Hne].
    + rewrite list_lookup_insert_eq in Hi by (by eapply lookup_lt_Some). by simplify_eq.
    + rewrite list_lookup_insert_ne in Hi by done. apply (Hdone i); [done|lia].
  - intros i plan' Hi Hki. rewrite Hext, list_lookup_insert_ne by lia. apply Hfresh; [done|lia].
Qed.

(** The payload phase only ends well with a quorum.  When the extent loop of
    [Write] returns without error for a new execution of a plan that has
    extents, the execution may commit, and for every extent of the plan the
    writer returned a result whose acknowledgements come from at least the
    required number of different replicas, the primary among them unless the
    result waives it. *)
Theorem payload_phase_quorum (plan : WritePlan) (rid aid key : string) (gen epoch rev : Z)
    (req : WriteRequest) (s s' : W) (w' : WriteExecution) :
  let w := MarkIntentPending (MarkValidated (NewWriteExecution plan rid aid gen key epoch rev)) in
  wplExtents plan <> [] -> write_payload writer req w s = (s', Ok w') ->
  CanCommitMetadata w' = true /\
  (forall i p, wplExtents plan !! i = Some p -> written req (replica_data req w) p).
Proof.
  intros w Hne Heq.
  assert (weExtents w = map fresh_status (wplExtents plan)) as Hw by done.
  unfold write_payload in Heq. rewrite Hw, length_map in Heq.
  apply (write_extents_settles req _ (wplExtents plan) _ 0) in Heq as (Hq & Hlen & Hall & Hwritten).
  - assert (AllExtentsQuorumReached w' = true) as Ha.
    { apply all_quorum. split; [|done]. intros E. rewrite E in Hlen.
      destruct (wplExtents plan); done. }
    split; [|intros i p Hp; apply (Hwritten i p Hp); lia].
    unfold CanCommitMetadata. rewrite Ha, andb_true_r. by apply bool_decide_eq_true, Hq.
  - done.
  - by rewrite Hw, length_map.
  - unfold quorum_noticed. rewrite all_quorum, Hw. intros [_ Hall].
    destruct (wplExtents plan); [done|]. by inversion_clear Hall.
  - lia.
  - intros i p Hp _. rewrite Hw. apply (list_lookup_fmap_Some_2 fresh_status). eauto.
Qed.

End Payload.

(** A writer that stores nothing and reports both replicas. *)
Definition both_ack (plan : ExtentWritePlan) (_ : ReplicaWriteRequest)
  : act unit pipeline_error (option ReplicaWriteResult) :=
  ret_act (Some (mkReplicaWriteResult (map rtReplicaID (wpWriteTargets plan)) [] [] false)).

Definition two_replica_write : WriteExecution :=
  MarkIntentPending (MarkValidated (NewWriteExecution (mkWritePlan "v" [two_replicas]) "q" "a" 1 "k" 1 1)).

Lemma payload_phase_quorum_witness :
  CanCommitMetadata (ack_all 0 ["r1"; "r2"] true two_replica_write).1 = true /\
  forall i p, [two_replicas] !! i = Some p -> written both_ack zero_WriteRequest [] p.
Proof.
  refine (payload_phase_quorum both_ack (mkWritePlan "v" [two_replicas]) "q" "a" "k" 1 1 1
    zero_WriteRequest tt tt _ _ _); [discriminate|vm_compute; reflexivity].
Defined.

(** ** Plans *)

Lemma primary_first {A} (f : A -> string) (l : list A) (x : A) :
  NoDup (map f l) -> x ∈ l ->
  l ≡ₚ x :: List.filter (fun y => negb (String.eqb (f y) (f x))) l.
Proof.
  induction l as [|y l IH]; [by intros _ ?%not_elem_of_nil|]. cbn.
  intros [Hy Hnd]%NoDup_cons [->|Hx]%elem_of_cons.
  - rewrite String.eqb_refl. cbn. f_equiv.
    assert (forall z, z ∈ l -> negb (String.eqb (f z) (f y)) = true) as Hall.
    { intros z Hz. apply negb_true_iff, String.eqb_neq. intros E. apply Hy. rewrite <-E.
      apply list_elem_of_In, in_map, list_elem_of_In, Hz. }
    clear -Hall. induction l as [|z l IH]; [done|]. cbn. rewrite Hall by left. f_equiv. apply IH.
    intros z' Hz'. apply Hall. by right.
  - destruct (String.eqb_spec (f y) (f x)) as [E|_]; cbn.
    + exfalso. apply Hy. rewrite E. apply list_elem_of_In, in_map, list_elem_of_In, Hx.
    + rewrite Permutation_swap. f_equiv. by apply IH.
Qed.

Lemma filter_NoDup_map {A} (f : A -> string) (g : A -> bool) (l : list A) :
  NoDup (map f l) -> NoDup (map f (List.filter g l)).
Proof.
  induction l as [|x l IH]; [done|]. cbn. intros [Hx Hnd]%NoDup_cons.
  destruct (g x); [|by apply IH]. apply NoDup_cons. split; [|by apply IH].
  intros (y & E & Hy)%list_elem_of_In%in_map_iff. apply Hx. rewrite <-E.
  apply list_elem_of_In, in_map. by apply filter_In in Hy as [? _].
Qed.

Lemma filter_comm_map {A B} (f : A -> B) (p : B -> bool) (l : list A) :
  List.filter p (map f l) = map f (List.filter (fun x => p (f x)) l).
Proof. induction l as [|x l IH]; [done|]. cbn. destruct (p (f x)); cbn; by rewrite IH. Qed.

(** The targets of a write: the writable replicas, the primary first. *)
Lemma build_targets_spec set nodes primary targets :
  buildWriteTargets set nodes = Ok (primary, targets) -> NoDup (map rdReplicaID (rsReplicas set)) ->
  head targets = Some primary /\ targets ≡ₚ map toTarget (writableReplicas (rsReplicas set) nodes).
Proof.
  unfold buildWriteTargets. destruct (_ =? 0); [done|].
  destruct (writableReplicas (rsReplicas set) nodes) as [|first rest] eqn:Hc; [done|].
  set (cands := first :: rest) in *. intros Heq Hnd. injection Heq as <- <-. split; [done|].
  assert (exists r, r ∈ cands /\ match findPrimary (rsPrimaryReplicaID set) cands with
    | Some p => p | None => toTarget first end = toTarget r) as (r & Hr & ->).
  { unfold findPrimary. destruct (String.eqb _ _); [exists first; split; [left|done]|].
    destruct (List.find _ cands) as [r|] eqn:Hf; [|exists first; split; [left|done]].
    exists r. apply find_some in Hf as [Hin _]. split; [by apply list_elem_of_In|done]. }
  symmetry. refine (Permutation_map toTarget (primary_first rdReplicaID cands r _ Hr)).
  rewrite <-Hc. by apply filter_NoDup_map.
Qed.

Lemma ack_status_plan st r p : esPlan (ack_status st r p) = esPlan st.
Proof. unfold ack_status. destruct (String.eqb _ _); cbn; by destruct (_ && _). Qed.

Lemma ack_status_primary st r p : esPrimaryAcked (ack_status st r p) =
  String.eqb r (rtReplicaID (wpPrimary (esPlan st))) || esPrimaryAcked st.
Proof. unfold ack_status. destruct (String.eqb _ _); cbn; by destruct (_ && _). Qed.

Lemma ack_fold_primary ids p st :
  rtReplicaID (wpPrimary (esPlan st)) ∈ ids \/ esPrimaryAcked st = true ->
  esPrimaryAcked (ack_fold ids p st) = true.
Proof.
  revert st. induction ids as [|r ids IH]; intros st Hp.
  { destruct Hp as [?%not_elem_of_nil|?]; done. }
  apply IH. rewrite ack_status_plan, ack_status_primary.
  destruct Hp as [Hp|Hp]; [apply elem_of_cons in Hp as [<-|Hin]|].
  - right. by rewrite String.eqb_refl.
  - by left.
  - right. by rewrite Hp, orb_true_r.
Qed.

Lemma ack_fold_plan ids p st : esPlan (ack_fold ids p st) = esPlan st.
Proof. revert st. induction ids as [|r ids IH]; intros st; [done|]. etrans; [apply IH|apply ack_status_plan]. Qed.

(** Enough different replicas with the primary among them reach the quorum. *)
Lemma ack_all_targets ids plan :
  rtReplicaID (wpPrimary plan) ∈ ids -> NoDup ids -> wpRequiredAcks plan <= wrap32 (zlen ids) ->
  esQuorumReached (ack_fold ids true (fresh_status plan)) = true.
Proof.
  intros Hp Hnd Hreq. destruct ids as [|r ids _] using rev_ind; [by apply not_elem_of_nil in Hp|].
  assert (ack_fold (ids ++ [r]) true (fresh_status plan)
    = ack_status (ack_fold ids true (fresh_status plan)) r true) as E
    by (unfold ack_fold; by rewrite fold_left_app).
  pose proof (ack_fold_primary _ true (fresh_status plan) (or_introl Hp)) as Hprim.
  pose proof (ack_fold_acked (ids ++ [r]) true (fresh_status plan)) as Hacked.
  rewrite E in *. unfold zlen in Hreq. rewrite <-(size_list_to_set (C:=gset string)) in Hreq by done.
  revert Hprim Hacked. unfold ack_status.
  set (st := if String.eqb _ _ then _ else _).
  assert (esPlan st = plan) as ->.
  { unfold st. pose proof (ack_fold_plan ids true (fresh_status plan)). by destruct (String.eqb _ _). }
  destruct (_ && _) eqn:Hc; [done|]. intros Hprim Hacked. rewrite Hprim, Hacked in Hc. cbn in Hc.
  rewrite right_id_L in Hc by apply _. lia.
Qed.

(** A plan can be carried out.  The targets of a planned extent are exactly the
    writable replicas of its set, the primary first and each once, there are at
    least as many as it requires acknowledgements, and acknowledgements from
    all of them reach the quorum. *)
Theorem plan_meets_quorum (placement : ResolvedExtentPlacement) (pages : list ResolvedAllocationPage)
    (chunkSize : Z) (cow : bool) (p : ExtentWritePlan) :
  let set := reReplicaSet placement in
  extent_write_plan placement pages chunkSize cow = Ok p ->
  NoDup (map rdReplicaID (rsReplicas set)) -> Z.of_nat (length (rsReplicas set)) < 2 ^ 32 ->
  head (wpWriteTargets p) = Some (wpPrimary p) /\
  wpWriteTargets p ≡ₚ map toTarget (writableReplicas (rsReplicas set) (reNodes placement)) /\
  wpRequiredAcks p = rsWriteQuorum set /\ wpRequiredAcks p <= zlen (wpWriteTargets p) /\
  esQuorumReached (ack_fold (map rtReplicaID (wpWriteTargets p)) true (fresh_status p)) = true.
Proof.
  intros set Heq Hnd Hsz. unfold extent_write_plan in Heq.
  destruct (buildWriteTargets (reReplicaSet placement) (reNodes placement))
    as [[primary targets]|?|] eqn:Hb; [|done|done].
  cbn in Heq. destruct (_ <? _) eqn:Hq; [done|]. injection Heq as <-. cbn.
  destruct (build_targets_spec _ _ _ _ Hb Hnd) as [Hhead Hperm].
  assert (wrap32 (zlen targets) <= zlen targets) by (apply wrap32_le; unfold zlen; lia).
  pose proof (List.filter_length_le (fun r => replicaWritable r (reNodes placement)) (rsReplicas set)) as Hle.
  pose proof (Permutation_length Hperm) as Hlen. rewrite length_map in Hlen.
  split; [done|]. split; [done|]. split; [done|]. split; [lia|].
  apply ack_all_targets; [destruct targets; [done|]; injection Hhead as ->; left| |]; cbn.
  - apply (NoDup_Permutation_proper _ _ (Permutation_map rtReplicaID Hperm)).
    rewrite map_map. cbn. by apply filter_NoDup_map.
  - unfold zlen, writableReplicas, set in *. rewrite length_map.
    rewrite wrap32_small in * by (unfold in_u; lia). lia.
Qed.

(** Three replicas, one on a node that is being drained; two must acknowledge. *)
Definition three_replicas : ResolvedExtentPlacement :=
  mkResolvedPlacement zero_ExtentMappingRecord
    (zero_ReplicaSetState <| rsPrimaryReplicaID := "r2" |> <| rsWriteQuorum := 2 |>
       <| rsReplicas := [mkReplicaDescriptor "n1" "r1" "secondary" "a";
                         mkReplicaDescriptor "n2" "r2" "primary" "b";
                         mkReplicaDescriptor "n3" "r3" "secondary" "c"] |>)
    {["n1" := mkNode "draining" NodeHealthHealthy; "n2" := mkNode NodeLifecycleActive NodeHealthSuspect]}.

Lemma plan_meets_quorum_witness :
  let t2 := mkReplicaTarget "n2" "r2" "primary" "b" in
  let t3 := mkReplicaTarget "n3" "r3" "secondary" "c" in
  let p := mkExtentWritePlan zero_ExtentMappingRecord "" "" t2 [t2; t3] 2 0 0 [] 4096 false [] in
  head [t2; t3] = Some t2 /\
  [t2; t3] ≡ₚ map toTarget (writableReplicas (rsReplicas (reReplicaSet three_replicas)) (reNodes three_replicas)) /\
  2 = 2 /\ 2 <= zlen [t2; t3] /\
  esQuorumReached (ack_fold ["r2"; "r3"] true (fresh_status p)) = true.
Proof.
  intros t2 t3 p. refine (plan_meets_quorum three_replicas [] 4096 false p _ _ _); [vm_compute; reflexivity| |cbn; lia].
  cbn. apply NoDup_cons. split; [set_solver|]. apply NoDup_cons. split; [set_solver|]. apply NoDup_singleton.
Defined.

(** ** A retried commit *)

(** A page of two chunks, both with data, and a write of zeroes over all of it. *)
Definition two_chunk_page (revision : Z) : ResolvedAllocationPage :=
  mkResolvedAllocationPage
    (mkAllocationPageRecord "v" 0 8192 4096 revision
       [zero_AllocationExtentRecord <| aeChunkCount := 2 |> <| aeKind := AllocationKindData |>
          <| aePhysicalChunkStart := 7 |>]) 0 2 true.

Definition page_plan (revision : Z) : ExtentWritePlan :=
  zero_ExtentWritePlan <| wpExtent := zero_ExtentMappingRecord <| emLengthBytes := 8192 |> |>
    <| wpAllocationPages := [two_chunk_page revision] |> <| wpChunkSizeBytes := 4096 |>.

Definition discard_request : WriteRequest :=
  zero_WriteRequest <| wrLengthBytes := 8192 |> <| wrPageBytes := 8192 |>
    <| wrChunkSizeBytes := 4096 |> <| wrZeroSemantic := true |>.

Definition discard_execution : WriteExecution :=
  NewWriteExecution (mkWritePlan "v" [page_plan 1]) "q" "a" 1 "k" 1 1.

(** The chunk ids a commit would retire. *)
Definition retired_by (r : result alloc_error WriteExecution) : option (list Z) :=
  match r with
  | Ok w => match PrepareAllocationCommit w discard_request with
            | Ok (_, retired, _) => Some retired
            | _ => None
            end
  | _ => None
  end.

(** A discard that commits at the first attempt retires the chunks it unmaps.  The
    same discard, rebased on a newer revision of the same page after a
    conflict, retires none of them: the rebased pages carry the write already,
    and [PrepareAllocationCommit] takes them for the pages before the write. *)
Theorem retried_discard_retires_nothing :
  retired_by (Ok discard_execution) = Some [7; 8] /\
  retired_by (rebase_execution 1 2 (mkWritePlan "v" [page_plan 2]) discard_request discard_execution)
  = Some [].
Proof. split; vm_compute; reflexivity. Qed.

End PipelineFacts.
