(* ===== verification/MetaPages.v ===== *)
(** * Allocation pages in the metadata repository

    Models the pure part of the commit path of
    src/sbs/cluster/metadata/repository.go: expanding a stored page into chunk
    ids and compressing it again, the pages synthesized for volumes that only
    have extent mappings, the chunk ranges a commit touches, and the merge of a
    committed page into the stored one.

    Extent mappings are read through the argument [mapping]. *)

From Stdlib Require Import ZArith Lia Ascii String.
From stdpp Require Import base list gmap strings sorting.
From S2P Require Import Prelude GoStrings VolumeId SbsTypes MetaTypes AllocationCommit.
Open Scope string_scope.
Open Scope Z_scope.

Module MetaPages.
Import Sbs Meta Allocation.

Inductive meta_error :=
| ErrNotFound
| ErrCASConflict
| InvalidPageGeometry (pageNo pageBytes chunkSizeBytes : Z)
| ZeroChunkExtent (pageNo logicalChunkStart : Z)
| ExtentOutOfBounds (pageNo start end_ : Z)
| PageGeometryMismatch (pageNo : Z)
| InvalidChunkRange (pageNo start end_ : Z)
| ChunkRangeOutOfBounds (pageNo start end_ : Z)
| NeedsAllocationPages
| IndexInvalid
| IndexConflict
| NewPrimaryNotFound (replicaID : string)
| PageError (e : alloc_error)
| InvalidSnapshotID
| InvalidCloneID
| InvalidVolumeID (volumeID : string)
| StateRequired
| SnapshotUnavailable (state : string)
| CloneTooSmall (sizeBytes sourceSizeBytes : Z)
| CloneUnavailable (state : string)
| DuplicateDeltaPage (pageNo : Z)
| CapturedGeometryMismatch (pageNo : Z)
| ProtectedDeletionRejected
| PlacementRefMissing (placementRef : string).

(** ** Volume identifiers in keys *)

Definition mustCanonicalVolumeID (volumeID : string) : string :=
  match VolumeId.Parse volumeID with
  | Ok parsed => VolumeId.Format parsed
  | _ => volumeID
  end.

(** ** Expanding and compressing *)

Definition bad_page_geometry (pageBytes chunkSizeBytes : Z) : bool :=
  (pageBytes =? 0) || (chunkSizeBytes =? 0) || negb (pageBytes mod chunkSizeBytes =? 0).

Fixpoint expand_page_extents (extents : list AllocationExtentRecord)
    (pageNo pageStartChunk pageEndChunk : Z) (acc : page_mappings) : result meta_error page_mappings :=
  match extents with
  | [] => Ok acc
  | extent :: extents =>
      let start := aeLogicalChunkStart extent in
      let end_ := add64 start (aeChunkCount extent) in
      if aeChunkCount extent =? 0 then Err (ZeroChunkExtent pageNo start) else
      if (start <? pageStartChunk) || (pageEndChunk <? end_)
      then Err (ExtentOutOfBounds pageNo start end_) else
      acc ← map_err PageError
              (expand_extent (Z.to_nat (end_ - start)) start extent pageStartChunk acc);
      expand_page_extents extents pageNo pageStartChunk pageEndChunk acc
  end.

Definition expandAllocationChunkMappingsWithHeaders (page : AllocationPageRecord)
  : result meta_error page_mappings :=
  if bad_page_geometry (apPageBytes page) (apChunkSizeBytes page)
  then Err (InvalidPageGeometry (apPageNo page) (apPageBytes page) (apChunkSizeBytes page)) else
  let chunksPerPage := apPageBytes page / apChunkSizeBytes page in
  let pageStartChunk := mul64 (apPageNo page) chunksPerPage in
  expand_page_extents (apExtents page) (apPageNo page) pageStartChunk
    (add64 pageStartChunk chunksPerPage)
    (replicate (Z.to_nat chunksPerPage) 0, replicate (Z.to_nat chunksPerPage) None).

#[export] Instance PayloadEncryptionHeader_eq_dec : EqDecision PayloadEncryptionHeader.
Proof. solve_decision. Defined.

Definition allocationChunkEncryptionHeaderAt (headers : list (option PayloadEncryptionHeader))
    (index : Z) : option PayloadEncryptionHeader :=
  if (index <? 0) || (zlen headers <=? index) then None
  else default None (headers !! Z.to_nat index).

Definition sameAllocationChunkEncryptionHeader (a b : option PayloadEncryptionHeader) : bool :=
  bool_decide (a = b).

(** The chunks at the head of [ids] that continue the run of [physicalStart]
    under [header]: [off] is the distance from its first chunk, [j] the index
    into [headers]. *)
Fixpoint same_run (ids : list Z) (headers : list (option PayloadEncryptionHeader)) (j : Z)
    (header : option PayloadEncryptionHeader) (physicalStart off : Z) : nat :=
  match ids with
  | id :: ids =>
      if (id =? add64 physicalStart off)
         && sameAllocationChunkEncryptionHeader header (allocationChunkEncryptionHeaderAt headers j)
      then S (same_run ids headers (j + 1) header physicalStart (off + 1)) else O
  | [] => O
  end.

Fixpoint compress_page (fuel : nat) (pageStartChunk i : Z) (ids : list Z)
    (headers : list (option PayloadEncryptionHeader)) : list AllocationExtentRecord :=
  match fuel, ids with
  | S fuel, physicalStart :: rest =>
      let logicalStart := add64 pageStartChunk i in
      if physicalStart =? 0 then
        let k := zero_run rest in
        zero_AllocationExtentRecord <| aeLogicalChunkStart := logicalStart |>
          <| aeChunkCount := wrap32 (1 + Z.of_nat k) |> <| aeKind := AllocationKindZero |>
        :: compress_page fuel pageStartChunk (i + 1 + Z.of_nat k) (drop k rest) headers
      else
        let header := allocationChunkEncryptionHeaderAt headers i in
        let k := same_run rest headers (i + 1) header physicalStart 1 in
        zero_AllocationExtentRecord <| aeLogicalChunkStart := logicalStart |>
          <| aeChunkCount := wrap32 (1 + Z.of_nat k) |> <| aeKind := AllocationKindData |>
          <| aePhysicalChunkStart := physicalStart |> <| aeEncryption := header |>
        :: compress_page fuel pageStartChunk (i + 1 + Z.of_nat k) (drop k rest) headers
  | _, _ => []
  end.

Definition compressAllocationChunkMappingsWithHeaders (pageStartChunk : Z) (physicalChunkIDs : list Z)
    (encryptionHeaders : list (option PayloadEncryptionHeader)) : list AllocationExtentRecord :=
  compress_page (length physicalChunkIDs) pageStartChunk 0 physicalChunkIDs encryptionHeaders.

(** ** Pages that are not stored *)

(** Panics when the chunk size is zero. *)
Definition zeroAllocationPage (volumeID : string) (pageNo pageBytes chunkSizeBytes : Z)
  : result meta_error AllocationPageRecord :=
  if chunkSizeBytes =? 0 then Panic else
  let chunksPerPage := pageBytes / chunkSizeBytes in
  Ok (mkAllocationPageRecord (mustCanonicalVolumeID volumeID) pageNo pageBytes chunkSizeBytes 0
        [zero_AllocationExtentRecord <| aeLogicalChunkStart := mul64 pageNo chunksPerPage |>
           <| aeChunkCount := wrap32 chunksPerPage |> <| aeKind := AllocationKindZero |>]).

(** The loop of [synthesizeAllocationPageFromMappings] over one mapping. *)
Fixpoint fill_mapping (n : nat) (logicalChunk : Z) (mapping : ExtentMappingRecord)
    (extentStartChunk pageStartChunk : Z) (ids : list Z) : result meta_error (list Z) :=
  match n with
  | O => Ok ids
  | S n =>
      ids ← map_err PageError
              (set_at ids (sub64 logicalChunk pageStartChunk)
                 (if emChunkID mapping =? 0 then 0
                  else add64 (emChunkID mapping) (sub64 logicalChunk extentStartChunk)));
      fill_mapping n (add64 logicalChunk 1) mapping extentStartChunk pageStartChunk ids
  end.

Fixpoint fill_mappings (mappings : list ExtentMappingRecord) (chunkSize pageStartChunk pageEndChunk : Z)
    (ids : list Z) : result meta_error (list Z) :=
  match mappings with
  | [] => Ok ids
  | mapping :: mappings =>
      if emLengthBytes mapping =? 0
      then fill_mappings mappings chunkSize pageStartChunk pageEndChunk ids else
      let extentStartChunk := emLogicalOffset mapping / chunkSize in
      let extentEndChunk :=
        sub64 (add64 (add64 (emLogicalOffset mapping) (emLengthBytes mapping)) chunkSize) 1 / chunkSize in
      if (extentEndChunk <=? pageStartChunk) || (pageEndChunk <=? extentStartChunk)
      then fill_mappings mappings chunkSize pageStartChunk pageEndChunk ids else
      let overlapStart := Z.max extentStartChunk pageStartChunk in
      let overlapEnd := Z.min extentEndChunk pageEndChunk in
      ids ← fill_mapping (Z.to_nat (overlapEnd - overlapStart)) overlapStart mapping extentStartChunk
              pageStartChunk ids;
      fill_mappings mappings chunkSize pageStartChunk pageEndChunk ids
  end.

Definition synthesizeAllocationPageFromMappings (volumeID : string)
    (pageNo pageBytes chunkSizeBytes : Z) (mappings : list ExtentMappingRecord)
  : result meta_error AllocationPageRecord :=
  if chunkSizeBytes =? 0 then Panic else
  let chunksPerPage := pageBytes / chunkSizeBytes in
  let pageStartChunk := mul64 pageNo chunksPerPage in
  ids ← fill_mappings mappings chunkSizeBytes pageStartChunk (add64 pageStartChunk chunksPerPage)
          (replicate (Z.to_nat chunksPerPage) 0);
  Ok (mkAllocationPageRecord (mustCanonicalVolumeID volumeID) pageNo pageBytes chunkSizeBytes 0
        (compressAllocationChunkMappingsWithHeaders pageStartChunk ids [])).

(** ** The chunks a commit touches *)

Record allocationPageChunkRange := mkChunkRange { rgStart : Z; rgEnd : Z }.

Definition chunk_range_le (a b : allocationPageChunkRange) : Prop :=
  rgStart a < rgStart b \/ rgStart a = rgStart b /\ rgEnd a <= rgEnd b.

#[export] Instance chunk_range_le_dec : RelDecision chunk_range_le.
Proof. intros a b. unfold chunk_range_le. apply _. Defined.

(** The merging loop, with the last range of [out] split off. *)
Fixpoint normalize_loop (ranges : list allocationPageChunkRange) (cur : allocationPageChunkRange)
  : list allocationPageChunkRange :=
  match ranges with
  | [] => [cur]
  | rng :: ranges =>
      if rgEnd cur <? rgStart rng then cur :: normalize_loop ranges rng
      else normalize_loop ranges
             (if rgEnd cur <? rgEnd rng then mkChunkRange (rgStart cur) (rgEnd rng) else cur)
  end.

Definition normalizeAllocationPageChunkRanges (ranges : list allocationPageChunkRange)
  : list allocationPageChunkRange :=
  match merge_sort chunk_range_le ranges with
  | [] => []
  | r :: rest => normalize_loop rest r
  end.

Fixpoint affected_ranges (records : list AllocationPageChunkRangeRecord) (pageNo chunksPerPage : Z)
  : result meta_error (list allocationPageChunkRange) :=
  match records with
  | [] => Ok []
  | record :: records =>
      if negb (crPageNo record =? pageNo) then affected_ranges records pageNo chunksPerPage else
      if crEndChunk record <=? crStartChunk record
      then Err (InvalidChunkRange pageNo (crStartChunk record) (crEndChunk record)) else
      if chunksPerPage <? crEndChunk record
      then Err (ChunkRangeOutOfBounds pageNo (crStartChunk record) (crEndChunk record)) else
      rest ← affected_ranges records pageNo chunksPerPage;
      Ok (mkChunkRange (crStartChunk record) (crEndChunk record) :: rest)
  end.

(** [None] when no record is about the page. *)
Definition affectedAllocationPageChunkRanges (records : list AllocationPageChunkRangeRecord)
    (page : AllocationPageRecord) : result meta_error (option (list allocationPageChunkRange)) :=
  ranges ← affected_ranges records (apPageNo page) (apPageBytes page / apChunkSizeBytes page);
  Ok (if zlen ranges =? 0 then None else Some (normalizeAllocationPageChunkRanges ranges)).

Section Mapping.
Context (mapping : Z -> result meta_error ExtentMappingRecord).

(** The ranges of the extents a commit normalizes. *)
Fixpoint extent_ranges (extentIDs : list Z) (page : AllocationPageRecord)
  : result meta_error (list allocationPageChunkRange) :=
  match extentIDs with
  | [] => Ok []
  | extentID :: extentIDs =>
      m ← mapping extentID;
      let pageStart := mul64 (apPageNo page) (apPageBytes page) in
      let pageEnd := add64 pageStart (apPageBytes page) in
      let chunkSize := apChunkSizeBytes page in
      let extentStart := emLogicalOffset m in
      let extentEnd := add64 (emLogicalOffset m) (emLengthBytes m) in
      let overlapStart := Z.max extentStart pageStart in
      let overlapEnd := Z.min extentEnd pageEnd in
      rest ← extent_ranges extentIDs page;
      if (extentEnd <=? pageStart) || (pageEnd <=? extentStart) || (overlapEnd <=? overlapStart)
      then Ok rest else
      let start := sub64 overlapStart pageStart / chunkSize in
      let end_ := Z.min (sub64 (add64 (sub64 overlapEnd pageStart) chunkSize) 1 / chunkSize)
                        (apPageBytes page / chunkSize) in
      Ok (if start <? end_ then mkChunkRange start end_ :: rest else rest)
  end.

Definition touchedAllocationPageChunkRanges (req : ApplyCommittedWriteEffectsRequest)
    (page : AllocationPageRecord) : result meta_error (list allocationPageChunkRange) :=
  if bad_page_geometry (apPageBytes page) (apChunkSizeBytes page)
  then Err (InvalidPageGeometry (apPageNo page) (apPageBytes page) (apChunkSizeBytes page)) else
  found ← affectedAllocationPageChunkRanges (ceAffectedPageChunkRanges req) page;
  match found with
  | Some ranges => Ok ranges
  | None =>
      if zlen (ceNormalizeExtentMappings req) =? 0 then Ok [] else
      ranges ← extent_ranges (ceNormalizeExtentMappings req) page;
      Ok (normalizeAllocationPageChunkRanges ranges)
  end.

(** ** Merging a committed page *)

(** One chunk of [mergeCommittedAllocationPageUpdateIntoChunks]. *)
Definition merge_chunk (retired : gset Z) (incoming current : Z * option PayloadEncryptionHeader)
  : Z * option PayloadEncryptionHeader :=
  if negb (incoming.1 =? 0) then incoming else
  if current.1 =? 0 then (0, None) else
  if bool_decide (current.1 ∈ retired) then (0, None) else current.

Fixpoint merge_range (n : nat) (i : Z) (retired : gset Z) (incoming acc : page_mappings)
  : result meta_error page_mappings :=
  match n with
  | O => Ok acc
  | S n =>
      match incoming.1 !! Z.to_nat i, incoming.2 !! Z.to_nat i, acc.1 !! Z.to_nat i, acc.2 !! Z.to_nat i with
      | Some id, Some h, Some cid, Some ch =>
          let c := merge_chunk retired (id, h) (cid, ch) in
          merge_range n (i + 1) retired incoming
            (<[Z.to_nat i := c.1]> acc.1, <[Z.to_nat i := c.2]> acc.2)
      | _, _, _, _ => Panic
      end
  end.

Fixpoint merge_ranges (ranges : list allocationPageChunkRange) (retired : gset Z)
    (incoming acc : page_mappings) : result meta_error page_mappings :=
  match ranges with
  | [] => Ok acc
  | rng :: ranges =>
      let end_ := Z.min (rgEnd rng) (Z.min (zlen acc.1) (zlen incoming.1)) in
      acc ← merge_range (Z.to_nat (end_ - rgStart rng)) (rgStart rng) retired incoming acc;
      merge_ranges ranges retired incoming acc
  end.

(** The new chunk mappings; the caller stores them with the identity and the
    revision of the update. *)
Definition mergeCommittedAllocationPageUpdateIntoChunks (currentMappings : page_mappings)
    (current : AllocationPageRecord) (req : ApplyCommittedWriteEffectsRequest)
    (page : AllocationPageRecord) : result meta_error page_mappings :=
  if negb (apPageBytes current =? apPageBytes page)
     || negb (apChunkSizeBytes current =? apChunkSizeBytes page)
  then Err (PageGeometryMismatch (apPageNo page)) else
  incoming ← expandAllocationChunkMappingsWithHeaders page;
  ranges ← touchedAllocationPageChunkRanges req page;
  let ranges := if zlen ranges =? 0 then [mkChunkRange 0 (zlen incoming.1)] else ranges in
  merge_ranges ranges (list_to_set (List.filter (fun id => negb (id =? 0)) (ceRetiredPhysicalChunkIDs req)))
    incoming currentMappings.

(** [mergeCommittedAllocationPage]: [stored] is the stored page, if any. *)
Definition mergeCommittedAllocationPage (stored : option AllocationPageRecord)
    (req : ApplyCommittedWriteEffectsRequest) (page : AllocationPageRecord)
  : result meta_error AllocationPageRecord :=
  current ← match stored with
            | Some current => Ok current
            | None => zeroAllocationPage (apVolumeID page) (apPageNo page) (apPageBytes page)
                        (apChunkSizeBytes page)
            end;
  currentMappings ← expandAllocationChunkMappingsWithHeaders current;
  merged ← mergeCommittedAllocationPageUpdateIntoChunks currentMappings current req page;
  let pageStartChunk := mul64 (apPageNo page) (apPageBytes page / apChunkSizeBytes page) in
  Ok (mkAllocationPageRecord (apVolumeID page) (apPageNo page) (apPageBytes page)
        (apChunkSizeBytes page) (ceCommittedRevision req)
        (compressAllocationChunkMappingsWithHeaders pageStartChunk merged.1 merged.2)).

End Mapping.

(** ** The pages and extents of a commit *)

Definition mergeAllocationPagesByPageNo (base overlay : list AllocationPageRecord)
  : list AllocationPageRecord :=
  let byPageNo := fold_left (fun m page => <[apPageNo page := page]> m) (base ++ overlay)%list
                    (∅ : gmap Z AllocationPageRecord) in
  omap (fun no => byPageNo !! no) (merge_sort Z.le (map_to_list byPageNo).*1).

Definition mergeExtentIDs (base overlay : list Z) : list Z :=
  merge_sort Z.le (remove_dups (base ++ overlay)%list).

(** The page numbers of [ListCompatibleAllocationPages]. *)
Definition mapping_page_nos (mappings : list ExtentMappingRecord) (chunkSize chunksPerPage : Z) : list Z :=
  merge_sort Z.le (remove_dups (concat (map (fun m =>
    if emLengthBytes m =? 0 then [] else
    let startChunk := emLogicalOffset m / chunkSize in
    let endChunk := sub64 (add64 (emLogicalOffset m) (emLengthBytes m)) 1 / chunkSize in
    seqZ (startChunk / chunksPerPage) (endChunk / chunksPerPage - startChunk / chunksPerPage + 1))
    mappings))).

Fixpoint synthesize_pages (volumeID : string) (pageNos : list Z) (pageBytes chunkSizeBytes : Z)
    (mappings : list ExtentMappingRecord) : result meta_error (list AllocationPageRecord) :=
  match pageNos with
  | [] => Ok []
  | pageNo :: pageNos =>
      page ← synthesizeAllocationPageFromMappings volumeID pageNo pageBytes chunkSizeBytes mappings;
      rest ← synthesize_pages volumeID pageNos pageBytes chunkSizeBytes mappings;
      Ok (page :: rest)
  end.

End MetaPages.
