(* ===== verification/MetaPagesFacts.v ===== *)
(** * Stored allocation pages: what a commit does to them

    A page stored by the repository expands to the mappings it was compressed
    from, normalizing chunk ranges keeps their chunks, and merging a committed
    page changes exactly the chunks the commit touched, a chunk at a time. *)

From Stdlib Require Import ZArith Lia Ascii String.
From stdpp Require Import base list gmap strings sorting.
From S2P Require Import Prelude GoStrings VolumeId SbsTypes MetaTypes AllocationCommit AllocationCommitFacts MetaPages.
Open Scope string_scope.
Open Scope Z_scope.

Module MetaPagesFacts.
Import Sbs Meta Allocation AllocationFacts MetaPages.

(** ** Compressed pages *)

Lemma same_run_spec hs h p l : forall k off, (same_run l hs k h p off <= length l)%nat /\
  forall j, (j < same_run l hs k h p off)%nat -> l !! j = Some (add64 p (off + Z.of_nat j)) /\
    commitPayloadEncryptionHeaderAt hs (k + Z.of_nat j) = h.
Proof.
  induction l as [|x l IH]; intros k off; [split; [done|cbn; lia]|]. cbn [same_run length].
  destruct (IH (k + 1) (off + 1)) as [IH1 IH2].
  destruct (Z.eqb_spec x (add64 p off)) as [->|]; cbn [andb]; [|split; [lia|lia]].
  unfold sameAllocationChunkEncryptionHeader. case_bool_decide as Hh; [|split; [lia|lia]].
  split; [lia|]. intros [|j] Hj.
  - rewrite !Z.add_0_r. by split.
  - destruct (IH2 j ltac:(lia)) as [E1 E2]. replace (off + Z.of_nat (S j)) with (off + 1 + Z.of_nat j) by lia.
    replace (k + Z.of_nat (S j)) with (k + 1 + Z.of_nat j) by lia. by split.
Qed.

(** A data record of a run stands for its chunks. *)
Lemma data_record hs ps i p rest :
  let h := commitPayloadEncryptionHeaderAt hs i in
  let k := same_run rest hs (i + 1) h p 1 in
  0 <= ps -> 0 <= i -> ps + i + 1 + Z.of_nat k < 2 ^ 64 -> u64 p -> p <> 0 -> h = None \/ p + Z.of_nat k < 2 ^ 64 ->
  forall j, i <= j < i + 1 + Z.of_nat k ->
    let e := zero_AllocationExtentRecord <| aeLogicalChunkStart := ps + i |>
               <| aeChunkCount := 1 + Z.of_nat k |> <| aeKind := AllocationKindData |>
               <| aePhysicalChunkStart := p |> <| aeEncryption := h |> in
    (p :: rest) !! Z.to_nat (j - i) = Some (extent_id e (ps + j)) /\
    extent_header e = kept_header (extent_id e (ps + j)) (commitPayloadEncryptionHeaderAt hs j).
Proof.
  intros h k Hps Hi Hb Hp Hp0 Hh j Hj e. destruct (same_run_spec hs h p rest (i + 1) 1) as [_ H2]. fold k in H2.
  assert (extent_id e (ps + j) = add64 p (j - i)) as ->.
  { unfold extent_id, e. cbn -[add64]. rewrite sub64_small by (unfold in_u in *; lia). f_equal. lia. }
  assert (commitPayloadEncryptionHeaderAt hs j = h /\ (p :: rest) !! Z.to_nat (j - i) = Some (add64 p (j - i)))
    as [-> ->].
  { destruct (Z.to_nat (j - i)) as [|m] eqn:Em.
    - replace j with i by lia. rewrite Z.sub_diag, add64_small, Z.add_0_r by (unfold in_u in *; lia). done.
    - destruct (H2 m ltac:(lia)) as [E1 E2]. split.
      + rewrite <-E2. f_equal. lia.
      + etrans; [exact E1|]. do 2 f_equal. lia. }
  split; [done|]. unfold kept_header, extent_header, e. cbn -[add64].
  destruct Hh as [->|Hh]; [by destruct (_ =? 0)|].
  unfold in_u in Hp. rewrite add64_small by (unfold in_u; lia). by rewrite (proj2 (Z.eqb_neq _ 0)) by lia.
Qed.

(** Ids far from the end of the 64-bit numbers, so that a run never wraps. *)
Definition plain_ids (ids : list Z) : Prop := Forall (fun id => 0 <= id < 2 ^ 63) ids.

Lemma compress_page_records hs ps N fuel : 0 <= ps -> ps + N < 2 ^ 64 -> N < 2 ^ 32 ->
  forall i rest, 0 <= i -> i + zlen rest = N -> (length rest <= fuel)%nat -> plain_ids rest ->
  records hs ps i rest (compress_page fuel ps i rest hs).
Proof.
  intros Hps HN HN32. induction fuel as [|fuel IH]; intros i rest Hi Hlen Hf Hu.
  all: destruct rest as [|p rest]; cbn [compress_page]; [constructor|].
  { cbn in Hf. lia. }
  apply Forall_cons in Hu as [Hp Hu]. unfold zlen in Hlen. cbn in Hlen, Hf.
  rewrite (add64_small ps i) by (unfold in_u; lia).
  assert (forall k, (k <= length rest)%nat ->
    records hs ps (i + 1 + Z.of_nat k) (drop k rest)
      (compress_page fuel ps (i + 1 + Z.of_nat k) (drop k rest) hs)) as Htail.
  { intros k Hk. apply IH; [lia| | |by apply Forall_drop]; [unfold zlen|]; rewrite length_drop; lia. }
  assert (forall k, (k <= length rest)%nat -> wrap32 (1 + Z.of_nat k) = 1 + Z.of_nat k) as Hw.
  { intros k Hk. apply wrap32_small. unfold in_u. lia. }
  destruct (Z.eqb_spec p 0) as [Hp0|Hp0].
  - destruct (zero_run_spec rest) as [Hk _]. rewrite Hw by done.
    apply (records_run _ _ _ _ _ (zero_run rest)); [done..| |by left|by apply Htail].
    eapply run_record; [lia|lia|lia|unfold in_u; lia|left; done].
  - change (allocationChunkEncryptionHeaderAt hs i) with (commitPayloadEncryptionHeaderAt hs i).
    set (k := same_run rest hs (i + 1) (commitPayloadEncryptionHeaderAt hs i) p 1).
    assert (k <= length rest)%nat as Hk by apply same_run_spec.
    rewrite (Hw k Hk). apply (records_run _ _ _ _ _ k); [done..| |by right|by apply Htail].
    apply data_record; [lia|lia|fold k; lia|unfold in_u; lia|done|right; fold k; lia].
Qed.

(** The repository expands records like the write path does. *)
Lemma expand_page_extents_records hs ps pageNo pe i rest es : records hs ps i rest es ->
  forall acc acc', expand_extents es pageNo ps pe acc = Ok acc' ->
  expand_page_extents es pageNo ps pe acc = Ok acc'.
Proof.
  intros Hr. induction Hr as [i|i p rest k e es Hk Hst Hct Hrun Hkind Hr IH]; intros acc acc' Heq.
  { by injection Heq as ->. }
  cbn [expand_extents expand_page_extents] in *. rewrite Hct in *.
  destruct (Z.eqb_spec (1 + Z.of_nat k) 0); [lia|].
  destruct (_ || _); [done|]. apply bind_Ok in Heq as (acc1 & E1 & E2).
  rewrite E1. cbn. by apply IH.
Qed.

(** ** Pages of a given geometry *)

Definition chunks_per_page (page : AllocationPageRecord) : Z := apPageBytes page / apChunkSizeBytes page.

Record geometry_ok (page : AllocationPageRecord) : Prop := {
  go_page : 0 < apPageBytes page < 2 ^ 32;
  go_chunk : 0 < apChunkSizeBytes page < 2 ^ 32;
  go_mod : apPageBytes page mod apChunkSizeBytes page = 0;
  go_no : 0 <= apPageNo page /\ apPageNo page * chunks_per_page page + chunks_per_page page < 2 ^ 64 }.

Lemma chunks_per_page_bounds page : geometry_ok page -> 0 < chunks_per_page page < 2 ^ 32.
Proof.
  intros [Hp Hc Hg _]. unfold chunks_per_page. pose proof (Z.div_mod (apPageBytes page) (apChunkSizeBytes page)
    ltac:(lia)) as Hdm. rewrite Hg in Hdm.
  assert (apPageBytes page / apChunkSizeBytes page <= apPageBytes page) by (apply Z.div_le_upper_bound; nia).
  split; [|lia]. destruct (Z.lt_ge_cases 0 (apPageBytes page / apChunkSizeBytes page)); [done|nia].
Qed.

Lemma good_geometry page : geometry_ok page ->
  bad_page_geometry (apPageBytes page) (apChunkSizeBytes page) = false.
Proof.
  intros [Hp Hc Hg _]. unfold bad_page_geometry. rewrite Hg, !(proj2 (Z.eqb_neq _ 0)) by lia. done.
Qed.

Definition page_first_chunk (page : AllocationPageRecord) : Z := apPageNo page * chunks_per_page page.

Lemma first_chunk_eq page : geometry_ok page ->
  mul64 (apPageNo page) (apPageBytes page / apChunkSizeBytes page) = page_first_chunk page.
Proof.
  intros Hg. pose proof (chunks_per_page_bounds page Hg). destruct (go_no page Hg).
  apply mul64_small; unfold in_u, chunks_per_page in *; nia.
Qed.

Definition kept_mappings (m : page_mappings) : page_mappings := (m.1, zip_with kept_header m.1 m.2).

(** A page stored from mappings expands to them, less the headers of unmapped chunks. *)
Lemma stored_page_expands page ids hs :
  geometry_ok page -> zlen ids = chunks_per_page page -> zlen hs = chunks_per_page page -> plain_ids ids ->
  apExtents page = compressAllocationChunkMappingsWithHeaders (page_first_chunk page) ids hs ->
  expandAllocationChunkMappingsWithHeaders page = Ok (kept_mappings (ids, hs)).
Proof.
  intros Hg Hids Hhs Hu He. pose proof (chunks_per_page_bounds page Hg) as Hcpp.
  destruct (go_no page Hg) as [Hn0 Hn1]. assert (0 <= page_first_chunk page) as Hps by (unfold page_first_chunk; nia).
  unfold expandAllocationChunkMappingsWithHeaders. rewrite (good_geometry page Hg), (first_chunk_eq page Hg), He.
  fold (chunks_per_page page). rewrite add64_small by (unfold in_u, page_first_chunk; lia).
  pose proof (compress_page_records hs (page_first_chunk page) (chunks_per_page page) (length ids)
    Hps ltac:(unfold page_first_chunk in *; lia) ltac:(lia) 0 ids ltac:(lia) ltac:(lia) (le_n _) Hu) as Hrec.
  unfold compressAllocationChunkMappingsWithHeaders.
  destruct (expand_records hs (page_first_chunk page) (apPageNo page) (chunks_per_page page) 0 ids _ Hrec Hps
    ltac:(unfold page_first_chunk in *; lia) ltac:(lia) ltac:(lia)
    (replicate (Z.to_nat (chunks_per_page page)) 0,
     replicate (Z.to_nat (chunks_per_page page)) (@None PayloadEncryptionHeader)))
    as ([ids' hs'] & Heq & L1 & L2 & Hacc); [unfold zlen; cbn; rewrite length_replicate; lia..|].
  rewrite (expand_page_extents_records _ _ _ _ _ _ _ Hrec _ _ Heq). cbn [fst snd] in *. f_equal. unfold kept_mappings.
  cbn [fst snd]. f_equal; apply list_eq; intros j; destruct (Hacc (Z.of_nat j) ltac:(lia)) as [H1 H2];
    rewrite Z.sub_0_r, Nat2Z.id in *; destruct (decide (0 <= Z.of_nat j)); [done|lia| |lia].
  rewrite H2, lookup_zip_with. destruct (ids !! j) as [id|] eqn:Hid; [|done].
  apply lookup_lt_Some in Hid. unfold zlen in *.
  destruct (lookup_lt_is_Some_2 hs j ltac:(lia)) as [h Hh]. cbn. rewrite Hh. cbn.
  by rewrite (header_at _ (Z.of_nat j) h) by (by rewrite ?Nat2Z.id || lia).
Qed.

Lemma expand_extent_length n e ps : forall lc acc acc', expand_extent n lc e ps acc = Ok acc' ->
  zlen acc'.1 = zlen acc.1 /\ zlen acc'.2 = zlen acc.2.
Proof.
  induction n as [|n IH]; intros lc acc acc' Heq; cbn [expand_extent] in Heq; [by injection Heq as ->|].
  apply bind_Ok in Heq as (ids & E1 & Heq). apply bind_Ok in Heq as (hs & E2 & Heq).
  apply IH in Heq as [-> ->]. cbn. unfold set_at in *.
  destruct (_ && _) in E1; [|done]. destruct (_ && _) in E2; [|done].
  injection E1 as <-. injection E2 as <-. by rewrite !zlen_insert.
Qed.

Lemma expand_page_length es pageNo ps pe : forall acc acc', expand_page_extents es pageNo ps pe acc = Ok acc' ->
  zlen acc'.1 = zlen acc.1 /\ zlen acc'.2 = zlen acc.2.
Proof.
  induction es as [|e es IH]; intros acc acc' Heq; cbn [expand_page_extents] in Heq; [by injection Heq as ->|].
  destruct (_ =? 0); [done|]. destruct (_ || _); [done|]. apply bind_Ok in Heq as (acc1 & E1 & Heq).
  apply IH in Heq as [-> ->]. destruct (expand_extent _ _ _ _ acc) as [acc2|?|] eqn:Hx; [|done|done].
  injection E1 as <-. by apply expand_extent_length in Hx.
Qed.

Lemma expand_length page m : expandAllocationChunkMappingsWithHeaders page = Ok m -> geometry_ok page ->
  zlen m.1 = chunks_per_page page /\ zlen m.2 = chunks_per_page page.
Proof.
  intros Heq Hg. pose proof (chunks_per_page_bounds page Hg).
  unfold expandAllocationChunkMappingsWithHeaders in Heq. rewrite (good_geometry page Hg) in Heq.
  apply expand_page_length in Heq as [-> ->]. unfold zlen. cbn. rewrite !length_replicate.
  unfold chunks_per_page in *. lia.
Qed.

(** ** Chunk ranges *)

Definition in_range (c : Z) (r : allocationPageChunkRange) : Prop := rgStart r <= c < rgEnd r.

Lemma normalize_loop_chunks c ranges : forall cur,
  StronglySorted chunk_range_le (cur :: ranges) -> rgStart cur <= rgEnd cur ->
  Forall (fun r => rgStart r <= rgEnd r) ranges ->
  Exists (in_range c) (normalize_loop ranges cur) <-> in_range c cur \/ Exists (in_range c) ranges.
Proof.
  induction ranges as [|r ranges IH]; intros cur Hs Hcur Hall; cbn [normalize_loop].
  { rewrite Exists_cons, !Exists_nil. done. }
  apply Forall_cons in Hall as [Hr Hall].
  apply StronglySorted_inv in Hs as [Hs Hle]. apply StronglySorted_inv in Hs as [Hs' Hle'].
  apply Forall_cons in Hle as [Hcr Hle]. unfold in_range in *.
  destruct (Z.ltb_spec (rgEnd cur) (rgStart r)) as [Hlt|Hge].
  - rewrite Exists_cons, (Exists_cons _ r), IH; [tauto|by constructor|done|done].
  - rewrite IH; [| |by destruct (Z.ltb_spec (rgEnd cur) (rgEnd r)); cbn; lia|done].
    + rewrite Exists_cons. unfold chunk_range_le in Hcr.
      assert (rgStart cur <= c < rgEnd (if rgEnd cur <? rgEnd r then mkChunkRange (rgStart cur) (rgEnd r) else cur) <->
        rgStart cur <= c < rgEnd cur \/ rgStart r <= c < rgEnd r) as Hm
        by (destruct (Z.ltb_spec (rgEnd cur) (rgEnd r)); cbn; lia).
      destruct (rgEnd cur <? rgEnd r); cbn in *; tauto.
    + constructor; [done|]. rewrite Forall_forall in *. intros x Hx. specialize (Hle x Hx). specialize (Hle' x Hx).
      unfold chunk_range_le in *. destruct (Z.ltb_spec (rgEnd cur) (rgEnd r)); cbn; [|done]. lia.
Qed.

#[export] Instance chunk_range_le_total : Total chunk_range_le.
Proof. intros a b. unfold chunk_range_le. lia. Qed.
#[export] Instance chunk_range_le_trans : Transitive chunk_range_le.
Proof. intros a b c. unfold chunk_range_le. lia. Qed.

Lemma normalized_chunks c ranges : Forall (fun r => rgStart r <= rgEnd r) ranges ->
  Exists (in_range c) (normalizeAllocationPageChunkRanges ranges) <-> Exists (in_range c) ranges.
Proof.
  intros Hall. unfold normalizeAllocationPageChunkRanges.
  pose proof (merge_sort_Permutation chunk_range_le ranges) as Hp.
  pose proof (StronglySorted_merge_sort chunk_range_le ranges) as Hs.
  assert (Exists (in_range c) (merge_sort chunk_range_le ranges) <-> Exists (in_range c) ranges) as <-.
  { rewrite !Exists_exists. split; intros (x & Hx & Hc); exists x; (split; [|done]); by rewrite Hp in *. }
  rewrite <-Hp in Hall. destruct (merge_sort chunk_range_le ranges) as [|r rest]; [done|].
  apply Forall_cons in Hall as [Hr Hall]. by rewrite normalize_loop_chunks, Exists_cons.
Qed.

(** ** Merging *)

(** The mapping at index [j]. *)
Definition mapping_at (m : page_mappings) (j : Z) : option (Z * option PayloadEncryptionHeader) :=
  match m.1 !! Z.to_nat j, m.2 !! Z.to_nat j with Some id, Some h => Some (id, h) | _, _ => None end.

Lemma mapping_at_lt m j N : zlen m.1 = N -> zlen m.2 = N -> 0 <= j < N -> exists c, mapping_at m j = Some c.
Proof.
  unfold zlen, mapping_at. intros H1 H2 Hj.
  destruct (lookup_lt_is_Some_2 m.1 (Z.to_nat j)) as [id ->]; [lia|].
  destruct (lookup_lt_is_Some_2 m.2 (Z.to_nat j)) as [h ->]; [lia|]. eauto.
Qed.

(** The merge of index [j], when the commit touches it. *)
Definition merged_at (retired : gset Z) (inc acc : page_mappings) (j : Z)
  : option (Z * option PayloadEncryptionHeader) :=
  match mapping_at inc j, mapping_at acc j with
  | Some i, Some c => Some (merge_chunk retired i c)
  | _, _ => None
  end.

Lemma merge_chunk_idem retired i c : merge_chunk retired i (merge_chunk retired i c) = merge_chunk retired i c.
Proof.
  unfold merge_chunk. destruct (Z.eqb_spec i.1 0) as [Hi|Hi]; cbn [negb]; [|done].
  destruct (Z.eqb_spec c.1 0) as [Hc|Hc]; [done|]. case_bool_decide; [done|].
  rewrite (proj2 (Z.eqb_neq _ _) Hc). by case_bool_decide.
Qed.

Lemma merge_range_spec retired inc N n : forall i acc,
  zlen inc.1 = N -> zlen inc.2 = N -> zlen acc.1 = N -> zlen acc.2 = N -> 0 <= i -> i + Z.of_nat n <= N ->
  exists acc', merge_range n i retired inc acc = Ok acc' /\ zlen acc'.1 = N /\ zlen acc'.2 = N /\
    forall j, 0 <= j < N -> mapping_at acc' j =
      if decide (i <= j < i + Z.of_nat n) then merged_at retired inc acc j else mapping_at acc j.
Proof.
  induction n as [|n IH]; intros i acc Hi1 Hi2 Ha1 Ha2 Hi Hn; cbn [merge_range].
  { exists acc. do 3 (split; [done|]). intros j Hj. destruct (decide _); [lia|done]. }
  destruct (mapping_at_lt inc i N Hi1 Hi2 ltac:(lia)) as [ci Hci].
  destruct (mapping_at_lt acc i N Ha1 Ha2 ltac:(lia)) as [ca Hca].
  unfold mapping_at in Hci, Hca. destruct (inc.1 !! _) as [id|] eqn:E1; [|done].
  destruct (inc.2 !! _) as [h|] eqn:E2; [|done]. destruct (acc.1 !! _) as [cid|] eqn:E3; [|done].
  destruct (acc.2 !! _) as [ch|] eqn:E4; [|done]. set (c := merge_chunk retired (id, h) (cid, ch)).
  destruct (IH (i + 1) (<[Z.to_nat i := c.1]> acc.1, <[Z.to_nat i := c.2]> acc.2))
    as (acc' & -> & L1 & L2 & Hacc); [done|done|by cbn; rewrite zlen_insert|by cbn; rewrite zlen_insert|lia|lia|].
  exists acc'. do 3 (split; [done|]). intros j Hj. rewrite (Hacc j Hj).
  assert (mapping_at (<[Z.to_nat i := c.1]> acc.1, <[Z.to_nat i := c.2]> acc.2) j
    = if decide (j = i) then Some c else mapping_at acc j) as Hat.
  { unfold mapping_at. cbn [fst snd]. rewrite !lookup_set by lia. destruct (decide (j = i)); [|done]. by destruct c. }
  unfold merged_at. rewrite Hat.
  destruct (decide (j = i)) as [->|Hne].
  - destruct (decide (i + 1 <= i < _)); [lia|]. destruct (decide (i <= i < _)); [|lia].
    unfold mapping_at. by rewrite E1, E2, E3, E4.
  - destruct (decide (i + 1 <= j < _)), (decide (i <= j < _)); try lia; done.
Qed.

#[export] Instance in_range_dec c r : Decision (in_range c r).
Proof. unfold in_range. apply _. Defined.

Lemma merge_ranges_spec retired inc N ranges : forall acc,
  zlen inc.1 = N -> zlen inc.2 = N -> zlen acc.1 = N -> zlen acc.2 = N ->
  Forall (fun r => 0 <= rgStart r) ranges ->
  exists acc', merge_ranges ranges retired inc acc = Ok acc' /\ zlen acc'.1 = N /\ zlen acc'.2 = N /\
    forall j, 0 <= j < N -> mapping_at acc' j =
      if decide (Exists (in_range j) ranges) then merged_at retired inc acc j else mapping_at acc j.
Proof.
  induction ranges as [|r ranges IH]; intros acc Hi1 Hi2 Ha1 Ha2 Hall; cbn [merge_ranges].
  { exists acc. do 3 (split; [done|]). intros j Hj. destruct (decide _) as [He|]; [by apply Exists_nil in He|done]. }
  apply Forall_cons in Hall as [Hr Hall]. rewrite Hi1, Ha1, Z.min_id.
  set (n := Z.to_nat (Z.min (rgEnd r) N - rgStart r)).
  destruct (decide (rgStart r + Z.of_nat n <= N)) as [Hn|Hn].
  2: { assert (n = O) as -> by lia. cbn [merge_range mbind result_bind].
       destruct (IH acc Hi1 Hi2 Ha1 Ha2 Hall) as (acc' & -> & L1 & L2 & Hacc).
       exists acc'. do 3 (split; [done|]). intros j Hj. rewrite (Hacc j Hj).
       destruct (decide (Exists _ ranges)) as [He|He], (decide (Exists _ (r :: ranges))) as [He'|He']; try done.
       - exfalso. apply He'. by right.
       - exfalso. apply Exists_cons in He' as [Hin|?]; [|done]. unfold in_range in Hin. lia. }
  destruct (merge_range_spec retired inc N n (rgStart r) acc) as (acc1 & -> & L1 & L2 & Hacc1); [done..|].
  cbn [mbind result_bind]. destruct (IH acc1 Hi1 Hi2 L1 L2 Hall) as (acc' & -> & L1' & L2' & Hacc).
  exists acc'. do 3 (split; [done|]). intros j Hj. rewrite (Hacc j Hj).
  unfold merged_at. rewrite (Hacc1 j Hj). unfold merged_at.
  assert (rgStart r <= j < rgStart r + Z.of_nat n <-> in_range j r) as Hiff by (unfold in_range; lia).
  destruct (mapping_at_lt inc j N Hi1 Hi2 Hj) as [ci ->]. destruct (mapping_at_lt acc j N Ha1 Ha2 Hj) as [ca ->].
  destruct (decide (rgStart r <= j < rgStart r + Z.of_nat n)) as [H1|H1].
  - destruct (decide (Exists _ (r :: ranges))) as [He'|He']; [|exfalso; apply He'; left; tauto].
    destruct (decide (Exists _ ranges)); by rewrite ?merge_chunk_idem.
  - destruct (decide (Exists _ ranges)) as [He|He], (decide (Exists _ (r :: ranges))) as [He'|He']; try done.
    + exfalso. apply He'. by right.
    + exfalso. apply Exists_cons in He' as [?|?]; tauto.
Qed.

(** ** The chunks a commit names *)

(** A commit touches chunk [j] of a page. *)
Definition touches (req : ApplyCommittedWriteEffectsRequest) (pageNo j : Z) : Prop :=
  Exists (fun r => crPageNo r = pageNo /\ crStartChunk r <= j < crEndChunk r) (ceAffectedPageChunkRanges req).

#[export] Instance touches_dec req pageNo j : Decision (touches req pageNo j).
Proof. unfold touches. apply _. Defined.

(** The ranges named for the page are proper and inside it. *)
Definition proper_ranges (records : list AllocationPageChunkRangeRecord) (pageNo n : Z) : Prop :=
  Forall (fun r => crPageNo r = pageNo -> 0 <= crStartChunk r < crEndChunk r /\ crEndChunk r <= n) records.

Lemma affected_ranges_spec records pageNo n : proper_ranges records pageNo n ->
  exists ranges, affected_ranges records pageNo n = Ok ranges /\
    Forall (fun r => 0 <= rgStart r < rgEnd r) ranges /\
    (ranges = [] <-> Forall (fun r => crPageNo r <> pageNo) records) /\
    forall j, Exists (in_range j) ranges <->
      Exists (fun r => crPageNo r = pageNo /\ crStartChunk r <= j < crEndChunk r) records.
Proof.
  induction records as [|r records IH]; intros Hp; cbn [affected_ranges].
  { exists []. split; [done|]. split; [done|]. split; [done|]. intros j. by rewrite !Exists_nil. }
  apply Forall_cons in Hp as [Hr Hp]. destruct (IH Hp) as (ranges & Heq & Hall & Hnil & Hin).
  destruct (Z.eqb_spec (crPageNo r) pageNo) as [E|E]; cbn [negb].
  - destruct (Hr E) as [H1 H2]. destruct (Z.leb_spec (crEndChunk r) (crStartChunk r)); [lia|].
    destruct (Z.ltb_spec n (crEndChunk r)); [lia|]. rewrite Heq. cbn [mbind result_bind].
    eexists. split; [done|]. split; [by constructor|]. split.
    + split; [done|]. intros Hno. apply Forall_cons in Hno as [Hno _]. done.
    + intros j. rewrite !Exists_cons, Hin. unfold in_range. cbn. tauto.
  - exists ranges. split; [done|]. split; [done|]. split.
    + rewrite Forall_cons, Hnil. tauto.
    + intros j. rewrite Exists_cons, Hin. tauto.
Qed.

Lemma normalize_starts ranges : Forall (fun r => 0 <= rgStart r) ranges ->
  Forall (fun r => 0 <= rgStart r) (normalizeAllocationPageChunkRanges ranges).
Proof.
  intros Hall. unfold normalizeAllocationPageChunkRanges.
  rewrite <-(merge_sort_Permutation chunk_range_le ranges) in Hall.
  destruct (merge_sort chunk_range_le ranges) as [|r rest]; [done|].
  apply Forall_cons in Hall as [Hr Hall]. revert r Hr. induction Hall as [|x rest Hx Hall IH]; intros r Hr; cbn.
  - by constructor.
  - destruct (_ <? _); [constructor; [done|]; by apply IH|]. apply IH. by destruct (_ <? _).
Qed.

Lemma normalize_nonempty ranges : ranges <> [] -> normalizeAllocationPageChunkRanges ranges <> [].
Proof.
  intros Hne. unfold normalizeAllocationPageChunkRanges.
  pose proof (merge_sort_Permutation chunk_range_le ranges) as Hp.
  destruct (merge_sort chunk_range_le ranges) as [|r rest].
  { by apply Permutation_nil_l in Hp. }
  clear. revert r. induction rest as [|x rest IH]; intros r; cbn; [done|]. destruct (_ <? _); [done|apply IH].
Qed.

Lemma touched_ranges_spec mapping req page : geometry_ok page ->
  proper_ranges (ceAffectedPageChunkRanges req) (apPageNo page) (chunks_per_page page) ->
  Exists (fun r => crPageNo r = apPageNo page) (ceAffectedPageChunkRanges req) ->
  exists ranges, touchedAllocationPageChunkRanges mapping req page = Ok ranges /\ ranges <> [] /\
    Forall (fun r => 0 <= rgStart r) ranges /\
    forall j, Exists (in_range j) ranges <-> touches req (apPageNo page) j.
Proof.
  intros Hg Hp He. unfold touchedAllocationPageChunkRanges, affectedAllocationPageChunkRanges.
  rewrite (good_geometry page Hg). destruct (affected_ranges_spec _ _ _ Hp) as (ranges & Heq & Hall & Hnil & Hin).
  fold (chunks_per_page page). rewrite Heq. cbn [mbind result_bind].
  assert (ranges <> []) as Hne.
  { intros E. apply Hnil in E. apply Exists_exists in He as (r & Hr & Er). rewrite Forall_forall in E.
    by apply (E r Hr). }
  destruct (Z.eqb_spec (zlen ranges) 0) as [E0|_].
  { exfalso. apply Hne, zlen_nil_inv. lia. }
  cbn. exists (normalizeAllocationPageChunkRanges ranges). split; [done|].
  split; [by apply normalize_nonempty|]. split.
  - apply normalize_starts. eapply Forall_impl; [exact Hall|]. cbn. lia.
  - intros j. rewrite normalized_chunks, Hin; [done|]. eapply Forall_impl; [exact Hall|]. cbn. lia.
Qed.

(** ** The merge theorem *)

Definition retired_set (req : ApplyCommittedWriteEffectsRequest) : gset Z :=
  list_to_set (List.filter (fun id => negb (id =? 0)) (ceRetiredPhysicalChunkIDs req)).

(** What a chunk maps to after the commit [req] of a page with mappings [inc]
    over a page with mappings [cur]. *)
Definition committed_at (req : ApplyCommittedWriteEffectsRequest) (pageNo : Z) (inc cur : page_mappings) (j : Z)
  : option (Z * option PayloadEncryptionHeader) :=
  if decide (touches req pageNo j) then merged_at (retired_set req) inc cur j else mapping_at cur j.

(** A stored mapping, less the header of an unmapped chunk. *)
Definition kept (c : Z * option PayloadEncryptionHeader) : Z * option PayloadEncryptionHeader :=
  (c.1, kept_header c.1 c.2).

Lemma mapping_at_kept m j N : zlen m.1 = N -> zlen m.2 = N -> 0 <= j < N ->
  mapping_at (kept_mappings m) j = kept <$> mapping_at m j.
Proof.
  intros H1 H2 Hj. destruct (mapping_at_lt m j N H1 H2 Hj) as [c Hc].
  unfold mapping_at, kept_mappings in *. cbn [fst snd]. rewrite lookup_zip_with.
  destruct (m.1 !! _) as [id|]; [|done]. by destruct (m.2 !! _).
Qed.

Lemma merged_plain req pageNo inc cur m N :
  zlen inc.1 = N -> zlen inc.2 = N -> zlen cur.1 = N -> zlen cur.2 = N -> zlen m.1 = N -> zlen m.2 = N ->
  plain_ids inc.1 -> plain_ids cur.1 ->
  (forall j, 0 <= j < N -> mapping_at m j = committed_at req pageNo inc cur j) -> plain_ids m.1.
Proof.
  intros Hi1 Hi2 Hc1 Hc2 Hm1 Hm2 Hi Hc Hm. apply Forall_lookup. intros k id Hk.
  assert (0 <= Z.of_nat k < N) as Hj by (apply lookup_lt_Some in Hk; unfold zlen in Hm1; lia).
  specialize (Hm (Z.of_nat k) Hj). destruct (mapping_at_lt m _ N Hm1 Hm2 Hj) as [c Hc'].
  rewrite Hc' in Hm. unfold mapping_at in Hc'. rewrite Nat2Z.id, Hk in Hc'.
  destruct (m.2 !! k) as [h|]; [|done]. injection Hc' as <-. unfold committed_at, merged_at in Hm.
  destruct (mapping_at_lt inc _ N Hi1 Hi2 Hj) as [[i ih] Ei]. destruct (mapping_at_lt cur _ N Hc1 Hc2 Hj) as [[q qh] Eq].
  rewrite Ei, Eq in Hm. unfold mapping_at in Ei, Eq. rewrite Nat2Z.id in Ei, Eq.
  destruct (inc.1 !! k) as [i'|] eqn:E1; [|done]. destruct (inc.2 !! k); [|done]. injection Ei as -> ->.
  destruct (cur.1 !! k) as [q'|] eqn:E2; [|done]. destruct (cur.2 !! k); [|done]. injection Eq as -> ->.
  assert (0 <= i < 2 ^ 63) by exact (Forall_lookup_1 _ _ _ _ Hi E1).
  assert (0 <= q < 2 ^ 63) by exact (Forall_lookup_1 _ _ _ _ Hc E2).
  destruct (decide _); [|by injection Hm as -> ->].
  unfold merge_chunk in Hm. cbn in Hm. destruct (negb (i =? 0)); [by injection Hm as -> ->|].
  destruct (q =? 0); [injection Hm as -> _; lia|]. destruct (bool_decide _); [injection Hm as -> _; lia|].
  by injection Hm as -> ->.
Qed.

(** A mapping as it is stored: an unmapped chunk has no header. *)
Definition stored (c : Z * option PayloadEncryptionHeader) : Z * option PayloadEncryptionHeader :=
  if c.1 =? 0 then (0, None) else c.

(** What a chunk must map to after a commit, from the mapping [i] of the update and the current mapping [q]. *)
Definition must_map (retired : list Z) (touched : Prop) (i q c : Z * option PayloadEncryptionHeader) : Prop :=
  (touched -> i.1 <> 0 -> c = i) /\
  (touched -> i.1 = 0 -> q.1 ∈ retired -> c = (0, None)) /\
  (touched -> i.1 = 0 -> q.1 ∉ retired -> c = stored q) /\
  (~ touched -> c = stored q).

Lemma kept_stored c : kept c = stored c.
Proof. destruct c as [id h]. unfold kept, stored, kept_header. cbn. by destruct (Z.eqb_spec id 0) as [->|]. Qed.

Lemma committed_must_map req pageNo inc cur j i q c :
  mapping_at inc j = Some i -> mapping_at cur j = Some q -> kept <$> committed_at req pageNo inc cur j = Some c ->
  must_map (ceRetiredPhysicalChunkIDs req) (touches req pageNo j) i q c.
Proof.
  intros Hi Hq Hc. unfold committed_at, merged_at in Hc. rewrite Hi, Hq in Hc. unfold must_map.
  assert (forall x : Z, x <> 0 -> x ∈ retired_set req <-> x ∈ ceRetiredPhysicalChunkIDs req) as Hret.
  { intros x Hx. unfold retired_set. rewrite elem_of_list_to_set, !list_elem_of_In, filter_In, negb_true_iff, Z.eqb_neq. tauto. }
  destruct (decide (touches req pageNo j)) as [Ht|Ht]; cbn [fmap option_fmap option_map] in Hc; injection Hc as <-;
    rewrite kept_stored; [|by repeat split].
  unfold merge_chunk, stored. destruct i as [i ih], q as [q qh]. cbn [fst snd].
  destruct (Z.eqb_spec i 0) as [->|Hi0]; cbn [negb fst].
  - destruct (Z.eqb_spec q 0) as [->|Hq0]; cbn [fst]; [by repeat split|].
    specialize (Hret q Hq0). destruct (bool_decide_reflect (q ∈ retired_set req)) as [Hr|Hr]; cbn [fst].
    + repeat split; try done. intros _ _ Hn. by destruct Hn; apply Hret.
    + rewrite (proj2 (Z.eqb_neq q 0) Hq0). repeat split; try done. intros _ _ Hn. by destruct Hr; apply Hret.
  - rewrite (proj2 (Z.eqb_neq i 0) Hi0). repeat split; done.
Qed.

(** C7: merging a committed page.  When the commit names proper chunk ranges of the
    page, the page is stored under the identity of the update and the committed
    revision, and expands, chunk by chunk, to the committed mappings: a touched
    chunk that the update maps gets that mapping, a touched chunk that it does
    not map is unmapped if its current chunk id was retired and keeps it
    otherwise, and an untouched chunk keeps its mapping. *)
Theorem merged_page_exact (mapping : Z -> result meta_error ExtentMappingRecord)
    (req : ApplyCommittedWriteEffectsRequest) (current page : AllocationPageRecord) (cur inc : page_mappings) :
  geometry_ok page -> apPageBytes current = apPageBytes page ->
  apChunkSizeBytes current = apChunkSizeBytes page -> apPageNo current = apPageNo page ->
  expandAllocationChunkMappingsWithHeaders current = Ok cur ->
  expandAllocationChunkMappingsWithHeaders page = Ok inc -> plain_ids cur.1 -> plain_ids inc.1 ->
  proper_ranges (ceAffectedPageChunkRanges req) (apPageNo page) (chunks_per_page page) ->
  Exists (fun r => crPageNo r = apPageNo page) (ceAffectedPageChunkRanges req) ->
  exists merged m, mergeCommittedAllocationPage mapping (Some current) req page = Ok merged /\
    apVolumeID merged = apVolumeID page /\ apPageNo merged = apPageNo page /\
    apRevision merged = ceCommittedRevision req /\
    expandAllocationChunkMappingsWithHeaders merged = Ok m /\
    forall j, 0 <= j < chunks_per_page page -> exists i q c,
      mapping_at inc j = Some i /\ mapping_at cur j = Some q /\ mapping_at m j = Some c /\
      must_map (ceRetiredPhysicalChunkIDs req) (touches req (apPageNo page) j) i q c.
Proof.
  intros Hg E1 E2 E3 Hcur Hinc Pcur Pinc Hp He.
  assert (geometry_ok current /\ chunks_per_page current = chunks_per_page page) as [Hgc Ec].
  { unfold chunks_per_page. rewrite E1, E2. split; [|done]. destruct Hg as [H1 H2 H3 H4].
    split; unfold chunks_per_page in *; by rewrite ?E1, ?E2, ?E3. }
  destruct (expand_length _ _ Hcur Hgc) as [Lc1 Lc2]. rewrite Ec in Lc1, Lc2.
  destruct (expand_length _ _ Hinc Hg) as [Li1 Li2].
  destruct (touched_ranges_spec mapping req page Hg Hp He) as (ranges & Hr & Hne & Hst & Hin).
  unfold mergeCommittedAllocationPage. cbn [mbind result_bind]. rewrite Hcur. cbn [mbind result_bind].
  unfold mergeCommittedAllocationPageUpdateIntoChunks. rewrite E1, E2, !Z.eqb_refl. cbn [negb orb].
  rewrite Hinc. cbn [mbind result_bind]. rewrite Hr. cbn [mbind result_bind].
  destruct (Z.eqb_spec (zlen ranges) 0) as [E0|_]; [exfalso; apply Hne, zlen_nil_inv; lia|].
  destruct (merge_ranges_spec (retired_set req) inc (chunks_per_page page) ranges cur Li1 Li2 Lc1 Lc2 Hst)
    as (m & Hm & Lm1 & Lm2 & Hat).
  unfold retired_set in Hm. rewrite Hm. cbn [mbind result_bind]. rewrite (first_chunk_eq page Hg).
  assert (forall j, 0 <= j < chunks_per_page page -> mapping_at m j = committed_at req (apPageNo page) inc cur j) as Hall.
  { intros j Hj. rewrite (Hat j Hj). unfold committed_at.
    destruct (decide (Exists _ ranges)) as [He1|He1], (decide (touches _ _ _)) as [He2|He2]; try done; exfalso; by apply Hin in He1 || apply He1, Hin. }
  eexists _, (kept_mappings m). do 4 (split; [done|]). split.
  - destruct m as [ids hs]. apply stored_page_expands; [by destruct Hg; split|done|done| |done].
    by eapply (merged_plain req (apPageNo page) inc cur (ids, hs) (chunks_per_page page)).
  - intros j Hj. destruct (mapping_at_lt inc j _ Li1 Li2 Hj) as [i Hi]. destruct (mapping_at_lt cur j _ Lc1 Lc2 Hj) as [q Hq].
    destruct (mapping_at_lt m j _ Lm1 Lm2 Hj) as [c Hc]. exists i, q, (kept c).
    rewrite (mapping_at_kept m j (chunks_per_page page)) by done. rewrite Hc. split_and!; [done..|].
    apply (committed_must_map req (apPageNo page) inc cur j i q); [done..|]. rewrite <-Hall, Hc; done.
Qed.

(** Chunks 10, 11, 12 and an unmapped one; the update maps chunk 0 to 20 and
    retires 11. *)
Definition stored_page : AllocationPageRecord :=
  mkAllocationPageRecord "00000001" 0 16 4 1
    [zero_AllocationExtentRecord <| aeChunkCount := 3 |> <| aeKind := AllocationKindData |> <| aePhysicalChunkStart := 10 |>].
Definition update_page : AllocationPageRecord :=
  mkAllocationPageRecord "00000001" 0 16 4 1
    [zero_AllocationExtentRecord <| aeChunkCount := 1 |> <| aeKind := AllocationKindData |> <| aePhysicalChunkStart := 20 |>].
Definition update_request : ApplyCommittedWriteEffectsRequest :=
  zero_ApplyCommittedWriteEffectsRequest <| ceCommittedRevision := 2 |>
    <| ceAffectedPageChunkRanges := [mkAllocationPageChunkRangeRecord 0 0 3] |>
    <| ceRetiredPhysicalChunkIDs := [10; 11] |>.

Lemma merged_page_exact_witness : exists merged m,
  mergeCommittedAllocationPage (fun _ => Err ErrNotFound) (Some stored_page) update_request update_page = Ok merged /\
  expandAllocationChunkMappingsWithHeaders merged = Ok m /\
  mapping_at m 0 = Some (20, None) /\ mapping_at m 1 = Some (0, None) /\ mapping_at m 2 = Some (12, None).
Proof.
  destruct (merged_page_exact (fun _ => Err ErrNotFound) update_request stored_page update_page
    ([10; 11; 12; 0], [None; None; None; None]) ([20; 0; 0; 0], [None; None; None; None]))
    as (merged & m & H1 & _ & _ & _ & H2 & H3); try reflexivity.
  - split; vm_compute; repeat split; first [reflexivity | discriminate].
  - repeat constructor; lia.
  - repeat constructor; lia.
  - constructor; [intros _; vm_compute; repeat split; first [reflexivity | discriminate]|constructor].
  - repeat constructor.
  - exists merged, m. split; [exact H1|]. split; [exact H2|]. assert (chunks_per_page update_page = 4) as E by reflexivity. rewrite E in H3.
    destruct (H3 0 ltac:(lia)) as (i0 & q0 & c0 & I0 & Q0 & -> & M0). destruct (H3 1 ltac:(lia)) as (i1 & q1 & c1 & I1 & Q1 & -> & M1).
    destruct (H3 2 ltac:(lia)) as (i2 & q2 & c2 & I2 & Q2 & -> & M2).
    injection I0 as <-; injection I1 as <-; injection I2 as <-; injection Q0 as <-; injection Q1 as <-; injection Q2 as <-.
    assert (forall j, 0 <= j < 3 -> touches update_request (apPageNo update_page) j) as Ht.
    { intros j Hj. constructor. cbn. lia. }
    split; [|split]; f_equal.
    + apply M0; [apply Ht; lia|discriminate].
    + apply M1; [apply Ht; lia|reflexivity|]. cbn. set_solver.
    + refine (proj1 (proj2 (proj2 M2)) (Ht 2 ltac:(lia)) eq_refl _). cbn. rewrite !elem_of_cons, elem_of_nil. lia.
Defined.

End MetaPagesFacts.
