(* ===== verification/MetaRepo.v ===== *)
(** * The metadata repository of the storage cluster

    Models the write path of src/sbs/cluster/metadata/repository.go over a
    transactional key-value store (PebbleKV of pebble.go: transactions run one
    after the other and an error discards their writes).  A key family of the
    store is a map: the key functions put the canonical volume id and the rest
    of the key in separate path components, so a pair stands for a key, and a
    record for its JSON encoding.

    [rObserved] is the in-memory set [nativeAllocationVolumesObserved]: a failed
    transaction does not undo its changes.  The clock is the argument [nowUnix].
    Left out: index digests, the summary of child operations and the revision
    of the operation list (derived data no function here reads), placement
    indexes, log lines, timings and statistics. *)

From Stdlib Require Import ZArith Lia Ascii String.
From stdpp Require Import base list gmap strings sorting.
From S2P Require Import Prelude GoStrings VolumeId SbsTypes MetaTypes AllocationCommit MetaPages.
Open Scope string_scope.
Open Scope Z_scope.

Module MetaRepo.
Import Sbs Meta Allocation MetaPages.

(** ** The store *)

(** The key families of snapshots and clones. *)
Record captures := mkCaptures {
  cpSnapshots : gmap string SnapshotRecord;
  cpSnapshotIndex : gmap (string * string) snapshotSourceIndexRecord;
  cpSnapshotIdem : gmap (string * string) SnapshotIdempotencyRecord;
  cpSnapshotPages : gmap (string * Z) AllocationPageRecord;
  cpClones : gmap string CloneRecord;
  cpCloneBySnapshot : gmap (string * string) cloneSourceIndexRecord;
  cpCloneByVolume : gmap (string * string) cloneSourceIndexRecord;
  cpCloneIdem : gmap (string * string) CloneIdempotencyRecord;
  cpDeltaPages : gmap (string * Z) AllocationPageRecord }.

#[export] Instance captures_settable : Settable captures := fun x =>
  mkCaptures (cpSnapshots x) (cpSnapshotIndex x) (cpSnapshotIdem x) (cpSnapshotPages x) (cpClones x)
    (cpCloneBySnapshot x) (cpCloneByVolume x) (cpCloneIdem x) (cpDeltaPages x).

Definition no_captures : captures := mkCaptures ∅ ∅ ∅ ∅ ∅ ∅ ∅ ∅ ∅.

Record store := mkStore {
  stStates : gmap string VolumeState;
  stIdem : gmap (string * string) IdempotencyRecord;
  stOps : gmap (string * string) MutationOperationRecord;
  stOpIndex : gmap string (string * string);
  stPages : gmap (string * Z) AllocationPageRecord;
  stExtents : gmap (string * Z) ExtentMappingRecord;
  stReplicaSets : gmap (string * string) ReplicaSetState;
  stRangeLocal : gmap (string * Z) rangeLocalWriteStateRecord;
  stNextChunk : gmap string Z;
  stCaptures : captures }.

#[export] Instance store_settable : Settable store := fun x =>
  mkStore (stStates x) (stIdem x) (stOps x) (stOpIndex x) (stPages x) (stExtents x) (stReplicaSets x)
    (stRangeLocal x) (stNextChunk x) (stCaptures x).

Record Repository := mkRepository {
  rStore : store; rObserved : gset string; nativeAllocationFastPath : bool }.

#[export] Instance Repository_settable : Settable Repository := fun x =>
  mkRepository (rStore x) (rObserved x) (nativeAllocationFastPath x).

Abbreviation repo A := (act Repository meta_error A).

(** [RunInTransaction]. *)
Definition RunInTransaction {A} (fn : repo A) : repo A := fun r =>
  match fn r with
  | (r', Ok a) => (r', Ok a)
  | (r', e) => (r' <| rStore := rStore r |>, e)
  end.

(** [getJSONStore]: a missing key is [ErrNotFound]. *)
Definition get_record {A} (lookup : store -> option A) : repo A := fun r =>
  match lookup (rStore r) with Some a => (r, Ok a) | None => (r, Err ErrNotFound) end.

Definition put (f : store -> store) : repo unit := fun r => (r <| rStore := f (rStore r) |>, Ok tt).

Abbreviation canon := mustCanonicalVolumeID.

Definition readVolumeState (volumeID : string) : repo VolumeState :=
  get_record (fun s => stStates s !! canon volumeID).
Definition writeVolumeState (rec : VolumeState) : repo unit :=
  put (fun s => s <| stStates := <[canon (vsVolumeID rec) := rec]> (stStates s) |>).
Definition readIdempotencyRecord (volumeID key : string) : repo IdempotencyRecord :=
  get_record (fun s => stIdem s !! (canon volumeID, key)).
Definition writeIdempotencyRecord (rec : IdempotencyRecord) : repo unit :=
  put (fun s => s <| stIdem := <[(canon (idVolumeID rec), idIdempotencyKey rec) := rec]> (stIdem s) |>).
Definition readMutationOperation (volumeID operationID : string) : repo MutationOperationRecord :=
  get_record (fun s => stOps s !! (canon volumeID, operationID)).
Definition writeMutationOperation (rec : MutationOperationRecord) : repo unit :=
  put (fun s => s <| stOps := <[(canon (moVolumeID rec), moOperationID rec) := rec]> (stOps s) |>).
Definition readExtentMapping (volumeID : string) (extentID : Z) : repo ExtentMappingRecord :=
  get_record (fun s => stExtents s !! (canon volumeID, extentID)).
Definition writeExtentMapping (rec : ExtentMappingRecord) : repo unit :=
  put (fun s => s <| stExtents := <[(canon (emVolumeID rec), emExtentID rec) := rec]> (stExtents s) |>).
Definition readAllocationPage (volumeID : string) (pageNo : Z) : repo AllocationPageRecord :=
  get_record (fun s => stPages s !! (canon volumeID, pageNo)).
Definition writeAllocationPage (rec : AllocationPageRecord) : repo unit :=
  put (fun s => s <| stPages := <[(canon (apVolumeID rec), apPageNo rec) := rec]> (stPages s) |>).
Definition readReplicaSet (volumeID replicaSetID : string) : repo ReplicaSetState :=
  get_record (fun s => stReplicaSets s !! (canon volumeID, replicaSetID)).
Definition writeReplicaSet (rec : ReplicaSetState) : repo unit :=
  put (fun s => s <| stReplicaSets := <[(canon (rsVolumeID rec), rsReplicaSetID rec) := rec]>
                                        (stReplicaSets s) |>).
Definition readRangeLocalWriteState (volumeID : string) (pageNo : Z) : repo rangeLocalWriteStateRecord :=
  get_record (fun s => stRangeLocal s !! (canon volumeID, pageNo)).
Definition writeRangeLocalWriteState (rec : rangeLocalWriteStateRecord) : repo unit :=
  put (fun s => s <| stRangeLocal := <[(canon (rlVolumeID rec), rlPageNo rec) :=
                       rec <| rlVolumeID := canon (rlVolumeID rec) |>]> (stRangeLocal s) |>).

Definition GetVolumeState : string -> repo VolumeState := readVolumeState.
Definition GetIdempotencyRecord : string -> string -> repo IdempotencyRecord := readIdempotencyRecord.
Definition GetMutationOperation : string -> string -> repo MutationOperationRecord :=
  readMutationOperation.
Definition PutIdempotencyRecord : IdempotencyRecord -> repo unit := writeIdempotencyRecord.

Definition by_number {A} (number : A -> Z) (a b : A) : Prop := number a <= number b.

#[export] Instance by_number_dec {A} (number : A -> Z) : RelDecision (by_number number).
Proof. intros a b. unfold by_number. apply _. Defined.

(** The records of a volume in the order of their number. *)
Definition volume_records {A} (m : gmap (string * Z) A) (volumeID : string) (number : A -> Z) : list A :=
  merge_sort (by_number number)
    (map snd (List.filter (fun kv => String.eqb (fst (fst kv)) (canon volumeID)) (map_to_list m))).

Definition ListAllocationPages (volumeID : string) : repo (list AllocationPageRecord) := fun r =>
  (r, Ok (volume_records (stPages (rStore r)) volumeID apPageNo)).
Definition ListExtentMappings (volumeID : string) : repo (list ExtentMappingRecord) := fun r =>
  (r, Ok (volume_records (stExtents (rStore r)) volumeID emExtentID)).

Open Scope act_scope.

(** ** Chunk ids *)

Definition getNextChunkIDLocked (volumeID : string) : repo Z := fun r =>
  (r, Ok (match stNextChunk (rStore r) !! canon volumeID with
          | Some nextID => if nextID =? 0 then 1 else nextID
          | None => 1
          end)).

Definition putNextChunkIDLocked (volumeID : string) (nextID : Z) : repo unit :=
  put (fun s => s <| stNextChunk := <[canon volumeID := nextID]> (stNextChunk s) |>).

Definition AllocateChunkIDs (volumeID : string) (count : Z) : repo Z :=
  if count =? 0 then ret_act 0 else
  GetVolumeState volumeID;;
  nextID <-- getNextChunkIDLocked volumeID;
  putNextChunkIDLocked volumeID (add64 nextID count);;
  ret_act nextID.

(** ** Mutation operations *)

Definition maintenanceIndexVolumeID (volumeID : string) : string := canon (TrimSpace volumeID).

Fixpoint targets_sorted (targets : list MutationRetiredReplicaTarget) (previous : string) : bool :=
  match targets with
  | [] => true
  | t :: targets =>
      let fix ids_sorted (ids : list string) (previous : string) : bool :=
        match ids with
        | [] => true
        | id :: ids => negb (String.eqb id "") && String.eqb (TrimSpace id) id
                       && negb (String.leb id previous) && ids_sorted ids id
        end in
      negb (String.eqb (mtNodeID t) "") && String.eqb (TrimSpace (mtNodeID t)) (mtNodeID t)
      && negb (String.leb (mtNodeID t) previous) && negb (zlen (mtSourceReplicaIDs t) =? 0)
      && ids_sorted (mtSourceReplicaIDs t) "" && targets_sorted targets (mtNodeID t)
  end.

(** [validateMutationRetiredReplicaTargets] succeeds. *)
Definition validateMutationRetiredReplicaTargets (rec : MutationOperationRecord) : bool :=
  negb ((0 <? zlen (moRetiredReplicaTargets rec)) && negb (moRetiredReplicaTargetsResolved rec))
  && negb (moRetiredReplicaTargetsResolved rec && negb (String.eqb (moKind rec) "transition"))
  && targets_sorted (moRetiredReplicaTargets rec) "".

(** The index entry of an operation: the volume and the kind it belongs to. *)
Definition writeMutationOperationWithIndex (rec : MutationOperationRecord) : repo unit := fun r =>
  let rec := rec <| moOperationID := TrimSpace (moOperationID rec) |>
                 <| moVolumeID := maintenanceIndexVolumeID (moVolumeID rec) |> in
  if String.eqb (moVolumeID rec) "" || String.eqb (moOperationID rec) "" then (r, Err IndexInvalid) else
  if negb (validateMutationRetiredReplicaTargets rec) then (r, Err IndexInvalid) else
  match stOpIndex (rStore r) !! moOperationID rec with
  | Some existing =>
      if negb (String.eqb existing.1 (moVolumeID rec)) || negb (String.eqb existing.2 (moKind rec))
      then (r, Err IndexConflict)
      else writeMutationOperation rec r
  | None =>
      (writeMutationOperation rec;;
       put (fun s => s <| stOpIndex := <[moOperationID rec := (moVolumeID rec, moKind rec)]>
                                         (stOpIndex s) |>)) r
  end.

Definition PutMutationOperation (rec : MutationOperationRecord) : repo unit :=
  RunInTransaction (writeMutationOperationWithIndex rec).

(** [PutWriteIntent], through a batch of one intent. *)
Definition PutWriteIntent (record : IdempotencyRecord) (operation : MutationOperationRecord) : repo unit :=
  RunInTransaction (writeIdempotencyRecord record;; writeMutationOperationWithIndex operation).

(** ** Validating and persisting a commit *)

Definition readAndValidateWriteCommitState (req : CommitWriteStateRequest)
  : repo (VolumeState * IdempotencyRecord) :=
  state <-- readVolumeState (ctVolumeID req);
  if negb (vsEpoch state =? ctExpectedEpoch req) || negb (vsRevision state =? ctExpectedRevision req)
  then fail_act ErrCASConflict else
  record <-- readIdempotencyRecord (ctVolumeID req) (ctIdempotencyKey req);
  if negb (String.eqb (idResultState record) (ctExpectedIdempotencyState req))
  then fail_act ErrCASConflict else
  ret_act (state <| vsRevision := ctCommittedRevision req |>,
           record <| idRevision := ctCommittedRevision req |> <| idResultState := IdempotencyCommitted |>).

Definition readAndValidatePageScopedWriteCommitState (req : CommitWriteStateRequest)
  : repo (VolumeState * IdempotencyRecord) :=
  state <-- readVolumeState (ctVolumeID req);
  if negb (vsEpoch state =? ctExpectedEpoch req) then fail_act ErrCASConflict else
  record <-- readIdempotencyRecord (ctVolumeID req) (ctIdempotencyKey req);
  if negb (String.eqb (idResultState record) (ctExpectedIdempotencyState req))
  then fail_act ErrCASConflict else ret_act (state, record).

Definition persistCommittedWriteState (state : VolumeState) (record : IdempotencyRecord) : repo unit :=
  writeVolumeState state;; writeIdempotencyRecord record.

Definition commitWriteStateWithStore (req : CommitWriteStateRequest) : repo (VolumeState * IdempotencyRecord) :=
  sr <-- readAndValidateWriteCommitState req;
  persistCommittedWriteState sr.1 sr.2;;
  ret_act sr.

Definition CommitWriteState (req : CommitWriteStateRequest) : repo (VolumeState * IdempotencyRecord) :=
  RunInTransaction (commitWriteStateWithStore req).

Definition rememberNativeAllocationVolume (volumeID : string) : repo unit := fun r =>
  (r <| rObserved := {[canon volumeID]} ∪ rObserved r |>, Ok tt).

Definition hasObservedNativeAllocationVolume (volumeID : string) (r : Repository) : bool :=
  bool_decide (canon volumeID ∈ rObserved r).

(** The mapping lookup of the page merge. *)
Definition mapping_of (r : Repository) (volumeID : string) (extentID : Z)
  : result meta_error ExtentMappingRecord := (readExtentMapping volumeID extentID r).2.

Fixpoint persistCommittedAllocationPages (pages : list AllocationPageRecord)
    (req : ApplyCommittedWriteEffectsRequest) : repo unit :=
  match pages with
  | [] => ret_act tt
  | page :: pages =>
      let page := page <| apVolumeID := canon (apVolumeID page) |> in
      (fun r =>
        let stored := stPages (rStore r) !! (canon (apVolumeID page), apPageNo page) in
        (merged <-- lift_act (mergeCommittedAllocationPage (mapping_of r (ceVolumeID req)) stored req page);
         writeAllocationPage (merged <| apRevision := ceCommittedRevision req |>);;
         rememberNativeAllocationVolume (apVolumeID merged)) r);;
      persistCommittedAllocationPages pages req
  end.

Definition canUseNativeAllocationFastPath (volumeID : string) (r : Repository) : bool :=
  nativeAllocationFastPath r && hasObservedNativeAllocationVolume volumeID r.

Fixpoint normalizeCommittedExtentMappings (extentIDs : list Z) (volumeID : string) (revision : Z)
  : repo unit :=
  match extentIDs with
  | [] => ret_act tt
  | extentID :: extentIDs =>
      mapping <-- readExtentMapping volumeID extentID;
      (fun r =>
        if canUseNativeAllocationFastPath volumeID r && (emChunkID mapping =? 0) then (r, Ok tt) else
        writeExtentMapping (mapping <| emChunkID := 0 |>
          <| emRevision := if emRevision mapping <? revision then revision else emRevision mapping |>) r);;
      normalizeCommittedExtentMappings extentIDs volumeID revision
  end.

(** [committedWriteMutationSnapshot]: [None] when no operation was found. *)
Definition mutation_snapshot := option (MutationOperationRecord * bool).

Definition committedWriteMutationSnapshotFromRequest (req : ApplyCommittedWriteEffectsRequest)
  : mutation_snapshot :=
  let operation := ceMutationOperation req in
  if String.eqb (ceMutationOperationID req) ""
     || negb (String.eqb (moOperationID operation) (ceMutationOperationID req)) then None else
  if negb (String.eqb (canon (moVolumeID operation)) (canon (ceVolumeID req))) then None else
  if negb (String.eqb (moState operation) (ceExpectedMutationState req))
     && negb (MatchesCommittedMutationOperation req operation) then None else
  Some (operation, MatchesCommittedMutationOperation req operation).

Definition readCommittedWriteMutationSnapshot (req : ApplyCommittedWriteEffectsRequest)
  : repo mutation_snapshot := fun r =>
  if String.eqb (ceMutationOperationID req) "" then (r, Ok None) else
  match committedWriteMutationSnapshotFromRequest req with
  | Some snapshot => (r, Ok (Some snapshot))
  | None =>
      match readMutationOperation (ceVolumeID req) (ceMutationOperationID req) r with
      | (r, Ok operation) => (r, Ok (Some (operation, MatchesCommittedMutationOperation req operation)))
      | (r, Err ErrNotFound) => (r, Ok None)
      | (r, Err e) => (r, Err e)
      | (r, Panic) => (r, Panic)
      end
  end.

Section Clock.
Context (nowUnix : Z).

Definition finalizeWriteMutationOperationFromSnapshot (req : ApplyCommittedWriteEffectsRequest)
    (mutation : mutation_snapshot) : repo unit :=
  if String.eqb (ceMutationOperationID req) "" then ret_act tt else
  match mutation with
  | None => fail_act ErrNotFound
  | Some (operation, committed) =>
      if committed then ret_act tt else
      if negb (String.eqb (moState operation) (ceExpectedMutationState req))
      then fail_act ErrCASConflict else
      writeMutationOperationWithIndex
        (operation <| moState := MutationOperationCommitted |>
           <| moAllocationRevision := ceCommittedRevision req |>
           <| moAffectedExtentIDs := ceAffectedExtentIDs req |>
           <| moAffectedPageNos := ceAffectedPageNos req |>
           <| moRetiredPhysicalChunkIDs := ceRetiredPhysicalChunkIDs req |>
           <| moLastUpdatedAtUnix := nowUnix |>)
  end.

Definition finalizeWriteMutationOperation (req : ApplyCommittedWriteEffectsRequest) : repo unit :=
  mutation <-- readCommittedWriteMutationSnapshot req;
  finalizeWriteMutationOperationFromSnapshot req mutation.

(** ** Volume-scoped commits *)

Definition commitWriteMetadataWithStore (req : CommitWriteMetadataRequest)
    (allocationPages : list AllocationPageRecord) (normalizeExtentIDs : list Z)
  : repo (VolumeState * IdempotencyRecord) :=
  let effectsReq := EffectsApplyRequest req <| ceAllocationPages := allocationPages |>
                      <| ceNormalizeExtentMappings := normalizeExtentIDs |> in
  sr <-- readAndValidateWriteCommitState (StateCommitRequest req);
  persistCommittedWriteState sr.1 sr.2;;
  persistCommittedAllocationPages allocationPages effectsReq;;
  normalizeCommittedExtentMappings normalizeExtentIDs (ceVolumeID effectsReq)
    (ceCommittedRevision effectsReq);;
  finalizeWriteMutationOperation effectsReq;;
  ret_act sr.

Definition ListCompatibleAllocationPages (volumeID : string) (pageBytes chunkSizeBytes : Z)
  : repo (list AllocationPageRecord) :=
  if bad_page_geometry pageBytes chunkSizeBytes
  then fail_act (InvalidPageGeometry 0 pageBytes chunkSizeBytes) else
  pages <-- ListAllocationPages volumeID;
  if 0 <? zlen pages then ret_act pages else
  mappings <-- ListExtentMappings volumeID;
  if zlen mappings =? 0 then ret_act [] else
  lift_act (synthesize_pages volumeID
              (mapping_page_nos mappings chunkSizeBytes (pageBytes / chunkSizeBytes))
              pageBytes chunkSizeBytes mappings).

Definition GetCompatibleAllocationPage (volumeID : string) (pageNo pageBytes chunkSizeBytes : Z)
  : repo AllocationPageRecord :=
  if bad_page_geometry pageBytes chunkSizeBytes
  then fail_act (InvalidPageGeometry pageNo pageBytes chunkSizeBytes) else fun r =>
  match readAllocationPage volumeID pageNo r with
  | (r, Ok page) => (r, Ok page)
  | (r, Panic) => (r, Panic)
  | (r, Err _) =>
      (pages <-- ListAllocationPages volumeID;
       if 0 <? zlen pages then
         match List.find (fun page => apPageNo page =? pageNo) pages with
         | Some page => ret_act page
         | None => lift_act (zeroAllocationPage volumeID pageNo pageBytes chunkSizeBytes)
         end
       else
         mappings <-- ListExtentMappings volumeID;
         lift_act (synthesizeAllocationPageFromMappings volumeID pageNo pageBytes chunkSizeBytes mappings)) r
  end.

(** The pages and extents of a volume whose mappings are not native yet. *)
Definition prepareLegacyAllocationBootstrap (volumeID : string) (allocationPages : list AllocationPageRecord)
  : repo (list AllocationPageRecord * list Z) := fun r =>
  match allocationPages with
  | [] => (r, Ok ([], []))
  | first :: _ =>
      if hasObservedNativeAllocationVolume volumeID r then (r, Ok ([], [])) else
      (existingPages <-- ListAllocationPages volumeID;
       if 0 <? zlen existingPages
       then rememberNativeAllocationVolume volumeID;; ret_act ([], [])
       else
         if bad_page_geometry (apPageBytes first) (apChunkSizeBytes first)
         then fail_act (InvalidPageGeometry (apPageNo first) (apPageBytes first) (apChunkSizeBytes first)) else
         pages <-- ListCompatibleAllocationPages volumeID (apPageBytes first) (apChunkSizeBytes first);
         mappings <-- ListExtentMappings volumeID;
         ret_act (pages, map emExtentID mappings)) r
  end.

Definition CommitWriteMetadata (req : CommitWriteMetadataRequest) : repo (VolumeState * IdempotencyRecord) :=
  boot <-- prepareLegacyAllocationBootstrap (cmVolumeID req) (cmAllocationPages req);
  RunInTransaction
    (commitWriteMetadataWithStore req (mergeAllocationPagesByPageNo boot.1 (cmAllocationPages req))
       (mergeExtentIDs boot.2 (cmNormalizeExtentMappings req))).

(** ** Page-scoped commits *)

(** The loop over the ordered pages; [maxRevision] is the largest revision so far. *)
Fixpoint page_scoped_loop (pages : list AllocationPageRecord) (maxRevision : Z)
  : repo (list AllocationPageRecord * Z) := fun r =>
  match pages with
  | [] => (r, Ok ([], maxRevision))
  | page :: pages =>
      (current <-- (fun r => match readAllocationPage (apVolumeID page) (apPageNo page) r with
                             | (r, Err ErrNotFound) =>
                                 (r, zeroAllocationPage (apVolumeID page) (apPageNo page) (apPageBytes page)
                                       (apChunkSizeBytes page))
                             | res => res
                             end);
       if negb (apPageBytes current =? apPageBytes page)
          || negb (apChunkSizeBytes current =? apChunkSizeBytes page) then fail_act ErrCASConflict else
       if negb (apRevision current =? apRevision page) then fail_act ErrCASConflict else
       let page := page <| apRevision := add64 (apRevision current) 1 |> in
       rest <-- page_scoped_loop pages (Z.max maxRevision (apRevision page));
       ret_act (page :: rest.1, rest.2)) r
  end.

Definition preparePageScopedCommittedAllocationPages (pages : list AllocationPageRecord)
  : repo (list AllocationPageRecord * Z) :=
  page_scoped_loop (merge_sort (by_number apPageNo) pages) 0.

Fixpoint persistPageScopedCommittedAllocationPages (pages : list AllocationPageRecord) : repo unit :=
  match pages with
  | [] => ret_act tt
  | page :: pages =>
      let page := page <| apVolumeID := canon (apVolumeID page) |> in
      writeAllocationPage page;;
      rememberNativeAllocationVolume (apVolumeID page);;
      persistPageScopedCommittedAllocationPages pages
  end.

Definition commitPageScopedWriteMetadataWithStore (req : CommitWriteMetadataRequest)
    (allocationPages : list AllocationPageRecord) (normalizeExtentIDs : list Z)
  : repo (VolumeState * IdempotencyRecord) :=
  if zlen allocationPages =? 0 then fail_act NeedsAllocationPages else
  sr <-- readAndValidatePageScopedWriteCommitState (StateCommitRequest req);
  pr <-- preparePageScopedCommittedAllocationPages allocationPages;
  let committedRevision := if pr.2 =? 0 then cmCommittedRevision req else pr.2 in
  let record := sr.2 <| idRevision := committedRevision |> <| idResultState := IdempotencyCommitted |> in
  writeIdempotencyRecord record;;
  let effectsReq := EffectsApplyRequest req <| ceCommittedRevision := committedRevision |>
                      <| ceAllocationPages := pr.1 |> <| ceNormalizeExtentMappings := normalizeExtentIDs |> in
  persistPageScopedCommittedAllocationPages pr.1;;
  normalizeCommittedExtentMappings normalizeExtentIDs (ceVolumeID effectsReq) committedRevision;;
  finalizeWriteMutationOperation effectsReq;;
  ret_act (sr.1, record).

Definition CommitPageScopedWriteMetadata (req : CommitWriteMetadataRequest)
  : repo (VolumeState * IdempotencyRecord) :=
  boot <-- prepareLegacyAllocationBootstrap (cmVolumeID req) (cmAllocationPages req);
  RunInTransaction
    (commitPageScopedWriteMetadataWithStore req
       (mergeAllocationPagesByPageNo boot.1 (cmAllocationPages req))
       (mergeExtentIDs boot.2 (cmNormalizeExtentMappings req))).

(** ** Range-local commits and their effects *)

Definition initial_revision (pages : list AllocationPageRecord) (pageNo : Z) : Z :=
  fold_left (fun rev page => if apPageNo page =? pageNo then Z.max rev (apRevision page) else rev) pages 0.

Fixpoint range_local_loop (pageNos : list Z) (volumeID key : string) (pages : list AllocationPageRecord)
    (maxRevision : Z) : repo Z := fun r =>
  match pageNos with
  | [] => (r, Ok maxRevision)
  | pageNo :: pageNos =>
      (current <-- (fun r => match readRangeLocalWriteState volumeID pageNo r with
                             | (r, Err ErrNotFound) =>
                                 (r, Ok (mkrangeLocalWriteStateRecord (canon volumeID) pageNo
                                           (initial_revision pages pageNo) "" 0))
                             | res => res
                             end);
       let current := current <| rlRevision := add64 (rlRevision current) 1 |>
                        <| rlIdempotencyKey := key |> <| rlUpdatedAtUnix := nowUnix |> in
       writeRangeLocalWriteState current;;
       range_local_loop pageNos volumeID key pages (Z.max maxRevision (rlRevision current))) r
  end.

Definition advanceRangeLocalWriteState (volumeID key : string) (pages : list AllocationPageRecord) : repo Z :=
  range_local_loop (merge_sort Z.le (remove_dups (map apPageNo pages))) volumeID key pages 0.

Definition commitRangeLocalWriteStateWithStore (req : CommitWriteMetadataRequest)
    (allocationPages : list AllocationPageRecord) : repo (VolumeState * IdempotencyRecord) :=
  if zlen allocationPages =? 0 then fail_act NeedsAllocationPages else
  sr <-- readAndValidatePageScopedWriteCommitState (StateCommitRequest req);
  committedRevision <-- advanceRangeLocalWriteState (cmVolumeID req) (cmIdempotencyKey req) allocationPages;
  let record := sr.2 <| idRevision := committedRevision |> <| idResultState := IdempotencyCommitted |> in
  writeIdempotencyRecord record;;
  ret_act (sr.1, record).

Definition CommitRangeLocalWriteState (req : CommitWriteMetadataRequest)
  : repo (VolumeState * IdempotencyRecord) :=
  boot <-- prepareLegacyAllocationBootstrap (cmVolumeID req) (cmAllocationPages req);
  RunInTransaction
    (commitRangeLocalWriteStateWithStore req (mergeAllocationPagesByPageNo boot.1 (cmAllocationPages req))).

Definition applyCommittedWriteEffectsWithStore (req : ApplyCommittedWriteEffectsRequest) : repo unit :=
  mutation <-- readCommittedWriteMutationSnapshot req;
  if (match mutation with Some (_, committed) => committed | None => false end) then ret_act tt else
  persistCommittedAllocationPages (ceAllocationPages req) req;;
  normalizeCommittedExtentMappings (ceNormalizeExtentMappings req) (ceVolumeID req) (ceCommittedRevision req);;
  finalizeWriteMutationOperationFromSnapshot req mutation.

Definition ApplyCommittedWriteEffects (req : ApplyCommittedWriteEffectsRequest) : repo unit :=
  boot <-- prepareLegacyAllocationBootstrap (ceVolumeID req) (ceAllocationPages req);
  RunInTransaction
    (applyCommittedWriteEffectsWithStore
       (req <| ceAllocationPages := mergeAllocationPagesByPageNo boot.1 (ceAllocationPages req) |>
            <| ceNormalizeExtentMappings := mergeExtentIDs boot.2 (ceNormalizeExtentMappings req) |>)).

End Clock.

(** ** Primary failover *)

Definition applyPrimaryFailover (state : VolumeState) (replicaSet : ReplicaSetState)
    (req : CommitPrimaryFailoverRequest) : result meta_error (VolumeState * ReplicaSetState) :=
  if negb (existsb (fun r => String.eqb (rdReplicaID r) (pfNewPrimaryReplicaID req)) (rsReplicas replicaSet))
  then Err (NewPrimaryNotFound (pfNewPrimaryReplicaID req)) else
  Ok (state <| vsEpoch := add64 (vsEpoch state) 1 |>,
      replicaSet <| rsEpoch := add64 (rsEpoch replicaSet) 1 |>
        <| rsPrimaryReplicaID := pfNewPrimaryReplicaID req |>
        <| rsReplicas := map (fun r =>
             if String.eqb (rdReplicaID r) (pfNewPrimaryReplicaID req)
             then r <| rdRole := ReplicaRolePrimary |>
             else if String.eqb (rdReplicaID r) (pfExpectedPrimaryReplicaID req)
             then r <| rdRole := ReplicaRoleSecondary |> else r) (rsReplicas replicaSet) |>).

(** [putReplicaSetWithPlacementIndex], less the index. *)
Definition putReplicaSet (rec : ReplicaSetState) : repo unit :=
  let rec := rec <| rsVolumeID := maintenanceIndexVolumeID (rsVolumeID rec) |>
                 <| rsReplicaSetID := TrimSpace (rsReplicaSetID rec) |>
                 <| rsPlacementRef := TrimSpace (rsPlacementRef rec) |> in
  if String.eqb (rsVolumeID rec) "" || String.eqb (rsReplicaSetID rec) ""
  then fail_act IndexInvalid else writeReplicaSet rec.

Definition CommitPrimaryFailover (req : CommitPrimaryFailoverRequest)
  : repo (VolumeState * ReplicaSetState) :=
  RunInTransaction
    (state <-- readVolumeState (pfVolumeID req);
     if negb (vsEpoch state =? pfExpectedVolumeEpoch req) then fail_act ErrCASConflict else
     replicaSet <-- readReplicaSet (pfVolumeID req) (pfReplicaSetID req);
     if negb (rsEpoch replicaSet =? pfExpectedReplicaSetEpoch req)
        || negb (String.eqb (rsPrimaryReplicaID replicaSet) (pfExpectedPrimaryReplicaID req))
     then fail_act ErrCASConflict else
     sr <-- lift_act (applyPrimaryFailover state replicaSet req);
     writeVolumeState sr.1;;
     putReplicaSet sr.2;;
     ret_act sr).

End MetaRepo.
