(* ===== verification/MetaRepoFacts.v ===== *)
(** * The metadata repository: commits are atomic compare-and-swaps

    A commit either changes nothing but the in-memory set, or happens on
    exactly the epoch, revision and idempotency state it expects; a failover
    fences the commits prepared before it; and what a failed first commit does
    to a volume without native pages. *)

From Stdlib Require Import ZArith Lia Ascii String.
From stdpp Require Import base list gmap strings sorting.
From S2P Require Import Prelude GoStrings VolumeId SbsTypes MetaTypes AllocationCommit MetaPages MetaRepo.
Open Scope string_scope.
Open Scope Z_scope.

Module MetaRepoFacts.
Import Sbs Meta Allocation MetaPages MetaRepo.

(** ** Frames *)

(** Whatever the outcome, [m] relates the states before and after by [R]. *)
Definition keeps {E A} (R : Repository -> Repository -> Prop) (m : act Repository E A) : Prop :=
  forall r r' res, m r = (r', res) -> R r r'.

Section Keeps.
Context (R : Repository -> Repository -> Prop) `{!Reflexive R, !Transitive R} {E : Type}.

Lemma keeps_ret {A} (a : A) : keeps R (ret_act a : act Repository E A).
Proof. intros r r' res [= <- _]. done. Qed.
Lemma keeps_fail {A} e : keeps R (fail_act e : act Repository E A).
Proof. intros r r' res [= <- _]. done. Qed.
Lemma keeps_lift {A} (x : result E A) : keeps R (lift_act x).
Proof. intros r r' res [= <- _]. done. Qed.
Lemma keeps_get {A} (f : store -> option A) : keeps R (get_record f).
Proof. intros r r' res. unfold get_record. by destruct (f _); intros [= <- _]. Qed.
Lemma keeps_seq {A B} (m : act Repository E A) (f : A -> act Repository E B) :
  keeps R m -> (forall a, keeps R (f a)) -> keeps R (bind_act m f).
Proof.
  intros Hm Hf r r' res. unfold bind_act. destruct (m r) as [r1 [a|e|]] eqn:Em; intros Heq.
  - etrans; [by eapply Hm|by eapply Hf].
  - injection Heq as <- _. by eapply Hm.
  - injection Heq as <- _. by eapply Hm.
Qed.
Lemma keeps_if {A} (b : bool) (m1 m2 : act Repository E A) : keeps R m1 -> keeps R m2 -> keeps R (if b then m1 else m2).
Proof. by destruct b. Qed.
End Keeps.

Create HintDb frames.

(** Splits a frame goal along the structure of the action. *)
Ltac frame :=
  repeat first
    [ solve [auto with frames]
    | apply keeps_ret, _ | apply keeps_fail, _ | apply keeps_lift, _ | apply keeps_get, _
    | apply keeps_if | apply keeps_seq; [apply _| |intros] ].

(** The part [f] of the store is untouched. *)
Definition same_on {T} (f : store -> T) (r r' : Repository) : Prop := f (rStore r') = f (rStore r).

#[export] Instance same_on_refl {T} (f : store -> T) : Reflexive (same_on f).
Proof. by intros r. Qed.
#[export] Instance same_on_trans {T} (f : store -> T) : Transitive (same_on f).
Proof. unfold same_on. intros a b c H1 H2. congruence. Qed.

Lemma keeps_put {T} (f : store -> T) (g : store -> store) : (forall s, f (g s) = f s) -> keeps (same_on f) (put g).
Proof. intros Hf r r' res [= <- _]. apply Hf. Qed.

Lemma keeps_sub {E A} (R R' : Repository -> Repository -> Prop) (m : act Repository E A) :
  (forall r r', R r r' -> R' r r') -> keeps R m -> keeps R' m.
Proof. intros HR Hm r r' res Heq. eapply HR, Hm, Heq. Qed.

Abbreviation same_store := (same_on (fun s => s)).

Lemma same_store_on {T} (f : store -> T) r r' : same_store r r' -> same_on f r r'.
Proof. unfold same_on. by intros ->. Qed.

(** Volume states, idempotency records and operations; and the first two. *)
Abbreviation same_records := (same_on (fun s => (stStates s, stIdem s, stOps s))).
Abbreviation same_versions := (same_on (fun s => (stStates s, stIdem s))).

Lemma same_records_versions r r' : same_records r r' -> same_versions r r'.
Proof. unfold same_on. by intros [= -> -> _]. Qed.

(** An action that reads the state it starts in. *)
Lemma keeps_reader {A} R (m : Repository -> repo A) : (forall r0, keeps R (m r0)) -> keeps R (fun r => m r r).
Proof. intros H r. exact (H r r). Qed.

Lemma keeps_pages pages req : keeps same_records (persistCommittedAllocationPages pages req).
Proof.
  induction pages as [|page pages IH]; cbn [persistCommittedAllocationPages]; [by frame|].
  apply keeps_seq; [apply _| |auto].
  apply (keeps_reader _ (fun r0 => bind_act (lift_act (mergeCommittedAllocationPage
    (mapping_of r0 (ceVolumeID req)) _ req _)) _)).
  intros r0. frame; [by apply keeps_put|]. by intros r r' res [= <- _].
Qed.

Lemma keeps_normalize ids vol rev : keeps same_records (normalizeCommittedExtentMappings ids vol rev).
Proof.
  induction ids as [|id ids IH]; cbn [normalizeCommittedExtentMappings]; [by frame|].
  frame. intros r r' res.
  destruct (_ && _); [intros [= <- _]; done|]. by apply (keeps_put (fun s => _)).
Qed.

Lemma keeps_write_operation rec : keeps same_versions (writeMutationOperationWithIndex rec).
Proof.
  intros r r' res. unfold writeMutationOperationWithIndex.
  destruct (_ || _); [intros [= <- _]; done|]. destruct (negb _); [intros [= <- _]; done|].
  destruct (stOpIndex _ !! _) as [x|].
  - destruct (_ || _); [intros [= <- _]; done|]. by apply (keeps_put (fun s => _)).
  - apply keeps_seq; [apply _|by apply keeps_put|]. intros _. by apply keeps_put.
Qed.

Lemma keeps_snapshot req : keeps same_store (readCommittedWriteMutationSnapshot req).
Proof.
  intros r r' res. unfold readCommittedWriteMutationSnapshot. destruct (String.eqb _ _); [intros [= <- _]; done|].
  destruct (committedWriteMutationSnapshotFromRequest req); [intros [= <- _]; done|].
  unfold readMutationOperation, get_record. destruct (stOps _ !! _); intros [= <- _]; done.
Qed.

Lemma keeps_finalize_snapshot now req m : keeps same_versions (finalizeWriteMutationOperationFromSnapshot now req m).
Proof.
  unfold finalizeWriteMutationOperationFromSnapshot. apply keeps_if; [by frame|].
  destruct m as [[op c]|]; frame. apply keeps_write_operation.
Qed.

#[export] Hint Resolve keeps_snapshot keeps_finalize_snapshot : frames.

Lemma keeps_finalize now req : keeps same_versions (finalizeWriteMutationOperation now req).
Proof. unfold finalizeWriteMutationOperation. frame. eapply keeps_sub, keeps_snapshot. intros r r'. apply same_store_on. Qed.

(** The bootstrap reads the store and may remember the volume. *)

Lemma keeps_remember vol : keeps same_store (rememberNativeAllocationVolume vol).
Proof. intros r r' res [= <- _]. done. Qed.
Lemma keeps_list_pages vol : keeps same_store (ListAllocationPages vol).
Proof. intros r r' res [= <- _]. done. Qed.
Lemma keeps_list_extents vol : keeps same_store (ListExtentMappings vol).
Proof. intros r r' res [= <- _]. done. Qed.
#[export] Hint Resolve keeps_remember keeps_list_pages keeps_list_extents : frames.

Lemma keeps_compatible_pages vol a b : keeps same_store (ListCompatibleAllocationPages vol a b).
Proof. unfold ListCompatibleAllocationPages. frame. Qed.
#[export] Hint Resolve keeps_compatible_pages : frames.

Lemma keeps_bootstrap vol pages : keeps same_store (prepareLegacyAllocationBootstrap vol pages).
Proof.
  intros r r' res. unfold prepareLegacyAllocationBootstrap. destruct pages as [|first pages]; [intros [= <- _]; done|].
  destruct (hasObservedNativeAllocationVolume vol r); [intros [= <- _]; done|].
  apply keeps_seq; [apply _|by frame|]. intros existing. frame.
Qed.

(** A failed transaction leaves the store as it was. *)
Lemma transaction_Err {A} (fn : repo A) r r' e : RunInTransaction fn r = (r', Err e) -> rStore r' = rStore r.
Proof. unfold RunInTransaction. destruct (fn r) as [r1 [a|?|]]; intros [= <- _]; done. Qed.

Lemma transaction_Ok {A} (fn : repo A) r r' a : RunInTransaction fn r = (r', Ok a) -> fn r = (r', Ok a).
Proof. unfold RunInTransaction. by destruct (fn r) as [r1 [x|?|]]. Qed.

Lemma transaction_failed {A} (fn : repo A) r r' res : RunInTransaction fn r = (r', res) ->
  is_ok res = false -> rStore r' = rStore r.
Proof. unfold RunInTransaction. destruct (fn r) as [r1 [a|?|]]; intros [= <- <-]; done. Qed.

Lemma keeps_transaction {A} R (fn : repo A) : (forall r r', same_store r r' -> R r r') ->
  keeps R fn -> keeps R (RunInTransaction fn).
Proof.
  intros HR Hfn r r' res. unfold RunInTransaction. destruct (fn r) as [r1 [a|e|]] eqn:Ef; intros [= <- _].
  - by eapply Hfn.
  - by apply HR.
  - by apply HR.
Qed.

Lemma keeps_validate req : keeps same_store (readAndValidateWriteCommitState req).
Proof. unfold readAndValidateWriteCommitState. frame. Qed.

(** ** Keys *)

(** Records are stored under the key of the volume they name. *)
Record keys_ok (s : store) : Prop := {
  ko_states : forall v st, stStates s !! v = Some st -> canon (vsVolumeID st) = v;
  ko_idem : forall v k rec, stIdem s !! (v, k) = Some rec ->
              canon (idVolumeID rec) = v /\ idIdempotencyKey rec = k;
  ko_ops : forall v id op, stOps s !! (v, id) = Some op -> canon (moVolumeID op) = v /\ moOperationID op = id }.

Definition keys_kept (r r' : Repository) : Prop := keys_ok (rStore r) -> keys_ok (rStore r').
#[export] Instance keys_kept_refl : Reflexive keys_kept.
Proof. intros r H. exact H. Qed.
#[export] Instance keys_kept_trans : Transitive keys_kept.
Proof. unfold keys_kept. intros a b c H1 H2. auto. Qed.

Lemma same_records_keys r r' : same_records r r' -> keys_kept r r'.
Proof.
  unfold same_on. intros [= H1 H2 H3] [Ks Ki Ko]. split; intros *; rewrite ?H1, ?H2, ?H3; auto.
Qed.

Lemma write_state_keys rec : keeps keys_kept (writeVolumeState rec).
Proof.
  intros r r' res [= <- _] [Ks Ki Ko]. split; [|exact Ki|exact Ko].
  cbn [rStore stStates]. intros v st [[<- <-]|[_ ?]]%lookup_insert_Some; auto.
Qed.
Lemma write_idem_keys rec : keeps keys_kept (writeIdempotencyRecord rec).
Proof.
  intros r r' res [= <- _] [Ks Ki Ko]. split; [exact Ks| |exact Ko].
  cbn [rStore stIdem]. intros v k st [[[= <- <-] <-]|[_ ?]]%lookup_insert_Some; auto.
Qed.
Lemma write_op_keys rec : keeps keys_kept (writeMutationOperation rec).
Proof.
  intros r r' res [= <- _] [Ks Ki Ko]. split; [exact Ks|exact Ki|].
  cbn [rStore stOps]. intros v k st [[[= <- <-] <-]|[_ ?]]%lookup_insert_Some; auto.
Qed.
#[export] Hint Resolve write_state_keys write_idem_keys write_op_keys : frames.

Lemma write_op_index_keys rec : keeps keys_kept (writeMutationOperationWithIndex rec).
Proof.
  intros r r' res. unfold writeMutationOperationWithIndex.
  destruct (_ || _); [intros [= <- _]; done|]. destruct (negb _); [intros [= <- _]; done|].
  destruct (stOpIndex _ !! _) as [x|].
  - destruct (_ || _); [intros [= <- _]; done|]. apply write_op_keys.
  - apply keeps_seq; [apply _|auto with frames|]. intros _. eapply keeps_sub; [apply same_records_keys|]. by apply keeps_put.
Qed.
#[export] Hint Resolve write_op_index_keys : frames.

Lemma finalize_keys now req m : keeps keys_kept (finalizeWriteMutationOperationFromSnapshot now req m).
Proof.
  unfold finalizeWriteMutationOperationFromSnapshot. apply keeps_if; [by frame|].
  destruct m as [[op c]|]; frame.
Qed.
#[export] Hint Resolve finalize_keys : frames.

(** ** Volume-scoped commits *)

Lemma get_record_Ok {A} (f : store -> option A) r r' a :
  get_record f r = (r', Ok a) -> r' = r /\ f (rStore r) = Some a.
Proof. unfold get_record. destruct (f (rStore r)); [|done]. by intros [= <- <-]. Qed.

Lemma read_state_Ok v r r' st : readVolumeState v r = (r', Ok st) ->
  r' = r /\ stStates (rStore r) !! canon v = Some st.
Proof. exact (get_record_Ok (fun s => stStates s !! canon v) r r' st). Qed.
Lemma read_idem_Ok v k r r' rec : readIdempotencyRecord v k r = (r', Ok rec) ->
  r' = r /\ stIdem (rStore r) !! (canon v, k) = Some rec.
Proof. exact (get_record_Ok (fun s => stIdem s !! (canon v, k)) r r' rec). Qed.

Lemma validate_Ok req r r' sr : readAndValidateWriteCommitState req r = (r', Ok sr) ->
  exists old oldrec, r' = r
    /\ stStates (rStore r) !! canon (ctVolumeID req) = Some old
    /\ vsEpoch old = ctExpectedEpoch req /\ vsRevision old = ctExpectedRevision req
    /\ stIdem (rStore r) !! (canon (ctVolumeID req), ctIdempotencyKey req) = Some oldrec
    /\ idResultState oldrec = ctExpectedIdempotencyState req
    /\ sr = (old <| vsRevision := ctCommittedRevision req |>,
             oldrec <| idRevision := ctCommittedRevision req |> <| idResultState := IdempotencyCommitted |>).
Proof.
  intros (r1 & old & [-> Hold]%read_state_Ok & H)%bind_act_inv. exists old.
  destruct (Z.eqb_spec (vsEpoch old) (ctExpectedEpoch req)); [|done].
  destruct (Z.eqb_spec (vsRevision old) (ctExpectedRevision req)); [|done]. cbn [negb orb] in H.
  apply bind_act_inv in H as (r2 & oldrec & [-> Hrec]%read_idem_Ok & H). exists oldrec.
  destruct (String.eqb_spec (idResultState oldrec) (ctExpectedIdempotencyState req)); [|done].
  by injection H as <- <-.
Qed.

(** What a successful commit did before it finalized the operation. *)
Lemma commit_store_Ok now req pages ids r r' sr :
  commitWriteMetadataWithStore now req pages ids r = (r', Ok sr) ->
  exists old oldrec r1,
    stStates (rStore r) !! canon (cmVolumeID req) = Some old
    /\ vsEpoch old = cmExpectedEpoch req /\ vsRevision old = cmExpectedRevision req
    /\ stIdem (rStore r) !! (canon (cmVolumeID req), cmIdempotencyKey req) = Some oldrec
    /\ idResultState oldrec = cmExpectedIdempotencyState req
    /\ sr = (old <| vsRevision := cmCommittedRevision req |>,
             oldrec <| idRevision := cmCommittedRevision req |> <| idResultState := IdempotencyCommitted |>)
    /\ stStates (rStore r1) = <[canon (vsVolumeID old) := sr.1]> (stStates (rStore r))
    /\ stIdem (rStore r1) = <[(canon (idVolumeID oldrec), idIdempotencyKey oldrec) := sr.2]> (stIdem (rStore r))
    /\ stOps (rStore r1) = stOps (rStore r)
    /\ finalizeWriteMutationOperation now
         (EffectsApplyRequest req <| ceAllocationPages := pages |> <| ceNormalizeExtentMappings := ids |>) r1
       = (r', Ok tt).
Proof.
  unfold commitWriteMetadataWithStore.
  intros (r1 & sr1 & (old & oldrec & -> & H1 & H2 & H3 & H4 & H5 & H6)%validate_Ok & H)%bind_act_inv.
  apply bind_act_inv in H as (r2 & [] & Hp & H). injection Hp as Hp.
  apply bind_act_inv in H as (r3 & [] & Hpages & H). apply keeps_pages in Hpages.
  apply bind_act_inv in H as (r4 & [] & Hnorm & H). apply keeps_normalize in Hnorm.
  apply bind_act_inv in H as (r5 & [] & Hfin & H). injection H as <- <-.
  unfold same_on in Hpages, Hnorm. rewrite Hpages in Hnorm. injection Hnorm as Hs Hi Ho.
  exists old, oldrec, r4. subst. by repeat split.
Qed.

Lemma commit_Ok now req r r' sr : CommitWriteMetadata now req r = (r', Ok sr) ->
  exists r1 pages ids, rStore r1 = rStore r /\ commitWriteMetadataWithStore now req pages ids r1 = (r', Ok sr).
Proof.
  intros (r1 & boot & Hb%keeps_bootstrap & H%transaction_Ok)%bind_act_inv.
  unfold same_on in Hb. eauto.
Qed.

Lemma bootstrapped_failed {A} vol pages (fn : list AllocationPageRecord * list Z -> repo A) r r' res :
  bind_act (prepareLegacyAllocationBootstrap vol pages) (fun boot => RunInTransaction (fn boot)) r = (r', res) ->
  is_ok res = false -> rStore r' = rStore r.
Proof.
  unfold bind_act.
  destruct (prepareLegacyAllocationBootstrap _ _ r) as [r1 [boot|e|]] eqn:Hb; apply keeps_bootstrap in Hb;
    unfold same_on in Hb; intros H Hres; [|by injection H as <- _..].
  apply transaction_failed in H; [congruence|done].
Qed.

Lemma commit_failed now req r r' res : CommitWriteMetadata now req r = (r', res) -> is_ok res = false ->
  rStore r' = rStore r.
Proof. apply bootstrapped_failed. Qed.

Lemma commit_keys now req : keeps keys_kept (CommitWriteMetadata now req).
Proof.
  apply keeps_seq; [apply _| |intros boot; apply keeps_transaction].
  - eapply keeps_sub; [|apply keeps_bootstrap]. intros r r' H. apply same_records_keys. by apply same_store_on.
  - intros r r' H. apply same_records_keys. by apply same_store_on.
  - apply keeps_seq; [apply _| |intros sr].
    { eapply keeps_sub; [|apply keeps_validate]. intros r r' H. apply same_records_keys. by apply same_store_on. }
    unfold persistCommittedWriteState, finalizeWriteMutationOperation. frame.
    + eapply keeps_sub; [apply same_records_keys|apply keeps_pages].
    + eapply keeps_sub; [apply same_records_keys|apply keeps_normalize].
    + eapply keeps_sub; [|apply keeps_snapshot]. intros r r' H. apply same_records_keys. by apply same_store_on.
Qed.

(** C6: [CommitWriteMetadata] is an atomic compare-and-swap.  When it succeeds,
    the stored volume had exactly the expected epoch and revision and the
    idempotency record the expected state; the volume then has the committed
    revision and the record is committed at that revision, and no other volume
    state or idempotency record changed.  When it fails, the store is what it
    was. *)
Theorem commit_write_cas (now : Z) (req : CommitWriteMetadataRequest) (r r' : Repository)
    (res : result meta_error (VolumeState * IdempotencyRecord))
    (Hk : keys_ok (rStore r)) (Hc : CommitWriteMetadata now req r = (r', res)) :
  match res with
  | Ok (state, record) => exists old oldrec,
      stStates (rStore r) !! canon (cmVolumeID req) = Some old
      /\ vsEpoch old = cmExpectedEpoch req /\ vsRevision old = cmExpectedRevision req
      /\ stIdem (rStore r) !! (canon (cmVolumeID req), cmIdempotencyKey req) = Some oldrec
      /\ idResultState oldrec = cmExpectedIdempotencyState req
      /\ state = old <| vsRevision := cmCommittedRevision req |>
      /\ record = oldrec <| idRevision := cmCommittedRevision req |>
                         <| idResultState := IdempotencyCommitted |>
      /\ stStates (rStore r') = <[canon (cmVolumeID req) := state]> (stStates (rStore r))
      /\ stIdem (rStore r') = <[(canon (cmVolumeID req), cmIdempotencyKey req) := record]> (stIdem (rStore r))
      /\ keys_ok (rStore r')
  | _ => rStore r' = rStore r
  end.
Proof.
  destruct res as [[state record]|e|]; [|by eapply commit_failed..].
  destruct (commit_Ok _ _ _ _ _ Hc) as (r1 & pages & ids & Hr1 & H).
  apply commit_store_Ok in H as (old & oldrec & r2 & H1 & H2 & H3 & H4 & H5 & H6 & H7 & H8 & _ & H9%keeps_finalize).
  rewrite Hr1 in H1, H4, H7, H8. injection H6 as Hst Hrec. exists old, oldrec.
  rewrite (ko_states _ Hk _ _ H1) in H7. destruct (ko_idem _ Hk _ _ _ H4) as [Hv Hkey]. rewrite Hv, Hkey in H8.
  injection H9 as Hs' Hi'. rewrite H7 in Hs'. rewrite H8 in Hi'.
  repeat (split; [done|]). by apply (commit_keys now req r r' _ Hc).
Qed.

(** ** Failover *)

(** The commits of a write at the metadata repository. *)
Definition commits (now : Z) : list (CommitWriteMetadataRequest -> repo (VolumeState * IdempotencyRecord)) :=
  [CommitWriteMetadata now; CommitPageScopedWriteMetadata now; CommitRangeLocalWriteState now].

(** [fn] fails without touching anything from every state with the store of [r]. *)
Definition refuses {A} (s : store) (fn : repo A) : Prop :=
  forall r, rStore r = s -> exists e, fn r = (r, Err e).

Lemma refuses_fail {A} s e : refuses s (fail_act e : repo A).
Proof. intros r _. by exists e. Qed.
Lemma refuses_bind {A B} s (m : repo A) (f : A -> repo B) : refuses s m -> refuses s (bind_act m f).
Proof. intros Hm r Hr. destruct (Hm r Hr) as [e He]. exists e. unfold bind_act. by rewrite He. Qed.
Lemma refuses_if {A} s (b : bool) (m1 m2 : repo A) : refuses s m1 -> refuses s m2 -> refuses s (if b then m1 else m2).
Proof. by destruct b. Qed.

Lemma read_state_Some v st s r : rStore r = s -> stStates s !! canon v = Some st -> readVolumeState v r = (r, Ok st).
Proof. intros <- H. unfold readVolumeState, get_record. by rewrite H. Qed.

Section OtherEpoch.
Context (s : store) (req : CommitWriteMetadataRequest) (st : VolumeState).
Context (Hst : stStates s !! canon (cmVolumeID req) = Some st) (He : vsEpoch st <> cmExpectedEpoch req).

Lemma refuses_validate : refuses s (readAndValidateWriteCommitState (StateCommitRequest req)).
Proof.
  intros r Hr. exists ErrCASConflict. unfold readAndValidateWriteCommitState, bind_act.
  erewrite read_state_Some by done. cbn [StateCommitRequest ctExpectedEpoch].
  by destruct (Z.eqb_spec (vsEpoch st) (cmExpectedEpoch req)).
Qed.

Lemma refuses_validate_pages : refuses s (readAndValidatePageScopedWriteCommitState (StateCommitRequest req)).
Proof.
  intros r Hr. exists ErrCASConflict. unfold readAndValidatePageScopedWriteCommitState, bind_act.
  erewrite read_state_Some by done. cbn [StateCommitRequest ctExpectedEpoch].
  by destruct (Z.eqb_spec (vsEpoch st) (cmExpectedEpoch req)).
Qed.

Lemma bootstrap_refuses {A} pages (fn : list AllocationPageRecord * list Z -> repo A) r r' res :
  (forall boot, refuses s (fn boot)) -> rStore r = s ->
  bind_act (prepareLegacyAllocationBootstrap (cmVolumeID req) pages) (fun boot => RunInTransaction (fn boot)) r
    = (r', res) -> is_ok res = false /\ rStore r' = s.
Proof using.
  intros Hfn Hr. unfold bind_act.
  destruct (prepareLegacyAllocationBootstrap _ _ r) as [r1 [boot|e|]] eqn:Hb; apply keeps_bootstrap in Hb;
    unfold same_on in Hb; intros H; [|by injection H as <- <-; rewrite Hb..].
  rewrite <- Hr, <- Hb. destruct (Hfn boot r1) as [e He']; [congruence|].
  unfold RunInTransaction in H. rewrite He' in H. injection H as <- <-. done.
Qed.

Lemma other_epoch_refused now commit r r' res : In commit (commits now) -> rStore r = s ->
  commit req r = (r', res) -> is_ok res = false /\ rStore r' = s.
Proof.
  intros [<-|[<-|[<-|[]]]] Hr; apply bootstrap_refuses; try done; intros boot.
  - apply refuses_bind, refuses_validate.
  - apply refuses_if; [apply refuses_fail|apply refuses_bind, refuses_validate_pages].
  - apply refuses_if; [apply refuses_fail|apply refuses_bind, refuses_validate_pages].
Qed.
End OtherEpoch.

Lemma add64_succ_ne e : add64 e 1 <> e.
Proof.
  unfold add64, wrap64. intros H. assert (0 <= e < 2 ^ 64) as He by (rewrite <- H; apply Z.mod_pos_bound; lia).
  destruct (decide (e = 2 ^ 64 - 1)) as [->|]; [done|]. rewrite Z.mod_small in H; lia.
Qed.

Lemma failover_Ok req r r' sr : CommitPrimaryFailover req r = (r', Ok sr) -> exists old oldset,
  stStates (rStore r) !! canon (pfVolumeID req) = Some old /\ vsEpoch old = pfExpectedVolumeEpoch req
  /\ stReplicaSets (rStore r) !! (canon (pfVolumeID req), pfReplicaSetID req) = Some oldset
  /\ rsEpoch oldset = pfExpectedReplicaSetEpoch req
  /\ rsPrimaryReplicaID oldset = pfExpectedPrimaryReplicaID req
  /\ applyPrimaryFailover old oldset req = Ok sr
  /\ stStates (rStore r') = <[canon (vsVolumeID old) := sr.1]> (stStates (rStore r)).
Proof.
  intros (r1 & old & [-> Hold]%read_state_Ok & H)%transaction_Ok%bind_act_inv.
  destruct (Z.eqb_spec (vsEpoch old) (pfExpectedVolumeEpoch req)); [|done]. cbn [negb] in H.
  apply bind_act_inv in H as (r2 & oldset & Hset & H).
  apply (get_record_Ok (fun s => stReplicaSets s !! (canon (pfVolumeID req), pfReplicaSetID req))) in Hset as [-> Hset].
  destruct (Z.eqb_spec (rsEpoch oldset) (pfExpectedReplicaSetEpoch req)); [|done].
  destruct (String.eqb_spec (rsPrimaryReplicaID oldset) (pfExpectedPrimaryReplicaID req)); [|done].
  cbn [negb orb] in H. apply bind_act_inv in H as (r2 & sr' & Hsr & H). injection Hsr as <- Hsr.
  apply bind_act_inv in H as (r3 & [] & Hw & H). injection Hw as <-.
  apply bind_act_inv in H as (r4 & [] & Hw & H). injection H as <- <-. exists old, oldset.
  assert (vsVolumeID sr'.1 = vsVolumeID old) as Hv.
  { unfold applyPrimaryFailover in Hsr. destruct (negb _); [done|]. by injection Hsr as <-. }
  repeat split; try done. unfold putReplicaSet in Hw. destruct (_ || _); [done|].
  injection Hw as <-. cbn. by rewrite Hv.
Qed.

(** C8: a primary failover fences the writes prepared before it.  It succeeds
    only on the volume epoch, replica-set epoch and primary it expects, and
    raises the volume epoch; from then on, as long as that epoch stands, every
    commit of a write that expects the epoch before the failover fails and
    leaves the store unchanged, in each of the repository's commit modes. *)
Theorem failover_fences_commits (now : Z) (freq : CommitPrimaryFailoverRequest)
    (r r' : Repository) (state : VolumeState) (replicaSet : ReplicaSetState)
    (Hk : keys_ok (rStore r)) (Hf : CommitPrimaryFailover freq r = (r', Ok (state, replicaSet))) :
  (exists old, stStates (rStore r) !! canon (pfVolumeID freq) = Some old
     /\ vsEpoch old = pfExpectedVolumeEpoch freq /\ vsEpoch state = add64 (vsEpoch old) 1
     /\ stStates (rStore r') !! canon (pfVolumeID freq) = Some state
     /\ rsPrimaryReplicaID replicaSet = pfNewPrimaryReplicaID freq)
  /\ forall commit req r2 st,
       In commit (commits now) ->
       canon (cmVolumeID req) = canon (pfVolumeID freq) ->
       cmExpectedEpoch req = pfExpectedVolumeEpoch freq ->
       stStates (rStore r2) !! canon (pfVolumeID freq) = Some st -> vsEpoch st = vsEpoch state ->
       is_ok (commit req r2).2 = false /\ rStore (commit req r2).1 = rStore r2.
Proof.
  apply failover_Ok in Hf as (old & oldset & H1 & H2 & H3 & H4 & H5 & H6 & H7).
  unfold applyPrimaryFailover in H6. destruct (negb _); [done|]. injection H6 as H6 H6'.
  rewrite (ko_states _ Hk _ _ H1) in H7. split.
  - exists old. rewrite H7, lookup_insert_eq. subst. done.
  - intros commit req r2 st Hin Hv He Hst Hep. rewrite <- Hv in Hst.
    destruct (commit req r2) as [r3 res] eqn:E. cbn.
    eapply (other_epoch_refused _ _ _ Hst); [|exact Hin|done|exact E].
    rewrite He, Hep, <- H6. cbn. rewrite H2. apply add64_succ_ne.
Qed.

(** ** A concrete volume *)

Definition vol1 : string := "00000001".
Definition state1 : VolumeState := zero_VolumeState <| vsVolumeID := vol1 |> <| vsEpoch := 1 |> <| vsRevision := 5 |>.
Definition pending1 (key : string) : IdempotencyRecord :=
  mkIdempotencyRecord key vol1 "att" 1 1 5 "write" IdempotencyPending.
Definition running1 (key : string) : MutationOperationRecord :=
  zero_MutationOperationRecord <| moOperationID := key |> <| moVolumeID := vol1 |> <| moKind := "write" |>
    <| moState := MutationOperationRunning |>.
Definition replica_set1 : ReplicaSetState :=
  zero_ReplicaSetState <| rsReplicaSetID := "rs" |> <| rsVolumeID := vol1 |> <| rsEpoch := 3 |>
    <| rsPrimaryReplicaID := "a" |>
    <| rsReplicas := [mkReplicaDescriptor "n1" "a" "primary" ""; mkReplicaDescriptor "n2" "b" "secondary" ""] |>.

(** An extent of four chunks 100..103, two per page, and no native page;
    two writes have begun, "w1" without its operation. *)
Definition legacy_repo : Repository :=
  mkRepository
    (mkStore {[vol1 := state1]} (<[(vol1, "w1") := pending1 "w1"]> {[(vol1, "w2") := pending1 "w2"]})
       {[(vol1, "w2") := running1 "w2"]} {["w2" := (vol1, "write")]} ∅
       {[(vol1, 0) := zero_ExtentMappingRecord <| emVolumeID := vol1 |> <| emLengthBytes := 16 |>
                        <| emChunkID := 100 |>]} {[(vol1, "rs") := replica_set1]} ∅ ∅ no_captures) ∅ false.

(** Maps page 0 to chunks 7 and 8. *)
Definition page0_update : AllocationPageRecord :=
  mkAllocationPageRecord vol1 0 8 4 0
    [zero_AllocationExtentRecord <| aeChunkCount := 2 |> <| aeKind := AllocationKindData |> <| aePhysicalChunkStart := 7 |>].
Definition commit1 (key : string) : CommitWriteMetadataRequest :=
  zero_CommitWriteMetadataRequest <| cmVolumeID := vol1 |> <| cmExpectedEpoch := 1 |> <| cmExpectedRevision := 5 |>
    <| cmIdempotencyKey := key |> <| cmExpectedIdempotencyState := IdempotencyPending |> <| cmCommittedRevision := 6 |>
    <| cmAllocationPages := [page0_update] |> <| cmMutationOperationID := key |>
    <| cmExpectedMutationState := MutationOperationRunning |>
    <| cmAffectedPageChunkRanges := [mkAllocationPageChunkRangeRecord 0 0 2] |>.

Lemma legacy_keys : keys_ok (rStore legacy_repo).
Proof.
  unfold legacy_repo. split; cbn [rStore stStates stIdem stOps].
  - intros v st [<- <-]%lookup_singleton_Some. done.
  - intros v k rec [[[= <- <-] <-]|[_ [[= <- <-] <-]%lookup_singleton_Some]]%lookup_insert_Some; done.
  - intros v k op [[= <- <-] <-]%lookup_singleton_Some. done.
Qed.

Lemma commit_write_cas_witness :
  vsRevision <$> stStates (rStore (CommitWriteMetadata 9 (commit1 "w2") legacy_repo).1) !! vol1 = Some 6.
Proof.
  destruct (CommitWriteMetadata 9 (commit1 "w2") legacy_repo) as [r' res] eqn:E.
  pose proof (commit_write_cas _ _ _ _ _ legacy_keys E) as H.
  assert (is_ok (CommitWriteMetadata 9 (commit1 "w2") legacy_repo).2 = true) as Hok by (vm_compute; reflexivity).
  rewrite E in Hok.
  destruct res as [[st rec]|e|]; [|discriminate..].
  destruct H as (old & oldrec & _ & _ & _ & _ & _ & Hst & _ & Hs & _). cbn. rewrite Hs.
  change (canon (cmVolumeID (commit1 "w2"))) with vol1. rewrite lookup_insert_eq, Hst. reflexivity.
Defined.

Definition failover1 : CommitPrimaryFailoverRequest := mkCommitPrimaryFailoverRequest vol1 "rs" 1 3 "a" "b".

Lemma failover_fences_commits_witness :
  is_ok (CommitPrimaryFailover failover1 legacy_repo).2 = true /\
  let r' := (CommitPrimaryFailover failover1 legacy_repo).1 in
  is_ok (CommitRangeLocalWriteState 9 (commit1 "w2") r').2 = false
  /\ is_ok (CommitRangeLocalWriteState 9 (commit1 "w2") legacy_repo).2 = true.
Proof.
  split; [reflexivity|]. cbv zeta. split; [|vm_compute; reflexivity].
  destruct (CommitPrimaryFailover failover1 legacy_repo) as [r' res] eqn:E.
  assert (is_ok (CommitPrimaryFailover failover1 legacy_repo).2 = true) as Hok by reflexivity.
  rewrite E in Hok. destruct res as [[st rs]|e|]; [|discriminate..].
  destruct (failover_fences_commits 9 _ _ _ _ _ legacy_keys E) as [(old & _ & _ & _ & Hs & _) H].
  apply (H (CommitRangeLocalWriteState 9) (commit1 "w2") r' st); [right; right; left; reflexivity|reflexivity..|exact Hs|reflexivity].
Defined.

(** A failed first commit loses the data of a volume that has extent mappings
    but no native pages yet.  The commit of "w1" fails and leaves the store as
    it was; but it has recorded the volume as native in memory, so the next
    commit does not bootstrap the other pages, and page 1, readable before as
    chunks 102 and 103, reads as zeroes.  Without the failed commit in between,
    the same commit keeps page 1. *)
Lemma failed_commit_loses_legacy_pages :
  let page1 r := page ← (GetCompatibleAllocationPage vol1 1 8 4 r).2;
                 chunks ← expandAllocationChunkMappingsWithHeaders page; Ok chunks.1 in
  let r1 := (CommitWriteMetadata 9 (commit1 "w1") legacy_repo).1 in
  page1 legacy_repo = Ok [102; 103]
  /\ (CommitWriteMetadata 9 (commit1 "w1") legacy_repo).2 = Err ErrNotFound
  /\ rStore r1 = rStore legacy_repo
  /\ is_ok (CommitWriteMetadata 9 (commit1 "w2") r1).2 = true
  /\ page1 (CommitWriteMetadata 9 (commit1 "w2") r1).1 = Ok [0; 0]
  /\ is_ok (CommitWriteMetadata 9 (commit1 "w2") legacy_repo).2 = true
  /\ page1 (CommitWriteMetadata 9 (commit1 "w2") legacy_repo).1 = Ok [102; 103].
Proof. vm_compute. repeat split; reflexivity. Qed.

End MetaRepoFacts.
