(* ===== verification/Executor.v ===== *)
(** * Executing a replicated write

    Models src/sbs/cluster/replication/executor.go (beginning a write with its
    idempotency record and mutation operation, committing its metadata in one of
    the commit modes, recovering a commit after a conflict, marking a write
    failed), [WriteService.Write] and [commitMetadataWithRetry] of service.go,
    and metadata/payload_gc.go (the operation that collects retired chunks).

    The stores, the planner and the replica writer are interfaces of the source;
    here [IntentStore] and the fields of [Executor], with the metadata
    repository as an instance.  All of them act on the same state [W], so an
    implementation may let other clients act between two calls.

    Left out: [beginWriteWithParallelPlan] (the same reads, made concurrently),
    deferred effects ([asyncWriteEffects]), the lock that serializes commits of
    one process, backoff and cancellation, logs, statistics and timings.  The
    clock is the argument [nowUnix] and an error's text is [err_text]. *)

From Stdlib Require Import ZArith Lia Ascii String.
From stdpp Require Import base list gmap strings sorting.
From S2P Require Import Prelude GoStrings SbsTypes MetaTypes AllocationCommit MetaPages MetaRepo WritePipeline.
Open Scope string_scope.
Open Scope Z_scope.

Module Exec.
Import Sbs Meta Allocation MetaPages Pipeline.

Inductive exec_error :=
| ErrIntentPending
| ErrIdempotencyConflict
| UnknownResultState (state : string)
| CommitterNotConfigured
| CloneIDRequired
| ClonePlannerNotConfigured
| CloneCommitterNotConfigured
| MetaErr (e : meta_error)
| PipelineErr (e : pipeline_error)
| PlannerErr (message : string).

(** [intentStore] and the optional [writeIntentStore]. *)
Class IntentStore (W : Type) := {
  isGetVolumeState : string -> act W meta_error VolumeState;
  isGetIdempotencyRecord : string -> string -> act W meta_error IdempotencyRecord;
  isPutIdempotencyRecord : IdempotencyRecord -> act W meta_error unit;
  isGetMutationOperation : string -> string -> act W meta_error MutationOperationRecord;
  isPutMutationOperation : MutationOperationRecord -> act W meta_error unit;
  isPutWriteIntent : option (IdempotencyRecord -> MutationOperationRecord -> act W meta_error unit) }.

#[export] Instance repository_intents : IntentStore MetaRepo.Repository := {|
  isGetVolumeState := MetaRepo.GetVolumeState;
  isGetIdempotencyRecord := MetaRepo.GetIdempotencyRecord;
  isPutIdempotencyRecord := MetaRepo.PutIdempotencyRecord;
  isGetMutationOperation := MetaRepo.GetMutationOperation;
  isPutMutationOperation := MetaRepo.PutMutationOperation;
  isPutWriteIntent := Some MetaRepo.PutWriteIntent |}.

Abbreviation committer W :=
  (CommitWriteMetadataRequest -> act W meta_error (VolumeState * IdempotencyRecord)).

Record Executor (W : Type) := mkExecutor {
  eAllocator : option (string -> Z -> act W meta_error Z);
  eCommitter : option (committer W);
  ePageScopedCommitter : option (committer W);
  eRangeLocalCommitter : option (committer W);
  eAppendOnlyCommitter : option (committer W);
  eEffectsApplier : option (ApplyCommittedWriteEffectsRequest -> act W meta_error unit);
  eCloneDeltaCommitter : option (string -> list AllocationPageRecord -> act W meta_error unit);
  ePlanWrite : string -> Z -> Z -> Z -> Z -> act W exec_error WritePlan;
  ePlanCloneWrite : option (string -> string -> Z -> Z -> Z -> Z -> act W exec_error WritePlan);
  ePreferPageScoped : bool; ePreferRangeLocal : bool; ePreferAppendOnly : bool;
  eAllowMissingWriteIntent : bool }.
Arguments eAllocator {W} _.
Arguments eCommitter {W} _.
Arguments ePageScopedCommitter {W} _.
Arguments eRangeLocalCommitter {W} _.
Arguments eAppendOnlyCommitter {W} _.
Arguments eEffectsApplier {W} _.
Arguments eCloneDeltaCommitter {W} _.
Arguments ePlanWrite {W} _.
Arguments ePlanCloneWrite {W} _.
Arguments ePreferPageScoped {W} _.
Arguments ePreferRangeLocal {W} _.
Arguments ePreferAppendOnly {W} _.
Arguments eAllowMissingWriteIntent {W} _.

Definition map_err_act {W E E' A} (f : E -> E') (m : act W E A) : act W E' A := fun s =>
  let '(s, r) := m s in (s, map_err f r).

Abbreviation meta m := (map_err_act MetaErr m).

(** [_ = f()]: the error is dropped. *)
Definition ignore_error {W E A} (m : act W E A) : act W E unit := fun s =>
  match m s with (s, Panic) => (s, Panic) | (s, _) => (s, Ok tt) end.

(** ** Pure helpers *)

Definition hex_bytes (s : string) : string :=
  string_of_list_ascii (concat (map (fun c => hex_loop 2 (code c) []) (list_ascii_of_string s))).

Definition writeMutationOperationID (idempotencyKey : string) : string := "write-" ++ hex_bytes idempotencyKey.

Definition newWriteMutationOperationRecord (state : VolumeState) (req : BeginWriteRequest) (nowUnix : Z)
  : MutationOperationRecord :=
  zero_MutationOperationRecord <| moOperationID := writeMutationOperationID (bwIdempotencyKey req) |>
    <| moVolumeID := bwVolumeID req |> <| moKind := "write" |> <| moState := MutationOperationRunning |>
    <| moAllocationRevision := vsRevision state |> <| moWriterFencingEpoch := vsEpoch state |>
    <| moIdempotencyKey := bwIdempotencyKey req |> <| moStartedAtUnix := nowUnix |>
    <| moLastUpdatedAtUnix := nowUnix |>.

Definition extentIDsForAllocationBackedCommit (exec : WriteExecution) : list Z :=
  merge_sort Z.le (remove_dups (map (fun st => emExtentID (wpExtent (esPlan st)))
    (List.filter (fun st => negb (zlen (wpAllocationPages (esPlan st)) =? 0)) (weExtents exec)))).

Definition normalizeExtentIDsForAllocationBackedCommit (exec : WriteExecution) : list Z :=
  merge_sort Z.le (remove_dups (map (fun st => emExtentID (wpExtent (esPlan st)))
    (List.filter (fun st => negb ((zlen (wpAllocationPages (esPlan st)) =? 0)
                                  || (emChunkID (wpExtent (esPlan st)) =? 0))) (weExtents exec)))).

Definition pageNosForAllocationCommit (pages : list AllocationPageRecord) : list Z :=
  merge_sort Z.le (remove_dups (map apPageNo pages)).

Definition writePlanHasAllocationPages (plan : WritePlan) : bool :=
  existsb (fun extent => 0 <? zlen (wpAllocationPages extent)) (wplExtents plan).

Record BeginWriteNoopResult := mkNoop {
  noVolumeID : string; noIdempotencyKey : string; noRevision : Z; noExtentCount : Z }.

Definition beginWriteNoopResult (req : BeginWriteRequest) (state : VolumeState) (plan : WritePlan)
  : BeginWriteNoopResult :=
  mkNoop (bwVolumeID req) (bwIdempotencyKey req) (vsRevision state) (zlen (wplExtents plan)).

(** [BeginWriteResult]: one of its three pointers is set. *)
Inductive BeginWriteResult :=
| BeginExecution (exec : WriteExecution)
| BeginReplay (record : IdempotencyRecord)
| BeginNoop (noop : BeginWriteNoopResult) (idempotencySkipped : bool).

(** The idempotency record of a request. *)
Definition request_record (state : VolumeState) (req : BeginWriteRequest) (resultState : string)
  : IdempotencyRecord :=
  mkIdempotencyRecord (bwIdempotencyKey req) (bwVolumeID req) (bwAttachmentID req) (bwGeneration req)
    (vsEpoch state) (vsRevision state) "write" resultState.

(** [unionSortedChunkIDs] and [unionSortedUint64s]. *)
Definition unionSortedChunkIDs (left right : list Z) : list Z := uniqueSortedUint64s (left ++ right)%list.
Definition unionSortedUint64s (left right : list Z) : list Z :=
  merge_sort Z.le (remove_dups (left ++ right)%list).

Definition PayloadGCMutationOperationID (volumeID : string) : string := "payload-gc-" ++ volumeID.

Open Scope act_scope.

Section Execute.
Context {W : Type} `{!IntentStore W} (e : Executor W) (nowUnix : Z) (err_text : exec_error -> string).

(** ** Payload garbage collection *)

Definition EnsurePendingPayloadGCMutationOperation (volumeID : string)
    (affectedExtentIDs affectedPageNos retiredPhysicalChunkIDs : list Z) : act W meta_error unit :=
  let affectedExtentIDs := uniqueSortedUint64s affectedExtentIDs in
  let affectedPageNos := merge_sort Z.le (remove_dups affectedPageNos) in
  let retired := uniqueSortedUint64s retiredPhysicalChunkIDs in
  if zlen retired =? 0 then ret_act tt else
  volumeState <-- isGetVolumeState volumeID;
  let operationID := PayloadGCMutationOperationID volumeID in
  (fun s =>
    match isGetMutationOperation volumeID operationID s with
    | (s, Ok operation) =>
        let operation := operation <| moOperationID := operationID |> <| moVolumeID := volumeID |>
          <| moKind := "payload_gc" |> <| moAllocationRevision := vsRevision volumeState |>
          <| moWriterFencingEpoch := vsEpoch volumeState |> <| moIdempotencyKey := volumeID |>
          <| moLastUpdatedAtUnix := nowUnix |> in
        let active := String.eqb (moState operation) MutationOperationPending
                      || String.eqb (moState operation) MutationOperationRunning in
        isPutMutationOperation
          (if active then
             operation
               <| moAffectedExtentIDs := unionSortedChunkIDs (moAffectedExtentIDs operation) affectedExtentIDs |>
               <| moAffectedPageNos := unionSortedUint64s (moAffectedPageNos operation) affectedPageNos |>
               <| moRetiredPhysicalChunkIDs :=
                    unionSortedChunkIDs (moRetiredPhysicalChunkIDs operation) retired |>
               <| moStartedAtUnix := if moStartedAtUnix operation =? 0 then nowUnix
                                     else moStartedAtUnix operation |>
           else
             operation <| moState := MutationOperationPending |> <| moStartedAtUnix := nowUnix |>
               <| moErrorMessage := "" |> <| moAffectedExtentIDs := affectedExtentIDs |>
               <| moAffectedPageNos := affectedPageNos |> <| moRetiredPhysicalChunkIDs := retired |>) s
    | (s, Err ErrNotFound) =>
        isPutMutationOperation
          (zero_MutationOperationRecord <| moOperationID := operationID |> <| moVolumeID := volumeID |>
             <| moKind := "payload_gc" |> <| moState := MutationOperationPending |>
             <| moAllocationRevision := vsRevision volumeState |>
             <| moWriterFencingEpoch := vsEpoch volumeState |> <| moIdempotencyKey := volumeID |>
             <| moAffectedExtentIDs := affectedExtentIDs |> <| moAffectedPageNos := affectedPageNos |>
             <| moStartedAtUnix := nowUnix |> <| moLastUpdatedAtUnix := nowUnix |>
             <| moRetiredPhysicalChunkIDs := retired |>) s
    | (s, Err err) => (s, Err err)
    | (s, Panic) => (s, Panic)
    end).

(** ** Beginning a write *)

Definition canUseMissingWriteIntent (plan : WritePlan) : bool :=
  eAllowMissingWriteIntent e && ePreferAppendOnly e && isSome (eAppendOnlyCommitter e)
  && writePlanHasAllocationPages plan.

Definition planWrite (req : BeginWriteRequest) : act W exec_error WritePlan :=
  ePlanWrite e (bwVolumeID req) (bwOffsetBytes req) (bwLengthBytes req) (bwPageBytes req)
    (bwChunkSizeBytes req).

Definition prepare_allocations (plan : WritePlan) (req : BeginWriteRequest) : act W exec_error WritePlan :=
  map_err_act (fun err => PipelineErr (AllocationFailed err))
    (prepareWritePlanAllocations
       (option_map (fun allocate v n => map_err_act (fun _ => AllocatorError) (allocate v n)) (eAllocator e))
       plan req).

(** The execution of a planned write whose intent is pending. *)
Definition pending_execution (state : VolumeState) (req : BeginWriteRequest) (plan : WritePlan)
  : WriteExecution :=
  MarkIntentPending (MarkValidated
    (NewWriteExecution plan (bwRequestID req) (bwAttachmentID req) (bwGeneration req)
       (bwIdempotencyKey req) (vsEpoch state) (vsRevision state)))
  <| weMutationOperation := newWriteMutationOperationRecord state req nowUnix |>.

Definition putWriteIntent (record : IdempotencyRecord) (operation : MutationOperationRecord)
  : act W exec_error unit :=
  match isPutWriteIntent with
  | Some put => meta (put record operation)
  | None => meta (isPutIdempotencyRecord record);; meta (isPutMutationOperation operation)
  end.

Definition beginWriteZeroNoop (state : VolumeState) (req : BeginWriteRequest) (plan : WritePlan)
  : act W exec_error BeginWriteResult :=
  if bwUnsafeZeroNoopSkipIdempotency req
  then ret_act (BeginNoop (beginWriteNoopResult req state plan) true) else
  meta (isPutIdempotencyRecord (request_record state req IdempotencyCommitted));;
  ret_act (BeginNoop (beginWriteNoopResult req state plan) false).

Definition beginRecoverablePendingWriteWithPlan (state : VolumeState) (req : BeginWriteRequest)
    (plan : WritePlan) : act W exec_error BeginWriteResult :=
  plan <-- prepare_allocations plan req;
  let exec := pending_execution state req plan in
  meta (isPutMutationOperation (weMutationOperation exec));;
  ret_act (BeginExecution exec).

Definition beginNewWriteWithPlan (state : VolumeState) (req : BeginWriteRequest) (plan : WritePlan)
  : act W exec_error BeginWriteResult :=
  if writePlanIsZeroNoop plan req then beginWriteZeroNoop state req plan else
  plan <-- prepare_allocations plan req;
  let exec := pending_execution state req plan in
  if canUseMissingWriteIntent plan
  then ret_act (BeginExecution (exec <| weAllowMissingWriteIntent := true |>)) else
  putWriteIntent (request_record state req IdempotencyPending) (weMutationOperation exec);;
  ret_act (BeginExecution exec).

(** The answer of the idempotency lookup, [None] when there is no record. *)
Definition lookup_idempotency (req : BeginWriteRequest) : act W exec_error (option IdempotencyRecord) :=
  fun s =>
  match isGetIdempotencyRecord (bwVolumeID req) (bwIdempotencyKey req) s with
  | (s, Ok record) => (s, Ok (Some record))
  | (s, Err ErrNotFound) => (s, Ok None)
  | (s, Err err) => (s, Err (MetaErr err))
  | (s, Panic) => (s, Panic)
  end.

(** A committed record: replayed once its operation is committed or gone. *)
Definition replay (req : BeginWriteRequest) (existing : IdempotencyRecord)
  : act W exec_error BeginWriteResult := fun s =>
  match isGetMutationOperation (bwVolumeID req) (writeMutationOperationID (bwIdempotencyKey req)) s with
  | (s, Ok operation) =>
      if negb (String.eqb (moState operation) MutationOperationCommitted)
      then (s, Err ErrIntentPending) else (s, Ok (BeginReplay existing))
  | (s, Err ErrNotFound) => (s, Ok (BeginReplay existing))
  | (s, Err err) => (s, Err (MetaErr err))
  | (s, Panic) => (s, Panic)
  end.

(** The end of [BeginWrite], for a request without a live record. *)
Definition begin_fresh (state : VolumeState) (req : BeginWriteRequest) (planned : option WritePlan)
  : act W exec_error BeginWriteResult :=
  plan <-- match planned with Some plan => ret_act plan | None => planWrite req end;
  if writePlanIsZeroNoop plan req then beginWriteZeroNoop state req plan else
  plan <-- prepare_allocations plan req;
  let exec := pending_execution state req plan in
  putWriteIntent (request_record state req IdempotencyPending) (weMutationOperation exec);;
  ret_act (BeginExecution exec).

(** [BeginWrite] from the idempotency lookup on. *)
Definition begin_with_lookup (state : VolumeState) (req : BeginWriteRequest) (planned : option WritePlan)
  : act W exec_error BeginWriteResult :=
  found <-- lookup_idempotency req;
  match found with
  | None => begin_fresh state req planned
  | Some existing =>
      if negb (String.eqb (idAttachmentID existing) (bwAttachmentID req))
         || negb (idGeneration existing =? bwGeneration req)
         || negb (String.eqb (idOperation existing) "write") then fail_act ErrIdempotencyConflict else
      if String.eqb (idResultState existing) IdempotencyCommitted then replay req existing else
      if String.eqb (idResultState existing) IdempotencyPending then
        plan <-- match planned with Some plan => ret_act plan | None => planWrite req end;
        beginRecoverablePendingWriteWithPlan state req plan
      else
      if String.eqb (idResultState existing) IdempotencyFailed then begin_fresh state req planned
      else fail_act (UnknownResultState (idResultState existing))
  end.

Definition BeginWrite (req : BeginWriteRequest) : act W exec_error BeginWriteResult :=
  state <-- meta (isGetVolumeState (bwVolumeID req));
  if eAllowMissingWriteIntent e then
    plan <-- planWrite req;
    if negb (writePlanIsZeroNoop plan req) && canUseMissingWriteIntent plan
    then beginNewWriteWithPlan state req plan
    else begin_with_lookup state req (Some plan)
  else begin_with_lookup state req None.

Definition BeginCloneWrite (req : BeginWriteRequest) : act W exec_error BeginWriteResult :=
  state <-- meta (isGetVolumeState (bwVolumeID req));
  if String.eqb (bwCloneID req) "" then fail_act CloneIDRequired else
  match ePlanCloneWrite e with
  | None => fail_act ClonePlannerNotConfigured
  | Some planClone =>
      plan <-- planClone (bwCloneID req) (bwVolumeID req) (bwOffsetBytes req) (bwLengthBytes req)
                 (bwPageBytes req) (bwChunkSizeBytes req);
      plan <-- prepare_allocations plan req;
      ret_act (BeginExecution (MarkIntentPending (MarkValidated
        (NewWriteExecution plan (bwRequestID req) (bwAttachmentID req) (bwGeneration req)
           (bwIdempotencyKey req) (vsEpoch state) (vsRevision state)))))
  end.

(** ** Committing *)

Definition use_mode (prefer : bool) (c : option (committer W)) (pages : list AllocationPageRecord) : bool :=
  prefer && isSome c && (0 <? zlen pages).

Definition usePageScopedWriteMetadata := use_mode (ePreferPageScoped e) (ePageScopedCommitter e).
Definition useRangeLocalWriteState (pages : list AllocationPageRecord) : bool :=
  use_mode (ePreferRangeLocal e) (eRangeLocalCommitter e) pages && isSome (eEffectsApplier e).
Definition useAppendOnlyServiceWriteEffects := use_mode (ePreferAppendOnly e) (eAppendOnlyCommitter e).

(** [commitRangeLocalWriteStateAndEffects] with the effects applied at once. *)
Definition commitRangeLocalWriteStateAndEffects (commit : committer W)
    (apply : ApplyCommittedWriteEffectsRequest -> act W meta_error unit) (req : CommitWriteMetadataRequest)
  : act W meta_error (VolumeState * IdempotencyRecord) :=
  sr <-- commit req;
  let committedRevision := if idRevision sr.2 =? 0 then cmCommittedRevision req else idRevision sr.2 in
  apply (EffectsApplyRequest req <| ceCommittedRevision := committedRevision |>);;
  ret_act sr.

(** [splitWriteMetadataCommitter.CommitWriteMetadata] with the effects applied at once. *)
Definition splitWriteMetadataCommitter
    (commitState : CommitWriteStateRequest -> act W meta_error (VolumeState * IdempotencyRecord))
    (apply : ApplyCommittedWriteEffectsRequest -> act W meta_error unit) (req : CommitWriteMetadataRequest)
  : act W meta_error (VolumeState * IdempotencyRecord) :=
  sr <-- commitState (StateCommitRequest req);
  let committedRevision := if idRevision sr.2 =? 0 then cmCommittedRevision req else idRevision sr.2 in
  apply (EffectsApplyRequest req <| ceCommittedRevision := committedRevision |>);;
  ret_act sr.

(** The committer of [CommitMetadata], by mode. *)
Definition commit_request (commit : committer W) (pages : list AllocationPageRecord)
    (req : CommitWriteMetadataRequest) : act W meta_error (VolumeState * IdempotencyRecord) :=
  match useAppendOnlyServiceWriteEffects pages, eAppendOnlyCommitter e,
        useRangeLocalWriteState pages, eRangeLocalCommitter e, eEffectsApplier e,
        usePageScopedWriteMetadata pages, ePageScopedCommitter e with
  | true, Some c, _, _, _, _, _ => c req
  | _, _, true, Some c, Some apply, _, _ => commitRangeLocalWriteStateAndEffects c apply req
  | _, _, _, _, _, true, Some c => c req
  | _, _, _, _, _, _, _ => commit req
  end.

Definition effects_request (exec : WriteExecution) (revision : Z) (pages : list AllocationPageRecord)
    (retired : list Z) (ranges : list AllocationPageChunkRangeRecord) : ApplyCommittedWriteEffectsRequest :=
  mkApplyCommittedWriteEffectsRequest (weVolumeID exec) revision pages
    (normalizeExtentIDsForAllocationBackedCommit exec) (writeMutationOperationID (weIdempotencyKey exec))
    MutationOperationRunning (extentIDsForAllocationBackedCommit exec) (pageNosForAllocationCommit pages)
    ranges retired zero_MutationOperationRecord.

(** [Some revision] when the conflicting commit turns out to be this write's own. *)
Definition recoverCommittedWriteAfterCAS (exec : WriteExecution) (pages : list AllocationPageRecord)
    (retired : list Z) (ranges : list AllocationPageChunkRangeRecord) : act W meta_error (option Z) := fun s =>
  match isGetIdempotencyRecord (weVolumeID exec) (weIdempotencyKey exec) s with
  | (s, Err ErrNotFound) => (s, Ok None)
  | (s, Err err) => (s, Err err)
  | (s, Panic) => (s, Panic)
  | (s, Ok record) =>
      if negb (String.eqb (idAttachmentID record) (weAttachmentID exec))
         || negb (idGeneration record =? weGeneration exec)
         || negb (String.eqb (idOperation record) "write") then (s, Ok None) else
      if negb (String.eqb (idResultState record) IdempotencyCommitted) then (s, Ok None) else
      match isGetMutationOperation (weVolumeID exec) (writeMutationOperationID (weIdempotencyKey exec)) s with
      | (s, Err ErrNotFound) => (s, Ok (Some (idRevision record)))
      | (s, Err err) => (s, Err err)
      | (s, Panic) => (s, Panic)
      | (s, Ok operation) =>
          if String.eqb (moState operation) MutationOperationCommitted
          then (s, Ok (Some (idRevision record))) else
          match eEffectsApplier e with
          | None => (s, Ok None)
          | Some apply =>
              (apply (effects_request exec (idRevision record) pages retired ranges);;
               ret_act (Some (idRevision record))) s
          end
      end
  end.

(** The end of a successful commit: the execution, and the retired chunks to collect. *)
Definition after_commit (exec : WriteExecution) (pages : list AllocationPageRecord) (retired : list Z)
    (revision : Z) : act W exec_error (WriteExecution * Z) :=
  match MarkMetadataCommitted exec with
  | (exec, Ok _) =>
      meta (ignore_error (EnsurePendingPayloadGCMutationOperation (weVolumeID exec)
        (extentIDsForAllocationBackedCommit exec) (pageNosForAllocationCommit pages) retired));;
      ret_act (exec, revision)
  | (_, Err err) => fail_act (PipelineErr err)
  | (_, Panic) => lift_act Panic
  end.

(** The epoch and revision the commit expects. *)
Definition expected_versions (exec : WriteExecution) : act W exec_error (Z * Z) :=
  if (weMetadataEpoch exec =? 0) || (weMetadataRevision exec =? 0) then
    state <-- meta (isGetVolumeState (weVolumeID exec));
    ret_act (if weMetadataEpoch exec =? 0 then vsEpoch state else weMetadataEpoch exec,
             if weMetadataRevision exec =? 0 then vsRevision state else weMetadataRevision exec)
  else ret_act (weMetadataEpoch exec, weMetadataRevision exec).

Definition commit_metadata_request (exec : WriteExecution) (epoch revision : Z)
    (pages : list AllocationPageRecord) (retired : list Z) (ranges : list AllocationPageChunkRangeRecord)
  : CommitWriteMetadataRequest :=
  mkCommitWriteMetadataRequest (weVolumeID exec) epoch revision (weIdempotencyKey exec) IdempotencyPending
    (add64 revision 1) (weAttachmentID exec) (weGeneration exec) (weAllowMissingWriteIntent exec) pages
    (normalizeExtentIDsForAllocationBackedCommit exec) (writeMutationOperationID (weIdempotencyKey exec))
    MutationOperationRunning (extentIDsForAllocationBackedCommit exec) (pageNosForAllocationCommit pages)
    ranges retired (weMutationOperation exec).

Definition CommitMetadata (exec : WriteExecution) (pages : list AllocationPageRecord) (retired : list Z)
    (ranges : list AllocationPageChunkRangeRecord) : act W exec_error (WriteExecution * Z) :=
  if negb (CanCommitMetadata exec) then fail_act (PipelineErr NotReadyForCommit) else
  match eCommitter e with
  | None => fail_act CommitterNotConfigured
  | Some commit =>
      versions <-- expected_versions exec;
      (fun s =>
        match commit_request commit pages
                (commit_metadata_request exec versions.1 versions.2 pages retired ranges) s with
        | (s, Ok sr) => after_commit exec pages retired (idRevision sr.2) s
        | (s, Err ErrCASConflict) =>
            match recoverCommittedWriteAfterCAS exec pages retired ranges s with
            | (s, Ok (Some revision)) => after_commit exec pages retired revision s
            | (s, Ok None) => (s, Err (MetaErr ErrCASConflict))
            | (s, Err err) => (s, Err (MetaErr err))
            | (s, Panic) => (s, Panic)
            end
        | (s, Err err) => (s, Err (MetaErr err))
        | (s, Panic) => (s, Panic)
        end)
  end.

Definition CommitCloneDeltaMetadata (exec : WriteExecution) (cloneID : string)
    (pages : list AllocationPageRecord) : act W exec_error WriteExecution :=
  if negb (CanCommitMetadata exec) then fail_act (PipelineErr NotReadyForCommit) else
  match eCloneDeltaCommitter e with
  | None => fail_act CloneCommitterNotConfigured
  | Some commit =>
      meta (commit cloneID pages);;
      match MarkMetadataCommitted exec with
      | (exec, Ok _) => ret_act exec
      | (_, Err err) => fail_act (PipelineErr err)
      | (_, Panic) => lift_act Panic
      end
  end.

(** [Executor.MarkFailed]; the caller drops its error. *)
Definition MarkFailed (exec : WriteExecution) (err : exec_error) : act W meta_error unit :=
  state <-- isGetVolumeState (weVolumeID exec);
  isPutIdempotencyRecord
    (mkIdempotencyRecord (weIdempotencyKey exec) (weVolumeID exec) (weAttachmentID exec) (weGeneration exec)
       (vsEpoch state) (vsRevision state) "write" IdempotencyFailed);;
  isPutMutationOperation
    (zero_MutationOperationRecord <| moOperationID := writeMutationOperationID (weIdempotencyKey exec) |>
       <| moVolumeID := weVolumeID exec |> <| moKind := "write" |> <| moState := MutationOperationFailed |>
       <| moAllocationRevision := vsRevision state |> <| moWriterFencingEpoch := vsEpoch state |>
       <| moIdempotencyKey := weIdempotencyKey exec |> <| moStartedAtUnix := nowUnix |>
       <| moLastUpdatedAtUnix := nowUnix |> <| moErrorMessage := TrimSpace (err_text err) |>).

(** ** WriteService *)

Definition rebaseWritePlanForRetry (exec : WriteExecution) (req : WriteRequest)
  : act W exec_error WriteExecution :=
  if zlen (weExtents exec) =? 0 then ret_act exec else
  state <-- meta (isGetVolumeState (wrVolumeID req));
  latestPlan <-- ePlanWrite e (wrVolumeID req) (wrOffsetBytes req) (wrLengthBytes req) (wrPageBytes req)
                   (wrChunkSizeBytes req);
  map_err_act (fun err => PipelineErr (AllocationFailed err))
    (lift_act (rebase_execution (vsEpoch state) (vsRevision state) latestPlan req exec)).

Definition prepared := (list AllocationPageRecord * list Z * list AllocationPageChunkRangeRecord)%type.

Definition prepare_commit (exec : WriteExecution) (req : WriteRequest) : act W exec_error prepared :=
  map_err_act (fun err => PipelineErr (AllocationFailed err)) (lift_act (PrepareAllocationCommit exec req)).

Definition writeMetadataCommitMaxAttempts : nat := 64.

Definition isRetryableMetadataCommitError (err : exec_error) : bool :=
  match err with MetaErr ErrCASConflict => true | _ => false end.

(** [attempts] are left. *)
Fixpoint commit_attempts (attempts : nat) (exec : WriteExecution) (req : WriteRequest) (p : prepared)
  : act W exec_error (WriteExecution * Z) := fun s =>
  match attempts with
  | O => (s, Panic)
  | S attempts =>
      match CommitMetadata exec p.1.1 p.1.2 p.2 s with
      | (s, Err err) =>
          if negb (isRetryableMetadataCommitError err) || Nat.eqb attempts 0 then (s, Err err) else
          (exec <-- rebaseWritePlanForRetry exec req;
           p <-- prepare_commit exec req;
           commit_attempts attempts exec req p) s
      | res => res
      end
  end.

Definition commitMetadataWithRetry : WriteExecution -> WriteRequest -> prepared ->
    act W exec_error (WriteExecution * Z) := commit_attempts writeMetadataCommitMaxAttempts.

Record WriteResponse := mkWriteResponse {
  wsState : WritePipelineState; wsReplay : bool; wsCommitted : bool; wsVolumeID : string;
  wsCloneID : string; wsIdempotencyKey : string; wsRevision : Z }.

Definition begin_request (req : WriteRequest) : BeginWriteRequest :=
  mkBeginWriteRequest (wrVolumeID req) (wrCloneID req) (wrRequestID req) (wrAttachmentID req)
    (wrGeneration req) (wrIdempotencyKey req) (wrOffsetBytes req) (wrLengthBytes req) (wrPageBytes req)
    (wrChunkSizeBytes req) (wrZeroSemantic req) (wrAllowZeroNoop req)
    (wrUnsafeZeroNoopSkipIdempotency req).

Context (writer : ExtentWritePlan -> ReplicaWriteRequest -> act W pipeline_error (option ReplicaWriteResult)).

(** The payload, prepare and commit phases of an execution. *)
Definition run_execution (req : WriteRequest) (exec : WriteExecution) : act W exec_error WriteResponse :=
  exec <-- map_err_act PipelineErr (write_payload writer req exec);
  p <-- prepare_commit exec req;
  er <-- (if negb (String.eqb (wrCloneID req) "")
          then exec <-- CommitCloneDeltaMetadata exec (wrCloneID req) p.1.1; ret_act (exec, 0)
          else commitMetadataWithRetry exec req p);
  match MarkAcked er.1 with
  | (exec, Ok _) => ret_act (mkWriteResponse (weState exec) false true (weVolumeID exec) (wrCloneID req)
                               (weIdempotencyKey exec) er.2)
  | (_, Err err) => fail_act (PipelineErr err)
  | (_, Panic) => lift_act Panic
  end.

Definition Write (req : WriteRequest) : act W exec_error WriteResponse :=
  begin <-- (if negb (String.eqb (wrCloneID req) "") then BeginCloneWrite (begin_request req)
             else BeginWrite (begin_request req));
  match begin with
  | BeginReplay record =>
      ret_act (mkWriteResponse Acked true (String.eqb (idResultState record) IdempotencyCommitted)
                 (idVolumeID record) (wrCloneID req) (idIdempotencyKey record) (idRevision record))
  | BeginNoop noop _ =>
      ret_act (mkWriteResponse Acked false true (wrVolumeID req) (wrCloneID req) (wrIdempotencyKey req)
                 (noRevision noop))
  | BeginExecution exec => fun s =>
      match run_execution req exec s with
      | (s, Err err) =>
          if negb (String.eqb (wrCloneID req) "") then (s, Err err)
          else (ignore_error (meta (MarkFailed exec err));; fail_act err) s
      | res => res
      end
  end.

Definition WriteClone (cloneID : string) (req : WriteRequest) : act W exec_error WriteResponse :=
  Write (req <| wrCloneID := cloneID |>).

End Execute.

Definition repository_committer (nowUnix : Z) (split : bool) : committer MetaRepo.Repository :=
  if split then splitWriteMetadataCommitter MetaRepo.CommitWriteState
                  (MetaRepo.ApplyCommittedWriteEffects nowUnix)
  else MetaRepo.CommitWriteMetadata nowUnix.

(** The executors for a repository, no commit mode preferred: with [split],
    that of [NewExecutorWithStores] with the repository for every store, else
    that of [NewExecutor]. *)
Definition repository_executor (nowUnix : Z) (split : bool)
    (plan : string -> Z -> Z -> Z -> Z -> act MetaRepo.Repository exec_error WritePlan)
    (planClone : option (string -> string -> Z -> Z -> Z -> Z -> act MetaRepo.Repository exec_error WritePlan))
    (appendOnly : option (committer MetaRepo.Repository))
    (cloneDelta : option (string -> list AllocationPageRecord -> act MetaRepo.Repository meta_error unit))
  : Executor MetaRepo.Repository :=
  mkExecutor _ (Some MetaRepo.AllocateChunkIDs)
    (Some (repository_committer nowUnix split))
    (Some (MetaRepo.CommitPageScopedWriteMetadata nowUnix))
    (Some (MetaRepo.CommitRangeLocalWriteState nowUnix)) appendOnly
    (Some (MetaRepo.ApplyCommittedWriteEffects nowUnix)) cloneDelta plan planClone false false false false.

End Exec.
