(* ===== verification/ExecutorFacts.v ===== *)
(** * Replicated writes happen once

    A write that succeeded is answered from its idempotency record when the
    client sends it again, and what goes wrong when a zero write has to retry
    its commit. *)

From Stdlib Require Import ZArith Lia Ascii String.
From stdpp Require Import base list gmap strings sorting.
From S2P Require Import Prelude GoStrings VolumeId SbsTypes MetaTypes AllocationCommit MetaPages MetaRepo MetaRepoFacts WritePipeline Executor.
Open Scope string_scope.
Open Scope Z_scope.

Module ExecutorFacts.
Import Sbs Meta Allocation MetaPages MetaRepo MetaRepoFacts Pipeline Exec.

(** ** Identifiers *)

(** Volume ids in keys: a valid id and its canonical form name the same key. *)
Lemma canon_trimmed v w : canon w = canon v -> is_ok (VolumeId.Parse v) = true ->
  canon (canon (TrimSpace w)) = canon v.
Proof.
  assert (forall x p, VolumeId.Parse x = Ok p -> canon (canon (TrimSpace x)) = canon x) as Hvalid.
  { intros x p Hp. assert (VolumeId.Parse (TrimSpace x) = Ok p) as Ht.
    { unfold VolumeId.Parse in *. by rewrite TrimSpace_idem. }
    unfold mustCanonicalVolumeID at 2 3. rewrite Ht, Hp. unfold mustCanonicalVolumeID.
    rewrite VolumeId.Parse_format. unfold VolumeId.Format, wrap32. by rewrite Z.mod_mod. }
  intros Hw Hv. destruct (VolumeId.Parse v) as [p|?|] eqn:Ep; [|done..].
  destruct (VolumeId.Parse w) as [q|?|] eqn:Eq; [by rewrite (Hvalid _ _ Eq)| |];
    exfalso; unfold mustCanonicalVolumeID in Hw; rewrite Ep, Eq in Hw; subst w;
    by rewrite VolumeId.Parse_format in Eq.
Qed.

Lemma write_id_chars key : exists l, Forall lower_hex l /\
  writeMutationOperationID key = string_of_list_ascii (list_ascii_of_string "write-" ++ l)%list.
Proof.
  unfold writeMutationOperationID, hex_bytes. eexists. split.
  2: { apply string_chars_inj. by rewrite chars_app, !list_ascii_of_string_of_list_ascii. }
  apply Forall_concat, Forall_forall. intros l (c & -> & _)%list_elem_of_fmap. by apply hex_loop_digits.
Qed.

Lemma write_id_trimmed key : TrimSpace (writeMutationOperationID key) = writeMutationOperationID key.
Proof.
  destruct (write_id_chars key) as (l & Hl & ->). apply VolumeId.TrimSpace_graphic, Forall_app.
  split; [|by apply VolumeId.lower_graphic]. repeat constructor; vm_compute; done.
Qed.

Lemma write_id_nonempty key : String.eqb (writeMutationOperationID key) "" = false.
Proof. done. Qed.

(** The trimmed text is a prefix of a text that starts with a letter. *)
Lemma trimmed_gc_id v key : TrimSpace (PayloadGCMutationOperationID v) <> writeMutationOperationID key.
Proof.
  intros H%(f_equal list_ascii_of_string). unfold TrimSpace in H.
  rewrite list_ascii_of_string_of_list_ascii in H. unfold trim_right in H.
  change (list_ascii_of_string (PayloadGCMutationOperationID v))
    with ("p" :: "a" :: "y" :: list_ascii_of_string ("load-gc-" ++ v))%char in H.
  rewrite trim_left_3 in H. change (space1 "p") with false in H. change (space2 "p" "a") with false in H.
  change (space3 "p" "a" "y") with false in H. cbv iota in H.
  destruct (trim_right_rev_suffix (reverse ("p" :: "a" :: "y" :: list_ascii_of_string ("load-gc-" ++ v))%char)) as [q Hq].
  apply (f_equal reverse) in Hq. rewrite reverse_involutive, reverse_app, H in Hq. discriminate.
Qed.

(** ** Frames *)

(** The records of the write [key] of volume [v] are as they were. *)
Record undisturbed (v key : string) (r r' : Repository) : Prop := {
  ud_keys : keys_ok (rStore r) -> keys_ok (rStore r');
  ud_state : is_Some (stStates (rStore r) !! canon v) -> is_Some (stStates (rStore r') !! canon v);
  ud_idem : stIdem (rStore r') !! (canon v, key) = stIdem (rStore r) !! (canon v, key);
  ud_op : stOps (rStore r') !! (canon v, writeMutationOperationID key)
          = stOps (rStore r) !! (canon v, writeMutationOperationID key) }.

#[export] Instance undisturbed_refl v key : Reflexive (undisturbed v key).
Proof. by split. Qed.
#[export] Instance undisturbed_trans v key : Transitive (undisturbed v key).
Proof. intros a b c [] []. split; [auto|auto|congruence|congruence]. Qed.

Lemma same_records_undisturbed v key r r' : same_records r r' -> undisturbed v key r r'.
Proof. intros H. pose proof (same_records_keys _ _ H). injection H as H1 H2 H3. split; [done|by rewrite H1..| |]; congruence. Qed.

Lemma same_store_undisturbed v key r r' : rStore r' = rStore r -> undisturbed v key r r'.
Proof. intros H. apply same_records_undisturbed. unfold same_on. by rewrite H. Qed.

Lemma keeps_map_err {E E' A} R (f : E -> E') (m : act Repository E A) : keeps R m -> keeps R (map_err_act f m).
Proof. intros Hm r r' res. unfold map_err_act. destruct (m r) as [r1 x] eqn:Em. intros [= <- _]. by eapply Hm. Qed.

Lemma keeps_ignore {E A} R (m : act Repository E A) : keeps R m -> keeps R (ignore_error m).
Proof. intros Hm r r' res. unfold ignore_error. destruct (m r) as [r1 [a|e|]] eqn:Em; intros [= <- _]; by eapply Hm. Qed.
#[export] Hint Resolve keeps_map_err keeps_ignore : frames.

Lemma map_err_Ok {W E E' A} (f : E -> E') (m : act W E A) s s' a :
  map_err_act f m s = (s', Ok a) -> m s = (s', Ok a).
Proof. unfold map_err_act. destruct (m s) as [s1 [x|e|]]; by intros [= <- <-]. Qed.

Lemma allocate_undisturbed v key vol n : keeps (undisturbed v key) (AllocateChunkIDs vol n).
Proof.
  eapply keeps_sub; [apply same_records_undisturbed|]. unfold AllocateChunkIDs. frame; [|by apply keeps_put].
  by intros r r' res [= <- _].
Qed.

(** Writing an operation touches no other one. *)
Lemma write_op_Ok rec r r' u : writeMutationOperationWithIndex rec r = (r', Ok u) ->
  stOps (rStore r') = <[(canon (maintenanceIndexVolumeID (moVolumeID rec)), TrimSpace (moOperationID rec)) :=
      rec <| moOperationID := TrimSpace (moOperationID rec) |>
          <| moVolumeID := maintenanceIndexVolumeID (moVolumeID rec) |>]> (stOps (rStore r)).
Proof.
  unfold writeMutationOperationWithIndex. destruct (_ || _); [done|]. destruct (negb _); [done|].
  destruct (stOpIndex _ !! _) as [x|]; [destruct (_ || _); [done|]|]; by intros [= <- _].
Qed.

Lemma put_op_undisturbed v key rec : TrimSpace (moOperationID rec) <> writeMutationOperationID key ->
  keeps (undisturbed v key) (PutMutationOperation rec).
Proof.
  intros Hne r r' res H. unfold PutMutationOperation in H.
  destruct res as [u|e|]; [apply transaction_Ok in H|by eapply same_store_undisturbed, transaction_failed..].
  pose proof (keeps_write_operation _ _ _ _ H) as Hs. injection Hs as H1 H2. split.
  - by eapply write_op_index_keys.
  - by rewrite H1.
  - by rewrite H2.
  - rewrite (write_op_Ok _ _ _ _ H). apply lookup_insert_ne. by intros [= _ ?].
Qed.

Section Gc.
Context (now : Z).

Lemma gc_undisturbed v key vol extents pages retired :
  keeps (undisturbed v key) (EnsurePendingPayloadGCMutationOperation now vol extents pages retired).
Proof.
  unfold EnsurePendingPayloadGCMutationOperation. apply keeps_if; [by frame|].
  apply keeps_seq; [apply _|apply keeps_get, _|]. intros st r r' res. cbn [isGetMutationOperation repository_intents].
  unfold GetMutationOperation, readMutationOperation, get_record.
  destruct (stOps _ !! _) as [op|]; apply put_op_undisturbed.
  - destruct (_ || _); apply trimmed_gc_id.
  - apply trimmed_gc_id.
Qed.
End Gc.

Lemma apply_failed now req r r' res : ApplyCommittedWriteEffects now req r = (r', res) -> is_ok res = false ->
  rStore r' = rStore r.
Proof. apply bootstrapped_failed. Qed.

(** ** One write *)

Section Once.
Context (v key att : string) (gen : Z) (Hv : is_ok (VolumeId.Parse v) = true).
Abbreviation opid := (writeMutationOperationID key).

Definition own_record (rec : IdempotencyRecord) : Prop :=
  idAttachmentID rec = att /\ idGeneration rec = gen /\ idOperation rec = "write".

(** The write has an idempotency record of its own. *)
Record claimed (r : Repository) : Prop := {
  cl_keys : keys_ok (rStore r);
  cl_state : is_Some (stStates (rStore r) !! canon v);
  cl_rec : exists rec, stIdem (rStore r) !! (canon v, key) = Some rec /\ own_record rec }.

Definition op_committed (r : Repository) : Prop :=
  forall op, stOps (rStore r) !! (canon v, opid) = Some op -> moState op = MutationOperationCommitted.

(** The write is committed at [revision]. *)
Record done_at (revision : Z) (r : Repository) : Prop := {
  dn_keys : keys_ok (rStore r);
  dn_state : is_Some (stStates (rStore r) !! canon v);
  dn_rec : exists rec, stIdem (rStore r) !! (canon v, key) = Some rec /\ own_record rec
             /\ idResultState rec = IdempotencyCommitted /\ idRevision rec = revision;
  dn_op : op_committed r }.

Lemma claimed_undisturbed r r' : undisturbed v key r r' -> claimed r -> claimed r'.
Proof. intros [H1 H2 H3 _] [K S R]. split; [auto|auto|by rewrite H3]. Qed.

Lemma done_undisturbed rev r r' : undisturbed v key r r' -> done_at rev r -> done_at rev r'.
Proof. intros [H1 H2 H3 H4] [K S R O]. split; [auto|auto|by rewrite H3|unfold op_committed; by rewrite H4]. Qed.

(** *** Finalizing the operation *)

Definition own_operation (op : MutationOperationRecord) : Prop :=
  canon (moVolumeID op) = canon v /\ moOperationID op = opid.

Lemma write_own_op op r r' u : own_operation op -> moState op = MutationOperationCommitted ->
  writeMutationOperationWithIndex op r = (r', Ok u) -> op_committed r'.
Proof using Hv.
  intros [Hvol Hid] Hst H op'. rewrite (write_op_Ok _ _ _ _ H), Hid, write_id_trimmed.
  unfold maintenanceIndexVolumeID. rewrite (canon_trimmed v (moVolumeID op)) by done.
  rewrite lookup_insert_eq. by intros [= <-].
Qed.

Definition effects_of_write (req : ApplyCommittedWriteEffectsRequest) : Prop :=
  ceMutationOperationID req = opid /\ canon (ceVolumeID req) = canon v
  /\ moState (ceMutationOperation req) <> MutationOperationCommitted.

Lemma matches_committed req op : MatchesCommittedMutationOperation req op = true ->
  moState op = MutationOperationCommitted.
Proof. unfold MatchesCommittedMutationOperation. intros H. repeat apply andb_prop in H as [H _]. by apply String.eqb_eq. Qed.

(** The operation found, and that it is the stored one when it counts as committed. *)
Definition snapshot_ok (r : Repository) (m : mutation_snapshot) : Prop :=
  match m with
  | None => True
  | Some (op, committed) => own_operation op /\ (committed = true -> op_committed r)
  end.

Lemma snapshot_own req r r' m : effects_of_write req -> keys_ok (rStore r) ->
  readCommittedWriteMutationSnapshot req r = (r', Ok m) -> r' = r /\ snapshot_ok r m.
Proof.
  intros (Hid & Hvol & Hst) Hk. unfold readCommittedWriteMutationSnapshot. rewrite Hid, write_id_nonempty.
  destruct (committedWriteMutationSnapshotFromRequest req) as [[op c]|] eqn:Es.
  - intros [= <- <-]. split; [done|]. unfold committedWriteMutationSnapshotFromRequest in Es.
    rewrite Hid, write_id_nonempty in Es.
    destruct (String.eqb_spec (moOperationID (ceMutationOperation req)) opid); [|done].
    destruct (String.eqb_spec (canon (moVolumeID (ceMutationOperation req))) (canon (ceVolumeID req))); [|done].
    cbn [negb orb] in Es. destruct (_ && _); [done|]. injection Es as <- <-. split; [split; congruence|].
    intros Hc. by apply matches_committed in Hc.
  - unfold readMutationOperation, get_record. rewrite Hvol.
    destruct (stOps (rStore r) !! (canon v, opid)) as [op|] eqn:Eo; intros [= <- <-]; [|done].
    split; [done|]. split; [by apply (ko_ops _ Hk)|]. intros Hc op'. rewrite Eo. intros [= <-].
    by apply matches_committed in Hc.
Qed.

Lemma finalize_own now req m r r' u : effects_of_write req -> snapshot_ok r m ->
  finalizeWriteMutationOperationFromSnapshot now req m r = (r', Ok u) -> op_committed r'.
Proof using Hv.
  intros (Hid & _) Hm. unfold finalizeWriteMutationOperationFromSnapshot. rewrite Hid, write_id_nonempty.
  destruct m as [[op [|]]|]; [|destruct (negb _)|]; [|done| |done].
  - intros [= <- _]. by apply Hm.
  - destruct Hm as [Hop _]. by apply write_own_op.
Qed.

(** *** Committing *)

Definition commit_of_write (req : CommitWriteMetadataRequest) : Prop :=
  cmIdempotencyKey req = key /\ canon (cmVolumeID req) = canon v /\ effects_of_write (EffectsApplyRequest req).

Lemma commit_done now req r r' sr : commit_of_write req -> claimed r ->
  CommitWriteMetadata now req r = (r', Ok sr) -> done_at (idRevision sr.2) r'.
Proof using Hv.
  intros (Hkey & Hvol & He) [Hk Hs (rec & Hrec & Hown)] Hc.
  pose proof (commit_keys _ _ _ _ _ Hc Hk) as Hk'.
  destruct (commit_Ok _ _ _ _ _ Hc) as (r1 & pages & ids & Hr1 & H).
  apply commit_store_Ok in H as (old & oldrec & r2 & H1 & _ & _ & H4 & _ & H6 & H7 & H8 & H9 & Hfin).
  rewrite Hr1 in H1, H4, H7, H8, H9. rewrite Hkey, Hvol in H4. rewrite Hvol in H1.
  assert (oldrec = rec) as -> by congruence. rewrite (ko_states _ Hk _ _ H1) in H7.
  destruct (ko_idem _ Hk _ _ _ H4) as [Ev Ek]. rewrite Ev, Ek in H8.
  assert (keys_ok (rStore r2)) as Hk2.
  { split; intros *; rewrite ?H7, ?H8, ?H9.
    - intros [[<- <-]|[_ ?]]%lookup_insert_Some; [|by apply Hk]. rewrite H6. apply (ko_states _ Hk _ _ H1).
    - intros [[[= <- <-] <-]|[_ ?]]%lookup_insert_Some; [|by apply Hk]. by rewrite H6.
    - apply Hk. }
  pose proof (keeps_finalize _ _ _ _ _ Hfin) as Hsame. injection Hsame as Es Ei.
  apply bind_act_inv in Hfin as (r3 & m & Hm & Hfin).
  apply snapshot_own in Hm as [-> Hm]; [|done|done]. split; [done| | |].
  - rewrite Es, H7, lookup_insert_eq. by eexists.
  - eexists. rewrite Ei, H8, lookup_insert_eq. rewrite H6. by repeat split; try apply Hown.
  - by apply finalize_own in Hfin.
Qed.

Lemma apply_own now req r r' u : effects_of_write req -> keys_ok (rStore r) ->
  ApplyCommittedWriteEffects now req r = (r', Ok u) ->
  op_committed r' /\ same_versions r r' /\ keys_ok (rStore r').
Proof using Hv.
  intros He Hk (r1 & boot & Hb%keeps_bootstrap & H%transaction_Ok)%bind_act_inv.
  assert (keys_ok (rStore r1)) as Hk1 by (unfold same_on in Hb; congruence).
  unfold applyCommittedWriteEffectsWithStore in H. apply bind_act_inv in H as (r2 & m & Hm & H).
  apply snapshot_own in Hm as [-> Hm]; [|done|done].
  assert (same_versions r r1) as Hs1 by by apply same_store_on.
  destruct m as [[op [|]]|].
  - injection H as <- _. split; [by apply Hm|]. done.
  - apply bind_act_inv in H as (r2 & [] & Hp%keeps_pages & H).
    apply bind_act_inv in H as (r3 & [] & Hn%keeps_normalize & H). destruct Hm as [Hop _].
    split; [by eapply (finalize_own now _ (Some (op, false))); [exact He| |exact H]|].
    pose proof (same_records_keys _ _ Hp Hk1) as Hk2. pose proof (same_records_keys _ _ Hn Hk2) as Hk3.
    split; [|by apply (finalize_keys _ _ _ _ _ _ H)]. apply keeps_finalize_snapshot in H.
    etrans; [exact Hs1|]. etrans; [by apply same_records_versions|]. etrans; [by apply same_records_versions|done].
  - apply bind_act_inv in H as (r2 & [] & _ & H). apply bind_act_inv in H as (r3 & [] & _ & H).
    unfold finalizeWriteMutationOperationFromSnapshot in H. destruct He as (Hid & _). cbn in H. by rewrite Hid in H.
Qed.

(** *** The executor *)

Definition own_execution (exec : WriteExecution) : Prop :=
  weVolumeID exec = v /\ weIdempotencyKey exec = key /\ weAttachmentID exec = att /\ weGeneration exec = gen
  /\ moState (weMutationOperation exec) <> MutationOperationCommitted.

Section Run.
Context (now : Z) (split_ : bool) (plan : string -> Z -> Z -> Z -> Z -> act Repository exec_error WritePlan).
Context (planClone : option (string -> string -> Z -> Z -> Z -> Z -> act Repository exec_error WritePlan)).
Context (appendOnly : option (committer Repository)).
Context (cloneDelta : option (string -> list AllocationPageRecord -> act Repository meta_error unit)).
Context (err_text : exec_error -> string).
Abbreviation ex := (repository_executor now split_ plan planClone appendOnly cloneDelta).

Lemma after_commit_done exec pages retired rev r r' er : done_at rev r -> own_execution exec ->
  after_commit now exec pages retired rev r = (r', Ok er) ->
  er.2 = rev /\ done_at rev r' /\ weState er.1 = MetadataCommitted.
Proof using.
  intros Hd _. unfold after_commit, MarkMetadataCommitted. destruct (negb _); [done|].
  intros (r1 & [] & H & Hret)%bind_act_inv. injection Hret as <- <-. split; [done|]. split; [|done].
  eapply done_undisturbed; [|exact Hd]. eapply keeps_map_err; [|exact H].
  apply keeps_ignore, gc_undisturbed.
Qed.

Lemma recover_same exec pages retired ranges r r' res :
  recoverCommittedWriteAfterCAS ex exec pages retired ranges r = (r', res) ->
  match res with Ok (Some _) => True | _ => rStore r' = rStore r end.
Proof using.
  unfold recoverCommittedWriteAfterCAS. cbn [isGetIdempotencyRecord isGetMutationOperation repository_intents].
  unfold GetIdempotencyRecord, readIdempotencyRecord, GetMutationOperation, readMutationOperation, get_record.
  destruct (stIdem _ !! _) as [rec|]; [|by intros [= <- <-]]. destruct (_ || _); [by intros [= <- <-]|].
  destruct (negb _); [by intros [= <- <-]|]. destruct (stOps _ !! _) as [op|]; [|by intros [= <- <-]].
  destruct (String.eqb _ _); [by intros [= <- <-]|]. cbn [eEffectsApplier repository_executor]. unfold bind_act.
  destruct (ApplyCommittedWriteEffects _ _ _) as [r1 [u|e|]] eqn:Ea; intros [= <- <-]; [done|..];
    by apply apply_failed in Ea.
Qed.

Lemma effects_own exec rev pages retired ranges : own_execution exec ->
  effects_of_write (effects_request exec rev pages retired ranges).
Proof using. intros (Ev & Ek & _). unfold effects_of_write, effects_request. cbn. by rewrite Ev, Ek. Qed.

Lemma recover_done exec pages retired ranges r r' rev : own_execution exec -> claimed r ->
  recoverCommittedWriteAfterCAS ex exec pages retired ranges r = (r', Ok (Some rev)) -> done_at rev r'.
Proof using Hv.
  intros Hex [Hk Hs (rec & Hrec & Hown)]. unfold recoverCommittedWriteAfterCAS.
  cbn [isGetIdempotencyRecord isGetMutationOperation repository_intents].
  unfold GetIdempotencyRecord, readIdempotencyRecord, GetMutationOperation, readMutationOperation, get_record.
  pose proof Hex as (Evol & Ekey & _). rewrite Evol, Ekey, Hrec.
  destruct (_ || _); [done|]. destruct (String.eqb_spec (idResultState rec) IdempotencyCommitted) as [Hst|]; [|done].
  cbn [negb]. destruct (stOps (rStore r) !! (canon v, opid)) as [op|] eqn:Eo.
  - destruct (String.eqb_spec (moState op) MutationOperationCommitted).
    + intros [= <- <-]. split; [done|done|by exists rec|]. intros op'. rewrite Eo. by intros [= <-].
    + cbn [eEffectsApplier repository_executor].
      intros (r1 & u & Ha & Hr)%bind_act_inv. injection Hr as <- <-.
      apply apply_own in Ha as (Hop & Hsv & Hk'); [|by apply effects_own|done]. injection Hsv as E1 E2.
      split; [done|by rewrite E1|rewrite E2; by exists rec|done].
  - intros [= <- <-]. split; [done|done|by exists rec|]. intros op'. by rewrite Eo.
Qed.

Lemma versions_same exec : keeps same_store (expected_versions (W:=Repository) exec).
Proof using. unfold expected_versions. frame. apply keeps_map_err, keeps_get, _. Qed.

Lemma after_commit_err exec pages retired rev (r r' : Repository) err :
  after_commit now exec pages retired rev r = (r', Err err) -> isRetryableMetadataCommitError err = false.
Proof using.
  unfold after_commit, MarkMetadataCommitted. destruct (negb _); [by intros [= <- <-]|].
  unfold bind_act, map_err_act, ignore_error.
  by destruct (EnsurePendingPayloadGCMutationOperation _ _ _ _ _ r) as [r1 [u|e|]].
Qed.

Lemma commit_own exec epoch rev pages retired ranges : own_execution exec ->
  commit_of_write (commit_metadata_request exec epoch rev pages retired ranges).
Proof using.
  intros (Ev & Ek & _ & _ & Hst). unfold commit_of_write, effects_of_write. cbn. by rewrite Ev, Ek.
Qed.

(** A commit that succeeds leaves the write done; one that may be retried leaves
    it claimed. *)
Definition commit_outcome (r' : Repository) (res : result exec_error (WriteExecution * Z)) : Prop :=
  match res with
  | Ok er => done_at er.2 r'
  | Err err => isRetryableMetadataCommitError err = true -> claimed r'
  | Panic => True
  end.

Lemma after_commit_outcome exec pages retired rev r r' res : done_at rev r -> own_execution exec ->
  after_commit now exec pages retired rev r = (r', res) -> commit_outcome r' res.
Proof using.
  intros Hd Hex H. destruct res as [er|err|]; cbn; [| |done].
  - by destruct (after_commit_done _ _ _ _ _ _ _ Hd Hex H) as (-> & ? & _).
  - by rewrite (after_commit_err _ _ _ _ _ _ _ H).
Qed.

Lemma state_commit_Ok req r r' sr : ctIdempotencyKey req = key -> canon (ctVolumeID req) = canon v -> claimed r ->
  CommitWriteState req r = (r', Ok sr) ->
  claimed r' /\ exists rec, stIdem (rStore r') !! (canon v, key) = Some rec /\ own_record rec
    /\ idResultState rec = IdempotencyCommitted /\ idRevision rec = idRevision sr.2.
Proof using.
  intros Hkey Hvol [Hk Hs (rec & Hrec & Hown)] H. apply transaction_Ok in H. unfold commitWriteStateWithStore in H.
  apply bind_act_inv in H as (r1 & sr1 & (old & oldrec & -> & H1 & _ & _ & H4 & _ & H6)%validate_Ok & H).
  apply bind_act_inv in H as (r2 & [] & Hp & H). injection H as <- <-.
  assert (keys_ok (rStore r2)) as Hk2.
  { apply bind_act_inv in Hp as (r3 & [] & Hw1 & Hw2).
    by apply (write_idem_keys _ _ _ _ Hw2), (write_state_keys _ _ _ _ Hw1). }
  injection Hp as <-. rewrite Hkey, Hvol in H4. rewrite Hvol in H1. assert (oldrec = rec) as -> by congruence.
  destruct (ko_idem _ Hk _ _ _ H4) as [Ev Ek]. rewrite H6 in *. cbn [fst snd rStore stStates stIdem] in *.
  split; [split|]; cbn.
  - done.
  - rewrite (ko_states _ Hk _ _ H1), lookup_insert_eq. by eexists.
  - rewrite Ev, Ek, lookup_insert_eq. eexists. by split.
  - rewrite Ev, Ek, lookup_insert_eq. eexists. by split.
Qed.

(** The committers of the two executors. *)
Lemma commit_outcome_committer exec epoch rev pages retired ranges r r' res : own_execution exec -> claimed r ->
  repository_committer now split_ (commit_metadata_request exec epoch rev pages retired ranges) r = (r', res) ->
  match res with Ok sr => done_at (idRevision sr.2) r' | _ => claimed r' end.
Proof using Hv.
  intros Hex Hcl. pose proof (commit_own exec epoch rev pages retired ranges Hex) as Hown.
  set (req := commit_metadata_request exec epoch rev pages retired ranges) in *. clearbody req.
  unfold repository_committer. destruct split_; intros H.
  - destruct Hown as (Hkey & Hvol & He). unfold splitWriteMetadataCommitter, bind_act at 1 in H.
    destruct (CommitWriteState _ r) as [r1 [sr|e|]] eqn:Es.
    2, 3: apply transaction_failed in Es; [|done]; injection H as <- <-; destruct Hcl; split; by rewrite Es.
    apply state_commit_Ok in Es as [Hcl1 (rec & Hrec & Hown & Hst & Hrev)]; [|done|done|done]. cbv zeta in H.
    unfold bind_act at 1 in H.
    destruct (ApplyCommittedWriteEffects now _ r1) as [r2 [u|e|]] eqn:Ea.
    2, 3: apply apply_failed in Ea; [|done]; injection H as <- <-; destruct Hcl1; split; by rewrite Ea.
    injection H as <- <-. apply apply_own in Ea as (Hop & Hsv & Hk'); [|done|apply Hcl1].
    injection Hsv as E1 E2. split; [done|rewrite E1; apply Hcl1|rewrite E2; by exists rec|done].
  - destruct res as [sr|e|]; [by eapply commit_done|..];
      apply commit_failed in H; try done; destruct Hcl; split; by rewrite H.
Qed.

Lemma CommitMetadata_outcome exec pages retired ranges r r' res : own_execution exec -> claimed r ->
  CommitMetadata ex now exec pages retired ranges r = (r', res) -> commit_outcome r' res.
Proof using Hv.
  intros Hex Hcl. unfold CommitMetadata. destruct (negb _); [by intros [= <- <-]|].
  cbn [eCommitter repository_executor]. unfold bind_act at 1.
  destruct (expected_versions exec r) as [r1 [vs|e|]] eqn:Ev; apply versions_same in Ev; unfold same_on in Ev;
    (assert (claimed r1) as Hcl1 by (destruct Hcl; split; by rewrite Ev)); [|by intros [= <- <-]; cbn..].
  match goal with |- context [commit_request ex ?c pages ?q] => change (commit_request ex c pages q) with (c q) end.
  destruct (repository_committer now split_ _ r1) as [r2 res2] eqn:Ec. apply commit_outcome_committer in Ec; [|done|done].
  destruct res2 as [sr|e|]; [by apply after_commit_outcome| |by intros [= <- <-]].
  destruct e; try by intros [= <- <-].
  destruct (recoverCommittedWriteAfterCAS _ _ _ _ _ r2) as [r3 [[rev|]|e|]] eqn:Er.
  - apply after_commit_outcome; [|done]. by eapply recover_done.
  - apply recover_same in Er. intros [= <- <-] _. destruct Ec; split; by rewrite Er.
  - apply recover_same in Er. intros [= <- <-] _. destruct Ec; split; by rewrite Er.
  - by intros [= <- <-].
Qed.

Context (Hplan : forall off len pb cs, keeps (undisturbed v key) (plan v off len pb cs)).

Lemma rebase_own req exec r r' exec' : wrVolumeID req = v -> own_execution exec ->
  rebaseWritePlanForRetry ex exec req r = (r', Ok exec') -> own_execution exec' /\ undisturbed v key r r'.
Proof using Hplan.
  intros Hvol Hex. unfold rebaseWritePlanForRetry. destruct (_ =? _); [by intros [= <- <-]|].
  intros (r1 & st & H1 & H)%bind_act_inv. apply map_err_Ok, read_state_Ok in H1 as [-> _].
  apply bind_act_inv in H as (r2 & latest & H2 & H). cbn [ePlanWrite repository_executor] in H2.
  rewrite Hvol in H2. apply Hplan in H2. apply map_err_Ok in H. injection H as <- H. split; [|done].
  unfold rebase_execution in H. destruct (_ =? _); [by injection H as <-|].
  apply bind_Ok in H as (extents & _ & [= <-]). done.
Qed.

Lemma commit_attempts_done n exec req p r r' er : wrVolumeID req = v -> own_execution exec -> claimed r ->
  commit_attempts ex now n exec req p r = (r', Ok er) -> done_at er.2 r'.
Proof using Hv Hplan.
  intros Hvol. revert exec p r. induction n as [|n IH]; intros exec p r Hex Hcl; cbn [commit_attempts]; [done|].
  destruct (CommitMetadata _ _ _ _ _ _ r) as [r1 res] eqn:Ec.
  pose proof (CommitMetadata_outcome _ _ _ _ _ _ _ Hex Hcl Ec) as Ho. destruct res as [er1|e|]; [by intros [= <- <-]| |done].
  cbn in Ho. destruct (isRetryableMetadataCommitError e); [|done]. cbn [negb orb].
  destruct (Nat.eqb n 0); [done|]. specialize (Ho eq_refl).
  intros (r2 & exec2 & H2 & H)%bind_act_inv. apply rebase_own in H2 as [Hex2 Hu]; [|done|done].
  apply bind_act_inv in H as (r3 & p2 & H3%map_err_Ok & H). injection H3 as <- _.
  eapply IH; [exact Hex2| |exact H]. by eapply claimed_undisturbed.
Qed.

(** *** The payload phase *)

Lemma ack_own i id p w w' res : own_execution w -> MarkReplicaAckWithPolicy i id p w = (w', res) -> own_execution w'.
Proof using.
  intros Hw. unfold MarkReplicaAckWithPolicy. destruct (out_of_range w i); [by intros [= <- _]|].
  destruct (weExtents w !! _); [|by intros [= <- _]]. destruct (esFailed _); [by intros [= <- _]|].
  intros [= <- _]. by destruct (AllExtentsQuorumReached _).
Qed.

Lemma ack_all_own i ids p w w' res : own_execution w -> ack_all i ids p w = (w', res) -> own_execution w'.
Proof using.
  revert w. induction ids as [|id ids IH]; intros w Hw; cbn [ack_all]; [by intros [= <- _]|].
  destruct (MarkReplicaAckWithPolicy i id p w) as [w1 res1] eqn:E. apply ack_own in E; [|done].
  destruct res1; [by apply IH|by intros [= <- _]..].
Qed.

Lemma settle_own i pl out w w' res : own_execution w -> settle_extent i pl out w = (w', res) -> own_execution w'.
Proof using.
  intros Hw. unfold settle_extent.
  destruct (RecordChunkEncryptionHeaders i _ w) as [w1 res1] eqn:E1.
  assert (own_execution w1) as Hw1.
  { unfold RecordChunkEncryptionHeaders in E1. destruct (_ =? _); [by injection E1 as <- _|].
    destruct (out_of_range w i); [by injection E1 as <- _|].
    destruct (weExtents w !! _); by injection E1 as <- _. }
  destruct res1; [|by intros [= <- _]..].
  destruct (ack_all _ _ _ w1) as [w2 res2] eqn:E2. apply ack_all_own in E2; [|done].
  destruct res2; [|by intros [= <- _]..]. destruct (weExtents w2 !! _); [|by intros [= <- _]].
  destruct (negb _); by intros [= <- _].
Qed.

Context (writer : ExtentWritePlan -> ReplicaWriteRequest -> act Repository pipeline_error (option ReplicaWriteResult)).
Context (Hwriter : forall ep rq, keeps (undisturbed v key) (writer ep rq)).

Lemma payload_own n i req data exec r r' exec' : own_execution exec -> claimed r ->
  write_extents writer n i req data exec r = (r', Ok exec') -> own_execution exec' /\ claimed r'.
Proof using Hwriter.
  revert i exec r. induction n as [|n IH]; intros i exec r Hex Hcl; cbn [write_extents]; [by intros [= <- <-]|].
  destruct (weExtents exec !! _) as [st|]; [|done].
  destruct (writer _ _ r) as [r1 [[out|]|e|]] eqn:Ew; [|done..]. apply Hwriter in Ew.
  destruct (settle_extent _ _ _ exec) as [exec1 [u|e|]] eqn:Es; [|done..]. apply settle_own in Es; [|done].
  apply IH; [done|]. by eapply claimed_undisturbed.
Qed.

Lemma run_done req exec r r' resp : wrVolumeID req = v -> wrCloneID req = "" -> own_execution exec -> claimed r ->
  run_execution ex now writer req exec r = (r', Ok resp) -> done_at (wsRevision resp) r'.
Proof using Hv Hplan Hwriter.
  intros Hvol Hclone Hex Hcl (r1 & exec1 & H1%map_err_Ok & H)%bind_act_inv.
  apply payload_own in H1 as [Hex1 Hcl1]; [|done|done].
  apply bind_act_inv in H as (r2 & p & H2%map_err_Ok & H). injection H2 as <- _.
  rewrite Hclone in H. cbn [String.eqb negb] in H. apply bind_act_inv in H as (r3 & er & H3 & H).
  apply commit_attempts_done in H3; [|done..]. unfold MarkAcked in H. destruct (negb _); [done|].
  by injection H as <- <-.
Qed.

(** *** Beginning *)

Context (Hplan_volume : forall off len pb cs r r' p, plan v off len pb cs r = (r', Ok p) -> wplVolumeID p = v).

Definition own_begin (req : BeginWriteRequest) : Prop :=
  bwVolumeID req = v /\ bwIdempotencyKey req = key /\ bwAttachmentID req = att /\ bwGeneration req = gen
  /\ bwAllowZeroNoop req = false.

Lemma prepare_own pl req r r' pl' : prepare_allocations ex pl req r = (r', Ok pl') ->
  undisturbed v key r r' /\ wplVolumeID pl' = wplVolumeID pl.
Proof using.
  intros H%map_err_Ok. unfold prepareWritePlanAllocations in H.
  apply bind_act_inv in H as (r1 & [states todo] & H1 & H). injection H1 as <- _.
  destruct (_ =? _); [by injection H as <- <-|]. cbn [option_map eAllocator repository_executor] in H.
  apply bind_act_inv in H as (r2 & start & H2%map_err_Ok & H). apply (allocate_undisturbed v key) in H2.
  apply bind_act_inv in H as (r3 & states' & H3 & H). injection H3 as <- _. by injection H as <- <-.
Qed.

(** What a begin leaves behind. *)
Definition begun (r' : Repository) (b : BeginWriteResult) : Prop :=
  match b with
  | BeginExecution exec => own_execution exec /\ claimed r'
  | BeginReplay record => idResultState record = IdempotencyCommitted /\ done_at (idRevision record) r'
  | BeginNoop _ _ => False
  end.

Lemma pending_own state req pl : own_begin req -> wplVolumeID pl = v ->
  own_execution (pending_execution now state req pl).
Proof using. by intros (? & ? & ? & ? & _) Hp. Qed.

Lemma no_noop pl req : own_begin req -> writePlanIsZeroNoop pl req = false.
Proof using. intros (_ & _ & _ & _ & H). unfold writePlanIsZeroNoop. by rewrite H. Qed.

Lemma intent_claimed state req op r r' u : own_begin req -> keys_ok (rStore r) ->
  is_Some (stStates (rStore r) !! canon v) ->
  PutWriteIntent (request_record state req IdempotencyPending) op r = (r', Ok u) -> claimed r'.
Proof using.
  intros (Evol & Ekey & Eatt & Egen & _) Hk Hs. unfold PutWriteIntent. intros (r1 & [] & H1 & H)%transaction_Ok%bind_act_inv.
  pose proof (write_idem_keys _ _ _ _ H1 Hk) as Hk1. pose proof (write_op_index_keys _ _ _ _ H Hk1) as Hk2.
  apply keeps_write_operation in H. injection H as Es Ei. injection H1 as <-. split; [done|by rewrite Es|].
  rewrite Ei. cbn. rewrite Evol, Ekey, lookup_insert_eq. by eexists.
Qed.

Lemma put_intent_repo rec op : putWriteIntent rec op = map_err_act MetaErr (PutWriteIntent rec op).
Proof using. reflexivity. Qed.

Lemma put_op_Ok op r r' u : map_err_act MetaErr (isPutMutationOperation op) r = (r', Ok u) ->
  writeMutationOperationWithIndex op r = (r', Ok u).
Proof using. intros H%map_err_Ok. exact (transaction_Ok _ _ _ _ H). Qed.

Lemma begin_fresh_own state req r r' b : own_begin req -> keys_ok (rStore r) ->
  is_Some (stStates (rStore r) !! canon v) ->
  begin_fresh ex now state req None r = (r', Ok b) -> begun r' b.
Proof using Hplan Hplan_volume.
  intros Hreq Hk Hs. unfold begin_fresh. intros (r1 & pl & H1 & H)%bind_act_inv. unfold planWrite in H1. pose proof Hreq as (Evol & _).
  rewrite Evol in H1. cbn [ePlanWrite repository_executor] in H1. pose proof (Hplan_volume _ _ _ _ _ _ _ H1) as Hpv.
  apply Hplan in H1. rewrite no_noop in H by done.
  apply bind_act_inv in H as (r2 & pl2 & H2 & H). apply prepare_own in H2 as [Hu2 Hpv2]. cbv zeta in H.
  apply bind_act_inv in H as (r3 & u & H3 & H). injection H as <- <-.
  rewrite put_intent_repo in H3. apply map_err_Ok in H3.
  split; [by apply pending_own; [|congruence]|].
  eapply intent_claimed; [done| | |exact H3]; [by apply Hu2, H1|by apply Hu2, H1].
Qed.

Lemma recoverable_own state req r r' b : own_begin req -> claimed r ->
  bind_act (planWrite ex req) (beginRecoverablePendingWriteWithPlan ex now state req) r = (r', Ok b) ->
  begun r' b.
Proof using Hplan Hplan_volume.
  intros Hreq Hcl (r1 & pl & H1 & H)%bind_act_inv. unfold planWrite in H1. pose proof Hreq as (Evol & _).
  rewrite Evol in H1. cbn [ePlanWrite repository_executor] in H1. pose proof (Hplan_volume _ _ _ _ _ _ _ H1) as Hpv.
  apply Hplan in H1. apply (claimed_undisturbed _ _ H1) in Hcl.
  apply bind_act_inv in H as (r2 & pl2 & H2 & H). apply prepare_own in H2 as [Hu2 Hpv2]. cbv zeta in H.
  apply (claimed_undisturbed _ _ Hu2) in Hcl.
  apply bind_act_inv in H as (r3 & u & H3 & H). injection H as <- <-. apply put_op_Ok in H3.
  split; [by apply pending_own; [|congruence]|].
  pose proof (write_op_index_keys _ _ _ _ H3) as Hk. apply keeps_write_operation in H3. injection H3 as Es Ei.
  destruct Hcl as [K S R]. split; [auto|by rewrite Es|by rewrite Ei].
Qed.

Lemma begin_own req r r' b : own_begin req -> keys_ok (rStore r) ->
  BeginWrite ex now req r = (r', Ok b) -> begun r' b.
Proof using Hplan Hplan_volume.
  intros Hreq Hk. unfold BeginWrite. intros (r1 & st & H1 & H)%bind_act_inv. pose proof Hreq as (Evol & Ekey & Eatt & Egen & _).
  apply map_err_Ok, read_state_Ok in H1 as [-> Hst]. rewrite Evol in Hst.
  cbn [eAllowMissingWriteIntent repository_executor] in H. unfold begin_with_lookup in H.
  apply bind_act_inv in H as (r1 & found & H1 & H). unfold lookup_idempotency in H1.
  cbn [isGetIdempotencyRecord repository_intents] in H1.
  unfold GetIdempotencyRecord, readIdempotencyRecord, get_record in H1. rewrite Evol, Ekey in H1.
  destruct (stIdem (rStore r) !! (canon v, key)) as [rec|] eqn:Erec; injection H1 as <- <-;
    [|by eapply begin_fresh_own; eauto].
  destruct (String.eqb_spec (idAttachmentID rec) (bwAttachmentID req)); [|done].
  destruct (Z.eqb_spec (idGeneration rec) (bwGeneration req)); [|done].
  destruct (String.eqb_spec (idOperation rec) "write"); [|done]. cbn [negb orb] in H.
  assert (own_record rec) as Hown by (split; [congruence|split; congruence]).
  destruct (String.eqb_spec (idResultState rec) IdempotencyCommitted) as [Hc|].
  - unfold replay in H. cbn [isGetMutationOperation repository_intents] in H.
    unfold GetMutationOperation, readMutationOperation, get_record in H. rewrite Evol, Ekey in H.
    destruct (stOps (rStore r) !! (canon v, opid)) as [op|] eqn:Eo.
    + destruct (String.eqb_spec (moState op) MutationOperationCommitted); [|done]. injection H as <- <-.
      split; [done|]. split; [done|by eexists|by exists rec|]. intros op'. rewrite Eo. by intros [= <-].
    + injection H as <- <-. split; [done|]. split; [done|by eexists|by exists rec|]. intros op'. by rewrite Eo.
  - destruct (String.eqb (idResultState rec) IdempotencyPending).
    + eapply recoverable_own; [done| |exact H]. split; [done|by eexists|by exists rec].
    + destruct (String.eqb (idResultState rec) IdempotencyFailed); [|done].
      eapply begin_fresh_own; [done|done|by eexists|exact H].
Qed.

Lemma write_done req r r' resp : own_begin (begin_request req) -> wrCloneID req = "" -> keys_ok (rStore r) ->
  Write ex now err_text writer req r = (r', Ok resp) -> done_at (wsRevision resp) r'.
Proof using Hv Hplan Hplan_volume Hwriter.
  intros Hreq Hclone Hk H. unfold Write in H. rewrite Hclone in H. cbn [String.eqb negb] in H.
  apply bind_act_inv in H as (r1 & b & Hb & H). apply begin_own in Hb; [|done|done].
  destruct b as [exec|rec|noop skipped]; [|by injection H as <- <-; apply Hb|done].
  destruct Hb as [Hex Hcl]. destruct (run_execution _ _ _ _ _ r1) as [r2 [x|e|]] eqn:Er; [| |done].
  - injection H as <- <-. eapply run_done; [exact (proj1 Hreq)|done|exact Hex|exact Hcl|exact Er].
  - unfold bind_act, fail_act in H. by destruct (ignore_error _ r2) as [? [| |]].
Qed.

End Run.

(** A write that is done is replayed. *)
Lemma done_replays now sp plan planClone appendOnly cloneDelta err_text writer req rev r :
  done_at rev r -> wrCloneID req = "" -> canon (wrVolumeID req) = canon v -> wrIdempotencyKey req = key ->
  wrAttachmentID req = att -> wrGeneration req = gen ->
  exists resp, Write (repository_executor now sp plan planClone appendOnly cloneDelta) now err_text writer req r = (r, Ok resp)
    /\ wsReplay resp = true /\ wsCommitted resp = true /\ wsRevision resp = rev.
Proof using.
  intros [Hk [st Hst] (rec & Hrec & (Eatt & Egen & Eop) & Hc & Hrev) Hop] Hclone Hvol Hkey Hatt Hgen.
  unfold Write. rewrite Hclone, String.eqb_refl. cbn [negb]. unfold bind_act at 1. unfold BeginWrite.
  unfold bind_act at 1, map_err_act at 1. cbn [isGetVolumeState repository_intents bwVolumeID begin_request].
  unfold GetVolumeState, readVolumeState, get_record at 1. rewrite Hvol, Hst. cbn [map_err].
  cbn [eAllowMissingWriteIntent repository_executor]. unfold begin_with_lookup, bind_act at 1, lookup_idempotency.
  cbn [isGetIdempotencyRecord repository_intents bwVolumeID bwIdempotencyKey begin_request].
  unfold GetIdempotencyRecord, readIdempotencyRecord, get_record at 1. rewrite Hvol, Hkey, Hrec.
  cbn [bwAttachmentID bwGeneration begin_request]. rewrite Eatt, Egen, Eop, Hatt, Hgen, Hc, !String.eqb_refl, Z.eqb_refl.
  cbn [negb orb]. unfold replay.
  cbn [isGetMutationOperation repository_intents bwVolumeID bwIdempotencyKey begin_request].
  unfold GetMutationOperation, readMutationOperation, get_record. rewrite Hvol, Hkey.
  destruct (stOps (rStore r) !! (canon v, opid)) as [op|] eqn:Eo.
  - rewrite (Hop op Eo), String.eqb_refl. eexists. split; [reflexivity|]. cbn. by rewrite Hc.
  - eexists. split; [reflexivity|]. cbn. by rewrite Hc.
Qed.

End Once.

(** C5: a write happens at most once.  Suppose a write to a valid volume id,
    neither to a clone nor a zero write that may be skipped, succeeds at the
    repository with volume-scoped commits (the state and the effects in one
    transaction or in two), whatever conflicts and retries it went through, while the planner and the replicas leave the records of this
    write alone (they may let other writes commit).  Then in every later state
    in which those records are unchanged, a request with the same volume, key,
    attachment and generation is answered without touching the repository: as a
    committed replay at the revision of the first answer. *)
Theorem write_exactly_once (now later : Z) (split1 split2 : bool)
    (plan plan2 : string -> Z -> Z -> Z -> Z -> act Repository exec_error WritePlan)
    (planClone : option (string -> string -> Z -> Z -> Z -> Z -> act Repository exec_error WritePlan))
    (appendOnly : option (committer Repository))
    (cloneDelta : option (string -> list AllocationPageRecord -> act Repository meta_error unit)) (err_text : exec_error -> string)
    (writer writer2 : ExtentWritePlan -> ReplicaWriteRequest -> act Repository pipeline_error (option ReplicaWriteResult))
    (req again : WriteRequest) (r r' r2 : Repository) (resp : WriteResponse) :
  is_ok (VolumeId.Parse (wrVolumeID req)) = true -> wrCloneID req = "" -> wrAllowZeroNoop req = false ->
  keys_ok (rStore r) ->
  (forall off len pb cs, keeps (undisturbed (wrVolumeID req) (wrIdempotencyKey req)) (plan (wrVolumeID req) off len pb cs)) ->
  (forall off len pb cs r r' p, plan (wrVolumeID req) off len pb cs r = (r', Ok p) -> wplVolumeID p = wrVolumeID req) ->
  (forall ep rq, keeps (undisturbed (wrVolumeID req) (wrIdempotencyKey req)) (writer ep rq)) ->
  Write (repository_executor now split1 plan planClone appendOnly cloneDelta) now err_text writer req r
    = (r', Ok resp) ->
  undisturbed (wrVolumeID req) (wrIdempotencyKey req) r' r2 ->
  wrCloneID again = "" -> canon (wrVolumeID again) = canon (wrVolumeID req) ->
  wrIdempotencyKey again = wrIdempotencyKey req -> wrAttachmentID again = wrAttachmentID req ->
  wrGeneration again = wrGeneration req ->
  exists resp2, Write (repository_executor later split2 plan2 planClone appendOnly cloneDelta) later err_text writer2
                  again r2 = (r2, Ok resp2)
    /\ wsReplay resp2 = true /\ wsCommitted resp2 = true /\ wsRevision resp2 = wsRevision resp.
Proof.
  intros Hv Hc Hz Hk Hp Hpv Hw H Hu Hc2 Hvol Hkey Hatt Hgen.
  eapply write_done in H; [|exact Hv|exact Hp|exact Hw|exact Hpv|by split|done|done].
  eapply done_undisturbed in H; [|exact Hu]. by eapply done_replays.
Qed.

(** ** A concrete cluster *)

(** Volume "00000001" with chunks 7 and 8 in page 0, two chunks per page. *)
Definition native_repo : Repository :=
  mkRepository
    (mkStore {[vol1 := state1]} ∅ ∅ ∅
       {[(vol1, 0) := mkAllocationPageRecord vol1 0 8 4 5
           [zero_AllocationExtentRecord <| aeChunkCount := 2 |> <| aeKind := AllocationKindData |>
              <| aePhysicalChunkStart := 7 |>]]} ∅ ∅ ∅ {[vol1 := 100]} no_captures) ∅ false.

Definition target_a : ReplicaTarget := mkReplicaTarget "n1" "a" "primary" "".

(** Plans the whole page at [off] as one extent with one replica. *)
Definition page_planner (v : string) (off len pb cs : Z) : act Repository exec_error WritePlan := fun r =>
  match GetCompatibleAllocationPage v (off / pb) pb cs r with
  | (r, Ok page) =>
      let first := off / pb * (pb / cs) in
      (r, Ok (mkWritePlan v
        [zero_ExtentWritePlan
           <| wpExtent := mkExtentMappingRecord v (off / pb) (off / pb * pb) pb 0 "" 0 |>
           <| wpPrimary := target_a |> <| wpWriteTargets := [target_a] |> <| wpRequiredAcks := 1 |>
           <| wpChunkSizeBytes := cs |>
           <| wpAllocationPages := [mkResolvedAllocationPage page first (first + pb / cs) true] |>]))
  | (r, Err err) => (r, Err (MetaErr err))
  | (r, Panic) => (r, Panic)
  end.

Definition acked : option ReplicaWriteResult := Some (mkReplicaWriteResult ["a"] [] [] false).

Definition quiet_writer (ep : ExtentWritePlan) (rq : ReplicaWriteRequest)
  : act Repository pipeline_error (option ReplicaWriteResult) := fun r => (r, Ok acked).

Definition no_text (e : exec_error) : string := "".

Definition page_write (key : string) (page : Z) (zero : bool) : WriteRequest :=
  mkWriteRequest vol1 "" "q" "att" 1 key (page * 8) 8 (if zero then [] else repeat Byte.x01 8) 8 4 zero false false.

Abbreviation cluster := (repository_executor 9 false page_planner None None None).

(** A replica whose acknowledgement arrives after another client has written page 1. *)
Definition slow_writer (ep : ExtentWritePlan) (rq : ReplicaWriteRequest)
  : act Repository pipeline_error (option ReplicaWriteResult) := fun r =>
  ((Write cluster 9 no_text quiet_writer (page_write "other" 1 false) r).1, Ok acked).

Definition page_chunks (pageNo : Z) (r : Repository) : result meta_error (list Z) :=
  page ← (GetCompatibleAllocationPage vol1 pageNo 8 4 r).2;
  chunks ← expandAllocationChunkMappingsWithHeaders page; Ok chunks.1.

Lemma native_keys : keys_ok (rStore native_repo).
Proof.
  unfold native_repo. split; cbn [rStore stStates stIdem stOps].
  - intros v st [<- <-]%lookup_singleton_Some. done.
  - intros v k rec. by rewrite lookup_empty.
  - intros v k op. by rewrite lookup_empty.
Qed.

Lemma compatible_page_same v n pb cs : keeps same_store (GetCompatibleAllocationPage v n pb cs).
Proof.
  unfold GetCompatibleAllocationPage. apply keeps_if; [by frame|]. intros r r' res.
  unfold readAllocationPage, get_record. destruct (stPages _ !! _); [by intros [= <- _]|].
  revert r r' res. change (keeps same_store (fun r => bind_act (ListAllocationPages v) (fun pages =>
    if 0 <? zlen pages then match List.find (fun page => apPageNo page =? n) pages with
      | Some page => ret_act page | None => lift_act (zeroAllocationPage v n pb cs) end
    else bind_act (ListExtentMappings v) (fun mappings =>
      lift_act (synthesizeAllocationPageFromMappings v n pb cs mappings))) r)). frame. destruct (List.find _ _); frame.
Qed.

Lemma planner_same v off len pb cs : keeps same_store (page_planner v off len pb cs).
Proof.
  intros r r' res. unfold page_planner.
  destruct (GetCompatibleAllocationPage v _ pb cs r) as [r1 [p|e|]] eqn:E; intros [= <- _]; by eapply compatible_page_same.
Qed.

(** A write of data, sent again in another spelling of the volume id and with
    another payload. *)
Lemma write_exactly_once_witness :
  let first := Write cluster 9 no_text quiet_writer (page_write "k" 0 false) native_repo in
  let again := page_write "k" 3 true <| wrVolumeID := " 00000001 " |> in
  is_ok first.2 = true
  /\ exists resp2, Write cluster 9 no_text quiet_writer again first.1 = (first.1, Ok resp2)
     /\ wsReplay resp2 = true /\ wsRevision resp2 = 6.
Proof.
  assert ((Write cluster 9 no_text quiet_writer (page_write "k" 0 false) native_repo).2
          = Ok (mkWriteResponse Acked false true vol1 "" "k" 6)) as E by (vm_compute; reflexivity).
  cbv zeta. split; [rewrite E; reflexivity|].
  destruct (Write cluster 9 no_text quiet_writer (page_write "k" 0 false) native_repo) as [r' res] eqn:Ew.
  cbn [fst snd] in *. subst res.
  destruct (write_exactly_once 9 9 false false page_planner page_planner None None None no_text quiet_writer quiet_writer
    (page_write "k" 0 false) (page_write "k" 3 true <| wrVolumeID := " 00000001 " |>) native_repo r' r'
    (mkWriteResponse Acked false true vol1 "" "k" 6)) as (resp2 & H1 & H2 & _ & H4); try reflexivity.
  - apply native_keys.
  - intros off len pb cs r r1 res Hp. apply same_store_undisturbed. exact (planner_same _ _ _ _ _ _ _ _ Hp).
  - intros off len pb cs r r1 p Hp. unfold page_planner in Hp.
    destruct (GetCompatibleAllocationPage _ _ _ _ r) as [r2 [pg|e|]]; [|discriminate..].
    injection Hp as _ <-. reflexivity.
  - intros ep rq r r1 res Hp. injection Hp as <- _. reflexivity.
  - exact Ew.
  - exists resp2. split; [exact H1|]. split; [exact H2|exact H4].
Defined.

(** A zero write that has to retry its commit is lost.  Page 0 maps chunks
    7 and 8.  A write of zeroes over it unmaps them when nothing interferes;
    when another client commits a write to page 1 before the replicas answer,
    the write retries, reports success as committed, and page 0 still maps
    chunks 7 and 8: the rebased pages no longer name the chunks to retire, and
    the repository keeps a chunk the commit does not retire. *)
Lemma retried_zero_write_lost :
  let undisturbed_run := Write cluster 9 no_text quiet_writer (page_write "k" 0 true) native_repo in
  let raced_run := Write cluster 9 no_text slow_writer (page_write "k" 0 true) native_repo in
  page_chunks 0 native_repo = Ok [7; 8]
  /\ undisturbed_run.2 = Ok (mkWriteResponse Acked false true vol1 "" "k" 6)
  /\ page_chunks 0 undisturbed_run.1 = Ok [0; 0]
  /\ raced_run.2 = Ok (mkWriteResponse Acked false true vol1 "" "k" 7)
  /\ page_chunks 0 raced_run.1 = Ok [7; 8].
Proof. vm_compute. repeat split; reflexivity. Qed.

Definition failing_writer (ep : ExtentWritePlan) (rq : ReplicaWriteRequest)
  : act Repository pipeline_error (option ReplicaWriteResult) := fun r => (r, Err WriterReturnedNil).

(** A skipped zero write can leave its client without an answer.  A zero write
    that may be skipped fails once at the replicas; when it is sent again the
    page has become zero, so it is skipped and answered as committed.  From
    then on the same request is answered with [ErrIntentPending]: its record is
    committed but its operation is still the failed one. *)
Theorem skipped_zero_write_not_replayable :
  let req := page_write "k" 0 true <| wrAllowZeroNoop := true |> in
  let write w q r := Write cluster 9 no_text w q r in
  let r1 := (write failing_writer req native_repo).1 in
  let r2 := (write quiet_writer (page_write "z" 0 true) r1).1 in
  let r3 := (write quiet_writer req r2).1 in
  (write failing_writer req native_repo).2 = Err (PipelineErr WriterReturnedNil)
  /\ is_ok (write quiet_writer (page_write "z" 0 true) r1).2 = true
  /\ (write quiet_writer req r2).2 = Ok (mkWriteResponse Acked false true vol1 "" "k" 6)
  /\ (write quiet_writer req r3).2 = Err ErrIntentPending
  /\ rStore (write quiet_writer req r3).1 = rStore r3.
Proof. vm_compute. repeat split; reflexivity. Qed.

End ExecutorFacts.
