(* ===== verification/MetaSnapshots.v ===== *)
(** * Snapshots and clones in the metadata repository

    Models the snapshot and clone methods of
    src/sbs/cluster/metadata/repository.go: creating a snapshot or clone record
    with its indexes and idempotency record, listing, state changes,
    materialization and deletion with the reference count of the source
    snapshot, and the allocation pages captured by a snapshot or changed by a
    clone.  [registrar] and [guard] are the optional protection hooks of the
    repository ([snapshotRegistrar], [protectedSubjectDeletionGuard]), [None]
    when not configured; [nowUnix] is the clock. *)

From Stdlib Require Import ZArith Lia Ascii String.
From stdpp Require Import base list gmap strings sorting.
From S2P Require Import Prelude GoStrings VolumeId SbsTypes MetaTypes AllocationCommit MetaPages MetaRepo.
Open Scope string_scope.
Open Scope Z_scope.

Module Snapshots.
Import Sbs Meta Allocation MetaPages MetaRepo.
Open Scope act_scope.

(** ** Records *)

Definition put_capture (f : captures -> captures) : repo unit :=
  put (fun s => s <| stCaptures := f (stCaptures s) |>).

Definition get_capture {A} (lookup : captures -> option A) : repo A :=
  get_record (fun s => lookup (stCaptures s)).

Definition has_slash (s : string) : bool := existsb (Ascii.eqb "/") (list_ascii_of_string s).

(** [validateSnapshotID] and [validateCloneID] succeed. *)
Definition valid_id (id : string) : bool :=
  let id := TrimSpace id in negb (String.eqb id "") && negb (has_slash id).
Definition validateSnapshotID (snapshotID : string) : repo unit :=
  if valid_id snapshotID then ret_act tt else fail_act InvalidSnapshotID.
Definition validateCloneID (cloneID : string) : repo unit :=
  if valid_id cloneID then ret_act tt else fail_act InvalidCloneID.

Definition CanonicalVolumeID (volumeID : string) : repo string :=
  match VolumeId.Parse volumeID with
  | Ok parsed => ret_act (VolumeId.Format parsed)
  | _ => fail_act (InvalidVolumeID volumeID)
  end.

Definition readSnapshotRecord (snapshotID : string) : repo SnapshotRecord :=
  get_capture (fun c => cpSnapshots c !! snapshotID).
Definition writeSnapshotRecord (rec : SnapshotRecord) : repo unit :=
  put_capture (fun c => c <| cpSnapshots := <[snSnapshotID rec :=
    rec <| snSourceVolumeID := canon (snSourceVolumeID rec) |>]> (cpSnapshots c) |>).
Definition readCloneRecord (cloneID : string) : repo CloneRecord :=
  get_capture (fun c => cpClones c !! cloneID).
Definition writeCloneRecord (rec : CloneRecord) : repo unit :=
  put_capture (fun c => c <| cpClones := <[clCloneID rec :=
    rec <| clSourceVolumeID := canon (clSourceVolumeID rec) |>]> (cpClones c) |>).

(** [errors.Is(err, ErrNotFound)] of a read, as an absent value. *)
Definition read_opt {A} (m : repo A) : repo (option A) := fun r =>
  match m r with
  | (r, Ok a) => (r, Ok (Some a))
  | (r, Err ErrNotFound) => (r, Ok None)
  | (r, Err e) => (r, Err e)
  | (r, Panic) => (r, Panic)
  end.

Section Clock.
Context (nowUnix : Z).
Context (registrar : option (SnapshotRecord -> repo unit)).
Context (guard : option (Z -> string -> string -> repo unit)).

Definition register_snapshot (rec : SnapshotRecord) : repo unit :=
  match registrar with None => ret_act tt | Some f => f rec end.

(** ** Snapshots *)

Definition createSnapshotRecordWithStore (rec : SnapshotRecord) : repo (SnapshotRecord * bool) :=
  idem <-- (if String.eqb (snIdempotencyKey rec) "" then ret_act None else
            read_opt (get_capture (fun c =>
              cpSnapshotIdem c !! (canon (snSourceVolumeID rec), snIdempotencyKey rec))));
  match idem with
  | Some idem =>
      existing <-- readSnapshotRecord (siSnapshotID idem);
      register_snapshot existing;;
      ret_act (existing, true)
  | None =>
      existing <-- read_opt (readSnapshotRecord (snSnapshotID rec));
      if isSome existing then fail_act ErrCASConflict else
      writeSnapshotRecord rec;;
      put_capture (fun c => c <| cpSnapshotIndex :=
        <[(canon (snSourceVolumeID rec), snSnapshotID rec) :=
           mksnapshotSourceIndexRecord (snSourceVolumeID rec) (snSnapshotID rec) (snCreatedAtUnix rec)]>
        (cpSnapshotIndex c) |>);;
      (if String.eqb (snIdempotencyKey rec) "" then ret_act tt else
       put_capture (fun c => c <| cpSnapshotIdem :=
         <[(canon (snSourceVolumeID rec), snIdempotencyKey rec) :=
            mkSnapshotIdempotencyRecord (snSourceVolumeID rec) (snIdempotencyKey rec) (snSnapshotID rec)
              (snCreatedAtUnix rec) (snUpdatedAtUnix rec)]> (cpSnapshotIdem c) |>));;
      register_snapshot rec;;
      ret_act (rec, false)
  end.

(** The defaults [CreateSnapshotRecord] fills in. *)
Definition snapshot_defaults (sourceVolumeID : string) (rec : SnapshotRecord) : SnapshotRecord :=
  let created := if snCreatedAtUnix rec =? 0 then nowUnix else snCreatedAtUnix rec in
  rec <| snSourceVolumeID := sourceVolumeID |>
      <| snState := if String.eqb (snState rec) "" then SnapshotStateAvailable else snState rec |>
      <| snSnapshotRootID := if String.eqb (snSnapshotRootID rec) "" then snSnapshotID rec
                             else snSnapshotRootID rec |>
      <| snCreatedAtUnix := created |>
      <| snUpdatedAtUnix := if snUpdatedAtUnix rec =? 0 then created else snUpdatedAtUnix rec |>.

Definition CreateSnapshotRecord (rec : SnapshotRecord) : repo (SnapshotRecord * bool) :=
  validateSnapshotID (snSnapshotID rec);;
  if String.eqb (snSourceVolumeID rec) "" then fail_act (InvalidVolumeID "") else
  sourceVolumeID <-- CanonicalVolumeID (snSourceVolumeID rec);
  RunInTransaction (createSnapshotRecordWithStore (snapshot_defaults sourceVolumeID rec)).

Definition GetSnapshotRecord (snapshotID : string) : repo SnapshotRecord :=
  validateSnapshotID snapshotID;; readSnapshotRecord snapshotID.

(** Records in the order of creation time and id. *)
Definition by_created {A} (created : A -> Z) (id : A -> string) (a b : A) : Prop :=
  if created a =? created b then String.leb (id a) (id b) = true else created a < created b.

#[export] Instance by_created_dec {A} (created : A -> Z) (id : A -> string) :
  RelDecision (by_created created id).
Proof. intros a b. unfold by_created. destruct (created a =? created b); apply _. Defined.

(** The loop of the list methods: each id once, the record of each, deleted
    records left out unless asked for. *)
Fixpoint load_records {A} (get : string -> repo A) (deleted : A -> bool) (ids : list string)
    (seen : gset string) : repo (list A) :=
  match ids with
  | [] => ret_act []
  | id :: ids =>
      if String.eqb id "" || bool_decide (id ∈ seen) then load_records get deleted ids seen else
      rec <-- get id;
      rest <-- load_records get deleted ids ({[id]} ∪ seen);
      ret_act (if deleted rec then rest else rec :: rest)
  end.

(** The ids an index holds under a first key component, in key order. *)
Definition indexed_ids {A} (m : gmap (string * string) A) (id : A -> string) (owner : string) : list string :=
  map (fun kv => id (snd kv))
    (merge_sort (fun a b => String.le (snd (fst a)) (snd (fst b)))
       (List.filter (fun kv => String.eqb (fst (fst kv)) owner) (map_to_list m))).

Definition ListSnapshotRecords (sourceVolumeID : string) (includeDeleted : bool)
  : repo (list SnapshotRecord) := fun r =>
  let c := stCaptures (rStore r) in
  let ids := if negb (String.eqb (TrimSpace sourceVolumeID) "")
             then indexed_ids (cpSnapshotIndex c) sxSnapshotID (canon sourceVolumeID)
             else merge_sort String.le (map_to_list (cpSnapshots c)).*1 in
  (records <-- load_records GetSnapshotRecord
                 (fun rec => negb includeDeleted && String.eqb (snState rec) SnapshotStateDeleted) ids ∅;
   ret_act (merge_sort (by_created snCreatedAtUnix snSnapshotID) records)) r.

Definition markSnapshotStateWithStore (snapshotID state errorMessage : string) : repo SnapshotRecord :=
  rec <-- readSnapshotRecord snapshotID;
  let rec := rec <| snState := state |> <| snErrorMessage := errorMessage |>
                 <| snUpdatedAtUnix := nowUnix |> in
  writeSnapshotRecord rec;;
  ret_act rec.

(** The deletion guard of [MarkSnapshotStateAuthorized]. *)
Definition check_deletion (snapshotID state callerRole : string) : repo unit :=
  match guard with
  | Some validate =>
      if negb (String.eqb state SnapshotStateDeleted) then ret_act tt else
      record <-- GetSnapshotRecord snapshotID;
      match VolumeId.ParseLowercase (snSourceVolumeID record) with
      | Ok volumeID => fun r =>
          match validate volumeID snapshotID callerRole r with
          | (r, Err _) => (r, Err ProtectedDeletionRejected)
          | res => res
          end
      | _ => fail_act (InvalidVolumeID (snSourceVolumeID record))
      end
  | None => ret_act tt
  end.

Definition MarkSnapshotStateAuthorized (snapshotID state errorMessage callerRole : string)
  : repo SnapshotRecord :=
  validateSnapshotID snapshotID;;
  if String.eqb state "" then fail_act StateRequired else
  check_deletion snapshotID state callerRole;;
  RunInTransaction (markSnapshotStateWithStore snapshotID state errorMessage).

Definition MarkSnapshotState (snapshotID state errorMessage : string) : repo SnapshotRecord :=
  MarkSnapshotStateAuthorized snapshotID state errorMessage "".

(** ** Clones *)

Definition createCloneRecordWithStore (rec : CloneRecord) : repo (CloneRecord * bool) :=
  idem <-- (if String.eqb (clIdempotencyKey rec) "" then ret_act None else
            read_opt (get_capture (fun c =>
              cpCloneIdem c !! (clSourceSnapshotID rec, clIdempotencyKey rec))));
  match idem with
  | Some idem =>
      existing <-- readCloneRecord (ciCloneID idem);
      ret_act (existing, true)
  | None =>
      source <-- readSnapshotRecord (clSourceSnapshotID rec);
      if negb (String.eqb (snState source) SnapshotStateAvailable)
      then fail_act (SnapshotUnavailable (snState source)) else
      let size := if clSizeBytes rec =? 0 then snSourceSizeBytes source else clSizeBytes rec in
      if size <? snSourceSizeBytes source then fail_act (CloneTooSmall size (snSourceSizeBytes source)) else
      let rec := rec <| clSizeBytes := size |> <| clSourceVolumeID := snSourceVolumeID source |>
                     <| clCloneBaseRootID := snSnapshotRootID source |>
                     <| clAllocationChunkSizeBytes := snAllocationChunkSizeBytes source |>
                     <| clAllocationPageSizeBytes := snAllocationPageSizeBytes source |>
                     <| clSourceSizeBytes := snSourceSizeBytes source |> in
      existing <-- read_opt (readCloneRecord (clCloneID rec));
      if isSome existing then fail_act ErrCASConflict else
      let index := mkcloneSourceIndexRecord (clSourceSnapshotID rec) (clSourceVolumeID rec)
                     (clCloneID rec) (clCreatedAtUnix rec) in
      writeCloneRecord rec;;
      put_capture (fun c => c <| cpCloneBySnapshot :=
        <[(clSourceSnapshotID rec, clCloneID rec) := index]> (cpCloneBySnapshot c) |>);;
      put_capture (fun c => c <| cpCloneByVolume :=
        <[(canon (clSourceVolumeID rec), clCloneID rec) := index]> (cpCloneByVolume c) |>);;
      (if String.eqb (clIdempotencyKey rec) "" then ret_act tt else
       put_capture (fun c => c <| cpCloneIdem :=
         <[(clSourceSnapshotID rec, clIdempotencyKey rec) :=
            mkCloneIdempotencyRecord (clSourceSnapshotID rec) (clIdempotencyKey rec) (clCloneID rec)
              (clCreatedAtUnix rec) (clUpdatedAtUnix rec)]> (cpCloneIdem c) |>));;
      writeSnapshotRecord (source <| snCloneReferenceCount := add64 (snCloneReferenceCount source) 1 |>
                                  <| snUpdatedAtUnix := nowUnix |>);;
      ret_act (rec, false)
  end.

Definition clone_defaults (rec : CloneRecord) : CloneRecord :=
  let created := if clCreatedAtUnix rec =? 0 then nowUnix else clCreatedAtUnix rec in
  rec <| clState := if String.eqb (clState rec) "" then CloneStateAvailable else clState rec |>
      <| clCreatedAtUnix := created |>
      <| clUpdatedAtUnix := if clUpdatedAtUnix rec =? 0 then created else clUpdatedAtUnix rec |>.

Definition CreateCloneRecord (rec : CloneRecord) : repo (CloneRecord * bool) :=
  validateCloneID (clCloneID rec);;
  validateSnapshotID (clSourceSnapshotID rec);;
  RunInTransaction (createCloneRecordWithStore (clone_defaults rec)).

Definition GetCloneRecord (cloneID : string) : repo CloneRecord :=
  validateCloneID cloneID;; readCloneRecord cloneID.

Definition ListCloneRecords (sourceSnapshotID sourceVolumeID : string) (includeDeleted : bool)
  : repo (list CloneRecord) :=
  ids <-- (if negb (String.eqb (TrimSpace sourceSnapshotID) "") then
             validateSnapshotID sourceSnapshotID;;
             fun r => (r, Ok (indexed_ids (cpCloneBySnapshot (stCaptures (rStore r))) cxCloneID
                                sourceSnapshotID))
           else if negb (String.eqb (TrimSpace sourceVolumeID) "") then
             volumeID <-- CanonicalVolumeID sourceVolumeID;
             fun r => (r, Ok (indexed_ids (cpCloneByVolume (stCaptures (rStore r))) cxCloneID
                                (canon volumeID)))
           else
             fun r => (r, Ok (merge_sort String.le (map_to_list (cpClones (stCaptures (rStore r)))).*1)));
  records <-- load_records GetCloneRecord
                (fun rec => negb includeDeleted && String.eqb (clState rec) CloneStateDeleted) ids ∅;
  ret_act (merge_sort (by_created clCreatedAtUnix clCloneID) records).

Definition markCloneStateWithStore (cloneID state errorMessage : string) : repo CloneRecord :=
  rec <-- readCloneRecord cloneID;
  let rec := rec <| clState := state |> <| clErrorMessage := errorMessage |>
                 <| clUpdatedAtUnix := nowUnix |> in
  writeCloneRecord rec;;
  ret_act rec.

Definition MarkCloneState (cloneID state errorMessage : string) : repo CloneRecord :=
  validateCloneID cloneID;;
  if String.eqb state "" then fail_act StateRequired else
  RunInTransaction (markCloneStateWithStore cloneID state errorMessage).

(** [if count > 0 { count-- }]. *)
Definition drop_reference (source : SnapshotRecord) : SnapshotRecord :=
  if 0 <? snCloneReferenceCount source
  then source <| snCloneReferenceCount := snCloneReferenceCount source - 1 |> else source.

Definition markCloneMaterializedWithStore (cloneID materializedVolumeID : string) : repo CloneRecord :=
  rec <-- readCloneRecord cloneID;
  if String.eqb (clState rec) CloneStateDeleted then fail_act (CloneUnavailable (clState rec)) else
  if String.eqb (clState rec) CloneStateFailed then fail_act (CloneUnavailable (clState rec)) else
  if String.eqb (clState rec) CloneStateMaterialized then
    (if negb (String.eqb (clMaterializedVolumeID rec) materializedVolumeID)
     then fail_act ErrCASConflict else ret_act rec)
  else
  source <-- readSnapshotRecord (clSourceSnapshotID rec);
  let rec := rec <| clState := CloneStateMaterialized |>
                 <| clMaterializedVolumeID := materializedVolumeID |> <| clErrorMessage := "" |>
                 <| clUpdatedAtUnix := nowUnix |> in
  writeCloneRecord rec;;
  writeSnapshotRecord (drop_reference source <| snUpdatedAtUnix := nowUnix |>);;
  ret_act rec.

Definition MarkCloneMaterialized (cloneID materializedVolumeID : string) : repo CloneRecord :=
  validateCloneID cloneID;;
  volumeID <-- CanonicalVolumeID materializedVolumeID;
  RunInTransaction (markCloneMaterializedWithStore cloneID volumeID).

Definition deleteCloneRecordWithStore (cloneID : string) : repo CloneRecord :=
  rec <-- readCloneRecord cloneID;
  if String.eqb (clState rec) CloneStateDeleted then ret_act rec else
  source <-- readSnapshotRecord (clSourceSnapshotID rec);
  let previousState := clState rec in
  let rec := rec <| clState := CloneStateDeleted |> <| clErrorMessage := "" |>
                 <| clUpdatedAtUnix := nowUnix |> in
  writeCloneRecord rec;;
  let source := if negb (String.eqb previousState CloneStateMaterialized)
                then drop_reference source else source in
  writeSnapshotRecord (source <| snUpdatedAtUnix := clUpdatedAtUnix rec |>);;
  ret_act rec.

Definition DeleteCloneRecord (cloneID : string) : repo CloneRecord :=
  validateCloneID cloneID;; RunInTransaction (deleteCloneRecordWithStore cloneID).

(** ** Captured and changed pages *)

Definition writeSnapshotPage (snapshotID : string) (rec : AllocationPageRecord) : repo unit :=
  put_capture (fun c => c <| cpSnapshotPages := <[(snapshotID, apPageNo rec) := rec]> (cpSnapshotPages c) |>).

Definition PutSnapshotAllocationPage (snapshotID : string) (rec : AllocationPageRecord) : repo unit :=
  validateSnapshotID snapshotID;; writeSnapshotPage snapshotID rec.

Definition GetSnapshotAllocationPage (snapshotID : string) (pageNo : Z) : repo AllocationPageRecord :=
  validateSnapshotID snapshotID;; get_capture (fun c => cpSnapshotPages c !! (snapshotID, pageNo)).

(** The pages stored under an id, in the order of their number. *)
Definition pages_of (m : gmap (string * Z) AllocationPageRecord) (id : string) : list AllocationPageRecord :=
  merge_sort (by_number apPageNo)
    (map snd (List.filter (fun kv => String.eqb (fst (fst kv)) id) (map_to_list m))).

Definition ListSnapshotAllocationPages (snapshotID : string) : repo (list AllocationPageRecord) :=
  validateSnapshotID snapshotID;;
  fun r => (r, Ok (pages_of (cpSnapshotPages (stCaptures (rStore r))) snapshotID)).

Fixpoint write_snapshot_pages (snapshotID : string) (pages : list AllocationPageRecord) : repo unit :=
  match pages with
  | [] => ret_act tt
  | page :: pages => writeSnapshotPage snapshotID page;; write_snapshot_pages snapshotID pages
  end.

Definition CaptureSnapshotAllocationPages (snapshotID : string) (pages : list AllocationPageRecord)
  : repo unit :=
  validateSnapshotID snapshotID;; RunInTransaction (write_snapshot_pages snapshotID pages).

Definition countAllocationPageObjects (page : AllocationPageRecord) : Z :=
  zlen (List.filter (fun extent => String.eqb (aeKind extent) AllocationKindData
                                   || String.eqb (aeKind extent) AllocationKindShared) (apExtents page)).

Definition readCloneDeltaAllocationPage (cloneID : string) (pageNo : Z) : repo AllocationPageRecord :=
  get_capture (fun c => cpDeltaPages c !! (cloneID, pageNo)).

(** The loop of [putCloneDeltaAllocationPagesWithStore]; the result is the new
    numbers of pages and objects. *)
Fixpoint put_delta_pages (clone : CloneRecord) (cloneID : string) (pages : list AllocationPageRecord)
    (seen : gset Z) (deltaPageCount deltaObjectCount : Z) : repo (Z * Z) :=
  match pages with
  | [] => ret_act (deltaPageCount, deltaObjectCount)
  | page :: pages =>
      if bool_decide (apPageNo page ∈ seen) then fail_act (DuplicateDeltaPage (apPageNo page)) else
      if negb (apPageBytes page =? clAllocationPageSizeBytes clone)
         || negb (apChunkSizeBytes page =? clAllocationChunkSizeBytes clone)
      then fail_act (PageGeometryMismatch (apPageNo page)) else
      let page := page <| apVolumeID := clCloneID clone |> in
      existing <-- read_opt (readCloneDeltaAllocationPage cloneID (apPageNo page));
      put_capture (fun c => c <| cpDeltaPages := <[(cloneID, apPageNo page) := page]> (cpDeltaPages c) |>);;
      let deltaPageCount := match existing with None => add64 deltaPageCount 1 | Some _ => deltaPageCount end in
      let existingObjectCount := match existing with
                                 | None => 0 | Some p => countAllocationPageObjects p end in
      let kept := if existingObjectCount <=? deltaObjectCount
                  then deltaObjectCount - existingObjectCount else 0 in
      put_delta_pages clone cloneID pages ({[apPageNo page]} ∪ seen) deltaPageCount
        (add64 kept (countAllocationPageObjects page))
  end.

Definition putCloneDeltaAllocationPagesWithStore (cloneID : string) (pages : list AllocationPageRecord)
  : repo unit :=
  clone <-- readCloneRecord cloneID;
  if negb (String.eqb (clState clone) CloneStateAvailable) then fail_act (CloneUnavailable (clState clone)) else
  counts <-- put_delta_pages clone cloneID pages ∅ (clDeltaPageCount clone) (clDeltaObjectCount clone);
  writeCloneRecord (clone <| clDeltaPageCount := counts.1 |> <| clDeltaObjectCount := counts.2 |>
                          <| clUpdatedAtUnix := nowUnix |>).

Definition PutCloneDeltaAllocationPages (cloneID : string) (pages : list AllocationPageRecord) : repo unit :=
  validateCloneID cloneID;;
  if zlen pages =? 0 then ret_act tt else
  RunInTransaction (putCloneDeltaAllocationPagesWithStore cloneID pages).

Definition PutCloneDeltaAllocationPage (cloneID : string) (rec : AllocationPageRecord) : repo unit :=
  PutCloneDeltaAllocationPages cloneID [rec].

Definition CommitCloneDeltaAllocationPages (cloneID : string) (pages : list AllocationPageRecord) : repo unit :=
  PutCloneDeltaAllocationPages cloneID pages.

Definition GetCloneDeltaAllocationPage (cloneID : string) (pageNo : Z) : repo AllocationPageRecord :=
  validateCloneID cloneID;; readCloneDeltaAllocationPage cloneID pageNo.

Definition ListCloneDeltaAllocationPages (cloneID : string) : repo (list AllocationPageRecord) :=
  validateCloneID cloneID;;
  fun r => (r, Ok (pages_of (cpDeltaPages (stCaptures (rStore r))) cloneID)).

End Clock.

End Snapshots.
