(* ===== verification/MetaSnapshotsFacts.v ===== *)
(** * Snapshots and clones: theorems

    The reference count of a snapshot is the number of its clones that still
    need it, whatever calls succeed or fail ([reference_count_exact]); the
    deletion of a snapshot is decided on that count. *)

From Stdlib Require Import ZArith Lia Ascii String.
From stdpp Require Import base list gmap strings sorting fin_maps.
From S2P Require Import Prelude GoStrings VolumeId SbsTypes MetaTypes AllocationCommit MetaPages MetaRepo MetaSnapshots.
Open Scope string_scope.
Open Scope Z_scope.

Module SnapshotsFacts.
Import Sbs Meta Allocation MetaPages MetaRepo Snapshots.

Abbreviation caps r := (stCaptures (rStore r)).

(** ** Counting clones *)

(** A clone that needs its source snapshot: neither materialized nor deleted. *)
Definition needs (state : string) : bool :=
  negb (String.eqb state CloneStateMaterialized) && negb (String.eqb state CloneStateDeleted).

Definition needs_snapshot (snapshotID : string) (c : CloneRecord) : bool :=
  needs (clState c) && String.eqb (clSourceSnapshotID c) snapshotID.

Definition live_clones (m : gmap string CloneRecord) (snapshotID : string) : Z :=
  Z.of_nat (size (filter (fun kv => needs_snapshot snapshotID kv.2 = true) m)).

Lemma live_clones_insert_new m k c sid : m !! k = None ->
  live_clones (<[k := c]> m) sid = live_clones m sid + Z.b2z (needs_snapshot sid c).
Proof.
  intros Hk. unfold live_clones. destruct (needs_snapshot sid c) eqn:H; cbn [Z.b2z].
  - rewrite map_filter_insert_True by done. rewrite map_size_insert_None; [lia|].
    apply map_lookup_filter_None. by left.
  - rewrite map_filter_insert_False by (cbn; congruence). rewrite delete_id by done. lia.
Qed.

Lemma live_clones_update m k c0 c sid : m !! k = Some c0 ->
  live_clones (<[k := c]> m) sid
  = live_clones m sid - Z.b2z (needs_snapshot sid c0) + Z.b2z (needs_snapshot sid c).
Proof.
  intros Hk. rewrite <-insert_delete_eq. rewrite live_clones_insert_new by apply lookup_delete_eq.
  assert (live_clones m sid = live_clones (delete k m) sid + Z.b2z (needs_snapshot sid c0)) as ->; [|lia].
  rewrite <-live_clones_insert_new with (k := k) by apply lookup_delete_eq. f_equal.
  symmetry. by apply insert_delete_id.
Qed.

Lemma live_clones_bound m sid : 0 <= live_clones m sid <= Z.of_nat (size m).
Proof.
  unfold live_clones. split; [lia|]. apply inj_le, map_subseteq_size, map_filter_subseteq.
Qed.

(** ** The invariant *)

Record counted (c : captures) : Prop := {
  ct_snapshot_ids : forall id s, cpSnapshots c !! id = Some s -> snSnapshotID s = id;
  ct_clone_ids : forall id k, cpClones c !! id = Some k -> clCloneID k = id;
  ct_sources : forall id k, cpClones c !! id = Some k -> is_Some (cpSnapshots c !! clSourceSnapshotID k);
  ct_counts : forall id s, cpSnapshots c !! id = Some s ->
    snCloneReferenceCount s = live_clones (cpClones c) id }.

(** Calls that write neither snapshot nor clone records keep it. *)
Lemma counted_ext c c' : counted c -> cpSnapshots c' = cpSnapshots c -> cpClones c' = cpClones c -> counted c'.
Proof. intros [H1 H2 H3 H4] Es Ec. split; rewrite ?Es, ?Ec; auto. Qed.

(** Writing the record of an existing snapshot with the right count. *)
Lemma counted_put_snapshot c c' s s0 : counted c -> cpSnapshots c !! snSnapshotID s = Some s0 ->
  snCloneReferenceCount s = snCloneReferenceCount s0 ->
  cpSnapshots c' = <[snSnapshotID s := s]> (cpSnapshots c) -> cpClones c' = cpClones c -> counted c'.
Proof.
  intros [H1 H2 H3 H4] Hs Hc Es Ek. split; rewrite ?Es, ?Ek.
  - intros id s'. rewrite lookup_insert_Some. intros [[<- <-]|[_ ?]]; auto.
  - done.
  - intros id k Hk. apply lookup_insert_is_Some'. right. by eapply H3.
  - intros id s'. rewrite lookup_insert_Some. intros [[<- <-]|[_ ?]]; [rewrite Hc|]; auto.
Qed.

Lemma counted_new_snapshot c c' s : counted c -> cpSnapshots c !! snSnapshotID s = None ->
  snCloneReferenceCount s = 0 ->
  cpSnapshots c' = <[snSnapshotID s := s]> (cpSnapshots c) -> cpClones c' = cpClones c -> counted c'.
Proof.
  intros [H1 H2 H3 H4] Hs Hc Es Ek. split; rewrite ?Es, ?Ek.
  - intros id s'. rewrite lookup_insert_Some. intros [[<- <-]|[_ ?]]; auto.
  - done.
  - intros id k Hk. apply lookup_insert_is_Some'. right. by eapply H3.
  - intros id s'. rewrite lookup_insert_Some. intros [[<- <-]|[_ ?]]; [|auto]. rewrite Hc.
    unfold live_clones. replace (filter _ _) with (∅ : gmap string CloneRecord); [by rewrite map_size_empty|].
    symmetry. apply map_eq. intros id. rewrite lookup_empty. apply map_lookup_filter_None. right.
    intros k Hk [_ E%String.eqb_eq]%andb_prop. cbn in E.
    destruct (H3 id k Hk) as [s' Hs']. by rewrite E, Hs in Hs'.
Qed.

(** Writing a clone together with its snapshot, the count moved along. *)
Lemma counted_move c c' k s s0 : counted c -> cpSnapshots c !! clSourceSnapshotID k = Some s0 ->
  snSnapshotID s = clSourceSnapshotID k ->
  (forall k0, cpClones c !! clCloneID k = Some k0 -> clSourceSnapshotID k0 = clSourceSnapshotID k) ->
  snCloneReferenceCount s = live_clones (<[clCloneID k := k]> (cpClones c)) (clSourceSnapshotID k) ->
  cpClones c' = <[clCloneID k := k]> (cpClones c) ->
  cpSnapshots c' = <[snSnapshotID s := s]> (cpSnapshots c) -> counted c'.
Proof.
  intros [H1 H2 H3 H4] Hs Hid Hsame Hc Ek Es. split; rewrite ?Es, ?Ek.
  - intros id s'. rewrite lookup_insert_Some. intros [[<- <-]|[_ ?]]; auto.
  - intros id k'. rewrite lookup_insert_Some. intros [[<- <-]|[_ ?]]; auto.
  - intros id k'. rewrite lookup_insert_Some, lookup_insert_is_Some'. intros [[<- <-]|[_ Hk']]; [by left|].
    right. by eapply H3.
  - intros id s'. rewrite lookup_insert_Some. intros [[<- <-]|[Hne Hs']]; [by rewrite Hid|].
    rewrite (H4 id s' Hs'). assert (id <> clSourceSnapshotID k) as Hne' by congruence.
    assert (forall k', clSourceSnapshotID k' = clSourceSnapshotID k -> Z.b2z (needs_snapshot id k') = 0) as Hz.
    { intros k' E. unfold needs_snapshot. rewrite E, (proj2 (String.eqb_neq _ _)), andb_false_r; [done|congruence]. }
    destruct (cpClones c !! clCloneID k) as [k0|] eqn:Ek0.
    + rewrite (live_clones_update _ _ k0 _ _ Ek0), !Hz; [lia|done|by apply Hsame].
    + rewrite live_clones_insert_new, Hz by done. lia.
Qed.

(** Writing a clone that needs its snapshot as much as before. *)
Lemma counted_put_clone c c' k k0 : counted c -> cpClones c !! clCloneID k = Some k0 ->
  clSourceSnapshotID k = clSourceSnapshotID k0 -> needs (clState k) = needs (clState k0) ->
  cpClones c' = <[clCloneID k := k]> (cpClones c) -> cpSnapshots c' = cpSnapshots c -> counted c'.
Proof.
  intros [H1 H2 H3 H4] Hk Hsrc Hn Ek Es. split; rewrite ?Es, ?Ek; try done.
  - intros id k'. rewrite lookup_insert_Some. intros [[<- <-]|[_ ?]]; auto.
  - intros id k'. rewrite lookup_insert_Some. intros [[<- <-]|[_ ?]]; [rewrite Hsrc|]; eauto.
  - intros id s Hs. rewrite (H4 _ _ Hs), (live_clones_update _ _ k0 _ _ Hk).
    unfold needs_snapshot. rewrite Hn, Hsrc. lia.
Qed.

(** A clone that no longer needs its snapshot, and the reference it gives up. *)
Lemma dropped_count c k k0 s : counted c -> cpClones c !! clCloneID k = Some k0 ->
  clSourceSnapshotID k = clSourceSnapshotID k0 -> cpSnapshots c !! clSourceSnapshotID k = Some s ->
  needs (clState k) = false ->
  snCloneReferenceCount (if needs (clState k0) then drop_reference s else s)
  = live_clones (<[clCloneID k := k]> (cpClones c)) (clSourceSnapshotID k).
Proof.
  intros Hc Hk Hsrc Hs Hn. rewrite (live_clones_update _ _ k0 _ _ Hk), <-(ct_counts _ Hc _ _ Hs).
  assert (snCloneReferenceCount s = live_clones (cpClones c) (clSourceSnapshotID k)) as E by (by apply Hc).
  pose proof (live_clones_insert_new (delete (clCloneID k) (cpClones c)) (clCloneID k) k0
                (clSourceSnapshotID k) ltac:(apply lookup_delete_eq)) as Hpos.
  rewrite insert_delete_eq, insert_id in Hpos by done. rewrite <-E in Hpos.
  pose proof (live_clones_bound (delete (clCloneID k) (cpClones c)) (clSourceSnapshotID k)).
  unfold needs_snapshot in *. rewrite Hn, <-Hsrc, String.eqb_refl in *. rewrite andb_true_r in *.
  destruct (needs (clState k0)); cbn in *; [|lia].
  unfold drop_reference. destruct (Z.ltb_spec 0 (snCloneReferenceCount s)); cbn; lia.
Qed.

Lemma drop_reference_id s : snSnapshotID (drop_reference s) = snSnapshotID s.
Proof. unfold drop_reference. by destruct (0 <? _). Qed.

(** ** Inverting calls *)

Lemma get_capture_inv {A} (f : captures -> option A) r r' a :
  get_capture f r = (r', Ok a) -> r' = r /\ f (caps r) = Some a.
Proof. unfold get_capture, get_record. destruct (f (caps r)); [|done]. by intros [= <- <-]. Qed.

Lemma read_opt_capture_inv {A} (f : captures -> option A) r r' o :
  read_opt (get_capture f) r = (r', Ok o) -> r' = r /\ o = f (caps r).
Proof. unfold read_opt, get_capture, get_record. destruct (f (caps r)); by intros [= <- <-]. Qed.

Lemma put_capture_inv f r r' u : put_capture f r = (r', Ok u) -> caps r' = f (caps r).
Proof. by intros [= <- _]. Qed.

Lemma ret_inv {S E A} (a b : A) (s s' : S) : ret_act (E:=E) a s = (s', Ok b) -> s' = s /\ b = a.
Proof. by intros [= <- <-]. Qed.

(** Takes a successful run apart, one call after the other. *)
Ltac run_inv :=
  repeat match goal with
  | H : bind_act _ _ _ = (_, Ok _) |- _ => apply bind_act_inv in H as (? & ? & ? & H); cbv beta in *
  | H : get_capture _ _ = (_, Ok _) |- _ => apply get_capture_inv in H as [-> H]; cbv beta in H
  | H : read_opt (get_capture _) _ = (_, Ok _) |- _ => apply read_opt_capture_inv in H as [-> H]; cbv beta in H
  | H : ret_act _ _ = (_, Ok _) |- _ => apply ret_inv in H as [-> H]
  | H : fail_act _ _ = (_, Ok _) |- _ => discriminate H
  | H : put_capture _ _ = (_, Ok _) |- _ => apply put_capture_inv in H
  | H : (if ?b then _ else _) _ = (_, Ok _) |- _ => destruct b eqn:?
  end.

Lemma transaction_counted {A} (m : repo A) r : counted (caps r) ->
  (forall r' a, m r = (r', Ok a) -> counted (caps r')) -> counted (caps (RunInTransaction m r).1).
Proof. unfold RunInTransaction. intros Hc Hm. destruct (m r) as [r' [a|e|]]; cbn; eauto. Qed.

(** A check before a call. *)
Lemma after_check {A} (m : repo unit) (k : repo A) r : (m r).1 = r -> counted (caps r) ->
  counted (caps (k r).1) -> counted (caps (bind_act m (fun _ => k) r).1).
Proof. unfold bind_act. destruct (m r) as [r' [[]|e|]]; cbn; by intros ->. Qed.

Lemma validate_snapshot_same id r : (validateSnapshotID id r).1 = r.
Proof. unfold validateSnapshotID. by destruct (valid_id id). Qed.
Lemma validate_clone_same id r : (validateCloneID id r).1 = r.
Proof. unfold validateCloneID. by destruct (valid_id id). Qed.
#[local] Hint Resolve validate_snapshot_same validate_clone_same : namrbd.

(** Replaces the captures of each state by what the run made of them. *)
Ltac rewrite_caps := repeat match goal with E : caps _ = _ |- _ => rewrite E; clear E end.

(** Applies [counted_move] to the clone and the snapshot a run wrote. *)
Ltac move_count r source :=
  match goal with
  | _ : context [<[_ := ?k]> (cpClones (caps r))], _ : context [<[_ := ?s]> (cpSnapshots _)] |- _ =>
      apply (counted_move (caps r) _ k s source); cbn -[drop_reference live_clones]; [done|done| | | |rewrite_caps; done|rewrite_caps; done]
  end.

Section Calls.
Context (nowUnix : Z) (registrar : option (SnapshotRecord -> repo unit)).
Context (guard : option (Z -> string -> string -> repo unit)).
Context (Hreg : forall f rec r, registrar = Some f -> caps (f rec r).1 = caps r).
Context (Hguard : forall f v id role r, guard = Some f -> caps (f v id role r).1 = caps r).

Lemma register_caps rec r r' u : register_snapshot registrar rec r = (r', Ok u) -> caps r' = caps r.
Proof.
  unfold register_snapshot. destruct registrar as [f|] eqn:E; [|by intros [= <- _]].
  intros H. rewrite <-(Hreg f rec r eq_refl), H. done.
Qed.

Lemma store_snapshot_counted rec r r' a : snCloneReferenceCount rec = 0 -> counted (caps r) ->
  createSnapshotRecordWithStore registrar rec r = (r', Ok a) -> counted (caps r').
Proof.
  intros H0 Hc H. unfold createSnapshotRecordWithStore in H.
  apply bind_act_inv in H as (r1 & idem & Hidem & H).
  assert (r1 = r) as -> by (destruct (String.eqb _ ""); run_inv; done). clear Hidem.
  destruct idem as [idem|].
  - unfold readSnapshotRecord in H. run_inv. by erewrite register_caps.
  - unfold readSnapshotRecord, writeSnapshotRecord in H. run_inv; try done; subst;
      (destruct (cpSnapshots (caps r) !! snSnapshotID rec) eqn:Enew; [done|]);
      erewrite register_caps by done;
      apply (counted_new_snapshot (caps r) _ (rec <| snSourceVolumeID := canon (snSourceVolumeID rec) |>));
      rewrite_caps; done.
Qed.

Lemma create_snapshot_counted rec r : snCloneReferenceCount rec = 0 -> counted (caps r) ->
  counted (caps (CreateSnapshotRecord nowUnix registrar rec r).1).
Proof.
  intros H0 Hc. apply after_check; [auto with namrbd|done|]. destruct (String.eqb _ ""); [done|].
  unfold CanonicalVolumeID. destruct (VolumeId.Parse _) as [v| |]; [|done..].
  apply transaction_counted; [done|]. intros r' a. by apply store_snapshot_counted.
Qed.

Lemma check_deletion_caps id state role r : caps (check_deletion guard id state role r).1 = caps r.
Proof.
  unfold check_deletion. destruct guard as [f|] eqn:Eg; [|done].
  destruct (negb _); [done|]. unfold GetSnapshotRecord, bind_act.
  unfold validateSnapshotID, readSnapshotRecord, get_capture, get_record.
  destruct (valid_id id); [|done]. cbn. destruct (cpSnapshots (caps r) !! id) as [s|]; [|done].
  destruct (VolumeId.ParseLowercase _) as [v| |]; [|done..].
  pose proof (Hguard f v id role r eq_refl) as Hf. by destruct (f v id role r) as [r2 [[]|e|]].
Qed.

Lemma mark_snapshot_counted id state msg role r : counted (caps r) ->
  counted (caps (MarkSnapshotStateAuthorized nowUnix guard id state msg role r).1).
Proof.
  intros Hc. apply after_check; [auto with namrbd|done|]. destruct (String.eqb state ""); [done|].
  pose proof (check_deletion_caps id state role r) as E1. unfold bind_act.
  destruct (check_deletion guard id state role r) as [r1 [[]|e|]]; cbn [fst] in *; try by rewrite E1.
  apply transaction_counted; [by rewrite E1|]. intros r' a H.
  unfold markSnapshotStateWithStore, readSnapshotRecord, writeSnapshotRecord in H. run_inv.
  rewrite E1 in *.
  match goal with E : _ !! id = Some ?s |- _ => rename s into s0, E into Hs end.
  pose proof (ct_snapshot_ids _ Hc _ _ Hs) as Hid. rewrite <-Hid in Hs.
  apply (counted_put_snapshot (caps r) _ (s0 <| snState := state |> <| snErrorMessage := msg |>
      <| snUpdatedAtUnix := nowUnix |> <| snSourceVolumeID := canon (snSourceVolumeID s0) |>) s0);
    [done|exact Hs|done|by rewrite H1..].
Qed.

Lemma store_clone_counted rec r r' a : needs (clState rec) = true -> counted (caps r) ->
  Z.of_nat (size (cpClones (caps r))) < 2 ^ 64 - 1 ->
  createCloneRecordWithStore nowUnix rec r = (r', Ok a) -> counted (caps r').
Proof.
  intros Hn Hc Hsize H. unfold createCloneRecordWithStore in H.
  apply bind_act_inv in H as (r1 & idem & Hidem & H).
  assert (r1 = r) as -> by (destruct (String.eqb _ ""); run_inv; done). clear Hidem.
  destruct idem as [idem|]; [unfold readCloneRecord in H; by run_inv|].
  unfold readSnapshotRecord, readCloneRecord, writeCloneRecord, writeSnapshotRecord in H.
  apply bind_act_inv in H as (r1 & source & Hs & H). run_inv; try done; subst;
    cbn in *; (destruct (cpClones (caps r) !! clCloneID rec) eqn:Enew; [done|]);
    pose proof (ct_snapshot_ids _ Hc _ _ Hs) as Hid;
    pose proof (ct_counts _ Hc _ _ Hs) as Hcount;
    pose proof (live_clones_bound (cpClones (caps r)) (clSourceSnapshotID rec));
    (move_count r source; [done|by rewrite Enew|]);
    rewrite live_clones_insert_new, add64_small by (try done; unfold in_u; lia);
    unfold needs_snapshot; cbn; rewrite Hn, String.eqb_refl; cbn; lia.
Qed.

Lemma create_clone_counted rec r : needs (clState (clone_defaults nowUnix rec)) = true -> counted (caps r) ->
  Z.of_nat (size (cpClones (caps r))) < 2 ^ 64 - 1 ->
  counted (caps (CreateCloneRecord nowUnix rec r).1).
Proof.
  intros Hn Hc Hs. apply after_check; [auto with namrbd|done|]. apply after_check; [auto with namrbd|done|].
  apply transaction_counted; [done|]. intros r' a. by apply store_clone_counted.
Qed.

Lemma mark_clone_counted id state msg r : needs state = true -> counted (caps r) ->
  (forall k, cpClones (caps r) !! id = Some k -> needs (clState k) = true) ->
  counted (caps (MarkCloneState nowUnix id state msg r).1).
Proof.
  intros Hn Hc Hold. apply after_check; [auto with namrbd|done|]. destruct (String.eqb state ""); [done|].
  apply transaction_counted; [done|]. intros r' a H.
  unfold markCloneStateWithStore, readCloneRecord, writeCloneRecord in H. run_inv.
  match goal with E : _ !! id = Some ?k |- _ => rename k into k0, E into Hk end.
  specialize (Hold _ Hk). pose proof (ct_clone_ids _ Hc _ _ Hk) as Hid. rewrite <-Hid in Hk.
  apply (counted_put_clone (caps r) _ (k0 <| clState := state |> <| clErrorMessage := msg |>
    <| clUpdatedAtUnix := nowUnix |> <| clSourceVolumeID := canon (clSourceVolumeID k0) |>) k0);
    [done|exact Hk|done|cbn; by rewrite Hold|rewrite_caps; done..].
Qed.

Lemma materialize_counted id vol r : counted (caps r) ->
  counted (caps (MarkCloneMaterialized nowUnix id vol r).1).
Proof.
  intros Hc. apply after_check; [auto with namrbd|done|].
  unfold CanonicalVolumeID. destruct (VolumeId.Parse _) as [v| |]; [|done..].
  apply transaction_counted; [done|]. generalize (VolumeId.Format v). intros volumeID r' a H.
  unfold markCloneMaterializedWithStore, readSnapshotRecord, readCloneRecord, writeCloneRecord, writeSnapshotRecord in H.
  apply bind_act_inv in H as (r1 & k & Hk & H). run_inv; try done.
  match goal with E : cpSnapshots _ !! _ = Some ?s |- _ => rename s into source, E into Hs end.
  pose proof (ct_clone_ids _ Hc _ _ Hk) as Hid. rewrite <-Hid in Hk.
  assert (needs (clState k) = true) as Hn.
  { unfold needs. by repeat match goal with E : String.eqb (clState k) _ = false |- _ => rewrite E; clear E end. }
  move_count r source; [by rewrite drop_reference_id, (ct_snapshot_ids _ Hc _ _ Hs)|congruence|].
  match goal with |- _ = live_clones (<[_ := ?k']> _) _ =>
    pose proof (dropped_count (caps r) k' k source Hc Hk eq_refl Hs eq_refl) as E end.
  rewrite Hn in E. exact E.
Qed.

Lemma delete_clone_counted id r : counted (caps r) -> counted (caps (DeleteCloneRecord nowUnix id r).1).
Proof.
  intros Hc. apply after_check; [auto with namrbd|done|]. apply transaction_counted; [done|]. intros r' a H.
  unfold deleteCloneRecordWithStore, readSnapshotRecord, readCloneRecord, writeCloneRecord, writeSnapshotRecord in H.
  apply bind_act_inv in H as (r1 & k & Hk & H). run_inv; try done.
  match goal with E : cpSnapshots _ !! _ = Some ?s |- _ => rename s into source, E into Hs end.
  pose proof (ct_clone_ids _ Hc _ _ Hk) as Hid. rewrite <-Hid in Hk.
  assert (needs (clState k) = negb (String.eqb (clState k) CloneStateMaterialized)) as Hn.
  { unfold needs. destruct (String.eqb (clState k) CloneStateDeleted); [done|]. apply andb_true_r. }
  rewrite <-Hn in *.
  move_count r source; [by destruct (needs _); rewrite ?drop_reference_id, (ct_snapshot_ids _ Hc _ _ Hs)|congruence|].
  match goal with |- _ = live_clones (<[_ := ?k']> _) _ =>
    exact (dropped_count (caps r) k' k source Hc Hk eq_refl Hs eq_refl) end.
Qed.

Lemma put_delta_pages_keeps clone id pages : forall seen n m r r' a,
  put_delta_pages clone id pages seen n m r = (r', Ok a) ->
  cpSnapshots (caps r') = cpSnapshots (caps r) /\ cpClones (caps r') = cpClones (caps r).
Proof.
  induction pages as [|page pages IH]; intros seen n m r r' a H; cbn [put_delta_pages] in H; [by run_inv|].
  unfold readCloneDeltaAllocationPage in H. run_inv; try done. apply IH in H as [-> ->].
  by match goal with E : caps _ = _ |- _ => rewrite E end.
Qed.

Lemma put_delta_counted id pages r : counted (caps r) ->
  counted (caps (PutCloneDeltaAllocationPages nowUnix id pages r).1).
Proof.
  intros Hc. apply after_check; [auto with namrbd|done|]. destruct (zlen pages =? 0); [done|].
  apply transaction_counted; [done|]. intros r' a H.
  unfold putCloneDeltaAllocationPagesWithStore, readCloneRecord, writeCloneRecord in H.
  apply bind_act_inv in H as (r1 & k & Hk & H). run_inv; try done.
  match goal with E : put_delta_pages _ _ _ _ _ _ _ = (_, Ok ?c) |- _ =>
    apply put_delta_pages_keeps in E as [Es Ek]; rename c into counts end.
  pose proof (ct_clone_ids _ Hc _ _ Hk) as Hid. rewrite <-Hid in Hk.
  apply (counted_put_clone (caps r) _ (k <| clDeltaPageCount := counts.1 |> <| clDeltaObjectCount := counts.2 |>
    <| clUpdatedAtUnix := nowUnix |> <| clSourceVolumeID := canon (clSourceVolumeID k) |>) k);
    [done|exact Hk|done|done|..]; rewrite_caps; cbn; by rewrite ?Es, ?Ek.
Qed.

Lemma write_snapshot_pages_keeps id pages : forall r r' a,
  write_snapshot_pages id pages r = (r', Ok a) ->
  cpSnapshots (caps r') = cpSnapshots (caps r) /\ cpClones (caps r') = cpClones (caps r).
Proof.
  induction pages as [|page pages IH]; intros r r' a H; cbn [write_snapshot_pages] in H; [by run_inv|].
  unfold writeSnapshotPage in H. run_inv. apply IH in H as [-> ->].
  by match goal with E : caps _ = _ |- _ => rewrite E end.
Qed.

Lemma capture_counted id pages r : counted (caps r) ->
  counted (caps (CaptureSnapshotAllocationPages id pages r).1).
Proof.
  intros Hc. apply after_check; [auto with namrbd|done|]. apply transaction_counted; [done|].
  intros r' a [Es Ek]%write_snapshot_pages_keeps. by apply (counted_ext (caps r)).
Qed.

End Calls.

(** ** Reference counts *)

(** The calls that change snapshots and clones. *)
Inductive clone_call :=
| CallCreateSnapshot (rec : SnapshotRecord)
| CallMarkSnapshot (snapshotID state errorMessage callerRole : string)
| CallCapture (snapshotID : string) (pages : list AllocationPageRecord)
| CallCreateClone (rec : CloneRecord)
| CallMarkClone (cloneID state errorMessage : string)
| CallMaterialize (cloneID volumeID : string)
| CallDeleteClone (cloneID : string)
| CallPutDelta (cloneID : string) (pages : list AllocationPageRecord).

Section Counts.
Context (registrar : option (SnapshotRecord -> repo unit)).
Context (guard : option (Z -> string -> string -> repo unit)).

Definition run_call (nowUnix : Z) (call : clone_call) (r : Repository) : Repository :=
  match call with
  | CallCreateSnapshot rec => (CreateSnapshotRecord nowUnix registrar rec r).1
  | CallMarkSnapshot id state msg role => (MarkSnapshotStateAuthorized nowUnix guard id state msg role r).1
  | CallCapture id pages => (CaptureSnapshotAllocationPages id pages r).1
  | CallCreateClone rec => (CreateCloneRecord nowUnix rec r).1
  | CallMarkClone id state msg => (MarkCloneState nowUnix id state msg r).1
  | CallMaterialize id volumeID => (MarkCloneMaterialized nowUnix id volumeID r).1
  | CallDeleteClone id => (DeleteCloneRecord nowUnix id r).1
  | CallPutDelta id pages => (PutCloneDeltaAllocationPages nowUnix id pages r).1
  end.

(** What the callers keep to: a new record carries no count and no final
    state, and [MarkCloneState] moves a clone between states in which it needs
    its snapshot (the final states have calls of their own). *)
Definition call_ok (call : clone_call) (r : Repository) : Prop :=
  match call with
  | CallCreateSnapshot rec => snCloneReferenceCount rec = 0
  | CallCreateClone rec => needs (clState rec) = true /\
      Z.of_nat (size (cpClones (caps r))) < 2 ^ 64 - 1
  | CallMarkClone id state _ => needs state = true /\
      forall k, cpClones (caps r) !! id = Some k -> needs (clState k) = true
  | _ => True
  end.

Inductive reachable : Repository -> Prop :=
| reach_init r : caps r = no_captures -> reachable r
| reach_call nowUnix call r : reachable r -> call_ok call r -> reachable (run_call nowUnix call r).

(** C12: the reference count of a snapshot is exact.  Starting from a store
    without snapshots, after any sequence of calls, failed ones included, in which
    new snapshots carry no count, new clones are not in a final state, and
    [MarkCloneState] is called for clones that are neither materialized nor deleted
    and moves them to such a state, the count of every snapshot is the number of its
    clones that are neither materialized nor deleted; in particular a snapshot whose
    count is zero has no clone that reads through it.  (See [revived_clone_uncounted]
    for a call of [MarkCloneState] on a deleted clone.) *)
Theorem reference_count_exact (r : Repository) (snapshotID : string) (s : SnapshotRecord) :
  (forall f rec r, registrar = Some f -> caps (f rec r).1 = caps r) ->
  (forall f v id role r, guard = Some f -> caps (f v id role r).1 = caps r) ->
  reachable r -> cpSnapshots (caps r) !! snapshotID = Some s ->
  snCloneReferenceCount s = live_clones (cpClones (caps r)) snapshotID.
Proof.
  intros Hreg Hguard Hr. revert snapshotID s. apply ct_counts. induction Hr as [r E|now call r _ IH Hcall].
  - rewrite E. unfold no_captures. by split; cbn [cpSnapshots cpClones]; intros ?? H; rewrite lookup_empty in H.
  - destruct call; cbn [run_call call_ok] in Hcall |- *.
    + by apply create_snapshot_counted.
    + by apply mark_snapshot_counted.
    + by apply capture_counted.
    + destruct Hcall as [Hn Hs]. apply create_clone_counted; [|done|done].
      cbn -[needs]. by destruct (String.eqb (clState rec) "").
    + destruct Hcall as [Hn Hold]. by apply mark_clone_counted.
    + by apply materialize_counted.
    + by apply delete_clone_counted.
    + by apply put_delta_counted.
Qed.

End Counts.

(** ** A snapshot with a deleted and a live clone *)

Definition snap_rec : SnapshotRecord :=
  zero_SnapshotRecord <| snSnapshotID := "s1" |> <| snSourceVolumeID := "00000001" |> <| snSourceSizeBytes := 16 |>
    <| snAllocationPageSizeBytes := 16 |> <| snAllocationChunkSizeBytes := 4 |> <| snIdempotencyKey := "i" |>.
Definition clone_rec (id : string) : CloneRecord :=
  zero_CloneRecord <| clCloneID := id |> <| clSourceSnapshotID := "s1" |>.
Definition empty_repo : Repository :=
  mkRepository (mkStore ∅ ∅ ∅ ∅ ∅ ∅ ∅ ∅ ∅ no_captures) ∅ false.

Definition cloned_repo : Repository :=
  run_call None None 4 (CallDeleteClone "c2") (run_call None None 3 (CallCreateClone (clone_rec "c2"))
    (run_call None None 2 (CallCreateClone (clone_rec "c1"))
       (run_call None None 1 (CallCreateSnapshot snap_rec) empty_repo))).

Lemma reference_count_exact_witness :
  exists s, cpSnapshots (caps cloned_repo) !! "s1" = Some s /\ snCloneReferenceCount s = 1 /\
    live_clones (cpClones (caps cloned_repo)) "s1" = 1.
Proof.
  assert (cpSnapshots (caps cloned_repo) !! "s1"
          = Some (default zero_SnapshotRecord (cpSnapshots (caps cloned_repo) !! "s1"))) as E
    by (vm_compute; reflexivity).
  eexists. split; [exact E|]. split; [vm_compute; reflexivity|].
  rewrite <-(reference_count_exact None None cloned_repo "s1"
    (default zero_SnapshotRecord (cpSnapshots (caps cloned_repo) !! "s1"))); [vm_compute; reflexivity|done|done| |exact E].
  apply reach_call; [|done]. apply reach_call; [|split; [done|vm_compute; reflexivity]].
  apply reach_call; [|split; [done|vm_compute; reflexivity]]. apply reach_call; [|done]. by apply reach_init.
Defined.

(** A clone that is deleted while it is being materialized, and then marked as failed by the materialization that finds
    it gone, is alive again and not counted. *)
Definition revived_repo : Repository :=
  run_call None None 6 (CallMarkClone "c1" CloneStateFailed "target volume") (run_call None None 5 (CallMaterialize "c1" "00000002")
    (run_call None None 4 (CallDeleteClone "c1") (run_call None None 3 (CallMarkClone "c1" CloneStateMaterializing "")
      (run_call None None 2 (CallCreateClone (clone_rec "c1")) (run_call None None 1 (CallCreateSnapshot snap_rec) empty_repo))))).

Lemma revived_clone_uncounted :
  snCloneReferenceCount <$> cpSnapshots (caps revived_repo) !! "s1" = Some 0 /\ live_clones (cpClones (caps revived_repo)) "s1" = 1.
Proof. vm_compute. split; reflexivity. Qed.

End SnapshotsFacts.
