(* ===== verification/Resolver.v ===== *)
(** * Resolving placements and pages, and planning over the repository

    Models src/sbs/cluster/metadata/service.go (extent placements, allocation
    pages of a volume, a snapshot or a clone, the scope of a mutation operation)
    and the planning methods of src/sbs/cluster/replication/coordinator.go on
    top of it.  The node memberships are the argument [listNodes]: the listing
    with its projection and cache is not modelled.  The placement and
    copy-on-write caches of the coordinator are off ([cacheTTL] is zero unless
    it is set); statistics and timings are left out. *)

From Stdlib Require Import ZArith Lia Ascii String.
From stdpp Require Import base list gmap strings sorting.
From S2P Require Import Prelude GoStrings VolumeId SbsTypes MetaTypes AllocationCommit WritePipeline MetaPages MetaRepo MetaSnapshots Executor.
Open Scope string_scope.
Open Scope Z_scope.

Module Resolver.
Import Sbs Meta Allocation MetaPages MetaRepo Snapshots.
Open Scope act_scope.

Definition resolveAllocationPagesListThreshold : Z := 8.

#[export] Instance by_string_dec {A} (name : A -> string) :
  RelDecision (fun a b : A => String.le (name a) (name b)).
Proof. intros a b. apply _. Defined.

Definition ListReplicaSets (volumeID : string) : repo (list ReplicaSetState) := fun r =>
  (r, Ok (merge_sort (fun a b => String.le (rsReplicaSetID a) (rsReplicaSetID b))
            (map snd (List.filter (fun kv => String.eqb (fst (fst kv)) (canon volumeID))
                        (map_to_list (stReplicaSets (rStore r))))))).

Definition ListMutationOperations (volumeID : string) : repo (list MutationOperationRecord) := fun r =>
  (r, Ok (merge_sort (by_created moLastUpdatedAtUnix moOperationID)
            (map snd (List.filter (fun kv => String.eqb (fst (fst kv)) (canon volumeID))
                        (map_to_list (stOps (rStore r))))))).

(** ** Placements *)

(** The replica sets by placement, a later one in the list winning. *)
Definition by_placement (replicaSets : list ReplicaSetState) : gmap string ReplicaSetState :=
  fold_left (fun m s => <[rsPlacementRef s := s]> m) replicaSets ∅.

Fixpoint select_placements (mappings : list ExtentMappingRecord) (sets : gmap string ReplicaSetState)
    (nodes : gmap string NodeMembershipRecord) (offsetBytes rangeEnd : Z)
  : result meta_error (list ResolvedExtentPlacement) :=
  match mappings with
  | [] => Ok []
  | mapping :: mappings =>
      let extentEnd := add64 (emLogicalOffset mapping) (emLengthBytes mapping) in
      if (extentEnd <=? offsetBytes) || (rangeEnd <=? emLogicalOffset mapping)
      then select_placements mappings sets nodes offsetBytes rangeEnd else
      match sets !! emPlacementRef mapping with
      | None => Err (PlacementRefMissing (emPlacementRef mapping))
      | Some replicaSet =>
          rest ← select_placements mappings sets nodes offsetBytes rangeEnd;
          Ok (mkResolvedPlacement mapping replicaSet nodes :: rest)
      end
  end.

Section Nodes.
Context (listNodes : repo (list (string * NodeMembershipRecord))).

Definition ResolveExtentPlacements (volumeID : string) (offsetBytes lengthBytes : Z)
  : repo (list ResolvedExtentPlacement) :=
  if lengthBytes =? 0 then ret_act [] else
  mappings <-- ListExtentMappings volumeID;
  replicaSets <-- ListReplicaSets volumeID;
  nodes <-- listNodes;
  let byNodeID := fold_left (fun m node => <[fst node := snd node]> m) nodes ∅ in
  lift_act (select_placements mappings (by_placement replicaSets) byNodeID offsetBytes
              (add64 offsetBytes lengthBytes)).

(** ** Allocation pages *)

(** First and last chunk and page of a range, and the chunks of a page. *)
Record page_span := mkSpan { psStartChunk : Z; psEndChunk : Z; psStartPage : Z; psEndPage : Z; psPerPage : Z }.

Definition span_of (offsetBytes lengthBytes pageBytes chunkSizeBytes : Z) : page_span :=
  let chunksPerPage := pageBytes / chunkSizeBytes in
  let startChunk := offsetBytes / chunkSizeBytes in
  let endChunk := sub64 (add64 offsetBytes lengthBytes) 1 / chunkSizeBytes in
  mkSpan startChunk endChunk (startChunk / chunksPerPage) (endChunk / chunksPerPage) chunksPerPage.

Definition page_count (s : page_span) : Z := add64 (sub64 (psEndPage s) (psStartPage s)) 1.

(** [make] of a slice for the pages: a count that wrapped around is too large. *)
Definition make_pages (s : page_span) : repo unit := fun r =>
  if (psEndPage s <? psStartPage s) && negb (page_count s =? 0) then (r, Panic) else (r, Ok tt).

Definition resolved_page (s : page_span) (pageNo : Z) (page : AllocationPageRecord) : ResolvedAllocationPage :=
  let pageStartChunk := mul64 pageNo (psPerPage s) in
  let pageEndChunk := add64 pageStartChunk (psPerPage s) in
  let rangeStartChunk := Z.max (psStartChunk s) pageStartChunk in
  let rangeEndChunk := Z.min (add64 (psEndChunk s) 1) pageEndChunk in
  mkResolvedAllocationPage page rangeStartChunk rangeEndChunk
    ((rangeStartChunk =? pageStartChunk) && (rangeEndChunk =? pageEndChunk)).

Definition appendResolvedAllocationPage (s : page_span) (page : AllocationPageRecord) : ResolvedAllocationPage :=
  resolved_page s (apPageNo page) page.

(** A loop over [n] pages from [pageNo] on. *)
Fixpoint over_pages (n : nat) (pageNo : Z) (one : Z -> repo ResolvedAllocationPage)
  : repo (list ResolvedAllocationPage) :=
  match n with
  | O => ret_act []
  | S n =>
      page <-- one pageNo;
      rest <-- over_pages n (add64 pageNo 1) one;
      ret_act (page :: rest)
  end.

Definition page_steps (s : page_span) : nat := Z.to_nat (psEndPage s - psStartPage s + 1).

Definition resolveAllocationPagesFromList (volumeID : string) (pageBytes chunkSizeBytes : Z) (s : page_span)
  : repo (option (list ResolvedAllocationPage)) :=
  pages <-- ListCompatibleAllocationPages volumeID pageBytes chunkSizeBytes;
  if zlen pages =? 0 then ret_act None else
  let byPageNo : gmap Z AllocationPageRecord := fold_left (fun m page => <[apPageNo page := page]> m) pages ∅ in
  make_pages s;;
  out <-- over_pages (page_steps s) (psStartPage s) (fun pageNo =>
            page <-- match byPageNo !! pageNo with
                     | Some page => ret_act page
                     | None => lift_act (zeroAllocationPage volumeID pageNo pageBytes chunkSizeBytes)
                     end;
            ret_act (appendResolvedAllocationPage s page));
  ret_act (Some out).

Definition ResolveAllocationPages (volumeID : string) (offsetBytes lengthBytes pageBytes chunkSizeBytes : Z)
  : repo (list ResolvedAllocationPage) :=
  if lengthBytes =? 0 then ret_act [] else
  if bad_page_geometry pageBytes chunkSizeBytes
  then fail_act (InvalidPageGeometry 0 pageBytes chunkSizeBytes) else
  let s := span_of offsetBytes lengthBytes pageBytes chunkSizeBytes in
  listed <-- (if resolveAllocationPagesListThreshold <=? page_count s
              then resolveAllocationPagesFromList volumeID pageBytes chunkSizeBytes s else ret_act None);
  match listed with
  | Some out => ret_act out
  | None =>
      make_pages s;;
      over_pages (page_steps s) (psStartPage s) (fun pageNo =>
        page <-- GetCompatibleAllocationPage volumeID pageNo pageBytes chunkSizeBytes;
        ret_act (appendResolvedAllocationPage s page))
  end.

(** The loop of [resolveCapturedAllocationPages]; [zeroVolumeID] is filled in
    from the snapshot record at the first page the capture does not have. *)
Fixpoint captured_loop (n : nat) (pageNo : Z) (rootID zeroVolumeID : string) (pageBytes chunkSizeBytes : Z)
    (s : page_span) : repo (list ResolvedAllocationPage) :=
  match n with
  | O => ret_act []
  | S n =>
      stored <-- read_opt (GetSnapshotAllocationPage rootID pageNo);
      found <-- match stored with
                | Some page => ret_act (page, zeroVolumeID)
                | None =>
                    zeroVolumeID <-- (if String.eqb zeroVolumeID "" then
                                        snapshot <-- GetSnapshotRecord rootID;
                                        ret_act (snSourceVolumeID snapshot)
                                      else ret_act zeroVolumeID);
                    page <-- lift_act (zeroAllocationPage zeroVolumeID pageNo pageBytes chunkSizeBytes);
                    ret_act (page, zeroVolumeID)
                end;
      if negb (apPageBytes found.1 =? pageBytes) || negb (apChunkSizeBytes found.1 =? chunkSizeBytes)
      then fail_act (CapturedGeometryMismatch pageNo) else
      rest <-- captured_loop n (add64 pageNo 1) rootID found.2 pageBytes chunkSizeBytes s;
      ret_act (resolved_page s pageNo found.1 :: rest)
  end.

Definition resolveCapturedAllocationPages (rootID zeroVolumeID : string)
    (offsetBytes lengthBytes pageBytes chunkSizeBytes : Z) : repo (list ResolvedAllocationPage) :=
  let s := span_of offsetBytes lengthBytes pageBytes chunkSizeBytes in
  make_pages s;;
  captured_loop (page_steps s) (psStartPage s) rootID zeroVolumeID pageBytes chunkSizeBytes s.

Definition ResolveSnapshotAllocationPages (snapshotID : string)
    (offsetBytes lengthBytes pageBytes chunkSizeBytes : Z) : repo (list ResolvedAllocationPage) :=
  if lengthBytes =? 0 then ret_act [] else
  if bad_page_geometry pageBytes chunkSizeBytes
  then fail_act (InvalidPageGeometry 0 pageBytes chunkSizeBytes) else
  resolveCapturedAllocationPages snapshotID "" offsetBytes lengthBytes pageBytes chunkSizeBytes.

(** The delta pages of a clone over the pages of its base. *)
Fixpoint overlay_deltas (cloneID : string) (pageBytes chunkSizeBytes : Z) (pages : list ResolvedAllocationPage)
  : repo (list ResolvedAllocationPage) :=
  match pages with
  | [] => ret_act []
  | page :: pages =>
      delta <-- read_opt (GetCloneDeltaAllocationPage cloneID (apPageNo (raPage page)));
      page <-- match delta with
               | None => ret_act page
               | Some delta =>
                   if negb (apPageBytes delta =? pageBytes) || negb (apChunkSizeBytes delta =? chunkSizeBytes)
                   then fail_act (PageGeometryMismatch (apPageNo delta))
                   else ret_act (page <| raPage := delta |>)
               end;
      rest <-- overlay_deltas cloneID pageBytes chunkSizeBytes pages;
      ret_act (page :: rest)
  end.

Definition ResolveCloneAllocationPages (cloneID : string)
    (offsetBytes lengthBytes pageBytes chunkSizeBytes : Z) : repo (list ResolvedAllocationPage) :=
  if lengthBytes =? 0 then ret_act [] else
  if bad_page_geometry pageBytes chunkSizeBytes
  then fail_act (InvalidPageGeometry 0 pageBytes chunkSizeBytes) else
  clone <-- GetCloneRecord cloneID;
  if negb (String.eqb (clState clone) CloneStateAvailable)
     && negb (String.eqb (clState clone) CloneStateMaterializing)
  then fail_act (CloneUnavailable (clState clone)) else
  if negb (clAllocationPageSizeBytes clone =? pageBytes)
     || negb (clAllocationChunkSizeBytes clone =? chunkSizeBytes)
  then fail_act (PageGeometryMismatch 0) else
  basePages <-- resolveCapturedAllocationPages (clCloneBaseRootID clone) (clSourceVolumeID clone)
                  offsetBytes lengthBytes pageBytes chunkSizeBytes;
  overlay_deltas cloneID pageBytes chunkSizeBytes basePages.

(** ** The scope of a mutation operation *)

(** For an extent whose end does not wrap, which the loop needs to end. *)
Definition pageNosForExtentMapping (mapping : ExtentMappingRecord) (pageBytes : Z) : list Z :=
  if (pageBytes =? 0) || (emLengthBytes mapping =? 0) then [] else
  let startPage := emLogicalOffset mapping / pageBytes in
  let endPage := sub64 (add64 (emLogicalOffset mapping) (emLengthBytes mapping)) 1 / pageBytes in
  map (fun i => startPage + Z.of_nat i) (seq 0 (Z.to_nat (endPage - startPage + 1))).

Definition extentMappingTouchesAnyPage (mapping : ExtentMappingRecord) (pageNos : gset Z) (pageBytes : Z) : bool :=
  existsb (fun pageNo => bool_decide (pageNo ∈ pageNos)) (pageNosForExtentMapping mapping pageBytes).

Definition allocationPageContainsAnyPhysicalChunk (page : AllocationPageRecord) (targetChunks : gset Z) : bool :=
  existsb (fun extent =>
    String.eqb (aeKind extent) AllocationKindData && negb (aePhysicalChunkStart extent =? 0)
    && negb (aeChunkCount extent =? 0)
    && existsb (fun chunkID => (aePhysicalChunkStart extent <=? chunkID)
                 && (chunkID <? add64 (aePhysicalChunkStart extent) (aeChunkCount extent)))
         (elements targetChunks)) (apExtents page).

Definition sortedUint64Keys (values : gset Z) : list Z := merge_sort Z.le (elements values).

Record ReconciledMutationScope := mkReconciled {
  rmOperation : MutationOperationRecord; rmAffectedExtentIDs : list Z; rmAffectedPageNos : list Z;
  rmChanged : bool }.

Definition nonzero_set (ids : list Z) : gset Z := list_to_set (List.filter (fun id => negb (id =? 0)) ids).

(** The extent and page sets once they are completed from each other. *)
Definition reconcile_sets (volumeID : string) (op : MutationOperationRecord) (mappings : list ExtentMappingRecord)
    (pageBytes chunkSizeBytes : Z) : repo (gset Z * gset Z) :=
  let extentSet := nonzero_set (moAffectedExtentIDs op) in
  let pageSet : gset Z := list_to_set (moAffectedPageNos op) in
  if (pageBytes =? 0) || (chunkSizeBytes =? 0) then ret_act (extentSet, pageSet) else
  let extentByID : gmap Z ExtentMappingRecord := fold_left (fun m x => <[emExtentID x := x]> m) mappings ∅ in
  let pageSet :=
    if (zlen (elements pageSet) =? 0) && (0 <? zlen (elements extentSet)) then
      list_to_set (concat (map (fun extentID =>
        match extentByID !! extentID with
        | Some mapping => pageNosForExtentMapping mapping pageBytes
        | None => []
        end) (elements extentSet)))
    else pageSet in
  let targetChunks := nonzero_set (moRetiredPhysicalChunkIDs op) in
  pageSet <-- (if (zlen (elements pageSet) =? 0) && (0 <? zlen (moRetiredPhysicalChunkIDs op))
                  && (0 <? zlen (elements targetChunks)) then
                 pages <-- ListCompatibleAllocationPages volumeID pageBytes chunkSizeBytes;
                 ret_act (list_to_set (map apPageNo
                   (List.filter (fun page => allocationPageContainsAnyPhysicalChunk page targetChunks) pages)))
               else ret_act pageSet);
  let extentSet :=
    if (zlen (elements extentSet) =? 0) && (0 <? zlen (elements pageSet)) then
      list_to_set (map emExtentID
        (List.filter (fun mapping => extentMappingTouchesAnyPage mapping pageSet pageBytes) mappings))
    else extentSet in
  ret_act (extentSet, pageSet).

Definition ReconcileMutationOperationScope (volumeID : string) (op : MutationOperationRecord)
    (pageBytes chunkSizeBytes : Z) : repo ReconciledMutationScope :=
  let volumeID := if String.eqb volumeID "" then moVolumeID op else volumeID in
  if String.eqb volumeID "" then ret_act (mkReconciled op [] [] false) else
  mappings <-- ListExtentMappings volumeID;
  sets <-- reconcile_sets volumeID op mappings pageBytes chunkSizeBytes;
  let extents := sortedUint64Keys sets.1 in
  let pages := sortedUint64Keys sets.2 in
  let newExtents := negb (bool_decide (moAffectedExtentIDs op = extents)) in
  let newPages := negb (bool_decide (moAffectedPageNos op = pages)) in
  let operation := op <| moVolumeID := volumeID |> in
  let operation := if newExtents then operation <| moAffectedExtentIDs := extents |> else operation in
  let operation := if newPages then operation <| moAffectedPageNos := pages |> else operation in
  ret_act (mkReconciled operation extents pages (newExtents || newPages)).

(** ** coordinator.go *)

Abbreviation plan A := (act Repository Exec.exec_error A).

Definition from_meta {A} (m : repo A) : plan A := Exec.map_err_act Exec.MetaErr m.
Definition from_pipeline {A} (x : result Pipeline.pipeline_error A) : plan A :=
  lift_act (map_err Exec.PipelineErr x).

Definition sourceWriteRequiresCopyOnWrite (volumeID : string) : repo bool :=
  records <-- ListSnapshotRecords volumeID false;
  ret_act (existsb (fun record => String.eqb (snState record) SnapshotStateCreating
                                  || String.eqb (snState record) SnapshotStateAvailable
                                  || String.eqb (snState record) SnapshotStateDeleting) records).

(** Pages are resolved only when the request carries a geometry. *)
Definition plan_pages (pageBytes chunkSizeBytes : Z) (resolve : repo (list ResolvedAllocationPage))
  : repo (list ResolvedAllocationPage) :=
  if (0 <? pageBytes) && (0 <? chunkSizeBytes) then resolve else ret_act [].

Definition PlanWrite (volumeID : string) (offsetBytes lengthBytes pageBytes chunkSizeBytes : Z)
  : plan WritePlan :=
  resolved <-- from_meta (ResolveExtentPlacements volumeID offsetBytes lengthBytes);
  pages <-- from_meta (plan_pages pageBytes chunkSizeBytes
              (ResolveAllocationPages volumeID offsetBytes lengthBytes pageBytes chunkSizeBytes));
  copyOnWrite <-- from_meta (sourceWriteRequiresCopyOnWrite volumeID);
  extents <-- from_pipeline (Pipeline.write_plans resolved pages chunkSizeBytes copyOnWrite);
  ret_act (mkWritePlan volumeID extents).

Definition PlanCloneWrite (cloneID sourceVolumeID : string) (offsetBytes lengthBytes pageBytes chunkSizeBytes : Z)
  : plan WritePlan :=
  resolved <-- from_meta (ResolveExtentPlacements sourceVolumeID offsetBytes lengthBytes);
  pages <-- from_meta (plan_pages pageBytes chunkSizeBytes
              (ResolveCloneAllocationPages cloneID offsetBytes lengthBytes pageBytes chunkSizeBytes));
  p <-- from_pipeline (Pipeline.buildWritePlanFromResolved sourceVolumeID resolved pages chunkSizeBytes);
  ret_act (mkWritePlan (wplVolumeID p)
             (map (fun e => e <| wpCopyOnWrite := true |> <| wpBaseAllocations := wpAllocationPages e |>)
                (wplExtents p))).

Definition PlanRead (volumeID : string) (offsetBytes lengthBytes pageBytes chunkSizeBytes : Z) : plan ReadPlan :=
  resolved <-- from_meta (ResolveExtentPlacements volumeID offsetBytes lengthBytes);
  pages <-- from_meta (plan_pages pageBytes chunkSizeBytes
              (ResolveAllocationPages volumeID offsetBytes lengthBytes pageBytes chunkSizeBytes));
  from_pipeline (Pipeline.buildReadPlanFromResolved volumeID resolved pages chunkSizeBytes).

Definition PlanCloneRead (cloneID sourceVolumeID : string) (offsetBytes lengthBytes pageBytes chunkSizeBytes : Z)
  : plan ReadPlan :=
  resolved <-- from_meta (ResolveExtentPlacements sourceVolumeID offsetBytes lengthBytes);
  pages <-- from_meta (plan_pages pageBytes chunkSizeBytes
              (ResolveCloneAllocationPages cloneID offsetBytes lengthBytes pageBytes chunkSizeBytes));
  from_pipeline (Pipeline.buildReadPlanFromResolved sourceVolumeID resolved pages chunkSizeBytes).

Definition PlanSnapshotRead (snapshotID sourceVolumeID : string)
    (offsetBytes lengthBytes pageBytes chunkSizeBytes : Z) : plan ReadPlan :=
  resolved <-- from_meta (ResolveExtentPlacements sourceVolumeID offsetBytes lengthBytes);
  pages <-- from_meta (plan_pages pageBytes chunkSizeBytes
              (ResolveSnapshotAllocationPages snapshotID offsetBytes lengthBytes pageBytes chunkSizeBytes));
  from_pipeline (Pipeline.buildReadPlanFromResolved sourceVolumeID resolved pages chunkSizeBytes).

End Nodes.

End Resolver.
