(* ===== verification/LocalReplica.v ===== *)
(** * The local replica stores of the storage cluster

    Models src/sbs/cluster/replication/local_writer.go (writing one extent of a
    plan to the payload store of every target), local_reader.go (reading it
    back, with fallbacks), the community build of the payload encryptor
    (payload_encryption_community.go) and the extent loop of read_service.go.

    The payload stores live in a world [W]; [stores] is the map from replica id
    to store, each a [PayloadStore].  The map of encryption headers of one
    [WriteExtent] is shared by the targets and is threaded beside the world.
    [time.Now] and the durations of [ReplicaWriteStats] are not modelled. *)

From Stdlib Require Import ZArith Lia Ascii String.
From stdpp Require Import base list gmap strings sorting.
From S2P Require Import Prelude GoStrings GatewayTypes ObjectStore SbsTypes AllocationCommit WritePipeline MetaPages Executor.
Open Scope string_scope.
Open Scope Z_scope.

Module LocalReplica.
Import Sbs Allocation Store Pipeline.
#[local] Existing Instance MetaPages.PayloadEncryptionHeader_eq_dec.

Inductive replica_error :=
| RequestOutsideExtent
| RequestDataShort
| NoLocalStore (replicaID : string)
| EncryptionNeedsMappings
| EnterpriseOnly
| PayloadLengthMismatch
| MergeWindowOutOfBounds
| EncryptedPayloadNotFound (replicaID : string)
| ConflictingEncryption (logicalChunk : Z)
| PayloadNotFound (replicaID : string)
| PayloadTooShort (replicaID : string)
| NoReadableReplica
| CloneAndSnapshot
| PlanFailed (e : Exec.exec_error)
| StoreFailed (e : Gateway.svc_error).

(** [store.ObjectStore], with the listing the garbage collector uses. *)
Record PayloadStore (W : Type) := mkPayloadStore {
  psStore : ObjectStore W;
  psList : string -> string -> Z -> act W Gateway.svc_error (list string * string) }.
Arguments psStore {W} _.
Arguments psList {W} _.

Definition localReplicaPayloadKey (replicaID volumeID : string) (extentID chunkID : Z) : string :=
  "replicas/" ++ replicaID ++ "/volumes/" ++ volumeID ++ "/extents/" ++ format_020d extentID ++
  "/chunks/" ++ format_020d chunkID.

(** ** payload_encryption_community.go *)

Record localReplicaPayloadEncryptor := mkEncryptor { enabled : bool }.

(** [newLocalReplicaPayloadEncryptor], of the only field it reads. *)
Definition newLocalReplicaPayloadEncryptor (cfgEnabled : bool) : option localReplicaPayloadEncryptor :=
  if negb cfgEnabled then None else Some (mkEncryptor true).

Definition encryptChunk (e : option localReplicaPayloadEncryptor) (plaintext : bytes)
  : result replica_error (bytes * option PayloadEncryptionHeader) :=
  match e with None => Ok (plaintext, None) | Some _ => Err EnterpriseOnly end.

Definition decryptChunk (e : option localReplicaPayloadEncryptor)
    (expected : option PayloadEncryptionHeader) (stored : bytes) : result replica_error bytes :=
  match expected with None => Ok stored | Some _ => Err EnterpriseOnly end.

Definition samePayloadEncryptionHeader (a b : option PayloadEncryptionHeader) : bool :=
  bool_decide (a = b).

(** ** local_writer.go *)

Definition headers_map := gmap Z ReplicaChunkEncryptionHeader.

Definition recordReplicaChunkEncryptionHeader (headers : headers_map) (logicalChunk physicalChunkID : Z)
    (header : option PayloadEncryptionHeader) : result replica_error headers_map :=
  match header with
  | None => Ok headers
  | Some _ =>
      match headers !! logicalChunk with
      | Some existing =>
          if negb (chPhysicalChunkID existing =? physicalChunkID)
             || negb (samePayloadEncryptionHeader (chHeader existing) header)
          then Err (ConflictingEncryption logicalChunk) else Ok headers
      | None => Ok (<[logicalChunk := mkReplicaChunkEncryptionHeader logicalChunk physicalChunkID header]>
                     headers)
      end
  end.

Definition sortedReplicaChunkEncryptionHeaders (headers : headers_map)
  : list ReplicaChunkEncryptionHeader :=
  omap (fun logicalChunk => headers !! logicalChunk) (merge_sort Z.le (map_to_list headers).*1).

Definition payloadForExtent (plan : ExtentWritePlan) (req : ReplicaWriteRequest)
  : result replica_error bytes :=
  let extentStart := emLogicalOffset (wpExtent plan) in
  let extentEnd := add64 (emLogicalOffset (wpExtent plan)) (emLengthBytes (wpExtent plan)) in
  let reqEnd := add64 (rwOffsetBytes req) (rwLengthBytes req) in
  if (extentEnd <=? rwOffsetBytes req) || (reqEnd <=? extentStart) then Err RequestOutsideExtent else
  if canOmitZeroSemanticPayload plan req then Ok [] else
  let copyStart := Z.max (rwOffsetBytes req) extentStart in
  let copyEnd := Z.min reqEnd extentEnd in
  let start := sub64 copyStart (rwOffsetBytes req) in
  let end_ := sub64 copyEnd (rwOffsetBytes req) in
  if zlen (rwData req) <? end_ then Err RequestDataShort else go_slice start end_ (rwData req).

(** [copy(dst, src)]: as many bytes as both have. *)
Definition copy_prefix (dst src : bytes) : bytes :=
  (take (length dst) src ++ drop (length src) dst)%list.

Section Writer.
Context {W : Type} (stores : gmap string (PayloadStore W)).
Context (encryptor : option localReplicaPayloadEncryptor).
Abbreviation wact := (act (W * headers_map) replica_error).
#[local] Open Scope act_scope.

(** A store operation; the headers are untouched. *)
Definition on_store {A} (m : act W Gateway.svc_error A) : wact A := fun '(w, headers) =>
  let '(w, r) := m w in ((w, headers), map_err StoreFailed r).

Definition loadChunkForMerge (payloadStore : PayloadStore W) (replicaID volumeID : string)
    (extentID physicalChunkID chunkSize : Z) (encryptionHeader : option PayloadEncryptionHeader)
    (fullChunkWrite : bool) : wact bytes :=
  if fullChunkWrite then ret_act (zeroes chunkSize) else
  value <-- on_store (@store_get _ (psStore payloadStore)
              (localReplicaPayloadKey replicaID volumeID extentID physicalChunkID));
  match value with
  | None => if isSome encryptionHeader then fail_act (EncryptedPayloadNotFound replicaID)
            else ret_act (zeroes chunkSize)
  | Some value =>
      plaintext <-- lift_act (decryptChunk encryptor encryptionHeader value);
      ret_act (copy_prefix (zeroes chunkSize) plaintext)
  end.

(** The bytes a chunk holds after the write window is copied into it. *)
Definition merge_window (chunkBuf payload : bytes) (writeStart chunkStart copyStart copyEnd : Z)
  : result replica_error bytes :=
  let payloadOffset := sub64 copyStart writeStart in
  let chunkOffset := sub64 copyStart chunkStart in
  let copyLen := sub64 copyEnd copyStart in
  if (zlen payload <? add64 payloadOffset copyLen) || (zlen chunkBuf <? add64 chunkOffset copyLen)
  then Err MergeWindowOutOfBounds else
  src ← go_slice payloadOffset (add64 payloadOffset copyLen) payload;
  dst ← go_slice chunkOffset (add64 chunkOffset copyLen) chunkBuf;
  Ok (splice chunkBuf chunkOffset (copy_prefix dst src)).

(** [encryptChunk] and the record of its header, when the writer encrypts. *)
Definition encrypt_stored (logicalChunk physicalChunkID : Z) (chunkBuf : bytes) : wact bytes :=
  match encryptor with
  | None => ret_act chunkBuf
  | Some _ =>
      stored <-- lift_act (encryptChunk encryptor chunkBuf);
      fun '(w, headers) =>
        match recordReplicaChunkEncryptionHeader headers logicalChunk physicalChunkID stored.2 with
        | Ok headers => ((w, headers), Ok stored.1)
        | Err e => ((w, headers), Err e)
        | Panic => ((w, headers), Panic)
        end
  end.

(** One iteration of the loop of [writeViaAllocationChunks]. *)
Definition write_chunk (payloadStore : PayloadStore W) (replicaID : string) (plan : ExtentWritePlan)
    (req : ReplicaWriteRequest) (writeStart writeLength : Z) (payload : bytes)
    (chunk : resolvedChunkWrite) : wact unit :=
  let chunkSize := wpChunkSizeBytes plan in
  let chunkStart := mul64 (cwLogicalChunk chunk) chunkSize in
  let copyStart := Z.max writeStart chunkStart in
  let copyEnd := Z.min (add64 writeStart writeLength) (add64 chunkStart chunkSize) in
  if copyEnd <=? copyStart then ret_act tt else
  if shouldSkipChunkPayloadWrite (rwZeroSemantic req) chunkStart (add64 chunkStart chunkSize)
       copyStart copyEnd then ret_act tt else
  let base :=
    if negb (cwBasePhysicalChunkID chunk =? 0)
       && negb (cwBasePhysicalChunkID chunk =? cwPhysicalChunkID chunk)
    then (cwBasePhysicalChunkID chunk, cwBaseEncryption chunk)
    else (cwPhysicalChunkID chunk, cwEncryption chunk) in
  chunkBuf <-- loadChunkForMerge payloadStore replicaID (rwVolumeID req)
                 (emExtentID (wpExtent plan)) base.1 chunkSize base.2
                 ((copyStart =? chunkStart) && (copyEnd =? add64 chunkStart chunkSize));
  merged <-- lift_act (merge_window chunkBuf payload writeStart chunkStart copyStart copyEnd);
  stored <-- encrypt_stored (cwLogicalChunk chunk) (cwPhysicalChunkID chunk) merged;
  on_store (@store_put _ (psStore payloadStore)
    (localReplicaPayloadKey replicaID (rwVolumeID req) (emExtentID (wpExtent plan))
       (cwPhysicalChunkID chunk)) stored).

Fixpoint write_chunks (payloadStore : PayloadStore W) (replicaID : string) (plan : ExtentWritePlan)
    (req : ReplicaWriteRequest) (writeStart writeLength : Z) (payload : bytes)
    (chunks : list resolvedChunkWrite) : wact unit :=
  match chunks with
  | [] => ret_act tt
  | chunk :: chunks =>
      write_chunk payloadStore replicaID plan req writeStart writeLength payload chunk;;
      write_chunks payloadStore replicaID plan req writeStart writeLength payload chunks
  end.

(** [writeViaAllocationChunks]: [Ok b] is [(b, nil)] and [Err e] is [(false, e)],
    the only results the method has. *)
Definition writeViaAllocationChunks (payloadStore : PayloadStore W) (replicaID : string)
    (plan : ExtentWritePlan) (req : ReplicaWriteRequest) (writeStart writeLength : Z)
    (payload : bytes) : wact bool :=
  match resolvedWriteChunkMappings plan req with
  | None => ret_act false
  | Some [] => ret_act true
  | Some chunks =>
      if negb (zlen payload =? writeLength) then fail_act PayloadLengthMismatch else
      write_chunks payloadStore replicaID plan req writeStart writeLength payload chunks;;
      ret_act true
  end.

(** The rest of the iteration of a target that has no chunk mappings: the whole
    payload under one key. *)
Definition write_legacy (payloadStore : PayloadStore W) (replicaID : string) (plan : ExtentWritePlan)
    (req : ReplicaWriteRequest) (payload : bytes) : wact unit :=
  if isSome encryptor then fail_act EncryptionNeedsMappings else
  let chunkID := default (emChunkID (wpExtent plan)) (resolvedWritePhysicalChunkID plan req) in
  on_store (@store_put _ (psStore payloadStore)
    (localReplicaPayloadKey replicaID (rwVolumeID req) (emExtentID (wpExtent plan)) chunkID) payload).

(** The iteration of one target: the condition [ok, err := ...; ok] looks at the
    error only when [ok] is true. *)
Definition write_target (plan : ExtentWritePlan) (req : ReplicaWriteRequest)
    (writeStart writeLength : Z) (payload : bytes) (target : ReplicaTarget) : wact unit := fun s =>
  match stores !! rtReplicaID target with
  | None => (s, Err (NoLocalStore (rtReplicaID target)))
  | Some payloadStore =>
      match writeViaAllocationChunks payloadStore (rtReplicaID target) plan req
              writeStart writeLength payload s with
      | (s, Ok true) => (s, Ok tt)
      | (s, Ok false) | (s, Err _) => write_legacy payloadStore (rtReplicaID target) plan req payload s
      | (s, Panic) => (s, Panic)
      end
  end.

Fixpoint write_targets (plan : ExtentWritePlan) (req : ReplicaWriteRequest)
    (writeStart writeLength : Z) (payload : bytes) (targets : list ReplicaTarget)
  : wact (list string) :=
  match targets with
  | [] => ret_act []
  | target :: targets =>
      write_target plan req writeStart writeLength payload target;;
      acked <-- write_targets plan req writeStart writeLength payload targets;
      ret_act (rtReplicaID target :: acked)
  end.

(** [LocalReplicaWriter.WriteExtent]. *)
Definition WriteExtent (plan : ExtentWritePlan) (req : ReplicaWriteRequest)
  : act W replica_error ReplicaWriteResult := fun w =>
  match payloadForExtent plan req with
  | Panic => (w, Panic)
  | Err e => (w, Err e)
  | Ok payload =>
      match overlapRange (emLogicalOffset (wpExtent plan)) (emLengthBytes (wpExtent plan))
              (rwOffsetBytes req) (rwLengthBytes req) with
      | None => (w, Err RequestOutsideExtent)
      | Some (writeStart, writeLength) =>
          match write_targets plan req writeStart writeLength payload (wpWriteTargets plan) (w, ∅) with
          | ((w, headers), Ok acked) =>
              (w, Ok (mkReplicaWriteResult acked [] (sortedReplicaChunkEncryptionHeaders headers) false))
          | ((w, _), Err e) => (w, Err e)
          | ((w, _), Panic) => (w, Panic)
          end
      end
  end.

End Writer.

(** ** local_reader.go *)

Record ReplicaReadRequest := mkReplicaReadRequest {
  rrRequestID : string; rrVolumeID : string; rrCloneID : string; rrSnapshotID : string;
  rrOffsetBytes : Z; rrLengthBytes : Z; rrAttribution : bool }.

Section Reader.
Context {W : Type} (stores : gmap string (PayloadStore W)).
Context (encryptor : option localReplicaPayloadEncryptor).
#[local] Open Scope act_scope.

Definition from_store {A} (m : act W Gateway.svc_error A) : act W replica_error A := fun w =>
  let '(w, r) := m w in (w, map_err StoreFailed r).

(** One iteration of the loop of [readViaAllocationChunks] on the buffer [out]. *)
Definition read_chunk (payloadStore : PayloadStore W) (replicaID : string) (plan : ExtentReadPlan)
    (req : ReplicaReadRequest) (readStart readLength : Z) (chunk : resolvedChunkRead) (out : bytes)
  : act W replica_error bytes :=
  let chunkSize := rpChunkSizeBytes plan in
  let chunkStart := mul64 (cdLogicalChunk chunk) chunkSize in
  let copyStart := Z.max readStart chunkStart in
  let copyEnd := Z.min (add64 readStart readLength) (add64 chunkStart chunkSize) in
  if copyEnd <=? copyStart then ret_act out else
  let outOffset := sub64 copyStart readStart in
  let chunkOffset := sub64 copyStart chunkStart in
  let copyLen := sub64 copyEnd copyStart in
  if cdZero chunk then ret_act out else
  value <-- from_store (@store_get _ (psStore payloadStore)
              (localReplicaPayloadKey replicaID (rrVolumeID req) (emExtentID (rpExtent plan))
                 (cdPhysicalChunkID chunk)));
  match value with
  | None => fail_act (if isSome (cdEncryption chunk) then EncryptedPayloadNotFound replicaID
                      else PayloadNotFound replicaID)
  | Some value =>
      chunkValue <-- lift_act (if isSome (cdEncryption chunk)
                               then decryptChunk encryptor (cdEncryption chunk) value else Ok value);
      if zlen chunkValue <? add64 chunkOffset copyLen then fail_act (PayloadTooShort replicaID) else
      src <-- lift_act (go_slice chunkOffset (add64 chunkOffset copyLen) chunkValue);
      dst <-- lift_act (go_slice outOffset (add64 outOffset copyLen) out);
      ret_act (splice out outOffset (copy_prefix dst src))
  end.

Fixpoint read_chunks (payloadStore : PayloadStore W) (replicaID : string) (plan : ExtentReadPlan)
    (req : ReplicaReadRequest) (readStart readLength : Z) (chunks : list resolvedChunkRead)
    (out : bytes) : act W replica_error bytes :=
  match chunks with
  | [] => ret_act out
  | chunk :: chunks =>
      out <-- read_chunk payloadStore replicaID plan req readStart readLength chunk out;
      read_chunks payloadStore replicaID plan req readStart readLength chunks out
  end.

(** [readViaAllocationChunks]: [Ok None] is [(nil, false, false, nil)],
    [Ok (Some out)] is [(out, true, false, nil)] and [Err e] is
    [(nil, true, _, e)]; the caller reads the third result only when the second
    is false. *)
Definition readViaAllocationChunks (payloadStore : PayloadStore W) (replicaID : string)
    (plan : ExtentReadPlan) (req : ReplicaReadRequest) (readStart readLength : Z)
  : act W replica_error (option bytes) :=
  match resolvedReadChunkMappings plan (rrOffsetBytes req) (rrLengthBytes req) with
  | None | Some [] => ret_act None
  | Some chunks =>
      out <-- read_chunks payloadStore replicaID plan req readStart readLength chunks (zeroes readLength);
      ret_act (Some out)
  end.

(** What a target leaves behind when it does not answer: [lastErr] and
    [sawMissingPayload]. *)
Definition misses := (option replica_error * bool)%type.

(** The loop over the keys of the legacy layout. *)
Fixpoint read_keys (payloadStore : PayloadStore W) (replicaID : string) (keys : list string)
    (m : misses) : act W replica_error (bytes + misses) := fun w =>
  match keys with
  | [] => (w, Ok (inr m))
  | key :: keys =>
      match @store_get _ (psStore payloadStore) key w with
      | (w, Ok (Some value)) => (w, Ok (inl value))
      | (w, Ok None) => read_keys payloadStore replicaID keys (Some (PayloadNotFound replicaID), true) w
      | (w, Err e) => read_keys payloadStore replicaID keys (Some (StoreFailed e), m.2) w
      | (w, Panic) => (w, Panic)
      end
  end.

Definition legacy_keys (plan : ExtentReadPlan) (req : ReplicaReadRequest) (replicaID : string)
  : list string :=
  let key := localReplicaPayloadKey replicaID (rrVolumeID req) (emExtentID (rpExtent plan)) in
  match resolvedReadPhysicalChunkID plan (rrOffsetBytes req) (rrLengthBytes req) with
  | Some physicalChunkID =>
      if negb (physicalChunkID =? emChunkID (rpExtent plan))
      then [key physicalChunkID; key (emChunkID (rpExtent plan))]
      else [key (emChunkID (rpExtent plan))]
  | None => [key (emChunkID (rpExtent plan))]
  end.

(** The loop over the preferred replica and its fallbacks. *)
Fixpoint read_targets (plan : ExtentReadPlan) (req : ReplicaReadRequest) (readStart readLength : Z)
    (targets : list ReplicaTarget) (m : misses) : act W replica_error (bytes * string) := fun w =>
  match targets with
  | [] =>
      if m.2 then (w, Ok (zeroes readLength, "")) else
      (w, Err (default NoReadableReplica m.1))
  | target :: targets =>
      let id := rtReplicaID target in
      match stores !! id with
      | None => read_targets plan req readStart readLength targets (Some (NoLocalStore id), m.2) w
      | Some payloadStore =>
          match readViaAllocationChunks payloadStore id plan req readStart readLength w with
          | (w, Ok (Some data)) => (w, Ok (data, id))
          | (w, Err e) => read_targets plan req readStart readLength targets (Some e, m.2) w
          | (w, Panic) => (w, Panic)
          | (w, Ok None) =>
              if isSome encryptor
              then read_targets plan req readStart readLength targets (Some EncryptionNeedsMappings, m.2) w
              else
              match read_keys payloadStore id (legacy_keys plan req id) m w with
              | (w, Ok (inl value)) => (w, Ok (value, id))
              | (w, Ok (inr m)) => read_targets plan req readStart readLength targets m w
              | (w, Err e) => (w, Err e)
              | (w, Panic) => (w, Panic)
              end
          end
      end
  end.

(** [LocalReplicaReader.ReadExtent]. *)
Definition ReadExtent (plan : ExtentReadPlan) (req : ReplicaReadRequest)
  : act W replica_error (bytes * string) := fun w =>
  match overlapRange (emLogicalOffset (rpExtent plan)) (emLengthBytes (rpExtent plan))
          (rrOffsetBytes req) (rrLengthBytes req) with
  | None => (w, Err RequestOutsideExtent)
  | Some (readStart, readLength) =>
      if readRangeSatisfiedByZeroAllocation plan (rrOffsetBytes req) (rrLengthBytes req)
      then (w, Ok (zeroes readLength, "")) else
      read_targets plan req readStart readLength (rpPreferred plan :: rpFallbacks plan) (None, false) w
  end.

End Reader.

(** ** read_service.go *)

Record ReadRequest := mkReadRequest {
  rqRequestID : string; rqVolumeID : string; rqCloneID : string; rqSnapshotID : string;
  rqOffsetBytes : Z; rqLengthBytes : Z; rqPageBytes : Z; rqChunkSizeBytes : Z; rqAttribution : bool }.

#[export] Instance ReadRequest_settable : Settable ReadRequest := fun x =>
  mkReadRequest (rqRequestID x) (rqVolumeID x) (rqCloneID x) (rqSnapshotID x) (rqOffsetBytes x)
    (rqLengthBytes x) (rqPageBytes x) (rqChunkSizeBytes x) (rqAttribution x).

Record ReadResponse := mkReadResponse {
  rsVolumeID : string; rsCloneID : string; rsSnapshotID : string; rsData : bytes;
  rsReplicaReads : list string }.

(** The read planner of the coordinator. *)
Record ReadPlanner (W : Type) := mkReadPlanner {
  PlanRead : string -> Z -> Z -> Z -> Z -> act W Exec.exec_error ReadPlan;
  PlanCloneRead : string -> string -> Z -> Z -> Z -> Z -> act W Exec.exec_error ReadPlan;
  PlanSnapshotRead : string -> string -> Z -> Z -> Z -> Z -> act W Exec.exec_error ReadPlan }.
Arguments PlanRead {W} _.
Arguments PlanCloneRead {W} _.
Arguments PlanSnapshotRead {W} _.

Section ReadService.
Context {W : Type} (coordinator : ReadPlanner W).
Context (reader : ExtentReadPlan -> ReplicaReadRequest -> act W replica_error (bytes * string)).
#[local] Open Scope act_scope.

Definition replica_read_request (req : ReadRequest) : ReplicaReadRequest :=
  mkReplicaReadRequest (rqRequestID req) (rqVolumeID req) (rqCloneID req) (rqSnapshotID req)
    (rqOffsetBytes req) (rqLengthBytes req) (rqAttribution req).

Fixpoint read_extents (req : ReadRequest) (extents : list ExtentReadPlan)
  : act W replica_error (bytes * list string) :=
  match extents with
  | [] => ret_act ([], [])
  | extent :: extents =>
      first <-- reader extent (replica_read_request req);
      rest <-- read_extents req extents;
      ret_act ((first.1 ++ rest.1)%list, first.2 :: rest.2)
  end.

Definition Read (req : ReadRequest) : act W replica_error ReadResponse :=
  let '(v, off, len, pb, cs) := (rqVolumeID req, rqOffsetBytes req, rqLengthBytes req,
                                 rqPageBytes req, rqChunkSizeBytes req) in
  if negb (String.eqb (rqCloneID req) "") && negb (String.eqb (rqSnapshotID req) "")
  then fail_act CloneAndSnapshot else
  plan <-- Exec.map_err_act PlanFailed
           (if negb (String.eqb (rqSnapshotID req) "")
            then PlanSnapshotRead coordinator (rqSnapshotID req) v off len pb cs
            else if negb (String.eqb (rqCloneID req) "")
            then PlanCloneRead coordinator (rqCloneID req) v off len pb cs
            else PlanRead coordinator v off len pb cs);
  out <-- read_extents req (rplExtents plan);
  ret_act (mkReadResponse v (rqCloneID req) (rqSnapshotID req) out.1 out.2).

Definition ReadClone (cloneID : string) (req : ReadRequest) : act W replica_error ReadResponse :=
  Read (req <| rqCloneID := cloneID |>).

Definition ReadSnapshot (snapshotID : string) (req : ReadRequest) : act W replica_error ReadResponse :=
  Read (req <| rqSnapshotID := snapshotID |>).

End ReadService.

(** ** Replica stores in memory *)

(** One [MemoryStore] per replica. *)
Abbreviation Cluster := (gmap string MemoryStore).

Definition on_replica {A} (id : string) (m : act MemoryStore Gateway.svc_error A)
  : act Cluster Gateway.svc_error A := fun c =>
  let '(s, r) := m (default NewMemoryStore (c !! id)) in (<[id := s]> c, r).

Definition memory_replica (id : string) : PayloadStore Cluster :=
  mkPayloadStore Cluster
    {| store_get := fun key => on_replica id (Store.Get key);
       store_put := fun key value => on_replica id (Store.Put key value);
       store_delete := fun key => on_replica id (Store.Delete key) |}
    (fun prefix cursor limit => on_replica id (fun m => (m, Ok (Store.List prefix cursor limit m)))).

Definition memory_replicas (ids : list string) : gmap string (PayloadStore Cluster) :=
  list_to_map (map (fun id => (id, memory_replica id)) ids).

End LocalReplica.
