(* ===== verification/LocalReplicaFacts.v ===== *)
(** * The local replica stores: theorems

    The client side is proved against [PayloadLaws], what the writer and the
    reader rely on of a set of payload stores that answer every call; the
    in-memory stores are an instance.  [write_extent_exact] describes the
    objects after a write, [read_your_writes] composes it with the reader;
    [failed_merge_acknowledged] and [draining_primary_reads_stale] show where
    the code loses data. *)

From Stdlib Require Import ZArith Lia Ascii String.
From stdpp Require Import base list gmap strings sorting.
From coqutil Require Import Byte.
From S2P Require Import Prelude GoStrings GatewayTypes ObjectStore SbsTypes AllocationCommit AllocationCommitFacts WritePipeline WritePipelineFacts LocalReplica.
Open Scope string_scope.
Open Scope Z_scope.

Module LocalReplicaFacts.
Import Sbs Allocation Store Pipeline PipelineFacts LocalReplica.

(** ** What the client relies on *)

Class PayloadLaws {W : Type} (stores : gmap string (PayloadStore W))
    (view : W -> string -> string -> option bytes) : Prop := {
  get_law : forall id st key w, stores !! id = Some st ->
    exists w', @store_get _ (psStore st) key w = (w', Ok (view w id key)) /\
               (forall id' key', view w' id' key' = view w id' key');
  put_law : forall id st key v w, stores !! id = Some st ->
    exists w', @store_put _ (psStore st) key v w = (w', Ok tt) /\
               view w' id key = Some v /\
               (forall id' key', id' <> id \/ key' <> key -> view w' id' key' = view w id' key') }.

Definition cluster_view (c : Cluster) (id key : string) : option bytes :=
  data (default NewMemoryStore (c !! id)) !! key.

Lemma memory_replicas_lookup ids id st :
  memory_replicas ids !! id = Some st -> st = memory_replica id.
Proof.
  intros H%elem_of_list_to_map_2. apply list_elem_of_fmap in H as (i & [= <- <-] & _). done.
Qed.

Lemma cluster_view_on_replica c id s id' key :
  cluster_view (<[id := s]> c) id' key =
  (if decide (id' = id) then data s !! key else cluster_view c id' key).
Proof.
  unfold cluster_view. destruct (decide (id' = id)) as [->|Hne].
  - by rewrite lookup_insert_eq.
  - by rewrite lookup_insert_ne.
Qed.

#[export] Instance memory_laws ids : PayloadLaws (memory_replicas ids) cluster_view.
Proof.
  split.
  - intros id st key w ->%memory_replicas_lookup. eexists. split; [reflexivity|].
    intros id' key'. rewrite cluster_view_on_replica. by destruct (decide (id' = id)) as [->|].
  - intros id st key v w ->%memory_replicas_lookup. eexists. split; [reflexivity|]. cbn.
    rewrite cluster_view_on_replica, decide_True by done. split; [apply lookup_insert_eq|].
    intros id' key' Hne. rewrite cluster_view_on_replica. destruct (decide (id' = id)) as [->|]; [|done].
    apply lookup_insert_ne. by destruct Hne as [[]|Hne].
Qed.

(** ** Keys *)

Lemma string_app_inv (p a b : string) : (p ++ a = p ++ b)%string -> a = b.
Proof. induction p as [|c p IH]; cbn; [done|]. intros [= H]. auto. Qed.

Lemma payload_key_inj r v e c1 c2 : u64 c1 -> u64 c2 ->
  localReplicaPayloadKey r v e c1 = localReplicaPayloadKey r v e c2 -> c1 = c2.
Proof.
  unfold localReplicaPayloadKey. intros H1 H2 H. repeat apply string_app_inv in H.
  by apply format_020d_inj in H.
Qed.

(** ** Buffers *)

(** A byte of an object that may be missing or short. *)
Definition byte_at (o : option bytes) (j : Z) : byte :=
  default Byte.x00 (o ≫= fun b => b !! Z.to_nat j).

Lemma lookup_zeroes n j : 0 <= j < n -> zeroes n !! Z.to_nat j = Some Byte.x00.
Proof. intros H. apply lookup_replicate. split; [done|lia]. Qed.

Lemma zlen_copy_prefix dst src : zlen (copy_prefix dst src) = zlen dst.
Proof. unfold zlen, copy_prefix. rewrite length_app, length_take, length_drop. lia. Qed.

Lemma lookup_copy_prefix n src j : 0 <= j < n ->
  copy_prefix (zeroes n) src !! Z.to_nat j = Some (byte_at (Some src) j).
Proof.
  intros Hj. unfold copy_prefix, byte_at, zeroes. rewrite length_replicate. cbn.
  destruct (src !! Z.to_nat j) as [b|] eqn:E.
  - pose proof (lookup_lt_Some _ _ _ E). rewrite lookup_app_l by (rewrite length_take; lia).
    by rewrite lookup_take_lt by lia.
  - apply lookup_ge_None in E. rewrite lookup_app_r by (rewrite length_take; lia).
    rewrite lookup_drop, length_take. apply lookup_replicate. split; [done|lia].
Qed.

Lemma copy_prefix_same dst src : zlen dst = zlen src -> copy_prefix dst src = src.
Proof.
  unfold zlen, copy_prefix. intros H. rewrite drop_ge, app_nil_r by lia. apply take_ge. lia.
Qed.

(** ** One chunk of a write *)

(** The id and header of the object a partial write starts from. *)
Definition base_of (c : resolvedChunkWrite) : Z * option PayloadEncryptionHeader :=
  if negb (cwBasePhysicalChunkID c =? 0) && negb (cwBasePhysicalChunkID c =? cwPhysicalChunkID c)
  then (cwBasePhysicalChunkID c, cwBaseEncryption c) else (cwPhysicalChunkID c, cwEncryption c).

(** [v] is the chunk at [chunkStart] after [payload] was written at [ws] over [base]. *)
Definition overlaid (cs chunkStart ws : Z) (payload : bytes) (base : option bytes) (v : bytes) : Prop :=
  zlen v = cs /\
  forall j, 0 <= j < cs -> v !! Z.to_nat j =
    (if decide (ws <= chunkStart + j < ws + zlen payload)
     then payload !! Z.to_nat (chunkStart + j - ws) else Some (byte_at base j)).

Lemma merge_window_Ok buf payload ws cst cs a b :
  0 <= ws -> 0 <= cst -> cst + cs < 2 ^ 64 -> ws + zlen payload < 2 ^ 64 -> zlen buf = cs ->
  a = Z.max ws cst -> b = Z.min (ws + zlen payload) (cst + cs) -> a < b ->
  merge_window buf payload ws cst a b =
    Ok (splice buf (a - cst) (slice (a - ws) (b - ws) payload)).
Proof.
  intros Hws Hcst Hce Hwe Hbuf Ha Hb Hab. pose proof (zlen_nonneg payload) as Hp. unfold merge_window.
  autorewrite with namrbd.
  replace (a - ws + (b - a)) with (b - ws) by lia. replace (a - cst + (b - a)) with (b - cst) by lia.
  destruct (Z.ltb_spec (zlen payload) (b - ws)); [lia|].
  destruct (Z.ltb_spec (zlen buf) (b - cst)); [lia|]. cbn [orb].
  unfold go_slice. rewrite !(proj2 (Z.leb_le _ _)) by lia. cbn [andb]. simpl_bind.
  rewrite copy_prefix_same; [done|]. rewrite !zlen_slice by lia. lia.
Qed.

Lemma overlaid_splice buf base payload ws cst cs a b :
  0 <= ws -> 0 <= cst -> zlen buf = cs -> a = Z.max ws cst -> b = Z.min (ws + zlen payload) (cst + cs) ->
  a < b -> (forall j, 0 <= j < cs -> ~ (ws <= cst + j < ws + zlen payload) ->
              buf !! Z.to_nat j = Some (byte_at base j)) ->
  overlaid cs cst ws payload base (splice buf (a - cst) (slice (a - ws) (b - ws) payload)).
Proof.
  intros Hws Hcst Hbuf Ha Hb Hab Hbase.
  assert (zlen (slice (a - ws) (b - ws) payload) = b - a) as Hs by (rewrite zlen_slice; lia).
  split; [rewrite zlen_splice; lia|]. intros j Hj. destruct (decide _) as [Hin|Hout].
  - rewrite lookup_splice_in by lia. rewrite lookup_slice by lia. f_equal. lia.
  - rewrite lookup_splice_out by lia. by apply Hbase.
Qed.

Section Write.
Context {W : Type} (stores : gmap string (PayloadStore W)) (view : W -> string -> string -> option bytes).
Context `{!PayloadLaws stores view}.
Context (plan : ExtentWritePlan) (req : ReplicaWriteRequest).

Abbreviation cs := (wpChunkSizeBytes plan).
Abbreviation key id c := (localReplicaPayloadKey id (rwVolumeID req) (emExtentID (wpExtent plan)) c).

Definition same_view (w w' : W) : Prop := forall id k, view w' id k = view w id k.

(** A mapped chunk the write must store: it meets the window and is not skipped. *)
Record chunk_ok (ws wl : Z) (c : resolvedChunkWrite) : Prop := {
  co_logical : 0 <= cwLogicalChunk c;
  co_end : cwLogicalChunk c * cs + cs < 2 ^ 64;
  co_meets : Z.max ws (cwLogicalChunk c * cs) < Z.min (ws + wl) (cwLogicalChunk c * cs + cs);
  co_kept : rwZeroSemantic req = false \/
            ~ (ws <= cwLogicalChunk c * cs /\ cwLogicalChunk c * cs + cs <= ws + wl);
  co_plain : (base_of c).2 = None;
  co_id : u64 (cwPhysicalChunkID c);
  co_base : u64 (base_of c).1 }.

Lemma load_chunk id st c full w h :
  stores !! id = Some st -> 0 <= cs -> (base_of c).2 = None ->
  exists w' buf, loadChunkForMerge None st id (rwVolumeID req) (emExtentID (wpExtent plan))
      (base_of c).1 cs (base_of c).2 full (w, h) = ((w', h), Ok buf) /\ same_view w w' /\ zlen buf = cs /\
    (full = false -> forall j, 0 <= j < cs ->
       buf !! Z.to_nat j = Some (byte_at (view w id (key id (base_of c).1)) j)).
Proof.
  intros Hst Hcs ->. unfold loadChunkForMerge. destruct full.
  { exists w, (zeroes cs). split_and!; [done|by intros ??|by apply zlen_zeroes|done]. }
  destruct (get_law _ st (key id (base_of c).1) w Hst) as (w' & Hget & Hsame).
  unfold bind_act, on_store. rewrite Hget. cbn [map_err].
  destruct (view w id (key id (base_of c).1)) as [v|]; cbn.
  - exists w', (copy_prefix (zeroes cs) v).
    split_and!; [done|done|by rewrite zlen_copy_prefix, zlen_zeroes|]. intros _ j Hj.
    by apply lookup_copy_prefix.
  - exists w', (zeroes cs). split_and!; [done|done|by apply zlen_zeroes|]. intros _ j Hj.
    by apply lookup_zeroes.
Qed.

Lemma write_chunk_spec id st ws payload c w h :
  stores !! id = Some st -> 0 < cs -> 0 <= ws -> ws + zlen payload < 2 ^ 64 ->
  chunk_ok ws (zlen payload) c ->
  exists w' v, write_chunk None st id plan req ws (zlen payload) payload c (w, h) = ((w', h), Ok tt) /\
    overlaid cs (cwLogicalChunk c * cs) ws payload (view w id (key id (base_of c).1)) v /\
    view w' id (key id (cwPhysicalChunkID c)) = Some v /\
    (forall id' k, id' <> id \/ k <> key id (cwPhysicalChunkID c) -> view w' id' k = view w id' k).
Proof.
  intros Hst Hcs Hws Hwe [Hl He Hm Hk Hp _ _]. pose proof (zlen_nonneg payload) as Hpl.
  unfold write_chunk. assert (0 <= cwLogicalChunk c * cs) by lia.
  rewrite (mul64_small (cwLogicalChunk c)), !add64_small by (unfold in_u; lia).
  set (cst := cwLogicalChunk c * cs) in *.
  destruct (Z.leb_spec (Z.min (ws + zlen payload) (cst + cs)) (Z.max ws cst)); [lia|].
  assert (shouldSkipChunkPayloadWrite (rwZeroSemantic req) cst (cst + cs) (Z.max ws cst)
            (Z.min (ws + zlen payload) (cst + cs)) = false) as ->.
  { unfold shouldSkipChunkPayloadWrite. destruct Hk as [->|Hk]; [done|].
    destruct (rwZeroSemantic req); [|done]. zcases; lia. }
  fold (base_of c). set (full := (_ =? cst) && _).
  destruct (load_chunk id st c full w h Hst ltac:(lia) Hp) as (w1 & buf & Hload & Hsame & Hbuf & Hbytes).
  unfold bind_act at 1. rewrite Hload. cbv beta iota.
  unfold bind_act at 1, lift_act. rewrite (merge_window_Ok buf payload ws cst cs) by (try done; lia).
  cbn [encrypt_stored]. unfold bind_act, ret_act, on_store.
  set (v := splice _ _ _).
  destruct (put_law _ st (key id (cwPhysicalChunkID c)) v w1 Hst) as (w2 & Hput & Hnew & Hold).
  rewrite Hput. exists w2, v. split_and!; [done| |done|].
  - apply overlaid_splice; try done; try lia. intros j Hj Hout. apply Hbytes; [|done].
    subst full. apply andb_false_iff. destruct (Z.eqb_spec (Z.max ws cst) cst); [|by left]. right.
    apply Z.eqb_neq. lia.
  - intros id' k Hne. rewrite Hold by done. apply Hsame.
Qed.

(** ** The chunks of a write *)

Lemma write_chunks_spec id st ws payload : stores !! id = Some st -> 0 < cs -> 0 <= ws ->
  ws + zlen payload < 2 ^ 64 -> forall chunks w h,
  Forall (chunk_ok ws (zlen payload)) chunks -> NoDup (map cwPhysicalChunkID chunks) ->
  (forall c d, c ∈ chunks -> d ∈ chunks -> (base_of d).1 = cwPhysicalChunkID c -> d = c) ->
  exists w', write_chunks None st id plan req ws (zlen payload) payload chunks (w, h) = ((w', h), Ok tt) /\
    (forall c, c ∈ chunks -> exists v,
       overlaid cs (cwLogicalChunk c * cs) ws payload (view w id (key id (base_of c).1)) v /\
       view w' id (key id (cwPhysicalChunkID c)) = Some v) /\
    (forall id' k, (id' = id -> k ∉ map (fun c => key id (cwPhysicalChunkID c)) chunks) ->
       view w' id' k = view w id' k).
Proof.
  intros Hst Hcs Hws Hwe. induction chunks as [|c chunks IH]; intros w h Hok Hnd Hapart.
  { exists w. split_and!; [done| |done]. intros c Hc. by apply not_elem_of_nil in Hc. }
  inversion_clear Hok as [|?? Hc Hok']. cbn [map] in Hnd. apply NoDup_cons in Hnd as [Hnew Hnd].
  destruct (write_chunk_spec id st ws payload c w h Hst Hcs Hws Hwe Hc) as (w1 & v & Hw & Hv & Hput & Hold).
  destruct (IH w1 h Hok' Hnd) as (w2 & Hw2 & Hall & Hrest).
  { intros c' d Hc' Hd. apply Hapart; by right. }
  assert (forall d, d ∈ chunks -> key id (cwPhysicalChunkID c) <> key id (cwPhysicalChunkID d)) as Hkeys.
  { intros d Hd E. rewrite Forall_forall in Hok'. apply payload_key_inj in E; [|apply Hc|by apply Hok'].
    apply Hnew. rewrite E. by apply list_elem_of_fmap_2. }
  exists w2. split_and!.
  - cbn [write_chunks]. unfold bind_act. by rewrite Hw.
  - intros d [->|Hd]%elem_of_cons.
    + exists v. split; [done|]. rewrite Hrest; [done|]. intros _ (d' & E & Hd')%list_elem_of_fmap.
      by apply (Hkeys d').
    + destruct (Hall d Hd) as (v' & Hv' & Hput'). exists v'. split; [|done].
      rewrite Hold in Hv'; [done|]. right. intros E. rewrite Forall_forall in Hok'.
      apply payload_key_inj in E; [|by apply Hok'|apply Hc].
      apply Hapart in E as ->; [|by left|by right]. by apply (Hkeys c Hd).
  - intros id' k Hk. rewrite Hrest, Hold; [done| |].
    + destruct (decide (id' = id)) as [E|]; [right|by left]. specialize (Hk E). cbn in Hk.
      by apply not_elem_of_cons in Hk as [? _].
    + intros E. specialize (Hk E). cbn in Hk. by apply not_elem_of_cons in Hk as [_ ?].
Qed.

Lemma record_id_u64 pages lc : u64 (physicalChunkID (logicalChunkAllocationRecord pages lc)).
Proof.
  induction pages as [|p pages IH]; cbn; [by unfold in_u; cbn; lia|].
  destruct (_ || _); [done|]. destruct (extent_of _ _); [|by unfold in_u; cbn; lia].
  repeat case_match; cbn; try (unfold in_u; lia). apply wrap64_range.
Qed.

(** The mapping of one chunk, and when it is stored. *)
Definition mapped (c : resolvedChunkWrite) : Prop :=
  let r := logicalChunkAllocationRecord (wpAllocationPages plan) (cwLogicalChunk c) in
  covered r = true /\ zero r = false /\ cwPhysicalChunkID c = physicalChunkID r /\
  cwEncryption c = encryption r /\ u64 (cwBasePhysicalChunkID c) /\ cwPhysicalChunkID c <> 0.

Definition kept (ws wl lc : Z) : Prop :=
  rwZeroSemantic req = false \/ ~ (ws <= lc * cs /\ lc * cs + cs <= ws + wl).

Lemma skip_false ws wl lc : 0 <= lc -> lc * cs + cs < 2 ^ 64 -> 0 < cs -> 0 <= ws -> 0 <= wl ->
  ws + wl < 2 ^ 64 -> let cst := mul64 lc cs in let cend := add64 cst cs in
  shouldSkipChunkPayloadWrite (rwZeroSemantic req) cst cend (Z.max ws cst)
    (Z.min (add64 ws wl) cend) = false <-> kept ws wl lc.
Proof.
  intros Hl He Hcs Hws Hwl Hwe cst cend. assert (0 <= lc * cs) by lia. subst cend cst.
  rewrite mul64_small, !add64_small by (unfold in_u; lia). unfold shouldSkipChunkPayloadWrite, kept.
  destruct (rwZeroSemantic req); cbn [andb]; [|split; [by left|done]].
  rewrite andb_false_iff, !Z.eqb_neq. split; [intros ?; right; lia|intros [?|?]; [done|lia]].
Qed.

Lemma write_mappings_spec ws wl : 0 < cs -> 0 <= ws -> 0 <= wl -> ws + wl < 2 ^ 64 ->
  forall n lc chunks, 0 <= lc -> (lc + Z.of_nat n) * cs < 2 ^ 64 ->
  write_mappings n lc plan (rwZeroSemantic req) ws wl = Some chunks ->
  (forall c, c ∈ chunks -> lc <= cwLogicalChunk c < lc + Z.of_nat n /\ kept ws wl (cwLogicalChunk c) /\ mapped c) /\
  (forall l, lc <= l < lc + Z.of_nat n -> kept ws wl l -> exists c, c ∈ chunks /\ cwLogicalChunk c = l).
Proof.
  intros Hcs Hws Hwl Hwe. induction n as [|n IH]; intros lc chunks Hl He Hm; cbn [write_mappings] in Hm.
  { injection Hm as <-. split; [by intros c Hc%not_elem_of_nil|lia]. }
  assert (lc * cs + cs < 2 ^ 64) as Hce by nia. assert (0 <= lc * cs) by lia.
  rewrite (add64_small lc 1) in Hm by (unfold in_u; nia).
  pose proof (skip_false ws wl lc Hl Hce Hcs Hws Hwl Hwe) as Hskip. cbv zeta in Hskip.
  set (r := logicalChunkAllocationRecord (wpAllocationPages plan) lc) in *.
  destruct (covered r) eqn:Hcov; cbn [negb] in Hm; [|done].
  set (skip := shouldSkipChunkPayloadWrite _ _ _ _ _) in *. destruct skip.
  - destruct (IH (lc + 1) chunks ltac:(lia) ltac:(nia) Hm) as [H1 H2]. split.
    + intros c Hc. destruct (H1 c Hc) as (? & ? & ?). split_and!; [lia|lia|done|done].
    + intros l Hlr Hk. destruct (decide (l = lc)) as [->|]; [|apply H2; [lia|done]].
      by apply Hskip in Hk.
  - destruct (zero r) eqn:Hz; cbn [orb] in Hm; [done|].
    destruct (Z.eqb_spec (physicalChunkID r) 0); [done|].
    match type of Hm with context [mkresolvedChunkWrite _ _ (fst ?b) _ _] => set (base := b) in Hm end.
    destruct (write_mappings n (lc + 1) plan _ ws wl) as [rest|] eqn:Hrest; [|done].
    cbn in Hm. injection Hm as <-.
    destruct (IH (lc + 1) rest ltac:(lia) ltac:(nia) Hrest) as [H1 H2]. split.
    + intros c [->|Hc]%elem_of_cons.
      * cbn. split_and!; [lia|lia|by apply Hskip|]. unfold mapped. cbn. fold r.
        split_and!; try done. subst base. destruct (_ && _); [|by unfold in_u; cbn; lia].
        destruct (negb _); [apply record_id_u64|by unfold in_u; cbn; lia].
      * destruct (H1 c Hc) as (? & ? & ?). split_and!; [lia|lia|done|done].
    + intros l Hlr Hk. destruct (decide (l = lc)) as [->|].
      * eexists. split; [by left|done].
      * destruct (H2 l ltac:(lia) Hk) as (c & Hc & E). exists c. split; [by right|done].
Qed.

(** ** A whole extent *)

(** The window of a request in the plan's extent. *)
Definition window : Z * Z :=
  let ws := Z.max (rwOffsetBytes req) (emLogicalOffset (wpExtent plan)) in
  (ws, Z.min (rwOffsetBytes req + rwLengthBytes req)
         (emLogicalOffset (wpExtent plan) + emLengthBytes (wpExtent plan)) - ws).

Abbreviation ws := (window.1).
Abbreviation wl := (window.2).

(** The bytes of the request that fall in the extent. *)
Definition payload : bytes := slice (ws - rwOffsetBytes req) (ws - rwOffsetBytes req + wl) (rwData req).

(** A plan the writer can carry out: the request meets the extent without
    overflow, carries its data, and its chunks are mapped to distinct objects,
    none of which is the base another chunk is copied from. *)
Record write_ok (chunks : list resolvedChunkWrite) : Prop := {
  wk_chunk : 0 < cs < 2 ^ 32;
  wk_extent : 0 <= emLogicalOffset (wpExtent plan) /\ 0 <= emLengthBytes (wpExtent plan) /\
              emLogicalOffset (wpExtent plan) + emLengthBytes (wpExtent plan) + cs < 2 ^ 64;
  wk_req : 0 <= rwOffsetBytes req /\ 0 <= rwLengthBytes req /\
           rwOffsetBytes req + rwLengthBytes req < 2 ^ 64;
  wk_meets : 0 < wl;
  wk_data : zlen (rwData req) = rwLengthBytes req;
  wk_mapped : resolvedWriteChunkMappings plan req = Some chunks;
  wk_plain : Forall (fun c => cwEncryption c = None /\ cwBaseEncryption c = None) chunks;
  wk_distinct : NoDup (map cwPhysicalChunkID chunks);
  wk_apart : forall c d, c ∈ chunks -> d ∈ chunks -> (base_of d).1 = cwPhysicalChunkID c -> d = c;
  wk_targets : NoDup (map rtReplicaID (wpWriteTargets plan));
  wk_stores : Forall (fun t => is_Some (stores !! rtReplicaID t)) (wpWriteTargets plan) }.

Context (chunks : list resolvedChunkWrite) (Hok : write_ok chunks).

Lemma window_bounds : 0 <= ws /\ 0 < wl /\ ws + wl + cs < 2 ^ 64 /\ 0 < cs /\
  rwOffsetBytes req <= ws /\ ws - rwOffsetBytes req + wl <= zlen (rwData req).
Proof. destruct Hok. unfold window in *. cbn in *. lia. Qed.

Lemma overlap_window : overlapRange (emLogicalOffset (wpExtent plan)) (emLengthBytes (wpExtent plan))
  (rwOffsetBytes req) (rwLengthBytes req) = Some (ws, wl).
Proof.
  destruct Hok as [Hc He Hr Hm _ _ _ _ _ _ _]. unfold window in *. cbn [fst snd] in *. unfold overlapRange.
  rewrite !add64_small by (unfold in_u; lia). zcases; try lia. rewrite sub64_small by (unfold in_u; lia). done.
Qed.

(** The logical chunks the window touches. *)
Definition touched (l : Z) : Prop := ws / cs <= l <= (ws + wl - 1) / cs.

Lemma touched_bounds l : touched l -> 0 <= l /\ l * cs + cs < 2 ^ 64 /\
  Z.max ws (l * cs) < Z.min (ws + wl) (l * cs + cs).
Proof.
  pose proof window_bounds as (Hws & Hwl & He & Hcs & _). unfold touched. intros [H1 H2].
  assert (0 <= ws / cs) by (apply Z.div_pos; lia).
  pose proof (Z.mul_div_le (ws + wl - 1) cs Hcs). pose proof (Z.mul_succ_div_gt ws cs Hcs).
  nia.
Qed.

Lemma chunks_of_window :
  Forall (chunk_ok ws wl) chunks /\
  (forall c, c ∈ chunks -> touched (cwLogicalChunk c) /\ mapped c) /\
  (forall l, touched l -> kept ws wl l -> exists c, c ∈ chunks /\ cwLogicalChunk c = l).
Proof.
  pose proof window_bounds as (Hws & Hwl & He & Hcs & _). pose proof (wk_mapped _ Hok) as Hm.
  unfold resolvedWriteChunkMappings in Hm. destruct (_ || _); [done|]. rewrite overlap_window in Hm.
  rewrite (proj2 (Z.eqb_neq wl 0)) in Hm by lia. unfold chunk_span in Hm.
  rewrite (add64_small ws wl), sub64_small in Hm by (unfold in_u; lia).
  assert (0 <= ws / cs) by (apply Z.div_pos; lia).
  assert (ws / cs <= (ws + wl - 1) / cs) by (apply Z.div_le_mono; lia).
  pose proof (Z.mul_div_le (ws + wl - 1) cs Hcs).
  apply (write_mappings_spec ws wl) in Hm as [Hin1 Hin2]; [|lia..|rewrite Z2Nat.id by lia; nia].
  setoid_rewrite Z2Nat.id in Hin1; [|lia]. setoid_rewrite Z2Nat.id in Hin2; [|lia].
  assert (forall c, c ∈ chunks -> touched (cwLogicalChunk c) /\ kept ws wl (cwLogicalChunk c) /\ mapped c) as Hin.
  { intros c Hc. destruct (Hin1 c Hc) as (Hr & Hk & Hmp). refine (conj _ (conj Hk Hmp)). unfold touched. lia. }
  split_and!.
  - apply Forall_forall. intros c Hc. destruct (Hin c Hc) as (Ht & Hk & Hmap).
    pose proof (touched_bounds _ Ht) as (? & ? & ?).
    pose proof (wk_plain _ Hok) as Hp. rewrite Forall_forall in Hp. destruct Hmap as (_ & _ & Hid & _ & Hb & _).
    destruct (Hp c Hc) as [Hp1 Hp2].
    split; try done; [by unfold base_of; destruct (_ && _)|rewrite Hid; apply record_id_u64|].
    unfold base_of. destruct (_ && _); cbn; [done|rewrite Hid; apply record_id_u64].
  - intros c Hc. destruct (Hin c Hc) as (? & _ & ?). done.
  - intros l Hl Hk. apply Hin2; [unfold touched in Hl; lia|done].
Qed.

Lemma zlen_payload : zlen payload = wl.
Proof. pose proof window_bounds. unfold payload. rewrite zlen_slice; lia. Qed.

Lemma payload_computed : exists p, payloadForExtent plan req = Ok p /\ (chunks = [] \/ p = payload).
Proof.
  pose proof window_bounds as (Hws & Hwl & He & Hcs & Ho & Hd). pose proof Hok as [_ He' Hr Hm Hlen Hmap _ _ _ _ _].
  unfold payloadForExtent. unfold window in *. cbn [fst snd] in *.
  rewrite !add64_small, !sub64_small by (unfold in_u; lia).
  set (a := Z.max _ _) in *. set (b := Z.min _ _) in *.
  rewrite !(proj2 (Z.leb_gt _ _)), (proj2 (Z.ltb_ge _ _)) by lia. cbn [orb].
  destruct (canOmitZeroSemanticPayload plan req) eqn:Homit.
  { exists []. split; [done|]. left. unfold canOmitZeroSemanticPayload in Homit. rewrite Hmap in Homit.
    destruct (rwZeroSemantic req); [|done]. by destruct chunks. }
  exists payload. split; [|by right].
  unfold go_slice. rewrite !(proj2 (Z.leb_le _ _)) by lia. cbn [andb]. f_equal. unfold payload, window.
  cbn [fst snd]. fold a b. f_equal. lia.
Qed.

Definition object_keys (id : string) : list string := map (fun c => key id (cwPhysicalChunkID c)) chunks.

(** What a write leaves in the store of replica [id]. *)
Definition written (w w' : W) (id : string) : Prop :=
  (forall c, c ∈ chunks -> exists v,
     overlaid cs (cwLogicalChunk c * cs) ws payload (view w id (key id (base_of c).1)) v /\
     view w' id (key id (cwPhysicalChunkID c)) = Some v) /\
  (forall k, k ∉ object_keys id -> view w' id k = view w id k).

Lemma write_target_spec p t w h : is_Some (stores !! rtReplicaID t) -> chunks = [] \/ p = payload ->
  exists w', write_target stores None plan req ws wl p t (w, h) = ((w', h), Ok tt) /\
    written w w' (rtReplicaID t) /\ (forall id k, id <> rtReplicaID t -> view w' id k = view w id k).
Proof.
  intros [st Hst] Hp. unfold write_target, writeViaAllocationChunks. rewrite Hst, (wk_mapped _ Hok).
  destruct (decide (chunks = [])) as [E|Hne].
  { exists w. rewrite E. split_and!; [done| |done]. split; [|done]. rewrite E. intros c Hc.
    by apply not_elem_of_nil in Hc. }
  destruct Hp as [Hp| ->]; [done|]. pose proof window_bounds as (Hws & Hwl & He & Hcs & _).
  destruct (write_chunks_spec (rtReplicaID t) st ws payload Hst Hcs Hws ltac:(rewrite zlen_payload; lia)
              chunks w h) as (w' & Hw & Hall & Hrest).
  { rewrite zlen_payload. apply chunks_of_window. } { apply Hok. } { apply Hok. }
  rewrite zlen_payload in Hw. exists w'. split_and!.
  - rewrite zlen_payload, Z.eqb_refl. cbn [negb]. destruct chunks as [|c rest] eqn:E; [done|].
    unfold bind_act. by rewrite Hw.
  - split; [done|]. intros k Hk. apply Hrest. intros _. exact Hk.
  - intros id k Hid. by apply Hrest.
Qed.

Lemma write_targets_spec p targets : chunks = [] \/ p = payload -> forall w h,
  NoDup (map rtReplicaID targets) -> Forall (fun t => is_Some (stores !! rtReplicaID t)) targets ->
  exists w', write_targets stores None plan req ws wl p targets (w, h)
             = ((w', h), Ok (map rtReplicaID targets)) /\
    (forall t, t ∈ targets -> written w w' (rtReplicaID t)) /\
    (forall id k, id ∉ map rtReplicaID targets -> view w' id k = view w id k).
Proof.
  intros Hp. induction targets as [|t targets IH]; intros w h Hnd Hst; cbn [map] in *.
  { exists w. split_and!; [done| |done]. intros t Ht. by apply not_elem_of_nil in Ht. }
  apply NoDup_cons in Hnd as [Hnew Hnd]. inversion_clear Hst as [|?? Ht Hst'].
  destruct (write_target_spec p t w h Ht Hp) as (w1 & Hw1 & Hwr & Hother).
  destruct (IH w1 h Hnd Hst') as (w2 & Hw2 & Hall & Hrest). exists w2. split_and!.
  - cbn [write_targets]. unfold bind_act at 1. rewrite Hw1. unfold bind_act. by rewrite Hw2.
  - assert (forall k, view w2 (rtReplicaID t) k = view w1 (rtReplicaID t) k) as E by (intros k; by apply Hrest).
    intros t' [->|Ht']%elem_of_cons.
    + destruct Hwr as [H1 H2]. split; [intros c Hc|intros k Hk]; rewrite E; auto.
    + destruct (Hall t' Ht') as [H1 H2].
      assert (rtReplicaID t' <> rtReplicaID t) as Hne.
      { intros Heq. apply Hnew. rewrite <-Heq. by apply list_elem_of_fmap_2. }
      split.
      * intros c Hc. destruct (H1 c Hc) as (v & Hv & ?). exists v. rewrite Hother in Hv by done. done.
      * intros k Hk. rewrite H2 by done. by apply Hother.
  - intros id k Hid. apply not_elem_of_cons in Hid as [Hne Hid]. rewrite Hrest by done. by apply Hother.
Qed.

Lemma write_extent_spec w : exists w',
  WriteExtent stores None plan req w =
    (w', Ok (mkReplicaWriteResult (map rtReplicaID (wpWriteTargets plan)) [] [] false)) /\
  (forall t, t ∈ wpWriteTargets plan -> written w w' (rtReplicaID t)) /\
  (forall id k, id ∉ map rtReplicaID (wpWriteTargets plan) -> view w' id k = view w id k).
Proof.
  destruct payload_computed as (p & Hp & Hor).
  destruct (write_targets_spec p (wpWriteTargets plan) Hor w ∅ (wk_targets _ Hok) (wk_stores _ Hok))
    as (w' & Hw & Hall & Hrest).
  exists w'. split_and!; [|done|done]. unfold WriteExtent. rewrite Hp, overlap_window, Hw. done.
Qed.

(** A write inside one mapped chunk resolves to that chunk's id. *)
Lemma single_chunk_id c : chunks = [c] -> rwZeroSemantic req = false ->
  resolvedWritePhysicalChunkID plan req = Some (cwPhysicalChunkID c).
Proof.
  intros Hc Hz. pose proof (wk_mapped _ Hok) as Hm. pose proof window_bounds as (Hws & Hwl & He & Hcs & _).
  destruct chunks_of_window as (_ & Hmap & Hfind). rewrite Hc in Hm, Hmap, Hfind.
  unfold resolvedWriteChunkMappings in Hm. unfold resolvedWritePhysicalChunkID.
  rewrite overlap_window in Hm |- *. destruct (_ || _); [done|]. destruct (Z.eqb_spec wl 0); [done|].
  rewrite add64_small, sub64_small by (unfold in_u; lia).
  assert (ws / cs <= (ws + wl - 1) / cs) by (apply Z.div_le_mono; lia).
  destruct (Hfind (ws / cs)) as (c1 & Hc1 & E1); [unfold touched; lia|by left|].
  destruct (Hfind ((ws + wl - 1) / cs)) as (c2 & Hc2 & E2); [unfold touched; lia|by left|].
  apply list_elem_of_singleton in Hc1, Hc2. subst c1 c2.
  rewrite (proj2 (Z.eqb_eq (ws / cs) _)) by lia. cbn [negb].
  destruct (Hmap c) as [_ (Hcov & Hzero & Hid & _ & _ & Hne)]; [by left|]. rewrite <-E1, Hcov, Hzero. cbn [negb orb].
  rewrite <-Hid, (proj2 (Z.eqb_neq _ _)); done.
Qed.

End Write.

(** ** Reading *)

Section Read.
Context {W : Type} (stores : gmap string (PayloadStore W)) (view : W -> string -> string -> option bytes).
Context `{!PayloadLaws stores view}.
Context (plan : ExtentReadPlan) (req : ReplicaReadRequest) (id : string).

Abbreviation cs := (rpChunkSizeBytes plan).
Abbreviation key c := (localReplicaPayloadKey id (rrVolumeID req) (emExtentID (rpExtent plan)) c).
Abbreviation record l := (logicalChunkAllocationRecord (rpAllocationPages plan) l).

(** The byte at logical position [p] on the replica, as the plan's pages map it. *)
Definition content (w : W) (p : Z) : option byte :=
  if zero (record (p / cs)) then Some Byte.x00
  else view w id (key (physicalChunkID (record (p / cs)))) ≫= fun v => v !! Z.to_nat (p mod cs).

(** A chunk whose object is there in full. *)
Definition readable (w : W) (l : Z) : Prop :=
  covered (record l) = true /\
  (zero (record l) = false -> encryption (record l) = None /\
     exists v, view w id (key (physicalChunkID (record l))) = Some v /\ cs <= zlen v).

Definition chunk_read (l : Z) : resolvedChunkRead :=
  let r := record l in
  mkresolvedChunkRead l (physicalChunkID r) (payloadVolumeID r) (zero r) (encryption r).

(** The buffer after chunk [l] was copied into it. *)
Definition filled (w : W) (l rs rl : Z) (out out' : bytes) : Prop :=
  zlen out' = rl /\ forall p, rs <= p < rs + rl ->
    out' !! Z.to_nat (p - rs) = (if decide (l * cs <= p < l * cs + cs) then content w p
                                 else out !! Z.to_nat (p - rs)).

Lemma div_of_chunk p l : 0 < cs -> l * cs <= p < l * cs + cs -> p / cs = l /\ p mod cs = p - l * cs.
Proof.
  intros Hcs Hp. assert (p / cs = l) as E by (symmetry; apply Z.div_unique with (p - l * cs); lia).
  split; [done|]. rewrite Z.mod_eq, E by lia. lia.
Qed.

Lemma read_chunk_spec st l rs rl out w :
  stores !! id = Some st -> 0 < cs -> 0 <= rs -> 0 <= l -> l * cs + cs < 2 ^ 64 -> rs + rl < 2 ^ 64 ->
  zlen out = rl -> readable w l -> Z.max rs (l * cs) < Z.min (rs + rl) (l * cs + cs) ->
  (forall p, l * cs <= p -> rs <= p < rs + rl -> out !! Z.to_nat (p - rs) = Some Byte.x00) ->
  exists w' out', read_chunk None st id plan req rs rl (chunk_read l) out w = (w', Ok out') /\
    same_view view w w' /\ filled w l rs rl out out'.
Proof.
  intros Hst Hcs Hrs Hl He Hre Hlen [Hcov Hread] Hmeet Hzero. unfold read_chunk, chunk_read.
  cbn [cdLogicalChunk cdZero cdPhysicalChunkID cdEncryption]. assert (0 <= l * cs) by lia.
  rewrite (mul64_small l), !add64_small by (unfold in_u; lia).
  rewrite (proj2 (Z.leb_gt _ _)) by done. destruct (zero (record l)) eqn:Hz.
  { exists w, out. split_and!; [done|done|]. split; [done|]. intros p Hp. destruct (decide _) as [Hin|]; [|done].
    destruct (div_of_chunk p l Hcs Hin) as [E _]. unfold content. rewrite E, Hz. apply Hzero; lia. }
  destruct (Hread eq_refl) as (-> & v & Hv & Hvl).
  destruct (get_law id st (key (physicalChunkID (record l))) w Hst) as (w' & Hget & Hsame).
  unfold bind_act at 1, from_store. rewrite Hget, Hv. cbn [map_err isSome].
  set (a := Z.max rs (l * cs)) in *. set (b := Z.min (rs + rl) (l * cs + cs)) in *.
  unfold bind_act, lift_act. cbn [decryptChunk]. rewrite !sub64_small, !add64_small by (unfold in_u; lia).
  replace (a - l * cs + (b - a)) with (b - l * cs) by lia. replace (a - rs + (b - a)) with (b - rs) by lia.
  rewrite (proj2 (Z.ltb_ge _ _)) by lia. unfold go_slice.
  rewrite !(proj2 (Z.leb_le _ _)) by lia. cbn [andb].
  assert (zlen (slice (a - l * cs) (b - l * cs) v) = b - a) as Hs by (rewrite zlen_slice; lia).
  assert (zlen (slice (a - rs) (b - rs) out) = b - a) as Ho by (rewrite zlen_slice; lia).
  rewrite copy_prefix_same by lia. exists w', (splice out (a - rs) (slice (a - l * cs) (b - l * cs) v)).
  split_and!; [done|done|]. split; [rewrite zlen_splice; lia|].
  intros p Hp. destruct (decide _) as [Hin|Hout].
  - rewrite lookup_splice_in by lia. rewrite lookup_slice by lia.
    destruct (div_of_chunk p l Hcs Hin) as [E1 E2]. unfold content. rewrite E1, E2, Hz, Hv. cbn.
    f_equal. lia.
  - rewrite lookup_splice_out by lia. done.
Qed.

Lemma read_chunks_spec st rs rl : stores !! id = Some st -> 0 < cs -> 0 <= rs -> rs + rl < 2 ^ 64 ->
  forall n lc chunks out w, read_mappings n lc (rpAllocationPages plan) = Some chunks ->
  0 <= lc -> (lc + Z.of_nat n) * cs < 2 ^ 64 -> zlen out = rl ->
  (forall l, lc <= l < lc + Z.of_nat n ->
     readable w l /\ Z.max rs (l * cs) < Z.min (rs + rl) (l * cs + cs)) ->
  (forall p, lc * cs <= p -> rs <= p < rs + rl -> out !! Z.to_nat (p - rs) = Some Byte.x00) ->
  exists w' out', read_chunks None st id plan req rs rl chunks out w = (w', Ok out') /\
    same_view view w w' /\ zlen out' = rl /\
    (forall p, rs <= p < rs + rl -> out' !! Z.to_nat (p - rs) =
       (if decide (lc * cs <= p < (lc + Z.of_nat n) * cs) then content w p else out !! Z.to_nat (p - rs))).
Proof.
  intros Hst Hcs Hrs Hre. induction n as [|n IH]; intros lc chunks out w Hm Hl He Hlen Hr Hz.
  { injection Hm as <-. exists w, out. split_and!; [done|done|done|]. intros p Hp.
    rewrite decide_False by lia. done. }
  cbn [read_mappings] in Hm. destruct (covered (record lc)) eqn:Hcov; cbn [negb] in Hm; [|done].
  rewrite (add64_small lc 1) in Hm by (unfold in_u; nia).
  destruct (read_mappings n (lc + 1) _) as [rest|] eqn:Hrest; [|done]. cbn in Hm. injection Hm as <-.
  destruct (Hr lc ltac:(lia)) as [Hrd Hmeet].
  destruct (read_chunk_spec st lc rs rl out w Hst Hcs Hrs Hl ltac:(nia) Hre Hlen Hrd Hmeet Hz)
    as (w1 & out1 & Hc1 & Hs1 & Hl1 & Hf1).
  destruct (IH (lc + 1) rest out1 w1 Hrest ltac:(lia) ltac:(nia) Hl1) as (w2 & out2 & Hc2 & Hs2 & Hl2 & Hf2).
  { intros l Hlr. destruct (Hr l ltac:(lia)) as [[Hc Hd] ?]. split; [|done]. split; [done|].
    intros Hzl. destruct (Hd Hzl) as (? & v & Hv & ?). split; [done|]. exists v. by rewrite Hs1. }
  { intros p Hp Hpr. rewrite Hf1 by done. rewrite decide_False by lia. apply Hz; [lia|done]. }
  exists w2, out2. split_and!; [|by intros i k; rewrite Hs2, Hs1|done|].
  - cbn [read_chunks]. unfold bind_act. change (mkresolvedChunkRead _ _ _ _ _) with (chunk_read lc).
    by rewrite Hc1.
  - intros p Hp. rewrite Hf2 by done. assert (forall q, content w1 q = content w q) as Ec.
    { intros q. unfold content. by rewrite Hs1. }
    rewrite Ec. rewrite Hf1 by done. repeat destruct (decide _); try done; lia.
Qed.

Lemma read_mappings_total n : forall lc, 0 <= lc -> lc + Z.of_nat n < 2 ^ 64 ->
  (forall l, lc <= l < lc + Z.of_nat n -> covered (record l) = true) ->
  exists chunks, read_mappings n lc (rpAllocationPages plan) = Some chunks /\ length chunks = n.
Proof.
  induction n as [|n IH]; intros lc Hl He Hc; cbn [read_mappings]; [by exists []|].
  rewrite (Hc lc) by lia. cbn [negb]. rewrite add64_small by (unfold in_u; lia).
  destruct (IH (lc + 1)) as (rest & -> & Hlen); [lia|lia|intros; apply Hc; lia|].
  eexists. split; [reflexivity|]. cbn. by rewrite Hlen.
Qed.

Lemma zero_range_spec n : forall lc, 0 <= lc -> lc + Z.of_nat n < 2 ^ 64 ->
  zero_range n lc (rpAllocationPages plan) = true ->
  forall l, lc <= l < lc + Z.of_nat n -> zero (record l) = true.
Proof.
  induction n as [|n IH]; intros lc Hl He Hz l Hlr; [lia|]. cbn [zero_range] in Hz.
  destruct (covered (record lc)), (zero (record lc)) eqn:E; cbn in Hz; try done.
  rewrite add64_small in Hz by (unfold in_u; lia).
  destruct (decide (l = lc)) as [->|]; [done|]. apply (IH (lc + 1)); [lia|lia|done|lia].
Qed.

(** The window of a read, and when it is well-formed. *)
Definition read_window : Z * Z :=
  let rs := Z.max (rrOffsetBytes req) (emLogicalOffset (rpExtent plan)) in
  (rs, Z.min (rrOffsetBytes req + rrLengthBytes req)
         (emLogicalOffset (rpExtent plan) + emLengthBytes (rpExtent plan)) - rs).

Abbreviation rs := (read_window.1).
Abbreviation rl := (read_window.2).

Record read_ok : Prop := {
  rk_chunk : 0 < cs;
  rk_extent : 0 <= emLogicalOffset (rpExtent plan) /\ 0 <= emLengthBytes (rpExtent plan) /\
              emLogicalOffset (rpExtent plan) + emLengthBytes (rpExtent plan) + cs < 2 ^ 64;
  rk_req : 0 <= rrOffsetBytes req /\ 0 <= rrLengthBytes req /\
           rrOffsetBytes req + rrLengthBytes req < 2 ^ 64;
  rk_meets : 0 < rl;
  rk_pages : rpAllocationPages plan <> [];
  rk_preferred : rtReplicaID (rpPreferred plan) = id;
  rk_store : is_Some (stores !! id) }.

Lemma read_window_ok : read_ok ->
  overlapRange (emLogicalOffset (rpExtent plan)) (emLengthBytes (rpExtent plan))
    (rrOffsetBytes req) (rrLengthBytes req) = Some (rs, rl) /\
  0 <= rs /\ rs + rl + cs < 2 ^ 64 /\ 0 <= rs / cs <= (rs + rl - 1) / cs.
Proof.
  intros [Hcs He Hr Hm _ _ _].
  assert (0 <= rs /\ rs + rl + cs < 2 ^ 64) as [Hrs Hre] by (unfold read_window in *; cbn [fst snd] in *; lia).
  split_and!; [|done|done|apply Z.div_pos; lia|apply Z.div_le_mono; lia].
  unfold overlapRange, read_window in *. cbn [fst snd] in *. rewrite !add64_small by (unfold in_u; lia).
  rewrite !(proj2 (Z.leb_gt _ _)) by lia. cbn [orb]. by rewrite sub64_small by (unfold in_u; lia).
Qed.

Lemma read_extent_spec w : read_ok ->
  (forall l, rs / cs <= l <= (rs + rl - 1) / cs -> readable w l) ->
  exists w' data source, ReadExtent stores None plan req w = (w', Ok (data, source)) /\
    same_view view w w' /\ zlen data = rl /\
    (forall p, rs <= p < rs + rl -> data !! Z.to_nat (p - rs) = content w p).
Proof.
  intros Hok Hread. destruct (read_window_ok Hok) as (Hov & Hrs & Hre & Hspan).
  destruct Hok as [Hcs _ _ Hm Hpages Hpref [st Hst]]. unfold ReadExtent.
  pose proof (Z.mul_div_le (rs + rl - 1) cs Hcs) as Hlast. pose proof (Z.mul_succ_div_gt rs cs Hcs) as Hfirst.
  pose proof (Z.mul_div_le rs cs Hcs) as Hfirst'. pose proof (Z.mul_succ_div_gt (rs + rl - 1) cs Hcs) as Hlast'.
  rewrite Hov. unfold readRangeSatisfiedByZeroAllocation. rewrite Hov, (proj2 (Z.eqb_neq cs 0)) by lia.
  assert ((zlen (rpAllocationPages plan) =? 0) = false) as Hp0.
  { apply Z.eqb_neq. intros E. by apply Hpages, zlen_nil_inv; rewrite E. }
  rewrite Hp0, (proj2 (Z.eqb_neq rl 0)) by lia. cbn [orb].
  unfold chunk_span. rewrite (add64_small rs rl), sub64_small by (unfold in_u; lia).
  set (n := Z.to_nat _). assert (Z.of_nat n = (rs + rl - 1) / cs - rs / cs + 1) as Hn by lia.
  destruct (zero_range n (rs / cs) (rpAllocationPages plan)) eqn:Hzero.
  { exists w, (zeroes rl), "". split_and!; [done|done|by apply zlen_zeroes; lia|]. intros p Hp.
    rewrite lookup_zeroes by lia. unfold content.
    rewrite (zero_range_spec n (rs / cs)); [done|lia|nia|done|].
    rewrite Hn. split; [apply Z.div_le_mono; lia|].
    assert (p / cs <= (rs + rl - 1) / cs) by (apply Z.div_le_mono; lia). lia. }
  assert (forall l, rs / cs <= l < rs / cs + Z.of_nat n ->
            readable w l /\ Z.max rs (l * cs) < Z.min (rs + rl) (l * cs + cs)) as Hall.
  { intros l Hl. split; [apply Hread; lia|]. nia. }
  destruct (read_mappings_total n (rs / cs)) as (chunks & Hmap & Hlen); [lia|nia|by intros l Hl; apply Hall|].
  cbn [read_targets]. rewrite Hpref, Hst. unfold readViaAllocationChunks, resolvedReadChunkMappings.
  rewrite Hov, Hp0, (proj2 (Z.eqb_neq cs 0)), (proj2 (Z.eqb_neq rl 0)) by lia. cbn [orb].
  unfold chunk_span. rewrite (add64_small rs rl), sub64_small by (unfold in_u; lia). fold n. rewrite Hmap.
  destruct (read_chunks_spec st rs rl Hst Hcs Hrs ltac:(lia) n (rs / cs) chunks (zeroes rl) w Hmap)
    as (w' & out & Hout & Hsame & Hlo & Hf);
    [lia|rewrite Hn; nia|by apply zlen_zeroes; lia|done|by intros p _ Hp; apply lookup_zeroes; lia|].
  destruct chunks as [|c rest]; [cbn in Hlen; lia|]. unfold bind_act at 1. rewrite Hout.
  exists w', out, id. split_and!; [done|done|done|]. intros p Hp. rewrite Hf by done.
  rewrite decide_True; [done|]. rewrite Hn. nia.
Qed.

End Read.

(** ** Properties *)

(** What a local write stores.  When a plan's chunks are mapped to distinct
    objects and every target has a store, [WriteExtent] acknowledges every
    target, and on each of them the object of every chunk of the write holds the
    base object with the request's bytes over it, byte for byte and one chunk
    long; no other object of a target and no other replica changes. *)
Theorem write_extent_exact {W} (stores : gmap string (PayloadStore W)) view `{!PayloadLaws stores view}
    (plan : ExtentWritePlan) (req : ReplicaWriteRequest) (chunks : list resolvedChunkWrite) (w : W) :
  write_ok stores plan req chunks -> exists w',
  WriteExtent stores None plan req w =
    (w', Ok (mkReplicaWriteResult (map rtReplicaID (wpWriteTargets plan)) [] [] false)) /\
  (forall t, t ∈ wpWriteTargets plan -> written view plan req chunks w w' (rtReplicaID t)) /\
  (forall id k, id ∉ map rtReplicaID (wpWriteTargets plan) -> view w' id k = view w id k).
Proof. intros Hok. by apply write_extent_spec. Qed.

(** The read plan of the extent a write plan writes, once the pages are committed. *)
Record same_extent (wplan : ExtentWritePlan) (wreq : ReplicaWriteRequest) (rplan : ExtentReadPlan)
    (rreq : ReplicaReadRequest) : Prop := {
  se_extent : rpExtent rplan = wpExtent wplan;
  se_pages : rpAllocationPages rplan = wpAllocationPages wplan;
  se_chunk : rpChunkSizeBytes rplan = wpChunkSizeBytes wplan;
  se_volume : rrVolumeID rreq = rwVolumeID wreq }.

Section ReadBack.
Context {W : Type} (stores : gmap string (PayloadStore W)) (view : W -> string -> string -> option bytes).
Context `{!PayloadLaws stores view}.
Context (wplan : ExtentWritePlan) (wreq : ReplicaWriteRequest) (chunks : list resolvedChunkWrite).
Context (rplan : ExtentReadPlan) (rreq : ReplicaReadRequest).
Context (Hok : write_ok stores wplan wreq chunks) (Hsame : same_extent wplan wreq rplan rreq).

(** The chunk of a touched position, after a write that zeroes nothing. *)
Lemma chunk_after w w' id l : rwZeroSemantic wreq = false -> touched wplan wreq l ->
  written view wplan wreq chunks w w' id ->
  exists c v, c ∈ chunks /\ cwLogicalChunk c = l /\
    readable view rplan rreq id w' l /\
    overlaid (wpChunkSizeBytes wplan) (l * wpChunkSizeBytes wplan) (window wplan wreq).1
      (payload wplan wreq)
      (view w id (localReplicaPayloadKey id (rwVolumeID wreq) (emExtentID (wpExtent wplan)) (base_of c).1)) v /\
    (forall p, l * wpChunkSizeBytes wplan <= p < l * wpChunkSizeBytes wplan + wpChunkSizeBytes wplan ->
       content view rplan rreq id w' p = v !! Z.to_nat (p - l * wpChunkSizeBytes wplan)).
Proof.
  intros Hz Hl [Hwr _]. destruct Hsame as [He Hp Hc Hv].
  destruct (chunks_of_window stores wplan wreq chunks Hok) as (_ & Hmap & Hfind).
  destruct (Hfind l Hl) as (c & Hin & Hcl); [by left|].
  destruct (Hmap c Hin) as (_ & Hcov & Hzero & Hid & Henc & _). rewrite Hcl in *.
  destruct (Hwr c Hin) as (v & Hover & Hview). rewrite Hcl in Hover.
  pose proof (wk_plain _ _ _ _ Hok) as Hplain. rewrite Forall_forall in Hplain.
  pose proof (wk_chunk _ _ _ _ Hok) as Hcs.
  exists c, v. split_and!; try done.
  - unfold readable. rewrite Hp, He, Hv, Hc. split; [done|]. intros _.
    destruct (Hplain c Hin) as [E _]. split; [by rewrite <-Henc|]. exists v. rewrite <-Hid. split; [done|].
    destruct Hover as [-> _]. done.
  - intros p Hpr. unfold content.
    destruct (div_of_chunk rplan p l) as [-> ->]; [rewrite Hc; lia|rewrite Hc; lia|].
    rewrite Hp, Hzero, <-Hid, He, Hv, Hview, Hc. done.
Qed.

End ReadBack.

(** C9: a read sees the write before it.  After a local write that is not a
    zeroing write and whose chunks are all mapped, to distinct objects and
    without encryption, a read of chunks the write touched, planned on the pages
    the write used and answered by any of its targets, returns the request's bytes
    inside the written range and the bytes of the base objects around it, in
    full; both calls succeed.  (A zeroing write of a whole chunk stores no payload:
    its effect is the mapping that is committed afterwards.) *)
Theorem read_your_writes {W} (stores : gmap string (PayloadStore W)) view `{!PayloadLaws stores view}
    (wplan : ExtentWritePlan) (wreq : ReplicaWriteRequest) (chunks : list resolvedChunkWrite)
    (rplan : ExtentReadPlan) (rreq : ReplicaReadRequest) (t : ReplicaTarget) (w : W) :
  write_ok stores wplan wreq chunks -> same_extent wplan wreq rplan rreq ->
  rwZeroSemantic wreq = false -> t ∈ wpWriteTargets wplan ->
  read_ok stores rplan rreq (rtReplicaID t) ->
  let '(ws, wl) := window wplan wreq in
  let '(rs, rl) := read_window rplan rreq in
  let cs := wpChunkSizeBytes wplan in
  (forall l, rs / cs <= l <= (rs + rl - 1) / cs -> touched wplan wreq l) ->
  exists w1 res w2 data source,
    WriteExtent stores None wplan wreq w = (w1, Ok res) /\
    ReadExtent stores None rplan rreq w1 = (w2, Ok (data, source)) /\ zlen data = rl /\
    forall p, rs <= p < rs + rl -> exists c, c ∈ chunks /\ cwLogicalChunk c = p / cs /\
      data !! Z.to_nat (p - rs) =
        (if decide (ws <= p < ws + wl) then rwData wreq !! Z.to_nat (p - rwOffsetBytes wreq)
         else Some (byte_at (view w (rtReplicaID t) (localReplicaPayloadKey (rtReplicaID t)
                      (rwVolumeID wreq) (emExtentID (wpExtent wplan)) (base_of c).1)) (p mod cs))).
Proof.
  intros Hok Hsame Hz Ht Hrd. destruct (window wplan wreq) as [ws wl] eqn:Ew.
  destruct (read_window rplan rreq) as [rs rl] eqn:Er. intros cs Htouch. set (id := rtReplicaID t) in *.
  destruct (write_extent_spec stores view wplan wreq chunks Hok w) as (w1 & Hw & Hwr & _).
  specialize (Hwr t Ht). fold id in Hwr.
  assert (forall l, rs / cs <= l <= (rs + rl - 1) / cs -> readable view rplan rreq id w1 l) as Hrl.
  { intros l Hl.
    destruct (chunk_after stores view wplan wreq chunks rplan rreq Hok Hsame w w1 id l Hz (Htouch l Hl) Hwr)
      as (c & v & _ & _ & H & _). done. }
  pose proof (se_chunk _ _ _ _ Hsame) as Hc. fold cs in Hc.
  destruct (read_extent_spec stores view rplan rreq id w1 Hrd) as (w2 & data & source & Hr & _ & Hlen & Hdata).
  { rewrite Er, Hc. exact Hrl. }
  rewrite Er in Hlen, Hdata. cbn [fst snd] in Hlen, Hdata.
  exists w1. eexists. exists w2, data, source. split_and!; [exact Hw|done|done|]. intros p Hp. rewrite Hdata by done.
  pose proof (wk_chunk _ _ _ _ Hok) as [Hcs _]. fold cs in Hcs.
  assert (rs / cs <= p / cs <= (rs + rl - 1) / cs) as Hl by (split; apply Z.div_le_mono; lia).
  destruct (chunk_after stores view wplan wreq chunks rplan rreq Hok Hsame w w1 id (p / cs) Hz (Htouch _ Hl) Hwr)
    as (c & v & Hin & Hcl & _ & [_ Hov] & Hv). exists c. split_and!; [done|done|].
  pose proof (Z.mul_div_le p cs Hcs). pose proof (Z.mul_succ_div_gt p cs Hcs). fold cs in Hv, Hov.
  rewrite Hv, Hov by lia. rewrite (zlen_payload stores wplan wreq chunks Hok), Ew. cbn [fst snd].
  replace (p / cs * cs + (p - p / cs * cs)) with p by lia.
  destruct (decide _) as [Hpw|]; [|by rewrite Z.mod_eq, (Z.mul_comm cs) by lia].
  pose proof (window_bounds stores wplan wreq chunks Hok) as (_ & _ & _ & _ & Hb & _). rewrite Ew in Hb.
  unfold payload. rewrite Ew. cbn [fst snd] in *. rewrite lookup_slice by lia. f_equal. lia.
Qed.

(** ** A primary on a draining node *)

Section Draining.
Context (placement : ResolvedExtentPlacement) (r : ReplicaDescriptor) (node : NodeMembershipRecord).
Let set := reReplicaSet placement.

(** The primary [r] of an extent is on a healthy node that is draining. *)
Record draining_primary : Prop := {
  dp_distinct : NoDup (map rdReplicaID (rsReplicas set));
  dp_in : r ∈ rsReplicas set;
  dp_id : rdReplicaID r = rsPrimaryReplicaID set /\ rdReplicaID r <> "";
  dp_role : Forall (fun r' => rdRole r' = ReplicaRolePrimary -> r' = r) (rsReplicas set);
  dp_node : reNodes placement !! rdNodeID r = Some node;
  dp_state : nmLifecycleState node = NodeLifecycleDraining /\ nmHealthState node = NodeHealthHealthy }.

Lemma draining_not_written primary targets : draining_primary ->
  buildWriteTargets set (reNodes placement) = Ok (primary, targets) -> rdReplicaID r ∉ map rtReplicaID targets.
Proof.
  intros [Hd Hin _ _ Hn [Hs _]] Hb Hr. apply build_targets_spec in Hb as [_ Hp]; [|done].
  apply (Permutation_map rtReplicaID) in Hp. rewrite Hp, map_map in Hr.
  apply list_elem_of_In, in_map_iff in Hr as (r' & Hid & [Hin' Hw]%filter_In).
  apply list_elem_of_In in Hin'.
  apply (key_determines rdReplicaID _ r' r Hd Hin' Hin) in Hid as ->.
  unfold replicaWritable in Hw. by rewrite Hn, Hs in Hw.
Qed.

Lemma draining_read primary fallbacks : draining_primary ->
  buildReadTargets set (reNodes placement) = Ok (primary, fallbacks) -> primary = toTarget r.
Proof.
  intros [Hd Hin [Hid Hne] Hrole Hn [Hs Hh]]. unfold buildReadTargets.
  assert (r ∈ readableReplicas (rsReplicas set) (reNodes placement)) as Hr.
  { apply list_elem_of_In, filter_In. split; [by apply list_elem_of_In|].
    unfold replicaReadable, healthy. by rewrite Hn, Hs, Hh. }
  destruct (readableReplicas _ _) as [|c0 cands] eqn:Hc; [by apply not_elem_of_nil in Hr|].
  unfold buildWriteTargets. cbn [rsReplicas rsReplicaSetID rsPrimaryReplicaID set].
  destruct (_ =? 0) eqn:E; [done|]. clear E.
  assert (forall l, writableReplicas l ∅ = l) as Hall.
  { induction l as [|x l IH]; [done|]. cbn. f_equal. exact IH. }
  cbn [rsReplicas zero_ReplicaSetState]. rewrite Hall.
  assert (findPrimary (rsPrimaryReplicaID set) (c0 :: cands) = Some (toTarget r)) as Hf.
  { unfold findPrimary. rewrite <-Hid. destruct (String.eqb_spec (rdReplicaID r) ""); [done|].
    destruct (List.find _ _) as [r'|] eqn:Hf.
    - apply find_some in Hf as [Hin' Hor]. cbn. do 2 f_equal.
      rewrite <-Hc in Hin'. apply filter_In in Hin' as [Hin'%list_elem_of_In _].
      apply orb_true_iff in Hor as [He%String.eqb_eq|Hp%String.eqb_eq].
      + by apply (key_determines rdReplicaID _ r' r Hd Hin' Hin).
      + rewrite Forall_forall in Hrole. by apply Hrole.
    - apply list_elem_of_In in Hr. apply (find_none _ _ Hf) in Hr. by rewrite String.eqb_refl in Hr. }
  intros E. cbn in E. rewrite Hf in E. by injection E as <- _.
Qed.

End Draining.

(** A draining primary serves stale bytes.  [buildWriteTargets] leaves the
    replica of a draining node out, [buildReadTargets] still prefers it as the
    primary: the write planned on a placement is acknowledged without it, and
    the read planned on the same placement and pages is sent to it and returns
    exactly what it returned before the write. *)
Theorem unwritten_replica_reads_stale {W} (stores : gmap string (PayloadStore W)) view
    `{!PayloadLaws stores view} (placement : ResolvedExtentPlacement) (r : ReplicaDescriptor)
    (node : NodeMembershipRecord) (pages : list ResolvedAllocationPage) (cs : Z)
    (wplan : ExtentWritePlan) (wreq : ReplicaWriteRequest) (chunks : list resolvedChunkWrite)
    (rplan : ExtentReadPlan) (rreq : ReplicaReadRequest) (w : W) :
  draining_primary placement r node ->
  extent_write_plan placement pages cs false = Ok wplan -> read_plans [placement] pages cs = Ok [rplan] ->
  write_ok stores wplan wreq chunks -> read_ok stores rplan rreq (rtReplicaID (rpPreferred rplan)) ->
  let '(rs, rl) := read_window rplan rreq in
  (forall l, rs / cs <= l <= (rs + rl - 1) / cs -> readable view rplan rreq (rdReplicaID r) w l) ->
  exists w1 w2 data source,
    WriteExtent stores None wplan wreq w =
      (w1, Ok (mkReplicaWriteResult (map rtReplicaID (wpWriteTargets wplan)) [] [] false)) /\
    ReadExtent stores None rplan rreq w1 = (w2, Ok (data, source)) /\ zlen data = rl /\
    forall p, rs <= p < rs + rl -> data !! Z.to_nat (p - rs) = content view rplan rreq (rdReplicaID r) w p.
Proof.
  intros Hdr Hwp Hrp Hok Hrd. destruct (read_window rplan rreq) as [rs rl] eqn:Er. intros Hall.
  assert (rdReplicaID r ∉ map rtReplicaID (wpWriteTargets wplan)) as Hout.
  { unfold extent_write_plan in Hwp. destruct (buildWriteTargets _ _) as [[p ts]| |] eqn:Hb; [|done|done].
    cbn in Hwp. destruct (_ <? _); [done|]. injection Hwp as <-. by apply (draining_not_written _ _ _ _ _ Hdr Hb). }
  assert (rpPreferred rplan = toTarget r /\ rpChunkSizeBytes rplan = cs) as [Hpref Hcs].
  { cbn in Hrp. destruct (buildReadTargets _ _) as [[p fs]| |] eqn:Hb; [|done|done].
    cbn in Hrp. injection Hrp as <-. cbn. by rewrite (draining_read _ _ _ _ _ Hdr Hb). }
  rewrite Hpref in Hrd. cbn [toTarget rtReplicaID] in Hrd.
  destruct (write_extent_spec stores view wplan wreq chunks Hok w) as (w1 & Hw & _ & Hother).
  destruct (read_extent_spec stores view rplan rreq _ w1 Hrd) as (w2 & data & source & Hr & _ & Hlen & Hdata).
  { rewrite Er, Hcs. intros l Hl. destruct (Hall l Hl) as [Hc Hv]. split; [done|]. intros Hz.
    destruct (Hv Hz) as (? & v & Hv' & ?). split; [done|]. exists v. by rewrite Hother. }
  rewrite Er in Hlen, Hdata. exists w1, w2, data, source. split_and!; [done|done|done|]. intros p Hp.
  rewrite Hdata by done. unfold content. by rewrite Hother.
Qed.

(** C29: a failed chunk merge is acknowledged.  When the object a partial write
    starts from cannot be read, [writeViaAllocationChunks] returns the error
    beside [false]; [WriteExtent] looks at the error only beside [true], falls
    through to the layout without chunks, stores the bare payload as the whole
    chunk and acknowledges the write. *)
Theorem failed_merge_acknowledged {W} (stores : gmap string (PayloadStore W))
    (plan : ExtentWritePlan) (req : ReplicaWriteRequest) (c : resolvedChunkWrite)
    (t : ReplicaTarget) (st : PayloadStore W) (e : Gateway.svc_error) (w w1 w2 : W) :
  write_ok stores plan req [c] -> rwZeroSemantic req = false -> wpWriteTargets plan = [t] ->
  stores !! rtReplicaID t = Some st ->
  let '(ws, wl) := window plan req in
  let key id := localReplicaPayloadKey (rtReplicaID t) (rwVolumeID req) (emExtentID (wpExtent plan)) id in
  wl < wpChunkSizeBytes plan ->
  @store_get _ (psStore st) (key (base_of c).1) w = (w1, Err e) ->
  @store_put _ (psStore st) (key (cwPhysicalChunkID c)) (payload plan req) w1 = (w2, Ok tt) ->
  WriteExtent stores None plan req w = (w2, Ok (mkReplicaWriteResult [rtReplicaID t] [] [] false)).
Proof.
  intros Hok Hz Ht Hst. destruct (window plan req) as [ws wl] eqn:Ew. intros key Hpart Hget Hput. unfold key in Hget, Hput. clear key.
  pose proof (window_bounds stores plan req [c] Hok) as (Hws & Hwl & He & Hcs & _).
  destruct (chunks_of_window stores plan req [c] Hok) as (Hcok & Hmap & Hfind).
  pose proof (overlap_window stores plan req [c] Hok) as Hov. pose proof (zlen_payload stores plan req [c] Hok) as Hpl.
  destruct (payload_computed stores plan req [c] Hok) as (p & Hp & [Hno| ->]); [done|].
  destruct (Hmap c) as [Htc (Hcov & Hzc & Hid & _)]; [by left|].
  inversion_clear Hcok as [|?? [Hl Hce Hm _ Hbase _ _] _].
  assert (resolvedWritePhysicalChunkID plan req = Some (cwPhysicalChunkID c)) as Hphys.
  { by apply (single_chunk_id stores plan req [c] Hok). }
  unfold WriteExtent. rewrite Hp, Hov, Ht. cbn [write_targets]. unfold bind_act at 1, write_target.
  rewrite Hst. unfold writeViaAllocationChunks. rewrite (wk_mapped _ _ _ _ Hok), Hpl, Z.eqb_refl. cbn [negb].
  rewrite Ew in *. cbn [fst snd write_chunks] in *.
  assert (write_chunk None st (rtReplicaID t) plan req ws wl (payload plan req) c (w, ∅)
          = ((w1, ∅), Err (StoreFailed e))) as Hfail.
  { unfold write_chunk. rewrite (mul64_small (cwLogicalChunk c)), !add64_small by (unfold in_u; lia).
    rewrite (proj2 (Z.leb_gt _ _)) by lia. rewrite Hz. cbn [shouldSkipChunkPayloadWrite andb].
    fold (base_of c). unfold loadChunkForMerge. rewrite Hbase.
    replace (_ && _) with false; [|symmetry; apply andb_false_iff; rewrite !Z.eqb_neq; lia].
    unfold bind_act, on_store. by rewrite Hget. }
  unfold bind_act at 1 2. rewrite Hfail. cbv beta iota. unfold write_legacy. cbn [isSome].
  rewrite Hphys. cbn [default from_option]. unfold on_store. unfold id. by rewrite Hput.
Qed.

(** ** A small cluster: three replicas, the primary on a draining node *)

Definition small_pages : list ResolvedAllocationPage :=
  [mkResolvedAllocationPage
     (mkAllocationPageRecord "v" 0 16 4 1
        [mkAllocationExtentRecord 0 4 AllocationKindData 10 "" 1 "" None]) 0 4 true].

Definition small_set : ReplicaSetState :=
  mkReplicaSetState "rs" "v" "rs" 1
    [mkReplicaDescriptor "na" "a" ReplicaRolePrimary ""; mkReplicaDescriptor "nb" "b" ReplicaRoleSecondary "";
     mkReplicaDescriptor "nc" "c" ReplicaRoleSecondary ""] "a" 2 1 [].

Definition small_placement (lifecycle : string) : ResolvedExtentPlacement :=
  mkResolvedPlacement (mkExtentMappingRecord "v" 1 0 16 0 "rs" 1) small_set
    {["na" := mkNode lifecycle NodeHealthHealthy]}.

Definition small_write_plan (lifecycle : string) : ExtentWritePlan :=
  match extent_write_plan (small_placement lifecycle) small_pages 4 false with
  | Ok p => p | _ => zero_ExtentWritePlan end.

Definition small_read_plan (lifecycle : string) : ExtentReadPlan :=
  match buildReadPlanFromResolved "v" [small_placement lifecycle] small_pages 4 with
  | Ok (mkReadPlan _ [p]) => p | _ => zero_ExtentReadPlan end.

Definition small_write : ReplicaWriteRequest :=
  zero_ReplicaWriteRequest <| rwVolumeID := "v" |> <| rwOffsetBytes := 2 |> <| rwLengthBytes := 4 |>
    <| rwData := [Byte.x01; Byte.x02; Byte.x03; Byte.x04] |>.

Definition small_read : ReplicaReadRequest := mkReplicaReadRequest "" "v" "" "" 0 8 false.

Definition small_stores := memory_replicas ["a"; "b"; "c"].

Definition small_store (id : string) : MemoryStore :=
  mkMemoryStore {[localReplicaPayloadKey id "v" 1 10 := replicate 4 Byte.x09;
                  localReplicaPayloadKey id "v" 1 11 := replicate 4 Byte.x08]}.

Definition small_cluster : Cluster :=
  {["a" := small_store "a"; "b" := small_store "b"; "c" := small_store "c"]}.

Definition small_chunks : list resolvedChunkWrite :=
  [mkresolvedChunkWrite 0 10 0 None None; mkresolvedChunkWrite 1 11 0 None None].

Lemma small_store_some id : id = "a" \/ id = "b" \/ id = "c" -> is_Some (small_stores !! id).
Proof. intros [->|[->| ->]]; by eexists. Qed.

Lemma small_targets lifecycle : lifecycle = NodeLifecycleActive \/ lifecycle = NodeLifecycleDraining ->
  map rtReplicaID (wpWriteTargets (small_write_plan lifecycle)) =
    (if decide (lifecycle = NodeLifecycleActive) then ["a"; "b"; "c"] else ["b"; "c"]).
Proof. intros [->| ->]; reflexivity. Qed.

Lemma small_write_ok lifecycle : lifecycle = NodeLifecycleActive \/ lifecycle = NodeLifecycleDraining ->
  write_ok small_stores (small_write_plan lifecycle) small_write small_chunks.
Proof.
  intros Hl. pose proof (small_targets lifecycle Hl) as Ht.
  assert (wpChunkSizeBytes (small_write_plan lifecycle) = 4 /\
          wpExtent (small_write_plan lifecycle) = mkExtentMappingRecord "v" 1 0 16 0 "rs" 1) as [Ec Ee]
    by (destruct Hl as [->| ->]; done).
  assert (window (small_write_plan lifecycle) small_write = (2, 4)) as Ew by (unfold window; by rewrite Ee).
  split.
  - rewrite Ec. lia.
  - rewrite Ee, Ec. cbn. lia.
  - cbn. lia.
  - by rewrite Ew.
  - done.
  - destruct Hl as [->| ->]; vm_compute; reflexivity.
  - by repeat constructor.
  - apply (bool_decide_unpack _). by vm_compute.
  - intros c d Hc Hd. set_unfold in Hc. set_unfold in Hd. by destruct Hc as [->|[->|[]]], Hd as [->|[->|[]]].
  - rewrite Ht. destruct (decide _); apply (bool_decide_unpack _); by vm_compute.
  - apply Forall_forall. intros t Hin%(list_elem_of_fmap_2 rtReplicaID). change (_ <$> ?l) with (map rtReplicaID l) in Hin.
    rewrite Ht in Hin. apply small_store_some. destruct (decide _); set_unfold in Hin; tauto.
Qed.

Lemma small_same_extent lifecycle preferred :
  lifecycle = NodeLifecycleActive \/ lifecycle = NodeLifecycleDraining ->
  same_extent (small_write_plan lifecycle) small_write
    (small_read_plan lifecycle <| rpPreferred := preferred |>) small_read.
Proof. intros [->| ->]; by split. Qed.

Lemma small_read_ok lifecycle preferred :
  lifecycle = NodeLifecycleActive \/ lifecycle = NodeLifecycleDraining ->
  is_Some (small_stores !! rtReplicaID preferred) ->
  read_ok small_stores (small_read_plan lifecycle <| rpPreferred := preferred |>) small_read
    (rtReplicaID preferred).
Proof.
  intros Hl Hs.
  assert (rpChunkSizeBytes (small_read_plan lifecycle) = 4 /\
          rpExtent (small_read_plan lifecycle) = mkExtentMappingRecord "v" 1 0 16 0 "rs" 1 /\
          rpAllocationPages (small_read_plan lifecycle) = small_pages) as (Ec & Ee & Ep)
    by (destruct Hl as [->| ->]; done).
  split; cbn; rewrite ?Ec, ?Ee, ?Ep; cbn; try lia; done.
Qed.

Lemma write_extent_exact_witness : exists w',
  WriteExtent small_stores None (small_write_plan NodeLifecycleActive) small_write small_cluster =
    (w', Ok (mkReplicaWriteResult ["a"; "b"; "c"] [] [] false)) /\
  cluster_view w' "b" (localReplicaPayloadKey "b" "v" 1 10) = Some [Byte.x09; Byte.x09; Byte.x01; Byte.x02].
Proof.
  destruct (write_extent_exact small_stores cluster_view (small_write_plan NodeLifecycleActive) small_write
              small_chunks small_cluster) as (w' & E & _ & _).
  - apply small_write_ok. by left.
  - exists w'. split; [exact E|]. apply (f_equal fst) in E. cbn [fst] in E. rewrite <-E.
    vm_compute. reflexivity.
Defined.

Lemma read_your_writes_witness : exists w1 res w2 data source,
  WriteExtent small_stores None (small_write_plan NodeLifecycleActive) small_write small_cluster
    = (w1, Ok res) /\
  ReadExtent small_stores None
    (small_read_plan NodeLifecycleActive <| rpPreferred := mkReplicaTarget "nb" "b" ReplicaRoleSecondary "" |>)
    small_read w1 = (w2, Ok (data, source)) /\ zlen data = 8 /\ data !! 3%nat = Some Byte.x02.
Proof.
  destruct (read_your_writes small_stores cluster_view (small_write_plan NodeLifecycleActive) small_write
              small_chunks
              (small_read_plan NodeLifecycleActive
                 <| rpPreferred := mkReplicaTarget "nb" "b" ReplicaRoleSecondary "" |>) small_read
              (mkReplicaTarget "nb" "b" ReplicaRoleSecondary "") small_cluster)
    as (w1 & res & w2 & data & source & Hw & Hr & Hlen & Hd).
  - apply small_write_ok. by left.
  - apply small_same_extent. by left.
  - done.
  - by right; left.
  - apply small_read_ok; [by left|]. apply small_store_some. auto.
  - intros l Hl. exact Hl.
  - exists w1, res, w2, data, source. split_and!; [done|done|done|].
    destruct (Hd 3 ltac:(vm_compute; intuition congruence)) as (c & _ & _ & E). exact E.
Defined.

Lemma small_draining : draining_primary (small_placement NodeLifecycleDraining)
  (mkReplicaDescriptor "na" "a" ReplicaRolePrimary "") (mkNode NodeLifecycleDraining NodeHealthHealthy).
Proof.
  split; try done.
  - apply (bool_decide_unpack _). by vm_compute.
  - by left.
  - by repeat constructor.
Qed.

Lemma unwritten_replica_reads_stale_witness : exists w1 w2 data source,
  WriteExtent small_stores None (small_write_plan NodeLifecycleDraining) small_write small_cluster =
    (w1, Ok (mkReplicaWriteResult ["b"; "c"] [] [] false)) /\
  ReadExtent small_stores None (small_read_plan NodeLifecycleDraining) small_read w1 = (w2, Ok (data, source)) /\
  zlen data = 8 /\ data !! 3%nat = Some Byte.x09.
Proof.
  destruct (unwritten_replica_reads_stale small_stores cluster_view (small_placement NodeLifecycleDraining)
              (mkReplicaDescriptor "na" "a" ReplicaRolePrimary "") (mkNode NodeLifecycleDraining NodeHealthHealthy)
              small_pages 4 (small_write_plan NodeLifecycleDraining)
              small_write small_chunks (small_read_plan NodeLifecycleDraining) small_read small_cluster)
    as (w1 & w2 & data & source & Hw & Hr & Hlen & Hd).
  - exact small_draining.
  - reflexivity.
  - reflexivity.
  - apply small_write_ok. by right.
  - apply (small_read_ok NodeLifecycleDraining (rpPreferred (small_read_plan NodeLifecycleDraining)));
      [by right|]. apply small_store_some. by left.
  - intros l Hl. assert (l = 0 \/ l = 1) as [->| ->] by (assert (0 <= l <= 1) by exact Hl; lia); (split; [done|]);
      intros _; (split; [done|]); eexists; (split; [vm_compute; reflexivity|vm_compute; congruence]).
  - exists w1, w2, data, source. split_and!; [done|done|done|].
    exact (Hd 3 ltac:(vm_compute; intuition congruence)).
Defined.

(** A store whose first read fails. *)
Definition flaky_objects : ObjectStore (bool * MemoryStore) :=
  {| store_get := fun key '(failed, m) =>
       if failed : bool then let '(m, r) := Store.Get key m in ((failed, m), r)
       else ((true, m), Err (Gateway.ErrStore "timeout"));
     store_put := fun key v '(failed, m) => let '(m, r) := Store.Put key v m in ((failed, m), r);
     store_delete := fun key '(failed, m) => let '(m, r) := Store.Delete key m in ((failed, m), r) |}.
Definition flaky_store : PayloadStore (bool * MemoryStore) :=
  mkPayloadStore _ flaky_objects
    (fun prefix cursor limit '(failed, m) => ((failed, m), Ok (Store.List prefix cursor limit m))).

Definition one_target_plan : ExtentWritePlan :=
  small_write_plan NodeLifecycleActive <| wpWriteTargets := [mkReplicaTarget "na" "a" ReplicaRolePrimary ""] |>.
Definition one_chunk_write : ReplicaWriteRequest :=
  small_write <| rwLengthBytes := 2 |> <| rwData := [Byte.x01; Byte.x02] |>.

Lemma one_chunk_write_ok :
  write_ok {["a" := flaky_store]} one_target_plan one_chunk_write [mkresolvedChunkWrite 0 10 0 None None].
Proof.
  split; try (cbn; lia); try done.
  - by repeat constructor.
  - apply (bool_decide_unpack _). by vm_compute.
  - intros c d Hc Hd. apply list_elem_of_singleton in Hc, Hd. by subst.
  - apply (bool_decide_unpack _). by vm_compute.
  - apply Forall_singleton. by eexists.
Qed.

Lemma failed_merge_acknowledged_witness :
  let '(w, r) := WriteExtent {["a" := flaky_store]} None one_target_plan one_chunk_write
                   (false, small_store "a") in
  r = Ok (mkReplicaWriteResult ["a"] [] [] false) /\
  data w.2 !! localReplicaPayloadKey "a" "v" 1 10 = Some [Byte.x01; Byte.x02].
Proof.
  rewrite (failed_merge_acknowledged {["a" := flaky_store]} one_target_plan one_chunk_write
             (mkresolvedChunkWrite 0 10 0 None None) (mkReplicaTarget "na" "a" ReplicaRolePrimary "")
             flaky_store (Gateway.ErrStore "timeout") (false, small_store "a") (true, small_store "a")
             (true, mkMemoryStore (<[localReplicaPayloadKey "a" "v" 1 10 := [Byte.x01; Byte.x02]]>
                                     (data (small_store "a")))) one_chunk_write_ok); try done.
Defined.

End LocalReplicaFacts.
