(* ===== verification/CowFacts.v ===== *)
(** * Copy-on-write: theorems

    A write to a volume with a snapshot is planned copy-on-write: every chunk
    it touches gets a chunk id of its own from the allocator, and the old chunk
    is only read.  [cow_write_isolated] composes the allocation of ids
    (allocation_plan.go) with the local writer (local_writer.go): whatever a
    snapshot or clone maps keeps its bytes on every replica. *)

From Stdlib Require Import ZArith Lia Ascii String.
From stdpp Require Import base list gmap strings sorting.
From coqutil Require Import Byte.
From S2P Require Import Prelude GoStrings GatewayTypes ObjectStore SbsTypes AllocationCommit AllocationCommitFacts WritePipeline LocalReplica LocalReplicaFacts.
Open Scope string_scope.
Open Scope Z_scope.

Module CowFacts.
Import Sbs Allocation AllocationFacts Store Pipeline LocalReplica LocalReplicaFacts.

(** ** The page of a chunk *)

Definition outside (l : Z) (page : ResolvedAllocationPage) : bool :=
  (l <? raRangeStartChunk page) || (raRangeEndChunk page <=? l).

Definition page_at (pages : list ResolvedAllocationPage) (l : Z) : option ResolvedAllocationPage :=
  List.find (fun page => negb (outside l page)) pages.

Lemma record_at pages l : logicalChunkAllocationRecord pages l =
  match page_at pages l with
  | Some page => logicalChunkAllocationRecord [page] l
  | None => mkChunkState false false 0 "" None
  end.
Proof.
  induction pages as [|page pages IH]; [done|]. unfold page_at. cbn [List.find].
  destruct (outside l page) eqn:E; cbn [negb]; unfold outside in E;
    cbn [logicalChunkAllocationRecord]; rewrite E; [exact IH|done].
Qed.

Lemma plan_state_at states pages l : allocationPlanStateForLogicalChunk states pages l =
  match page_at pages l with
  | Some page => allocationPlanStateForLogicalChunk states [page] l
  | None => None
  end.
Proof.
  induction pages as [|page pages IH]; [done|]. unfold page_at. cbn [List.find].
  destruct (outside l page) eqn:E; cbn [negb]; unfold outside in E;
    cbn [allocationPlanStateForLogicalChunk]; rewrite E; [exact IH|done].
Qed.

Lemma page_at_In pages l page : page_at pages l = Some page -> page ∈ pages /\ outside l page = false.
Proof. intros [Hin H]%find_some. split; [by apply list_elem_of_In|by apply negb_true_iff]. Qed.

Lemma page_at_map (f : ResolvedAllocationPage -> ResolvedAllocationPage) pages l :
  (forall page, raRangeStartChunk (f page) = raRangeStartChunk page /\
                raRangeEndChunk (f page) = raRangeEndChunk page) ->
  page_at (map f pages) l = option_map f (page_at pages l).
Proof.
  intros Hf. unfold page_at. induction pages as [|page pages IH]; [done|]. cbn [map List.find].
  assert (outside l (f page) = outside l page) as -> by (unfold outside; by destruct (Hf page) as [-> ->]).
  destruct (outside l page); cbn [negb]; [exact IH|done].
Qed.

(** ** The mappings of a plan *)

(** The mapping [write_mappings] makes of a chunk it stores. *)
Definition chunk_of (plan : ExtentWritePlan) (l : Z) : resolvedChunkWrite :=
  let c := logicalChunkAllocationRecord (wpAllocationPages plan) l in
  let b := logicalChunkAllocationRecord (wpBaseAllocations plan) l in
  let base := if wpCopyOnWrite plan && negb (zlen (wpBaseAllocations plan) =? 0)
              then if negb (zero b) then (physicalChunkID b, encryption b) else (0, None)
              else (0, None) in
  mkresolvedChunkWrite l (physicalChunkID c) base.1 (encryption c) base.2.

Lemma write_mappings_exact plan req ws wl : 0 < wpChunkSizeBytes plan -> 0 <= ws -> 0 <= wl -> ws + wl < 2 ^ 64 ->
  forall n lc, 0 <= lc -> (lc + Z.of_nat n) * wpChunkSizeBytes plan < 2 ^ 64 ->
  (forall l, lc <= l < lc + Z.of_nat n ->
     let c := logicalChunkAllocationRecord (wpAllocationPages plan) l in
     covered c = true /\ (kept plan req ws wl l -> zero c = false /\ physicalChunkID c <> 0)) ->
  exists chunks, write_mappings n lc plan (rwZeroSemantic req) ws wl = Some chunks /\
    (forall c, c ∈ chunks -> lc <= cwLogicalChunk c < lc + Z.of_nat n /\
       kept plan req ws wl (cwLogicalChunk c) /\ c = chunk_of plan (cwLogicalChunk c)) /\
    NoDup (map cwLogicalChunk chunks).
Proof.
  intros Hcs Hws Hwl Hwe. induction n as [|n IH]; intros lc Hl He Hall; cbn [write_mappings].
  { exists []. split_and!; [done|by intros c ?%not_elem_of_nil|constructor]. }
  destruct (IH (lc + 1)) as (rest & Hrest & Hin & Hnd); [lia|nia|intros l Hl'; apply Hall; lia|].
  assert (lc * wpChunkSizeBytes plan + wpChunkSizeBytes plan < 2 ^ 64) as Hce by nia.
  rewrite (add64_small lc 1) by (unfold in_u; nia).
  pose proof (skip_false plan req ws wl lc Hl Hce Hcs Hws Hwl Hwe) as Hskip. cbv zeta in Hskip.
  destruct (Hall lc ltac:(lia)) as [Hcov Hkept]. rewrite Hcov. cbn [negb].
  set (skip := shouldSkipChunkPayloadWrite _ _ _ _ _) in *. destruct skip.
  - exists rest. split_and!; [done| |done]. intros c Hc. destruct (Hin c Hc) as (? & ? & ?). split; [lia|done].
  - destruct Hkept as [Hz Hne]; [by apply Hskip|]. rewrite Hz, (proj2 (Z.eqb_neq _ _)) by done. cbn [orb].
    rewrite Hrest. cbn [mbind option_bind]. eexists. split_and!; [reflexivity| |].
    + intros c [->|Hc]%elem_of_cons; [|destruct (Hin c Hc) as (? & ? & ?); split; [lia|done]].
      cbn [cwLogicalChunk]. split; [lia|]. split; [by apply Hskip|]. reflexivity.
    + cbn [map cwLogicalChunk]. constructor; [|done]. intros (c & E & Hc)%list_elem_of_fmap.
      destruct (Hin c Hc) as (? & _). lia.
Qed.

(** ** Assigning ids *)

(** Two states of one page that differ in their chunk ids only. *)
Record same_shape (s s' : allocationCommitPageState) : Prop := {
  ss_state : s' = s <| csPhysical := csPhysical s' |>;
  ss_length : length (csPhysical s') = length (csPhysical s) }.

(** [todo] names chunks inside the pages of [states], each once. *)
Definition todo_ok (todo : list pending) (states : page_states) : Prop :=
  NoDup todo /\ forall no l, (no, l) ∈ todo -> exists s, states !! no = Some s /\
    page_start s <= l < page_start s + zlen (csPhysical s) /\ l - page_start s < 2 ^ 64.

Lemma shape_start s s' : same_shape s s' -> page_start s' = page_start s.
Proof. intros [-> _]. done. Qed.

Lemma assign_spec todo : forall first states, todo_ok todo states -> 0 <= first ->
  first + zlen todo < 2 ^ 64 ->
  exists states', assign_ids todo first states = Ok states' /\
    forall no s, states !! no = Some s -> exists s', states' !! no = Some s' /\ same_shape s s' /\
      (forall j, 0 <= j < zlen (csPhysical s) ->
        (forall i, todo !! i = Some (no, page_start s + j) ->
                   csPhysical s' !! Z.to_nat j = Some (first + Z.of_nat i)) /\
        ((no, page_start s + j) ∉ todo -> csPhysical s' !! Z.to_nat j = csPhysical s !! Z.to_nat j)).
Proof.
  induction todo as [|[no l] todo IH]; intros first states [Hnd Hin] Hf He; cbn [assign_ids].
  { exists states. split; [done|]. intros no s Hs. exists s. split; [done|]. split; [by destruct s|].
    intros j Hj. split; [done|]. done. }
  apply NoDup_cons in Hnd as [Hnew Hnd]. unfold zlen in He. cbn [length] in He.
  destruct (Hin no l) as (s & Hs & Hl & Hl64); [by left|]. rewrite Hs.
  rewrite sub64_small by (unfold in_u; lia). rewrite set_at_Ok by lia. simpl_bind.
  rewrite add64_small by (unfold in_u; lia).
  set (s1 := s <| csPhysical := <[Z.to_nat (l - page_start s):=first]> (csPhysical s) |>).
  assert (same_shape s s1) as Hshape by (split; [by destruct s|apply length_insert]).
  destruct (IH (first + 1) (<[no := s1]> states)) as (states' & Hok & Hall); [|lia|unfold zlen; lia|].
  { split; [done|]. intros no' l' Hin'. destruct (Hin no' l') as (s' & Hs' & Hr); [by right|].
    destruct (decide (no' = no)) as [->|].
    - exists s1. rewrite lookup_insert_eq. split; [done|]. rewrite Hs in Hs'. injection Hs' as <-.
      rewrite (shape_start s s1 Hshape). unfold s1, zlen. cbn. rewrite length_insert. exact Hr.
    - exists s'. by rewrite lookup_insert_ne. }
  exists states'. split; [done|]. intros no' s' Hs'. destruct (decide (no' = no)) as [->|Hne].
  - rewrite Hs in Hs'. injection Hs' as <-. destruct (Hall no s1) as (s2 & Hs2 & Hsh & Hj);
      [apply lookup_insert_eq|]. exists s2. split; [done|].
    split; [destruct Hsh as [E1 E2], Hshape as [_ E4]; split; [rewrite E1; by destruct s|congruence]|].
    intros j Hjr. destruct (Hj j) as [Hyes Hno]; [unfold s1, zlen in *; cbn; rewrite length_insert; lia|].
    rewrite (shape_start s s1 Hshape) in Hyes, Hno. split.
    + intros [|i] Hi; cbn in Hi.
      * injection Hi as Hi. rewrite Hno by (by rewrite <-Hi). cbn.
        replace (l - page_start s) with j by lia. rewrite list_lookup_insert_eq by (unfold zlen in Hjr; lia).
        f_equal. lia.
      * rewrite (Hyes i Hi). f_equal. lia.
    + intros Hout. apply not_elem_of_cons in Hout as [Hne Hout]. rewrite Hno by done. cbn.
      apply list_lookup_insert_ne. intros E. apply Hne. f_equal. lia.
  - destruct (Hall no' s') as (s2 & Hs2 & Hsh & Hj); [by rewrite lookup_insert_ne|].
    exists s2. split; [done|]. split; [done|]. intros j Hjr. destruct (Hj j Hjr) as [Hyes Hno]. split.
    + intros [|i] Hi; cbn in Hi; [by injection Hi as ? ?; subst|]. rewrite (Hyes i Hi). f_equal. lia.
    + intros Hout. apply not_elem_of_cons in Hout as [_ Hout]. by apply Hno.
Qed.

(** ** A prepared copy-on-write plan *)

Section Cow.
Context (e : ExtentWritePlan) (rreq : ReplicaWriteRequest) (first : Z).
(** The states of the pages, by page number. *)
Context (st : Z -> allocationCommitPageState).

Abbreviation cs := (wpChunkSizeBytes e).
Abbreviation pages := (wpAllocationPages e).
Abbreviation no page := (apPageNo (raPage page)).
Abbreviation ws := ((window e rreq).1).
Abbreviation wl := ((window e rreq).2).

(** A page of the plan: well-formed, without encryption, its range inside it,
    and no chunk of it numbered [first] or above. *)
Record page_fits (page : ResolvedAllocationPage) : Prop := {
  pf_state : newAllocationCommitPageState (raPage page) = Ok (st (no page));
  pf_ok : page_ok (st (no page));
  pf_ids : Forall (fun id => 0 <= id < first) (csPhysical (st (no page)));
  pf_plain : Forall (fun h => h = None) (csHeaders (st (no page)));
  pf_start : page_start (st (no page)) <= raRangeStartChunk page;
  pf_end : raRangeEndChunk page <= page_start (st (no page)) + cpp (st (no page)) }.

Record cow_ok : Prop := {
  ck_chunk : 0 < cs < 2 ^ 32;
  ck_extent : 0 <= emLogicalOffset (wpExtent e) /\ 0 <= emLengthBytes (wpExtent e) /\
              emLogicalOffset (wpExtent e) + emLengthBytes (wpExtent e) + cs < 2 ^ 64;
  ck_req : 0 <= rwOffsetBytes rreq /\ 0 <= rwLengthBytes rreq /\
           rwOffsetBytes rreq + rwLengthBytes rreq < 2 ^ 64;
  ck_meets : 0 < wl < 2 ^ 31;
  ck_data : zlen (rwData rreq) = rwLengthBytes rreq;
  ck_cow : wpCopyOnWrite e = true;
  ck_base : forall l, 0 <= physicalChunkID (logicalChunkAllocationRecord (wpBaseAllocations e) l) < first /\
                      encryption (logicalChunkAllocationRecord (wpBaseAllocations e) l) = None;
  ck_pages : forall page, page ∈ pages -> page_fits page;
  ck_covered : forall l, touched e rreq l -> is_Some (page_at pages l);
  ck_first : 0 < first /\ first + 2 ^ 32 < 2 ^ 63 }.

Context (Hok : cow_ok).

Lemma newState_no page s : newAllocationCommitPageState page = Ok s -> csPageNo s = apPageNo page.
Proof.
  unfold newAllocationCommitPageState. destruct (bad_geometry page); [done|].
  destruct (expandAllocationPageChunkMappings page); simpl_bind; [|done..]. by intros [= <-].
Qed.

Lemma load_spec ps : forall states, (forall page, page ∈ ps -> page ∈ pages) ->
  (forall k s, states !! k = Some s -> s = st k) ->
  exists states', load_states ps states = Ok states' /\
    (forall k s, states' !! k = Some s -> s = st k) /\
    (forall k, is_Some (states !! k) -> is_Some (states' !! k)) /\
    (forall page, page ∈ ps -> states' !! no page = Some (st (no page))).
Proof.
  induction ps as [|page ps IH]; intros states Hsub Hst; cbn [load_states].
  { exists states. split_and!; [done|done|done|]. intros page Hin. by apply not_elem_of_nil in Hin. }
  assert (forall states', (forall k s, states' !! k = Some s -> s = st k) ->
            (forall k, is_Some (states !! k) -> is_Some (states' !! k)) -> is_Some (states' !! no page) ->
            exists states'', load_states ps states' = Ok states'' /\
              (forall k s, states'' !! k = Some s -> s = st k) /\
              (forall k, is_Some (states !! k) -> is_Some (states'' !! k)) /\
              (forall p, p ∈ page :: ps -> states'' !! no p = Some (st (no p)))) as Hgo.
  { intros states' Hst' Hmono Hhas. destruct (IH states') as (states'' & -> & H1 & H2 & H3); [|done|].
    { intros p Hp. apply Hsub. by right. }
    exists states''. split_and!; [done|done|auto|]. intros p [->|Hp]%elem_of_cons; [|auto].
    destruct (H2 _ Hhas) as [s Hs]. by rewrite Hs, (H1 _ _ Hs). }
  destruct (states !! no page) as [s|] eqn:Es; cbn [isSome].
  - apply Hgo; [done|done|by eexists].
  - destruct (ck_pages Hok page) as [-> _ _ _ _ _]; [apply Hsub; by left|]. simpl_bind. apply Hgo.
    + intros k s. rewrite lookup_insert_Some. intros [[<- <-]|[_ ?]]; auto.
    + intros k Hk. apply lookup_insert_is_Some'. by right.
    + rewrite lookup_insert_eq. by eexists.
Qed.

(** The position of a touched chunk in its page. *)
Lemma chunk_position l page : page_at pages l = Some page ->
  page ∈ pages /\ csPageNo (st (no page)) = no page /\
  page_start (st (no page)) <= l < page_start (st (no page)) + zlen (csPhysical (st (no page))) /\
  0 <= page_start (st (no page)) /\ page_start (st (no page)) + zlen (csPhysical (st (no page))) < 2 ^ 64.
Proof.
  intros [Hin Hout]%page_at_In. destruct (ck_pages Hok page Hin) as [Hst Hpo _ _ Hs He].
  unfold outside in Hout. apply orb_false_elim in Hout as [H1 H2]. bools.
  rewrite (po_physical _ Hpo). pose proof (page_start_eq _ Hpo) as Eps. pose proof (cpp_bounds _ Hpo).
  destruct (po_no _ Hpo). split_and!; [done|by eapply newState_no|lia|lia|nia|nia].
Qed.

Definition key_of (l : Z) : pending :=
  (match page_at pages l with Some page => no page | None => 0 end, l).

(** The chunks that get an id: those of the window that are not zeroed whole. *)
Lemma pending_spec zs states : rwZeroSemantic rreq = zs ->
  (forall page, page ∈ pages -> states !! no page = Some (st (no page))) ->
  forall n lc, 0 <= lc -> (lc + Z.of_nat n) * cs < 2 ^ 64 ->
  (forall l, lc <= l < lc + Z.of_nat n -> is_Some (page_at pages l)) -> 0 <= ws -> 0 <= wl -> ws + wl < 2 ^ 64 ->
  exists todo, pending_loop n lc e zs ws (ws + wl) states = Ok todo /\
    todo_ok todo states /\ (length todo <= n)%nat /\
    (forall l, lc <= l < lc + Z.of_nat n -> kept e rreq ws wl l -> key_of l ∈ todo) /\
    (forall p, p ∈ todo -> lc <= snd p < lc + Z.of_nat n).
Proof.
  intros Hzs Hstates. pose proof (ck_chunk Hok) as Hcs. induction n as [|n IH]; intros lc Hl He Hcov Hws Hwl Hwe.
  { exists []. split_and!; [done|split; [constructor|]|done|lia|]; intros *; by intros ?%not_elem_of_nil. }
  destruct (IH (lc + 1)) as (todo & Hp & [Hnd Hin] & Hlen & Hkept & Hrange);
    [lia|nia|intros; apply Hcov; lia|done|done|done|].
  cbn [pending_loop]. assert (lc * cs + cs < 2 ^ 64) by nia.
  rewrite (mul64_small lc), add64_small, (add64_small lc 1) by (unfold in_u; nia).
  destruct (zs && (ws <=? lc * cs) && (lc * cs + cs <=? ws + wl)) eqn:Hskip.
  { exists todo. split_and!; [done|done|lia| |].
    - intros l Hlr Hk. destruct (decide (l = lc)) as [->|]; [|apply Hkept; [lia|done]].
      destruct zs; [|done]. bools. destruct Hk as [?|Hk]; [congruence|lia].
    - intros p Hp'. specialize (Hrange p Hp'). lia. }
  destruct (Hcov lc ltac:(lia)) as [page Hpage].
  destruct (chunk_position lc page Hpage) as (Hpin & Hno & Hpos & Hps & Hpe).
  rewrite plan_state_at, Hpage. cbn [allocationPlanStateForLogicalChunk].
  destruct (page_at_In _ _ _ Hpage) as [_ Hout]. unfold outside in Hout. rewrite Hout, (Hstates page Hpin).
  rewrite add64_small by (unfold in_u; lia).
  destruct (Z.ltb_spec lc (page_start (st (no page)))); [lia|].
  destruct (Z.leb_spec (page_start (st (no page)) + zlen (csPhysical (st (no page)))) lc); [lia|]. cbn [orb].
  rewrite sub64_small by (unfold in_u; lia).
  destruct (lookup_lt_is_Some_2 (csPhysical (st (no page))) (Z.to_nat (lc - page_start (st (no page)))))
    as [id ->]; [unfold zlen in *; lia|].
  rewrite (ck_cow Hok), Hp. cbn [negb]. rewrite andb_false_r. simpl_bind. rewrite Hno.
  assert ((no page, lc) = key_of lc) as E by (unfold key_of; by rewrite Hpage).
  exists ((no page, lc) :: todo). split_and!; [done| |cbn; lia| |].
  - split.
    + constructor; [|done]. intros Hin'. specialize (Hrange _ Hin'). cbn in Hrange. lia.
    + intros k l [[= -> ->]|Hkl]%elem_of_cons; [|by apply Hin].
      exists (st (no page)). split; [by apply Hstates|]. lia.
  - intros l Hlr Hk. destruct (decide (l = lc)) as [->|]; [rewrite E; by left|right; apply Hkept; [lia|done]].
  - intros p [->|Hp']%elem_of_cons; [cbn; lia|]. specialize (Hrange p Hp'). lia.
Qed.

(** ** The prepared plan *)

Context (breq : BeginWriteRequest).
Context (Hbreq : bwOffsetBytes breq = rwOffsetBytes rreq /\ bwLengthBytes breq = rwLengthBytes rreq /\
                 bwZeroSemantic breq = rwZeroSemantic rreq).

Lemma cow_window : 0 <= ws /\ ws + wl + cs < 2 ^ 64 /\
  overlapRange (emLogicalOffset (wpExtent e)) (emLengthBytes (wpExtent e))
    (rwOffsetBytes rreq) (rwLengthBytes rreq) = Some (ws, wl).
Proof.
  destruct Hok as [Hc He Hr Hm _ _ _ _ _ _]. unfold window in *. cbn [fst snd] in *. unfold overlapRange.
  rewrite !add64_small by (unfold in_u; lia). rewrite !(proj2 (Z.leb_gt _ _)) by lia. cbn [orb].
  rewrite sub64_small by (unfold in_u; lia). split_and!; [lia|lia|done].
Qed.

Abbreviation first_chunk := (ws / cs).
Abbreviation steps := (Z.to_nat ((ws + wl - 1) / cs - ws / cs + 1)).

Lemma cow_span : chunk_span ws wl cs = (first_chunk, steps) /\ 0 <= first_chunk /\
  (first_chunk + Z.of_nat steps) * cs < 2 ^ 64 /\ Z.of_nat steps < 2 ^ 32 /\
  (forall l, first_chunk <= l < first_chunk + Z.of_nat steps <-> touched e rreq l).
Proof.
  destruct cow_window as (Hws & He & _). destruct Hok as [Hc _ _ Hm _ _ _ _ _ _].
  assert (0 <= ws / cs) by (apply Z.div_pos; lia).
  assert (ws / cs <= (ws + wl - 1) / cs) by (apply Z.div_le_mono; lia).
  pose proof (Z.mul_div_le (ws + wl - 1) cs ltac:(lia)). pose proof (Z.mul_succ_div_gt ws cs ltac:(lia)).
  unfold chunk_span. rewrite (add64_small ws wl), sub64_small by (unfold in_u; lia).
  split_and!; [done|done|rewrite Z2Nat.id by lia; nia|rewrite Z2Nat.id by lia; nia|].
  intros l. unfold touched. rewrite Z2Nat.id by lia. lia.
Qed.

(** The pages were loaded and the chunks found. *)
Lemma cow_pending : exists states todo,
  pending_extents [e] breq ∅ = Ok (states, todo) /\ todo_ok todo states /\ zlen todo < 2 ^ 32 /\
  (forall page, page ∈ pages -> states !! no page = Some (st (no page))) /\
  (forall l, touched e rreq l -> kept e rreq ws wl l -> key_of l ∈ todo).
Proof.
  destruct cow_window as (Hws & He & Hov). destruct cow_span as (Hspan & H0 & Hend & Hn & Htouch).
  pose proof (ck_chunk Hok) as Hc. pose proof (ck_meets Hok) as Hm. destruct Hbreq as (E1 & E2 & E3).
  destruct (load_spec pages ∅) as (states & Hload & _ & _ & Hst); [done|by intros k s H; rewrite lookup_empty in H|].
  destruct (pending_spec (rwZeroSemantic rreq) states eq_refl Hst steps first_chunk)
    as (todo & Hp & Htodo & Hlen & Hkept & _); [done|done| |done|lia|lia|].
  { intros l Hl. apply (ck_covered Hok). by apply Htouch. }
  exists states, todo. split_and!; [|done|unfold zlen; lia|done|].
  - cbn [pending_extents]. rewrite (proj2 (Z.eqb_neq cs 0)) by lia.
    assert ((zlen pages =? 0) = false) as ->.
    { apply Z.eqb_neq. destruct (ck_covered Hok (ws / cs)) as [page Hpage].
      { unfold touched. split; [lia|apply Z.div_le_mono; lia]. }
      apply page_at_In in Hpage as [Hin _]. intros Hz. destruct pages; [by apply not_elem_of_nil in Hin|done]. }
    cbn [orb]. rewrite E1, E2, Hov. rewrite (proj2 (Z.eqb_neq wl 0)) by lia. rewrite Hload. simpl_bind.
    rewrite Hspan, E3, (add64_small ws wl) by (unfold in_u; lia). rewrite Hp. simpl_bind.
    by rewrite app_nil_r.
  - intros l Hl Hk. apply Hkept; [by apply Htouch|done].
Qed.

(** What the pages become once the ids are assigned. *)
Record assigned (todo : list pending) (page : ResolvedAllocationPage) (s : allocationCommitPageState) : Prop := {
  as_ok : page_ok s;
  as_ids : small_ids s;
  as_start : page_start s = page_start (st (no page));
  as_cpp : cpp s = cpp (st (no page));
  as_plain : csHeaders s = csHeaders (st (no page));
  as_new : forall l i, page_start s <= l < page_start s + cpp s -> todo !! i = Some (no page, l) ->
    csPhysical s !! Z.to_nat (l - page_start s) = Some (first + Z.of_nat i) }.

Lemma cow_assigned states todo : todo_ok todo states -> zlen todo < 2 ^ 32 ->
  (forall page, page ∈ pages -> states !! no page = Some (st (no page))) ->
  exists states', assign_ids todo first states = Ok states' /\
    forall page, page ∈ pages -> exists s, states' !! no page = Some s /\ assigned todo page s.
Proof.
  intros Htodo Hlen Hst. destruct (ck_first Hok) as [Hf1 Hf2].
  destruct (assign_spec todo first states Htodo ltac:(lia) ltac:(lia)) as (states' & Hok' & Hall).
  exists states'. split; [done|]. intros page Hin.
  destruct (Hall _ _ (Hst page Hin)) as (s & Hs & Hsh & Hj). exists s. split; [done|].
  destruct (ck_pages Hok page Hin) as [_ Hpo Hids Hplain _ _].
  assert (forall j id, csPhysical s !! j = Some id -> 0 <= id < 2 ^ 63) as Hsmall.
  { intros j id Hid. pose proof (lookup_lt_Some _ _ _ Hid) as Hjl. rewrite (ss_length _ _ Hsh) in Hjl.
    destruct (Hj (Z.of_nat j)) as [Hyes Hno]; [unfold zlen; lia|]. rewrite Nat2Z.id in Hyes, Hno.
    destruct (decide ((no page, page_start (st (no page)) + Z.of_nat j) ∈ todo)) as [Hi|Hi].
    - apply list_elem_of_lookup in Hi as [i Hi]. pose proof (lookup_lt_Some _ _ _ Hi).
      rewrite (Hyes i Hi) in Hid. injection Hid as <-. unfold zlen, pending in *. lia.
    - rewrite (Hno Hi) in Hid. rewrite Forall_lookup in Hids. specialize (Hids _ _ Hid). lia. }
  assert (cpp s = cpp (st (no page))) as Ecpp by (by rewrite (ss_state _ _ Hsh)).
  assert (page_start s = page_start (st (no page))) as Est by (by apply shape_start).
  split; [|by apply Forall_lookup|done|done|by rewrite (ss_state _ _ Hsh)|].
  - destruct Hpo as [H1 H2 H3 H4 H5 H6 H7]. rewrite (ss_state _ _ Hsh). split; cbn; try done.
    + unfold zlen in *. rewrite (ss_length _ _ Hsh). exact H5.
    + apply Forall_lookup. intros j id Hid. specialize (Hsmall _ _ Hid). unfold in_u. lia.
  - intros l i Hl Hi. rewrite Est in *. rewrite Ecpp in Hl.
    destruct (Hj (l - page_start (st (no page)))) as [Hyes _]; [rewrite (po_physical _ Hpo); lia|].
    apply Hyes. rewrite Hi. f_equal. f_equal. lia.
Qed.

(** A chunk as a reader of the prepared plan sees it. *)
Lemma cow_record states' todo l page :
  (forall p, p ∈ pages -> exists s, states' !! no p = Some s /\ assigned todo p s) ->
  page_at pages l = Some page -> exists id v,
  logicalChunkAllocationRecord (wpAllocationPages (rewrite_pages states' e)) l = mkChunkState true (id =? 0) id v None /\
  (forall i, todo !! i = Some (no page, l) -> id = first + Z.of_nat i).
Proof.
  intros Hall Hpage. destruct (chunk_position l page Hpage) as (Hin & _ & Hpos & Hps & Hpe).
  destruct (Hall page Hin) as (s & Hs & Has). rewrite record_at. unfold rewrite_pages. cbn [wpAllocationPages].
  change (wpAllocationPages (set_field wpAllocationPages ?f ?x)) with (f (wpAllocationPages x)). cbv beta.
  rewrite page_at_map by (intros p; by destruct (states' !! no p)). rewrite Hpage. cbn [option_map]. rewrite Hs.
  pose proof (po_physical _ (pf_ok _ (ck_pages Hok page Hin))) as Hlen.
  destruct (resolved_reads s (l - page_start s) (as_ok _ _ _ Has) (as_ids _ _ _ Has)) as (id & h & Hid & Hh & Hr).
  { rewrite (as_start _ _ _ Has), (as_cpp _ _ _ Has). lia. }
  assert (h = None) as ->.
  { rewrite (as_plain _ _ _ Has) in Hh. pose proof (pf_plain _ (ck_pages Hok page Hin)) as Hn.
    rewrite Forall_lookup in Hn. by eapply Hn. }
  exists id, (csVolumeID s). split.
  - replace (page_start s + (l - page_start s)) with l in Hr by lia. unfold seen in Hr.
    replace (kept_header id None) with (@None PayloadEncryptionHeader) in Hr by (unfold kept_header; by destruct (id =? 0)).
    rewrite <-Hr. cbn [logicalChunkAllocationRecord]. destruct (page_at_In _ _ _ Hpage) as [_ Hout].
    unfold outside in Hout. change (raRangeStartChunk (set_field raPage ?f ?p)) with (raRangeStartChunk p).
    change (raRangeEndChunk (set_field raPage ?f ?p)) with (raRangeEndChunk p). rewrite Hout.
    cbn [resolved raRangeStartChunk raRangeEndChunk]. rewrite (as_start _ _ _ Has), (as_cpp _ _ _ Has).
    destruct (Z.ltb_spec l (page_start (st (no page)))); [lia|].
    destruct (Z.leb_spec (page_start (st (no page)) + cpp (st (no page))) l); [lia|]. done.
  - intros i Hi. destruct Has as [_ _ E1 E2 _ Hnew]. rewrite (Hnew l i) in Hid; [by injection Hid|lia|done].
Qed.

(** The prepared plan can be carried out, and writes fresh chunks only. *)
Lemma cow_write_ok {W} (stores : gmap string (PayloadStore W)) states' todo :
  NoDup todo -> zlen todo < 2 ^ 32 ->
  (forall p, p ∈ pages -> exists s, states' !! no p = Some s /\ assigned todo p s) ->
  (forall l, touched e rreq l -> kept e rreq ws wl l -> key_of l ∈ todo) ->
  NoDup (map rtReplicaID (wpWriteTargets e)) ->
  Forall (fun t => is_Some (stores !! rtReplicaID t)) (wpWriteTargets e) ->
  exists chunks, write_ok stores (rewrite_pages states' e) rreq chunks /\
    (forall c, c ∈ chunks -> first <= cwPhysicalChunkID c < first + zlen todo).
Proof.
  intros Hnd Hlen Hall Hkey Ht1 Ht2. set (e' := rewrite_pages states' e).
  destruct cow_window as (Hws & He & Hov). destruct cow_span as (Hspan & H0 & Hend & Hn & Htouch).
  pose proof (ck_chunk Hok) as Hc. pose proof (ck_meets Hok) as Hm. destruct (ck_first Hok) as [Hf _].
  assert (forall l, touched e rreq l -> exists id v,
    logicalChunkAllocationRecord (wpAllocationPages e') l = mkChunkState true (id =? 0) id v None /\
    (kept e rreq ws wl l -> exists i, todo !! i = Some (key_of l) /\ id = first + Z.of_nat i)) as Hrec.
  { intros l Hl. destruct (ck_covered Hok l Hl) as [page Hpage].
    destruct (cow_record states' todo l page Hall Hpage) as (id & v & Hr & Hid). exists id, v.
    split; [exact Hr|]. intros Hk. pose proof (Hkey l Hl Hk) as [i Hi]%list_elem_of_lookup.
    exists i. split; [done|]. apply Hid. etrans; [exact Hi|]. unfold key_of. by rewrite Hpage. }
  destruct (write_mappings_exact e' rreq ws wl ltac:(apply Hc) Hws ltac:(lia) ltac:(lia) steps first_chunk H0 Hend)
    as (chunks & Hmap & Hin & Hlog).
  { intros l Hl%Htouch. destruct (Hrec l Hl) as (id & v & -> & Hid). split; [done|]. intros Hk.
    destruct (Hid Hk) as (i & _ & ->). cbn. split; [apply Z.eqb_neq; lia|lia]. }
  assert (forall c, c ∈ chunks -> exists i, todo !! i = Some (key_of (cwLogicalChunk c)) /\
            cwPhysicalChunkID c = first + Z.of_nat i /\ cwEncryption c = None /\
            c = chunk_of e' (cwLogicalChunk c)) as Hchunk.
  { intros c Hcin. destruct (Hin c Hcin) as (Hl%Htouch & Hk & E). destruct (Hrec _ Hl) as (id & v & Hr & Hid).
    destruct (Hid Hk) as (i & Hi & ->). exists i. split; [done|]. split_and!; [| |exact E]; rewrite E; unfold chunk_of; cbn [cwPhysicalChunkID cwEncryption cwLogicalChunk]; by rewrite Hr. }
  assert (forall c d, c ∈ chunks -> d ∈ chunks -> cwPhysicalChunkID c = cwPhysicalChunkID d -> c = d) as Hinj.
  { intros c d Hcin Hd Eq. destruct (Hchunk c Hcin) as (i & Hi & Ei & _ & Ec), (Hchunk d Hd) as (j & Hj & Ej & _ & Ed).
    assert (i = j) as -> by lia. rewrite Hj in Hi. apply (f_equal (option_map snd)) in Hi. cbn in Hi. injection Hi as E. rewrite Ec, Ed. by rewrite E. }
  exists chunks. split.
  - split; try (apply Hok); try done.
    + unfold resolvedWriteChunkMappings. change (wpChunkSizeBytes e') with cs. change (wpExtent e') with (wpExtent e).
      rewrite Hov, (proj2 (Z.eqb_neq cs 0)), (proj2 (Z.eqb_neq wl 0)) by lia.
      assert ((zlen (wpAllocationPages e') =? 0) = false) as ->; [|cbn [orb]; by rewrite Hspan].
      apply Z.eqb_neq. intros Hz. assert (length pages = O) as Hz'.
      { unfold zlen in Hz. replace (length pages) with (length (wpAllocationPages e')) by apply length_map. lia. }
      destruct (ck_covered Hok (ws / cs)) as [page [Hpin _]%page_at_In].
      { unfold touched. split; [lia|apply Z.div_le_mono; lia]. }
      apply nil_length_inv in Hz'. rewrite Hz' in Hpin. by apply not_elem_of_nil in Hpin.
    + apply Forall_forall. intros c Hcin. destruct (Hchunk c Hcin) as (i & _ & _ & En & E). split; [done|].
      rewrite E. cbn. destruct (_ && _); [|done]. destruct (negb _); [|done]. apply (ck_base Hok).
    + apply NoDup_fmap_2_strong; [done|]. by apply (NoDup_fmap_1 cwLogicalChunk).
    + intros c d Hcin Hd Eb. destruct (Hchunk c Hcin) as (i & _ & Ei & _ & _), (Hchunk d Hd) as (j & _ & Ej & _ & Ed).
      apply Hinj; [done|done|]. rewrite <-Eb. unfold base_of.
      destruct (_ && _) eqn:Eq; [|done]. exfalso. unfold base_of in Eb. rewrite Eq in Eb. cbn in Eb.
      pose proof (ck_base Hok (cwLogicalChunk d)) as [Hb _]. rewrite Ed in Eb. cbn in Eb.
      destruct (_ && _) in Eb; [destruct (negb _) in Eb|]; cbn in Eb; lia.
  - intros c Hcin. destruct (Hchunk c Hcin) as (i & Hi & -> & _). pose proof (lookup_lt_Some _ _ _ Hi).
    unfold zlen, pending in *. lia.
Qed.

End Cow.

(** C10: snapshots are isolated from later writes.  A copy-on-write plan whose
    pages map no chunk numbered [first] or above, prepared with the ids from
    [first] on, is carried out on every target, and a read plan of the volume
    whose pages map only chunks below [first], such as those a snapshot
    captured, returns the same bytes as before on every replica; the written
    chunks hold the old chunk with the request's bytes over it. *)
Theorem cow_write_isolated {A W} (allocate : string -> Z -> act A alloc_error Z)
    (stores : gmap string (PayloadStore W)) view `{!PayloadLaws stores view}
    (e : ExtentWritePlan) (rreq : ReplicaWriteRequest) (breq : BeginWriteRequest) (volumeID : string)
    (first : Z) (st : Z -> allocationCommitPageState) (a a' : A) (w : W) :
  cow_ok e rreq first st -> rwZeroSemantic rreq = false ->
  bwOffsetBytes breq = rwOffsetBytes rreq /\ bwLengthBytes breq = rwLengthBytes rreq /\
    bwZeroSemantic breq = rwZeroSemantic rreq ->
  (forall count, allocate (bwVolumeID breq) count a = (a', Ok first)) ->
  NoDup (map rtReplicaID (wpWriteTargets e)) ->
  Forall (fun t => is_Some (stores !! rtReplicaID t)) (wpWriteTargets e) ->
  exists e' chunks w',
    prepareWritePlanAllocations (Some allocate) (mkWritePlan volumeID [e]) breq a
      = (a', Ok (mkWritePlan volumeID [e'])) /\
    WriteExtent stores None e' rreq w
      = (w', Ok (mkReplicaWriteResult (map rtReplicaID (wpWriteTargets e)) [] [] false)) /\
    (forall t, t ∈ wpWriteTargets e -> written view e' rreq chunks w w' (rtReplicaID t)) /\
    forall id (snap : ExtentReadPlan) (sreq : ReplicaReadRequest) p,
      rrVolumeID sreq = rwVolumeID rreq -> emExtentID (rpExtent snap) = emExtentID (wpExtent e) ->
      (forall l, physicalChunkID (logicalChunkAllocationRecord (rpAllocationPages snap) l) < first) ->
      content view snap sreq id w' p = content view snap sreq id w p.
Proof.
  intros Hok Hz Hb Halloc Ht1 Ht2.
  destruct (cow_pending e rreq first st Hok breq Hb) as (states & todo & Hp & Htodo & Hlen & Hst & Hkey).
  destruct (cow_assigned e rreq first st Hok states todo Htodo Hlen Hst) as (states' & Has & Hall).
  destruct (cow_write_ok e rreq first st Hok stores states' todo (proj1 Htodo) Hlen Hall Hkey Ht1 Ht2)
    as (chunks & Hw & Hfresh).
  destruct (write_extent_spec stores view _ _ _ Hw w) as (w' & Hrun & Hwr & Hother).
  exists (rewrite_pages states' e), chunks, w'. split_and!; [|done|done|].
  - unfold prepareWritePlanAllocations, bind_act, lift_act. cbn [wplExtents]. rewrite Hp.
    assert ((zlen todo =? 0) = false) as ->.
    { apply Z.eqb_neq. intros E. assert (todo = []) as -> by (apply zlen_nil_inv; lia).
      destruct (cow_span e rreq first st Hok) as (_ & H0 & _ & _ & Htouch).
      assert (touched e rreq ((window e rreq).1 / wpChunkSizeBytes e)) as Htc.
      { pose proof (ck_chunk _ _ _ _ Hok). pose proof (ck_meets _ _ _ _ Hok).
        split; [lia|apply Z.div_le_mono; lia]. }
      specialize (Hkey _ Htc (or_introl Hz)). by apply not_elem_of_nil in Hkey. }
    rewrite Halloc, Has. done.
  - intros id snap sreq p Hv He Hold. unfold content.
    destruct (zero _); [done|]. rewrite Hv, He.
    set (old := physicalChunkID _). assert (u64 old) as Hu by apply record_id_u64.
    specialize (Hold (p / rpChunkSizeBytes snap)). fold old in Hold.
    assert (view w' id (localReplicaPayloadKey id (rwVolumeID rreq) (emExtentID (wpExtent e)) old)
            = view w id (localReplicaPayloadKey id (rwVolumeID rreq) (emExtentID (wpExtent e)) old)) as ->; [|done].
    destruct (decide (id ∈ map rtReplicaID (wpWriteTargets e))) as [Hin|Hin]; [|by apply Hother].
    apply list_elem_of_fmap in Hin as (t & -> & Ht). destruct (Hwr t Ht) as [_ Hkeep]. apply Hkeep.
    intros (c & E & Hc)%list_elem_of_fmap. pose proof (Hfresh c Hc). destruct (ck_first _ _ _ _ Hok).
    apply payload_key_inj in E; [lia|done|unfold in_u, zlen in *; lia].
Qed.

(** ** The small cluster with a snapshot of its page *)

Definition cow_plan : ExtentWritePlan :=
  match extent_write_plan (small_placement NodeLifecycleActive) small_pages 4 true with
  | Ok p => p | _ => zero_ExtentWritePlan end.

Definition cow_state : allocationCommitPageState :=
  mkPageState "v" 0 16 4 1 [10; 11; 12; 13] [10; 11; 12; 13] [None; None; None; None].

Definition cow_begin : BeginWriteRequest :=
  zero_BeginWriteRequest <| bwVolumeID := "v" |> <| bwOffsetBytes := 2 |> <| bwLengthBytes := 4 |>.

Lemma small_pages_ids l : 0 <= physicalChunkID (logicalChunkAllocationRecord small_pages l) < 100 /\
  encryption (logicalChunkAllocationRecord small_pages l) = None.
Proof.
  cbn [small_pages logicalChunkAllocationRecord raRangeStartChunk raRangeEndChunk raPage apExtents extent_of aeLogicalChunkStart aeChunkCount].
  change (add64 0 4) with 4. destruct (Z.ltb_spec l 0), (Z.leb_spec 4 l); cbn [orb]; try (split; [cbn; lia|done]).
  cbn [aeKind aePhysicalChunkStart]. cbn -[add64 sub64]. rewrite sub64_small, add64_small by (unfold in_u; lia). split; [lia|done].
Qed.

Lemma cow_plan_ok : cow_ok cow_plan small_write 100 (fun _ => cow_state).
Proof.
  assert (wpAllocationPages cow_plan = small_pages) as Ep by reflexivity.
  assert (wpExtent cow_plan = mkExtentMappingRecord "v" 1 0 16 0 "rs" 1) as Ee by reflexivity.
  assert (wpChunkSizeBytes cow_plan = 4) as Ec by reflexivity.
  split; rewrite ?Ee, ?Ec; [cbn; lia..|unfold window; rewrite Ee; cbn; lia|done|done| | | |lia].
  - intros l. exact (small_pages_ids l).
  - rewrite Ep. intros page Hin. apply list_elem_of_singleton in Hin as ->. split; try done.
    + assert (cpp cow_state = 4) as Ecpp by reflexivity. split; rewrite ?Ecpp; cbn; try lia; try done.
      repeat (apply Forall_cons; split; [unfold in_u; lia|]). by apply Forall_nil.
    + repeat (apply Forall_cons; split; [lia|]). by apply Forall_nil.
    + by repeat constructor.
  - rewrite Ep. intros l [H1 H2]. assert (0 <= l <= 1) as Hl by (split; [exact H1|exact H2]).
    assert (l = 0 \/ l = 1) as [->| ->] by lia; by eexists.
Qed.

Lemma cow_write_isolated_witness : exists e' chunks w',
  prepareWritePlanAllocations (Some (fun _ _ => fun s => (s, Ok 100))) (mkWritePlan "v" [cow_plan]) cow_begin tt
    = (tt, Ok (mkWritePlan "v" [e'])) /\
  WriteExtent small_stores None e' small_write small_cluster
    = (w', Ok (mkReplicaWriteResult ["a"; "b"; "c"] [] [] false)) /\
  written cluster_view e' small_write chunks small_cluster w' "a" /\
  content cluster_view (small_read_plan NodeLifecycleActive) small_read "a" w' 3 = Some Byte.x09.
Proof.
  destruct (cow_write_isolated (fun _ _ => fun s => (s, Ok 100)) small_stores cluster_view cow_plan small_write
              cow_begin "v" 100 (fun _ => cow_state) tt tt small_cluster) as (e' & chunks & w' & H1 & H2 & H3 & H4).
  - exact cow_plan_ok.
  - done.
  - done.
  - done.
  - apply (bool_decide_unpack _). by vm_compute.
  - apply Forall_forall. intros t Ht. apply small_store_some.
    assert (t ∈ wpWriteTargets (small_write_plan NodeLifecycleActive)) as Hin%(list_elem_of_fmap_2 rtReplicaID)
      by exact Ht. change (_ <$> ?l) with (map rtReplicaID l) in Hin. rewrite small_targets in Hin by (by left).
    set_unfold in Hin. tauto.
  - exists e', chunks, w'. split_and!; [done|exact H2|apply (H3 (mkReplicaTarget "na" "a" ReplicaRolePrimary "")); by left|].
    rewrite H4; [vm_compute; reflexivity|done|done|]. intros l. apply (small_pages_ids l).
Defined.

End CowFacts.
