(* ===== verification/PayloadGC.v ===== *)
(** * The payload garbage collector of the storage cluster

    Models src/sbs/cluster/replication/payload_gc.go: a sweep deletes from the
    local replica stores the payload objects of a volume that no page of the
    volume, of its snapshots or of its clones maps, and records its progress as
    mutation operations.

    The state is the repository beside the world [W] of the payload stores.  A
    set of ids is a [gset Z], [nil] and the empty set alike.  [fuel] bounds the
    number of pages of a key listing (running out counts as not returning);
    [nowUnix] is the clock.  The deferred update of the operation record never
    changes it, since every return sets a final state first. *)

From Stdlib Require Import ZArith Lia Ascii String.
From stdpp Require Import base list gmap strings sorting.
From S2P Require Import Prelude GoStrings VolumeId GatewayTypes ObjectStore SbsTypes MetaTypes AllocationCommit WritePipeline MetaPages MetaRepo MetaSnapshots Executor Resolver LocalReplica.
Open Scope string_scope.
Open Scope Z_scope.

Module PayloadGC.
Import Sbs Meta Allocation Store MetaPages MetaRepo Snapshots LocalReplica.
Open Scope act_scope.

Inductive gc_error :=
| GcMeta (e : meta_error)
| GcStore (e : Gateway.svc_error)
| GcGeometry (pageNo pageBytes chunkSizeBytes : Z).

(** ** Keys *)

Definition parseLocalReplicaPayloadKey (key : string) : option (string * string * Z * Z) :=
  match split_slash (list_ascii_of_string key) [] with
  | [p0; p1; p2; p3; p4; p5; p6; p7] =>
      if String.eqb (string_of_list_ascii p0) "replicas" && String.eqb (string_of_list_ascii p2) "volumes"
         && String.eqb (string_of_list_ascii p4) "extents" && String.eqb (string_of_list_ascii p6) "chunks"
      then
        match ParseUint10 p5, ParseUint10 p7 with
        | Some extentID, Some chunkID =>
            Some (string_of_list_ascii p1, string_of_list_ascii p3, extentID, chunkID)
        | _, _ => None
        end
      else None
  | _ => None
  end.

Definition PayloadGCBatchMutationOperationID (volumeID : string) (batchIndex : Z) : string :=
  "payload-gc-" ++ volumeID ++ "-batch-" ++ format_06d batchIndex.

Definition payloadGCBatchIndex (volumeID operationID : string) : option Z :=
  let prefix := Exec.PayloadGCMutationOperationID volumeID ++ "-batch-" in
  if negb (String.prefix prefix operationID) then None else
  Atoi (drop (String.length prefix) (list_ascii_of_string operationID)).

(** [sliceToUint64Set] drops zeroes, [sliceToUint64SetAllowZero] keeps them. *)
Definition sliceToUint64Set (values : list Z) : gset Z :=
  list_to_set (List.filter (fun v => negb (v =? 0)) values).
Definition sliceToUint64SetAllowZero (values : list Z) : gset Z := list_to_set values.
Definition sortedUint64SetKeys (values : gset Z) : list Z := merge_sort Z.le (elements values).

(** ** Referenced payloads *)

Fixpoint resolve_records (pages : list AllocationPageRecord) (geometry : option (Z * Z))
  : result gc_error (list ResolvedAllocationPage) :=
  match pages with
  | [] => Ok []
  | page :: pages =>
      if bad_geometry page
      then Err (GcGeometry (apPageNo page) (apPageBytes page) (apChunkSizeBytes page)) else
      if match geometry with
         | Some (pageBytes, chunkSizeBytes) =>
             negb (apPageBytes page =? pageBytes) || negb (apChunkSizeBytes page =? chunkSizeBytes)
         | None => false
         end
      then Err (GcGeometry (apPageNo page) (apPageBytes page) (apChunkSizeBytes page)) else
      let chunksPerPage := apPageBytes page / apChunkSizeBytes page in
      let startChunk := mul64 (apPageNo page) chunksPerPage in
      rest ← resolve_records pages (Some (apPageBytes page, apChunkSizeBytes page));
      Ok (if chunksPerPage =? 0 then rest
          else mkResolvedAllocationPage page startChunk (add64 startChunk chunksPerPage) true :: rest)
  end.

Definition resolvedAllocationPagesFromRecords (pages : list AllocationPageRecord)
  : result gc_error (list ResolvedAllocationPage) :=
  out ← resolve_records pages None;
  Ok (merge_sort (by_number raRangeStartChunk) out).

(** The ids the chunks of one extent are mapped to. *)
Fixpoint mapped_ids (n : nat) (logicalChunk : Z) (pages : list ResolvedAllocationPage) : list Z :=
  match n with
  | O => []
  | S n =>
      let c := logicalChunkAllocationRecord pages logicalChunk in
      let rest := mapped_ids n (add64 logicalChunk 1) pages in
      if negb (covered c) || zero c || (physicalChunkID c =? 0) then rest else physicalChunkID c :: rest
  end.

(** Whether a sweep looks at an extent. *)
Definition targeted (targetExtentIDs : gset Z) (mapping : ExtentMappingRecord) : bool :=
  bool_decide (targetExtentIDs = ∅) || bool_decide (emExtentID mapping ∈ targetExtentIDs).

Definition mark_mapping (replicaIDs : list string) (payloadVolumeID : string) (pages : list ResolvedAllocationPage)
    (chunkSize : Z) (mapping : ExtentMappingRecord) (referenced : gset string) : gset string :=
  if emLengthBytes mapping =? 0 then referenced else
  let '(startChunk, n) := chunk_span (emLogicalOffset mapping) (emLengthBytes mapping) chunkSize in
  list_to_set (concat (map (fun id => map (fun replicaID =>
     localReplicaPayloadKey replicaID payloadVolumeID (emExtentID mapping) id) replicaIDs)
     (mapped_ids n startChunk pages))) ∪ referenced.

Definition markReferencedPayloadKeysFromAllocationPages (replicaIDs : list string) (payloadVolumeID : string)
    (mappings : list ExtentMappingRecord) (targetExtentIDs : gset Z) (pages : list AllocationPageRecord)
    (referenced : gset string) : result gc_error (gset string) :=
  resolvedPages ← resolvedAllocationPagesFromRecords pages;
  match resolvedPages with
  | [] => Ok referenced
  | page :: _ =>
      Ok (fold_left (fun acc mapping =>
            mark_mapping replicaIDs payloadVolumeID resolvedPages (apChunkSizeBytes (raPage page)) mapping acc)
            (List.filter (targeted targetExtentIDs) mappings) referenced)
  end.

Record LocalPayloadSweepResult := mkSweepResult {
  srVolumeID : string; srReplicaID : string; srCandidateCount : Z; srDeletedCount : Z; srRetainedCount : Z }.

#[export] Instance LocalPayloadSweepResult_settable : Settable LocalPayloadSweepResult := fun x =>
  mkSweepResult (srVolumeID x) (srReplicaID x) (srCandidateCount x) (srDeletedCount x) (srRetainedCount x).

Record payloadGCChunkBatch := mkBatch { cbBatchIndex : Z; cbChunkIDs : gset Z }.

Definition defaultPayloadGCChunkBatchSize : Z := 64.

(** ** The collector *)

(** [moLastUpdatedAtUnix] is set on every change of an operation record. *)
Definition with_state (nowUnix : Z) (state message : string) (op : MutationOperationRecord) : MutationOperationRecord :=
  op <| moState := state |> <| moLastUpdatedAtUnix := nowUnix |> <| moErrorMessage := message |>.

Section Collector.
Context {W : Type} (stores : gmap string (PayloadStore W)) (chunkBatchSize nowUnix : Z) (fuel : nat).
Context (err_text : gc_error -> string).
Abbreviation gact := (act (Repository * W) gc_error).

Definition on_repo {A} (m : repo A) : gact A := fun '(r, w) =>
  let '(r, x) := m r in ((r, w), map_err GcMeta x).
Definition on_payloads {A} (m : act W Gateway.svc_error A) : gact A := fun '(r, w) =>
  let '(w, x) := m w in ((r, w), map_err GcStore x).

(** [_ = c.repo.PutMutationOperation(...)]. *)
Definition put_tracked (op : MutationOperationRecord) : gact unit := fun '(r, w) =>
  let '(r, x) := PutMutationOperation op r in ((r, w), match x with Panic => Panic | _ => Ok tt end).

(** [m], and [handler] before its error is returned. *)
Definition on_error {A} (m : gact A) (handler : gc_error -> gact unit) : gact A := fun s =>
  match m s with
  | (s, Err e) => match handler e s with
                  | (s, Panic) => (s, Panic)
                  | (s, _) => (s, Err e)
                  end
  | r => r
  end.

(** *** Candidates *)

Fixpoint list_loop (n : nat) (payloadStore : PayloadStore W) (prefix cursor : string) (out : list string)
  : gact (list string) :=
  match n with
  | O => lift_act Panic
  | S n =>
      found <-- on_payloads (psList payloadStore prefix cursor 128);
      let out := (out ++ found.1)%list in
      if String.eqb found.2 "" then ret_act out else list_loop n payloadStore prefix found.2 out
  end.

Definition listAllObjectStoreKeys (payloadStore : PayloadStore W) (prefix : string) : gact (list string) :=
  list_loop fuel payloadStore prefix "" [].

Definition volume_prefix (replicaID volumeID : string) : string :=
  "replicas/" ++ replicaID ++ "/volumes/" ++ volumeID ++ "/extents/".
Definition extent_prefix (replicaID volumeID : string) (extentID : Z) : string :=
  volume_prefix replicaID volumeID ++ format_020d extentID ++ "/chunks/".

(** [keys] with those of [found] it does not have, in order. *)
Definition append_new (keys found : list string) : list string :=
  fold_left (fun keys key => if bool_decide (key ∈ keys) then keys else (keys ++ [key])%list) found keys.

(** Whether a listed key is a payload of the chunk. *)
Definition is_chunk (volumeID : string) (chunkID : Z) (key : string) : bool :=
  match parseLocalReplicaPayloadKey key with
  | Some (_, keyVolumeID, _, keyChunkID) => String.eqb keyVolumeID volumeID && (keyChunkID =? chunkID)
  | None => false
  end.

Fixpoint scan_chunks (payloadStore : PayloadStore W) (replicaID volumeID : string) (chunkIDs : list Z)
    (keys : list string) : gact (list string) :=
  match chunkIDs with
  | [] => ret_act keys
  | chunkID :: chunkIDs =>
      found <-- listAllObjectStoreKeys payloadStore (volume_prefix replicaID volumeID);
      scan_chunks payloadStore replicaID volumeID chunkIDs
        (append_new keys (List.filter (is_chunk volumeID chunkID) found))
  end.

Fixpoint probe_keys (payloadStore : PayloadStore W) (probes keys : list string) : gact (list string) :=
  match probes with
  | [] => ret_act keys
  | key :: probes =>
      value <-- on_payloads (@store_get _ (psStore payloadStore) key);
      probe_keys payloadStore probes (if isSome value then append_new keys [key] else keys)
  end.

Definition listExactChunkCandidateKeys (payloadStore : PayloadStore W) (replicaID volumeID : string)
    (targetExtentIDs targetChunkIDs : gset Z) : gact (list string) :=
  let chunkIDs := sortedUint64SetKeys targetChunkIDs in
  if bool_decide (targetExtentIDs = ∅) then scan_chunks payloadStore replicaID volumeID chunkIDs [] else
  probe_keys payloadStore
    (concat (map (fun chunkID => map (fun extentID => localReplicaPayloadKey replicaID volumeID extentID chunkID)
       (sortedUint64SetKeys targetExtentIDs)) chunkIDs)) [].

Fixpoint scan_extents (payloadStore : PayloadStore W) (replicaID volumeID : string) (extentIDs : list Z)
    (keys : list string) : gact (list string) :=
  match extentIDs with
  | [] => ret_act keys
  | extentID :: extentIDs =>
      found <-- listAllObjectStoreKeys payloadStore (extent_prefix replicaID volumeID extentID);
      scan_extents payloadStore replicaID volumeID extentIDs (append_new keys found)
  end.

Definition listCandidatePayloadKeys (payloadStore : PayloadStore W) (replicaID volumeID : string)
    (targetExtentIDs targetChunkIDs : gset Z) : gact (list string) :=
  if bool_decide (targetExtentIDs = ∅) && bool_decide (targetChunkIDs = ∅)
  then listAllObjectStoreKeys payloadStore (volume_prefix replicaID volumeID)
  else if negb (bool_decide (targetChunkIDs = ∅))
  then listExactChunkCandidateKeys payloadStore replicaID volumeID targetExtentIDs targetChunkIDs
  else scan_extents payloadStore replicaID volumeID (sortedUint64SetKeys targetExtentIDs) [].

(** *** Live payloads *)

(** The pages [first .. last] of an extent meet a set of page numbers. *)
Definition touches_pages (targetPageNos : gset Z) (chunkSizeBytes chunksPerPage : Z) (mapping : ExtentMappingRecord)
  : bool :=
  let startChunk := emLogicalOffset mapping / chunkSizeBytes in
  let endChunk := sub64 (add64 (emLogicalOffset mapping) (emLengthBytes mapping)) 1 / chunkSizeBytes in
  let startPage := startChunk / chunksPerPage in
  let endPage := endChunk / chunksPerPage in
  negb (emLengthBytes mapping =? 0)
  && existsb (fun i => bool_decide (startPage + Z.of_nat i ∈ targetPageNos)) (seq 0 (Z.to_nat (endPage - startPage + 1))).

Definition targetExtentIDsFromPages (volumeID : string) (targetPageNos : gset Z) : gact (gset Z) :=
  mappings <-- on_repo (ListExtentMappings volumeID);
  pages <-- on_repo (ListAllocationPages volumeID);
  match pages with
  | [] => ret_act ∅
  | page :: _ =>
      if (apPageBytes page =? 0) || (apChunkSizeBytes page =? 0) then ret_act ∅ else
      let chunksPerPage := apPageBytes page / apChunkSizeBytes page in
      if chunksPerPage =? 0 then ret_act ∅ else
      ret_act (list_to_set (map emExtentID
        (List.filter (touches_pages targetPageNos (apChunkSizeBytes page) chunksPerPage) mappings)))
  end.

(** The keys referenced so far, and whether any page was found. *)
Definition marks := (gset string * bool)%type.

Definition mark_pages (volumeID : string) (mappings : list ExtentMappingRecord) (targetExtentIDs : gset Z)
    (pages : list AllocationPageRecord) (m : marks) : gact marks :=
  if zlen pages =? 0 then ret_act m else
  referenced <-- lift_act (markReferencedPayloadKeysFromAllocationPages (map_to_list stores).*1 volumeID
                             mappings targetExtentIDs pages m.1);
  ret_act (referenced, true).

Fixpoint mark_snapshots (volumeID : string) (mappings : list ExtentMappingRecord) (targetExtentIDs : gset Z)
    (snapshots : list SnapshotRecord) (m : marks) : gact marks :=
  match snapshots with
  | [] => ret_act m
  | snapshot :: snapshots =>
      pages <-- on_repo (ListSnapshotAllocationPages (snSnapshotID snapshot));
      m <-- mark_pages volumeID mappings targetExtentIDs pages m;
      mark_snapshots volumeID mappings targetExtentIDs snapshots m
  end.

Fixpoint mark_clones (volumeID : string) (mappings : list ExtentMappingRecord) (targetExtentIDs : gset Z)
    (clones : list CloneRecord) (m : marks) : gact marks :=
  match clones with
  | [] => ret_act m
  | clone :: clones =>
      if negb (String.eqb (clState clone) CloneStateAvailable)
         && negb (String.eqb (clState clone) CloneStateMaterializing)
      then mark_clones volumeID mappings targetExtentIDs clones m else
      pages <-- on_repo (ListCloneDeltaAllocationPages (clCloneID clone));
      m <-- mark_pages volumeID mappings targetExtentIDs pages m;
      mark_clones volumeID mappings targetExtentIDs clones m
  end.

(** The referenced keys, the active extents, and whether pages decide. *)
Definition referencedPayloadKeys (volumeID : string) (targetExtentIDs : gset Z)
  : gact (gset string * gset Z * bool) :=
  mappings <-- on_repo (ListExtentMappings volumeID);
  let activeExtentIDs : gset Z :=
    list_to_set (map emExtentID (List.filter (targeted targetExtentIDs) mappings)) in
  pages <-- on_repo (ListAllocationPages volumeID);
  m <-- mark_pages volumeID mappings targetExtentIDs pages (∅, false);
  snapshots <-- on_repo (ListSnapshotRecords volumeID false);
  m <-- mark_snapshots volumeID mappings targetExtentIDs snapshots m;
  clones <-- on_repo (ListCloneRecords "" volumeID false);
  m <-- mark_clones volumeID mappings targetExtentIDs clones m;
  ret_act (m.1, activeExtentIDs, m.2).

Definition retiredPayloadHintChunkIDs (volumeID : string) : gact (gset Z) :=
  operations <-- on_repo (Resolver.ListMutationOperations volumeID);
  ret_act (sliceToUint64Set (concat (map moRetiredPhysicalChunkIDs (List.filter (fun op =>
    String.eqb (moState op) MutationOperationCommitted
    && (String.eqb (moKind op) "write" || String.eqb (moKind op) "transition")) operations)))).

(** *** Batches and operation records *)

(** The batch an earlier, interrupted sweep recorded. *)
Definition recorded_batch (volumeID : string) (targetChunkIDs : gset Z) (op : MutationOperationRecord)
  : option payloadGCChunkBatch :=
  if negb (String.eqb (moKind op) "payload_gc_batch")
     || negb (String.eqb (moIdempotencyKey op) (Exec.PayloadGCMutationOperationID volumeID)) then None else
  match payloadGCBatchIndex volumeID (moOperationID op) with
  | None => None
  | Some batchIndex =>
      let chunkBatch := sliceToUint64Set (moRetiredPhysicalChunkIDs op) ∩ targetChunkIDs in
      if bool_decide (chunkBatch = ∅) then None else Some (mkBatch batchIndex chunkBatch)
  end.

(** Slices of [size] ids, numbered from [index]; [n] bounds their number. *)
Fixpoint cut_batches (n : nat) (size : Z) (ids : list Z) (index : Z) : list payloadGCChunkBatch :=
  match n, ids with
  | S n, _ :: _ =>
      mkBatch index (list_to_set (take (Z.to_nat size) ids))
        :: cut_batches n size (drop (Z.to_nat size) ids) (index + 1)
  | _, _ => []
  end.

Definition buildChunkBatches (volumeID : string) (targetChunkIDs : gset Z) : repo (list payloadGCChunkBatch) := fun r =>
  if bool_decide (targetChunkIDs = ∅) then (r, Ok [mkBatch 0 ∅]) else
  let batches := match Resolver.ListMutationOperations volumeID r with
                 | (_, Ok operations) =>
                     merge_sort (by_number cbBatchIndex) (omap (recorded_batch volumeID targetChunkIDs) operations)
                 | _ => []
                 end in
  let maxBatchIndex := fold_left Z.max (map cbBatchIndex batches) (-1) in
  let remaining := sortedUint64SetKeys (targetChunkIDs ∖ ⋃ map cbChunkIDs batches) in
  let batchSize := if chunkBatchSize <=? 0 then defaultPayloadGCChunkBatchSize else chunkBatchSize in
  let next := if maxBatchIndex =? 2 ^ 63 - 1 then - 2 ^ 63 else maxBatchIndex + 1 in
  (r, Ok (batches ++ cut_batches (length remaining) batchSize remaining (if next <? 0 then 0 else next))%list).

(** A record is tracked when it could be stored. *)
Definition put_begun (operation : MutationOperationRecord) : repo (option MutationOperationRecord) := fun r =>
  match PutMutationOperation operation r with
  | (r, Ok _) => (r, Ok (Some operation))
  | (r, Err _) => (r, Ok None)
  | (r, Panic) => (r, Panic)
  end.

(** The record a sweep works under. *)
Definition beginSweepMutationOperation (volumeID : string) : repo (option MutationOperationRecord) := fun r =>
  match GetVolumeState volumeID r with
  | (r, Ok volumeState) =>
      let operationID := Exec.PayloadGCMutationOperationID volumeID in
      let running op := op <| moOperationID := operationID |> <| moVolumeID := volumeID |>
        <| moKind := "payload_gc" |> <| moState := MutationOperationRunning |>
        <| moAllocationRevision := vsRevision volumeState |> <| moWriterFencingEpoch := vsEpoch volumeState |>
        <| moIdempotencyKey := volumeID |>
        <| moStartedAtUnix := if moStartedAtUnix op =? 0 then nowUnix else moStartedAtUnix op |>
        <| moLastUpdatedAtUnix := nowUnix |> <| moErrorMessage := "" |> in
      match GetMutationOperation volumeID operationID r with
      | (_, Ok operation) => put_begun (running operation) r
      | (_, Err ErrNotFound) => put_begun (running zero_MutationOperationRecord) r
      | (_, Err _) => (r, Ok None)
      | (_, Panic) => (r, Panic)
      end
  | (r, Err _) => (r, Ok None)
  | (r, Panic) => (r, Panic)
  end.

(** The record of a batch, and whether the sweep updates it. *)
Definition beginSweepBatchMutationOperation (volumeID : string) (batchIndex : Z) (parent : MutationOperationRecord)
    (chunkBatch : gset Z) : repo (option MutationOperationRecord) := fun r =>
  if bool_decide (chunkBatch = ∅) then (r, Ok None) else
  let operationID := PayloadGCBatchMutationOperationID volumeID batchIndex in
  let running op := op <| moOperationID := operationID |> <| moVolumeID := volumeID |>
    <| moKind := "payload_gc_batch" |> <| moState := MutationOperationRunning |>
    <| moPlacementRevision := moPlacementRevision parent |> <| moAllocationRevision := moAllocationRevision parent |>
    <| moWriterFencingEpoch := moWriterFencingEpoch parent |> <| moIdempotencyKey := moOperationID parent |>
    <| moAffectedExtentIDs := moAffectedExtentIDs parent |> <| moAffectedPageNos := moAffectedPageNos parent |>
    <| moRetiredPhysicalChunkIDs := sortedUint64SetKeys chunkBatch |>
    <| moStartedAtUnix := if moStartedAtUnix op =? 0 then nowUnix else moStartedAtUnix op |>
    <| moLastUpdatedAtUnix := nowUnix |> <| moErrorMessage := "" |> in
  match GetMutationOperation volumeID operationID r with
  | (_, Ok operation) =>
      if String.eqb (moState operation) MutationOperationCommitted then (r, Ok None) else put_begun (running operation) r
  | (_, Err ErrNotFound) => put_begun (running zero_MutationOperationRecord) r
  | (_, Err _) => (r, Ok None)
  | (_, Panic) => (r, Panic)
  end.

(** *** Sweeping *)

Definition hinted (hintedChunkIDs : gset Z) (key : string) : bool :=
  match parseLocalReplicaPayloadKey key with
  | Some (_, _, _, chunkID) => bool_decide (chunkID ∈ hintedChunkIDs)
  | None => false
  end.

(** Hinted keys first, then by name. *)
Definition key_order (hintedChunkIDs : gset Z) (a b : string) : Prop :=
  if Bool.eqb (hinted hintedChunkIDs a) (hinted hintedChunkIDs b) then String.le a b
  else hinted hintedChunkIDs a = true.

#[export] Instance key_order_dec hintedChunkIDs : RelDecision (key_order hintedChunkIDs).
Proof. intros a b. unfold key_order. destruct (Bool.eqb _ _); apply _. Defined.

(** What a sweep knows to be in use. *)
Record live := mkLive { lvReferenced : gset string; lvActiveExtentIDs : gset Z; lvNative : bool }.

Definition keep (l : live) (key : string) (extentID : Z) : bool :=
  if lvNative l then bool_decide (key ∈ lvReferenced l) else bool_decide (extentID ∈ lvActiveExtentIDs l).

Fixpoint sweep_keys (payloadStore : PayloadStore W) (volumeID : string) (l : live) (keys : list string)
    (result : LocalPayloadSweepResult) (deletedChunkIDs : gset Z) : gact (LocalPayloadSweepResult * gset Z) :=
  match keys with
  | [] => ret_act (result, deletedChunkIDs)
  | key :: keys =>
      match parseLocalReplicaPayloadKey key with
      | None => sweep_keys payloadStore volumeID l keys result deletedChunkIDs
      | Some (_, keyVolumeID, extentID, chunkID) =>
          if negb (String.eqb keyVolumeID volumeID)
          then sweep_keys payloadStore volumeID l keys result deletedChunkIDs else
          if keep l key extentID
          then sweep_keys payloadStore volumeID l keys
                 (result <| srRetainedCount := srRetainedCount result + 1 |>) deletedChunkIDs
          else
          on_payloads (@store_delete _ (psStore payloadStore) key);;
          sweep_keys payloadStore volumeID l keys (result <| srDeletedCount := srDeletedCount result + 1 |>)
            (if negb (chunkID =? 0) then {[chunkID]} ∪ deletedChunkIDs else deletedChunkIDs)
      end
  end.

Definition progress := (gmap string LocalPayloadSweepResult * gset Z)%type.

Definition sweep_replica (volumeID : string) (l : live) (hintedChunkIDs targetExtentIDs : gset Z)
    (chunkIDs : gset Z) (replicaID : string) (p : progress) : gact progress :=
  match stores !! replicaID with
  | None => ret_act p
  | Some payloadStore =>
      keys <-- listCandidatePayloadKeys payloadStore replicaID volumeID targetExtentIDs chunkIDs;
      let keys := merge_sort (key_order hintedChunkIDs) keys in
      let result := default (mkSweepResult volumeID replicaID 0 0 0) (p.1 !! replicaID) in
      swept <-- sweep_keys payloadStore volumeID l keys
                  (result <| srCandidateCount := srCandidateCount result + zlen keys |>) p.2;
      ret_act (<[replicaID := swept.1]> p.1, swept.2)
  end.

Fixpoint sweep_replicas (volumeID : string) (l : live) (hintedChunkIDs targetExtentIDs : gset Z)
    (chunkIDs : gset Z) (replicaIDs : list string) (p : progress) : gact progress :=
  match replicaIDs with
  | [] => ret_act p
  | replicaID :: replicaIDs =>
      p <-- sweep_replica volumeID l hintedChunkIDs targetExtentIDs chunkIDs replicaID p;
      sweep_replicas volumeID l hintedChunkIDs targetExtentIDs chunkIDs replicaIDs p
  end.

Definition failed (e : gc_error) : MutationOperationRecord -> MutationOperationRecord :=
  with_state nowUnix MutationOperationFailed (err_text e).

(** [operation], tracked or not, is stored as failed. *)
Definition fail_tracked (operation : option MutationOperationRecord) (e : gc_error) : gact unit :=
  match operation with
  | Some op => put_tracked (failed e op)
  | None => ret_act tt
  end.

Fixpoint sweep_batches (volumeID : string) (operation : option MutationOperationRecord) (l : live)
    (hintedChunkIDs targetExtentIDs : gset Z) (replicaIDs : list string) (batches : list payloadGCChunkBatch)
    (p : progress) : gact progress :=
  match batches with
  | [] => ret_act p
  | chunkBatch :: batches =>
      batchOperation <-- on_repo (beginSweepBatchMutationOperation volumeID (cbBatchIndex chunkBatch)
                           (default zero_MutationOperationRecord operation) (cbChunkIDs chunkBatch));
      p <-- on_error (sweep_replicas volumeID l hintedChunkIDs targetExtentIDs (cbChunkIDs chunkBatch) replicaIDs p)
              (fun e => fail_tracked batchOperation e;; fail_tracked operation e);
      match batchOperation with
      | Some op => put_tracked (with_state nowUnix MutationOperationCommitted "" op
                     <| moRetiredPhysicalChunkIDs := sortedUint64SetKeys (cbChunkIDs chunkBatch) |>)
      | None => ret_act tt
      end;;
      sweep_batches volumeID operation l hintedChunkIDs targetExtentIDs replicaIDs batches p
  end.

(** The extents a sweep is restricted to; none restricts nothing. *)
Definition sweep_extents (volumeID : string) (op : MutationOperationRecord) : gact (gset Z) :=
  let targetExtentIDs := sliceToUint64Set (moAffectedExtentIDs op) in
  let targetPageNos := sliceToUint64SetAllowZero (moAffectedPageNos op) in
  if bool_decide (targetExtentIDs = ∅) && negb (bool_decide (targetPageNos = ∅))
  then targetExtentIDsFromPages volumeID targetPageNos else ret_act targetExtentIDs.

Definition canonical_or_raw (volumeID : string) : repo string := fun r =>
  match CanonicalVolumeID volumeID r with
  | (r, Ok c) => (r, Ok c)
  | (r, Err _) => (r, Ok volumeID)
  | (r, Panic) => (r, Panic)
  end.

Definition SweepVolume (volumeID : string) : gact (list LocalPayloadSweepResult) :=
  canonicalVolumeID <-- on_repo (canonical_or_raw volumeID);
  operation <-- on_repo (beginSweepMutationOperation canonicalVolumeID);
  let op := default zero_MutationOperationRecord operation in
  targetExtentIDs <-- on_error (sweep_extents volumeID op) (fail_tracked operation);
  refs <-- on_error (referencedPayloadKeys volumeID targetExtentIDs) (fail_tracked operation);
  hints <-- on_error (retiredPayloadHintChunkIDs canonicalVolumeID) (fail_tracked operation);
  let replicaIDs := merge_sort String.le (map_to_list stores).*1 in
  batches <-- on_repo (buildChunkBatches canonicalVolumeID (sliceToUint64Set (moRetiredPhysicalChunkIDs op)));
  p <-- sweep_batches canonicalVolumeID operation (mkLive refs.1.1 refs.1.2 refs.2) hints targetExtentIDs replicaIDs
          batches (∅, ∅);
  let results := map (fun replicaID => default (mkSweepResult canonicalVolumeID replicaID 0 0 0) (p.1 !! replicaID))
                   replicaIDs in
  match operation with
  | Some op => on_repo (PutMutationOperation (with_state nowUnix MutationOperationCommitted "" op
                 <| moRetiredPhysicalChunkIDs := sortedUint64SetKeys p.2 |>));;
               ret_act results
  | None => ret_act results
  end.

(** [Repository.ListVolumeStates]: the state of each volume once, by name. *)
Definition ListVolumeStates : repo (list VolumeState) := fun r =>
  (r, Ok (merge_sort (fun a b => String.le (vsVolumeID a) (vsVolumeID b))
            (fold_left (fun out rec => if bool_decide (vsVolumeID rec ∈ map vsVolumeID out) then out
                                       else (out ++ [rec])%list)
               (map snd (merge_sort (fun a b => String.le (fst a) (fst b)) (map_to_list (stStates (rStore r))))) []))).

Fixpoint sweep_volumes (volumes : list VolumeState) : gact (list LocalPayloadSweepResult) :=
  match volumes with
  | [] => ret_act []
  | volume :: volumes =>
      swept <-- SweepVolume (vsVolumeID volume);
      rest <-- sweep_volumes volumes;
      ret_act (swept ++ rest)%list
  end.

Definition SweepAll : gact (list LocalPayloadSweepResult) :=
  volumes <-- on_repo ListVolumeStates;
  sweep_volumes volumes.

End Collector.
End PayloadGC.
