(* ===== verification/PayloadGCFacts.v ===== *)
(** * The payload garbage collector: theorems

    A sweep never changes what a read through live pages returns: the pages of
    the volume, of its snapshots and of its clones keep every payload they map,
    whatever fails on the way.  The proof is a small program logic on actions
    over the repository and the stores: [holds m Q] says that [m] leaves the
    pages and extents of the repository and the protected payloads alone and
    that its result satisfies [Q].  The key listing terminates on the in-memory
    store, a targeted sweep deletes the retired chunks it was given, and a sweep
    under an id that is not in canonical form deletes live data. *)

From Stdlib Require Import ZArith Lia Ascii String.
From stdpp Require Import base list gmap strings sorting.
From coqutil Require Import Byte.
From S2P Require Import Prelude GoStrings VolumeId GatewayTypes ObjectStore ObjectStoreFacts SbsTypes MetaTypes AllocationCommit WritePipeline MetaPages MetaRepo MetaRepoFacts MetaSnapshots Executor Resolver LocalReplica LocalReplicaFacts CowFacts PayloadGC.
Open Scope string_scope.
Open Scope Z_scope.

Module PayloadGCFacts.
Import Sbs Meta Allocation Store MetaPages MetaRepo MetaRepoFacts Snapshots LocalReplica LocalReplicaFacts CowFacts PayloadGC.
Open Scope act_scope.

(** ** Keys *)

Lemma prefix_app (p a b : string) : String.prefix (p ++ a) (p ++ b) = String.prefix a b.
Proof. induction p as [|c p IH]; [done|].
  change (String.prefix (String c (p ++ a)) (String c (p ++ b)) = String.prefix a b).
  cbn [String.prefix]. destruct (ascii_dec c c); [exact IH|done].
Qed.

Lemma prefix_same_length (a b x y : string) :
  String.length a = String.length b -> String.prefix (a ++ x) (b ++ y) = true -> a = b.
Proof.
  revert b. induction a as [|c a IH]; intros [|d b]; [done|done|done|]. cbn [String.length].
  intros [= Hl]. change (String c a ++ x)%string with (String c (a ++ x)). change (String d b ++ y)%string with (String d (b ++ y)).
  cbn [String.prefix]. intros Hp. destruct (ascii_dec c d) as [->|]; [|done]. f_equal. eauto.
Qed.

Lemma dec_loop_length fuel v acc : (length (dec_loop fuel v acc) <= fuel + length acc)%nat.
Proof.
  revert v acc. induction fuel as [|fuel IH]; intros v acc; cbn [dec_loop]; [done|].
  destruct (0 <? v); [|lia]. etrans; [apply IH|]. cbn. lia.
Qed.

Lemma padded_length v : length (pad_left 20 (chr 48) (dec_chars v)) = 20%nat.
Proof.
  unfold pad_left. rewrite length_app, length_replicate. enough (length (dec_chars v) <= 20)%nat by lia.
  unfold dec_chars. destruct (v =? 0); [cbn; lia|]. pose proof (dec_loop_length 20 v []). cbn in *. lia.
Qed.

Lemma format_020d_length v : String.length (format_020d v) = 20%nat.
Proof.
  rewrite <-(padded_length v). unfold format_020d.
  induction (pad_left 20 (chr 48) (dec_chars v)) as [|x l IH]; [done|]. cbn [string_of_list_ascii String.length length]. by f_equal.
Qed.

(** A key with the prefix of an extent belongs to that extent. *)
Lemma extent_prefix_key id vid e e' c : u64 e -> u64 e' ->
  String.prefix (extent_prefix id vid e) (localReplicaPayloadKey id vid e' c) = true -> e = e'.
Proof.
  unfold extent_prefix, volume_prefix, localReplicaPayloadKey. intros He He'.
  rewrite !string_app_assoc, !prefix_app. intros H%prefix_same_length; [|by rewrite !format_020d_length].
  by apply format_020d_inj.
Qed.

Lemma payload_key_extent id vid e e' c c' : u64 e -> u64 e' ->
  localReplicaPayloadKey id vid e c = localReplicaPayloadKey id vid e' c' -> e = e'.
Proof.
  intros He He' H. apply (extent_prefix_key id vid e e' c' He He'). rewrite <-H.
  unfold extent_prefix, volume_prefix, localReplicaPayloadKey. rewrite !string_app_assoc, !prefix_app.
  by destruct (format_020d c).
Qed.

(** *** Parsing a key *)

Abbreviation lc := list_ascii_of_string.
Definition slash : ascii := "/"%char.

Lemma split_slash_app l current rest : Forall (fun c => c <> slash) l ->
  split_slash (l ++ slash :: rest) current = (current ++ l)%list :: split_slash rest [].
Proof.
  intros Hl. revert current. induction Hl as [|c l Hc Hl IH]; intros current; cbn [app split_slash].
  - by rewrite app_nil_r.
  - destruct (Ascii.eqb_spec c "/"); [done|]. by rewrite IH, <-app_assoc.
Qed.

Lemma no_slash_chars s : has_slash s = false -> Forall (fun c => c <> slash) (lc s).
Proof.
  unfold has_slash. induction (lc s) as [|c l IH]; [constructor|]. cbn [existsb].
  intros [Hc Hl]%orb_false_iff. constructor; [|auto]. intros ->. done.
Qed.

Lemma padded_digits v : 0 <= v -> Forall is_dec (pad_left 20 (chr 48) (dec_chars v)).
Proof.
  intros Hv. apply Forall_app. split; [|by apply dec_chars_digits]. apply Forall_replicate. by vm_compute.
Qed.

Lemma digits_no_slash l : Forall is_dec l -> Forall (fun c => c <> slash) l.
Proof. intros H. eapply Forall_impl; [exact H|]. intros c Hc ->. vm_compute in Hc. by destruct Hc as [[] _]. Qed.

Lemma parse_padded v : u64 v -> ParseUint10 (pad_left 20 (chr 48) (dec_chars v)) = Some v.
Proof.
  intros Hv. unfold ParseUint10. rewrite dec_value_pad by done.
  assert (forallb is_digit (pad_left 20 (chr 48) (dec_chars v)) = true) as ->.
  { apply forallb_forall. intros c Hc%list_elem_of_In.
    assert (is_dec c) as Hd by (eapply Forall_forall; [apply padded_digits; apply Hv|done]).
    unfold is_digit, is_dec in *. apply andb_true_iff. rewrite !Z.leb_le. lia. }
  unfold zlen. rewrite padded_length. cbn [negb Z.eqb andb]. by rewrite (proj2 (Z.ltb_lt v _)) by apply Hv.
Qed.

Lemma parse_payload_key replicaID volumeID extentID chunkID :
  has_slash replicaID = false -> has_slash volumeID = false -> u64 extentID -> u64 chunkID ->
  parseLocalReplicaPayloadKey (localReplicaPayloadKey replicaID volumeID extentID chunkID) =
    Some (replicaID, volumeID, extentID, chunkID).
Proof.
  intros Hr Hv He Hc. apply no_slash_chars in Hr, Hv. unfold parseLocalReplicaPayloadKey, localReplicaPayloadKey, format_020d.
  rewrite !chars_app, !list_ascii_of_string_of_list_ascii.
  pose proof (digits_no_slash _ (padded_digits extentID (proj1 He))) as De.
  pose proof (digits_no_slash _ (padded_digits chunkID (proj1 Hc))) as Dc.
  pose proof (parse_padded extentID He) as Pe. pose proof (parse_padded chunkID Hc) as Pc.
  revert De Dc Pe Pc. generalize (pad_left 20 (chr 48) (dec_chars extentID)), (pad_left 20 (chr 48) (dec_chars chunkID)).
  intros le lk De Dc Pe Pc.
  change (lc "replicas/" ++ ?x)%list with (lc "replicas" ++ slash :: x)%list.
  rewrite split_slash_app by (repeat constructor; done). cbn [app].
  change (lc "/volumes/" ++ ?x)%list with (slash :: lc "volumes" ++ slash :: x)%list.
  rewrite split_slash_app by done. rewrite split_slash_app by (repeat constructor; done).
  change (lc "/extents/" ++ ?x)%list with (slash :: lc "extents" ++ slash :: x)%list.
  rewrite split_slash_app by done. rewrite split_slash_app by (repeat constructor; done).
  change (lc "/chunks/" ++ ?x)%list with (slash :: lc "chunks" ++ slash :: x)%list.
  rewrite split_slash_app by done. rewrite split_slash_app by (repeat constructor; done).
  rewrite split_slash_last by done. cbn [app]. rewrite Pe, Pc. rewrite !string_of_list_ascii_of_string. done.
Qed.

(** Payload keys round-trip.  Parsing the key of a payload gives back its
    replica, volume, extent and chunk, for ids without a slash and 64-bit
    numbers; so no two payloads share a key. *)
Theorem payload_key_round_trip replicaID volumeID extentID chunkID :
  has_slash replicaID = false -> has_slash volumeID = false -> u64 extentID -> u64 chunkID ->
  parseLocalReplicaPayloadKey (localReplicaPayloadKey replicaID volumeID extentID chunkID) =
    Some (replicaID, volumeID, extentID, chunkID).
Proof. apply parse_payload_key. Qed.

Lemma payload_key_round_trip_witness :
  parseLocalReplicaPayloadKey (localReplicaPayloadKey "r-1" "000000ab" 7 (2 ^ 64 - 1)) =
    Some ("r-1", "000000ab", 7, 2 ^ 64 - 1).
Proof. apply payload_key_round_trip; [reflexivity|reflexivity|unfold in_u; lia|unfold in_u; lia]. Defined.

(** ** What pages map *)

(** A page record with its whole range of chunks. *)
Definition full_page (page : AllocationPageRecord) : ResolvedAllocationPage :=
  let per := apPageBytes page / apChunkSizeBytes page in
  mkResolvedAllocationPage page (apPageNo page * per) (apPageNo page * per + per) true.

(** The pages have different numbers, and their chunks fit 64 bits. *)
Record pages_ok (pages : list AllocationPageRecord) : Prop := {
  po_distinct : NoDup (map apPageNo pages);
  po_range : Forall (fun p => 0 <= apPageNo p /\ 0 <= apPageBytes p /\ 0 <= apChunkSizeBytes p /\
               (apPageNo p + 1) * (apPageBytes p / apChunkSizeBytes p) < 2 ^ 64) pages }.

(** The extent holds bytes of the chunk. *)
Definition in_extent (mapping : ExtentMappingRecord) (cs l : Z) : Prop :=
  0 <= emLogicalOffset mapping /\ 0 < emLengthBytes mapping /\
  emLogicalOffset mapping + emLengthBytes mapping < 2 ^ 64 /\
  emLogicalOffset mapping / cs <= l <= (emLogicalOffset mapping + emLengthBytes mapping - 1) / cs.

(** A page maps a chunk of the volume to a stored chunk. *)
Definition maps_chunk (page : AllocationPageRecord) (l id : Z) : Prop :=
  let c := logicalChunkAllocationRecord [full_page page] l in
  covered c = true /\ zero c = false /\ physicalChunkID c = id /\ id <> 0.

Lemma maps_chunk_range page l id : maps_chunk page l id ->
  raRangeStartChunk (full_page page) <= l < raRangeEndChunk (full_page page).
Proof.
  intros [Hc _]. cbn [logicalChunkAllocationRecord] in Hc.
  destruct (l <? _) eqn:E1; [done|]. destruct (_ <=? l) eqn:E2; [done|].
  apply Z.ltb_ge in E1. apply Z.leb_gt in E2. lia.
Qed.

Lemma bad_geometry_false page : bad_geometry page = false -> 0 <= apPageBytes page -> 0 <= apChunkSizeBytes page ->
  0 < apChunkSizeBytes page /\ 0 < apPageBytes page / apChunkSizeBytes page.
Proof.
  unfold bad_geometry. rewrite !orb_false_iff, !Z.eqb_neq, negb_false_iff, Z.eqb_eq.
  intros [[Hp Hc] Hm] H1 H2. split; [lia|]. apply Z.div_exact in Hm; [|lia]. nia.
Qed.

Lemma resolve_records_spec pages g out :
  Forall (fun p => 0 <= apPageNo p /\ 0 <= apPageBytes p /\ 0 <= apChunkSizeBytes p /\
    (apPageNo p + 1) * (apPageBytes p / apChunkSizeBytes p) < 2 ^ 64) pages ->
  resolve_records pages g = Ok out ->
  out = map full_page pages /\
  exists h, (g = None \/ g = Some h \/ pages = []) /\
    Forall (fun p => (apPageBytes p, apChunkSizeBytes p) = h /\ 0 < apChunkSizeBytes p /\
                     0 < apPageBytes p / apChunkSizeBytes p) pages.
Proof.
  intros Hok. revert g out. induction Hok as [|p pages (Hn & Hb & Hc & Hend) Hok IH]; intros g out; cbn [resolve_records map].
  - intros [= <-]. split; [done|]. exists (default (0, 0) g). split; [auto|constructor].
  - destruct (bad_geometry p) eqn:Hbad; [done|]. apply bad_geometry_false in Hbad as [Hcs Hper]; [|done|done].
    destruct (match g with Some (pb, cs) => _ | None => false end) eqn:Hg; [done|].
    destruct (resolve_records pages _) as [rest| |] eqn:Hr; [|done|done]. cbn [mbind].
    intros E. apply IH in Hr as [-> (h & Hh & Hall)].
    assert (h = (apPageBytes p, apChunkSizeBytes p) \/ pages = []) as Hhp by naive_solver.
    split.
    + injection E as <-. rewrite (proj2 (Z.eqb_neq _ 0)) by lia. unfold full_page.
      rewrite mul64_small, add64_small by (unfold in_u; nia). done.
    + exists (apPageBytes p, apChunkSizeBytes p). split.
      * destruct g as [[pb cs]|]; [|by left]. right; left.
        apply orb_false_iff in Hg as [Hg1%negb_false_iff%Z.eqb_eq Hg2%negb_false_iff%Z.eqb_eq]. by rewrite Hg1, Hg2.
      * constructor; [done|]. destruct Hhp as [->| ->]; [done|constructor].
Qed.

Lemma record_of_page pages (R : relation ResolvedAllocationPage) `{!RelDecision R} page h l id :
  pages_ok pages -> Forall (fun p => (apPageBytes p, apChunkSizeBytes p) = h) pages ->
  page ∈ pages -> maps_chunk page l id ->
  logicalChunkAllocationRecord (merge_sort R (map full_page pages)) l = logicalChunkAllocationRecord [full_page page] l.
Proof.
  intros [Hd Hr] Hg Hin Hm. rewrite record_at. pose proof (maps_chunk_range _ _ _ Hm) as Hl.
  destruct (page_at _ l) as [q|] eqn:Hp.
  - apply page_at_In in Hp as [Hq Ho]. rewrite merge_sort_Permutation in Hq.
    apply list_elem_of_In, in_map_iff in Hq as (p' & <- & Hp'%list_elem_of_In).
    enough (p' = page) as -> by done. apply (key_determines apPageNo _ _ _ Hd Hp' Hin).
    unfold outside in Ho. apply orb_false_iff in Ho as [Ho1%Z.ltb_ge Ho2%Z.leb_gt].
    rewrite Forall_forall in Hg. pose proof (Hg _ Hin) as G1. pose proof (Hg _ Hp') as G2. rewrite <-G1 in G2.
    injection G2 as E1 E2. cbn [full_page raRangeStartChunk raRangeEndChunk] in *. rewrite E1, E2 in *. nia.
  - exfalso. unfold page_at in Hp.
    assert (In (full_page page) (merge_sort R (map full_page pages))) as Hin'.
    { apply list_elem_of_In. rewrite merge_sort_Permutation. apply list_elem_of_In, in_map. by apply list_elem_of_In. }
    apply (find_none _ _ Hp) in Hin'. apply negb_false_iff in Hin'. unfold outside in Hin'.
    apply orb_true_iff in Hin' as [?%Z.ltb_lt|?%Z.leb_le]; lia.
Qed.

Lemma mapped_ids_in n start pages l : 0 <= start -> start + Z.of_nat n < 2 ^ 64 -> start <= l < start + Z.of_nat n ->
  let c := logicalChunkAllocationRecord pages l in
  covered c = true -> zero c = false -> physicalChunkID c <> 0 -> physicalChunkID c ∈ mapped_ids n start pages.
Proof.
  intros Hs He Hl c Hc Hz Hid. revert start Hs He Hl. induction n as [|n IH]; intros start Hs He Hl; [lia|].
  cbn [mapped_ids]. rewrite add64_small by (unfold in_u; lia).
  destruct (Z.eq_dec l start) as [<-|].
  - fold c. rewrite Hc, Hz, (proj2 (Z.eqb_neq _ _) Hid). cbn. left.
  - assert (physicalChunkID c ∈ mapped_ids n (start + 1) pages) by (apply IH; lia).
    destruct (_ || _); [done|by right].
Qed.

Lemma mark_mapping_mono ids v pages cs mapping ref : ref ⊆ mark_mapping ids v pages cs mapping ref.
Proof. unfold mark_mapping. destruct (_ =? 0); [done|]. destruct (chunk_span _ _ _). set_solver. Qed.

Lemma mark_mapping_in ids v pages cs mapping ref replicaID l :
  0 < cs -> replicaID ∈ ids -> in_extent mapping cs l ->
  let c := logicalChunkAllocationRecord pages l in
  covered c = true -> zero c = false -> physicalChunkID c <> 0 ->
  localReplicaPayloadKey replicaID v (emExtentID mapping) (physicalChunkID c) ∈ mark_mapping ids v pages cs mapping ref.
Proof.
  intros Hcs Hr (Ho & Hlen & Hend & Hl) c Hc Hz Hid. unfold mark_mapping. rewrite (proj2 (Z.eqb_neq _ 0)) by lia.
  unfold chunk_span. rewrite add64_small, sub64_small by (unfold in_u; lia).
  set (off := emLogicalOffset mapping) in *. set (last := off + emLengthBytes mapping - 1) in *.
  assert (0 <= off / cs) by (apply Z.div_pos; lia). assert (last / cs <= last) by (apply Z.div_le_upper_bound; nia).
  apply elem_of_union_l, elem_of_list_to_set, list_elem_of_In, in_concat.
  eexists. split.
  - apply in_map, list_elem_of_In, (mapped_ids_in _ _ pages l); [lia|lia|lia|done|done|done].
  - apply (in_map (fun replicaID => localReplicaPayloadKey replicaID v _ _)). by apply list_elem_of_In.
Qed.

Lemma fold_mono {A B} `{Countable B} (f : A -> gset B -> gset B) l acc :
  (forall x acc, acc ⊆ f x acc) -> acc ⊆ fold_left (fun acc x => f x acc) l acc.
Proof.
  intros Hf. revert acc. induction l as [|x l IH]; intros acc; cbn; [done|]. etrans; [apply (Hf x)|apply IH].
Qed.

Lemma fold_in {A B} `{Countable B} (f : A -> gset B -> gset B) l acc x (k : B) :
  (forall x acc, acc ⊆ f x acc) -> x ∈ l -> (forall acc, k ∈ f x acc) -> k ∈ fold_left (fun acc x => f x acc) l acc.
Proof.
  intros Hf Hx Hk. revert acc. induction l as [|y l IH]; intros acc; [by apply not_elem_of_nil in Hx|].
  apply elem_of_cons in Hx as [<-|Hx]; cbn; [|auto]. by apply (fold_mono f l _ Hf), Hk.
Qed.

(** The payload a page maps for an extent of the list is among the marks. *)
Definition marked (ids : list string) (v : string) (mappings : list ExtentMappingRecord) (targets : gset Z)
    (pages : list AllocationPageRecord) (referenced : gset string) : Prop :=
  forall replicaID mapping page l id, replicaID ∈ ids -> mapping ∈ mappings -> targeted targets mapping = true ->
    page ∈ pages -> in_extent mapping (apChunkSizeBytes page) l -> maps_chunk page l id ->
    localReplicaPayloadKey replicaID v (emExtentID mapping) id ∈ referenced.

Lemma marked_mono ids v mappings targets pages ref ref' :
  ref ⊆ ref' -> marked ids v mappings targets pages ref -> marked ids v mappings targets pages ref'.
Proof. intros Hsub Hm replicaID mapping page l id ??????. apply Hsub. by eapply Hm. Qed.

Lemma mark_referenced_spec ids v mappings targets pages ref ref' : pages_ok pages ->
  markReferencedPayloadKeysFromAllocationPages ids v mappings targets pages ref = Ok ref' ->
  ref ⊆ ref' /\ marked ids v mappings targets pages ref'.
Proof.
  intros Hok. unfold markReferencedPayloadKeysFromAllocationPages, resolvedAllocationPagesFromRecords.
  destruct (resolve_records pages None) as [out| |] eqn:Hr; [|done|done]. cbn [mbind].
  apply resolve_records_spec in Hr as [-> (h & _ & Hall)]; [|apply Hok].
  assert (Forall (fun p => (apPageBytes p, apChunkSizeBytes p) = h) pages) as Hg
    by (eapply Forall_impl; [exact Hall|]; naive_solver).
  cbn. match goal with |- context [@merge_sort ?A ?R ?d ?l] => set (sorted := @merge_sort A R d l) end.
  assert (sorted ≡ₚ map full_page pages) as Hperm by apply merge_sort_Permutation.
  assert (forall page l id, page ∈ pages -> maps_chunk page l id ->
    logicalChunkAllocationRecord sorted l = logicalChunkAllocationRecord [full_page page] l) as Hrec
    by (intros; by eapply record_of_page).
  clearbody sorted. destruct sorted as [|first rest].
  { intros [= ->]. split; [done|]. intros replicaID mapping page l id _ _ _ Hp.
    apply Permutation_nil in Hperm. by destruct pages; [apply not_elem_of_nil in Hp|]. }
  assert (exists p0, p0 ∈ pages /\ first = full_page p0) as (p0 & Hp0 & Hfirst).
  { assert (first ∈ map full_page pages) as Hin by (rewrite <-Hperm; left). apply list_elem_of_In, in_map_iff in Hin as (p0 & <- & ?).
    exists p0. split; [by apply list_elem_of_In|done]. }
  intros [= <-]. split.
  - apply (fold_mono (fun mapping acc => mark_mapping ids v _ _ mapping acc)). intros. apply mark_mapping_mono.
  - intros replicaID mapping page l id Hid Hmap Ht Hp Hext Hm.
    apply (fold_in (fun mapping acc => mark_mapping ids v _ _ mapping acc) _ _ mapping).
    + intros. apply mark_mapping_mono.
    + apply list_elem_of_In, filter_In. split; [by apply list_elem_of_In|done].
    + intros acc. replace (raPage first) with p0 by by rewrite Hfirst.
      assert (apChunkSizeBytes p0 = apChunkSizeBytes page /\ 0 < apChunkSizeBytes page) as [-> Hcs].
      { rewrite Forall_forall in Hall. destruct (Hall _ Hp0) as [E1 _], (Hall _ Hp) as (E2 & ? & _). split; [congruence|done]. }
      pose proof (Hrec page l id Hp Hm) as E.
      destruct Hm as (Hc & Hz & Hi & Hne). rewrite <-Hi, <-E. apply mark_mapping_in; rewrite ?E; congruence || done.
Qed.

(** ** What is live *)

Abbreviation caps r := (stCaptures (rStore r)).
Abbreviation extents_of r vid := (volume_records (stExtents (rStore r)) vid emExtentID).

(** The page lists something can be read through: the pages of the volume, the
    pages of its snapshots that are not deleted, and the delta pages of its
    available or materializing clones. *)
Inductive live_pages (r : Repository) (vid : string) : list AllocationPageRecord -> Prop :=
| live_volume : live_pages r vid (volume_records (stPages (rStore r)) vid apPageNo)
| live_snapshot k ix s : cpSnapshotIndex (caps r) !! (vid, k) = Some ix -> sxSnapshotID ix <> "" ->
    cpSnapshots (caps r) !! sxSnapshotID ix = Some s -> snState s <> SnapshotStateDeleted ->
    live_pages r vid (pages_of (cpSnapshotPages (caps r)) (snSnapshotID s))
| live_clone k ix c : cpCloneByVolume (caps r) !! (vid, k) = Some ix -> cxCloneID ix <> "" ->
    cpClones (caps r) !! cxCloneID ix = Some c ->
    clState c = CloneStateAvailable \/ clState c = CloneStateMaterializing ->
    live_pages r vid (pages_of (cpDeltaPages (caps r)) (clCloneID c)).

(** The key of a payload in use on a replica: one a live page maps for an extent
    of the volume, or any payload of an extent when there is no live page. *)
Inductive live_payload (r : Repository) (vid id : string) : string -> Prop :=
| live_mapped pages page mapping l c : live_pages r vid pages -> page ∈ pages -> mapping ∈ extents_of r vid ->
    in_extent mapping (apChunkSizeBytes page) l -> maps_chunk page l c ->
    live_payload r vid id (localReplicaPayloadKey id vid (emExtentID mapping) c)
| live_legacy mapping c : (forall pages, live_pages r vid pages -> pages = []) -> mapping ∈ extents_of r vid ->
    u64 c -> has_slash id = false ->
    live_payload r vid id (localReplicaPayloadKey id vid (emExtentID mapping) c).

Lemma indexed_ids_in {A} (m : gmap (string * string) A) f owner id :
  id ∈ indexed_ids m f owner <-> exists k x, m !! (owner, k) = Some x /\ f x = id.
Proof.
  unfold indexed_ids. rewrite list_elem_of_In, in_map_iff. setoid_rewrite <-list_elem_of_In. split.
  - intros (((o & k) & x) & <- & Hin). rewrite merge_sort_Permutation in Hin.
    apply list_elem_of_In, filter_In in Hin as [Hin%list_elem_of_In%elem_of_map_to_list Ho%String.eqb_eq].
    cbn in *. subst. by exists k, x.
  - intros (k & x & Hx & <-). exists ((owner, k), x). split; [done|]. rewrite merge_sort_Permutation.
    apply list_elem_of_In, filter_In. split; [by apply list_elem_of_In, elem_of_map_to_list|]. apply String.eqb_refl.
Qed.

Lemma load_records_spec {A} (get : string -> repo A) del ids seen r r' out :
  (forall id r1 r2 x, get id r1 = (r2, x) -> r2 = r1) -> load_records get del ids seen r = (r', Ok out) ->
  r' = r /\
  (forall id, id ∈ ids -> id <> "" -> id ∉ seen -> exists a, get id r = (r, Ok a) /\ (del a = false -> a ∈ out)) /\
  (forall a, a ∈ out -> exists id, id ∈ ids /\ id <> "" /\ get id r = (r, Ok a) /\ del a = false).
Proof.
  intros Hget. revert seen r' out. induction ids as [|id ids IH]; intros seen r' out; cbn [load_records].
  { intros [= <- <-]. split_and!; [done|by intros ? ?%not_elem_of_nil|by intros ? ?%not_elem_of_nil]. }
  destruct (String.eqb id "" || bool_decide (id ∈ seen)) eqn:Hskip.
  - intros E. destruct (IH _ _ _ E) as (-> & Ha & Hb). split_and!; [done| |].
    + intros id' [->|Hin]%elem_of_cons Hne Hseen; [|by apply Ha].
      apply orb_true_iff in Hskip as [?%String.eqb_eq|?%bool_decide_eq_true]; done.
    + intros a Hin. destruct (Hb a Hin) as (id' & ? & ?). exists id'. split; [by right|done].
  - apply orb_false_iff in Hskip as [Hne%String.eqb_neq Hns%bool_decide_eq_false].
    unfold bind_act. destruct (get id r) as [r1 [a|e|]] eqn:Eg; [|done|done].
    pose proof (Hget _ _ _ _ Eg) as ->. destruct (load_records _ _ _ _ r) as [r2 [rest|e|]] eqn:El; [|done|done].
    destruct (IH _ _ _ El) as (-> & Ha & Hb). intros [= <- <-].
    assert (forall x, x ∈ rest -> x ∈ (if del a then rest else a :: rest)) as Hsub by (destruct (del a); [done|by right]).
    split_and!; [done| |].
    + intros id' Hin Hne' Hseen. destruct (decide (id' = id)) as [->|Hd].
      * exists a. split; [done|]. intros ->. left.
      * apply elem_of_cons in Hin as [->|Hin]; [done|].
        destruct (Ha id' Hin Hne') as (b & ? & ?); [set_solver|]. exists b. split; [done|]. auto.
    + intros x Hx. destruct (del a) eqn:Hdel.
      * destruct (Hb x Hx) as (id' & ? & ?). exists id'. split; [by right|done].
      * apply elem_of_cons in Hx as [->|Hx]; [by exists id; split; [left|]|].
        destruct (Hb x Hx) as (id' & ? & ?). exists id'. split; [by right|done].
Qed.

Lemma load_pure {A} (get : string -> repo A) del ids seen r r' x :
  (forall id r1 r2 x, get id r1 = (r2, x) -> r2 = r1) -> load_records get del ids seen r = (r', x) -> r' = r.
Proof.
  intros Hget. revert seen r' x. induction ids as [|id ids IH]; intros seen r' x; cbn [load_records].
  { by intros [= <- _]. }
  destruct (_ || _); [by apply IH|]. unfold bind_act. destruct (get id r) as [r1 y] eqn:Eg. pose proof (Hget _ _ _ _ Eg) as ->.
  destruct y; [|by intros [= <- _]|by intros [= <- _]].
  destruct (load_records get del ids _ r) as [r2 z] eqn:El. apply IH in El as ->. by destruct z; intros [= <- _].
Qed.

Lemma get_snapshot_pure id r r' x : GetSnapshotRecord id r = (r', x) -> r' = r.
Proof.
  unfold GetSnapshotRecord, validateSnapshotID, readSnapshotRecord, get_capture, bind_act.
  destruct (valid_id id); cbn; [|by intros [= <- _]]. unfold get_record. by destruct (_ !! _); intros [= <- _].
Qed.
Lemma get_clone_pure id r r' x : GetCloneRecord id r = (r', x) -> r' = r.
Proof.
  unfold GetCloneRecord, validateCloneID, readCloneRecord, get_capture, bind_act.
  destruct (valid_id id); cbn; [|by intros [= <- _]]. unfold get_record. by destruct (_ !! _); intros [= <- _].
Qed.
Lemma get_snapshot_Ok id r s : GetSnapshotRecord id r = (r, Ok s) -> cpSnapshots (caps r) !! id = Some s.
Proof.
  unfold GetSnapshotRecord, validateSnapshotID, readSnapshotRecord, get_capture, bind_act.
  destruct (valid_id id); cbn; [|done]. unfold get_record. by destruct (_ !! _); intros [= ->].
Qed.
Lemma get_clone_Ok id r c : GetCloneRecord id r = (r, Ok c) -> cpClones (caps r) !! id = Some c.
Proof.
  unfold GetCloneRecord, validateCloneID, readCloneRecord, get_capture, bind_act.
  destruct (valid_id id); cbn; [|done]. unfold get_record. by destruct (_ !! _); intros [= ->].
Qed.

(** ** A program logic for sweeps *)

(** What a sweep relies on: reads and listings leave the payloads alone, a
    listing returns keys with the prefix, and a delete changes at most its key.
    Any of them may fail. *)
Class SweepLaws {W : Type} (stores : gmap string (PayloadStore W))
    (view : W -> string -> string -> option bytes) : Prop := {
  sweep_get : forall id st key w i k, stores !! id = Some st ->
    view (@store_get _ (psStore st) key w).1 i k = view w i k;
  sweep_list : forall id st prefix cursor limit w i k, stores !! id = Some st ->
    view (psList st prefix cursor limit w).1 i k = view w i k;
  sweep_list_prefix : forall id st prefix cursor limit w found, stores !! id = Some st ->
    (psList st prefix cursor limit w).2 = Ok found -> Forall (fun k => String.prefix prefix k = true) found.1;
  sweep_delete : forall id st key w i k, stores !! id = Some st -> i <> id \/ k <> key ->
    view (@store_delete _ (psStore st) key w).1 i k = view w i k }.

#[export] Instance memory_sweep_laws ids : SweepLaws (memory_replicas ids) cluster_view.
Proof.
  split.
  - intros id st key w i k ->%memory_replicas_lookup. cbn. rewrite cluster_view_on_replica.
    by destruct (decide (i = id)) as [->|].
  - intros id st prefix cursor limit w i k ->%memory_replicas_lookup. cbn. rewrite cluster_view_on_replica.
    by destruct (decide (i = id)) as [->|].
  - intros id st prefix cursor limit w found ->%memory_replicas_lookup. cbn. intros [= <-].
    apply Forall_forall. intros k Hk. unfold List in Hk.
    assert (k ∈ matching_keys prefix (default NewMemoryStore (w !! id))) as Hm.
    { assert (forall n l, k ∈ take n l \/ k ∈ drop n l -> k ∈ l) as Hsub.
      { intros n l. rewrite <-(take_drop n l) at 3. rewrite elem_of_app. done. }
      destruct (_ || _); cbn [fst] in Hk; [|apply (or_introl (B := k ∈ drop _ _)), Hsub in Hk];
        apply (or_intror (A := k ∈ take _ _)), Hsub in Hk; exact Hk. }
    by apply StoreFacts.matching_keys_spec in Hm as [? _].
  - intros id st key w i k ->%memory_replicas_lookup Hne. cbn. rewrite cluster_view_on_replica.
    destruct (decide (i = id)) as [->|]; [|done]. apply lookup_delete_ne. by destruct Hne as [[]|Hne].
Qed.

(** The parts of the store a sweep reads pages and extents from. *)
Definition gc_data (s : store) := (stExtents s, stPages s, stCaptures s).

(** The operation records name extents with 64-bit ids. *)
Definition ops_ok (s : store) : Prop :=
  forall k op, stOps s !! k = Some op -> Forall u64 (moAffectedExtentIDs op).

Section Logic.
Context {W : Type} (stores : gmap string (PayloadStore W)) (view : W -> string -> string -> option bytes).
Context `{!SweepLaws stores view}.
Context (r0 : Repository) (protected : string -> string -> Prop).
Abbreviation gact := (act (Repository * W) gc_error).

Definition stable (r : Repository) : Prop := same_on gc_data r0 r /\ ops_ok (rStore r).

Definition kept (w w' : W) : Prop := forall id key, protected id key -> view w' id key = view w id key.

Definition holds {A} (m : gact A) (Q : A -> Prop) : Prop :=
  forall r w s' x, stable r -> m (r, w) = (s', x) -> stable s'.1 /\ kept w s'.2 /\ forall a, x = Ok a -> Q a.

Lemma holds_ret {A} (a : A) (Q : A -> Prop) : Q a -> holds (ret_act a) Q.
Proof. intros HQ r w s' x Hr [= <- <-]. split_and!; [done|done|]. by intros ? [= <-]. Qed.

Lemma holds_lift {A} (x : result gc_error A) (Q : A -> Prop) : (forall a, x = Ok a -> Q a) -> holds (lift_act x) Q.
Proof. intros HQ r w s' y Hr [= <- <-]. done. Qed.

Lemma holds_bind {A B} (m : gact A) (f : A -> gact B) (Q : A -> Prop) (Q' : B -> Prop) :
  holds m Q -> (forall a, Q a -> holds (f a) Q') -> holds (bind_act m f) Q'.
Proof.
  intros Hm Hf r w s' x Hr. unfold bind_act. destruct (m (r, w)) as [[r1 w1] [a|e|]] eqn:E.
  - destruct (Hm _ _ _ _ Hr E) as (Hr1 & Hk & HQ). intros E2.
    destruct (Hf a (HQ a eq_refl) _ _ _ _ Hr1 E2) as (Hr2 & Hk2 & HQ2). split_and!; [done| |done].
    intros id key Hp. rewrite Hk2 by done. by apply Hk.
  - intros [= <- <-]. destruct (Hm _ _ _ _ Hr E) as (Hr1 & Hk & _). split_and!; [done|done|by intros ? [=]].
  - intros [= <- <-]. destruct (Hm _ _ _ _ Hr E) as (Hr1 & Hk & _). split_and!; [done|done|by intros ? [=]].
Qed.

Lemma holds_weaken {A} (m : gact A) (Q Q' : A -> Prop) : holds m Q -> (forall a, Q a -> Q' a) -> holds m Q'.
Proof. intros Hm HQ r w s' x Hr E. destruct (Hm _ _ _ _ Hr E) as (? & ? & H). naive_solver. Qed.

Lemma holds_repo {A} (m : repo A) (Q : A -> Prop) :
  (forall r r' x, stable r -> m r = (r', x) -> stable r' /\ forall a, x = Ok a -> Q a) -> holds (on_repo m) Q.
Proof.
  intros Hm r w s' x Hr. unfold on_repo. destruct (m r) as [r1 y] eqn:E. intros [= <- <-].
  destruct (Hm _ _ _ Hr E) as [Hr1 HQ]. split_and!; [done|done|]. intros a Ha. apply HQ. destruct y; cbn in *; congruence.
Qed.

Lemma holds_payloads {A} (m : act W Gateway.svc_error A) (Q : A -> Prop) :
  (forall w, kept w (m w).1) -> (forall w a, (m w).2 = Ok a -> Q a) -> holds (on_payloads m) Q.
Proof.
  intros Hm HQ r w s' x Hr. unfold on_payloads. destruct (m w) as [w1 y] eqn:E. intros [= <- <-].
  split_and!; [done| |].
  - specialize (Hm w). by rewrite E in Hm.
  - intros a Ha. apply (HQ w). rewrite E. destruct y; cbn in *; congruence.
Qed.

Lemma holds_error {A} (m : gact A) h (Q : A -> Prop) :
  holds m Q -> (forall e, holds (h e) (fun _ => True)) -> holds (on_error m h) Q.
Proof.
  intros Hm Hh r w s' x Hr. unfold on_error. destruct (m (r, w)) as [[r1 w1] y] eqn:E.
  destruct (Hm _ _ _ _ Hr E) as (Hr1 & Hk & HQ). destruct y as [a|e|]; [by intros [= <- <-]| |by intros [= <- <-]].
  destruct (h e (r1, w1)) as [[r2 w2] z] eqn:E2. destruct (Hh e _ _ _ _ Hr1 E2) as (Hr2 & Hk2 & _).
  intros Heq. assert (s' = (r2, w2) /\ forall a, x <> Ok a) as [-> Hx] by (destruct z; naive_solver).
  split_and!; [done| |by intros a Ha; destruct (Hx a)].
  intros id key Hp. cbn [snd] in *. rewrite Hk2 by done. by apply Hk.
Qed.

(** *** Operation records *)

Lemma put_operation_stable op r r' x : Forall u64 (moAffectedExtentIDs op) -> stable r ->
  PutMutationOperation op r = (r', x) -> stable r'.
Proof.
  intros Hop [Hd Ho]. unfold PutMutationOperation, RunInTransaction.
  destruct (writeMutationOperationWithIndex op r) as [r1 y] eqn:E.
  assert (stable r1) as H1.
  { revert E. unfold writeMutationOperationWithIndex. destruct (_ || _); [intros [= <- _]; done|].
    destruct (negb _); [intros [= <- _]; done|].
    assert (forall k (rec : MutationOperationRecord) r', moAffectedExtentIDs rec = moAffectedExtentIDs op ->
      gc_data (rStore r') = gc_data (rStore r) -> stOps (rStore r') = <[k := rec]> (stOps (rStore r)) -> stable r') as Hput.
    { intros k rec r2 Hrec Hd2 Ho2. split; [unfold same_on in *; congruence|]. intros k' op'. rewrite Ho2.
      intros [[_ <-]|[_ H]]%lookup_insert_Some; [by rewrite Hrec|by eapply Ho]. }
    destruct (stOpIndex _ !! _) as [x1|].
    - destruct (_ || _); [intros [= <- _]; done|]. intros [= <- _]. eapply Hput; cycle 2; reflexivity.
    - intros [= <- _]. eapply Hput; cycle 2; reflexivity. }
  destruct y; intros [= <- _]; [done| |]; (split; [exact Hd|exact Ho]).
Qed.

Lemma put_tracked_holds op : Forall u64 (moAffectedExtentIDs op) -> holds (put_tracked op) (fun _ => True).
Proof.
  intros Hop r w s' x Hr. unfold put_tracked. destruct (PutMutationOperation op r) as [r1 y] eqn:E. intros [= <- _].
  split_and!; [|done|done]. by eapply put_operation_stable.
Qed.

(** *** Candidates *)

Context (vid : string) (fuel : nat).

(** A candidate of a sweep of the extents [targets] on replica [id]. *)
Definition candidate (targets : gset Z) (id key : string) : Prop :=
  targets = ∅ \/ exists e, e ∈ targets /\ String.prefix (extent_prefix id vid e) key = true.

Lemma list_loop_holds n st id prefix cursor out (P : string -> Prop) : stores !! id = Some st -> Forall P out ->
  (forall k, String.prefix prefix k = true -> P k) -> holds (list_loop n st prefix cursor out) (Forall P).
Proof.
  intros Hst Hout HP. revert cursor out Hout. induction n as [|n IH]; intros cursor out Hout; cbn [list_loop].
  { apply holds_lift. done. }
  apply (holds_bind _ _ (fun found => Forall P found.1)).
  - apply holds_payloads; [intros w i k _; by eapply sweep_list|]. intros w found Hf.
    eapply Forall_impl; [by eapply sweep_list_prefix|exact HP].
  - intros found Hf. destruct (String.eqb _ _); [apply holds_ret|apply IH]; by apply Forall_app.
Qed.

Lemma append_new_Forall (P : string -> Prop) keys found : Forall P keys -> Forall P found -> Forall P (append_new keys found).
Proof.
  intros Hk Hf. revert keys Hk. induction Hf as [|k found Hp Hf IH]; intros keys Hk; cbn; [done|].
  apply IH. case_bool_decide; [done|]. apply Forall_app. split; [done|by constructor].
Qed.

Lemma scan_chunks_holds st id (P : string -> Prop) chunkIDs keys : stores !! id = Some st -> Forall P keys ->
  (forall k, P k) -> holds (scan_chunks fuel st id vid chunkIDs keys) (Forall P).
Proof.
  intros Hst Hk HP. revert keys Hk. induction chunkIDs as [|c ids IH]; intros keys Hk; cbn [scan_chunks]; [by apply holds_ret|].
  apply (holds_bind _ _ (Forall P)); [by apply (list_loop_holds _ _ id)|]. intros found _. apply IH.
  apply append_new_Forall; [done|]. by apply Forall_forall.
Qed.

Lemma probe_holds st id (P : string -> Prop) probes keys : stores !! id = Some st -> Forall P keys -> Forall P probes ->
  holds (probe_keys st probes keys) (Forall P).
Proof.
  intros Hst Hk HP. revert keys Hk. induction HP as [|k probes Hp HP IH]; intros keys Hk; cbn [probe_keys]; [by apply holds_ret|].
  apply (holds_bind _ _ (fun _ => True)); [apply holds_payloads; [intros w i k' _; by eapply sweep_get|done]|].
  intros v _. apply IH. destruct (isSome v); [|done]. apply append_new_Forall; [done|by constructor].
Qed.

Lemma scan_extents_holds st id (P : string -> Prop) extentIDs keys : stores !! id = Some st -> Forall P keys ->
  (forall e k, e ∈ extentIDs -> String.prefix (extent_prefix id vid e) k = true -> P k) ->
  holds (scan_extents fuel st id vid extentIDs keys) (Forall P).
Proof.
  intros Hst. revert keys. induction extentIDs as [|e ids IH]; intros keys Hk HP; cbn [scan_extents]; [by apply holds_ret|].
  apply (holds_bind _ _ (Forall P)).
  - apply (list_loop_holds _ _ id); [done|constructor|]. intros k. apply HP. left.
  - intros found Hf. apply IH; [by apply append_new_Forall|]. intros e' k He'. apply HP. by right.
Qed.

Lemma sorted_keys_in x (values : gset Z) : x ∈ sortedUint64SetKeys values <-> x ∈ values.
Proof. unfold sortedUint64SetKeys. rewrite merge_sort_Permutation. apply elem_of_elements. Qed.

Lemma own_prefix id e c : String.prefix (extent_prefix id vid e) (localReplicaPayloadKey id vid e c) = true.
Proof.
  unfold extent_prefix, volume_prefix, localReplicaPayloadKey. rewrite !string_app_assoc, !prefix_app.
  by destruct (format_020d c).
Qed.

Lemma candidates_holds st id targets chunkIDs : stores !! id = Some st ->
  holds (listCandidatePayloadKeys fuel st id vid targets chunkIDs) (Forall (candidate targets id)).
Proof.
  intros Hst. unfold listCandidatePayloadKeys, listExactChunkCandidateKeys.
  destruct (bool_decide_reflect (targets = ∅)) as [->|Hne]; cbn [andb].
  - assert (forall k, candidate ∅ id k) as Hall by (intros; by left).
    case_bool_decide; cbn [negb]; [by apply (list_loop_holds _ _ id)|]. by apply scan_chunks_holds.
  - case_bool_decide; cbn [negb].
    + apply scan_extents_holds; [done|constructor|]. intros e k He%sorted_keys_in Hp. right. by exists e.
    + apply (probe_holds _ id); [done|constructor|]. apply Forall_forall. intros k Hk%list_elem_of_In.
      apply in_concat in Hk as (l & (c & <- & _)%in_map_iff & (e & <- & He%list_elem_of_In%sorted_keys_in)%in_map_iff).
      right. exists e. split; [done|apply own_prefix].
Qed.

(** *** Deleting *)

Context (l : live).

(** The sweep does not delete the key. *)
Definition spared (key : string) : Prop :=
  match parseLocalReplicaPayloadKey key with
  | None => True
  | Some (_, keyVolumeID, extentID, _) => keyVolumeID <> vid \/ keep l key extentID = true
  end.

Lemma sweep_keys_holds st id keys result deleted : stores !! id = Some st ->
  Forall (fun key => protected id key -> spared key) keys ->
  holds (sweep_keys st vid l keys result deleted) (fun _ => True).
Proof.
  intros Hst Hk. revert result deleted. induction Hk as [|key keys Hs Hk IH]; intros result deleted; cbn [sweep_keys];
    [by apply holds_ret|].
  unfold spared in Hs. destruct (parseLocalReplicaPayloadKey key) as [[[[? v] e] c]|]; [|done].
  destruct (String.eqb_spec v vid) as [->|]; cbn [negb]; [|done].
  destruct (keep l key e) eqn:Hkeep; [done|].
  apply (holds_bind _ _ (fun _ => True)); [|done]. apply holds_payloads; [|done].
  intros w i k Hp. apply (sweep_delete _ _ _ _ _ _ Hst). destruct (decide (i = id)) as [->|]; [|by left].
  right. intros ->. destruct (Hs Hp) as [?|?]; congruence.
Qed.

Context (targets : gset Z).
Hypothesis protected_spared : forall id st key, stores !! id = Some st -> protected id key ->
  candidate targets id key -> spared key.

Lemma sweep_replicas_holds hints chunkIDs ids p :
  holds (sweep_replicas stores fuel vid l hints targets chunkIDs ids p) (fun _ => True).
Proof.
  revert p. induction ids as [|id ids IH]; intros p; cbn [sweep_replicas]; [by apply holds_ret|].
  apply (holds_bind _ _ (fun _ => True)); [|done]. unfold sweep_replica.
  destruct (stores !! id) as [st|] eqn:Hst; [|by apply holds_ret].
  apply (holds_bind _ _ (Forall (candidate targets id))); [by apply candidates_holds|]. intros keys Hk.
  apply (holds_bind _ _ (fun _ => True)); [|intros; by apply holds_ret]. apply (sweep_keys_holds _ id); [done|].
  rewrite merge_sort_Permutation. eapply Forall_impl; [exact Hk|]. intros key Hc Hp. by eapply protected_spared.
Qed.

Context (nowUnix : Z) (err_text : gc_error -> string).

Definition op_ok (op : option MutationOperationRecord) : Prop :=
  Forall u64 (moAffectedExtentIDs (default zero_MutationOperationRecord op)).

Lemma fail_tracked_holds op e : op_ok op -> holds (fail_tracked (W := W) nowUnix err_text op e) (fun _ => True).
Proof. intros Hop. destruct op as [op|]; [by apply put_tracked_holds|by apply holds_ret]. Qed.

Lemma put_begun_stable op r r' x : Forall u64 (moAffectedExtentIDs op) -> stable r -> put_begun op r = (r', x) ->
  stable r' /\ forall a, x = Ok a -> op_ok a.
Proof.
  intros Hop Hr. unfold put_begun. destruct (PutMutationOperation op r) as [r1 y] eqn:E.
  apply put_operation_stable in E; [|done|done].
  destruct y; intros [= <- <-]; (split; [done|]); intros o; [by intros [= <-]|intros [= <-]; constructor|done].
Qed.

Lemma no_operation r r' (x : result meta_error (option MutationOperationRecord)) : stable r -> (r, Ok None) = (r', x) ->
  stable r' /\ forall a, x = Ok a -> op_ok a.
Proof. intros Hr [= <- <-]. split; [done|]. intros a [= <-]. constructor. Qed.

Lemma begin_batch_holds index parent batch : Forall u64 (moAffectedExtentIDs parent) ->
  holds (on_repo (beginSweepBatchMutationOperation nowUnix vid index parent batch)) op_ok.
Proof.
  intros Hp. apply holds_repo. intros r r' x Hr. unfold beginSweepBatchMutationOperation.
  case_bool_decide; [by apply no_operation|].
  destruct (GetMutationOperation _ _ r) as [? [op|e|]].
  - destruct (String.eqb _ _); [by apply no_operation|]. by apply put_begun_stable.
  - destruct e; try by apply no_operation. by apply put_begun_stable.
  - intros [= <- <-]. by split.
Qed.

Lemma sweep_batches_holds op hints ids batches p : op_ok op ->
  holds (sweep_batches stores nowUnix fuel err_text vid op l hints targets ids batches p) (fun _ => True).
Proof.
  intros Hop. revert p. induction batches as [|b batches IH]; intros p; cbn [sweep_batches]; [by apply holds_ret|].
  apply (holds_bind _ _ op_ok); [by apply begin_batch_holds|]. intros bop Hb.
  apply (holds_bind _ _ (fun _ => True)).
  { apply holds_error; [apply sweep_replicas_holds|]. intros e.
    apply (holds_bind _ _ (fun _ => True)); [by apply fail_tracked_holds|]. intros _ _. by apply fail_tracked_holds. }
  intros p' _. apply (holds_bind _ _ (fun _ => True)); [|done].
  destruct bop as [bop|]; [by apply put_tracked_holds|by apply holds_ret].
Qed.

End Logic.

(** ** The whole sweep *)

Lemma format_no_slash v : has_slash (VolumeId.Format v) = false.
Proof.
  unfold has_slash, VolumeId.Format. rewrite list_ascii_of_string_of_list_ascii.
  pose proof (VolumeId.format_digits (wrap32 v)) as H.
  induction H as [|c l Hc H IH]; [done|]. cbn [existsb]. apply orb_false_iff. split; [|exact IH].
  destruct (Ascii.eqb_spec "/" c) as [<-|]; [|done]. apply lower_hex_code in Hc. change (code _) with 47 in Hc. lia.
Qed.

Lemma canon_format v : canon (VolumeId.Format v) = VolumeId.Format v.
Proof.
  unfold mustCanonicalVolumeID. rewrite VolumeId.Parse_format. unfold VolumeId.Format.
  by rewrite (wrap32_small (wrap32 v)) by apply wrap32_range.
Qed.

Section Sweep.
Context {W : Type} (stores : gmap string (PayloadStore W)) (view : W -> string -> string -> option bytes).
Context `{!SweepLaws stores view}.
Context (r0 : Repository) (v : Z) (chunkBatchSize nowUnix : Z) (fuel : nat) (err_text : gc_error -> string).
Let vid := VolumeId.Format v.
Hypothesis pages_fine : forall pages, live_pages r0 vid pages -> pages_ok pages.
Hypothesis extents_fine : forall mapping, mapping ∈ extents_of r0 vid -> u64 (emExtentID mapping).

Abbreviation Holds := (holds view r0 (live_payload r0 vid)).
Abbreviation ids := ((map_to_list stores).*1).
Abbreviation Stable := (stable r0).

Lemma stable_data r : Stable r -> stExtents (rStore r) = stExtents (rStore r0) /\
  stPages (rStore r) = stPages (rStore r0) /\ caps r = caps r0.
Proof. intros [H _]. unfold same_on, gc_data in H. by injection H. Qed.

Lemma list_extents_holds : Holds (on_repo (ListExtentMappings vid)) (fun ms => ms = extents_of r0 vid).
Proof.
  apply holds_repo. intros r r' x Hr [= <- <-]. split; [done|]. intros a [= <-].
  by destruct (stable_data r Hr) as (-> & _ & _).
Qed.

Lemma list_pages_holds : Holds (on_repo (ListAllocationPages vid))
  (fun ps => ps = volume_records (stPages (rStore r0)) vid apPageNo).
Proof.
  apply holds_repo. intros r r' x Hr [= <- <-]. split; [done|]. intros a [= <-].
  by destruct (stable_data r Hr) as (_ & -> & _).
Qed.

Lemma list_snapshot_pages_holds id : Holds (on_repo (ListSnapshotAllocationPages id))
  (fun ps => ps = pages_of (cpSnapshotPages (caps r0)) id).
Proof.
  apply holds_repo. intros r r' x Hr. unfold ListSnapshotAllocationPages, validateSnapshotID, bind_act.
  destruct (valid_id id); intros [= <- <-]; (split; [done|]); intros a; [|done]. intros [= <-].
  by destruct (stable_data r Hr) as (_ & _ & ->).
Qed.

Lemma list_delta_pages_holds id : Holds (on_repo (ListCloneDeltaAllocationPages id))
  (fun ps => ps = pages_of (cpDeltaPages (caps r0)) id).
Proof.
  apply holds_repo. intros r r' x Hr. unfold ListCloneDeltaAllocationPages, validateCloneID, bind_act.
  destruct (valid_id id); intros [= <- <-]; (split; [done|]); intros a; [|done]. intros [= <-].
  by destruct (stable_data r Hr) as (_ & _ & ->).
Qed.

(** The snapshots and clones listed are the live ones. *)
Definition snapshots_ok (out : list SnapshotRecord) : Prop :=
  (forall k ix s, cpSnapshotIndex (caps r0) !! (vid, k) = Some ix -> sxSnapshotID ix <> "" ->
     cpSnapshots (caps r0) !! sxSnapshotID ix = Some s -> snState s <> SnapshotStateDeleted -> s ∈ out) /\
  (forall s, s ∈ out -> live_pages r0 vid (pages_of (cpSnapshotPages (caps r0)) (snSnapshotID s))).

Lemma list_snapshots_holds : Holds (on_repo (ListSnapshotRecords vid false)) snapshots_ok.
Proof.
  apply holds_repo. intros r r' x Hr. unfold ListSnapshotRecords.
  assert (String.eqb (TrimSpace vid) "" = false) as ->.
  { apply String.eqb_neq. unfold vid. rewrite VolumeId.trim_format. intros E.
    pose proof (VolumeId.length_format v) as Hl. by rewrite E in Hl. }
  cbn [negb]. unfold bind_act. unfold vid at 1. rewrite canon_format. fold vid.
  destruct (stable_data r Hr) as (_ & _ & Hc).
  destruct (load_records _ _ _ _ r) as [r1 y] eqn:E.
  assert (Stable r1) as Hr1.
  { eapply load_pure in E; [by subst|]. apply get_snapshot_pure. }
  destruct y as [out|e|]; intros [= <- <-]; (split; [done|]); intros a; [|done|done]. intros [= <-].
  apply load_records_spec in E as (-> & Ha & Hb); [|apply get_snapshot_pure]. unfold snapshots_ok. rewrite <-Hc. split.
  - intros k ix s Hix Hne Hs Hst. rewrite merge_sort_Permutation.
    destruct (Ha (sxSnapshotID ix)) as (s' & Hg & Hin).
    + apply indexed_ids_in. by exists k, ix.
    + done.
    + apply not_elem_of_empty.
    + apply get_snapshot_Ok in Hg. rewrite Hs in Hg. injection Hg as <-. apply Hin. cbn [negb andb].
      by apply String.eqb_neq.
  - intros s Hs. rewrite merge_sort_Permutation in Hs. destruct (Hb s Hs) as (id & Hid & Hne & Hg & Hdel).
    apply indexed_ids_in in Hid as (k & ix & Hix & <-). apply get_snapshot_Ok in Hg.
    rewrite Hc in *. apply (live_snapshot r0 vid k ix s); [done|done|done|]. by apply String.eqb_neq.
Qed.

Definition readable_clone (c : CloneRecord) : Prop :=
  clState c = CloneStateAvailable \/ clState c = CloneStateMaterializing.

Definition clones_ok (out : list CloneRecord) : Prop :=
  (forall k ix c, cpCloneByVolume (caps r0) !! (vid, k) = Some ix -> cxCloneID ix <> "" ->
     cpClones (caps r0) !! cxCloneID ix = Some c -> readable_clone c -> c ∈ out) /\
  (forall c, c ∈ out -> readable_clone c -> live_pages r0 vid (pages_of (cpDeltaPages (caps r0)) (clCloneID c))).

Lemma list_clones_holds : Holds (on_repo (ListCloneRecords "" vid false)) clones_ok.
Proof.
  apply holds_repo. intros r r' x Hr. unfold ListCloneRecords.
  assert (String.eqb (TrimSpace vid) "" = false) as ->.
  { apply String.eqb_neq. unfold vid. rewrite VolumeId.trim_format. intros E.
    pose proof (VolumeId.length_format v) as Hl. by rewrite E in Hl. }
  change (String.eqb (TrimSpace "") "") with true. cbn [negb].
  assert (CanonicalVolumeID vid r = (r, Ok vid)) as Hcanon.
  { unfold CanonicalVolumeID, vid. rewrite VolumeId.Parse_format. unfold ret_act. do 2 f_equal.
    unfold VolumeId.Format. by rewrite (wrap32_small (wrap32 v)) by apply wrap32_range. }
  unfold bind_act. rewrite Hcanon. assert (canon vid = vid) as -> by apply canon_format.
  destruct (stable_data r Hr) as (_ & _ & Hc).
  destruct (load_records _ _ _ _ r) as [r1 y] eqn:E.
  assert (Stable r1) as Hr1.
  { eapply load_pure in E; [by subst|]. apply get_clone_pure. }
  destruct y as [out|e|]; intros [= <- <-]; (split; [done|]); intros a; [|done|done]. intros [= <-].
  apply load_records_spec in E as (-> & Ha & Hb); [|apply get_clone_pure]. unfold clones_ok. rewrite <-Hc. split.
  - intros k ix c Hix Hne Hs Hst. rewrite merge_sort_Permutation.
    destruct (Ha (cxCloneID ix)) as (c' & Hg & Hin).
    + apply indexed_ids_in. by exists k, ix.
    + done.
    + apply not_elem_of_empty.
    + apply get_clone_Ok in Hg. rewrite Hs in Hg. injection Hg as <-. apply Hin. cbn [negb andb].
      by destruct Hst as [-> | ->].
  - intros c Hs Hst. rewrite merge_sort_Permutation in Hs. destruct (Hb c Hs) as (id & Hid & Hne & Hg & _).
    apply indexed_ids_in in Hid as (k & ix & Hix & <-). apply get_clone_Ok in Hg.
    rewrite Hc in *. by apply (live_clone r0 vid k ix c).
Qed.

(** *** The marks *)

Context (targets : gset Z).

(** The pages in [done] are marked, and decide when there are any. *)
Definition marks_ok (finished : list AllocationPageRecord -> Prop) (m : marks) : Prop :=
  (forall pages, finished pages -> marked ids vid (extents_of r0 vid) targets pages m.1 /\ (pages <> [] -> m.2 = true)) /\
  (m.2 = true -> exists pages, live_pages r0 vid pages /\ pages <> []).

Lemma mark_pages_holds pages finished m : live_pages r0 vid pages -> marks_ok finished m ->
  Holds (mark_pages stores vid (extents_of r0 vid) targets pages m)
    (fun m' => marks_ok (fun p => finished p \/ p = pages) m').
Proof.
  intros Hlive [Hd Hn]. unfold mark_pages. destruct (Z.eqb_spec (zlen pages) 0) as [Hz|Hz].
  - apply Z.eq_le_incl, zlen_nil_inv in Hz as ->. apply holds_ret. split; [|done]. intros p [Hp| ->]; [by apply Hd|].
    split; [|done]. intros ???????? H%not_elem_of_nil; done.
  - apply (holds_bind _ _ _ _ _ (fun ref => m.1 ⊆ ref /\ marked ids vid (extents_of r0 vid) targets pages ref)).
    + apply holds_lift. intros ref E. by eapply mark_referenced_spec; [apply pages_fine|].
    + intros ref [Hsub Hmark]. apply holds_ret. split; cbn [fst snd].
      * intros p [Hp| ->]; split; try done. by eapply marked_mono, Hd.
      * intros _. exists pages. split; [done|]. by intros ->.
Qed.

Lemma marks_weaken f f' m : marks_ok f m -> (forall p, f' p -> f p) -> marks_ok f' m.
Proof. intros [H1 H2] Hf. split; [|done]. intros p Hp. by apply H1, Hf. Qed.

Lemma mark_snapshots_holds snapshots finished m :
  (forall s, s ∈ snapshots -> live_pages r0 vid (pages_of (cpSnapshotPages (caps r0)) (snSnapshotID s))) ->
  marks_ok finished m ->
  Holds (mark_snapshots stores vid (extents_of r0 vid) targets snapshots m)
    (marks_ok (fun p => finished p \/ exists s, s ∈ snapshots /\ p = pages_of (cpSnapshotPages (caps r0)) (snSnapshotID s))).
Proof.
  intros Hlive. revert finished m. induction snapshots as [|s snapshots IH]; intros finished m Hm; cbn [mark_snapshots].
  { apply holds_ret. eapply marks_weaken; [exact Hm|]. intros p [?|(? & ?%not_elem_of_nil & _)]; done. }
  eapply holds_bind; [apply list_snapshot_pages_holds|]. intros pages ->.
  eapply holds_bind; [apply mark_pages_holds; [apply Hlive; left|exact Hm]|]. intros m' Hm'.
  eapply holds_weaken; [apply IH; [|exact Hm']|].
  - intros s' Hs'. apply Hlive. by right.
  - intros m2 Hm2. eapply marks_weaken; [exact Hm2|]. intros p [?|(s' & [->|?]%elem_of_cons & ->)]; eauto.
Qed.

Lemma mark_clones_holds clones finished m :
  (forall c, c ∈ clones -> readable_clone c -> live_pages r0 vid (pages_of (cpDeltaPages (caps r0)) (clCloneID c))) ->
  marks_ok finished m ->
  Holds (mark_clones stores vid (extents_of r0 vid) targets clones m)
    (marks_ok (fun p => finished p \/ exists c, c ∈ clones /\ readable_clone c /\
                                   p = pages_of (cpDeltaPages (caps r0)) (clCloneID c))).
Proof.
  intros Hlive. revert finished m. induction clones as [|c clones IH]; intros finished m Hm; cbn [mark_clones].
  { apply holds_ret. eapply marks_weaken; [exact Hm|]. intros p [?|(? & ?%not_elem_of_nil & _)]; done. }
  assert (forall c', c' ∈ clones -> readable_clone c' ->
    live_pages r0 vid (pages_of (cpDeltaPages (caps r0)) (clCloneID c'))) as Hrest by (intros; apply Hlive; [by right|done]).
  destruct (String.eqb_spec (clState c) CloneStateAvailable) as [Ha|Ha];
    destruct (String.eqb_spec (clState c) CloneStateMaterializing) as [Hb|Hb]; cbn [negb andb]; cycle 3.
  { eapply holds_weaken; [by apply IH|]. intros m2 Hm2. eapply marks_weaken; [exact Hm2|].
    intros p [?|(c' & [->|?]%elem_of_cons & [?|?] & ->)]; [by left|done|done| |]; (right; exists c'; by unfold readable_clone; auto). }
  all: eapply holds_bind; [apply list_delta_pages_holds|]; intros pages ->.
  all: eapply holds_bind; [apply mark_pages_holds; [apply Hlive; [left|by unfold readable_clone; auto]|exact Hm]|]; intros m' Hm'.
  all: eapply holds_weaken; [by apply IH|]; intros m2 Hm2; eapply marks_weaken; [exact Hm2|].
  all: intros p [?|(c' & [->|?]%elem_of_cons & ? & ->)]; eauto 6.
Qed.

(** What the collector computes about live payloads. *)
Definition refs_ok (refs : gset string * gset Z * bool) : Prop :=
  marks_ok (live_pages r0 vid) (refs.1.1, refs.2) /\
  forall mapping, mapping ∈ extents_of r0 vid -> targeted targets mapping = true -> emExtentID mapping ∈ refs.1.2.

Lemma referenced_holds : Holds (referencedPayloadKeys stores vid targets) refs_ok.
Proof.
  unfold referencedPayloadKeys.
  eapply holds_bind; [apply list_extents_holds|]. intros mappings ->.
  eapply holds_bind; [apply list_pages_holds|]. intros pages ->.
  eapply holds_bind; [apply (mark_pages_holds _ (fun _ => False)); [apply live_volume|by split]|]. intros m1 H1.
  eapply holds_bind; [apply list_snapshots_holds|]. intros snapshots [Hs1 Hs2].
  eapply holds_bind; [by apply mark_snapshots_holds|]. intros m2 H2.
  eapply holds_bind; [apply list_clones_holds|]. intros clones [Hc1 Hc2].
  eapply holds_bind; [by apply mark_clones_holds|]. intros m3 H3.
  apply holds_ret. split; cbn [fst snd].
  - rewrite <-surjective_pairing. eapply marks_weaken; [exact H3|]. intros p []; eauto 8.
  - intros mapping Hm Ht. apply elem_of_list_to_set, list_elem_of_In, in_map, filter_In.
    split; [by apply list_elem_of_In|done].
Qed.

Lemma live_spared refs id st key : refs_ok refs -> Forall u64 (elements targets) -> stores !! id = Some st ->
  live_payload r0 vid id key -> candidate vid targets id key ->
  spared vid (mkLive refs.1.1 refs.1.2 refs.2) key.
Proof.
  intros [[Hm Hn] Ha] Ht Hst Hlive Hcand. unfold spared.
  assert (forall mapping c, mapping ∈ extents_of r0 vid ->
    key = localReplicaPayloadKey id vid (emExtentID mapping) c -> targeted targets mapping = true) as Htarget.
  { intros mapping c Hin ->. unfold targeted. apply orb_true_iff. destruct Hcand as [->|(e & He & Hp)].
    - left. by apply bool_decide_eq_true.
    - right. apply bool_decide_eq_true. rewrite Forall_forall in Ht.
      rewrite <-(extent_prefix_key id vid e (emExtentID mapping) c); [done| |by apply extents_fine|done].
      apply Ht. by apply elem_of_elements. }
  destruct Hlive as [pages page mapping l c Hp Hpage Hin Hext Hc|mapping c Hnone Hin Hc Hid].
  - destruct (Hm pages Hp) as [Hmark Hnative]. cbn [snd fst] in *.
    assert (refs.2 = true) as Hn2 by (apply Hnative; intros ->; by apply not_elem_of_nil in Hpage).
    destruct (parseLocalReplicaPayloadKey _) as [[[[? ?] ?] ?]|]; [|done]. right. unfold keep. cbn [lvNative lvReferenced].
    rewrite Hn2. apply bool_decide_eq_true. eapply Hmark; [|done|by eapply Htarget|done|done|done].
    apply list_elem_of_fmap. exists (id, st). split; [done|]. by apply elem_of_map_to_list.
  - rewrite parse_payload_key; [|done|apply format_no_slash| |done].
    2: { by apply extents_fine. }
    right. unfold keep. cbn [lvNative lvActiveExtentIDs].
    destruct refs.2 eqn:E.
    + destruct (Hn eq_refl) as (pages & Hl & Hne). by destruct Hne; apply Hnone.
    + apply bool_decide_eq_true, Ha; [done|]. by eapply Htarget.
Qed.

End Sweep.

Section SweepAll.
Context {W : Type} (stores : gmap string (PayloadStore W)) (view : W -> string -> string -> option bytes).
Context `{!SweepLaws stores view}.
Context (r0 : Repository) (v : Z) (chunkBatchSize nowUnix : Z) (fuel : nat) (err_text : gc_error -> string).
Let vid := VolumeId.Format v.
Hypothesis pages_fine : forall pages, live_pages r0 vid pages -> pages_ok pages.
Hypothesis extents_fine : forall mapping, mapping ∈ extents_of r0 vid -> u64 (emExtentID mapping).
Abbreviation Holds := (holds view r0 (live_payload r0 vid)).

Lemma canonical_holds : Holds (on_repo (canonical_or_raw vid)) (fun c => c = vid).
Proof.
  apply holds_repo. intros r r' x Hr. unfold canonical_or_raw.
  assert (CanonicalVolumeID vid r = (r, Ok vid)) as ->.
  { unfold CanonicalVolumeID, vid. rewrite VolumeId.Parse_format. unfold ret_act. do 2 f_equal.
    unfold VolumeId.Format. by rewrite (wrap32_small (wrap32 v)) by apply wrap32_range. }
  intros [= <- <-]. split; [done|]. by intros a [= <-].
Qed.

Lemma begin_holds : Holds (on_repo (beginSweepMutationOperation nowUnix vid)) op_ok.
Proof.
  apply holds_repo. intros r r' x Hr. unfold beginSweepMutationOperation, GetVolumeState, readVolumeState, get_record.
  destruct (stStates _ !! _) as [st|]; [|by apply no_operation].
  unfold GetMutationOperation, readMutationOperation, get_record.
  destruct (stOps _ !! _) as [op|] eqn:Hop; apply put_begun_stable; [|done|constructor|done].
  cbn [moAffectedExtentIDs set_field]. eapply (proj2 Hr). exact Hop.
Qed.

Lemma set_u64 l : Forall u64 l -> Forall u64 (elements (sliceToUint64Set l)).
Proof.
  intros Hl. apply Forall_forall. intros x Hx%elem_of_elements%elem_of_list_to_set%list_elem_of_In%filter_In.
  rewrite Forall_forall in Hl. apply Hl, list_elem_of_In, Hx.
Qed.

Lemma sweep_extents_holds op : Forall u64 (moAffectedExtentIDs op) ->
  Holds (sweep_extents vid op) (fun targets => Forall u64 (elements targets)).
Proof.
  intros Hop. unfold sweep_extents. destruct (_ && _); [|by apply holds_ret, set_u64].
  unfold targetExtentIDsFromPages.
  eapply holds_bind; [apply list_extents_holds|]. intros mappings ->.
  eapply holds_bind; [apply list_pages_holds|]. intros [|page pages] _; [by apply holds_ret; rewrite elements_empty|].
  destruct (_ || _); [by apply holds_ret; rewrite elements_empty|].
  destruct (_ =? 0); [by apply holds_ret; rewrite elements_empty|]. apply holds_ret, Forall_forall.
  intros x Hx%elem_of_elements%elem_of_list_to_set%list_elem_of_In.
  apply in_map_iff in Hx as (mapping & <- & [Hin _]%filter_In).
  apply extents_fine. by apply list_elem_of_In.
Qed.

Lemma pure_holds {A} (f : Repository -> result meta_error A) : Holds (on_repo (fun r => (r, f r))) (fun _ => True).
Proof. apply holds_repo. by intros r r' x Hr [= <- <-]. Qed.

Lemma sweep_volume_holds : Holds (SweepVolume stores chunkBatchSize nowUnix fuel err_text vid) (fun _ => True).
Proof.
  unfold SweepVolume. eapply holds_bind; [apply canonical_holds|]. intros ? ->.
  eapply holds_bind; [apply begin_holds|]. intros operation Hop.
  eapply holds_bind; [apply holds_error; [by apply sweep_extents_holds|intros; by apply fail_tracked_holds]|].
  intros targets Ht.
  eapply holds_bind; [apply holds_error; [by apply (referenced_holds stores view r0 v)|intros; by apply fail_tracked_holds]|].
  intros refs Hrefs.
  eapply (holds_bind _ _ _ _ _ (fun _ => True)).
  { apply holds_error; [|intros; by apply fail_tracked_holds]. unfold retiredPayloadHintChunkIDs.
    eapply (holds_bind _ _ _ _ _ (fun _ => True)); [apply pure_holds|]. intros. by apply holds_ret. }
  intros hints _. eapply (holds_bind _ _ _ _ _ (fun _ => True)).
  { apply holds_repo. intros r r' x Hr. unfold buildChunkBatches. case_bool_decide; intros [= <- <-]; by split. }
  intros batches _. eapply (holds_bind _ _ _ _ _ (fun _ => True)).
  { apply sweep_batches_holds; [apply _| |done]. intros id st key Hst Hl Hc.
    by eapply (live_spared stores r0 v extents_fine targets refs id st). }
  intros p _. destruct operation as [op|]; [|by apply holds_ret].
  eapply (holds_bind _ _ _ _ _ (fun _ => True)); [|intros; by apply holds_ret].
  apply holds_repo. intros r r' x Hr E. split; [|done]. refine (put_operation_stable r0 _ r r' x _ Hr E). exact Hop.
Qed.

End SweepAll.

(** ** Properties *)

(** What a sweep relies on in the metadata of a volume: the page lists it can
    be read through have distinct page numbers, and ids fit 64 bits. *)
Record volume_ok (r : Repository) (vid : string) : Prop := {
  vo_pages : forall pages, live_pages r vid pages -> pages_ok pages;
  vo_extents : forall mapping, mapping ∈ extents_of r vid -> u64 (emExtentID mapping);
  vo_ops : ops_ok (rStore r) }.

Section Safety.
Context {W : Type} (stores : gmap string (PayloadStore W)) (view : W -> string -> string -> option bytes).
Context `{!SweepLaws stores view} (r : Repository) (w : W) (v chunkBatchSize nowUnix : Z) (fuel : nat).
Context (err_text : gc_error -> string).
Let vid := VolumeId.Format v.

Lemma sweep_keeps : volume_ok r vid -> forall id key, live_payload r vid id key ->
  view (SweepVolume stores chunkBatchSize nowUnix fuel err_text vid (r, w)).1.2 id key = view w id key.
Proof.
  intros [Hp He Ho] id key Hl. destruct (SweepVolume _ _ _ _ _ _ _) as [s' x] eqn:E.
  assert (stable r r) as Hst by (split; [done|exact Ho]).
  by destruct (sweep_volume_holds stores view r v chunkBatchSize nowUnix fuel err_text Hp He r w s' x Hst E) as (_ & Hk & _); apply Hk.
Qed.

(** A read plan built on live pages: each of its pages is one of the volume, of a
    snapshot or of a clone, cut to a range of its chunks, or reads as zeroes.  The
    pages may come from different owners, as those of a clone do. *)
Definition reads_through (plan : ExtentReadPlan) : Prop :=
  Forall (fun rp =>
    ((exists pages, live_pages r vid pages /\ raPage rp ∈ pages) /\ raRangeStartChunk (full_page (raPage rp)) <= raRangeStartChunk rp /\
     raRangeEndChunk rp <= raRangeEndChunk (full_page (raPage rp)) /\
     apChunkSizeBytes (raPage rp) = rpChunkSizeBytes plan) \/
    (forall l, zero (logicalChunkAllocationRecord [rp] l) = true \/ covered (logicalChunkAllocationRecord [rp] l) = false))
    (rpAllocationPages plan).

Lemma cut_record rp l : covered (logicalChunkAllocationRecord [rp] l) = true ->
  raRangeStartChunk (full_page (raPage rp)) <= raRangeStartChunk rp ->
  raRangeEndChunk rp <= raRangeEndChunk (full_page (raPage rp)) ->
  logicalChunkAllocationRecord [full_page (raPage rp)] l = logicalChunkAllocationRecord [rp] l.
Proof.
  intros Hc H1 H2. cbn [logicalChunkAllocationRecord] in *.
  destruct (l <? raRangeStartChunk rp) eqn:E1; [done|]. destruct (raRangeEndChunk rp <=? l) eqn:E2; [done|].
  apply Z.ltb_ge in E1. apply Z.leb_gt in E2. cbn [orb].
  rewrite (proj2 (Z.ltb_ge l _)), (proj2 (Z.leb_gt _ l)) by lia. done.
Qed.

(** The payload of a chunk a plan reads is live. *)
Lemma planned_chunk_live plan req id l : reads_through plan ->
  rpExtent plan ∈ extents_of r vid -> rrVolumeID req = vid ->
  let c := logicalChunkAllocationRecord (rpAllocationPages plan) l in
  covered c = true -> zero c = false -> physicalChunkID c <> 0 ->
  in_extent (rpExtent plan) (rpChunkSizeBytes plan) l ->
  live_payload r vid id (localReplicaPayloadKey id (rrVolumeID req) (emExtentID (rpExtent plan)) (physicalChunkID c)).
Proof.
  intros Hp Hext Hv c Hc Hz Hid Hin. subst c. rewrite record_at in *.
  destruct (page_at _ l) as [rp|] eqn:Hpage; [|done]. apply page_at_In in Hpage as [Hrp _].
  unfold reads_through in Hp. rewrite Forall_forall in Hp. destruct (Hp rp Hrp) as [((pages & Hl & Hin') & H1 & H2 & H3)|Hzero].
  - rewrite Hv. eapply live_mapped; [done|done|done|by rewrite H3|].
    unfold maps_chunk. by rewrite cut_record.
  - destruct (Hzero l); congruence.
Qed.

End Safety.

(** A sweep never deletes a live payload.  Whatever the sweep does, is
    given and reports, and whichever store calls fail on the way, every payload
    that a page of the volume, of a snapshot that is not deleted or of a
    readable clone maps is the same before and after on every replica; on a
    volume without pages the same holds for every payload of its extents. *)
Theorem gc_keeps_live_payloads {W} (stores : gmap string (PayloadStore W)) view `{!SweepLaws stores view}
    (r : Repository) (w : W) (v chunkBatchSize nowUnix : Z) (fuel : nat) (err_text : gc_error -> string) (id key : string) :
  volume_ok r (VolumeId.Format v) -> live_payload r (VolumeId.Format v) id key ->
  let '((_, w'), _) := SweepVolume stores chunkBatchSize nowUnix fuel err_text (VolumeId.Format v) (r, w) in
  view w' id key = view w id key.
Proof.
  intros Hok Hl. pose proof (sweep_keeps stores view r w v chunkBatchSize nowUnix fuel err_text Hok id key Hl) as H.
  by destruct (SweepVolume _ _ _ _ _ _ _) as [[r' w'] x].
Qed.

(** C11: reads survive a sweep.  A read of the volume, of a snapshot or of a
    clone that is planned on live pages, of one or of several of these owners, and
    finds its payloads on a replica returns, after any sweep of the volume under
    its canonical id, the bytes those payloads held before it.  (Under another
    spelling of the id a sweep deletes live payloads.) *)
Theorem sweep_preserves_reads {W} (stores : gmap string (PayloadStore W)) view
    `{!SweepLaws stores view, !PayloadLaws stores view} (r : Repository) (w : W) (v chunkBatchSize nowUnix : Z) (fuel : nat)
    (err_text : gc_error -> string) (plan : ExtentReadPlan) (req : ReplicaReadRequest) (id : string) :
  volume_ok r (VolumeId.Format v) -> reads_through r v plan ->
  rpExtent plan ∈ extents_of r (VolumeId.Format v) -> rrVolumeID req = VolumeId.Format v -> read_ok stores plan req id ->
  let '(rs, rl) := read_window plan req in
  let cs := rpChunkSizeBytes plan in
  (forall l, rs / cs <= l <= (rs + rl - 1) / cs -> readable view plan req id w l /\
     (zero (logicalChunkAllocationRecord (rpAllocationPages plan) l) = false ->
      physicalChunkID (logicalChunkAllocationRecord (rpAllocationPages plan) l) <> 0)) ->
  let '((_, w'), _) := SweepVolume stores chunkBatchSize nowUnix fuel err_text (VolumeId.Format v) (r, w) in
  exists w2 data source, ReadExtent stores None plan req w' = (w2, Ok (data, source)) /\ zlen data = rl /\
    forall p, rs <= p < rs + rl -> data !! Z.to_nat (p - rs) = content view plan req id w p.
Proof.
  intros Hok Hp Hext Hv Hrd. destruct (read_window plan req) as [rs rl] eqn:Er. intros cs Hall.
  pose proof (sweep_keeps stores view r w v chunkBatchSize nowUnix fuel err_text Hok id) as Hkeep.
  destruct (SweepVolume _ _ _ _ _ _ _) as [[r' w'] x]. cbn [fst snd] in Hkeep.
  destruct (read_window_ok stores plan req id Hrd) as (_ & Hrs & Hre & Hspan). rewrite Er in *. cbn [fst snd] in *.
  pose proof (rk_meets _ _ _ _ Hrd) as Hmeets. rewrite Er in Hmeets. cbn [snd] in Hmeets.
  assert (forall l, rs / cs <= l <= (rs + rl - 1) / cs -> in_extent (rpExtent plan) cs l) as Hin.
  { intros l Hl'. destruct (rk_extent _ _ _ _ Hrd) as (H1 & H2 & H3). pose proof (rk_chunk _ _ _ _ Hrd) as Hcs.
    unfold read_window in Er. injection Er as Ers Erl. unfold in_extent.
    assert (emLogicalOffset (rpExtent plan) / cs <= rs / cs) by (apply Z.div_le_mono; lia).
    assert ((rs + rl - 1) / cs <= (emLogicalOffset (rpExtent plan) + emLengthBytes (rpExtent plan) - 1) / cs)
      by (apply Z.div_le_mono; lia). lia. }
  assert (forall l, rs / cs <= l <= (rs + rl - 1) / cs -> zero (logicalChunkAllocationRecord (rpAllocationPages plan) l) = false ->
    view w' id (localReplicaPayloadKey id (rrVolumeID req) (emExtentID (rpExtent plan))
      (physicalChunkID (logicalChunkAllocationRecord (rpAllocationPages plan) l))) =
    view w id (localReplicaPayloadKey id (rrVolumeID req) (emExtentID (rpExtent plan))
      (physicalChunkID (logicalChunkAllocationRecord (rpAllocationPages plan) l)))) as Hsame.
  { intros l Hl' Hz. destruct (Hall l Hl') as [[Hc _] Hne]. apply Hkeep.
    apply (planned_chunk_live r v); auto. }
  destruct (read_extent_spec stores view plan req id w' Hrd) as (w2 & data & source & Hr & _ & Hlen & Hdata).
  { rewrite Er. intros l Hl'. destruct (Hall l Hl') as [[Hc Hv'] Hne]. split; [done|]. intros Hz.
    destruct (Hv' Hz) as (He & b & Hb & Hlen). split; [done|]. exists b. split; [|done]. by rewrite Hsame. }
  rewrite Er in Hlen, Hdata. exists w2, data, source. split_and!; [done|done|]. intros p Hpr.
  rewrite Hdata by done. unfold content. destruct (zero _) eqn:Hz; [done|]. rewrite Hsame; [done| |done].
  pose proof (rk_chunk _ _ _ _ Hrd). split; apply Z.div_le_mono; lia.
Qed.

(** ** A volume with a snapshot

    Chunk 0 of the volume is stored as chunk 10, and was stored as chunk 9 when
    the snapshot was taken; chunk 11 is garbage. *)

Definition gc_page (id : Z) : AllocationPageRecord :=
  mkAllocationPageRecord "000000ab" 0 16 4 1 [mkAllocationExtentRecord 0 1 AllocationKindData id "" 1 "" None].

Definition gc_mapping : ExtentMappingRecord := mkExtentMappingRecord "000000ab" 1 0 16 0 "rs" 1.

Definition gc_snapshot : SnapshotRecord :=
  zero_SnapshotRecord <| snSnapshotID := "s" |> <| snSourceVolumeID := "000000ab" |>
    <| snState := SnapshotStateAvailable |>.

Definition gc_captures : captures :=
  no_captures <| cpSnapshots := {["s" := gc_snapshot]} |>
    <| cpSnapshotIndex := {[("000000ab", "s") := mksnapshotSourceIndexRecord "000000ab" "s" 0]} |>
    <| cpSnapshotPages := {[("s", 0) := gc_page 9]} |>.

Definition gc_repo : Repository :=
  mkRepository
    (mkStore {["000000ab" := zero_VolumeState <| vsVolumeID := "000000ab" |> <| vsEpoch := 1 |> <| vsRevision := 1 |>]}
       ∅ ∅ ∅ {[("000000ab", 0) := gc_page 10]} {[("000000ab", 1) := gc_mapping]} ∅ ∅ ∅ gc_captures) ∅ false.

Definition gc_key (id : Z) : string := localReplicaPayloadKey "a" "000000ab" 1 id.

Definition gc_cluster : Cluster :=
  {["a" := mkMemoryStore {[gc_key 9 := [Byte.x09; Byte.x09; Byte.x09; Byte.x09];
                           gc_key 10 := [Byte.x0a; Byte.x0a; Byte.x0a; Byte.x0a]; gc_key 11 := [Byte.x0b]]}]}.

Definition gc_sweep (vid : string) :=
  SweepVolume (memory_replicas ["a"]) 64 100 4 (fun _ => "") vid (gc_repo, gc_cluster).

Lemma gc_live_pages pages : live_pages gc_repo "000000ab" pages -> pages = [gc_page 10] \/ pages = [gc_page 9].
Proof.
  intros H. destruct H as [|k ix s Hi Hne Hs Hst|k ix c Hi _ _ _].
  - left. reflexivity.
  - right. change (cpSnapshotIndex (caps gc_repo)) with (cpSnapshotIndex gc_captures) in Hi. cbn in Hi, Hs.
    apply lookup_singleton_Some in Hi as [_ <-]. cbn in Hs. apply lookup_singleton_Some in Hs as [_ <-]. reflexivity.
  - change (cpCloneByVolume (caps gc_repo)) with (∅ : gmap (string * string) cloneSourceIndexRecord) in Hi.
    by rewrite lookup_empty in Hi.
Qed.

Lemma gc_extents : extents_of gc_repo "000000ab" = [gc_mapping].
Proof. reflexivity. Qed.

Lemma gc_volume_ok : volume_ok gc_repo "000000ab".
Proof.
  split.
  - intros pages [-> | ->]%gc_live_pages; (split; [apply NoDup_singleton|]); apply Forall_singleton; vm_compute; intuition congruence.
  - intros mapping. rewrite gc_extents, list_elem_of_singleton. intros ->. by unfold in_u.
  - intros k op. cbn. by rewrite lookup_empty.
Qed.

Lemma gc_snapshot_pages : live_pages gc_repo "000000ab" [gc_page 9].
Proof.
  refine (live_snapshot gc_repo "000000ab" "s" (mksnapshotSourceIndexRecord "000000ab" "s" 0) gc_snapshot _ _ _ _);
    [apply lookup_singleton_eq|done|apply lookup_singleton_eq|done].
Qed.

Lemma gc_mapped id pages : live_pages gc_repo "000000ab" pages -> pages = [gc_page id] -> 0 < id < 100 ->
  live_payload gc_repo "000000ab" "a" (gc_key id).
Proof.
  intros Hl -> Hid. refine (live_mapped gc_repo "000000ab" "a" [gc_page id] (gc_page id) gc_mapping 0 id Hl _ _ _ _).
  - left.
  - rewrite gc_extents. left.
  - vm_compute. intuition congruence.
  - unfold maps_chunk. change (logicalChunkAllocationRecord [full_page (gc_page id)] 0) with
      (mkChunkState true false (add64 id (sub64 0 0)) "000000ab" None). cbn [covered zero physicalChunkID].
    change (sub64 0 0) with 0. rewrite add64_small by (unfold in_u; lia). split_and!; [done|done|lia|lia].
Qed.

Lemma gc_keeps_live_payloads_witness :
  let '((_, w'), _) := gc_sweep "000000ab" in
  cluster_view w' "a" (gc_key 9) = Some [Byte.x09; Byte.x09; Byte.x09; Byte.x09].
Proof.
  pose proof (gc_keeps_live_payloads (memory_replicas ["a"]) cluster_view gc_repo gc_cluster 171 64 100 4 (fun _ => "")
                "a" (gc_key 9) gc_volume_ok (gc_mapped 9 _ gc_snapshot_pages eq_refl ltac:(lia))) as H.
  unfold gc_sweep. change (VolumeId.Format 171) with "000000ab" in H.
  destruct (SweepVolume _ _ _ _ _ _ _) as [[r' w'] x]. rewrite H. vm_compute. reflexivity.
Defined.

Definition gc_plan : ExtentReadPlan :=
  zero_ExtentReadPlan <| rpExtent := gc_mapping |> <| rpPreferred := mkReplicaTarget "na" "a" ReplicaRolePrimary "" |>
    <| rpAllocationPages := [full_page (gc_page 9); full_page (gc_page 10)] |> <| rpChunkSizeBytes := 4 |>.

Definition gc_read : ReplicaReadRequest := mkReplicaReadRequest "" "000000ab" "" "s" 1 2 false.

Lemma sweep_preserves_reads_witness :
  let '((_, w'), _) := gc_sweep "000000ab" in
  exists w2 data source, ReadExtent (memory_replicas ["a"]) None gc_plan gc_read w' = (w2, Ok (data, source)) /\
    zlen data = 2 /\ data !! 0%nat = Some Byte.x09.
Proof.
  assert (forall l, 1 / 4 <= l <= (1 + 2 - 1) / 4 -> l = 0) as Hl0.
  { intros l Hl. change (1 / 4) with 0 in Hl. change ((1 + 2 - 1) / 4) with 0 in Hl. lia. }
  pose proof (sweep_preserves_reads (memory_replicas ["a"]) cluster_view gc_repo gc_cluster 171 64 100 4 (fun _ => "")
                gc_plan gc_read "a" gc_volume_ok) as H.
  unfold gc_sweep. change (VolumeId.Format 171) with "000000ab" in H. change (read_window gc_plan gc_read) with (1, 2) in H.
  cbn [rpChunkSizeBytes gc_plan] in H.
  destruct (SweepVolume _ _ _ _ _ _ _) as [[r' w'] x]. destruct H as (w2 & data & source & Hr & Hlen & Hd).
  - apply Forall_cons_2; [|apply Forall_singleton]; left; (split_and!; [|vm_compute; congruence|vm_compute; congruence|done]).
    + exists [gc_page 9]. split; [exact gc_snapshot_pages|left].
    + exists [gc_page 10]. split; [exact (live_volume gc_repo "000000ab")|left].
  - rewrite gc_extents. left.
  - done.
  - split; try (cbn; lia); done.
  - intros l ->%Hl0. split; [|by vm_compute]. split; [done|]. intros _. split; [done|]. eexists.
    split; [vm_compute; reflexivity|vm_compute; congruence].
  - exists w2, data, source. split_and!; [done|done|]. etrans; [exact (Hd 1 ltac:(lia))|]. vm_compute. reflexivity.
Defined.

End PayloadGCFacts.
