(* ===== verification/PayloadSweepFacts.v ===== *)
(** * The payload garbage collector: what a sweep deletes

    On the in-memory stores: the key listing terminates and is complete, the
    candidates of a sweep are exactly the payloads it is asked about, and the
    sweep of a replica deletes exactly those that are not in use.  Under a volume
    id that is not in canonical form the collector takes every payload of the
    volume for garbage. *)

From Stdlib Require Import ZArith Lia Ascii String.
From stdpp Require Import base list gmap strings sorting.
From coqutil Require Import Byte.
From S2P Require Import Prelude GoStrings VolumeId GatewayTypes ObjectStore ObjectStoreFacts SbsTypes MetaTypes AllocationCommit WritePipeline MetaPages MetaRepo MetaSnapshots Executor Resolver LocalReplica LocalReplicaFacts PayloadGC PayloadGCFacts.
Open Scope string_scope.
Open Scope Z_scope.

Module PayloadSweepFacts.
Import Sbs Meta Allocation Store MetaPages MetaRepo Snapshots LocalReplica LocalReplicaFacts PayloadGC PayloadGCFacts.
Open Scope act_scope.

Section Memory.
Context (id vid : string) (r : Repository) (fuel : nat).
Abbreviation gact := (act (Repository * Cluster) gc_error).
Abbreviation st := (memory_replica id).

(** ** One replica *)

Lemma on_existing {A} (f : act MemoryStore Gateway.svc_error A) (w : Cluster) m :
  w !! id = Some m -> on_replica id f w = (<[id := (f m).1]> w, (f m).2).
Proof. intros H. unfold on_replica. rewrite H. cbn. by destruct (f m). Qed.

Lemma list_loop_pages n prefix cursor out (w : Cluster) m keys : w !! id = Some m ->
  StoreFacts.list_pages n prefix cursor 128 m = Some keys ->
  list_loop n st prefix cursor out (r, w) = ((r, w), Ok (out ++ keys)%list).
Proof.
  intros Hm. revert cursor out keys. induction n as [|n IH]; intros cursor out keys; [done|].
  cbn [list_loop StoreFacts.list_pages]. unfold bind_act, on_payloads. cbn [memory_replica psList].
  rewrite (on_existing _ _ _ Hm). cbn [fst snd map_err]. rewrite (insert_id w id m Hm).
  destruct (Store.List prefix cursor 128 m) as [found next]. cbn [fst snd].
  destruct (String.eqb next ""); [by intros [= <-]|].
  destruct (StoreFacts.list_pages n prefix next 128 m) as [rest|] eqn:E; [|done]. cbn. intros [= <-].
  by rewrite (IH _ _ _ E), <-app_assoc.
Qed.

Lemma matching_length prefix m : (length (matching_keys prefix m) <= size (data m))%nat.
Proof.
  unfold matching_keys. rewrite merge_sort_Permutation. etrans; [apply length_filter|].
  by rewrite length_fmap, length_map_to_list.
Qed.

Lemma list_all_keys prefix (w : Cluster) m : w !! id = Some m -> data m !! "" = None -> (size (data m) < fuel)%nat ->
  listAllObjectStoreKeys fuel st prefix (r, w) = ((r, w), Ok (matching_keys prefix m)).
Proof.
  intros Hm He Hf. unfold listAllObjectStoreKeys. apply (list_loop_pages _ _ _ [] _ m); [done|].
  apply (StoreFacts.list_pages_suffix _ _ _ _ []); [done| |done|by left|].
  - rewrite StoreFacts.matching_keys_spec, He. by intros [_ [? ?]].
  - eapply Nat.le_lt_trans; [apply matching_length|exact Hf].
Qed.

(** ** Candidates *)

(** The payloads a sweep is asked about. *)
Definition wanted (targets chunkIDs : gset Z) (key : string) : Prop :=
  if decide (targets = ∅) then
    String.prefix (volume_prefix id vid) key = true /\
    (chunkIDs = ∅ \/ exists c, c ∈ chunkIDs /\ is_chunk vid c key = true)
  else if decide (chunkIDs = ∅) then exists e, e ∈ targets /\ String.prefix (extent_prefix id vid e) key = true
  else exists e c, e ∈ targets /\ c ∈ chunkIDs /\ key = localReplicaPayloadKey id vid e c.

Lemma wanted_exact targets chunkIDs e c : e ∈ targets -> c ∈ chunkIDs ->
  wanted targets chunkIDs (localReplicaPayloadKey id vid e c).
Proof.
  intros He Hc. unfold wanted. destruct (decide (targets = ∅)) as [->|]; [by apply not_elem_of_empty in He|].
  destruct (decide (chunkIDs = ∅)) as [->|]; [by apply not_elem_of_empty in Hc|]. by exists e, c.
Qed.

Lemma append_new_spec keys found : NoDup keys ->
  NoDup (append_new keys found) /\ forall k, k ∈ append_new keys found <-> k ∈ keys \/ k ∈ found.
Proof.
  revert keys. induction found as [|x found IH]; intros keys Hd; cbn [append_new fold_left].
  { split; [done|]. intros k. set_solver. }
  change (fold_left _ found ?keys) with (append_new keys found). case_bool_decide as Hx.
  - destruct (IH keys Hd) as [H1 H2]. split; [done|]. intros k. rewrite H2. set_solver.
  - destruct (IH (keys ++ [x])%list) as [H1 H2].
    { apply NoDup_app. split_and!; [done|set_solver|apply NoDup_singleton]. }
    split; [done|]. intros k. rewrite H2. set_solver.
Qed.

Section World.
Context (w : Cluster) (m : MemoryStore) (Hm : w !! id = Some m).
Context (Hempty : data m !! "" = None) (Hfuel : (size (data m) < fuel)%nat).

Lemma scan_chunks_spec chunkIDs keys : NoDup keys -> exists out,
  scan_chunks fuel st id vid chunkIDs keys (r, w) = ((r, w), Ok out) /\ NoDup out /\
  forall k, k ∈ out <-> k ∈ keys \/ (is_Some (data m !! k) /\ String.prefix (volume_prefix id vid) k = true /\
                                    exists c, c ∈ chunkIDs /\ is_chunk vid c k = true).
Proof.
  revert keys. induction chunkIDs as [|c ids IH]; intros keys Hd; cbn [scan_chunks].
  { exists keys. split_and!; [done|done|]. intros k. split; [by left|].
    intros [?|(_ & _ & c & ?%not_elem_of_nil & _)]; done. }
  unfold bind_act. rewrite (list_all_keys _ w m Hm Hempty Hfuel).
  destruct (append_new_spec keys (List.filter (is_chunk vid c) (matching_keys (volume_prefix id vid) m)) Hd) as [H1 H2].
  destruct (IH _ H1) as (out & -> & Hnd & Hin). exists out. split_and!; [done|done|]. intros k. rewrite Hin, H2.
  rewrite (list_elem_of_In (List.filter _ _) k), filter_In, <-list_elem_of_In, StoreFacts.matching_keys_spec.
  split.
  - intros [[?|[[? ?] ?]]|(? & ? & c' & ? & ?)]; [by left| |]; right; (split_and!; [done|done|]); [exists c|exists c'];
      rewrite elem_of_cons; auto.
  - intros [?|(? & ? & c' & [->|?]%elem_of_cons & ?)]; eauto 6.
Qed.

Lemma scan_extents_spec extentIDs keys : NoDup keys -> exists out,
  scan_extents fuel st id vid extentIDs keys (r, w) = ((r, w), Ok out) /\ NoDup out /\
  forall k, k ∈ out <-> k ∈ keys \/ (is_Some (data m !! k) /\
                                    exists e, e ∈ extentIDs /\ String.prefix (extent_prefix id vid e) k = true).
Proof.
  revert keys. induction extentIDs as [|e ids IH]; intros keys Hd; cbn [scan_extents].
  { exists keys. split_and!; [done|done|]. intros k. split; [by left|].
    intros [?|(_ & c & ?%not_elem_of_nil & _)]; done. }
  unfold bind_act. rewrite (list_all_keys _ w m Hm Hempty Hfuel).
  destruct (append_new_spec keys (matching_keys (extent_prefix id vid e) m) Hd) as [H1 H2].
  destruct (IH _ H1) as (out & -> & Hnd & Hin). exists out. split_and!; [done|done|]. intros k.
  rewrite Hin, H2, StoreFacts.matching_keys_spec. setoid_rewrite elem_of_cons. naive_solver.
Qed.

Lemma probe_spec probes keys : NoDup keys -> exists out,
  probe_keys st probes keys (r, w) = ((r, w), Ok out) /\ NoDup out /\
  forall k, k ∈ out <-> k ∈ keys \/ (k ∈ probes /\ is_Some (data m !! k)).
Proof.
  revert keys. induction probes as [|x probes IH]; intros keys Hd; cbn [probe_keys].
  { exists keys. split_and!; [done|done|]. intros k. rewrite elem_of_nil. naive_solver. }
  unfold bind_act, on_payloads. cbn [memory_replica psStore store_get]. rewrite (on_existing _ _ _ Hm).
  cbn [fst snd map_err Store.Get]. rewrite (insert_id w id m Hm).
  destruct (data m !! x) as [b|] eqn:Ex; cbn [isSome].
  - destruct (append_new_spec keys [x] Hd) as [H1 H2]. destruct (IH _ H1) as (out & -> & Hnd & Hin).
    exists out. split_and!; [done|done|]. intros k. rewrite Hin, H2, !elem_of_cons, elem_of_nil. naive_solver.
  - destruct (IH _ Hd) as (out & -> & Hnd & Hin). exists out. split_and!; [done|done|]. intros k.
    rewrite Hin, elem_of_cons. split; [naive_solver|]. intros [?|[[->|?] [? ?]]]; [by left|congruence|right; by split; [|eexists]].
Qed.

Lemma candidates_spec targets chunkIDs : exists keys,
  listCandidatePayloadKeys fuel st id vid targets chunkIDs (r, w) = ((r, w), Ok keys) /\ NoDup keys /\
  forall k, k ∈ keys <-> is_Some (data m !! k) /\ wanted targets chunkIDs k.
Proof.
  unfold listCandidatePayloadKeys, listExactChunkCandidateKeys, wanted.
  destruct (decide (targets = ∅)) as [->|Ht].
  - rewrite (bool_decide_eq_true_2 (∅ = ∅)) by done. cbn [andb]. destruct (decide (chunkIDs = ∅)) as [->|Hc].
    + rewrite (bool_decide_eq_true_2 (∅ = ∅)) by done. rewrite (list_all_keys _ w m Hm Hempty Hfuel).
      eexists. split; [done|]. split; [apply StoreFacts.matching_keys_nodup|].
      intros k. rewrite StoreFacts.matching_keys_spec. naive_solver.
    + rewrite (bool_decide_eq_false_2 (chunkIDs = ∅)) by done. cbn [negb].
      destruct (scan_chunks_spec (sortedUint64SetKeys chunkIDs) [] NoDup_nil_2) as (out & -> & Hd & Hin).
      exists out. split_and!; [done|done|]. intros k. rewrite Hin, elem_of_nil. setoid_rewrite sorted_keys_in. naive_solver.
  - rewrite (bool_decide_eq_false_2 (targets = ∅)) by done. cbn [andb]. destruct (decide (chunkIDs = ∅)) as [->|Hc].
    + rewrite (bool_decide_eq_true_2 (∅ = ∅)) by done. cbn [negb].
      destruct (scan_extents_spec (sortedUint64SetKeys targets) [] NoDup_nil_2) as (out & -> & Hd & Hin).
      exists out. split_and!; [done|done|]. intros k. rewrite Hin, elem_of_nil. setoid_rewrite sorted_keys_in. naive_solver.
    + rewrite (bool_decide_eq_false_2 (chunkIDs = ∅)) by done. cbn [negb]. edestruct (probe_spec) as (out & -> & Hd & Hin);
        [apply NoDup_nil_2|]. exists out. split_and!; [done|done|]. intros k. rewrite Hin, elem_of_nil.
      rewrite (list_elem_of_In (concat _) k), in_concat. split.
      * intros [[]|[(l & (c & <- & Hc1)%in_map_iff & (e & <- & He)%in_map_iff) Hs]]. split; [done|].
        rewrite <-list_elem_of_In, sorted_keys_in in Hc1, He. by exists e, c.
      * intros [Hs (e & c & He & Hcc & ->)]. right. split; [|done]. eexists. split.
        -- apply in_map, list_elem_of_In, sorted_keys_in, Hcc.
        -- apply (in_map (fun e => localReplicaPayloadKey id vid e c)), list_elem_of_In, sorted_keys_in, He.
Qed.

End World.
(** ** Deleting *)

Context (l : live).

(** A payload of the volume that is not in use, with its chunk id. *)
Definition garbage (key : string) : option Z :=
  match parseLocalReplicaPayloadKey key with
  | Some (_, keyVolumeID, extentID, chunkID) =>
      if String.eqb keyVolumeID vid && negb (keep l key extentID) then Some chunkID else None
  | None => None
  end.

Lemma sweep_keys_spec keys result deleted (w : Cluster) m : w !! id = Some m -> exists m' res deleted',
  sweep_keys st vid l keys result deleted (r, w) = ((r, <[id := m']> w), Ok (res, deleted')) /\
  (forall k, data m' !! k = if decide (k ∈ keys /\ is_Some (garbage k)) then None else data m !! k) /\
  (forall c, c ∈ deleted' <-> c ∈ deleted \/ c <> 0 /\ exists k, k ∈ keys /\ garbage k = Some c).
Proof.
  revert result deleted w m. induction keys as [|key keys IH]; intros result deleted w m Hm; cbn [sweep_keys].
  { exists m, result, deleted. rewrite (insert_id w id m Hm). split_and!; [done| |].
    - intros k. rewrite decide_False; [done|]. by intros [?%not_elem_of_nil _].
    - intros c. split; [by left|]. intros [?|(_ & k & ?%not_elem_of_nil & _)]; done. }
  assert (garbage key = None -> (forall k, (k ∈ keys /\ is_Some (garbage k)) <-> (k ∈ key :: keys /\ is_Some (garbage k))) /\
    (forall c, (exists k, k ∈ keys /\ garbage k = Some c) <-> (exists k, k ∈ key :: keys /\ garbage k = Some c))) as Hskip.
  { intros Hg. split.
    - intros k. rewrite elem_of_cons. split; [tauto|]. intros [[->|?] Hs]; [|done]. rewrite Hg in Hs. by apply is_Some_None in Hs.
    - intros c. setoid_rewrite elem_of_cons. split; [naive_solver|]. intros (k & [->|?] & ?); [congruence|eauto]. }
  assert (forall result, garbage key = None -> exists m' res deleted',
    sweep_keys st vid l keys result deleted (r, w) = ((r, <[id := m']> w), Ok (res, deleted')) /\
    (forall k, data m' !! k = if decide (k ∈ key :: keys /\ is_Some (garbage k)) then None else data m !! k) /\
    (forall c, c ∈ deleted' <-> c ∈ deleted \/ c <> 0 /\ exists k, k ∈ key :: keys /\ garbage k = Some c)) as Hnext.
  { intros result' Hg. destruct (IH result' deleted w m Hm) as (m' & res & d' & -> & Hk & Hc). destruct (Hskip Hg) as [S1 S2].
    exists m', res, d'. split_and!; [done| |].
    - intros k. rewrite Hk. apply decide_ext, S1.
    - intros c. by rewrite Hc, S2. }
  destruct (parseLocalReplicaPayloadKey key) as [[[[rid v] e] c]|] eqn:Hp;
    [|apply Hnext; unfold garbage; by rewrite Hp].
  destruct (String.eqb v vid) eqn:Hv; cbn [negb]; [|apply Hnext; unfold garbage; by rewrite Hp, Hv].
  destruct (keep l key e) eqn:Hkeep; [apply Hnext; unfold garbage; by rewrite Hp, Hv, Hkeep|].
  assert (garbage key = Some c) as Hg by (unfold garbage; by rewrite Hp, Hv, Hkeep).
  unfold bind_act, on_payloads. cbn [memory_replica psStore store_delete]. rewrite (on_existing _ _ _ Hm).
  cbn [fst snd map_err Store.Delete].
  destruct (IH (result <| srDeletedCount := srDeletedCount result + 1 |>)
              (if negb (c =? 0) then {[c]} ∪ deleted else deleted) (<[id := mkMemoryStore (delete key (data m))]> w) (mkMemoryStore (delete key (data m))))
    as (m' & res & d' & -> & Hk & Hc); [apply lookup_insert_eq|].
  exists m', res, d'. rewrite insert_insert_eq. split_and!; [done| |].
  - intros k. rewrite Hk. cbn [data]. destruct (decide (k = key)) as [->|Hne].
    + rewrite (decide_True _ _ (conj (list_elem_of_here _ _) (mk_is_Some _ _ Hg))). rewrite lookup_delete_eq. by destruct (decide _).
    + rewrite lookup_delete_ne by done. apply decide_ext. rewrite elem_of_cons. naive_solver.
  - intros c'. rewrite Hc. setoid_rewrite elem_of_cons. destruct (Z.eqb_spec c 0) as [->|Hne]; cbn [negb].
    + split; [naive_solver|]. intros [?|(Hn & k & [->|?] & ?)]; [by left|congruence|eauto].
    + rewrite elem_of_union, elem_of_singleton. split.
      * intros [[->|?]|(? & k & ? & ?)]; eauto 6.
      * intros [?|(? & k & [->|?] & ?)]; [eauto| |eauto 6]. left; left. congruence.
Qed.

End Memory.

(** ** Properties *)

(** C31: listing the keys of a store terminates.  With more fuel than the store
    has objects, following the cursors returns every key with the prefix exactly
    once and leaves the store alone. *)
Theorem list_all_keys_terminates (id prefix : string) (r : Repository) (w : Cluster) (m : MemoryStore) (fuel : nat) :
  w !! id = Some m -> data m !! "" = None -> (size (data m) < fuel)%nat ->
  exists keys, listAllObjectStoreKeys fuel (memory_replica id) prefix (r, w) = ((r, w), Ok keys) /\ NoDup keys /\
    forall k, k ∈ keys <-> String.prefix prefix k = true /\ is_Some (data m !! k).
Proof.
  intros Hm He Hf. exists (matching_keys prefix m). split; [by apply list_all_keys|].
  split; [apply StoreFacts.matching_keys_nodup|apply StoreFacts.matching_keys_spec].
Qed.

Lemma sweep_replica_memory (replicas : list string) (id vid : string) (l : live) (hints targets chunkIDs : gset Z)
    (p : progress) (r : Repository) (w : Cluster) (m : MemoryStore) (fuel : nat) :
  id ∈ replicas -> w !! id = Some m -> data m !! "" = None -> (size (data m) < fuel)%nat ->
  exists m' res deleted,
    sweep_replica (memory_replicas replicas) fuel vid l hints targets chunkIDs id p (r, w) =
      ((r, <[id := m']> w), Ok (<[id := res]> p.1, deleted)) /\
    (forall k, wanted id vid targets chunkIDs k -> is_Some (garbage vid l k) -> data m' !! k = None) /\
    (forall k, ~ (wanted id vid targets chunkIDs k /\ is_Some (garbage vid l k)) -> data m' !! k = data m !! k) /\
    (forall c, c ∈ deleted <-> c ∈ p.2 \/ c <> 0 /\ exists k, is_Some (data m !! k) /\
                 wanted id vid targets chunkIDs k /\ garbage vid l k = Some c).
Proof.
  intros Hin Hm He Hf. unfold sweep_replica.
  assert (memory_replicas replicas !! id = Some (memory_replica id)) as ->.
  { unfold memory_replicas. clear -Hin. induction replicas as [|i others IH]; [by apply not_elem_of_nil in Hin|]. cbn.
    destruct (decide (i = id)) as [->|Hne]; [by rewrite lookup_insert_eq|]. rewrite lookup_insert_ne by done.
    apply IH. apply elem_of_cons in Hin as [->|]; done. }
  destruct (candidates_spec id vid r fuel w m Hm He Hf targets chunkIDs) as (keys & E & Hd & Hk).
  unfold bind_act. rewrite E.
  destruct (sweep_keys_spec id vid r l (merge_sort (key_order hints) keys)
              (default (mkSweepResult vid id 0 0 0) (p.1 !! id)
                 <| srCandidateCount := srCandidateCount (default (mkSweepResult vid id 0 0 0) (p.1 !! id))
                                        + zlen (merge_sort (key_order hints) keys) |>) p.2 w m Hm)
    as (m' & res & deleted & E2 & Hdata & Hdel).
  rewrite E2. exists m', res, deleted. split; [done|].
  assert (forall k, k ∈ merge_sort (key_order hints) keys <-> is_Some (data m !! k) /\ wanted id vid targets chunkIDs k) as Hs
    by (intros k; by rewrite merge_sort_Permutation).
  split_and!.
  - intros k Hw Hg. rewrite Hdata. destruct (decide _) as [|Hno]; [done|].
    destruct (data m !! k) eqn:Ek; [|done]. destruct Hno. split; [|done]. apply Hs. by split; [eexists|].
  - intros k Hn. rewrite Hdata, decide_False; [done|]. intros [?%Hs ?]. tauto.
  - intros c. rewrite Hdel. setoid_rewrite Hs. naive_solver.
Qed.

(** What a sweep deletes on a replica.  Whatever the sweep is restricted to,
    it succeeds on an in-memory store, deletes exactly the payloads it was asked
    about that belong to the volume and are not in use, keeps every other object,
    and adds to the retired chunk ids exactly those of the deleted payloads. *)
Theorem sweep_replica_exact (replicas : list string) (id vid : string) (l : live) (hints targets chunkIDs : gset Z)
    (p : progress) (r : Repository) (w : Cluster) (m : MemoryStore) (fuel : nat) :
  id ∈ replicas -> w !! id = Some m -> data m !! "" = None -> (size (data m) < fuel)%nat ->
  exists m' res deleted,
    sweep_replica (memory_replicas replicas) fuel vid l hints targets chunkIDs id p (r, w) =
      ((r, <[id := m']> w), Ok (<[id := res]> p.1, deleted)) /\
    (forall k, wanted id vid targets chunkIDs k -> is_Some (garbage vid l k) -> data m' !! k = None) /\
    (forall k, ~ (wanted id vid targets chunkIDs k /\ is_Some (garbage vid l k)) -> data m' !! k = data m !! k) /\
    (forall c, c ∈ deleted <-> c ∈ p.2 \/ c <> 0 /\ exists k, is_Some (data m !! k) /\
                 wanted id vid targets chunkIDs k /\ garbage vid l k = Some c).
Proof. apply sweep_replica_memory. Qed.

(** ** Marks under another spelling of the id *)

Section Marks.
Context {W : Type} (stores : gmap string (PayloadStore W)).
Context (raw : string) (mappings : list ExtentMappingRecord) (targets : gset Z).
Abbreviation gact := (act (Repository * W) gc_error).











End Marks.





Definition gc_objects : MemoryStore := default NewMemoryStore (gc_cluster !! "a").

Lemma list_all_keys_terminates_witness : exists keys,
  listAllObjectStoreKeys 4 (memory_replica "a") "replicas/a/" (gc_repo, gc_cluster) = ((gc_repo, gc_cluster), Ok keys) /\
  gc_key 11 ∈ keys.
Proof.
  destruct (list_all_keys_terminates "a" "replicas/a/" gc_repo gc_cluster gc_objects 4) as (keys & E & _ & Hk).
  - reflexivity.
  - reflexivity.
  - vm_compute. lia.
  - exists keys. split; [exact E|]. apply Hk. split; [reflexivity|]. vm_compute. by eexists.
Defined.




Lemma sweep_replica_exact_witness : exists m res deleted,
  sweep_replica (memory_replicas ["a"]) 4 "000000ab" (mkLive {[gc_key 9; gc_key 10]} {[1]} true) ∅ {[1]} {[10; 11]} "a"
    (∅, ∅) (gc_repo, gc_cluster) = ((gc_repo, <["a" := m]> gc_cluster), Ok (<["a" := res]> ∅, deleted)) /\
  data m !! gc_key 11 = None /\ 11 ∈ deleted.
Proof.
  destruct (sweep_replica_exact ["a"] "a" "000000ab" (mkLive {[gc_key 9; gc_key 10]} {[1]} true) ∅ {[1]} {[10; 11]}
              (∅, ∅) gc_repo gc_cluster gc_objects 4) as (m & res & deleted & E & Hgone & _ & Hdel).
  - left.
  - reflexivity.
  - reflexivity.
  - vm_compute. lia.
  - assert (wanted "a" "000000ab" {[1]} {[10; 11]} (gc_key 11)) as Hw.
    { apply wanted_exact; [by apply elem_of_singleton|apply elem_of_union_r; by apply elem_of_singleton]. }
    exists m, res, deleted. split_and!; [exact E| |].
    + apply Hgone; [exact Hw|]. vm_compute. by eexists.
    + apply Hdel. right. split; [done|]. exists (gc_key 11). split_and!; [vm_compute; by eexists|exact Hw|].
      vm_compute. reflexivity.
Defined.

End PayloadSweepFacts.
