(* ===== verification/DrTransfer.v ===== *)
(** * The progress of a remote transfer

    Models src/sbs/cluster/dr/transfer.go: the record of one shipment to a
    standby cluster and the function that advances it by a progress report.
    Theorems: completion is only ever derived from a verification of the whole
    scope at the target, progress never regresses, terminal transfers are
    frozen, and repeating the report that ended a transfer is answered as a
    replay.  A refused report leaves the record as it was, so the model returns
    the new record only when it is accepted. *)

From Stdlib Require Import ZArith Lia Ascii String.
From stdpp Require Import base list strings relations.
From S2P Require Import Prelude GoStrings.
Open Scope string_scope.
Open Scope Z_scope.

Module Transfer.

Definition TransferStateAdmitted : string := "admitted".
Definition TransferStateTransferring : string := "transferring".
Definition TransferStateVerifying : string := "verifying".
Definition TransferStateCompleted : string := "completed".
Definition TransferStateCanceled : string := "canceled".
Definition TransferStateFailed : string := "failed".

Definition RetryClassNone : string := "none".
Definition RetryClassTransient : string := "transient".
Definition RetryClassTimeout : string := "timeout".
Definition RetryClassThrottle : string := "throttle".
Definition RetryClassPermanent : string := "permanent".
Definition RetryClassCanceled : string := "canceled".

Inductive transfer_error :=
| ScopeRequired | ErrCallerCompletion | ScopeIncomplete | ErrTransferTerminal | AttemptRequired
| ErrProgressRegression | ProgressExceedsScope | InvalidRetryClass (class : string) | ErrorMessageTooLong
| CanceledWithoutRequest | PermanentWithoutMessage | ReceiptWithoutScope | ScopeWithoutReceipt.

Record Transfer := mkTransfer {
  tfAttempt : Z; tfObjectCheckpoint : string; tfExpectedBytes : Z; tfExpectedObjects : Z;
  tfTransferredBytes : Z; tfTransferredObjects : Z; tfVerifiedBytes : Z; tfVerifiedObjects : Z;
  tfTargetVerificationReceipt : string; tfCompatibilityDigest : string; tfRetryClass : string;
  tfFirstError : string; tfLastError : string; tfCancelRequested : bool; tfStarted : bool;
  tfCompleted : bool; tfState : string }.

#[export] Instance Transfer_settable : Settable Transfer := fun x =>
  mkTransfer (tfAttempt x) (tfObjectCheckpoint x) (tfExpectedBytes x) (tfExpectedObjects x)
    (tfTransferredBytes x) (tfTransferredObjects x) (tfVerifiedBytes x) (tfVerifiedObjects x)
    (tfTargetVerificationReceipt x) (tfCompatibilityDigest x) (tfRetryClass x) (tfFirstError x)
    (tfLastError x) (tfCancelRequested x) (tfStarted x) (tfCompleted x) (tfState x).

Record Progress := mkProgress {
  prAttempt : Z; prObjectCheckpoint : string; prTransferredBytes : Z; prTransferredObjects : Z;
  prVerifiedBytes : Z; prVerifiedObjects : Z; prTargetVerificationReceipt : string; prRetryClass : string;
  prErrorMessage : string; prCancelRequested : bool; prCallerCompleted : bool }.

Record Decision := mkDecision { dcReplay : bool; dcCompleted : bool; dcState : string }.

Definition NewTransfer (expectedBytes expectedObjects : Z) (compatibilityDigest : string)
  : result transfer_error Transfer :=
  let compatibilityDigest := TrimSpace compatibilityDigest in
  if (expectedBytes =? 0) || (expectedObjects =? 0) || String.eqb compatibilityDigest ""
  then Err ScopeRequired else
  Ok (mkTransfer 0 "" expectedBytes expectedObjects 0 0 0 0 "" compatibilityDigest RetryClassNone "" ""
        false false false TransferStateAdmitted).

Definition validRetryClass (value : string) : bool :=
  String.eqb value RetryClassNone || String.eqb value RetryClassTransient || String.eqb value RetryClassTimeout
  || String.eqb value RetryClassThrottle || String.eqb value RetryClassPermanent
  || String.eqb value RetryClassCanceled.

(** The trimmed retry class, [none] when it is empty. *)
Definition retry_class (input : Progress) : string :=
  let retryClass := TrimSpace (prRetryClass input) in
  if String.eqb retryClass "" then RetryClassNone else retryClass.

Definition progressMatches (current : Transfer) (input : Progress) : bool :=
  let retryClass := if prCancelRequested input then RetryClassCanceled else retry_class input in
  let errorMessage := if String.eqb (tfState current) TransferStateCompleted then ""
                      else TrimSpace (prErrorMessage input) in
  (prAttempt input =? tfAttempt current)
  && String.eqb (TrimSpace (prObjectCheckpoint input)) (tfObjectCheckpoint current)
  && (prTransferredBytes input =? tfTransferredBytes current)
  && (prTransferredObjects input =? tfTransferredObjects current)
  && (prVerifiedBytes input =? tfVerifiedBytes current)
  && (prVerifiedObjects input =? tfVerifiedObjects current)
  && String.eqb (TrimSpace (prTargetVerificationReceipt input)) (tfTargetVerificationReceipt current)
  && Bool.eqb (prCancelRequested input) (tfCancelRequested current)
  && String.eqb retryClass (tfRetryClass current) && String.eqb errorMessage (tfLastError current).

(** The record after an accepted report. *)
Definition advance_state (current : Transfer) (input : Progress) : Transfer :=
  let retryClass := retry_class input in
  let errorMessage := TrimSpace (prErrorMessage input) in
  let verifiedAll := (prVerifiedBytes input =? tfExpectedBytes current)
                     && (prVerifiedObjects input =? tfExpectedObjects current) in
  let updated := current
    <| tfAttempt := prAttempt input |> <| tfObjectCheckpoint := TrimSpace (prObjectCheckpoint input) |>
    <| tfTransferredBytes := prTransferredBytes input |> <| tfTransferredObjects := prTransferredObjects input |>
    <| tfVerifiedBytes := prVerifiedBytes input |> <| tfVerifiedObjects := prVerifiedObjects input |>
    <| tfRetryClass := retryClass |> <| tfLastError := errorMessage |>
    <| tfFirstError := if negb (String.eqb errorMessage "") && String.eqb (tfFirstError current) ""
                       then errorMessage else tfFirstError current |>
    <| tfCancelRequested := prCancelRequested input |> <| tfStarted := true |>
    <| tfTargetVerificationReceipt := TrimSpace (prTargetVerificationReceipt input) |> in
  if prCancelRequested input
  then updated <| tfState := TransferStateCanceled |> <| tfRetryClass := RetryClassCanceled |>
  else if String.eqb retryClass RetryClassPermanent then updated <| tfState := TransferStateFailed |>
  else if verifiedAll
  then updated <| tfState := TransferStateCompleted |> <| tfCompleted := true |> <| tfLastError := "" |>
  else if (0 <? prVerifiedBytes input) || (0 <? prVerifiedObjects input)
  then updated <| tfState := TransferStateVerifying |>
  else updated <| tfState := TransferStateTransferring |>.

Definition terminal (current : Transfer) : bool :=
  tfCompleted current || String.eqb (tfState current) TransferStateCompleted
  || String.eqb (tfState current) TransferStateCanceled || String.eqb (tfState current) TransferStateFailed.

Definition AdvanceTransfer (current : Transfer) (input : Progress) : result transfer_error (Transfer * Decision) :=
  if prCallerCompleted input then Err ErrCallerCompletion else
  if (tfExpectedBytes current =? 0) || (tfExpectedObjects current =? 0)
     || String.eqb (TrimSpace (tfCompatibilityDigest current)) "" then Err ScopeIncomplete else
  if terminal current then
    (if progressMatches current input
     then Ok (current, mkDecision true (tfCompleted current) (tfState current)) else Err ErrTransferTerminal)
  else
  if prAttempt input =? 0 then Err AttemptRequired else
  if (prAttempt input <? tfAttempt current) || (prTransferredBytes input <? tfTransferredBytes current)
     || (prTransferredObjects input <? tfTransferredObjects current)
     || (prVerifiedBytes input <? tfVerifiedBytes current)
     || (prVerifiedObjects input <? tfVerifiedObjects current) then Err ErrProgressRegression else
  if (tfExpectedBytes current <? prTransferredBytes input) || (prTransferredBytes input <? prVerifiedBytes input)
     || (tfExpectedObjects current <? prTransferredObjects input)
     || (prTransferredObjects input <? prVerifiedObjects input) then Err ProgressExceedsScope else
  let retryClass := retry_class input in
  if negb (validRetryClass retryClass) then Err (InvalidRetryClass retryClass) else
  let errorMessage := TrimSpace (prErrorMessage input) in
  if 512 <? Z.of_nat (String.length errorMessage) then Err ErrorMessageTooLong else
  if String.eqb retryClass RetryClassCanceled && negb (prCancelRequested input) then Err CanceledWithoutRequest else
  if String.eqb retryClass RetryClassPermanent && String.eqb errorMessage "" then Err PermanentWithoutMessage else
  let receipt := TrimSpace (prTargetVerificationReceipt input) in
  let verifiedAll := (prVerifiedBytes input =? tfExpectedBytes current)
                     && (prVerifiedObjects input =? tfExpectedObjects current) in
  if negb (String.eqb receipt "") && negb verifiedAll then Err ReceiptWithoutScope else
  if verifiedAll && String.eqb receipt "" && negb (prCancelRequested input) then Err ScopeWithoutReceipt else
  let updated := advance_state current input in
  Ok (updated, mkDecision false (tfCompleted updated) (tfState updated)).

(** ** Sequences of reports *)

(** One report, refused or accepted. *)
Definition report (current : Transfer) (input : Progress) : Transfer :=
  match AdvanceTransfer current input with Ok (updated, _) => updated | _ => current end.

Definition reports (current : Transfer) (inputs : list Progress) : Transfer := fold_left report inputs current.

Record invariant (t : Transfer) : Prop := {
  iv_scope : tfExpectedBytes t <> 0 /\ tfExpectedObjects t <> 0;
  iv_bounds : tfVerifiedBytes t <= tfTransferredBytes t <= tfExpectedBytes t /\
              tfVerifiedObjects t <= tfTransferredObjects t <= tfExpectedObjects t;
  iv_completed : tfCompleted t = true <-> tfState t = TransferStateCompleted;
  iv_verified : tfCompleted t = true -> tfVerifiedBytes t = tfExpectedBytes t /\
                tfVerifiedObjects t = tfExpectedObjects t /\ tfTargetVerificationReceipt t <> "" }.

(** Every case of an accepted report. *)
Ltac accepted H :=
  repeat match type of H with
  | (if ?b then Err _ else _) = _ => let E := fresh "E" in destruct b eqn:E; [discriminate H|]
  end.

Lemma advance_fields current input : let t := advance_state current input in
  tfExpectedBytes t = tfExpectedBytes current /\ tfExpectedObjects t = tfExpectedObjects current /\
  tfCompatibilityDigest t = tfCompatibilityDigest current /\
  tfAttempt t = prAttempt input /\ tfObjectCheckpoint t = TrimSpace (prObjectCheckpoint input) /\
  tfTransferredBytes t = prTransferredBytes input /\ tfTransferredObjects t = prTransferredObjects input /\
  tfVerifiedBytes t = prVerifiedBytes input /\ tfVerifiedObjects t = prVerifiedObjects input /\
  tfTargetVerificationReceipt t = TrimSpace (prTargetVerificationReceipt input) /\
  tfCancelRequested t = prCancelRequested input.
Proof. cbv zeta. unfold advance_state. repeat case_match; split_and!; reflexivity. Qed.

(** The states an accepted report leads to. *)
Lemma advance_outcome current input : tfCompleted current = false ->
  let t := advance_state current input in
  (prCancelRequested input = true /\ tfState t = TransferStateCanceled /\ tfCompleted t = false /\
   tfRetryClass t = RetryClassCanceled /\ tfLastError t = TrimSpace (prErrorMessage input)) \/
  (prCancelRequested input = false /\ tfRetryClass t = retry_class input /\
   ((tfState t = TransferStateFailed /\ tfCompleted t = false /\ tfLastError t = TrimSpace (prErrorMessage input)) \/
    (tfState t = TransferStateCompleted /\ tfCompleted t = true /\ tfLastError t = "" /\
     prVerifiedBytes input = tfExpectedBytes current /\ prVerifiedObjects input = tfExpectedObjects current) \/
    ((tfState t = TransferStateVerifying \/ tfState t = TransferStateTransferring) /\ tfCompleted t = false))).
Proof.
  intros Hc. cbv zeta. unfold advance_state. destruct (prCancelRequested input).
  { left. split_and!; try reflexivity. exact Hc. }
  right. split; [done|]. destruct (String.eqb (retry_class input) RetryClassPermanent).
  { split; [done|]. left. split_and!; try reflexivity. exact Hc. }
  destruct (_ && _) eqn:Hv.
  { apply andb_true_iff in Hv as [Hb%Z.eqb_eq Ho%Z.eqb_eq]. split; [done|]. right; left. by split_and!. }
  destruct (_ || _); (split; [done|]); right; right; (split; [auto|exact Hc]).
Qed.

Lemma advance_cases current input t d : AdvanceTransfer current input = Ok (t, d) ->
  (terminal current = true /\ t = current /\ progressMatches current input = true) \/
  (terminal current = false /\ t = advance_state current input /\
   tfAttempt current <= prAttempt input /\
   tfTransferredBytes current <= prTransferredBytes input <= tfExpectedBytes current /\
   tfTransferredObjects current <= prTransferredObjects input <= tfExpectedObjects current /\
   tfVerifiedBytes current <= prVerifiedBytes input <= prTransferredBytes input /\
   tfVerifiedObjects current <= prVerifiedObjects input <= prTransferredObjects input /\
   (prVerifiedBytes input = tfExpectedBytes current -> prVerifiedObjects input = tfExpectedObjects current ->
    prCancelRequested input = false -> TrimSpace (prTargetVerificationReceipt input) <> "")).
Proof.
  unfold AdvanceTransfer. intros H. destruct (prCallerCompleted input); [done|]. destruct (_ || _); [done|].
  destruct (terminal current) eqn:Ht.
  { destruct (progressMatches current input) eqn:Hm; [|done]. left. by injection H as <- _. }
  right. split; [done|]. accepted H. injection H as <- _.
  repeat match goal with
  | H : _ || _ = false |- _ => apply orb_false_iff in H as [? ?]
  | H : (_ <? _) = false |- _ => apply Z.ltb_ge in H
  end.
  split_and!; try done. intros Hb Ho Hcancel Hr.
  match goal with H : _ && _ && negb (prCancelRequested input) = false |- _ => revert H end.
  by rewrite Hb, Ho, Hr, Hcancel, !Z.eqb_refl.
Qed.

Lemma terminal_completed t : terminal t = false -> tfCompleted t = false.
Proof. unfold terminal. destruct (tfCompleted t); [done|]. done. Qed.

Lemma report_invariant t input : invariant t -> invariant (report t input).
Proof.
  intros [Hs Hb Hc Hv]. unfold report. destruct (AdvanceTransfer t input) as [[t' d]|e|] eqn:E; [|done|done].
  destruct (advance_cases _ _ _ _ E) as [(_ & -> & _)|(Ht & -> & _ & H1 & H2 & H3 & H4 & Hr)]; [done|].
  pose proof (advance_fields t input) as (Fb & Fo & _ & _ & _ & Ftb & Fto & Fvb & Fvo & Frc & _).
  pose proof (advance_outcome t input (terminal_completed t Ht)) as Hout. cbv zeta in *.
  split; rewrite ?Fb, ?Fo, ?Ftb, ?Fto, ?Fvb, ?Fvo, ?Frc; [done|lia| |].
  - destruct Hout as [(_ & -> & -> & _)|(_ & _ & [(-> & -> & _)|[(-> & -> & _)|([-> | ->] & ->)]])]; done.
  - intros Hcomp. destruct Hout as [(_ & _ & ? & _)|(Hcancel & _ & [(_ & ? & _)|[(_ & _ & _ & ? & ?)|(_ & ?)]])];
      [congruence|congruence| |congruence]. split_and!; [done|done|]. by apply Hr.
Qed.

(** Progress from one record to a later one of the same transfer. *)
Record advances (t t' : Transfer) : Prop := {
  av_scope : tfExpectedBytes t' = tfExpectedBytes t /\ tfExpectedObjects t' = tfExpectedObjects t /\
             tfCompatibilityDigest t' = tfCompatibilityDigest t;
  av_attempt : tfAttempt t <= tfAttempt t';
  av_transferred : tfTransferredBytes t <= tfTransferredBytes t' /\ tfTransferredObjects t <= tfTransferredObjects t';
  av_verified : tfVerifiedBytes t <= tfVerifiedBytes t' /\ tfVerifiedObjects t <= tfVerifiedObjects t';
  av_frozen : terminal t = true -> t' = t }.

#[export] Instance advances_refl : Reflexive advances.
Proof. intros t. split; auto with lia. Qed.
#[export] Instance advances_trans : Transitive advances.
Proof.
  intros a b c [(?&?&?) ? [] [] Hf1] [(?&?&?) ? [] [] Hf2]. split; [split_and!; congruence|lia|lia|lia|].
  intros Ht. pose proof (Hf1 Ht) as ->. by apply Hf2.
Qed.

Lemma report_advances t input : advances t (report t input).
Proof.
  unfold report. destruct (AdvanceTransfer t input) as [[t' d]|e|] eqn:E; [|done|done].
  destruct (advance_cases _ _ _ _ E) as [(_ & -> & _)|(Ht & -> & H0 & H1 & H2 & H3 & H4 & _)]; [done|].
  pose proof (advance_fields t input) as (Fb & Fo & Fd & Fa & _ & Ftb & Fto & Fvb & Fvo & _). cbv zeta in *.
  split; rewrite ?Fb, ?Fo, ?Fd, ?Fa, ?Ftb, ?Fto, ?Fvb, ?Fvo; [done|lia|lia|lia|]. congruence.
Qed.

Lemma reports_advance t inputs : advances t (reports t inputs).
Proof.
  revert t. induction inputs as [|input inputs IH]; intros t; cbn; [done|].
  etrans; [apply report_advances|apply IH].
Qed.

Lemma reports_invariant t inputs : invariant t -> invariant (reports t inputs).
Proof.
  revert t. induction inputs as [|input inputs IH]; intros t Ht; cbn; [done|]. by apply IH, report_invariant.
Qed.

Lemma new_transfer_invariant bytes objects digest t : 0 <= bytes -> 0 <= objects ->
  NewTransfer bytes objects digest = Ok t -> invariant t.
Proof.
  unfold NewTransfer. intros Hb Ho. destruct (_ || _) eqn:E; [done|]. intros [= <-].
  apply orb_false_iff in E as [[E1%Z.eqb_neq E2%Z.eqb_neq]%orb_false_iff _]. by split.
Qed.

(** C15: a transfer only completes by a verified target.  Whatever reports a new
    transfer receives, refused ones included, it stays within its scope, it is
    marked completed exactly in the completed state and then the whole scope is
    verified with a receipt of the target; later reports never lower its
    attempt, transferred or verified counts, and leave a terminal transfer
    exactly as it is. *)
Theorem transfer_completion_verified (bytes objects : Z) (digest : string) (t : Transfer)
    (inputs more : list Progress) : 0 <= bytes -> 0 <= objects -> NewTransfer bytes objects digest = Ok t ->
  invariant (reports t inputs) /\ advances (reports t inputs) (reports (reports t inputs) more).
Proof.
  intros Hb Ho Hn. split; [|apply reports_advance]. apply reports_invariant, (new_transfer_invariant bytes objects digest); done.
Qed.

(** Ending a transfer is idempotent.  The report that completed, canceled or
    failed a transfer, sent again, is accepted as a replay and changes nothing. *)
Theorem terminal_report_replays (current t : Transfer) (input : Progress) (d : Decision) :
  AdvanceTransfer current input = Ok (t, d) -> terminal t = true ->
  AdvanceTransfer t input = Ok (t, mkDecision true (tfCompleted t) (tfState t)).
Proof.
  intros E Hterm. destruct (advance_cases _ _ _ _ E) as [(_ & -> & Hm)|(Ht & -> & _)].
  - revert E. unfold AdvanceTransfer. rewrite Hterm, Hm.
    destruct (prCallerCompleted input); [done|]. by destruct (_ || _).
  - pose proof (advance_fields current input) as (Fb & Fo & Fd & Fa & Fc & Ftb & Fto & Fvb & Fvo & Frc & Fcancel).
    pose proof (advance_outcome current input (terminal_completed current Ht)) as Hout. cbv zeta in *.
    revert E. unfold AdvanceTransfer. destruct (prCallerCompleted input); [done|]. rewrite Fb, Fo, Fd.
    destruct (_ || _); [done|]. rewrite Hterm. intros _.
    enough (progressMatches (advance_state current input) input = true) as -> by done.
    unfold progressMatches. rewrite Fa, Fc, Ftb, Fto, Fvb, Fvo, Frc, Fcancel, !Z.eqb_refl, !String.eqb_refl, eqb_reflx.
    cbn [andb].
    destruct Hout as [(-> & -> & _ & -> & ->)|(-> & -> & [(-> & _ & ->)|[(-> & _ & -> & _)|([Hs|Hs] & Hc)]])];
      rewrite ?String.eqb_refl; cbn; rewrite ?String.eqb_refl; try done;
      unfold terminal in Hterm; rewrite Hs, Hc in Hterm; done.
Qed.

Definition sample_report : Progress := mkProgress 1 "c" 8 2 8 2 " receipt" "" "" false false.

Lemma transfer_completion_verified_witness : exists t, NewTransfer 8 2 "d" = Ok t /\
  tfCompleted (reports t [sample_report]) = true /\
  invariant (reports t [sample_report]) /\
  advances (reports t [sample_report]) (reports (reports t [sample_report]) [sample_report]).
Proof.
  eexists. split; [reflexivity|]. split; [reflexivity|].
  apply (transfer_completion_verified 8 2 "d" _ [sample_report] [sample_report]); [lia|lia|reflexivity].
Defined.

Definition sample_transfer : Transfer :=
  mkTransfer 0 "" 8 2 0 0 0 0 "" "d" RetryClassNone "" "" false false false TransferStateAdmitted.

Lemma terminal_report_replays_witness :
  let t := advance_state sample_transfer sample_report in
  AdvanceTransfer sample_transfer sample_report = Ok (t, mkDecision false true TransferStateCompleted) /\
  AdvanceTransfer t sample_report = Ok (t, mkDecision true true TransferStateCompleted).
Proof.
  split; [reflexivity|].
  exact (terminal_report_replays sample_transfer (advance_state sample_transfer sample_report) sample_report
           (mkDecision false true TransferStateCompleted) eq_refl eq_refl).
Defined.

End Transfer.
