(* ===== verification/DrShipping.v ===== *)
(** * Shipping a recovery point to a standby cluster

    Models src/sbs/cluster/dr/shipping.go: a snapshot is copied object by object
    to a target store with a checkpoint after every object, described by a
    manifest, verified at the target, and imported into a read-only standby.

    The target store, the reader of the snapshot, the standby and the writer of
    checkpoints are interfaces of the code and records of actions on a world [W]
    here; [ctxErr] is [ctx.Err()].  [sha256] is the hash, [json_manifest],
    [json_indent] and [json_parse] the JSON encodings of a manifest.  A time is a
    number of nanoseconds, [0] the zero time.  [fuel] bounds the objects of one
    call.  A failed call returns the checkpoint it got to. *)

From Stdlib Require Import ZArith Lia Ascii String.
From Stdlib Require Strings.Byte.
From stdpp Require Import base list strings.
From coqutil Require Import Byte.
From S2P Require Import Prelude GoStrings.
Open Scope string_scope.
Open Scope Z_scope.

Module Shipping.
Open Scope act_scope.

Definition ShippingManifestVersion : string := "namrbd.dr.shipping.v1".
Definition ShippingChecksumSHA256 : string := "SHA-256".
Definition maxShippingChunkBytes : Z := 64 * 1024 * 1024.
Definition maxShippingObjectCount : Z := 1000000.

Record ShippingObjectRef := mkShippingObjectRef { soKey : string; soOffset : Z; soLength : Z; soChecksum : string }.
Record ShippingObjectEvidence := mkShippingObjectEvidence { evKey : string; evLength : Z; evChecksum : string }.

Record ShippingSpec := mkShippingSpec {
  ssShippingWorkerID : string; ssShippedManifestID : string; ssRecoveryPointID : string;
  ssSourceClusterID : string; ssTargetClusterID : string; ssSourceVolumeID : string;
  ssTargetVolumeID : string; ssSourceSnapshotID : string; ssSourceSnapshotRootID : string;
  ssControlManifestDigest : string; ssPayloadRootsDigest : string; ssReadViewDigest : string;
  ssKeyPolicyDigest : string; ssGovernanceDigest : string; ssGeometryDigest : string;
  ssCompatibilityDigest : string; ssExpectedBytes : Z; ssExpectedObjects : Z; ssGeneration : Z;
  ssChunkSizeBytes : Z; ssCreatedAt : Z }.

#[export] Instance ShippingSpec_settable : Settable ShippingSpec := fun x =>
  mkShippingSpec (ssShippingWorkerID x) (ssShippedManifestID x) (ssRecoveryPointID x) (ssSourceClusterID x)
    (ssTargetClusterID x) (ssSourceVolumeID x) (ssTargetVolumeID x) (ssSourceSnapshotID x)
    (ssSourceSnapshotRootID x) (ssControlManifestDigest x) (ssPayloadRootsDigest x)
    (ssReadViewDigest x) (ssKeyPolicyDigest x) (ssGovernanceDigest x) (ssGeometryDigest x)
    (ssCompatibilityDigest x) (ssExpectedBytes x) (ssExpectedObjects x) (ssGeneration x)
    (ssChunkSizeBytes x) (ssCreatedAt x).

Record ShippingManifest := mkShippingManifest {
  smManifestVersion : string; smShippingWorkerID : string; smShippedManifestID : string;
  smRecoveryPointID : string; smSourceClusterID : string; smTargetClusterID : string;
  smSourceVolumeID : string; smTargetVolumeID : string; smSourceSnapshotID : string;
  smSourceSnapshotRootID : string; smControlManifestDigest : string; smPayloadRootsDigest : string;
  smReadViewDigest : string; smKeyPolicyDigest : string; smGovernanceDigest : string;
  smGeometryDigest : string; smCompatibilityDigest : string; smExpectedBytes : Z; smExpectedObjects : Z;
  smGeneration : Z; smChunkSizeBytes : Z; smChecksumAlgorithm : string; smObjects : list ShippingObjectRef;
  smCreatedAt : Z; smManifestDigest : string }.

#[export] Instance ShippingManifest_settable : Settable ShippingManifest := fun x =>
  mkShippingManifest (smManifestVersion x) (smShippingWorkerID x) (smShippedManifestID x) (smRecoveryPointID x)
    (smSourceClusterID x) (smTargetClusterID x) (smSourceVolumeID x) (smTargetVolumeID x)
    (smSourceSnapshotID x) (smSourceSnapshotRootID x) (smControlManifestDigest x)
    (smPayloadRootsDigest x) (smReadViewDigest x) (smKeyPolicyDigest x) (smGovernanceDigest x)
    (smGeometryDigest x) (smCompatibilityDigest x) (smExpectedBytes x) (smExpectedObjects x)
    (smGeneration x) (smChunkSizeBytes x) (smChecksumAlgorithm x) (smObjects x) (smCreatedAt x)
    (smManifestDigest x).

Record ShippingCheckpoint := mkShippingCheckpoint {
  scShippingWorkerID : string; scShippedManifestID : string; scSourceSnapshotID : string;
  scSourceSnapshotRootID : string; scGeneration : Z; scNextOffset : Z; scObjects : list ShippingObjectRef }.

#[export] Instance ShippingCheckpoint_settable : Settable ShippingCheckpoint := fun x =>
  mkShippingCheckpoint (scShippingWorkerID x) (scShippedManifestID x) (scSourceSnapshotID x) (scSourceSnapshotRootID x)
    (scGeneration x) (scNextOffset x) (scObjects x).

Record ImportConstraints := mkImportConstraints {
  icShippedManifestID : string; icRecoveryPointID : string; icSourceSnapshotID : string;
  icSourceSnapshotRootID : string; icPayloadRootsDigest : string; icGeometryDigest : string;
  icCompatibilityDigest : string; icKeyPolicyDigest : string; icGovernanceDigest : string;
  icTargetVerificationReceipt : string }.

#[export] Instance ImportConstraints_settable : Settable ImportConstraints := fun x =>
  mkImportConstraints (icShippedManifestID x) (icRecoveryPointID x) (icSourceSnapshotID x) (icSourceSnapshotRootID x)
    (icPayloadRootsDigest x) (icGeometryDigest x) (icCompatibilityDigest x) (icKeyPolicyDigest x)
    (icGovernanceDigest x) (icTargetVerificationReceipt x).

Record ImportResult := mkImportResult {
  irImportedBytes : Z; irImportedObjects : Z; irUserspaceReadbackMatched : bool;
  irStandbyWriteRejected : bool; irTargetVerificationReceipt : string }.

#[export] Instance ImportResult_settable : Settable ImportResult := fun x =>
  mkImportResult (irImportedBytes x) (irImportedObjects x) (irUserspaceReadbackMatched x) (irStandbyWriteRejected x)
    (irTargetVerificationReceipt x).

Record ShippingResult := mkShippingResult {
  srManifest : ShippingManifest; srCheckpoint : ShippingCheckpoint; srReceipt : string;
  srResumed : bool; srReplay : bool }.

Inductive ship_error :=
| SpecInvalid | TargetRequired | ShipCanceled (e : string) | ReadFailed (e : string) | PutFailed (e : string)
| PersistFailed (e : string) | ErrShippingIntegrity | ImportFailed (e : string) | WriteNotRejected.

(** The error of a failed shipment and what the result holds beside it. *)
Record ship_failure := mkShipFailure { sfError : ship_error; sfCheckpoint : option (ShippingCheckpoint * bool) }.

(** ** Interfaces *)

Record ShippingObjectStore (W : Type) := mkShippingObjectStore {
  TargetIdentity : string;
  PutObject : string -> bytes -> string -> act W string ShippingObjectEvidence;
  GetObject : string -> string -> act W string bytes }.
Arguments TargetIdentity {W} _.
Arguments PutObject {W} _.
Arguments GetObject {W} _.

(** What [ProbeExternalWrite] answers; an accepted write is no error. *)
Inductive probe_error := ErrStandbyReadOnly | OtherProbeError (e : string).

Record StandbyImporter (W : Type) := mkStandbyImporter {
  ImportRange : Z -> bytes -> act W string unit;
  ReadRange : Z -> Z -> act W string bytes;
  ProbeExternalWrite : Z -> bytes -> act W probe_error unit }.
Arguments ImportRange {W} _.
Arguments ReadRange {W} _.
Arguments ProbeExternalWrite {W} _.

(** ** Encodings *)

(** [hex.EncodeToString]. *)
Definition hex_encode (l : bytes) : string :=
  string_of_list_ascii (concat (map (fun b =>
    [hex_digit (byte.unsigned b / 16); hex_digit (byte.unsigned b mod 16)]) l)).

Definition object_key (index : Z) : string := "objects/" ++ format_06d index ++ ".bin".

Definition nl : string := String (chr 10) "".

Section Shipping.
Context (sha256 : bytes -> bytes).
Context (json_manifest json_indent : ShippingManifest -> bytes) (json_parse : bytes -> option ShippingManifest).

Definition shippingSHA256 (data : bytes) : string := "sha256:" ++ hex_encode (sha256 data).

Definition shippingManifestDigest (manifest : ShippingManifest) : string :=
  shippingSHA256 (json_manifest (manifest <| smManifestDigest := "" |>)).

Definition shippingReceipt (targetIdentity : string) (manifest : ShippingManifest) : string :=
  shippingSHA256 (list_byte_of_string (TrimSpace targetIdentity ++ nl ++ smManifestDigest manifest ++ nl
    ++ FormatUint (smExpectedBytes manifest) ++ nl ++ FormatUint (smExpectedObjects manifest) ++ nl)).

(** ** Validation *)

Definition required_fields (spec : ShippingSpec) : list string :=
  [ssShippingWorkerID spec; ssShippedManifestID spec; ssRecoveryPointID spec; ssSourceClusterID spec;
   ssTargetClusterID spec; ssSourceVolumeID spec; ssTargetVolumeID spec; ssSourceSnapshotID spec;
   ssSourceSnapshotRootID spec; ssControlManifestDigest spec; ssPayloadRootsDigest spec;
   ssReadViewDigest spec; ssKeyPolicyDigest spec; ssGovernanceDigest spec; ssGeometryDigest spec;
   ssCompatibilityDigest spec].

Definition validateShippingSpec (spec : ShippingSpec) : bool :=
  forallb (fun value => negb (String.eqb (TrimSpace value) "")) (required_fields spec)
  && negb ((ssExpectedBytes spec =? 0) || (ssExpectedObjects spec =? 0) || (ssGeneration spec =? 0)
           || (ssChunkSizeBytes spec =? 0) || (maxShippingChunkBytes <? ssChunkSizeBytes spec))
  && (ssExpectedObjects spec =? add64 (sub64 (ssExpectedBytes spec) 1 / ssChunkSizeBytes spec) 1)
  && (ssExpectedObjects spec <=? maxShippingObjectCount).

Definition manifest_spec (manifest : ShippingManifest) : ShippingSpec :=
  mkShippingSpec
    (smShippingWorkerID manifest) (smShippedManifestID manifest) (smRecoveryPointID manifest)
    (smSourceClusterID manifest) (smTargetClusterID manifest) (smSourceVolumeID manifest)
    (smTargetVolumeID manifest) (smSourceSnapshotID manifest) (smSourceSnapshotRootID manifest)
    (smControlManifestDigest manifest) (smPayloadRootsDigest manifest) (smReadViewDigest manifest)
    (smKeyPolicyDigest manifest) (smGovernanceDigest manifest) (smGeometryDigest manifest)
    (smCompatibilityDigest manifest) (smExpectedBytes manifest) (smExpectedObjects manifest)
    (smGeneration manifest) (smChunkSizeBytes manifest) (smCreatedAt manifest).

Definition validateShippingManifest (manifest : ShippingManifest) : bool :=
  String.eqb (smManifestVersion manifest) ShippingManifestVersion
  && String.eqb (smChecksumAlgorithm manifest) ShippingChecksumSHA256 && negb (smCreatedAt manifest =? 0)
  && validateShippingSpec (manifest_spec manifest)
  && (zlen (smObjects manifest) =? smExpectedObjects manifest).

Definition newShippingManifest (spec : ShippingSpec) (objects : list ShippingObjectRef) : ShippingManifest :=
  mkShippingManifest ShippingManifestVersion
    (ssShippingWorkerID spec) (ssShippedManifestID spec) (ssRecoveryPointID spec)
    (ssSourceClusterID spec) (ssTargetClusterID spec) (ssSourceVolumeID spec) (ssTargetVolumeID spec)
    (ssSourceSnapshotID spec) (ssSourceSnapshotRootID spec) (ssControlManifestDigest spec)
    (ssPayloadRootsDigest spec) (ssReadViewDigest spec) (ssKeyPolicyDigest spec)
    (ssGovernanceDigest spec) (ssGeometryDigest spec) (ssCompatibilityDigest spec)
    (ssExpectedBytes spec) (ssExpectedObjects spec) (ssGeneration spec) (ssChunkSizeBytes spec)
    ShippingChecksumSHA256 objects (ssCreatedAt spec) "".

Definition validateImportConstraints (manifest : ShippingManifest) (constraints : ImportConstraints)
    (receipt : string) : bool :=
  forallb (fun '(got, want) => negb (String.eqb (TrimSpace want) "") && String.eqb got want)
    [(smShippedManifestID manifest, icShippedManifestID constraints);
     (smRecoveryPointID manifest, icRecoveryPointID constraints);
     (smSourceSnapshotID manifest, icSourceSnapshotID constraints);
     (smSourceSnapshotRootID manifest, icSourceSnapshotRootID constraints);
     (smPayloadRootsDigest manifest, icPayloadRootsDigest constraints);
     (smGeometryDigest manifest, icGeometryDigest constraints);
     (smCompatibilityDigest manifest, icCompatibilityDigest constraints);
     (smKeyPolicyDigest manifest, icKeyPolicyDigest constraints);
     (smGovernanceDigest manifest, icGovernanceDigest constraints);
     (receipt, icTargetVerificationReceipt constraints)].

Section World.
Context {W : Type} (target : ShippingObjectStore W).

(** ** Verification at the target *)

(** Objects in order, without gaps, each with the content its checksum names. *)
Fixpoint verify_objects (objects : list ShippingObjectRef) (index nextOffset expectedBytes : Z)
  : act W ship_error Z :=
  match objects with
  | [] => ret_act nextOffset
  | object :: objects =>
      if negb (String.eqb (soKey object) (object_key index)) || negb (soOffset object =? nextOffset)
         || (soLength object =? 0) || (expectedBytes <? soOffset object)
         || (sub64 expectedBytes (soOffset object) <? soLength object)
      then fail_act ErrShippingIntegrity else
      data <-- (fun w => let '(w, r) := GetObject target (soKey object) (soChecksum object) w in
                         (w, map_err (fun _ => ErrShippingIntegrity) r));
      if negb (zlen data =? soLength object) || negb (String.eqb (shippingSHA256 data) (soChecksum object))
      then fail_act ErrShippingIntegrity else
      verify_objects objects (index + 1) (add64 nextOffset (soLength object)) expectedBytes
  end.

Definition VerifyShippingTarget (manifest : ShippingManifest) : act W ship_error string :=
  if String.eqb (TrimSpace (TargetIdentity target)) "" then fail_act TargetRequired else
  if negb (validateShippingManifest manifest) then fail_act ErrShippingIntegrity else
  if negb (String.eqb (shippingManifestDigest manifest) (smManifestDigest manifest))
  then fail_act ErrShippingIntegrity else
  nextOffset <-- verify_objects (smObjects manifest) 0 0 (smExpectedBytes manifest);
  if negb (nextOffset =? smExpectedBytes manifest) then fail_act ErrShippingIntegrity else
  manifestBytes <-- (fun w => let '(w, r) := GetObject target "manifest.json" "" w in
                              (w, map_err (fun _ => ErrShippingIntegrity) r));
  match json_parse manifestBytes with
  | None => fail_act ErrShippingIntegrity
  | Some stored =>
      if negb (String.eqb (shippingManifestDigest stored) (smManifestDigest manifest))
         || negb (String.eqb (smManifestDigest stored) (smManifestDigest manifest))
      then fail_act ErrShippingIntegrity else
      ret_act (shippingReceipt (TargetIdentity target) manifest)
  end.

Definition ReadShippingManifest : act W ship_error ShippingManifest :=
  if String.eqb (TrimSpace (TargetIdentity target)) "" then fail_act TargetRequired else
  manifestBytes <-- (fun w => let '(w, r) := GetObject target "manifest.json" "" w in
                              (w, map_err (fun _ => ErrShippingIntegrity) r));
  match json_parse manifestBytes with
  | None => fail_act ErrShippingIntegrity
  | Some manifest =>
      if negb (validateShippingManifest manifest) then fail_act ErrShippingIntegrity else
      if negb (String.eqb (shippingManifestDigest manifest) (smManifestDigest manifest))
      then fail_act ErrShippingIntegrity else ret_act manifest
  end.

(** ** Shipping *)

Definition fresh_checkpoint (spec : ShippingSpec) : ShippingCheckpoint :=
  mkShippingCheckpoint (ssShippingWorkerID spec) (ssShippedManifestID spec) (ssSourceSnapshotID spec)
    (ssSourceSnapshotRootID spec) (ssGeneration spec) 0 [].

Definition verifyShippingCheckpoint (spec : ShippingSpec) (checkpoint : ShippingCheckpoint)
  : act W ship_error (ShippingCheckpoint * bool) :=
  if String.eqb (scShippingWorkerID checkpoint) "" then ret_act (fresh_checkpoint spec, false) else
  if negb (String.eqb (scShippingWorkerID checkpoint) (ssShippingWorkerID spec))
     || negb (String.eqb (scShippedManifestID checkpoint) (ssShippedManifestID spec))
     || negb (String.eqb (scSourceSnapshotID checkpoint) (ssSourceSnapshotID spec))
     || negb (String.eqb (scSourceSnapshotRootID checkpoint) (ssSourceSnapshotRootID spec))
     || negb (scGeneration checkpoint =? ssGeneration spec)
  then fail_act ErrShippingIntegrity else
  nextOffset <-- verify_objects (scObjects checkpoint) 0 0 (ssExpectedBytes spec);
  if negb (scNextOffset checkpoint =? nextOffset) || (ssExpectedObjects spec <? zlen (scObjects checkpoint))
  then fail_act ErrShippingIntegrity else
  ret_act (checkpoint, 0 <? scNextOffset checkpoint).

Context (ctxErr : act W string unit) (ReadRecoveryPoint : string -> string -> Z -> Z -> act W string bytes).
Context (persist : option (ShippingCheckpoint -> act W string unit)).

(** A step of the loop whose failure reports the progress so far. *)
Definition step {E A} (progress : ShippingCheckpoint) (resumed : bool) (wrap : E -> ship_error) (m : act W E A)
  : act W ship_failure A := fun w =>
  let '(w, r) := m w in (w, map_err (fun e => mkShipFailure (wrap e) (Some (progress, resumed))) r).

Fixpoint ship_loop (fuel : nat) (spec : ShippingSpec) (resumed : bool) (progress : ShippingCheckpoint)
  : act W ship_failure ShippingCheckpoint :=
  if ssExpectedBytes spec <=? scNextOffset progress then ret_act progress else
  match fuel with
  | O => lift_act Panic
  | S fuel =>
      let integrity {A} : act W ship_failure A :=
        fail_act (mkShipFailure ErrShippingIntegrity (Some (progress, resumed))) in
      step progress resumed ShipCanceled ctxErr;;
      let length := Z.min (ssChunkSizeBytes spec) (sub64 (ssExpectedBytes spec) (scNextOffset progress)) in
      data <-- step progress resumed ReadFailed
                 (ReadRecoveryPoint (ssSourceSnapshotID spec) (ssSourceSnapshotRootID spec) (scNextOffset progress) length);
      if negb (zlen data =? length) then integrity else
      let key := object_key (zlen (scObjects progress)) in
      let checksum := shippingSHA256 data in
      ref <-- step progress resumed PutFailed (PutObject target key data checksum);
      if negb (String.eqb (evKey ref) key) || negb (evLength ref =? length)
         || negb (String.eqb (evChecksum ref) checksum) then integrity else
      let progress := progress
        <| scObjects := (scObjects progress
             ++ [mkShippingObjectRef (evKey ref) (scNextOffset progress) (evLength ref) (evChecksum ref)])%list |>
        <| scNextOffset := add64 (scNextOffset progress) length |> in
      match persist with
      | Some persist => step progress resumed PersistFailed (persist progress)
      | None => ret_act tt
      end;;
      ship_loop fuel spec resumed progress
  end.

(** [nowUnix] is the clock, in nanoseconds. *)
Definition ShipRecoveryPoint (fuel : nat) (nowUnix : Z) (spec : ShippingSpec) (checkpoint : ShippingCheckpoint)
  : act W ship_failure ShippingResult :=
  let plain {A} (e : ship_error) : act W ship_failure A := fail_act (mkShipFailure e None) in
  if negb (validateShippingSpec spec) then plain SpecInvalid else
  if String.eqb (TrimSpace (TargetIdentity target)) "" then plain TargetRequired else
  let spec := if ssCreatedAt spec =? 0 then spec <| ssCreatedAt := nowUnix |> else spec in
  verified <-- (fun w => let '(w, r) := verifyShippingCheckpoint spec checkpoint w in
                         (w, map_err (fun e => mkShipFailure e None) r));
  let resumed := verified.2 in
  progress <-- ship_loop fuel spec resumed verified.1;
  let manifest := newShippingManifest spec (scObjects progress) in
  let manifest := manifest <| smManifestDigest := shippingManifestDigest manifest |> in
  let manifestBytes := json_indent manifest in
  manifestRef <-- step progress resumed PutFailed
                    (PutObject target "manifest.json" manifestBytes (shippingSHA256 manifestBytes));
  if negb (String.eqb (evKey manifestRef) "manifest.json") || negb (evLength manifestRef =? zlen manifestBytes)
     || negb (String.eqb (evChecksum manifestRef) (shippingSHA256 manifestBytes))
  then fail_act (mkShipFailure ErrShippingIntegrity (Some (progress, resumed))) else
  receipt <-- step progress resumed (fun e => e) (VerifyShippingTarget manifest);
  ret_act (mkShippingResult manifest progress receipt resumed
             (resumed && (scNextOffset checkpoint =? ssExpectedBytes spec))).

(** ** Importing *)

Context (standby : StandbyImporter W).

(** The error of an import and the result beside it. *)
Record import_failure := mkImportFailure { ifError : ship_error; ifResult : option ImportResult }.

Definition probe : bytes := list_byte_of_string "namrbd-dr-standby-write-probe".

Definition expect_read_only (result : ImportResult) : act W import_failure unit := fun w =>
  match ProbeExternalWrite standby 0 probe w with
  | (w, Err ErrStandbyReadOnly) => (w, Ok tt)
  | (w, Panic) => (w, Panic)
  | (w, _) => (w, Err (mkImportFailure WriteNotRejected (Some result)))
  end.

Definition import_step {E A} (result : ImportResult) (wrap : E -> ship_error) (m : act W E A)
  : act W import_failure A := fun w =>
  let '(w, r) := m w in (w, map_err (fun e => mkImportFailure (wrap e) (Some result)) r).

Fixpoint import_objects (objects : list ShippingObjectRef) (result : ImportResult) : act W import_failure ImportResult :=
  match objects with
  | [] => ret_act result
  | object :: objects =>
      data <-- import_step result (fun _ => ErrShippingIntegrity) (GetObject target (soKey object) (soChecksum object));
      import_step result ImportFailed (ImportRange standby (soOffset object) data);;
      import_objects objects
        (result <| irImportedBytes := add64 (irImportedBytes result) (soLength object) |>
                <| irImportedObjects := add64 (irImportedObjects result) 1 |>)
  end.

Fixpoint readback (objects : list ShippingObjectRef) (result : ImportResult) : act W import_failure unit :=
  match objects with
  | [] => ret_act tt
  | object :: objects =>
      expected <-- import_step result (fun _ => ErrShippingIntegrity) (GetObject target (soKey object) (soChecksum object));
      actual <-- import_step result ImportFailed (ReadRange standby (soOffset object) (soLength object));
      if negb (zlen actual =? zlen expected) || negb (String.eqb (shippingSHA256 actual) (shippingSHA256 expected))
      then fail_act (mkImportFailure ErrShippingIntegrity (Some result)) else
      readback objects result
  end.

Definition ImportReadOnlyStandby (manifest : ShippingManifest) (constraints : ImportConstraints)
  : act W import_failure ImportResult :=
  receipt <-- (fun w => let '(w, r) := VerifyShippingTarget manifest w in
                        (w, map_err (fun e => mkImportFailure e None) r));
  if negb (validateImportConstraints manifest constraints receipt)
  then fail_act (mkImportFailure ErrShippingIntegrity None) else
  let result := mkImportResult 0 0 false false receipt in
  expect_read_only result;;
  result <-- import_objects (smObjects manifest) (result <| irStandbyWriteRejected := true |>);
  readback (smObjects manifest) result;;
  let result := result <| irUserspaceReadbackMatched := true |> in
  expect_read_only result;;
  ret_act result.

End World.
End Shipping.
End Shipping.
