(* ===== verification/DrShippingFacts.v ===== *)
(** * A shipped recovery point arrives exactly

    Proofs about [DrShipping]: what a successful verification says of an
    arbitrary target store, and that shipping and importing against services that
    keep their promises (the class [Services]) ends with a standby that holds
    exactly the recovery point, also when the shipment resumes from a persisted
    checkpoint or finds the objects of an interrupted run. *)

From Stdlib Require Import ZArith Lia Ascii String.
From Stdlib Require Strings.Byte.
From stdpp Require Import base list list_numbers gmap strings.
From coqutil Require Import Byte.
From S2P Require Import Prelude GoStrings VolumeId DrShipping.
Open Scope string_scope.
Open Scope Z_scope.

Module ShippingFacts.
Import Shipping.

(** ** Keys *)

Lemma append_inj_l (p a b : string) : (p ++ a)%string = (p ++ b)%string -> a = b.
Proof. induction p as [|c p IH]; [done|]. cbn. intros [= H]. by apply IH. Qed.

Lemma append_inj_r (p a b : string) : (a ++ p)%string = (b ++ p)%string -> a = b.
Proof.
  intros H%(f_equal list_ascii_of_string). rewrite !chars_app in H.
  apply string_chars_inj. by apply (inj (.++ list_ascii_of_string p)%list).
Qed.

Lemma object_key_inj a b : u64 a -> u64 b -> object_key a = object_key b -> a = b.
Proof.
  intros Ha Hb H%append_inj_l%append_inj_r%chars_inj.
  by rewrite <-(dec_value_pad 6 a), <-(dec_value_pad 6 b), H.
Qed.

Lemma object_key_not_manifest i : object_key i <> "manifest.json".
Proof. done. Qed.

(** ** Digests *)

Lemma hex_encode_digits data : exists l, hex_encode data = string_of_list_ascii l /\ Forall lower_hex l.
Proof.
  unfold hex_encode. eexists. split; [reflexivity|]. apply Forall_concat, Forall_fmap, Forall_true. intros b.
  pose proof (byte.unsigned_range b). cbn. repeat constructor; eexists; (split; [|reflexivity]); dlia.
Qed.

Lemma digest_not_blank (sha256 : bytes -> bytes) data :
  TrimSpace (shippingSHA256 sha256 data) <> "".
Proof.
  unfold shippingSHA256. destruct (hex_encode_digits (sha256 data)) as (l & -> & Hl).
  rewrite <-(string_of_list_ascii_of_string ("sha256:" ++ string_of_list_ascii l)), chars_app,
    list_ascii_of_string_of_list_ascii.
  rewrite VolumeId.TrimSpace_graphic; [done|]. apply Forall_app. split; [|by apply VolumeId.lower_graphic].
  repeat constructor; vm_compute; reflexivity.
Qed.

Section Facts.
Context (sha256 : bytes -> bytes).
Context (json_manifest json_indent : ShippingManifest -> bytes) (json_parse : bytes -> option ShippingManifest).

Local Abbreviation sha := (shippingSHA256 sha256).

(** ** Verification of an arbitrary target *)

(** Objects that follow each other from [off], the first one numbered [i]. *)
Fixpoint tiles (i off : Z) (objects : list ShippingObjectRef) : Prop :=
  match objects with
  | [] => True
  | o :: objects => soKey o = object_key i /\ soOffset o = off /\ 0 < soLength o /\
                    tiles (i + 1) (off + soLength o) objects
  end.

Definition total (objects : list ShippingObjectRef) : Z := fold_right (fun o n => soLength o + n) 0 objects.

Definition u64_object (o : ShippingObjectRef) : Prop := u64 (soOffset o) /\ u64 (soLength o).

Lemma verify_objects_tiles {W} (target : ShippingObjectStore W) objects : forall i off expected w w' r,
  Forall u64_object objects -> u64 off -> u64 expected -> off <= expected ->
  verify_objects sha256 target objects i off expected w = (w', Ok r) ->
  tiles i off objects /\ r = off + total objects /\ r <= expected.
Proof.
  induction objects as [|o objects IH]; intros i off expected w w' r Hf Hoff He Hle; cbn [verify_objects tiles total fold_right].
  { intros [= <- <-]. split_and!; [done|lia|lia]. }
  inversion Hf as [|? ? [Ho Hl] Hf']; subst. destruct (_ || _) eqn:Hbad; [done|].
  repeat match goal with H : _ || _ = false |- _ => apply orb_false_iff in H as [? ?] end.
  repeat match goal with
  | H : negb _ = false |- _ => apply negb_false_iff in H
  | H : String.eqb _ _ = true |- _ => apply String.eqb_eq in H
  | H : (_ =? _) = true |- _ => apply Z.eqb_eq in H
  | H : (_ =? _) = false |- _ => apply Z.eqb_neq in H
  | H : (_ <? _) = false |- _ => apply Z.ltb_ge in H
  end.
  unfold in_u in *. subst. rewrite sub64_small in * by (unfold in_u; lia).
  intros (w1 & data & _ & Hrun)%bind_act_inv. destruct (_ || _); [done|].
  rewrite add64_small in Hrun by (unfold in_u; lia).
  apply IH in Hrun as (Ht & -> & ?); [|done|unfold in_u; lia|done|lia].
  split_and!; [done|done|lia|done|unfold total; cbn; lia|done].
Qed.

(** A target that passes verification holds a complete recovery point.
    Whatever the store answers, a successful [VerifyShippingTarget] means that the
    objects of the manifest are numbered in order from zero, follow each other
    without a gap or an overlap from offset zero, cover exactly the expected bytes
    and are exactly as many as expected. *)
Theorem verified_objects_tile {W} (target : ShippingObjectStore W) (m : ShippingManifest) (w w' : W) (receipt : string) :
  u64 (smExpectedBytes m) -> Forall u64_object (smObjects m) ->
  VerifyShippingTarget sha256 json_manifest json_parse target m w = (w', Ok receipt) ->
  tiles 0 0 (smObjects m) /\ total (smObjects m) = smExpectedBytes m /\
  zlen (smObjects m) = smExpectedObjects m /\ receipt = shippingReceipt sha256 (TargetIdentity target) m.
Proof.
  intros He Hf. unfold VerifyShippingTarget. destruct (String.eqb _ ""); [done|].
  destruct (validateShippingManifest m) eqn:Hv; [|done]. cbn [negb]. destruct (negb _); [done|].
  intros (w1 & n & Hobj & H)%bind_act_inv. destruct (n =? smExpectedBytes m) eqn:Hn; [|done]. cbn [negb] in H.
  apply Z.eqb_eq in Hn. apply bind_act_inv in H as (w2 & stored & _ & H).
  destruct (json_parse stored); [|done]. destruct (_ || _); [done|]. injection H as _ <-.
  apply verify_objects_tiles in Hobj as (Ht & Hsum & _); [|done|unfold in_u; lia|done|unfold in_u in He; lia].
  unfold validateShippingManifest in Hv. apply andb_true_iff in Hv as [_ Hlen%Z.eqb_eq].
  split_and!; [done|lia|done|done].
Qed.

(** ** Services that keep their promises *)

(** What the services around a shipment promise.  [objects] and [image] are what
    the target store and the standby hold; a store refuses to replace an object
    by a different one. *)
Class Services {W : Type} (target : ShippingObjectStore W) (ctxErr : act W string unit)
    (ReadRecoveryPoint : string -> string -> Z -> Z -> act W string bytes)
    (persist : option (ShippingCheckpoint -> act W string unit)) (standby : StandbyImporter W)
    (snapshotID rootID : string) (snapshot : bytes) := {
  objects : W -> gmap string bytes;
  image : W -> bytes;
  put_law w key data : objects w !! key = None \/ objects w !! key = Some data ->
    exists w', PutObject target key data (sha data) w = (w', Ok (mkShippingObjectEvidence key (zlen data) (sha data))) /\
               objects w' = <[key := data]> (objects w) /\ image w' = image w;
  get_law w key data checksum : objects w !! key = Some data -> checksum = "" \/ checksum = sha data ->
    exists w', GetObject target key checksum w = (w', Ok data) /\ objects w' = objects w /\ image w' = image w;
  ctx_law w : exists w', ctxErr w = (w', Ok tt) /\ objects w' = objects w /\ image w' = image w;
  read_law w offset length : 0 <= offset -> 0 <= length -> offset + length <= zlen snapshot ->
    exists w', ReadRecoveryPoint snapshotID rootID offset length w = (w', Ok (slice offset (offset + length) snapshot)) /\
               objects w' = objects w /\ image w' = image w;
  persist_law w p c : persist = Some p ->
    exists w', p c w = (w', Ok tt) /\ objects w' = objects w /\ image w' = image w;
  import_law w offset data : 0 <= offset -> offset + zlen data <= zlen (image w) ->
    exists w', ImportRange standby offset data w = (w', Ok tt) /\ objects w' = objects w /\
               image w' = splice (image w) offset data;
  range_law w offset length : 0 <= offset -> 0 <= length -> offset + length <= zlen (image w) ->
    exists w', ReadRange standby offset length w = (w', Ok (slice offset (offset + length) (image w))) /\
               objects w' = objects w /\ image w' = image w;
  probe_law w data : exists w', ProbeExternalWrite standby 0 data w = (w', Err ErrStandbyReadOnly) /\
               objects w' = objects w /\ image w' = image w }.

(** ** A recovery point in pieces *)

Section Pieces.
Context (snapshot : bytes) (chunk : Z).

Local Abbreviation n := (zlen snapshot).

(** Where object [k] begins, what it holds and how the manifest names it. *)
Definition boundary_of (k : Z) : Z := Z.min (k * chunk) n.
Definition piece_of (k : Z) : bytes := slice (boundary_of k) (boundary_of (k + 1)) snapshot.
Definition piece_ref (k : Z) : ShippingObjectRef :=
  mkShippingObjectRef (object_key k) (boundary_of k) (zlen (piece_of k)) (sha (piece_of k)).
Definition piece_refs (from count : Z) : list ShippingObjectRef := map piece_ref (seqZ from count).

Context (N : Z) (Hchunk : 0 < chunk) (Hn : 0 < n) (HN : N = (n - 1) / chunk + 1).

Lemma pieces_cover : n <= N * chunk /\ (N - 1) * chunk < n.
Proof. rewrite HN. split; dlia. Qed.

Lemma boundary_inside k : 0 <= k < N -> boundary_of k = k * chunk /\ boundary_of k < boundary_of (k + 1) <= n.
Proof. pose proof pieces_cover. unfold boundary_of. intros Hk. assert (k * chunk < n) by nia. lia. Qed.

Lemma boundary_end : boundary_of N = n.
Proof. pose proof pieces_cover. unfold boundary_of. lia. Qed.

Lemma boundary_nonneg k : 0 <= k -> 0 <= boundary_of k <= n.
Proof. unfold boundary_of. intros. split; [|lia]. apply Z.min_glb; lia. Qed.

Lemma zlen_piece k : 0 <= k < N -> zlen (piece_of k) = boundary_of (k + 1) - boundary_of k.
Proof.
  intros Hk. pose proof (boundary_inside k Hk). pose proof (boundary_nonneg k). unfold piece_of. apply zlen_slice; lia.
Qed.

Lemma piece_refs_cons k m : 0 < m -> piece_refs k m = piece_ref k :: piece_refs (k + 1) (m - 1).
Proof. intros Hm. unfold piece_refs. rewrite seqZ_cons by lia. cbn [map]. repeat f_equal; lia. Qed.

Lemma piece_refs_snoc k m : 0 <= m -> piece_refs k (m + 1) = (piece_refs k m ++ [piece_ref (k + m)])%list.
Proof. intros Hm. unfold piece_refs. rewrite seqZ_app, map_app by lia. done. Qed.

Lemma zlen_piece_refs k m : 0 <= m -> zlen (piece_refs k m) = m.
Proof. intros Hm. unfold zlen, piece_refs. rewrite length_map, length_seqZ. lia. Qed.

End Pieces.

Lemma bind_act_run {S E A B} (m : act S E A) (f : A -> act S E B) s s1 a :
  m s = (s1, Ok a) -> bind_act m f s = f a s1.
Proof. unfold bind_act. by intros ->. Qed.

(** ** Running against the services *)

Section Run.
Context {W : Type} (target : ShippingObjectStore W) (ctxErr : act W string unit).
Context (ReadRecoveryPoint : string -> string -> Z -> Z -> act W string bytes).
Context (persist : option (ShippingCheckpoint -> act W string unit)) (standby : StandbyImporter W).
Context (snapshotID rootID : string) (snapshot : bytes).
Context `{!Services target ctxErr ReadRecoveryPoint persist standby snapshotID rootID snapshot}.
Context (chunk N : Z).
Context (Hchunk : 0 < chunk) (Hn : 0 < zlen snapshot) (Hu : u64 (zlen snapshot)).
Context (HN : N = (zlen snapshot - 1) / chunk + 1).

Local Abbreviation n := (zlen snapshot).
Local Abbreviation boundary := (boundary_of snapshot chunk).
Local Abbreviation piece := (piece_of snapshot chunk).
Local Abbreviation piece_ref := (piece_ref snapshot chunk).
Local Abbreviation piece_refs := (piece_refs snapshot chunk).

(** A step that left both sides as they were. *)
Definition same (w w' : W) : Prop := objects w' = objects w /\ image w' = image w.

#[local] Instance same_refl : Reflexive same.
Proof. by split. Qed.
#[local] Instance same_trans : Transitive same.
Proof. intros a b c [H1 H2] [H3 H4]. split; congruence. Qed.

(** The target holds the pieces [k <= i < k + m]. *)
Definition stored (w : W) (k m : Z) : Prop :=
  forall i, k <= i < k + m -> objects w !! object_key i = Some (piece i).

Lemma stored_same w w' k m : same w w' -> stored w k m -> stored w' k m.
Proof. intros [Ho _] H i Hi. rewrite Ho. auto. Qed.

Lemma stored_tail w k m : stored w k m -> stored w (k + 1) (m - 1).
Proof. intros H i Hi. apply H. lia. Qed.

Lemma get_piece w i : objects w !! object_key i = Some (piece i) ->
  exists w', GetObject target (object_key i) (sha (piece i)) w = (w', Ok (piece i)) /\ same w w'.
Proof. intros H. apply (get_law w _ _ _ H). by right. Qed.

Lemma verify_pieces (m : nat) : forall k w, 0 <= k -> k + Z.of_nat m <= N -> stored w k (Z.of_nat m) ->
  exists w', verify_objects sha256 target (piece_refs k (Z.of_nat m)) k (boundary k) n w
             = (w', Ok (boundary (k + Z.of_nat m))) /\ same w w'.
Proof.
  induction m as [|m IH]; intros k w Hk Hle Hst.
  { exists w. rewrite Z.add_0_r. done. }
  rewrite piece_refs_cons by lia. cbn [verify_objects piece_ref soKey soOffset soLength soChecksum].
  pose proof (boundary_inside snapshot chunk N Hchunk HN k ltac:(lia)) as [_ Hb].
  pose proof (boundary_nonneg snapshot chunk Hchunk Hn k Hk).
  pose proof (zlen_piece snapshot chunk N Hchunk Hn HN k ltac:(lia)) as Hl. unfold in_u in Hu.
  rewrite String.eqb_refl, Z.eqb_refl. cbn [negb orb].
  rewrite (proj2 (Z.eqb_neq _ 0)) by lia. rewrite (proj2 (Z.ltb_ge n _)) by lia.
  rewrite sub64_small by (unfold in_u; lia). rewrite (proj2 (Z.ltb_ge (n - _) _)) by lia. cbn [orb].
  destruct (get_piece w k) as (w1 & Hg & Hs1); [apply Hst; lia|].
  erewrite bind_act_run by (rewrite Hg; reflexivity).
  rewrite Z.eqb_refl, String.eqb_refl. cbn [negb orb].
  rewrite add64_small by (unfold in_u; lia).
  replace (boundary k + zlen (piece k)) with (boundary (k + 1)) by lia.
  replace (Z.of_nat (S m) - 1) with (Z.of_nat m) by lia.
  destruct (IH (k + 1) w1) as (w2 & -> & Hs2); [lia|lia| |].
  - eapply stored_same; [exact Hs1|]. replace (Z.of_nat m) with (Z.of_nat (S m) - 1) by lia. by apply stored_tail.
  - exists w2. split; [|by etrans]. by replace (k + 1 + Z.of_nat m) with (k + Z.of_nat (S m)) by lia.
Qed.

(** *** Shipping *)

(** Leftovers of an interrupted run: an object key is free or holds its piece. *)
Definition leftovers (w : W) : Prop := forall i, 0 <= i < N ->
  objects w !! object_key i = None \/ objects w !! object_key i = Some (piece i).

Context (spec : ShippingSpec).
Context (Hid : ssSourceSnapshotID spec = snapshotID) (Hroot : ssSourceSnapshotRootID spec = rootID).
Context (Hbytes : ssExpectedBytes spec = n) (Hsize : ssChunkSizeBytes spec = chunk).
Context (HNu : u64 N).

(** The checkpoint after [k] objects. *)
Definition checkpoint_at (k : Z) : ShippingCheckpoint :=
  fresh_checkpoint spec <| scObjects := piece_refs 0 k |> <| scNextOffset := boundary k |>.

Lemma read_piece w k : 0 <= k < N ->
  exists w', ReadRecoveryPoint (ssSourceSnapshotID spec) (ssSourceSnapshotRootID spec) (boundary k)
               (Z.min (ssChunkSizeBytes spec) (sub64 (ssExpectedBytes spec) (boundary k))) w
             = (w', Ok (piece k)) /\ same w w'.
Proof.
  intros Hk. pose proof (boundary_inside snapshot chunk N Hchunk HN k Hk) as [Hb Hb1].
  pose proof (boundary_nonneg snapshot chunk Hchunk Hn k ltac:(lia)). unfold in_u in Hu.
  rewrite Hid, Hroot, Hbytes, Hsize. rewrite sub64_small by (unfold in_u; lia).
  assert (Z.min chunk (n - boundary k) = boundary (k + 1) - boundary k) as ->
    by (rewrite Hb; unfold boundary_of; lia).
  destruct (read_law w (boundary k) (boundary (k + 1) - boundary k)) as (w' & -> & Hs); [lia|lia|lia|].
  exists w'. split; [|exact Hs]. unfold piece_of. repeat f_equal. lia.
Qed.

Lemma min_piece k : 0 <= k < N ->
  Z.min (ssChunkSizeBytes spec) (sub64 (ssExpectedBytes spec) (boundary k)) = zlen (piece k).
Proof.
  intros Hk. pose proof (boundary_inside snapshot chunk N Hchunk HN k Hk) as [Hb Hb1].
  pose proof (boundary_nonneg snapshot chunk Hchunk Hn k ltac:(lia)). unfold in_u in Hu.
  rewrite Hbytes, Hsize, sub64_small by (unfold in_u; lia).
  rewrite (zlen_piece snapshot chunk N Hchunk Hn HN k Hk), Hb. unfold boundary_of. lia.
Qed.

Lemma step_run {E A} (p : ShippingCheckpoint) (b : bool) (wrap : E -> ship_error) (m : act W E A) w w' a :
  m w = (w', Ok a) -> step p b wrap m w = (w', Ok a).
Proof. unfold step. by intros ->. Qed.

Lemma persist_run writer w (p c : ShippingCheckpoint) (b : bool) : persist = writer -> exists w',
  match writer with Some write => step p b PersistFailed (write c) | None => ret_act tt end w = (w', Ok tt) /\ same w w'.
Proof.
  intros Hp. destruct writer as [f|]; [|by exists w]. destruct (persist_law w f c Hp) as (w' & Hr & Hs).
  exists w'. split; [|exact Hs]. by apply step_run.
Qed.

(** One object: read, put, acknowledged and remembered. *)
Lemma put_piece w k : 0 <= k < N -> leftovers w -> stored w 0 k ->
  exists w', PutObject target (object_key k) (piece k) (sha (piece k)) w
             = (w', Ok (mkShippingObjectEvidence (object_key k) (zlen (piece k)) (sha (piece k)))) /\
             image w' = image w /\ leftovers w' /\ stored w' 0 (k + 1) /\
             (forall key, (forall i, 0 <= i < N -> key <> object_key i) -> objects w' !! key = objects w !! key).
Proof.
  intros Hk Hl Hst. destruct (put_law w _ _ (Hl k Hk)) as (w' & Hp & Ho & Hi). exists w'.
  assert (forall i, 0 <= i < N -> i <> k -> objects w' !! object_key i = objects w !! object_key i) as Hne.
  { intros i Hi' Hik. rewrite Ho. apply lookup_insert_ne. intros He. apply Hik. unfold in_u in HNu.
    symmetry. apply object_key_inj; [unfold in_u; lia|unfold in_u; lia|done]. }
  split_and!; [done|done| | |].
  - intros i Hi'. destruct (decide (i = k)) as [->|Hik]; [right; rewrite Ho; apply lookup_insert_eq|].
    rewrite Hne by done. by apply Hl.
  - intros i Hi'. destruct (decide (i = k)) as [->|Hik]; [rewrite Ho; apply lookup_insert_eq|].
    rewrite Hne by lia. apply Hst. lia.
  - intros key Hkey. rewrite Ho. apply lookup_insert_ne. intros He. by apply (Hkey k Hk).
Qed.

(** The checkpoint moves on by one piece. *)
Lemma piece_step k : 0 <= k < N ->
  checkpoint_at k
    <| scObjects := (piece_refs 0 k ++ [mkShippingObjectRef (object_key k) (boundary k) (zlen (piece k)) (sha (piece k))])%list |>
    <| scNextOffset := add64 (boundary k) (zlen (piece k)) |> = checkpoint_at (k + 1).
Proof.
  intros Hk. pose proof (boundary_inside snapshot chunk N Hchunk HN k Hk) as [_ Hb].
  pose proof (boundary_nonneg snapshot chunk Hchunk Hn k ltac:(lia)). unfold in_u in Hu.
  unfold checkpoint_at. rewrite piece_refs_snoc, (zlen_piece snapshot chunk N Hchunk Hn HN k Hk) by lia.
  rewrite add64_small by (unfold in_u; lia).
  replace (boundary k + (boundary (k + 1) - boundary k)) with (boundary (k + 1)) by lia.
  rewrite <-(zlen_piece snapshot chunk N Hchunk Hn HN k Hk). reflexivity.
Qed.

Lemma ship_pieces (fuel : nat) (resumed : bool) : forall k w, 0 <= k <= N -> N - k <= Z.of_nat fuel ->
  leftovers w -> stored w 0 k ->
  exists w', ship_loop sha256 target ctxErr ReadRecoveryPoint persist fuel spec resumed (checkpoint_at k) w
             = (w', Ok (checkpoint_at N)) /\ stored w' 0 N /\ image w' = image w /\
             (forall key, (forall i, 0 <= i < N -> key <> object_key i) -> objects w' !! key = objects w !! key).
Proof.
  induction fuel as [|fuel IH]; intros k w Hk Hfuel Hl Hst; cbn [ship_loop];
    change (scNextOffset (checkpoint_at k)) with (boundary k);
    change (scObjects (checkpoint_at k)) with (piece_refs 0 k).
  { replace k with N in * by lia. rewrite Hbytes, (boundary_end snapshot chunk N Hchunk HN), Z.leb_refl. by exists w. }
  destruct (Z.leb_spec (ssExpectedBytes spec) (boundary k)) as [Hend|Hmore].
  { rewrite Hbytes in Hend. destruct (decide (k = N)) as [->|]; [by exists w|].
    pose proof (boundary_inside snapshot chunk N Hchunk HN k ltac:(lia)). lia. }
  rewrite Hbytes in Hmore. destruct (decide (k = N)) as [->|]; [rewrite (boundary_end snapshot chunk N Hchunk HN) in Hmore; lia|].
  destruct (ctx_law w) as (w1 & Hc & Hs1). erewrite bind_act_run by (apply step_run; exact Hc).
  destruct (read_piece w1 k) as (w2 & Hr & Hs2); [lia|]. erewrite bind_act_run by (apply step_run; exact Hr).
  rewrite min_piece by lia. rewrite Z.eqb_refl. cbn [negb].
  rewrite zlen_piece_refs by lia. assert (same w w2) as Hs by (by etrans).
  destruct (put_piece w2 k) as (w3 & Hp & Hi3 & Hl3 & Hst3 & Hk3); [lia| |by eapply stored_same|].
  { intros i Hi. destruct Hs as [-> _]. by apply Hl. }
  erewrite bind_act_run by (apply step_run; exact Hp).
  cbn [evKey evLength evChecksum]. rewrite !String.eqb_refl, Z.eqb_refl. cbn [negb orb].
  rewrite piece_step by lia. edestruct persist_run as (w4 & Hps & Hs4); [reflexivity|].
  erewrite bind_act_run by exact Hps. destruct Hs4 as [Ho4 Hi4].
  destruct (IH (k + 1) w4) as (w5 & Hrun & Hst5 & Hi5 & Hk5); [lia|lia| | |].
  - intros i Hi. rewrite Ho4. by apply Hl3.
  - by apply (stored_same w3).
  - exists w5. split_and!; [exact Hrun|exact Hst5| |].
    + destruct Hs as [_ Hi]. congruence.
    + intros key Hkey. rewrite Hk5, Ho4, Hk3 by done. by destruct Hs as [-> _].
Qed.

(** *** The manifest *)

Definition shipped_manifest : ShippingManifest :=
  let m := newShippingManifest spec (piece_refs 0 N) in
  m <| smManifestDigest := shippingManifestDigest sha256 json_manifest m |>.

Local Abbreviation receipt := (shippingReceipt sha256 (TargetIdentity target) shipped_manifest).

Context (Hvalid : validateShippingSpec spec = true) (Hobjects : ssExpectedObjects spec = N).
Context (Hcreated : ssCreatedAt spec <> 0) (Hidentity : TrimSpace (TargetIdentity target) <> "").
Context (Hjson : json_parse (json_indent shipped_manifest) = Some shipped_manifest).

(** The manifest is free or left by a run of the same shipment. *)
Definition manifest_leftover (w : W) : Prop :=
  objects w !! "manifest.json" = None \/ objects w !! "manifest.json" = Some (json_indent shipped_manifest).

Lemma N_pos : 0 < N.
Proof. rewrite HN. dlia. Qed.

Lemma manifest_valid : validateShippingManifest shipped_manifest = true.
Proof.
  unfold validateShippingManifest. change (manifest_spec shipped_manifest) with (manifest_spec (newShippingManifest spec (piece_refs 0 N))).
  replace (manifest_spec _) with spec by (by destruct spec). rewrite Hvalid.
  change (smObjects shipped_manifest) with (piece_refs 0 N). pose proof N_pos.
  rewrite zlen_piece_refs by lia. change (smExpectedObjects shipped_manifest) with (ssExpectedObjects spec).
  rewrite Hobjects, Z.eqb_refl. change (smCreatedAt shipped_manifest) with (ssCreatedAt spec).
  by rewrite (proj2 (Z.eqb_neq _ _) Hcreated).
Qed.

Lemma manifest_digest : shippingManifestDigest sha256 json_manifest shipped_manifest = smManifestDigest shipped_manifest.
Proof. reflexivity. Qed.

Lemma verify_shipped w : stored w 0 N -> objects w !! "manifest.json" = Some (json_indent shipped_manifest) ->
  exists w', VerifyShippingTarget sha256 json_manifest json_parse target shipped_manifest w = (w', Ok receipt) /\ same w w'.
Proof.
  intros Hst Hm. unfold VerifyShippingTarget. rewrite (proj2 (String.eqb_neq _ _) Hidentity), manifest_valid.
  rewrite manifest_digest, String.eqb_refl. cbn [negb]. pose proof N_pos.
  destruct (verify_pieces (Z.to_nat N) 0 w) as (w1 & Hv & Hs1); [lia|lia|by rewrite Z2Nat.id by lia|].
  rewrite Z2Nat.id, Z.add_0_l in Hv by lia. rewrite (boundary_end snapshot chunk N Hchunk HN) in Hv.
  change (smObjects shipped_manifest) with (piece_refs 0 N).
  change (smExpectedBytes shipped_manifest) with (ssExpectedBytes spec). rewrite Hbytes.
  replace (boundary 0) with 0 in Hv by (unfold boundary_of; lia).
  erewrite bind_act_run by exact Hv. rewrite Z.eqb_refl. cbn [negb].
  destruct (get_law w1 "manifest.json" (json_indent shipped_manifest) "") as (w2 & Hg & Hs2);
    [by destruct Hs1 as [-> _]|by left|].
  erewrite bind_act_run by (rewrite Hg; reflexivity). rewrite Hjson, manifest_digest, !String.eqb_refl.
  exists w2. split; [done|by etrans].
Qed.

(** *** The whole shipment *)

Lemma worker_nonempty : String.eqb (ssShippingWorkerID spec) "" = false.
Proof.
  revert Hvalid. unfold validateShippingSpec. cbn [forallb required_fields].
  destruct (String.eqb_spec (ssShippingWorkerID spec) "") as [->|]; done.
Qed.

(** The checkpoint a run starts from: none, or the one persisted after [k]
    objects that are still at the target. *)
Definition starts_at (w : W) (k : Z) (checkpoint : ShippingCheckpoint) : Prop :=
  0 <= k <= N /\ stored w 0 k /\
  ((k = 0 /\ scShippingWorkerID checkpoint = "") \/ checkpoint = checkpoint_at k).

Lemma verify_start w k checkpoint : starts_at w k checkpoint ->
  exists w' resumed, verifyShippingCheckpoint sha256 target spec checkpoint w = (w', Ok (checkpoint_at k, resumed)) /\ same w w'.
Proof.
  intros (Hk & Hst & Hcp). unfold verifyShippingCheckpoint. destruct Hcp as [[-> ->] | ->].
  { exists w, false. split; [|done]. unfold ret_act, checkpoint_at. repeat f_equal.
    replace (boundary 0) with 0 by (unfold boundary_of; lia). reflexivity. }
  change (scShippingWorkerID (checkpoint_at k)) with (ssShippingWorkerID spec).
  change (scShippedManifestID (checkpoint_at k)) with (ssShippedManifestID spec).
  change (scSourceSnapshotID (checkpoint_at k)) with (ssSourceSnapshotID spec).
  change (scSourceSnapshotRootID (checkpoint_at k)) with (ssSourceSnapshotRootID spec).
  change (scGeneration (checkpoint_at k)) with (ssGeneration spec).
  change (scObjects (checkpoint_at k)) with (piece_refs 0 k). change (scNextOffset (checkpoint_at k)) with (boundary k).
  rewrite worker_nonempty, !String.eqb_refl, Z.eqb_refl, Hbytes. cbn [negb orb].
  destruct (verify_pieces (Z.to_nat k) 0 w) as (w1 & Hv & Hs1); [lia|lia|by rewrite Z2Nat.id by lia|].
  rewrite Z2Nat.id, Z.add_0_l in Hv by lia. replace (boundary 0) with 0 in Hv by (unfold boundary_of; lia).
  erewrite bind_act_run by exact Hv. rewrite Z.eqb_refl, zlen_piece_refs, Hobjects by lia.
  rewrite (proj2 (Z.ltb_ge _ _)) by lia. cbn [negb orb]. by exists w1, (0 <? boundary k).
Qed.

Lemma ship_shipped (fuel : nat) (now : Z) w k checkpoint : N <= Z.of_nat fuel -> starts_at w k checkpoint ->
  leftovers w -> manifest_leftover w ->
  exists w' r, ShipRecoveryPoint sha256 json_manifest json_indent json_parse target ctxErr ReadRecoveryPoint persist
                 fuel now spec checkpoint w = (w', Ok r) /\
    srManifest r = shipped_manifest /\ srReceipt r = receipt /\ stored w' 0 N /\
    objects w' !! "manifest.json" = Some (json_indent shipped_manifest) /\ image w' = image w.
Proof.
  intros Hfuel Hstart Hl Hm. unfold ShipRecoveryPoint. rewrite Hvalid, (proj2 (String.eqb_neq _ _) Hidentity). cbn [negb].
  rewrite (proj2 (Z.eqb_neq _ _) Hcreated).
  destruct (verify_start w k checkpoint Hstart) as (w1 & resumed & Hv & Hs1). destruct Hstart as (Hk & Hst & _).
  erewrite bind_act_run by (rewrite Hv; reflexivity). cbn [fst snd].
  destruct (ship_pieces fuel resumed k w1) as (w2 & Hrun & Hst2 & Hi2 & Hk2); [lia|lia| |by eapply stored_same|].
  { intros i Hi. destruct Hs1 as [-> _]. by apply Hl. }
  erewrite bind_act_run by exact Hrun. change (scObjects (checkpoint_at N)) with (piece_refs 0 N).
  change (newShippingManifest spec (piece_refs 0 N) <| smManifestDigest := _ |>) with shipped_manifest.
  destruct (put_law w2 "manifest.json" (json_indent shipped_manifest)) as (w3 & Hp & Ho3 & Hi3).
  { rewrite Hk2 by (intros; apply not_eq_sym, object_key_not_manifest). by destruct Hs1 as [-> _]. }
  erewrite bind_act_run by (apply step_run; exact Hp). cbn [evKey evLength evChecksum].
  rewrite !String.eqb_refl, Z.eqb_refl. cbn [negb orb].
  assert (stored w3 0 N) as Hst3.
  { intros i Hi. rewrite Ho3, lookup_insert_ne; [by apply Hst2|]. apply not_eq_sym, object_key_not_manifest. }
  assert (objects w3 !! "manifest.json" = Some (json_indent shipped_manifest)) as Hm3
    by (rewrite Ho3; apply lookup_insert_eq).
  destruct (verify_shipped w3 Hst3 Hm3) as (w4 & Hv4 & Hs4).
  erewrite bind_act_run by (apply step_run; exact Hv4).
  exists w4. eexists. split; [reflexivity|]. cbn [srManifest srReceipt].
  destruct Hs1 as [_ Hi1]. pose proof Hs4 as [Ho4 Hi4].
  split_and!; [done|done|by eapply stored_same|by rewrite Ho4|congruence].
Qed.

(** *** Importing *)

Context (before : bytes) (Hfits : n <= zlen before).

(** The standby after [k] objects: its first bytes are the recovery point's, the
    rest is as before. *)
Definition imported (w : W) (k : Z) : Prop :=
  zlen (image w) = zlen before /\
  forall j, 0 <= j -> image w !! Z.to_nat j = if decide (j < boundary k) then snapshot !! Z.to_nat j else before !! Z.to_nat j.

Definition import_result (k : Z) (readback : bool) : ImportResult := mkImportResult (boundary k) k readback true receipt.

Lemma import_step_run {E A} (r : ImportResult) (wrap : E -> ship_error) (m : act W E A) w w' a :
  m w = (w', Ok a) -> import_step r wrap m w = (w', Ok a).
Proof. unfold import_step. by intros ->. Qed.

Lemma import_piece w k : 0 <= k < N -> imported w k ->
  exists w', ImportRange standby (boundary k) (piece k) w = (w', Ok tt) /\ objects w' = objects w /\ imported w' (k + 1).
Proof.
  intros Hk [Hlen Hbefore]. pose proof (boundary_inside snapshot chunk N Hchunk HN k Hk) as [_ Hb].
  pose proof (boundary_nonneg snapshot chunk Hchunk Hn k ltac:(lia)) as Hb0.
  pose proof (zlen_piece snapshot chunk N Hchunk Hn HN k Hk) as Hl.
  destruct (import_law w (boundary k) (piece k)) as (w' & Hi & Ho & Him); [lia|lia|].
  exists w'. split_and!; [done|done|]. split; [rewrite Him, zlen_splice; lia|]. intros j Hj. rewrite Him.
  destruct (decide (boundary k <= j < boundary (k + 1))) as [Hin|Hout].
  - rewrite lookup_splice_in by lia. rewrite decide_True by lia. unfold piece_of.
    rewrite lookup_slice by lia. f_equal. lia.
  - rewrite lookup_splice_out by lia. rewrite Hbefore by done.
    destruct (decide (j < boundary k)), (decide (j < boundary (k + 1))); try done; lia.
Qed.

Lemma import_pieces (m : nat) : forall k w, 0 <= k -> k + Z.of_nat m = N -> stored w 0 N -> imported w k ->
  exists w', import_objects target standby (piece_refs k (Z.of_nat m)) (import_result k false) w
             = (w', Ok (import_result N false)) /\ objects w' = objects w /\ imported w' N.
Proof.
  induction m as [|m IH]; intros k w Hk Hm Hst Him.
  { replace k with N in * by lia. by exists w. }
  rewrite piece_refs_cons by lia. cbn [import_objects piece_ref soKey soOffset soLength soChecksum].
  destruct (get_piece w k) as (w1 & Hg & Ho1 & Hi1); [apply Hst; lia|].
  erewrite bind_act_run by (apply import_step_run; exact Hg).
  destruct (import_piece w1 k) as (w2 & Hi & Ho2 & Him2); [lia| |].
  { split; rewrite Hi1; apply Him. }
  erewrite bind_act_run by (apply import_step_run; exact Hi).
  replace (import_result k false <| irImportedBytes := _ |> <| irImportedObjects := _ |>) with (import_result (k + 1) false).
  2: { pose proof (boundary_inside snapshot chunk N Hchunk HN k ltac:(lia)) as [_ Hb].
       pose proof (boundary_nonneg snapshot chunk Hchunk Hn k ltac:(lia)). unfold in_u in Hu, HNu.
       change (irImportedBytes (import_result k false)) with (boundary k).
       change (irImportedObjects (import_result k false)) with k.
       rewrite (zlen_piece snapshot chunk N Hchunk Hn HN k) by lia. rewrite !add64_small by (unfold in_u; lia).
       replace (boundary k + (boundary (k + 1) - boundary k)) with (boundary (k + 1)) by lia. reflexivity. }
  replace (Z.of_nat (S m) - 1) with (Z.of_nat m) by lia.
  destruct (IH (k + 1) w2) as (w3 & Hrun & Ho3 & Him3); [lia|lia| |done|].
  { intros i Hi'. rewrite Ho2, Ho1. by apply Hst. }
  exists w3. split_and!; [exact Hrun|congruence|done].
Qed.

Lemma read_imported w k : 0 <= k < N -> imported w N ->
  slice (boundary k) (boundary k + zlen (piece k)) (image w) = piece k.
Proof.
  intros Hk [Hlen Him]. pose proof (boundary_inside snapshot chunk N Hchunk HN k Hk) as [_ Hb].
  pose proof (boundary_nonneg snapshot chunk Hchunk Hn k ltac:(lia)) as Hb0.
  pose proof (zlen_piece snapshot chunk N Hchunk Hn HN k Hk) as Hl. rewrite (boundary_end snapshot chunk N Hchunk HN) in Him.
  apply list_eq_same_length with (n := Z.to_nat (zlen (piece k))).
  - unfold zlen. lia.
  - assert (zlen (slice (boundary k) (boundary k + zlen (piece k)) (image w)) = zlen (piece k)) as Hs
      by (rewrite zlen_slice; lia). unfold zlen in Hs |- *. lia.
  - intros i x y Hi Hx Hy. rewrite <-(Nat2Z.id i) in Hx, Hy. rewrite lookup_slice in Hx by lia.
    rewrite Him in Hx by lia. rewrite decide_True in Hx by lia. unfold piece_of in Hy.
    rewrite lookup_slice in Hy by lia. congruence.
Qed.

Lemma readback_pieces (m : nat) (r : ImportResult) : forall k w, 0 <= k -> k + Z.of_nat m = N -> stored w 0 N -> imported w N ->
  exists w', readback sha256 target standby (piece_refs k (Z.of_nat m)) r w = (w', Ok tt) /\ same w w'.
Proof.
  induction m as [|m IH]; intros k w Hk Hm Hst Him; [by exists w|].
  rewrite piece_refs_cons by lia. cbn [readback piece_ref soKey soOffset soLength soChecksum].
  destruct (get_piece w k) as (w1 & Hg & Hs1); [apply Hst; lia|].
  erewrite bind_act_run by (apply import_step_run; exact Hg).
  assert (imported w1 N) as Him1 by (destruct Hs1 as [_ Hi]; split; rewrite Hi; apply Him).
  pose proof (boundary_inside snapshot chunk N Hchunk HN k ltac:(lia)) as [_ Hb].
  pose proof (boundary_nonneg snapshot chunk Hchunk Hn k ltac:(lia)) as Hb0.
  pose proof (zlen_piece snapshot chunk N Hchunk Hn HN k ltac:(lia)) as Hl.
  destruct (range_law w1 (boundary k) (zlen (piece k))) as (w2 & Hr & Hs2); [lia|lia|destruct Him1 as [Hz _]; lia|].
  erewrite bind_act_run by (apply import_step_run; exact Hr).
  rewrite (read_imported w1 k) by (done || lia). rewrite Z.eqb_refl, String.eqb_refl. cbn [negb orb].
  replace (Z.of_nat (S m) - 1) with (Z.of_nat m) by lia.
  assert (same w w2) as Hs by (etrans; [exact Hs1|exact Hs2]).
  destruct (IH (k + 1) w2) as (w3 & Hrun & Hs3); [lia|lia|by eapply stored_same| |].
  { destruct Hs as [_ Hi]. split; rewrite Hi; apply Him. }
  exists w3. split; [exact Hrun|by etrans].
Qed.

(** The constraints an operator grants for a manifest and its receipt. *)
Definition granted (m : ShippingManifest) (receipt : string) : ImportConstraints :=
  mkImportConstraints (smShippedManifestID m) (smRecoveryPointID m) (smSourceSnapshotID m) (smSourceSnapshotRootID m)
    (smPayloadRootsDigest m) (smGeometryDigest m) (smCompatibilityDigest m) (smKeyPolicyDigest m)
    (smGovernanceDigest m) receipt.

Lemma granted_valid : validateImportConstraints shipped_manifest (granted shipped_manifest receipt) receipt = true.
Proof.
  pose proof Hvalid as Hv. unfold validateShippingSpec in Hv.
  apply andb_true_iff in Hv as [[[Hv _]%andb_true_iff _]%andb_true_iff _]. rewrite forallb_forall in Hv.
  unfold validateImportConstraints. apply forallb_forall. intros [got want] Hin.
  assert (got = want /\ (In got (required_fields spec) \/ got = receipt)) as [-> [Hreq | ->]]; cycle 1.
  - rewrite (Hv _ Hreq), String.eqb_refl. done.
  - rewrite String.eqb_refl, (proj2 (String.eqb_neq _ _)); [done|apply digest_not_blank].
  - cbn [In] in Hin. unfold required_fields. cbn [In].
    repeat (destruct Hin as [Hin|Hin]; [injection Hin as <- <-; split; [reflexivity|]; tauto|]). done.
Qed.

Lemma import_shipped w : stored w 0 N -> objects w !! "manifest.json" = Some (json_indent shipped_manifest) ->
  image w = before ->
  exists w', ImportReadOnlyStandby sha256 json_manifest json_parse target standby shipped_manifest
               (granted shipped_manifest receipt) w = (w', Ok (import_result N true)) /\ imported w' N.
Proof.
  intros Hst Hm Hb. pose proof N_pos. unfold ImportReadOnlyStandby.
  destruct (verify_shipped w Hst Hm) as (w1 & Hv & Ho1 & Hi1).
  erewrite bind_act_run by (rewrite Hv; reflexivity). rewrite granted_valid. cbn [negb].
  destruct (probe_law w1 probe) as (w2 & Hp & Ho2 & Hi2).
  erewrite bind_act_run by (unfold expect_read_only; rewrite Hp; reflexivity).
  change (smObjects shipped_manifest) with (piece_refs 0 N).
  replace (mkImportResult 0 0 false false receipt <| irStandbyWriteRejected := true |>) with (import_result 0 false)
    by (unfold import_result; replace (boundary 0) with 0 by (unfold boundary_of; lia); reflexivity).
  destruct (import_pieces (Z.to_nat N) 0 w2) as (w3 & Hi & Ho3 & Him3); [lia|lia| | |].
  { intros i Hi. rewrite Ho2, Ho1. by apply Hst. }
  { split; rewrite Hi2, Hi1, Hb; [done|]. intros j Hj. rewrite decide_False; [done|]. unfold boundary_of. lia. }
  rewrite Z2Nat.id in Hi by lia. erewrite bind_act_run by exact Hi.
  destruct (readback_pieces (Z.to_nat N) (import_result N false) 0 w3) as (w4 & Hr & Ho4 & Hi4); [lia|lia| |done|].
  { intros i Hi'. rewrite Ho3, Ho2, Ho1. by apply Hst. }
  rewrite Z2Nat.id in Hr by lia. erewrite bind_act_run by exact Hr.
  destruct (probe_law w4 probe) as (w5 & Hp5 & Ho5 & Hi5).
  erewrite bind_act_run by (unfold expect_read_only; rewrite Hp5; reflexivity).
  exists w5. split; [reflexivity|]. split; rewrite Hi5, Hi4; apply Him3.
Qed.

(** The standby's bytes once everything is imported. *)
Lemma imported_bytes w : imported w N -> image w = (snapshot ++ drop (length snapshot) before)%list.
Proof.
  intros [Hlen Him]. rewrite (boundary_end snapshot chunk N Hchunk HN) in Him. apply list_eq. intros i.
  rewrite <-(Nat2Z.id i). rewrite Him by lia. rewrite Nat2Z.id. unfold zlen in *. case_decide.
  - rewrite lookup_app_l by lia. done.
  - rewrite lookup_app_r by lia. rewrite lookup_drop. f_equal. lia.
Qed.

End Run.

#[global] Arguments starts_at {W target ctxErr ReadRecoveryPoint persist standby snapshotID rootID snapshot Services0}
  chunk N spec w k checkpoint.
#[global] Arguments leftovers {W target ctxErr ReadRecoveryPoint persist standby snapshotID rootID snapshot Services0}
  chunk N w.

(** The specification with the time the code fills in. *)
Definition dated (now : Z) (spec : ShippingSpec) : ShippingSpec :=
  if ssCreatedAt spec =? 0 then spec <| ssCreatedAt := now |> else spec.

Lemma dated_created now spec : now <> 0 -> ssCreatedAt (dated now spec) <> 0.
Proof. unfold dated. intros Hnow. by destruct (Z.eqb_spec (ssCreatedAt spec) 0). Qed.

Lemma dated_valid now spec : validateShippingSpec (dated now spec) = validateShippingSpec spec.
Proof. unfold dated. by destruct (_ =? _). Qed.

Lemma dated_fields now spec :
  ssSourceSnapshotID (dated now spec) = ssSourceSnapshotID spec /\
  ssSourceSnapshotRootID (dated now spec) = ssSourceSnapshotRootID spec /\
  ssExpectedBytes (dated now spec) = ssExpectedBytes spec /\ ssChunkSizeBytes (dated now spec) = ssChunkSizeBytes spec /\
  ssExpectedObjects (dated now spec) = ssExpectedObjects spec.
Proof. unfold dated. by destruct (_ =? _). Qed.

Lemma ship_dated {W} (target : ShippingObjectStore W) ctxErr reader persist fuel now spec checkpoint : now <> 0 ->
  ShipRecoveryPoint sha256 json_manifest json_indent json_parse target ctxErr reader persist fuel now spec checkpoint
  = ShipRecoveryPoint sha256 json_manifest json_indent json_parse target ctxErr reader persist fuel now (dated now spec) checkpoint.
Proof.
  intros Hnow. unfold ShipRecoveryPoint. rewrite dated_valid, (proj2 (Z.eqb_neq _ _) (dated_created now spec Hnow)).
  reflexivity.
Qed.

Lemma valid_geometry spec : u64 (ssExpectedBytes spec) -> u64 (ssChunkSizeBytes spec) ->
  validateShippingSpec spec = true ->
  0 < ssChunkSizeBytes spec /\ 0 < ssExpectedBytes spec /\ u64 (ssExpectedObjects spec) /\
  ssExpectedObjects spec = (ssExpectedBytes spec - 1) / ssChunkSizeBytes spec + 1.
Proof.
  unfold validateShippingSpec, in_u. intros Hb Hc Hv.
  apply andb_true_iff in Hv as [[[_ Hpos]%andb_true_iff Hobj%Z.eqb_eq]%andb_true_iff Hmax%Z.leb_le].
  apply negb_true_iff in Hpos. repeat (apply orb_false_iff in Hpos as [Hpos ?]). unfold maxShippingObjectCount in Hmax.
  repeat match goal with H : (_ =? _) = false |- _ => apply Z.eqb_neq in H end.
  rewrite sub64_small in Hobj by (unfold in_u; lia).
  assert (0 <= (ssExpectedBytes spec - 1) / ssChunkSizeBytes spec <= ssExpectedBytes spec - 1) by
    (split; [apply Z.div_pos; lia|apply Z.div_le_upper_bound; nia]).
  rewrite add64_small in Hobj by (unfold in_u; lia). lia.
Qed.

(** C13: a shipped recovery point arrives exactly.  Against services that keep
    their promises, shipping a snapshot of the expected size (afresh, over the
    leftovers of an interrupted run, or resumed from the checkpoint persisted
    after any number of objects) terminates within one round of the loop per
    object and succeeds; importing the resulting manifest under the constraints
    it grants succeeds too, counts every byte and object, and leaves the standby
    with exactly the snapshot in its first bytes and everything behind as it was. *)
Theorem shipped_standby_exact {W} (target : ShippingObjectStore W) (ctxErr : act W string unit)
    (ReadRecoveryPoint : string -> string -> Z -> Z -> act W string bytes)
    (persist : option (ShippingCheckpoint -> act W string unit)) (standby : StandbyImporter W)
    (spec : ShippingSpec) (snapshot : bytes)
    `{!Services target ctxErr ReadRecoveryPoint persist standby
         (ssSourceSnapshotID spec) (ssSourceSnapshotRootID spec) snapshot}
    (now k : Z) (fuel : nat) (checkpoint : ShippingCheckpoint) (w : W) :
  let chunk := ssChunkSizeBytes spec in
  let N := ssExpectedObjects spec in
  let sent := shipped_manifest snapshot chunk N (dated now spec) in
  validateShippingSpec spec = true -> u64 (ssExpectedBytes spec) -> u64 chunk -> zlen snapshot = ssExpectedBytes spec ->
  now <> 0 -> TrimSpace (TargetIdentity target) <> "" -> json_parse (json_indent sent) = Some sent ->
  N <= Z.of_nat fuel -> starts_at chunk N (dated now spec) w k checkpoint -> leftovers chunk N w ->
  objects w !! "manifest.json" = None \/ objects w !! "manifest.json" = Some (json_indent sent) ->
  zlen snapshot <= zlen (image w) ->
  exists w1 r w2,
    ShipRecoveryPoint sha256 json_manifest json_indent json_parse target ctxErr ReadRecoveryPoint persist
      fuel now spec checkpoint w = (w1, Ok r) /\ image w1 = image w /\
    ImportReadOnlyStandby sha256 json_manifest json_parse target standby (srManifest r)
      (granted (srManifest r) (srReceipt r)) w1
      = (w2, Ok (mkImportResult (ssExpectedBytes spec) N true true (srReceipt r))) /\
    image w2 = (snapshot ++ drop (length snapshot) (image w))%list.
Proof.
  intros chunk N sent Hv Hb Hc Hlen Hnow Hid Hjson Hfuel Hstart Hl Hm Hfits. rewrite ship_dated by done.
  destruct (valid_geometry spec Hb Hc Hv) as (Hc0 & Hn0 & HNu & HN). rewrite <-Hlen in Hn0, HN, Hb.
  destruct (dated_fields now spec) as (Fid & Froot & Fbytes & Fchunk & Fobjects).
  assert (ssExpectedBytes (dated now spec) = zlen snapshot) as Fn by (rewrite Fbytes; symmetry; exact Hlen).
  assert (validateShippingSpec (dated now spec) = true) as Fv by (rewrite dated_valid; exact Hv).
  destruct (ship_shipped target ctxErr ReadRecoveryPoint persist standby _ _ snapshot chunk N Hc0 Hn0 Hb HN (dated now spec)
              Fid Froot Fn Fchunk HNu Fv Fobjects (dated_created now spec Hnow)
              Hid Hjson fuel now w k checkpoint Hfuel Hstart Hl Hm)
    as (w1 & r & Hship & Hman & Hrec & Hst1 & Hm1 & Hi1).
  destruct (import_shipped target ctxErr ReadRecoveryPoint persist standby _ _ snapshot chunk N Hc0 Hn0 Hb HN (dated now spec)
              Fid Froot Fn Fchunk HNu Fv Fobjects (dated_created now spec Hnow)
              Hid Hjson (image w) Hfits w1 Hst1 Hm1 Hi1) as (w2 & Himp & Himd).
  exists w1, r, w2. rewrite Hman, Hrec. split_and!; [exact Hship|exact Hi1| |].
  - rewrite Himp. unfold import_result. by rewrite (boundary_end snapshot chunk N Hc0 HN), Hlen.
  - by apply (imported_bytes target ctxErr ReadRecoveryPoint persist standby _ _ snapshot chunk N Hc0 HN (image w)).
Qed.

End Facts.

(** ** Services in memory *)

Record memory := mkMemory { mmObjects : gmap string bytes; mmImage : bytes; mmSaved : list ShippingCheckpoint }.

Definition memory_target (sha256 : bytes -> bytes) : ShippingObjectStore memory :=
  mkShippingObjectStore memory "standby-store"
    (fun key data checksum w =>
       if negb (String.eqb checksum (shippingSHA256 sha256 data)) then (w, Err "checksum") else
       match mmObjects w !! key with
       | Some old => if decide (old = data) then (w, Ok (mkShippingObjectEvidence key (zlen data) checksum))
                     else (w, Err "immutable")
       | None => (mkMemory (<[key := data]> (mmObjects w)) (mmImage w) (mmSaved w),
                  Ok (mkShippingObjectEvidence key (zlen data) checksum))
       end)
    (fun key checksum w =>
       match mmObjects w !! key with
       | Some data => if String.eqb checksum "" || String.eqb checksum (shippingSHA256 sha256 data)
                      then (w, Ok data) else (w, Err "checksum")
       | None => (w, Err "not found")
       end).

Definition memory_reader (snapshotID rootID : string) (snapshot : bytes) (id root : string) (offset length : Z)
  : act memory string bytes := fun w =>
  if String.eqb id snapshotID && String.eqb root rootID && (0 <=? offset) && (0 <=? length)
     && (offset + length <=? zlen snapshot)
  then (w, Ok (slice offset (offset + length) snapshot)) else (w, Err "not found").

Definition memory_persist (c : ShippingCheckpoint) : act memory string unit := fun w =>
  (mkMemory (mmObjects w) (mmImage w) (mmSaved w ++ [c])%list, Ok tt).

Definition memory_standby : StandbyImporter memory :=
  mkStandbyImporter memory
    (fun offset data w =>
       if (0 <=? offset) && (offset + zlen data <=? zlen (mmImage w))
       then (mkMemory (mmObjects w) (splice (mmImage w) offset data) (mmSaved w), Ok tt) else (w, Err "range"))
    (fun offset length w =>
       if (0 <=? offset) && (0 <=? length) && (offset + length <=? zlen (mmImage w))
       then (w, Ok (slice offset (offset + length) (mmImage w))) else (w, Err "range"))
    (fun _ _ w => (w, Err ErrStandbyReadOnly)).

#[export] Instance memory_services sha256 snapshotID rootID snapshot :
  Services sha256 (memory_target sha256) (ret_act tt) (memory_reader snapshotID rootID snapshot)
    (Some memory_persist) memory_standby snapshotID rootID snapshot.
Proof.
  refine (Build_Services sha256 memory _ _ _ _ _ _ _ _ mmObjects mmImage _ _ _ _ _ _ _ _).
  - intros w key data Hkey. cbn. rewrite String.eqb_refl. cbn [negb]. destruct Hkey as [-> | Hkey].
    + eexists. split; [reflexivity|]. done.
    + rewrite Hkey, decide_True by done. exists w. split; [done|]. split; [|done]. by rewrite insert_id.
  - intros w key data checksum Hkey Hsum. cbn. rewrite Hkey. exists w. split; [|done].
    destruct Hsum as [-> | ->]; [done|]. by rewrite String.eqb_refl, orb_true_r.
  - intros w. by exists w.
  - intros w offset length H1 H2 H3. unfold memory_reader. exists w. split; [|done].
    rewrite !String.eqb_refl, !(proj2 (Z.leb_le _ _)) by lia. done.
  - intros w p c [= <-]. eexists. split; [reflexivity|]. done.
  - intros w offset data H1 H2. cbn. rewrite !(proj2 (Z.leb_le _ _)) by lia. eexists. split; [reflexivity|]. done.
  - intros w offset length H1 H2 H3. cbn. rewrite !(proj2 (Z.leb_le _ _)) by lia. by exists w.
  - intros w data. by exists w.
Defined.

Definition sample_spec : ShippingSpec :=
  mkShippingSpec "worker" "manifest" "point" "east" "west" "v1" "v2" "snap" "root" "d1" "d2" "d3" "d4" "d5" "d6" "d7"
    5 3 1 2 0.
Definition sample_snapshot : bytes := list_byte_of_string "abcde".
Definition sample_sha (data : bytes) : bytes := data.
Definition sample_json (m : ShippingManifest) : bytes :=
  list_byte_of_string (smShippedManifestID m ++ String.concat "," (map soChecksum (smObjects m))).
Definition sample_sent : ShippingManifest := shipped_manifest sample_sha sample_json sample_snapshot 2 3 (dated 7 sample_spec).
Definition sample_parse (data : bytes) : option ShippingManifest :=
  if decide (data = sample_json sample_sent) then Some sample_sent else None.

(** A run that stopped after putting two objects and persisting the first. *)
Definition sample_world : memory :=
  mkMemory (<["objects/000000.bin" := list_byte_of_string "ab"]>
             {["objects/000001.bin" := list_byte_of_string "cd"]}) (list_byte_of_string "12345678") [].
Definition sample_checkpoint : ShippingCheckpoint := checkpoint_at sample_sha sample_snapshot 2 (dated 7 sample_spec) 1.

Lemma sample_objects i : 0 <= i < 3 ->
  mmObjects sample_world !! object_key i = if decide (i < 2) then Some (piece_of sample_snapshot 2 i) else None.
Proof. intros Hi. assert (i = 0 \/ i = 1 \/ i = 2) as [-> | [-> | ->]] by lia; vm_compute; reflexivity. Qed.

Lemma shipped_standby_exact_witness : exists w1 r w2,
  ShipRecoveryPoint sample_sha sample_json sample_json sample_parse (memory_target sample_sha) (ret_act tt)
    (memory_reader "snap" "root" sample_snapshot) (Some memory_persist) 3 7 sample_spec sample_checkpoint sample_world
    = (w1, Ok r) /\ mmImage w1 = mmImage sample_world /\
  ImportReadOnlyStandby sample_sha sample_json sample_parse (memory_target sample_sha) memory_standby (srManifest r)
    (granted (srManifest r) (srReceipt r)) w1 = (w2, Ok (mkImportResult 5 3 true true (srReceipt r))) /\
  mmImage w2 = (sample_snapshot ++ list_byte_of_string "678")%list.
Proof.
  destruct (shipped_standby_exact sample_sha sample_json sample_json sample_parse (memory_target sample_sha) (ret_act tt)
           (memory_reader "snap" "root" sample_snapshot) (Some memory_persist) memory_standby sample_spec sample_snapshot
           (Services0 := memory_services sample_sha "snap" "root" sample_snapshot)
           7 1 3 sample_checkpoint sample_world) as (w1 & r & w2 & H).
  - vm_compute. reflexivity.
  - concrete_bounds.
  - concrete_bounds.
  - vm_compute. reflexivity.
  - lia.
  - vm_compute. discriminate.
  - change (sample_parse (sample_json sample_sent) = Some sample_sent). unfold sample_parse. by rewrite decide_True.
  - concrete_bounds.
  - split; [split; concrete_bounds|]. split; [|by right].
    intros i Hi. change (mmObjects sample_world !! object_key i = Some (piece_of sample_snapshot 2 i)).
    rewrite sample_objects, decide_True by lia. done.
  - intros i Hi. change (mmObjects sample_world !! object_key i = None \/
                         mmObjects sample_world !! object_key i = Some (piece_of sample_snapshot 2 i)).
    rewrite sample_objects by exact Hi. case_decide; auto.
  - left. vm_compute. reflexivity.
  - concrete_bounds.
  - by exists w1, r, w2.
Defined.

Definition sample_shipped : memory :=
  (ShipRecoveryPoint sample_sha sample_json sample_json sample_parse (memory_target sample_sha) (ret_act tt)
     (memory_reader "snap" "root" sample_snapshot) (Some memory_persist) 3 7 sample_spec sample_checkpoint sample_world).1.

Lemma verified_objects_tile_witness : tiles 0 0 (smObjects sample_sent) /\ total (smObjects sample_sent) = 5 /\
  zlen (smObjects sample_sent) = 3.
Proof.
  destruct (verified_objects_tile sample_sha sample_json sample_parse (memory_target sample_sha) sample_sent
              sample_shipped sample_shipped (shippingReceipt sample_sha "standby-store" sample_sent)) as (H1 & H2 & H3 & _).
  - concrete_bounds.
  - repeat constructor; concrete_bounds.
  - vm_compute. reflexivity.
  - split; [exact H1|]. split; [exact H2|exact H3].
Defined.

End ShippingFacts.
