(* ===== verification/DrFencing.v ===== *)
(** * Fencing decisions

    Models src/sbs/cluster/dr/fencing.go: the decision, signed by an authority
    outside both clusters, without which a standby may not be promoted.
    [ed25519], [base64], [json] and [sha256] are arguments; [now] is a number of
    nanoseconds since 1970.  Theorem: a signed decision is accepted exactly for the
    request it names, while it is active, and when it proves every precondition. *)

From Stdlib Require Import ZArith Lia Ascii String.
From Stdlib Require Strings.Byte.
From stdpp Require Import base list strings.
From coqutil Require Import Byte.
From S2P Require Import Prelude GoStrings VolumeId DrShipping DrShippingFacts.
Open Scope string_scope.
Open Scope Z_scope.

Module Fencing.

Definition FencingDecisionVersion : string := "namrbd.dr.fencing.v1".
Definition FencingActionPromote : string := "promote".

(** Nanoseconds. *)
Definition Second : Z := 1000000000.
Definition MaxFencingDecisionLifetime : Z := 3600 * Second.
Definition MaxFencingDecisionClockSkew : Z := 30 * Second.

Definition PublicKeySize : Z := 32.
Definition PrivateKeySize : Z := 64.
Definition SignatureSize : Z := 64.

Record FencingDecision := mkFencingDecision {
  fdVersion : string; fdAuthorityID : string; fdDecisionID : string; fdAction : string;
  fdReplicationLinkID : string; fdStandbyVolumeID : string; fdSourceClusterID : string;
  fdTargetClusterID : string; fdSourceVolumeID : string; fdTargetVolumeID : string;
  fdExpectedPromoteGeneration : Z; fdFencingEpoch : Z; fdSourceFenced : bool;
  fdDependencyAuthorityHealthy : bool; fdTargetIntegrityVerified : bool; fdKeyAccessVerified : bool;
  fdSourceFencingReceipt : string; fdIssuedAtUnix : Z; fdExpiresAtUnix : Z }.

#[export] Instance FencingDecision_eq_dec : EqDecision FencingDecision.
Proof. solve_decision. Defined.

Record SignedFencingDecision := mkSignedFencingDecision { sdDecision : FencingDecision; sdSignatureBase64 : string }.

Record SourceFenceReceiptInput := mkSourceFenceReceiptInput {
  siAuthorityID : string; siDecisionID : string; siReplicationLinkID : string; siSourceClusterID : string;
  siTargetClusterID : string; siSourceVolumeID : string; siTargetVolumeID : string;
  siSourceFenceGeneration : Z; siFencingEpoch : Z }.

Inductive fencing_error :=
| PrivateKeyLength | PublicKeyLength | DecisionIncomplete | SignatureFailed | IdentityMismatch
| InvalidLifetime | NotActiveYet | DecisionExpired | PreconditionUnproved | ReceiptInputIncomplete.

(** ** Times *)

(** Seconds between year 1 and 1970. *)
Definition unixToInternal : Z := 62135596800.

(** [time.Unix(sec, 0)] in nanoseconds since 1970: the seconds are kept from year
    1 in an [int64]. *)
Definition time_Unix (sec : Z) : Z := (add_i64 sec unixToInternal - unixToInternal) * Second.

(** [t.Sub(u)] saturates at the range of a [Duration]. *)
Definition time_Sub (t u : Z) : Z := Z.max (- 2 ^ 63) (Z.min (2 ^ 63 - 1) (t - u)).

Section Fencing.
Context (ed25519_Sign : bytes -> bytes -> bytes) (ed25519_Verify : bytes -> bytes -> bytes -> bool).
Context (base64_encode : bytes -> string) (base64_decode_strict : string -> option bytes).
Context (json_decision : FencingDecision -> bytes) (json_receipt : SourceFenceReceiptInput -> bytes).
Context (sha256 : bytes -> bytes).

Definition trimmed (d : FencingDecision) : FencingDecision :=
  mkFencingDecision (TrimSpace (fdVersion d)) (TrimSpace (fdAuthorityID d)) (TrimSpace (fdDecisionID d))
    (TrimSpace (fdAction d)) (TrimSpace (fdReplicationLinkID d)) (TrimSpace (fdStandbyVolumeID d))
    (TrimSpace (fdSourceClusterID d)) (TrimSpace (fdTargetClusterID d)) (TrimSpace (fdSourceVolumeID d))
    (TrimSpace (fdTargetVolumeID d)) (fdExpectedPromoteGeneration d) (fdFencingEpoch d) (fdSourceFenced d)
    (fdDependencyAuthorityHealthy d) (fdTargetIntegrityVerified d) (fdKeyAccessVerified d)
    (fdSourceFencingReceipt d) (fdIssuedAtUnix d) (fdExpiresAtUnix d).

Definition canonicalFencingDecision (decision : FencingDecision) : result fencing_error bytes :=
  let d := trimmed decision in
  if negb (String.eqb (fdVersion d) FencingDecisionVersion) || String.eqb (fdAuthorityID d) ""
     || String.eqb (fdDecisionID d) "" || negb (String.eqb (fdAction d) FencingActionPromote)
     || String.eqb (fdReplicationLinkID d) "" || String.eqb (fdStandbyVolumeID d) ""
     || String.eqb (fdSourceClusterID d) "" || String.eqb (fdTargetClusterID d) ""
     || String.eqb (fdSourceVolumeID d) "" || String.eqb (fdTargetVolumeID d) ""
     || (fdExpectedPromoteGeneration d =? 0) || (fdFencingEpoch d =? 0)
  then Err DecisionIncomplete else Ok (json_decision d).

Definition SignFencingDecision (privateKey : bytes) (decision : FencingDecision)
  : result fencing_error SignedFencingDecision :=
  if negb (zlen privateKey =? PrivateKeySize) then Err PrivateKeyLength else
  canonical ← canonicalFencingDecision decision;
  Ok (mkSignedFencingDecision decision (base64_encode (ed25519_Sign privateKey canonical))).

Definition signature_valid (publicKey canonical : bytes) (signature : option bytes) : bool :=
  match signature with
  | Some signature => (zlen signature =? SignatureSize) && ed25519_Verify publicKey canonical signature
  | None => false
  end.

Definition VerifyFencingDecision (publicKey : bytes) (signed : SignedFencingDecision) (expected : FencingDecision)
    (now : Z) : result fencing_error string :=
  if negb (zlen publicKey =? PublicKeySize) then Err PublicKeyLength else
  canonical ← canonicalFencingDecision (sdDecision signed);
  if negb (signature_valid publicKey canonical (base64_decode_strict (TrimSpace (sdSignatureBase64 signed))))
  then Err SignatureFailed else
  let decision := sdDecision signed in
  if negb (bool_decide (decision = expected)) then Err IdentityMismatch else
  let issued := time_Unix (fdIssuedAtUnix decision) in
  let expires := time_Unix (fdExpiresAtUnix decision) in
  if (fdIssuedAtUnix decision <=? 0) || (fdExpiresAtUnix decision <=? fdIssuedAtUnix decision)
     || (MaxFencingDecisionLifetime <? time_Sub expires issued) then Err InvalidLifetime else
  if now + MaxFencingDecisionClockSkew <? issued then Err NotActiveYet else
  if negb (now <? expires) then Err DecisionExpired else
  if negb (fdSourceFenced decision) || negb (fdDependencyAuthorityHealthy decision)
     || negb (fdTargetIntegrityVerified decision) || negb (fdKeyAccessVerified decision)
     || String.eqb (TrimSpace (fdSourceFencingReceipt decision)) "" then Err PreconditionUnproved else
  Ok ("sha256:" ++ Shipping.hex_encode (sha256 canonical)).

Definition trimmed_input (i : SourceFenceReceiptInput) : SourceFenceReceiptInput :=
  mkSourceFenceReceiptInput (TrimSpace (siAuthorityID i)) (TrimSpace (siDecisionID i))
    (TrimSpace (siReplicationLinkID i)) (TrimSpace (siSourceClusterID i)) (TrimSpace (siTargetClusterID i))
    (TrimSpace (siSourceVolumeID i)) (TrimSpace (siTargetVolumeID i)) (siSourceFenceGeneration i) (siFencingEpoch i).

Definition SourceFencingReceipt (input : SourceFenceReceiptInput) : result fencing_error string :=
  let i := trimmed_input input in
  if String.eqb (siAuthorityID i) "" || String.eqb (siDecisionID i) "" || String.eqb (siReplicationLinkID i) ""
     || String.eqb (siSourceClusterID i) "" || String.eqb (siTargetClusterID i) ""
     || String.eqb (siSourceVolumeID i) "" || String.eqb (siTargetVolumeID i) ""
     || (siSourceFenceGeneration i =? 0) || (siFencingEpoch i =? 0)
  then Err ReceiptInputIncomplete else Ok ("sha256:" ++ Shipping.hex_encode (sha256 (json_receipt i))).

Definition FencingPublicKeyFingerprint (publicKey : bytes) : result fencing_error string :=
  if negb (zlen publicKey =? PublicKeySize) then Err PublicKeyLength else
  Ok ("sha256:" ++ Shipping.hex_encode (sha256 publicKey)).

(** ** Acceptance *)

(** A decision is active from thirty seconds before it was issued until it
    expires, at most an hour later. *)
Definition active (d : FencingDecision) (now : Z) : Prop :=
  0 < fdIssuedAtUnix d < fdExpiresAtUnix d /\ fdExpiresAtUnix d <= fdIssuedAtUnix d + 3600 /\
  fdIssuedAtUnix d * Second <= now + 30 * Second /\ now < fdExpiresAtUnix d * Second.

Definition proves_preconditions (d : FencingDecision) : Prop :=
  fdSourceFenced d = true /\ fdDependencyAuthorityHealthy d = true /\ fdTargetIntegrityVerified d = true /\
  fdKeyAccessVerified d = true /\ TrimSpace (fdSourceFencingReceipt d) <> "".

(** Times an [int64] of seconds holds; the clock fits [UnixNano]. *)
Definition i64 (z : Z) : Prop := - 2 ^ 63 <= z < 2 ^ 63.
Definition clock (now : Z) : Prop := 0 <= now < 2 ^ 63.

Lemma time_Unix_cases sec : 0 < sec < 2 ^ 63 ->
  (time_Unix sec = sec * Second /\ sec + unixToInternal < 2 ^ 63) \/
  (time_Unix sec < 0 /\ 2 ^ 63 <= sec + unixToInternal).
Proof.
  intros Hs. unfold time_Unix, unixToInternal, Second in *.
  destruct (decide (sec + 62135596800 < 2 ^ 63)) as [Hlt|Hge].
  - left. split; [|done]. rewrite add_i64_small by lia. lia.
  - right. split; [|lia]. unfold add_i64, int64_of. rewrite Z.mod_small by lia.
    destruct (Z.ltb_spec (sec + 62135596800) (2 ^ 63)); lia.
Qed.

(** The tests on the times decide [active], also where the seconds wrap. *)
Lemma times_active d now : i64 (fdIssuedAtUnix d) -> i64 (fdExpiresAtUnix d) -> clock now ->
  ((fdIssuedAtUnix d <=? 0) || (fdExpiresAtUnix d <=? fdIssuedAtUnix d)
     || (MaxFencingDecisionLifetime <? time_Sub (time_Unix (fdExpiresAtUnix d)) (time_Unix (fdIssuedAtUnix d))) = false /\
   (now + MaxFencingDecisionClockSkew <? time_Unix (fdIssuedAtUnix d)) = false /\
   (now <? time_Unix (fdExpiresAtUnix d)) = true) <-> active d now.
Proof.
  unfold i64, clock, active, time_Sub, MaxFencingDecisionLifetime, MaxFencingDecisionClockSkew. intros Hi He Hn.
  destruct (Z.leb_spec (fdIssuedAtUnix d) 0); [cbn; lia|].
  destruct (Z.leb_spec (fdExpiresAtUnix d) (fdIssuedAtUnix d)); [cbn; lia|]. cbn [orb].
  rewrite !Z.ltb_ge, Z.ltb_lt.
  destruct (time_Unix_cases (fdIssuedAtUnix d)) as [[-> Hi1]|[Hi0 Hi1]]; [lia| |];
    destruct (time_Unix_cases (fdExpiresAtUnix d)) as [[-> He1]|[He0 He1]]; try lia;
    unfold Second, unixToInternal in *; lia.
Qed.

(** What the code relies on of Ed25519 and base64: a signature has its length,
    verifies under the key's other half, and survives the encoding. *)
Class Ed25519 (privateKey publicKey : bytes) := {
  sizes : zlen privateKey = PrivateKeySize /\ zlen publicKey = PublicKeySize;
  sign_size m : zlen (ed25519_Sign privateKey m) = SignatureSize;
  sign_verify m : ed25519_Verify publicKey m (ed25519_Sign privateKey m) = true;
  base64_trim data : TrimSpace (base64_encode data) = base64_encode data;
  base64_strict data : base64_decode_strict (base64_encode data) = Some data }.

Lemma preconditions_tests d :
  negb (fdSourceFenced d) || negb (fdDependencyAuthorityHealthy d) || negb (fdTargetIntegrityVerified d)
  || negb (fdKeyAccessVerified d) || String.eqb (TrimSpace (fdSourceFencingReceipt d)) "" = false
  <-> proves_preconditions d.
Proof. unfold proves_preconditions. rewrite !orb_false_iff, !negb_false_iff, String.eqb_neq. tauto. Qed.

(** C14: a signed decision promotes exactly what it names, while it is active.
    A decision signed with the authority's key verifies under its public half if
    and only if it is, field by field, the expected one, the clock is within its
    lifetime (at most an hour, thirty seconds of skew before it) and it proves
    every precondition; times near the end of the 64-bit range are not accepted
    by wrapping around. *)
Theorem fencing_acceptance_exact (privateKey publicKey : bytes) `{!Ed25519 privateKey publicKey}
    (decision expected : FencingDecision) (signed : SignedFencingDecision) (now : Z) :
  SignFencingDecision privateKey decision = Ok signed ->
  i64 (fdIssuedAtUnix decision) -> i64 (fdExpiresAtUnix decision) -> clock now ->
  (exists digest, VerifyFencingDecision publicKey signed expected now = Ok digest) <->
  decision = expected /\ active expected now /\ proves_preconditions expected.
Proof.
  unfold SignFencingDecision. destruct sizes as [Hpriv Hpub]. rewrite Hpriv. cbn [negb].
  destruct (canonicalFencingDecision decision) as [canonical|e|] eqn:Hcan; [|done|done]. intros [= <-] Hi He Hn.
  unfold VerifyFencingDecision. cbn [sdDecision sdSignatureBase64]. rewrite Hpub, Hcan. cbn.
  rewrite base64_trim, base64_strict. unfold signature_valid. rewrite sign_size, sign_verify. cbn [andb negb].
  case_bool_decide as Heq; cbn [negb]; [subst expected|split; [by intros [? [=]]|by intros (? & _)]].
  rewrite <-(times_active decision now Hi He Hn), <-(preconditions_tests decision).
  destruct (_ || _ || (_ <? time_Sub _ _)); [split; [by intros [? [=]]|by intros (_ & (? & _) & _)]|].
  destruct (_ <? time_Unix _); [split; [by intros [? [=]]|by intros (_ & (_ & ? & _) & _)]|].
  destruct (_ <? time_Unix _); [|split; [by intros [? [=]]|by intros (_ & (_ & _ & ?) & _)]]. cbn [negb].
  destruct (_ || String.eqb _ ""); [split; [by intros [? [=]]|by intros (_ & _ & ?)]|].
  split; [done|]. intros _. by eexists.
Qed.

End Fencing.

(** ** A toy scheme *)

Definition toy_sign (_ m : bytes) : bytes := take 64 (m ++ zeroes 64)%list.
Definition toy_verify (_ m signature : bytes) : bool := bool_decide (signature = toy_sign [] m).

(** Hexadecimal in place of base64. *)
Fixpoint hex_pairs (l : list ascii) : option bytes :=
  match l with
  | [] => Some []
  | a :: b :: l => da ← hex_value a; db ← hex_value b; r ← hex_pairs l; Some (byte.of_Z (16 * da + db) :: r)
  | _ => None
  end.
Definition toy_decode (s : string) : option bytes := hex_pairs (list_ascii_of_string s).

Lemma toy_decode_encode data : toy_decode (Shipping.hex_encode data) = Some data.
Proof.
  unfold toy_decode, Shipping.hex_encode. rewrite list_ascii_of_string_of_list_ascii.
  induction data as [|b data IH]; [done|]. cbn [map concat app hex_pairs].
  pose proof (byte.unsigned_range b). rewrite !hex_value_digit by dlia. cbn. rewrite IH. cbn.
  replace (16 * (byte.unsigned b / 16) + byte.unsigned b mod 16) with (byte.unsigned b) by dlia.
  by rewrite byte.of_Z_unsigned.
Qed.

Lemma toy_sign_size m : zlen (toy_sign [] m) = 64.
Proof. unfold toy_sign, zlen, zeroes. rewrite length_take, length_app, length_replicate. lia. Qed.

#[export] Instance toy_ed25519 :
  Ed25519 toy_sign toy_verify Shipping.hex_encode toy_decode (zeroes 64) (zeroes 32).
Proof.
  split.
  - done.
  - apply toy_sign_size.
  - intros m. unfold toy_verify. by apply bool_decide_eq_true.
  - intros data. destruct (ShippingFacts.hex_encode_digits data) as (l & -> & Hl).
    apply VolumeId.TrimSpace_graphic. by apply VolumeId.lower_graphic.
  - apply toy_decode_encode.
Qed.

Definition sample_decision : FencingDecision :=
  mkFencingDecision FencingDecisionVersion "authority" "d1" "promote" "link" "standby" "east" "west" "v1" "v2" 3 4
    true true true true "receipt" 1000 2000.
Definition sample_json (d : FencingDecision) : bytes := list_byte_of_string (fdDecisionID d ++ fdTargetVolumeID d).
Definition sample_signed : SignedFencingDecision :=
  mkSignedFencingDecision sample_decision (Shipping.hex_encode (toy_sign [] (list_byte_of_string "d1v2"))).

Lemma fencing_acceptance_exact_witness :
  (exists digest, VerifyFencingDecision toy_verify toy_decode sample_json (fun d => d) (zeroes 32) sample_signed
                    sample_decision (1500 * Second) = Ok digest) /\
  ~ (exists digest, VerifyFencingDecision toy_verify toy_decode sample_json (fun d => d) (zeroes 32) sample_signed
                      sample_decision (2000 * Second) = Ok digest).
Proof.
  assert (SignFencingDecision toy_sign Shipping.hex_encode sample_json (zeroes 64) sample_decision = Ok sample_signed) as Hs
    by (vm_compute; reflexivity).
  split.
  - apply (fencing_acceptance_exact toy_sign toy_verify Shipping.hex_encode toy_decode sample_json (fun d => d)
             (zeroes 64) (zeroes 32) sample_decision sample_decision sample_signed (1500 * Second) Hs);
      [concrete_bounds|concrete_bounds|concrete_bounds|].
    split; [done|]. split; [concrete_bounds|]. split_and!; done.
  - intros H. apply (fencing_acceptance_exact toy_sign toy_verify Shipping.hex_encode toy_decode sample_json (fun d => d)
             (zeroes 64) (zeroes 32) sample_decision sample_decision sample_signed (2000 * Second) Hs) in H;
      [|concrete_bounds|concrete_bounds|concrete_bounds].
    destruct H as (_ & (_ & _ & _ & H) & _). vm_compute in H. discriminate.
Defined.

End Fencing.
