(* ===== verification/Netlink.v ===== *)
(** * The control channel to the kernel

    Models src/control/netlinktlv/tlv.go: the attributes of generic netlink that
    carry requests to the kernel module and its answers back.  Attribute values
    are looked up in a map from types to payloads, as in the code; slicing
    outside of a payload would be a [Panic]. *)

From Stdlib Require Import ZArith Lia Ascii String.
From Stdlib Require Strings.Byte.
From stdpp Require Import base list gmap strings.
From coqutil Require Import Byte Word.LittleEndianList.
From S2P Require Import Prelude.
Open Scope string_scope.
Open Scope Z_scope.

Module Netlink.

Definition FamilyName : string := "NAMRBD_CTRL".
Definition FamilyVersion : Z := 1.

Definition nlaFNested : Z := Z.shiftl 1 15.
Definition nlaFNetByteorder : Z := Z.shiftl 1 14.
Definition nlaTypeMask : Z := 2 ^ 16 - 1 - Z.lor nlaFNested nlaFNetByteorder.

Definition CmdUnspec : Z := 0.
Definition CmdCreateDevice : Z := 1.
Definition CmdDestroyDevice : Z := 2.
Definition CmdConfigREST : Z := 3.
Definition CmdAttach : Z := 4.
Definition CmdDetach : Z := 5.
Definition CmdGetStatus : Z := 6.
Definition CmdListDevices : Z := 7.
Definition CmdAttachManifest : Z := 8.
Definition CmdDetachLocal : Z := 9.
Definition CmdUpdatePathPlan : Z := 10.
Definition CmdReconfigureDataPaths : Z := 11.
Definition CmdResizeDevice : Z := 12.
Definition AttrUnspec : Z := 0.
Definition AttrDeviceID : Z := 1.
Definition AttrDiskName : Z := 2.
Definition AttrServers : Z := 3.
Definition AttrServerEntry : Z := 4.
Definition AttrAttachReq : Z := 5.
Definition AttrDetachReq : Z := 6.
Definition AttrDeviceStatus : Z := 7.
Definition AttrDeviceList : Z := 8.
Definition AttrStatus : Z := 9.
Definition AttrErrMsg : Z := 10.
Definition AttrManifestJSON : Z := 11.
Definition AttrDownMask : Z := 12.
Definition AttrDegradedMask : Z := 13.
Definition AttrDrainingMask : Z := 14.
Definition AttrPathPlanRevision : Z := 15.
Definition AttrSizeBytes : Z := 16.
Definition AttrVolumeID : Z := 17.
Definition AttrGeneration : Z := 18.
Definition ServerAttrUnspec : Z := 0.
Definition ServerAttrID : Z := 1.
Definition ServerAttrAddress : Z := 2.
Definition ServerAttrPort : Z := 3.
Definition ServerAttrUseTLS : Z := 4.
Definition ServerAttrAPIPrefix : Z := 5.
Definition ServerAttrBearerToken : Z := 6.
Definition ReqAttrUnspec : Z := 0.
Definition ReqAttrDeviceID : Z := 1.
Definition ReqAttrHostID : Z := 2.
Definition ReqAttrVolumeID : Z := 3.
Definition StatusAttrUnspec : Z := 0.
Definition StatusAttrDeviceID : Z := 1.
Definition StatusAttrDiskName : Z := 2.
Definition StatusAttrAttached : Z := 3.
Definition StatusAttrVolumeID : Z := 4.
Definition StatusAttrGeneration : Z := 5.
Definition StatusAttrPathCount : Z := 6.
Definition StatusAttrDownMask : Z := 7.
Definition StatusAttrDegradedMask : Z := 8.
Definition StatusAttrDrainingMask : Z := 9.
Definition StatusAttrAppliedPathPlanRevision : Z := 10.
Definition StatusAttrActiveLaneCount : Z := 11.
Definition StatusAttrNrHwQueues : Z := 12.
Definition StatusAttrTargetNrHwQueues : Z := 13.
Definition StatusAttrQueueTopologyGeneration : Z := 14.
Definition StatusAttrQueueTopologyState : Z := 15.
Definition StatusAttrPaths : Z := 16.
Definition StatusAttrLanes : Z := 17.
Definition StatusAttrLaneRemapCount : Z := 18.
Definition StatusAttrLastLaneRemappedLanes : Z := 19.
Definition StatusAttrLastLaneRemapJiffies : Z := 20.
Definition StatusAttrLastLaneRemapReason : Z := 21.
Definition StatusAttrNoPathRetryMode : Z := 22.
Definition StatusAttrNoPathRetrySeconds : Z := 23.
Definition StatusAttrNoPathState : Z := 24.
Definition StatusAttrNoPathSinceJiffies : Z := 25.
Definition StatusAttrNoPathRetryDeadline : Z := 26.
Definition StatusAttrLastNoPathWakeupJiffies : Z := 27.
Definition StatusAttrNoPathQueuedReqs : Z := 28.
Definition StatusAttrNoPathRequeuedReqs : Z := 29.
Definition StatusAttrNoPathFailedReqs : Z := 30.
Definition StatusAttrNoPathRecoveredReqs : Z := 31.
Definition StatusAttrNoPathEnterCount : Z := 32.
Definition StatusAttrLastNoPathReason : Z := 33.
Definition StatusAttrLastNoPathOp : Z := 34.
Definition StatusAttrLastNoPathEligiblePaths : Z := 35.
Definition StatusAttrLastNoPathTriedMask : Z := 36.
Definition StatusAttrLastNoPathJiffies : Z := 37.
Definition StatusPathAttrUnspec : Z := 0.
Definition StatusPathAttrEntry : Z := 1.
Definition StatusPathAttrPathID : Z := 2.
Definition StatusPathAttrState : Z := 3.
Definition StatusPathAttrConsecutiveErrors : Z := 4.
Definition StatusPathAttrLastErrno : Z := 5.
Definition StatusPathAttrLastWireStatus : Z := 6.
Definition StatusPathAttrGatewayID : Z := 7.
Definition StatusPathAttrAddress : Z := 8.
Definition StatusPathAttrPort : Z := 9.
Definition StatusPathAttrUseTLS : Z := 10.
Definition StatusPathAttrServerName : Z := 11.
Definition StatusPathAttrPriority : Z := 12.
Definition StatusPathAttrConnected : Z := 13.
Definition StatusPathAttrInflight : Z := 14.
Definition StatusPathAttrPending : Z := 15.
Definition StatusPathAttrOutstandingLimit : Z := 16.
Definition StatusPathAttrCompleted : Z := 17.
Definition StatusPathAttrRetries : Z := 18.
Definition StatusPathAttrConnOpens : Z := 19.
Definition StatusPathAttrConnResets : Z := 20.
Definition StatusPathAttrPendingHighWater : Z := 21.
Definition StatusPathAttrSubmitted : Z := 22.
Definition StatusLaneAttrUnspec : Z := 0.
Definition StatusLaneAttrEntry : Z := 1.
Definition StatusLaneAttrLaneID : Z := 2.
Definition StatusLaneAttrPreferredPathID : Z := 3.
Definition StatusLaneAttrFallbackPathID : Z := 4.
Definition StatusLaneAttrReadiness : Z := 5.
Definition StatusLaneAttrDispatchReqs : Z := 6.

Record RESTServer := mkRESTServer {
  rsID : Z; rsAddress : string; rsPort : Z; rsUseTLS : bool; rsAPIPrefix : string; rsBearerToken : string }.

Record CreateDeviceResponse := mkCreateDeviceResponse {
  cdDeviceID : Z; cdDiskName : string }.

Record DestroyDeviceRequest := mkDestroyDeviceRequest {
  ddDeviceID : Z }.

Record ConfigRESTRequest := mkConfigRESTRequest {
  crDeviceID : Z; crServers : list RESTServer }.

Record AttachRequest := mkAttachRequest {
  arDeviceID : Z; arHostID : string; arVolumeID : Z }.

Record DetachRequest := mkDetachRequest {
  drDeviceID : Z; drHostID : string; drVolumeID : Z }.

Record AttachManifestRequest := mkAttachManifestRequest {
  amDeviceID : Z; amHostID : string; amVolumeID : Z; amManifestJSON : string }.

Record DetachLocalRequest := mkDetachLocalRequest {
  dlDeviceID : Z; dlVolumeID : Z }.

Record UpdatePathPlanRequest := mkUpdatePathPlanRequest {
  upDeviceID : Z; upPathPlanRevision : Z; upDownMask : Z; upDegradedMask : Z; upDrainingMask : Z }.

Record ResizeDeviceRequest := mkResizeDeviceRequest {
  rzDeviceID : Z; rzVolumeID : Z; rzGeneration : Z; rzSizeBytes : Z }.

Record PathStatus := mkPathStatus {
  psPathID : Z; psState : Z; psConsecutiveErrors : Z; psLastErrno : Z; psLastWireStatus : Z;
  psGatewayID : string; psAddress : string; psPort : Z; psUseTLS : bool; psServerName : string; psPriority : Z;
  psConnected : bool; psInflight : Z; psPending : Z; psPendingHighWater : Z; psOutstandingLimit : Z;
  psSubmitted : Z; psCompleted : Z; psRetries : Z; psConnOpens : Z; psConnResets : Z }.

Record LaneStatus := mkLaneStatus {
  lsLaneID : Z; lsPreferredPathID : Z; lsFallbackPathID : Z; lsReadiness : Z; lsDispatchReqs : Z }.

Record DeviceStatus := mkDeviceStatus {
  dsDeviceID : Z; dsDiskName : string; dsAttached : bool; dsVolumeID : Z; dsGeneration : Z; dsPathCount : Z;
  dsDownMask : Z; dsDegradedMask : Z; dsDrainingMask : Z; dsAppliedPathPlanRevision : Z; dsActiveLaneCount : Z;
  dsNrHwQueues : Z; dsTargetNrHwQueues : Z; dsQueueTopologyGeneration : Z; dsQueueTopologyState : string;
  dsLaneRemapCount : Z; dsLastLaneRemappedLanes : Z; dsLastLaneRemapJiffies : Z;
  dsLastLaneRemapReason : string; dsNoPathRetryMode : Z; dsNoPathRetrySeconds : Z; dsNoPathState : Z;
  dsNoPathSinceJiffies : Z; dsNoPathRetryDeadline : Z; dsLastNoPathWakeupJiffies : Z; dsNoPathQueuedReqs : Z;
  dsNoPathRequeuedReqs : Z; dsNoPathFailedReqs : Z; dsNoPathRecoveredReqs : Z; dsNoPathEnterCount : Z;
  dsLastNoPathReason : Z; dsLastNoPathOp : Z; dsLastNoPathEligiblePaths : Z; dsLastNoPathTriedMask : Z;
  dsLastNoPathJiffies : Z; dsPaths : list PathStatus; dsLanes : list LaneStatus }.

Record ListDevicesResponse := mkListDevicesResponse {
  ldDevices : list DeviceStatus }.

(** [MissingAttr], [InvalidAttr] name the attribute, [FieldRequired] the field. *)
Inductive tlv_error :=
| ShortHeader | InvalidLength | MissingAttr (attr : Z) | InvalidAttr (attr : Z) | EmptyString | MissingNul
| FieldRequired (field : string).

Record attrItem := mkAttrItem { typ : Z; payload : bytes }.

(** ** Attributes *)

(** [(n + 3) &^ 3]. *)
Definition align4 (n : Z) : Z := Z.ldiff (n + 3) 3.

Definition encodeAttr (typ : Z) (payload : bytes) : bytes :=
  let l := 4 + zlen payload in
  let b := zeroes (align4 l) in
  let b := splice b 0 (le_split 2 (l mod 2 ^ 16)) in
  let b := splice b 2 (le_split 2 typ) in
  splice b 4 payload.

Definition encodeNestedAttr (typ : Z) (payload : bytes) : bytes := encodeAttr (Z.lor typ nlaFNested) payload.

Definition encodeAttrU64 (typ v : Z) : bytes := encodeAttr typ (le_split 8 v).
Definition encodeAttrU32 (typ v : Z) : bytes := encodeAttr typ (le_split 4 v).
Definition encodeAttrU16 (typ v : Z) : bytes := encodeAttr typ (le_split 2 v).
Definition encodeAttrU8 (typ v : Z) : bytes := encodeAttr typ (le_split 1 v).

(** [append(\[\]byte(s), 0)]. *)
Definition cstring (s : string) : bytes := (list_byte_of_string s ++ [Byte.x00])%list.

Definition parseCString (raw : bytes) : result tlv_error string :=
  match last raw with
  | None => Err EmptyString
  | Some b => if byte.unsigned b =? 0 then Ok (string_of_list_byte (removelast raw)) else Err MissingNul
  end.

(** The attribute at [i]: its length, type and payload. *)
Definition attr_at (data : bytes) (i : Z) : result tlv_error (Z * attrItem) :=
  if zlen data - i <? 4 then Err ShortHeader else
  lraw ← go_slice i (i + 2) data;
  traw ← go_slice (i + 2) (i + 4) data;
  let l := le_combine lraw in
  let t := Z.land (le_combine traw) nlaTypeMask in
  if (l <? 4) || (zlen data <? i + l) then Err InvalidLength else
  payload ← go_slice (i + 4) (i + l) data;
  Ok (l, mkAttrItem t payload).

Fixpoint parse_attrs_loop (fuel : nat) (data : bytes) (i : Z) (out : gmap Z bytes)
  : result tlv_error (gmap Z bytes) :=
  if negb (i <? zlen data) then Ok out else
  match fuel with
  | O => Panic
  | S fuel =>
      '(l, item) ← attr_at data i;
      parse_attrs_loop fuel data (i + align4 l) (<[typ item := payload item]> out)
  end.

Definition parseAttrs (data : bytes) : result tlv_error (gmap Z bytes) := parse_attrs_loop (length data) data 0 ∅.

Fixpoint parse_list_loop (fuel : nat) (data : bytes) (i : Z) (out : list attrItem)
  : result tlv_error (list attrItem) :=
  if negb (i <? zlen data) then Ok out else
  match fuel with
  | O => Panic
  | S fuel =>
      '(l, item) ← attr_at data i;
      parse_list_loop fuel data (i + align4 l) (out ++ [item])%list
  end.

Definition parseAttrList (data : bytes) : result tlv_error (list attrItem) := parse_list_loop (length data) data 0 [].

(** ** Reading attributes *)

Definition required (attrs : gmap Z bytes) (attr n : Z) : result tlv_error bytes :=
  match attrs !! attr with
  | Some raw => if zlen raw =? n then Ok raw else Err (InvalidAttr attr)
  | None => Err (InvalidAttr attr)
  end.

(** [parseCString(attrs\[attr\])]: an absent attribute reads as no bytes. *)
Definition cstring_attr (attrs : gmap Z bytes) (attr : Z) : result tlv_error string :=
  parseCString (default [] (attrs !! attr)).

Definition relabel {A} (attr : Z) (r : result tlv_error A) : result tlv_error A := map_err (fun _ => InvalidAttr attr) r.

(** [raw\[0\] != 0] of a payload of one byte. *)
Definition first_set (raw : bytes) : bool := negb (le_combine raw =? 0).

(** [getU32], [getU64]: zero when the attribute is absent or has another length. *)
Definition get_or_zero (attrs : gmap Z bytes) (attr n : Z) : Z :=
  match attrs !! attr with
  | Some raw => if zlen raw =? n then le_combine raw else 0
  | None => 0
  end.

Definition optional_cstring (attrs : gmap Z bytes) (attr : Z) : result tlv_error string :=
  match attrs !! attr with
  | Some raw => relabel attr (parseCString raw)
  | None => Ok ""
  end.

Definition optional_uint (attrs : gmap Z bytes) (attr n : Z) : result tlv_error Z :=
  match attrs !! attr with
  | Some raw => if zlen raw =? n then Ok (le_combine raw) else Err (InvalidAttr attr)
  | None => Ok 0
  end.

Definition optional_flag (attrs : gmap Z bytes) (attr : Z) : result tlv_error bool :=
  match attrs !! attr with
  | Some raw => if zlen raw =? 1 then Ok (first_set raw) else Err (InvalidAttr attr)
  | None => Ok false
  end.

(** The entries of one type, decoded in order; other types are skipped. *)
Fixpoint decode_entries {A} (entry : Z) (decode : bytes -> result tlv_error A) (items : list attrItem) (out : list A)
  : result tlv_error (list A) :=
  match items with
  | [] => Ok out
  | item :: items =>
      if negb (typ item =? entry) then decode_entries entry decode items out else
      x ← decode (payload item);
      decode_entries entry decode items (out ++ [x])%list
  end.

(** ** Requests *)

Definition EncodeCreateDeviceRequest : result tlv_error bytes := Ok [].

Definition EncodeDestroyDeviceRequest (req : DestroyDeviceRequest) : result tlv_error bytes :=
  Ok (encodeAttrU32 AttrDeviceID (ddDeviceID req)).

Definition encodeServerEntry (s : RESTServer) : result tlv_error bytes :=
  if String.eqb (rsAddress s) "" then Err (FieldRequired "address") else
  let payload := (encodeAttrU32 ServerAttrID (rsID s)
    ++ encodeAttr ServerAttrAddress (cstring (rsAddress s))
    ++ encodeAttrU16 ServerAttrPort (rsPort s)
    ++ (if rsUseTLS s then encodeAttrU8 ServerAttrUseTLS 1 else encodeAttrU8 ServerAttrUseTLS 0)
    ++ encodeAttr ServerAttrAPIPrefix (cstring (rsAPIPrefix s))
    ++ (if negb (String.eqb (rsBearerToken s) "")
        then encodeAttr ServerAttrBearerToken (cstring (rsBearerToken s)) else []))%list in
  Ok (encodeNestedAttr AttrServerEntry payload).

Fixpoint encode_servers (servers : list RESTServer) (listPayload : bytes) : result tlv_error bytes :=
  match servers with
  | [] => Ok listPayload
  | s :: servers => entry ← encodeServerEntry s; encode_servers servers (listPayload ++ entry)%list
  end.

Definition EncodeConfigREST (req : ConfigRESTRequest) : result tlv_error bytes :=
  listPayload ← encode_servers (crServers req) [];
  Ok (encodeAttrU32 AttrDeviceID (crDeviceID req) ++ encodeNestedAttr AttrServers listPayload)%list.

Definition decodeServerEntry (raw : bytes) : result tlv_error RESTServer :=
  attrs ← parseAttrs raw;
  addr ← cstring_attr attrs ServerAttrAddress;
  idRaw ← required attrs ServerAttrID 4;
  portRaw ← required attrs ServerAttrPort 2;
  tlsRaw ← required attrs ServerAttrUseTLS 1;
  prefix ← cstring_attr attrs ServerAttrAPIPrefix;
  token ← match attrs !! ServerAttrBearerToken with
          | Some tokRaw => parseCString tokRaw
          | None => Ok ""
          end;
  Ok (mkRESTServer (le_combine idRaw) addr (le_combine portRaw) (first_set tlsRaw) prefix token).

Definition DecodeConfigRESTRequest (payload : bytes) : result tlv_error ConfigRESTRequest :=
  top ← parseAttrs payload;
  deviceIDRaw ← required top AttrDeviceID 4;
  match top !! AttrServers with
  | None => Err (MissingAttr AttrServers)
  | Some rawServers =>
      items ← parseAttrList rawServers;
      servers ← decode_entries AttrServerEntry decodeServerEntry items [];
      Ok (mkConfigRESTRequest (le_combine deviceIDRaw) servers)
  end.

(** The attributes of a request that names a device, a host and a volume. *)
Definition host_request (deviceID : Z) (hostID : string) (volumeID : Z) : bytes :=
  (encodeAttrU32 ReqAttrDeviceID deviceID ++ encodeAttr ReqAttrHostID (cstring hostID)
   ++ encodeAttrU64 ReqAttrVolumeID volumeID)%list.

Definition EncodeAttachRequest (req : AttachRequest) : result tlv_error bytes :=
  if String.eqb (arHostID req) "" then Err (FieldRequired "host_id") else
  Ok (encodeNestedAttr AttrAttachReq (host_request (arDeviceID req) (arHostID req) (arVolumeID req))).

Definition EncodeDetachRequest (req : DetachRequest) : result tlv_error bytes :=
  if String.eqb (drHostID req) "" then Err (FieldRequired "host_id") else
  Ok (encodeNestedAttr AttrDetachReq (host_request (drDeviceID req) (drHostID req) (drVolumeID req))).

Definition EncodeGetStatusRequest (deviceID : Z) : result tlv_error bytes := Ok (encodeAttrU32 AttrDeviceID deviceID).

Definition EncodeAttachManifestRequest (req : AttachManifestRequest) : result tlv_error bytes :=
  if String.eqb (amHostID req) "" then Err (FieldRequired "host_id") else
  if String.eqb (amManifestJSON req) "" then Err (FieldRequired "manifest_json") else
  Ok (encodeNestedAttr AttrAttachReq
        (host_request (amDeviceID req) (amHostID req) (amVolumeID req)
         ++ encodeAttr AttrManifestJSON (cstring (amManifestJSON req)))%list).

Definition EncodeDetachLocalRequest (req : DetachLocalRequest) : result tlv_error bytes :=
  Ok (encodeNestedAttr AttrDetachReq
        (encodeAttrU32 ReqAttrDeviceID (dlDeviceID req) ++ encodeAttrU64 ReqAttrVolumeID (dlVolumeID req))%list).

Definition EncodeUpdatePathPlanRequest (req : UpdatePathPlanRequest) : result tlv_error bytes :=
  Ok (encodeAttrU32 AttrDeviceID (upDeviceID req) ++ encodeAttrU64 AttrPathPlanRevision (upPathPlanRevision req)
      ++ encodeAttrU64 AttrDownMask (upDownMask req) ++ encodeAttrU64 AttrDegradedMask (upDegradedMask req)
      ++ encodeAttrU64 AttrDrainingMask (upDrainingMask req))%list.

Definition EncodeResizeDeviceRequest (req : ResizeDeviceRequest) : result tlv_error bytes :=
  if rzVolumeID req =? 0 then Err (FieldRequired "volume_id") else
  if rzGeneration req =? 0 then Err (FieldRequired "generation") else
  if rzSizeBytes req =? 0 then Err (FieldRequired "size_bytes") else
  Ok (encodeAttrU32 AttrDeviceID (rzDeviceID req) ++ encodeAttrU64 AttrVolumeID (rzVolumeID req)
      ++ encodeAttrU64 AttrGeneration (rzGeneration req) ++ encodeAttrU64 AttrSizeBytes (rzSizeBytes req))%list.

(** ** Answers *)

Definition DecodeCreateDeviceResponse (payload : bytes) : result tlv_error CreateDeviceResponse :=
  attrs ← parseAttrs payload;
  deviceIDRaw ← required attrs AttrDeviceID 4;
  diskName ← cstring_attr attrs AttrDiskName;
  Ok (mkCreateDeviceResponse (le_combine deviceIDRaw) diskName).

(** One entry of the paths. *)
Definition decode_path (payload : bytes) : result tlv_error PathStatus :=
  attrs ← parseAttrs payload;
  pathIDRaw ← required attrs StatusPathAttrPathID 4;
  stateRaw ← required attrs StatusPathAttrState 4;
  consecutiveRaw ← required attrs StatusPathAttrConsecutiveErrors 4;
  lastErrnoRaw ← required attrs StatusPathAttrLastErrno 4;
  lastWireRaw ← required attrs StatusPathAttrLastWireStatus 4;
  gatewayID ← optional_cstring attrs StatusPathAttrGatewayID;
  address ← optional_cstring attrs StatusPathAttrAddress;
  port ← optional_uint attrs StatusPathAttrPort 2;
  useTLS ← optional_flag attrs StatusPathAttrUseTLS;
  serverName ← optional_cstring attrs StatusPathAttrServerName;
  priority ← optional_uint attrs StatusPathAttrPriority 4;
  connected ← optional_flag attrs StatusPathAttrConnected;
  inflight ← optional_uint attrs StatusPathAttrInflight 4;
  pending ← optional_uint attrs StatusPathAttrPending 4;
  pendingHighWater ← optional_uint attrs StatusPathAttrPendingHighWater 4;
  outstandingLimit ← optional_uint attrs StatusPathAttrOutstandingLimit 4;
  submitted ← optional_uint attrs StatusPathAttrSubmitted 8;
  completed ← optional_uint attrs StatusPathAttrCompleted 8;
  retries ← optional_uint attrs StatusPathAttrRetries 8;
  connOpens ← optional_uint attrs StatusPathAttrConnOpens 8;
  connResets ← optional_uint attrs StatusPathAttrConnResets 8;
  Ok (mkPathStatus (le_combine pathIDRaw) (le_combine stateRaw) (le_combine consecutiveRaw)
        (le_combine lastErrnoRaw) (le_combine lastWireRaw) gatewayID address port useTLS serverName priority
        connected inflight pending pendingHighWater outstandingLimit submitted completed retries connOpens
        connResets).

Definition decodePathStatuses (raw : bytes) : result tlv_error (list PathStatus) :=
  if zlen raw =? 0 then Ok [] else
  items ← parseAttrList raw;
  decode_entries StatusPathAttrEntry decode_path items [].

(** One entry of the lanes. *)
Definition decode_lane (payload : bytes) : result tlv_error LaneStatus :=
  attrs ← parseAttrs payload;
  laneIDRaw ← required attrs StatusLaneAttrLaneID 4;
  preferredPathIDRaw ← required attrs StatusLaneAttrPreferredPathID 4;
  fallbackPathIDRaw ← required attrs StatusLaneAttrFallbackPathID 4;
  readinessRaw ← required attrs StatusLaneAttrReadiness 4;
  dispatchReqs ← optional_uint attrs StatusLaneAttrDispatchReqs 8;
  Ok (mkLaneStatus (le_combine laneIDRaw) (le_combine preferredPathIDRaw) (le_combine fallbackPathIDRaw)
        (le_combine readinessRaw) dispatchReqs).

Definition decodeLaneStatuses (raw : bytes) : result tlv_error (list LaneStatus) :=
  if zlen raw =? 0 then Ok [] else
  items ← parseAttrList raw;
  decode_entries StatusLaneAttrEntry decode_lane items [].

Definition decodeDeviceStatus (raw : bytes) : result tlv_error DeviceStatus :=
  attrs ← parseAttrs raw;
  deviceIDRaw ← required attrs StatusAttrDeviceID 4;
  diskName ← cstring_attr attrs StatusAttrDiskName;
  attachedRaw ← required attrs StatusAttrAttached 1;
  volumeIDRaw ← required attrs StatusAttrVolumeID 8;
  generationRaw ← required attrs StatusAttrGeneration 8;
  pathCountRaw ← required attrs StatusAttrPathCount 4;
  downMaskRaw ← required attrs StatusAttrDownMask 8;
  degradedMaskRaw ← required attrs StatusAttrDegradedMask 8;
  drainingMaskRaw ← required attrs StatusAttrDrainingMask 8;
  appliedRevisionRaw ← required attrs StatusAttrAppliedPathPlanRevision 8;
  activeLaneCountRaw ← required attrs StatusAttrActiveLaneCount 4;
  nrHwQueuesRaw ← required attrs StatusAttrNrHwQueues 4;
  targetNrHwQueuesRaw ← required attrs StatusAttrTargetNrHwQueues 4;
  queueTopologyGenerationRaw ← required attrs StatusAttrQueueTopologyGeneration 8;
  queueTopologyState ← relabel StatusAttrQueueTopologyState (cstring_attr attrs StatusAttrQueueTopologyState);
  laneRemapCountRaw ← required attrs StatusAttrLaneRemapCount 8;
  lastLaneRemappedLanesRaw ← required attrs StatusAttrLastLaneRemappedLanes 4;
  lastLaneRemapJiffiesRaw ← required attrs StatusAttrLastLaneRemapJiffies 8;
  lastLaneRemapReason ← relabel StatusAttrLastLaneRemapReason (cstring_attr attrs StatusAttrLastLaneRemapReason);
  pathStatuses ← decodePathStatuses (default [] (attrs !! StatusAttrPaths));
  laneStatuses ← decodeLaneStatuses (default [] (attrs !! StatusAttrLanes));
  Ok (mkDeviceStatus (le_combine deviceIDRaw) diskName (first_set attachedRaw) (le_combine volumeIDRaw)
        (le_combine generationRaw) (le_combine pathCountRaw) (le_combine downMaskRaw)
        (le_combine degradedMaskRaw) (le_combine drainingMaskRaw) (le_combine appliedRevisionRaw)
        (le_combine activeLaneCountRaw) (le_combine nrHwQueuesRaw) (le_combine targetNrHwQueuesRaw)
        (le_combine queueTopologyGenerationRaw) queueTopologyState (le_combine laneRemapCountRaw)
        (le_combine lastLaneRemappedLanesRaw) (le_combine lastLaneRemapJiffiesRaw) lastLaneRemapReason
        (get_or_zero attrs StatusAttrNoPathRetryMode 4) (get_or_zero attrs StatusAttrNoPathRetrySeconds 4)
        (get_or_zero attrs StatusAttrNoPathState 4) (get_or_zero attrs StatusAttrNoPathSinceJiffies 8)
        (get_or_zero attrs StatusAttrNoPathRetryDeadline 8)
        (get_or_zero attrs StatusAttrLastNoPathWakeupJiffies 8) (get_or_zero attrs StatusAttrNoPathQueuedReqs 8)
        (get_or_zero attrs StatusAttrNoPathRequeuedReqs 8) (get_or_zero attrs StatusAttrNoPathFailedReqs 8)
        (get_or_zero attrs StatusAttrNoPathRecoveredReqs 8) (get_or_zero attrs StatusAttrNoPathEnterCount 8)
        (get_or_zero attrs StatusAttrLastNoPathReason 4) (get_or_zero attrs StatusAttrLastNoPathOp 4)
        (get_or_zero attrs StatusAttrLastNoPathEligiblePaths 4)
        (get_or_zero attrs StatusAttrLastNoPathTriedMask 8) (get_or_zero attrs StatusAttrLastNoPathJiffies 8)
        pathStatuses laneStatuses).

Definition DecodeDeviceStatus (payload : bytes) : result tlv_error DeviceStatus :=
  top ← parseAttrs payload;
  match top !! AttrDeviceStatus with
  | None => Err (MissingAttr AttrDeviceStatus)
  | Some raw => decodeDeviceStatus raw
  end.

Definition DecodeListDevices (payload : bytes) : result tlv_error ListDevicesResponse :=
  top ← parseAttrs payload;
  match top !! AttrDeviceList with
  | None => Err (MissingAttr AttrDeviceList)
  | Some raw =>
      items ← parseAttrList raw;
      devices ← decode_entries AttrDeviceStatus decodeDeviceStatus items [];
      Ok (mkListDevicesResponse devices)
  end.

End Netlink.
