(* ===== verification/NetlinkFacts.v ===== *)
(** * Attributes survive the control channel

    Proofs about [Netlink]: an attribute list that fits its length fields is
    parsed back attribute by attribute, the map parser is the list parser read as a
    map, the decoders answer every input without running out of bounds, and the
    requests and answers of the channel round-trip. *)

From Stdlib Require Import ZArith Lia Ascii String.
From Stdlib Require Strings.Byte.
From stdpp Require Import base list list_numbers gmap strings.
From coqutil Require Import Byte Word.LittleEndianList.
From S2P Require Import Prelude Netlink.
Open Scope string_scope.
Open Scope Z_scope.

Module NetlinkFacts.
Import Netlink.

(** ** Alignment *)

Lemma align4_eq n : align4 n = (n + 3) / 4 * 4.
Proof.
  unfold align4. change 3 with (Z.ones 2) at 2.
  rewrite Z.ldiff_ones_r, Z.shiftl_mul_pow2, Z.shiftr_div_pow2 by lia. reflexivity.
Qed.

Lemma align4_bounds n : n <= align4 n < n + 4.
Proof. rewrite align4_eq. dlia. Qed.

(** ** One attribute *)

Definition pad (p : bytes) : bytes := zeroes (align4 (4 + zlen p) - (4 + zlen p)).

Lemma encodeAttr_layout t p :
  encodeAttr t p = (le_split 2 ((4 + zlen p) mod 2 ^ 16) ++ le_split 2 t ++ p ++ pad p)%list.
Proof.
  pose proof (align4_bounds (4 + zlen p)) as Ha. pose proof (zlen_nonneg p) as Hp. unfold encodeAttr, pad.
  set (l := align4 (4 + zlen p)) in *.
  assert (zeroes l = zeroes 2 ++ zeroes 2 ++ zeroes (zlen p) ++ zeroes (l - (4 + zlen p)))%list as ->.
  { unfold zeroes. rewrite <-!replicate_add. f_equal. lia. }
  change (zeroes 2) with [Byte.x00; Byte.x00]. unfold splice. change (Z.to_nat 0) with 0%nat. change (Z.to_nat 2) with 2%nat. change (Z.to_nat 4) with 4%nat.
  rewrite !length_le_split.
  generalize (le_split 2 ((4 + zlen p) mod 2 ^ 16)), (le_split 2 t),
    (length_le_split 2 ((4 + zlen p) mod 2 ^ 16)), (length_le_split 2 t).
  intros a b Hla Hlb. destruct a as [|a1 [|a2 [|]]]; try discriminate. destruct b as [|b1 [|b2 [|]]]; try discriminate.
  cbn. rewrite drop_0, take_0. cbn [app]. rewrite drop_app_exact; [done|]. unfold zeroes, zlen. rewrite length_replicate. lia.
Qed.

Lemma zlen_le_split n z : zlen (le_split n z) = Z.of_nat n.
Proof. unfold zlen. by rewrite length_le_split. Qed.

Lemma zlen_encodeAttr t p : zlen (encodeAttr t p) = align4 (4 + zlen p).
Proof.
  pose proof (align4_bounds (4 + zlen p)). rewrite encodeAttr_layout, !zlen_app. unfold pad. rewrite zlen_zeroes, !zlen_le_split by lia. lia.
Qed.

(** The type without the flags of netlink. *)
Definition attr_type (t : Z) : Z := Z.land t nlaTypeMask.

Lemma go_slice_mid {E A} (a b c : list A) i j : i = zlen a -> j = i + zlen b ->
  go_slice (E := E) i j (a ++ b ++ c) = Ok b.
Proof.
  intros -> ->. unfold go_slice. pose proof (zlen_nonneg a). pose proof (zlen_nonneg b). pose proof (zlen_nonneg c).
  rewrite !zlen_app. rewrite !(proj2 (Z.leb_le _ _)) by lia. cbn [andb]. unfold slice, zlen.
  rewrite Nat2Z.id, drop_app_length, take_app_exact; [done|lia].
Qed.

Lemma attr_at_encoded pre t p rest : 4 + zlen p < 2 ^ 16 -> u16 t ->
  attr_at (pre ++ encodeAttr t p ++ rest) (zlen pre) = Ok (4 + zlen p, mkAttrItem (attr_type t) p).
Proof.
  intros Hl Ht. unfold attr_at. pose proof (align4_bounds (4 + zlen p)). pose proof (zlen_nonneg p).
  pose proof (zlen_nonneg rest). rewrite !zlen_app, zlen_encodeAttr.
  rewrite (proj2 (Z.ltb_ge _ 4)) by lia. rewrite encodeAttr_layout, <-!app_assoc.
  set (la := le_split 2 _). set (lt := le_split 2 t).
  assert (zlen la = 2) as Hla by apply zlen_le_split.
  assert (zlen lt = 2) as Hlt by apply zlen_le_split.
  rewrite (go_slice_mid pre la _ (zlen pre)) by lia. simpl_bind.
  rewrite (app_assoc pre la), (go_slice_mid (pre ++ la) lt _ (zlen pre + 2)) by (rewrite ?zlen_app; lia). simpl_bind.
  assert (le_combine la = 4 + zlen p) as -> by
    (unfold la; rewrite le_combine_split, (Z.mod_small (4 + zlen p)) by lia; apply Z.mod_small; cbn; lia).
  assert (le_combine lt = t) as -> by (unfold lt; rewrite le_combine_split; apply Z.mod_small; exact Ht).
  rewrite (proj2 (Z.ltb_ge (4 + zlen p) 4)), (proj2 (Z.ltb_ge (zlen pre + _) _)) by lia. cbn [orb].
  rewrite (app_assoc (pre ++ la)), (go_slice_mid ((pre ++ la) ++ lt) p) by (rewrite ?zlen_app; lia). reflexivity.
Qed.

(** ** Lists of attributes *)

Definition encode_items (items : list (Z * bytes)) : bytes := concat (map (fun '(t, p) => encodeAttr t p) items).

Definition item_of '((t, p) : Z * bytes) : attrItem := mkAttrItem (attr_type t) p.

(** The items fit the 16 bits of their lengths and types. *)
Definition fits (items : list (Z * bytes)) : Prop := Forall (fun '(t, p) => u16 t /\ 4 + zlen p < 2 ^ 16) items.

Lemma encode_items_length items : Z.of_nat (length items) <= zlen (encode_items items).
Proof.
  induction items as [|[t p] items IH]; [done|]. unfold encode_items in *. cbn [map concat length].
  rewrite zlen_app, zlen_encodeAttr. pose proof (align4_bounds (4 + zlen p)). pose proof (zlen_nonneg p). lia.
Qed.

Lemma parse_list_encoded items : forall pre fuel out, fits items -> (length items <= fuel)%nat ->
  parse_list_loop fuel (pre ++ encode_items items) (zlen pre) out = Ok (out ++ map item_of items)%list.
Proof.
  induction items as [|[t p] items IH]; intros pre fuel out Hf Hfuel.
  { unfold encode_items. cbn. rewrite app_nil_r. rewrite !app_nil_r. destruct fuel; cbn; by rewrite Z.ltb_irrefl. }
  destruct fuel as [|fuel]; [cbn in Hfuel; lia|]. apply Forall_cons in Hf as [[Ht Hp] Hf'].
  unfold encode_items. cbn [map concat parse_list_loop]. fold (encode_items items).
  rewrite attr_at_encoded by done. pose proof (align4_bounds (4 + zlen p)). pose proof (zlen_nonneg p).
  pose proof (zlen_nonneg (encode_items items)).
  rewrite (proj2 (Z.ltb_lt _ _)) by (rewrite !zlen_app, zlen_encodeAttr; lia). cbn [negb]. simpl_bind.
  rewrite app_assoc. replace (zlen pre + align4 (4 + zlen p)) with (zlen (pre ++ encodeAttr t p))
    by (rewrite zlen_app, zlen_encodeAttr; lia).
  rewrite IH by (done || (cbn in Hfuel; lia)). by rewrite <-app_assoc.
Qed.

Lemma parseAttrList_encoded items : fits items -> parseAttrList (encode_items items) = Ok (map item_of items).
Proof.
  intros Hf. unfold parseAttrList. pose proof (encode_items_length items) as Hl. unfold zlen in Hl.
  apply (parse_list_encoded items [] _ []); [done|lia].
Qed.

(** ** Maps of attributes *)

Definition attrs_of (m : gmap Z bytes) (items : list attrItem) : gmap Z bytes :=
  fold_left (fun m item => <[typ item := payload item]> m) items m.

(** The map parser is the list parser read as a map. *)
Lemma parse_loops fuel data : forall i out m,
  parse_attrs_loop fuel data i (attrs_of m out) = (items ← parse_list_loop fuel data i out; Ok (attrs_of m items)).
Proof.
  induction fuel as [|fuel IH]; intros i out m; cbn [parse_attrs_loop parse_list_loop];
    (destruct (negb _); [done|]); [done|].
  destruct (attr_at data i) as [[l item]|e|]; [|done|done]. cbn. rewrite <-IH. f_equal.
  unfold attrs_of. by rewrite fold_left_app.
Qed.

Lemma parseAttrs_list data : parseAttrs data = (items ← parseAttrList data; Ok (attrs_of ∅ items)).
Proof. apply (parse_loops (length data) data 0 [] ∅). Qed.

(** The last item of a type wins. *)
Fixpoint find_attr (k : Z) (items : list (Z * bytes)) : option bytes :=
  match items with
  | [] => None
  | (t, p) :: items => match find_attr k items with
                       | Some q => Some q
                       | None => if attr_type t =? k then Some p else None
                       end
  end.

Lemma attrs_of_lookup items : forall m k,
  attrs_of m (map item_of items) !! k = match find_attr k items with Some p => Some p | None => m !! k end.
Proof.
  induction items as [|[t p] items IH]; intros m k; [done|]. cbn [map find_attr].
  change (attrs_of m (item_of (t, p) :: map item_of items)) with (attrs_of (<[attr_type t := p]> m) (map item_of items)).
  rewrite IH. destruct (find_attr k items); [done|].
  destruct (Z.eqb_spec (attr_type t) k) as [<-|Hne]; [apply lookup_insert_eq|by apply lookup_insert_ne].
Qed.

Lemma parseAttrs_encoded items : fits items -> exists m,
  parseAttrs (encode_items items) = Ok m /\ forall k, m !! k = find_attr k items.
Proof.
  intros Hf. rewrite parseAttrs_list, parseAttrList_encoded by done. eexists. split; [reflexivity|]. intros k.
  rewrite attrs_of_lookup. by destruct (find_attr k items).
Qed.

(** ** No input makes a decoder panic *)

Definition safe {E A} (r : result E A) : Prop := r <> Panic.

Lemma safe_bind {E A B} (m : result E A) (f : A -> result E B) : safe m -> (forall a, safe (f a)) -> safe (m ≫= f).
Proof. intros Hm Hf. destruct m as [a|e|]; [apply Hf|done|done]. Qed.

Lemma go_slice_ok {E A} i j (l : list A) : 0 <= i <= j -> j <= zlen l -> go_slice (E := E) i j l = Ok (slice i j l).
Proof. intros Hi Hj. unfold go_slice. by rewrite !(proj2 (Z.leb_le _ _)) by lia. Qed.

Lemma attr_at_safe data i : 0 <= i -> match attr_at data i with Ok (l, _) => 4 <= l | Err _ => True | Panic => False end.
Proof.
  intros Hi. unfold attr_at. destruct (Z.ltb_spec (zlen data - i) 4); [done|].
  rewrite !go_slice_ok by lia. simpl_bind. set (l := le_combine _). destruct (Z.ltb_spec l 4); [done|].
  cbn [orb]. destruct (Z.ltb_spec (zlen data) (i + l)); [done|]. rewrite go_slice_ok by lia. simpl_bind. lia.
Qed.

Lemma parse_list_loop_safe fuel data : forall i out, 0 <= i -> zlen data - i <= Z.of_nat fuel ->
  safe (parse_list_loop fuel data i out).
Proof.
  induction fuel as [|fuel IH]; intros i out Hi Hf; cbn [parse_list_loop];
    (destruct (Z.ltb_spec i (zlen data)); cbn [negb]; [|done]); [lia|].
  pose proof (attr_at_safe data i Hi) as Ha. destruct (attr_at data i) as [[l item]|e|]; [|done|done].
  simpl_bind. pose proof (align4_bounds l). apply IH; lia.
Qed.

Lemma parseAttrList_safe data : safe (parseAttrList data).
Proof. apply parse_list_loop_safe; unfold zlen; lia. Qed.

Lemma parseAttrs_safe data : safe (parseAttrs data).
Proof. rewrite parseAttrs_list. by apply safe_bind; [apply parseAttrList_safe|]. Qed.

Lemma required_safe attrs attr n : safe (required attrs attr n).
Proof. unfold required. repeat case_match; done. Qed.
Lemma parseCString_safe raw : safe (parseCString raw).
Proof. unfold parseCString. repeat case_match; done. Qed.
Lemma relabel_safe {A} attr (r : result tlv_error A) : safe r -> safe (relabel attr r).
Proof. by destruct r. Qed.
Lemma optional_uint_safe attrs attr n : safe (optional_uint attrs attr n).
Proof. unfold optional_uint. repeat case_match; done. Qed.
Lemma optional_flag_safe attrs attr : safe (optional_flag attrs attr).
Proof. unfold optional_flag. repeat case_match; done. Qed.
Lemma optional_cstring_safe attrs attr : safe (optional_cstring attrs attr).
Proof. unfold optional_cstring. case_match; [apply relabel_safe, parseCString_safe|done]. Qed.
Lemma decode_entries_safe {A} entry (decode : bytes -> result tlv_error A) items :
  (forall raw, safe (decode raw)) -> forall out, safe (decode_entries entry decode items out).
Proof.
  intros Hd. induction items as [|item items IH]; intros out; cbn [decode_entries]; [done|].
  case_match; [apply IH|]. apply safe_bind; [apply Hd|]. intros x. apply IH.
Qed.

Create HintDb tlv_safe.
#[local] Hint Resolve parseAttrList_safe parseAttrs_safe required_safe parseCString_safe relabel_safe optional_uint_safe
  optional_flag_safe optional_cstring_safe : tlv_safe.

(** Decoders are chains of safe steps. *)
Ltac safe_steps :=
  repeat match goal with
  | |- safe (_ ≫= _) => apply safe_bind; [unfold cstring_attr; eauto with tlv_safe|intros ?]
  | |- safe (Ok _) => done
  | |- safe (Err _) => done
  end.

Lemma decode_path_safe raw : safe (decode_path raw).
Proof. unfold decode_path. safe_steps. Qed.
Lemma decode_lane_safe raw : safe (decode_lane raw).
Proof. unfold decode_lane. safe_steps. Qed.
Lemma decodePathStatuses_safe raw : safe (decodePathStatuses raw).
Proof. unfold decodePathStatuses. case_match; [done|]. safe_steps. apply decode_entries_safe, decode_path_safe. Qed.
Lemma decodeLaneStatuses_safe raw : safe (decodeLaneStatuses raw).
Proof. unfold decodeLaneStatuses. case_match; [done|]. safe_steps. apply decode_entries_safe, decode_lane_safe. Qed.
#[local] Hint Resolve decodePathStatuses_safe decodeLaneStatuses_safe : tlv_safe.
Lemma decodeDeviceStatus_safe raw : safe (decodeDeviceStatus raw).
Proof. unfold decodeDeviceStatus. safe_steps. Qed.
Lemma decodeServerEntry_safe raw : safe (decodeServerEntry raw).
Proof. unfold decodeServerEntry. safe_steps. case_match; [apply parseCString_safe|done]. Qed.

(** Every message from the kernel is answered.  Whatever bytes arrive, each
    decoder of the control channel ends with a value or an error: none reads
    outside of its input, and the parsing loops always finish. *)
Theorem decoders_never_panic (payload : bytes) :
  safe (DecodeCreateDeviceResponse payload) /\ safe (DecodeConfigRESTRequest payload) /\
  safe (DecodeDeviceStatus payload) /\ safe (DecodeListDevices payload).
Proof.
  split_and!.
  - unfold DecodeCreateDeviceResponse. safe_steps.
  - unfold DecodeConfigRESTRequest. safe_steps. case_match; [|done]. safe_steps.
    apply decode_entries_safe, decodeServerEntry_safe.
  - unfold DecodeDeviceStatus. safe_steps. case_match; [apply decodeDeviceStatus_safe|done].
  - unfold DecodeListDevices. safe_steps. case_match; [|done]. safe_steps.
    apply decode_entries_safe, decodeDeviceStatus_safe.
Qed.

(** ** Values *)

Lemma parse_cstring s : parseCString (cstring s) = Ok s.
Proof.
  unfold parseCString, cstring. rewrite last_snoc. cbn [byte.unsigned]. rewrite removelast_last.
  by rewrite string_of_list_byte_of_string.
Qed.

Lemma le_value n v : 0 <= v < 2 ^ (8 * Z.of_nat n) -> le_combine (le_split n v) = v.
Proof. intros Hv. rewrite le_combine_split, Z.mul_comm. by apply Z.mod_small. Qed.

Lemma first_set_flag (b : bool) : first_set (le_split 1 (Z.b2z b)) = b.
Proof. by destruct b. Qed.

Section Found.
Context (m : gmap Z bytes) (attr : Z).

Lemma required_found z n v : m !! attr = Some (le_split n v) -> z = Z.of_nat n -> required m attr z = Ok (le_split n v).
Proof. intros H ->. unfold required. by rewrite H, zlen_le_split, Z.eqb_refl. Qed.
Lemma cstring_found s : m !! attr = Some (cstring s) -> cstring_attr m attr = Ok s.
Proof. intros H. unfold cstring_attr. rewrite H. apply parse_cstring. Qed.
Lemma get_found z n v : m !! attr = Some (le_split n v) -> z = Z.of_nat n -> 0 <= v < 2 ^ (8 * Z.of_nat n) ->
  get_or_zero m attr z = v.
Proof. intros H -> Hv. unfold get_or_zero. rewrite H, zlen_le_split, Z.eqb_refl. by apply le_value. Qed.
Lemma optional_uint_found z n v : m !! attr = Some (le_split n v) -> z = Z.of_nat n ->
  0 <= v < 2 ^ (8 * Z.of_nat n) -> optional_uint m attr z = Ok v.
Proof. intros H -> Hv. unfold optional_uint. rewrite H, zlen_le_split, Z.eqb_refl. by rewrite le_value. Qed.
Lemma optional_flag_found (b : bool) : m !! attr = Some (le_split 1 (Z.b2z b)) -> optional_flag m attr = Ok b.
Proof. intros H. unfold optional_flag. rewrite H. cbn. by rewrite first_set_flag. Qed.
Lemma optional_cstring_found s : m !! attr = Some (cstring s) -> optional_cstring m attr = Ok s.
Proof. intros H. unfold optional_cstring. by rewrite H, parse_cstring. Qed.
End Found.

(** ** Sizes *)

Lemma member_size items t p : (t, p) ∈ items -> 4 + zlen p <= zlen (encode_items items).
Proof.
  induction items as [|[t' p'] items IH]; intros Hin; [by apply not_elem_of_nil in Hin|].
  unfold encode_items in *. cbn [map concat]. rewrite zlen_app, zlen_encodeAttr.
  pose proof (align4_bounds (4 + zlen p')). pose proof (zlen_nonneg p').
  apply elem_of_cons in Hin as [[= -> ->]|Hin].
  - pose proof (zlen_nonneg (concat (map (fun '(t, p) => encodeAttr t p) items))). lia.
  - specialize (IH Hin). lia.
Qed.

Lemma fits_small items : zlen (encode_items items) < 2 ^ 16 -> Forall u16 (map fst items) -> fits items.
Proof.
  intros Hs Ht. apply Forall_forall. intros [t p] Hin. split.
  - rewrite Forall_forall in Ht. apply Ht, list_elem_of_fmap. by exists (t, p).
  - pose proof (member_size items t p Hin). lia.
Qed.

(** Entries of a nested list. *)
Definition nested_entries {A} (entry : Z) (items : A -> list (Z * bytes)) (xs : list A) : list (Z * bytes) :=
  map (fun x => (Z.lor entry nlaFNested, encode_items (items x))) xs.

Lemma decode_nested {A} entry (items : A -> list (Z * bytes)) decode xs :
  attr_type (Z.lor entry nlaFNested) = entry -> Forall (fun x => decode (encode_items (items x)) = Ok x) xs ->
  forall out, decode_entries entry decode (map item_of (nested_entries entry items xs)) out = Ok (out ++ xs)%list.
Proof.
  intros Ht Hf. induction Hf as [|x xs Hx Hf IH]; intros out; cbn; [by rewrite app_nil_r|].
  rewrite Ht, Z.eqb_refl. cbn [negb]. rewrite Hx. simpl_bind. rewrite IH. by rewrite <-app_assoc.
Qed.

Lemma nested_fits {A} entry (items : A -> list (Z * bytes)) xs : u16 (Z.lor entry nlaFNested) ->
  zlen (encode_items (nested_entries entry items xs)) < 2 ^ 16 -> fits (nested_entries entry items xs).
Proof.
  intros Ht Hs. apply fits_small; [done|]. unfold nested_entries. rewrite map_map. cbn.
  apply Forall_forall. intros t Hin. apply list_elem_of_fmap in Hin as (x & -> & _). exact Ht.
Qed.

Lemma nested_size {A} entry (items : A -> list (Z * bytes)) xs x : x ∈ xs ->
  zlen (encode_items (items x)) < zlen (encode_items (nested_entries entry items xs)).
Proof.
  intros Hx. pose proof (member_size (nested_entries entry items xs) (Z.lor entry nlaFNested) (encode_items (items x))).
  enough ((Z.lor entry nlaFNested, encode_items (items x)) ∈ nested_entries entry items xs) by (specialize (H H0); lia).
  unfold nested_entries. apply list_elem_of_fmap. by exists x.
Qed.

(** ** Configuration requests *)

Definition server_items (s : RESTServer) : list (Z * bytes) :=
  ([(ServerAttrID, le_split 4 (rsID s)); (ServerAttrAddress, cstring (rsAddress s));
    (ServerAttrPort, le_split 2 (rsPort s)); (ServerAttrUseTLS, le_split 1 (Z.b2z (rsUseTLS s)));
    (ServerAttrAPIPrefix, cstring (rsAPIPrefix s))]
   ++ if String.eqb (rsBearerToken s) "" then [] else [(ServerAttrBearerToken, cstring (rsBearerToken s))])%list.

Definition server_ok (s : RESTServer) : Prop := u32 (rsID s) /\ u16 (rsPort s).

Lemma server_types s : Forall u16 (map fst (server_items s)).
Proof. unfold server_items. destruct (String.eqb _ ""); cbn [app map fst]; repeat constructor; concrete_bounds. Qed.

Lemma server_entry s : rsAddress s <> "" ->
  encodeServerEntry s = Ok (encodeAttr (Z.lor AttrServerEntry nlaFNested) (encode_items (server_items s))).
Proof.
  intros Ha. unfold encodeServerEntry. rewrite (proj2 (String.eqb_neq _ _) Ha). unfold encodeNestedAttr. do 2 f_equal.
  unfold server_items, encode_items. destruct (rsUseTLS s), (String.eqb _ ""); cbn [negb app map concat];
    rewrite <-?app_assoc, ?app_nil_r; reflexivity.
Qed.

Ltac server_lookup H s := rewrite H; unfold server_items; destruct (String.eqb (rsBearerToken s) ""); reflexivity.

Lemma decode_server s : server_ok s -> zlen (encode_items (server_items s)) < 2 ^ 16 ->
  decodeServerEntry (encode_items (server_items s)) = Ok s.
Proof.
  intros [Hid Hport] Hs. destruct (parseAttrs_encoded (server_items s)) as (m & Hm & Hfind).
  { apply fits_small; [done|apply server_types]. }
  unfold decodeServerEntry. rewrite Hm. simpl_bind.
  assert (match m !! ServerAttrBearerToken with Some t => parseCString t | None => Ok "" end = Ok (rsBearerToken s)) as Htok.
  { rewrite Hfind. unfold server_items. destruct (String.eqb_spec (rsBearerToken s) "") as [->|]; [reflexivity|].
    apply parse_cstring. }
  erewrite (cstring_found m ServerAttrAddress) by server_lookup Hfind s. simpl_bind.
  erewrite (required_found m ServerAttrID 4); [|server_lookup Hfind s|reflexivity]. simpl_bind.
  erewrite (required_found m ServerAttrPort 2); [|server_lookup Hfind s|reflexivity]. simpl_bind.
  erewrite (required_found m ServerAttrUseTLS 1); [|server_lookup Hfind s|reflexivity]. simpl_bind.
  erewrite (cstring_found m ServerAttrAPIPrefix) by server_lookup Hfind s. simpl_bind.
  rewrite Htok. simpl_bind. rewrite first_set_flag, !le_value by assumption. by destruct s.
Qed.

Lemma encode_servers_ok servers : forall out b, encode_servers servers out = Ok b ->
  b = (out ++ encode_items (nested_entries AttrServerEntry server_items servers))%list.
Proof.
  induction servers as [|s servers IH]; intros out b H; cbn [encode_servers] in H.
  { injection H as <-. cbn. by rewrite app_nil_r. }
  destruct (decide (rsAddress s = "")) as [Ha|Ha]; [unfold encodeServerEntry in H; by rewrite Ha in H|].
  rewrite server_entry in H by done. cbn in H. apply IH in H as ->. rewrite <-app_assoc. reflexivity.
Qed.

(** The attributes of a configuration request. *)
Definition config_items (req : ConfigRESTRequest) : list (Z * bytes) :=
  [(AttrDeviceID, le_split 4 (crDeviceID req));
   (Z.lor AttrServers nlaFNested, encode_items (nested_entries AttrServerEntry server_items (crServers req)))].

Lemma encode_config req b : EncodeConfigREST req = Ok b -> b = encode_items (config_items req).
Proof.
  unfold EncodeConfigREST. destruct (encode_servers (crServers req) []) as [l|e|] eqn:He; [|done|done]. cbn.
  intros [= <-]. apply encode_servers_ok in He as ->. unfold encode_items, config_items. cbn [map concat].
  by rewrite app_nil_r.
Qed.

(** The configuration of a device survives the channel.  A request the encoder
    accepts and whose encoding is shorter than 64 KiB is decoded to itself, with
    every server in order and every string byte for byte. *)
Theorem config_rest_round_trip (req : ConfigRESTRequest) (b : bytes) :
  EncodeConfigREST req = Ok b -> zlen b < 2 ^ 16 -> u32 (crDeviceID req) -> Forall server_ok (crServers req) ->
  DecodeConfigRESTRequest b = Ok req.
Proof.
  intros He Hsize Hid Hok. apply encode_config in He as ->.
  assert (zlen (encode_items (nested_entries AttrServerEntry server_items (crServers req))) < 2 ^ 16) as Hlist.
  { pose proof (member_size (config_items req) (Z.lor AttrServers nlaFNested) _ ltac:(right; left; reflexivity)). lia. }
  destruct (parseAttrs_encoded (config_items req)) as (m & Hm & Hfind).
  { apply fits_small; [done|]. repeat constructor; concrete_bounds. }
  unfold DecodeConfigRESTRequest. rewrite Hm. simpl_bind.
  erewrite (required_found m AttrDeviceID 4); [|rewrite Hfind; reflexivity|reflexivity]. simpl_bind.
  rewrite Hfind. change (find_attr AttrServers (config_items req))
    with (Some (encode_items (nested_entries AttrServerEntry server_items (crServers req)))). cbn beta iota.
  rewrite parseAttrList_encoded by (apply nested_fits; [concrete_bounds|done]). simpl_bind.
  rewrite (decode_nested AttrServerEntry server_items decodeServerEntry) by
    (reflexivity || (apply Forall_forall; intros s Hs; rewrite Forall_forall in Hok; apply decode_server; [by apply Hok|];
       pose proof (nested_size AttrServerEntry server_items (crServers req) s Hs); lia)).
  simpl_bind. rewrite le_value by exact Hid. by destruct req.
Qed.

Definition sample_config : ConfigRESTRequest :=
  mkConfigRESTRequest 3 [mkRESTServer 1 "10.0.0.1" 8080 true "/v1" "token"; mkRESTServer 2 "gw" 80 false "" ""].

Lemma config_rest_round_trip_witness : exists b, EncodeConfigREST sample_config = Ok b /\ DecodeConfigRESTRequest b = Ok sample_config.
Proof.
  eexists. split; [vm_compute; reflexivity|].
  apply (config_rest_round_trip sample_config); [vm_compute; reflexivity| | |].
  - concrete_bounds.
  - concrete_bounds.
  - repeat constructor; concrete_bounds.
Defined.

(** ** Requests that do not fit *)

Lemma attr_at_payload data i l item : 0 <= i -> attr_at data i = Ok (l, item) -> zlen (payload item) < 2 ^ 16 - 4.
Proof.
  intros Hi. unfold attr_at. destruct (Z.ltb_spec (zlen data - i) 4); [done|]. rewrite !go_slice_ok by lia. simpl_bind.
  destruct (Z.ltb_spec (le_combine (slice i (i + 2) data)) 4); [done|]. cbn [orb].
  destruct (Z.ltb_spec (zlen data) (i + le_combine (slice i (i + 2) data))); [done|]. rewrite go_slice_ok by lia. simpl_bind.
  intros [= <- <-]. cbn [payload]. rewrite zlen_slice by lia.
  pose proof (le_combine_bound (slice i (i + 2) data)) as Hb.
  assert (Z.of_nat (length (slice i (i + 2) data)) = 2) as Hl by (change (zlen (slice i (i + 2) data) = 2); rewrite zlen_slice; lia).
  rewrite Hl in Hb. change (2 ^ (8 * 2)) with (2 ^ 16) in Hb. lia.
Qed.

Lemma parse_list_payloads fuel data : forall i out items, 0 <= i -> parse_list_loop fuel data i out = Ok items ->
  Forall (fun item => zlen (payload item) < 2 ^ 16 - 4) out ->
  Forall (fun item => zlen (payload item) < 2 ^ 16 - 4) items.
Proof.
  induction fuel as [|fuel IH]; intros i out items Hi H Hout; cbn [parse_list_loop] in H; (destruct (negb _); [by injection H as <-|]);
    [done|].
  pose proof (attr_at_safe data i Hi) as Hs. destruct (attr_at data i) as [[l item]|e|] eqn:Ha; [|done|done].
  pose proof (align4_bounds l). cbn in H. eapply IH; [|exact H|]; [lia|]. apply Forall_app. split; [done|].
  constructor; [by eapply attr_at_payload|constructor].
Qed.

(** What the attach request carries. *)
Definition manifest_payload (req : AttachManifestRequest) : bytes :=
  (host_request (amDeviceID req) (amHostID req) (amVolumeID req)
   ++ encodeAttr AttrManifestJSON (cstring (amManifestJSON req)))%list.

(** A manifest of 64 KiB or more is encoded without an error into a message in
    which no attribute carries the request: the length fields have 16 bits and wrap
    around. *)
Theorem oversized_manifest_lost (req : AttachManifestRequest) (b : bytes) (items : list attrItem) :
  amHostID req <> "" -> 2 ^ 16 - 4 <= Z.of_nat (String.length (amManifestJSON req)) ->
  EncodeAttachManifestRequest req = Ok (encodeNestedAttr AttrAttachReq (manifest_payload req)) /\
  (parseAttrList b = Ok items -> Forall (fun item => payload item <> manifest_payload req) items).
Proof.
  intros Hh Hm. split.
  - unfold EncodeAttachManifestRequest. rewrite (proj2 (String.eqb_neq _ _) Hh).
    destruct (String.eqb_spec (amManifestJSON req) "") as [He|]; [rewrite He in Hm; cbn in Hm; lia|done].
  - intros Hp. eapply Forall_impl; [eapply (parse_list_payloads _ b 0 []); [lia|exact Hp|constructor]|].
    cbv beta. intros item Hi Heq. rewrite Heq in Hi. unfold manifest_payload in Hi. rewrite zlen_app, zlen_encodeAttr in Hi.
    pose proof (align4_bounds (4 + zlen (cstring (amManifestJSON req)))).
    assert (zlen (cstring (amManifestJSON req)) = Z.of_nat (String.length (amManifestJSON req)) + 1) as Hz.
    { unfold cstring. rewrite zlen_app. f_equal. unfold zlen. f_equal.
      clear. induction (amManifestJSON req) as [|c s IH]; [done|]. cbn. f_equal. exact IH. }
    pose proof (zlen_nonneg (host_request (amDeviceID req) (amHostID req) (amVolumeID req))). lia.
Qed.

End NetlinkFacts.
