(* ===== verification/NetlinkStatusFacts.v ===== *)
(** * The status of a device

    Proofs about the status answers of [Netlink].  [status_items] lays out a status
    as the attributes the kernel sends; a status laid out this way is decoded
    field by field to itself. *)

From Stdlib Require Import ZArith Lia Ascii String.
From Stdlib Require Strings.Byte.
From stdpp Require Import base list list_numbers gmap strings.
From coqutil Require Import Byte Word.LittleEndianList.
From S2P Require Import Prelude Netlink NetlinkFacts.
Open Scope string_scope.
Open Scope Z_scope.

Module NetlinkStatusFacts.
Import Netlink NetlinkFacts.

Definition path_items (x : PathStatus) : list (Z * bytes) :=
  [(StatusPathAttrPathID, le_split 4 (psPathID x)); (StatusPathAttrState, le_split 4 (psState x));
   (StatusPathAttrConsecutiveErrors, le_split 4 (psConsecutiveErrors x));
   (StatusPathAttrLastErrno, le_split 4 (psLastErrno x));
   (StatusPathAttrLastWireStatus, le_split 4 (psLastWireStatus x));
   (StatusPathAttrGatewayID, cstring (psGatewayID x)); (StatusPathAttrAddress, cstring (psAddress x));
   (StatusPathAttrPort, le_split 2 (psPort x)); (StatusPathAttrUseTLS, le_split 1 (Z.b2z (psUseTLS x)));
   (StatusPathAttrServerName, cstring (psServerName x)); (StatusPathAttrPriority, le_split 4 (psPriority x));
   (StatusPathAttrConnected, le_split 1 (Z.b2z (psConnected x)));
   (StatusPathAttrInflight, le_split 4 (psInflight x)); (StatusPathAttrPending, le_split 4 (psPending x));
   (StatusPathAttrPendingHighWater, le_split 4 (psPendingHighWater x));
   (StatusPathAttrOutstandingLimit, le_split 4 (psOutstandingLimit x));
   (StatusPathAttrSubmitted, le_split 8 (psSubmitted x));
   (StatusPathAttrCompleted, le_split 8 (psCompleted x)); (StatusPathAttrRetries, le_split 8 (psRetries x));
   (StatusPathAttrConnOpens, le_split 8 (psConnOpens x));
   (StatusPathAttrConnResets, le_split 8 (psConnResets x))].

Definition path_ok (x : PathStatus) : Prop :=
  Forall u16
    [psPort x] /\
  Forall u32
    [psPathID x; psState x; psConsecutiveErrors x; psLastErrno x; psLastWireStatus x; psPriority x;
     psInflight x; psPending x; psPendingHighWater x; psOutstandingLimit x] /\
  Forall u64
    [psSubmitted x; psCompleted x; psRetries x; psConnOpens x; psConnResets x].

Definition lane_items (x : LaneStatus) : list (Z * bytes) :=
  [(StatusLaneAttrLaneID, le_split 4 (lsLaneID x));
   (StatusLaneAttrPreferredPathID, le_split 4 (lsPreferredPathID x));
   (StatusLaneAttrFallbackPathID, le_split 4 (lsFallbackPathID x));
   (StatusLaneAttrReadiness, le_split 4 (lsReadiness x));
   (StatusLaneAttrDispatchReqs, le_split 8 (lsDispatchReqs x))].

Definition lane_ok (x : LaneStatus) : Prop :=
  Forall u32
    [lsLaneID x; lsPreferredPathID x; lsFallbackPathID x; lsReadiness x] /\
  Forall u64
    [lsDispatchReqs x].

Definition status_items (x : DeviceStatus) : list (Z * bytes) :=
  [(StatusAttrDeviceID, le_split 4 (dsDeviceID x)); (StatusAttrDiskName, cstring (dsDiskName x));
   (StatusAttrAttached, le_split 1 (Z.b2z (dsAttached x))); (StatusAttrVolumeID, le_split 8 (dsVolumeID x));
   (StatusAttrGeneration, le_split 8 (dsGeneration x)); (StatusAttrPathCount, le_split 4 (dsPathCount x));
   (StatusAttrDownMask, le_split 8 (dsDownMask x)); (StatusAttrDegradedMask, le_split 8 (dsDegradedMask x));
   (StatusAttrDrainingMask, le_split 8 (dsDrainingMask x));
   (StatusAttrAppliedPathPlanRevision, le_split 8 (dsAppliedPathPlanRevision x));
   (StatusAttrActiveLaneCount, le_split 4 (dsActiveLaneCount x));
   (StatusAttrNrHwQueues, le_split 4 (dsNrHwQueues x));
   (StatusAttrTargetNrHwQueues, le_split 4 (dsTargetNrHwQueues x));
   (StatusAttrQueueTopologyGeneration, le_split 8 (dsQueueTopologyGeneration x));
   (StatusAttrQueueTopologyState, cstring (dsQueueTopologyState x));
   (StatusAttrLaneRemapCount, le_split 8 (dsLaneRemapCount x));
   (StatusAttrLastLaneRemappedLanes, le_split 4 (dsLastLaneRemappedLanes x));
   (StatusAttrLastLaneRemapJiffies, le_split 8 (dsLastLaneRemapJiffies x));
   (StatusAttrLastLaneRemapReason, cstring (dsLastLaneRemapReason x));
   (StatusAttrNoPathRetryMode, le_split 4 (dsNoPathRetryMode x));
   (StatusAttrNoPathRetrySeconds, le_split 4 (dsNoPathRetrySeconds x));
   (StatusAttrNoPathState, le_split 4 (dsNoPathState x));
   (StatusAttrNoPathSinceJiffies, le_split 8 (dsNoPathSinceJiffies x));
   (StatusAttrNoPathRetryDeadline, le_split 8 (dsNoPathRetryDeadline x));
   (StatusAttrLastNoPathWakeupJiffies, le_split 8 (dsLastNoPathWakeupJiffies x));
   (StatusAttrNoPathQueuedReqs, le_split 8 (dsNoPathQueuedReqs x));
   (StatusAttrNoPathRequeuedReqs, le_split 8 (dsNoPathRequeuedReqs x));
   (StatusAttrNoPathFailedReqs, le_split 8 (dsNoPathFailedReqs x));
   (StatusAttrNoPathRecoveredReqs, le_split 8 (dsNoPathRecoveredReqs x));
   (StatusAttrNoPathEnterCount, le_split 8 (dsNoPathEnterCount x));
   (StatusAttrLastNoPathReason, le_split 4 (dsLastNoPathReason x));
   (StatusAttrLastNoPathOp, le_split 4 (dsLastNoPathOp x));
   (StatusAttrLastNoPathEligiblePaths, le_split 4 (dsLastNoPathEligiblePaths x));
   (StatusAttrLastNoPathTriedMask, le_split 8 (dsLastNoPathTriedMask x));
   (StatusAttrLastNoPathJiffies, le_split 8 (dsLastNoPathJiffies x));
   (Z.lor StatusAttrPaths nlaFNested, encode_items (nested_entries StatusPathAttrEntry path_items (dsPaths x)));
   (Z.lor StatusAttrLanes nlaFNested, encode_items (nested_entries StatusLaneAttrEntry lane_items (dsLanes x)))].

Definition status_ok (x : DeviceStatus) : Prop :=
  Forall u32
    [dsDeviceID x; dsPathCount x; dsActiveLaneCount x; dsNrHwQueues x; dsTargetNrHwQueues x;
     dsLastLaneRemappedLanes x; dsNoPathRetryMode x; dsNoPathRetrySeconds x; dsNoPathState x;
     dsLastNoPathReason x; dsLastNoPathOp x; dsLastNoPathEligiblePaths x] /\
  Forall u64
    [dsVolumeID x; dsGeneration x; dsDownMask x; dsDegradedMask x; dsDrainingMask x;
     dsAppliedPathPlanRevision x; dsQueueTopologyGeneration x; dsLaneRemapCount x; dsLastLaneRemapJiffies x;
     dsNoPathSinceJiffies x; dsNoPathRetryDeadline x; dsLastNoPathWakeupJiffies x; dsNoPathQueuedReqs x;
     dsNoPathRequeuedReqs x; dsNoPathFailedReqs x; dsNoPathRecoveredReqs x; dsNoPathEnterCount x;
     dsLastNoPathTriedMask x; dsLastNoPathJiffies x] /\
  Forall path_ok (dsPaths x) /\ Forall lane_ok (dsLanes x).

(** ** Decoding a laid-out status *)

(** Read the next attribute from a map described by [H]. *)
Ltac look H := rewrite H; reflexivity.
Ltac in_width := first [assumption | unfold in_u in *; assumption].
Ltac read_attr H :=
  first
  [ erewrite required_found; [|look H|reflexivity]
  | erewrite cstring_found; [|look H]
  | erewrite optional_cstring_found; [|look H]
  | erewrite optional_flag_found; [|look H]
  | erewrite optional_uint_found; [|look H|reflexivity|in_width] ]; simpl_bind.

Lemma path_types x : Forall u16 (map fst (path_items x)).
Proof. repeat constructor; concrete_bounds. Qed.
Lemma lane_types x : Forall u16 (map fst (lane_items x)).
Proof. repeat constructor; concrete_bounds. Qed.
Lemma status_types x : Forall u16 (map fst (status_items x)).
Proof. repeat constructor; concrete_bounds. Qed.

(** The bounds of a record, one by one. *)
Ltac bounds H := repeat first [rewrite Forall_cons in H | rewrite Forall_nil in H]; destruct_and! H.

Lemma decode_lane_items x : lane_ok x -> zlen (encode_items (lane_items x)) < 2 ^ 16 ->
  decode_lane (encode_items (lane_items x)) = Ok x.
Proof.
  intros Hok Hs. unfold lane_ok in Hok. bounds Hok.
  destruct (parseAttrs_encoded (lane_items x)) as (m & Hm & Hf); [apply fits_small; [done|apply lane_types]|].
  unfold decode_lane. rewrite Hm. simpl_bind. do 5 read_attr Hf. rewrite !le_value by in_width. by destruct x.
Qed.

Lemma decode_path_items x : path_ok x -> zlen (encode_items (path_items x)) < 2 ^ 16 ->
  decode_path (encode_items (path_items x)) = Ok x.
Proof.
  intros Hok Hs. unfold path_ok in Hok. bounds Hok.
  destruct (parseAttrs_encoded (path_items x)) as (m & Hm & Hf); [apply fits_small; [done|apply path_types]|].
  unfold decode_path. rewrite Hm. simpl_bind. do 21 read_attr Hf. rewrite !le_value by in_width. by destruct x.
Qed.

(** A nested list of entries that each decode. *)
Lemma decode_list {A} entry (items : A -> list (Z * bytes)) decode (ok : A -> Prop) xs :
  attr_type (Z.lor entry nlaFNested) = entry -> u16 (Z.lor entry nlaFNested) ->
  (forall x, ok x -> zlen (encode_items (items x)) < 2 ^ 16 -> decode (encode_items (items x)) = Ok x) ->
  Forall ok xs -> zlen (encode_items (nested_entries entry items xs)) < 2 ^ 16 ->
  (l ← parseAttrList (encode_items (nested_entries entry items xs)); decode_entries entry decode l []) = Ok xs.
Proof.
  intros Ht Hu Hd Hok Hs. rewrite parseAttrList_encoded by (by apply nested_fits). simpl_bind.
  apply decode_nested; [done|]. apply Forall_forall. intros x Hx. rewrite Forall_forall in Hok. apply Hd; [by apply Hok|].
  pose proof (nested_size entry items xs x Hx). lia.
Qed.

Lemma zlen_encode_items_zero items : zlen (encode_items items) = 0 -> items = [].
Proof. intros H. pose proof (encode_items_length items). destruct items; [done|cbn in *; lia]. Qed.

Lemma nested_nil {A} entry (items : A -> list (Z * bytes)) xs :
  zlen (encode_items (nested_entries entry items xs)) = 0 -> xs = [].
Proof. intros H%zlen_encode_items_zero. by destruct xs. Qed.

Lemma decode_paths xs : Forall path_ok xs ->
  zlen (encode_items (nested_entries StatusPathAttrEntry path_items xs)) < 2 ^ 16 ->
  decodePathStatuses (encode_items (nested_entries StatusPathAttrEntry path_items xs)) = Ok xs.
Proof.
  intros Hok Hs. unfold decodePathStatuses. case_match eqn:Hz; [by apply Z.eqb_eq, nested_nil in Hz as ->|].
  apply (decode_list _ _ _ path_ok); [reflexivity|concrete_bounds|apply decode_path_items|done|done].
Qed.

Lemma decode_lanes xs : Forall lane_ok xs ->
  zlen (encode_items (nested_entries StatusLaneAttrEntry lane_items xs)) < 2 ^ 16 ->
  decodeLaneStatuses (encode_items (nested_entries StatusLaneAttrEntry lane_items xs)) = Ok xs.
Proof.
  intros Hok Hs. unfold decodeLaneStatuses. case_match eqn:Hz; [by apply Z.eqb_eq, nested_nil in Hz as ->|].
  apply (decode_list _ _ _ lane_ok); [reflexivity|concrete_bounds|apply decode_lane_items|done|done].
Qed.

Lemma decode_status_items x : status_ok x -> zlen (encode_items (status_items x)) < 2 ^ 16 ->
  decodeDeviceStatus (encode_items (status_items x)) = Ok x.
Proof.
  intros (H32 & H64 & Hp & Hl) Hs. bounds H32. bounds H64.
  assert (zlen (encode_items (nested_entries StatusPathAttrEntry path_items (dsPaths x))) < 2 ^ 16) as Hps.
  { enough (4 + zlen (encode_items (nested_entries StatusPathAttrEntry path_items (dsPaths x))) <= zlen (encode_items (status_items x)))
      by lia. apply (member_size _ (Z.lor StatusAttrPaths nlaFNested)). do 35 right. left. }
  assert (zlen (encode_items (nested_entries StatusLaneAttrEntry lane_items (dsLanes x))) < 2 ^ 16) as Hls.
  { enough (4 + zlen (encode_items (nested_entries StatusLaneAttrEntry lane_items (dsLanes x))) <= zlen (encode_items (status_items x)))
      by lia. apply (member_size _ (Z.lor StatusAttrLanes nlaFNested)). do 36 right. left. }
  destruct (parseAttrs_encoded (status_items x)) as (m & Hm & Hf); [apply fits_small; [done|apply status_types]|].
  unfold decodeDeviceStatus. rewrite Hm. simpl_bind. repeat read_attr Hf.
  cbn [relabel map_err]. simpl_bind.
  rewrite !Hf. change (find_attr StatusAttrPaths (status_items x))
    with (Some (encode_items (nested_entries StatusPathAttrEntry path_items (dsPaths x)))).
  change (find_attr StatusAttrLanes (status_items x))
    with (Some (encode_items (nested_entries StatusLaneAttrEntry lane_items (dsLanes x)))).
  cbn [default id]. rewrite decode_paths, decode_lanes by done. simpl_bind.
  repeat (erewrite get_found; [|look Hf|reflexivity|in_width]).
  rewrite first_set_flag, !le_value by in_width. by destruct x.
Qed.

(** The answer to a list request. *)
Definition list_items (devices : list DeviceStatus) : list (Z * bytes) :=
  [(Z.lor AttrDeviceList nlaFNested, encode_items (nested_entries AttrDeviceStatus status_items devices))].

(** C20: the status of every device arrives field by field.  A list of device
    statuses laid out as attributes, paths and lanes nested, within 64 KiB, is
    decoded to exactly that list: each of the fields is read from its own
    attribute. *)
Theorem device_list_round_trip (devices : list DeviceStatus) :
  Forall status_ok devices -> zlen (encode_items (list_items devices)) < 2 ^ 16 ->
  DecodeListDevices (encode_items (list_items devices)) = Ok (mkListDevicesResponse devices).
Proof.
  intros Hok Hs. destruct (parseAttrs_encoded (list_items devices)) as (m & Hm & Hf).
  { apply fits_small; [done|]. repeat constructor; concrete_bounds. }
  assert (4 + zlen (encode_items (nested_entries AttrDeviceStatus status_items devices)) <= zlen (encode_items (list_items devices)))
    by (apply (member_size _ (Z.lor AttrDeviceList nlaFNested)); left).
  unfold DecodeListDevices. rewrite Hm. simpl_bind. rewrite Hf. change (find_attr AttrDeviceList (list_items devices))
    with (Some (encode_items (nested_entries AttrDeviceStatus status_items devices))). cbn beta iota.
  pose proof (decode_list AttrDeviceStatus status_items decodeDeviceStatus status_ok devices) as Hd.
  rewrite parseAttrList_encoded in Hd |- * by (apply nested_fits; [concrete_bounds|lia]). revert Hd. simpl_bind. intros ->.
  - reflexivity.
  - reflexivity.
  - concrete_bounds.
  - apply decode_status_items.
  - done.
  - lia.
Qed.

(** ** A device with one path and one lane *)

Definition sample_path : PathStatus :=
  mkPathStatus 1 2 3 4 5 "gw-a" "10.0.0.1" 9000 true "gw" 7 true 8 9 10 11 12 13 14 15 16.
Definition sample_lane : LaneStatus := mkLaneStatus 1 2 3 4 5.
Definition sample_status : DeviceStatus :=
  mkDeviceStatus 1 "namrbd0" true 2 3 4 5 6 7 8 9 10 11 12 "stable" 13 14 15 "reason" 16 17 18 19 20 21 22 23 24 25 26
    27 28 29 30 31 [sample_path] [sample_lane].

Ltac all_concrete := repeat (apply Forall_cons_2; [split; [lia|reflexivity]|]); apply Forall_nil_2.

Lemma sample_path_ok : path_ok sample_path.
Proof. split_and!; unfold sample_path; cbn; all_concrete. Qed.

Lemma sample_lane_ok : lane_ok sample_lane.
Proof. split; unfold sample_lane; cbn; all_concrete. Qed.

Lemma sample_status_ok : status_ok sample_status.
Proof.
  unfold status_ok. split; [unfold sample_status; cbn; all_concrete|]. split; [unfold sample_status; cbn; all_concrete|].
  split; (apply Forall_cons_2; [|apply Forall_nil_2]); [apply sample_path_ok|apply sample_lane_ok].
Qed.

Lemma device_list_round_trip_witness :
  DecodeListDevices (encode_items (list_items [sample_status; sample_status]))
  = Ok (mkListDevicesResponse [sample_status; sample_status]).
Proof.
  apply (device_list_round_trip [sample_status; sample_status]).
  - apply Forall_cons_2; [|apply Forall_cons_2; [|apply Forall_nil_2]]; apply sample_status_ok.
  - vm_compute. reflexivity.
Defined.

End NetlinkStatusFacts.
