(* ===== verification/LocalStore.v ===== *)
(** * The object store of a data node

    Models src/sbs/local/store.go (routing of object keys to shards, reading,
    writing, listing and purging objects, compression policies), the community
    edition of src/sbs/cluster/payload/compress, and the choice of a store for a
    new chunk in src/sbs/local/store_planner.go.

    Pebble is a parameter: the record [Pebble] of its operations on a world [W],
    a database named by a string.  A key that is absent reads as [None].  The
    policies of several key prefixes may share one runtime, so the runtimes live in
    a table and the prefixes refer to them.  Suffixes of chunk keys are taken byte
    by byte (the code reads runes, which are the bytes of ASCII text). *)

From Stdlib Require Import ZArith Lia Ascii String.
From Stdlib Require Strings.Byte.
From stdpp Require Import base list gmap strings.
From coqutil Require Import Byte Word.LittleEndianList.
From S2P Require Import Prelude GoStrings VolumeId GatewayTypes ObjectStore Sha256.
Open Scope string_scope.
Open Scope Z_scope.

Module Compress.

Definition HeaderMagic : Z := 0x4e414d52434d5002.
Definition LegacyHeaderMagic : Z := 0x4e43.
Definition HeaderSize : Z := 32.
Definition LegacyHeaderSize : Z := 16.

Definition Codec : Type := Z.
Definition CodecNone : Codec := 0.
Definition CodecLZ4 : Codec := 1.
Definition CodecZSTD : Codec := 2.
Definition Valid (c : Codec) : bool := c =? CodecNone.

Inductive compress_error := ErrEnterpriseOnly | ErrChecksumMismatch.

Record ChunkHeader := mkChunkHeader {
  chMagic : Z; chCodec : Codec; chFlags : Z; chUncompressedLen : Z; chCompressedLen : Z; chChecksumCRC32C : Z;
  chHeaderCRC32C : Z }.

(** [binary.BigEndian] of the first [n] bytes. *)
Definition be_prefix (n : nat) (data : bytes) : Z := le_combine (reverse (take n data)).

Definition IsEnvelope (data : bytes) : bool := (HeaderSize <=? zlen data) && (be_prefix 8 data =? HeaderMagic).

Definition IsLegacyEnvelope (data : bytes) : bool :=
  (LegacyHeaderSize <=? zlen data) && (be_prefix 2 data =? LegacyHeaderMagic).

Definition CompressPayload (raw : bytes) (codec : Codec) : result compress_error (bytes * ChunkHeader) :=
  if negb (codec =? CodecNone) then Err ErrEnterpriseOnly else
  Ok (raw, mkChunkHeader 0 CodecNone 0 (wrap32 (zlen raw)) (wrap32 (zlen raw)) 0 0).

Definition DecompressPayload (_ : bytes) : result compress_error (bytes * ChunkHeader) := Err ErrEnterpriseOnly.

End Compress.

Module LocalStore.
Import Compress.
Open Scope act_scope.

Definition DefaultStoreID : string := "default".
Definition StoreStateReadOnly : string := "read_only".
Definition StoreStateFailed : string := "failed".
Definition StoreStateDraining : string := "draining".

Record StoreSpec := mkStoreSpec { stID : string; stPath : string; stShards : Z; stWeight : Z }.

Record CompressionPolicy := mkCompressionPolicy {
  cpVolumeID : string; cpPolicyID : string; cpPolicyRevision : Z; cpCodec : string; cpLevel : Z;
  cpMinimumInputBytes : Z; cpChecksumEnabled : bool; cpEnabled : bool }.

#[export] Instance CompressionPolicy_eq_dec : EqDecision CompressionPolicy.
Proof. solve_decision. Defined.

Record CompressionRuntimeStatus := mkCompressionRuntimeStatus {
  csVolumeID : string; csPolicyID : string; csPolicyRevision : Z; csApplied : bool; csCompressedBytes : Z;
  csUncompressedBytes : Z; csLegacyDecodeCount : Z; csChecksumFailureCount : Z }.

Record compressionRuntime := mkCompressionRuntime {
  crPolicy : CompressionPolicy; crCompressedBytes : Z; crUncompressedBytes : Z; crLegacyDecodeCount : Z;
  crChecksumFailureCount : Z }.

#[export] Instance compressionRuntime_settable : Settable compressionRuntime := fun x =>
  mkCompressionRuntime (crPolicy x) (crCompressedBytes x) (crUncompressedBytes x) (crLegacyDecodeCount x)
    (crChecksumFailureCount x).

(** [osCompression] maps a key prefix to its runtime in [osRuntimes]. *)
Record objectStore := mkObjectStore {
  osMetadataPath : string; osLegacyDB : string; osShards : gmap string string; osShardPaths : gmap string string;
  osClosers : list string; osCompression : gmap string Z; osRuntimes : gmap Z compressionRuntime; osNextRuntime : Z }.

#[export] Instance objectStore_settable : Settable objectStore := fun x =>
  mkObjectStore (osMetadataPath x) (osLegacyDB x) (osShards x) (osShardPaths x) (osClosers x) (osCompression x) (osRuntimes x) (osNextRuntime x).

Record volumePurgeResult := mkVolumePurgeResult { vpKeyCount : Z; vpBytes : Z }.

Inductive local_error :=
| InvalidKey (key : string) | InvalidShard (key : string) | UnknownRoute (key : string) | PebbleError (e : string)
| DecodeFailed (key : string) (e : compress_error) | CompressFailed (key : string) (e : compress_error)
| CodecUnavailable (codec : string) | UnsupportedCodec (codec : string)
| PolicyVolumeID | PolicyIDRequired | PolicyRevisionRequired | PolicyCodec | PolicyChecksum | PolicyLevel (level : Z)
| PolicyStale (status : CompressionRuntimeStatus) | PolicyConflict (status : CompressionRuntimeStatus)
| NoWritableStore.

(** ** Object keys *)

(** [strings.Cut]. *)
Definition cut (sep s : string) : option (string * string) :=
  match String.index 0 sep s with
  | Some n => Some (String.substring 0 n s, String.substring (n + String.length sep) (String.length s) s)
  | None => None
  end.

Record parsedObjectKey := mkParsedObjectKey {
  pkPrefix : string; pkStoreID : string; pkShardID : Z; pkSuffix : string; pkIsChunk : bool; pkIsObject : bool }.

(** [strconv.ParseUint(strings.TrimSpace(s), 10, 32)]. *)
Definition parse_shard (s : string) : option Z :=
  match ParseUint10 (list_ascii_of_string (TrimSpace s)) with
  | Some v => if v <? 2 ^ 32 then Some v else None
  | None => None
  end.

(** The chunk suffix and the object suffix of the code are one field here: a key
    has at most one of them. *)
Definition parseObjectKey (key : string) : result local_error parsedObjectKey :=
  match cut ":store:" key with
  | Some (prefix, rest) =>
      match cut ":shard:" rest with
      | None => Err (InvalidKey key)
      | Some (storeID, rest) =>
          match cut ":obj:" rest with
          | Some (shardRaw, objectRaw) =>
              match parse_shard shardRaw with
              | None => Err (InvalidShard key)
              | Some shardID => Ok (mkParsedObjectKey prefix (TrimSpace storeID) shardID objectRaw false true)
              end
          | None =>
              match cut ":chk:" rest with
              | None => Err (InvalidKey key)
              | Some (shardRaw, chunkRaw) =>
                  match parse_shard shardRaw with
                  | None => Err (InvalidShard key)
                  | Some shardID => Ok (mkParsedObjectKey prefix (TrimSpace storeID) shardID chunkRaw true false)
                  end
              end
          end
      end
  | None =>
      match cut ":obj:" key with
      | Some (prefix, suffix) => Ok (mkParsedObjectKey prefix "" 0 suffix false true)
      | None =>
          match cut ":chk:" key with
          | Some (prefix, suffix) => Ok (mkParsedObjectKey prefix "" 0 suffix true false)
          | None => Ok (mkParsedObjectKey "" "" 0 "" false false)
          end
      end
  end.

Definition remapChunkKey (prefix chunkSuffix : string) : string := "volumes/" ++ prefix ++ "/chunks/" ++ chunkSuffix.
Definition remapObjectKey (prefix objectSuffix : string) : string := "volumes/" ++ prefix ++ "/objects/" ++ objectSuffix.

(** Digits are added up with 64-bit wrap-around, whatever the characters are. *)
Definition mustParseUint (v : string) : Z :=
  fold_left (fun out ch => add64 (mul64 out 10) (sub64 (code ch) 48)) (list_ascii_of_string v) 0.

Definition shardKey (storeID : string) (shardID : Z) : string := storeID ++ "/" ++ FormatUint shardID.

(** The part of an internal key behind the marker. *)
Definition internal_suffix (marker internalKey : string) : option string :=
  if String.prefix "volumes/" internalKey
  then match cut marker (String.substring 8 (String.length internalKey) internalKey) with
       | Some (_, suffix) => Some suffix
       | None => None
       end
  else None.

Definition restoreChunkKey (prefix storeID : string) (shardID : Z) (internalKey : string) : string :=
  match internal_suffix "/chunks/" internalKey with
  | Some suffix =>
      if String.eqb storeID "" then Store.BuildChunkKey prefix (mustParseUint suffix)
      else prefix ++ ":store:" ++ storeID ++ ":shard:" ++ FormatUint shardID ++ ":chk:" ++ suffix
  | None => internalKey
  end.

Definition restoreObjectKey (prefix storeID : string) (shardID : Z) (internalKey : string) : string :=
  match internal_suffix "/objects/" internalKey with
  | Some suffix =>
      if String.eqb storeID "" then prefix ++ ":obj:" ++ suffix
      else prefix ++ ":store:" ++ storeID ++ ":shard:" ++ FormatUint shardID ++ ":obj:" ++ suffix
  | None => internalKey
  end.

(** ** Routing *)

Definition dbForRoute (s : objectStore) (route : parsedObjectKey) : result local_error string :=
  if String.eqb (pkStoreID route) "" then Ok (osLegacyDB s) else
  let key := shardKey (pkStoreID route) (pkShardID route) in
  match osShards s !! key with
  | Some db => Ok db
  | None =>
      if String.eqb (pkStoreID route) DefaultStoreID && (pkShardID route =? 0)
      then match map_to_list (osShards s) with
           | [(_, sole)] => Ok sole
           | _ => Err (UnknownRoute key)
           end
      else Err (UnknownRoute key)
  end.

Definition routeKey (s : objectStore) (key : string) : result local_error (string * string) :=
  route ← parseObjectKey key;
  if negb (pkIsChunk route) && negb (pkIsObject route) then Ok (osLegacyDB s, key) else
  db ← dbForRoute s route;
  if pkIsObject route then Ok (db, remapObjectKey (pkPrefix route) (pkSuffix route))
  else Ok (db, remapChunkKey (pkPrefix route) (pkSuffix route)).

(** The database, the internal prefix and cursor, and how internal keys are
    shown. *)
Definition routePrefix (s : objectStore) (prefix cursor : string)
  : result local_error (string * string * string * (string -> string)) :=
  route ← parseObjectKey prefix;
  if negb (pkIsChunk route) && negb (pkIsObject route) then Ok (osLegacyDB s, prefix, cursor, fun key => key) else
  db ← dbForRoute s route;
  let remap := if pkIsObject route then remapObjectKey else remapChunkKey in
  let restore := if pkIsObject route then restoreObjectKey else restoreChunkKey in
  internalCursor ← (if String.eqb cursor "" then Ok "" else
                    cursorRoute ← parseObjectKey cursor;
                    (* a cursor of the other kind has an empty suffix of this kind *)
                    Ok (remap (pkPrefix cursorRoute)
                          (if Bool.eqb (pkIsObject cursorRoute) (pkIsObject route)
                              && Bool.eqb (pkIsChunk cursorRoute) (pkIsChunk route)
                           then pkSuffix cursorRoute else "")));
  Ok (db, remap (pkPrefix route) (pkSuffix route), internalCursor,
      restore (pkPrefix route) (pkStoreID route) (pkShardID route)).

(** ** Pebble *)

(** [pbIter] is an iterator over [\[lower, upper)] from [First] to the end. *)
Record Pebble (W : Type) := mkPebble {
  pbGet : string -> string -> act W string (option bytes);
  pbSet : string -> string -> bytes -> act W string unit;
  pbDelete : string -> string -> act W string unit;
  pbIter : string -> string -> string -> act W string (list (string * bytes));
  pbDeleteRange : string -> string -> string -> act W string unit;
  pbCompact : string -> string -> string -> act W string unit }.
Arguments pbGet {W} _.
Arguments pbSet {W} _.
Arguments pbDelete {W} _.
Arguments pbIter {W} _.
Arguments pbDeleteRange {W} _.
Arguments pbCompact {W} _.

(** ** Compression policies *)

(** [strings.ToUpper] of ASCII text. *)
Definition to_upper (c : ascii) : ascii := if (97 <=? code c) && (code c <=? 122) then chr (code c - 32) else c.
Definition ToUpper (s : string) : string := string_of_list_ascii (map to_upper (list_ascii_of_string s)).

Definition compressionCodec (raw : string) : result local_error Codec :=
  let name := ToUpper (TrimSpace raw) in
  if String.eqb name "NONE" then Ok CodecNone else
  if String.eqb name "LZ4" then (if negb (Valid CodecLZ4) then Err (CodecUnavailable "LZ4") else Ok CodecLZ4) else
  if String.eqb name "ZSTD" then (if negb (Valid CodecZSTD) then Err (CodecUnavailable "ZSTD") else Ok CodecZSTD) else
  Err (UnsupportedCodec raw).

Definition compressionPrefix (volumeID : string) : string := "sbs-" ++ volumeID.

Definition validateSBSVolumeID (volumeID : string) : bool :=
  negb (String.eqb volumeID "") && match VolumeId.ParseLowercase volumeID with Ok _ => true | _ => false end.

Definition Validate (p : CompressionPolicy) : result local_error unit :=
  if negb (validateSBSVolumeID (cpVolumeID p)) then Err PolicyVolumeID else
  if String.eqb (cpPolicyID p) "" then Err PolicyIDRequired else
  if cpPolicyRevision p =? 0 then Err PolicyRevisionRequired else
  if negb (String.eqb (cpCodec p) "NONE" || String.eqb (cpCodec p) "LZ4" || String.eqb (cpCodec p) "ZSTD")
  then Err PolicyCodec else
  if cpEnabled p && negb (cpChecksumEnabled p) then Err PolicyChecksum else Ok tt.

(** [s.compression\[prefix\]] *)
Definition runtime_of (s : objectStore) (prefix : string) : option (Z * compressionRuntime) :=
  id ← osCompression s !! prefix; r ← osRuntimes s !! id; Some (id, r).

Definition compressionStatus (runtime : option compressionRuntime) : CompressionRuntimeStatus :=
  match runtime with
  | None => mkCompressionRuntimeStatus "" "" 0 false 0 0 0 0
  | Some r => mkCompressionRuntimeStatus (cpVolumeID (crPolicy r)) (cpPolicyID (crPolicy r))
                (cpPolicyRevision (crPolicy r)) true (crCompressedBytes r) (crUncompressedBytes r)
                (crLegacyDecodeCount r) (crChecksumFailureCount r)
  end.

Definition compressionStatusForVolume (s : objectStore) (volumeID : string) : CompressionRuntimeStatus :=
  match runtime_of s (compressionPrefix volumeID) with
  | None => mkCompressionRuntimeStatus volumeID "" 0 false 0 0 0 0
  | Some (_, r) => compressionStatus (Some r)
  end.

(** The runtime of the first alias that has one. *)
Fixpoint alias_runtime (s : objectStore) (aliases : list string) : option (Z * compressionRuntime) :=
  match aliases with
  | [] => None
  | alias :: aliases => match runtime_of s (TrimSpace alias) with
                        | Some r => Some r
                        | None => alias_runtime s aliases
                        end
  end.

(** The prefixes a policy is installed under. *)
Definition install (s : objectStore) (policy : CompressionPolicy) (aliases : list string) : objectStore :=
  let id := osNextRuntime s in
  let m := <["ec-" ++ cpVolumeID policy := id]> (<[compressionPrefix (cpVolumeID policy) := id]> (osCompression s)) in
  let m := fold_left (fun m alias => let alias := TrimSpace alias in
                        if String.eqb alias "" then m else <[alias := id]> m) aliases m in
  s <| osCompression := m |> <| osRuntimes := <[id := mkCompressionRuntime policy 0 0 0 0]> (osRuntimes s) |>
    <| osNextRuntime := id + 1 |>.

Definition applyCompressionPolicy (policy : CompressionPolicy) (aliases : list string) (s : objectStore)
  : objectStore * result local_error (bool * CompressionRuntimeStatus) :=
  match Validate policy with
  | Err e => (s, Err e)
  | Panic => (s, Panic)
  | Ok _ =>
      if negb (cpLevel policy =? 0) then (s, Err (PolicyLevel (cpLevel policy))) else
      match compressionCodec (cpCodec policy) with
      | Err e => (s, Err e)
      | Panic => (s, Panic)
      | Ok _ =>
          let current := match runtime_of s (compressionPrefix (cpVolumeID policy)) with
                         | Some r => Some r
                         | None => alias_runtime s aliases
                         end in
          let fresh := (install s policy aliases,
                        Ok (true, compressionStatus (Some (mkCompressionRuntime policy 0 0 0 0)))) in
          match current with
          | None => fresh
          | Some (_, r) =>
              if cpPolicyRevision policy <? cpPolicyRevision (crPolicy r)
              then (s, Err (PolicyStale (compressionStatus (Some r)))) else
              if cpPolicyRevision (crPolicy r) =? cpPolicyRevision policy
              then (if bool_decide (crPolicy r = policy) then (s, Ok (false, compressionStatus (Some r)))
                    else (s, Err (PolicyConflict (compressionStatus (Some r)))))
              else fresh
          end
      end
  end.

Definition removeCompressionPolicy (volumeID : string) (aliases : list string) (s : objectStore) : objectStore :=
  s <| osCompression := fold_left (fun m alias => delete (TrimSpace alias) m) aliases
         (delete ("ec-" ++ volumeID) (delete (compressionPrefix volumeID) (osCompression s))) |>.

(** Add to a counter of a runtime. *)
Definition count_runtime (id : Z) (f : compressionRuntime -> compressionRuntime) (s : objectStore) : objectStore :=
  s <| osRuntimes := alter f id (osRuntimes s) |>.

(** ** Objects *)

Section Objects.
Context {W : Type} (pebble : Pebble W).

(** The store and the databases behind it. *)
Record node := mkNode { ndStore : objectStore; ndWorld : W }.

Definition nact := act node local_error.

Definition in_pebble {A} (m : act W string A) : nact A := fun n =>
  let '(w, r) := m (ndWorld n) in (mkNode (ndStore n) w, map_err PebbleError r).

Definition on_store (f : objectStore -> objectStore) : nact unit := fun n =>
  (mkNode (f (ndStore n)) (ndWorld n), Ok tt).

Definition ask {A} (f : objectStore -> result local_error A) : nact A := fun n => (n, f (ndStore n)).

Definition Get (key : string) : nact (option bytes) :=
  route <-- lift_act (parseObjectKey key);
  target <-- ask (fun s => routeKey s key);
  raw <-- in_pebble (pbGet pebble target.1 target.2);
  match raw with
  | None => ret_act None
  | Some value =>
      if negb (pkIsChunk route) && negb (pkIsObject route) then ret_act (Some value) else
      if negb (IsEnvelope value) && negb (IsLegacyEnvelope value) then ret_act (Some value) else
      runtime <-- ask (fun s => Ok (runtime_of s (pkPrefix route)));
      match DecompressPayload value with
      | Ok (decoded, _) =>
          match runtime with
          | Some (id, _) => if IsLegacyEnvelope value
                            then on_store (count_runtime id (fun r => r <| crLegacyDecodeCount := add64 (crLegacyDecodeCount r) 1 |>))
                            else ret_act tt
          | None => ret_act tt
          end;;
          ret_act (Some decoded)
      | Err e =>
          match runtime, e with
          | Some (id, _), ErrChecksumMismatch =>
              on_store (count_runtime id (fun r => r <| crChecksumFailureCount := add64 (crChecksumFailureCount r) 1 |>))
          | _, _ => ret_act tt
          end;;
          fail_act (DecodeFailed key e)
      | Panic => lift_act Panic
      end
  end.

(** What [Put] stores for a chunk or an object of a prefix with a runtime. *)
Definition encode_value (key : string) (value : bytes) (id : Z) (r : compressionRuntime) : nact bytes :=
  let policy := crPolicy r in
  if cpEnabled policy && (cpMinimumInputBytes policy <=? zlen value) && negb (String.eqb (cpCodec policy) "NONE")
  then
    codec <-- lift_act (compressionCodec (cpCodec policy));
    match CompressPayload value codec with
    | Err e => fail_act (CompressFailed key e)
    | Panic => lift_act Panic
    | Ok (encoded, header) =>
        on_store (count_runtime id (fun r =>
          if chCodec header =? CodecNone then r <| crUncompressedBytes := add64 (crUncompressedBytes r) (zlen value) |>
          else r <| crCompressedBytes := add64 (crCompressedBytes r) (zlen encoded) |>));;
        ret_act encoded
    end
  else
    on_store (count_runtime id (fun r => r <| crUncompressedBytes := add64 (crUncompressedBytes r) (zlen value) |>));;
    ret_act value.

Definition Put (key : string) (value : bytes) : nact unit :=
  route <-- lift_act (parseObjectKey key);
  target <-- ask (fun s => routeKey s key);
  stored <-- (if pkIsChunk route || pkIsObject route then
                runtime <-- ask (fun s => Ok (runtime_of s (pkPrefix route)));
                match runtime with
                | Some (id, r) => encode_value key value id r
                | None => ret_act value
                end
              else ret_act value);
  in_pebble (pbSet pebble target.1 target.2 stored).

Definition Delete (key : string) : nact unit :=
  target <-- ask (fun s => routeKey s key);
  in_pebble (pbDelete pebble target.1 target.2).

(** The byte 0xff that ends a range. *)
Definition range_end : string := String (chr 255) "".

(** Each database once. *)
Fixpoint purge_dbs (dbs : list string) (lower upper : string) (seen : gset string) (result : volumePurgeResult)
  : nact volumePurgeResult :=
  match dbs with
  | [] => ret_act result
  | db :: dbs =>
      if bool_decide (db ∈ seen) then purge_dbs dbs lower upper seen result else
      items <-- in_pebble (pbIter pebble db lower upper);
      let result := fold_left (fun r kv => mkVolumePurgeResult (add64 (vpKeyCount r) 1)
                                 (add64 (vpBytes r) (zlen (snd kv)))) items result in
      in_pebble (pbDeleteRange pebble db lower upper);;
      in_pebble (pbCompact pebble db lower upper);;
      purge_dbs dbs lower upper ({[db]} ∪ seen) result
  end.

(** [order] is the iteration order of the map of shards. *)
Definition PurgeVolume (order : list string -> list string) (prefix : string) : nact volumePurgeResult :=
  let lower := "volumes/" ++ prefix ++ "/" in
  let upper := "volumes/" ++ prefix ++ "/" ++ range_end in
  dbs <-- ask (fun s => Ok (osLegacyDB s :: order (map snd (map_to_list (osShards s)))));
  purge_dbs dbs lower upper ∅ (mkVolumePurgeResult 0 0).

(** One pass over the keys: those up to the cursor are skipped. *)
Fixpoint list_loop (keys : list string) (internalCursor : string) (restore : string -> string) (limit : Z)
    (started : bool) (out : list string) : list string * string :=
  match keys with
  | [] => (out, "")
  | key :: keys =>
      if negb started && String.leb key internalCursor
      then list_loop keys internalCursor restore limit started out else
      let publicKey := restore key in
      let out := (out ++ [publicKey])%list in
      if (0 <? limit) && (limit <=? zlen out) then (out, publicKey)
      else list_loop keys internalCursor restore limit true out
  end.

Definition List (prefix cursor : string) (limit : Z) : nact (list string * string) :=
  routed <-- ask (fun s => routePrefix s prefix cursor);
  let '(target, internalPrefix, internalCursor, restore) := routed in
  items <-- in_pebble (pbIter pebble target internalPrefix (internalPrefix ++ range_end));
  let '(out, nextCursor) := list_loop (map fst items) internalCursor restore limit (String.eqb internalCursor "") [] in
  ret_act (out, if zlen out <? limit then "" else nextCursor).

End Objects.

(** ** Choosing a store for a new chunk *)

Definition storeEligibleForAllocation (state : string) : bool :=
  negb (String.eqb state StoreStateFailed || String.eqb state StoreStateReadOnly || String.eqb state StoreStateDraining).

Definition plannerHash (volumeID logicalChunk physicalChunkID salt : Z) : Z :=
  be_prefix 8 (sha256 (be_bytes 8 volumeID ++ be_bytes 8 logicalChunk ++ be_bytes 8 physicalChunkID ++ le_split 1 salt)%list).

Definition eligible (states : gmap string string) (stores : list StoreSpec) : list StoreSpec :=
  List.filter (fun spec => storeEligibleForAllocation (default "" (states !! stID spec)) && (0 <? stWeight spec)) stores.

(** [%] panics on zero. *)
Definition shard_of (spec : StoreSpec) (hash : Z) (chunkID : Z) : result local_error Gateway.PhysicalChunkRef :=
  if wrap64 (stShards spec) =? 0 then Panic else
  Ok (Gateway.mkPhysicalChunkRef (stID spec) (wrap32 (hash mod wrap64 (stShards spec))) chunkID).

Fixpoint choose_store (specs : list StoreSpec) (choice : Z) : option StoreSpec :=
  match specs with
  | [] => None
  | spec :: specs => if choice <? stWeight spec then Some spec else choose_store specs (choice - stWeight spec)
  end.

Definition ChoosePhysicalChunkRef (stores : list StoreSpec) (states : gmap string string)
    (volumeID logicalChunk physicalChunkID : Z) : result local_error Gateway.PhysicalChunkRef :=
  let specs := eligible states stores in
  let totalWeight := fold_left (fun n spec => add_i64 n (stWeight spec)) specs 0 in
  match last specs with
  | None => Err NoWritableStore
  | Some lastSpec =>
      if wrap64 totalWeight =? 0 then Panic else
      let choice := plannerHash volumeID logicalChunk physicalChunkID 0 mod wrap64 totalWeight in
      let hash := plannerHash volumeID logicalChunk physicalChunkID 1 in
      shard_of (default lastSpec (choose_store specs (int64_of choice))) hash physicalChunkID
  end.

End LocalStore.
