(* ===== verification/LocalStoreFacts.v ===== *)
(** * What the object store of a data node promises

    Proofs about [LocalStore].  [PebbleLaws] states what the code relies on of
    Pebble; a world of maps is an instance.  The store is a map from routes to
    payloads, except that a chunk or an object that looks like a compressed
    envelope is written and cannot be read; chunks of different references do not
    touch each other; new chunks are placed on stores that accept them. *)

From Stdlib Require Import ZArith Lia Ascii String.
From Stdlib Require Strings.Byte.
From stdpp Require Import base list gmap strings sorting.
From coqutil Require Import Byte Word.LittleEndianList.
From S2P Require Import Prelude GoStrings VolumeId GatewayTypes ObjectStore Sha256 LocalStore.
Open Scope string_scope.
Open Scope Z_scope.

Module LocalStoreFacts.
Import Compress LocalStore.

(** ** Pebble *)

Class PebbleLaws {W : Type} (pebble : Pebble W) (contents : W -> string -> gmap string bytes) : Prop := {
  pb_get w db key : exists w', pbGet pebble db key w = (w', Ok (contents w db !! key)) /\
    forall db', contents w' db' = contents w db';
  pb_set w db key v : exists w', pbSet pebble db key v w = (w', Ok tt) /\
    forall db', contents w' db' = if decide (db' = db) then <[key := v]> (contents w db) else contents w db';
  pb_delete w db key : exists w', pbDelete pebble db key w = (w', Ok tt) /\
    forall db', contents w' db' = if decide (db' = db) then delete key (contents w db) else contents w db' }.

(** ** The policies of the community edition *)

(** Every policy in force has the codec [NONE]. *)
Definition community (s : objectStore) : Prop := map_Forall (fun _ r => cpCodec (crPolicy r) = "NONE") (osRuntimes s).

Lemma community_runtime s prefix id r : community s -> runtime_of s prefix = Some (id, r) -> cpCodec (crPolicy r) = "NONE".
Proof.
  intros Hc H. unfold runtime_of in H. destruct (osCompression s !! prefix) as [i|]; [|done]. cbn in H.
  destruct (osRuntimes s !! i) as [q|] eqn:Hq; [|done]. cbn in H. injection H as <- <-. exact (Hc i q Hq).
Qed.

Lemma community_count s id f : (forall r, crPolicy (f r) = crPolicy r) -> community s -> community (count_runtime id f s).
Proof.
  intros Hf Hc i r. unfold count_runtime. cbn. rewrite lookup_alter_Some. intros [(-> & q & Hq & ->)|[_ Hq]].
  - rewrite Hf. exact (Hc _ q Hq).
  - exact (Hc i r Hq).
Qed.

Lemma valid_codec policy u c : Validate policy = Ok u -> compressionCodec (cpCodec policy) = Ok c -> cpCodec policy = "NONE".
Proof.
  unfold Validate. destruct (negb (validateSBSVolumeID _)); [done|]. destruct (String.eqb (cpPolicyID policy) ""); [done|].
  destruct (_ =? 0); [done|].
  destruct (String.eqb_spec (cpCodec policy) "NONE"); [done|].
  destruct (String.eqb_spec (cpCodec policy) "LZ4") as [->|]; [done|].
  destruct (String.eqb_spec (cpCodec policy) "ZSTD") as [->|]; [done|]. done.
Qed.

(** No policy with another codec is ever accepted. *)
Lemma apply_community policy aliases s : community s -> community (applyCompressionPolicy policy aliases s).1.
Proof.
  intros Hc. unfold applyCompressionPolicy. destruct (Validate policy) as [u|e|] eqn:Hv; [|done|done].
  destruct (negb (cpLevel policy =? 0)); [done|].
  destruct (compressionCodec (cpCodec policy)) as [c|e|] eqn:Hcodec; [|done|done].
  assert (community (install s policy aliases)) as Hi.
  { intros i r. unfold install. cbn. rewrite lookup_insert_Some. intros [[_ <-]|[_ Hr]]; [|exact (Hc i r Hr)].
    by eapply valid_codec. }
  repeat case_match; done.
Qed.

(** ** The store as a map of routes *)

Section Store.
Context {W : Type} (pebble : Pebble W) (contents : W -> string -> gmap string bytes).
Context `{!PebbleLaws pebble contents}.

(** What the databases hold at the route of a key. *)
Definition stored_at (n : node) (route : string * string) : option bytes := contents (ndWorld n) route.1 !! route.2.

(** Chunks and objects that look like envelopes are decoded. *)
Definition decoded (route : parsedObjectKey) (value : bytes) : bool :=
  (pkIsChunk route || pkIsObject route) && (IsEnvelope value || IsLegacyEnvelope value).

(** The routing tables of two stores agree. *)
Definition same_routes (s s' : objectStore) : Prop := osLegacyDB s' = osLegacyDB s /\ osShards s' = osShards s.

Lemma same_routes_key s s' key : same_routes s s' -> routeKey s' key = routeKey s key.
Proof. intros [Hl Hs]. unfold routeKey, dbForRoute. by rewrite Hl, Hs. Qed.

Lemma bind_run {S E A B} (m : act S E A) (f : A -> act S E B) s s1 a : m s = (s1, Ok a) -> bind_act m f s = f a s1.
Proof. unfold bind_act. by intros ->. Qed.

(** ** Reading *)

Lemma get_spec key route target (n : @node W) : parseObjectKey key = Ok route -> routeKey (ndStore n) key = Ok target ->
  exists n', ndStore n' = ndStore n /\ (forall r, stored_at n' r = stored_at n r) /\
    Get pebble key n = (n', match stored_at n target with
                            | None => Ok None
                            | Some value => if decoded route value then Err (DecodeFailed key ErrEnterpriseOnly)
                                            else Ok (Some value)
                            end).
Proof.
  intros Hp Hr. destruct (pb_get (ndWorld n) target.1 target.2) as (w' & Hget & Hc).
  exists (mkNode (ndStore n) w'). split; [done|]. split; [intros r; unfold stored_at; cbn; by rewrite Hc|].
  unfold Get. rewrite (bind_run _ _ n n route) by (unfold lift_act; by rewrite Hp).
  rewrite (bind_run _ _ n n target) by (unfold ask; by rewrite Hr).
  erewrite (bind_run _ _ n) by (unfold in_pebble; rewrite Hget; reflexivity).
  unfold stored_at. destruct (contents (ndWorld n) target.1 !! target.2) as [value|]; [|done]. unfold decoded.
  destruct (pkIsChunk route), (pkIsObject route); cbn [negb andb orb]; try done;
    (destruct (IsEnvelope value), (IsLegacyEnvelope value); cbn [negb andb orb]; try done);
    unfold ask; cbn; by destruct (runtime_of _ _) as [[]|].
Qed.

(** ** Writing *)

Lemma encode_value_spec key value id r (n : @node W) : cpCodec (crPolicy r) = "NONE" -> community (ndStore n) ->
  exists s', encode_value key value id r n = (mkNode s' (ndWorld n), Ok value) /\ same_routes (ndStore n) s' /\ community s'.
Proof.
  intros Hcodec Hc. unfold encode_value. rewrite Hcodec. cbn [String.eqb negb]. rewrite andb_false_r.
  eexists. split; [reflexivity|]. split; [by split|]. by apply community_count.
Qed.

Lemma put_spec key value target (n : @node W) : routeKey (ndStore n) key = Ok target -> community (ndStore n) ->
  exists n', Put pebble key value n = (n', Ok tt) /\ same_routes (ndStore n) (ndStore n') /\ community (ndStore n') /\
    forall r, stored_at n' r = if decide (r = target) then Some value else stored_at n r.
Proof.
  intros Hr Hc. destruct (parseObjectKey key) as [route|e|] eqn:Hp; [|by unfold routeKey in Hr; rewrite Hp in Hr..].
  unfold Put. rewrite (bind_run _ _ n n route) by (unfold lift_act; by rewrite Hp).
  rewrite (bind_run _ _ n n target) by (unfold ask; by rewrite Hr).
  match goal with |- context [bind_act (if ?b then ?x else ?y) _ n] => set (encode := if b then x else y) end.
  assert (exists s', encode n = (mkNode s' (ndWorld n), Ok value) /\ same_routes (ndStore n) s' /\ community s')
    as (s' & He & Hs & Hc').
  { unfold encode. destruct (pkIsChunk route || pkIsObject route); [|by exists (ndStore n); destruct n].
    unfold ask, bind_act. destruct (runtime_of (ndStore n) (pkPrefix route)) as [[id q]|] eqn:Hq.
    - apply encode_value_spec; [|done]. by eapply community_runtime.
    - by exists (ndStore n); destruct n. }
  erewrite bind_run by exact He. destruct (pb_set (ndWorld n) target.1 target.2 value) as (w' & Hset & Hcont).
  exists (mkNode s' w'). unfold in_pebble. cbn [ndWorld ndStore]. rewrite Hset. cbn. split; [done|]. split; [done|]. split; [done|].
  intros [db k]. unfold stored_at. cbn. rewrite Hcont. destruct target as [tdb tk]. cbn.
  destruct (decide (db = tdb)) as [->|Hdb]; [|by rewrite decide_False by congruence].
  destruct (decide (k = tk)) as [->|Hk]; [rewrite lookup_insert_eq; by rewrite decide_True|].
  rewrite lookup_insert_ne by done. by rewrite decide_False by congruence.
Qed.

Lemma delete_spec key target (n : @node W) : routeKey (ndStore n) key = Ok target ->
  exists n', Delete pebble key n = (n', Ok tt) /\ ndStore n' = ndStore n /\
    forall r, stored_at n' r = if decide (r = target) then None else stored_at n r.
Proof.
  intros Hr. unfold Delete. rewrite (bind_run _ _ n n target) by (unfold ask; by rewrite Hr).
  destruct (pb_delete (ndWorld n) target.1 target.2) as (w' & Hdel & Hcont). exists (mkNode (ndStore n) w').
  unfold in_pebble. rewrite Hdel. cbn. split; [done|]. split; [done|].
  intros [db k]. unfold stored_at. cbn. rewrite Hcont. destruct target as [tdb tk]. cbn.
  destruct (decide (db = tdb)) as [->|Hdb]; [|by rewrite decide_False by congruence].
  destruct (decide (k = tk)) as [->|Hk]; [rewrite lookup_delete_eq; by rewrite decide_True|].
  rewrite lookup_delete_ne by done. by rewrite decide_False by congruence.
Qed.

End Store.

(** ** Keys of physical chunks *)

#[local] Arguments String.append !_ _ / : simpl nomatch.

Definition free_of (c : ascii) (s : string) : Prop := Forall (fun x => x <> c) (list_ascii_of_string s).

Lemma free_of_cons c x s : free_of c (String x s) <-> x <> c /\ free_of c s.
Proof. unfold free_of. cbn [list_ascii_of_string]. by rewrite Forall_cons. Qed.

(** A separator is not found in text without its first character. *)
Lemma index_skip c sep a b : free_of c a ->
  String.index 0 (String c sep) (a ++ b) = option_map (Nat.add (String.length a)) (String.index 0 (String c sep) b).
Proof.
  induction a as [|x a IH]; intros Hf;
    [cbn [String.append String.length]; by destruct (String.index _ _ b)|]. apply free_of_cons in Hf as [Hx Hf].
  cbn [String.append String.index String.prefix]. destruct (ascii_dec c x) as [->|_]; [done|]. rewrite IH by done.
  by destruct (String.index 0 (String c sep) b).
Qed.

Lemma index_first c sep b : String.prefix sep b = false ->
  String.index 0 (String c sep) (String c b) = option_map S (String.index 0 (String c sep) b).
Proof.
  intros H. cbn [String.index String.prefix]. destruct (ascii_dec c c) as [_|[]]; [|done]. rewrite H.
  by destruct (String.index 0 (String c sep) b).
Qed.

Lemma append_nil_r (s : string) : (s ++ "" = s)%string.
Proof. induction s as [|c s IH]; [done|]. cbn. by rewrite IH. Qed.

Lemma index_absent c sep a : free_of c a -> String.index 0 (String c sep) a = None.
Proof. intros Hf. rewrite <-(append_nil_r a), index_skip by done. done. Qed.

Lemma prefix_append (a b : string) : String.prefix a (a ++ b) = true.
Proof. induction a as [|c a IH]; [by destruct b|]. cbn. by destruct (ascii_dec c c). Qed.

Lemma substring_head (a b : string) : String.substring 0 (String.length a) (a ++ b) = a.
Proof. induction a as [|c a IH]; [by destruct b|]. cbn. by rewrite IH. Qed.

Lemma substring_skip (a b : string) k m : String.substring (String.length a + k) m (a ++ b) = String.substring k m b.
Proof. induction a as [|c a IH]; [done|]. cbn. exact IH. Qed.

Lemma substring_all (b : string) m : (String.length b <= m)%nat -> String.substring 0 m b = b.
Proof. revert m. induction b as [|c b IH]; intros m Hm; [by destruct m|]. destruct m; cbn in *; [lia|]. by rewrite IH by lia. Qed.

Lemma length_append (a b : string) : String.length (a ++ b) = (String.length a + String.length b)%nat.
Proof. induction a as [|c a IH]; [done|]. cbn. by rewrite IH. Qed.

(** [cut] at the first separator. *)
Lemma cut_first c sep a b : free_of c a -> cut (String c sep) (a ++ String c sep ++ b) = Some (a, b).
Proof.
  intros Hf. unfold cut. rewrite index_skip by done.
  assert (String.index 0 (String c sep) (String c sep ++ b) = Some 0%nat) as ->.
  { change (String c sep ++ b)%string with (String c (sep ++ b)). cbn [String.index].
    change (String c (sep ++ b)) with (String c sep ++ b)%string. by rewrite prefix_append. }
  cbn [option_map]. rewrite Nat.add_0_r. rewrite substring_head. do 2 f_equal.
  rewrite substring_skip. rewrite <-(Nat.add_0_r (String.length (String c sep))), substring_skip.
  apply substring_all. rewrite !length_append. lia.
Qed.

Definition digits (s : string) : Prop := s <> "" /\ Forall is_dec (list_ascii_of_string s).

Lemma digits_format v : 0 <= v -> digits (FormatUint v).
Proof.
  intros Hv. split.
  - intros H. apply (dec_chars_nonempty v Hv). unfold FormatUint in H. by apply (chars_inj _ []).
  - unfold FormatUint. rewrite list_ascii_of_string_of_list_ascii. by apply dec_chars_digits.
Qed.

Lemma digits_free s c : digits s -> ~ is_dec c -> free_of c s.
Proof. intros [_ Hd] Hc. eapply Forall_impl; [exact Hd|]. intros x Hx ->. by apply Hc. Qed.

Lemma colon_is_no_digit : ~ is_dec ":".
Proof. unfold is_dec. vm_compute. intros [_ H]. by apply H. Qed.

(** The key of a chunk is not the key of an object. *)
Lemma no_object a b : digits a -> digits b -> cut ":obj:" (a ++ ":chk:" ++ b) = None.
Proof.
  intros Ha Hb. unfold cut. rewrite index_skip by (apply digits_free; [done|apply colon_is_no_digit]).
  assert (free_of ":" b) as Hf by (apply digits_free; [done|apply colon_is_no_digit]).
  destruct Hb as [Hne Hd]. destruct b as [|x b]; [done|].
  assert (x <> "o"%char) as Hx.
  { intros ->. apply Forall_cons in Hd as [Hd _]. unfold is_dec in Hd. vm_compute in Hd. by destruct Hd as [_ []]. }
  assert (String.prefix "obj:" (String x b) = false) as Hp.
  { cbn [String.prefix]. destruct (ascii_dec "o" x) as [<-|]; done. }
  change (":chk:" ++ String x b)%string with (String ":" ("chk" ++ String ":" (String x b))).
  rewrite index_first by reflexivity. rewrite index_skip by (repeat constructor; discriminate).
  by rewrite index_first, index_absent by done.
Qed.

Lemma format_trimmed v : 0 <= v -> TrimSpace (FormatUint v) = FormatUint v.
Proof.
  intros Hv. apply VolumeId.TrimSpace_graphic. eapply Forall_impl; [by apply dec_chars_digits|].
  unfold is_dec. intros; cbn in *; lia.
Qed.

Lemma parse_format v : u64 v -> ParseUint10 (list_ascii_of_string (FormatUint v)) = Some v.
Proof.
  intros Hv. unfold in_u in Hv. unfold FormatUint, ParseUint10. rewrite list_ascii_of_string_of_list_ascii.
  rewrite dec_value_chars by (unfold in_u; lia).
  assert (forallb is_digit (dec_chars v) = true) as ->.
  { apply forallb_forall. intros c Hc%list_elem_of_In. pose proof (dec_chars_digits v ltac:(lia)) as Hd.
    rewrite Forall_forall in Hd. specialize (Hd c Hc). unfold is_digit, is_dec in *. lia. }
  assert (zlen (dec_chars v) <> 0) as Hz.
  { intros Hz. apply (dec_chars_nonempty v ltac:(lia)). apply zlen_nil_inv. lia. }
  by rewrite (proj2 (Z.eqb_neq _ _) Hz), (proj2 (Z.ltb_lt v (2 ^ 64))) by lia.
Qed.

Lemma parse_shard_format v : u32 v -> parse_shard (FormatUint v) = Some v.
Proof.
  intros Hv. unfold parse_shard. unfold in_u in Hv. rewrite format_trimmed by lia. rewrite parse_format by (unfold in_u; lia).
  by rewrite (proj2 (Z.ltb_lt _ _)) by lia.
Qed.

(** Names without separators and surrounding space. *)
Definition plain_name (s : string) : Prop := s <> "" /\ TrimSpace s = s /\ free_of ":" s /\ free_of "/" s.

Definition plain_ref (ref : Gateway.PhysicalChunkRef) : Prop :=
  plain_name (Gateway.rStoreID ref) /\ u32 (Gateway.rShardID ref) /\ u64 (Gateway.rChunkID ref).

Lemma parse_physical prefix ref : free_of ":" prefix -> plain_ref ref ->
  parseObjectKey (Store.buildPhysicalChunkKey prefix ref)
  = Ok (mkParsedObjectKey prefix (Gateway.rStoreID ref) (Gateway.rShardID ref) (FormatUint (Gateway.rChunkID ref)) true false).
Proof.
  intros Hp ((Hne & Htrim & Hcolon & _) & Hshard & Hchunk). unfold Store.buildPhysicalChunkKey.
  rewrite (proj2 (String.eqb_neq _ _) Hne). cbn [andb]. unfold parseObjectKey. rewrite cut_first by done.
  rewrite cut_first by done. unfold in_u in *.
  assert (digits (FormatUint (Gateway.rShardID ref))) as Hd1 by (apply digits_format; lia).
  assert (digits (FormatUint (Gateway.rChunkID ref))) as Hd2 by (apply digits_format; lia).
  rewrite no_object by done. rewrite cut_first by (apply digits_free; [done|apply colon_is_no_digit]).
  rewrite parse_shard_format by (unfold in_u; lia). by rewrite Htrim.
Qed.

Lemma cut_inj c sep a b a' b' : free_of c a -> free_of c a' ->
  (a ++ String c sep ++ b = a' ++ String c sep ++ b')%string -> a = a' /\ b = b'.
Proof.
  intros Ha Ha' H%(f_equal (cut (String c sep))). rewrite !cut_first in H by done. by injection H as -> ->.
Qed.

Lemma remapChunkKey_inj p p' d d' : free_of "/" p -> free_of "/" p' ->
  remapChunkKey p d = remapChunkKey p' d' -> p = p' /\ d = d'.
Proof.
  intros Hp Hp' H. apply (cut_inj "/" "chunks/"); [done|done|]. unfold remapChunkKey in H. by injection H.
Qed.

Lemma shardKey_inj a a' i i' : free_of "/" a -> free_of "/" a' -> u32 i -> u32 i' ->
  shardKey a i = shardKey a' i' -> a = a' /\ i = i'.
Proof.
  intros Ha Ha' Hi Hi' H. apply (cut_inj "/" "") in H as [-> H]; [|done|done]. split; [done|].
  unfold in_u in *. apply FormatUint_inj; [unfold in_u; lia|unfold in_u; lia|done].
Qed.

(** Every shard has a database of its own. *)
Definition shards_apart (s : objectStore) : Prop :=
  forall k k' db, osShards s !! k = Some db -> osShards s !! k' = Some db -> k = k'.

(** A chunk reference of the shards of this node, in a volume prefix. *)
Definition served (s : objectStore) (prefix : string) (ref : Gateway.PhysicalChunkRef) : Prop :=
  free_of ":" prefix /\ free_of "/" prefix /\ plain_ref ref /\
  is_Some (osShards s !! shardKey (Gateway.rStoreID ref) (Gateway.rShardID ref)).

Definition chunk_route (s : objectStore) (prefix : string) (ref : Gateway.PhysicalChunkRef) : string * string :=
  (default "" (osShards s !! shardKey (Gateway.rStoreID ref) (Gateway.rShardID ref)),
   remapChunkKey prefix (FormatUint (Gateway.rChunkID ref))).

Lemma route_physical s prefix ref : served s prefix ref ->
  routeKey s (Store.buildPhysicalChunkKey prefix ref) = Ok (chunk_route s prefix ref).
Proof.
  intros (Hc & _ & Href & [db Hdb]). unfold routeKey. rewrite parse_physical by done. simpl_bind.
  cbn [pkIsChunk pkIsObject negb andb]. unfold dbForRoute, chunk_route. cbn [pkStoreID pkShardID]. destruct Href as ((Hne & _) & _). rewrite (proj2 (String.eqb_neq _ _) Hne).
  rewrite Hdb. reflexivity.
Qed.

Lemma chunk_route_inj s p p' r r' : shards_apart s -> served s p r -> served s p' r' ->
  chunk_route s p r = chunk_route s p' r' -> p = p' /\ r = r'.
Proof.
  intros Hs (_ & Hp & ((_ & _ & _ & Hsl) & Hsh & Hch) & [db Hdb]) (_ & Hp' & ((_ & _ & _ & Hsl') & Hsh' & Hch') & [db' Hdb']) H.
  unfold chunk_route in H. rewrite Hdb, Hdb' in H. cbn [default id] in H.
  apply pair_equal_spec in H as [<- H].
  apply remapChunkKey_inj in H as [-> H]; [|done|done]. split; [done|].
  apply FormatUint_inj in H; [|done|done]. destruct (shardKey_inj _ _ _ _ Hsl Hsl' Hsh Hsh' (Hs _ _ _ Hdb Hdb')).
  destruct r, r'; cbn in *; congruence.
Qed.

(** A data node keeps chunks apart and reads back what it was given.  For
    chunk references the node serves, writing one succeeds; reading it then
    returns the payload, unless the payload looks like a compressed envelope; and
    the outcome of reading any other reference, in this or another volume, is what
    it was before. *)
Theorem local_chunk_read_back {W} (pebble : Pebble W) (contents : W -> string -> gmap string bytes)
    `{!PebbleLaws pebble contents} (n : @node W) (p p' : string) (r r' : Gateway.PhysicalChunkRef) (value : bytes) :
  shards_apart (ndStore n) -> community (ndStore n) -> served (ndStore n) p r -> served (ndStore n) p' r' ->
  exists n', Put pebble (Store.buildPhysicalChunkKey p r) value n = (n', Ok tt) /\
    (Get pebble (Store.buildPhysicalChunkKey p r) n').2
    = (if IsEnvelope value || IsLegacyEnvelope value
       then Err (DecodeFailed (Store.buildPhysicalChunkKey p r) ErrEnterpriseOnly) else Ok (Some value)) /\
    ((p', r') <> (p, r) ->
     (Get pebble (Store.buildPhysicalChunkKey p' r') n').2 = (Get pebble (Store.buildPhysicalChunkKey p' r') n).2).
Proof.
  intros Hap Hc Hs Hs'. pose proof (route_physical _ _ _ Hs) as Hr. pose proof (route_physical _ _ _ Hs') as Hr'.
  pose proof (parse_physical p r (proj1 Hs) (proj1 (proj2 (proj2 Hs)))) as Hp.
  pose proof (parse_physical p' r' (proj1 Hs') (proj1 (proj2 (proj2 Hs')))) as Hp'.
  destruct (put_spec pebble contents _ value _ n Hr Hc) as (n' & Hput & Hsame & _ & Hst).
  exists n'. split; [done|]. split.
  - destruct (get_spec pebble contents _ _ (chunk_route (ndStore n) p r) n' Hp) as (n2 & _ & _ & ->).
    { by rewrite (same_routes_key (ndStore n)). }
    cbn [snd]. rewrite Hst, decide_True by done. reflexivity.
  - intros Hne. destruct (get_spec pebble contents _ _ (chunk_route (ndStore n) p' r') n' Hp') as (n2 & _ & _ & ->).
    { by rewrite (same_routes_key (ndStore n)). }
    destruct (get_spec pebble contents _ _ _ n Hp' Hr') as (n3 & _ & _ & ->). cbn [snd]. rewrite Hst, decide_False; [done|].
    intros He. apply Hne. by destruct (chunk_route_inj _ _ _ _ _ Hap Hs' Hs He) as [-> ->].
Qed.

(** C19: a chunk that begins with the bytes "NC" is acknowledged and lost.  In the
    community edition every payload of at least sixteen bytes whose first two bytes
    are 0x4e 0x43 (the magic number of an old envelope) is stored, and every read of
    it then fails, although nothing was ever compressed. *)
Theorem magic_chunk_unreadable {W} (pebble : Pebble W) (contents : W -> string -> gmap string bytes)
    `{!PebbleLaws pebble contents} (n : @node W) (prefix : string) (ref : Gateway.PhysicalChunkRef) (rest : bytes) :
  community (ndStore n) -> served (ndStore n) prefix ref -> 14 <= zlen rest ->
  let key := Store.buildPhysicalChunkKey prefix ref in
  exists n', Put pebble key (Byte.x4e :: Byte.x43 :: rest) n = (n', Ok tt) /\
    (Get pebble key n').2 = Err (DecodeFailed key ErrEnterpriseOnly).
Proof.
  intros Hc Hs Hlen key. pose proof (route_physical _ _ _ Hs) as Hr.
  pose proof (parse_physical prefix ref (proj1 Hs) (proj1 (proj2 (proj2 Hs)))) as Hp.
  destruct (put_spec pebble contents _ (Byte.x4e :: Byte.x43 :: rest) _ n Hr Hc) as (n' & Hput & Hsame & _ & Hst).
  exists n'. unfold key. split; [done|].
  destruct (get_spec pebble contents _ _ (chunk_route (ndStore n) prefix ref) n' Hp) as (n2 & _ & _ & ->).
  { by rewrite (same_routes_key (ndStore n)). }
  cbn [snd]. rewrite Hst, decide_True by done.
  assert (decoded (mkParsedObjectKey prefix (Gateway.rStoreID ref) (Gateway.rShardID ref) (FormatUint (Gateway.rChunkID ref)) true false)
            (Byte.x4e :: Byte.x43 :: rest) = true) as ->; [|done].
  unfold decoded, IsLegacyEnvelope, LegacyHeaderSize. cbn [pkIsChunk pkIsObject orb andb].
  assert (16 <= zlen (Byte.x4e :: Byte.x43 :: rest)) as Hl by (unfold zlen in *; cbn [length]; lia).
  rewrite (proj2 (Z.leb_le _ _) Hl). by rewrite orb_true_r.
Qed.

(** ** Databases in memory *)

Abbreviation databases := (gmap string (gmap string bytes)).
Definition database (w : databases) (db : string) : gmap string bytes := default ∅ (w !! db).

Definition in_range (lower upper key : string) : bool := String.leb lower key && String.ltb key upper.

Definition memory_pebble : Pebble databases :=
  mkPebble databases
    (fun db key w => (w, Ok (database w db !! key)))
    (fun db key v w => (<[db := <[key := v]> (database w db)]> w, Ok tt))
    (fun db key w => (<[db := delete key (database w db)]> w, Ok tt))
    (fun db lower upper w =>
       (w, Ok (merge_sort (fun a b => String.le a.1 b.1)
                 (List.filter (fun kv => in_range lower upper kv.1) (map_to_list (database w db))))))
    (fun db lower upper w =>
       (<[db := filter (fun kv => in_range lower upper kv.1 = false) (database w db)]> w, Ok tt))
    (fun _ _ _ w => (w, Ok tt)).

Lemma database_insert w db m db' : database (<[db := m]> w) db' = if decide (db' = db) then m else database w db'.
Proof.
  unfold database. destruct (decide (db' = db)) as [->|Hne]; [by rewrite lookup_insert_eq|by rewrite lookup_insert_ne].
Qed.

#[export] Instance memory_pebble_laws : PebbleLaws memory_pebble database.
Proof.
  split.
  - intros w db key. by exists w.
  - intros w db key v. eexists. split; [reflexivity|]. intros db'. apply database_insert.
  - intros w db key. eexists. split; [reflexivity|]. intros db'. apply database_insert.
Qed.

Definition sample_store : objectStore :=
  mkObjectStore "meta" "meta" (<["s1/0" := "db0"]> {["s1/1" := "db1"]}) ∅ [] ∅ ∅ 0.
Definition sample_node : node := mkNode sample_store (∅ : databases).
Definition sample_ref : Gateway.PhysicalChunkRef := Gateway.mkPhysicalChunkRef "s1" 0 5.
Definition other_ref : Gateway.PhysicalChunkRef := Gateway.mkPhysicalChunkRef "s1" 1 5.

Lemma sample_apart : shards_apart sample_store.
Proof.
  intros k k' db. unfold sample_store. cbn [osShards].
  rewrite !lookup_insert_Some, !lookup_singleton_Some.
  intros [[<- <-]|[_ [<- <-]]] [[<- H]|[_ [<- H]]]; done || discriminate H.
Qed.

(** By evaluation of the decidable predicates. *)
Ltac evaluate := apply (bool_decide_unpack _); vm_compute; exact I.

Lemma served_s1 shard : shard = 0 \/ shard = 1 ->
  served sample_store "sbs-1" (Gateway.mkPhysicalChunkRef "s1" shard 5).
Proof.
  intros Hs. split; [unfold free_of; evaluate|]. split; [unfold free_of; evaluate|]. split.
  - split; [|cbn [Gateway.rShardID Gateway.rChunkID]; unfold in_u; lia].
    split; [discriminate|]. split; [vm_compute; reflexivity|]. split; unfold free_of; evaluate.
  - destruct Hs as [-> | ->]; (eexists; vm_compute; reflexivity).
Qed.

Lemma sample_community : community sample_store.
Proof. intros i r. unfold sample_store. cbn [osRuntimes]. by rewrite lookup_empty. Qed.

Lemma local_chunk_read_back_witness :
  exists n', Put memory_pebble (Store.buildPhysicalChunkKey "sbs-1" sample_ref) [Byte.x01] sample_node = (n', Ok tt) /\
    (Get memory_pebble (Store.buildPhysicalChunkKey "sbs-1" sample_ref) n').2 = Ok (Some [Byte.x01]) /\
    (Get memory_pebble (Store.buildPhysicalChunkKey "sbs-1" other_ref) n').2
    = (Get memory_pebble (Store.buildPhysicalChunkKey "sbs-1" other_ref) sample_node).2.
Proof.
  destruct (local_chunk_read_back memory_pebble database sample_node "sbs-1" "sbs-1" sample_ref other_ref [Byte.x01]
              sample_apart sample_community (served_s1 0 (or_introl eq_refl)) (served_s1 1 (or_intror eq_refl))) as (n' & H1 & H2 & H3).
  exists n'. split; [exact H1|]. split; [exact H2|]. apply H3. discriminate.
Defined.

Lemma magic_chunk_unreadable_witness :
  exists n', Put memory_pebble (Store.buildPhysicalChunkKey "sbs-1" sample_ref)
               (Byte.x4e :: Byte.x43 :: zeroes 14) sample_node = (n', Ok tt) /\
    (Get memory_pebble (Store.buildPhysicalChunkKey "sbs-1" sample_ref) n').2
    = Err (DecodeFailed (Store.buildPhysicalChunkKey "sbs-1" sample_ref) ErrEnterpriseOnly).
Proof.
  apply (magic_chunk_unreadable memory_pebble database sample_node "sbs-1" sample_ref (zeroes 14)
           sample_community (served_s1 0 (or_introl eq_refl))). vm_compute. discriminate.
Defined.

(** ** The planner *)

Fixpoint weights (specs : list StoreSpec) : Z :=
  match specs with [] => 0 | s :: specs => stWeight s + weights specs end.

Lemma weights_pos specs : Forall (fun s => 0 < stWeight s) specs -> 0 <= weights specs /\ (specs <> [] -> 0 < weights specs).
Proof.
  induction 1 as [|x specs Hx _ [IH _]]; cbn in *; [done|]. split; [lia|]. intros _. lia.
Qed.

Lemma fold_weights specs : forall n, 0 <= n -> Forall (fun s => 0 < stWeight s) specs -> n + weights specs < 2 ^ 63 ->
  fold_left (fun n spec => add_i64 n (stWeight spec)) specs n = n + weights specs.
Proof.
  induction specs as [|x specs IH]; intros n Hn Hw Hs; cbn in *; [lia|]. apply Forall_cons in Hw as [Hx Hw].
  pose proof (weights_pos specs Hw) as [Hp _]. rewrite add_i64_small by lia. rewrite IH by (done || lia). lia.
Qed.

(** A choice below the total weight falls on a store. *)
Lemma choose_store_in specs : forall choice, 0 <= choice < weights specs ->
  exists spec, choose_store specs choice = Some spec /\ spec ∈ specs.
Proof.
  induction specs as [|x specs IH]; intros choice Hc; cbn in *; [lia|]. destruct (Z.ltb_spec choice (stWeight x)).
  - exists x. split; [done|left].
  - destruct (IH (choice - stWeight x)) as (spec & -> & Hin); [lia|]. exists spec. split; [done|by right].
Qed.

(** A new chunk goes to a store that accepts it.  With weights that add up to
    less than 2^63 and at least one shard per store, the planner finds a store
    exactly when there is one that is not failed, read-only or draining and has a
    positive weight; it returns such a store, one of its shards, and the chunk id it
    was given. *)
Theorem planner_chooses_eligible (stores : list StoreSpec) (states : gmap string string)
    (volumeID logicalChunk physicalChunkID : Z) :
  weights (eligible states stores) < 2 ^ 63 -> Forall (fun s => 0 < stShards s < 2 ^ 32) stores ->
  match ChoosePhysicalChunkRef stores states volumeID logicalChunk physicalChunkID with
  | Ok ref => exists spec, spec ∈ stores /\ 0 < stWeight spec /\
                storeEligibleForAllocation (default "" (states !! stID spec)) = true /\
                Gateway.rStoreID ref = stID spec /\ 0 <= Gateway.rShardID ref < stShards spec /\
                Gateway.rChunkID ref = physicalChunkID
  | Err _ => forall spec, spec ∈ stores -> stWeight spec <= 0 \/
               storeEligibleForAllocation (default "" (states !! stID spec)) = false
  | Panic => False
  end.
Proof.
  intros Hw Hsh. unfold ChoosePhysicalChunkRef. set (specs := eligible states stores) in *.
  assert (forall spec, spec ∈ specs <-> spec ∈ stores /\ storeEligibleForAllocation (default "" (states !! stID spec)) = true /\
            0 < stWeight spec) as Hin.
  { intros spec. unfold specs, eligible. rewrite !list_elem_of_In, filter_In, andb_true_iff, Z.ltb_lt. done. }
  assert (Forall (fun s => 0 < stWeight s) specs) as Hpos by (apply Forall_forall; intros s Hs; by apply Hin in Hs as (_ & _ & ?)).
  pose proof (weights_pos specs Hpos) as [_ Htot]. destruct (last specs) as [lastSpec|] eqn:Hlast.
  - assert (specs <> []) as Hne by (by intros ->). rewrite fold_weights, Z.add_0_l by (done || lia).
    specialize (Htot Hne). rewrite wrap64_small by (unfold in_u; lia). rewrite (proj2 (Z.eqb_neq _ _)) by lia.
    pose proof (Z.mod_pos_bound (plannerHash volumeID logicalChunk physicalChunkID 0) (weights specs) Htot) as Hmod.
    set (choice := plannerHash volumeID logicalChunk physicalChunkID 0 mod weights specs) in *.
    assert (int64_of choice = choice) as ->.
    { unfold int64_of. rewrite Z.mod_small by lia. destruct (Z.ltb_spec choice (2 ^ 63)); lia. }
    destruct (choose_store_in specs choice Hmod) as (spec & -> & Hs). cbn [default id].
    apply Hin in Hs as (Hst & Hel & Hwt). rewrite Forall_forall in Hsh. specialize (Hsh spec Hst).
    unfold shard_of. rewrite wrap64_small by (unfold in_u; lia). rewrite (proj2 (Z.eqb_neq _ _)) by lia.
    exists spec. cbn [Gateway.rStoreID Gateway.rShardID Gateway.rChunkID].
    set (h := plannerHash _ _ _ 1). clearbody h. pose proof (Z.mod_pos_bound h (stShards spec)). rewrite wrap32_small by (unfold in_u; lia).
    split; [exact Hst|]. split; [exact Hwt|]. split; [exact Hel|]. split; [reflexivity|]. split; [lia|reflexivity].
  - intros spec Hspec. apply last_None in Hlast.
    destruct (storeEligibleForAllocation (default "" (states !! stID spec))) eqn:He; [left|by right].
    destruct (decide (0 < stWeight spec)); [|lia]. assert (spec ∈ specs) as Hbad by (by apply Hin).
    rewrite Hlast in Hbad. by apply not_elem_of_nil in Hbad.
Qed.

Lemma planner_chooses_eligible_witness :
  match ChoosePhysicalChunkRef [mkStoreSpec "a" "/a" 1 100; mkStoreSpec "b" "/b" 4 100] {["a" := "draining"]} 1 2 3 with
  | Ok ref => Gateway.rStoreID ref = "b"
  | _ => False
  end.
Proof.
  assert (weights (eligible {["a" := "draining"]} [mkStoreSpec "a" "/a" 1 100; mkStoreSpec "b" "/b" 4 100]) < 2 ^ 63) as Hw
    by (vm_compute; reflexivity).
  pose proof (planner_chooses_eligible [mkStoreSpec "a" "/a" 1 100; mkStoreSpec "b" "/b" 4 100] {["a" := "draining"]} 1 2 3 Hw
                ltac:(repeat (apply Forall_cons_2; [cbn; lia|]); apply Forall_nil_2)) as H.
  destruct (ChoosePhysicalChunkRef _ _ _ _ _) as [ref|e|]; [| |done].
  - destruct H as (spec & Hs & _ & He & -> & _). apply elem_of_cons in Hs as [->|Hs].
    + vm_compute in He. discriminate.
    + by apply list_elem_of_singleton in Hs as ->.
  - destruct (H (mkStoreSpec "b" "/b" 4 100)) as [Hb|Hb]; [right; left|vm_compute in Hb; by destruct Hb|vm_compute in Hb; discriminate].
Defined.

End LocalStoreFacts.
