(* ===== verification/StoreConfig.v ===== *)
(** * The stores of a data node

    Models src/sbs/local/store_config.go: the store specifications of a node, how
    they are parsed from a flag and normalized, and updates of their weights.
    Reading and writing the YAML file is not modelled.  Theorems: normalized
    specifications have distinct identifiers and directories, normalizing is
    idempotent, and a weight update changes the weights it names and nothing
    else. *)

From Stdlib Require Import ZArith Lia Ascii String.
From stdpp Require Import base list gmap strings.
From S2P Require Import Prelude GoStrings VolumeId LocalStore.
Open Scope string_scope.
Open Scope Z_scope.

Module StoreConfig.
Import LocalStore.

Definition DefaultStoreShards : Z := 1.
Definition DefaultStoreWeight : Z := 100.
Definition StoreStateHealthy : string := "healthy".
Definition StoreStateDegraded : string := "degraded".

Record StoreWeightUpdate := mkStoreWeightUpdate { swStoreID : string; swWeight : Z }.
Record StoreTuningUpdate := mkStoreTuningUpdate { suStoreID : string; suWeight : Z }.

Inductive config_error :=
| InvalidState (state : string) | SpecEmpty | InvalidOption (opt : string) | InvalidShards (value : string)
| InvalidWeight (value : string) | UnknownOption (key : string) | PathRequired | StorePathRequired (id : string)
| ShardsPositive (id : string) | WeightNegative (id : string) | DuplicateID (id : string) | DuplicatePath (path : string)
| UpdatesRequired | StoreIDRequired | DuplicateUpdate (id : string) | CoverMismatch (current requested : Z)
| MissingUpdate (id : string) | UnknownUpdate (id : string).

Definition ValidateStoreState (state : string) : result config_error unit :=
  let s := TrimSpace state in
  if String.eqb s StoreStateHealthy || String.eqb s StoreStateDegraded || String.eqb s StoreStateReadOnly
     || String.eqb s StoreStateFailed || String.eqb s StoreStateDraining then Ok tt else Err (InvalidState state).

(** ** Parsing *)

(** [strings.Split(s, ",")]. *)
Fixpoint split_comma (l current : chars) : list chars :=
  match l with
  | [] => [current]
  | c :: l => if Ascii.eqb c "," then current :: split_comma l [] else split_comma l (current ++ [c])%list
  end.

Fixpoint parse_options (options : list chars) (spec : StoreSpec) : result config_error StoreSpec :=
  match options with
  | [] => Ok spec
  | opt :: options =>
      let opt := TrimSpace (string_of_list_ascii opt) in
      if String.eqb opt "" then parse_options options spec else
      match cut "=" opt with
      | None => Err (InvalidOption opt)
      | Some (key, value) =>
          let key := TrimSpace key in
          let value := TrimSpace value in
          if String.eqb key "id" || String.eqb key "store_id"
          then parse_options options (mkStoreSpec value (stPath spec) (stShards spec) (stWeight spec)) else
          if String.eqb key "shards"
          then match Atoi (list_ascii_of_string value) with
               | None => Err (InvalidShards value)
               | Some parsed => parse_options options (mkStoreSpec (stID spec) (stPath spec) parsed (stWeight spec))
               end else
          if String.eqb key "weight"
          then match Atoi (list_ascii_of_string value) with
               | None => Err (InvalidWeight value)
               | Some parsed => parse_options options (mkStoreSpec (stID spec) (stPath spec) (stShards spec) parsed)
               end else
          Err (UnknownOption key)
      end
  end.

Definition ParseStoreSpec (raw : string) : result config_error StoreSpec :=
  let raw := TrimSpace raw in
  if String.eqb raw "" then Err SpecEmpty else
  let spec := mkStoreSpec "" "" DefaultStoreShards DefaultStoreWeight in
  match cut ":" raw with
  | None => Ok (mkStoreSpec "" (TrimSpace raw) DefaultStoreShards DefaultStoreWeight)
  | Some (pathPart, options) =>
      spec ← parse_options (split_comma (list_ascii_of_string options) []) spec;
      Ok (mkStoreSpec (stID spec) (TrimSpace pathPart) (stShards spec) (stWeight spec))
  end.

(** ** Normalization *)

(** [filepath.Clean] on Unix: the components that are left, last one first. *)
Fixpoint clean_components (rooted : bool) (components : list string) (out : list string) : list string :=
  match components with
  | [] => out
  | c :: components =>
      if String.eqb c "" || String.eqb c "." then clean_components rooted components out else
      if String.eqb c ".." then
        match out with
        | top :: rest => if String.eqb top ".." then clean_components rooted components (".." :: out)
                         else clean_components rooted components rest
        | [] => clean_components rooted components (if rooted then [] else [".."])
        end
      else clean_components rooted components (c :: out)
  end.

Definition Clean (path : string) : string :=
  let rooted := String.prefix "/" path in
  let out := reverse (clean_components rooted (map string_of_list_ascii (split_slash (list_ascii_of_string path) [])) []) in
  let joined := String.concat "/" out in
  if rooted then "/" ++ joined else if String.eqb joined "" then "." else joined.

Fixpoint normalize_loop (stores : list StoreSpec) (i : Z) (seenIDs seenPaths : gset string) (normalized : list StoreSpec)
  : result config_error (list StoreSpec) :=
  match stores with
  | [] => Ok normalized
  | spec :: stores =>
      let path := TrimSpace (stPath spec) in
      let id := TrimSpace (stID spec) in
      let id := if String.eqb id "" then "store-" ++ FormatUint i else id in
      if String.eqb path "" then Err (StorePathRequired id) else
      if stShards spec <=? 0 then Err (ShardsPositive id) else
      if stWeight spec <? 0 then Err (WeightNegative id) else
      if bool_decide (id ∈ seenIDs) then Err (DuplicateID id) else
      let cleanPath := Clean path in
      if bool_decide (cleanPath ∈ seenPaths) then Err (DuplicatePath path) else
      normalize_loop stores (i + 1) ({[id]} ∪ seenIDs) ({[cleanPath]} ∪ seenPaths)
        (normalized ++ [mkStoreSpec id path (stShards spec) (stWeight spec)])%list
  end.

Definition normalizeStoreSpecs (path : string) (stores : list StoreSpec) : result config_error (list StoreSpec) :=
  match stores with
  | [] => if String.eqb (TrimSpace path) "" then Err PathRequired else
          Ok [mkStoreSpec DefaultStoreID path DefaultStoreShards DefaultStoreWeight]
  | _ => normalize_loop stores 0 ∅ ∅ []
  end.

(** ** Updates *)

Fixpoint collect_updates (updates : list StoreWeightUpdate) (byID : gmap string Z) : result config_error (gmap string Z) :=
  match updates with
  | [] => Ok byID
  | update :: updates =>
      let storeID := TrimSpace (swStoreID update) in
      if String.eqb storeID "" then Err StoreIDRequired else
      if swWeight update <? 0 then Err (WeightNegative storeID) else
      match byID !! storeID with
      | Some _ => Err (DuplicateUpdate storeID)
      | None => collect_updates updates (<[storeID := swWeight update]> byID)
      end
  end.

(** The stores with their new weights and the updates that are left. *)
Fixpoint reload_loop (stores : list StoreSpec) (byID : gmap string Z) (reloaded : list StoreSpec)
  : result config_error (list StoreSpec * gmap string Z) :=
  match stores with
  | [] => Ok (reloaded, byID)
  | current :: stores =>
      match byID !! stID current with
      | None => Err (MissingUpdate (stID current))
      | Some weight =>
          reload_loop stores (delete (stID current) byID)
            (reloaded ++ [mkStoreSpec (stID current) (stPath current) (stShards current) weight])%list
      end
  end.

Definition ApplyStoreWeightUpdates (stores : list StoreSpec) (updates : list StoreWeightUpdate)
  : result config_error (list StoreSpec) :=
  normalized ← normalizeStoreSpecs "" stores;
  if zlen updates =? 0 then Err UpdatesRequired else
  byID ← collect_updates updates ∅;
  if negb (Z.of_nat (size byID) =? zlen normalized) then Err (CoverMismatch (zlen normalized) (Z.of_nat (size byID))) else
  '(reloaded, unknown) ← reload_loop normalized byID [];
  match map_to_list unknown with
  | [] => Ok reloaded
  | (storeID, _) :: _ => Err (UnknownUpdate storeID)
  end.

(** The same text as [ApplyStoreWeightUpdates], on updates of another type. *)
Definition ApplyStoreTuningUpdates (stores : list StoreSpec) (updates : list StoreTuningUpdate)
  : result config_error (list StoreSpec) :=
  ApplyStoreWeightUpdates stores (map (fun u => mkStoreWeightUpdate (suStoreID u) (suWeight u)) updates).

(** ** Well-formed configurations *)

Record specs_ok (specs : list StoreSpec) : Prop := {
  so_ids : NoDup (map stID specs);
  so_paths : NoDup (map (fun s => Clean (stPath s)) specs);
  so_each : Forall (fun s => stID s <> "" /\ TrimSpace (stID s) = stID s /\ stPath s <> "" /\
                             TrimSpace (stPath s) = stPath s /\ 0 < stShards s /\ 0 <= stWeight s) specs }.

Lemma store_name_trimmed i : 0 <= i -> TrimSpace ("store-" ++ FormatUint i) = ("store-" ++ FormatUint i)%string.
Proof.
  intros Hi. rewrite <-(string_of_list_ascii_of_string ("store-" ++ FormatUint i)), chars_app.
  unfold FormatUint. rewrite list_ascii_of_string_of_list_ascii. apply VolumeId.TrimSpace_graphic, Forall_app. split.
  - repeat (apply Forall_cons_2; [vm_compute; split; reflexivity|]). apply Forall_nil_2.
  - eapply Forall_impl; [by apply dec_chars_digits|]. unfold is_dec. cbn. lia.
Qed.

Lemma specs_ok_snoc specs s : specs_ok specs -> stID s ∉ map stID specs ->
  Clean (stPath s) ∉ map (fun s => Clean (stPath s)) specs ->
  stID s <> "" /\ TrimSpace (stID s) = stID s /\ stPath s <> "" /\ TrimSpace (stPath s) = stPath s /\
  0 < stShards s /\ 0 <= stWeight s -> specs_ok (specs ++ [s]).
Proof.
  intros [H1 H2 H3] Hid Hpath Hs.
  split; rewrite ?map_app.
  - apply NoDup_app. split; [done|]. split; [|apply NoDup_singleton]. intros x Hx Hx'.
    apply list_elem_of_singleton in Hx' as ->. done.
  - apply NoDup_app. split; [done|]. split; [|apply NoDup_singleton]. intros x Hx Hx'.
    apply list_elem_of_singleton in Hx' as ->. done.
  - apply Forall_app. split; [done|]. by apply Forall_singleton.
Qed.

Lemma seen_snoc (f : StoreSpec -> string) out s :
  list_to_set (map f (out ++ [s])) = {[f s]} ∪ list_to_set (C := gset string) (map f out).
Proof. rewrite map_app, list_to_set_app_L. cbn [map list_to_set]. set_solver. Qed.

Lemma normalize_loop_ok stores : forall i out r, 0 <= i -> specs_ok out ->
  normalize_loop stores i (list_to_set (map stID out)) (list_to_set (map (fun s => Clean (stPath s)) out)) out = Ok r ->
  specs_ok r.
Proof.
  induction stores as [|spec stores IH]; intros i out r Hi Hok; cbn [normalize_loop]; [by intros [= <-]|].
  set (id := if String.eqb (TrimSpace (stID spec)) "" then _ else _).
  destruct (String.eqb_spec (TrimSpace (stPath spec)) ""); [done|].
  destruct (Z.leb_spec (stShards spec) 0); [done|]. destruct (Z.ltb_spec (stWeight spec) 0); [done|].
  case_bool_decide as Hid; [done|]. case_bool_decide as Hpath; [done|]. rewrite elem_of_list_to_set in Hid, Hpath. intros Hr.
  assert (specs_ok (out ++ [mkStoreSpec id (TrimSpace (stPath spec)) (stShards spec) (stWeight spec)])) as Hok'.
  { apply specs_ok_snoc; [done|exact Hid|exact Hpath|]. cbn [stID stPath stShards stWeight].
    rewrite TrimSpace_idem. split_and!; [| |done|done|done|done]; unfold id;
      destruct (String.eqb_spec (TrimSpace (stID spec)) ""); [discriminate|done|by apply store_name_trimmed|apply TrimSpace_idem]. }
  eapply (IH (i + 1)); [lia|exact Hok'|]. rewrite seen_snoc, seen_snoc. exact Hr.
Qed.

(** Normalized specifications pass through the loop as they are. *)
Lemma normalize_loop_fixed stores : forall i out, specs_ok (out ++ stores) ->
  normalize_loop stores i (list_to_set (map stID out)) (list_to_set (map (fun s => Clean (stPath s)) out)) out
    = Ok (out ++ stores)%list.
Proof.
  induction stores as [|spec stores IH]; intros i out Hok; cbn [normalize_loop]; [by rewrite app_nil_r|].
  pose proof Hok as [Hids Hpaths Heach]. rewrite map_app in Hids, Hpaths.
  apply NoDup_app in Hids as (_ & Hids & _). apply NoDup_app in Hpaths as (_ & Hpaths & _).
  apply Forall_app in Heach as [_ Heach]. apply Forall_cons_1 in Heach as [(Hne & Ht & Hpne & Hpt & Hs & Hw) _].
  rewrite Ht, Hpt. destruct (String.eqb_spec (stID spec) ""); [done|]. destruct (String.eqb_spec (stPath spec) ""); [done|].
  destruct (Z.leb_spec (stShards spec) 0); [lia|]. destruct (Z.ltb_spec (stWeight spec) 0); [lia|].
  rewrite bool_decide_eq_false_2 by (rewrite elem_of_list_to_set; intros Hin; apply (Hids _ Hin), list_elem_of_here).
  rewrite bool_decide_eq_false_2 by (rewrite elem_of_list_to_set; intros Hin; apply (Hpaths _ Hin), list_elem_of_here).
  assert (mkStoreSpec (stID spec) (stPath spec) (stShards spec) (stWeight spec) = spec) as -> by (by destruct spec).
  rewrite <-(seen_snoc stID), <-(seen_snoc (fun s => Clean (stPath s))).
  rewrite IH by (by rewrite <-app_assoc). by rewrite <-app_assoc.
Qed.

Lemma normalize_loop_length stores : forall i ids paths out r, normalize_loop stores i ids paths out = Ok r ->
  List.length r = (List.length out + List.length stores)%nat.
Proof.
  induction stores as [|spec stores IH]; intros i ids paths out r; cbn [normalize_loop]; [intros [= <-]; cbn; lia|].
  repeat case_match; try done; intros Hr%IH; rewrite Hr, length_app; cbn; lia.
Qed.

Lemma specs_ok_nil : specs_ok [].
Proof. split; [apply NoDup_nil_2|apply NoDup_nil_2|apply Forall_nil_2]. Qed.

Lemma normalize_fixed stores normalized : stores <> [] -> normalizeStoreSpecs "" stores = Ok normalized ->
  specs_ok normalized /\ List.length normalized = List.length stores /\ normalizeStoreSpecs "" normalized = Ok normalized.
Proof.
  intros Hne Hn. assert (normalize_loop stores 0 ∅ ∅ [] = Ok normalized) as Hl by (by destruct stores).
  assert (specs_ok normalized) as Hok by (eapply (normalize_loop_ok stores 0 []); [lia|apply specs_ok_nil|exact Hl]).
  assert (List.length normalized = List.length stores) as Hlen by apply (normalize_loop_length _ _ _ _ _ _ Hl).
  split_and!; [done|done|].
  destruct normalized as [|s rest]; [destruct stores; [done|discriminate Hlen]|].
  exact (normalize_loop_fixed (s :: rest) 0 [] Hok).
Qed.

(** What normalizing accepts is a well-formed configuration (distinct identifiers, distinct directories
    after cleaning the paths, no blank or untrimmed names, positive shard counts, no negative weight), and
    normalizing it again changes nothing. *)
Theorem normalized_specs_well_formed stores normalized :
  stores <> [] -> normalizeStoreSpecs "" stores = Ok normalized ->
  specs_ok normalized /\ List.length normalized = List.length stores /\ normalizeStoreSpecs "" normalized = Ok normalized.
Proof. apply normalize_fixed. Qed.

(** ** Updates of the weights *)

Definition id_weight (s : StoreSpec) : string * Z := (stID s, stWeight s).
Definition update_pair (u : StoreWeightUpdate) : string * Z := (TrimSpace (swStoreID u), swWeight u).
Definition same_but_weight (s t : StoreSpec) : Prop :=
  stID s = stID t /\ stPath s = stPath t /\ stShards s = stShards t.

Lemma map_id_weight specs : (map id_weight specs).*1 = map stID specs.
Proof. induction specs as [|s specs IH]; [done|]. cbn. by f_equal. Qed.

Lemma collect_updates_ok updates : forall byID,
  NoDup (map update_pair updates).*1 ->
  Forall (fun u => TrimSpace (swStoreID u) <> "" /\ 0 <= swWeight u /\ byID !! TrimSpace (swStoreID u) = None) updates ->
  collect_updates updates byID = Ok (list_to_map (map update_pair updates) ∪ byID).
Proof.
  induction updates as [|u updates IH]; intros byID Hnd Hall; cbn [collect_updates map]; [by rewrite list_to_map_nil, (left_id_L ∅ (∪))|].
  cbn [map fmap list_fmap update_pair fst] in Hnd. apply NoDup_cons in Hnd as [Hnotin Hnd].
  apply Forall_cons_1 in Hall as [(Hne & Hw & Hnone) Hall].
  destruct (String.eqb_spec (TrimSpace (swStoreID u)) ""); [done|]. destruct (Z.ltb_spec (swWeight u) 0); [lia|].
  rewrite Hnone, IH; [|done|].
  - f_equal. unfold update_pair at 2. cbn [list_to_map foldr uncurry]. rewrite <-insert_union_l. rewrite insert_union_r; [done|].
    by apply not_elem_of_list_to_map_1.
  - apply Forall_forall. intros v Hv. rewrite Forall_forall in Hall. destruct (Hall v Hv) as (? & ? & ?). split_and!; [done..|].
    rewrite lookup_insert_ne; [done|]. intros Heq. apply Hnotin. rewrite Heq.
    apply (list_elem_of_fmap_2 fst (map update_pair updates) (update_pair v)), list_elem_of_fmap_2, Hv.
Qed.

Lemma collect_updates_inv updates : forall byID r, collect_updates updates byID = Ok r ->
  NoDup (map update_pair updates).*1 /\
  Forall (fun u => TrimSpace (swStoreID u) <> "" /\ 0 <= swWeight u /\ byID !! TrimSpace (swStoreID u) = None) updates.
Proof.
  induction updates as [|u updates IH]; intros byID r; cbn [collect_updates].
  { intros _. split; [apply NoDup_nil_2|apply Forall_nil_2]. }
  destruct (String.eqb_spec (TrimSpace (swStoreID u)) ""); [done|]. destruct (Z.ltb_spec (swWeight u) 0); [done|].
  destruct (byID !! TrimSpace (swStoreID u)) eqn:Hnone; [done|]. intros [Hnd Hall]%IH. rewrite Forall_forall in Hall. split.
  - cbn [map fmap list_fmap update_pair fst]. apply NoDup_cons. split; [|done]. intros Hin.
    apply list_elem_of_fmap in Hin as ([k w] & Hk & Hin). apply list_elem_of_fmap in Hin as (v & Hv & Hin).
    destruct (Hall v Hin) as (_ & _ & Hl). unfold update_pair in Hv. injection Hv as -> ->. cbn in Hk. rewrite <-Hk, lookup_insert_eq in Hl. done.
  - apply Forall_cons_2; [done|]. apply Forall_forall. intros v Hv. destruct (Hall v Hv) as (? & ? & Hl).
    split_and!; [done..|]. by apply lookup_insert_None in Hl as [? _].
Qed.

Lemma reload_loop_inv stores : forall byID out r rest, NoDup (map stID stores) ->
  reload_loop stores byID out = Ok (r, rest) ->
  exists r', r = (out ++ r')%list /\ Forall2 same_but_weight stores r' /\
    byID = list_to_map (map id_weight r') ∪ rest /\ (size byID = List.length stores + size rest)%nat.
Proof.
  induction stores as [|s stores IH]; intros byID out r rest Hnd; cbn [reload_loop].
  { intros [= <- <-]. exists []. rewrite app_nil_r. cbn [map]. rewrite list_to_map_nil, (left_id_L ∅ (∪)). split_and!; [done|constructor|done|done]. }
  destruct (byID !! stID s) as [w|] eqn:Hw; [|done]. cbn [map] in Hnd. apply NoDup_cons in Hnd as [Hnotin Hnd]. intros Hr.
  destruct (IH _ _ _ _ Hnd Hr) as (r' & -> & HF & Hmap & Hsize).
  exists (mkStoreSpec (stID s) (stPath s) (stShards s) w :: r'). rewrite <-app_assoc. split_and!; [done| | |].
  - constructor; [done|exact HF].
  - cbn [map list_to_map foldr uncurry id_weight stID stWeight]. rewrite <-insert_union_l, <-Hmap. by rewrite insert_delete_id.
  - rewrite <-(insert_delete_id byID (stID s) w Hw), map_size_insert_None by apply lookup_delete_eq. cbn [List.length]. lia.
Qed.

Lemma same_ids stores r : Forall2 same_but_weight stores r -> map stID stores = map stID r.
Proof. induction 1 as [|? ? ? ? [? _]]; cbn; congruence. Qed.

Lemma reload_loop_ok stores : forall r out, NoDup (map stID stores) -> Forall2 same_but_weight stores r ->
  reload_loop stores (list_to_map (map id_weight r)) out = Ok ((out ++ r)%list, ∅).
Proof.
  induction stores as [|s stores IH]; intros r out Hnd HF; cbn [reload_loop].
  { apply Forall2_nil_inv_l in HF as ->. by rewrite app_nil_r. }
  apply Forall2_cons_inv_l in HF as (t & r' & (Hi & Hp & Hs) & HF & ->).
  cbn [map] in Hnd. apply NoDup_cons in Hnd as [Hnotin Hnd].
  pose proof (same_ids _ _ HF) as Hids.
  cbn [map]. unfold id_weight at 1 3. rewrite list_to_map_cons, <-Hi, lookup_insert_eq, delete_insert_id.
  2: { apply not_elem_of_list_to_map_1. by rewrite map_id_weight, <-Hids. }
  rewrite (IH r') by done. rewrite <-app_assoc. do 3 f_equal. cbn. destruct t; cbn in *. by subst.
Qed.

Lemma updates_named normalized r updates : specs_ok normalized -> Forall2 same_but_weight normalized r ->
  map id_weight r ≡ₚ map update_pair updates -> Forall (fun u => 0 <= swWeight u) updates ->
  Forall (fun u => TrimSpace (swStoreID u) <> "" /\ 0 <= swWeight u /\ (∅ : gmap string Z) !! TrimSpace (swStoreID u) = None) updates.
Proof.
  intros Hok HF HP Hw. apply Forall_forall. intros u Hu. rewrite Forall_forall in Hw. split_and!; [|by apply Hw|apply lookup_empty].
  assert (update_pair u ∈ map id_weight r) as Hin by (rewrite HP; by apply list_elem_of_fmap_2).
  apply list_elem_of_fmap in Hin as (t & Ht & Hin). injection Ht as Hid _. rewrite Hid.
  assert (stID t ∈ map stID normalized) as Hin' by (rewrite (same_ids _ _ HF); by apply list_elem_of_fmap_2).
  apply list_elem_of_fmap in Hin' as (s & -> & Hs). pose proof (so_each _ Hok) as Hall. rewrite Forall_forall in Hall. by apply Hall.
Qed.

(** A weight update succeeds exactly when it names every store of the configuration once, and no other,
    with weights that are not negative; the result has the new weights and is otherwise the configuration. *)
Theorem weight_update_exact stores normalized updates r :
  stores <> [] -> normalizeStoreSpecs "" stores = Ok normalized ->
  (ApplyStoreWeightUpdates stores updates = Ok r) <->
  Forall2 same_but_weight normalized r /\ map id_weight r ≡ₚ map update_pair updates /\
  Forall (fun u => 0 <= swWeight u) updates.
Proof.
  intros Hne Hn. destruct (normalize_fixed _ _ Hne Hn) as (Hok & Hlen & _).
  unfold ApplyStoreWeightUpdates. rewrite Hn. cbn [mbind result_bind]. split.
  - destruct (zlen updates =? 0); [done|].
    destruct (collect_updates updates ∅) as [byID|?|] eqn:Hc; [|done..]. cbn [mbind result_bind].
    destruct (Z.eqb_spec (Z.of_nat (size byID)) (zlen normalized)) as [Hsize|]; [|done]. cbn [negb].
    destruct (reload_loop normalized byID []) as [[r' rest]|?|] eqn:Hr; [|done..]. cbn [mbind result_bind].
    destruct (reload_loop_inv _ _ _ _ _ (so_ids _ Hok) Hr) as (q & -> & HF & Hmap & Hs).
    assert (rest = ∅) as -> by (apply map_size_empty_inv; unfold zlen in Hsize; lia).
    rewrite map_to_list_empty. intros [= <-]. destruct (collect_updates_inv _ _ _ Hc) as [Hnd Hall].
    rewrite collect_updates_ok in Hc by done. injection Hc as <-. rewrite !(right_id_L ∅ (∪)) in Hmap.
    split_and!; [done| |by eapply Forall_impl; [exact Hall|naive_solver]].
    symmetry. apply list_to_map_inj; [done| |exact Hmap]. rewrite map_id_weight, <-(same_ids _ _ HF). apply (so_ids _ Hok).
  - intros (HF & HP & Hw).
    assert (NoDup (map update_pair updates).*1) as Hnd.
    { rewrite <-HP, map_id_weight, <-(same_ids _ _ HF). apply (so_ids _ Hok). }
    assert (List.length updates = List.length normalized) as Hcount.
    { rewrite <-(length_map update_pair), <-HP, length_map. symmetry. by eapply Forall2_length. }
    assert ((zlen updates =? 0) = false) as -> by (apply Z.eqb_neq; unfold zlen; destruct stores; [done|cbn in Hlen; lia]).
    rewrite (collect_updates_ok _ ∅ Hnd). 2: { eapply updates_named; eauto. }
    cbn [mbind result_bind]. rewrite (right_id_L ∅ (∪)), map_size_list_to_map, !length_map by done. unfold zlen. rewrite Hcount.
    rewrite Z.eqb_refl. cbn [negb]. rewrite (list_to_map_proper _ _ Hnd (Permutation_sym HP)).
    rewrite reload_loop_ok by (done || apply (so_ids _ Hok)). cbn [mbind result_bind]. by rewrite map_to_list_empty.
Qed.

Definition two_stores : list StoreSpec := [mkStoreSpec "" "/data/a/" 1 100; mkStoreSpec "b" " /data/b" 4 0].

Lemma normalized_specs_well_formed_witness :
  specs_ok [mkStoreSpec "store-0" "/data/a/" 1 100; mkStoreSpec "b" "/data/b" 4 0].
Proof. apply (normalized_specs_well_formed two_stores); [done|vm_compute; reflexivity]. Defined.

Lemma weight_update_exact_witness :
  ApplyStoreWeightUpdates two_stores [mkStoreWeightUpdate "b" 7; mkStoreWeightUpdate " store-0" 0]
    = Ok [mkStoreSpec "store-0" "/data/a/" 1 0; mkStoreSpec "b" "/data/b" 4 7].
Proof.
  apply (weight_update_exact two_stores [mkStoreSpec "store-0" "/data/a/" 1 100; mkStoreSpec "b" "/data/b" 4 0]);
    [done|vm_compute; reflexivity|].
  split_and!; [by repeat constructor|apply Permutation_swap|].
  apply (bool_decide_unpack _). vm_compute. exact I.
Defined.

End StoreConfig.
