(* ===== verification/StoreOpen.v ===== *)
(** * Opening the shards of a data node

    Models [newObjectStore], [Close], [shardPath], [parseShardKey] and
    [ShardSnapshots] of src/sbs/local/store.go.  Making a directory, opening and
    closing a database, counting files and the metrics of Pebble are parameters; a
    database is named by its directory.  Theorems: the shards of a normalized
    configuration are opened in directories of their own, so that no two of them
    share a database, every shard of the configuration is served, and a failure
    closes what was opened. *)

From Stdlib Require Import ZArith Lia Ascii String.
From stdpp Require Import base list gmap strings sorting.
From S2P Require Import Prelude GoStrings VolumeId GatewayTypes ObjectStore LocalStore LocalStoreFacts StoreConfig.
Open Scope string_scope.
Open Scope Z_scope.

Module StoreOpen.
Import LocalStore LocalStoreFacts StoreConfig.
#[local] Arguments String.append !_ _ / : simpl nomatch.

(** [filepath.Join] of two elements. *)
Definition Join (path elem : string) : string := if String.eqb path "" then Clean elem else Clean (path ++ "/" ++ elem).

Definition shardPath (path : string) (shardID : Z) : string := Join path ("shard-" ++ format_04d shardID).

(** [strconv.ParseUint(s, 10, 32)] behind the first slash. *)
Definition parseShardKey (key : string) : option (string * Z) :=
  match cut "/" key with
  | None => None
  | Some (storeID, shardRaw) =>
      match ParseUint10 (list_ascii_of_string shardRaw) with
      | Some shardID => if shardID <? 2 ^ 32 then Some (storeID, shardID) else None
      | None => None
      end
  end.

Record shardSnapshot := mkShardSnapshot {
  ssStoreID : string; ssShardID : Z; ssPath : string; ssChunkKeys : Z; ssPebbleFiles : Z; ssPebbleDiskUsageBytes : Z;
  ssCompactionPendingBytes : Z; ssCompactionInProgressBytes : Z }.

Inductive open_error := OpenFailed (e : string) | InvalidShardKey (key : string).

Section Open.
Context {W : Type} (mkdirAll open close : string -> act W string unit).

(** Every database is closed; the first error is kept. *)
Fixpoint close_all (dbs : list string) (firstErr : option string) (w : W) : W * option string :=
  match dbs with
  | [] => (w, firstErr)
  | db :: dbs =>
      let '(w, r) := close db w in
      close_all dbs (match firstErr, r with None, Err e => Some e | _, _ => firstErr end) w
  end.

Definition Close (s : objectStore) (w : W) : W * objectStore * option string :=
  let '(w, firstErr) := close_all (osClosers s) None w in (w, s <| osClosers := [] |>, firstErr).

(** The shards of one store, from a list of shard numbers. *)
Fixpoint open_shards (spec : StoreSpec) (ids : list Z) (out : objectStore) : act W string objectStore := fun w =>
  match ids with
  | [] => (w, Ok out)
  | shardID :: ids =>
      let path := shardPath (stPath spec) shardID in
      let key := shardKey (stID spec) (wrap32 shardID) in
      if String.eqb (Clean (stPath spec)) (osMetadataPath out) && String.eqb (stID spec) DefaultStoreID
         && (stShards spec =? 1) && (shardID =? 0)
      then open_shards spec ids (out <| osShardPaths := <[key := osMetadataPath out]> (osShardPaths out) |>
                                     <| osShards := <[key := osLegacyDB out]> (osShards out) |>) w
      else
        let out := out <| osShardPaths := <[key := path]> (osShardPaths out) |> in
        match mkdirAll path w with
        | (w, Err e) => (fst (fst (Close out w)), Err e)
        | (w, Panic) => (w, Panic)
        | (w, Ok _) =>
            match open path w with
            | (w, Err e) => (fst (fst (Close out w)), Err e)
            | (w, Panic) => (w, Panic)
            | (w, Ok _) => open_shards spec ids (out <| osShards := <[key := path]> (osShards out) |>
                                                   <| osClosers := (osClosers out ++ [path])%list |>) w
            end
        end
  end.

Fixpoint open_stores (stores : list StoreSpec) (out : objectStore) : act W string objectStore := fun w =>
  match stores with
  | [] => (w, Ok out)
  | spec :: stores =>
      match open_shards spec (seqZ 0 (stShards spec)) out w with
      | (w, Ok out) => open_stores stores out w
      | (w, r) => (w, r)
      end
  end.

Definition newObjectStore (metadataPath legacyDB : string) (stores : list StoreSpec) : act W string objectStore :=
  open_stores stores (mkObjectStore (Clean metadataPath) legacyDB ∅ ∅ [] ∅ ∅ 0).

End Open.

(** ** Snapshots of the shards *)

Section Snapshots.
Context {W : Type} (pebble : Pebble W) (countPebbleFiles : string -> act W string Z)
  (pebbleDBRuntimeStats : string -> W -> Z * Z * Z).
Open Scope act_scope.

Definition countDBChunkKeys (db : string) : act W string Z :=
  items <-- pbIter pebble db "volumes/" ("volumes/" ++ range_end);
  ret_act (zlen (List.filter (fun kv => match cut "/chunks/" (fst kv) with Some _ => true | None => false end) items)).

Fixpoint snapshot_keys (s : objectStore) (keys : list string) (snapshots : list shardSnapshot)
  : act W open_error (list shardSnapshot) :=
  match keys with
  | [] => ret_act snapshots
  | key :: keys =>
      match parseShardKey key with
      | None => fail_act (InvalidShardKey key)
      | Some (storeID, shardID) =>
          let path := default "" (osShardPaths s !! key) in
          let db := default "" (osShards s !! key) in
          chunkKeys <-- (fun w => let '(w, r) := countDBChunkKeys db w in (w, map_err OpenFailed r));
          pebbleFiles <-- (fun w => let '(w, r) := countPebbleFiles path w in (w, map_err OpenFailed r));
          stats <-- (fun w => (w, Ok (pebbleDBRuntimeStats db w)));
          let '(diskUsage, pending, inProgress) := stats in
          snapshot_keys s keys
            (snapshots ++ [mkShardSnapshot storeID shardID path chunkKeys pebbleFiles diskUsage pending inProgress])%list
      end
  end.

Definition ShardSnapshots (s : objectStore) : act W open_error (list shardSnapshot) :=
  snapshot_keys s (merge_sort String.le (map_to_list (osShardPaths s)).*1) [].

End Snapshots.

(** ** Clean paths *)

Definition components (path : string) : list string :=
  map string_of_list_ascii (split_slash (list_ascii_of_string path) []).

Definition kept (path : string) : list string :=
  reverse (clean_components (String.prefix "/" path) (components path) []).

(** The directory that [Clean] puts before a further component, if any. *)
Definition directory (path : string) : option string :=
  match String.prefix "/" path, kept path with
  | true, [] => Some ""
  | true, out => Some ("/" ++ String.concat "/" out)
  | false, [] => None
  | false, out => Some (String.concat "/" out)
  end.

Lemma components_join p e : free_of "/" e -> components (p ++ "/" ++ e) = (components p ++ [e])%list.
Proof.
  intros He. unfold components. rewrite !chars_app.
  change (list_ascii_of_string "/" ++ list_ascii_of_string e)%list with ("/"%char :: list_ascii_of_string e).
  rewrite split_slash_join, (split_slash_last (list_ascii_of_string e)) by exact He.
  rewrite map_app. cbn [map app]. by rewrite string_of_list_ascii_of_string.
Qed.

Lemma clean_components_snoc rooted e : e <> "" -> e <> "." -> e <> ".." -> forall cs out,
  clean_components rooted (cs ++ [e]) out = e :: clean_components rooted cs out.
Proof.
  intros H1 H2 H3. induction cs as [|c cs IH]; intros out; cbn [app clean_components].
  - rewrite (proj2 (String.eqb_neq _ _) H1), (proj2 (String.eqb_neq _ _) H2), (proj2 (String.eqb_neq _ _) H3). done.
  - destruct (String.eqb c "" || String.eqb c "."); [apply IH|]. destruct (String.eqb c "..").
    + destruct out as [|top rest]; [apply IH|]. destruct (String.eqb top ".."); apply IH.
    + apply IH.
Qed.

Lemma clean_components_nonempty rooted cs : forall out, Forall (fun c => c <> "") out ->
  Forall (fun c => c <> "") (clean_components rooted cs out).
Proof.
  induction cs as [|c cs IH]; intros out Hout; cbn [clean_components]; [done|].
  destruct (String.eqb_spec c ""); [by apply IH|]. destruct (String.eqb c "."); cbn [orb]; [by apply IH|].
  destruct (String.eqb c "..").
  - destruct Hout as [|top rest Ht Hr]; [apply IH; destruct rooted; by constructor|].
    destruct (String.eqb top ".."); apply IH; [|done]. by repeat constructor.
  - apply IH. by constructor.
Qed.

Lemma concat_snoc l e : String.concat "/" (l ++ [e]) = match l with [] => e | _ => String.concat "/" l ++ "/" ++ e end.
Proof.
  induction l as [|x l IH]; [done|]. destruct l as [|y l]; [done|].
  change (String.concat "/" ((x :: y :: l) ++ [e])) with (x ++ "/" ++ String.concat "/" ((y :: l) ++ [e])).
  rewrite IH. change (String.concat "/" (x :: y :: l)) with (x ++ "/" ++ String.concat "/" (y :: l)).
  by rewrite !string_app_assoc.
Qed.

Lemma concat_nonempty l : l <> [] -> Forall (fun c => c <> "") l -> String.concat "/" l <> "".
Proof.
  intros Hl Hne. destruct Hne as [|x l Hx _]; [done|]. destruct x as [|c x]; [done|]. by destruct l.
Qed.

Lemma kept_nonempty path : Forall (fun c => c <> "") (kept path).
Proof. unfold kept. apply Forall_reverse, clean_components_nonempty, Forall_nil_2. Qed.

Lemma prefix_slash_app p q : p <> "" -> String.prefix "/" (p ++ q) = String.prefix "/" p.
Proof. destruct p as [|c p]; [done|]. intros _. destruct p as [|d p]; [by destruct q|reflexivity]. Qed.

(** The clean form of a path with one more component. *)
Lemma Clean_join p e : p <> "" -> free_of "/" e -> e <> "" -> e <> "." -> e <> ".." ->
  Clean (p ++ "/" ++ e) = match directory p with None => e | Some d => d ++ "/" ++ e end.
Proof.
  intros Hp He H1 H2 H3. unfold Clean. rewrite prefix_slash_app by done.
  change (map string_of_list_ascii _) with (components (p ++ "/" ++ e)). rewrite components_join by done.
  rewrite clean_components_snoc by done. rewrite reverse_cons.
  change (reverse (clean_components _ _ _)) with (kept p). unfold directory. rewrite concat_snoc.
  pose proof (kept_nonempty p) as Hk. destruct (kept p) as [|x l] eqn:Hkept.
  - destruct (String.prefix "/" p); [done|]. by rewrite (proj2 (String.eqb_neq _ _) H1).
  - destruct (String.prefix "/" p); [by rewrite string_app_assoc|].
    destruct (String.eqb_spec (String.concat "/" (x :: l) ++ "/" ++ e) "") as [H|]; [|done].
    exfalso. apply (concat_nonempty (x :: l)); [done|done|]. by destruct (String.concat "/" (x :: l)).
Qed.

(** ... determines the clean form of the path. *)
Lemma Clean_of_directory p : Clean p = match directory p with None => "." | Some "" => "/" | Some d => d end.
Proof.
  unfold Clean, directory. change (reverse (clean_components _ _ _)) with (kept p).
  pose proof (kept_nonempty p) as Hk. destruct (kept p) as [|x l] eqn:Hkept; [by destruct (String.prefix "/" p)|].
  destruct (String.prefix "/" p); [done|].
  destruct (String.eqb_spec (String.concat "/" (x :: l)) "") as [H|].
  - by destruct (concat_nonempty (x :: l)).
  - by destruct (String.concat "/" (x :: l)).
Qed.

Lemma last_slash_inj d d' e e' : Forall (fun c : ascii => c <> "/"%char) e -> Forall (fun c : ascii => c <> "/"%char) e' ->
  (d ++ "/"%char :: e = d' ++ "/"%char :: e')%list -> d = d' /\ e = e'.
Proof.
  intros He He' H. assert (e = e') as ->; [|by apply app_inv_tail in H].
  apply (f_equal reverse) in H. rewrite !reverse_app, !reverse_cons, <-!app_assoc in H. cbn [app] in H.
  apply (inj reverse). apply Forall_reverse in He, He'. revert H He He'. generalize (reverse e), (reverse e').
  intros l. induction l as [|c l IH]; intros [|c' l']; cbn; intros H Hl Hl'; simplify_eq; try (by inversion Hl); try (by inversion Hl').
  f_equal. apply Forall_cons_1 in Hl as [_ Hl], Hl' as [_ Hl']. by apply (IH l').
Qed.

Lemma no_slash_inside d (e x : list ascii) : Forall (fun c : ascii => c <> "/"%char) e -> e <> (d ++ "/"%char :: x)%list.
Proof. intros He ->. apply Forall_app in He as [_ He]. by apply Forall_cons_1 in He as [? _]. Qed.

Lemma Clean_join_inj p p' e e' : Forall (fun x => x <> "" /\ x <> "." /\ x <> ".." /\ free_of "/" x) [e; e'] ->
  p <> "" -> p' <> "" -> Clean (p ++ "/" ++ e) = Clean (p' ++ "/" ++ e') -> Clean p = Clean p' /\ e = e'.
Proof.
  intros [(N1 & N2 & N3 & He) [(M1 & M2 & M3 & He') _]%Forall_cons_1]%Forall_cons_1 Hp Hp'.
  rewrite !Clean_join by done. rewrite (Clean_of_directory p), (Clean_of_directory p').
  intros H. apply (f_equal list_ascii_of_string) in H.
  destruct (directory p) as [d|], (directory p') as [d'|]; rewrite ?chars_app in H.
  - apply last_slash_inj in H as [->%string_chars_inj ->%string_chars_inj]; done.
  - by destruct (no_slash_inside _ _ _ He' (eq_sym H)).
  - by destruct (no_slash_inside _ _ _ He H).
  - split; [done|]. by apply string_chars_inj.
Qed.

(** ** The directories of the shards *)

Lemma shard_name_slash_free i : 0 <= i -> free_of "/" ("shard-" ++ format_04d i).
Proof.
  intros Hi. unfold free_of, format_04d. rewrite chars_app, list_ascii_of_string_of_list_ascii. apply Forall_app. split.
  - apply (bool_decide_unpack _). vm_compute. exact I.
  - unfold pad_left. apply Forall_app. split; [apply Forall_replicate; discriminate|].
    eapply Forall_impl; [by apply dec_chars_digits|]. intros c Hc ->. vm_compute in Hc. by destruct Hc.
Qed.

Lemma shardPath_inj p p' i i' : p <> "" -> p' <> "" -> u32 i -> u32 i' -> shardPath p i = shardPath p' i' ->
  Clean p = Clean p' /\ i = i'.
Proof.
  intros Hp Hp' Hi Hi'. unfold shardPath, Join. rewrite (proj2 (String.eqb_neq _ _) Hp), (proj2 (String.eqb_neq _ _) Hp').
  intros H. unfold in_u in *. apply Clean_join_inj in H as [Hc He]; [|apply Forall_cons_2; [|apply Forall_cons_2; [|apply Forall_nil_2]]|done|done].
  - split; [done|]. apply (f_equal list_ascii_of_string) in He. rewrite !chars_app in He. apply app_inv_head in He.
    apply string_chars_inj in He. apply format_04d_inj in He; unfold in_u; lia.
  - split_and!; [discriminate..|apply shard_name_slash_free; lia].
  - split_and!; [discriminate..|apply shard_name_slash_free; lia].
Qed.

Lemma slash_not_digit : ~ is_dec "/".
Proof. unfold is_dec. vm_compute. intros [H _]. by apply H. Qed.

(** A shard key ends in the number behind its last slash. *)
Lemma shardKey_last_inj a a' i i' : u32 i -> u32 i' -> shardKey a i = shardKey a' i' -> a = a' /\ i = i'.
Proof.
  intros Hi Hi' H. unfold in_u in *. apply (f_equal list_ascii_of_string) in H. unfold shardKey in H. rewrite !chars_app in H.
  apply last_slash_inj in H as [->%string_chars_inj H%string_chars_inj].
  - split; [done|]. apply FormatUint_inj in H; unfold in_u; lia.
  - apply (digits_free _ "/"), slash_not_digit. apply digits_format. lia.
  - apply (digits_free _ "/"), slash_not_digit. apply digits_format. lia.
Qed.

(** ** What is opened *)

Section Opened.
Context {W : Type} (mkdirAll open close : string -> act W string unit).
Context (stores : list StoreSpec) (metadataPath legacyDB : string).

(** The shards of the configuration and the database each is in. *)
Inductive shard_in : string -> string -> Prop :=
| shard_own spec i : spec ∈ stores -> 0 <= i < stShards spec -> shard_in (shardKey (stID spec) (wrap32 i)) (shardPath (stPath spec) i)
| shard_legacy : shard_in (shardKey DefaultStoreID 0) legacyDB.

Definition justified (s : objectStore) : Prop := forall k db, osShards s !! k = Some db -> shard_in k db.

Lemma open_shards_step spec i ids out w w' out' : spec ∈ stores -> 0 <= i < stShards spec -> osLegacyDB out = legacyDB ->
  open_shards mkdirAll open close spec (i :: ids) out w = (w', Ok out') ->
  exists db out1 w1, shard_in (shardKey (stID spec) (wrap32 i)) db /\ osLegacyDB out1 = legacyDB /\
    osShards out1 = <[shardKey (stID spec) (wrap32 i) := db]> (osShards out) /\
    open_shards mkdirAll open close spec ids out1 w1 = (w', Ok out').
Proof.
  intros Hspec Hi Hl. cbn [open_shards]. destruct (_ && _ && _ && _) eqn:Hcond.
  - intros Hr. rewrite !andb_true_iff, String.eqb_eq, !Z.eqb_eq in Hcond. destruct Hcond as [[[_ Hid%String.eqb_eq] _] ->].
    do 3 eexists. split; [rewrite Hid; apply shard_legacy|]. split; [|split; [|exact Hr]]; [exact Hl|]. cbn. by rewrite Hl.
  - destruct (mkdirAll _ w) as [w1 []]; [|done..]. destruct (open _ w1) as [w2 []]; [|done..]. intros Hr.
    do 3 eexists. split; [by apply shard_own|]. split; [|split; [|exact Hr]]; [exact Hl|done].
Qed.

Lemma open_shards_ok spec ids : spec ∈ stores -> Forall (fun i => 0 <= i < stShards spec) ids ->
  forall out w w' out', osLegacyDB out = legacyDB -> justified out ->
  open_shards mkdirAll open close spec ids out w = (w', Ok out') ->
  justified out' /\ osLegacyDB out' = legacyDB /\ dom (osShards out) ⊆ dom (osShards out') /\
  Forall (fun i => shardKey (stID spec) (wrap32 i) ∈ dom (osShards out')) ids.
Proof.
  intros Hspec. induction ids as [|i ids IH]; intros Hids out w w' out' Hl Hj.
  { cbn [open_shards]. intros [= <- <-]. split_and!; [done|done|done|apply Forall_nil_2]. }
  apply Forall_cons_1 in Hids as [Hi Hids]. intros Hr.
  destruct (open_shards_step _ _ _ _ _ _ _ Hspec Hi Hl Hr) as (db & out1 & w1 & Hdb & Hl1 & Hs1 & Hr1).
  assert (justified out1) as Hj1.
  { intros k db'. rewrite Hs1. intros [[<- <-]|[_ Hk]]%lookup_insert_Some; [done|]. by apply Hj. }
  destruct (IH Hids _ _ _ _ Hl1 Hj1 Hr1) as (Hj' & Hl' & Hd & Hall).
  rewrite Hs1, dom_insert in Hd. split_and!; [done|done|set_solver|]. apply Forall_cons_2; [set_solver|done].
Qed.

Lemma open_stores_ok specs : specs ⊆ stores -> forall out w w' out', osLegacyDB out = legacyDB -> justified out ->
  open_stores mkdirAll open close specs out w = (w', Ok out') ->
  justified out' /\ dom (osShards out) ⊆ dom (osShards out') /\
  forall spec i, spec ∈ specs -> 0 <= i < stShards spec -> shardKey (stID spec) (wrap32 i) ∈ dom (osShards out').
Proof.
  induction specs as [|spec specs IH]; intros Hsub out w w' out' Hl Hj; cbn [open_stores].
  { intros [= <- <-]. split_and!; [done|done|]. intros ? ? []%not_elem_of_nil. }
  destruct (open_shards _ _ _ spec _ out w) as [w1 [out1| |]] eqn:H1; [|done..].
  apply (open_shards_ok spec) in H1 as (Hj1 & Hl1 & Hd1 & Hall1); [|apply Hsub, list_elem_of_here| |done|done].
  2: { apply Forall_forall. intros i Hi%elem_of_seqZ. lia. }
  intros Hr. destruct (IH ltac:(set_solver) _ _ _ _ Hl1 Hj1 Hr) as (Hj' & Hd & Hall).
  split_and!; [done|set_solver|]. intros spec' i [->|Hin]%elem_of_cons Hi; [|by apply Hall].
  apply Hd. rewrite Forall_forall in Hall1. apply Hall1, elem_of_seqZ. lia.
Qed.

(** Opening succeeds when making and opening directories does. *)
Lemma open_stores_live specs : (forall path w, exists w', mkdirAll path w = (w', Ok tt)) ->
  (forall path w, exists w', open path w = (w', Ok tt)) -> forall out w,
  exists w' out', open_stores mkdirAll open close specs out w = (w', Ok out').
Proof.
  intros Hm Ho. induction specs as [|spec specs IH]; intros out w; cbn [open_stores]; [eauto|].
  enough (exists w' out', open_shards mkdirAll open close spec (seqZ 0 (stShards spec)) out w = (w', Ok out'))
    as (w1 & out1 & ->) by apply IH.
  revert out w. induction (seqZ 0 (stShards spec)) as [|i ids IHi]; intros out w; cbn [open_shards]; [eauto|].
  destruct (_ && _ && _ && _); [apply IHi|]. destruct (Hm (shardPath (stPath spec) i) w) as (w1 & ->).
  destruct (Ho (shardPath (stPath spec) i) w1) as (w2 & ->). apply IHi.
Qed.

(** Distinct directories: two shards in one database are one shard. *)
Lemma shard_in_inj k k' db : specs_ok stores -> Forall (fun s => stShards s <= 2 ^ 32) stores ->
  (forall spec i, spec ∈ stores -> 0 <= i < stShards spec -> shardPath (stPath spec) i <> legacyDB) ->
  shard_in k db -> shard_in k' db -> k = k'.
Proof.
  intros [_ Hpaths Heach] Hw Hleg. rewrite Forall_forall in Heach, Hw. intros H H'. destruct H as [s i Hs Hi|].
  - remember (shardPath (stPath s) i) as d eqn:Hd. destruct H' as [s' i' Hs' Hi'|]; [|by destruct (Hleg s i)].
    pose proof (Hw s Hs). pose proof (Hw s' Hs'). destruct (Heach s Hs) as (_ & _ & ? & _), (Heach s' Hs') as (_ & _ & ? & _).
    apply shardPath_inj in Hd as [Hc ->]; [|done|done|unfold in_u; lia..].
    by rewrite (key_determines _ _ _ _ Hpaths Hs Hs' (eq_sym Hc)).
  - remember legacyDB as d eqn:Hd. destruct H' as [s' i' Hs' Hi'|]; [by destruct (Hleg s' i')|done].
Qed.

End Opened.

(** The shards a data node opens from a well-formed configuration are kept apart.  When directories can be
    made and opened and none of them is that of the metadata database, opening succeeds; every shard of the
    configuration is then routed to a database, and no two shards to the same one. *)
Theorem opened_shards_apart {W} (mkdirAll open close : string -> act W string unit) (stores : list StoreSpec)
    (metadataPath legacyDB : string) (w : W) :
  specs_ok stores -> Forall (fun s => stShards s <= 2 ^ 32) stores ->
  (forall path w, exists w', mkdirAll path w = (w', Ok tt)) -> (forall path w, exists w', open path w = (w', Ok tt)) ->
  (forall spec i, spec ∈ stores -> 0 <= i < stShards spec -> shardPath (stPath spec) i <> legacyDB) ->
  exists w' s, newObjectStore mkdirAll open close metadataPath legacyDB stores w = (w', Ok s) /\ shards_apart s /\
    forall spec i, spec ∈ stores -> 0 <= i < stShards spec -> is_Some (osShards s !! shardKey (stID spec) i).
Proof.
  intros Hok Hw Hm Ho Hleg. unfold newObjectStore.
  destruct (open_stores_live mkdirAll open close stores Hm Ho (mkObjectStore (Clean metadataPath) legacyDB ∅ ∅ [] ∅ ∅ 0) w) as (w' & s & Hs).
  exists w', s. split; [done|].
  apply (open_stores_ok mkdirAll open close stores legacyDB) in Hs as (Hj & _ & Hall); [|done|done|by intros k db; cbn; rewrite lookup_empty].
  split.
  - intros k k' db Hk Hk'. eapply (shard_in_inj stores legacyDB); eauto.
  - intros spec i Hspec Hi. rewrite Forall_forall in Hw. pose proof (Hw _ Hspec). apply elem_of_dom.
    rewrite <-(wrap32_small i) by (unfold in_u; lia). by apply Hall.
Qed.

(** ** From a configuration to a chunk that reads back *)

(** What a configuration needs beyond being accepted: names without separators, numbers that fit, and a metadata
    database of its own. *)
Record deployable (stores : list StoreSpec) (legacyDB : string) : Prop := {
  dp_names : Forall (fun s => free_of ":" (stID s) /\ free_of "/" (stID s)) stores;
  dp_shards : Forall (fun s => stShards s < 2 ^ 32) stores;
  dp_weights : weights stores < 2 ^ 63;
  dp_metadata spec i : spec ∈ stores -> 0 <= i < stShards spec -> shardPath (stPath spec) i <> legacyDB }.

Lemma weights_eligible states stores : Forall (fun s => 0 <= stWeight s) stores ->
  weights (eligible states stores) <= weights stores.
Proof.
  unfold eligible. induction 1 as [|s stores Hs _ IH]; [done|]. cbn [List.filter].
  destruct (_ && _); cbn [weights]; lia.
Qed.

Section Runtimes.
Context {W : Type} (mkdirAll open close : string -> act W string unit).

Lemma open_shards_runtimes spec ids : forall out w w' out',
  open_shards mkdirAll open close spec ids out w = (w', Ok out') -> osRuntimes out' = osRuntimes out.
Proof.
  induction ids as [|i ids IH]; intros out w w' out'; cbn [open_shards]; [by intros [= <- <-]|].
  destruct (_ && _ && _ && _); [by intros ->%IH|].
  destruct (mkdirAll _ w) as [w1 []]; [|done..]. destruct (open _ w1) as [w2 []]; [|done..]. by intros ->%IH.
Qed.

Lemma open_stores_runtimes specs : forall out w w' out',
  open_stores mkdirAll open close specs out w = (w', Ok out') -> osRuntimes out' = osRuntimes out.
Proof.
  induction specs as [|spec specs IH]; intros out w w' out'; cbn [open_stores]; [by intros [= <- <-]|].
  destruct (open_shards _ _ _ spec _ out w) as [w1 [out1| |]] eqn:H1; [|done..].
  intros ->%IH. by apply open_shards_runtimes in H1.
Qed.

Lemma new_store_community metadataPath legacyDB stores w w' s :
  newObjectStore mkdirAll open close metadataPath legacyDB stores w = (w', Ok s) -> community s.
Proof.
  intros Hr%open_stores_runtimes. unfold community. rewrite Hr. cbn. apply map_Forall_empty.
Qed.

End Runtimes.

(** A reference the planner returns is served by a node with these stores. *)
Lemma planned_served stores legacyDB states s prefix v l c ref : specs_ok stores -> deployable stores legacyDB ->
  (forall spec i, spec ∈ stores -> 0 <= i < stShards spec -> is_Some (osShards s !! shardKey (stID spec) i)) ->
  free_of ":" prefix -> free_of "/" prefix -> u64 c ->
  ChoosePhysicalChunkRef stores states v l c = Ok ref -> served s prefix ref.
Proof.
  intros Hok Hdep Hall Hp1 Hp2 Hc Hch. pose proof (so_each _ Hok) as Heach. pose proof (dp_shards _ _ Hdep) as Hsh.
  assert (weights (eligible states stores) < 2 ^ 63) as Hw.
  { eapply Z.le_lt_trans; [|exact (dp_weights _ _ Hdep)]. apply weights_eligible. eapply Forall_impl; [exact Heach|]. cbn. tauto. }
  assert (Forall (fun s => 0 < stShards s < 2 ^ 32) stores) as Hsh2.
  { apply Forall_forall. intros x Hx. rewrite Forall_forall in Heach, Hsh. specialize (Heach x Hx). specialize (Hsh x Hx). cbn in *. tauto. }
  pose proof (planner_chooses_eligible stores states v l c Hw Hsh2) as H. rewrite Hch in H.
  destruct H as (spec & Hspec & _ & _ & Hid & Hshard & Hchunk).
  pose proof (dp_names _ _ Hdep) as Hn. rewrite Forall_forall in Hn, Heach, Hsh.
  specialize (Hn spec Hspec) as [? ?]. specialize (Heach spec Hspec) as (? & ? & _). specialize (Hsh spec Hspec). cbn beta in Hsh.
  split_and!; [done|done| |rewrite Hid; by apply Hall].
  split; [rewrite Hid; by split_and!|]. rewrite Hchunk. split; [unfold in_u; lia|done].
Qed.

(** C18: a chunk placed by a configured data node reads back.  For a configuration that normalizes, whose store names
    hold no colon or slash, whose shard numbers and weights fit and whose shards do not use the path of the metadata
    database, once its directories are open, the planner's reference for a new chunk can be written; reading it returns
    the payload, or fails to decode it exactly when the payload looks like a compressed envelope; and whatever any other
    planned reference read before, it still reads. *)
Theorem planned_chunk_reads_back {W} (pebble : Pebble W) (contents : W -> string -> gmap string bytes)
    `{!PebbleLaws pebble contents} (mkdirAll open close : string -> act W string unit) (raw stores : list StoreSpec)
    (metadataPath legacyDB : string) (w : W) (states : gmap string string) (prefix : string) (v l c : Z) (value : bytes) :
  raw <> [] -> normalizeStoreSpecs "" raw = Ok stores -> deployable stores legacyDB ->
  (forall path w, exists w', mkdirAll path w = (w', Ok tt)) -> (forall path w, exists w', open path w = (w', Ok tt)) ->
  free_of ":" prefix -> free_of "/" prefix -> u64 c ->
  exists w1 s, newObjectStore mkdirAll open close metadataPath legacyDB stores w = (w1, Ok s) /\
    forall ref, ChoosePhysicalChunkRef stores states v l c = Ok ref ->
    let key := Store.buildPhysicalChunkKey prefix ref in
    exists n', Put pebble key value (mkNode s w1) = (n', Ok tt) /\
      (Get pebble key n').2 = (if Compress.IsEnvelope value || Compress.IsLegacyEnvelope value
                               then Err (DecodeFailed key Compress.ErrEnterpriseOnly) else Ok (Some value)) /\
      forall states' prefix' v' l' c' ref', free_of ":" prefix' -> free_of "/" prefix' -> u64 c' ->
        ChoosePhysicalChunkRef stores states' v' l' c' = Ok ref' -> (prefix', ref') <> (prefix, ref) ->
        (Get pebble (Store.buildPhysicalChunkKey prefix' ref') n').2
        = (Get pebble (Store.buildPhysicalChunkKey prefix' ref') (mkNode s w1)).2.
Proof.
  intros Hne Hn Hdep Hm Ho Hp1 Hp2 Hc. destruct (normalize_fixed _ _ Hne Hn) as (Hok & _).
  assert (Forall (fun s => stShards s <= 2 ^ 32) stores) as Hsh
    by (eapply Forall_impl; [exact (dp_shards _ _ Hdep)|]; cbn; lia).
  destruct (opened_shards_apart mkdirAll open close stores metadataPath legacyDB w Hok Hsh Hm Ho (dp_metadata _ _ Hdep))
    as (w1 & s & Hs & Hap & Hall).
  exists w1, s. split; [done|]. intros ref Href key. pose proof (new_store_community _ _ _ _ _ _ _ _ _ Hs) as Hcom.
  pose proof (planned_served _ _ _ s prefix _ _ _ _ Hok Hdep Hall Hp1 Hp2 Hc Href) as Hsrv.
  destruct (local_chunk_read_back pebble contents (mkNode s w1) prefix prefix ref ref value Hap Hcom Hsrv Hsrv)
    as (n' & Hput & Hget & _).
  exists n'. split; [exact Hput|]. split; [exact Hget|]. intros states' prefix' v' l' c' ref' H1 H2 H3 Href' Hdiff.
  pose proof (planned_served _ _ _ s prefix' _ _ _ _ Hok Hdep Hall H1 H2 H3 Href') as Hsrv'.
  destruct (local_chunk_read_back pebble contents (mkNode s w1) prefix prefix' ref ref' value Hap Hcom Hsrv Hsrv')
    as (n2 & Hput2 & _ & Hother).
  rewrite Hput in Hput2. injection Hput2 as <-. by apply Hother.
Qed.

(** ** Names with slashes *)

Lemma first_slash a : ~ free_of "/" a -> exists a1 a2, a = (a1 ++ "/" ++ a2)%string /\ free_of "/" a1.
Proof.
  induction a as [|c a IH]; [intros []; apply Forall_nil_2|]. intros H. destruct (decide (c = "/"%char)) as [->|Hc].
  - exists "", a. split; [done|apply Forall_nil_2].
  - destruct IH as (a1 & a2 & -> & H1); [intros Ha; apply H; by apply Forall_cons_2|].
    exists (String c a1), a2. split; [done|by apply Forall_cons_2].
Qed.

(** The snapshots of the shards read a shard key back exactly when the name of its store has no slash.  A name with
    one is accepted by [normalizeStoreSpecs], and then [ShardSnapshots] fails on the whole node. *)
Theorem shard_key_parses a i : u32 i ->
  (free_of "/" a -> parseShardKey (shardKey a i) = Some (a, i)) /\
  (~ free_of "/" a -> parseShardKey (shardKey a i) = None).
Proof.
  intros Hi. unfold parseShardKey, shardKey. split.
  - intros Ha. unfold in_u in Hi. rewrite (cut_first "/" "" a) by done. rewrite parse_format by (unfold in_u; lia).
    by rewrite (proj2 (Z.ltb_lt _ _)) by lia.
  - intros (a1 & a2 & -> & H1)%first_slash. rewrite !string_app_assoc, (cut_first "/" "" a1) by done.
    unfold ParseUint10. rewrite chars_app. rewrite chars_app, !forallb_app.
    change (forallb is_digit (list_ascii_of_string "/")) with false. by rewrite andb_false_r, andb_false_r.
Qed.

(** ** Examples *)

Definition instant (_ : string) : act databases string unit := fun w => (w, Ok tt).

Definition sample_raw : list StoreSpec := [mkStoreSpec "" "/data/a/" 2 100; mkStoreSpec "b" "/data/b" 1 0].
Definition sample_specs : list StoreSpec := [mkStoreSpec "store-0" "/data/a/" 2 100; mkStoreSpec "b" "/data/b" 1 0].

Lemma sample_deployable : deployable sample_specs "/data/meta".
Proof.
  split.
  - apply Forall_cons_2; [split; unfold free_of; evaluate|]. apply Forall_cons_2; [split; unfold free_of; evaluate|apply Forall_nil_2].
  - apply Forall_cons_2; [done|]. apply Forall_cons_2; [done|apply Forall_nil_2].
  - done.
  - intros spec i Hs Hi. unfold sample_specs in Hs. apply elem_of_cons in Hs as [->|Hs%list_elem_of_singleton]; [|subst spec]; cbn in Hi.
    + assert (i = 0 \/ i = 1) as [-> | ->] by lia; vm_compute; discriminate.
    + assert (i = 0) as -> by lia. vm_compute. discriminate.
Qed.

Lemma planned_chunk_reads_back_witness :
  exists w1 s, newObjectStore instant instant instant "/data/meta" "/data/meta" sample_specs ∅ = (w1, Ok s) /\
    exists ref n', ChoosePhysicalChunkRef sample_specs ∅ 1 2 3 = Ok ref /\
    Put memory_pebble (Store.buildPhysicalChunkKey "sbs-1" ref) [Byte.x01] (mkNode s w1) = (n', Ok tt) /\
    (Get memory_pebble (Store.buildPhysicalChunkKey "sbs-1" ref) n').2 = Ok (Some [Byte.x01]).
Proof.
  destruct (planned_chunk_reads_back memory_pebble database instant instant instant sample_raw sample_specs "/data/meta" "/data/meta"
              ∅ ∅ "sbs-1" 1 2 3 [Byte.x01]) as (w1 & s & Hs & H);
    [discriminate|vm_compute; reflexivity|exact sample_deployable|by eexists|by eexists|unfold free_of; evaluate|unfold free_of; evaluate
    |unfold in_u; lia|].
  exists w1, s. split; [exact Hs|].
  destruct (ChoosePhysicalChunkRef sample_specs ∅ 1 2 3) as [ref|e|] eqn:Hc; [|vm_compute in Hc; discriminate Hc..].
  destruct (H ref eq_refl) as (n' & H1 & H2 & _). exists ref, n'. split; [done|]. split; [exact H1|exact H2].
Defined.

End StoreOpen.
