(* ===== verification/CachedMetadata.v ===== *)
(** * The metadata cache of a gateway

    Models src/gateway/service/cached_metadata.go: the decorator of a metadata
    repository that keeps volume specifications and extent pages for a while.  The
    wrapped repository is the record [MetadataRepository] of its operations on a
    state [S] (the interface of repository.go, with the two optional interfaces
    the code asks for by type assertion); [memory_repository] is the in-memory one.

    Every critical section of the cache is one step.  Each method takes the
    readings of the clock it makes, one per call of [time.Now], as a function
    [now] from their number.  An element of the LRU list is identified by its key,
    front first; copies of pages are values. *)

From Stdlib Require Import ZArith Lia Ascii String.
From stdpp Require Import base list gmap strings.
From S2P Require Import Prelude GatewayTypes MemoryMetadata.
Open Scope string_scope.
Open Scope Z_scope.

Module CachedMetadata.
Import Gateway.

(** ** The wrapped repository *)

Record MetadataRepository (S : Type) := mkMetadataRepository {
  nEnsureVolume : VolumeSpec -> act S svc_error unit;
  nCreateVolume : VolumeCreateRequest -> act S svc_error VolumeSpec;
  nUpdateVolume : Z -> VolumeUpdateRequest -> act S svc_error VolumeSpec;
  nDeleteVolume : Z -> act S svc_error unit;
  nGetVolume : Z -> act S svc_error VolumeSpec;
  nGetVolumeStatus : Z -> act S svc_error VolumeStatusRecord;
  nPutVolumeStatus : VolumeStatusRecord -> act S svc_error unit;
  nListVolumes : act S svc_error (list VolumeSpec);
  nSetVolumeState : Z -> VolumeLifecycleState -> act S svc_error VolumeSpec;
  nGetAttachment : Z -> act S svc_error AttachmentRecord;
  nGetGeneration : Z -> act S svc_error Z;
  nUnsafeClearAttachment : Z -> act S svc_error AttachmentRecord;
  nUnsafeSetGeneration : Z -> Z -> act S svc_error Z;
  nAttach : AttachRequest -> act S svc_error AttachmentRecord;
  nDetach : DetachRequest -> act S svc_error AttachmentRecord;
  nGetGateway : string -> act S svc_error GatewayRecord;
  nListGateways : act S svc_error (list GatewayRecord);
  nPutGateway : GatewayRecord -> act S svc_error unit;
  nGetExtentPage : Z -> Z -> act S svc_error AllocationPageRecord;
  nListExtentPages : Z -> act S svc_error (list AllocationPageRecord);
  nPutExtentPage : AllocationPageRecord -> Z -> act S svc_error AllocationPageRecord;
  nAllocateChunkIDs : Z -> Z -> act S svc_error Z;
  nPutChunkGarbage : AllocationChunkGarbageRecord -> act S svc_error unit;
  nListChunkGarbage : Z -> Z -> act S svc_error (list AllocationChunkGarbageRecord);
  nDeleteChunkGarbage : Z -> Z -> act S svc_error unit;
  nSyncVolumeSpec : option (VolumeSpec -> act S svc_error unit);
  nRefreshVolume : option (Z -> act S svc_error VolumeSpec) }.
Arguments nEnsureVolume {S} _.
Arguments nCreateVolume {S} _.
Arguments nUpdateVolume {S} _.
Arguments nDeleteVolume {S} _.
Arguments nGetVolume {S} _.
Arguments nGetVolumeStatus {S} _.
Arguments nPutVolumeStatus {S} _.
Arguments nListVolumes {S} _.
Arguments nSetVolumeState {S} _.
Arguments nGetAttachment {S} _.
Arguments nGetGeneration {S} _.
Arguments nUnsafeClearAttachment {S} _.
Arguments nUnsafeSetGeneration {S} _.
Arguments nAttach {S} _.
Arguments nDetach {S} _.
Arguments nGetGateway {S} _.
Arguments nListGateways {S} _.
Arguments nPutGateway {S} _.
Arguments nGetExtentPage {S} _.
Arguments nListExtentPages {S} _.
Arguments nPutExtentPage {S} _.
Arguments nAllocateChunkIDs {S} _.
Arguments nPutChunkGarbage {S} _.
Arguments nListChunkGarbage {S} _.
Arguments nDeleteChunkGarbage {S} _.
Arguments nSyncVolumeSpec {S} _.
Arguments nRefreshVolume {S} _.

(** The repository of memory_metadata.go, with its random source, clock and map order. *)
Definition memory_repository (rand : nat -> option Z) (unix : Z) (order : list VolumeSpec -> list VolumeSpec)
  : MetadataRepository MemMeta.Repo :=
  mkMetadataRepository MemMeta.Repo MemMeta.EnsureVolume (MemMeta.CreateVolume rand) MemMeta.UpdateVolume
    MemMeta.DeleteVolume MemMeta.GetVolume MemMeta.GetVolumeStatus MemMeta.PutVolumeStatus (MemMeta.ListVolumes order)
    MemMeta.SetVolumeState MemMeta.GetAttachment MemMeta.GetGeneration MemMeta.UnsafeClearAttachment
    MemMeta.UnsafeSetGeneration (MemMeta.Attach unix) MemMeta.Detach MemMeta.GetGateway MemMeta.ListGateways
    MemMeta.PutGateway MemMeta.GetExtentPage MemMeta.ListExtentPages MemMeta.PutExtentPage MemMeta.AllocateChunkIDs
    (MemMeta.PutChunkGarbage unix) MemMeta.ListChunkGarbage MemMeta.DeleteChunkGarbage
    (Some MemMeta.SyncVolumeSpec) None.

(** ** The cache *)

Definition defaultExtentPageCacheEntries : Z := 4096.

Record cachedVolumeSpec := mkCachedVolumeSpec { cvSpec : VolumeSpec; cvExpiresAt : Z }.
Record cachedExtentPage := mkCachedExtentPage { cePage : AllocationPageRecord; ceExpiresAt : Z }.

(** Keys of pages: the volume and the page number. *)
Definition extentPageCacheKey : Type := Z * Z.

Record cache := mkCache {
  volumeCache : gmap Z cachedVolumeSpec;
  extentPageCache : gmap (Z * Z) cachedExtentPage;
  extentPageLRU : list (Z * Z);
  volumePages : gmap Z (gset Z) }.

#[export] Instance cache_settable : Settable cache := fun c =>
  mkCache (volumeCache c) (extentPageCache c) (extentPageLRU c) (volumePages c).

Definition empty_cache : cache := mkCache ∅ ∅ [] ∅.

(** [container/list]: remove an element, and move one to the front. *)
Definition lru_remove (key : Z * Z) (lru : list (Z * Z)) : list (Z * Z) :=
  List.filter (fun k => negb (bool_decide (k = key))) lru.
Definition move_to_front (key : Z * Z) (lru : list (Z * Z)) : list (Z * Z) := key :: lru_remove key lru.

Definition removeExtentPageLocked (key : Z * Z) (c : cache) : cache :=
  let c := c <| extentPageCache := delete key (extentPageCache c) |> <| extentPageLRU := lru_remove key (extentPageLRU c) |> in
  match volumePages c !! key.1 with
  | None => c
  | Some pages =>
      let pages := pages ∖ {[key.2]} in
      if bool_decide (pages = ∅) then c <| volumePages := delete key.1 (volumePages c) |>
      else c <| volumePages := <[key.1 := pages]> (volumePages c) |>
  end.

(** The pages of a volume, in the order of [elements]; the order does not matter. *)
Definition invalidateExtentPagesLocked (volumeID : Z) (c : cache) : cache :=
  match volumePages c !! volumeID with
  | None => c
  | Some pageNos =>
      let c := fold_left (fun c pageNo =>
                 let key := (volumeID, pageNo) in
                 match extentPageCache c !! key with
                 | Some _ => removeExtentPageLocked key c
                 | None => c
                 end) (elements pageNos) c in
      c <| volumePages := delete volumeID (volumePages c) |>
  end.

Definition invalidate (volumeID : Z) (c : cache) : cache :=
  invalidateExtentPagesLocked volumeID (c <| volumeCache := delete volumeID (volumeCache c) |>).

Definition load (now : Z) (volumeID : Z) (c : cache) : option VolumeSpec :=
  match volumeCache c !! volumeID with
  | Some entry => if cvExpiresAt entry <? now then None else Some (cvSpec entry)
  | None => None
  end.

Definition store (ttl now : Z) (spec : VolumeSpec) (c : cache) : cache :=
  c <| volumeCache := <[vID spec := mkCachedVolumeSpec spec (now + ttl)]> (volumeCache c) |>.

Definition loadExtentPage (now : Z) (volumeID pageNo : Z) (c : cache) : cache * option AllocationPageRecord :=
  let key := (volumeID, pageNo) in
  match extentPageCache c !! key with
  | None => (c, None)
  | Some entry =>
      if ceExpiresAt entry <? now then (removeExtentPageLocked key c, None)
      else (c <| extentPageLRU := move_to_front key (extentPageLRU c) |>, Some (cePage entry))
  end.

(** Elements are taken from the back while there are too many. *)
Fixpoint evict (fuel : nat) (maxExtentPages : Z) (c : cache) : cache :=
  match fuel with
  | O => c
  | S fuel =>
      if (0 <? maxExtentPages) && (maxExtentPages <? zlen (extentPageLRU c))
      then match last (extentPageLRU c) with
           | None => c
           | Some back => evict fuel maxExtentPages (removeExtentPageLocked back c)
           end
      else c
  end.

Definition storeExtentPage (ttl maxExtentPages now : Z) (page : AllocationPageRecord) (c : cache) : cache :=
  let key := (pVolumeID page, pPageNo page) in
  let entry := mkCachedExtentPage page (now + ttl) in
  match extentPageCache c !! key with
  | Some _ => c <| extentPageCache := <[key := entry]> (extentPageCache c) |>
                <| extentPageLRU := move_to_front key (extentPageLRU c) |>
  | None =>
      let c := c <| extentPageLRU := key :: extentPageLRU c |>
                 <| extentPageCache := <[key := entry]> (extentPageCache c) |>
                 <| volumePages := <[pVolumeID page := {[pPageNo page]} ∪ default ∅ (volumePages c !! pVolumeID page)]>
                                     (volumePages c) |> in
      evict (length (extentPageLRU c)) maxExtentPages c
  end.

(** ** The methods *)

Section Methods.
Context {S : Type} (next : MetadataRepository S) (ttl maxExtentPages : Z).
Open Scope act_scope.

(** The cache and the state of the wrapped repository. *)
Record cached := mkCached { cdCache : cache; cdNext : S }.

Definition cop (A : Type) := act cached svc_error A.

Definition down {A} (m : act S svc_error A) : cop A := fun s =>
  let '(n, r) := m (cdNext s) in (mkCached (cdCache s) n, r).

Definition on_cache (f : cache -> cache) : cop unit := fun s => (mkCached (f (cdCache s)) (cdNext s), Ok tt).

Definition EnsureVolume (spec : VolumeSpec) : cop unit :=
  down (nEnsureVolume next spec);; on_cache (invalidate (vID spec)).

Definition SyncVolumeSpec (now : nat -> Z) (spec : VolumeSpec) : cop unit :=
  match nSyncVolumeSpec next with
  | Some sync => down (sync spec)
  | None => down (nEnsureVolume next spec)
  end;;
  on_cache (store ttl (now 0%nat) (NormalizeVolumeSpec spec)).

Definition CreateVolume (now : nat -> Z) (req : VolumeCreateRequest) : cop VolumeSpec :=
  spec <-- down (nCreateVolume next req);
  on_cache (store ttl (now 0%nat) spec);;
  ret_act spec.

Definition UpdateVolume (now : nat -> Z) (volumeID : Z) (req : VolumeUpdateRequest) : cop VolumeSpec :=
  spec <-- down (nUpdateVolume next volumeID req);
  on_cache (store ttl (now 0%nat) spec);;
  ret_act spec.

Definition DeleteVolume (volumeID : Z) : cop unit :=
  down (nDeleteVolume next volumeID);; on_cache (invalidate volumeID).

Definition GetVolume (now : nat -> Z) (volumeID : Z) : cop VolumeSpec := fun s =>
  match load (now 0%nat) volumeID (cdCache s) with
  | Some spec => (s, Ok spec)
  | None => (spec <-- down (nGetVolume next volumeID);
             on_cache (store ttl (now 1%nat) spec);;
             ret_act spec) s
  end.

Definition RefreshVolume (now : nat -> Z) (volumeID : Z) : cop VolumeSpec :=
  spec <-- match nRefreshVolume next with
           | Some refresh => down (refresh volumeID)
           | None => on_cache (invalidate volumeID);; down (nGetVolume next volumeID)
           end;
  on_cache (store ttl (now 0%nat) spec);;
  ret_act spec.

Definition GetVolumeStatus (volumeID : Z) : cop VolumeStatusRecord := down (nGetVolumeStatus next volumeID).

Definition PutVolumeStatus (status : VolumeStatusRecord) : cop unit :=
  down (nPutVolumeStatus next status);; on_cache (invalidate (sVolumeID status)).

Definition ListVolumes : cop (list VolumeSpec) := down (nListVolumes next).

Definition SetVolumeState (now : nat -> Z) (volumeID : Z) (state : VolumeLifecycleState) : cop VolumeSpec :=
  spec <-- down (nSetVolumeState next volumeID state);
  on_cache (store ttl (now 0%nat) spec);;
  ret_act spec.

Definition GetAttachment (volumeID : Z) : cop AttachmentRecord := down (nGetAttachment next volumeID).
Definition GetGeneration (volumeID : Z) : cop Z := down (nGetGeneration next volumeID).

Definition UnsafeClearAttachment (volumeID : Z) : cop AttachmentRecord :=
  rec <-- down (nUnsafeClearAttachment next volumeID);
  on_cache (invalidate volumeID);;
  ret_act rec.

Definition UnsafeSetGeneration (volumeID generation : Z) : cop Z :=
  updated <-- down (nUnsafeSetGeneration next volumeID generation);
  on_cache (invalidate volumeID);;
  ret_act updated.

Definition Attach (req : AttachRequest) : cop AttachmentRecord :=
  rec <-- down (nAttach next req);
  on_cache (invalidate (arVolumeID req));;
  ret_act rec.

Definition Detach (req : DetachRequest) : cop AttachmentRecord :=
  rec <-- down (nDetach next req);
  on_cache (invalidate (drVolumeID req));;
  ret_act rec.

Definition GetGateway (gatewayID : string) : cop GatewayRecord := down (nGetGateway next gatewayID).
Definition ListGateways : cop (list GatewayRecord) := down (nListGateways next).
Definition PutGateway (rec : GatewayRecord) : cop unit := down (nPutGateway next rec).

Definition GetExtentPage (now : nat -> Z) (volumeID pageNo : Z) : cop AllocationPageRecord := fun s =>
  let '(c, found) := loadExtentPage (now 0%nat) volumeID pageNo (cdCache s) in
  let s := mkCached c (cdNext s) in
  match found with
  | Some page => (s, Ok page)
  | None => (page <-- down (nGetExtentPage next volumeID pageNo);
             on_cache (storeExtentPage ttl maxExtentPages (now 1%nat) page);;
             ret_act page) s
  end.

Fixpoint store_pages (now : nat -> Z) (i : nat) (pages : list AllocationPageRecord) (c : cache) : cache :=
  match pages with
  | [] => c
  | page :: pages => store_pages now (Datatypes.S i) pages (storeExtentPage ttl maxExtentPages (now i) page c)
  end.

Definition ListExtentPages (now : nat -> Z) (volumeID : Z) : cop (list AllocationPageRecord) :=
  pages <-- down (nListExtentPages next volumeID);
  on_cache (store_pages now 0 pages);;
  ret_act pages.

Definition PutExtentPage (now : nat -> Z) (rec : AllocationPageRecord) (expectedRevision : Z) : cop AllocationPageRecord :=
  page <-- down (nPutExtentPage next rec expectedRevision);
  on_cache (storeExtentPage ttl maxExtentPages (now 0%nat) page);;
  ret_act page.

Definition AllocateChunkIDs (volumeID count : Z) : cop Z := down (nAllocateChunkIDs next volumeID count).
Definition PutChunkGarbage (rec : AllocationChunkGarbageRecord) : cop unit := down (nPutChunkGarbage next rec).
Definition ListChunkGarbage (volumeID limit : Z) : cop (list AllocationChunkGarbageRecord) :=
  down (nListChunkGarbage next volumeID limit).
Definition DeleteChunkGarbage (volumeID chunkID : Z) : cop unit := down (nDeleteChunkGarbage next volumeID chunkID).

(** The decorated repository. *)
Definition cached_repository (now : nat -> Z) : MetadataRepository cached :=
  mkMetadataRepository cached EnsureVolume (CreateVolume now) (UpdateVolume now) DeleteVolume (GetVolume now)
    GetVolumeStatus PutVolumeStatus ListVolumes (SetVolumeState now) GetAttachment GetGeneration UnsafeClearAttachment
    UnsafeSetGeneration Attach Detach GetGateway ListGateways PutGateway (GetExtentPage now) (ListExtentPages now)
    (PutExtentPage now) AllocateChunkIDs PutChunkGarbage ListChunkGarbage DeleteChunkGarbage
    (Some (SyncVolumeSpec now)) (Some (RefreshVolume now)).

End Methods.
Arguments cached S : clear implicits.
Arguments mkCached {S} _ _.

(** [NewCachedMetadataRepository]: without a time to live there is no cache; else an empty one, of the default size. *)
Definition NewCachedMetadataRepository {S} (ttl : Z) (n : S) : option (cached S) :=
  if ttl <=? 0 then None else Some (mkCached empty_cache n).

End CachedMetadata.
