(* ===== verification/CachedMetadataFacts.v ===== *)
(** * What the metadata cache guarantees

    The bookkeeping of the cache (LRU list, page map and page sets) agrees after
    every call and holds no more pages than the bound; a gateway that is the only
    client of its repository cannot tell whether the cache is there
    ([cache_transparent]); and when another gateway writes, a cached page outlives
    every retry of a write until its time to live is over
    ([stale_page_defeats_retries]). *)

From Stdlib Require Import ZArith Lia Ascii String.
From stdpp Require Import base list gmap strings sorting.
From S2P Require Import Prelude GatewayTypes MemoryMetadata MemoryMetadataFacts CachedMetadata.
Open Scope string_scope.
Open Scope Z_scope.

Module CachedMetadataFacts.
Import Gateway CachedMetadata.

(** ** The bookkeeping *)

Record wf (maxExtentPages : Z) (c : cache) : Prop := {
  wf_nodup : NoDup (extentPageLRU c);
  wf_lru : forall k, k ∈ extentPageLRU c <-> is_Some (extentPageCache c !! k);
  wf_pages : forall v p, p ∈ default ∅ (volumePages c !! v) <-> is_Some (extentPageCache c !! (v, p));
  wf_nonempty : forall v, volumePages c !! v <> Some ∅;
  wf_bound : zlen (extentPageLRU c) <= maxExtentPages }.

Lemma elem_lru_remove k k' lru : k ∈ lru_remove k' lru <-> k ∈ lru /\ k <> k'.
Proof.
  unfold lru_remove. rewrite !list_elem_of_In, filter_In, negb_true_iff, bool_decide_eq_false. done.
Qed.

Lemma nodup_lru_remove k lru : NoDup lru -> NoDup (lru_remove k lru).
Proof. rewrite !NoDup_ListNoDup. apply List.NoDup_filter. Qed.

Lemma lru_remove_length k lru : zlen (lru_remove k lru) <= zlen lru.
Proof.
  unfold zlen, lru_remove. pose proof (List.filter_length_le (fun k' => negb (bool_decide (k' = k))) lru). lia.
Qed.

Lemma lru_remove_in k lru : NoDup lru -> k ∈ lru -> zlen (lru_remove k lru) = zlen lru - 1.
Proof.
  unfold zlen. induction 1 as [|x lru Hx Hnd IH]; [by intros ?%not_elem_of_nil|]. intros [->|Hin]%elem_of_cons; cbn.
  - rewrite bool_decide_eq_true_2 by done. cbn. enough (List.filter (fun k => negb (bool_decide (k = x))) lru = lru) as -> by lia.
    clear IH Hnd. induction lru as [|y lru IH]; [done|]. cbn. apply not_elem_of_cons in Hx as [Hy Hx].
    rewrite bool_decide_eq_false_2 by congruence. cbn. f_equal. by apply IH.
  - rewrite bool_decide_eq_false_2 by (intros ->; done). cbn [negb]. cbn [length]. specialize (IH Hin). unfold lru_remove in IH. lia.
Qed.

Lemma remove_cache k c : extentPageCache (removeExtentPageLocked k c) = delete k (extentPageCache c).
Proof. unfold removeExtentPageLocked. cbn. repeat case_match; done. Qed.

Lemma remove_lru k c : extentPageLRU (removeExtentPageLocked k c) = lru_remove k (extentPageLRU c).
Proof. unfold removeExtentPageLocked. cbn. repeat case_match; done. Qed.

Lemma remove_volumes k c : volumeCache (removeExtentPageLocked k c) = volumeCache c.
Proof. unfold removeExtentPageLocked. cbn. repeat case_match; done. Qed.

Lemma remove_pages k c v : default ∅ (volumePages (removeExtentPageLocked k c) !! v)
  = if decide (v = k.1) then default ∅ (volumePages c !! v) ∖ {[k.2]} else default ∅ (volumePages c !! v).
Proof.
  unfold removeExtentPageLocked. cbn. destruct (volumePages c !! k.1) as [pages|] eqn:Hp.
  - case_bool_decide as He; cbn; destruct (decide (v = k.1)) as [->|].
    + by rewrite lookup_delete_eq, Hp.
    + by rewrite lookup_delete_ne.
    + rewrite lookup_insert_eq, Hp. done.
    + by rewrite lookup_insert_ne.
  - destruct (decide (v = k.1)) as [->|]; [|done]. cbn [volumePages]. rewrite Hp. symmetry. apply empty_difference_L.
Qed.

Lemma remove_nonempty k c : (forall v, volumePages c !! v <> Some ∅) ->
  forall v, volumePages (removeExtentPageLocked k c) !! v <> Some ∅.
Proof.
  intros H v. unfold removeExtentPageLocked. cbn. destruct (volumePages c !! k.1) as [pages|] eqn:Hp; [|apply H].
  case_bool_decide as He; cbn.
  - rewrite lookup_delete. case_decide; [done|apply H].
  - rewrite lookup_insert. case_decide; [congruence|apply H].
Qed.

Lemma wf_remove n k c : wf n c -> wf n (removeExtentPageLocked k c).
Proof.
  intros [Hnd Hl Hp Hne Hb]. split.
  - rewrite remove_lru. by apply nodup_lru_remove.
  - intros k'. rewrite remove_lru, remove_cache, elem_lru_remove, Hl, lookup_delete. case_decide as Hk.
    + split; [intros [_ []]; congruence|by intros []].
    + split; [by intros []|]. intros ?. split; [done|congruence].
  - intros v p. rewrite remove_pages, remove_cache, lookup_delete. destruct k as [kv kp]. cbn [fst snd].
    destruct (decide ((kv, kp) = (v, p))) as [Hk|Hk].
    + injection Hk as -> ->. rewrite decide_True by done. split; [set_solver|by intros []].
    + rewrite <-Hp. case_decide as Hv; [|done]. subst kv.
      rewrite elem_of_difference, elem_of_singleton. split; [by intros []|]. intros ?. split; [done|congruence].
  - by apply remove_nonempty.
  - rewrite remove_lru. pose proof (lru_remove_length k (extentPageLRU c)). lia.
Qed.

(** ** Invalidating a volume *)

Definition drop_page (v : Z) (c : cache) (pageNo : Z) : cache :=
  match extentPageCache c !! (v, pageNo) with
  | Some _ => removeExtentPageLocked (v, pageNo) c
  | None => c
  end.

Lemma drop_page_lookup v pageNo c k :
  extentPageCache (drop_page v c pageNo) !! k = if decide (k = (v, pageNo)) then None else extentPageCache c !! k.
Proof.
  unfold drop_page. destruct (extentPageCache c !! (v, pageNo)) eqn:Hk.
  - rewrite remove_cache, lookup_delete. by repeat case_decide.
  - by case_decide; subst.
Qed.

Lemma drop_pages n v ps : forall c, wf n c -> let c' := fold_left (drop_page v) ps c in
  wf n c' /\ volumeCache c' = volumeCache c /\
  forall k, extentPageCache c' !! k = if decide (k.1 = v /\ k.2 ∈ ps) then None else extentPageCache c !! k.
Proof.
  induction ps as [|p ps IH]; intros c Hc; cbn [fold_left].
  { split_and!; [done|done|]. intros k. rewrite decide_False; [done|]. intros [_ []%not_elem_of_nil]. }
  assert (wf n (drop_page v c p) /\ volumeCache (drop_page v c p) = volumeCache c) as [Hc1 Hv1].
  { unfold drop_page. case_match; [|done]. split; [by apply wf_remove|apply remove_volumes]. }
  destruct (IH _ Hc1) as (Hwf & Hv & Hk). cbn zeta. split_and!; [done|congruence|]. intros k. rewrite Hk, drop_page_lookup.
  destruct k as [kv kp]. cbn [fst snd]. repeat case_decide; try done; set_solver.
Qed.

Lemma invalidate_spec n v c : wf n c ->
  wf n (invalidate v c) /\ volumeCache (invalidate v c) = delete v (volumeCache c) /\
  forall k, extentPageCache (invalidate v c) !! k = if decide (k.1 = v) then None else extentPageCache c !! k.
Proof.
  intros Hc. unfold invalidate, invalidateExtentPagesLocked. cbn [volumePages extentPageCache].
  set (c0 := c <| volumeCache := delete v (volumeCache c) |>).
  assert (wf n c0) as Hc0 by (by destruct Hc; split).
  change (volumePages c0) with (volumePages c). destruct (volumePages c !! v) as [ps|] eqn:Hps.
  - destruct (drop_pages n v (elements ps) c0 Hc0) as (Hwf & Hv & Hk). fold (drop_page v).
    change (fun (c : cache) (pageNo : Z) => match extentPageCache c !! (v, pageNo) with
              | Some _ => removeExtentPageLocked (v, pageNo) c | None => c end) with (drop_page v).
    set (c1 := fold_left (drop_page v) (elements ps) c0) in *. cbn [fst snd].
    assert (forall k, extentPageCache c1 !! k = if decide (k.1 = v) then None else extentPageCache c !! k) as Hk'.
    { intros [kv kp]. rewrite Hk. cbn [fst snd]. case_decide as H1; [by rewrite decide_True by tauto|].
      case_decide as H2; [|done]. subst kv. change (extentPageCache c0) with (extentPageCache c).
      destruct (extentPageCache c !! (v, kp)) eqn:He; [|done]. exfalso. apply H1. split; [done|].
      apply elem_of_elements. assert (is_Some (extentPageCache c !! (v, kp))) as Hs by eauto.
      apply (wf_pages _ _ Hc) in Hs. by rewrite Hps in Hs. }
    split_and!; [|done|exact Hk']. destruct Hwf as [A B C D E].
    assert (forall v', volumePages (c1 <| volumePages := delete v (volumePages c1) |>) !! v'
                       = if decide (v = v') then None else volumePages c1 !! v') as Hd by (intros; apply lookup_delete).
    split; [exact A|exact B| |intros v'; rewrite Hd; by case_decide|exact E].
    intros v' p. rewrite Hd. change (extentPageCache (c1 <| volumePages := _ |>)) with (extentPageCache c1).
    case_decide as H; [|apply C]. subst v'. rewrite Hk'. cbn [fst]. rewrite decide_True by done.
    split; [by intros ?%not_elem_of_empty|by intros []].
  - split_and!; [done|done|]. intros [kv kp]. cbn [fst]. case_decide; [|done]. subst kv.
    change (extentPageCache c0) with (extentPageCache c). destruct (extentPageCache c !! (v, kp)) eqn:He; [|done].
    assert (is_Some (extentPageCache c !! (v, kp))) as Hs by eauto. apply (wf_pages _ _ Hc) in Hs. rewrite Hps in Hs. set_solver.
Qed.

(** ** Storing and loading pages *)

Lemma wf_front n k c c' : wf n c -> is_Some (extentPageCache c !! k) ->
  (forall k', is_Some (extentPageCache c' !! k') <-> is_Some (extentPageCache c !! k')) ->
  volumePages c' = volumePages c -> extentPageLRU c' = move_to_front k (extentPageLRU c) -> wf n c'.
Proof.
  intros [Hnd Hl Hp Hne Hb] Hk Hsame Hvp Hlru. apply Hl in Hk as Hin. split.
  - rewrite Hlru. apply NoDup_cons. split; [|by apply nodup_lru_remove]. rewrite elem_lru_remove. tauto.
  - intros k'. rewrite Hlru, Hsame, <-Hl. unfold move_to_front. rewrite elem_of_cons, elem_lru_remove.
    destruct (decide (k' = k)) as [->|]; tauto.
  - intros v p. by rewrite Hvp, Hsame, Hp.
  - by rewrite Hvp.
  - rewrite Hlru. unfold move_to_front. pose proof (lru_remove_in k _ Hnd Hin). unfold zlen in *. cbn [length]. lia.
Qed.

Lemma evict_spec n fuel c : 0 < n -> wf (n + 1) c -> (0 < fuel)%nat ->
  wf n (evict fuel n c) /\ volumeCache (evict fuel n c) = volumeCache c /\
  extentPageCache (evict fuel n c) ⊆ extentPageCache c.
Proof.
  intros Hn Hc Hf. destruct fuel as [|fuel]; [lia|]. cbn [evict]. rewrite (proj2 (Z.ltb_lt 0 n) Hn). cbn [andb].
  destruct (Z.ltb_spec n (zlen (extentPageLRU c))) as [Hlt|Hle].
  2: { split_and!; [|done|done]. destruct Hc. by split. }
  destruct (last (extentPageLRU c)) as [back|] eqn:Hback.
  2: { apply last_None in Hback. rewrite Hback in Hlt. unfold zlen in Hlt. cbn in Hlt. lia. }
  assert (back ∈ extentPageLRU c) as Hin.
  { apply last_Some in Hback as (l & Hl). rewrite Hl. apply elem_of_app. right. by apply list_elem_of_singleton. }
  assert (zlen (extentPageLRU (removeExtentPageLocked back c)) <= n) as Hlen.
  { rewrite remove_lru, lru_remove_in by (done || apply Hc). pose proof (wf_bound _ _ Hc). lia. }
  assert (evict fuel n (removeExtentPageLocked back c) = removeExtentPageLocked back c) as ->.
  { destruct fuel; cbn [evict]; [done|]. destruct (Z.ltb_spec n (zlen (extentPageLRU (removeExtentPageLocked back c)))); [lia|].
    by rewrite andb_false_r. }
  split_and!; [|apply remove_volumes|rewrite remove_cache; apply delete_subseteq].
  destruct (wf_remove _ back _ Hc). by split.
Qed.

Definition page_id (page : AllocationPageRecord) : Z * Z := (pVolumeID page, pPageNo page).

Lemma store_page_spec ttl n now page c : 0 < n -> wf n c -> let c' := storeExtentPage ttl n now page c in
  wf n c' /\ volumeCache c' = volumeCache c /\
  extentPageCache c' ⊆ <[page_id page := mkCachedExtentPage page (now + ttl)]> (extentPageCache c).
Proof.
  intros Hn Hc. unfold storeExtentPage. fold (page_id page). destruct (extentPageCache c !! page_id page) eqn:Hk.
  - split_and!; [|done|done]. eapply (wf_front n (page_id page) c); [done|by eexists| |done|done].
    intros k'. change (is_Some (<[page_id page := mkCachedExtentPage page (now + ttl)]> (extentPageCache c) !! k')
                       <-> is_Some (extentPageCache c !! k')).
    rewrite lookup_insert. case_decide; [|done]. subst k'. rewrite Hk. split; intros _; by eexists.
  - set (c1 := c <| extentPageLRU := _ |> <| extentPageCache := _ |> <| volumePages := _ |>).
    assert (wf (n + 1) c1) as Hc1.
    { destruct Hc as [Hnd Hl Hp Hne Hb]. unfold c1. split; cbn [extentPageLRU extentPageCache volumePages].
      - apply NoDup_cons. split; [|done]. rewrite Hl, Hk. by intros [].
      - intros k'. change (k' ∈ page_id page :: extentPageLRU c <->
                           is_Some (<[page_id page := mkCachedExtentPage page (now + ttl)]> (extentPageCache c) !! k')).
        rewrite elem_of_cons, Hl, lookup_insert. case_decide; [subst; split; [by eexists|by left]|].
        split; [intros [->|?]; done|by right].
      - intros v p. change (p ∈ default ∅ (<[pVolumeID page := {[pPageNo page]} ∪ default ∅ (volumePages c !! pVolumeID page)]>
                              (volumePages c) !! v) <-> is_Some (<[page_id page := mkCachedExtentPage page (now + ttl)]> (extentPageCache c) !! (v, p))).
        rewrite !lookup_insert. unfold page_id. destruct (decide (pVolumeID page = v)) as [<-|Hv].
        + change (default ∅ (Some ?x)) with x. rewrite elem_of_union, elem_of_singleton, Hp. case_decide as Hpp.
          * injection Hpp as ->. split; [by eexists|by left].
          * split; [intros [->|?]; done|by right].
        + rewrite decide_False by congruence. apply Hp.
      - intros v. change (<[pVolumeID page := {[pPageNo page]} ∪ default ∅ (volumePages c !! pVolumeID page)]> (volumePages c) !! v <> Some ∅).
        rewrite lookup_insert. case_decide; [|apply Hne]. intros [= He]. set_solver.
      - change (zlen (page_id page :: extentPageLRU c) <= n + 1). unfold zlen in *. cbn [length]. lia. }
    change (wf n (evict (length (extentPageLRU c1)) n c1) /\
            volumeCache (evict (length (extentPageLRU c1)) n c1) = volumeCache c1 /\
            extentPageCache (evict (length (extentPageLRU c1)) n c1) ⊆ extentPageCache c1).
    apply evict_spec; [done|exact Hc1|cbn; lia].
Qed.

Lemma load_page_spec n now v p c : wf n c -> let c' := (loadExtentPage now v p c).1 in
  wf n c' /\ volumeCache c' = volumeCache c /\ extentPageCache c' ⊆ extentPageCache c.
Proof.
  intros Hc. unfold loadExtentPage. destruct (extentPageCache c !! (v, p)) as [e|] eqn:Hk; cbn [fst]; [|done].
  destruct (ceExpiresAt e <? now); cbn [fst].
  - split_and!; [by apply wf_remove|apply remove_volumes|rewrite remove_cache; apply delete_subseteq].
  - split_and!; [|done|done]. eapply (wf_front n (v, p) c); [done|by eexists|done|done|done].
Qed.

(** ** Coherence with the in-memory repository *)

Section Coherence.
Import MemMetaFacts.
Abbreviation Repo := MemMeta.Repo.

(** What [GetExtentPage] answers. *)
Definition view (r : Repo) (v p : Z) : option AllocationPageRecord :=
  volume ← MemMeta.volumes r !! v; Some (default (MemMeta.empty_page volume v p) (MemMeta.pages_of r v !! p)).

Record coherent (r : Repo) (c : cache) : Prop := {
  coh_volume : forall v e, volumeCache c !! v = Some e -> MemMeta.volumes r !! v = Some (cvSpec e);
  coh_page : forall v p e, extentPageCache c !! (v, p) = Some e -> view r v p = Some (cePage e) }.

(** Stored volumes have their geometry filled in. *)
Definition geometry_set (r : Repo) : Prop := forall v spec, MemMeta.volumes r !! v = Some spec ->
  vChunkSizeBytes spec <> 0 /\ vExtentPageBytes spec <> 0.

Definition agree_except (v : Z) (r r' : Repo) : Prop := forall v', v' <> v ->
  MemMeta.volumes r' !! v' = MemMeta.volumes r !! v' /\ MemMeta.pages_of r' v' = MemMeta.pages_of r v'.
Definition same_view (r r' : Repo) : Prop :=
  MemMeta.volumes r' = MemMeta.volumes r /\ forall v, MemMeta.pages_of r' v = MemMeta.pages_of r v.

Record sim (n : Z) (s : cached Repo) (r : Repo) : Prop := {
  sim_next : cdNext s = r;
  sim_wf : wf n (cdCache s);
  sim_coh : coherent r (cdCache s);
  sim_cons : consistent r;
  sim_geo : geometry_set r }.

(** A method of the cached repository answers like one of the plain repository. *)
Definition simulates {A} (n : Z) (m : act (cached Repo) svc_error A) (m' : act Repo svc_error A) (r : Repo) : Prop :=
  forall s, sim n s r -> (m s).2 = (m' r).2 /\ sim n (m s).1 (m' r).1.

Lemma coherent_weaken r c c' : coherent r c -> volumeCache c' ⊆ volumeCache c ->
  extentPageCache c' ⊆ extentPageCache c -> coherent r c'.
Proof.
  intros [Hv Hp] H1 H2. split.
  - intros v e He. apply Hv. by eapply lookup_weaken.
  - intros v p e He. apply Hp. by eapply lookup_weaken.
Qed.

Lemma coherent_same r r' c : same_view r r' -> coherent r c -> coherent r' c.
Proof.
  intros [Ev Ep] [Hv Hp]. split.
  - intros v e He. rewrite Ev. by apply Hv.
  - intros v p e He. unfold view. rewrite Ev, Ep. by apply Hp.
Qed.

Lemma coherent_invalidate n v r r' c : wf n c -> agree_except v r r' -> coherent r c -> coherent r' (invalidate v c).
Proof.
  intros Hwf Ha [Hv Hp]. destruct (invalidate_spec n v c Hwf) as (_ & Hvc & Hk). split.
  - intros v' e. rewrite Hvc, lookup_delete. case_decide; [done|]. intros He. rewrite (proj1 (Ha v' ltac:(done))). by apply Hv.
  - intros v' p e. rewrite Hk. cbn [fst]. case_decide; [done|]. intros He. unfold view. destruct (Ha v' ltac:(done)) as [-> ->]. by apply Hp.
Qed.

Lemma same_view_refl r : same_view r r.
Proof. done. Qed.

Lemma simulates_down {A} n (m : act Repo svc_error A) r :
  consistent (m r).1 -> geometry_set (m r).1 -> same_view r (m r).1 -> simulates n (down m) m r.
Proof.
  intros Hc Hg Hv s Hs. unfold down. rewrite (sim_next _ _ _ Hs). destruct (m r) as [r' res]. cbn in *.
  split; [done|]. split; cbn; [done|apply Hs| |done|done]. eapply coherent_same; [exact Hv|apply Hs].
Qed.

(** A read of the plain repository. *)
Lemma simulates_read {A} n (m : act Repo svc_error A) r : (m r).1 = r -> simulates n (down m) m r.
Proof.
  intros H s Hs. apply (simulates_down n m r); [rewrite H; apply Hs|rewrite H; apply Hs|rewrite H; apply same_view_refl|done].
Qed.

(** A write of the plain repository followed by an invalidation. *)
Lemma simulates_invalidate {A B} n v (m : act Repo svc_error A) (f : A -> B) r :
  consistent (m r).1 -> geometry_set (m r).1 ->
  (match (m r).2 with Ok _ => agree_except v r (m r).1 | _ => same_view r (m r).1 end) ->
  simulates n (bind_act (down m) (fun a => bind_act (on_cache (invalidate v)) (fun _ => ret_act (f a))))
    (bind_act m (fun a => ret_act (f a))) r.
Proof.
  intros Hc Hg Hv s Hs. unfold down, bind_act, on_cache, ret_act. rewrite (sim_next _ _ _ Hs).
  destruct (m r) as [r' [a|e|]]; cbn in *.
  - split; [done|]. split; cbn; [done|by apply invalidate_spec, Hs| |done|done].
    eapply coherent_invalidate; [apply Hs|exact Hv|apply Hs].
  - split; [done|]. split; cbn; [done|apply Hs| |done|done]. eapply coherent_same; [exact Hv|apply Hs].
  - split; [done|]. split; cbn; [done|apply Hs| |done|done]. eapply coherent_same; [exact Hv|apply Hs].
Qed.

(** A write of one volume that keeps its pages, followed by storing it. *)
Definition stores_volume (r r' : Repo) (spec : VolumeSpec) : Prop :=
  MemMeta.volumes r' = <[vID spec := spec]> (MemMeta.volumes r) /\
  (forall v, MemMeta.pages_of r' v = MemMeta.pages_of r v \/ v = vID spec /\ MemMeta.volumes r !! v = None) /\
  forall old, MemMeta.volumes r !! vID spec = Some old ->
    vChunkSizeBytes spec = vChunkSizeBytes old /\ vExtentPageBytes spec = vExtentPageBytes old.

Lemma coherent_store ttl now r r' spec c : stores_volume r r' spec -> coherent r c -> coherent r' (store ttl now spec c).
Proof.
  intros (Hv & Hp & Hg) [Cv Cp]. split.
  - intros v e. change (volumeCache (store ttl now spec c)) with (<[vID spec := mkCachedVolumeSpec spec (now + ttl)]> (volumeCache c)).
    rewrite Hv, !lookup_insert. case_decide; [by intros [= <-]|]. apply Cv.
  - intros v p e He. change (extentPageCache c !! (v, p) = Some e) in He. specialize (Cp v p e He). unfold view in *.
    destruct (MemMeta.volumes r !! v) as [old|] eqn:Hold; [|done]. cbn [mbind option_bind] in Cp.
    destruct (Hp v) as [Hpv|[_ Hnone]]; [|by rewrite Hold in Hnone]. rewrite Hpv.
    rewrite Hv, lookup_insert. case_decide as Hid; [|by rewrite Hold]. subst v. cbn [mbind option_bind].
    destruct (Hg old Hold) as [H1 H2]. rewrite <-Cp. unfold MemMeta.empty_page. by rewrite H1, H2.
Qed.

Lemma simulates_store {A B} n ttl now (m : act Repo svc_error A) (g : A -> VolumeSpec) (f : A -> B) r :
  consistent (m r).1 -> geometry_set (m r).1 ->
  (match (m r).2 with Ok a => stores_volume r (m r).1 (g a) | _ => same_view r (m r).1 end) ->
  simulates n (bind_act (down m) (fun a => bind_act (on_cache (store ttl now (g a))) (fun _ => ret_act (f a))))
    (bind_act m (fun a => ret_act (f a))) r.
Proof.
  intros Hc Hg Hv s Hs. unfold down, bind_act, on_cache, ret_act. rewrite (sim_next _ _ _ Hs).
  destruct (m r) as [r' [a|e|]]; cbn in *.
  - split; [done|]. split; cbn; [done|destruct (sim_wf _ _ _ Hs); by split| |done|done].
    eapply coherent_store; [exact Hv|apply Hs].
  - split; [done|]. split; cbn; [done|apply Hs| |done|done]. eapply coherent_same; [exact Hv|apply Hs].
  - split; [done|]. split; cbn; [done|apply Hs| |done|done]. eapply coherent_same; [exact Hv|apply Hs].
Qed.

(** ** Volumes and pages *)

Lemma get_page_view v p r : MemMeta.GetExtentPage v p r
  = (r, match view r v p with Some page => Ok page | None => Err ErrVolumeNotFound end).
Proof. unfold MemMeta.GetExtentPage, MemMeta.with_volume, view. by destruct (MemMeta.volumes r !! v). Qed.

Lemma view_id r v p page : consistent r -> view r v p = Some page -> page_id page = (v, p).
Proof.
  intros Hc. unfold view. destruct (MemMeta.volumes r !! v); [|done]. cbn [mbind option_bind]. unfold page_id.
  destruct (MemMeta.pages_of r v !! p) as [rec|] eqn:Hp; intros [= <-]; [|done].
  cbn [default from_option id]. by destruct (page_key _ Hc _ _ _ Hp) as [-> ->].
Qed.

Lemma coherent_store_page ttl n now page r r' c : 0 < n -> wf n c -> coherent r c ->
  MemMeta.volumes r' = MemMeta.volumes r ->
  (forall v p, (v, p) <> page_id page -> view r' v p = view r v p) ->
  view r' (pVolumeID page) (pPageNo page) = Some page -> coherent r' (storeExtentPage ttl n now page c).
Proof.
  intros Hn Hwf [Cv Cp] Ev Hother Hpage. destruct (store_page_spec ttl n now page c Hn Hwf) as (_ & Hvc & Hsub). split.
  - intros v e. rewrite Hvc, Ev. apply Cv.
  - intros v p e He. pose proof (lookup_weaken _ _ _ _ He Hsub) as Hin. apply lookup_insert_Some in Hin as [[Hk <-]|[Hk Hin]].
    + unfold page_id in Hk. injection Hk as <- <-. exact Hpage.
    + rewrite Hother by congruence. by apply Cp.
Qed.

Context (rand : nat -> option Z) (unix : Z) (order : list VolumeSpec -> list VolumeSpec) (ttl n : Z) (now : nat -> Z).
Context (Hn : 0 < n).
Abbreviation next := (memory_repository rand unix order).

Lemma sim_cache s r c : sim n s r -> wf n c -> coherent r c -> sim n (mkCached c r) r.
Proof. intros Hs Hwf Hc. split; [done|done|done|apply Hs|apply Hs]. Qed.

Lemma sim_eta s r : sim n s r -> s = mkCached (cdCache s) r.
Proof. intros Hs. destruct s as [c x]. by rewrite <-(sim_next _ _ _ Hs). Qed.

(** Fetching a volume and keeping it. *)
Lemma simulates_fetch v i r :
  simulates n (bind_act (down (MemMeta.GetVolume v)) (fun spec => bind_act (on_cache (store ttl (now i) spec)) (fun _ => ret_act spec)))
    (MemMeta.GetVolume v) r.
Proof.
  intros s Hs. rewrite (sim_eta s r Hs). unfold down, bind_act, on_cache, ret_act, MemMeta.GetVolume, MemMeta.with_volume. cbn [cdNext cdCache].
  destruct (MemMeta.volumes r !! v) as [spec|] eqn:Hv; cbn [fst snd]; [|split; [done|by rewrite <-(sim_eta s r Hs)]].
  split; [done|]. eapply sim_cache; [exact Hs|destruct (sim_wf _ _ _ Hs); by split|].
  eapply coherent_store; [|apply Hs]. pose proof (vol_key _ (sim_cons _ _ _ Hs) _ _ Hv) as Hid. subst v.
  split_and!; [by rewrite insert_id|by left|]. intros old Hold. rewrite Hv in Hold. by injection Hold as ->.
Qed.

Lemma simulates_GetVolume v r : simulates n (GetVolume next ttl now v) (MemMeta.GetVolume v) r.
Proof.
  intros s Hs. unfold GetVolume, load. destruct (volumeCache (cdCache s) !! v) as [e|] eqn:He.
  - destruct (cvExpiresAt e <? now 0%nat); [by apply (simulates_fetch v 1)|].
    unfold MemMeta.GetVolume, MemMeta.with_volume. rewrite (coh_volume _ _ (sim_coh _ _ _ Hs) _ _ He). done.
  - by apply (simulates_fetch v 1).
Qed.

Lemma simulates_RefreshVolume v r : simulates n (RefreshVolume next ttl now v) (MemMeta.GetVolume v) r.
Proof.
  intros s Hs. unfold RefreshVolume. cbn [nRefreshVolume memory_repository].
  assert (sim n (mkCached (invalidate v (cdCache s)) r) r) as Hs'.
  { eapply sim_cache; [exact Hs|by apply invalidate_spec, Hs|].
    eapply coherent_invalidate; [apply Hs|by intros v' _|apply Hs]. }
  destruct (simulates_fetch v 0 r _ Hs') as [H1 H2]. revert H1 H2. rewrite (sim_eta s r Hs).
  unfold bind_act, down, on_cache. cbn [cdNext cdCache]. cbn. destruct (MemMeta.GetVolume v r) as [r' [| |]]; cbn; done.
Qed.

Lemma simulates_GetExtentPage v p r : simulates n (GetExtentPage next ttl n now v p) (MemMeta.GetExtentPage v p) r.
Proof.
  intros s Hs. unfold GetExtentPage. destruct (load_page_spec n (now 0%nat) v p (cdCache s) (sim_wf _ _ _ Hs)) as (Hwf & Hvc & Hsub).
  assert (forall page, (loadExtentPage (now 0%nat) v p (cdCache s)).2 = Some page -> view r v p = Some page) as Hfound.
  { intros page. unfold loadExtentPage. destruct (extentPageCache (cdCache s) !! (v, p)) as [e|] eqn:He; [|done].
    destruct (ceExpiresAt e <? now 0%nat); [done|]. intros [= <-]. by apply (coh_page _ _ (sim_coh _ _ _ Hs)). }
  destruct (loadExtentPage (now 0%nat) v p (cdCache s)) as [c found]. cbn [fst snd] in *.
  assert (coherent r c) as Hc by (eapply coherent_weaken; [apply Hs|by rewrite Hvc|done]).
  rewrite get_page_view. rewrite (sim_next _ _ _ Hs). destruct found as [page|].
  - rewrite (Hfound page eq_refl). cbn. split; [done|]. by eapply sim_cache.
  - unfold bind_act, down, on_cache, ret_act. cbn [cdNext cdCache nGetExtentPage memory_repository]. rewrite get_page_view.
    destruct (view r v p) as [page|] eqn:Hview; cbn [fst snd]; [|split; [done|by eapply sim_cache]].
    split; [done|]. pose proof (view_id _ _ _ _ (sim_cons _ _ _ Hs) Hview) as Hid.
    eapply sim_cache; [exact Hs|by apply store_page_spec|]. eapply coherent_store_page; [done|done|exact Hc|done|done|].
    unfold page_id in Hid. injection Hid as -> ->. exact Hview.
Qed.

Lemma store_pages_ok r pages : Forall (fun page => view r (pVolumeID page) (pPageNo page) = Some page) pages ->
  forall i c, wf n c -> coherent r c -> wf n (store_pages ttl n now i pages c) /\ coherent r (store_pages ttl n now i pages c).
Proof.
  induction 1 as [|page pages Hp _ IH]; intros i c Hwf Hc; cbn [store_pages]; [done|].
  apply IH; [by apply store_page_spec|]. by eapply coherent_store_page.
Qed.

Lemma simulates_ListExtentPages v r : simulates n (ListExtentPages next ttl n now v) (MemMeta.ListExtentPages v) r.
Proof.
  intros s Hs. rewrite (sim_eta s r Hs). unfold ListExtentPages, bind_act, down, on_cache, ret_act.
  cbn [nListExtentPages memory_repository cdNext cdCache]. unfold MemMeta.ListExtentPages, MemMeta.with_volume.
  destruct (MemMeta.volumes r !! v) as [volume|] eqn:Hv; cbn [fst snd]; [|split; [done|by rewrite <-(sim_eta s r Hs)]].
  split; [done|]. set (pages := merge_sort _ _).
  destruct (store_pages_ok r pages) with (i := 0%nat) (c := cdCache s) as [H1 H2]; [|apply Hs|apply Hs|by eapply sim_cache].
  apply Forall_forall. intros page Hin. unfold pages in Hin. rewrite merge_sort_Permutation in Hin.
  apply list_elem_of_fmap in Hin as ([p page'] & -> & Hin). apply elem_of_map_to_list in Hin. cbn [snd].
  destruct (page_key _ (sim_cons _ _ _ Hs) _ _ _ Hin) as [-> ->]. unfold view. rewrite Hv. cbn [mbind option_bind]. by rewrite Hin.
Qed.

Lemma simulates_PutExtentPage rec rev r : simulates n (PutExtentPage next ttl n now rec rev) (MemMeta.PutExtentPage rec rev) r.
Proof.
  intros s Hs. rewrite (sim_eta s r Hs). unfold PutExtentPage, bind_act, down, on_cache, ret_act.
  cbn [nPutExtentPage memory_repository cdNext cdCache].
  assert (consistent (MemMeta.PutExtentPage rec rev r).1) as Hcons by (apply (consistent_exec (CPutExtentPage rec rev)), Hs).
  destruct (MemMeta.volumes r !! pVolumeID rec) as [volume|] eqn:Hv.
  2: { unfold MemMeta.PutExtentPage, MemMeta.with_volume. rewrite Hv. cbn. by rewrite <-(sim_eta s r Hs). }
  pose proof (put_page_spec r rec rev volume Hv) as Hspec. destruct (MemMeta.PutExtentPage rec rev r) as [r' res].
  destruct Hspec as (Ev & _ & _ & Hres). cbn [fst] in Hcons.
  assert (geometry_set r') as Hgeo by (unfold geometry_set; rewrite Ev; apply Hs).
  destruct (_ =? rev).
  - destruct Hres as [-> Hpages]. cbn [fst snd]. split; [done|]. set (page := stored_page volume rec (add_i64 rev 1)) in *.
    split; cbn [cdNext cdCache]; [done|by apply store_page_spec, Hs| |done|done].
    eapply coherent_store_page; [done|apply Hs|apply Hs|done| |].
    + intros v p Hne. unfold view. rewrite Ev. destruct (MemMeta.volumes r !! v); [|done]. cbn [mbind option_bind].
      rewrite Hpages, decide_False; [done|]. intros [-> ->]. done.
    + unfold view. rewrite Ev. change (pVolumeID page) with (pVolumeID rec). rewrite Hv. cbn [mbind option_bind].
      change (pPageNo page) with (pPageNo rec). by rewrite Hpages, decide_True.
  - destruct Hres as [-> Hpages]. cbn [fst snd]. split; [done|]. split; cbn [cdNext cdCache]; [done|apply Hs| |done|done].
    eapply coherent_same; [|apply Hs]. split; [exact Ev|exact Hpages].
Qed.

(** ** Writes of the in-memory repository *)

Lemma geometry_insert (vols : gmap Z VolumeSpec) v spec : vChunkSizeBytes spec <> 0 -> vExtentPageBytes spec <> 0 ->
  (forall v spec, vols !! v = Some spec -> vChunkSizeBytes spec <> 0 /\ vExtentPageBytes spec <> 0) ->
  forall v' spec', <[v := spec]> vols !! v' = Some spec' -> vChunkSizeBytes spec' <> 0 /\ vExtentPageBytes spec' <> 0.
Proof. intros H1 H2 H v' spec'. rewrite lookup_insert. case_decide; [by intros [= <-]|apply H]. Qed.

Lemma normalized_geometry spec : vChunkSizeBytes (NormalizeVolumeSpec spec) <> 0 /\ vExtentPageBytes (NormalizeVolumeSpec spec) <> 0.
Proof.
  cbn. unfold or_default. split; [destruct (Z.eqb_spec (vChunkSizeBytes spec) 0)|destruct (Z.eqb_spec (vExtentPageBytes spec) 0)]; done.
Qed.

Lemma geometry_add v spec r : geometry_set r -> vChunkSizeBytes spec <> 0 -> vExtentPageBytes spec <> 0 ->
  geometry_set (MemMeta.add_volume v spec r).
Proof. intros Hg H1 H2. exact (geometry_insert (MemMeta.volumes r) v spec H1 H2 Hg). Qed.

Lemma same_maps r r' : MemMeta.volumes r' = MemMeta.volumes r -> MemMeta.extentPages r' = MemMeta.extentPages r ->
  geometry_set r -> geometry_set r' /\ same_view r r'.
Proof. intros H1 H2 Hg. split; [unfold geometry_set; by rewrite H1|]. split; [done|]. intros v. unfold MemMeta.pages_of. by rewrite H2. Qed.

Lemma same_agree v r r' : same_view r r' -> agree_except v r r'.
Proof. intros [H1 H2] v' _. by rewrite H1, H2. Qed.

Lemma agree_refl v r : agree_except v r r.
Proof. by apply same_agree. Qed.

(** A write of one volume record that keeps its geometry. *)
Lemma touch_volume v old spec r r' : MemMeta.volumes r !! v = Some old ->
  vChunkSizeBytes spec = vChunkSizeBytes old -> vExtentPageBytes spec = vExtentPageBytes old ->
  MemMeta.volumes r' = <[v := spec]> (MemMeta.volumes r) -> MemMeta.extentPages r' = MemMeta.extentPages r ->
  geometry_set r -> geometry_set r' /\ agree_except v r r' /\ (vID spec = v -> stores_volume r r' spec).
Proof.
  intros Hold H1 H2 Hv Hp Hg. split_and!.
  - unfold geometry_set. rewrite Hv. destruct (Hg _ _ Hold). apply geometry_insert; [congruence|congruence|exact Hg].
  - intros v' Hne. unfold MemMeta.pages_of. by rewrite Hv, Hp, lookup_insert_ne.
  - intros <-. split_and!; [done|left; unfold MemMeta.pages_of; by rewrite Hp|]. intros old' Hold'.
    rewrite Hold in Hold'. by injection Hold' as <-.
Qed.

Lemma add_effect v spec r : vID spec = v -> MemMeta.volumes r !! v = None ->
  agree_except v r (MemMeta.add_volume v spec r) /\ stores_volume r (MemMeta.add_volume v spec r) spec.
Proof.
  intros <- Hnone. split.
  - intros v' Hne. unfold MemMeta.add_volume, MemMeta.pages_of. cbn. by rewrite !lookup_insert_ne.
  - split_and!; [done| |intros old; by rewrite Hnone]. intros v. destruct (decide (v = vID spec)) as [->|]; [by right|left].
    unfold MemMeta.add_volume, MemMeta.pages_of. cbn. by rewrite lookup_insert_ne.
Qed.

(** What the methods that are followed by an invalidation do to the volumes and pages. *)
Definition touches {A} (v : Z) (m : act Repo svc_error A) (r : Repo) : Prop :=
  geometry_set (m r).1 /\ match (m r).2 with Ok _ => agree_except v r (m r).1 | _ => same_view r (m r).1 end.

Lemma touches_read {A} v (m : act Repo svc_error A) r : geometry_set r -> (m r).1 = r -> touches v m r.
Proof. intros Hg H. unfold touches. rewrite H. split; [done|]. destruct (m r).2; [apply agree_refl|done|done]. Qed.

Lemma touches_ensure spec r : geometry_set r -> touches (vID spec) (MemMeta.EnsureVolume spec) r.
Proof.
  intros Hg. destruct (normalized_geometry spec) as [G1 G2]. unfold touches, MemMeta.EnsureVolume. cbv zeta. rewrite normalized_id.
  destruct (MemMeta.volumes r !! vID spec) as [old|] eqn:Hv; cbn [fst snd].
  - split; [exact (geometry_insert _ _ _ G1 G2 Hg)|]. intros v' Hne. cbn. by rewrite lookup_insert_ne.
  - split; [by apply geometry_add|]. by apply (add_effect (vID spec) (NormalizeVolumeSpec spec)).
Qed.

Lemma touches_delete v r : geometry_set r -> touches v (MemMeta.DeleteVolume v) r.
Proof.
  intros Hg. unfold touches, MemMeta.DeleteVolume. destruct (MemMeta.volumes r !! v); [|by split].
  repeat (match goal with |- context [if ?b then _ else _] => destruct b; [by split|] end). cbn [fst snd]. split.
  - intros v' spec'. cbn. rewrite lookup_delete. case_decide; [done|apply Hg].
  - intros v' Hne. unfold MemMeta.pages_of. cbn. by rewrite !lookup_delete_ne.
Qed.

Lemma touches_status st r : geometry_set r -> touches (sVolumeID st) (MemMeta.PutVolumeStatus st) r.
Proof.
  intros Hg. unfold touches, MemMeta.PutVolumeStatus, MemMeta.with_volume. destruct (_ !! _); [|by split]. cbn [fst snd].
  split; [exact Hg|]. by apply same_agree.
Qed.

Lemma touches_generation v g r : geometry_set r -> touches v (MemMeta.UnsafeSetGeneration v g) r.
Proof.
  intros Hg. unfold touches, MemMeta.UnsafeSetGeneration, MemMeta.with_volume. destruct (_ !! _); [|by split]. cbn [fst snd].
  split; [exact Hg|]. by apply same_agree.
Qed.

(** The writes of attaching and detaching: one volume record, and records the cache does not keep. *)
Lemma touch_ok v old spec r r' : MemMeta.volumes r !! v = Some old ->
  vChunkSizeBytes spec = vChunkSizeBytes old -> vExtentPageBytes spec = vExtentPageBytes old ->
  MemMeta.volumes r' = <[v := spec]> (MemMeta.volumes r) -> MemMeta.extentPages r' = MemMeta.extentPages r ->
  geometry_set r -> geometry_set r' /\ agree_except v r r'.
Proof. intros. by edestruct (touch_volume v old spec r r') as (? & ? & _). Qed.

Lemma touches_clear v r : geometry_set r -> touches v (MemMeta.UnsafeClearAttachment v) r.
Proof.
  intros Hg. unfold touches, MemMeta.UnsafeClearAttachment, MemMeta.with_volume.
  destruct (MemMeta.volumes r !! v) as [old|] eqn:Hv; [|by split]. cbn [fst snd].
  by apply (touch_ok v old (old <| vState := VolumeStateAvailable |>)).
Qed.

Lemma touches_attach req r : geometry_set r -> touches (arVolumeID req) (MemMeta.Attach unix req) r.
Proof.
  intros Hg. unfold touches, MemMeta.Attach, MemMeta.with_volume.
  destruct (MemMeta.volumes r !! arVolumeID req) as [old|] eqn:Hv; [|by split].
  destruct (String.eqb (vState old) _); [by split|]. destruct (_ && _); [by split|]. cbn [fst snd].
  by apply (touch_ok (arVolumeID req) old (old <| vState := VolumeStateInUse |>)).
Qed.

Lemma touches_detach req r : geometry_set r -> touches (drVolumeID req) (MemMeta.Detach req) r.
Proof.
  intros Hg. unfold touches, MemMeta.Detach, MemMeta.with_volume.
  destruct (MemMeta.volumes r !! drVolumeID req) as [old|] eqn:Hv; [|by split].
  destruct (_ && _); [by split|]. destruct (_ && _); [|split; [done|apply agree_refl]]. cbn [fst snd].
  by apply (touch_ok (drVolumeID req) old (old <| vState := VolumeStateAvailable |>)).
Qed.

(** The methods whose result the cache keeps. *)
Definition keeps {A} (g : A -> VolumeSpec) (m : act Repo svc_error A) (r : Repo) : Prop :=
  geometry_set (m r).1 /\ match (m r).2 with Ok a => stores_volume r (m r).1 (g a) | _ => same_view r (m r).1 end.

Lemma keeps_create req r : geometry_set r -> keeps id (MemMeta.CreateVolume rand req) r.
Proof.
  intros Hg. unfold keeps, MemMeta.CreateVolume. destruct (String.eqb _ ""); [by split|]. destruct (MemMeta.name_taken _ _ _); [by split|].
  destruct (MemMeta.generateUniqueVolumeIDMemory rand (MemMeta.volumes r)) as [v|e|] eqn:Hid; [|by split..]. cbn [fst snd].
  apply unique_id_new in Hid as [_ Hnone].
  lazymatch goal with |- context [NormalizeVolumeSpec ?x] =>
    destruct (normalized_geometry x) as [G1 G2]; assert (vID (NormalizeVolumeSpec x) = v) as Hid by reflexivity;
    generalize dependent (NormalizeVolumeSpec x) end.
  intros spec G1 G2 Hid. split; [by apply geometry_add|]. by apply (add_effect v spec).
Qed.

Lemma keep_touched v old spec r r' : MemMeta.volumes r !! v = Some old ->
  vChunkSizeBytes spec = vChunkSizeBytes old -> vExtentPageBytes spec = vExtentPageBytes old ->
  MemMeta.volumes r' = <[v := spec]> (MemMeta.volumes r) -> MemMeta.extentPages r' = MemMeta.extentPages r ->
  geometry_set r -> vID spec = v -> geometry_set r' /\ stores_volume r r' spec.
Proof. intros. edestruct (touch_volume v old spec r r') as (? & _ & H'); [done..|]. split; [done|by apply H']. Qed.

Lemma keeps_update v req r : consistent r -> geometry_set r -> keeps id (MemMeta.UpdateVolume v req) r.
Proof.
  intros Hc Hg. unfold keeps, MemMeta.UpdateVolume. destruct (MemMeta.volumes r !! v) as [old|] eqn:Hv; [|by split].
  destruct (MemMeta.updated_spec r v old req) as [spec|e|] eqn:Hu; [|by split..]. cbn [fst snd].
  apply updated_spec_ok in Hu as (Hid & _ & H1 & H2 & _). destruct (Hg _ _ Hv) as [G1 G2].
  unfold or_default in H1, H2. destruct (Z.eqb_spec (vChunkSizeBytes old) 0); [done|]. destruct (Z.eqb_spec (vExtentPageBytes old) 0); [done|].
  apply (keep_touched v old spec); [exact Hv|exact H1|exact H2|reflexivity|reflexivity|exact Hg|].
  rewrite Hid. by apply (vol_key _ Hc).
Qed.

Lemma keeps_state v st r : consistent r -> geometry_set r -> keeps id (MemMeta.SetVolumeState v st) r.
Proof.
  intros Hc Hg. unfold keeps, MemMeta.SetVolumeState, MemMeta.with_volume.
  destruct (MemMeta.volumes r !! v) as [old|] eqn:Hv; [|by split]. cbn [fst snd].
  apply (keep_touched v old (old <| vState := st |>)); [exact Hv|done|done|reflexivity|reflexivity|exact Hg|].
  exact (vol_key _ Hc _ _ Hv).
Qed.

(** Synchronizing a specification that keeps the geometry of the stored volume. *)
Definition same_geometry (spec : VolumeSpec) (r : Repo) : Prop := forall old, MemMeta.volumes r !! vID spec = Some old ->
  vChunkSizeBytes (NormalizeVolumeSpec spec) = vChunkSizeBytes old /\
  vExtentPageBytes (NormalizeVolumeSpec spec) = vExtentPageBytes old.

Lemma keeps_sync spec r : same_geometry spec r -> geometry_set r ->
  keeps (fun _ => NormalizeVolumeSpec spec) (MemMeta.SyncVolumeSpec spec) r.
Proof.
  intros Hsame Hg. unfold keeps, MemMeta.SyncVolumeSpec. cbv zeta. rewrite normalized_id.
  destruct (MemMeta.volumes r !! vID spec) as [old|] eqn:Hv; [|by split]. cbn [fst snd]. destruct (Hsame old Hv) as [H1 H2].
  by apply (keep_touched (vID spec) old (NormalizeVolumeSpec spec)).
Qed.

(** ** Every call *)

Lemma simulates_ext {A} (m m1 : act (cached Repo) svc_error A) (m' m1' : act Repo svc_error A) r :
  (forall s, m s = m1 s) -> m' r = m1' r -> simulates n m1 m1' r -> simulates n m m' r.
Proof. intros H H' Hsim s Hs. rewrite H, H'. by apply Hsim. Qed.

Lemma simulates_reply {A B} (f : A -> B) (m : act (cached Repo) svc_error A) (m' : act Repo svc_error A) r :
  simulates n m m' r -> simulates n (bind_act m (fun a => ret_act (f a))) (bind_act m' (fun a => ret_act (f a))) r.
Proof.
  intros Hsim s Hs. destruct (Hsim s Hs) as [He Hr]. unfold bind_act, ret_act. destruct (m s) as [s' res], (m' r) as [r' res'].
  cbn in *. subst res'. by destruct res.
Qed.

Lemma simulates_invalidated {A} v (m : act Repo svc_error A) r : consistent (m r).1 -> touches v m r ->
  simulates n (bind_act (down m) (fun a => bind_act (on_cache (invalidate v)) (fun _ => ret_act a))) m r.
Proof.
  intros Hc [Hg Ht]. eapply simulates_ext; [reflexivity| |by apply (simulates_invalidate n v m id)].
  unfold bind_act, ret_act. by destruct (m r) as [r' []].
Qed.

Lemma simulates_invalidated_unit v (m : act Repo svc_error unit) r : consistent (m r).1 -> touches v m r ->
  simulates n (bind_act (down m) (fun _ => on_cache (invalidate v))) m r.
Proof.
  intros Hc Ht. eapply simulates_ext; [|reflexivity|by apply (simulates_invalidated v m)].
  intros s. unfold bind_act, down, on_cache, ret_act. by destruct (m (cdNext s)) as [r' [[]| |]].
Qed.

Lemma simulates_kept i (m : act Repo svc_error VolumeSpec) r : consistent (m r).1 -> keeps id m r ->
  simulates n (bind_act (down m) (fun a => bind_act (on_cache (store ttl (now i) a)) (fun _ => ret_act a))) m r.
Proof.
  intros Hc [Hg Hk]. eapply simulates_ext; [reflexivity| |by apply (simulates_store n ttl (now i) m id id)].
  unfold bind_act, ret_act. by destruct (m r) as [r' []].
Qed.

Lemma simulates_kept_unit i spec (m : act Repo svc_error unit) r : consistent (m r).1 -> keeps (fun _ => spec) m r ->
  simulates n (bind_act (down m) (fun _ => on_cache (store ttl (now i) spec))) m r.
Proof.
  intros Hc [Hg Hk]. eapply simulates_ext; [| |by apply (simulates_store n ttl (now i) m (fun _ => spec) id)].
  - intros s. unfold bind_act, down, on_cache, ret_act. by destruct (m (cdNext s)) as [r' [[]| |]].
  - unfold bind_act, ret_act. by destruct (m r) as [r' []].
Qed.

(** A write that changes neither volumes nor pages. *)
Lemma simulates_other {A} (m : act Repo svc_error A) r : consistent (m r).1 -> geometry_set r ->
  MemMeta.volumes (m r).1 = MemMeta.volumes r -> MemMeta.extentPages (m r).1 = MemMeta.extentPages r ->
  simulates n (down m) m r.
Proof. intros Hc Hg H1 H2. destruct (same_maps r (m r).1 H1 H2 Hg). by apply simulates_down. Qed.

End Coherence.

(** ** The interface, call by call *)

Inductive mcall :=
| MEnsureVolume (spec : VolumeSpec) | MSyncVolumeSpec (spec : VolumeSpec) | MCreateVolume (req : VolumeCreateRequest)
| MUpdateVolume (v : Z) (req : VolumeUpdateRequest) | MDeleteVolume (v : Z) | MGetVolume (v : Z) | MRefreshVolume (v : Z)
| MGetVolumeStatus (v : Z) | MPutVolumeStatus (st : VolumeStatusRecord) | MListVolumes
| MSetVolumeState (v : Z) (st : VolumeLifecycleState) | MGetAttachment (v : Z) | MGetGeneration (v : Z)
| MUnsafeClearAttachment (v : Z) | MUnsafeSetGeneration (v g : Z) | MAttach (req : AttachRequest)
| MDetach (req : DetachRequest) | MGetGateway (g : string) | MListGateways | MPutGateway (rec : GatewayRecord)
| MGetExtentPage (v p : Z) | MListExtentPages (v : Z) | MPutExtentPage (rec : AllocationPageRecord) (rev : Z)
| MAllocateChunkIDs (v count : Z) | MPutChunkGarbage (rec : AllocationChunkGarbageRecord)
| MListChunkGarbage (v limit : Z) | MDeleteChunkGarbage (v c : Z).

Inductive reply :=
| RDone (u : unit) | RSpec (spec : VolumeSpec) | RSpecs (specs : list VolumeSpec) | RStatus (st : VolumeStatusRecord)
| RAttachment (rec : AttachmentRecord) | RNumber (z : Z) | RGateway (rec : GatewayRecord)
| RGateways (recs : list GatewayRecord) | RPage (page : AllocationPageRecord) | RPages (pages : list AllocationPageRecord)
| RGarbage (recs : list AllocationChunkGarbageRecord).

Definition answer {S A} (f : A -> reply) (m : act S svc_error A) : act S svc_error reply := bind_act m (fun a => ret_act (f a)).

(** A call through the interface; the two optional methods as the cache asks for them. *)
Definition run {S} (repo : MetadataRepository S) (c : mcall) : act S svc_error reply :=
  match c with
  | MEnsureVolume spec => answer RDone (nEnsureVolume repo spec)
  | MSyncVolumeSpec spec => answer RDone (default (nEnsureVolume repo) (nSyncVolumeSpec repo) spec)
  | MCreateVolume req => answer RSpec (nCreateVolume repo req)
  | MUpdateVolume v req => answer RSpec (nUpdateVolume repo v req)
  | MDeleteVolume v => answer RDone (nDeleteVolume repo v)
  | MGetVolume v => answer RSpec (nGetVolume repo v)
  | MRefreshVolume v => answer RSpec (default (nGetVolume repo) (nRefreshVolume repo) v)
  | MGetVolumeStatus v => answer RStatus (nGetVolumeStatus repo v)
  | MPutVolumeStatus st => answer RDone (nPutVolumeStatus repo st)
  | MListVolumes => answer RSpecs (nListVolumes repo)
  | MSetVolumeState v st => answer RSpec (nSetVolumeState repo v st)
  | MGetAttachment v => answer RAttachment (nGetAttachment repo v)
  | MGetGeneration v => answer RNumber (nGetGeneration repo v)
  | MUnsafeClearAttachment v => answer RAttachment (nUnsafeClearAttachment repo v)
  | MUnsafeSetGeneration v g => answer RNumber (nUnsafeSetGeneration repo v g)
  | MAttach req => answer RAttachment (nAttach repo req)
  | MDetach req => answer RAttachment (nDetach repo req)
  | MGetGateway g => answer RGateway (nGetGateway repo g)
  | MListGateways => answer RGateways (nListGateways repo)
  | MPutGateway rec => answer RDone (nPutGateway repo rec)
  | MGetExtentPage v p => answer RPage (nGetExtentPage repo v p)
  | MListExtentPages v => answer RPages (nListExtentPages repo v)
  | MPutExtentPage rec rev => answer RPage (nPutExtentPage repo rec rev)
  | MAllocateChunkIDs v count => answer RNumber (nAllocateChunkIDs repo v count)
  | MPutChunkGarbage rec => answer RDone (nPutChunkGarbage repo rec)
  | MListChunkGarbage v limit => answer RGarbage (nListChunkGarbage repo v limit)
  | MDeleteChunkGarbage v c => answer RDone (nDeleteChunkGarbage repo v c)
  end.

(** What a call brings along: random source, clock, map order, and the clock readings of the cache. *)
Record step := mkStep {
  st_call : mcall; st_rand : nat -> option Z; st_unix : Z; st_order : list VolumeSpec -> list VolumeSpec; st_now : nat -> Z }.

Definition plain_step (x : step) : act MemMeta.Repo svc_error reply :=
  run (memory_repository (st_rand x) (st_unix x) (st_order x)) (st_call x).
Definition cached_step (ttl n : Z) (x : step) : act (cached MemMeta.Repo) svc_error reply :=
  run (cached_repository (memory_repository (st_rand x) (st_unix x) (st_order x)) ttl n (st_now x)) (st_call x).

Definition keeps_geometry (c : mcall) (r : MemMeta.Repo) : Prop :=
  match c with MSyncVolumeSpec spec => same_geometry spec r | _ => True end.

Lemma with_volume_read {A} v (body : VolumeSpec -> MemMeta.op A) r : (forall volume, (body volume r).1 = r) ->
  (MemMeta.with_volume v body r).1 = r.
Proof. intros H. unfold MemMeta.with_volume. by destruct (_ !! v). Qed.

Lemma step_simulates ttl n x r : 0 < n -> MemMetaFacts.consistent r -> geometry_set r -> keeps_geometry (st_call x) r ->
  simulates n (cached_step ttl n x) (plain_step x) r.
Proof.
  intros Hn Hc Hg Hk. destruct x as [c rand unix order now]. unfold cached_step, plain_step. cbn [st_call st_rand st_unix st_order st_now] in *.
  pose proof (fun c => MemMetaFacts.consistent_exec c r Hc) as Hexec.
  destruct c; cbn [run]; apply simulates_reply.
  - apply simulates_invalidated_unit; [apply (Hexec (MemMetaFacts.CEnsureVolume spec))|by apply touches_ensure].
  - apply (simulates_kept_unit _ _ _ 0); [apply (Hexec (MemMetaFacts.CSyncVolumeSpec spec))|by apply keeps_sync].
  - apply (simulates_kept _ _ _ 0); [apply (Hexec (MemMetaFacts.CCreateVolume rand req))|by apply keeps_create].
  - apply (simulates_kept _ _ _ 0); [apply (Hexec (MemMetaFacts.CUpdateVolume v req))|by apply keeps_update].
  - apply simulates_invalidated_unit; [apply (Hexec (MemMetaFacts.CDeleteVolume v))|by apply touches_delete].
  - apply simulates_GetVolume.
  - apply simulates_RefreshVolume.
  - apply simulates_read, with_volume_read. done.
  - apply simulates_invalidated_unit; [apply (Hexec (MemMetaFacts.CPutVolumeStatus st))|by apply touches_status].
  - by apply simulates_read.
  - apply (simulates_kept _ _ _ 0); [apply (Hexec (MemMetaFacts.CSetVolumeState v st))|by apply keeps_state].
  - apply simulates_read, with_volume_read. done.
  - apply simulates_read, with_volume_read. done.
  - apply simulates_invalidated; [apply (Hexec (MemMetaFacts.CUnsafeClearAttachment v))|by apply touches_clear].
  - apply simulates_invalidated; [apply (Hexec (MemMetaFacts.CUnsafeSetGeneration v g))|by apply touches_generation].
  - apply simulates_invalidated; [apply (Hexec (MemMetaFacts.CAttach unix req))|by apply touches_attach].
  - apply simulates_invalidated; [apply (Hexec (MemMetaFacts.CDetach req))|by apply touches_detach].
  - apply simulates_read. cbn. unfold MemMeta.GetGateway. by destruct (_ !! _).
  - by apply simulates_read.
  - by apply simulates_other; [apply (Hexec (MemMetaFacts.CPutGateway rec))|..].
  - by apply simulates_GetExtentPage.
  - by apply simulates_ListExtentPages.
  - by apply simulates_PutExtentPage.
  - apply simulates_other; [apply (Hexec (MemMetaFacts.CAllocateChunkIDs v count))|done|..];
      cbn; unfold MemMeta.AllocateChunkIDs, MemMeta.with_volume; (destruct (_ !! v); [by destruct (count =? 0)|done]).
  - apply simulates_other; [apply (Hexec (MemMetaFacts.CPutChunkGarbage unix rec))|done|..];
      cbn; unfold MemMeta.PutChunkGarbage, MemMeta.with_volume; by destruct (_ !! gcVolumeID rec).
  - apply simulates_read, with_volume_read. done.
  - apply simulates_other; [apply (Hexec (MemMetaFacts.CDeleteChunkGarbage v c))|done|..];
      cbn; unfold MemMeta.DeleteChunkGarbage, MemMeta.with_volume;
      (destruct (MemMeta.volumes r !! v); [cbn; by destruct (MemMeta.chunkGC r !! v)|done]).
Qed.

(** ** Transparency *)

(** The answers to a sequence of calls, and the state they leave. *)
Fixpoint play {S X} (exec : X -> act S svc_error reply) (xs : list X) (s : S) : S * list (result svc_error reply) :=
  match xs with
  | [] => (s, [])
  | x :: xs => let '(s, a) := exec x s in let '(s, answers) := play exec xs s in (s, a :: answers)
  end.

(** No call of [SyncVolumeSpec] changes the geometry of a stored volume. *)
Fixpoint geometry_kept (xs : list step) (r : MemMeta.Repo) : Prop :=
  match xs with
  | [] => True
  | x :: xs => keeps_geometry (st_call x) r /\ geometry_kept xs (plain_step x r).1
  end.

Lemma play_simulates ttl n xs : 0 < n -> forall s r, sim n s r -> geometry_kept xs r ->
  (play (cached_step ttl n) xs s).2 = (play plain_step xs r).2 /\ sim n (play (cached_step ttl n) xs s).1 (play plain_step xs r).1.
Proof.
  intros Hn. induction xs as [|x xs IH]; intros s r Hs Hk; cbn [play]; [done|]. destruct Hk as [Hk Hks].
  destruct (step_simulates ttl n x r Hn (sim_cons _ _ _ Hs) (sim_geo _ _ _ Hs) Hk s Hs) as [He Hs'].
  destruct (cached_step ttl n x s) as [s' a], (plain_step x r) as [r' a']. cbn [fst snd] in *. subst a'.
  destruct (IH s' r' Hs' Hks) as [He2 Hs2]. destruct (play (cached_step ttl n) xs s'), (play plain_step xs r'). cbn in *.
  split; [by rewrite He2|done].
Qed.

Lemma empty_wf n : 0 <= n -> wf n empty_cache.
Proof.
  intros Hn. split; cbn; [apply NoDup_nil_2| | |done|done].
  - intros k. rewrite lookup_empty. split; [by intros ?%not_elem_of_nil|by intros []].
  - intros v p. rewrite !lookup_empty. cbn. split; [by intros ?%not_elem_of_empty|by intros []].
Qed.

Lemma sim_start n r : 0 <= n -> MemMetaFacts.consistent r -> geometry_set r -> sim n (mkCached empty_cache r) r.
Proof.
  intros Hn Hc Hg. split; [done|by apply empty_wf| |done|done].
  split; cbn; [intros v e|intros v p e]; by rewrite lookup_empty.
Qed.

(** C24: a gateway that is the only client of its metadata repository cannot tell whether the cache is there.
    Whatever sequence of calls it makes, as long as [SyncVolumeSpec] does not change the chunk or page size of a stored
    volume and the stored volumes have such sizes, whatever the clock reads and however often pages are evicted or expire, the
    answers are those of the repository without a cache, the repository ends in the same state, and the cache never
    holds more pages than its bound. *)
Theorem cache_transparent (ttl n : Z) (xs : list step) (r : MemMeta.Repo) (s : cached MemMeta.Repo) :
  0 < n -> MemMetaFacts.consistent r -> geometry_set r -> geometry_kept xs r ->
  NewCachedMetadataRepository ttl r = Some s ->
  let '(s', answers) := play (cached_step ttl n) xs s in
  let '(r', answers') := play plain_step xs r in
  answers = answers' /\ cdNext s' = r' /\ zlen (extentPageLRU (cdCache s')) <= n.
Proof.
  intros Hn Hc Hg Hk Hnew. unfold NewCachedMetadataRepository in Hnew. destruct (ttl <=? 0); [done|]. injection Hnew as <-.
  destruct (play_simulates ttl n xs Hn _ r (sim_start n r ltac:(lia) Hc Hg) Hk) as [He Hs].
  destruct (play (cached_step ttl n) xs _) as [s' a], (play plain_step xs r) as [r' a']. cbn in *.
  split_and!; [done|apply Hs|apply (wf_bound _ _ (sim_wf _ _ _ Hs))].
Qed.

(** ** An example *)

Definition demo_repo : MemMeta.Repo := MemMeta.NewInMemoryMetadataRepository [zero_VolumeSpec <| vID := 7 |> <| vPrefix := "vol" |>].

Lemma demo_geometry : geometry_set demo_repo.
Proof. intros v spec. apply (geometry_insert ∅); [vm_compute; discriminate|vm_compute; discriminate|intros ? ?; by rewrite lookup_empty]. Qed.

(** With one page of room and a clock that advances by two units a reading, against a time to live of one. *)
Definition demo_steps : list step :=
  map (fun c => mkStep c (fun _ => None) 0 id (fun i => 2 * Z.of_nat i))
    [MGetExtentPage 7 0; MPutExtentPage (mkAllocationPageRecord 7 0 0 0 0 []) 0; MGetExtentPage 7 1; MGetExtentPage 7 0;
     MGetVolume 7; MSetVolumeState 7 "disabled"; MGetVolume 7; MPutExtentPage (mkAllocationPageRecord 7 0 0 0 0 []) 0;
     MDeleteVolume 7; MGetExtentPage 8 0].

Lemma cache_transparent_witness :
  (play (cached_step 1 1) demo_steps (mkCached empty_cache demo_repo)).2 = (play plain_step demo_steps demo_repo).2.
Proof.
  pose proof (cache_transparent 1 1 demo_steps demo_repo (mkCached empty_cache demo_repo) ltac:(lia)
                (MemMetaFacts.consistent_new _) demo_geometry ltac:(cbn; tauto) eq_refl) as H.
  destruct (play (cached_step 1 1) demo_steps _) as [s' a], (play plain_step demo_steps demo_repo) as [r' a']. apply H.
Defined.

End CachedMetadataFacts.
