(* ===== verification/CachedWorld.v ===== *)
(** * Two gateways and the metadata cache

    The data path of chunk_extent_data.go on top of the metadata cache, with the
    in-memory stores below.  Another gateway works on the same stores without going
    through this cache, so that a page in the cache can be older than the stored
    one; the theorem says what this means for writes to the page. *)

From Stdlib Require Import ZArith Lia Ascii String.
From stdpp Require Import base list gmap strings.
From coqutil Require Import Byte.
From S2P Require Import Prelude GatewayTypes MemoryMetadata ObjectStore ChunkMap Discard ChunkExtent DataWorld WriteRange MemoryWorld CachedMetadata.
Open Scope string_scope.
Open Scope Z_scope.

Module CachedWorld.
Import Gateway Store ChunkMap Discard ChunkExtent DataWorld MemoryWorld.

(** A gateway with a cache: the stores it shares with the others, and its clock. *)
Record CWorld := mkCWorld { cw_meta : CachedMetadata.cached MemMeta.Repo; cw_objects : MemoryStore; cw_clock : Z }.

Definition cache_ttl : Z := 5000000000.

Definition below (w : CWorld) : CachedMetadata.MetadataRepository (CachedMetadata.cached MemMeta.Repo) :=
  CachedMetadata.cached_repository (CachedMetadata.memory_repository (fun _ => None) (cw_clock w) id) cache_ttl
    CachedMetadata.defaultExtentPageCacheEntries (fun _ => cw_clock w).

Definition on_meta {A} (m : CachedMetadata.MetadataRepository (CachedMetadata.cached MemMeta.Repo) ->
    act (CachedMetadata.cached MemMeta.Repo) svc_error A) : act CWorld svc_error A := fun w =>
  let '(s, r) := m (below w) (cw_meta w) in (mkCWorld s (cw_objects w) (cw_clock w), r).

Definition on_store {A} (m : act MemoryStore svc_error A) : act CWorld svc_error A := fun w =>
  let '(o, r) := m (cw_objects w) in (mkCWorld (cw_meta w) o (cw_clock w), r).

#[export] Instance cworld_store : ObjectStore CWorld := {
  store_get k := on_store (Get k);
  store_put k b := on_store (Put k b);
  store_delete k := on_store (Delete k) }.

#[export] Instance cworld_metadata : ExtentMetadata CWorld := {
  GetExtentPage v p := on_meta (fun repo => CachedMetadata.nGetExtentPage repo v p);
  PutExtentPage rec rev := on_meta (fun repo => CachedMetadata.nPutExtentPage repo rec rev);
  AllocateChunkIDs v n := on_meta (fun repo => CachedMetadata.nAllocateChunkIDs repo v n);
  PutChunkGarbage rec := on_meta (fun repo => CachedMetadata.nPutChunkGarbage repo rec) }.

(** The same stores as another gateway without a cache sees them, and its work on them. *)
Definition uncached (w : CWorld) : World :=
  mkWorld (CachedMetadata.cdNext (cw_meta w)) (cw_objects w) (cw_clock w).

Definition elsewhere {A} (m : act World svc_error A) : act CWorld svc_error A := fun w =>
  let '(w', r) := m (uncached w) in
  (mkCWorld (CachedMetadata.mkCached (CachedMetadata.cdCache (cw_meta w)) (repo w')) (objects w') (cw_clock w), r).

Definition volume : VolumeSpec := small_volume.
Definition write {S} `{ObjectStore S, ExtentMetadata S} (off len : Z) : act S svc_error unit :=
  WriteAt None id (fun _ _ s => s) volume off len (ones len).

Definition start : CWorld :=
  mkCWorld (CachedMetadata.mkCached CachedMetadata.empty_cache (repo small_world)) NewMemoryStore 1000.

(** This gateway reads a chunk, then the other one writes the next chunk of the same page. *)
Definition contended : CWorld * result svc_error unit :=
  bind_act (ReadAt volume 0 8) (fun _ => elsewhere (write 8 8)) start.

(** ** A page whose commit always conflicts *)

Section Doomed.
Context {S : Type} `{ObjectStore S, ExtentMetadata S}.
Context (planner : option (VolumeSpec -> Z -> Z -> result svc_error PhysicalChunkRef)).
Context (order : list PhysicalChunkRef -> list PhysicalChunkRef).
Context (I : S -> Prop) (v p rev : Z).
Abbreviation alone := (fun (_ _ : nat) (s : S) => s).

(** The steps of a write keep [I]; under it page [p] is read with revision [rev], with which it cannot be stored. *)
Context (get_keeps : forall k s, I s -> I (store_get k s).1) (put_keeps : forall k b s, I s -> I (store_put k b s).1).
Context (alloc_keeps : forall n s, I s -> I (AllocateChunkIDs v n s).1) (garbage_keeps : forall rec s, I s -> I (PutChunkGarbage rec s).1).
Context (page_keeps : forall s, I s -> I (GetExtentPage v p s).1 /\ forall pg, (GetExtentPage v p s).2 = Ok pg -> pRevision pg = rev).
Context (commit_fails : forall rec s, I s -> pVolumeID rec = v -> pPageNo rec = p ->
  I (PutExtentPage rec rev s).1 /\ forall pg, (PutExtentPage rec rev s).2 <> Ok pg).

Definition preserves {A} (m : act (counted (S:=S)) svc_error A) : Prop := forall w, I w.1 -> I (m w).1.1.

Lemma preserves_bind {A B} (m : act counted svc_error A) (f : A -> act counted svc_error B) :
  preserves m -> (forall a, preserves (f a)) -> preserves (bind_act m f).
Proof.
  intros Hm Hf w Hw. specialize (Hm w Hw). unfold bind_act. destruct (m w) as [w' [a|e|]]; cbn in *; [by apply Hf|done|done].
Qed.

Lemma preserves_lift {A} (m : act S svc_error A) : (forall s, I s -> I (m s).1) -> preserves (lift m).
Proof. intros Hm w Hw. specialize (Hm w.1 Hw). unfold lift. by destruct (m w.1). Qed.

Lemma preserves_pure {A} (m : act counted svc_error A) : (forall w, (m w).1.1 = w.1) -> preserves m.
Proof. intros Hm w Hw. by rewrite Hm. Qed.

Lemma read_ref_keeps vol ref s : I s -> I (ReadChunkRef vol ref s).1.
Proof.
  intros Hs. unfold ReadChunkRef, bind_act. specialize (get_keeps (buildPhysicalChunkKey (vPrefix vol) ref) s Hs).
  destruct (store_get _ s) as [s' [[b|]|e|]]; cbn in *; try done. by destruct (negb _).
Qed.

Lemma read_mapping_keeps vol m s : I s -> I (readChunkByMapping vol m s).1.
Proof. intros Hs. unfold readChunkByMapping. repeat split_match; try done. by apply read_ref_keeps. Qed.

Lemma scan_keeps vol off len base data cur n : forall i sc, preserves (scan_loop vol off len base data cur n i sc).
Proof.
  induction n as [|n IH]; intros i sc; cbn [scan_loop]; [by apply preserves_pure|].
  destruct (_ <=? _); [apply IH|]. apply preserves_bind; [by apply preserves_pure|intros src].
  apply preserves_bind; [by apply preserves_pure|intros m]. apply preserves_bind.
  - destruct (_ && _).
    + apply preserves_bind; [by apply preserves_pure|intros _; by apply preserves_pure].
    + apply preserves_bind; [by apply preserves_pure|intros _]. apply preserves_bind; [apply preserves_lift; intros s; apply read_mapping_keeps|intros b].
      apply preserves_bind; [by apply preserves_pure|intros _; by apply preserves_pure].
  - intros b. destruct (isAllZero b); apply IH.
Qed.

Lemma garbage_loop_keeps vol refs : preserves (record_garbage_loop vol refs).
Proof.
  induction refs as [|r refs IH]; cbn [record_garbage_loop]; [by apply preserves_pure|].
  apply preserves_bind; [apply preserves_lift; intros s; apply garbage_keeps|intros _]. apply preserves_bind; [by apply preserves_pure|intros _; exact IH].
Qed.

Lemma record_keeps vol refs : preserves (recordGarbage order vol refs).
Proof. apply garbage_loop_keeps. Qed.

Lemma pending_keeps vol base cur start todo : forall i sc ws news,
  preserves (write_pending planner order vol base cur start i todo sc ws news).
Proof.
  induction todo as [|[k b] todo IH]; intros i sc ws news; cbn [write_pending]; [by apply preserves_pure|].
  destruct (choosePhysicalChunkRef _ _ _ _) as [ref|e|].
  - intros w Hw. assert (preserves (lift (WriteChunkRef vol ref b))) as Hk.
    { apply preserves_lift. intros s Hs. unfold WriteChunkRef. destruct (negb _); [done|]. by apply put_keeps. }
    specialize (Hk w Hw). destruct (lift _ w) as [w1 [u|e|]]; cbn [fst] in Hk; [|by apply preserves_bind; [apply record_keeps|intros _; by apply preserves_pure|]|done].
    apply preserves_bind; [by apply preserves_pure|intros _|done]. apply preserves_bind; [by apply preserves_pure|intros m]. apply IH.
  - apply preserves_bind; [apply record_keeps|intros _; by apply preserves_pure].
  - by apply preserves_pure.
Qed.

(** A step that keeps [I] and never commits. *)
Definition doomed (m : act (counted (S:=S)) svc_error attempt_result) : Prop :=
  forall w, I w.1 -> I (m w).1.1 /\ (m w).2 <> Ok Committed.

Lemma doomed_bind {A} (m : act counted svc_error A) f : preserves m -> (forall a, doomed (f a)) -> doomed (bind_act m f).
Proof.
  intros Hm Hf w Hw. specialize (Hm w Hw). unfold bind_act. destruct (m w) as [w' [a|e|]]; cbn in *; [by apply Hf|done|done].
Qed.

Lemma doomed_page f : (forall pg, pRevision pg = rev -> doomed (f pg)) -> doomed (bind_act (lift (GetExtentPage v p)) f).
Proof.
  intros Hf w Hw. destruct (page_keeps w.1 Hw) as [Hk Hr]. unfold bind_act, lift.
  destruct (GetExtentPage v p w.1) as [s' [pg|e|]]; cbn in *; [|done|done]. apply Hf; [by apply Hr|done].
Qed.

Lemma doomed_retry vol refs : doomed (bind_act (recordGarbage order vol refs) (fun _ => ret_act Retry)).
Proof. apply doomed_bind; [apply record_keeps|]. by intros _ w Hw. Qed.

Lemma attempt_doomed attempt vol off len base n i0 i1 data : vID vol = v ->
  doomed (write_attempt planner order alone attempt vol p off len base n i0 i1 data).
Proof.
  intros Hv. unfold write_attempt. rewrite Hv. apply doomed_bind; [by apply preserves_pure|intros _]. apply doomed_page. intros page Hpage.
  apply doomed_bind; [apply scan_keeps|intros sc]. apply doomed_bind; [by apply preserves_pure|intros _]. apply doomed_bind.
  { destruct (0 <? zlen (pending sc)); [|by apply preserves_pure].
    apply preserves_bind; [apply preserves_lift; intros s; apply alloc_keeps|intros start; apply pending_keeps]. }
  intros [[sc' ws] news]. apply doomed_bind; [by apply preserves_pure|intros _]. apply doomed_page. intros commitPage Hcommit.
  rewrite Hcommit, Hpage, Z.eqb_refl. cbn [negb andb]. apply doomed_bind; [by apply preserves_pure|intros _]. intros w Hw.
  set (rec := mkAllocationPageRecord _ _ _ _ _ _). destruct (commit_fails rec w.1 Hw eq_refl eq_refl) as [Hk Hno].
  unfold lift. destruct (PutExtentPage rec rev w.1) as [s' [pg|e|]]; cbn [fst snd] in *; [by destruct (Hno pg)| |done].
  destruct (bool_decide _); [by apply doomed_retry|done].
Qed.

Lemma attempts_doomed body : (forall i, doomed (body i)) -> forall n i w, I w.1 ->
  I (attempts n i body w).1.1 /\ (attempts n i body w).2 <> Ok tt.
Proof.
  intros Hb. induction n as [|n IH]; intros i w Hw; cbn [attempts]; [done|]. destruct (Hb i w Hw) as [Hk Hno]. unfold bind_act.
  destruct (body i w) as [w' [[]|e|]]; cbn [fst snd] in *; try done. by apply IH.
Qed.

(** A write inside of the page never succeeds. *)
Lemma write_doomed vol off len data s : geometry vol -> vID vol = v -> 0 <= off -> 0 < len -> off + len <= vSizeBytes vol ->
  off / cs vol / cpp vol = p -> (off + len - 1) / cs vol / cpp vol = p -> I s ->
  I (WriteAt planner order alone vol off len data s).1 /\ (WriteAt planner order alone vol off len data s).2 <> Ok tt.
Proof.
  intros Hg Hv Hoff Hpos Hend Hp1 Hp2 Hs. pose proof (geo_cs vol Hg). pose proof (geo_cpp vol Hg). pose proof (geo_size vol Hg).
  assert (off / cs vol / cpp vol <= p <= (off + len - 1) / cs vol / cpp vol) as Hin by lia.
  pose proof (WriteRange.page_facts vol Hg off len Hoff Hpos Hend p Hin) as (Hp & Hn & _ & Hb0 & Hlt & Hb1 & Hlast & _).
  destruct (WriteRange.count_eq vol Hg off len Hoff Hpos Hend p Hin) as [Hcount Hmul].
  assert (0 <= WriteRange.count_in vol p * cs vol) by (apply Z.mul_nonneg_nonneg; lia).
  unfold WriteAt, WriteAtWithStats. rewrite (geo_norm vol Hg). destruct (Z.eqb_spec len 0); [lia|].
  change (vExtentPageBytes vol / vChunkSizeBytes vol) with (cpp vol). change (vChunkSizeBytes vol) with (cs vol).
  destruct (Z.eqb_spec (cpp vol) 0); [lia|]. rewrite add64_small, sub64_small by (unfold in_u; lia). rewrite Hp1, Hp2.
  replace (Z.to_nat (p - p + 1)) with 1%nat by lia. cbn [write_pages]. unfold bind_act at 1, count. cbn [fst snd].
  unfold writePage. change (vExtentPageBytes vol / vChunkSizeBytes vol) with (cpp vol). change (vChunkSizeBytes vol) with (cs vol).
  rewrite Hcount, Hmul. destruct (Z.eqb_spec (WriteRange.count_in vol p) 0); [lia|].
  rewrite (mul64_small (p * cpp vol) (cs vol)), (mul64_small (WriteRange.count_in vol p) (cs vol)),
    (add64_small (p * cpp vol * cs vol) _), (add64_small off len) by (unfold in_u; lia).
  destruct (Z.leb_spec (Z.min (off + len) (p * cpp vol * cs vol + WriteRange.count_in vol p * cs vol)) (Z.max off (p * cpp vol * cs vol))); [lia|].
  match goal with |- context [attempts _ _ ?b] => pose proof (attempts_doomed b (fun i => attempt_doomed i vol off len _ _ _ _ data Hv)
    chunkExtentWriteRetryLimit 0%nat (s, zero_stats <| Pages := Pages zero_stats + 1 |>) Hs) as [Hk Hno] end.
  unfold bind_act. destruct (attempts _ _ _ _) as [[s' st] [[]|e|]]; cbn [fst snd] in *; done.
Qed.

End Doomed.

(** ** A gateway with a stale copy *)

Definition stored_revision (v p : Z) (w : CWorld) : Z :=
  match MemMeta.pages_of (CachedMetadata.cdNext (cw_meta w)) v !! p with Some page => pRevision page | None => 0 end.

(** The gateway holds a copy of page [p] that has not expired, while the repository holds revision [stored]. *)
Record stale_copy (v p : Z) (entry : CachedMetadata.cachedExtentPage) (stored : Z) (w : CWorld) : Prop := {
  stale_cached : CachedMetadata.extentPageCache (CachedMetadata.cdCache (cw_meta w)) !! (v, p) = Some entry;
  stale_lives : cw_clock w <= CachedMetadata.ceExpiresAt entry;
  stale_stored : stored_revision v p w = stored;
  stale_differs : pRevision (CachedMetadata.cePage entry) <> stored }.

Section Stale.
Context (v p : Z) (entry : CachedMetadata.cachedExtentPage) (stored : Z).
Abbreviation stale := (stale_copy v p entry stored).

Lemma stale_objects o w : stale w -> stale (mkCWorld (cw_meta w) o (cw_clock w)).
Proof. by intros [? ? ? ?]. Qed.

Lemma stale_on_store {A} (m : act MemoryStore svc_error A) w : stale w -> stale (on_store m w).1.
Proof. intros Hw. unfold on_store. destruct (m (cw_objects w)). by apply stale_objects. Qed.

Lemma stale_repo {A} (m : MemMeta.op A) w : (forall r, MemMeta.pages_of (m r).1 v = MemMeta.pages_of r v) -> stale w ->
  stale (on_meta (fun _ => CachedMetadata.down m) w).1.
Proof.
  intros Hm [H1 H2 H3 H4]. unfold on_meta, CachedMetadata.down. specialize (Hm (CachedMetadata.cdNext (cw_meta w))).
  destruct (m (CachedMetadata.cdNext (cw_meta w))) as [r' x]. cbn [fst] in *. split; [done|done| |done].
  rewrite <-H3. unfold stored_revision. cbn [cw_meta CachedMetadata.cdNext]. by rewrite Hm.
Qed.

Lemma stale_page w : stale w -> stale (GetExtentPage v p w).1 /\ (GetExtentPage v p w).2 = Ok (CachedMetadata.cePage entry).
Proof.
  intros [H1 H2 H3 H4]. cbn [GetExtentPage cworld_metadata]. unfold on_meta, below. cbn [CachedMetadata.nGetExtentPage CachedMetadata.cached_repository].
  unfold CachedMetadata.GetExtentPage, CachedMetadata.loadExtentPage. rewrite H1.
  destruct (Z.ltb_spec (CachedMetadata.ceExpiresAt entry) (cw_clock w)); [lia|]. by split.
Qed.

Lemma stale_commit rec w : stale w -> pVolumeID rec = v -> pPageNo rec = p ->
  stale (PutExtentPage rec (pRevision (CachedMetadata.cePage entry)) w).1 /\
  forall pg, (PutExtentPage rec (pRevision (CachedMetadata.cePage entry)) w).2 <> Ok pg.
Proof.
  intros [H1 H2 H3 H4] Hv Hp. cbn [PutExtentPage cworld_metadata]. unfold on_meta, below.
  cbn [CachedMetadata.nPutExtentPage CachedMetadata.cached_repository]. unfold CachedMetadata.PutExtentPage, bind_act, CachedMetadata.down.
  cbn [CachedMetadata.nPutExtentPage CachedMetadata.memory_repository]. unfold MemMeta.PutExtentPage, MemMeta.with_volume. rewrite Hv.
  destruct (MemMeta.volumes _ !! v) as [vol|]; [|by split].
  change (pVolumeID (rec <| pPageBytes := or_default (pPageBytes rec) (vExtentPageBytes vol) |> <| pChunkSizeBytes := or_default (pChunkSizeBytes rec) (vChunkSizeBytes vol) |>)) with (pVolumeID rec).
  change (pPageNo (rec <| pPageBytes := or_default (pPageBytes rec) (vExtentPageBytes vol) |> <| pChunkSizeBytes := or_default (pChunkSizeBytes rec) (vChunkSizeBytes vol) |>)) with (pPageNo rec).
  rewrite Hv, Hp. unfold stored_revision in H3. rewrite H3. rewrite (proj2 (Z.eqb_neq stored _)) by congruence. cbn [negb].
  split; [|done]. split; [done|done| |done]. rewrite <-H3. unfold stored_revision. cbn. unfold MemMeta.pages_of. cbn.
  by rewrite lookup_insert_eq.
Qed.

End Stale.

(** C25: a gateway with a stale copy of a page cannot write to it.  While the copy lives, the gateway reads the page from
    it, and no write inside of the page succeeds, whatever is written: each attempt reads the copy again, since a conflict
    does not drop it, and its commit is refused.  The copy and the stored page are still as they were afterwards, so the
    next write fails in the same way. *)
Theorem stale_page_defeats_retries (vol : VolumeSpec) (planner : option (VolumeSpec -> Z -> Z -> result svc_error PhysicalChunkRef))
    (order : list PhysicalChunkRef -> list PhysicalChunkRef) (p off len stored : Z) (d : bytes)
    (entry : CachedMetadata.cachedExtentPage) (w : CWorld) :
  geometry vol -> 0 <= off -> 0 < len -> off + len <= vSizeBytes vol ->
  off / cs vol / cpp vol = p -> (off + len - 1) / cs vol / cpp vol = p -> stale_copy (vID vol) p entry stored w ->
  (GetExtentPage (vID vol) p w).2 = Ok (CachedMetadata.cePage entry) /\
  (WriteAt planner order (fun _ _ s => s) vol off len d w).2 <> Ok tt /\
  stale_copy (vID vol) p entry stored (WriteAt planner order (fun _ _ s => s) vol off len d w).1.
Proof.
  intros Hg Hoff Hpos Hend Hp1 Hp2 Hw. split; [by apply (stale_page _ _ _ stored)|]. apply and_comm.
  apply (write_doomed planner order (stale_copy (vID vol) p entry stored) (vID vol) p (pRevision (CachedMetadata.cePage entry))); try done.
  - intros k s. apply stale_on_store.
  - intros k b s. apply stale_on_store.
  - intros n s. apply (stale_repo _ _ _ _ (MemMeta.AllocateChunkIDs (vID vol) n)). intros r. unfold MemMeta.AllocateChunkIDs, MemMeta.with_volume.
    destruct (MemMeta.volumes r !! _); [|done]. by destruct (n =? 0).
  - intros rec s. apply (stale_repo _ _ _ _ (MemMeta.PutChunkGarbage (cw_clock s) rec)). intros r. unfold MemMeta.PutChunkGarbage, MemMeta.with_volume.
    by destruct (MemMeta.volumes r !! _).
  - intros s Hs. destruct (stale_page _ _ _ _ _ Hs) as [? E]. split; [done|]. intros pg. rewrite E. by intros [= <-].
  - intros rec s Hs Hv Hp. by apply stale_commit.
Qed.

(** The run above: this gateway reads a chunk, the other one writes the next chunk of the page. *)
Definition contended_entry : CachedMetadata.cachedExtentPage :=
  default (CachedMetadata.mkCachedExtentPage zero_AllocationPageRecord 0)
    (CachedMetadata.extentPageCache (CachedMetadata.cdCache (cw_meta contended.1)) !! (vID volume, 0)).

Lemma contended_stale : stale_copy (vID volume) 0 contended_entry 1 contended.1.
Proof. split; vm_compute; congruence. Qed.

Lemma contended_results :
  contended.2 = Ok tt /\ (write 0 8 (uncached contended.1)).2 = Ok tt /\
  (ReadAt volume 8 8 contended.1).2 = Ok (zeroes 8) /\ (ReadAt volume 8 8 (uncached contended.1)).2 = Ok (ones 8).
Proof. vm_compute. split_and!; reflexivity. Qed.

Lemma stale_page_defeats_retries_witness :
  stale_copy (vID volume) 0 contended_entry 1 contended.1 /\
  (write 0 8 contended.1).2 <> Ok tt /\ (write 0 8 (uncached contended.1)).2 = Ok tt /\
  stale_copy (vID volume) 0 contended_entry 1 (write 0 8 contended.1).1.
Proof.
  destruct (stale_page_defeats_retries volume None id 0 0 8 1 (ones 8) contended_entry contended.1) as (_ & H1 & H2).
  { exact small_geometry. } 1-3: vm_compute; congruence. 1-2: vm_compute; reflexivity. { exact contended_stale. }
  split; [exact contended_stale|]. split; [exact H1|]. split; [exact (proj1 (proj2 contended_results))|exact H2].
Defined.

End CachedWorld.
