(* ===== verification/PathPlan.v ===== *)
(** * The path plan of a volume

    Models src/gateway/service/path_plan_status.go: which gateways a volume should
    be reached through, when its writer has to move to another gateway, and the
    reconciliation of a status record with the observed gateways; and the fleet
    records of gateway_fleet.go.  [time.Now().Unix()] is an argument; the code reads
    it several times within one reconciliation, the model once.  [reflect.DeepEqual]
    is equality of records: where only nil and empty slices differ, neither set has
    changed and both answers are the same.  [RuntimeNoPathSummary], which only renames fields for
    JSON, is left out. *)

From Stdlib Require Import ZArith Lia Ascii String.
From stdpp Require Import base list gmap strings sorting.
From S2P Require Import Prelude GoStrings GatewayTypes Handoff.
Open Scope string_scope.
Open Scope Z_scope.

Module PathPlan.
Import Gateway Handoff.

#[export] Instance VolumeStatusRecord_eq_dec : EqDecision VolumeStatusRecord.
Proof. solve_decision. Defined.

Definition runtimePathPlanReapplyEscalationDelay : Z := 15.
Definition runtimePathExpansionStabilizationDelay : Z := 10.
Definition handoffGenerationRotationEscalationDelay : Z := 15.
Definition runtimePathReductionHoldThreshold : Z := 2.

Definition nextRuntimeExpansionDelay (st : VolumeStatusRecord) : Z :=
  let level := sRuntimePathExpansionBackoffLevel st in
  let level := if 3 <? level then 3 else level in
  runtimePathExpansionStabilizationDelay * Z.shiftl 1 level.

(** ** Gateways *)

Definition GatewayObservedForPathPlan (state : GatewayConnectionState) : bool :=
  String.eqb state GatewayStateUp || String.eqb state GatewayStateDegraded || String.eqb state GatewayStateUnknown.

Definition GatewayDesiredForPathPlan (state : GatewayConnectionState) : bool := String.eqb state GatewayStateUp.

(** The identifiers of the gateways in a state, sorted. *)
Definition gateway_ids (in_state : GatewayConnectionState -> bool) (gateways : list GatewayRecord) : list string :=
  merge_sort String.le
    (map gGatewayID (List.filter (fun g => negb (String.eqb (gGatewayID g) "") && in_state (gConnectionState g)) gateways)).

Definition ComputeObservedActiveGatewaySet (gateways : list GatewayRecord) : list string :=
  gateway_ids GatewayObservedForPathPlan gateways.

Fixpoint gatewayDesiredByID (gateways : list GatewayRecord) (gatewayID : string) : bool :=
  match gateways with
  | [] => false
  | g :: gateways => if String.eqb (gGatewayID g) gatewayID then GatewayDesiredForPathPlan (gConnectionState g)
                     else gatewayDesiredByID gateways gatewayID
  end.

Definition desiredGatewayCount (gateways : list GatewayRecord) : Z :=
  zlen (List.filter (fun g => GatewayDesiredForPathPlan (gConnectionState g)) gateways).

(** ** Escalations *)

Definition runtimePathExpansionEligible (now : Z) (st : VolumeStatusRecord) : bool :=
  (0 <? sRuntimePathExpansionEligibleAtUnix st) && (sRuntimePathExpansionEligibleAtUnix st <=? now).

Definition ControllerPathPlanRuntimeExpansionEligible := runtimePathExpansionEligible.

Definition shouldDelayRuntimeDesiredReExpansion (st : VolumeStatusRecord) (gateways : list GatewayRecord) : bool :=
  if sRuntimePathNeedsAttention st || negb (runtimePathPlanConverged st) then false else
  if negb (zlen (sDesiredActiveGatewaySet st) =? 1) || (desiredGatewayCount gateways <=? 1) then false else
  (0 <? sRuntimePathFeedbackCount st) || (0 <? sRuntimePathReductionHoldUntilUnix st).

Definition shouldEscalateRuntimePathPlanReapply (now : Z) (st : VolumeStatusRecord) : bool :=
  if negb (sInUse st) || negb (sPathPlanReapplyRequested st) || negb (sRuntimePathNeedsAttention st) then false else
  if runtimePathPlanConverged st || (sPathPlanReapplyRequestedAtUnix st =? 0) then false else
  if sub_i64 now (sPathPlanReapplyRequestedAtUnix st) <? runtimePathPlanReapplyEscalationDelay then false else
  containsGatewayID (sRuntimePathAttentionReasons st) "lane_unavailable"
  || containsGatewayID (sRuntimePathAttentionReasons st) "lane_down_preferred".

Definition shouldEscalatePendingGenerationRotation (now : Z) (st : VolumeStatusRecord) : bool :=
  if negb (sInUse st) || negb (sHandoffRequired st) then false else
  if negb (String.eqb (handoffStage st) "pending_generation_rotation") || (sHandoffRequestedAtUnix st =? 0) then false else
  handoffGenerationRotationEscalationDelay <=? sub_i64 now (sHandoffRequestedAtUnix st).

Definition shouldAdvancePendingGenerationRotationEscalation (now : Z) (st : VolumeStatusRecord) : bool :=
  if negb (shouldEscalatePendingGenerationRotation now st) then false else
  (sHandoffNextEscalationAtUnix st =? 0) || (sHandoffNextEscalationAtUnix st <=? now).

Definition shouldPreferFewerDesiredGateways (now : Z) (st : VolumeStatusRecord) (gateways : list GatewayRecord) : bool :=
  shouldEscalateRuntimePathPlanReapply now st
  || containsGatewayID (sRuntimePathRecommendedActions st) "prefer_fewer_active_paths"
  || (now <? sRuntimePathExpansionEligibleAtUnix st)
  || (now <? sRuntimePathReductionHoldUntilUnix st)
  || existsb (fun g => String.eqb (gConnectionState g) GatewayStateDegraded
                       || String.eqb (gConnectionState g) GatewayStateUnknown) gateways.

Definition shouldPreferAggressiveRuntimeHandoff (now : Z) (st : VolumeStatusRecord) : bool :=
  if sRuntimePathReductionHoldUntilUnix st <=? now then false else
  containsGatewayID (sRuntimePathAttentionReasons st) "lane_unavailable"
  || containsGatewayID (sRuntimePathAttentionReasons st) "lane_down_preferred".

Definition shouldForceCurrentGatewayHandoff (now : Z) (st : VolumeStatusRecord) : bool :=
  shouldPreferAggressiveRuntimeHandoff now st || shouldEscalateRuntimePathPlanReapply now st
  || shouldEscalatePendingGenerationRotation now st.

(** ** The desired set *)

(** The alternative behind the first one that is [current], cyclically. *)
Fixpoint next_after (current : string) (rest all : list string) : option string :=
  match rest with
  | [] => None
  | candidate :: rest =>
      if String.eqb candidate current then match rest with [] => head all | next :: _ => Some next end
      else next_after current rest all
  end.

(** [candidates] is not empty where this is called. *)
Definition selectForcedHandoffGateway (now : Z) (st : VolumeStatusRecord) (candidates : list string) : string :=
  let alternatives := List.filter (fun c => negb (String.eqb c (sCurrentGatewayID st))) candidates in
  match alternatives with
  | [] => default "" (head candidates)
  | first :: _ =>
      match sDesiredActiveGatewaySet st with
      | [desired] =>
          if shouldEscalatePendingGenerationRotation now st && negb (String.eqb desired (sCurrentGatewayID st))
             && containsGatewayID alternatives desired
          then if negb (shouldAdvancePendingGenerationRotationEscalation now st) then desired else
               if zlen alternatives =? 1 then first else default first (next_after desired alternatives alternatives)
          else first
      | _ => first
      end
  end.

Definition reduceDesiredGatewaySet (now : Z) (st : VolumeStatusRecord) (gateways : list GatewayRecord)
    (candidates : list string) : list string :=
  if zlen candidates <=? 1 then candidates else
  let current := sCurrentGatewayID st in
  if sInUse st && negb (String.eqb current "") && containsGatewayID candidates current
     && gatewayDesiredByID gateways current && negb (shouldForceCurrentGatewayHandoff now st)
  then [current] else
  if negb (String.eqb current "") && containsGatewayID candidates current && shouldForceCurrentGatewayHandoff now st
  then [selectForcedHandoffGateway now st candidates] else
  take 1 candidates.

Definition ComputeDesiredActiveGatewaySet (now : Z) (st : VolumeStatusRecord) (gateways : list GatewayRecord)
    (observed : list string) : list string :=
  let out := gateway_ids GatewayDesiredForPathPlan gateways in
  let fewer := shouldPreferFewerDesiredGateways now st gateways in
  if zlen out =? 0 then
    if fewer && (1 <? zlen observed) then reduceDesiredGatewaySet now st gateways observed else observed
  else if fewer && (1 <? zlen out) then reduceDesiredGatewaySet now st gateways out else out.

(** ** Attention and actions *)

Definition handoffReasonForStatus (now : Z) (st : VolumeStatusRecord) : string :=
  if shouldEscalatePendingGenerationRotation now st then "handoff_generation_rotation_stalled_current_gateway" else
  if shouldEscalateRuntimePathPlanReapply now st then "runtime_path_plan_reapply_stalled_current_gateway" else
  if shouldPreferAggressiveRuntimeHandoff now st then "runtime_hold_borderline_current_gateway" else
  "current_gateway_not_desired".

Definition pathPlanReapplyReason (st : VolumeStatusRecord) : string :=
  match List.find (containsGatewayID (sRuntimePathAttentionReasons st))
          ["lane_unavailable"; "lane_down_preferred"; "lane_degraded_without_up_fallback"] with
  | Some reason => "runtime_" ++ reason
  | None =>
      if containsGatewayID (sRuntimePathRecommendedActions st) "reapply_latest_path_plan" then "runtime_reapply_latest_path_plan" else
      if containsGatewayID (sRuntimePathRecommendedActions st) "refresh_gateway_path_plan" then "runtime_refresh_gateway_path_plan" else
      ""
  end.

Definition shouldRequestPathPlanReapply (now : Z) (st : VolumeStatusRecord) : bool * string :=
  if runtimePathPlanConverged st then (false, "") else
  if sRuntimePathNeedsAttention st
     && (containsGatewayID (sRuntimePathRecommendedActions st) "refresh_gateway_path_plan"
         || containsGatewayID (sRuntimePathRecommendedActions st) "reapply_latest_path_plan")
  then (true, pathPlanReapplyReason st) else
  if sPathPlanReapplyRequested st && (now <? sRuntimePathReductionHoldUntilUnix st)
  then (true, if String.eqb (sPathPlanReapplyReason st) "" then pathPlanReapplyReason st else sPathPlanReapplyReason st) else
  (false, "").

Definition handoffBackoffState (now : Z) (st : VolumeStatusRecord) : string :=
  if negb (String.eqb (sHandoffReason st) "handoff_generation_rotation_stalled_current_gateway") then "" else
  if (sHandoffNextEscalationAtUnix st =? 0) || (sHandoffNextEscalationAtUnix st <=? now) then "eligible" else "waiting".

Definition nextHandoffEscalationDelay (count : Z) : Z :=
  let count := if 3 <? count then 3 else count in
  handoffGenerationRotationEscalationDelay * Z.shiftl 1 count.

Definition EqualGatewayIDSet (a b : list string) : bool := bool_decide (a = b).

Fixpoint dedupe_loop (values : list string) (seen : gset string) (out : list string) : list string :=
  match values with
  | [] => out
  | value :: values => if bool_decide (value ∈ seen) then dedupe_loop values seen out
                       else dedupe_loop values ({[value]} ∪ seen) (out ++ [value])%list
  end.

Definition dedupeStrings (values : list string) : list string := dedupe_loop values ∅ [].

Definition gateway_reasons (g : GatewayRecord) : list string :=
  if String.eqb (gGatewayID g) "" then [] else
  if String.eqb (gConnectionState g) GatewayStateDegraded then ["observed_degraded_gateway"] else
  if String.eqb (gConnectionState g) GatewayStateUnknown then ["observed_unknown_gateway"] else [].

Definition gateway_actions (g : GatewayRecord) : list string :=
  if String.eqb (gGatewayID g) "" then [] else
  if String.eqb (gConnectionState g) GatewayStateDegraded then ["refresh_gateway_path_plan"; "prefer_fewer_active_paths"] else
  if String.eqb (gConnectionState g) GatewayStateUnknown then ["refresh_gateway_path_plan"] else [].

Definition pathPlanAttention (gateways : list GatewayRecord) (observed desired : list string) : bool * list string * list string :=
  let none := zlen observed =? 0 in
  let undesired := (zlen desired =? 0) && (0 <? zlen observed) in
  let reasons := ((if none then ["no_observed_gateway"] else []) ++ (if undesired then ["no_desired_gateway"] else [])
                  ++ concat (map gateway_reasons gateways))%list in
  let actions := ((if none then ["refresh_gateway_path_plan"; "reopen_or_reapply_path_plan"] else [])
                  ++ (if undesired then ["refresh_gateway_path_plan"; "prefer_fewer_active_paths"] else [])
                  ++ concat (map gateway_actions gateways))%list in
  let reasons := dedupeStrings reasons in
  (0 <? zlen reasons, reasons, dedupeStrings actions).

Definition ControllerPathPlanNeedsAttention (st : VolumeStatusRecord) : bool :=
  sPathPlanNeedsAttention st || sRuntimePathNeedsAttention st.

Definition ControllerPathPlanAttentionReasons (st : VolumeStatusRecord) : list string :=
  dedupeStrings (sPathPlanAttentionReasons st ++ sRuntimePathAttentionReasons st)%list.

Definition handoffRecommendedActions (now : Z) (st : VolumeStatusRecord) : list string :=
  if negb (sHandoffRequired st) then [] else
  let reason := sHandoffReason st in
  "complete_gateway_handoff" ::
  (if String.eqb reason "runtime_hold_borderline_current_gateway"
      || String.eqb reason "runtime_path_plan_reapply_stalled_current_gateway"
   then ["complete_gateway_handoff_aggressively"; "prefer_fewer_active_paths"] else
   if String.eqb reason "handoff_generation_rotation_stalled_current_gateway"
   then "prefer_fewer_active_paths" ::
        (if String.eqb (handoffBackoffState now st) "eligible" then ["complete_gateway_handoff_aggressively"] else [])
   else []).

Definition runtimeNoPathRecommendedActions (st : VolumeStatusRecord) : list string :=
  if String.eqb (sRuntimeNoPathState st) "queueing" then
    (["restore_gateway_path"; "start_replacement_gateway"; "check_gateway_registry"]
     ++ (if String.eqb (sRuntimeNoPathRetryMode st) "queue" || String.eqb (sRuntimeNoPathRetryMode st) "timed"
         then ["disable_no_path_queueing_if_unwanted"] else []))%list
  else if String.eqb (sRuntimeNoPathState st) "failing" then ["restore_gateway_path"; "check_gateway_registry"] else [].

Definition ControllerPathPlanRecommendedActions (now : Z) (st : VolumeStatusRecord) : list string :=
  dedupeStrings (sPathPlanRecommendedActions st ++ sRuntimePathRecommendedActions st ++ handoffRecommendedActions now st
                 ++ runtimeNoPathRecommendedActions st
                 ++ (if runtimePathExpansionEligible now st then ["refresh_gateway_path_plan"] else []))%list.

Definition OperatorPathPlanRecommendedActions := ControllerPathPlanRecommendedActions.

Definition ClusterPriorityRecommendedActions (currentClass topClass : string) : list string :=
  if String.eqb topClass "" || String.eqb currentClass topClass then [] else
  if String.eqb topClass "aggressive_handoff" then ["complete_gateway_handoff_aggressively"] else
  if String.eqb topClass "handoff" then ["complete_gateway_handoff"] else
  if String.eqb topClass "expansion_ready" || String.eqb topClass "refresh" || String.eqb topClass "attention"
  then ["refresh_gateway_path_plan"] else [].

Definition operatorPathPlanPriorityClass (now : Z) (st : VolumeStatusRecord) (actions : list string) : string :=
  if containsGatewayID actions "complete_gateway_handoff_aggressively" then "aggressive_handoff" else
  if containsGatewayID actions "complete_gateway_handoff" then "handoff" else
  if ControllerPathPlanRuntimeExpansionEligible now st then "expansion_ready" else
  if containsGatewayID actions "refresh_gateway_path_plan" || containsGatewayID actions "reapply_latest_path_plan" then "refresh" else
  if ControllerPathPlanNeedsAttention st then "attention" else "normal".

Definition OperatorPathPlanPriorityClass (now : Z) (st : VolumeStatusRecord) : string :=
  operatorPathPlanPriorityClass now st (OperatorPathPlanRecommendedActions now st).

Definition OperatorPathPlanRecommendedActionsWithCluster (now : Z) (st : VolumeStatusRecord) (topClass : string) : list string :=
  dedupeStrings (OperatorPathPlanRecommendedActions now st
                 ++ ClusterPriorityRecommendedActions (OperatorPathPlanPriorityClass now st) topClass)%list.

Definition OperatorPathPlanPriorityClassWithCluster (now : Z) (st : VolumeStatusRecord) (topClass : string) : string :=
  operatorPathPlanPriorityClass now st (OperatorPathPlanRecommendedActionsWithCluster now st topClass).

(** ** Reconciliation *)

Definition reconcileRequestForStatus (now : Z) (st : VolumeStatusRecord) : Z * string :=
  if runtimePathExpansionEligible now st then (now, "runtime_expansion_eligible") else
  if shouldEscalatePendingGenerationRotation now st && String.eqb (handoffBackoffState now st) "eligible"
  then (now, "handoff_generation_rotation_backoff_eligible") else
  if shouldEscalateRuntimePathPlanReapply now st then (now, "runtime_path_plan_reapply_stalled") else (0, "").

Definition reconcileScheduleForStatus (now : Z) (st : VolumeStatusRecord) : Z * string :=
  if sHandoffRequired st && String.eqb (handoffStage st) "ready_to_complete" && (now <? sHandoffCompletionEligibleAtUnix st)
  then (sHandoffCompletionEligibleAtUnix st, "handoff_completion_ready") else
  if (now <? sRuntimePathExpansionEligibleAtUnix st) && negb (sRuntimePathNeedsAttention st) && runtimePathPlanConverged st
  then (sRuntimePathExpansionEligibleAtUnix st, "runtime_expansion_eligible") else
  if String.eqb (sHandoffReason st) "handoff_generation_rotation_stalled_current_gateway"
     && (now <? sHandoffNextEscalationAtUnix st) && String.eqb (handoffBackoffState now st) "waiting"
  then (sHandoffNextEscalationAtUnix st, "handoff_generation_rotation_backoff_eligible") else
  if sPathPlanReapplyRequested st && (0 <? sPathPlanReapplyRequestedAtUnix st) && sRuntimePathNeedsAttention st
     && negb (runtimePathPlanConverged st)
  then let nextAt := add_i64 (sPathPlanReapplyRequestedAtUnix st) runtimePathPlanReapplyEscalationDelay in
       if now <? nextAt then (nextAt, "runtime_path_plan_reapply_stalled") else (0, "")
  else (0, "").

(** [x++], and one instead of zero. *)
Definition next_number (x : Z) : Z := let x := add64 x 1 in if x =? 0 then 1 else x.

(** When the desired set may grow again. *)
Definition expansion_step (now : Z) (gateways : list GatewayRecord) (st : VolumeStatusRecord) : VolumeStatusRecord :=
  let st :=
    if shouldDelayRuntimeDesiredReExpansion st gateways then
      if sRuntimePathExpansionEligibleAtUnix st =? 0
      then st <| sRuntimePathExpansionEligibleAtUnix := add_i64 now (nextRuntimeExpansionDelay st) |> else st
    else if sRuntimePathNeedsAttention st || negb (runtimePathPlanConverged st)
    then st <| sRuntimePathExpansionEligibleAtUnix := 0 |> else st in
  if runtimePathPlanConverged st && negb (sRuntimePathNeedsAttention st) && (0 <? sRuntimePathExpansionEligibleAtUnix st)
     && (sRuntimePathExpansionEligibleAtUnix st <=? now)
  then st <| sRuntimePathReductionHoldUntilUnix := 0 |> <| sRuntimePathFeedbackCount := 0 |>
          <| sRuntimePathExpansionEligibleAtUnix := 0 |>
          <| sRuntimePathExpansionBackoffLevel := if 0 <? sRuntimePathExpansionBackoffLevel st
                                                  then sRuntimePathExpansionBackoffLevel st - 1
                                                  else sRuntimePathExpansionBackoffLevel st |>
  else st.

(** Whether the writer has to move, given the desired set. *)
Definition handoff_required (now : Z) (desired : list string) (st : VolumeStatusRecord) : bool :=
  let required := sInUse st && negb (String.eqb (sCurrentGatewayID st) "") && (0 <? zlen desired)
                  && negb (containsGatewayID desired (sCurrentGatewayID st)) in
  let required := if sHandoffRequired st && negb (handoffCompletionSatisfied now st) && negb (String.eqb (handoffStage st) "")
                  then true else required in
  if handoffCompletionSatisfied now st then false else required.

(** The handoff fields: when it was requested, how often it escalated, the fencing epoch, and the handoff itself. *)
Definition handoff_step (now : Z) (required : bool) (reason : string) (targets : list string) (advance : bool)
    (st : VolumeStatusRecord) : VolumeStatusRecord :=
  let prevRequired := sHandoffRequired st in
  let prevReason := sHandoffReason st in
  let prevCount := sHandoffEscalationCount st in
  let moved := negb prevRequired || negb (EqualGatewayIDSet (sHandoffTargetGatewaySet st) targets) in
  let st :=
    if required then
      if moved then st <| sHandoffRequestedAtUnix := now |> <| sHandoffEscalationCount := 0 |> <| sHandoffNextEscalationAtUnix := 0 |>
      else st
    else st <| sHandoffRequestedAtUnix := 0 |> <| sHandoffAckedAtUnix := 0 |> <| sHandoffAckedGeneration := 0 |>
            <| sHandoffCompletionEligibleAtUnix := 0 |> <| sHandoffEscalationCount := 0 |> <| sHandoffNextEscalationAtUnix := 0 |> in
  let st :=
    if advance then
      let st := st <| sHandoffEscalationCount := add64 prevCount 1 |> in
      st <| sHandoffNextEscalationAtUnix := add_i64 now (nextHandoffEscalationDelay (sHandoffEscalationCount st)) |>
    else st in
  let st := if required && (moved || negb (String.eqb prevReason reason) || advance)
            then st <| sWriterFencingEpoch := next_number (sWriterFencingEpoch st) |> else st in
  st <| sHandoffRequired := required |> <| sHandoffReason := reason |> <| sHandoffTargetGatewaySet := targets |>.

(** A request to apply the path plan again. *)
Definition reapply_step (now : Z) (requested : bool) (reason : string) (desiredChanged : bool) (st : VolumeStatusRecord)
  : VolumeStatusRecord :=
  let fresh := negb (sPathPlanReapplyRequested st) || negb (String.eqb (sPathPlanReapplyReason st) reason) in
  let st :=
    if requested then
      if fresh then
        let st := st <| sPathPlanReapplyRequestedAtUnix := now |> in
        if negb desiredChanged then st <| sPathPlanRevision := next_number (sPathPlanRevision st) |> else st
      else st
    else st <| sPathPlanReapplyRequestedAtUnix := 0 |> in
  st <| sPathPlanReapplyRequested := requested |> <| sPathPlanReapplyReason := reason |>.

Definition backoff_step (st : VolumeStatusRecord) : VolumeStatusRecord :=
  if sRuntimePathNeedsAttention st && containsGatewayID (sRuntimePathRecommendedActions st) "prefer_fewer_active_paths" then
    let level := wrap32 (sRuntimePathFeedbackCount st / runtimePathReductionHoldThreshold) in
    let level := if 3 <? level then 3 else level in
    if sRuntimePathExpansionBackoffLevel st <? level then st <| sRuntimePathExpansionBackoffLevel := level |> else st
  else st.

Definition revision_step (desiredChanged : bool) (st : VolumeStatusRecord) : VolumeStatusRecord :=
  if desiredChanged then st <| sPathPlanRevision := next_number (sPathPlanRevision st) |> else st.

Definition stage_step (required : bool) (st : VolumeStatusRecord) : VolumeStatusRecord :=
  st <| sHandoffStage := if required then handoffStage st else "" |>.

(** When the controller is to look again; neither answer depends on the fields set here. *)
Definition controller_step (now : Z) (st : VolumeStatusRecord) : VolumeStatusRecord :=
  st <| sControllerReconcileRequestedAtUnix := fst (reconcileRequestForStatus now st) |>
     <| sControllerReconcileReason := snd (reconcileRequestForStatus now st) |>
     <| sControllerReconcileScheduledAtUnix := fst (reconcileScheduleForStatus now st) |>
     <| sControllerReconcileScheduledReason := snd (reconcileScheduleForStatus now st) |>.

(** The attention a plan needs, and what to do about it. *)
Definition attention_step (now : Z) (gateways : list GatewayRecord) (observed desired : list string)
    (reapplyRequested required : bool) (handoffReason : string) (advance : bool) (st : VolumeStatusRecord) : VolumeStatusRecord :=
  let '(needsAttention, reasons, actions) := pathPlanAttention gateways observed desired in
  let escalated := shouldEscalatePendingGenerationRotation now st in
  let stalled := shouldEscalateRuntimePathPlanReapply now st in
  let aggressive := String.eqb handoffReason "runtime_hold_borderline_current_gateway"
                    || String.eqb handoffReason "runtime_path_plan_reapply_stalled_current_gateway" || advance in
  let reasons := dedupeStrings
    (reasons ++ (if reapplyRequested then ["runtime_path_plan_reapply_requested"] else [])
     ++ (if required then ["handoff_required"] else [])
     ++ (if escalated then ["handoff_generation_rotation_stalled"] else [])
     ++ (if stalled then ["runtime_path_plan_reapply_stalled"] else []))%list in
  let actions := dedupeStrings
    (actions ++ (if reapplyRequested then ["reapply_latest_path_plan"] else [])
     ++ (if required then ["complete_gateway_handoff"; "prefer_fewer_active_paths"]
                          ++ (if aggressive then ["complete_gateway_handoff_aggressively"] else []) else [])
     ++ (if escalated then ["complete_gateway_handoff"; "prefer_fewer_active_paths"]
                           ++ (if advance then ["complete_gateway_handoff_aggressively"] else []) else [])
     ++ (if stalled then ["complete_gateway_handoff"; "complete_gateway_handoff_aggressively"; "prefer_fewer_active_paths"] else []))%list in
  st <| sObservedActiveGatewaySet := observed |> <| sDesiredActiveGatewaySet := desired |>
     <| sPathPlanNeedsAttention := needsAttention || reapplyRequested || required || escalated || stalled |>
     <| sPathPlanAttentionReasons := reasons |> <| sPathPlanRecommendedActions := actions |>.

(** The local variables of a reconciliation, from the record after the expansion step. *)
Section Locals.
Context (now : Z) (gateways : list GatewayRecord) (st : VolumeStatusRecord).

Definition plan_observed : list string := ComputeObservedActiveGatewaySet gateways.
Definition plan_desired : list string := ComputeDesiredActiveGatewaySet now st gateways plan_observed.
Definition plan_reapply : bool * string := shouldRequestPathPlanReapply now st.
Definition plan_required : bool := handoff_required now plan_desired st.
Definition plan_reason : string := if plan_required then handoffReasonForStatus now st else "".
Definition plan_targets : list string := if plan_required then plan_desired else [].
Definition plan_advance : bool :=
  String.eqb plan_reason "handoff_generation_rotation_stalled_current_gateway"
  && shouldAdvancePendingGenerationRotationEscalation now st.
Definition plan_observed_changed : bool := negb (EqualGatewayIDSet (sObservedActiveGatewaySet st) plan_observed).
Definition plan_desired_changed : bool := negb (EqualGatewayIDSet (sDesiredActiveGatewaySet st) plan_desired).

(** The fields are set in this order; no later step reads what the attention step sets. *)
Definition plan_attended : VolumeStatusRecord :=
  reapply_step now (fst plan_reapply) (snd plan_reapply) plan_desired_changed
    (attention_step now gateways plan_observed plan_desired (fst plan_reapply) plan_required plan_reason plan_advance st).

Definition plan_updated : VolumeStatusRecord :=
  controller_step now (updateHandoffCompletionEligibility (stage_step plan_required (backoff_step (revision_step plan_desired_changed
    (handoff_step now plan_required plan_reason plan_targets plan_advance plan_attended)))) now).

End Locals.

Definition ReconcileVolumePathPlanStatus (now : Z) (original : VolumeStatusRecord) (gateways : list GatewayRecord)
  : VolumeStatusRecord * bool * bool :=
  let st := expansion_step now gateways original in
  let updated := plan_updated now gateways st in
  if bool_decide (updated = original) then (updated, false, false)
  else (updated, plan_observed_changed gateways st, plan_desired_changed now gateways st).

(** ** Fleet records *)

Definition GatewayFleetSchemaVersion : Z := 1.
Definition GatewayProductNAMROS : GatewayProduct := "namros".
Definition GatewayProductISCSI : GatewayProduct := "namrbd-iscsi".
Definition GatewayRoleObject : GatewayRole := "object".
Definition GatewayRoleISCSI : GatewayRole := "iscsi".
Definition GatewayReadinessDegraded : GatewayReadiness := "degraded".
Definition GatewayReadinessBlocked : GatewayReadiness := "blocked".
Definition GatewayDrainDraining : GatewayDrainState := "draining".
Definition GatewayDrainDrained : GatewayDrainState := "drained".

Definition NormalizeGatewayFleetRecord (rec : GatewayRecord) : GatewayRecord :=
  let rec := if gSchemaVersion rec =? 0 then rec <| gSchemaVersion := GatewayFleetSchemaVersion |> else rec in
  let rec := if String.eqb (gProduct rec) "" then rec <| gProduct := GatewayProductNAMRBD |> else rec in
  let rec := if String.eqb (gRole rec) "" then rec <| gRole := GatewayRoleBlock |> else rec in
  let rec := if String.eqb (gReadiness rec) ""
             then rec <| gReadiness := if String.eqb (gConnectionState rec) GatewayStateUp then GatewayReadinessReady else
                                       if String.eqb (gConnectionState rec) GatewayStateDegraded then GatewayReadinessDegraded
                                       else GatewayReadinessBlocked |>
             else rec in
  if String.eqb (gDrainState rec) "" then rec <| gDrainState := GatewayDrainActive |> else rec.

Inductive fleet_error :=
| UnsupportedSchema (version : Z) | GatewayIDRequired | UnsupportedProduct (p : string) | UnsupportedRole (r : string)
| UnsupportedReadiness (r : string) | UnsupportedDrainState (d : string).

Definition one_of (x : string) (l : list string) : bool := existsb (String.eqb x) l.

Definition ValidateGatewayFleetRecord (rec : GatewayRecord) : result fleet_error unit :=
  let rec := NormalizeGatewayFleetRecord rec in
  if negb (gSchemaVersion rec =? GatewayFleetSchemaVersion) then Err (UnsupportedSchema (gSchemaVersion rec)) else
  if String.eqb (TrimSpace (gGatewayID rec)) "" then Err GatewayIDRequired else
  if negb (one_of (gProduct rec) [GatewayProductNAMRBD; GatewayProductNAMROS; GatewayProductISCSI])
  then Err (UnsupportedProduct (gProduct rec)) else
  if negb (one_of (gRole rec) [GatewayRoleBlock; GatewayRoleObject; GatewayRoleISCSI]) then Err (UnsupportedRole (gRole rec)) else
  if negb (one_of (gReadiness rec) [GatewayReadinessReady; GatewayReadinessDegraded; GatewayReadinessBlocked])
  then Err (UnsupportedReadiness (gReadiness rec)) else
  if negb (one_of (gDrainState rec) [GatewayDrainActive; GatewayDrainDraining; GatewayDrainDrained])
  then Err (UnsupportedDrainState (gDrainState rec)) else Ok tt.

End PathPlan.
