(* ===== verification/PathPlanFacts.v ===== *)
(** * What reconciling a path plan guarantees

    The desired gateways are reachable ones; a handoff starts, goes on and ends when
    it should; one that starts, changes its targets or its reason moves the fencing
    epoch; and the revision of the plan tells every change of the desired set. *)

From Stdlib Require Import ZArith Lia Ascii String.
From stdpp Require Import base list gmap strings sorting.
From S2P Require Import Prelude GatewayTypes Handoff PathPlan.
Open Scope string_scope.
Open Scope Z_scope.

Module PathPlanFacts.
Import Gateway Handoff PathPlan.

(** ** The desired set *)

Lemma contains_spec l x : containsGatewayID l x = true <-> x ∈ l.
Proof.
  unfold containsGatewayID. rewrite existsb_exists, list_elem_of_In. split.
  - intros (y & Hy & ->%String.eqb_eq). done.
  - intros H. exists x. split; [done|apply String.eqb_refl].
Qed.

Lemma gateway_ids_spec f gateways id : id ∈ gateway_ids f gateways <->
  exists g, g ∈ gateways /\ gGatewayID g = id /\ id <> "" /\ f (gConnectionState g) = true.
Proof.
  unfold gateway_ids. rewrite merge_sort_Permutation, list_elem_of_fmap. split.
  - intros (g & -> & Hg). rewrite list_elem_of_In in Hg. apply filter_In in Hg as [Hg Hf]. exists g.
    rewrite andb_true_iff, negb_true_iff, String.eqb_neq in Hf. rewrite list_elem_of_In. tauto.
  - intros (g & Hg & <- & Hne & Hf). exists g. split; [done|]. apply list_elem_of_In, filter_In.
    rewrite <-list_elem_of_In. split; [done|]. by rewrite (proj2 (String.eqb_neq _ _) Hne), Hf.
Qed.

Lemma next_after_in current rest all x : next_after current rest all = Some x -> x ∈ rest \/ x ∈ all.
Proof.
  induction rest as [|c rest IH]; cbn [next_after]; [done|]. destruct (String.eqb c current).
  - destruct rest as [|y rest].
    + intros H. right. by apply head_Some_elem_of.
    + intros [= ->]. left. right. left.
  - intros [H|H]%IH; [by left; right|by right].
Qed.

Lemma filter_sub {A} (f : A -> bool) l x : x ∈ List.filter f l -> x ∈ l.
Proof. rewrite !list_elem_of_In. by intros [? _]%filter_In. Qed.

Lemma select_forced_in now st candidates : candidates <> [] -> selectForcedHandoffGateway now st candidates ∈ candidates.
Proof.
  intros Hne. unfold selectForcedHandoffGateway.
  destruct (List.filter _ candidates) as [|first alternatives] eqn:Halt.
  { destruct candidates; [done|left]. }
  assert (forall x, x ∈ first :: alternatives -> x ∈ candidates) as Hin by (intros x; rewrite <-Halt; apply filter_sub).
  assert (first ∈ candidates) as Hfirst by (apply Hin; left).
  destruct (sDesiredActiveGatewaySet st) as [|desired [|? ?]]; [done| |done].
  destruct (_ && _ && _) eqn:Hc; [|done]. rewrite !andb_true_iff, contains_spec in Hc. destruct Hc as [_ Hdesired].
  destruct (negb _); [by apply Hin|]. destruct (_ =? 1); [done|].
  destruct (next_after _ _ _) as [x|] eqn:Hx; [|done]. cbn [default from_option id].
  apply next_after_in in Hx as [Hx|Hx]; by apply Hin.
Qed.

Lemma reduce_spec now st gateways candidates : candidates <> [] ->
  reduceDesiredGatewaySet now st gateways candidates <> [] /\
  (forall id, id ∈ reduceDesiredGatewaySet now st gateways candidates -> id ∈ candidates) /\
  zlen (reduceDesiredGatewaySet now st gateways candidates) <= 1.
Proof.
  intros Hne. unfold reduceDesiredGatewaySet. destruct (Z.leb_spec (zlen candidates) 1); [done|]. cbv zeta.
  set (c1 := _ && _ && _ && _ && _). destruct c1 eqn:H1.
  { unfold c1 in H1. rewrite !andb_true_iff, contains_spec in H1. destruct H1 as [[[_ Hc] _] _]. split_and!; [done| |done].
    by intros id ->%list_elem_of_singleton. }
  set (c2 := negb _ && containsGatewayID _ _ && _). destruct c2.
  { split_and!; [done| |done]. intros id ->%list_elem_of_singleton. by apply select_forced_in. }
  destruct candidates as [|c candidates]; [done|]. cbn [take]. split_and!; [done| |unfold zlen; rewrite take_0; done].
  rewrite take_0. intros id ->%list_elem_of_singleton. left.
Qed.

(** C23: the gateways a volume should be reached through are reachable.  Each desired gateway is registered and up, or,
    when none is up, at least observed; some gateway is desired whenever one is observed; and while fewer paths are
    preferred there is at most one. *)
Theorem desired_gateways_sound (now : Z) (st : VolumeStatusRecord) (gateways : list GatewayRecord) :
  let observed := ComputeObservedActiveGatewaySet gateways in
  let desired := ComputeDesiredActiveGatewaySet now st gateways observed in
  (forall id, id ∈ desired -> exists g, g ∈ gateways /\ gGatewayID g = id /\ id <> "" /\
     (gConnectionState g = GatewayStateUp \/
      GatewayObservedForPathPlan (gConnectionState g) = true /\
      forall g', g' ∈ gateways -> gGatewayID g' <> "" -> gConnectionState g' <> GatewayStateUp)) /\
  (desired = [] <-> observed = []) /\
  (shouldPreferFewerDesiredGateways now st gateways = true -> zlen desired <= 1).
Proof.
  intros observed desired. set (out := gateway_ids GatewayDesiredForPathPlan gateways).
  assert (forall id, id ∈ out -> id ∈ observed) as Hsub.
  { intros id. unfold out, observed, ComputeObservedActiveGatewaySet. rewrite !gateway_ids_spec.
    intros (g & ? & ? & ? & Hf). exists g. split_and!; [done..|]. unfold GatewayObservedForPathPlan. unfold GatewayDesiredForPathPlan in Hf.
    by rewrite Hf. }
  assert (forall l : list string, l <> [] -> exists id, id ∈ l) as Hsome by (intros [|x l]; [done|exists x; left]).
  (* the candidates the choice is made from *)
  assert (exists candidates, (candidates = out /\ out <> [] \/ out = [] /\ candidates = observed) /\
            desired = if shouldPreferFewerDesiredGateways now st gateways && (1 <? zlen candidates)
                      then reduceDesiredGatewaySet now st gateways candidates else candidates) as (candidates & Hcand & Hdes).
  { unfold desired, ComputeDesiredActiveGatewaySet. fold out. destruct (Z.eqb_spec (zlen out) 0) as [H0|H0].
    - exists observed. split; [right; split; [apply zlen_nil_inv; lia|done]|done].
    - exists out. split; [left; split; [done|by intros ->]|done]. }
  assert (forall id, id ∈ desired -> id ∈ candidates) as Hfrom.
  { intros id. rewrite Hdes. destruct (_ && _) eqn:Hc; [|done]. apply andb_true_iff in Hc as [_ Hc%Z.ltb_lt].
    apply reduce_spec. intros ->. by vm_compute in Hc. }
  split_and!.
  - intros id Hid%Hfrom. destruct Hcand as [[-> _]|[Hout ->]]; apply gateway_ids_spec in Hid as (g & Hg & Hgid & Hne & Hf); exists g;
      (split_and!; [done..|]).
    + left. by apply String.eqb_eq.
    + right. split; [done|]. intros g' Hg' Hne' Hup. enough (gGatewayID g' ∈ out) as H by (rewrite Hout in H; by apply not_elem_of_nil in H).
      apply gateway_ids_spec. exists g'. split_and!; [done..|]. rewrite Hup. reflexivity.
  - assert (desired = [] <-> candidates = []) as ->.
    { rewrite Hdes. destruct (_ && _) eqn:Hc; [|done]. apply andb_true_iff in Hc as [_ Hc%Z.ltb_lt].
      assert (candidates <> []) as Hn by (intros ->; by vm_compute in Hc). split; [|done].
      intros H. by apply reduce_spec in H. }
    destruct Hcand as [[-> Hn]|[_ ->]]; [|done]. split; [done|]. intros H. destruct (Hsome out Hn) as [id Hid%Hsub].
    rewrite H in Hid. by apply not_elem_of_nil in Hid.
  - intros Hf. rewrite Hdes, Hf. cbn [andb]. destruct (Z.ltb_spec 1 (zlen candidates)); [|lia]. apply reduce_spec. intros ->.
    unfold zlen in *. cbn in *. lia.
Qed.

(** ** What a reconciliation does to the handoff *)

(** The fields of the handoff and of the attachment. *)
Definition handoff_core (st : VolumeStatusRecord) :=
  ((sHandoffRequired st, sHandoffReason st, sHandoffTargetGatewaySet st, sWriterFencingEpoch st),
   (sHandoffEscalationCount st, sHandoffNextEscalationAtUnix st, sHandoffRequestedAtUnix st),
   (sHandoffAckedAtUnix st, sHandoffAckedGeneration st),
   (sInUse st, sCurrentGatewayID st, sAttachmentGeneration st)).

Ltac keeps_fields f := intros; unfold f; cbv zeta; repeat case_match; reflexivity.

Lemma expansion_core now gateways st : handoff_core (expansion_step now gateways st) = handoff_core st.
Proof. keeps_fields expansion_step. Qed.
Lemma reapply_core now b reason c st : handoff_core (reapply_step now b reason c st) = handoff_core st.
Proof. keeps_fields reapply_step. Qed.
Lemma backoff_core st : handoff_core (backoff_step st) = handoff_core st.
Proof. keeps_fields backoff_step. Qed.
Lemma eligibility_core st now : handoff_core (updateHandoffCompletionEligibility st now) = handoff_core st.
Proof. keeps_fields updateHandoffCompletionEligibility. Qed.

Lemma handoff_step_core now b reason targets a st st' : handoff_core st = handoff_core st' ->
  handoff_core (handoff_step now b reason targets a st) = handoff_core (handoff_step now b reason targets a st').
Proof.
  unfold handoff_core. intros [= H1 H2 H3 H4 H5 H6 H7 H8 H9 H10 H11 H12]. unfold handoff_step. cbv zeta.
  rewrite H1, H2, H3, H5. set (moved := negb _ || negb _). set (changed := moved || _ || _).
  destruct b, moved, a, changed; cbn; congruence.
Qed.

(** The record a reconciliation returns, and the record its decisions are made on. *)
Definition reconciled (now : Z) (st : VolumeStatusRecord) (gateways : list GatewayRecord) : VolumeStatusRecord :=
  fst (fst (ReconcileVolumePathPlanStatus now st gateways)).
Definition seen (now : Z) (st : VolumeStatusRecord) (gateways : list GatewayRecord) : VolumeStatusRecord :=
  expansion_step now gateways st.

Lemma reconciled_eq now st gateways : reconciled now st gateways = plan_updated now gateways (seen now st gateways).
Proof.
  unfold reconciled, ReconcileVolumePathPlanStatus. fold (seen now st gateways). generalize (seen now st gateways). intros s. lazy zeta.
  generalize (plan_updated now gateways s). intros u. by destruct (bool_decide _).
Qed.

Lemma controller_core now st : handoff_core (controller_step now st) = handoff_core st.
Proof.
  unfold controller_step. generalize (reconcileRequestForStatus now st), (reconcileScheduleForStatus now st). intros p q.
  destruct st. reflexivity.
Qed.
Lemma stage_core b st : handoff_core (stage_step b st) = handoff_core st.
Proof. unfold stage_step. generalize (if b then handoffStage st else ""). intros s. destruct st. reflexivity. Qed.
Lemma revision_core b st : handoff_core (revision_step b st) = handoff_core st.
Proof. unfold revision_step. generalize (next_number (sPathPlanRevision st)). intros n. destruct b, st; reflexivity. Qed.
Lemma attention_core now gateways observed desired b required reason a st :
  handoff_core (attention_step now gateways observed desired b required reason a st) = handoff_core st.
Proof.
  unfold attention_step. destruct (pathPlanAttention _ _ _) as [[n rs] xs].
  generalize (shouldEscalatePendingGenerationRotation now st), (shouldEscalateRuntimePathPlanReapply now st).
  intros e l. lazy zeta. generalize (dedupeStrings (rs ++ (if b then ["runtime_path_plan_reapply_requested"] else [])
     ++ (if required then ["handoff_required"] else []) ++ (if e then ["handoff_generation_rotation_stalled"] else [])
     ++ (if l then ["runtime_path_plan_reapply_stalled"] else []))%list).
  intros rs'. match goal with |- context [dedupeStrings ?x] => generalize (dedupeStrings x) end. intros xs'.
  generalize (n || b || required || e || l). intros n'. destruct st. reflexivity.
Qed.

Lemma attended_core now gateways s : handoff_core (plan_attended now gateways s) = handoff_core s.
Proof. unfold plan_attended. by rewrite reapply_core, attention_core. Qed.

Lemma updated_core now gateways s : handoff_core (plan_updated now gateways s)
  = handoff_core (handoff_step now (plan_required now gateways s) (plan_reason now gateways s) (plan_targets now gateways s)
      (plan_advance now gateways s) s).
Proof.
  unfold plan_updated. rewrite controller_core, eligibility_core, stage_core, backoff_core, revision_core.
  apply handoff_step_core, attended_core.
Qed.

Lemma next_number_changes x : u64 x -> next_number x <> x /\ next_number x <> 0.
Proof.
  unfold in_u, next_number, add64, wrap64. intros Hx. destruct (Z.eq_dec x (2 ^ 64 - 1)) as [->|Hne]; [vm_compute; done|].
  rewrite Z.mod_small by lia. destruct (Z.eqb_spec (x + 1) 0); lia.
Qed.

(** The fields of the handoff step. *)
Lemma handoff_step_fields now b r ts a st : let st' := handoff_step now b r ts a st in
  sHandoffRequired st' = b /\ sHandoffReason st' = r /\ sHandoffTargetGatewaySet st' = ts /\
  sWriterFencingEpoch st' =
    (if b && (negb (sHandoffRequired st) || negb (EqualGatewayIDSet (sHandoffTargetGatewaySet st) ts)
              || negb (String.eqb (sHandoffReason st) r) || a)
     then next_number (sWriterFencingEpoch st) else sWriterFencingEpoch st) /\
  sCurrentGatewayID st' = sCurrentGatewayID st /\ sInUse st' = sInUse st /\
  sAttachmentGeneration st' = sAttachmentGeneration st.
Proof.
  unfold handoff_step. lazy zeta. set (moved := negb _ || negb _). set (changed := moved || _ || _).
  destruct b, moved, a, changed; cbn; done.
Qed.

(** The desired set and the revision of the plan. *)
Definition plan_core (st : VolumeStatusRecord) := (sDesiredActiveGatewaySet st, sPathPlanRevision st).

Lemma expansion_plan now gateways st : plan_core (expansion_step now gateways st) = plan_core st.
Proof. keeps_fields expansion_step. Qed.
Lemma backoff_plan st : plan_core (backoff_step st) = plan_core st.
Proof. keeps_fields backoff_step. Qed.
Lemma eligibility_plan st now : plan_core (updateHandoffCompletionEligibility st now) = plan_core st.
Proof. keeps_fields updateHandoffCompletionEligibility. Qed.
Lemma controller_plan now st : plan_core (controller_step now st) = plan_core st.
Proof.
  unfold controller_step. generalize (reconcileRequestForStatus now st), (reconcileScheduleForStatus now st). intros p q.
  destruct st. reflexivity.
Qed.
Lemma stage_plan b st : plan_core (stage_step b st) = plan_core st.
Proof. unfold stage_step. generalize (if b then handoffStage st else ""). intros s. destruct st. reflexivity. Qed.
Lemma handoff_step_plan now b r ts a st : plan_core (handoff_step now b r ts a st) = plan_core st.
Proof.
  unfold handoff_step. lazy zeta. set (moved := negb _ || negb _). set (changed := moved || _ || _).
  destruct b, moved, a, changed; reflexivity.
Qed.
Lemma revision_plan b st : plan_core (revision_step b st)
  = (sDesiredActiveGatewaySet st, if b then next_number (sPathPlanRevision st) else sPathPlanRevision st).
Proof. unfold revision_step. by destruct b. Qed.
Lemma reapply_plan now b reason changed st : plan_core (reapply_step now b reason changed st)
  = (sDesiredActiveGatewaySet st,
     if b && (negb (sPathPlanReapplyRequested st) || negb (String.eqb (sPathPlanReapplyReason st) reason)) && negb changed
     then next_number (sPathPlanRevision st) else sPathPlanRevision st).
Proof. unfold reapply_step. lazy zeta. set (fresh := negb _ || negb _). by destruct b, fresh, changed. Qed.
Lemma attention_plan now gateways observed desired b required reason a st :
  plan_core (attention_step now gateways observed desired b required reason a st) = (desired, sPathPlanRevision st).
Proof. unfold attention_step. by destruct (pathPlanAttention _ _ _) as [[n rs] xs]. Qed.

Lemma updated_plan now gateways s : let s' := plan_updated now gateways s in
  sDesiredActiveGatewaySet s' = plan_desired now gateways s /\
  (sPathPlanRevision s' = sPathPlanRevision s \/ sPathPlanRevision s' = next_number (sPathPlanRevision s)) /\
  (plan_desired_changed now gateways s = true -> sPathPlanRevision s' = next_number (sPathPlanRevision s)).
Proof.
  lazy zeta. enough (exists r, plan_core (plan_updated now gateways s) = (plan_desired now gateways s, r) /\
    (r = sPathPlanRevision s \/ r = next_number (sPathPlanRevision s)) /\
    (plan_desired_changed now gateways s = true -> r = next_number (sPathPlanRevision s))) as (r & Hr & H).
  { revert Hr. generalize (plan_updated now gateways s). intros u. unfold plan_core. by intros [= -> ->]. }
  unfold plan_updated. rewrite controller_plan, eligibility_plan, stage_plan, backoff_plan, revision_plan.
  pose proof (attention_plan now gateways (plan_observed gateways) (plan_desired now gateways s) (plan_reapply now s).1
    (plan_required now gateways s) (plan_reason now gateways s) (plan_advance now gateways s) s) as Hx.
  unfold plan_attended. revert Hx.
  generalize (attention_step now gateways (plan_observed gateways) (plan_desired now gateways s) (plan_reapply now s).1
    (plan_required now gateways s) (plan_reason now gateways s) (plan_advance now gateways s) s). intros x Hx.
  pose proof (reapply_plan now (plan_reapply now s).1 (plan_reapply now s).2 (plan_desired_changed now gateways s) x) as Hr.
  revert Hr. generalize (reapply_step now (plan_reapply now s).1 (plan_reapply now s).2 (plan_desired_changed now gateways s) x).
  intros y Hr. pose proof (handoff_step_plan now (plan_required now gateways s) (plan_reason now gateways s)
    (plan_targets now gateways s) (plan_advance now gateways s) y) as Hh. revert Hx Hr Hh.
  generalize (handoff_step now (plan_required now gateways s) (plan_reason now gateways s) (plan_targets now gateways s)
    (plan_advance now gateways s) y), (plan_desired now gateways s), (plan_reapply now s).1, (plan_reapply now s).2,
    (plan_desired_changed now gateways s). intros h ds rb rr changed. unfold plan_core. intros [= Hx1 Hx2] [= Hr1 Hr2] [= Hh1 Hh2].
  rewrite Hh1, Hr1, Hx1, Hh2, Hr2, Hx2. eexists. split; [done|].
  destruct changed; cbn [negb]; rewrite ?andb_false_r; [by split; [right|]|].
  split; [|done]. destruct (_ && _); auto.
Qed.

(** ** The handoff *)

Lemma satisfied_seen now st gateways : handoffCompletionSatisfied now (seen now st gateways) = handoffCompletionSatisfied now st.
Proof. unfold seen, expansion_step. lazy zeta. repeat case_match; reflexivity. Qed.

Lemma stage_some st : sHandoffRequired st = true -> String.eqb (handoffStage st) "" = false.
Proof. unfold handoffStage. intros ->. cbn [negb]. by repeat case_match. Qed.

Lemma required_spec now desired st : handoff_required now desired st =
  if sHandoffRequired st then negb (handoffCompletionSatisfied now st)
  else sInUse st && negb (String.eqb (sCurrentGatewayID st) "") && (0 <? zlen desired)
       && negb (containsGatewayID desired (sCurrentGatewayID st)).
Proof.
  unfold handoff_required. lazy zeta. destruct (sHandoffRequired st) eqn:Hr.
  - rewrite (stage_some st Hr). cbn [andb negb]. by destruct (handoffCompletionSatisfied now st).
  - cbn [andb]. unfold handoffCompletionSatisfied. by rewrite Hr.
Qed.

(** C22: a handoff is asked for, kept and ended when it should be, and no change of it goes unfenced.  A handoff starts
    exactly when the attached gateway is not among the desired ones, and then that gateway may no longer write; it ends
    exactly when its completion holds; its targets are the desired gateways; whenever it starts or its targets or its
    reason change the writer fencing epoch moves on to another nonzero value, and with no handoff the epoch stays.  The
    revision of the plan moves on whenever the desired set changes, and the attachment is not touched. *)
Theorem reconcile_fences_handoffs (now : Z) (st : VolumeStatusRecord) (gateways : list GatewayRecord) :
  u64 (sWriterFencingEpoch st) -> u64 (sPathPlanRevision st) ->
  let st' := reconciled now st gateways in
  (sHandoffRequired st' = true <->
     if sHandoffRequired st then handoffCompletionSatisfied now st = false
     else sInUse st = true /\ sCurrentGatewayID st <> "" /\ sDesiredActiveGatewaySet st' <> [] /\
          sCurrentGatewayID st ∉ sDesiredActiveGatewaySet st') /\
  (sHandoffRequired st = false -> sHandoffRequired st' = true ->
     gatewayAllowedDuringHandoff st' (sCurrentGatewayID st) = false) /\
  sHandoffTargetGatewaySet st' = (if sHandoffRequired st' then sDesiredActiveGatewaySet st' else []) /\
  (sHandoffRequired st' = false -> sWriterFencingEpoch st' = sWriterFencingEpoch st) /\
  (sHandoffRequired st' = true ->
     (sHandoffRequired st, sHandoffTargetGatewaySet st, sHandoffReason st)
       <> (true, sHandoffTargetGatewaySet st', sHandoffReason st') ->
     sWriterFencingEpoch st' <> sWriterFencingEpoch st /\ sWriterFencingEpoch st' <> 0) /\
  (sDesiredActiveGatewaySet st' <> sDesiredActiveGatewaySet st ->
     sPathPlanRevision st' <> sPathPlanRevision st /\ sPathPlanRevision st' <> 0) /\
  sInUse st' = sInUse st /\ sCurrentGatewayID st' = sCurrentGatewayID st /\ sAttachmentGeneration st' = sAttachmentGeneration st.
Proof.
  intros Hepoch Hrev. rewrite reconciled_eq. lazy zeta. 
  pose proof (expansion_core now gateways st) as Hseen. fold (seen now st gateways) in Hseen.
  pose proof (expansion_plan now gateways st) as Hplan. fold (seen now st gateways) in Hplan.
  pose proof (satisfied_seen now st gateways) as Hsat. revert Hseen Hplan Hsat. generalize (seen now st gateways). intros s Hseen Hplan Hsat.
  pose proof (updated_core now gateways s) as Hcore. pose proof (updated_plan now gateways s) as Hup. lazy zeta in Hup.
  pose proof (handoff_step_fields now (plan_required now gateways s) (plan_reason now gateways s) (plan_targets now gateways s)
      (plan_advance now gateways s) s) as Hf. lazy zeta in Hf.
  pose proof (required_spec now (plan_desired now gateways s) s) as Hreq. fold (plan_required now gateways s) in Hreq.
  assert (plan_targets now gateways s = if plan_required now gateways s then plan_desired now gateways s else []) as Htgt by done.
  assert (plan_desired_changed now gateways s = negb (EqualGatewayIDSet (sDesiredActiveGatewaySet s) (plan_desired now gateways s))) as Hch by done.
  revert Hcore Hup Hf Hreq Htgt Hch.
  generalize (plan_updated now gateways s), (plan_required now gateways s), (plan_reason now gateways s), (plan_targets now gateways s),
    (plan_advance now gateways s), (plan_desired now gateways s), (plan_desired_changed now gateways s).
  intros st' b r ts a ds ch. generalize (handoff_step now b r ts a s). intros h Hcore Hup Hf Hreq -> ->.
  (* the fields involved, as variables *)
  unfold handoff_core in Hseen, Hcore. unfold plan_core in Hplan.
  injection Hseen as Es1 Es2 Es3 Es4 _ _ _ _ _ Es5 Es6 Es7. injection Hplan as Es8 Es9.
  injection Hcore as Ec1 Ec2 Ec3 Ec4 _ _ _ _ _ Ec5 Ec6 Ec7.
  destruct Hf as (Ef1 & Ef2 & Ef3 & Ef4 & Ef5 & Ef6 & Ef7). destruct Hup as (Eu1 & _ & Eu2).
  rewrite Ef1 in Ec1. rewrite Ef2 in Ec2. rewrite Ef3 in Ec3. rewrite Ef4, Es1, Es2, Es3, Es4 in Ec4.
  rewrite Ef6, Es5 in Ec5. rewrite Ef5, Es6 in Ec6. rewrite Ef7, Es7 in Ec7. rewrite Hsat, Es1, Es5, Es6 in Hreq. rewrite Es8, Es9 in Eu2.
  clear Ef1 Ef2 Ef3 Ef4 Ef5 Ef6 Ef7 Es1 Es2 Es3 Es4 Es5 Es6 Es7 Es8 Es9 Hsat.
  destruct (next_number_changes _ Hepoch) as [He1 He2]. destruct (next_number_changes _ Hrev) as [Hr1 Hr2].
  rewrite Ec1, Ec2, Ec3, Ec5, Ec6, Ec7, Eu1. split_and!; [|..|done|done|done].
  - rewrite Hreq. destruct (sHandoffRequired st); [by rewrite negb_true_iff|].
    rewrite !andb_true_iff, !negb_true_iff, String.eqb_neq, Z.ltb_lt, <-not_true_iff_false, contains_spec.
    assert (0 < zlen ds <-> ds <> []) as -> by (destruct ds; unfold zlen; cbn; split; (done || lia)). tauto.
  - intros Hst ->. rewrite Hst in Hreq. symmetry in Hreq. rewrite !andb_true_iff, !negb_true_iff in Hreq. destruct Hreq as [_ Hnot].
    unfold gatewayAllowedDuringHandoff, handoffStage. rewrite Ec1, Ec3, Ec6, Hnot. cbn [negb]. rewrite orb_true_r. cbn [orb]. done.
  - done.
  - intros ->. exact Ec4.
  - intros ->. cbn [andb] in Ec4. intros Hne. rewrite Ec4. destruct (_ || _) eqn:Hc; [done|]. clear Ec4.
    rewrite !orb_false_iff, !negb_false_iff in Hc. destruct Hc as [[[H1 H2] H3] _]. apply bool_decide_eq_true in H2. apply String.eqb_eq in H3.
    congruence.
  - intros Hne. rewrite Eu2; [done|]. apply negb_true_iff. unfold EqualGatewayIDSet. apply bool_decide_eq_false. congruence.
Qed.

(** A volume attached through a gateway that went down while another one is up. *)
Definition attached_status : VolumeStatusRecord :=
  zero_VolumeStatusRecord <| sInUse := true |> <| sCurrentGatewayID := "gw-a" |> <| sAttachmentGeneration := 3 |>
    <| sWriterFencingEpoch := 2 ^ 64 - 1 |>.
Definition two_gateways : list GatewayRecord :=
  [zero_GatewayRecord <| gGatewayID := "gw-b" |> <| gConnectionState := GatewayStateUp |>;
   zero_GatewayRecord <| gGatewayID := "gw-a" |> <| gConnectionState := GatewayStateDegraded |>].

(** The epoch wraps past zero. *)
Lemma reconcile_fences_handoffs_witness :
  let st' := reconciled 1000 attached_status two_gateways in
  sHandoffRequired st' = true /\ sHandoffTargetGatewaySet st' = ["gw-b"] /\ sWriterFencingEpoch st' = 1 /\
  sWriterFencingEpoch st' <> 0 /\ gatewayAllowedDuringHandoff st' "gw-a" = false.
Proof.
  assert (sHandoffRequired (reconciled 1000 attached_status two_gateways) = true) as Hr by (vm_compute; reflexivity).
  destruct (reconcile_fences_handoffs 1000 attached_status two_gateways) as (_ & Hfenced & _ & _ & Hepoch & _);
    [vm_compute; split; congruence|vm_compute; split; congruence|].
  split; [exact Hr|]. split; [vm_compute; reflexivity|]. split; [vm_compute; reflexivity|].
  split; [apply Hepoch; [exact Hr|vm_compute; congruence]|exact (Hfenced eq_refl Hr)].
Defined.

End PathPlanFacts.
