(* ===== verification/EcPlacement.v ===== *)
(** * Placement of erasure-coded stripes

    Models src/sbs/cluster/placement/ec_policy.go, which chooses a zone, a node and a
    store for every shard of a stripe, and the validation of profiles in
    src/sbs/cluster/metadata/ec_profile.go.

    An [ecPlacementBlockedError] is its reason; the message is a text.  A function
    that can index out of range or divide by zero returns [Panic] there.
    [sort.Slice] by zone, node and store has no ties, since candidates that agree on
    all three are duplicates and removed first.  The methods that store profiles are
    not modelled. *)

From Stdlib Require Import ZArith Lia Ascii String.
From stdpp Require Import base list gmap strings sorting list_numbers.
From S2P Require Import Prelude GoStrings Placement.
Open Scope string_scope.
Open Scope Z_scope.

Module EcPlacement.
Import Placement.

Definition ECTopologyModeWeak : string := "weak".
Definition ECNodeHealthHealthy : string := "healthy".
Definition ECNodeLifecycleActive : string := "active".
Definition ECStoreStateWritable : string := "writable".

Definition ECBlockedInvalidRequest : string := "invalid_request".
Definition ECBlockedInsufficientCandidates : string := "insufficient_candidates".
Definition ECBlockedInsufficientZones : string := "insufficient_zones".
Definition ECBlockedZoneCapExceeded : string := "zone_cap_exceeded".
Definition ECBlockedInsufficientNodesInZone : string := "insufficient_nodes_in_zone".
Definition ECBlockedStoreSpread : string := "store_spread_blocked".
Definition ECBlockedNoEligibleCandidateInZone : string := "no_eligible_candidate_in_zone".

Inductive ECShardRole := ECShardRoleData | ECShardRoleCoding.

#[export] Instance ECShardRole_eq_dec : EqDecision ECShardRole.
Proof. solve_decision. Defined.

Record ECPlacementCandidate := mkECCandidate {
  ecZone : string; ecNodeID : string; ecStoreID : string; ecNodeHealth : string; ecNodeLifecycle : string;
  ecStoreState : string; ecStoreWeight : Z; ecAvailableBytes : Z }.

Record ECStripePlacementRequest := mkECRequest {
  erVolumeID : string; erProfileID : string; erStripeID : Z; erStripeGeneration : Z; erDataShards : Z; erCodingShards : Z;
  erTopologyMode : string; erWeakPlacementAllowed : bool; erTopologyRevision : Z; erCandidates : list ECPlacementCandidate }.

#[export] Instance ec_request_settable : Settable ECStripePlacementRequest := fun r =>
  mkECRequest (erVolumeID r) (erProfileID r) (erStripeID r) (erStripeGeneration r) (erDataShards r) (erCodingShards r)
    (erTopologyMode r) (erWeakPlacementAllowed r) (erTopologyRevision r) (erCandidates r).

Record ECShardTarget := mkECShardTarget {
  esShardID : Z; esRole : ECShardRole; esRoleIndex : Z; esZone : string; esNodeID : string; esStoreID : string }.

Record ECTopologyReport := mkECReport {
  etZoneShardCounts : gmap string Z; etDataZoneCounts : gmap string Z; etCodingZoneCounts : gmap string Z;
  etMaxShardsPerZone : Z; etZoneToleranceOK : bool;
  etNodeShardCounts : gmap string Z; etDataNodeCounts : gmap string Z; etCodingNodeCounts : gmap string Z;
  etMaxShardsPerNode : Z; etStoreShardCounts : gmap string Z; etMaxShardsPerStore : Z;
  etNodeSpreadOK : bool; etStoreSpreadOK : bool; etDataRoleBalanceOK : bool; etCodingRoleBalanceOK : bool;
  etPlacementSkew : Z; etWeakPlacement : bool; etBrokenStrictRule : string; etBlockedReason : string;
  etEligibleZoneCount : Z; etEligibleCandidateCount : Z }.

Definition zero_report (reason : string) (zones candidates : Z) : ECTopologyReport :=
  mkECReport ∅ ∅ ∅ 0 false ∅ ∅ ∅ 0 ∅ 0 false false false false 0 false "" reason zones candidates.

Record ECStripePlacementPlan := mkECPlan {
  eplVolumeID : string; eplProfileID : string; eplStripeID : Z; eplStripeGeneration : Z; eplTopologyRevision : Z;
  eplShardTargets : list ECShardTarget; eplTopologyReport : ECTopologyReport; eplBlockedReason : string }.

(** [m[k]] of a map of counts. *)
Definition cnt (m : gmap string Z) (k : string) : Z := default 0 (m !! k).

(** ** Requests *)

Definition normalizeECTopologyMode (raw : string) : string :=
  if String.eqb raw ECTopologyModeWeak then ECTopologyModeWeak else TopologyModeStrict.

Definition normalizeECStripePlacementRequest (req : ECStripePlacementRequest) : ECStripePlacementRequest :=
  req <| erVolumeID := TrimSpace (erVolumeID req) |> <| erProfileID := TrimSpace (erProfileID req) |>
      <| erTopologyMode := normalizeECTopologyMode (erTopologyMode req) |>.

Definition validateECStripePlacementRequest (req : ECStripePlacementRequest) : result string unit :=
  if String.eqb (erVolumeID req) "" then Err ECBlockedInvalidRequest else
  if String.eqb (erProfileID req) "" then Err ECBlockedInvalidRequest else
  if erDataShards req =? 0 then Err ECBlockedInvalidRequest else
  if erCodingShards req =? 0 then Err ECBlockedInvalidRequest else
  if zlen (erCandidates req) =? 0 then Err ECBlockedInsufficientCandidates else Ok tt.

(** [hash/fnv.New64a]: the offset basis and one step per byte. *)
Definition fnv64a (s : string) : Z :=
  fold_left (fun h c => wrap64 (Z.lxor h (code c) * 1099511628211)) (list_ascii_of_string s) 14695981039346656037.

Definition nul : string := String (chr 0) "".

(** The writes to the hash one after the other. *)
Definition ecPlacementSeed (req : ECStripePlacementRequest) : Z :=
  fnv64a (erVolumeID req ++ nul ++ erProfileID req ++ nul ++ FormatUint (erStripeID req) ++ nul
          ++ FormatUint (erTopologyRevision req)).

(** ** Candidates *)

Definition normalizeECCandidate (c : ECPlacementCandidate) : ECPlacementCandidate :=
  mkECCandidate (TrimSpace (ecZone c)) (TrimSpace (ecNodeID c)) (TrimSpace (ecStoreID c)) (TrimSpace (ecNodeHealth c))
    (TrimSpace (ecNodeLifecycle c)) (TrimSpace (ecStoreState c)) (ecStoreWeight c) (ecAvailableBytes c).

Definition ecCandidateKey (c : ECPlacementCandidate) : string := ecZone c ++ nul ++ ecNodeID c ++ nul ++ ecStoreID c.

(** The [continue]s of the loop before the duplicates. *)
Definition ec_eligible (c : ECPlacementCandidate) : bool :=
  negb (String.eqb (ecZone c) "" || String.eqb (ecNodeID c) "" || String.eqb (ecStoreID c) "")
  && (String.eqb (ecNodeHealth c) "" || String.eqb (ecNodeHealth c) ECNodeHealthHealthy)
  && (String.eqb (ecNodeLifecycle c) "" || String.eqb (ecNodeLifecycle c) ECNodeLifecycleActive)
  && (String.eqb (ecStoreState c) "" || String.eqb (ecStoreState c) ECStoreStateWritable)
  && (0 <? ecStoreWeight c).

Fixpoint eligible_loop (l : list ECPlacementCandidate) (seen : gset string) : list ECPlacementCandidate :=
  match l with
  | [] => []
  | c :: l =>
      let c := normalizeECCandidate c in
      if negb (ec_eligible c) then eligible_loop l seen else
      if bool_decide (ecCandidateKey c ∈ seen) then eligible_loop l seen
      else c :: eligible_loop l ({[ecCandidateKey c]} ∪ seen)
  end.

Definition ec_candidate_le (a b : ECPlacementCandidate) : Prop :=
  if negb (String.eqb (ecZone a) (ecZone b)) then String.ltb (ecZone a) (ecZone b) = true else
  if negb (String.eqb (ecNodeID a) (ecNodeID b)) then String.ltb (ecNodeID a) (ecNodeID b) = true else
  String.le (ecStoreID a) (ecStoreID b).

#[export] Instance ec_candidate_le_dec : RelDecision ec_candidate_le.
Proof. intros a b. unfold ec_candidate_le. repeat destruct (negb _); apply _. Defined.

Definition sortECCandidates (l : list ECPlacementCandidate) : list ECPlacementCandidate := merge_sort ec_candidate_le l.

Definition eligibleECCandidates (l : list ECPlacementCandidate) : list ECPlacementCandidate :=
  sortECCandidates (eligible_loop l ∅).

Definition sortedECZones (candidates : list ECPlacementCandidate) : list string :=
  merge_sort String.le
    (elements (list_to_set (List.filter (fun z => negb (String.eqb z "")) (map ecZone candidates)) : gset string)).

Definition candidatesForECZone (candidates : list ECPlacementCandidate) (zone : string) : list ECPlacementCandidate :=
  List.filter (fun c => String.eqb (ecZone c) zone) candidates.

(** [in[(rotation+i)%len(in)]] for every index. *)
Definition rotate {A} (l : list A) (rotation : Z) : list A :=
  omap (fun i => l !! Z.to_nat ((rotation + i) mod zlen l)) (seqZ 0 (zlen l)).

Definition rotateECCandidates (candidates : list ECPlacementCandidate) (seed : Z) : list ECPlacementCandidate :=
  rotate candidates (seed mod zlen candidates).

Definition rotateStrings (l : list string) (rotation : Z) : list string := rotate l (rotation mod zlen l).

Definition uniqueECNodeCount (candidates : list ECPlacementCandidate) : Z :=
  Z.of_nat (size (list_to_set (map ecNodeID candidates) : gset string)).
Definition uniqueECStoreCount (candidates : list ECPlacementCandidate) : Z :=
  Z.of_nat (size (list_to_set (map ecStoreID candidates) : gset string)).

(** ** Shards per zone *)

Definition ceilDiv (n d : Z) : Z := if d =? 0 then 0 else (n + d - 1) / d.

Fixpoint target_loop (zoneOrder : list string) (i base remainder zoneCap : Z) (targets : gmap string Z)
  : result string (gmap string Z) :=
  match zoneOrder with
  | [] => Ok targets
  | zone :: zoneOrder =>
      let count := if i <? remainder then base + 1 else base in
      if zoneCap <? count then Err ECBlockedZoneCapExceeded else
      target_loop zoneOrder (i + 1) base remainder zoneCap (<[zone := count]> targets)
  end.

Definition computeECZoneTargets (req : ECStripePlacementRequest) (candidates : list ECPlacementCandidate)
  : result string (list string * gmap string Z) :=
  let zones := sortedECZones candidates in
  if zlen zones =? 0 then Err ECBlockedInsufficientZones else
  let totalShards := wrap32 (erDataShards req + erCodingShards req) in
  let zoneCap := erCodingShards req in
  if zoneCap <? ceilDiv totalShards (zlen zones) then Err ECBlockedZoneCapExceeded else
  let usedZoneCount := if zlen zones <? totalShards then zlen zones else totalShards in
  let rotated := rotateStrings zones (ecPlacementSeed req mod zlen zones) in
  let zoneOrder := take (Z.to_nat usedZoneCount) rotated in
  if usedZoneCount =? 0 then Panic else
  targets ← target_loop zoneOrder 0 (totalShards / usedZoneCount) (totalShards mod usedZoneCount) zoneCap ∅;
  Ok (zoneOrder, targets).

Definition zeroECCounts (zones : list string) : gmap string Z := fold_left (fun m zone => <[zone := 0]> m) zones ∅.

(** The zone the next shard goes to: the emptiest one that has room, the first of equals; none is the empty name. *)
Definition pick_zone (zoneOrder : list string) (zoneTargets counts : gmap string Z) : string * Z :=
  fold_left (fun s zone =>
    if cnt zoneTargets zone <=? cnt counts zone then s else
    if String.eqb s.1 "" || (cnt counts zone <? s.2) then (zone, cnt counts zone) else s) zoneOrder ("", 0).

Fixpoint balance_loop (n : nat) (zoneOrder : list string) (zoneTargets counts : gmap string Z) : gmap string Z :=
  match n with
  | O => counts
  | S n =>
      let selected := (pick_zone zoneOrder zoneTargets counts).1 in
      if String.eqb selected "" then counts
      else balance_loop n zoneOrder zoneTargets (<[selected := cnt counts selected + 1]> counts)
  end.

Definition balancedECRoleCounts (total : Z) (zoneOrder : list string) (zoneTargets : gmap string Z) : gmap string Z :=
  balance_loop (Z.to_nat total) zoneOrder zoneTargets (zeroECCounts zoneOrder).

(** The shards of the other role. *)
Definition remaining_counts (zoneOrder : list string) (zoneTargets counts : gmap string Z) : gmap string Z :=
  fold_left (fun m zone => <[zone := cnt zoneTargets zone - cnt counts zone]> m) zoneOrder (zeroECCounts zoneOrder).

Definition computeECRoleCounts (req : ECStripePlacementRequest) (zoneOrder : list string) (zoneTargets : gmap string Z)
  : gmap string Z * gmap string Z :=
  if erCodingShards req <=? erDataShards req then
    let codingCounts := balancedECRoleCounts (erCodingShards req) zoneOrder zoneTargets in
    (remaining_counts zoneOrder zoneTargets codingCounts, codingCounts)
  else
    let dataCounts := balancedECRoleCounts (erDataShards req) zoneOrder zoneTargets in
    (dataCounts, remaining_counts zoneOrder zoneTargets dataCounts).

(** ** Choosing the candidates of a zone *)

(** The search: [search_loop] is the loop of [search] from a start on, where [search] first looks at the number of
    selected and of remaining candidates. *)
Fixpoint search_loop (want : Z) (rest : list ECPlacementCandidate) (selected : list ECPlacementCandidate)
    (usedNodes usedStores : gset string) : option (list ECPlacementCandidate) :=
  match rest with
  | [] => None
  | c :: rest =>
      if bool_decide (ecNodeID c ∈ usedNodes) || bool_decide (ecStoreID c ∈ usedStores)
      then search_loop want rest selected usedNodes usedStores else
      let selected' := (selected ++ [c])%list in
      match (if zlen selected' =? want then Some selected' else
             if zlen rest <? want - zlen selected' then None else
             search_loop want rest selected' ({[ecNodeID c]} ∪ usedNodes) ({[ecStoreID c]} ∪ usedStores)) with
      | Some found => Some found
      | None => search_loop want rest selected usedNodes usedStores
      end
  end.

Definition selectStrictECCandidates (candidates : list ECPlacementCandidate) (want : Z) : option (list ECPlacementCandidate) :=
  if want =? 0 then Some [] else
  if zlen candidates <? want then None else search_loop want candidates [] ∅ ∅.

Definition selectECCandidatesInZone (candidates : list ECPlacementCandidate) (want seed : Z) (allowReuse : bool)
  : result string (list ECPlacementCandidate) :=
  if want =? 0 then Ok [] else
  if zlen candidates =? 0 then Err ECBlockedNoEligibleCandidateInZone else
  let rotated := rotateECCandidates candidates seed in
  if allowReuse then Ok (omap (fun i => rotated !! Z.to_nat (i mod zlen rotated)) (seqZ 0 want)) else
  if uniqueECNodeCount candidates <? want then Err ECBlockedInsufficientNodesInZone else
  if uniqueECStoreCount candidates <? want then Err ECBlockedStoreSpread else
  match selectStrictECCandidates rotated want with
  | None => Err ECBlockedStoreSpread
  | Some selected => Ok selected
  end.

(** ** Plans *)

Fixpoint assign_loop (candidates : list ECPlacementCandidate) (zoneOrder : list string) (zoneTargets : gmap string Z)
    (seed : Z) (allowReuse : bool) (assignments : gmap string (list ECPlacementCandidate))
  : result string (gmap string (list ECPlacementCandidate)) :=
  match zoneOrder with
  | [] => Ok assignments
  | zone :: zoneOrder =>
      selected ← selectECCandidatesInZone (candidatesForECZone candidates zone) (cnt zoneTargets zone)
                   (add64 seed (Z.of_nat (String.length zone))) allowReuse;
      assign_loop candidates zoneOrder zoneTargets seed allowReuse (<[zone := selected]> assignments)
  end.

Definition expandECZoneSequence (zoneOrder : list string) (counts : gmap string Z) : list string :=
  let maxCount := fold_left (fun m zone => if m <? cnt counts zone then cnt counts zone else m) zoneOrder 0 in
  concat (map (fun round => List.filter (fun zone => round <? cnt counts zone) zoneOrder) (seqZ 0 maxCount)).

(** The shards of one role, numbered from [base] on. *)
Fixpoint shard_loop (role : ECShardRole) (base roleIndex : Z) (sequence : list string)
    (assignments : gmap string (list ECPlacementCandidate)) (zoneIndexes : gmap string Z)
  : result string (list ECShardTarget * gmap string Z) :=
  match sequence with
  | [] => Ok ([], zoneIndexes)
  | zone :: sequence =>
      match default [] (assignments !! zone) !! Z.to_nat (cnt zoneIndexes zone) with
      | None => Panic
      | Some c =>
          rest ← shard_loop role base (roleIndex + 1) sequence assignments (<[zone := cnt zoneIndexes zone + 1]> zoneIndexes);
          Ok (mkECShardTarget (wrap32 (base + wrap32 roleIndex)) role (wrap32 roleIndex) (ecZone c) (ecNodeID c) (ecStoreID c)
              :: rest.1, rest.2)
      end
  end.

(** How often a value occurs: one [counts[key]++] per target. *)
Definition count_by (key : ECShardTarget -> string) (targets : list ECShardTarget) : gmap string Z :=
  fold_left (fun m t => <[key t := wrap32 (cnt m (key t) + 1)]> m) targets ∅.

Definition maxECCount (counts : gmap string Z) : Z := map_fold (fun _ count max => if max <? count then count else max) 0 counts.

Definition ecCountSkew (counts : gmap string Z) (zones : list string) : Z :=
  match zones with
  | [] => 0
  | first :: rest =>
      let min := fold_left (fun m zone => if cnt counts zone <? m then cnt counts zone else m) rest (cnt counts first) in
      let max := fold_left (fun m zone => if m <? cnt counts zone then cnt counts zone else m) zones 0 in
      wrap32 (max - min)
  end.

Definition is_data (t : ECShardTarget) : bool := bool_decide (esRole t = ECShardRoleData).

Definition buildECTopologyReport (req : ECStripePlacementRequest) (zoneOrder : list string) (eligibleCandidateCount : Z)
    (targets : list ECShardTarget) (weak : bool) (brokenStrictRule : string) : ECTopologyReport :=
  let data := List.filter is_data targets in
  let coding := List.filter (fun t => negb (is_data t)) targets in
  let zoneShards := count_by esZone targets in
  let dataZones := count_by esZone data in
  let codingZones := count_by esZone coding in
  let nodeShards := count_by esNodeID targets in
  let storeShards := count_by esStoreID targets in
  mkECReport zoneShards dataZones codingZones (maxECCount zoneShards) (maxECCount zoneShards <=? erCodingShards req)
    nodeShards (count_by esNodeID data) (count_by esNodeID coding) (maxECCount nodeShards) storeShards (maxECCount storeShards)
    (maxECCount nodeShards <=? 1) (maxECCount storeShards <=? 1)
    (ecCountSkew dataZones zoneOrder <=? 1) (ecCountSkew codingZones zoneOrder <=? 1)
    (ecCountSkew zoneShards zoneOrder) weak brokenStrictRule "" (wrap32 (zlen zoneOrder)) (wrap32 eligibleCandidateCount).

Definition buildECStripePlacementPlan (req : ECStripePlacementRequest) (candidates : list ECPlacementCandidate)
    (zoneOrder : list string) (zoneTargets dataCounts codingCounts : gmap string Z) (allowReuse : bool) (brokenStrictRule : string)
  : result string ECStripePlacementPlan :=
  assignments ← assign_loop candidates zoneOrder zoneTargets (ecPlacementSeed req) allowReuse ∅;
  data ← shard_loop ECShardRoleData 0 0 (expandECZoneSequence zoneOrder dataCounts) assignments ∅;
  coding ← shard_loop ECShardRoleCoding (erDataShards req) 0 (expandECZoneSequence zoneOrder codingCounts) assignments data.2;
  let targets := (data.1 ++ coding.1)%list in
  Ok (mkECPlan (erVolumeID req) (erProfileID req) (erStripeID req) (erStripeGeneration req) (erTopologyRevision req) targets
        (buildECTopologyReport req zoneOrder (zlen candidates) targets allowReuse brokenStrictRule) "").

Definition blockedECStripePlacementPlan (req : ECStripePlacementRequest) (zones candidates : Z) (reason : string)
  : ECStripePlacementPlan :=
  mkECPlan (erVolumeID req) (erProfileID req) (erStripeID req) (erStripeGeneration req) (erTopologyRevision req) []
    (zero_report reason zones candidates) reason.

Definition ecWeakPlacementCanOverride (reason : string) : bool :=
  String.eqb reason ECBlockedInsufficientNodesInZone || String.eqb reason ECBlockedStoreSpread.

(** The plan and the reason of the error, if there is one; [Panic] is a run-time panic. *)
Definition PlanECStripe (req : ECStripePlacementRequest) : result Empty_set (ECStripePlacementPlan * option string) :=
  let req := normalizeECStripePlacementRequest req in
  match validateECStripePlacementRequest req with
  | Panic => Panic
  | Err reason => Ok (blockedECStripePlacementPlan req 0 0 reason, Some reason)
  | Ok _ =>
  let candidates := eligibleECCandidates (erCandidates req) in
  let n := wrap32 (zlen candidates) in
  if zlen candidates =? 0
  then Ok (blockedECStripePlacementPlan req 0 n ECBlockedInsufficientCandidates, Some ECBlockedInsufficientCandidates) else
  match computeECZoneTargets req candidates with
  | Panic => Panic
  | Err reason => Ok (blockedECStripePlacementPlan req (wrap32 (zlen (sortedECZones candidates))) n reason, Some reason)
  | Ok (zoneOrder, zoneTargets) =>
  let '(dataCounts, codingCounts) := computeECRoleCounts req zoneOrder zoneTargets in
  let build := buildECStripePlacementPlan req candidates zoneOrder zoneTargets dataCounts codingCounts in
  match build false "" with
  | Panic => Panic
  | Ok plan => Ok (plan, None)
  | Err reason =>
      let blocked := Ok (blockedECStripePlacementPlan req (wrap32 (zlen zoneOrder)) n reason, Some reason) in
      if String.eqb (normalizeECTopologyMode (erTopologyMode req)) ECTopologyModeWeak && erWeakPlacementAllowed req
         && ecWeakPlacementCanOverride reason
      then match build true reason with
           | Panic => Panic
           | Ok plan => Ok (plan, None)
           | Err _ => blocked
           end
      else blocked
  end end end.

End EcPlacement.

(** ** Profiles *)

Module EcProfile.

Definition ECCodecRSVandGF8 : string := "rs_vand_gf8".
Definition ECFailureDomainZone : string := "zone".
Definition DefaultECStripeUnitBytes : Z := 128 * 2 ^ 10.
Definition ECProductShardCap : Z := 32.
Definition ECGF8ShardLimit : Z := 256.
Definition ECProfileLifecycleActive : string := "active".
Definition ECProfileLifecycleDisabled : string := "disabled".

Record ECProfileRecord := mkECProfile {
  pfProfileID : string; pfCodecID : string; pfDataShards : Z; pfParityShards : Z; pfStripeUnitBytes : Z;
  pfFailureDomain : string; pfMaxUnavailableFailureDomains : Z; pfMaxShardsPerFailureDomain : Z; pfProductShardCap : Z;
  pfLifecycle : string; pfLabOverride : bool; pfCreatedBy : string; pfCreatedReason : string;
  pfCreatedAtUnix : Z; pfUpdatedAtUnix : Z }.

Record ECProfileValidationOptions := mkECOptions {
  voBlockSizeBytes : Z; voAllocationChunkSizeBytes : Z; voAllowLabOverride : bool }.

Definition NormalizeECProfile (rec : ECProfileRecord) : ECProfileRecord :=
  let codec := TrimSpace (pfCodecID rec) in
  let domain := TrimSpace (pfFailureDomain rec) in
  mkECProfile (TrimSpace (pfProfileID rec)) (if String.eqb codec "" then ECCodecRSVandGF8 else codec)
    (pfDataShards rec) (pfParityShards rec)
    (if pfStripeUnitBytes rec =? 0 then DefaultECStripeUnitBytes else pfStripeUnitBytes rec)
    (if String.eqb domain "" then ECFailureDomainZone else domain)
    (if pfMaxUnavailableFailureDomains rec =? 0 then 1 else pfMaxUnavailableFailureDomains rec)
    (if pfMaxShardsPerFailureDomain rec =? 0 then pfParityShards rec else pfMaxShardsPerFailureDomain rec)
    (if pfProductShardCap rec =? 0 then ECProductShardCap else pfProductShardCap rec)
    (if String.eqb (pfLifecycle rec) "" then ECProfileLifecycleActive else pfLifecycle rec)
    (pfLabOverride rec) (pfCreatedBy rec) (pfCreatedReason rec) (pfCreatedAtUnix rec) (pfUpdatedAtUnix rec).

Inductive profile_error :=
| ProfileIDRequired | ProfileIDSlash | UnsupportedCodec | DataShardsRequired | ParityShardsRequired
| ShardLimit (have : Z) | ShardCap (have : Z) | StripeUnitRequired | StripeUnitUnaligned | StripeUnitBlockSize
| StripeUnitChunkSize | UnsupportedFailureDomain | MaxUnavailableDomains | MaxShardsPerDomain | UnsupportedLifecycle.

Definition ValidateECProfileID (profileID : string) : result profile_error unit :=
  let profileID := TrimSpace profileID in
  if String.eqb profileID "" then Err ProfileIDRequired else
  if existsb (fun c => Ascii.eqb c "/") (list_ascii_of_string profileID) then Err ProfileIDSlash else Ok tt.

Definition ValidateECProfile (rec : ECProfileRecord) (opts : ECProfileValidationOptions) : result profile_error unit :=
  let rec := NormalizeECProfile rec in
  _ ← ValidateECProfileID (pfProfileID rec);
  if negb (String.eqb (pfCodecID rec) ECCodecRSVandGF8) then Err UnsupportedCodec else
  if pfDataShards rec =? 0 then Err DataShardsRequired else
  if pfParityShards rec =? 0 then Err ParityShardsRequired else
  let total := wrap32 (pfDataShards rec + pfParityShards rec) in
  if ECGF8ShardLimit <? total then Err (ShardLimit total) else
  let allowLabOverride := voAllowLabOverride opts || pfLabOverride rec in
  if (ECProductShardCap <? total) && negb allowLabOverride then Err (ShardCap total) else
  if pfStripeUnitBytes rec =? 0 then Err StripeUnitRequired else
  if negb (pfStripeUnitBytes rec mod 4096 =? 0) then Err StripeUnitUnaligned else
  if (0 <? voBlockSizeBytes opts) && negb (pfStripeUnitBytes rec mod voBlockSizeBytes opts =? 0) then Err StripeUnitBlockSize else
  if (0 <? voAllocationChunkSizeBytes opts) && negb (pfStripeUnitBytes rec mod voAllocationChunkSizeBytes opts =? 0)
  then Err StripeUnitChunkSize else
  if negb (String.eqb (pfFailureDomain rec) ECFailureDomainZone) then Err UnsupportedFailureDomain else
  if negb (pfMaxUnavailableFailureDomains rec =? 1) then Err MaxUnavailableDomains else
  if negb (pfMaxShardsPerFailureDomain rec =? pfParityShards rec) then Err MaxShardsPerDomain else
  if String.eqb (pfLifecycle rec) ECProfileLifecycleActive || String.eqb (pfLifecycle rec) ECProfileLifecycleDisabled
  then Ok tt else Err UnsupportedLifecycle.

End EcProfile.
