(* ===== verification/EcPlacementFacts.v ===== *)
(** * Erasure-coded placement: what a stripe plan guarantees

    A plan names every shard once, uses eligible candidates only, keeps at most as
    many shards in a zone as there are coding shards, so that any one zone can be
    lost, and in strict mode gives the shards of a zone different nodes and stores;
    the search for these fails only when there are none. *)

From Stdlib Require Import ZArith Lia Ascii String.
From stdpp Require Import base list gmap strings sorting list_numbers.
From S2P Require Import Prelude GoStrings Placement EcPlacement.
Open Scope string_scope.
Open Scope Z_scope.

Module EcPlacementFacts.
Import Placement EcPlacement.

(** ** Rotation *)

Lemma omap_window {A} (g : Z -> option A) (l : list A) m : forall s k,
  (forall j, (j < m)%nat -> g (s + Z.of_nat j) = l !! (k + j)%nat) -> (k + m <= length l)%nat ->
  omap g (seqZ s (Z.of_nat m)) = take m (drop k l).
Proof.
  induction m as [|m IH]; intros s k Hg Hk; [done|]. rewrite seqZ_cons by lia.
  destruct (lookup_lt_is_Some_2 l k) as [x Hx]; [lia|].
  pose proof (Hg 0%nat ltac:(lia)) as H0. rewrite Z.add_0_r, Nat.add_0_r, Hx in H0.
  rewrite (drop_S _ _ _ Hx). cbn [take]. cbn -[seqZ take drop].
  rewrite H0. f_equal.
  replace (Z.pred (Z.of_nat (S m))) with (Z.of_nat m) by lia. apply IH; [|lia].
  intros j Hj. replace (Z.succ s + Z.of_nat j) with (s + Z.of_nat (S j)) by lia. rewrite Hg by lia. f_equal. lia.
Qed.

Lemma rotate_eq {A} (l : list A) r : 0 <= r < zlen l ->
  rotate l r = (drop (Z.to_nat r) l ++ take (Z.to_nat r) l)%list.
Proof.
  intros Hr. unfold rotate, zlen in *. set (k := Z.to_nat r).
  assert (seqZ 0 (Z.of_nat (length l)) = seqZ 0 (Z.of_nat (length l - k)) ++ seqZ (0 + Z.of_nat (length l - k)) (Z.of_nat k))%list
    as -> by (rewrite <-seqZ_app by lia; f_equal; lia).
  rewrite omap_app. f_equal.
  - rewrite (omap_window _ l _ _ k); [apply take_ge; rewrite length_drop; lia| |lia].
    intros j Hj. f_equal. rewrite Z.mod_small by lia. lia.
  - rewrite (omap_window _ l _ _ 0); [done| |lia].
    intros j Hj. f_equal. replace (r + (0 + Z.of_nat (length l - k) + Z.of_nat j)) with (Z.of_nat j + 1 * Z.of_nat (length l)) by lia.
    rewrite Z_mod_plus_full, Z.mod_small by lia. lia.
Qed.

Lemma rotate_permutation {A} (l : list A) r : l <> [] -> rotate l (r mod zlen l) ≡ₚ l.
Proof.
  intros Hl. assert (0 < zlen l) by (destruct l; [done|unfold zlen; cbn; lia]).
  rewrite rotate_eq by (apply Z.mod_pos_bound; lia). rewrite Permutation_app_comm. by rewrite take_drop.
Qed.

(** ** Counting *)

Definition occ (z : string) (l : list string) : Z := zlen (List.filter (String.eqb z) l).
Definition zsum (m : gmap string Z) (zs : list string) : Z := foldr (fun z a => cnt m z + a) 0 zs.

Lemma occ_cons z x l : occ z (x :: l) = (if String.eqb z x then 1 else 0) + occ z l.
Proof. unfold occ. cbn [List.filter]. destruct (String.eqb z x); [unfold zlen; cbn [length]; lia|done]. Qed.
Lemma occ_app z l1 l2 : occ z (l1 ++ l2)%list = occ z l1 + occ z l2.
Proof. unfold occ. by rewrite List.filter_app, zlen_app. Qed.
Lemma occ_nonneg z l : 0 <= occ z l.
Proof. unfold occ, zlen. lia. Qed.
Lemma occ_not_in z l : z ∉ l -> occ z l = 0.
Proof.
  induction l as [|x l IH]; [done|]. rewrite not_elem_of_cons, occ_cons. intros [Hx Hl].
  destruct (String.eqb_spec z x); [done|]. rewrite IH by done. done.
Qed.
Lemma occ_filter f z zs : NoDup zs -> z ∈ zs -> occ z (List.filter f zs) = if f z then 1 else 0.
Proof.
  induction 1 as [|x zs Hx Hnd IH]; [by intros ?%not_elem_of_nil|]. intros Hz.
  assert (forall y, y ∈ List.filter f zs -> y ∈ zs) as Hsub
    by (intros y; rewrite !list_elem_of_In; by intros [? _]%filter_In).
  cbn [List.filter]. apply elem_of_cons in Hz as [->|Hz].
  - assert (occ x (List.filter f zs) = 0) as H0 by (apply occ_not_in; intros H; by apply Hx, Hsub).
    destruct (f x); [rewrite occ_cons, String.eqb_refl|]; lia.
  - assert (String.eqb z x = false) as He by (apply String.eqb_neq; intros ->; done).
    destruct (f x); [rewrite occ_cons, He|]; by rewrite IH.
Qed.

Lemma cnt_insert m k v z : cnt (<[k := v]> m) z = if String.eqb z k then v else cnt m z.
Proof.
  unfold cnt. destruct (String.eqb_spec z k) as [->|Hne]; [by rewrite lookup_insert_eq|by rewrite lookup_insert_ne by congruence].
Qed.

Lemma zsum_ext m m' zs : (forall z, z ∈ zs -> cnt m z = cnt m' z) -> zsum m zs = zsum m' zs.
Proof.
  induction zs as [|x zs IH]; [done|]. intros H. cbn [zsum foldr]. fold (zsum m zs) (zsum m' zs).
  rewrite (H x) by left. rewrite IH; [done|]. intros z Hz. apply H. by right.
Qed.
Lemma zsum_le m m' zs : (forall z, z ∈ zs -> cnt m z <= cnt m' z) -> zsum m zs <= zsum m' zs.
Proof.
  induction zs as [|x zs IH]; [done|]. intros H. cbn [zsum foldr]. fold (zsum m zs) (zsum m' zs).
  pose proof (H x ltac:(left)). assert (zsum m zs <= zsum m' zs) by (apply IH; intros z Hz; apply H; by right). lia.
Qed.
Lemma zsum_insert m k v zs : NoDup zs -> k ∈ zs -> zsum (<[k := v]> m) zs = zsum m zs + v - cnt m k.
Proof.
  induction 1 as [|x zs Hx Hnd IH]; [by intros ?%not_elem_of_nil|]. intros Hk. cbn [zsum foldr].
  fold (zsum (<[k := v]> m) zs) (zsum m zs). rewrite cnt_insert. apply elem_of_cons in Hk as [->|Hk].
  - rewrite String.eqb_refl. rewrite (zsum_ext _ m zs); [lia|]. intros z Hz. rewrite cnt_insert.
    by rewrite (proj2 (String.eqb_neq z x)) by (intros ->; done).
  - rewrite (proj2 (String.eqb_neq x k)) by (intros ->; done). rewrite IH by done. lia.
Qed.

Lemma zlen_occ (l : list string) m zs : NoDup zs -> (forall x, x ∈ l -> x ∈ zs) ->
  (forall z, z ∈ zs -> cnt m z = occ z l) -> zlen l = zsum m zs.
Proof.
  intros Hnd. revert m. induction l as [|x l IH]; intros m Hl Hm.
  - rewrite (zsum_ext m ∅ zs); [|intros z Hz; by rewrite Hm]. clear. unfold zlen. cbn [length].
    induction zs as [|z zs IH]; [done|]. cbn [zsum foldr]. fold (zsum ∅ zs). rewrite <-IH. done.
  - assert (x ∈ zs) as Hx by (apply Hl; left).
    assert (zlen l = zsum (<[x := occ x l]> m) zs) as E.
    { apply IH; [intros y Hy; apply Hl; by right|]. intros z Hz. rewrite cnt_insert, Hm, occ_cons by done.
      destruct (String.eqb_spec z x); [congruence|lia]. }
    rewrite zsum_insert, Hm, occ_cons, String.eqb_refl in E by done. unfold zlen in *. cbn [length]. lia.
Qed.

(** ** Candidates and zones *)

Lemma eligible_loop_in l seen c : c ∈ eligible_loop l seen -> exists c0, c0 ∈ l /\ c = normalizeECCandidate c0 /\ ec_eligible c = true.
Proof.
  revert seen. induction l as [|x l IH]; intros seen; cbn [eligible_loop]; [by intros ?%not_elem_of_nil|].
  assert (forall seen', c ∈ eligible_loop l seen' -> exists c0, c0 ∈ x :: l /\ c = normalizeECCandidate c0 /\ ec_eligible c = true) as Hrec.
  { intros seen' (c0 & Hc0 & H)%IH. exists c0. split; [by right|done]. }
  lazy zeta. destruct (ec_eligible (normalizeECCandidate x)) eqn:He; cbn [negb]; [|apply Hrec].
  destruct (bool_decide _); [apply Hrec|]. intros [->|H]%elem_of_cons; [|by eapply Hrec]. exists x. split; [left|done].
Qed.

Lemma eligible_in l c : c ∈ eligibleECCandidates l -> exists c0, c0 ∈ l /\ c = normalizeECCandidate c0 /\ ec_eligible c = true.
Proof. unfold eligibleECCandidates, sortECCandidates. rewrite merge_sort_Permutation. apply eligible_loop_in. Qed.

Lemma zones_spec candidates : NoDup (sortedECZones candidates) /\ (forall z, z ∈ sortedECZones candidates -> z <> "").
Proof.
  unfold sortedECZones. rewrite merge_sort_Permutation. split; [apply NoDup_elements|].
  intros z. rewrite merge_sort_Permutation, elem_of_elements, elem_of_list_to_set, list_elem_of_In. intros [_ H]%filter_In.
  by apply negb_true_iff, String.eqb_neq in H.
Qed.

Lemma zone_candidates candidates z c : c ∈ candidatesForECZone candidates z -> c ∈ candidates /\ ecZone c = z.
Proof. unfold candidatesForECZone. rewrite !list_elem_of_In. by intros [? ->%String.eqb_eq]%filter_In. Qed.

(** ** Shards per zone *)

Lemma target_loop_spec zs base remainder cap : forall i targets m, 0 <= i -> NoDup zs ->
  target_loop zs i base remainder cap targets = Ok m ->
  (forall z, z ∉ zs -> cnt m z = cnt targets z) /\ (forall z, z ∈ zs -> base <= cnt m z <= cap) /\
  zsum m zs = base * zlen zs + Z.max 0 (Z.min (zlen zs) (remainder - i)).
Proof.
  induction zs as [|x zs IH]; intros i targets m Hi Hnd; cbn [target_loop].
  { intros [= ->]. split_and!; [done|by intros z ?%not_elem_of_nil|]. unfold zlen. cbn. lia. }
  apply NoDup_cons in Hnd as [Hx Hnd]. lazy zeta. set (count := if i <? remainder then base + 1 else base).
  destruct (Z.ltb_spec cap count) as [|Hcap]; [done|]. intros (Hout & Hin & Hsum)%IH; [|lia|done].
  assert (cnt m x = count) as Ex by (rewrite Hout, cnt_insert, String.eqb_refl by done; done).
  assert (base <= count) by (subst count; destruct (_ <? _); lia). split_and!.
  - intros z [Hzx Hz]%not_elem_of_cons. rewrite Hout, cnt_insert by done. by rewrite (proj2 (String.eqb_neq _ _) Hzx).
  - intros z [->|Hz]%elem_of_cons; [lia|by apply Hin].
  - cbn [zsum foldr]. fold (zsum m zs). rewrite Hsum, Ex. unfold count, zlen. cbn [length]. destruct (Z.ltb_spec i remainder); lia.
Qed.

Lemma target_loop_panics zs base remainder cap : forall i targets, target_loop zs i base remainder cap targets <> Panic.
Proof. induction zs as [|x zs IH]; intros i targets; cbn [target_loop]; [done|]. by destruct (_ <? _). Qed.

Section ZoneTargets.
Context (req : ECStripePlacementRequest) (candidates : list ECPlacementCandidate).
Hypothesis data_u32 : 0 < erDataShards req.
Hypothesis coding_u32 : 0 < erCodingShards req.
Hypothesis total_u32 : erDataShards req + erCodingShards req < 2 ^ 32.

Lemma zone_targets_panics : computeECZoneTargets req candidates <> Panic.
Proof.
  unfold computeECZoneTargets. lazy zeta. rewrite wrap32_small by (unfold in_u; lia).
  destruct (Z.eqb_spec (zlen (sortedECZones candidates)) 0) as [|H0]; [done|]. destruct (_ <? ceilDiv _ _); [done|].
  pose proof (zlen_nonneg (sortedECZones candidates)).
  set (used := if _ <? _ + _ then zlen (sortedECZones candidates) else _ + _).
  destruct (Z.eqb_spec used 0) as [Hu|_]; [unfold used in Hu; destruct (_ <? _); lia|].
  destruct (target_loop _ _ _ _ _ _) eqn:Ht; [done|done|by apply target_loop_panics in Ht].
Qed.

Lemma zone_targets_spec zoneOrder zoneTargets : computeECZoneTargets req candidates = Ok (zoneOrder, zoneTargets) ->
  NoDup zoneOrder /\ (forall z, z ∈ zoneOrder -> z <> "") /\
  (forall z, z ∉ zoneOrder -> cnt zoneTargets z = 0) /\ (forall z, z ∈ zoneOrder -> 0 <= cnt zoneTargets z <= erCodingShards req) /\
  zsum zoneTargets zoneOrder = erDataShards req + erCodingShards req.
Proof.
  unfold computeECZoneTargets. lazy zeta. rewrite wrap32_small by (unfold in_u; lia). set (total := erDataShards req + _).
  destruct (zones_spec candidates) as [Hnd Hne]. set (zones := sortedECZones candidates) in *.
  destruct (Z.eqb_spec (zlen zones) 0) as [|H0]; [done|]. destruct (_ <? ceilDiv _ _); [done|].
  pose proof (zlen_nonneg zones). set (used := if zlen zones <? total then zlen zones else total).
  assert (0 < used <= zlen zones /\ used <= total) as Hused by (unfold used, total; destruct (Z.ltb_spec (zlen zones) (erDataShards req + erCodingShards req)); lia).
  destruct (Z.eqb_spec used 0) as [Hu|_]; [lia|]. set (rotated := rotateStrings _ _).
  assert (rotated ≡ₚ zones) as Hrot by (apply rotate_permutation; intros E; by rewrite E in H0).
  destruct (target_loop _ _ _ _ _ _) as [m| |] eqn:Ht; [|done|done]. cbn. intros [= <- <-].
  assert (NoDup (take (Z.to_nat used) rotated)) as Hndt.
  { rewrite <-Hrot in Hnd. rewrite <-(take_drop (Z.to_nat used) rotated) in Hnd. by apply NoDup_app in Hnd as [? _]. }
  assert (zlen (take (Z.to_nat used) rotated) = used) as Hlen.
  { unfold zlen in *. rewrite length_take, (Permutation_length Hrot). lia. }
  apply target_loop_spec in Ht as (Hout & Hin & Hsum); [|lia|done]. rewrite Hlen in Hsum.
  pose proof (Z.mod_pos_bound total used ltac:(lia)). pose proof (Z.div_mod total used ltac:(lia)).
  assert (0 <= total / used) by (apply Z.div_pos; lia). split_and!.
  - done.
  - intros z Hz%elem_of_take. destruct Hz as (i & Hz%list_elem_of_lookup_2 & _). apply Hne. by rewrite <-Hrot.
  - intros z Hz. by rewrite Hout.
  - intros z Hz. specialize (Hin z Hz). lia.
  - rewrite Hsum. lia.
Qed.
End ZoneTargets.

(** ** Roles *)

Lemma cnt_zero zones z : cnt (zeroECCounts zones) z = 0.
Proof.
  unfold zeroECCounts. assert (cnt ∅ z = 0) as H0 by done. revert H0. generalize (∅ : gmap string Z).
  induction zones as [|x zones IH]; intros m Hm; [done|]. cbn [fold_left]. apply IH. rewrite cnt_insert. by destruct (String.eqb z x).
Qed.

Lemma cnt_remaining zones targets counts z :
  cnt (remaining_counts zones targets counts) z = if bool_decide (z ∈ zones) then cnt targets z - cnt counts z else 0.
Proof.
  unfold remaining_counts. pose proof (cnt_zero zones z) as H0. revert H0. generalize (zeroECCounts zones). intros m Hm.
  assert (forall zs m, cnt (fold_left (fun m zone => <[zone := cnt targets zone - cnt counts zone]> m) zs m) z
    = if bool_decide (z ∈ zs) then cnt targets z - cnt counts z else cnt m z) as H; [|by rewrite H, Hm].
  clear. induction zs as [|x zs IH]; intros m; cbn [fold_left].
  { by rewrite bool_decide_eq_false_2 by apply not_elem_of_nil. }
  rewrite IH, cnt_insert. destruct (String.eqb_spec z x) as [->|Hne].
  - rewrite (bool_decide_eq_true_2 (x ∈ x :: zs)) by left. by destruct (bool_decide _).
  - rewrite (bool_decide_ext (z ∈ x :: zs) (z ∈ zs)); [done|]. rewrite elem_of_cons. naive_solver.
Qed.

Lemma pick_zone_spec zones targets counts : (forall z, z ∈ zones -> z <> "") ->
  let z := (pick_zone zones targets counts).1 in
  (z = "" -> forall z', z' ∈ zones -> cnt targets z' <= cnt counts z') /\ (z <> "" -> z ∈ zones /\ cnt counts z < cnt targets z).
Proof.
  intros Hne. unfold pick_zone.
  assert (forall s : string * Z, let z := (fold_left (fun s zone =>
      if cnt targets zone <=? cnt counts zone then s else
      if String.eqb s.1 "" || (cnt counts zone <? s.2) then (zone, cnt counts zone) else s) zones s).1 in
    (z = "" -> s.1 = "" /\ forall z', z' ∈ zones -> cnt targets z' <= cnt counts z') /\
    (z <> "" -> z = s.1 \/ z ∈ zones /\ cnt counts z < cnt targets z)) as H.
  { induction zones as [|x zones IH]; intros s; cbn [fold_left].
    { split; [|by left]. intros ->. split; [done|]. by intros ? ?%not_elem_of_nil. }
    assert (x <> "") by (apply Hne; left). specialize (IH (fun z Hz => Hne z (list_elem_of_further _ _ _ Hz))).
    destruct (Z.leb_spec (cnt targets x) (cnt counts x)).
    - destruct (IH s) as [H1 H2]. split; [|intros [?|[? ?]]%H2; [by left|right; split; [by right|done]]].
      intros [? H3]%H1. split; [done|]. intros z' [->|Hz]%elem_of_cons; [done|by apply H3].
    - destruct (_ || _) eqn:Hc.
      + destruct (IH (x, cnt counts x)) as [H1 H2]. cbn [fst] in H1, H2. split; [by intros [? _]%H1|].
        intros [->|[? ?]]%H2; right; [split; [left|done]|split; [by right|done]].
      + apply orb_false_iff in Hc as [Hc%String.eqb_neq _]. destruct (IH s) as [H1 H2]. split; [by intros [? _]%H1|].
        intros [?|[? ?]]%H2; [by left|right; split; [by right|done]]. }
  destruct (H ("", 0)) as [H1 H2]. split; [by intros [_ ?]%H1|]. intros Hz. by destruct (H2 Hz) as [E|?].
Qed.

Lemma balance_spec zones targets n : forall counts, NoDup zones -> (forall z, z ∈ zones -> z <> "") ->
  (forall z, 0 <= cnt counts z) -> (forall z, z ∈ zones -> cnt counts z <= cnt targets z) -> (forall z, z ∉ zones -> cnt counts z = 0) ->
  zsum counts zones + Z.of_nat n <= zsum targets zones ->
  let m := balance_loop n zones targets counts in
  (forall z, 0 <= cnt m z) /\ (forall z, z ∈ zones -> cnt m z <= cnt targets z) /\ (forall z, z ∉ zones -> cnt m z = 0) /\
  zsum m zones = zsum counts zones + Z.of_nat n.
Proof.
  induction n as [|n IH]; intros counts Hnd Hne Hpos Hle Hout Hsum; cbn [balance_loop].
  { split_and!; [done..|lia]. }
  destruct (pick_zone_spec zones targets counts Hne) as [Hnone Hsome]. lazy zeta. set (x := (pick_zone _ _ _).1) in *.
  destruct (String.eqb_spec x "") as [Hx|Hx].
  { specialize (Hnone Hx). apply zsum_le in Hnone. lia. }
  destruct (Hsome Hx) as [Hin Hlt]. destruct (IH (<[x := cnt counts x + 1]> counts)) as (H1 & H2 & H3 & H4); [done|done|..].
  - intros z. rewrite cnt_insert. pose proof (Hpos z). pose proof (Hpos x). destruct (String.eqb z x); lia.
  - intros z Hz. rewrite cnt_insert. destruct (String.eqb_spec z x) as [->|]; [lia|by apply Hle].
  - intros z Hz. rewrite cnt_insert. destruct (String.eqb_spec z x) as [->|]; [done|by apply Hout].
  - rewrite zsum_insert by done. lia.
  - rewrite zsum_insert in H4 by done. split_and!; [done..|]. lia.
Qed.

Lemma zsum_zero m zs : (forall z, z ∈ zs -> cnt m z = 0) -> zsum m zs = 0.
Proof.
  intros H. rewrite (zsum_ext m ∅ zs) by (intros z Hz; by rewrite H). clear. induction zs as [|x zs IH]; [done|].
  cbn [zsum foldr]. fold (zsum ∅ zs). by rewrite IH.
Qed.

Lemma zsum_remaining zones targets counts : zsum (remaining_counts zones targets counts) zones = zsum targets zones - zsum counts zones.
Proof.
  assert (forall zs, (forall z, z ∈ zs -> z ∈ zones) ->
    zsum (remaining_counts zones targets counts) zs = zsum targets zs - zsum counts zs) as H; [|by apply H].
  induction zs as [|x zs IH]; intros Hzs; [done|]. cbn [zsum foldr].
  fold (zsum (remaining_counts zones targets counts) zs) (zsum targets zs) (zsum counts zs).
  rewrite IH by (intros z Hz; apply Hzs; by right). rewrite cnt_remaining, bool_decide_eq_true_2 by (apply Hzs; left). lia.
Qed.

Lemma balanced_spec zones targets n : NoDup zones -> (forall z, z ∈ zones -> z <> "") -> (forall z, z ∈ zones -> 0 <= cnt targets z) ->
  0 <= n <= zsum targets zones ->
  let m := balancedECRoleCounts n zones targets in
  (forall z, 0 <= cnt m z) /\ (forall z, z ∈ zones -> cnt m z <= cnt targets z) /\ (forall z, z ∉ zones -> cnt m z = 0) /\
  zsum m zones = n.
Proof.
  intros Hnd Hne Hpos Hn. unfold balancedECRoleCounts.
  assert (zsum (zeroECCounts zones) zones = 0) as H0 by (apply zsum_zero; intros; apply cnt_zero).
  destruct (balance_spec zones targets (Z.to_nat n) (zeroECCounts zones)) as (H1 & H2 & H3 & H4); try done.
  - intros z. by rewrite cnt_zero.
  - intros z Hz. rewrite cnt_zero. by apply Hpos.
  - intros z _. apply cnt_zero.
  - lia.
  - split_and!; [done..|]. lia.
Qed.

Lemma role_counts_spec req zones targets data coding : NoDup zones -> (forall z, z ∈ zones -> z <> "") ->
  (forall z, z ∈ zones -> 0 <= cnt targets z) -> (forall z, z ∉ zones -> cnt targets z = 0) ->
  0 <= erDataShards req -> 0 <= erCodingShards req -> zsum targets zones = erDataShards req + erCodingShards req ->
  computeECRoleCounts req zones targets = (data, coding) ->
  (forall z, 0 <= cnt data z) /\ (forall z, 0 <= cnt coding z) /\ (forall z, cnt data z + cnt coding z = cnt targets z) /\
  zsum data zones = erDataShards req /\ zsum coding zones = erCodingShards req.
Proof.
  intros Hnd Hne Hpos Hout Hd Hc Hsum. unfold computeECRoleCounts. lazy zeta.
  (* the two branches are mirror images *)
  assert (forall n, 0 <= n <= zsum targets zones -> let m := balancedECRoleCounts n zones targets in
    let rest := remaining_counts zones targets m in
    (forall z, 0 <= cnt m z) /\ (forall z, 0 <= cnt rest z) /\ (forall z, cnt rest z + cnt m z = cnt targets z) /\
    zsum m zones = n /\ zsum rest zones = zsum targets zones - n) as H.
  { intros n Hn. destruct (balanced_spec zones targets n Hnd Hne Hpos Hn) as (H1 & H2 & H3 & H4). lazy zeta.
    split_and!; [done|..|done|by rewrite zsum_remaining, H4]; intros z; rewrite cnt_remaining;
      (destruct (bool_decide_reflect (z ∈ zones)) as [Hz|Hz]; [specialize (H2 z Hz); lia|rewrite ?H3, ?Hout by done; done]). }
  destruct (_ <=? _); intros [= <- <-].
  - destruct (H (erCodingShards req)) as (H1 & H2 & H3 & H4 & H5); [lia|]. split_and!; [done..|lia|lia].
  - destruct (H (erDataShards req)) as (H1 & H2 & H3 & H4 & H5); [lia|].
    split_and!; [done|done|intros z; rewrite Z.add_comm; apply H3|lia|lia].
Qed.

(** ** The order of the zones *)

Lemma max_fold counts zs : forall m0, let m := fold_left (fun m zone => if m <? cnt counts zone then cnt counts zone else m) zs m0 in
  m0 <= m /\ (forall z, z ∈ zs -> cnt counts z <= m).
Proof.
  induction zs as [|x zs IH]; intros m0; cbn [fold_left]; [split; [lia|by intros z ?%not_elem_of_nil]|].
  destruct (IH (if m0 <? cnt counts x then cnt counts x else m0)) as [H1 H2].
  assert (m0 <= (if m0 <? cnt counts x then cnt counts x else m0) /\ cnt counts x <= (if m0 <? cnt counts x then cnt counts x else m0))
    as [? ?] by (destruct (Z.ltb_spec m0 (cnt counts x)); lia).
  split; [lia|]. intros z [->|Hz]%elem_of_cons; [lia|by apply H2].
Qed.

Lemma occ_rounds zones counts z n : NoDup zones -> z ∈ zones -> 0 <= cnt counts z ->
  occ z (concat (map (fun round => List.filter (fun zone => round <? cnt counts zone) zones) (seqZ 0 (Z.of_nat n))))
  = Z.min (Z.of_nat n) (cnt counts z).
Proof.
  intros Hnd Hz Hpos. induction n as [|n IH]; [by rewrite Z.min_l by lia|].
  assert (seqZ 0 (Z.of_nat (S n)) = seqZ 0 (Z.of_nat n) ++ [Z.of_nat n])%list as ->.
  { replace (Z.of_nat (S n)) with (Z.of_nat n + 1) by lia. rewrite seqZ_app by lia. done. }
  rewrite map_app, concat_app, occ_app, IH. cbn [map concat]. rewrite app_nil_r, occ_filter by done.
  destruct (Z.ltb_spec (Z.of_nat n) (cnt counts z)); lia.
Qed.

Lemma expand_spec zones counts : NoDup zones -> (forall z, 0 <= cnt counts z) -> (forall z, z ∉ zones -> cnt counts z = 0) ->
  (forall z, occ z (expandECZoneSequence zones counts) = cnt counts z) /\
  zlen (expandECZoneSequence zones counts) = zsum counts zones.
Proof.
  intros Hnd Hpos Hout. assert (forall x, x ∈ expandECZoneSequence zones counts -> x ∈ zones) as Hin.
  { unfold expandECZoneSequence. lazy zeta. intros x. rewrite !list_elem_of_In, in_concat. intros (l & Hl & Hx).
    apply in_map_iff in Hl as (r & <- & _). by apply filter_In in Hx as [? _]. }
  assert (forall z, occ z (expandECZoneSequence zones counts) = cnt counts z) as Hocc.
  { intros z. destruct (decide (z ∈ zones)) as [Hz|Hz]; [|rewrite Hout by done; apply occ_not_in; by intros H%Hin].
    unfold expandECZoneSequence. lazy zeta. destruct (max_fold counts zones 0) as [H0 Hmax]. specialize (Hmax z Hz).
    set (m := fold_left _ _ _) in *. replace m with (Z.of_nat (Z.to_nat m)) by lia. rewrite occ_rounds by done. lia. }
  split; [done|]. eapply zlen_occ; [done|done|]. intros z _. by rewrite Hocc.
Qed.

(** ** The search of a zone *)

(** Candidates on different nodes and stores, all of them unused. *)
Definition spread (nodes stores : gset string) (l : list ECPlacementCandidate) : Prop :=
  NoDup (map ecNodeID l) /\ NoDup (map ecStoreID l) /\
  forall c, c ∈ l -> ecNodeID c ∉ nodes /\ ecStoreID c ∉ stores.

Lemma spread_cons nodes stores c l : spread nodes stores (c :: l) <->
  ecNodeID c ∉ nodes /\ ecStoreID c ∉ stores /\ spread ({[ecNodeID c]} ∪ nodes) ({[ecStoreID c]} ∪ stores) l.
Proof.
  unfold spread. cbn [map]. rewrite !NoDup_cons, !list_elem_of_fmap. split.
  - intros ([Hn1 Hn2] & [Hs1 Hs2] & H). destruct (H c) as [? ?]; [left|]. split_and!; [done..|].
    intros c' Hc'. destruct (H c') as [? ?]; [by right|]. rewrite !not_elem_of_union, !not_elem_of_singleton.
    split_and!; [|done| |done]; intros E; [apply Hn1|apply Hs1]; by exists c'.
  - intros (H1 & H2 & H3 & H4 & H). split_and!.
    + intros (c' & E & Hc'). destruct (H c' Hc') as [Hx _]. apply Hx. rewrite E. set_solver.
    + done.
    + intros (c' & E & Hc'). destruct (H c' Hc') as [_ Hx]. apply Hx. rewrite E. set_solver.
    + done.
    + intros c' [->|Hc']%elem_of_cons; [done|]. destruct (H c' Hc'). set_solver.
Qed.

Lemma search_sound want rest : forall selected nodes stores found, search_loop want rest selected nodes stores = Some found ->
  exists l, found = (selected ++ l)%list /\ l `sublist_of` rest /\ zlen found = want /\ spread nodes stores l.
Proof.
  induction rest as [|c rest IH]; intros selected nodes stores found; cbn [search_loop]; [done|].
  destruct (_ || _) eqn:Hused; [intros (l & -> & Hl & H)%IH; exists l; split_and!; [done|by constructor|apply H..]|].
  apply orb_false_iff in Hused as [Hn%bool_decide_eq_false Hs%bool_decide_eq_false]. lazy zeta.
  destruct (if _ =? _ then _ else _) as [found'|] eqn:Htry.
  - intros [= ->]. destruct (Z.eqb_spec (zlen (selected ++ [c])) want) as [Hw|Hw].
    + injection Htry as <-. exists [c]. split_and!; [done|constructor; apply sublist_nil_l|done|].
      apply spread_cons. split_and!; [done..|]. split_and!; [constructor..|]. by intros c' ?%not_elem_of_nil.
    + destruct (_ <? _) in Htry; [done|]. apply IH in Htry as (l & -> & Hl & Hw' & Hsp). exists (c :: l).
      split_and!; [by rewrite <-app_assoc|by constructor|done|by apply spread_cons].
  - intros (l & -> & Hl & H)%IH. exists l. split_and!; [done|by constructor|apply H..].
Qed.

Lemma search_complete want rest : forall selected nodes stores l, l `sublist_of` rest -> spread nodes stores l -> l <> [] ->
  zlen selected + zlen l = want -> search_loop want rest selected nodes stores <> None.
Proof.
  induction rest as [|c rest IH]; intros selected nodes stores l Hl Hsp Hne Hw; cbn [search_loop].
  { by apply sublist_nil_r in Hl as ->. }
  destruct (_ || _) eqn:Hused.
  - apply sublist_cons_r in Hl as [Hl|(l' & -> & Hl)]; [by eapply IH|]. exfalso.
    apply spread_cons in Hsp as (H1 & H2 & _). by apply orb_true_iff in Hused as [?%bool_decide_eq_true|?%bool_decide_eq_true].
  - lazy zeta. apply sublist_cons_r in Hl as [Hl|(l' & -> & Hl)]; [destruct (if _ =? _ then _ else _); [done|by eapply IH]|].
    apply spread_cons in Hsp as (H1 & H2 & Hsp).
    destruct (Z.eqb_spec (zlen (selected ++ [c])) want) as [|Hw']; [done|].
    assert (zlen (selected ++ [c]) + zlen l' = want) as Hsum by (unfold zlen in *; rewrite length_app; cbn [length] in *; lia).
    pose proof (sublist_length _ _ Hl) as Hlen.
    destruct (Z.ltb_spec (zlen rest) (want - zlen (selected ++ [c]))); [unfold zlen in *; lia|].
    assert (l' <> []) as Hne' by (intros ->; unfold zlen in *; cbn [length] in *; lia).
    pose proof (IH (selected ++ [c])%list _ _ l' Hl Hsp Hne' Hsum) as Hs. by destruct (search_loop _ _ _ _ _).
Qed.

Definition distinct (l : list ECPlacementCandidate) : Prop := NoDup (map ecNodeID l) /\ NoDup (map ecStoreID l).

Lemma distinct_spread l : distinct l <-> spread ∅ ∅ l.
Proof. unfold distinct, spread. split; [intros [? ?]; split_and!; set_solver|tauto]. Qed.

Lemma select_strict_spec candidates want : 0 <= want ->
  (forall l, selectStrictECCandidates candidates want = Some l -> l `sublist_of` candidates /\ zlen l = want /\ distinct l) /\
  (forall l, l `sublist_of` candidates -> zlen l = want -> distinct l -> selectStrictECCandidates candidates want <> None).
Proof.
  intros Hw. unfold selectStrictECCandidates. destruct (Z.eqb_spec want 0) as [->|Hw0].
  { split; [|done]. intros l [= <-]. split_and!; [apply sublist_nil_l|done|split; constructor]. }
  destruct (Z.ltb_spec (zlen candidates) want).
  { split; [done|]. intros l Hl%sublist_length Hz. unfold zlen in *. lia. } split.
  - intros l (l' & -> & Hl & Hz & Hsp)%search_sound. cbn [app] in *. split_and!; [done|done|by apply distinct_spread].
  - intros l Hl Hz Hd. eapply (search_complete want candidates [] ∅ ∅ l); [done|by apply distinct_spread| |].
    + intros ->. by unfold zlen in Hz.
    + unfold zlen in *. cbn [length]. lia.
Qed.

Lemma unique_count (f : ECPlacementCandidate -> string) l candidates : l ⊆+ candidates -> NoDup (map f l) ->
  zlen l <= Z.of_nat (size (list_to_set (map f candidates) : gset string)).
Proof.
  intros Hl Hnd. unfold zlen. rewrite <-(length_map f l).
  assert (length (map f l) = size (list_to_set (map f l) : gset string)) as -> by (symmetry; by apply size_list_to_set).
  apply inj_le, subseteq_size. intros x. rewrite !elem_of_list_to_set, !list_elem_of_fmap. intros (c & -> & Hc).
  exists c. split; [done|]. by eapply elem_of_submseteq.
Qed.

Lemma select_zone_sound candidates want seed reuse l : 0 <= want -> selectECCandidatesInZone candidates want seed reuse = Ok l ->
  zlen l = want /\ (forall c, c ∈ l -> c ∈ candidates) /\ (reuse = false -> l ⊆+ candidates /\ distinct l).
Proof.
  intros Hw. unfold selectECCandidatesInZone. destruct (Z.eqb_spec want 0) as [->|Hw0].
  { intros [= <-]. split_and!; [done|by intros c ?%not_elem_of_nil|]. intros _. split; [apply submseteq_nil_l|split; constructor]. }
  destruct (Z.eqb_spec (zlen candidates) 0) as [H0|H0]; [done|]. lazy zeta.
  assert (rotateECCandidates candidates seed ≡ₚ candidates) as Hrot by (apply rotate_permutation; intros ->; by apply H0).
  set (rotated := rotateECCandidates candidates seed) in *.
  assert (0 < zlen rotated) as Hlen by (unfold zlen in *; rewrite (Permutation_length Hrot); lia). destruct reuse.
  - intros [= <-]. assert (forall n s, 0 <= s -> zlen (omap (fun i => rotated !! Z.to_nat (i mod zlen rotated)) (seqZ s (Z.of_nat n))) = Z.of_nat n) as Hn.
    { induction n as [|n IH]; intros s Hs; [done|]. rewrite seqZ_cons by lia.
      destruct (lookup_lt_is_Some_2 rotated (Z.to_nat (s mod zlen rotated))) as [x Hx].
      { pose proof (Z.mod_pos_bound s (zlen rotated) Hlen). unfold zlen in *. lia. }
      cbn -[seqZ]. rewrite Hx. specialize (IH (Z.succ s) ltac:(lia)). replace (Z.pred (Z.of_nat (S n))) with (Z.of_nat n) by lia.
      unfold zlen in *. cbn [length]. lia. }
    split_and!; [specialize (Hn (Z.to_nat want) 0 ltac:(lia)); by rewrite Z2Nat.id in Hn by lia| |done].
    intros c (i & _ & Hc)%list_elem_of_omap. rewrite <-Hrot. by eapply list_elem_of_lookup_2.
  - destruct (_ <? want); [done|]. destruct (_ <? want); [done|]. destruct (selectStrictECCandidates rotated want) as [found|] eqn:Hf; [|done].
    intros [= <-]. destruct (select_strict_spec rotated want Hw) as [Hsound _]. apply Hsound in Hf as (Hl & Hz & Hd).
    assert (found ⊆+ candidates) as Hsub by (rewrite <-Hrot; by apply sublist_submseteq).
    split_and!; [done| |done]. intros c Hc. by eapply elem_of_submseteq.
Qed.

(** C17: the strict selection of a zone is exact.  It succeeds precisely when there are as many candidates in the zone
    as shards are wanted that all have different nodes and different stores, and then returns such a selection. *)
Theorem strict_selection_exact (candidates : list ECPlacementCandidate) (want seed : Z) : 0 <= want ->
  (forall l, selectECCandidatesInZone candidates want seed false = Ok l -> l ⊆+ candidates /\ zlen l = want /\ distinct l) /\
  ((exists l, selectECCandidatesInZone candidates want seed false = Ok l) <->
   (exists l, l ⊆+ candidates /\ zlen l = want /\ distinct l)).
Proof.
  intros Hw. unfold selectECCandidatesInZone. destruct (Z.eqb_spec want 0) as [->|Hw0].
  { assert (@nil ECPlacementCandidate ⊆+ candidates /\ zlen (@nil ECPlacementCandidate) = 0 /\ distinct []) as H
      by (split_and!; [apply submseteq_nil_l|done|split; constructor]).
    split; [by intros l [= <-]|]. split; intros _; by exists []. }
  destruct (Z.eqb_spec (zlen candidates) 0) as [H0|H0].
  { split; [done|]. split; [by intros [l ?]|]. intros (l & Hl%submseteq_length & Hz & _). unfold zlen in *. lia. }
  lazy zeta. assert (rotateECCandidates candidates seed ≡ₚ candidates) as Hrot
    by (apply rotate_permutation; intros ->; by apply H0).
  set (rotated := rotateECCandidates candidates seed) in *. destruct (select_strict_spec rotated want Hw) as [Hsound Hcomplete].
  assert (forall l, selectStrictECCandidates rotated want = Some l -> l ⊆+ candidates /\ zlen l = want /\ distinct l) as Hsound'.
  { intros l (Hl & Hz & Hd)%Hsound. split_and!; [|done|done]. rewrite <-Hrot. by apply sublist_submseteq. }
  assert ((exists l, l ⊆+ candidates /\ zlen l = want /\ distinct l) ->
    (uniqueECNodeCount candidates <? want) = false /\ (uniqueECStoreCount candidates <? want) = false /\
    exists l, selectStrictECCandidates rotated want = Some l) as Hex.
  { intros (l & Hl & Hz & [Hn Hs]). split_and!.
    - apply Z.ltb_ge. rewrite <-Hz. by apply unique_count.
    - apply Z.ltb_ge. rewrite <-Hz. by apply unique_count.
    - rewrite <-Hrot in Hl. apply submseteq_sublist_r in Hl as (l' & Hp & Hl').
      destruct (selectStrictECCandidates rotated want) as [found|] eqn:E; [by exists found|]. exfalso.
      apply (Hcomplete l'); [done|unfold zlen in *; by rewrite <-Hp| |done]. unfold distinct. by rewrite <-Hp. }
  destruct (uniqueECNodeCount candidates <? want) eqn:H1; [split; [done|]; split; [by intros [? ?]|by intros [? _]%Hex]|].
  destruct (uniqueECStoreCount candidates <? want) eqn:H2; [split; [done|]; split; [by intros [? ?]|by intros (_ & ? & _)%Hex]|].
  destruct (selectStrictECCandidates rotated want) as [found|] eqn:Hf.
  - split; [intros l [= <-]; by apply Hsound'|]. split; intros _; [exists found; by apply Hsound'|by exists found].
  - split; [done|]. split; [by intros [? ?]|by intros (_ & _ & ? & ?)%Hex].
Qed.

(** ** Shards *)

Lemma select_zone_panics candidates want seed reuse : selectECCandidatesInZone candidates want seed reuse <> Panic.
Proof. unfold selectECCandidatesInZone. lazy zeta. by repeat case_match. Qed.

Definition assigned (A : gmap string (list ECPlacementCandidate)) (z : string) : list ECPlacementCandidate := default [] (A !! z).

Lemma assign_loop_spec candidates targets seed reuse zones : forall A0, NoDup zones -> (forall z, z ∈ zones -> 0 <= cnt targets z) ->
  assign_loop candidates zones targets seed reuse A0 <> Panic /\
  forall A, assign_loop candidates zones targets seed reuse A0 = Ok A ->
    (forall z, z ∉ zones -> assigned A z = assigned A0 z) /\
    (forall z, z ∈ zones -> zlen (assigned A z) = cnt targets z /\
       (forall c, c ∈ assigned A z -> c ∈ candidates /\ ecZone c = z) /\ (reuse = false -> distinct (assigned A z))).
Proof.
  induction zones as [|x zones IH]; intros A0 Hnd Hpos; cbn [assign_loop].
  { split; [done|]. intros A [= ->]. split; [done|]. by intros z ?%not_elem_of_nil. }
  apply NoDup_cons in Hnd as [Hx Hnd]. specialize (fun A => IH A Hnd (fun z Hz => Hpos z (list_elem_of_further _ _ _ Hz))).
  destruct (selectECCandidatesInZone _ _ _ _) as [l|e|] eqn:Hsel; cbn [mbind result_bind];
    [|done|by apply select_zone_panics in Hsel].
  apply select_zone_sound in Hsel as (Hlen & Hin & Hd); [|apply Hpos; left].
  destruct (IH (<[x := l]> A0)) as [Hp Hok]. split; [done|]. intros A HA. destruct (Hok A HA) as [Hout Hins].
  assert (assigned A x = l) as Ex by (rewrite Hout by done; unfold assigned; by rewrite lookup_insert_eq). split.
  - intros z [Hzx Hz]%not_elem_of_cons. rewrite Hout by done. unfold assigned. by rewrite lookup_insert_ne by congruence.
  - intros z [->|Hz]%elem_of_cons; [|by apply Hins]. rewrite Ex. split_and!; [done| |intros H; by apply Hd].
    intros c Hc. by apply zone_candidates, Hin.
Qed.

(** The candidates of the shards of a zone, by node and store. *)
Definition in_zone (z : string) (ts : list ECShardTarget) : list (string * string) :=
  map (fun t => (esNodeID t, esStoreID t)) (List.filter (fun t => String.eqb z (esZone t)) ts).
Definition places (l : list ECPlacementCandidate) : list (string * string) := map (fun c => (ecNodeID c, ecStoreID c)) l.

Lemma shard_loop_spec role base A sequence : forall i idx,
  (forall z c, c ∈ assigned A z -> ecZone c = z) -> (forall z, 0 <= cnt idx z) ->
  (forall z, cnt idx z + occ z sequence <= zlen (assigned A z)) ->
  exists ts idx', shard_loop role base i sequence A idx = Ok (ts, idx') /\
    (forall z, cnt idx' z = cnt idx z + occ z sequence) /\
    map (fun t => (esShardID t, esRole t, esRoleIndex t)) ts
      = map (fun k => (wrap32 (base + wrap32 k), role, wrap32 k)) (seqZ i (zlen sequence)) /\
    (forall t, t ∈ ts -> exists z c, c ∈ assigned A z /\ esZone t = ecZone c /\ esNodeID t = ecNodeID c /\ esStoreID t = ecStoreID c) /\
    (forall z, in_zone z ts = places (take (Z.to_nat (occ z sequence)) (drop (Z.to_nat (cnt idx z)) (assigned A z)))).
Proof.
  induction sequence as [|x sequence IH]; intros i idx Hzone Hpos Hfit; cbn [shard_loop].
  { exists [], idx. split_and!; [done|intros z; unfold occ, zlen; cbn; lia|done|by intros t ?%not_elem_of_nil|done]. }
  pose proof (Hfit x) as Hfx. rewrite occ_cons, String.eqb_refl in Hfx. pose proof (occ_nonneg x sequence). pose proof (Hpos x).
  destruct (lookup_lt_is_Some_2 (assigned A x) (Z.to_nat (cnt idx x))) as [c Hc]; [unfold zlen in *; lia|].
  change (default [] (A !! x)) with (assigned A x). rewrite Hc.
  destruct (IH (i + 1) (<[x := cnt idx x + 1]> idx)) as (ts & idx' & E & Hidx & Hids & Hcand & Hin); [done|..].
  { intros z. rewrite cnt_insert. destruct (String.eqb z x); [lia|apply Hpos]. }
  { intros z. rewrite cnt_insert. specialize (Hfit z). rewrite occ_cons in Hfit. destruct (String.eqb_spec z x); [subst z|]; lia. }
  rewrite E. cbn [mbind result_bind fst snd]. eexists _, idx'. split; [done|].
  assert (ecZone c = x) as Hcz by (apply Hzone; by eapply list_elem_of_lookup_2). split_and!.
  - intros z. rewrite Hidx, cnt_insert, occ_cons. destruct (String.eqb_spec z x); [subst z|]; lia.
  - cbn [map esShardID esRole esRoleIndex]. rewrite Hids, (seqZ_cons i) by (unfold zlen; cbn [length]; lia). cbn [map].
    do 2 f_equal. unfold zlen. cbn [length]. f_equal; lia.
  - intros t [->|Ht]%elem_of_cons; [|by apply Hcand]. exists x, c. split_and!; [by eapply list_elem_of_lookup_2|done..].
  - intros z. unfold in_zone in *. cbn [List.filter esZone]. rewrite occ_cons, Hcz. specialize (Hin z). rewrite cnt_insert in Hin.
    pose proof (occ_nonneg z sequence).
    destruct (String.eqb_spec z x) as [Hzx|Hne]; [subst z|by rewrite Hin]. cbn [map esNodeID esStoreID]. rewrite Hin.
    rewrite (drop_S _ _ _ Hc). replace (Z.to_nat (1 + occ x sequence)) with (S (Z.to_nat (occ x sequence))) by lia.
    replace (Z.to_nat (cnt idx x + 1)) with (S (Z.to_nat (cnt idx x))) by lia. done.
Qed.

(** ** The report *)

Lemma count_by_spec key ts : zlen ts < 2 ^ 32 -> forall k, cnt (count_by key ts) k = occ k (map key ts).
Proof.
  intros Hts k. unfold count_by. assert (forall m : gmap string Z, (forall k, 0 <= cnt m k /\ cnt m k + zlen ts < 2 ^ 32) ->
    cnt (fold_left (fun m t => <[key t := wrap32 (cnt m (key t) + 1)]> m) ts m) k = cnt m k + occ k (map key ts)) as H.
  { clear Hts. induction ts as [|t ts IH]; intros m Hm; [unfold occ, zlen; cbn; lia|].
    assert (zlen (t :: ts) = 1 + zlen ts) as El by (unfold zlen; cbn [length]; lia). pose proof (zlen_nonneg ts).
    cbn [fold_left map]. rewrite occ_cons, IH, cnt_insert.
    - destruct (String.eqb_spec k (key t)); [subst k|lia]. rewrite wrap32_small by (unfold in_u; specialize (Hm (key t)); lia). lia.
    - intros k'. rewrite cnt_insert. pose proof (Hm k') as H'. rewrite El in H'. destruct (String.eqb_spec k' (key t)); [subst k'|lia].
      rewrite wrap32_small by (unfold in_u; lia). lia. }
  rewrite H; [done|]. intros k'. assert (cnt ∅ k' = 0) as -> by done. lia.
Qed.

Lemma count_by_nonneg key ts : zlen ts < 2 ^ 32 -> forall k v, count_by key ts !! k = Some v -> 0 <= v.
Proof.
  intros Hts k v Hv. pose proof (count_by_spec key ts Hts k) as H. unfold cnt in H. rewrite Hv in H. cbn in H.
  pose proof (occ_nonneg k (map key ts)). lia.
Qed.

Lemma max_count_le m n : 0 <= n -> (forall k v, m !! k = Some v -> 0 <= v) -> (maxECCount m <= n <-> forall k, cnt m k <= n).
Proof.
  intros Hn Hpos. assert (maxECCount m <= n <-> forall k v, m !! k = Some v -> v <= n) as ->.
  { unfold maxECCount. apply (map_fold_weak_ind (fun r m => r <= n <-> forall k v, m !! k = Some v -> v <= n)); [done|].
    intros k v m' r Hk IH. destruct (Z.ltb_spec r v) as [Hlt|Hge]; split.
    - intros Hv k' v'. destruct (decide (k' = k)) as [->|Hne]; [rewrite lookup_insert_eq; congruence|].
      rewrite lookup_insert_ne by done. apply IH. lia.
    - intros H. by apply (H k); rewrite lookup_insert_eq.
    - intros Hr k' v'. destruct (decide (k' = k)) as [->|Hne]; [rewrite lookup_insert_eq; intros [= <-]; lia|].
      rewrite lookup_insert_ne by done. by apply IH.
    - intros H. apply IH. intros k' v' Hk'. apply (H k'). rewrite lookup_insert_ne; [done|]. intros ->. congruence. }
  unfold cnt. split.
  - intros H k. destruct (m !! k) eqn:E; cbn; [by eapply H|done].
  - intros H k v E. specialize (H k). by rewrite E in H.
Qed.

Lemma nodup_occ l : NoDup l <-> forall k, occ k l <= 1.
Proof.
  induction l as [|x l IH]; [split; [intros _ k; unfold occ, zlen; cbn; lia|constructor]|]. rewrite NoDup_cons, IH. split.
  - intros [Hx Hl] k. rewrite occ_cons. destruct (String.eqb_spec k x); [subst k; rewrite occ_not_in by done; lia|apply Hl].
  - intros H. split; [|intros k; specialize (H k); rewrite occ_cons in H; destruct (String.eqb k x); lia].
    intros Hx. specialize (H x). rewrite occ_cons, String.eqb_refl in H.
    enough (0 < occ x l) by lia. clear -Hx. unfold occ. destruct (List.filter (String.eqb x) l) eqn:E; [|unfold zlen; cbn [length]; lia].
    rewrite list_elem_of_In in Hx. assert (In x (List.filter (String.eqb x) l)) as Hin by (apply filter_In; split; [done|apply String.eqb_refl]).
    by rewrite E in Hin.
Qed.

Lemma spread_ok key ts : zlen ts < 2 ^ 32 -> (maxECCount (count_by key ts) <=? 1) = true <-> NoDup (map key ts).
Proof.
  intros Hts. rewrite Z.leb_le, max_count_le by (try lia; by apply count_by_nonneg). rewrite nodup_occ.
  split; intros H k; specialize (H k); by rewrite count_by_spec in *.
Qed.

Lemma occ_zone z ts : occ z (map esZone ts) = zlen (List.filter (fun t => String.eqb z (esZone t)) ts).
Proof. induction ts as [|t ts IH]; [done|]. cbn [map List.filter]. rewrite occ_cons, IH. destruct (String.eqb _ _); unfold zlen; cbn [length]; lia. Qed.

(** ** Plans *)

Lemma zlen_in_zone z ts : zlen (in_zone z ts) = occ z (map esZone ts).
Proof. rewrite occ_zone. unfold in_zone, zlen. by rewrite length_map. Qed.

Lemma in_zone_app z ts ts' : in_zone z (ts ++ ts')%list = (in_zone z ts ++ in_zone z ts')%list.
Proof. unfold in_zone. by rewrite List.filter_app, map_app. Qed.

Lemma shard_ids_small base role n : 0 <= base -> 0 <= n -> base + n < 2 ^ 32 ->
  map (fun k => (wrap32 (base + wrap32 k), role, wrap32 k)) (seqZ 0 n) = map (fun k => (base + k, role : ECShardRole, k)) (seqZ 0 n).
Proof.
  intros Hb Hn Ht. apply map_ext_in. intros k Hk%list_elem_of_In%elem_of_seqZ. by rewrite !wrap32_small by (unfold in_u; rewrite ?wrap32_small by (unfold in_u; lia); lia).
Qed.

(** What holds of the shards of a plan, with or without the reuse of candidates. *)
Definition plan_sound (req : ECStripePlacementRequest) (candidates : list ECPlacementCandidate) (reuse : bool) (rule : string)
    (plan : ECStripePlacementPlan) : Prop :=
  let ts := eplShardTargets plan in
  map (fun t => (esShardID t, esRole t, esRoleIndex t)) ts
    = (map (fun i => (i, ECShardRoleData, i)) (seqZ 0 (erDataShards req))
       ++ map (fun i => (erDataShards req + i, ECShardRoleCoding, i)) (seqZ 0 (erCodingShards req)))%list /\
  (forall t, t ∈ ts -> exists c, c ∈ candidates /\ esZone t = ecZone c /\ esNodeID t = ecNodeID c /\ esStoreID t = ecStoreID c) /\
  (forall z, occ z (map esZone ts) <= erCodingShards req) /\
  (reuse = false -> forall z, NoDup (map fst (in_zone z ts)) /\ NoDup (map snd (in_zone z ts))) /\
  exists zones n, eplTopologyReport plan = buildECTopologyReport req zones n ts reuse rule.

Lemma build_spec req candidates zones targets data coding reuse rule :
  NoDup zones -> (forall z, z ∉ zones -> cnt targets z = 0) -> (forall z, z ∈ zones -> 0 <= cnt targets z <= erCodingShards req) ->
  (forall z, 0 <= cnt data z) -> (forall z, 0 <= cnt coding z) -> (forall z, cnt data z + cnt coding z = cnt targets z) ->
  zsum data zones = erDataShards req -> zsum coding zones = erCodingShards req ->
  0 <= erDataShards req -> 0 <= erCodingShards req -> erDataShards req + erCodingShards req < 2 ^ 32 ->
  buildECStripePlacementPlan req candidates zones targets data coding reuse rule <> Panic /\
  forall plan, buildECStripePlacementPlan req candidates zones targets data coding reuse rule = Ok plan ->
    plan_sound req candidates reuse rule plan.
Proof.
  intros Hnd Hout Hcap Hd Hc Hsum Hzd Hzc Hd0 Hc0 Ht. unfold buildECStripePlacementPlan.
  destruct (assign_loop_spec candidates targets (ecPlacementSeed req) reuse zones ∅ Hnd) as [Hp Hok]; [intros z Hz; by apply Hcap|].
  destruct (assign_loop _ _ _ _ _ _) as [A|e|]; [|done|done]. cbn [mbind result_bind]. destruct (Hok A eq_refl) as [Hnone Hassign]. clear Hok Hp.
  assert (forall z, zlen (assigned A z) = cnt targets z) as Hlen.
  { intros z. destruct (decide (z ∈ zones)) as [Hz|Hz]; [by apply Hassign|]. rewrite Hnone, Hout by done. done. }
  assert (forall z c, c ∈ assigned A z -> c ∈ candidates /\ ecZone c = z) as Hcand.
  { intros z c. destruct (decide (z ∈ zones)) as [Hz|Hz]; [by apply Hassign|]. rewrite Hnone by done. by intros ?%not_elem_of_nil. }
  assert (forall counts, (forall z, 0 <= cnt counts z) -> (forall z, cnt counts z <= cnt targets z) -> forall z, z ∉ zones -> cnt counts z = 0) as Hzero.
  { intros counts H0 Hle z Hz. specialize (H0 z). specialize (Hle z). rewrite Hout in Hle by done. lia. }
  destruct (expand_spec zones data Hnd Hd) as [Hod Hnd']; [apply Hzero; [done|]; intros z; specialize (Hsum z); specialize (Hc z); lia|].
  destruct (expand_spec zones coding Hnd Hc) as [Hoc Hnc']; [apply Hzero; [done|]; intros z; specialize (Hsum z); specialize (Hd z); lia|].
  destruct (shard_loop_spec ECShardRoleData 0 A (expandECZoneSequence zones data) 0 ∅) as (td & idx & -> & Hidx & Hidd & Htd & Hzd').
  { intros z c Hz. by apply Hcand in Hz as [_ ?]. } { done. }
  { intros z. rewrite Hod, Hlen. specialize (Hsum z). specialize (Hc z). assert (cnt ∅ z = 0) as -> by done. lia. }
  cbn [mbind result_bind fst snd].
  assert (forall z, cnt idx z = cnt data z) as Hidx' by (intros z; rewrite Hidx, Hod; done).
  destruct (shard_loop_spec ECShardRoleCoding (erDataShards req) A (expandECZoneSequence zones coding) 0 idx)
    as (tc & idx' & -> & _ & Hidc & Htc & Hzc').
  { intros z c Hz. by apply Hcand in Hz as [_ ?]. } { intros z. by rewrite Hidx'. }
  { intros z. rewrite Hidx', Hoc, Hlen, Hsum. lia. }
  cbn [mbind result_bind fst snd]. split; [done|]. intros plan [= <-]. unfold plan_sound. cbn [eplShardTargets eplTopologyReport]. lazy zeta.
  assert (forall z, in_zone z (td ++ tc) = places (assigned A z)) as Hz.
  { intros z. rewrite in_zone_app, Hzd', Hzc', Hod, Hoc, Hidx'. assert (cnt ∅ z = 0) as -> by done.
    pose proof (Hsum z). pose proof (Hlen z) as Hl. unfold zlen in Hl. specialize (Hd z). specialize (Hc z).
    change (Z.to_nat 0) with 0%nat. rewrite drop_0, (take_ge (drop _ _)) by (rewrite length_drop; lia).
    unfold places. by rewrite <-map_app, take_drop. }
  split_and!.
  - rewrite map_app, Hidd, Hidc, Hnd', Hnc', Hzd, Hzc. f_equal; apply shard_ids_small; lia.
  - intros t [Ht'|Ht']%elem_of_app; [apply Htd in Ht'|apply Htc in Ht']; destruct Ht' as (z & c & Hin & H); exists c;
      (split; [by apply Hcand in Hin as [? _]|done]).
  - intros z. rewrite <-zlen_in_zone, Hz. unfold places, zlen. rewrite length_map. fold (zlen (assigned A z)). rewrite Hlen.
    destruct (decide (z ∈ zones)); [by apply Hcap|rewrite Hout by done; lia].
  - intros Hr z. rewrite Hz. unfold places. rewrite !map_map. cbn [fst snd].
    destruct (decide (z ∈ zones)) as [Hin|Hin]; [by destruct (Hassign z Hin) as (_ & _ & Hdist); apply Hdist|].
    rewrite Hnone by done. split; constructor.
  - by exists zones, (zlen candidates).
Qed.

(** What [plan_sound] says of a plan, spelled out. *)
Lemma plan_sound_zone_loss req candidates reuse rule plan z : 0 <= erDataShards req -> 0 <= erCodingShards req ->
  plan_sound req candidates reuse rule plan ->
  zlen (eplShardTargets plan) = erDataShards req + erCodingShards req /\
  erDataShards req <= zlen (List.filter (fun t => negb (String.eqb z (esZone t))) (eplShardTargets plan)).
Proof.
  intros Hd Hc (Hids & _ & Hcap & _). lazy zeta in *. set (ts := eplShardTargets plan) in *.
  assert (zlen ts = erDataShards req + erCodingShards req) as Hlen.
  { apply (f_equal length) in Hids. rewrite length_app, !length_map, !length_seqZ in Hids. unfold zlen. lia. }
  split; [done|]. specialize (Hcap z). rewrite occ_zone in Hcap.
  assert (zlen ts = zlen (List.filter (fun t => String.eqb z (esZone t)) ts)
                    + zlen (List.filter (fun t => negb (String.eqb z (esZone t))) ts)) as Hsplit; [|lia].
  clear. induction ts as [|t ts IH]; [done|]. cbn [List.filter]. destruct (String.eqb _ _); cbn [negb]; unfold zlen in *; cbn [length]; lia.
Qed.

Lemma plan_sound_report req candidates reuse rule plan : 0 <= erDataShards req -> 0 <= erCodingShards req ->
  erDataShards req + erCodingShards req < 2 ^ 32 -> plan_sound req candidates reuse rule plan ->
  let ts := eplShardTargets plan in let report := eplTopologyReport plan in
  etZoneToleranceOK report = true /\ etWeakPlacement report = reuse /\
  (etNodeSpreadOK report = true <-> NoDup (map esNodeID ts)) /\ (etStoreSpreadOK report = true <-> NoDup (map esStoreID ts)).
Proof.
  intros Hd Hc Ht Hs. destruct (plan_sound_zone_loss _ _ _ _ _ "" Hd Hc Hs) as [Hlen _].
  destruct Hs as (_ & _ & Hcap & _ & zones & n & ->). lazy zeta in *.
  unfold buildECTopologyReport. cbn [etZoneToleranceOK etWeakPlacement etNodeSpreadOK etStoreSpreadOK].
  split_and!; [|done|apply spread_ok; lia|apply spread_ok; lia].
  apply Z.leb_le, max_count_le; [done|apply count_by_nonneg; lia|]. intros k. rewrite count_by_spec by lia. apply Hcap.
Qed.

Lemma plan_sound_spread req candidates rule plan z : plan_sound req candidates false rule plan ->
  let here := List.filter (fun t => String.eqb z (esZone t)) (eplShardTargets plan) in
  NoDup (map esNodeID here) /\ NoDup (map esStoreID here).
Proof.
  intros (_ & _ & _ & Hsp & _). specialize (Hsp eq_refl z). unfold in_zone in Hsp. rewrite !map_map in Hsp. exact Hsp.
Qed.

(** Planning ends, and a plan it returns is sound. *)
Lemma plan_ec_stripe_spec req : u32 (erDataShards req) -> u32 (erCodingShards req) -> erDataShards req + erCodingShards req < 2 ^ 32 ->
  PlanECStripe req <> Panic /\
  forall plan, PlanECStripe req = Ok (plan, None) -> exists reuse rule,
    plan_sound req (eligibleECCandidates (erCandidates req)) reuse rule plan /\
    (reuse = true -> erTopologyMode req = ECTopologyModeWeak /\ erWeakPlacementAllowed req = true).
Proof.
  unfold in_u. intros Hd Hc Ht. unfold PlanECStripe. set (nreq := normalizeECStripePlacementRequest req).
  assert (erDataShards nreq = erDataShards req) as Ed by done. assert (erCodingShards nreq = erCodingShards req) as Ec by done.
  assert (erCandidates nreq = erCandidates req) as Ecand by done. assert (erWeakPlacementAllowed nreq = erWeakPlacementAllowed req) as Ew by done.
  assert (String.eqb (normalizeECTopologyMode (erTopologyMode nreq)) ECTopologyModeWeak = true -> erTopologyMode req = ECTopologyModeWeak) as Em.
  { change (erTopologyMode nreq) with (normalizeECTopologyMode (erTopologyMode req)). unfold normalizeECTopologyMode.
    by destruct (String.eqb_spec (erTopologyMode req) ECTopologyModeWeak). }
  clearbody nreq. lazy zeta. rewrite Ecand.
  assert (forall candidates reuse rule plan, plan_sound nreq candidates reuse rule plan -> plan_sound req candidates reuse rule plan) as Hback.
  { intros candidates reuse rule plan. unfold plan_sound, buildECTopologyReport. rewrite Ed, Ec. done. }
  destruct (validateECStripePlacementRequest nreq) as [[]|e|] eqn:Hval; [|done|unfold validateECStripePlacementRequest in Hval; by repeat case_match].
  assert (0 < erDataShards nreq /\ 0 < erCodingShards nreq) as [Hd0 Hc0].
  { unfold validateECStripePlacementRequest in Hval. repeat case_match; try done. lia. }
  destruct (_ =? 0); [done|]. set (candidates := eligibleECCandidates _).
  destruct (computeECZoneTargets nreq candidates) as [[zones targets]|e|] eqn:Hzt;
    [|done|by apply zone_targets_panics in Hzt; [|lia..]].
  apply zone_targets_spec in Hzt as (Hnd & Hne & Hout & Hcap & Hsum); [|lia..].
  destruct (computeECRoleCounts nreq zones targets) as [data coding] eqn:Hroles.
  apply role_counts_spec in Hroles as (H1 & H2 & H3 & H4 & H5); [|done|done|intros z Hz; by apply Hcap|done|lia|lia|done].
  assert (forall reuse rule, buildECStripePlacementPlan nreq candidates zones targets data coding reuse rule <> Panic /\
    forall plan, buildECStripePlacementPlan nreq candidates zones targets data coding reuse rule = Ok plan ->
      plan_sound nreq candidates reuse rule plan) as Hbuild by (intros; apply build_spec; (done || lia)).
  destruct (Hbuild false "") as [Hp Hok]. destruct (buildECStripePlacementPlan _ _ _ _ _ _ false "") as [plan|reason|]; [|clear Hp Hok|done].
  { split; [done|]. intros plan' [= <-]. exists false, "". split; [by apply Hback, Hok|done]. }
  destruct (_ && _) eqn:Hweak; [|done]. apply andb_true_iff in Hweak as [[Hm Ha]%andb_true_iff _].
  destruct (Hbuild true reason) as [Hp Hok]. destruct (buildECStripePlacementPlan _ _ _ _ _ _ true reason) as [plan|r|]; [|done|done].
  split; [done|]. intros plan' [= <-]. exists true, reason. split; [by apply Hback, Hok|]. intros _. split; [by apply Em|by rewrite <-Ew].
Qed.

(** C16: a stripe survives the loss of any one zone.  Planning a stripe with fewer than 2^32 shards never panics, and a
    plan it returns without an error numbers the data shards and then the coding shards, places each on a candidate of
    the request that is healthy, active, writable and has weight, and keeps at least as many shards outside of every
    zone as are needed to decode.  The shards of a zone are on different nodes and stores, unless the request asked for
    and allowed a weak placement; and the report says whether nodes and stores are used once overall. *)
Theorem stripe_survives_zone_loss (req : ECStripePlacementRequest) :
  u32 (erDataShards req) -> u32 (erCodingShards req) -> erDataShards req + erCodingShards req < 2 ^ 32 ->
  PlanECStripe req <> Panic /\
  forall plan, PlanECStripe req = Ok (plan, None) ->
    let ts := eplShardTargets plan in let report := eplTopologyReport plan in
    map (fun t => (esShardID t, esRole t, esRoleIndex t)) ts
      = (map (fun i => (i, ECShardRoleData, i)) (seqZ 0 (erDataShards req))
         ++ map (fun i => (erDataShards req + i, ECShardRoleCoding, i)) (seqZ 0 (erCodingShards req)))%list /\
    (forall t, t ∈ ts -> exists c, c ∈ erCandidates req /\ ec_eligible (normalizeECCandidate c) = true /\
       esZone t = TrimSpace (ecZone c) /\ esNodeID t = TrimSpace (ecNodeID c) /\ esStoreID t = TrimSpace (ecStoreID c)) /\
    (forall lost, erDataShards req <= zlen (List.filter (fun t => negb (String.eqb lost (esZone t))) ts)) /\
    etZoneToleranceOK report = true /\
    (if etWeakPlacement report then erTopologyMode req = ECTopologyModeWeak /\ erWeakPlacementAllowed req = true
     else forall zone, let here := List.filter (fun t => String.eqb zone (esZone t)) ts in
            NoDup (map esNodeID here) /\ NoDup (map esStoreID here)) /\
    (etNodeSpreadOK report = true <-> NoDup (map esNodeID ts)) /\ (etStoreSpreadOK report = true <-> NoDup (map esStoreID ts)).
Proof.
  intros Hd Hc Ht. destruct (plan_ec_stripe_spec req Hd Hc Ht) as [Hp Hok]. split; [done|].
  intros plan (reuse & rule & Hs & Hweak)%Hok. unfold in_u in *. lazy zeta.
  destruct (plan_sound_report req _ reuse rule plan ltac:(lia) ltac:(lia) Ht Hs) as (Htol & Hw & Hn & Hst).
  split; [exact (proj1 Hs)|]. split.
  { intros t Hin. destruct Hs as (_ & Hcand & _). destruct (Hcand t Hin) as (c & (c0 & Hc0 & -> & He)%eligible_in & H).
    by exists c0. }
  split; [intros lost; by eapply (plan_sound_zone_loss req _ reuse rule plan lost); [lia|lia|]|].
  split; [done|]. rewrite Hw. split; [|done]. destruct reuse; [by apply Hweak|]. intros zone. by eapply plan_sound_spread.
Qed.

(** Three zones with two nodes each; the store of one node has the name of a store in another zone. *)
Definition ec_candidate (zone node store : string) : ECPlacementCandidate := mkECCandidate zone node store "healthy" "active" "writable" 1 0.
Definition six_candidates : list ECPlacementCandidate :=
  [ec_candidate "a" "n1" "s1"; ec_candidate "a" "n2" "s2"; ec_candidate "b" "n3" "s1"; ec_candidate " b" "n4" "s4";
   ec_candidate "c" "n5" "s5"; ec_candidate "c" "n6" "s6"].
Definition ec_request (data coding : Z) : ECStripePlacementRequest :=
  mkECRequest "vol" "rs" 7 1 data coding "strict" false 3 six_candidates.

Lemma stripe_survives_zone_loss_witness : exists plan, PlanECStripe (ec_request 4 2) = Ok (plan, None) /\
  zlen (eplShardTargets plan) = 6 /\ 4 <= zlen (List.filter (fun t => negb (String.eqb "b" (esZone t))) (eplShardTargets plan)) /\
  NoDup (map esNodeID (eplShardTargets plan)) /\ etStoreSpreadOK (eplTopologyReport plan) = false.
Proof.
  destruct (stripe_survives_zone_loss (ec_request 4 2)) as [_ H]; [vm_compute; split; congruence..|vm_compute; reflexivity|].
  assert (match PlanECStripe (ec_request 4 2) with
          | Ok (plan, None) => (zlen (eplShardTargets plan) =? 6) && etNodeSpreadOK (eplTopologyReport plan)
                               && negb (etStoreSpreadOK (eplTopologyReport plan))
          | _ => false
          end = true) as E by (vm_compute; reflexivity).
  destruct (PlanECStripe (ec_request 4 2)) as [[plan [e|]]|?|]; [discriminate| |discriminate..].
  exists plan. destruct (H plan eq_refl) as (_ & _ & Hlost & _ & _ & Hnode & _). split; [reflexivity|].
  apply andb_true_iff in E as [[Elen%Z.eqb_eq Enode]%andb_true_iff Estore%negb_true_iff].
  split; [exact Elen|]. split; [apply (Hlost "b")|]. split; [exact (proj1 Hnode Enode)|exact Estore].
Defined.

Lemma strict_selection_exact_witness : exists l, selectECCandidatesInZone (candidatesForECZone six_candidates "c") 2 5 false = Ok l /\
  zlen l = 2 /\ distinct l.
Proof.
  destruct (strict_selection_exact (candidatesForECZone six_candidates "c") 2 5) as [Hs [_ Hex]]; [lia|].
  destruct Hex as [l Hl].
  { exists [ec_candidate "c" "n5" "s5"; ec_candidate "c" "n6" "s6"]. split; [vm_compute; reflexivity|]. split; [reflexivity|].
    split; apply (bool_decide_unpack _); vm_compute; exact I. }
  exists l. split; [exact Hl|]. apply Hs in Hl. tauto.
Defined.

(** ** Profiles *)








(** With the shards counted in full the limit holds. *)
Lemma valid_profile_bounded rec opts : u32 (EcProfile.pfDataShards rec) -> u32 (EcProfile.pfParityShards rec) ->
  EcProfile.pfDataShards rec + EcProfile.pfParityShards rec < 2 ^ 32 -> EcProfile.ValidateECProfile rec opts = Ok tt ->
  0 < EcProfile.pfDataShards rec /\ 0 < EcProfile.pfParityShards rec /\
  EcProfile.pfDataShards rec + EcProfile.pfParityShards rec <= EcProfile.ECGF8ShardLimit.
Proof.
  unfold in_u. intros Hd Hp Ht. unfold EcProfile.ValidateECProfile. destruct (EcProfile.ValidateECProfileID _) as [[]|e|]; [|done|done].
  cbn [mbind result_bind EcProfile.NormalizeECProfile EcProfile.pfDataShards EcProfile.pfParityShards].
  destruct (negb (String.eqb _ _)); [done|]. destruct (Z.eqb_spec (EcProfile.pfDataShards rec) 0); [done|].
  destruct (Z.eqb_spec (EcProfile.pfParityShards rec) 0); [done|]. lazy zeta. rewrite wrap32_small by (unfold in_u; lia).
  destruct (Z.ltb_spec EcProfile.ECGF8ShardLimit (EcProfile.pfDataShards rec + EcProfile.pfParityShards rec)); [done|]. intros _. lia.
Qed.

End EcPlacementFacts.
