(* ===== verification/DataPlane.v ===== *)
(** * The data plane of the gateway

    Models src/gateway/dataplane (server.go, session.go) and the session keys of
    src/gateway/auth/token.go: a connection decodes frames, hands them to the
    service and writes the responses back.

    A connection is the chunks its reads return (see [Wire1.Conn]); for protocol v2
    it is the bytes the stream still holds.  What a connection does is the state it
    leaves behind, the bytes it wrote and why it ended.  Writes to the connection
    succeed or fail as the argument [writable] says.  The elapsed time of a request
    is the argument [latency], the clock is [now].  [TokenIssuer] is an interface of
    the code; the JSON texts of a hello are read and written by the standard
    library; both are arguments of the handshake.  Deadlines, logs and traces are
    left out. *)

From Stdlib Require Import ZArith Lia Ascii String.
From stdpp Require Import base list gmap strings.
From coqutil Require Import Byte Word.LittleEndianList.
From S2P Require Import Prelude GoStrings GatewayTypes Sha256 WireV1 WireV2 Metrics Service.
Open Scope string_scope.
Open Scope Z_scope.

Module DataPlane.
Import Gateway.

(** ** Sessions *)

Record Session := mkSession {
  ssID : Z; ssVolumeID : Z; ssAttachmentID : string; ssGeneration : Z; ssHostID : string; ssDeviceID : Z; ssPathID : Z;
  ssExpiresAt : Z; ssSessionKey : bytes; ssSeq : Wire2.SeqChecker }.

#[export] Instance Session_settable : Settable Session := fun s =>
  mkSession (ssID s) (ssVolumeID s) (ssAttachmentID s) (ssGeneration s) (ssHostID s) (ssDeviceID s) (ssPathID s)
    (ssExpiresAt s) (ssSessionKey s) (ssSeq s).

Record SessionTable := mkSessionTable { byID : gmap Z Session; nextID : Z }.

#[export] Instance SessionTable_settable : Settable SessionTable := fun t => mkSessionTable (byID t) (nextID t).

Definition NewSessionTable : SessionTable := mkSessionTable ∅ 1.

(** [for t.byID[t.nextID] != nil { t.nextID++ }]; with one step per session there is a free identifier. *)
Fixpoint free_id (fuel : nat) (t : SessionTable) : SessionTable :=
  match fuel with
  | O => t
  | S fuel => if isSome (byID t !! nextID t) then free_id fuel (t <| nextID := add64 (nextID t) 1 |>) else t
  end.

Definition Add (s : Session) (t : SessionTable) : SessionTable * Session :=
  let t := free_id (S (size (byID t))) t in
  let s := s <| ssID := nextID t |> in
  (t <| byID := <[ssID s := s]> (byID t) |> <| nextID := add64 (nextID t) 1 |>, s).

Definition Remove (id : Z) (t : SessionTable) : SessionTable := t <| byID := delete id (byID t) |>.

Definition Get (now id : Z) (t : SessionTable) : SessionTable * option Session :=
  match byID t !! id with
  | None => (t, None)
  | Some s => if ssExpiresAt s <? now then (Remove id t, None) else (t, Some s)
  end.

Definition RevokeByVolume (volumeID : Z) (t : SessionTable) : SessionTable :=
  t <| byID := filter (fun p => ssVolumeID p.2 <> volumeID) (byID t) |>.

(** ** Configuration *)

Record Config := mkConfig {
  cfPathID : Z; cfGatewayID : string; cfMaxIOSize : Z; cfMaxZeroLikeIOSize : Z; cfMaxSegments : Z; cfMaxInflightRequests : Z;
  cfMaxInflightBytes : Z; cfUseWireV2 : bool; cfTokenVerifier : bool; cfSessionDerivationKey : bytes }.

Definition DefaultMaxIOSize : Z := 4 * 1024 * 1024 - 64 * 1024.
Definition DefaultMaxZeroLikeIOSize : Z := 256 * 1024 * 1024.

(** [cfTokenVerifier] says whether there is a verifier; the table of sessions is part of the state. *)
Definition New (cfg : Config) : Config :=
  mkConfig (cfPathID cfg) (cfGatewayID cfg)
    (if cfMaxIOSize cfg =? 0 then DefaultMaxIOSize else cfMaxIOSize cfg)
    (if cfMaxZeroLikeIOSize cfg =? 0 then DefaultMaxZeroLikeIOSize else cfMaxZeroLikeIOSize cfg)
    (if cfMaxSegments cfg =? 0 then 32 else cfMaxSegments cfg)
    (if cfMaxInflightRequests cfg =? 0 then 128 else cfMaxInflightRequests cfg)
    (if cfMaxInflightBytes cfg =? 0 then 8 * 1024 * 1024 else cfMaxInflightBytes cfg)
    (cfUseWireV2 cfg) (cfTokenVerifier cfg) (cfSessionDerivationKey cfg).

Definition maxLogicalLengthForOp (cfg : Config) (op : Z) : Z :=
  if (op =? Wire1.OpDiscard) || (op =? Wire1.OpWriteZeroes) then cfMaxZeroLikeIOSize cfg else cfMaxIOSize cfg.

(** Whether the length is accepted. *)
Definition validateLogicalLength (cfg : Config) (op length : Z) : bool :=
  let maxLength := maxLogicalLengthForOp cfg op in (maxLength =? 0) || (length <=? maxLength).

Definition supportedOpsMask : Z :=
  fold_left (fun v op => Z.lor v (Z.shiftl 1 op))
    [Wire1.OpRead; Wire1.OpWrite; Wire1.OpFlush; Wire1.OpDiscard; Wire1.OpWriteZeroes; Wire1.OpHeartbeat; Wire1.OpPathProbe;
     Wire1.OpGetVolumeInfo] 0.

Definition pathCapability (cfg : Config) : Wire1.PathCapability :=
  Wire1.mkPathCapability (cfMaxIOSize cfg) (cfMaxSegments cfg) supportedOpsMask 0 (cfMaxInflightRequests cfg)
    (cfMaxInflightBytes cfg) (cfMaxZeroLikeIOSize cfg).

(** ** Errors *)

Definition mapSBSError (err : svc_error) : option Z :=
  match err with
  | ErrSBS code retryable =>
      Some (if String.eqb code "not_found" then Wire1.ErrNoSuchVolume else
            if String.eqb code "bad_request" || String.eqb code "idempotency_conflict" then Wire1.ErrInvalidRange else
            if String.eqb code "stale_generation" then Wire1.ErrGenerationMismatch else
            if String.eqb code "attachment_mismatch" then Wire1.ErrUnauthorized else
            if String.eqb code "unavailable" then (if retryable then Wire1.ErrRetryable else Wire1.ErrNoHealthyReplica) else
            if String.eqb code "timeout" then Wire1.ErrTimeout else
            if String.eqb code "internal" then Wire1.ErrInternal else Wire1.ErrInternal)
  | _ => None
  end.

Definition mapError (err : svc_error) : Z :=
  match mapSBSError err with
  | Some status => status
  | None =>
      match err with
      | ErrVolumeNotFound => Wire1.ErrNoSuchVolume
      | ErrBadAlignment | ErrDiscardAlignment | ErrOutOfRange | ErrBadDataLength => Wire1.ErrInvalidRange
      | ErrAttachConflict | ErrDetachConflict | ErrHostIDRequired => Wire1.ErrUnauthorized
      | _ => Wire1.ErrInternal
      end
  end.

(** The same with the number 14 for every other error. *)
Definition mapErrorV2 (err : svc_error) : Z :=
  match mapSBSError err with
  | Some status => status
  | None =>
      match err with
      | ErrVolumeNotFound => Wire1.ErrNoSuchVolume
      | ErrBadAlignment | ErrDiscardAlignment | ErrOutOfRange | ErrBadDataLength => Wire1.ErrInvalidRange
      | ErrAttachConflict | ErrDetachConflict | ErrHostIDRequired => Wire1.ErrUnauthorized
      | _ => 14
      end
  end.

Definition responseOp (op : Z) : Z :=
  if op =? Wire1.OpRead then Wire1.OpReadResp else
  if op =? Wire1.OpWrite then Wire1.OpWriteResp else
  if op =? Wire1.OpFlush then Wire1.OpFlushResp else
  if op =? Wire1.OpDiscard then Wire1.OpDiscardResp else
  if op =? Wire1.OpWriteZeroes then Wire1.OpWriteZeroesResp else op.

Definition responseOpV2 (op : Z) : Z :=
  if op =? Wire2.OpRead then Wire1.OpReadResp else
  if op =? Wire2.OpWrite then Wire1.OpWriteResp else
  if op =? Wire2.OpFlush then Wire1.OpFlushResp else
  if op =? Wire2.OpDiscard then Wire1.OpDiscardResp else
  if op =? Wire2.OpWriteZeroes then Wire1.OpWriteZeroesResp else op.

(** ** Requests *)

Section Server.
Context {S : Type} `{Service.ServiceMetadata S}.
Context (data : Service.DataRepository S) (cfg : Config) (elapsed latency : Z).

Definition state := (S * Metrics.MetricsCollector)%type.

(** The status and the payload of a response.  A panic of the service ends the program. *)
Definition reply := act state Empty_set (Z * bytes).

Definition answer (status : Z) (out : bytes) : reply := ret_act (status, out).

(** [if err := m; err != nil { status = map(err); break }; out = ...] *)
Definition call {A} (map_error : svc_error -> Z) (m : act state svc_error A) (out : A -> bytes) : reply := fun w =>
  match m w with
  | (w, Ok a) => (w, Ok (Wire1.StatusOK, out a))
  | (w, Err e) => (w, Ok (map_error e, []))
  | (w, Panic) => (w, Panic)
  end.

Definition bounded (op length : Z) (m : reply) : reply :=
  if validateLogicalLength cfg op length then m else answer Wire1.ErrInvalidRange [].

(** The [switch] of [handleRequest] and of [handleRequestV2]: they differ in the status of a malformed request and in
    the volume they act on. *)
Definition serve (map_error : svc_error -> Z) (malformed : Z) (op volumeID offset length : Z) (payload : bytes) : reply :=
  if op =? Wire1.OpRead then
    bounded Wire1.OpRead length (call map_error (Service.Read data elapsed volumeID offset length) (fun b => b)) else
  if op =? Wire1.OpWrite then
    match Wire1.DecodeWritePayload payload with
    | Ok (_, d) =>
        bounded Wire1.OpWrite (wrap32 (zlen d))
          (call map_error (Service.Write data elapsed volumeID offset (zlen d) d) (fun _ => []))
    | Err _ => answer malformed []
    | Panic => fun w => (w, Panic)
    end else
  if op =? Wire1.OpFlush then call map_error (Service.Flush data elapsed volumeID) (fun _ => []) else
  if op =? Wire1.OpDiscard then
    bounded Wire1.OpDiscard length (call map_error (Service.Discard data elapsed volumeID offset length) (fun _ => [])) else
  if op =? Wire1.OpWriteZeroes then
    bounded Wire1.OpWriteZeroes length (call map_error (Service.Zero data elapsed volumeID offset length) (fun _ => [])) else
  if op =? Wire1.OpHeartbeat then answer Wire1.StatusOK [] else
  if (op =? Wire1.OpPathProbe) || (op =? Wire1.OpGetVolumeInfo)
  then answer Wire1.StatusOK (Wire1.EncodePathCapabilityPayload (pathCapability cfg)) else
  answer malformed [].

Definition handleRequest (h : Wire1.Header) (payload : bytes) : act state Empty_set (Wire1.ResponseHeader * bytes) :=
  bind_act (serve mapError Wire1.ErrInternal (Wire1.hOp h) (Wire1.hVolumeID h) (Wire1.hOffsetBytes h) (Wire1.hLengthBytes h) payload)
  (fun r =>
  ret_act (Wire1.mkResponseHeader
    (Wire1.mkHeader 0 0 0 (responseOp (Wire1.hOp h)) (Wire1.hFlags h) (Wire1.hRequestID h) (Wire1.hVolumeID h)
       (Wire1.hGeneration h) 0 0 0) r.1 latency latency (cfPathID cfg) 0, r.2)).

(** *** Protocol v1 *)

(** Why a connection ended. *)
Inductive ending := EndEOF | EndRead | EndWrite | EndPanic | EndFuel | EndPrefix | EndClosed.

Fixpoint serve_v1 (fuel : nat) (i : nat) (writable : nat -> bool) (c : Wire1.Conn) (w : state) (out : bytes)
  : state * bytes * ending :=
  match fuel with
  | O => (w, out, EndFuel)
  | Datatypes.S fuel =>
      match Wire1.ReadFrame c with
      | (_, Err e) => (w, out, match e with Wire1.ErrEOF => EndEOF | _ => EndRead end)
      | (_, Panic) => (w, out, EndPanic)
      | (c, Ok (h, payload)) =>
          match handleRequest h payload w with
          | (w, Ok (resp, respPayload)) =>
              let wire := Wire1.EncodeResponseMessage resp respPayload in
              if writable i then serve_v1 fuel (Datatypes.S i) writable c w (out ++ wire)%list else (w, out, EndWrite)
          | (w, _) => (w, out, EndPanic)
          end
      end
  end.

Definition handleConnV1 (fuel : nat) (writable : nat -> bool) (first6 : bytes) (chunks : list bytes) (rend : Wire1.wire_error)
    (w : state) : state * bytes * ending :=
  serve_v1 fuel 0 writable
    (Wire1.mkConn (Wire1.NewStreamDecoder (wrap32 (cfMaxIOSize cfg + 24))) (first6 :: chunks) rend) w [].

(** *** Protocol v2 *)

Definition handleRequestV2 (h : Wire2.Header) (payload : bytes) (sess : Session)
  : act state Empty_set (Wire2.ResponseHeader * bytes) :=
  bind_act (serve mapErrorV2 Wire2.ErrBadAuthTag (Wire2.hOp h) (ssVolumeID sess) (Wire2.hOffsetBytes h) (Wire2.hLengthBytes h) payload)
  (fun r =>
  ret_act (Wire2.mkResponseHeader
    (Wire2.mkHeader 0 0 0 (responseOpV2 (Wire2.hOp h)) (Wire2.hFlags h) (Wire2.hRequestID h) (ssVolumeID sess)
       (ssGeneration sess) (ssID sess) (Wire2.hSeqNo h) 0 0 0 0 0)
    r.1 latency latency (cfPathID cfg) 0, r.2)).

(** The bytes of an authentication error. *)
Definition sendAuthErr (code : Z) : bytes :=
  (Wire2.WriteResponseFrame
     (Wire2.mkResponseHeader (Wire2.mkHeader 0 0 0 Wire2.OpAuthErr 0 0 0 0 0 0 0 0 0 0 0) code 0 0 0 0) [] []).2.

(** [None] when the session may go on. *)
Definition sessionStillCurrent (sess : Session) : act S Empty_set (option Z) := fun s =>
  match Service.volumeState (ssVolumeID sess) s with
  | (s, Panic) => (s, Panic)
  | (s, Err _) => (s, Ok (Some Wire2.ErrSessionClosed))
  | (s, Ok st) =>
      (s, Ok (if negb (Service.vsGeneration st =? ssGeneration sess) then Some Wire2.ErrGenerationMatch else
              if negb (String.eqb (Service.vsAttachmentID st) (ssAttachmentID sess))
                 || negb (String.eqb (Service.vsAttachedHostID st) (ssHostID sess))
                 || negb (Service.vsAttachedDeviceID st =? ssDeviceID sess)
              then Some Wire2.ErrSessionClosed else None))
  end.

(** What handling one frame leads to: the connection goes on with a response, or ends after an error. *)
Inductive outcome := Respond (wire : bytes) | Close (wire : bytes) | Crash.

Definition server := (state * SessionTable)%type.

(** Authentication of a frame that is no hello, and its sequence number. *)
Definition authenticate (sess : Session) (h : Wire2.Header) (payload tag : bytes) : result Z Session :=
  if (Wire2.hOp h =? Wire2.OpHello) || (Wire2.hOp h =? Wire2.OpHelloAck) then Ok sess else
  if negb (Wire2.hAuthLen h =? Wire2.AuthTagSize) || negb (zlen tag =? Wire2.AuthTagSize) then Err Wire2.ErrBadAuthTag else
  match Wire2.VerifyAuthTag (ssSessionKey sess) h payload tag with
  | Ok _ =>
      match Wire2.CheckNext (Wire2.hSeqNo h) (ssSeq sess) with
      | (seq, Ok _) => Ok (sess <| ssSeq := seq |>)
      | (_, _) => Err Wire2.ErrReplayDetected
      end
  | _ => Err Wire2.ErrBadAuthTag
  end.

(** The tag is computed from the header before [WriteResponseFrame] completes it. *)
Definition respond_v2 (sess : Session) (h : Wire2.Header) (payload : bytes) (w : state) (t : SessionTable) : server * outcome :=
  match handleRequestV2 h payload sess w with
  | (w, Ok (resp, respPayload)) =>
      let respTag := Wire2.ComputeAuthTag (ssSessionKey sess) (Wire2.rBase resp) respPayload in
      ((w, t), Respond (Wire2.WriteResponseFrame resp respPayload respTag).2)
  | (w, _) => ((w, t), Crash)
  end.

Definition frame_v2 (now : Z) (h : Wire2.Header) (payload tag : bytes) (st : server) : server * outcome :=
  let '((s, mc), t) := st in
  let '(t, found) := Get now (Wire2.hSessionID h) t in
  match found with
  | None => (((s, mc), t), Close (sendAuthErr Wire2.ErrSessionClosed))
  | Some sess =>
      match sessionStillCurrent sess s with
      | (s, Ok (Some code)) => (((s, mc), Remove (ssID sess) t), Close (sendAuthErr code))
      | (s, Ok None) =>
          match authenticate sess h payload tag with
          | Ok sess => respond_v2 sess h payload (s, mc) (t <| byID := <[ssID sess := sess]> (byID t) |>)
          | Err code => (((s, mc), t), Close (sendAuthErr code))
          | Panic => (((s, mc), t), Crash)
          end
      | (s, _) => (((s, mc), t), Crash)
      end
  end.

Fixpoint serve_v2 (fuel : nat) (i : nat) (now : nat -> Z) (writable : nat -> bool) (stream : bytes) (st : server) (out : bytes)
  : server * bytes * ending :=
  match fuel with
  | O => (st, out, EndFuel)
  | Datatypes.S fuel =>
      match Wire2.ReadFrame (wrap32 (cfMaxIOSize cfg + 24)) stream with
      | (_, Err e) => (st, out, match e with Wire2.ErrEOF => EndEOF | _ => EndRead end)
      | (_, Panic) => (st, out, EndPanic)
      | (stream, Ok (h, payload, tag)) =>
          match frame_v2 (now i) h payload tag st with
          | (st, Respond wire) =>
              if writable i then serve_v2 fuel (Datatypes.S i) now writable stream st (out ++ wire)%list else (st, out, EndWrite)
          | (st, Close wire) => (st, (out ++ wire)%list, EndClosed)
          | (st, Crash) => (st, out, EndPanic)
          end
      end
  end.

(** *** The handshake *)

Record HelloPayload := mkHelloPayload {
  hpToken : string; hpClientNonce : string; hpDeviceID : Z; hpHostID : string; hpSupportedAuth : list string; hpRequestedPathID : Z }.

(** [ExpiresAt] is a time here; [encodeAck] writes it as text. *)
Record HelloAckPayload := mkHelloAckPayload {
  haSessionID : Z; haServerNonce : string; haSelectedAuth : string; haExpiresAt : Z; haPathID : Z; haMaxInflightRequests : Z;
  haMaxInflightBytes : Z; haMaxIOSize : Z; haMaxZeroLikeIOSize : Z }.

Definition AuthModeTokenHMACV1 : string := "token-hmac-v1".

Record DataplaneTokenClaims := mkClaims {
  tcTokenID : string; tcVolumeID : Z; tcAttachmentID : string; tcDeviceID : Z; tcHostID : string; tcGatewayID : string;
  tcGeneration : Z; tcIssuedAt : string; tcExpiresAt : string; tcAuthMode : string; tcAllowedPathIDs : list Z }.

Record VerifiedToken := mkVerifiedToken { vtClaims : DataplaneTokenClaims; vtExpiresAt : Z }.

Inductive token_error := ErrTokenExpired | ErrTokenInvalid | ErrTokenBadSignature.

Definition containsPathID (pathIDs : list Z) (pathID : Z) : bool := existsb (Z.eqb pathID) pathIDs.
Definition containsAuthMode (modes : list string) (want : string) : bool := existsb (String.eqb want) modes.

Inductive hello_error :=
| GatewayMismatch | AttachmentMismatch | MetadataMismatch | HelloMismatch | PathMismatch | PathNotAllowed | UnsupportedAuth.

(** [None] when the hello is accepted. *)
Definition validateHelloSession (hello : HelloPayload) (verified : VerifiedToken) (st : Service.VolumeState) : option hello_error :=
  let claims := vtClaims verified in
  if negb (String.eqb (tcGatewayID claims) "") && negb (String.eqb (cfGatewayID cfg) "")
     && negb (String.eqb (tcGatewayID claims) (cfGatewayID cfg)) then Some GatewayMismatch else
  if negb (String.eqb (Service.vsAttachmentID st) (tcAttachmentID claims))
     || negb (Service.vsGeneration st =? tcGeneration claims) then Some AttachmentMismatch else
  if negb (String.eqb (Service.vsAttachedHostID st) (tcHostID claims))
     || negb (Service.vsAttachedDeviceID st =? tcDeviceID claims) then Some MetadataMismatch else
  if negb (String.eqb (hpHostID hello) (tcHostID claims)) || negb (hpDeviceID hello =? tcDeviceID claims) then Some HelloMismatch else
  if negb (hpRequestedPathID hello =? cfPathID cfg) then Some PathMismatch else
  if (0 <? zlen (tcAllowedPathIDs claims)) && negb (containsPathID (tcAllowedPathIDs claims) (cfPathID cfg)) then Some PathNotAllowed else
  if negb (containsAuthMode (hpSupportedAuth hello) AuthModeTokenHMACV1) then Some UnsupportedAuth else None.

Definition DeriveSessionKey (sessionDerivationKey : bytes) (tokenRaw clientNonce serverNonce : string) (sessionID : Z) : bytes :=
  if zlen sessionDerivationKey =? 0 then [] else
  hmac_sha256 sessionDerivationKey
    (list_byte_of_string tokenRaw ++ [Byte.x00] ++ list_byte_of_string clientNonce ++ [Byte.x00]
     ++ list_byte_of_string serverNonce ++ [Byte.x00] ++ le_split 8 sessionID)%list.

(** A session for an accepted hello; its key is set after it has been added to the table. *)
Definition open_session (hello : HelloPayload) (verified : VerifiedToken) (serverNonce : string) (t : SessionTable)
  : SessionTable * Session :=
  let claims := vtClaims verified in
  let '(t, sess) := Add (mkSession 0 (tcVolumeID claims) (tcAttachmentID claims) (tcGeneration claims) (tcHostID claims)
                           (tcDeviceID claims) (cfPathID cfg) (vtExpiresAt verified) [] (Wire2.mkSeqChecker 0)) t in
  let derivationKey := if zlen (cfSessionDerivationKey cfg) =? 0 then list_byte_of_string (hpToken hello)
                       else cfSessionDerivationKey cfg in
  let sess := sess <| ssSessionKey := DeriveSessionKey derivationKey (hpToken hello) (hpClientNonce hello) serverNonce (ssID sess) |> in
  (t <| byID := <[ssID sess := sess]> (byID t) |>, sess).

Definition hello_ack (verified : VerifiedToken) (serverNonce : string) (sess : Session) : HelloAckPayload :=
  mkHelloAckPayload (ssID sess) serverNonce AuthModeTokenHMACV1 (vtExpiresAt verified) (cfPathID cfg) (cfMaxInflightRequests cfg)
    (cfMaxInflightBytes cfg) (cfMaxIOSize cfg) (cfMaxZeroLikeIOSize cfg).

Context (decodeHello : bytes -> option HelloPayload) (encodeAck : HelloAckPayload -> bytes).
Context (verify : string -> result token_error VerifiedToken).

(** Up to the session, or the code of an authentication error. *)
Definition accept_hello (serverNonce : string) (h : Wire2.Header) (payload : bytes) (st : server)
  : server * result Z (VerifiedToken * Session) :=
  let '((s, mc), t) := st in
  if negb (Wire2.hOp h =? Wire2.OpHello) || negb (Wire2.hSessionID h =? 0) || negb (Wire2.hSeqNo h =? 0)
  then (st, Err Wire2.ErrSessionClosed) else
  match decodeHello payload with
  | None => (st, Err Wire2.ErrBadAuthTag)
  | Some hello =>
      match verify (hpToken hello) with
      | Err ErrTokenExpired => (st, Err Wire2.ErrTokenExpired)
      | Err _ => (st, Err Wire2.ErrBadAuthTag)
      | Panic => (st, Panic)
      | Ok verified =>
          match Service.volumeState (tcVolumeID (vtClaims verified)) s with
          | (s, Panic) => (((s, mc), t), Panic)
          | (s, Err _) => (((s, mc), t), Err Wire2.ErrSessionClosed)
          | (s, Ok vst) =>
              match validateHelloSession hello verified vst with
              | Some _ => (((s, mc), t), Err Wire2.ErrSessionClosed)
              | None => let '(t, sess) := open_session hello verified serverNonce t in (((s, mc), t), Ok (verified, sess))
              end
          end
      end
  end.

Definition handleConnV2 (fuel : nat) (now : nat -> Z) (serverNonce : string) (writable : nat -> bool) (stream : bytes) (st : server)
  : server * bytes * ending :=
  match Wire2.ReadFrame (wrap32 (cfMaxIOSize cfg + 24)) stream with
  | (_, Err _) => (st, sendAuthErr Wire2.ErrBadAuthTag, EndRead)
  | (_, Panic) => (st, [], EndPanic)
  | (stream, Ok (h, payload, _)) =>
      match accept_hello serverNonce h payload st with
      | (st, Err code) => (st, sendAuthErr code, EndClosed)
      | (st, Panic) => (st, [], EndPanic)
      | (st, Ok (verified, sess)) =>
          let ackH := Wire2.mkHeader 0 0 0 Wire2.OpHelloAck 0 (Wire2.hRequestID h) (tcVolumeID (vtClaims verified))
                        (tcGeneration (vtClaims verified)) (ssID sess) 0 0 0 0 0 0 in
          match (Wire2.WriteFrame ackH (encodeAck (hello_ack verified serverNonce sess)) []).2 with
          | Ok wire => if writable 0%nat then serve_v2 fuel 1 now writable stream st wire else (st, [], EndWrite)
          | _ => (st, [], EndWrite)
          end
      end
  end.

(** *** A connection *)

(** [io.ReadFull] of [n] bytes from chunks; the bytes and the chunks that are left. *)
Fixpoint read_prefix (n : nat) (chunks : list bytes) : option (bytes * list bytes) :=
  match chunks with
  | [] => if (n =? 0)%nat then Some ([], []) else None
  | chunk :: rest =>
      if (n <=? length chunk)%nat then Some (take n chunk, drop n chunk :: rest)
      else match read_prefix (n - length chunk) rest with
           | Some (prefix, rest) => Some ((chunk ++ prefix)%list, rest)
           | None => None
           end
  end.

Definition handleConn (fuel : nat) (now : nat -> Z) (serverNonce : string) (writable : nat -> bool) (chunks : list bytes)
    (rend : Wire1.wire_error) (st : server) : server * bytes * ending :=
  match read_prefix 6 chunks with
  | None => (st, [], EndPrefix)
  | Some (first6, rest) =>
      if negb (Wire1.le_get 0 4 first6 =? Wire1.Magic) then (st, [], EndPrefix) else
      if (Wire1.le_get 4 2 first6 =? 2) && cfUseWireV2 cfg && cfTokenVerifier cfg && (0 <? zlen (cfSessionDerivationKey cfg))
      then handleConnV2 fuel now serverNonce writable (first6 ++ concat rest) st
      else let '(w, out, e) := handleConnV1 fuel writable first6 rest rend st.1 in ((w, st.2), out, e)
  end.

End Server.
End DataPlane.
