(* ===== verification/DataPlaneFacts.v ===== *)
(** * The data plane: what connections guarantee

    A v1 connection answers the requests on it one after the other, however the
    stream is cut into reads, so that a client of the in-memory gateway reads what
    it wrote.  On a v2 connection only frames of a current session that carry its
    tag and the next sequence number reach the service; the tags of its responses do
    not verify. *)

From Stdlib Require Import ZArith Lia Ascii String.
From stdpp Require Import base list gmap strings.
From coqutil Require Import Byte Word.LittleEndianList.
From S2P Require Import Prelude GoStrings GatewayTypes Crc32c Sha256 WireV1 WireV1Facts WireV2 WireV2Facts Metrics Service.
From S2P Require Import MemoryMetadata ObjectStore ChunkExtent DataWorld WriteFacts PageWrite WriteRange MemoryWorld ServiceFacts DataPlane.
Open Scope string_scope.
Open Scope Z_scope.
Open Scope list_scope.

Module DataPlaneFacts.
Import Gateway DataPlane.

(** ** Frames that a stream delivers *)

Section Stream.
Import Wire1 Wire1Facts.

(** As soon as all bytes [b] of a frame have arrived the decoder delivers [f], and before it waits. *)
Definition delivers (limit : Z) (b : bytes) (f : Header * bytes) : Prop :=
  56 <= zlen b /\ forall d more tail, maxPayloadLen d = limit -> buf d ++ more = b ++ tail ->
    (zlen (buf d) < zlen b /\ Next d = (d, Ok None)) \/
    (exists rest, rest ++ more = tail /\ Next d = (d <| buf := rest |>, Ok (Some f))).

Lemma encoded_delivers limit f : frame_ok f -> zlen f.2 <= limit -> delivers limit (EncodeMessage f.1 f.2) (sealed f.1 f.2, f.2).
Proof.
  intros Hok Hmax. pose proof (zlen_nonneg f.2).
  split; [rewrite zlen_encode by apply Hok; lia|]. intros d more tail <- Hpre.
  destruct (next_frame d f more tail Hok Hmax Hpre) as [[Hl Hn]|?]; [left|by right].
  split; [|done]. rewrite zlen_encode by apply Hok. lia.
Qed.

(** A request for a range: the header alone, whose length is the range. *)
Definition stamp (h : Header) : Header := h <| hMagic := Magic |> <| hVersion := VersionV1 |> <| hHeaderLen := HeaderSize |>.
Definition stamped (h : Header) : Header := stamp h <| hCRC32C := crc32c (take 52 (putHeaderWithoutCRC (stamp h))) |>.

Lemma put_crc h c : putHeaderWithoutCRC (h <| hCRC32C := c |>) = putHeaderWithoutCRC h.
Proof. reflexivity. Qed.

Definition range_wire (h : Header) : bytes := take 52 (putHeaderWithoutCRC (stamped h)) ++ le_split 4 (hCRC32C (stamped h)).

Lemma stamped_wf h : header_wf h -> header_wf (stamped h).
Proof.
  intros (?&?&?&?&?&?&?&?&?&?&?). unfold header_wf, stamped; cbn.
  match goal with |- context [crc32c ?x] => pose proof (crc32c_range x) as Hcrc end.
  unfold in_u, HeaderSize, Magic, VersionV1 in *. repeat split; lia.
Qed.

Lemma zlen_range_wire h : zlen (range_wire h) = 56.
Proof. reflexivity. Qed.

Lemma parse_range h rest : header_wf h -> parseHeader (take 56 (range_wire h ++ rest)) = stamped h.
Proof.
  intros Hwf. unfold range_wire. rewrite <-app_assoc. rewrite parse_put; [by destruct h|]. exact (stamped_wf h Hwf).
Qed.

Lemma decode_range h : header_wf h -> opUsesLengthAsRangeWithoutRequestPayload (hOp h) = true ->
  DecodeMessage (range_wire h) = Ok (stamped h, []).
Proof.
  intros Hwf Hop. unfold DecodeMessage. rewrite zlen_range_wire. change (56 <? HeaderSize) with false.
  pose proof (parse_range h [] Hwf) as Hp. rewrite app_nil_r in Hp. rewrite Hp.
  change (hMagic (stamped h) =? Magic) with true. change (hVersion (stamped h) =? VersionV1) with true.
  change (hHeaderLen (stamped h) =? HeaderSize) with true. change (hOp (stamped h)) with (hOp h). rewrite Hop.
  change (56 =? HeaderSize) with true. cbn [negb andb]. unfold range_wire at 1. rewrite header_crc_prefix by reflexivity.
  unfold stamped at 2. rewrite put_crc. change (hCRC32C (stamped h)) with (crc32c (take 52 (putHeaderWithoutCRC (stamp h)))).
  by rewrite Z.eqb_refl.
Qed.

Lemma range_delivers limit h : header_wf h -> opUsesLengthAsRangeWithoutRequestPayload (hOp h) = true ->
  delivers limit (range_wire h) (stamped h, []).
Proof.
  intros Hwf Hop. split; [done|]. intros d more tail Hlim Hpre. rewrite zlen_range_wire.
  destruct (Z_lt_le_dec (zlen (buf d)) 56) as [Hs|Hs]; [left; split; [done|by apply next_short]|right].
  assert (take 56 (buf d) = range_wire h) as Htake.
  { rewrite <-(take_app_le (buf d) more) by (unfold zlen in Hs; lia). rewrite Hpre. by apply take_app_exact. }
  exists (drop 56 (buf d)). split.
  { rewrite <-drop_app_le by (unfold zlen in Hs; lia). rewrite Hpre. by apply drop_app_exact. }
  pose proof (parse_range h [] Hwf) as Hp. rewrite app_nil_r in Hp. change (take 56 (range_wire h)) with (range_wire h) in Hp.
  unfold Next. rewrite Htake, Hp. destruct (Z.ltb_spec (zlen (buf d)) HeaderSize) as [H|_]; [unfold HeaderSize in H; lia|].
  change (hMagic (stamped h) =? Magic) with true. change (hVersion (stamped h) =? VersionV1) with true.
  change (hHeaderLen (stamped h) =? HeaderSize) with true. change (hOp (stamped h)) with (hOp h). rewrite Hop. cbn [negb andb].
  destruct (Z.ltb_spec (zlen (buf d)) HeaderSize) as [H|_]; [unfold HeaderSize in H; lia|].
  change (Z.to_nat HeaderSize) with 56%nat. by rewrite Htake, decode_range.
Qed.

Lemma read_delivers chunks : forall d b f tail rend, delivers (maxPayloadLen d) b f -> buf d ++ concat chunks = b ++ tail ->
  exists d' chunks', read_loop d chunks rend = ((d', chunks'), Ok f) /\ buf d' ++ concat chunks' = tail /\
    maxPayloadLen d' = maxPayloadLen d.
Proof.
  induction chunks as [|c chunks IH]; intros d b f tail rend Hf Hpre; pose proof Hf as [H56 Hd];
    destruct (Hd d _ tail eq_refl Hpre) as [[Hl Hn]|(rest & Ht & Hn)]; cbn [read_loop]; rewrite Hn.
  - exfalso. cbn [concat] in Hpre. rewrite app_nil_r in Hpre. rewrite Hpre, zlen_app in Hl. pose proof (zlen_nonneg tail). lia.
  - by exists (d <| buf := rest |>), [].
  - destruct (IH (Feed d c) b f tail rend) as (d' & ch' & Hr & Hb & Hm); [by rewrite max_feed|by rewrite buf_feed, <-app_assoc|].
    exists d', ch'. by rewrite max_feed in Hm.
  - by exists (d <| buf := rest |>), (c :: chunks).
Qed.

End Stream.

(** ** Connections of protocol v1 *)

Section V1.
Context {S : Type} `{Service.ServiceMetadata S}.
Context (data : Service.DataRepository S) (cfg : Config) (elapsed latency : Z).

(** The requests answered one after the other. *)
Fixpoint answers (requests : list (Wire1.Header * bytes)) (w : state) : option (state * bytes) :=
  match requests with
  | [] => Some (w, [])
  | f :: requests =>
      match handleRequest data cfg elapsed latency f.1 f.2 w with
      | (w, Ok (resp, respPayload)) =>
          match answers requests w with
          | Some (w, out) => Some (w, Wire1.EncodeResponseMessage resp respPayload ++ out)
          | None => None
          end
      | _ => None
      end
  end.

Lemma serve_v1_answers limit frames : forall fuel i c w out w' o,
  Forall (fun x => delivers limit x.1 x.2) frames -> Wire1.maxPayloadLen (Wire1.dec c) = limit -> Wire1.read_end c = Wire1.ErrEOF ->
  Wire1.buf (Wire1.dec c) ++ concat (Wire1.unread c) = concat (map fst frames) ->
  answers (map snd frames) w = Some (w', o) -> (length frames < fuel)%nat ->
  serve_v1 data cfg elapsed latency fuel i (fun _ => true) c w out = (w', out ++ o, EndEOF).
Proof.
  induction frames as [|[b f] frames IH]; intros fuel i c w out w' o Hf Hlim Hend Hpre Ha Hfuel;
    (destruct fuel as [|fuel]; [cbn in Hfuel; lia|]); cbn [serve_v1].
  - injection Ha as <- <-. apply app_eq_nil in Hpre as [Hb Hu].
    destruct (Wire1Facts.read_loop_eof (Wire1.unread c) (Wire1.dec c) Hb Hu) as [d' Hl].
    unfold Wire1.ReadFrame. rewrite Hend, Hl. by rewrite app_nil_r.
  - apply Forall_cons in Hf as [Hf Hfs]. cbn [fst snd] in Hf. rewrite <-Hlim in Hf.
    destruct (read_delivers (Wire1.unread c) (Wire1.dec c) b f (concat (map fst frames)) (Wire1.read_end c) Hf Hpre)
      as (d' & ch' & Hr & Hb & Hm).
    unfold Wire1.ReadFrame. rewrite Hr. destruct f as [h payload]. cbn [map snd answers fst] in Ha.
    destruct (handleRequest data cfg elapsed latency h payload w) as [w1 [[resp rp]|e|]]; [|done|done].
    destruct (answers (map snd frames) w1) as [[w2 o2]|] eqn:Ha2; [|done]. injection Ha as <- <-. lazy zeta.
    rewrite (IH fuel (Datatypes.S i) (Wire1.mkConn d' ch' (Wire1.read_end c)) w1 _ w2 o2); [by rewrite <-app_assoc|done|cbn; congruence|done|done|done|cbn in Hfuel; lia].
Qed.

Lemma read_prefix_spec n chunks : (n <= length (concat chunks))%nat ->
  exists rest, read_prefix n chunks = Some (take n (concat chunks), rest) /\ concat (take n (concat chunks) :: rest) = concat chunks.
Proof.
  revert n. induction chunks as [|c chunks IH]; intros n Hn; cbn [read_prefix].
  { cbn in Hn. assert (n = 0%nat) as -> by lia. by exists []. }
  cbn [concat] in *. rewrite length_app in Hn. destruct (Nat.leb_spec n (length c)).
  - exists (drop n c :: chunks). rewrite take_app_le by done. split; [done|]. cbn [concat]. by rewrite app_assoc, take_drop.
  - destruct (IH (n - length c)%nat) as (rest & -> & Hrest); [lia|]. exists rest. rewrite take_app_ge by lia. split; [done|].
    cbn [concat] in *. by rewrite <-app_assoc, Hrest.
Qed.

(** A connection whose first frame is of version 1 answers the requests on it, however the stream is cut into reads. *)
Lemma connection_answers decodeHello encodeAck verify frames now nonce chunks w t w' o fuel h payload rest :
  Wire1Facts.frame_ok (h, payload) ->
  map fst frames = Wire1.EncodeMessage h payload :: rest ->
  Forall (fun x => delivers (wrap32 (cfMaxIOSize cfg + 24)) x.1 x.2) frames ->
  concat chunks = concat (map fst frames) -> answers (map snd frames) w = Some (w', o) -> (length frames < fuel)%nat ->
  handleConn data cfg elapsed latency decodeHello encodeAck verify fuel now nonce (fun _ => true) chunks Wire1.ErrEOF (w, t)
  = ((w', t), o, EndEOF).
Proof.
  intros Hok Hfirst Hf Hc Ha Hfuel. unfold handleConn.
  assert (exists tail, concat chunks = Wire1.EncodeMessage h payload ++ tail) as [tail Htail]
    by (exists (concat rest); by rewrite Hc, Hfirst).
  assert (zlen (Wire1.EncodeMessage h payload) = 56 + zlen payload) as Hlen by apply Wire1Facts.zlen_encode, Hok.
  destruct (read_prefix_spec 6 chunks) as (chunks' & -> & Hcat).
  { rewrite Htail, length_app. pose proof (zlen_nonneg payload). unfold zlen in *. lia. }
  pose proof (Wire1Facts.parse_encode h payload tail (proj1 Hok) (proj1 (proj2 Hok))) as Hparse. rewrite <-Htail in Hparse.
  assert (Wire1.le_get 0 4 (take 6 (concat chunks)) = Wire1.Magic) as ->.
  { transitivity (Wire1.hMagic (Wire1.parseHeader (take 56 (concat chunks)))); [|by rewrite Hparse].
    unfold Wire1.parseHeader, Wire1.le_get. cbn [Wire1.hMagic]. rewrite !drop_0, !take_take. done. }
  assert (Wire1.le_get 4 2 (take 6 (concat chunks)) = Wire1.VersionV1) as ->.
  { transitivity (Wire1.hVersion (Wire1.parseHeader (take 56 (concat chunks)))); [|by rewrite Hparse].
    unfold Wire1.parseHeader, Wire1.le_get. cbn [Wire1.hVersion]. rewrite !take_drop_commute, !take_take. done. }
  cbn [Z.eqb Pos.eqb Wire1.Magic Wire1.VersionV1 negb andb]. unfold handleConnV1.
  erewrite (serve_v1_answers (wrap32 (cfMaxIOSize cfg + 24)) frames); [reflexivity|done|done|done| |done|done].
  cbn [Wire1.dec Wire1.NewStreamDecoder Wire1.buf Wire1.unread app]. by rewrite Hcat.
Qed.

End V1.

(** ** A block device over the wire *)

Definition write_request (requestID volumeID generation offset : Z) : Wire1.Header :=
  Wire1.NewRequestHeader Wire1.OpWrite requestID volumeID generation offset 0.
Definition read_request (requestID volumeID generation offset length : Z) : Wire1.Header :=
  Wire1.mkHeader Wire1.Magic Wire1.VersionV1 Wire1.HeaderSize Wire1.OpRead 0 requestID volumeID generation offset length 0.
Definition ok_response (cfg : Config) (latency op requestID volumeID generation : Z) : Wire1.ResponseHeader :=
  Wire1.mkResponseHeader (Wire1.mkHeader 0 0 0 op 0 requestID volumeID generation 0 0 0) Wire1.StatusOK latency latency (cfPathID cfg) 0.

Section Requests.
Context {S : Type} `{Service.ServiceMetadata S}.
Context (data : Service.DataRepository S) (cfg : Config) (elapsed latency : Z).

Lemma handle_write requestID v generation off tag d w w' : zlen d < 2 ^ 32 -> zlen d <= cfMaxIOSize cfg ->
  Service.Write data elapsed v off (zlen d) d w = (w', Ok tt) ->
  handleRequest data cfg elapsed latency (Wire1Facts.sealed (write_request requestID v generation off) (Wire1.EncodeWritePayload tag d))
    (Wire1.EncodeWritePayload tag d) w = (w', Ok (ok_response cfg latency Wire1.OpWriteResp requestID v generation, [])).
Proof.
  intros Hlen Hmax Hw. unfold handleRequest, serve.
  assert (exists tag', Wire1.DecodeWritePayload (Wire1.EncodeWritePayload tag d) = Ok (tag', d)) as [tag' Hdec].
  { unfold Wire1.DecodeWritePayload. assert (24 <= zlen (Wire1.EncodeWritePayload tag d)).
    { unfold Wire1.EncodeWritePayload. rewrite !zlen_app. unfold zlen. rewrite !length_le_split. lia. }
    destruct (Z.ltb_spec (zlen (Wire1.EncodeWritePayload tag d)) 24); [lia|]. eexists. reflexivity. }
  change (Wire1.hOp (Wire1Facts.sealed (write_request requestID v generation off) (Wire1.EncodeWritePayload tag d))) with Wire1.OpWrite.
  change (Wire1.OpWrite =? Wire1.OpRead) with false. change (Wire1.OpWrite =? Wire1.OpWrite) with true.
  cbn match. rewrite Hdec. unfold bounded, validateLogicalLength, maxLogicalLengthForOp.
  change (Wire1.OpWrite =? Wire1.OpDiscard) with false. change (Wire1.OpWrite =? Wire1.OpWriteZeroes) with false. cbn [orb].
  rewrite wrap32_small by (pose proof (zlen_nonneg d); unfold in_u; lia).
  rewrite (proj2 (Z.leb_le _ _) Hmax), orb_true_r. lazy zeta. unfold bind_act, call.
  change (Wire1.hVolumeID (Wire1Facts.sealed (write_request requestID v generation off) (Wire1.EncodeWritePayload tag d))) with v.
  change (Wire1.hOffsetBytes (Wire1Facts.sealed (write_request requestID v generation off) (Wire1.EncodeWritePayload tag d))) with off.
  rewrite Hw. reflexivity.
Qed.

Lemma handle_read requestID v generation o l w w' b : l <= cfMaxIOSize cfg ->
  Service.Read data elapsed v o l w = (w', Ok b) ->
  handleRequest data cfg elapsed latency (stamped (read_request requestID v generation o l)) [] w
  = (w', Ok (ok_response cfg latency Wire1.OpReadResp requestID v generation, b)).
Proof.
  intros Hmax Hr. unfold handleRequest, serve.
  change (Wire1.hOp (stamped (read_request requestID v generation o l)) =? Wire1.OpRead) with true.
  change (Wire1.hLengthBytes (stamped (read_request requestID v generation o l))) with l.
  change (Wire1.hVolumeID (stamped (read_request requestID v generation o l))) with v.
  change (Wire1.hOffsetBytes (stamped (read_request requestID v generation o l))) with o.
  cbn match. unfold bounded, validateLogicalLength, maxLogicalLengthForOp.
  change (Wire1.OpRead =? Wire1.OpDiscard) with false. change (Wire1.OpRead =? Wire1.OpWriteZeroes) with false. cbn [orb].
  rewrite (proj2 (Z.leb_le _ _) Hmax), orb_true_r. lazy zeta. unfold bind_act, call. rewrite Hr. reflexivity.
Qed.

End Requests.

Import MemMeta DataWorld WriteFacts PageWrite MemoryWorld ServiceFacts.

(** C21: the gateway is a block device for its clients.  When a client sends a write and a read of a volume over a v1
    connection to the in-memory gateway, both within the volume and the sizes the data plane admits, then, however the
    bytes are cut into reads, the connection answers both with success and then ends; the response to the read carries
    the written bytes inside the written range and the old bytes around it. *)
Theorem wire_block_device (vol : VolumeSpec) (planner : option (VolumeSpec -> Z -> Z -> result svc_error PhysicalChunkRef))
    (order : list PhysicalChunkRef -> list PhysicalChunkRef) (cfg : Config) (elapsed latency : Z)
    (decodeHello : bytes -> option HelloPayload) (encodeAck : HelloAckPayload -> bytes) (verify : string -> result token_error VerifiedToken)
    (now : nat -> Z) (nonce : string) (w : World) (mc : Metrics.MetricsCollector) (t : SessionTable)
    (id1 id2 generation off o l : Z) (tag : Wire1.WriteTag) (d : bytes) (chunks : list bytes) :
  geometry vol -> plan_ok vol planner -> Inv vol w -> MemMeta.volumes (repo w) !! vID vol = Some vol ->
  budget vol w (WriteRange.alone_cost vol off (zlen d)) -> Service.protectedWriteRejectionForVolume vol = None ->
  u64 id1 -> u64 id2 -> u64 generation -> u64 (vID vol) -> u64 off -> u64 o ->
  cfMaxIOSize cfg + 24 < 2 ^ 32 -> zlen d <= cfMaxIOSize cfg -> 0 <= l <= cfMaxIOSize cfg ->
  off + zlen d < 2 ^ 64 -> o + l < 2 ^ 64 ->
  Service.validateRange (vBlockSize vol) (vSizeBytes vol) off (zlen d) = None ->
  Service.validateRange (vBlockSize vol) (vSizeBytes vol) o l = None ->
  concat chunks = Wire1.EncodeMessage (write_request id1 (vID vol) generation off) (Wire1.EncodeWritePayload tag d)
                  ++ range_wire (read_request id2 (vID vol) generation o l) ->
  let data := chunk_extent_repository planner order in
  exists w' mc' out,
    handleConn data cfg elapsed latency decodeHello encodeAck verify 3 now nonce (fun _ => true) chunks Wire1.ErrEOF ((w, mc), t)
    = (((w', mc'), t),
       Wire1.EncodeResponseMessage (ok_response cfg latency Wire1.OpWriteResp id1 (vID vol) generation) []
       ++ Wire1.EncodeResponseMessage (ok_response cfg latency Wire1.OpReadResp id2 (vID vol) generation) out, EndEOF) /\
    zlen out = l /\
    forall i, 0 <= i < l -> out !! Z.to_nat i =
      Some (if WriteRange.in_range off (zlen d) (o + i)
            then default Byte.x00 (d !! Z.to_nat (o + i - off)) else byte_at vol w (o + i)).
Proof.
  intros Hg Hplan Hinv Hvol Hbudget Hprot Hid1 Hid2 Hgen Hv Hoff Ho Hio Hd Hl Hwrap Hol Hrange Hrr Hchunks. lazy zeta.
  pose proof (zlen_nonneg d). unfold in_u in *.
  destruct (service_block_device vol planner order elapsed off (zlen d) d w mc) as (w' & mc' & Hw & Hreads); try done; try lia.
  destruct (Hreads o l) as (mc2 & out & Hr & Hlen & Hbytes); [lia|lia|lia|done|]. exists w', mc2, out. split; [|done].
  set (data := chunk_extent_repository planner order) in *.
  set (hw := write_request id1 (vID vol) generation off). set (hr := read_request id2 (vID vol) generation o l).
  set (pw := Wire1.EncodeWritePayload tag d).
  assert (zlen pw = 24 + zlen d) as Hpw by (unfold pw, Wire1.EncodeWritePayload; rewrite !zlen_app; unfold zlen; rewrite !length_le_split; lia).
  assert (Wire1Facts.frame_ok (hw, pw)) as Hok.
  { split; [unfold Wire1Facts.header_wf, in_u; cbn; repeat split; (done || lia)|]. cbn [fst snd]. split; [lia|done]. }
  assert (Wire1Facts.header_wf hr) as Hwf by (unfold Wire1Facts.header_wf, in_u; cbn; repeat split; (done || lia)).
  set (frames := [(Wire1.EncodeMessage hw pw, (Wire1Facts.sealed hw pw, pw)); (range_wire hr, (stamped hr, [] : bytes))]).
  eapply (connection_answers data cfg elapsed latency decodeHello encodeAck verify frames now nonce chunks _ t _ _ 3 hw pw [range_wire hr]).
  - done.
  - done.
  - rewrite wrap32_small by (unfold in_u; lia). unfold frames. constructor; [|constructor; [|constructor]]; cbn [fst snd].
    + apply (encoded_delivers _ (hw, pw)); [done|cbn [snd]; lia].
    + by apply range_delivers.
  - rewrite Hchunks. unfold frames. cbn [map fst concat]. by rewrite app_nil_r.
  - unfold frames. cbn [map snd answers fst].
    pose proof (handle_write data cfg elapsed latency id1 (vID vol) generation off tag d (w, mc) (w', mc') ltac:(lia) Hd Hw) as E1.
    pose proof (handle_read data cfg elapsed latency id2 (vID vol) generation o l (w', mc') (w', mc2) out ltac:(lia) Hr) as E2.
    fold hw pw in E1. fold hr in E2. rewrite E1, E2.
    by rewrite app_nil_r.
  - cbn. lia.
Qed.

(** The volume of 40 bytes of [ServiceFacts], with the write of twelve bytes and the read cut in three. *)
Definition small_config : Config := New (mkConfig 3 "gw-a" 0 0 0 0 0 true true (list_byte_of_string "key")).
Definition demo_wire : bytes :=
  Wire1.EncodeMessage (write_request 1 7 5 4) (Wire1.EncodeWritePayload (Wire1.mkWriteTag 0 0 0) (ones 12))
  ++ range_wire (read_request 2 7 5 0 8).

Lemma wire_block_device_witness : exists w' mc' out,
  handleConn (chunk_extent_repository None (fun l => l)) small_config 0 9 (fun _ => None) (fun _ => []) (fun _ => Err ErrTokenInvalid) 3
    (fun _ => 0) "" (fun _ => true) [take 3 demo_wire; take 60 (drop 3 demo_wire); []; drop 63 demo_wire] Wire1.ErrEOF
    ((block_world, Metrics.NewMetricsCollector), NewSessionTable)
  = (((w', mc'), NewSessionTable),
     Wire1.EncodeResponseMessage (ok_response small_config 9 Wire1.OpWriteResp 1 7 5) []
     ++ Wire1.EncodeResponseMessage (ok_response small_config 9 Wire1.OpReadResp 2 7 5) out, EndEOF) /\
  zlen out = 8 /\ out !! 5%nat = Some Byte.x01.
Proof.
  destruct block_ok as [Hinv Hb].
  destruct (wire_block_device block_volume None (fun l => l) small_config 0 9 (fun _ => None) (fun _ => []) (fun _ => Err ErrTokenInvalid)
    (fun _ => 0) "" block_world Metrics.NewMetricsCollector NewSessionTable 1 2 5 4 0 8 (Wire1.mkWriteTag 0 0 0) (ones 12)
    [take 3 demo_wire; take 60 (drop 3 demo_wire); []; drop 63 demo_wire]
    block_geometry (default_plan_ok _) Hinv) as (w' & mc' & out & E & Hlen & Hout).
  { vm_compute. reflexivity. } { apply Hb. vm_compute. split; congruence. } { reflexivity. }
  1-6: vm_compute; split; congruence.
  { vm_compute. reflexivity. } { vm_compute. congruence. } { vm_compute. split; congruence. }
  1-5: vm_compute; reflexivity.
  exists w', mc', out. split; [exact E|]. split; [exact Hlen|].
  specialize (Hout 5 ltac:(lia)). vm_compute in Hout. exact Hout.
Defined.

(** ** Connections of protocol v2 *)

(** The table files each session under its identifier. *)
Definition table_ok (t : SessionTable) : Prop := forall id s, byID t !! id = Some s -> ssID s = id.

Lemma get_table now id t : table_ok t -> table_ok (Get now id t).1 /\ forall s, (Get now id t).2 = Some s ->
  (Get now id t).1 = t /\ byID t !! id = Some s /\ now <= ssExpiresAt s.
Proof.
  intros Ht. unfold Get. destruct (byID t !! id) as [s|] eqn:E; [|done]. destruct (Z.ltb_spec (ssExpiresAt s) now); cbn.
  - split; [|done]. intros id' s'. cbn. rewrite lookup_delete_Some. intros [_ ?]. by apply Ht.
  - split; [done|]. by intros s' [= <-].
Qed.

Lemma add_table s t : table_ok t -> table_ok (Add s t).1.
Proof.
  intros Ht id s'. unfold Add. lazy zeta. set (t1 := free_id _ _).
  assert (byID t1 = byID t) as E.
  { unfold t1. generalize (Datatypes.S (size (byID t))). clear. intros n. revert t. induction n as [|n IH]; intros t; cbn [free_id]; [done|].
    destruct (isSome _); [|done]. by rewrite IH. }
  clearbody t1. change (<[nextID t1 := s <| ssID := nextID t1 |>]> (byID t1) !! id = Some s' -> ssID s' = id).
  rewrite E, lookup_insert_Some. intros [[<- <-]|[_ H]]; [done|by apply Ht].
Qed.

Lemma open_session_table cfg hello verified nonce t : table_ok t -> table_ok (open_session cfg hello verified nonce t).1.
Proof.
  intros Ht. unfold open_session. lazy zeta. pose proof (add_table (mkSession 0 (tcVolumeID (vtClaims verified))
    (tcAttachmentID (vtClaims verified)) (tcGeneration (vtClaims verified)) (tcHostID (vtClaims verified)) (tcDeviceID (vtClaims verified))
    (cfPathID cfg) (vtExpiresAt verified) [] (Wire2.mkSeqChecker 0)) t Ht) as H.
  destruct (Add _ t) as [t' s]. cbn [fst] in *. generalize (DeriveSessionKey
    (if zlen (cfSessionDerivationKey cfg) =? 0 then list_byte_of_string (hpToken hello) else cfSessionDerivationKey cfg)
    (hpToken hello) (hpClientNonce hello) nonce (ssID s)). intros key id s'.
  change (<[ssID s := s <| ssSessionKey := key |>]> (byID t') !! id = Some s' -> ssID s' = id).
  rewrite lookup_insert_Some. intros [[<- <-]|[_ Hs]]; [done|by apply H].
Qed.

Lemma remove_table id t : table_ok t -> table_ok (Remove id t).
Proof. intros Ht id' s. cbn. rewrite lookup_delete_Some. intros [_ ?]. by apply Ht. Qed.

Lemma revoke_table v t : table_ok t -> table_ok (RevokeByVolume v t).
Proof. intros Ht id s. cbn. rewrite map_lookup_filter_Some. intros [? _]. by apply Ht. Qed.

Lemma authenticate_ok sess h payload tag sess' : authenticate sess h payload tag = Ok sess' ->
  (Wire2.hOp h = Wire2.OpHello \/ Wire2.hOp h = Wire2.OpHelloAck) \/
  Wire2.VerifyAuthTag (ssSessionKey sess) h payload tag = Ok tt /\
  Wire2.hSeqNo h = add64 (Wire2.lastSeqNo (ssSeq sess)) 1 /\ sess' = sess <| ssSeq := Wire2.mkSeqChecker (Wire2.hSeqNo h) |>.
Proof.
  unfold authenticate. intros Ha. destruct (_ || _) eqn:Hop in Ha.
  { left. apply orb_true_iff in Hop as [?%Z.eqb_eq|?%Z.eqb_eq]; [by left|by right]. }
  right. destruct (_ || _) in Ha; [done|].
  destruct (Wire2.VerifyAuthTag (ssSessionKey sess) h payload tag) as [[]|e|]; [|done|done]. unfold Wire2.CheckNext in Ha.
  destruct (Z.eqb_spec (Wire2.hSeqNo h) (add64 (Wire2.lastSeqNo (ssSeq sess)) 1)) as [Hs|Hs]; [|done].
  injection Ha as <-. done.
Qed.

Section V2.
Context {S : Type} `{Service.ServiceMetadata S}.
Context (data : Service.DataRepository S) (cfg : Config) (elapsed latency : Z).

(** The operations that a hello is not. *)
Lemma serve_hello f m op v off len payload w : op = Wire2.OpHello \/ op = Wire2.OpHelloAck ->
  serve data cfg elapsed f m op v off len payload w = (w, Ok (m, [])).
Proof. by intros [-> | ->]. Qed.

Lemma respond_state sess h payload w t :
  (respond_v2 data cfg elapsed latency sess h payload w t).1
  = ((serve data cfg elapsed mapErrorV2 Wire2.ErrBadAuthTag (Wire2.hOp h) (ssVolumeID sess) (Wire2.hOffsetBytes h)
        (Wire2.hLengthBytes h) payload w).1, t).
Proof.
  unfold respond_v2, handleRequestV2, bind_act. destruct (serve _ _ _ _ _ _ _ _ _ _ w) as [w' [r|[]|]]; done.
Qed.

End V2.

Lemma volume_state_pure v (w : World) : (Service.volumeState v w).1 = w.
Proof.
  destruct w as [r o c]. unfold Service.volumeState, Service.volumeStateFromSpec, bind_act. cbn.
  unfold on_repo, MemMeta.GetVolume, MemMeta.GetAttachment, MemMeta.with_volume. cbn.
  destruct (MemMeta.volumes r !! v); [|done]. cbn. destruct (MemMeta.volumes r !! _); done.
Qed.

(** The attachment of a volume is the one the session was opened for. *)
Definition session_current (w : World) (sess : Session) : Prop :=
  exists st, Service.volumeState (ssVolumeID sess) w = (w, Ok st) /\ Service.vsGeneration st = ssGeneration sess /\
    Service.vsAttachmentID st = ssAttachmentID sess /\ Service.vsAttachedHostID st = ssHostID sess /\
    Service.vsAttachedDeviceID st = ssDeviceID sess.

Lemma still_current sess (w : World) : (sessionStillCurrent sess w).1 = w /\
  ((sessionStillCurrent sess w).2 = Ok None -> session_current w sess).
Proof.
  pose proof (volume_state_pure (ssVolumeID sess) w) as Hp. unfold sessionStillCurrent, session_current.
  destruct (Service.volumeState (ssVolumeID sess) w) as [w' [st|e|]]; cbn in Hp |- *; subst w'; [|done|done]. split; [done|].
  destruct (Z.eqb_spec (Service.vsGeneration st) (ssGeneration sess)); [|done]. cbn [negb].
  destruct (String.eqb_spec (Service.vsAttachmentID st) (ssAttachmentID sess)); [|done].
  destruct (String.eqb_spec (Service.vsAttachedHostID st) (ssHostID sess)); [|done].
  destruct (Z.eqb_spec (Service.vsAttachedDeviceID st) (ssDeviceID sess)); [|done]. intros _. by exists st.
Qed.

Lemma frame_v2_changes data cfg elapsed latency now h payload tag (w : World) mc t : table_ok t ->
  let st' := (frame_v2 data cfg elapsed latency now h payload tag ((w, mc), t)).1 in
  st'.1 = (w, mc) \/
  exists sess, byID t !! Wire2.hSessionID h = Some sess /\ now <= ssExpiresAt sess /\ session_current w sess /\
    Wire2.VerifyAuthTag (ssSessionKey sess) h payload tag = Ok tt /\
    Wire2.hSeqNo h = add64 (Wire2.lastSeqNo (ssSeq sess)) 1 /\
    st'.1 = (serve data cfg elapsed mapErrorV2 Wire2.ErrBadAuthTag (Wire2.hOp h) (ssVolumeID sess) (Wire2.hOffsetBytes h)
               (Wire2.hLengthBytes h) payload (w, mc)).1 /\
    byID st'.2 !! Wire2.hSessionID h = Some (sess <| ssSeq := Wire2.mkSeqChecker (Wire2.hSeqNo h) |>).
Proof.
  intros Ht. lazy zeta. unfold frame_v2. destruct (get_table now (Wire2.hSessionID h) t Ht) as [_ Hget].
  destruct (Get now (Wire2.hSessionID h) t) as [t1 [sess|]]; [|by left]. cbn [fst snd] in Hget.
  destruct (Hget sess eq_refl) as (-> & Hs & Hexp). destruct (still_current sess w) as [Hw Hcur].
  destruct (sessionStillCurrent sess w) as [w1 [[code|]|e|]]; cbn [fst snd] in Hw, Hcur; subst w1; [by left| |by left|by left].
  specialize (Hcur eq_refl). destruct (authenticate sess h payload tag) as [sess'|code|] eqn:Ha; [|by left|by left].
  rewrite respond_state. cbn [fst snd]. apply authenticate_ok in Ha as [Hop|(Hv & Hseq & ->)].
  - left. by rewrite (serve_hello data cfg elapsed mapErrorV2 Wire2.ErrBadAuthTag (Wire2.hOp h) _ _ _ payload (w, mc) Hop).
  - right. exists sess. split_and!; [done..|].
    change (<[ssID sess := sess <| ssSeq := Wire2.mkSeqChecker (Wire2.hSeqNo h) |>]> (byID t) !! Wire2.hSessionID h
            = Some (sess <| ssSeq := Wire2.mkSeqChecker (Wire2.hSeqNo h) |>)).
    rewrite (Ht _ _ Hs). apply lookup_insert_eq.
Qed.

Lemma frame_v2_table {S} `{Service.ServiceMetadata S} (data : Service.DataRepository S) cfg elapsed latency now h payload tag s mc t :
  table_ok t -> table_ok (frame_v2 data cfg elapsed latency now h payload tag ((s, mc), t)).1.2.
Proof.
  intros Ht. unfold frame_v2. destruct (get_table now (Wire2.hSessionID h) t Ht) as [Ht1 _].
  destruct (Get now (Wire2.hSessionID h) t) as [t1 [sess|]]; cbn [fst snd] in *; [|done].
  destruct (sessionStillCurrent sess s) as [s1 [[code|]|e|]]; cbn [fst snd]; [by apply remove_table| |done|done].
  destruct (authenticate sess h payload tag) as [sess'|code|] eqn:Ha; [|done|done]. rewrite respond_state. cbn [snd].
  intros id x. change (<[ssID sess' := sess']> (byID t1) !! id = Some x -> ssID x = id). rewrite lookup_insert_Some.
  intros [[<- <-]|[_ ?]]; [done|by apply Ht1].
Qed.

(** C27: on a v2 connection only the current writer reaches the service.  A frame that changes anything in the service
    names a session of the table that has not expired and whose attachment, generation, host and device are still those
    of the volume, carries the tag of that session and its next sequence number, and acts on the volume of the session
    whatever volume the frame names; and the same frame sent again has no effect. *)
Theorem v2_frames_fenced (planner : option (VolumeSpec -> Z -> Z -> result svc_error PhysicalChunkRef))
    (order : list PhysicalChunkRef -> list PhysicalChunkRef) (cfg : Config) (elapsed latency now now' : Z)
    (h : Wire2.Header) (payload tag : bytes) (w : World) (mc : Metrics.MetricsCollector) (t : SessionTable) :
  table_ok t -> u64 (Wire2.hSeqNo h) ->
  let data := chunk_extent_repository planner order in
  let st' := (frame_v2 data cfg elapsed latency now h payload tag ((w, mc), t)).1 in
  st'.1 <> (w, mc) ->
  (exists sess, byID t !! Wire2.hSessionID h = Some sess /\ now <= ssExpiresAt sess /\ session_current w sess /\
     Wire2.VerifyAuthTag (ssSessionKey sess) h payload tag = Ok tt /\
     Wire2.hSeqNo h = add64 (Wire2.lastSeqNo (ssSeq sess)) 1 /\
     st'.1 = (serve data cfg elapsed mapErrorV2 Wire2.ErrBadAuthTag (Wire2.hOp h) (ssVolumeID sess) (Wire2.hOffsetBytes h)
                (Wire2.hLengthBytes h) payload (w, mc)).1) /\
  (frame_v2 data cfg elapsed latency now' h payload tag st').1.1 = st'.1.
Proof.
  intros Ht Hu. lazy zeta. set (data := chunk_extent_repository planner order). intros Hne.
  destruct (frame_v2_changes data cfg elapsed latency now h payload tag w mc t Ht) as [?|(sess & H1 & H2 & H3 & H4 & H5 & H6 & H7)]; [done|].
  split; [by exists sess|].
  assert (table_ok (frame_v2 data cfg elapsed latency now h payload tag ((w, mc), t)).1.2) as Ht'.
  { by apply frame_v2_table. }
  destruct (frame_v2 data cfg elapsed latency now h payload tag ((w, mc), t)).1 as [[w1 mc1] t1]. cbn [fst snd] in *.
  destruct (frame_v2_changes data cfg elapsed latency now' h payload tag w1 mc1 t1 Ht') as [?|(sess' & G1 & _ & _ & _ & G5 & _)]; [done|].
  exfalso. rewrite H7 in G1. injection G1 as <-. cbn in G5. unfold add64, wrap64, in_u in *.
  destruct (Z.eq_dec (Wire2.hSeqNo h) (2 ^ 64 - 1)) as [E|E]; [rewrite E in G5; by vm_compute in G5|].
  rewrite Z.mod_small in G5 by lia. lia.
Qed.

(** A session on the volume of 40 bytes, and a write of its client. *)
Definition demo_attached : World :=
  mkWorld (MemMeta.Attach 1000 (mkAttachRequest 7 "host-1" 3 "gw-a") (repo block_world)).1 (objects block_world) 1000.
Definition demo_generation : Z := aGeneration (MemMeta.attachment_of (repo demo_attached) 7).
Definition demo_session : Session :=
  mkSession 1 7 (aAttachmentID (MemMeta.attachment_of (repo demo_attached) 7)) demo_generation "host-1" 3 3 5000
    (list_byte_of_string "session key") (Wire2.mkSeqChecker 4).
Definition demo_table : SessionTable := mkSessionTable {[1 := demo_session]} 2.
Definition demo_payload : bytes := Wire1.EncodeWritePayload (Wire1.mkWriteTag 0 0 0) (ones 4).
Definition demo_header : Wire2.Header :=
  Wire2.mkHeader Wire2.MagicV2 Wire2.VersionV2 Wire2.HeaderSizeV2 Wire2.OpWrite 0 11 7 demo_generation 1 5 8 28 32 0 0.
Definition demo_tag : bytes := Wire2.ComputeAuthTag (ssSessionKey demo_session) demo_header demo_payload.

Lemma v2_frames_fenced_witness :
  let data := chunk_extent_repository None (fun l => l) in
  let st' := (frame_v2 data small_config 0 9 2000 demo_header demo_payload demo_tag
                ((demo_attached, Metrics.NewMetricsCollector), demo_table)).1 in
  session_current demo_attached demo_session /\
  (frame_v2 data small_config 0 9 2001 demo_header demo_payload demo_tag st').1.1 = st'.1.
Proof.
  destruct (v2_frames_fenced None (fun l => l) small_config 0 9 2000 2001 demo_header demo_payload demo_tag demo_attached
    Metrics.NewMetricsCollector demo_table) as [(sess & Hs & _ & Hc & _) Hr].
  - intros id s. unfold demo_table. cbn [byID]. rewrite lookup_singleton_Some. intros [<- <-]. reflexivity.
  - vm_compute. split; congruence.
  - intros E. apply (f_equal (fun x => size (Metrics.byOperation x.2))) in E. vm_compute in E. discriminate.
  - assert (byID demo_table !! Wire2.hSessionID demo_header = Some demo_session) as E by reflexivity.
    rewrite E in Hs. injection Hs as <-. split; [exact Hc|exact Hr].
Defined.

(** ** The tags of responses *)

Section Tags.
Import Wire2 Wire2Facts.

(** The header of a response as the encoder completes it, and as it is received. *)
Definition completed (h : Header) (payload : bytes) : Header :=
  h <| hMagic := MagicV2 |> <| hVersion := VersionV2 |> <| hHeaderLen := ResponseHeaderSizeV2 |>
    <| hLengthBytes := zlen payload |> <| hAuthLen := AuthTagSize |>.
Definition completed_crc (h : Header) (payload : bytes) : Header :=
  completed h payload <| hCRC32C := crc32c (take 72 (putHeaderWithoutCRC (completed h payload))) |>.

Lemma completed_wf h payload : header_wf h -> zlen payload < 2 ^ 32 -> header_wf (completed_crc h payload).
Proof.
  intros (?&?&?&?&?&?&?&?&?&?&?&?&?&?&?) Hlen. pose proof (zlen_nonneg payload).
  pose proof (crc32c_range (take 72 (putHeaderWithoutCRC (completed h payload)))) as Hcrc. revert Hcrc.
  unfold completed_crc. generalize (crc32c (take 72 (putHeaderWithoutCRC (completed h payload)))). intros crc Hcrc.
  unfold header_wf, completed, in_u, MagicV2, VersionV2, ResponseHeaderSizeV2, HeaderSizeV2, AuthTagSize in *. cbn. repeat split; lia.
Qed.

(** A response with a tag is decoded into the completed header, the payload and the tag. *)
Lemma response_decodes r payload tag : header_wf (rBase r) -> zlen payload < 2 ^ 32 -> zlen tag = AuthTagSize ->
  exists r', DecodeResponseMessage (EncodeResponseMessage r payload tag).2 = Ok (r', payload, tag) /\
    rBase r' = completed_crc (rBase r) payload.
Proof.
  intros Hwf Hlen Htag. pose proof (zlen_nonneg payload).
  pose proof (completed_wf _ _ Hwf Hlen) as Hcw.
  unfold EncodeResponseMessage. rewrite wrap32_small by (unfold in_u; lia). rewrite Htag.
  change (AuthTagSize =? AuthTagSize) with true. cbv iota zeta. cbn [snd].
  change (rBase r <| hMagic := MagicV2 |> <| hVersion := VersionV2 |> <| hHeaderLen := ResponseHeaderSizeV2 |>
    <| hLengthBytes := zlen payload |> <| hAuthLen := AuthTagSize |>) with (completed (rBase r) payload).
  change (0 <? hAuthLen (completed (rBase r) payload)) with true. cbv iota.
  set (tail := response_tail _). assert (zlen tail = 20) as Htail by reflexivity.
  set (hd := take 72 (putHeaderWithoutCRC (completed (rBase r) payload)) ++ le_split 4 (crc32c (take 72 (putHeaderWithoutCRC (completed (rBase r) payload)))) ++ tail).
  set (b := _ ++ _ ++ tail ++ payload ++ tag). assert (b = hd ++ payload ++ tag) as Hb.
  { unfold b, hd. by rewrite <-!app_assoc. }
  assert (zlen hd = 96) as Hhd.
  { unfold hd. rewrite !zlen_app, Htail. reflexivity. }
  assert (parseHeader (take 76 b) = completed_crc (rBase r) payload) as Hp.
  { unfold b. by rewrite parse_put_v2. }
  assert (take 72 b = take 72 (putHeaderWithoutCRC (completed (rBase r) payload))) as H72.
  { unfold b. by rewrite take_app_exact. }
  unfold DecodeResponseMessage. rewrite Hp, H72.
  assert (zlen b = 96 + zlen payload + 32) as Hzb by (rewrite Hb, !zlen_app, Hhd, Htag; unfold AuthTagSize; lia).
  rewrite Hzb. destruct (Z.ltb_spec (96 + zlen payload + 32) ResponseHeaderSizeV2) as [Hx|_]; [unfold ResponseHeaderSizeV2, HeaderSizeV2 in Hx; lia|].
  change (hMagic (completed_crc (rBase r) payload) =? MagicV2) with true. change (hVersion (completed_crc (rBase r) payload) =? VersionV2) with true.
  change (hCRC32C (completed_crc (rBase r) payload)) with (crc32c (take 72 (putHeaderWithoutCRC (completed (rBase r) payload)))).
  rewrite Z.eqb_refl. cbn [negb orb]. cbv zeta.
  change (hLengthBytes (completed_crc (rBase r) payload)) with (zlen payload).
  change (hAuthLen (completed_crc (rBase r) payload)) with 32. change ResponseHeaderSizeV2 with 96. rewrite Z.ltb_irrefl.
  change (0 <? 32) with true. cbv iota. match goal with |- context [mkResponseHeader ?h ?s ?x ?y ?z ?u] => exists (mkResponseHeader h s x y z u) end.
  split; [|reflexivity]. f_equal. f_equal; [f_equal|].
  - rewrite Hb. unfold slice. rewrite drop_app_exact by (unfold zlen in Hhd; lia). apply take_app_exact. unfold zlen. lia.
  - rewrite Hb, app_assoc. unfold slice. rewrite drop_app_exact by (rewrite length_app; unfold zlen in *; lia).
    apply firstn_all2. unfold zlen, AuthTagSize in *. lia.
Qed.

End Tags.

(** C28: no response of a v2 connection verifies.  The response to a request of a session decodes to the payload, a tag
    and a header of version 2, and this tag passes the check of the received header only if two different messages
    have the same HMAC: the tag was computed while the version and the length of the header were still 0. *)
Theorem v2_response_tag_rejected {S : Type} `{Service.ServiceMetadata S} (data : Service.DataRepository S) (cfg : Config)
    (elapsed latency : Z) (sess : Session) (h : Wire2.Header) (payload p : bytes) (w w' : DataPlane.state) (t : SessionTable)
    (resp : Wire2.ResponseHeader) :
  Wire2Facts.header_wf h -> u64 (ssVolumeID sess) -> u64 (ssGeneration sess) -> u64 (ssID sess) ->
  handleRequestV2 data cfg elapsed latency h payload sess w = (w', Ok (resp, p)) -> zlen p < 2 ^ 32 ->
  exists wire r tag,
    respond_v2 data cfg elapsed latency sess h payload w t = ((w', t), Respond wire) /\
    Wire2.DecodeResponseMessage wire = Ok (r, p, tag) /\
    Wire2.hVersion (Wire2.rBase r) = 2 /\ Wire2.hVersion (Wire2.rBase resp) = 0 /\
    Wire2.AAD (Wire2.rBase resp) ++ p <> Wire2.AAD (Wire2.rBase r) ++ p /\
    (Wire2.VerifyAuthTag (ssSessionKey sess) (Wire2.rBase r) p tag = Ok tt <->
     hmac_sha256 (ssSessionKey sess) (Wire2.AAD (Wire2.rBase resp) ++ p)
     = hmac_sha256 (ssSessionKey sess) (Wire2.AAD (Wire2.rBase r) ++ p)).
Proof.
  intros Hwf Hv Hg Hs Hreq Hlen. set (tag := Wire2.ComputeAuthTag (ssSessionKey sess) (Wire2.rBase resp) p).
  assert (zlen tag = Wire2.AuthTagSize) as Htag by (unfold tag, Wire2.ComputeAuthTag, zlen; by rewrite length_hmac_sha256).
  assert (exists st, resp = Wire2.mkResponseHeader (Wire2.mkHeader 0 0 0 (responseOpV2 (Wire2.hOp h)) (Wire2.hFlags h) (Wire2.hRequestID h)
    (ssVolumeID sess) (ssGeneration sess) (ssID sess) (Wire2.hSeqNo h) 0 0 0 0 0) st latency latency (cfPathID cfg) 0) as [st E].
  { unfold handleRequestV2, bind_act in Hreq. destruct (serve _ _ _ _ _ _ _ _ _ _ w) as [? [[st ?]|[]|]]; [|done].
    injection Hreq as _ <- _. by exists st. }
  assert (Wire2Facts.header_wf (Wire2.rBase resp)) as Hrwf.
  { rewrite E. destruct Hwf as (?&?&?&Hop&?&?&?&?&?&?&?&?&?&?&?). unfold Wire2Facts.header_wf, in_u in *. cbn.
    repeat split; try lia; unfold responseOpV2; repeat split_match; try lia; vm_compute; congruence. }
  destruct (response_decodes resp p tag Hrwf Hlen Htag) as (r & Hdec & Hbase).
  exists (Wire2.WriteResponseFrame resp p tag).2, r, tag. split; [unfold respond_v2; by rewrite Hreq|]. split; [done|].
  rewrite Hbase. split; [done|]. split; [by rewrite E|]. split.
  - intros Heq. apply Wire2Facts.AAD_app_inj in Heq as [Heq _]; [|done|by apply completed_wf].
    rewrite E in Heq. apply (f_equal (fun x => x.1.1.1.1.1.1.1.1)) in Heq. change (0 = 2) in Heq. lia.
  - rewrite Wire2Facts.verify_computed. done.
Qed.

(** The heartbeat of a session. *)
Definition demo_heartbeat : Wire2.Header := Wire2.mkHeader Wire2.MagicV2 Wire2.VersionV2 Wire2.HeaderSizeV2 Wire2.OpHeartbeat 0 11 7 demo_generation 1 5 0 0 32 0 0.

(** The client's check of the response to a request. *)
Definition tag_check (o : DataPlane.outcome) : option (result Wire2.wire_error unit) :=
  match o with
  | Respond wire =>
      match Wire2.DecodeResponseMessage wire with
      | Ok (r, p, tag) => Some (Wire2.VerifyAuthTag (ssSessionKey demo_session) (Wire2.rBase r) p tag)
      | _ => None
      end
  | _ => None
  end.

Lemma heartbeat_tag_rejected :
  tag_check (respond_v2 (chunk_extent_repository None (fun l => l)) small_config 0 9 demo_session demo_heartbeat []
    (demo_attached, Metrics.NewMetricsCollector) demo_table).2 = Some (Err Wire2.ErrAuthTagMismatch).
Proof. vm_compute. reflexivity. Qed.

Definition demo_state : DataPlane.state := (demo_attached, Metrics.NewMetricsCollector).
Definition demo_response : Wire2.ResponseHeader :=
  Wire2.mkResponseHeader (Wire2.mkHeader 0 0 0 Wire2.OpHeartbeat 0 11 7 demo_generation 1 5 0 0 0 0 0) 0 9 9 3 0.

Lemma heartbeat_request : handleRequestV2 (chunk_extent_repository None (fun l => l)) small_config 0 9 demo_heartbeat [] demo_session demo_state
  = (demo_state, Ok (demo_response, [])).
Proof. reflexivity. Qed.

Lemma heartbeat_rejected st wire r p tag :
  respond_v2 (chunk_extent_repository None (fun l => l)) small_config 0 9 demo_session demo_heartbeat [] demo_state demo_table
  = (st, Respond wire) -> Wire2.DecodeResponseMessage wire = Ok (r, p, tag) ->
  Wire2.VerifyAuthTag (ssSessionKey demo_session) (Wire2.rBase r) p tag = Err Wire2.ErrAuthTagMismatch.
Proof.
  intros H1 H2. pose proof heartbeat_tag_rejected as H3. unfold demo_state in H1. rewrite H1 in H3. cbn [snd] in H3.
  unfold tag_check in H3. rewrite H2 in H3. by injection H3.
Qed.

Lemma v2_response_tag_rejected_witness :
  exists wire r tag,
    respond_v2 (chunk_extent_repository None (fun l => l)) small_config 0 9 demo_session demo_heartbeat [] demo_state demo_table
    = ((demo_state, demo_table), Respond wire) /\
    Wire2.DecodeResponseMessage wire = Ok (r, [], tag) /\
    Wire2.VerifyAuthTag (ssSessionKey demo_session) (Wire2.rBase r) [] tag = Err Wire2.ErrAuthTagMismatch.
Proof.
  destruct (v2_response_tag_rejected (chunk_extent_repository None (fun l => l)) small_config 0 9 demo_session demo_heartbeat [] []
    demo_state demo_state demo_table demo_response) as (wire & r & tag & H1 & H2 & _).
  1-4: vm_compute; repeat split; congruence.
  { exact heartbeat_request. } { vm_compute. congruence. }
  exists wire, r, tag. split; [exact H1|]. split; [exact H2|]. exact (heartbeat_rejected _ _ _ _ _ H1 H2).
Defined.

End DataPlaneFacts.
